(* ===== verification/_CoqProject ===== *)
-Q . S2P
Prelude.v
JsString.v
JsMap.v
Json.v
Normalize.v
Calendar.v
Interference.v
Types.v
DomainEvents.v
Fold.v
Lifecycle.v
EventStore.v
SnapshotStore.v
FoldSnapshots.v
Streams.v
Merge.v
Csv.v
SafeRegex.v
Like.v
Predicates.v
Schema.v
FieldPolicy.v
AutomationRun.v
AutomationService.v
AutomationRules.v
AutomationPlanner.v
AppGraph.v
Permissions.v
Workflow.v
WorkflowService.v
WorkflowOwnership.v
Naming.v
NamingSeries.v
NamingConfiguration.v
UniqueValues.v
NamingService.v
CommandPolicy.v
Collaboration.v
References.v
Access.v
DocumentUpdate.v
DocumentWrites.v
DocumentService.v
DocumentSteps.v
DocumentBulk.v
DocumentCalls.v
UpdateMarks.v
AutomationConsumer.v
AutomationDelivery.v
Creation.v
DocumentLife.v
UniqueHistory.v
Doctypes.v
Registration.v
CustomFields.v
CustomTables.v
DeliveryOutbox.v
AuditEvents.v
OutboxService.v
OutboxLife.v
OutboxCalls.v
OutboxPlans.v
OutboxCorrect.v
OutboxConsumer.v
OutboxDrain.v
DataPatches.v
DataPatchRunner.v
DataPatchPlans.v
DataPatchRuns.v
DataPatchKept.v
DataPatchPromises.v
Jobs.v
JobServices.v
JobRuns.v
JobConsumer.v
DataPatchJobs.v
JobSchedules.v
JobScheduleService.v
JobScheduleRuns.v
