(* ===== verification/Prelude.v ===== *)
(** * The event-sourced core of cf-frappe, verified

    cf-frappe is a document framework: every document is a stream of domain
    events, its state is the fold of the stream, and commands append events
    under an optimistic version check.  This library models the parts of
    [src/core], [src/application] and [src/adapters/in-memory] that carry this
    logic, and proves what they promise each other.  This file is the root: its
    header documents the whole development, its body holds the definitions and
    lemmas that every file shares ([res], the error monad; the codes of
    [core/errors.ts]; generic facts on lists, options and integers; tactics).

    ** How the program is put together, and where each part is modelled

    - Values.  [JsString] (UTF-16 strings and the string methods used),
      [JsMap] (insertion-ordered [Map]s and objects), [Json] (JavaScript values,
      binary64 numbers as [spec_float], [core/json.ts]), [Types]
      ([core/types.ts], the event payloads), [Calendar] (the UTC calendar of
      [Date], for naming patterns), [Normalize] (the checks that the normalisers
      of metadata share).
    - Events.  [DomainEvents] ([core/domain-events.ts],
      [core/document-snapshots.ts]) numbers and clones events; [Fold]
      ([core/events.ts]) folds a document, its assignees, tags and followers;
      [Lifecycle] ([application/document-lifecycle-events.ts]) makes the events
      of a document's life and projects its snapshot; [Streams]
      ([core/streams.ts]) names the streams.
    - Stores.  [EventStore] models the in-memory event and document stores
      ([adapters/in-memory/event-store.ts], [document-store.ts]): reads,
      [append], [appendBatch], [commit], [commitBatch], [save].  [SnapshotStore]
      models the bounded store of folded state ([snapshot-store.ts]).
      [FoldSnapshots] ([application/stream-fold-snapshots.ts],
      [document-fold-snapshots.ts]) reads a stream forward from such a snapshot.
      The three meet at two interfaces: [StreamLog], what a log promises to a
      reader, and [SnapshotPort], what a snapshot store promises (a lookup
      returns what some write stored under that key, or nothing).
    - Editing.  [Merge] ([core/document-merge.ts]) merges a draft with what
      others saved meanwhile; [Csv] ([application/csv.ts]) exports and imports
      tables.
    - Patterns and conditions.  [SafeRegex] ([core/safe-regex.ts]), [Like] (LIKE
      patterns and [core/like-glob.ts]), [Predicates] ([core/predicates.ts]).
    - Metadata.  [Schema] ([core/schema.ts]: defaults and validation of data),
      [Doctypes] (the rest of it: [defineDocType]; [core/identifiers.ts]),
      [Registration] (their registration; [core/registry.ts], whose lookup is in
      [Types]), [Workflow] ([core/workflow.ts]: state
      machines of documents), [Naming] and [NamingSeries] ([core/naming.ts]:
      patterns and series; the second holds the theorems),
      [NamingConfiguration] ([core/naming-configuration.ts],
      [application/naming-events.ts], [document-naming.ts],
      [metadata-revision.ts]).
    - Services on metadata.  [WorkflowService] ([application/workflow-service.ts],
      [workflow-events.ts], [workflow-policy.ts]) saves and clears workflows,
      [WorkflowOwnership] proves that they never share a state field;
      [NamingService] ([application/naming-service.ts]) saves strategies and
      moves counters.  [CustomFields] ([core/custom-fields.ts],
      [application/custom-field-service.ts], [custom-field-policy.ts],
      [custom-field-events.ts]) extends doctypes with the fields of a tenant;
      its search for tables that recurse is the first part of the file, and
      [CustomTables] proves that there are none.
    - Commands on documents.  [FieldPolicy] ([application/document-field-policy.ts]),
      [References] ([document-reference-policy.ts], [document-tenant-policy.ts]),
      [Access] ([document-access-policy.ts], [document-field-access-policy.ts]),
      [UniqueValues]
      ([document-unique-values.ts], [document-atomic-commit-policy.ts]) and
      [CommandPolicy] ([document-command-policy.ts],
      [document-command-events.ts]) and [Collaboration]
      ([document-collaboration-policy.ts], [document-collaboration-events.ts],
      [document-share-events.ts]) decide; [DocumentUpdate] is the decision of an
      update, with the hooks of [core/document-hooks.ts], and [DocumentWrites] the planning and making of the writes of each
      command, [DocumentService] the commands themselves, all of
      [application/document-service.ts]; [DocumentBulk] runs them over a selection
      ([document-bulk-policy.ts]).
    - What the commands keep.  [Interference] ends with a logic of pre- and
      postconditions for calls under interference; [DocumentSteps] says what a commit of a command is
      (a step: one event on the document, with the reservations, the series and the
      runs that go with it); [DocumentCalls] proves that every command of the service
      writes by such steps only; [Creation], [DocumentLife] and [UniqueHistory] draw
      the conclusions.
    - Automations.  [AutomationRules] ([core/automation-rules.ts],
      [core/document-change.ts]) says which actions an event triggers;
      [AutomationPlanner] turns them into runs and cuts loops; [AutomationRun]
      ([application/automation-run-events.ts], [automation-run-policy.ts]) is the
      life of one run; [AutomationService] ([automation-run-service.ts]) claims
      and completes runs over the document store; [AutomationConsumer]
      ([automation-run-consumer.ts]) delivers them by updates of the document
      service, of which [UpdateMarks] proves that one writes its event once, and
      [AutomationDelivery] that the services together apply no action twice.
    - Deliveries.  [AuditEvents] ([adapters/in-memory/audit-events.ts]) reads the
      history of a name inside a stream; [DeliveryOutbox]
      ([application/document-delivery-outbox-events.ts],
      [document-delivery-outbox-service-policy.ts]) folds the records of a tenant's
      outbox, [OutboxService] ([document-delivery-outbox-service.ts]) enqueues, claims
      and completes them, and [OutboxConsumer] ([document-delivery-outbox-consumer.ts],
      [document-delivery-outbox-consumer-policy.ts]) drains them.  [OutboxLife] says when
      an event may follow in the stream of an outbox, and that what is read from a
      checkpoint on is the whole stream's, [OutboxCalls] and [OutboxPlans] that the calls append only what may follow, and [OutboxCorrect] and
      [OutboxDrain] draw the conclusions.
    - Data patches.  [DataPatches] ([ports/data-patch-log.ts],
      [application/data-patch-journal-policy.ts], [adapters/in-memory/data-patch-log.ts])
      is the journal of claims, runs and rollbacks; [DataPatchRunner]
      ([core/data-patch.ts], [application/data-patch-runner.ts],
      [data-patch-service.ts] and the policies beside them) plans patches, runs them and
      rolls them back.  [DataPatchPlans] is about the plans; [DataPatchRuns] says what a
      runner relies on and what it guarantees, and that the operations of the journal keep
      it, [DataPatchKept] the runner, and [DataPatchPromises] the service.
    - Jobs.  [Jobs] ([core/jobs.ts], [application/job-errors.ts],
      [job-payload-policy.ts]) is the registry, the retry policies and the messages;
      [JobServices] ([application/job-dispatcher.ts], [job-executor.ts],
      [job-retry-service.ts], [job-history-service.ts] and their policies,
      [adapters/in-memory/job-execution-log.ts], [job-queue.ts]) queues, runs, retries
      and lists them, [JobRuns] proves what a run and a retry leave in the log and
      what many executors on one log do, and [JobConsumer]
      ([cloudflare/job-consumer.ts]) disposes of a batch of the queue.  [DataPatchJobs]
      ([application/data-patch-jobs.ts], [data-patch-job-policy.ts],
      [data-patch-dashboard-policy.ts]) are the jobs that run enqueued data-patch plans.
      [JobSchedules] ([application/job-schedule-events.ts], [job-schedule-policy.ts]) is
      the state of the schedules of jobs and the decisions on it; [JobScheduleService]
      ([job-schedule-service.ts], [cloudflare/scheduled-jobs.ts] and the handler of
      triggers of [cloudflare/app.ts]) saves, overrides and dispatches them, and
      [JobScheduleRuns] proves what a trigger does after such a call.
    - Access and packaging.  [Permissions] ([core/permissions.ts],
      [field-permissions.ts], [document-shares.ts], [user-permissions.ts]);
      [AppGraph] ([core/app-graph.ts], [app-name.ts]) orders apps for
      installation.

    ** Conventions

    A function that may throw returns [res]: [Ok], or [Throw] with the code and
    the HTTP status of the [FrameworkError] (messages and issue lists are
    dropped).  A method of a store takes the store and returns it with the
    [res], so that what is left after a throw is visible.  Names are the
    source's; where two private functions of different files share a name, the
    model qualifies one.  A [Map] or object whose order is observed is a
    [JsMap]; otherwise it is a [gmap].  Versions and counts are unbounded
    integers [Z]; field values that are numbers are binary64.  Times are ISO
    strings compared as strings, as in the code.

    What the language's host decides is an argument of the definitions: the text
    of a number or object ([host_text], [predicate_host], [NamingHost]), the case
    folding and canonicalisation of a character, the collation of
    [localeCompare] ([Collation]), adding milliseconds to an ISO time
    ([DateHost]), parsing and writing one ([TimeHost]), SQLite's [GLOB] (with its
    documented rules as
    hypotheses, [glob_rules]), the generated identifiers and the clock.  So are
    the functions that an application registers: hooks, resolvers of doctypes,
    providers of permissions and shares.  Each theorem with such hypotheses has a
    witness with a concrete host.

    Concurrency: an asynchronous method can be interleaved at each [await].  The
    services take what other clients do there as an argument [env]
    ([Interference]: a call is a state monad over a [Client], which holds the
    store, the awaits so far and the identifiers taken), and their theorems hold
    for every [env] that the store allows: a [store_step] is one call of the
    store, [store_history] the invariant of all their histories, and
    [history_ok] relates what a call sees to such a history.

    ** What the theorems show

    - Log: [append_refines_log], [readStream_page], [append_race],
      [commitBatch_atomic], [store_history]: the store is an append-only log per
      stream, of two writers at the same version at most one wins, a commit is
      all or nothing.  [appendBatch_duplicate_stream] records where the in-memory
      store departs from the database adapter.
    - Folds: [foldDocument_resume], [foldDocument_version], [foldSetFrom_elem];
      [lifecycle_projection_fold] (a projected snapshot is the fold); and, through
      the snapshot store ([snapshot_write_newest], [snapshot_store_bounded]),
      [stream_snapshot_ignorable], [document_snapshot_ignorable],
      [document_commit_resume]: a snapshot is a cache that can never change an
      answer.
    - Commands: [accepted_update] (what an accepted change leaves of a document),
      [command_follows_workflows] (domain commands move workflows along their
      machines), [redaction_exact], [field_states_enforced] (what an actor is
      shown and told is what is enforced), [links_exact], [reachable_doctypes].
    - Documents: [application_unique_values] (no two documents of an application ever
      hold the same value of a unique field; [service_unique_values] for doctypes that
      are resolved), [service_documents_live] (the stream of a document is a life:
      created once, then changed, submitted, cancelled and deleted in that order
      only), [creation_starts_stream] and [create_loop_ends] on creation,
      [bulk_runs_all] and [bulk_selections_exact] on selections,
      [collection_change_exact] on assignees, tags and followers.  The first two hold
      of every call of the service, whether it returns or throws, and whatever other
      clients that keep them do at each [await].
    - Metadata: [defineDocType_exact], [defined_doctype_normal], [registration_sound]
      on definitions: what is registered is in normal form, refers to what is
      registered, and is what the service theorems suppose; [validation_exact], [applyDefaults_spec],
      [conditional_requirement_lost] on data; [normalized_workflows_sound],
      [transition_decision], [workflow_refines_machine], [workflow_in_force],
      [workflow_fields_exclusive], [effectiveDocType_blocked] on workflows;
      [table_search_exact], [custom_tables_acyclic] on custom fields (the search finds
      exactly the cycles of tables, and no history of the service makes one);
      [normalized_series_sound], [naming_pattern_roundtrip],
      [naming_scan_exact], [naming_scan_finds], [naming_scope_identity],
      [isoWeek_iso8601], [calendar_roundtrip] on names.
    - Automations: [automation_runs_distinct], [normalizeAutomationRules_idempotent],
      [planner_cuts_loops], [planner_starts_runs], [planner_batch_ok] on planning;
      [run_fold_state], [retry_backoff], [automation_snapshot_roundtrip] on one
      run; [service_life], [claimOne_claims], [markDelivered_delivers],
      [markFailed_fails], [run_terminal], [claim_lease] on the service under
      interference; [actions_applied_once] and [drain_exact] on deliveries: an
      action is applied once however often its run is delivered, also when the
      update throws after its commit, and every claimed run has its outcome.
    - Deliveries, under interference: [outbox_lives_kept] (a record is enqueued once,
      claimed while it waits, completed by the claim that holds it, delivered once),
      [outbox_list_exact] (compaction is invisible), [outbox_markDelivered_delivers],
      [outbox_calls_promise], and [outbox_drain_delivers] (what a drain reports).
      Reads that the source starts together with [Promise.all] are made one after the
      other, with other clients between them.
    - Data patches, beside other runners: [patch_claims_closed] (the journal stays true to
      what patches have done and every claim is closed, however a call ends),
      [apply_applies] (what an application that returns has left applied), and
      [rollback_plan_backwards] (a patch is rolled back only after every later one).  That a
      run of a patch does what the patch is for, and keeps to the entry it is claimed
      under, is a hypothesis on the patches ([patch_good]).
      [rollback_replanned] and [enqueued_plan_applied] carry a plan through the queue: the
      job that runs it asks for the patches that were planned, and the service plans them
      again as they were.
    - Jobs: [executions_exclusive] (of all executors of a log one at most runs a key, and
      none after it succeeded), [execution_recorded] (what an execution leaves in the log),
      [retry_requeues], [batch_disposed] (every message of a batch is acknowledged or
      retried once), [job_retry_exact] (when and how late), [message_roundtrip].  A worker
      that is lost leaves its key running, since an execution has no lease ([step_lose]).
      [long_key_not_retried] and [padded_default_pool] record two departures of the code
      from what it means to do.  The lanes of a batch and the workers of a lane are run
      one after the other, with other clients at every [await].
    - Schedules of jobs: [schedule_definitions_exact] and [schedule_enabled_exact] (what
      the folded events say), [disabled_schedule_silent] and [saved_schedule_in_force]
      (what a call leaves in force, beside other clients); [same_key_skipped] and
      [unregistered_stops_trigger] record two departures: schedules that share a key, and
      one that stops the trigger.
    - Languages: [csv_roundtrip], [matchesSafeRegex_spec],
      [like_glob_equivalence], [normalizePredicate_exact], [documentStream_inj].
    - Merge, apps and permissions: [plan_conflict], [plan_apply],
      [resolve_order], [resolve_complete], [userPermissions_match],
      [shares_in_force], [grants_resume].

    ** Fuel and bounds

    [visitApp] runs on one unit of fuel more than there are apps; [resolve_order]
    proves that it never runs out, and so does [table_search_exact] of [visit], which
    runs on two units more than there are table fields.  [collectReachableDocTypes] runs on one unit
    more than there are names that resolve; [reachable_doctypes] proves that it
    never runs out.  [naming_loop] runs on one unit more than the length of the
    pattern, of which every turn consumes a character.  [create_loop] runs on one
    unit more than the attempts that the naming series allows, of which every turn
    takes one; [create_loop_ends] proves that it runs the loop of the source to its
    end.  [scan_loop] runs on the attempts that the
    code counts down, and [appendRunEvent] retries five times because the code
    does ([MAX_AUTOMATION_RUN_APPEND_ATTEMPTS]), and so does [appendWithRetry] of the
    outbox ([MAX_OUTBOX_APPEND_ATTEMPTS]); their theorems cover the exhausted
    branches.  Every other loop of the source is a structural recursion
    of the model over the same data, so it terminates by construction.

    ** Hypotheses of the service theorems

    The service theorems suppose of the doctypes that are resolved what definition
    ensures of them ([doctype_ok]: names that are not those of internal streams and
    have no colon, distinct fields, normalized rules, named workflows; proved of
    [defineDocType]), and, for unique values, that all resolutions of a doctype agree
    on its unique fields.  [application_unique_values] supposes nothing of them.  The
    document service is modelled without its optional store of folded snapshots, which
    [document_snapshot_ignorable] proves to change no read.

    ** Not modelled

    Messages of errors, routing, rendering, the browser code, the SQL of the D1
    adapters, the platform bindings (durable objects, queues, object storage),
    password hashing, and the read models (lists, reports, dashboards) that only
    query projections: these are input and output around the core, or would need the
    semantics of what they drive.  Event payloads of families no modelled component
    reads are one constructor, [POther].  Views, assignment rules, property overrides
    of fields and projection indexes are not part of the modelled doctype.  The
    services on roles, accounts, shares, user permissions, notifications and files have
    logic of their own and are left out for their extent: what they provide to the
    modelled services (role rules, grants, resolvers) is an argument there.  Of realtime events only the delivery is modelled, not their form. *)

From Stdlib Require Export ZArith Lia.
From stdpp Require Export sorting base option list gmap.

#[global] Set Default Proof Using "Type".
#[global] Unset Program Cases.

(** ** Outcomes: a value, or a thrown [FrameworkError]

    A TypeScript function that throws is modelled as a function into [res].  A
    [FrameworkError] carries its code and its HTTP status; the human-readable
    message and the list of validation issues are not modelled. *)

(** [FrameworkErrorCode]; [PLAIN_ERROR] stands for a thrown [Error] that is not
    a [FrameworkError]. *)
Inductive FrameworkErrorCode :=
| APP_DEPENDENCY_CYCLE
| APP_DEPENDENCY_MISSING
| APP_DUPLICATE
| APP_INVALID
| AUTOMATION_RULE_INVALID
| AUTOMATION_RUN_NOT_FOUND
| ASSIGNMENT_RULE_INVALID
| ASSIGNMENT_RULE_NOT_FOUND
| CALENDAR_DUPLICATE
| CALENDAR_INVALID
| CALENDAR_NOT_FOUND
| CLIENT_SCRIPT_DUPLICATE
| CLIENT_SCRIPT_INVALID
| CUSTOM_FIELD_INVALID
| D1_ANALYZE_FAILED
| D1_ANALYZE_TARGETS_EMPTY
| D1_ANALYZE_TARGET_INVALID
| DATA_PATCH_CHECKSUM_MISMATCH
| DATA_PATCH_APPLY_UNAVAILABLE
| DATA_PATCH_DUPLICATE
| DATA_PATCH_FAILED
| DATA_PATCH_INVALID
| DATA_PATCH_NOT_FOUND
| DATA_PATCH_ORDER_VIOLATION
| DATA_PATCH_PENDING
| DATA_PATCH_RETRY_UNAVAILABLE
| DATA_PATCH_ROLLBACK_FAILED
| DATA_PATCH_ROLLBACK_PENDING
| DATA_PATCH_ROLLBACK_RETRY_UNAVAILABLE
| DATA_PATCH_ROLLBACK_UNAVAILABLE
| DASHBOARD_DUPLICATE
| DASHBOARD_INVALID
| DASHBOARD_NOT_FOUND
| D1_DOCUMENT_INVALID
| D1_EVENT_INVALID
| D1_PROJECTION_TEXT_PATTERN_INVALID
| D1_PROJECTION_TEXT_PATTERN_TOO_LONG
| EVENT_INVALID
| DOCTYPE_NOT_FOUND
| DOCTYPE_DUPLICATE
| DOCTYPE_FIELD_INVALID
| DOCTYPE_LINK_INVALID
| DOCTYPE_NAMING_INVALID
| DOCTYPE_TABLE_INVALID
| FORM_VIEW_INVALID
| JOB_NOT_FOUND
| JOB_DUPLICATE
| JOB_EXECUTION_INVALID
| JOB_EXECUTION_NOT_FOUND
| JOB_POOL_DUPLICATE
| JOB_POOL_INVALID
| JOB_POOL_NOT_FOUND
| JOB_RETRY_INVALID
| JOB_RESOURCE_INVALID
| JOB_SCHEDULE_NOT_FOUND
| KANBAN_DUPLICATE
| KANBAN_INVALID
| KANBAN_NOT_FOUND
| LIST_VIEW_INVALID
| MIGRATION_CHECKSUM_MISMATCH
| MIGRATION_DUPLICATE
| MIGRATION_EMPTY
| MIGRATION_ID_INVALID
| MIGRATION_INDEX_BUDGET_EXCEEDED
| MIGRATION_INDEX_CONFLICT
| MIGRATION_INDEX_DUPLICATE
| MIGRATION_INDEX_INVALID
| NAMING_INVALID
| NOTIFICATION_RULE_INVALID
| NOTIFICATION_RULE_NOT_FOUND
| DOCUMENT_NOT_FOUND
| DOCUMENT_CONFLICT
| DOCUMENT_DELETED
| DOCUMENT_INVALID
| DOCUMENT_STATUS_CONFLICT
| FILE_SCAN_FAILED
| FILE_STORAGE_ERROR
| FILE_UPLOAD_PENDING
| FIELD_PROPERTY_INVALID
| PERMISSION_DENIED
| PROJECTION_REBUILD_BATCH_INVALID
| PROJECTION_REBUILD_NOT_FOUND
| PROJECTION_REBUILD_TARGET_INVALID
| PROJECTION_REBUILD_NOT_READY
| PROJECTION_TARGET_DUPLICATE
| PROJECTION_TARGET_INVALID
| PROJECTION_TARGET_NOT_FOUND
| PROJECTION_TARGET_RETIRED
| PROJECTION_TARGET_STATE_INVALID
| PROJECTION_TARGET_NOT_PROMOTABLE
| PRINT_FORMAT_DUPLICATE
| PRINT_FORMAT_INVALID
| PRINT_FORMAT_NOT_FOUND
| PRINT_PDF_RENDER_FAILED
| REPORT_DUPLICATE
| REPORT_INVALID
| REPORT_NOT_FOUND
| VALIDATION_FAILED
| WEB_FORM_DUPLICATE
| WEB_FORM_INVALID
| WEB_FORM_NOT_FOUND
| WEB_PAGE_DUPLICATE
| WEB_PAGE_INVALID
| WEB_PAGE_NOT_FOUND
| WEBSITE_SETTINGS_DUPLICATE
| WEBSITE_SETTINGS_INVALID
| WEBSITE_SETTINGS_NOT_FOUND
| WEBSITE_THEME_DUPLICATE
| WEBSITE_THEME_INVALID
| WEBSITE_THEME_NOT_FOUND
| WEB_VIEW_DUPLICATE
| WEB_VIEW_INVALID
| WEB_VIEW_NOT_FOUND
| WORKSPACE_DUPLICATE
| WORKSPACE_INVALID
| WORKSPACE_NOT_FOUND
| WORKFLOW_ACTION_NOT_FOUND
| WORKFLOW_INVALID
| WORKFLOW_NOT_FOUND
| WORKFLOW_STATE_PROTECTED
| WORKFLOW_TRANSITION_CONDITION_FAILED
| WORKFLOW_TRANSITION_DENIED
| BAD_REQUEST
| PLAIN_ERROR.

(** Codes are compared by their position in the union. *)
Definition code_index (c : FrameworkErrorCode) : N :=
  match c with
  | APP_DEPENDENCY_CYCLE => 0
  | APP_DEPENDENCY_MISSING => 1
  | APP_DUPLICATE => 2
  | APP_INVALID => 3
  | AUTOMATION_RULE_INVALID => 4
  | AUTOMATION_RUN_NOT_FOUND => 5
  | ASSIGNMENT_RULE_INVALID => 6
  | ASSIGNMENT_RULE_NOT_FOUND => 7
  | CALENDAR_DUPLICATE => 8
  | CALENDAR_INVALID => 9
  | CALENDAR_NOT_FOUND => 10
  | CLIENT_SCRIPT_DUPLICATE => 11
  | CLIENT_SCRIPT_INVALID => 12
  | CUSTOM_FIELD_INVALID => 13
  | D1_ANALYZE_FAILED => 14
  | D1_ANALYZE_TARGETS_EMPTY => 15
  | D1_ANALYZE_TARGET_INVALID => 16
  | DATA_PATCH_CHECKSUM_MISMATCH => 17
  | DATA_PATCH_APPLY_UNAVAILABLE => 18
  | DATA_PATCH_DUPLICATE => 19
  | DATA_PATCH_FAILED => 20
  | DATA_PATCH_INVALID => 21
  | DATA_PATCH_NOT_FOUND => 22
  | DATA_PATCH_ORDER_VIOLATION => 23
  | DATA_PATCH_PENDING => 24
  | DATA_PATCH_RETRY_UNAVAILABLE => 25
  | DATA_PATCH_ROLLBACK_FAILED => 26
  | DATA_PATCH_ROLLBACK_PENDING => 27
  | DATA_PATCH_ROLLBACK_RETRY_UNAVAILABLE => 28
  | DATA_PATCH_ROLLBACK_UNAVAILABLE => 29
  | DASHBOARD_DUPLICATE => 30
  | DASHBOARD_INVALID => 31
  | DASHBOARD_NOT_FOUND => 32
  | D1_DOCUMENT_INVALID => 33
  | D1_EVENT_INVALID => 34
  | D1_PROJECTION_TEXT_PATTERN_INVALID => 35
  | D1_PROJECTION_TEXT_PATTERN_TOO_LONG => 36
  | EVENT_INVALID => 37
  | DOCTYPE_NOT_FOUND => 38
  | DOCTYPE_DUPLICATE => 39
  | DOCTYPE_FIELD_INVALID => 40
  | DOCTYPE_LINK_INVALID => 41
  | DOCTYPE_NAMING_INVALID => 42
  | DOCTYPE_TABLE_INVALID => 43
  | FORM_VIEW_INVALID => 44
  | JOB_NOT_FOUND => 45
  | JOB_DUPLICATE => 46
  | JOB_EXECUTION_INVALID => 47
  | JOB_EXECUTION_NOT_FOUND => 48
  | JOB_POOL_DUPLICATE => 49
  | JOB_POOL_INVALID => 50
  | JOB_POOL_NOT_FOUND => 51
  | JOB_RETRY_INVALID => 52
  | JOB_RESOURCE_INVALID => 53
  | JOB_SCHEDULE_NOT_FOUND => 54
  | KANBAN_DUPLICATE => 55
  | KANBAN_INVALID => 56
  | KANBAN_NOT_FOUND => 57
  | LIST_VIEW_INVALID => 58
  | MIGRATION_CHECKSUM_MISMATCH => 59
  | MIGRATION_DUPLICATE => 60
  | MIGRATION_EMPTY => 61
  | MIGRATION_ID_INVALID => 62
  | MIGRATION_INDEX_BUDGET_EXCEEDED => 63
  | MIGRATION_INDEX_CONFLICT => 64
  | MIGRATION_INDEX_DUPLICATE => 65
  | MIGRATION_INDEX_INVALID => 66
  | NAMING_INVALID => 67
  | NOTIFICATION_RULE_INVALID => 68
  | NOTIFICATION_RULE_NOT_FOUND => 69
  | DOCUMENT_NOT_FOUND => 70
  | DOCUMENT_CONFLICT => 71
  | DOCUMENT_DELETED => 72
  | DOCUMENT_INVALID => 73
  | DOCUMENT_STATUS_CONFLICT => 74
  | FILE_SCAN_FAILED => 75
  | FILE_STORAGE_ERROR => 76
  | FILE_UPLOAD_PENDING => 77
  | FIELD_PROPERTY_INVALID => 78
  | PERMISSION_DENIED => 79
  | PROJECTION_REBUILD_BATCH_INVALID => 80
  | PROJECTION_REBUILD_NOT_FOUND => 81
  | PROJECTION_REBUILD_TARGET_INVALID => 82
  | PROJECTION_REBUILD_NOT_READY => 83
  | PROJECTION_TARGET_DUPLICATE => 84
  | PROJECTION_TARGET_INVALID => 85
  | PROJECTION_TARGET_NOT_FOUND => 86
  | PROJECTION_TARGET_RETIRED => 87
  | PROJECTION_TARGET_STATE_INVALID => 88
  | PROJECTION_TARGET_NOT_PROMOTABLE => 89
  | PRINT_FORMAT_DUPLICATE => 90
  | PRINT_FORMAT_INVALID => 91
  | PRINT_FORMAT_NOT_FOUND => 92
  | PRINT_PDF_RENDER_FAILED => 93
  | REPORT_DUPLICATE => 94
  | REPORT_INVALID => 95
  | REPORT_NOT_FOUND => 96
  | VALIDATION_FAILED => 97
  | WEB_FORM_DUPLICATE => 98
  | WEB_FORM_INVALID => 99
  | WEB_FORM_NOT_FOUND => 100
  | WEB_PAGE_DUPLICATE => 101
  | WEB_PAGE_INVALID => 102
  | WEB_PAGE_NOT_FOUND => 103
  | WEBSITE_SETTINGS_DUPLICATE => 104
  | WEBSITE_SETTINGS_INVALID => 105
  | WEBSITE_SETTINGS_NOT_FOUND => 106
  | WEBSITE_THEME_DUPLICATE => 107
  | WEBSITE_THEME_INVALID => 108
  | WEBSITE_THEME_NOT_FOUND => 109
  | WEB_VIEW_DUPLICATE => 110
  | WEB_VIEW_INVALID => 111
  | WEB_VIEW_NOT_FOUND => 112
  | WORKSPACE_DUPLICATE => 113
  | WORKSPACE_INVALID => 114
  | WORKSPACE_NOT_FOUND => 115
  | WORKFLOW_ACTION_NOT_FOUND => 116
  | WORKFLOW_INVALID => 117
  | WORKFLOW_NOT_FOUND => 118
  | WORKFLOW_STATE_PROTECTED => 119
  | WORKFLOW_TRANSITION_CONDITION_FAILED => 120
  | WORKFLOW_TRANSITION_DENIED => 121
  | BAD_REQUEST => 122
  | PLAIN_ERROR => 123
  end%N.

Definition code_at (n : N) : FrameworkErrorCode :=
  match n with
  | 0 => APP_DEPENDENCY_CYCLE
  | 1 => APP_DEPENDENCY_MISSING
  | 2 => APP_DUPLICATE
  | 3 => APP_INVALID
  | 4 => AUTOMATION_RULE_INVALID
  | 5 => AUTOMATION_RUN_NOT_FOUND
  | 6 => ASSIGNMENT_RULE_INVALID
  | 7 => ASSIGNMENT_RULE_NOT_FOUND
  | 8 => CALENDAR_DUPLICATE
  | 9 => CALENDAR_INVALID
  | 10 => CALENDAR_NOT_FOUND
  | 11 => CLIENT_SCRIPT_DUPLICATE
  | 12 => CLIENT_SCRIPT_INVALID
  | 13 => CUSTOM_FIELD_INVALID
  | 14 => D1_ANALYZE_FAILED
  | 15 => D1_ANALYZE_TARGETS_EMPTY
  | 16 => D1_ANALYZE_TARGET_INVALID
  | 17 => DATA_PATCH_CHECKSUM_MISMATCH
  | 18 => DATA_PATCH_APPLY_UNAVAILABLE
  | 19 => DATA_PATCH_DUPLICATE
  | 20 => DATA_PATCH_FAILED
  | 21 => DATA_PATCH_INVALID
  | 22 => DATA_PATCH_NOT_FOUND
  | 23 => DATA_PATCH_ORDER_VIOLATION
  | 24 => DATA_PATCH_PENDING
  | 25 => DATA_PATCH_RETRY_UNAVAILABLE
  | 26 => DATA_PATCH_ROLLBACK_FAILED
  | 27 => DATA_PATCH_ROLLBACK_PENDING
  | 28 => DATA_PATCH_ROLLBACK_RETRY_UNAVAILABLE
  | 29 => DATA_PATCH_ROLLBACK_UNAVAILABLE
  | 30 => DASHBOARD_DUPLICATE
  | 31 => DASHBOARD_INVALID
  | 32 => DASHBOARD_NOT_FOUND
  | 33 => D1_DOCUMENT_INVALID
  | 34 => D1_EVENT_INVALID
  | 35 => D1_PROJECTION_TEXT_PATTERN_INVALID
  | 36 => D1_PROJECTION_TEXT_PATTERN_TOO_LONG
  | 37 => EVENT_INVALID
  | 38 => DOCTYPE_NOT_FOUND
  | 39 => DOCTYPE_DUPLICATE
  | 40 => DOCTYPE_FIELD_INVALID
  | 41 => DOCTYPE_LINK_INVALID
  | 42 => DOCTYPE_NAMING_INVALID
  | 43 => DOCTYPE_TABLE_INVALID
  | 44 => FORM_VIEW_INVALID
  | 45 => JOB_NOT_FOUND
  | 46 => JOB_DUPLICATE
  | 47 => JOB_EXECUTION_INVALID
  | 48 => JOB_EXECUTION_NOT_FOUND
  | 49 => JOB_POOL_DUPLICATE
  | 50 => JOB_POOL_INVALID
  | 51 => JOB_POOL_NOT_FOUND
  | 52 => JOB_RETRY_INVALID
  | 53 => JOB_RESOURCE_INVALID
  | 54 => JOB_SCHEDULE_NOT_FOUND
  | 55 => KANBAN_DUPLICATE
  | 56 => KANBAN_INVALID
  | 57 => KANBAN_NOT_FOUND
  | 58 => LIST_VIEW_INVALID
  | 59 => MIGRATION_CHECKSUM_MISMATCH
  | 60 => MIGRATION_DUPLICATE
  | 61 => MIGRATION_EMPTY
  | 62 => MIGRATION_ID_INVALID
  | 63 => MIGRATION_INDEX_BUDGET_EXCEEDED
  | 64 => MIGRATION_INDEX_CONFLICT
  | 65 => MIGRATION_INDEX_DUPLICATE
  | 66 => MIGRATION_INDEX_INVALID
  | 67 => NAMING_INVALID
  | 68 => NOTIFICATION_RULE_INVALID
  | 69 => NOTIFICATION_RULE_NOT_FOUND
  | 70 => DOCUMENT_NOT_FOUND
  | 71 => DOCUMENT_CONFLICT
  | 72 => DOCUMENT_DELETED
  | 73 => DOCUMENT_INVALID
  | 74 => DOCUMENT_STATUS_CONFLICT
  | 75 => FILE_SCAN_FAILED
  | 76 => FILE_STORAGE_ERROR
  | 77 => FILE_UPLOAD_PENDING
  | 78 => FIELD_PROPERTY_INVALID
  | 79 => PERMISSION_DENIED
  | 80 => PROJECTION_REBUILD_BATCH_INVALID
  | 81 => PROJECTION_REBUILD_NOT_FOUND
  | 82 => PROJECTION_REBUILD_TARGET_INVALID
  | 83 => PROJECTION_REBUILD_NOT_READY
  | 84 => PROJECTION_TARGET_DUPLICATE
  | 85 => PROJECTION_TARGET_INVALID
  | 86 => PROJECTION_TARGET_NOT_FOUND
  | 87 => PROJECTION_TARGET_RETIRED
  | 88 => PROJECTION_TARGET_STATE_INVALID
  | 89 => PROJECTION_TARGET_NOT_PROMOTABLE
  | 90 => PRINT_FORMAT_DUPLICATE
  | 91 => PRINT_FORMAT_INVALID
  | 92 => PRINT_FORMAT_NOT_FOUND
  | 93 => PRINT_PDF_RENDER_FAILED
  | 94 => REPORT_DUPLICATE
  | 95 => REPORT_INVALID
  | 96 => REPORT_NOT_FOUND
  | 97 => VALIDATION_FAILED
  | 98 => WEB_FORM_DUPLICATE
  | 99 => WEB_FORM_INVALID
  | 100 => WEB_FORM_NOT_FOUND
  | 101 => WEB_PAGE_DUPLICATE
  | 102 => WEB_PAGE_INVALID
  | 103 => WEB_PAGE_NOT_FOUND
  | 104 => WEBSITE_SETTINGS_DUPLICATE
  | 105 => WEBSITE_SETTINGS_INVALID
  | 106 => WEBSITE_SETTINGS_NOT_FOUND
  | 107 => WEBSITE_THEME_DUPLICATE
  | 108 => WEBSITE_THEME_INVALID
  | 109 => WEBSITE_THEME_NOT_FOUND
  | 110 => WEB_VIEW_DUPLICATE
  | 111 => WEB_VIEW_INVALID
  | 112 => WEB_VIEW_NOT_FOUND
  | 113 => WORKSPACE_DUPLICATE
  | 114 => WORKSPACE_INVALID
  | 115 => WORKSPACE_NOT_FOUND
  | 116 => WORKFLOW_ACTION_NOT_FOUND
  | 117 => WORKFLOW_INVALID
  | 118 => WORKFLOW_NOT_FOUND
  | 119 => WORKFLOW_STATE_PROTECTED
  | 120 => WORKFLOW_TRANSITION_CONDITION_FAILED
  | 121 => WORKFLOW_TRANSITION_DENIED
  | 122 => BAD_REQUEST
  | _ => PLAIN_ERROR
  end%N.

Lemma code_at_index c : code_at (code_index c) = c.
Proof. by destruct c. Qed.

#[export] Instance FrameworkErrorCode_eq_dec : EqDecision FrameworkErrorCode.
Proof.
  refine (λ c d, cast_if (decide (code_index c = code_index d))); [|abstract congruence].
  abstract (by rewrite <-(code_at_index c), <-(code_at_index d), e).
Defined.

Record error := FrameworkError { err_code : FrameworkErrorCode; err_status : Z }.

(** The constructors of [core/errors.ts]. *)
Definition notFound (code : FrameworkErrorCode) : error := FrameworkError code 404.
Definition badRequest : error := FrameworkError BAD_REQUEST 400.
Definition validationFailed : error := FrameworkError VALIDATION_FAILED 422.
Definition permissionDenied : error := FrameworkError PERMISSION_DENIED 403.
Definition conflict : error := FrameworkError DOCUMENT_CONFLICT 409.

#[export] Instance error_eq_dec : EqDecision error.
Proof. solve_decision. Defined.

Inductive res (A : Type) : Type :=
| Ok (a : A)
| Throw (e : error).
Arguments Ok {A} a.
Arguments Throw {A} e.

#[export] Instance res_ret : MRet res := λ A a, Ok a.
#[export] Instance res_bind : MBind res := λ A B f m,
  match m with Ok a => f a | Throw e => Throw e end.
#[export] Instance res_fmap : FMap res := λ A B f m,
  match m with Ok a => Ok (f a) | Throw e => Throw e end.

(** [if (!condition) throw error]. *)
Definition ensure (condition : bool) (e : error) : res unit :=
  if condition then Ok tt else Throw e.

(** [try { return attempt } catch { return fallback }]. *)
Definition try_catch {A} (attempt fallback : res A) : res A :=
  match attempt with Ok a => Ok a | Throw _ => fallback end.

(** [xs.map(f)] where [f] may throw: the first throw wins. *)
Fixpoint map_res {A B} (f : A → res B) (l : list A) : res (list B) :=
  match l with
  | [] => Ok []
  | x :: l => y ← f x; ys ← map_res f l; Ok (y :: ys)
  end.

(** [for (const x of xs) { acc = f(acc, x) }] where the body may throw. *)
Fixpoint foldl_res {A B} (f : A → B → res A) (acc : A) (l : list B) : res A :=
  match l with
  | [] => Ok acc
  | x :: l => acc' ← f acc x; foldl_res f acc' l
  end.

Definition is_ok {A} (r : res A) : bool := match r with Ok _ => true | Throw _ => false end.

Create HintDb cff.
Create Rewrite HintDb cff_simp.

Lemma bind_ok {A B} (m : res A) (f : A → res B) b :
  m ≫= f = Ok b ↔ ∃ a, m = Ok a ∧ f a = Ok b.
Proof.
  split.
  - destruct m as [a|e]; simpl; [eauto | discriminate].
  - by intros (a & -> & Hf).
Qed.

(** A throw inside a bind comes from one of its parts. *)
Lemma bind_throw {A B} (m : res A) (f : A → res B) e :
  m ≫= f = Throw e ↔ m = Throw e ∨ ∃ a, m = Ok a ∧ f a = Throw e.
Proof. destruct m as [a|e']; simpl; naive_solver. Qed.

Lemma ensure_ok b e u : ensure b e = Ok u ↔ b = true.
Proof. destruct b, u; simpl; split; congruence. Qed.

Lemma ensure_throw b e e' : ensure b e = Throw e' ↔ b = false ∧ e' = e.
Proof. destruct b; simpl; split; intuition congruence. Qed.

(** Destructs every successful bind and guard among the hypotheses. *)
Ltac inv_res :=
  repeat match goal with
  | H : Ok _ = Ok _ |- _ => injection H as H; try subst
  | H : Throw _ = Throw _ |- _ => injection H as H; try subst
  | H : Throw _ = Ok _ |- _ => discriminate H
  | H : Ok _ = Throw _ |- _ => discriminate H
  | H : mret _ = Ok _ |- _ => unfold mret, res_ret in H
  | H : _ ≫= _ = Ok _ |- _ => apply bind_ok in H; destruct H as (? & ? & ?)
  | H : ensure _ _ = Ok ?u |- _ => apply ensure_ok in H
  | H : ensure _ _ = Throw _ |- _ => apply ensure_throw in H as [? ->]
  end.

Lemma map_res_ok {A B} (f : A → res B) l l' :
  map_res f l = Ok l' ↔ Forall2 (λ x y, f x = Ok y) l l'.
Proof.
  revert l'; induction l as [|x l IH]; intros l'; simpl.
  - split; intros H; [inv_res; constructor | by inversion H].
  - split.
    + intros H; inv_res. constructor; [done | by apply IH].
    + intros H; inversion H as [|? y ? ys Hy Hys]; subst.
      apply IH in Hys. by rewrite Hy, Hys.
Qed.

Lemma map_res_pure {A B} (f : A → res B) (g : A → B) l :
  (∀ x, x ∈ l → f x = Ok (g x)) → map_res f l = Ok (g <$> l).
Proof.
  intros Hf. induction l as [|x l IH]; simpl; [done|].
  rewrite Hf by left. simpl. rewrite IH; [done|]. intros y Hy. apply Hf. by right.
Qed.

Lemma map_res_length {A B} (f : A → res B) l l' :
  map_res f l = Ok l' → length l' = length l.
Proof. intros H%map_res_ok. symmetry. by eapply Forall2_length. Qed.

Lemma foldl_res_app {A B} (f : A → B → res A) acc l1 l2 :
  foldl_res f acc (l1 ++ l2) = foldl_res f acc l1 ≫= λ a, foldl_res f a l2.
Proof.
  revert acc. induction l1 as [|x l1 IH]; intros acc; simpl; [done|].
  destruct (f acc x); simpl; [apply IH | done].
Qed.

(** A loop preserves an invariant its body preserves. *)
Lemma foldl_res_inv {A B} (P : A → Prop) (f : A → B → res A) acc l acc' :
  P acc →
  (∀ a x a', x ∈ l → P a → f a x = Ok a' → P a') →
  foldl_res f acc l = Ok acc' → P acc'.
Proof.
  revert acc. induction l as [|x l IH]; intros acc Hacc Hf H; simpl in H; [by inv_res|].
  inv_res. eapply IH; [| |eassumption].
  - eapply Hf; [|done|done]. left.
  - intros a y a' Hy. apply Hf. by right.
Qed.

(** Filters that agree on a list. *)
Lemma filter_iff_in {A} (P Q : A → Prop) `{∀ x, Decision (P x), ∀ x, Decision (Q x)} (l : list A) :
  (∀ x, x ∈ l → P x ↔ Q x) → filter P l = filter Q l.
Proof.
  induction l as [|x l IH]; intros Hl; [done|]. rewrite !filter_cons, IH by (intros y Hy; apply Hl; by right).
  pose proof (Hl x ltac:(left)) as Hx. destruct (decide (P x)), (decide (Q x)); naive_solver.
Qed.

(** ** Stable sorting

    [Array.prototype.sort] is stable, so its result is determined by the
    comparison; insertion sort computes that result. *)
Section isort.
Context {A : Type} (leb : A → A → bool).

Fixpoint sort_insert (x : A) (l : list A) : list A :=
  match l with
  | [] => [x]
  | y :: l' => if leb x y then x :: y :: l' else y :: sort_insert x l'
  end.

Definition isort (l : list A) : list A := foldr sort_insert [] l.

Lemma sort_insert_perm x l : sort_insert x l ≡ₚ x :: l.
Proof.
  induction l as [|y l IH]; simpl; [done|].
  destruct (leb x y); [done|]. rewrite IH. apply Permutation_swap.
Qed.

Lemma isort_perm l : isort l ≡ₚ l.
Proof. induction l as [|x l IH]; simpl; [done|]. by rewrite sort_insert_perm, IH. Qed.

Lemma elem_of_isort x l : x ∈ isort l ↔ x ∈ l.
Proof. by rewrite isort_perm. Qed.

Lemma isort_length l : length (isort l) = length l.
Proof. by rewrite isort_perm. Qed.

(** Sorting a list that is already in order changes nothing. *)
Lemma isort_id l : StronglySorted leb l → isort l = l.
Proof.
  induction 1 as [|x l Hl IH Hx]; simpl; [done|]. rewrite IH.
  destruct l as [|y l]; simpl; [done|].
  apply Forall_cons in Hx as [Hxy _]. by destruct (leb x y).
Qed.

(** Sorting a concatenation whose first part is below its second. *)
Lemma isort_app l1 l2 :
  (∀ x y, x ∈ l1 → y ∈ l2 → leb x y) → isort (l1 ++ l2) = isort l1 ++ isort l2.
Proof.
  induction l1 as [|x l1 IH]; intros Hle; simpl; [done|].
  rewrite IH by (intros; apply Hle; [by right|done]).
  assert (Hx : ∀ y, y ∈ isort l2 → leb x y).
  { intros y Hy. apply Hle; [left|by apply elem_of_isort]. }
  clear IH. induction (isort l1) as [|z k IHk]; simpl.
  - destruct (isort l2) as [|y k]; simpl; [done|].
    specialize (Hx y ltac:(left)). by destruct (leb x y).
  - destruct (leb x z); [done|]. by rewrite IHk.
Qed.

Context (Htotal : ∀ x y, leb x y ∨ leb y x).
Context (Htrans : ∀ x y z, leb x y → leb y z → leb x z).

Lemma sort_insert_sorted x l : StronglySorted leb l → StronglySorted leb (sort_insert x l).
Proof using Htotal Htrans.
  induction 1 as [|y l Hl IH Hy]; simpl; [by repeat constructor|].
  destruct (leb x y) eqn:Hxy.
  - constructor; [by constructor|]. constructor; [by rewrite Hxy|].
    eapply Forall_impl; [exact Hy|]. intros z Hz. apply (Htrans x y z); [by rewrite Hxy|done].
  - constructor; [done|]. apply Forall_forall. intros z Hz.
    assert (z ∈ x :: l) as [->|Hz']%elem_of_cons by by rewrite <-sort_insert_perm.
    + destruct (Htotal x y) as [H|H]; [by rewrite Hxy in H|done].
    + rewrite Forall_forall in Hy. by apply Hy.
Qed.

Lemma isort_sorted l : StronglySorted leb (isort l).
Proof using Htotal Htrans.
  induction l; simpl; [constructor|]. by apply sort_insert_sorted.
Qed.

(** The sorted list is determined by the elements when the order tells
    different elements apart. *)
Lemma isort_unique l1 l2 :
  (∀ x y, x ∈ l1 → y ∈ l1 → leb x y → leb y x → x = y) →
  l1 ≡ₚ l2 → isort l1 = isort l2.
Proof using Htotal Htrans.
  intros Hanti Hperm. eapply (StronglySorted_unique_strong leb).
  - intros x y Hx Hy. apply Hanti; [by apply elem_of_isort|].
    rewrite Hperm. by apply elem_of_isort.
  - apply isort_sorted.
  - apply isort_sorted.
  - by rewrite !isort_perm.
Qed.
End isort.

#[export] Hint Rewrite @isort_length : cff_simp.

Lemma isort_nodup {A} leb (l : list A) : NoDup l → NoDup (isort leb l).
Proof. intros Hl. by rewrite isort_perm. Qed.

(** ** Generic list facts *)

Lemma lookup_seqZ_app {A} (l : list A) (x : A) i y :
  (l ++ [x]) !! i = Some y → (i < length l ∧ l !! i = Some y) ∨ (i = length l ∧ y = x).
Proof.
  rewrite lookup_app. destruct (l !! i) eqn:E.
  - intros [= ->]. left. split; [by eapply lookup_lt_Some|done].
  - rewrite list_lookup_singleton_Some. apply lookup_ge_None in E. intros [Hi ->].
    right. split; [lia|done].
Qed.

Lemma existsb_In {A} (f : A → bool) l : existsb f l = true ↔ ∃ x, x ∈ l ∧ f x = true.
Proof.
  rewrite existsb_exists. split; intros (x & H1 & H2); exists x;
    (split; [by apply list_elem_of_In|done]).
Qed.

Lemma forallb_In {A} (f : A → bool) l : forallb f l = true ↔ ∀ x, x ∈ l → f x = true.
Proof.
  rewrite forallb_forall. split; intros H x Hx; apply H; by apply list_elem_of_In.
Qed.

(** A flag set and cleared along a list: it ends set exactly when some element
    sets it and none after clears it, or it was set and nothing clears it. *)
Lemma foldl_flag {A} (eff : A → option bool) l b :
  foldl (λ b x, default b (eff x)) b l = true ↔
  (∃ l1 x l2, l = l1 ++ x :: l2 ∧ eff x = Some true ∧ ∀ y, y ∈ l2 → eff y ≠ Some false) ∨
  (b = true ∧ ∀ y, y ∈ l → eff y ≠ Some false).
Proof.
  revert b. induction l as [|x l IH]; intros b; simpl.
  - split; [intros ->; right; split; [done|by intros y ?%elem_of_nil]|].
    intros [(l1 & y & l2 & E & _)|[-> _]]; [by destruct l1|done].
  - rewrite IH. split.
    + intros [(l1 & y & l2 & -> & H1 & H2)|[Hb Hl]].
      { left. by exists (x :: l1), y, l2. }
      destruct (eff x) as [[]|] eqn:Ex; simpl in Hb; subst.
      * left. by exists [], x, l.
      * done.
      * right. split; [done|]. intros y [->|Hy]%elem_of_cons; [congruence|by apply Hl].
    + intros [(l1 & y & l2 & E & H1 & H2)|[-> Hl]].
      * destruct l1 as [|z l1]; injection E as -> ->.
        -- right. by rewrite H1.
        -- left. by exists l1, y, l2.
      * right. split; [|intros y Hy; apply Hl; by right].
        specialize (Hl x ltac:(left)). by destruct (eff x) as [[]|].
Qed.

(** ** Stateful operations

    A method that reads and writes an object's fields and may throw: the state
    it leaves is returned in both cases, since a throw does not undo writes. *)
Definition M (S A : Type) : Type := S → res A * S.

#[export] Instance M_ret S : MRet (M S) := λ A a s, (Ok a, s).
#[export] Instance M_bind S : MBind (M S) := λ A B f m s,
  match m s with (Ok a, s') => f a s' | (Throw e, s') => (Throw e, s') end.

Definition m_throw {S A} (e : error) : M S A := λ s, (Throw e, s).
Definition m_get {S} : M S S := λ s, (Ok s, s).
Definition m_put {S} (s : S) : M S unit := λ _, (Ok tt, s).
Definition m_lift {S A} (r : res A) : M S A := λ s, (r, s).
Definition m_ensure {S} (condition : bool) (e : error) : M S unit := m_lift (ensure condition e).

(** [l.map(f)], in order. *)
Definition m_map {S A B} (f : A → M S B) : list A → M S (list B) :=
  fix go l := match l with
  | [] => mret []
  | x :: l => y ← f x; ys ← go l; mret (y :: ys)
  end.

(** [for (const x of xs) { f(x) }]. *)
Fixpoint m_each {S A} (f : A → M S unit) (l : list A) : M S unit :=
  match l with
  | [] => mret tt
  | x :: l => _ ← f x; m_each f l
  end.

Lemma m_bind_run {S A B} (m : M S A) (f : A → M S B) s :
  (m ≫= f) s = match m s with (Ok a, s') => f a s' | (Throw e, s') => (Throw e, s') end.
Proof. done. Qed.

Lemma filter_all {A} (P : A → Prop) `{∀ x, Decision (P x)} (l : list A) :
  (∀ x, x ∈ l → P x) → filter P l = l.
Proof.
  induction l as [|x l IH]; intros H'; [done|].
  rewrite filter_cons_True by (apply H'; by left). f_equal. apply IH.
  intros y Hy. apply H'. by right.
Qed.

Lemma filter_none {A} (P : A → Prop) `{∀ x, Decision (P x)} (l : list A) :
  (∀ x, x ∈ l → ¬ P x) → filter P l = [].
Proof.
  induction l as [|x l IH]; intros H'; [done|].
  rewrite filter_cons_False by (apply H'; by left). apply IH.
  intros y Hy. apply H'. by right.
Qed.

Lemma StronglySorted_filter {A} (R : A → A → Prop) (P : A → Prop) `{∀ x, Decision (P x)} l :
  StronglySorted R l → StronglySorted R (filter P l).
Proof.
  induction 1 as [|x l Hl IH Hx]; [constructor|].
  rewrite filter_cons. destruct (decide (P x)); [|done]. constructor; [done|].
  apply Forall_forall. intros y [_ Hy]%list_elem_of_filter.
  rewrite Forall_forall in Hx. by apply Hx.
Qed.

Lemma elem_of_take_1 {A} n (l : list A) x : x ∈ take n l → x ∈ l.
Proof. rewrite <-(take_drop n l) at 2. rewrite elem_of_app. by left. Qed.

Lemma elem_of_drop_1 {A} n (l : list A) x : x ∈ drop n l → x ∈ l.
Proof. rewrite <-(take_drop n l) at 2. rewrite elem_of_app. by right. Qed.
