(* ===== verification/JsString.v ===== *)
(** * JsString: JavaScript strings

    A string is the list of its UTF-16 code units.  [js] turns an ASCII literal
    into one.  The file defines the operations of [String.prototype] the modelled
    code calls (order of code units, [trim], [padStart], [startsWith],
    [endsWith], [includes], [join]) and the decimal rendering of integers. *)

From Stdlib Require Export String Ascii.
From S2P Require Export Prelude.
From stdpp Require Export base option list.

Abbreviation jstr := (list N).

Definition js (s : string) : jstr := N_of_ascii <$> list_ascii_of_string s.
Arguments js s%_string_scope.

(** Code units are 16 bits wide. *)
Definition code_unit (c : N) : Prop := (c < 65536)%N.
Definition jstr_wf (s : jstr) : Prop := Forall code_unit s.

(** ** Order of code units: the [<] of strings and the default [sort] *)

Fixpoint jstr_leb (s t : jstr) : bool :=
  match s, t with
  | [], _ => true
  | _ :: _, [] => false
  | c :: s, d :: t => if (c =? d)%N then jstr_leb s t else (c <? d)%N
  end.

Lemma jstr_leb_refl s : jstr_leb s s = true.
Proof. induction s as [|c s IH]; simpl; [done|]. by rewrite N.eqb_refl. Qed.

Lemma jstr_leb_total s t : jstr_leb s t ∨ jstr_leb t s.
Proof.
  revert t. induction s as [|c s IH]; intros [|d t]; simpl; auto.
  rewrite (N.eqb_sym d c). destruct (N.eqb_spec c d) as [->|Hne]; [apply IH|].
  destruct (N.ltb_spec c d); [by left|right].
  destruct (N.ltb_spec d c); [done|lia].
Qed.

Lemma jstr_leb_trans s t u : jstr_leb s t → jstr_leb t u → jstr_leb s u.
Proof.
  revert t u. induction s as [|c s IH]; intros [|d t] [|e u]; simpl; try done.
  destruct (N.eqb_spec c d) as [->|Hcd], (N.eqb_spec d e) as [->|Hde]; intros H1 H2.
  - eauto.
  - done.
  - by destruct (N.eqb_spec c e).
  - apply Is_true_true, N.ltb_lt in H1. apply Is_true_true, N.ltb_lt in H2.
    destruct (N.eqb_spec c e) as [->|_]; [lia|]. apply Is_true_true, N.ltb_lt. lia.
Qed.

Lemma jstr_leb_antisym s t : jstr_leb s t → jstr_leb t s → s = t.
Proof.
  revert t. induction s as [|c s IH]; intros [|d t]; simpl; try done.
  rewrite (N.eqb_sym d c). destruct (N.eqb_spec c d) as [->|Hne].
  - intros ??. f_equal. by apply IH.
  - intros H1%Is_true_true%N.ltb_lt H2%Is_true_true%N.ltb_lt. lia.
Qed.

(** [left <= right] on strings. *)
Definition str_le (s t : jstr) : bool := jstr_leb s t.

(** [Object.keys(o).sort()], [keys.sort()]. *)
Definition sort_strings (l : list jstr) : list jstr := isort jstr_leb l.

Lemma sort_strings_perm l1 l2 : l1 ≡ₚ l2 → sort_strings l1 = sort_strings l2.
Proof.
  apply isort_unique.
  - apply jstr_leb_total.
  - apply jstr_leb_trans.
  - intros x y _ _. apply jstr_leb_antisym.
Qed.

(** ** White space and [trim] *)

Definition is_white (c : N) : bool :=
  ((9 <=? c) && (c <=? 13) || (c =? 32) || (c =? 160) || (c =? 0x1680)
   || ((0x2000 <=? c) && (c <=? 0x200A)) || (c =? 0x2028) || (c =? 0x2029)
   || (c =? 0x202F) || (c =? 0x205F) || (c =? 0x3000) || (c =? 0xFEFF))%N.

Fixpoint trim_start (s : jstr) : jstr :=
  match s with
  | [] => []
  | c :: s' => if is_white c then trim_start s' else s
  end.

Definition trim_end (s : jstr) : jstr := reverse (trim_start (reverse s)).

(** [value.trim()]. *)
Definition trim (s : jstr) : jstr := trim_end (trim_start s).

(** A string [trim] leaves as it is. *)
Definition trimmed (s : jstr) : bool :=
  match head s, last s with
  | Some c, Some d => negb (is_white c) && negb (is_white d)
  | _, _ => true
  end.

Lemma trim_start_id c s : is_white c = false → trim_start (c :: s) = c :: s.
Proof. simpl. by intros ->. Qed.

Lemma trim_end_snoc s c : is_white c = false → trim_end (s ++ [c]) = s ++ [c].
Proof.
  intros Hc. unfold trim_end. rewrite reverse_app. cbn [reverse rev_append app].
  change (reverse [c] ++ reverse s) with (c :: reverse s).
  rewrite trim_start_id by done. by rewrite reverse_cons, reverse_involutive.
Qed.

Lemma trimmed_trim s : trimmed s = true → trim s = s.
Proof.
  unfold trimmed, trim. destruct s as [|c s _] using rev_ind; [done|].
  rewrite last_snoc. destruct s as [|d s]; cbn [head app].
  - intros [Hc _]%andb_prop. apply negb_true_iff in Hc.
    rewrite trim_start_id by done. by apply (trim_end_snoc [] c).
  - intros [Hd Hc]%andb_prop. apply negb_true_iff in Hd, Hc.
    rewrite trim_start_id by done. by apply (trim_end_snoc (d :: s) c).
Qed.

Lemma trim_start_head s : match head (trim_start s) with Some c => is_white c = false | None => True end.
Proof. induction s as [|c s IH]; simpl; [done|]. by destruct (is_white c) eqn:E. Qed.

Lemma trim_start_suffix s : ∃ p, s = p ++ trim_start s.
Proof.
  induction s as [|c s [p IH]]; simpl; [by exists []|].
  destruct (is_white c); [|by exists []]. exists (c :: p). simpl. by rewrite <-IH.
Qed.

Lemma trim_trimmed s : trimmed (trim s) = true.
Proof.
  unfold trimmed, trim, trim_end. set (t := trim_start s).
  pose proof (trim_start_head (reverse t)) as Hlast.
  destruct (trim_start_suffix (reverse t)) as [p Hp].
  set (r := trim_start (reverse t)) in *.
  assert (Ht : t = reverse r ++ reverse p).
  { rewrite <-(reverse_involutive t), Hp. by rewrite reverse_app. }
  destruct (head (reverse r)) as [c|] eqn:Ec; [|done].
  destruct (last (reverse r)) as [d|] eqn:Ed; [|done].
  rewrite last_reverse in Ed. rewrite Ed in Hlast.
  pose proof (trim_start_head s) as Hhead. fold t in Hhead. rewrite Ht in Hhead.
  destruct (reverse r) as [|c' r']; [done|]. simpl in *. injection Ec as ->.
  by rewrite Hhead, Hlast.
Qed.

Lemma trim_idem s : trim (trim s) = trim s.
Proof. apply trimmed_trim, trim_trimmed. Qed.

#[export] Hint Rewrite trim_idem : cff_simp.

(** ** Decimal rendering of natural numbers and integers *)

Fixpoint dec_digits (fuel : nat) (n : N) (acc : jstr) : jstr :=
  match fuel with
  | 0 => acc
  | S fuel =>
      let acc' := (48 + n mod 10)%N :: acc in
      if (n <? 10)%N then acc' else dec_digits fuel (n / 10)%N acc'
  end.

(** [String(n)] for a non-negative integer [n]. *)
Definition dec (n : N) : jstr := dec_digits (S (N.size_nat n)) n [].

(** [String(z)] for an integer [z]. *)
Definition dec_Z (z : Z) : jstr :=
  if (z <? 0)%Z then 45%N :: dec (Z.to_N (- z)) else dec (Z.to_N z).

(** The number a digit string denotes. *)
Definition undec (s : jstr) : N := fold_left (λ acc c, 10 * acc + (c - 48))%N s 0%N.

Definition is_digit (c : N) : bool := ((48 <=? c) && (c <=? 57))%N.

Lemma undec_digits fuel n acc :
  (n < 10 ^ N.of_nat fuel)%N →
  fold_left (λ a c, 10 * a + (c - 48))%N (dec_digits fuel n acc) 0%N
  = fold_left (λ a c, 10 * a + (c - 48))%N acc n.
Proof.
  revert n acc. induction fuel as [|fuel IH]; intros n acc Hn.
  - simpl in *. assert (n = 0%N) as -> by lia. done.
  - simpl. destruct (N.ltb_spec n 10) as [Hlt|Hge].
    + simpl. rewrite N.mod_small by done. f_equal. lia.
    + rewrite IH.
      * cbn [fold_left]. pose proof (N.div_mod' n 10) as Hdm. rewrite (N.add_comm 48), N.add_sub, <-Hdm. done.
      * apply N.Div0.div_lt_upper_bound. rewrite <-N.pow_succ_r'.
        by replace (N.succ (N.of_nat fuel)) with (N.of_nat (S fuel)) by lia.
Qed.

Lemma dec_fuel n : (n < 10 ^ N.of_nat (S (N.size_nat n)))%N.
Proof.
  destruct n as [|p]; [done|]. eapply N.lt_le_trans with (2 ^ N.of_nat (N.size_nat (N.pos p)))%N.
  - simpl N.size_nat. induction p as [p IH|p IH|]; simpl Pos.size_nat; [..|done];
      rewrite Nat2N.inj_succ, N.pow_succ_r'; lia.
  - etrans; [apply N.pow_le_mono_l with (b := 10%N); lia|]. apply N.pow_le_mono_r; lia.
Qed.

Lemma undec_dec n : undec (dec n) = n.
Proof. unfold undec, dec. rewrite undec_digits by apply dec_fuel. done. Qed.

Lemma dec_inj n m : dec n = dec m → n = m.
Proof. intros H. by rewrite <-(undec_dec n), <-(undec_dec m), H. Qed.

Lemma dec_digits_digits fuel n acc :
  forallb is_digit acc = true → forallb is_digit (dec_digits fuel n acc) = true.
Proof.
  revert n acc. induction fuel as [|fuel IH]; intros n acc Hacc; simpl; [done|].
  assert (Hd : is_digit (48 + n mod 10)%N = true).
  { unfold is_digit. pose proof (N.mod_lt n 10 ltac:(done)).
    set (d := (n mod 10)%N) in *. clearbody d.
    apply andb_true_intro; split; apply N.leb_le; lia. }
  destruct (n <? 10)%N; [|apply IH]; simpl; by rewrite Hd, Hacc.
Qed.

Lemma dec_all_digits n : forallb is_digit (dec n) = true.
Proof. by apply dec_digits_digits. Qed.

Lemma dec_nonempty n : dec n ≠ [].
Proof.
  unfold dec. simpl. assert (Hl : ∀ fuel m acc, acc ≠ [] → dec_digits fuel m acc ≠ []).
  { induction fuel as [|fuel IH]; intros m acc Hacc; simpl; [done|].
    destruct (m <? 10)%N; [done|]. by apply IH. }
  destruct (n <? 10)%N; [done|]. by apply Hl.
Qed.

Lemma dec_Z_inj x y : dec_Z x = dec_Z y → x = y.
Proof.
  assert (Hm : ∀ n s, dec n ≠ 45%N :: s).
  { intros n s Hn. pose proof (dec_all_digits n) as H. by rewrite Hn in H. }
  unfold dec_Z. destruct (Z.ltb_spec x 0), (Z.ltb_spec y 0); intros E.
  - injection E as E. apply dec_inj in E. lia.
  - by edestruct Hm.
  - by edestruct Hm.
  - apply dec_inj in E. lia.
Qed.

(** [s.padStart(width, "0")]. *)
Definition pad_start0 (width : nat) (s : jstr) : jstr :=
  replicate (width - length s) 48%N ++ s.

Lemma undec_pad width s : undec (pad_start0 width s) = undec s.
Proof.
  unfold undec, pad_start0. rewrite fold_left_app. f_equal.
  by induction (width - length s).
Qed.

Lemma pad_dec_inj w1 w2 n m :
  pad_start0 w1 (dec n) = pad_start0 w2 (dec m) → n = m.
Proof.
  intros H. rewrite <-(undec_dec n), <-(undec_dec m), <-(undec_pad w1 (dec n)), H.
  apply undec_pad.
Qed.

Lemma pad_start0_length w s : length (pad_start0 w s) = w `max` length s.
Proof. unfold pad_start0. rewrite length_app, length_replicate. lia. Qed.

(** ** Substrings *)

Fixpoint starts_with (s p : jstr) : bool :=
  match p, s with
  | [], _ => true
  | _ :: _, [] => false
  | d :: p, c :: s => (c =? d)%N && starts_with s p
  end.

Definition ends_with (s p : jstr) : bool := starts_with (reverse s) (reverse p).

Fixpoint includes (s p : jstr) : bool :=
  starts_with s p || match s with [] => false | _ :: s => includes s p end.

Lemma starts_with_spec s p : starts_with s p = true ↔ ∃ t, s = p ++ t.
Proof.
  revert s. induction p as [|d p IH]; intros s; simpl.
  - split; [by exists s|]. by destruct s.
  - destruct s as [|c s]; simpl.
    + split; [done|]. by intros [t Ht].
    + rewrite andb_true_iff, N.eqb_eq, IH. split.
      * intros [-> [t ->]]. by exists t.
      * intros [t [= -> ->]]. eauto.
Qed.

Lemma ends_with_spec s p : ends_with s p = true ↔ ∃ t, s = t ++ p.
Proof.
  unfold ends_with. rewrite starts_with_spec. split; intros [t Ht].
  - exists (reverse t). rewrite <-(reverse_involutive s), Ht, reverse_app.
    by rewrite reverse_involutive.
  - exists (reverse t). by rewrite Ht, reverse_app.
Qed.

Lemma includes_spec s p : includes s p = true ↔ ∃ t u, s = t ++ p ++ u.
Proof.
  induction s as [|c s IH].
  - cbn [includes]. rewrite orb_false_r, starts_with_spec. split.
    + intros [t Ht]. by exists [], t.
    + intros (t & u & H). symmetry in H. apply app_nil in H as [-> H]. exists u. by rewrite H.
  - cbn [includes]. rewrite orb_true_iff, starts_with_spec, IH. split.
    + intros [[t Ht]|(t & u & ->)]; [by exists [], t|by exists (c :: t), u].
    + intros ([|d t] & u & H); [left; by exists u|].
      right. injection H as -> ->. eauto.
Qed.

(** [parts.join(separator)]. *)
Fixpoint str_join (sep : jstr) (parts : list jstr) : jstr :=
  match parts with
  | [] => []
  | [p] => p
  | p :: rest => p ++ sep ++ str_join sep rest
  end.

(** [/[\u0000-\u001f\u007f]/.test(value)]. *)
Definition hasUnsafeControlCharacter (value : jstr) : bool :=
  existsb (λ code, (code <=? 0x1f) || (code =? 0x7f))%N value.

(** A string is determined by the pieces around a character none of them has. *)
Lemma split_at_unique (sep : N) p1 p2 s1 s2 :
  sep ∉ p1 → sep ∉ p2 → p1 ++ sep :: s1 = p2 ++ sep :: s2 → p1 = p2 ∧ s1 = s2.
Proof.
  revert p2. induction p1 as [|c p1 IH]; intros [|d p2] H1 H2; simpl.
  - by intros [= ->].
  - intros [= -> _]. exfalso. apply H2. left.
  - intros [= <- _]. exfalso. apply H1. left.
  - intros [= -> E]. destruct (IH p2) as [-> ->]; [..|done]; [| |done].
    + intros ?. apply H1. by right.
    + intros ?. apply H2. by right.
Qed.

(** ** [localeCompare]

    The order of [String.prototype.localeCompare] is the host's: a comparison of
    all strings that is total and transitive.  It need not separate different
    strings (canonically equivalent ones compare equal). *)
Class Collation := {
  collation_leb : jstr → jstr → bool;
  collation_total : ∀ s t, collation_leb s t ∨ collation_leb t s;
  collation_trans : ∀ s t u, collation_leb s t → collation_leb t u → collation_leb s u
}.

(** [values.sort((left, right) => left.localeCompare(right))]. *)
Definition locale_sort `{Collation} (l : list jstr) : list jstr := isort collation_leb l.

(** Comparison by code units is one such order. *)
Definition code_unit_collation : Collation :=
  {| collation_leb := jstr_leb; collation_total := jstr_leb_total; collation_trans := jstr_leb_trans |}.

(** A collation that tells all strings apart. *)
Definition collation_separates `{Collation} : Prop :=
  ∀ s t, collation_leb s t → collation_leb t s → s = t.

Lemma locale_sort_perm `{Collation} l1 l2 :
  collation_separates → l1 ≡ₚ l2 → locale_sort l1 = locale_sort l2.
Proof.
  intros Hsep. apply isort_unique; [apply collation_total|apply collation_trans|].
  intros x y _ _. apply Hsep.
Qed.

Lemma elem_of_locale_sort `{Collation} x l : x ∈ locale_sort l ↔ x ∈ l.
Proof. apply elem_of_isort. Qed.
