(* ===== verification/JsMap.v ===== *)
(** * JsMap: insertion-ordered maps

    A JavaScript [Map] (and the own properties of an object) iterates in
    insertion order: [set] of a present key keeps its position, [set] of a new
    key appends, [delete] followed by [set] moves to the end.  The model is the
    list of entries in iteration order; its invariant is that keys are unique. *)

From S2P Require Export JsString.
From stdpp Require Export base option list gmap.

Section jsmap.
Context {K V : Type} `{EqDecision K}.
Implicit Types (m : list (K * V)) (k : K) (v : V).

(** [map.get(k)]: [None] is [undefined]. *)
Fixpoint jm_get k m : option V :=
  match m with
  | [] => None
  | (k', v) :: m => if decide (k = k') then Some v else jm_get k m
  end.

(** [map.has(k)]. *)
Definition jm_has k m : bool := match jm_get k m with Some _ => true | None => false end.

(** [map.set(k, v)]. *)
Fixpoint jm_set k v m : list (K * V) :=
  match m with
  | [] => [(k, v)]
  | (k', v') :: m => if decide (k = k') then (k', v) :: m else (k', v') :: jm_set k v m
  end.

(** [map.delete(k)]. *)
Fixpoint jm_delete k m : list (K * V) :=
  match m with
  | [] => []
  | (k', v') :: m => if decide (k = k') then m else (k', v') :: jm_delete k m
  end.

Definition jm_keys m : list K := m.*1.
Definition jm_values m : list V := m.*2.

(** [{ ...m1, ...m2 }]. *)
Definition jm_spread m1 m2 : list (K * V) := foldl (λ m kv, jm_set kv.1 kv.2 m) m1 m2.

(** [new Map(entries)]. *)
Definition jm_of_list (entries : list (K * V)) : list (K * V) := jm_spread [] entries.

Definition jm_wf m : Prop := NoDup (jm_keys m).

Lemma jm_get_set_eq k v m : jm_get k (jm_set k v m) = Some v.
Proof.
  induction m as [|[k' v'] m IH]; simpl; [by rewrite decide_True|].
  destruct (decide (k = k')); simpl; [by rewrite decide_True|by rewrite decide_False].
Qed.

Lemma jm_get_set_ne k k' v m : k ≠ k' → jm_get k (jm_set k' v m) = jm_get k m.
Proof.
  intros Hne. induction m as [|[j w] m IH]; simpl; [by rewrite decide_False|].
  destruct (decide (k' = j)) as [->|]; simpl.
  - by rewrite !decide_False.
  - destruct (decide (k = j)); [done|apply IH].
Qed.

Lemma jm_get_set k k' v m :
  jm_get k (jm_set k' v m) = if decide (k = k') then Some v else jm_get k m.
Proof.
  destruct (decide (k = k')) as [->|]; [apply jm_get_set_eq|by apply jm_get_set_ne].
Qed.

Lemma jm_get_None k m : jm_get k m = None ↔ k ∉ jm_keys m.
Proof.
  induction m as [|[k' v'] m IH]; simpl.
  - split; [intros _ H; by inversion H|done].
  - rewrite not_elem_of_cons, <-IH. destruct (decide (k = k')); naive_solver.
Qed.

Lemma jm_get_elem k v m : jm_wf m → jm_get k m = Some v ↔ (k, v) ∈ m.
Proof.
  unfold jm_wf. induction m as [|[k' v'] m IH]; simpl; intros Hnd.
  { split; [done|intros H; by inversion H]. }
  apply NoDup_cons in Hnd as [Hk' Hnd]. rewrite elem_of_cons.
  destruct (decide (k = k')) as [->|Hne].
  - split; [intros [= ->]; by left|]. intros [[= ->]|Hin]; [done|].
    exfalso. apply Hk'. by apply (list_elem_of_fmap_2 fst) in Hin.
  - rewrite IH by done. split; [by right|]. intros [[= -> ->]|]; done.
Qed.

Lemma jm_get_elem_1 k v m : jm_get k m = Some v → (k, v) ∈ m.
Proof.
  induction m as [|[k' v'] m IH]; simpl; [done|].
  destruct (decide (k = k')) as [->|]; [intros [= ->]; left|right; auto].
Qed.

Lemma jm_get_delete_ne k k' m : k ≠ k' → jm_get k (jm_delete k' m) = jm_get k m.
Proof.
  intros Hne. induction m as [|[j w] m IH]; simpl; [done|].
  destruct (decide (k' = j)) as [->|]; simpl; [by rewrite decide_False|].
  destruct (decide (k = j)); [done|apply IH].
Qed.

Lemma jm_get_delete_eq k m : jm_wf m → jm_get k (jm_delete k m) = None.
Proof.
  unfold jm_wf. induction m as [|[j w] m IH]; simpl; intros Hnd; [done|].
  apply NoDup_cons in Hnd as [Hj Hnd]. destruct (decide (k = j)) as [->|]; simpl.
  - by apply jm_get_None.
  - rewrite decide_False by done. by apply IH.
Qed.

Lemma jm_get_delete k k' m :
  jm_wf m → jm_get k (jm_delete k' m) = if decide (k = k') then None else jm_get k m.
Proof.
  intros Hwf. destruct (decide (k = k')) as [->|];
    [by apply jm_get_delete_eq|by apply jm_get_delete_ne].
Qed.

Lemma jm_keys_set k v m :
  jm_keys (jm_set k v m) = if jm_has k m then jm_keys m else jm_keys m ++ [k].
Proof.
  unfold jm_has. induction m as [|[j w] m IH]; simpl; [done|].
  destruct (decide (k = j)) as [->|]; simpl; [done|].
  unfold jm_keys in *. simpl. rewrite IH. by destruct (jm_get k m).
Qed.

Lemma jm_has_elem k m : jm_has k m = true ↔ k ∈ jm_keys m.
Proof.
  unfold jm_has. destruct (jm_get k m) eqn:E.
  - split; [|done]. intros _. destruct (decide (k ∈ jm_keys m)); [done|].
    rewrite <-jm_get_None in n. congruence.
  - apply jm_get_None in E. split; done.
Qed.

Lemma jm_wf_nil : jm_wf [].
Proof. apply NoDup_nil_2. Qed.

Lemma jm_wf_set k v m : jm_wf m → jm_wf (jm_set k v m).
Proof.
  unfold jm_wf. intros Hm. rewrite jm_keys_set. destruct (jm_has k m) eqn:E; [done|].
  apply NoDup_app. split_and!; [done| |by apply NoDup_singleton].
  intros x Hx ->%list_elem_of_singleton. apply jm_has_elem in Hx. congruence.
Qed.

Lemma jm_delete_keys_sub k m x : x ∈ jm_keys (jm_delete k m) → x ∈ jm_keys m.
Proof.
  induction m as [|[j w] m IH]; simpl; [done|].
  destruct (decide (k = j)); [by right|].
  intros [->|Hx]%elem_of_cons; [left|right; by apply IH].
Qed.

Lemma jm_wf_delete k m : jm_wf m → jm_wf (jm_delete k m).
Proof.
  unfold jm_wf. induction m as [|[j w] m IH]; simpl; intros Hnd; [done|].
  apply NoDup_cons in Hnd as [Hj Hnd]. destruct (decide (k = j)); [done|].
  simpl. apply NoDup_cons. split; [|by apply IH]. intros ?%jm_delete_keys_sub. done.
Qed.

Lemma jm_wf_spread m1 m2 : jm_wf m1 → jm_wf (jm_spread m1 m2).
Proof.
  unfold jm_spread. revert m1. induction m2 as [|[k v] m2 IH]; intros m1 Hm1; simpl; [done|].
  by apply IH, jm_wf_set.
Qed.

Lemma jm_get_spread k m1 m2 :
  jm_wf m2 →
  jm_get k (jm_spread m1 m2) = match jm_get k m2 with Some v => Some v | None => jm_get k m1 end.
Proof.
  unfold jm_wf, jm_spread. revert m1.
  induction m2 as [|[j w] m2 IH]; intros m1 Hnd; simpl; [done|].
  apply NoDup_cons in Hnd as [Hj Hnd]. simpl in Hj. rewrite IH by done. rewrite jm_get_set.
  destruct (decide (k = j)) as [->|]; [|done].
  by apply jm_get_None in Hj as ->.
Qed.

Lemma jm_delete_length k m : k ∈ jm_keys m → S (length (jm_delete k m)) = length m.
Proof.
  induction m as [|[j w] m IH]; simpl; [by intros ?%elem_of_nil|].
  destruct (decide (k = j)); [done|]. intros [->|Hk]%elem_of_cons; [done|].
  simpl. by rewrite IH.
Qed.

Lemma jm_delete_notin k m : k ∉ jm_keys m → jm_delete k m = m.
Proof.
  induction m as [|[j w] m IH]; simpl; intros Hk; [done|].
  rewrite decide_False by set_solver. by rewrite IH by set_solver.
Qed.

Lemma jm_set_new k v m : k ∉ jm_keys m → jm_set k v m = m ++ [(k, v)].
Proof.
  induction m as [|[j w] m IH]; simpl; intros Hk; [done|].
  rewrite decide_False by set_solver. by rewrite IH by set_solver.
Qed.

(** Two maps with the same lookups: the order of entries is not observed. *)
Definition jm_equiv m1 m2 : Prop := ∀ k, jm_get k m1 = jm_get k m2.

#[export] Instance jm_equiv_equivalence : Equivalence jm_equiv.
Proof.
  split; [by intros m k|by intros m1 m2 H k|].
  intros m1 m2 m3 H1 H2 k. by rewrite H1.
Qed.

#[export] Instance jm_get_proper k : Proper (jm_equiv ==> eq) (jm_get k).
Proof. intros m1 m2 H. apply H. Qed.

#[export] Instance jm_set_proper k v : Proper (jm_equiv ==> jm_equiv) (jm_set k v).
Proof. intros m1 m2 H j. rewrite !jm_get_set. by destruct (decide _). Qed.

(** Well-formed maps are equivalent exactly when their entries are a
    permutation of each other. *)
Lemma jm_equiv_perm m1 m2 : jm_wf m1 → jm_wf m2 → jm_equiv m1 m2 ↔ m1 ≡ₚ m2.
Proof.
  intros H1 H2. split.
  - intros Heq. apply NoDup_Permutation.
    + by apply (NoDup_fmap_1 fst).
    + by apply (NoDup_fmap_1 fst).
    + intros [k v]. by rewrite <-!jm_get_elem, Heq.
  - intros Hp k. apply option_eq. intros v.
    by rewrite !jm_get_elem, Hp.
Qed.

Lemma jm_set_elem k v m kv : kv ∈ jm_set k v m → kv = (k, v) ∨ kv ∈ m.
Proof.
  induction m as [|[k' v'] m IH]; simpl; [intros ->%list_elem_of_singleton; by left|].
  destruct (decide (k = k')) as [-> |]; intros [-> |Hin]%elem_of_cons.
  - by left.
  - right. by right.
  - right. by left.
  - destruct (IH Hin); [by left|]. right. by right.
Qed.

Lemma jm_delete_elem k m kv : kv ∈ jm_delete k m → kv ∈ m.
Proof.
  induction m as [|[k' v'] m IH]; simpl; [done|]. destruct (decide (k = k')); [by right|].
  intros [-> |Hin]%elem_of_cons; [by left|right; by apply IH].
Qed.
End jsmap.

#[export] Hint Resolve jm_wf_nil jm_wf_set jm_wf_delete jm_wf_spread : cff.

(** Mapping values commutes with lookup. *)
Lemma jm_get_fmap {K V W} `{EqDecision K} (f : V → W) k (m : list (K * V)) :
  jm_get k (prod_map id f <$> m) = f <$> jm_get k m.
Proof.
  induction m as [|[j w] m IH]; simpl; [done|]. destruct (decide (k = j)); [done|apply IH].
Qed.

Lemma jm_keys_fmap {K V W} (f : V → W) (m : list (K * V)) :
  jm_keys (prod_map id f <$> m) = jm_keys m.
Proof. unfold jm_keys. rewrite <-list_fmap_compose. by apply list_fmap_ext. Qed.

(** ** Insertion-ordered sets: [new Set(xs)] *)
Section jsset.
Context {A : Type} `{EqDecision A}.
Implicit Types (x : A) (s l : list A).

(** [set.add(x)]. *)
Definition js_add x s : list A := if decide (x ∈ s) then s else s ++ [x].

(** [set.delete(x)]. *)
Definition js_remove x s : list A := filter (λ y, y ≠ x) s.

(** [[...new Set(xs)]]: first occurrences, in order. *)
Definition js_unique l : list A := foldl (λ s x, js_add x s) [] l.

Lemma js_add_elem x y s : y ∈ js_add x s ↔ y = x ∨ y ∈ s.
Proof. unfold js_add. destruct (decide (x ∈ s)); set_solver. Qed.

Lemma js_remove_elem x y s : y ∈ js_remove x s ↔ y ≠ x ∧ y ∈ s.
Proof. unfold js_remove. by rewrite list_elem_of_filter. Qed.

Lemma js_add_nodup x s : NoDup s → NoDup (js_add x s).
Proof.
  unfold js_add. intros Hs. destruct (decide (x ∈ s)); [done|].
  apply NoDup_app. split_and!; [done|set_solver|by apply NoDup_singleton].
Qed.

Lemma js_remove_nodup x s : NoDup s → NoDup (js_remove x s).
Proof. apply NoDup_filter. Qed.

Lemma js_unique_aux l s y : y ∈ foldl (λ s x, js_add x s) s l ↔ y ∈ s ∨ y ∈ l.
Proof.
  revert s. induction l as [|x l IH]; intros s; simpl; [set_solver|].
  rewrite IH, js_add_elem. set_solver.
Qed.

Lemma js_unique_elem l y : y ∈ js_unique l ↔ y ∈ l.
Proof. unfold js_unique. rewrite js_unique_aux. set_solver. Qed.

Lemma js_unique_nodup l : NoDup (js_unique l).
Proof.
  unfold js_unique. assert (NoDup (@nil A)) as Hs by constructor. revert Hs.
  generalize (@nil A). induction l as [|x l IH]; intros s Hs; simpl; [done|].
  by apply IH, js_add_nodup.
Qed.

Lemma js_unique_id l : NoDup l → js_unique l = l.
Proof.
  unfold js_unique. intros Hl. change l with ([] ++ l) at 2.
  assert (NoDup ([] ++ l)) as Hnd by done. clear Hl. revert Hnd.
  generalize (@nil A). induction l as [|x l IH]; intros s Hnd; simpl; [by rewrite app_nil_r|].
  assert (js_add x s = s ++ [x]) as ->.
  { unfold js_add. rewrite decide_False; [done|]. apply NoDup_app in Hnd. set_solver. }
  rewrite IH by by rewrite <-app_assoc. by rewrite <-app_assoc.
Qed.
End jsset.

#[export] Hint Resolve js_add_nodup js_remove_nodup js_unique_nodup : cff.
