(* ===== verification/Json.v ===== *)
(** * Json: JavaScript values and JSON

    Models [core/json.ts] and the two structural comparisons of JSON values
    ([jsonEqual] of [core/document-merge.ts], [jsonValuesEqual] of
    [core/predicates.ts]).  A [value] is a tree of JavaScript data: [undefined],
    [null], booleans, binary64 numbers, strings, arrays and plain objects.
    Sharing is not represented, so [cloneJsonValue] is the identity on trees;
    cyclic objects and class instances, which [isJsonValue] rejects, have no
    counterpart. *)

From Stdlib Require Export SpecFloat.
From S2P Require Export JsMap.
From stdpp Require Export base option list.

(** ** Numbers: IEEE 754 binary64 *)

Abbreviation num := spec_float.

(** The number an integer literal denotes. *)
Definition num_of_Z (z : Z) : num := binary_normalize 53 1024 z 0 false.

Definition num_is_finite (x : num) : bool :=
  match x with S754_zero _ | S754_finite _ _ _ => true | _ => false end.

(** [x === y]. *)
Definition num_eqb (x y : num) : bool := SFeqb x y.

(** The integer a number is, when it is one. *)
Definition num_to_Z (x : num) : option Z :=
  match x with
  | S754_zero _ => Some 0%Z
  | S754_finite s m e =>
      let signed := (λ n : Z, if s then - n else n)%Z in
      if (0 <=? e)%Z then Some (signed (Z.pos m * 2 ^ e)%Z)
      else if (Z.pos m mod 2 ^ (- e) =? 0)%Z then Some (signed (Z.pos m / 2 ^ (- e))%Z)
      else None
  | _ => None
  end.

Definition MAX_SAFE_INTEGER : Z := 9007199254740991.

(** [Number.isSafeInteger]. *)
Definition is_safe_integer (z : Z) : bool := (- MAX_SAFE_INTEGER <=? z)%Z && (z <=? MAX_SAFE_INTEGER)%Z.

Definition num_safe_integer (x : num) : option Z :=
  match num_to_Z x with
  | Some z => if is_safe_integer z then Some z else None
  | None => None
  end.

Lemma digits2_shift n m : digits2_pos (Pos.iter xO m n) = (digits2_pos m + n)%positive.
Proof.
  rewrite Pos.add_comm. induction n using Pos.peano_ind.
  - simpl. lia.
  - rewrite Pos.iter_succ. simpl. rewrite IHn. lia.
Qed.

Lemma shift_pos_value n m : Z.pos (Pos.iter xO m n) = (Z.pos m * 2 ^ Z.pos n)%Z.
Proof.
  induction n using Pos.peano_ind; [simpl; lia|].
  rewrite Pos.iter_succ, Pos2Z.inj_succ, Z.pow_succ_r by lia. lia.
Qed.

Lemma digits2_bound m : (2 ^ (Z.pos (digits2_pos m) - 1) <= Z.pos m)%Z.
Proof.
  induction m as [m IH|m IH|]; simpl digits2_pos; [| |simpl; lia];
    rewrite Pos2Z.inj_succ; replace (Z.succ (Z.pos (digits2_pos m)) - 1)%Z with (Z.succ (Z.pos (digits2_pos m) - 1)) by lia;
    rewrite Z.pow_succ_r by lia; lia.
Qed.

Lemma Zdigits2_digits m : Zdigits2 (Z.pos m) = Z.pos (digits2_pos m).
Proof. done. Qed.

(** A mantissa of 53 digits is not rounded. *)
Lemma round_exact s m e :
  digits2_pos m = 53%positive → (-1000 <= e <= 900)%Z →
  binary_round_aux 53 1024 s (Z.pos m) e loc_Exact = S754_finite s m e.
Proof.
  intros Hd He. unfold binary_round_aux, shr_fexp. rewrite Zdigits2_digits, Hd.
  assert (fexp 53 1024 (53 + e) - e = 0)%Z as -> by (unfold fexp, emin; lia).
  cbn [shr shr_record_of_loc shr_m loc_of_shr_record round_nearest_even].
  rewrite Zdigits2_digits, Hd.
  assert (fexp 53 1024 (53 + e) - e = 0)%Z as -> by (unfold fexp, emin; lia).
  cbn [shr shr_record_of_loc shr_m]. by rewrite (proj2 (Z.leb_le e (1024 - 53))) by lia.
Qed.

Lemma num_of_pos s m :
  (Z.pos m < 2 ^ 53)%Z → num_to_Z (binary_round 53 1024 s m 0) = Some (if s then Z.neg m else Z.pos m).
Proof.
  intros Hm. pose proof (digits2_bound m) as Hb.
  assert (Z.pos (digits2_pos m) <= 53)%Z as Hd.
  { apply Z.nlt_ge. intros H. assert (2 ^ 53 <= 2 ^ (Z.pos (digits2_pos m) - 1))%Z; [|lia].
    apply Z.pow_le_mono_r; lia. }
  unfold binary_round, shl_align.
  assert (fexp 53 1024 (Z.pos (digits2_pos m) + 0) - 0 = Z.pos (digits2_pos m) - 53)%Z as Hf by (unfold fexp, emin; lia).
  rewrite Hf. destruct (Z.pos (digits2_pos m) - 53)%Z as [|k|k] eqn:Ek; [|lia|].
  - rewrite round_exact by lia. simpl. by destruct s; rewrite Z.mul_1_r.
  - assert (fexp 53 1024 (Z.pos (digits2_pos m) + 0) = Z.neg k) as -> by lia.
    rewrite round_exact; [|rewrite digits2_shift; lia|lia]. cbn [num_to_Z].
    change (0 <=? Z.neg k)%Z with false. cbv iota. rewrite shift_pos_value.
    change (- Z.neg k)%Z with (Z.pos k).
    rewrite Z.mod_mul by (apply Z.pow_nonzero; lia). simpl Z.eqb. cbv iota.
    rewrite Z.div_mul by (apply Z.pow_nonzero; lia). by destruct s.
Qed.

(** An integer of at most 53 bits is the number it denotes. *)
Lemma num_to_Z_of_Z z : (Z.abs z < 2 ^ 53)%Z → num_to_Z (num_of_Z z) = Some z.
Proof.
  intros Hz. unfold num_of_Z, binary_normalize. destruct z as [|m|m]; [done|..]; apply num_of_pos; lia.
Qed.

Lemma num_safe_integer_of_Z z : is_safe_integer z = true → num_safe_integer (num_of_Z z) = Some z.
Proof.
  intros Hz. unfold num_safe_integer. rewrite num_to_Z_of_Z; [by rewrite Hz|].
  unfold is_safe_integer, MAX_SAFE_INTEGER in Hz. rewrite andb_true_iff, !Z.leb_le in Hz. lia.
Qed.

(** Equal numbers have the same representative: [-0 === 0]. *)
Definition num_canon (x : num) : num := match x with S754_zero _ => S754_zero false | _ => x end.

Lemma num_eqb_canon x y :
  num_is_finite x = true → num_eqb x y = true ↔ num_canon x = num_canon y.
Proof.
  unfold num_eqb, SFeqb, SFcompare. intros Hx. destruct x as [s| | |s m e]; try done.
  - by destruct y as [[]|[]| |[]]; destruct s.
  - destruct y as [t|t| |t m' e']; try (destruct s; done); try (destruct s, t; done).
    simpl. destruct s, t; try done.
    + destruct (Z.compare_spec e e') as [->|?|?];
        [|split; [done|intros [= -> ->]; lia]|split; [done|intros [= -> ->]; lia]].
      change (Pos.compare_cont Eq m m') with (m ?= m')%positive.
      destruct (Pos.compare_spec m m') as [->|?|?]; simpl; [done|..];
        (split; [done|intros [= ->]; lia]).
    + destruct (Z.compare_spec e e') as [->|?|?];
        [|split; [done|intros [= -> ->]; lia]|split; [done|intros [= -> ->]; lia]].
      change (Pos.compare_cont Eq m m') with (m ?= m')%positive.
      destruct (Pos.compare_spec m m') as [->|?|?]; simpl; [done|..];
        (split; [done|intros [= ->]; lia]).
Qed.

(** ** Values *)

Inductive value : Type :=
| VUndef
| VNull
| VBool (b : bool)
| VNum (n : num)
| VStr (s : jstr)
| VArr (items : list value)
| VObj (fields : list (jstr * value)).

(** [DocumentData]: the own properties of a plain object. *)
Abbreviation data := (list (jstr * value)).

Definition vint (z : Z) : value := VNum (num_of_Z z).
Definition vstr (s : string) : value := VStr (js s).

Section value_induction.
Context (P : value → Prop).
Context (Hundef : P VUndef) (Hnull : P VNull) (Hbool : ∀ b, P (VBool b))
        (Hnum : ∀ n, P (VNum n)) (Hstr : ∀ s, P (VStr s))
        (Harr : ∀ l, Forall P l → P (VArr l))
        (Hobj : ∀ m, Forall (λ kv, P kv.2) m → P (VObj m)).

Fixpoint value_ind' (v : value) : P v :=
  match v with
  | VUndef => Hundef
  | VNull => Hnull
  | VBool b => Hbool b
  | VNum n => Hnum n
  | VStr s => Hstr s
  | VArr l => Harr l ((fix go l := match l return Forall P l with
      | [] => Forall_nil_2 _
      | x :: l => Forall_cons_2 _ _ _ (value_ind' x) (go l) end) l)
  | VObj m => Hobj m ((fix go m := match m return Forall (λ kv, P kv.2) m with
      | [] => Forall_nil_2 _
      | kv :: m => Forall_cons_2 (λ kv, P kv.2) kv m (value_ind' kv.2) (go m) end) m)
  end.
End value_induction.

(** [data[field]]. *)
Definition vget (field : jstr) (d : data) : value := default VUndef (jm_get field d).

Definition is_undefined (v : value) : bool := match v with VUndef => true | _ => false end.
Definition is_nullish (v : value) : bool := match v with VUndef | VNull => true | _ => false end.
Definition is_string (v : value) : bool := match v with VStr _ => true | _ => false end.

(** Property names of an object are unique, at every depth. *)
Fixpoint vwf (v : value) : Prop :=
  match v with
  | VArr l => (fix go l := match l with [] => True | x :: l => vwf x ∧ go l end) l
  | VObj m => jm_wf m ∧ (fix go m := match m with [] => True | kv :: m => vwf kv.2 ∧ go m end) m
  | _ => True
  end.

Lemma vwf_arr l : vwf (VArr l) ↔ Forall vwf l.
Proof.
  simpl. induction l as [|x l IH]; simpl; [by split; [constructor|]|].
  by rewrite Forall_cons, IH.
Qed.

Lemma vwf_obj m : vwf (VObj m) ↔ jm_wf m ∧ Forall (λ kv, vwf kv.2) m.
Proof.
  simpl. f_equiv. clear. induction m as [|x l IH]; simpl; [by split; [constructor|]|].
  by rewrite Forall_cons, IH.
Qed.

(** ** [isJsonValue] and [cloneJsonValue] *)

(** [isJsonValueAtDepth(value, { maxDepth }, depth, ancestors)]. *)
Fixpoint isJsonValueAtDepth (v : value) (maxDepth : option nat) (depth : nat) : bool :=
  let too_deep := match maxDepth with Some d => Nat.ltb d depth | None => false end in
  match v with
  | VNull | VStr _ | VBool _ => true
  | VNum n => num_is_finite n
  | VUndef => false
  | VArr l => negb too_deep &&
      (fix go l := match l with
       | [] => true
       | x :: l => isJsonValueAtDepth x maxDepth (S depth) && go l end) l
  | VObj m => negb too_deep &&
      (fix go m := match m with
       | [] => true
       | kv :: m => isJsonValueAtDepth kv.2 maxDepth (S depth) && go m end) m
  end.

Definition isJsonValue (v : value) : bool := isJsonValueAtDepth v None 0.

(** [isJsonValue] of an object literal: the check of [cloneData] and of
    [cloneDocumentData]. *)
Definition isJsonData (d : data) : bool := isJsonValue (VObj d).

Fixpoint cloneJsonValue (v : value) : value :=
  match v with
  | VArr l => VArr (cloneJsonValue <$> l)
  | VObj m => VObj (prod_map id cloneJsonValue <$> m)
  | _ => v
  end.

Lemma cloneJsonValue_id v : cloneJsonValue v = v.
Proof.
  induction v as [| | | | |l IH|m IH] using value_ind'; simpl; [done..| |]; f_equal.
  - induction IH as [|x l Hx _ IH]; [done|]. by rewrite fmap_cons, Hx, IH.
  - induction IH as [|[k x] m Hx _ IH]; [done|]. rewrite fmap_cons, IH.
    unfold prod_map. simpl in *. by rewrite Hx.
Qed.

#[export] Hint Rewrite cloneJsonValue_id : cff_simp.

Lemma isJsonValue_depth v d1 d2 : isJsonValueAtDepth v None d1 = isJsonValueAtDepth v None d2.
Proof.
  revert d1 d2. induction v as [| | | | |l IH|m IH] using value_ind'; intros d1 d2; simpl; try done.
  - induction IH as [|x l Hx _ IH]; [done|]. by rewrite (Hx (S d1) (S d2)), IH.
  - induction IH as [|x l Hx _ IH]; [done|]. by rewrite (Hx (S d1) (S d2)), IH.
Qed.

Lemma isJsonValue_arr l : isJsonValue (VArr l) = forallb isJsonValue l.
Proof.
  unfold isJsonValue. simpl. induction l as [|x l IH]; simpl; [done|].
  by rewrite IH, (isJsonValue_depth x 1 0).
Qed.

Lemma isJsonData_forallb m : isJsonData m = forallb (λ kv, isJsonValue kv.2) m.
Proof.
  unfold isJsonData, isJsonValue. simpl. induction m as [|x l IH]; simpl; [done|].
  by rewrite IH, (isJsonValue_depth x.2 1 0).
Qed.

Lemma isJsonValue_bounded v maxDepth depth :
  isJsonValueAtDepth v maxDepth depth = true → isJsonValue v = true.
Proof.
  intros H. unfold isJsonValue. rewrite (isJsonValue_depth v 0 depth). revert depth H.
  induction v as [| | | | |l IH|m IH] using value_ind'; intros depth H; simpl in *; try done.
  - apply andb_prop in H as [_ H]. induction IH as [|x l Hx _ IH]; [done|].
    apply andb_prop in H as [H1 H2]. by rewrite (Hx _ H1), (IH H2).
  - apply andb_prop in H as [_ H]. induction IH as [|x l Hx _ IH]; [done|].
    apply andb_prop in H as [H1 H2]. by rewrite (Hx _ H1), (IH H2).
Qed.

(** ** Structural comparison *)

(** [left === right] on primitives.  Two object trees are never the same
    reference here; the structural branch answers for them. *)
Definition strict_equal (l r : value) : bool :=
  match l, r with
  | VUndef, VUndef | VNull, VNull => true
  | VBool a, VBool b => Bool.eqb a b
  | VNum a, VNum b => num_eqb a b
  | VStr a, VStr b => bool_decide (a = b)
  | _, _ => false
  end.

(** [leftKeys.length === rightKeys.length] and pairwise [===] of the sorted
    key lists. *)
Definition same_keys (l r : data) : bool :=
  bool_decide (sort_strings (jm_keys l) = sort_strings (jm_keys r)).

(** [jsonEqual] of document-merge.ts.  The keys are compared in sorted order;
    the values are compared entry by entry of [left], which gives the same
    conjunction. *)
Fixpoint jsonEqual (left right : value) {struct left} : bool :=
  if strict_equal left right then true
  else match left, right with
  | VArr l, VArr r =>
      Nat.eqb (length l) (length r) &&
      (fix every l r := match l, r with
       | x :: l, y :: r => jsonEqual x y && every l r
       | _, _ => true end) l r
  | VObj l, VObj r =>
      same_keys l r &&
      (fix every l := match l with
       | kv :: l => jsonEqual kv.2 (vget kv.1 r) && every l
       | [] => true end) l
  | _, _ => false
  end.

(** [jsonValuesEqual] of predicates.ts: the same comparison with its guards in
    another order. *)
Fixpoint jsonValuesEqual (left right : value) {struct left} : bool :=
  if strict_equal left right then true
  else if is_nullish left || is_nullish right then false
  else match left, right with
  | VArr l, VArr r =>
      Nat.eqb (length l) (length r) &&
      (fix every l r := match l, r with
       | x :: l, y :: r => jsonValuesEqual x y && every l r
       | _, _ => true end) l r
  | VArr _, _ | _, VArr _ => false
  | VObj l, VObj r =>
      same_keys l r &&
      (fix every l := match l with
       | kv :: l => jsonValuesEqual kv.2 (vget kv.1 r) && every l
       | [] => true end) l
  | _, _ => false
  end.

(** The canonical form of a value: object keys sorted, [-0] written [0]. *)
Definition entry_leb (a b : jstr * value) : bool := jstr_leb a.1 b.1.

Fixpoint canon (v : value) : value :=
  match v with
  | VNum n => VNum (num_canon n)
  | VArr l => VArr (canon <$> l)
  | VObj m => VObj (isort entry_leb (prod_map id canon <$> m))
  | _ => v
  end.

Lemma canon_obj_eq m1 m2 :
  jm_wf m1 → jm_wf m2 →
  isort entry_leb m1 = isort entry_leb m2 ↔ jm_equiv m1 m2.
Proof.
  intros H1 H2. rewrite jm_equiv_perm by done. split.
  - intros H. by rewrite <-(isort_perm entry_leb m1), H, isort_perm.
  - intros H. apply isort_unique; [..|done].
    + intros x y. apply jstr_leb_total.
    + intros x y z. apply jstr_leb_trans.
    + intros [j v] [k w] Hv Hw Hjk Hkj. apply jstr_leb_antisym in Hjk as E; [|done].
      simpl in E. subst k. f_equal. apply (jm_get_elem j v) in Hv; [|done].
      apply (jm_get_elem j w) in Hw; [|done]. congruence.
Qed.

Lemma jsonEqual_arr l r :
  jsonEqual (VArr l) (VArr r) = true ↔ Forall2 (λ x y, jsonEqual x y = true) l r.
Proof.
  simpl. revert r. induction l as [|x l IH]; intros [|y r]; simpl;
    [split; [constructor|done]|split; [done|intros H; inversion H]..|].
  rewrite Forall2_cons, <-IH, !andb_true_iff. tauto.
Qed.

Lemma jsonEqual_obj l r :
  jsonEqual (VObj l) (VObj r) = true ↔
  same_keys l r = true ∧ Forall (λ kv, jsonEqual kv.2 (vget kv.1 r) = true) l.
Proof.
  simpl. rewrite andb_true_iff. f_equiv.
  induction l as [|x l IH]; [split; [constructor|done]|].
  by rewrite andb_true_iff, Forall_cons, IH.
Qed.

Lemma same_keys_elem l r k : same_keys l r = true → k ∈ jm_keys l ↔ k ∈ jm_keys r.
Proof.
  intros H%bool_decide_eq_true. unfold sort_strings in H.
  by rewrite <-(elem_of_isort jstr_leb), H, elem_of_isort.
Qed.

Lemma same_keys_equiv l r :
  jm_wf l → jm_wf r → (∀ k, k ∈ jm_keys l ↔ k ∈ jm_keys r) → same_keys l r = true.
Proof.
  intros Hl Hr H. apply bool_decide_eq_true, sort_strings_perm. by apply NoDup_Permutation.
Qed.

Lemma vget_elem k v m : jm_wf m → (k, v) ∈ m → vget k m = v.
Proof. intros Hm H%jm_get_elem; [|done]. unfold vget. by rewrite H. Qed.

Lemma VArr_iff l r : VArr l = VArr r ↔ l = r.
Proof. split; [by intros [= ->]|by intros ->]. Qed.

Lemma VObj_iff l r : VObj l = VObj r ↔ l = r.
Proof. split; [by intros [= ->]|by intros ->]. Qed.

Lemma jm_equiv_keys {V W} (m : list (jstr * V)) (r : list (jstr * W)) :
  (∀ k, jm_has k m = jm_has k r) → ∀ k, k ∈ jm_keys m ↔ k ∈ jm_keys r.
Proof. intros H k. by rewrite <-!jm_has_elem, H. Qed.

(** Objects whose entries compare as their canonical forms do. *)
Lemma jsonEqual_canon_obj m r :
  jm_wf m → jm_wf r →
  (∀ k v w, (k, v) ∈ m → (k, w) ∈ r → jsonEqual v w = true ↔ canon v = canon w) →
  jsonEqual (VObj m) (VObj r) = true ↔ canon (VObj m) = canon (VObj r).
Proof.
  intros Hwm Hwr Hval. rewrite jsonEqual_obj. cbn [canon].
  rewrite VObj_iff, canon_obj_eq by (unfold jm_wf; by rewrite jm_keys_fmap).
  rewrite Forall_forall. split.
  - intros [Hkeys Hall] k. rewrite !jm_get_fmap.
    destruct (jm_get k m) as [v|] eqn:Ev, (jm_get k r) as [w|] eqn:Ew; simpl; try done.
    + f_equal. apply jm_get_elem in Ev as Hv; [|done]. apply jm_get_elem in Ew as Hw; [|done].
      apply (Hval k v w Hv Hw). specialize (Hall _ Hv). simpl in Hall.
      unfold vget in Hall. by rewrite Ew in Hall.
    + exfalso. apply jm_get_None in Ew. apply Ew. rewrite <-(same_keys_elem m) by done.
      apply jm_has_elem. unfold jm_has. by rewrite Ev.
    + exfalso. apply jm_get_None in Ev. apply Ev. rewrite (same_keys_elem m r) by done.
      apply jm_has_elem. unfold jm_has. by rewrite Ew.
  - intros Heq. split.
    + apply same_keys_equiv; [done..|]. apply jm_equiv_keys. intros k. unfold jm_has.
      specialize (Heq k). rewrite !jm_get_fmap in Heq. by destruct (jm_get k m), (jm_get k r).
    + intros [k v] Hv. simpl. specialize (Heq k). rewrite !jm_get_fmap in Heq.
      apply (jm_get_elem k v) in Hv as Ev; [|done]. rewrite Ev in Heq. unfold vget.
      destruct (jm_get k r) as [w|] eqn:Ew; [|done]. simpl in *. injection Heq as Heq.
      apply (Hval k v w); [done|by apply jm_get_elem|done].
Qed.

(** On JSON values [jsonEqual] is equality of canonical forms: the order of
    keys and the sign of zero are all it forgets. *)
Lemma jsonEqual_canon a b :
  isJsonValue a = true → vwf a → vwf b → jsonEqual a b = true ↔ canon a = canon b.
Proof.
  revert b. induction a as [| |x|n|s|l IH|m IH] using value_ind'; intros b Ha Hwa Hwb;
    try by destruct b.
  - destruct b as [| |y| | | |]; try done. by destruct x, y.
  - destruct b as [| | |n'| | |]; try done. simpl.
    pose proof (num_eqb_canon n n' Ha) as Hn.
    destruct (num_eqb n n'); split; try done; intros H.
    + f_equal. by apply Hn.
    + injection H as H. by apply Hn in H.
  - destruct b as [| | | |t| |]; try done. cbn [jsonEqual strict_equal canon].
    destruct (bool_decide_reflect (s = t)) as [->|Hne]; [done|].
    split; [done|by intros [= ->]].
  - destruct b as [| | | | |r|]; try done. rewrite jsonEqual_arr.
    rewrite isJsonValue_arr, forallb_In in Ha. apply vwf_arr in Hwa, Hwb. cbn [canon].
    rewrite VArr_iff. revert r Hwb. induction IH as [|x l Hx _ IH]; intros [|y r] Hwb; simpl;
      [split; [done|constructor]|split; [intros H; inversion H|done]..|].
    apply Forall_cons in Hwa as [Hwx Hwl]. apply Forall_cons in Hwb as [Hwy Hwr].
    rewrite Forall2_cons, Hx, IH; [split; [intros [E1 E2]; by f_equal|by intros [= E1 E2]]|..]; auto.
    + intros z Hz. apply Ha. by right.
    + apply Ha. by left.
  - destruct b as [| | | | | |r]; try done.
    change (isJsonData m = true) in Ha. rewrite isJsonData_forallb, forallb_In in Ha.
    apply vwf_obj in Hwa as [Hwm Hwa], Hwb as [Hwr Hwb].
    rewrite Forall_forall in IH, Hwa, Hwb. apply jsonEqual_canon_obj; [done..|].
    intros k v w Hv Hw.
    apply (IH (k, v)); [done|by apply (Ha (k, v))|by apply (Hwa (k, v))|by apply (Hwb (k, w))].
Qed.

Lemma jsonEqual_refl v : isJsonValue v = true → vwf v → jsonEqual v v = true.
Proof. intros. by apply jsonEqual_canon. Qed.

Lemma jsonValuesEqual_obj l r :
  jsonValuesEqual (VObj l) (VObj r) = true ↔
  same_keys l r = true ∧ Forall (λ kv, jsonValuesEqual kv.2 (vget kv.1 r) = true) l.
Proof.
  simpl. rewrite andb_true_iff. f_equiv.
  induction l as [|x l IH]; [split; [constructor|done]|].
  by rewrite andb_true_iff, Forall_cons, IH.
Qed.

Lemma jsonValuesEqual_arr l r :
  jsonValuesEqual (VArr l) (VArr r) = true ↔ Forall2 (λ x y, jsonValuesEqual x y = true) l r.
Proof.
  simpl. revert r. induction l as [|x l IH]; intros [|y r]; simpl;
    [split; [constructor|done]|split; [done|intros H; inversion H]..|].
  rewrite Forall2_cons, <-IH, !andb_true_iff. tauto.
Qed.

(** The merge planner and the predicate evaluator agree on when two JSON
    values are the same. *)
Lemma jsonValuesEqual_jsonEqual a b : jsonValuesEqual a b = jsonEqual a b.
Proof.
  revert b. induction a as [| |x|n|s|l IH|m IH] using value_ind'; intros b; try by destruct b.
  - destruct b as [| | | | |r|]; try done. apply eq_iff_eq_true.
    rewrite jsonValuesEqual_arr, jsonEqual_arr. revert r.
    induction IH as [|x l Hx _ IH]; intros [|y r]; try (split; intros H; by inversion H).
    by rewrite !Forall2_cons, IH, Hx.
  - destruct b as [| | | | | |r]; try done. apply eq_iff_eq_true.
    rewrite jsonValuesEqual_obj, jsonEqual_obj. f_equiv.
    rewrite !Forall_forall. rewrite Forall_forall in IH.
    split; intros H kv Hkv; [rewrite <-IH by done|rewrite IH by done]; by apply H.
Qed.
