(* ===== verification/Normalize.v ===== *)
(** * Normalize: what the normalizers of definitions share

    Automation rules ([core/automation-rules.ts]) and workflows
    ([core/workflow.ts]) are normalized by private helpers of the same text: a
    required string, a stable identifier, a positive limit, an array whose
    elements are normalized and whose keys must differ.  They differ in the
    error they throw, an argument here.  A normalizer [settles] when what it
    returns normalizes to itself. *)

From S2P Require Export Json.
From stdpp Require Export base option list.

(** Takes the first step of a computation that succeeded. *)
Tactic Notation "step_ok" ident(H) "as" ident(x) ident(Hx) := apply bind_ok in H as (x & Hx & H).
Tactic Notation "ensure_step" ident(H) "as" ident(E) := apply bind_ok in H as (? & E & H); apply ensure_ok in E.

Section normalizers.
Context (invalid : error).

(** [positiveLimit(value, fallback, label)]. *)
Definition positive_limit (v : option Z) (fallback : Z) : res Z :=
  let normalized := default fallback v in
  _ ← ensure (negb (negb (is_safe_integer normalized) || (normalized <=? 0)%Z)) invalid;
  Ok normalized.

(** A string that is trimmed and must not be empty. *)
Definition required_text (v : jstr) : res jstr :=
  let normalized := trim v in
  _ ← ensure (negb (bool_decide (normalized = []))) invalid;
  Ok normalized.

Definition is_alphanumeric (c : N) : bool :=
  (65 <=? c)%N && (c <=? 90)%N || (97 <=? c)%N && (c <=? 122)%N || (48 <=? c)%N && (c <=? 57)%N.

(** [/^[A-Za-z0-9][A-Za-z0-9._:-]{0,127}$/]. *)
Definition stable_id (s : jstr) : bool :=
  match s with
  | [] => false
  | c :: rest =>
      is_alphanumeric c && (length rest <=? 127) &&
      forallb (λ c, is_alphanumeric c || bool_decide (c ∈ js "._:-")) rest
  end.

Definition stable_text (v : jstr) : res jstr :=
  normalized ← required_text v;
  _ ← ensure (stable_id normalized) invalid;
  Ok normalized.

(** A loop that normalizes the elements of an array and refuses a repeated key. *)
Definition distinct_loop {A B} (f : A → res B) (key : B → jstr) (values : list A) : res (list B) :=
  r ← foldl_res (λ (acc : list B * list jstr) x,
    y ← f x;
    _ ← ensure (negb (bool_decide (key y ∈ acc.2))) invalid;
    Ok (acc.1 ++ [y], js_add (key y) acc.2)) ([], []) values;
  Ok r.1.

(** An absent value stays absent. *)
Definition optional_res {A B} (f : A → res B) (v : option A) : res (option B) :=
  match v with None => Ok None | Some v => w ← f v; Ok (Some w) end.

(** Functions that leave what they return as it is. *)
Definition settles {A} (f : A → res A) : Prop := ∀ x y, f x = Ok y → f y = Ok y.

Lemma required_text_ok v v' : required_text v = Ok v' → v' = trim v ∧ v' ≠ [] ∧ required_text v' = Ok v'.
Proof.
  unfold required_text. cbv zeta. intros H. step_ok H as u Hu. injection H as <-. split_and!; [done| |].
  - apply ensure_ok in Hu. by apply negb_true_iff, bool_decide_eq_false in Hu.
  - rewrite trimmed_trim by apply trim_trimmed. by rewrite Hu.
Qed.

Lemma required_text_settles : settles required_text.
Proof. intros v v' H. by apply required_text_ok in H as (_ & _ & ?). Qed.

Lemma stable_text_settles : settles stable_text.
Proof.
  intros v v'. unfold stable_text. intros H. step_ok H as w Hw. step_ok H as u Hu. injection H as <-.
  apply required_text_settles in Hw. rewrite Hw. cbn [mbind res_bind]. by rewrite Hu.
Qed.

Lemma optional_res_settles {A} (f : A → res A) : settles f → settles (optional_res f).
Proof.
  intros Hf [v|] v' H; simpl in H; [|by injection H as <-].
  step_ok H as w Hw. injection H as <-. simpl. apply Hf in Hw. by rewrite Hw.
Qed.

Lemma map_res_settles {A} (f : A → res A) l l' : settles f → map_res f l = Ok l' → map_res f l' = Ok l'.
Proof.
  intros Hf. rewrite !map_res_ok. induction 1 as [|x y l l' Hxy _ IH]; constructor; [by eapply Hf|done].
Qed.

Section distinct.
Context {A B : Type} (f : A → res B) (key : B → jstr).

Lemma distinct_loop_aux l acc r :
  NoDup (key <$> acc) →
  foldl_res (λ (acc : list B * list jstr) x,
    y ← f x; _ ← ensure (negb (bool_decide (key y ∈ acc.2))) invalid;
    Ok (acc.1 ++ [y], js_add (key y) acc.2)) (acc, key <$> acc) l = Ok r ↔
  ∃ ys, map_res f l = Ok ys ∧ NoDup (key <$> acc ++ ys) ∧ r = (acc ++ ys, key <$> acc ++ ys).
Proof.
  revert acc. induction l as [|x l IH]; intros acc Hnd; cbn [foldl_res map_res].
  - split; [intros [= <-]; exists []; by rewrite app_nil_r|]. intros (? & [= <-] & _ & ->). by rewrite app_nil_r.
  - destruct (f x) as [y|e]; cbn [mbind res_bind]; [|split; [done|by intros (? & ? & _)]].
    assert (Hiff : key y ∉ key <$> acc → NoDup (key <$> acc ++ [y])).
    { intros Hy. rewrite fmap_app. apply NoDup_app. split_and!; [done| |apply NoDup_singleton].
      intros z Hz ->%list_elem_of_singleton. done. }
    case_bool_decide as Hy; cbn [negb ensure mbind res_bind fst snd].
    + split; [done|]. intros (ys & H & Hnd' & _). exfalso.
      destruct (map_res f l) as [ys'|]; [|done]. injection H as <-.
      rewrite fmap_app in Hnd'. apply NoDup_app in Hnd' as (_ & Hd & _). apply (Hd _ Hy). left.
    + unfold js_add. rewrite decide_False by done.
      replace ((key <$> acc) ++ [key y]) with (key <$> acc ++ [y]) by (by rewrite fmap_app).
      assert (Happ : ∀ ys, acc ++ y :: ys = (acc ++ [y]) ++ ys) by (intros; by rewrite <-(assoc_L (++))).
      rewrite IH by auto. split.
      * intros (ys & -> & H1 & ->). exists (y :: ys). by rewrite (Happ ys).
      * intros (ys & H & H1 & ->). destruct (map_res f l) as [ys'|]; [|done]. injection H as <-.
        exists ys'. rewrite (Happ ys') in H1 |- *. done.
Qed.

(** The loop succeeds exactly when every element normalizes and no key repeats. *)
Lemma distinct_loop_ok l l' :
  distinct_loop f key l = Ok l' ↔ map_res f l = Ok l' ∧ NoDup (key <$> l').
Proof.
  unfold distinct_loop. split.
  - intros H. step_ok H as x Hx. injection H as <-.
    apply (distinct_loop_aux l [] x) in Hx as (ys & ? & ? & ->); [done|constructor].
  - intros [H1 H2].
    pose proof (proj2 (distinct_loop_aux l [] (l', key <$> l') ltac:(constructor))) as H.
    change (key <$> []) with (@nil jstr) in H. rewrite H; [done|]. by exists l'.
Qed.
End distinct.

Lemma distinct_loop_settles {A} (f : A → res A) key : settles f → settles (distinct_loop f key).
Proof.
  intros Hf l l' [H1 H2]%distinct_loop_ok. apply distinct_loop_ok. split; [by eapply map_res_settles|done].
Qed.

Lemma distinct_loop_length {A B} (f : A → res B) key l l' :
  distinct_loop f key l = Ok l' → length l' = length l.
Proof. intros [H _]%distinct_loop_ok. by apply map_res_length in H. Qed.

(** A loop that only refuses a repeated key. *)
Lemma seen_loop {A} (key : A → jstr) (l : list A) (seen : list jstr) :
  is_ok (foldl_res (λ seen x,
    _ ← ensure (negb (bool_decide (key x ∈ seen))) invalid; Ok (js_add (key x) seen)) seen l) = true ↔
  NoDup (key <$> l) ∧ ∀ x, x ∈ l → key x ∉ seen.
Proof.
  revert seen. induction l as [|x l IH]; intros seen; cbn [foldl_res].
  - split; [intros _; split; [constructor|by intros ? ?%elem_of_nil]|done].
  - rewrite fmap_cons, NoDup_cons. case_bool_decide as Hx; cbn [negb ensure mbind res_bind].
    + split; [done|]. intros [_ H]. by destruct (H x ltac:(left)).
    + rewrite IH. setoid_rewrite js_add_elem. setoid_rewrite elem_of_cons. split.
      * intros [Hnd Hs]. split; [split; [|done]|].
        -- intros (y & Hy & Hyl)%list_elem_of_fmap. apply (Hs y Hyl). by left.
        -- intros y [->|Hy]; [done|]. intros Hseen. apply (Hs y Hy). by right.
      * intros [[Hxl Hnd] Hs]. split; [done|]. intros y Hy [E|Hseen]; [|by apply (Hs y); auto].
        apply Hxl. rewrite <-E. by apply list_elem_of_fmap_2.
Qed.

(** ... or one of two keys. *)
Lemma seen_loop2 {A} (key1 key2 : A → jstr) (l : list A) (seen : list jstr * list jstr) :
  is_ok (foldl_res (λ (seen : list jstr * list jstr) x,
    _ ← ensure (negb (bool_decide (key1 x ∈ seen.1))) invalid;
    _ ← ensure (negb (bool_decide (key2 x ∈ seen.2))) invalid;
    Ok (js_add (key1 x) seen.1, js_add (key2 x) seen.2)) seen l) = true ↔
  (NoDup (key1 <$> l) ∧ ∀ x, x ∈ l → key1 x ∉ seen.1) ∧ (NoDup (key2 <$> l) ∧ ∀ x, x ∈ l → key2 x ∉ seen.2).
Proof.
  destruct seen as [s1 s2]. rewrite <-(seen_loop key1 l s1), <-(seen_loop key2 l s2). cbn [fst snd].
  revert s1 s2. induction l as [|x l IH]; intros s1 s2; cbn [foldl_res fst snd]; [done|].
  case_bool_decide as H1; case_bool_decide as H2; cbn [negb ensure mbind res_bind fst snd is_ok].
  - intuition discriminate.
  - intuition discriminate.
  - intuition discriminate.
  - apply IH.
Qed.
End normalizers.
