(* ===== verification/Calendar.v ===== *)
(** * Calendar: the UTC fields of a [Date]

    The parts of the language's [Date] that the naming of documents uses, by the
    definitions of ECMA-262: a date is a count of milliseconds, a day a count of
    days since 1970-01-01, and the year of a day the one whose days contain it.
    The functions [dayOfYear] and [isoWeek] of [core/naming.ts] are built on them.
    Parsing a text to a date is the host's and not here. *)

From S2P Require Export Prelude.
From Stdlib Require Import ZArith Lia.
Local Open Scope Z_scope.

(** Divisions by constants, as equations for [lia]. *)
Ltac divs := Z.div_mod_to_equations; lia.

(** ** Years *)

Definition MS_PER_DAY : Z := 86400000.

(** [Day(t)] and [DayFromYear(y)] of ECMA-262. *)
Definition day_of (time : Z) : Z := time / MS_PER_DAY.

Definition day_from_year (y : Z) : Z :=
  365 * (y - 1970) + (y - 1969) / 4 - (y - 1901) / 100 + (y - 1601) / 400.

Definition leap_year (y : Z) : bool := (y mod 4 =? 0) && (negb (y mod 100 =? 0) || (y mod 400 =? 0)).

Definition days_in_year (y : Z) : Z := if leap_year y then 366 else 365.

(** [YearFromTime]: an estimate from the mean year, corrected by at most one. *)
Definition year_of (day : Z) : Z :=
  let y := 1970 + day * 400 / 146097 in
  if day <? day_from_year y then y - 1
  else if day_from_year (y + 1) <=? day then y + 1 else y.

Lemma day_from_year_succ y : day_from_year (y + 1) = day_from_year y + days_in_year y.
Proof.
  unfold day_from_year, days_in_year, leap_year.
  destruct (Z.eqb_spec (y mod 4) 0), (Z.eqb_spec (y mod 100) 0), (Z.eqb_spec (y mod 400) 0); cbn [andb orb negb]; divs.
Qed.

Lemma days_in_year_range y : 365 ≤ days_in_year y ≤ 366.
Proof. unfold days_in_year. destruct (leap_year y); lia. Qed.

Lemma day_from_year_lt y y' : y < y' → day_from_year y + days_in_year y ≤ day_from_year y'.
Proof.
  intros H. rewrite <-day_from_year_succ. assert (y + 1 ≤ y') as Hle by lia. clear H.
  unfold day_from_year. divs.
Qed.

Lemma year_of_spec day : day_from_year (year_of day) ≤ day < day_from_year (year_of day + 1).
Proof.
  unfold year_of. cbv zeta. set (y := 1970 + day * 400 / 146097).
  assert (Hlow : day_from_year (y - 1) ≤ day) by (unfold day_from_year, y; divs).
  assert (Hhigh : day < day_from_year (y + 2)) by (unfold day_from_year, y; divs).
  destruct (Z.ltb_spec day (day_from_year y)); [by replace (y - 1 + 1) with y by lia|].
  destruct (Z.leb_spec (day_from_year (y + 1)) day); [|lia].
  replace (y + 1 + 1) with (y + 2) by lia. lia.
Qed.

Lemma year_of_unique day y : day_from_year y ≤ day < day_from_year (y + 1) → year_of day = y.
Proof.
  intros H. pose proof (year_of_spec day) as H'.
  destruct (Z.lt_trichotomy (year_of day) y) as [Hlt|[->|Hlt]]; [|done|].
  - pose proof (day_from_year_lt _ _ Hlt) as Hd. rewrite <-day_from_year_succ in Hd. lia.
  - pose proof (day_from_year_lt _ _ Hlt) as Hd. rewrite <-day_from_year_succ in Hd. lia.
Qed.

(** ** Months *)

(** The days of a year before a month, which is counted from zero. *)
Definition month_start (leap : bool) (month : Z) : Z :=
  let l := if leap then 1 else 0 in
  match month with
  | 0 => 0 | 1 => 31 | 2 => 59 + l | 3 => 90 + l | 4 => 120 + l | 5 => 151 + l | 6 => 181 + l
  | 7 => 212 + l | 8 => 243 + l | 9 => 273 + l | 10 => 304 + l | 11 => 334 + l
  | _ => 365 + l
  end.

(** The month of a day of the year: the first whose successor starts later. *)
Fixpoint month_from (leap : bool) (day_within_year month : Z) (fuel : nat) : Z :=
  match fuel with
  | O => month
  | S fuel =>
      if day_within_year <? month_start leap (month + 1) then month
      else month_from leap day_within_year (month + 1) fuel
  end.

Definition month_of (leap : bool) (day_within_year : Z) : Z := month_from leap day_within_year 0 11.

Definition within_year (day : Z) : Z := day - day_from_year (year_of day).

(** [getUTCFullYear], [getUTCMonth], [getUTCDate] and [getUTCDay]. *)
Definition utc_year (time : Z) : Z := year_of (day_of time).
Definition utc_month (time : Z) : Z := month_of (leap_year (utc_year time)) (within_year (day_of time)).
Definition utc_date (time : Z) : Z :=
  within_year (day_of time) - month_start (leap_year (utc_year time)) (utc_month time) + 1.
Definition utc_weekday (time : Z) : Z := (day_of time + 4) mod 7.

(** [MakeDay(year, month, date)] for a month of the year. *)
Definition make_day (year month date : Z) : Z := day_from_year year + month_start (leap_year year) month + date - 1.

(** [Date.UTC(year, month, date)]; a year below 100 is one of the last century. *)
Definition date_utc (year month date : Z) : Z :=
  make_day (if (0 <=? year) && (year <=? 99) then 1900 + year else year) month date * MS_PER_DAY.

Lemma month_from_spec leap n month fuel :
  month_start leap month ≤ n < month_start leap (month + Z.of_nat fuel + 1) →
  let m := month_from leap n month fuel in
  month ≤ m ≤ month + Z.of_nat fuel ∧ month_start leap m ≤ n < month_start leap (m + 1).
Proof.
  revert month. induction fuel as [|fuel IH]; intros month Hn; cbn [month_from].
  - replace (month + Z.of_nat 0 + 1) with (month + 1) in Hn by lia. lia.
  - destruct (Z.ltb_spec n (month_start leap (month + 1))); [lia|].
    destruct (IH (month + 1)) as [H1 H2]; [|split; [lia|exact H2]].
    replace (month + 1 + Z.of_nat fuel + 1) with (month + Z.of_nat (S fuel) + 1) by lia. lia.
Qed.

Lemma month_of_spec leap n :
  0 ≤ n < month_start leap 12 →
  0 ≤ month_of leap n ≤ 11 ∧ month_start leap (month_of leap n) ≤ n < month_start leap (month_of leap n + 1).
Proof. intros Hn. by apply (month_from_spec leap n 0 11). Qed.

Lemma month_start_le leap m m' : 0 ≤ m → m ≤ m' → m' ≤ 12 → month_start leap m ≤ month_start leap m'.
Proof.
  intros Hm Hle Hm'. assert (Hstep : ∀ i, 0 ≤ i < 12 → month_start leap i ≤ month_start leap (i + 1)).
  { intros i Hi. assert (Hall : Forall (λ i, month_start leap i ≤ month_start leap (i + 1)) (seqZ 0 12)).
    { change (seqZ 0 12) with [0; 1; 2; 3; 4; 5; 6; 7; 8; 9; 10; 11].
      destruct leap; repeat first [apply Forall_nil_2|apply Forall_cons_2; [by vm_compute|]]. }
    rewrite Forall_forall in Hall. apply Hall. apply elem_of_seqZ. lia. }
  revert Hm'. replace m' with (m + Z.of_nat (Z.to_nat (m' - m))) by lia.
  induction (Z.to_nat (m' - m)) as [|k IH]; intros Hk; [by rewrite Z.add_0_r|].
  specialize (Hstep (m + Z.of_nat k)). replace (m + Z.of_nat (S k)) with (m + Z.of_nat k + 1) by lia. lia.
Qed.

(** ** The fields determine the date *)

Lemma month_start_year y : month_start (leap_year y) 12 = days_in_year y.
Proof. unfold days_in_year. by destruct (leap_year y). Qed.

Lemma within_year_range day : 0 ≤ within_year day < month_start (leap_year (year_of day)) 12.
Proof.
  rewrite month_start_year. unfold within_year. pose proof (year_of_spec day) as H.
  rewrite day_from_year_succ in H. lia.
Qed.

Lemma utc_month_spec time :
  0 ≤ utc_month time ≤ 11 ∧
  month_start (leap_year (utc_year time)) (utc_month time) ≤ within_year (day_of time)
    < month_start (leap_year (utc_year time)) (utc_month time + 1).
Proof. apply month_of_spec, within_year_range. Qed.

(** A date of the calendar. *)
Definition valid_date (year month date : Z) : Prop :=
  0 ≤ month ≤ 11 ∧ 1 ≤ date ∧ month_start (leap_year year) month + date ≤ month_start (leap_year year) (month + 1).

Lemma make_day_fields time : make_day (utc_year time) (utc_month time) (utc_date time) = day_of time.
Proof. unfold make_day, utc_date, within_year. fold (utc_year time). lia. Qed.

Lemma fields_valid time : valid_date (utc_year time) (utc_month time) (utc_date time).
Proof. unfold valid_date, utc_date. pose proof (utc_month_spec time). lia. Qed.

Lemma make_day_in_year y m d :
  valid_date y m d → day_from_year y ≤ make_day y m d < day_from_year (y + 1).
Proof.
  intros (Hm & Hd & Hle). unfold make_day. rewrite day_from_year_succ, <-month_start_year.
  pose proof (month_start_le (leap_year y) 0 m ltac:(lia) ltac:(lia) ltac:(lia)) as H0.
  pose proof (month_start_le (leap_year y) (m + 1) 12 ltac:(lia) ltac:(lia) ltac:(lia)) as H12.
  cbn [month_start] in H0. lia.
Qed.

Lemma fields_make_day time y m d :
  valid_date y m d → day_of time = make_day y m d → utc_year time = y ∧ utc_month time = m ∧ utc_date time = d.
Proof.
  intros Hv Ht. assert (Hy : utc_year time = y).
  { unfold utc_year. apply year_of_unique. rewrite Ht. by apply make_day_in_year. }
  assert (Hm : utc_month time = m).
  { pose proof (utc_month_spec time) as [Hr Hb]. unfold within_year in Hb. fold (utc_year time) in Hb.
    rewrite Ht, Hy in Hb. unfold make_day in Hb. destruct Hv as (Hm & Hd & Hle).
    destruct (Z.lt_trichotomy (utc_month time) m) as [Hlt|[->|Hlt]]; [|done|].
    - pose proof (month_start_le (leap_year y) (utc_month time + 1) m ltac:(lia) ltac:(lia) ltac:(lia)). lia.
    - pose proof (month_start_le (leap_year y) (m + 1) (utc_month time) ltac:(lia) ltac:(lia) ltac:(lia)). lia. }
  split_and!; [done|done|]. unfold utc_date, within_year. fold (utc_year time). rewrite Ht, Hy, Hm.
  unfold make_day. lia.
Qed.

(** The calendar fields of a date are a day of the calendar, and the only one
    that makes up its day count: reading the fields and making the day are inverse. *)
Theorem calendar_roundtrip time y m d :
  valid_date (utc_year time) (utc_month time) (utc_date time) ∧
  (valid_date y m d → make_day y m d = day_of time ↔ (utc_year time, utc_month time, utc_date time) = (y, m, d)).
Proof.
  split; [apply fields_valid|]. intros Hv. split.
  - intros H. by destruct (fields_make_day time y m d Hv (eq_sym H)) as (-> & -> & ->).
  - intros [= <- <- <-]. apply make_day_fields.
Qed.

(** ** Days and weeks of a year, in [core/naming.ts] *)

(** [dayOfYear(date)]. *)
Definition dayOfYear (date : Z) : Z :=
  let start := date_utc (utc_year date) 0 1 in
  (date_utc (utc_year date) (utc_month date) (utc_date date) - start) / MS_PER_DAY + 1.

(** [isoWeek(date)]; [setUTCDate] moves the date by whole days. *)
Definition isoWeek (date : Z) : Z :=
  let target := date_utc (utc_year date) (utc_month date) (utc_date date) in
  let day := if utc_weekday target =? 0 then 7 else utc_weekday target in
  let target := target + (4 - day) * MS_PER_DAY in
  let yearStart := date_utc (utc_year target) 0 1 in
  (((target - yearStart) / MS_PER_DAY + 1) + 6) / 7.

(** The Monday of the week of a day. *)
Definition monday (day : Z) : Z := day - (day + 3) mod 7.

Lemma date_utc_day y m d : 100 ≤ y → day_of (date_utc y m d) = make_day y m d.
Proof.
  intros Hy. unfold date_utc, day_of. destruct (Z.leb_spec y 99); [lia|]. rewrite andb_false_r.
  by rewrite Z.div_mul.
Qed.

Lemma date_utc_start y : 100 ≤ y → date_utc y 0 1 = day_from_year y * MS_PER_DAY.
Proof.
  intros Hy. unfold date_utc, make_day. destruct (Z.leb_spec y 99); [lia|]. rewrite andb_false_r.
  cbn [month_start]. f_equal. lia.
Qed.

(** From the year 101 on, where [Date.UTC] reads every year as it is. *)
Lemma dayOfYear_within date : 100 ≤ utc_year date → dayOfYear date = within_year (day_of date) + 1.
Proof.
  intros Hy. unfold dayOfYear. rewrite date_utc_start by done. unfold date_utc.
  destruct (Z.leb_spec (utc_year date) 99); [lia|]. rewrite andb_false_r, make_day_fields.
  rewrite <-Z.mul_sub_distr_r, Z.div_mul by done. unfold within_year. by fold (utc_year date).
Qed.

Definition thursday (day : Z) : Z := monday day + 3.

Lemma isoWeek_thursday date :
  101 ≤ utc_year date →
  let th := thursday (day_of date) in isoWeek date = (th - day_from_year (year_of th)) / 7 + 1.
Proof.
  intros Hy th. unfold isoWeek. cbv zeta. set (target := date_utc _ _ _).
  assert (Htarget : target = day_of date * MS_PER_DAY).
  { unfold target, date_utc. destruct (Z.leb_spec (utc_year date) 99); [lia|].
    by rewrite andb_false_r, make_day_fields. }
  assert (Hday : (if utc_weekday target =? 0 then 7 else utc_weekday target) = (day_of date + 3) mod 7 + 1).
  { assert (Hk : day_of target = day_of date) by (rewrite Htarget; unfold day_of at 1; by rewrite Z.div_mul).
    unfold utc_weekday. rewrite Hk. generalize (day_of date). intros k.
    destruct (Z.eqb_spec ((k + 4) mod 7) 0); divs. }
  rewrite Hday, Htarget, <-Z.mul_add_distr_r.
  replace (day_of date + (4 - ((day_of date + 3) mod 7 + 1))) with th by (unfold th, thursday, monday; lia).
  unfold utc_year. unfold day_of at 1. rewrite Z.div_mul by done. rewrite date_utc_start.
  - rewrite <-Z.mul_sub_distr_r, Z.div_mul by done. divs.
  - assert (Hlow : day_from_year 101 ≤ day_of date).
    { pose proof (year_of_spec (day_of date)) as Hs. fold (utc_year date) in Hs.
      destruct (Z.eq_dec (utc_year date) 101) as [E|]; [rewrite E in Hs; lia|].
      pose proof (day_from_year_lt 101 (utc_year date) ltac:(lia)). pose proof (days_in_year_range 101). lia. }
    destruct (Z.le_gt_cases 100 (year_of th)) as [|Hlt]; [done|].
    pose proof (year_of_spec th) as [_ Hth].
    assert (day_from_year (year_of th + 1) ≤ day_from_year 100).
    { destruct (Z.eq_dec (year_of th + 1) 100) as [E|]; [rewrite E; lia|].
      pose proof (day_from_year_lt (year_of th + 1) 100 ltac:(lia)). pose proof (days_in_year_range (year_of th + 1)). lia. }
    assert (day_of date - 7 < th) by (unfold th, thursday, monday; divs).
    change (day_from_year 101) with (day_from_year 100 + 365) in Hlow. lia.
Qed.

(** The week contains January 4th of a year. *)
Definition first_week (day : Z) : Prop := ∃ y, monday day = monday (make_day y 0 4).

Lemma first_week_thursday day :
  first_week day ↔ thursday day - day_from_year (year_of (thursday day)) < 7.
Proof.
  unfold thursday. split.
  - intros [y Hy]. rewrite Hy. assert (Hmd : make_day y 0 4 = day_from_year y + 3) by (unfold make_day; cbn; lia).
    rewrite Hmd. assert (Hr : day_from_year y ≤ monday (day_from_year y + 3) + 3 ≤ day_from_year y + 6).
    { unfold monday. generalize (day_from_year y). intros j. divs. }
    assert (year_of (monday (day_from_year y + 3) + 3) = y) as ->; [|lia].
    apply year_of_unique. rewrite day_from_year_succ. pose proof (days_in_year_range y). lia.
  - intros Hlt. exists (year_of (monday day + 3)). pose proof (year_of_spec (monday day + 3)) as [Hs _].
    assert (Hmd : make_day (year_of (monday day + 3)) 0 4 = day_from_year (year_of (monday day + 3)) + 3)
      by (unfold make_day; cbn; lia).
    rewrite Hmd. revert Hs Hlt. generalize (day_from_year (year_of (monday day + 3))). intros j Hs Hlt.
    unfold monday in *. divs.
Qed.

(** The week numbers are those of ISO 8601: a week has one number from Monday to
    Sunday, the week of January 4th has number 1, and any other week has the
    number after that of the week before. *)
Theorem isoWeek_iso8601 date date' :
  101 ≤ utc_year date → 101 ≤ utc_year date' →
  (1 ≤ isoWeek date ≤ 53) ∧
  (monday (day_of date) = monday (day_of date') → isoWeek date = isoWeek date') ∧
  (first_week (day_of date) → isoWeek date = 1) ∧
  (monday (day_of date') = monday (day_of date) + 7 → ¬ first_week (day_of date') → isoWeek date' = isoWeek date + 1).
Proof.
  intros Hy Hy'. rewrite !isoWeek_thursday by done. cbv zeta.
  pose proof (year_of_spec (thursday (day_of date))) as Hs.
  pose proof (days_in_year_range (year_of (thursday (day_of date)))) as Hr. rewrite day_from_year_succ in Hs.
  split_and!.
  - divs.
  - divs.
  - intros Hm. unfold thursday. by rewrite Hm.
  - intros Hf%first_week_thursday. divs.
  - intros Hnext Hf. rewrite first_week_thursday in Hf.
    assert (Hth : thursday (day_of date') = thursday (day_of date) + 7) by (unfold thursday; lia).
    pose proof (year_of_spec (thursday (day_of date'))) as Hs'. rewrite Hth in *.
    assert (Hsame : year_of (thursday (day_of date) + 7) = year_of (thursday (day_of date))).
    { symmetry. apply year_of_unique. lia. }
    rewrite Hsame. divs.
Qed.

(** ** Witnesses *)

(** 2026-10-15T00:00:00Z, a Thursday of week 42, and the Wednesday after. *)
Definition sample_date_time : Z := 1792022400000.

Lemma calendar_sample :
  (utc_year sample_date_time, utc_month sample_date_time, utc_date sample_date_time, utc_weekday sample_date_time,
   dayOfYear sample_date_time, isoWeek sample_date_time) = (2026, 9, 15, 4, 288, 42).
Proof. by vm_compute. Qed.

Lemma calendar_roundtrip_witness :
  (utc_year sample_date_time, utc_month sample_date_time, utc_date sample_date_time) = (2026, 9, 15).
Proof.
  apply (proj2 (calendar_roundtrip sample_date_time 2026 9 15)); [|by vm_compute].
  split; [lia|]. split; [lia|]. by vm_compute.
Defined.

Lemma isoWeek_iso8601_witness : isoWeek (sample_date_time + 6 * MS_PER_DAY) = isoWeek sample_date_time + 1.
Proof.
  apply (isoWeek_iso8601 sample_date_time (sample_date_time + 6 * MS_PER_DAY)); [by vm_compute|by vm_compute|by vm_compute|].
  intros H%first_week_thursday. revert H. by vm_compute.
Defined.
