(* ===== verification/Interference.v ===== *)
(** * Interference: clients of a shared store

    A method of a service reads a store several times and then writes to it once;
    other clients may act at each of its [await]s.  What they do is an argument
    [env] of the method, indexed by the number of awaits so far, which the state of
    the call counts together with the identifiers it has taken.

    The second half is the reasoning that the services share: what the environment
    guarantees ([G], the states that may be found at each await, an invariant they
    keep and an order in which they only grow), computations that only read
    ([quiet]), calls that end with a write ([outcome]), and the histories of a store
    whose successive states calls read in order. *)

From S2P Require Export JsString.

(** ** The state of a call *)

Record Client (S : Type) := { cl_tick : nat; cl_ids : nat; cl_store : S }.
Arguments cl_tick {S} _.
Arguments cl_ids {S} _.
Arguments cl_store {S} _.

(** A call that starts on a store. *)
Definition new_client {S} (store : S) : Client S := {| cl_tick := 0; cl_ids := 0; cl_store := store |}.

(** What a call may rely on: at its [k]-th await it finds a state of [G k], which
    extends the one before and keeps the invariant. *)
Class Environment {S} (env : nat → S → S) (grows : S → S → Prop) (G : nat → S → Prop) (inv : S → Prop) : Prop := {
  env_order : PreOrder grows;
  env_step : ∀ k s, G k s → G (Datatypes.S k) (env k s) ∧ grows s (env k s);
  env_inv : ∀ k s, G k s → inv s
}.

Section client.
Context {S : Type} (env : nat → S → S).

(** One [await]: the others act. *)
Definition awaited : M (Client S) unit := λ c,
  (Ok tt, {| cl_tick := Datatypes.S (cl_tick c); cl_ids := cl_ids c; cl_store := env (cl_tick c) (cl_store c) |}).

(** [await] of a method that reads the store. *)
Definition observe {A} (f : S → res A) : M (Client S) A :=
  _ ← awaited; c ← m_get; m_lift (f (cl_store c)).

(** [await] of a method that changes it. *)
Definition on_store {A} (m : M S A) : M (Client S) A := λ c,
  let (r, store) := m (cl_store c) in (r, {| cl_tick := cl_tick c; cl_ids := cl_ids c; cl_store := store |}).
Definition update {A} (m : M S A) : M (Client S) A := _ ← awaited; on_store m.

(** [ids.next(prefix)] and [clock.now()]. *)
Definition next_id (ids : nat → jstr) : M (Client S) jstr := λ c,
  (Ok (ids (cl_ids c)), {| cl_tick := cl_tick c; cl_ids := Datatypes.S (cl_ids c); cl_store := cl_store c |}).
Definition now (clock : nat → jstr) : M (Client S) jstr := λ c, (Ok (clock (cl_tick c)), c).

(** A computation that only takes identifiers. *)
Definition on_ids {A} (m : M nat A) : M (Client S) A := λ c,
  let (r, n) := m (cl_ids c) in (r, {| cl_tick := cl_tick c; cl_ids := n; cl_store := cl_store c |}).

(** [try { ... } catch (error) { ... }]. *)
Definition catching {A} (m : M (Client S) A) (handler : error → M (Client S) A) : M (Client S) A := λ c,
  match m c with
  | (Throw e, c') => handler e c'
  | r => r
  end.

(** ** Reasoning *)

Context (grows : S → S → Prop) (G : nat → S → Prop) (inv : S → Prop).
Context `{He : !Environment env grows G inv}.
#[local] Existing Instance env_order.

Definition sees (c : Client S) : Prop := G (cl_tick c) (cl_store c).

(** A computation that only reads: it leaves the store as others made it, and
    its result is related to the store before and after. *)
Definition quiet {A} (m : M (Client S) A) (Q : A → S → S → Prop) : Prop :=
  ∀ c, sees c → let (r, c') := m c in
  sees c' ∧ grows (cl_store c) (cl_store c') ∧ ∀ a, r = Ok a → Q a (cl_store c) (cl_store c').

Definition anything {A} : A → S → S → Prop := λ _ _ _, True.

Lemma quiet_mono {A} (m : M (Client S) A) (Q R : A → S → S → Prop) :
  quiet m Q → (∀ a s s', Q a s s' → R a s s') → quiet m R.
Proof using Type.
  intros Hm HQ c Hc. specialize (Hm c Hc). destruct (m c) as [r c']. destruct Hm as (? & ? & Ha). eauto.
Qed.

Lemma quiet_lift {A} (r : res A) : quiet (m_lift r) (λ a s s', r = Ok a ∧ s' = s).
Proof using He. intros c Hc. cbn. split_and!; [done|reflexivity|done]. Qed.

Lemma quiet_ret {A} (a : A) : quiet (mret a) (λ b s s', b = a ∧ s' = s).
Proof using He. intros c Hc. cbn. split_and!; [done|reflexivity|]. by intros b [= <-]. Qed.

Lemma quiet_id ids : quiet (next_id ids) (λ _ s s', s' = s).
Proof using He. intros c Hc. cbn. split_and!; [done|reflexivity|done]. Qed.

Lemma quiet_now clock : quiet (now clock) (λ _ s s', s' = s).
Proof using He. intros c Hc. cbn. split_and!; [done|reflexivity|done]. Qed.

Lemma quiet_ids {A} (m : M nat A) : quiet (on_ids m) (λ a s s', s' = s ∧ ∃ n n', m n = (Ok a, n')).
Proof using He.
  intros c Hc. unfold on_ids. destruct (m (cl_ids c)) as [r n] eqn:E. split_and!; [done|reflexivity|].
  intros a ->. split; [done|]. by exists (cl_ids c), n.
Qed.

Lemma quiet_bind {A B} (m : M (Client S) A) (f : A → M (Client S) B) Q R :
  quiet m Q → (∀ a, quiet (f a) (R a)) →
  quiet (m ≫= f) (λ b s s2, ∃ a s1, inv s1 ∧ grows s s1 ∧ grows s1 s2 ∧ Q a s s1 ∧ R a b s1 s2).
Proof using He.
  intros Hm Hf c Hc. rewrite m_bind_run. specialize (Hm c Hc). destruct (m c) as [[a|e] c1].
  - destruct Hm as (Hc1 & Hg1 & Ha). specialize (Hf a c1 Hc1). destruct (f a c1) as [r c2].
    destruct Hf as (Hc2 & Hg2 & Hb). split_and!; [done|by etrans|]. intros b ->.
    exists a, (cl_store c1). split_and!; [by eapply env_inv|done|done|by apply Ha|by apply Hb].
  - destruct Hm as (Hc1 & Hg1 & _). by split_and!.
Qed.

(** Reading gives what the store holds after the await. *)
Lemma quiet_observe {A} (f : S → res A) : quiet (observe f) (λ a _ s', inv s' ∧ f s' = Ok a).
Proof using He.
  intros c Hc. cbn. destruct (env_step _ _ Hc) as [Hc' Hg]. split_and!; [done|done|]. intros a Ha. split; [by eapply env_inv|done].
Qed.

(** What a call leaves: an extension of what it last saw, that keeps the invariant. *)
Definition outcome {A} (s : S) (r : res A * Client S) : Prop :=
  ∃ seen, G (cl_tick r.2) seen ∧ grows s seen ∧ grows seen (cl_store r.2) ∧ inv (cl_store r.2).

Lemma outcome_here {A} (r : res A) c : sees c → outcome (cl_store c) (r, c).
Proof using He. intros Hc. exists (cl_store c). split_and!; [done|reflexivity|reflexivity|by eapply env_inv]. Qed.

Lemma outcome_lift {A B} (r : res A) (f : A → M (Client S) B) c :
  sees c → (∀ a, r = Ok a → outcome (cl_store c) (f a c)) → outcome (cl_store c) ((m_lift r ≫= f) c).
Proof using He.
  intros Hc Hf. rewrite m_bind_run. unfold m_lift. destruct r as [a|e]; [by apply Hf|by apply outcome_here].
Qed.

Lemma outcome_quiet {A B} (m : M (Client S) A) (f : A → M (Client S) B) Q c :
  quiet m Q → sees c →
  (∀ a c1, sees c1 → grows (cl_store c) (cl_store c1) → Q a (cl_store c) (cl_store c1) →
     outcome (cl_store c1) (f a c1)) →
  outcome (cl_store c) ((m ≫= f) c).
Proof using He.
  intros Hm Hc Hf. rewrite m_bind_run. specialize (Hm c Hc). destruct (m c) as [[a|e] c1];
    destruct Hm as (Hc1 & Hg & Ha).
  - destruct (Hf a c1 Hc1 Hg (Ha a eq_refl)) as (seen & H1 & H2 & H3 & H4). exists seen. split_and!; try done. by etrans.
  - exists (cl_store c1). cbn. split_and!; [done|done|reflexivity|by eapply env_inv].
Qed.

(** The write of a call: it meets the store as the others left it. *)
Lemma outcome_update {A B} (m : M S A) (f : A → res B) c :
  sees c →
  (∀ s, G (Datatypes.S (cl_tick c)) s → grows (cl_store c) s → let (_, s') := m s in grows s s' ∧ inv s') →
  outcome (cl_store c) ((update m ≫= λ a, m_lift (f a)) c).
Proof using He.
  intros Hc Hm. destruct (env_step _ _ Hc) as [Hc' Hg]. specialize (Hm _ Hc' Hg). rewrite m_bind_run. unfold update, on_store, awaited.
  rewrite m_bind_run. cbn. destruct (m (env (cl_tick c) (cl_store c))) as [[a|e] s'];
    destruct Hm as [? ?]; exists (env (cl_tick c) (cl_store c)); by split_and!.
Qed.
End client.

(** The environment is given explicitly: it determines the other arguments. *)
Arguments quiet_lift {S env grows G inv} He {A} r.
Arguments quiet_ret {S env grows G inv} He {A} a.
Arguments quiet_id {S env grows G inv} He ids.
Arguments quiet_now {S env grows G inv} He clock.
Arguments quiet_ids {S env grows G inv} He {A} m.
Arguments quiet_bind {S env grows G inv} He {A B} m f Q R.
Arguments quiet_observe {S env grows G inv} He {A} f.
Arguments outcome_here {S env grows G inv} He {A} r c.
Arguments outcome_lift {S env grows G inv} He {A B} r f c.
Arguments outcome_quiet {S env grows G inv} He {A B} m f Q c.
Arguments outcome_update {S env grows G inv} He {A B} m f c.

(** ** Histories *)

Section history.
Context {S : Type} (grows : S → S → Prop) `{!PreOrder grows} (inv : S → Prop).

(** The states of the store seen by one call: at its [k]-th await the state of
    index [at_ k] of the history, never an earlier one than before. *)
Definition call_sees (h : list S) (at_ : nat → nat) (env : nat → S → S) (start : S) : Prop :=
  (∀ i j, i ≤ j → at_ i ≤ at_ j) ∧ h !! at_ 0 = Some start ∧ ∀ k s, h !! at_ (Datatypes.S k) = Some (env k s).

(** A history of growing states that keep the invariant. *)
Definition history_ok (h : list S) : Prop :=
  (∀ i s, h !! i = Some s → inv s) ∧
  (∀ i j s s', i ≤ j → h !! i = Some s → h !! j = Some s' → grows s s').

Lemma history_ok_snoc h last_ s :
  history_ok h → h !! pred (length h) = Some last_ → grows last_ s → inv s → history_ok (h ++ [s]).
Proof using PreOrder0.
  intros [Hi Hg] Hl Hls Hs. split.
  - intros i x [Hx|[_ Hx]]%lookup_app_Some; [by eapply Hi|]. by apply list_lookup_singleton_Some in Hx as [_ <-].
  - intros i j x y Hij [Hx|[Hxl Hx]]%lookup_app_Some [Hy|[Hyl Hy]]%lookup_app_Some.
    + by eapply Hg.
    + apply list_lookup_singleton_Some in Hy as [_ <-]. etrans; [|exact Hls].
      eapply Hg; [|exact Hx|exact Hl]. apply lookup_lt_Some in Hx. lia.
    + apply lookup_lt_Some in Hy. lia.
    + apply list_lookup_singleton_Some in Hx as [_ <-], Hy as [_ <-]. reflexivity.
Qed.

Lemma history_ok_one s : inv s → history_ok [s].
Proof using PreOrder0.
  intros Hs. split.
  - intros i x Hx. by apply list_lookup_singleton_Some in Hx as [_ <-].
  - intros i j x y _ Hx Hy. apply list_lookup_singleton_Some in Hx as [_ <-], Hy as [_ <-]. reflexivity.
Qed.

(** What a call needs of the history it reads. *)
Lemma call_environment h at_ env start :
  history_ok h → call_sees h at_ env start →
  Environment env grows (λ k s, h !! at_ k = Some s) inv ∧ h !! at_ 0 = Some start.
Proof using PreOrder0.
  intros [Hi Hg] (Hmono & Hstart & Henv). split; [|done]. split; [done| |intros k s; apply Hi].
  intros k s Hs. split; [apply Henv|]. eapply Hg; [|exact Hs|apply Henv]. apply Hmono. lia.
Qed.

(** A call whose last read was of the newest state extends the history. *)
Lemma history_call {A} h at_ start (r : res A) (c : Client S) :
  history_ok h → outcome grows (λ k s, h !! at_ k = Some s) inv start (r, c) →
  Datatypes.S (at_ (cl_tick c)) = length h → history_ok (h ++ [cl_store c]).
Proof using PreOrder0.
  intros Hok (seen & Hseen & _ & Hg & Hi) Hlen. cbn [snd] in *.
  eapply history_ok_snoc; [done| |exact Hg|exact Hi]. by rewrite <-Hlen.
Qed.
End history.

(** ** What the calls of a service leave, whatever others do

    A logic of pre- and postconditions for the calls of [Interference], in which the
    store only grows and keeps an invariant: what a call has learnt stays true when it
    is stable, so a postcondition adds to what is known before it, and a call that
    writes several times needs no history of its own. *)

Section logic.
Context {S : Type} (env : nat → S → S) (grows : S → S → Prop) `{Hpre : !PreOrder grows} (inv : S → Prop).

(** The others keep the invariant and only grow the store. *)
Class Lawful : Prop := lawful : ∀ k s, inv s → inv (env k s) ∧ grows s (env k s).

(** What stays true while the store grows. *)
Class Stable (K : S → Prop) : Prop := stable : ∀ s s', inv s' → grows s s' → K s → K s'.

#[export] Instance stable_pure (φ : Prop) : Stable (λ _, φ).
Proof using Type. by intros s s' _ _. Qed.

#[export] Instance stable_and K L : Stable K → Stable L → Stable (λ s, K s ∧ L s).
Proof using Type. intros HK HL s s' Hi Hg [??]. split; [by eapply HK|by eapply HL]. Qed.

#[export] Instance stable_forall {A} (K : A → S → Prop) : (∀ a, Stable (K a)) → Stable (λ s, ∀ a, K a s).
Proof using Type. intros HK s s' Hi Hg Ha a. by eapply HK. Qed.

#[export] Instance stable_impl (φ : Prop) K : Stable K → Stable (λ s, φ → K s).
Proof using Type. intros HK s s' Hi Hg Ha Hφ. eapply HK; [done|done|by apply Ha]. Qed.

#[export] Instance stable_exists {A} (K : A → S → Prop) : (∀ a, Stable (K a)) → Stable (λ s, ∃ a, K a s).
Proof using Type. intros HK s s' Hi Hg [a Ha]. exists a. by eapply HK. Qed.

(** Something that held at some time before. *)
Definition once (K : S → Prop) (s : S) : Prop := ∃ s0, inv s0 ∧ grows s0 s ∧ K s0.

#[export] Instance stable_once K : Stable (once K).
Proof using Hpre. intros s s' Hi Hg (s0 & ? & ? & ?). exists s0. split_and!; [done|by etrans|done]. Qed.

Lemma once_now (K : S → Prop) s : inv s → K s → once K s.
Proof using Hpre. intros Hi HK. exists s. split_and!; [done|reflexivity|done]. Qed.

(** From what is known, [m] keeps the invariant, grows the store, and if it returns
    establishes [Q]. *)
Definition runs {A} (K : S → Prop) (m : M (Client S) A) (Q : A → S → Prop) : Prop :=
  ∀ c, inv (cl_store c) → K (cl_store c) → let (r, c') := m c in
  inv (cl_store c') ∧ grows (cl_store c) (cl_store c') ∧ ∀ a, r = Ok a → Q a (cl_store c').

Lemma runs_mono {A} (K K' : S → Prop) (m : M (Client S) A) (Q Q' : A → S → Prop) :
  runs K' m Q' → (∀ s, inv s → K s → K' s) → (∀ a s, inv s → Q' a s → Q a s) → runs K m Q.
Proof using Type.
  intros Hm HK HQ c Hi Hc. specialize (Hm c Hi (HK _ Hi Hc)). destruct (m c) as [r c'].
  destruct Hm as (? & ? & Ha). split_and!; [done|done|]. intros a Hr. apply HQ; [done|by apply Ha].
Qed.

Lemma runs_both {A} (K : S → Prop) (m : M (Client S) A) (Q R : A → S → Prop) :
  runs K m Q → runs K m R → runs K m (λ a s, Q a s ∧ R a s).
Proof using Type.
  intros HQ HR c Hi Hc. specialize (HQ c Hi Hc). specialize (HR c Hi Hc). destruct (m c) as [r c'].
  destruct HQ as (? & ? & ?), HR as (_ & _ & ?). split_and!; [done|done|]. intros a Hr. split; by eauto.
Qed.

(** What is known stays known. *)
Lemma runs_frame {A} (K : S → Prop) (m : M (Client S) A) (Q : A → S → Prop) :
  Stable K → runs K m Q → runs K m (λ a s, K s ∧ Q a s).
Proof using Type.
  intros HK Hm c Hi Hc. specialize (Hm c Hi Hc). destruct (m c) as [r c']. destruct Hm as (Hi' & Hg & Ha).
  split_and!; [done|done|]. intros a Hr. split; [by eapply HK|by apply Ha].
Qed.

(** The end of a call, with what was known. *)
Lemma runs_last {A} (K : S → Prop) (m : M (Client S) A) (Q R : A → S → Prop) :
  Stable K → runs K m Q → (∀ a s, inv s → K s → Q a s → R a s) → runs K m R.
Proof using Type.
  intros HK Hm HR. eapply runs_mono; [by apply runs_frame|done|]. intros a s Hi [? ?]. by apply HR.
Qed.

Lemma runs_bind {A B} (K : S → Prop) (m : M (Client S) A) (f : A → M (Client S) B) Q R :
  Stable K → runs K m Q → (∀ a, runs (λ s, K s ∧ Q a s) (f a) R) → runs K (m ≫= f) R.
Proof using Hpre.
  intros HK Hm%(runs_frame _ _ _ HK) Hf c Hi Hc. rewrite m_bind_run. specialize (Hm c Hi Hc).
  destruct (m c) as [[a|e] c1]; destruct Hm as (Hi1 & Hg1 & Ha).
  - specialize (Hf a c1 Hi1 (Ha a eq_refl)). destruct (f a c1) as [r c2]. destruct Hf as (? & ? & ?).
    split_and!; [done|by etrans|done].
  - by split_and!.
Qed.

Lemma runs_pure {A} (K : S → Prop) (φ : Prop) (m : M (Client S) A) Q : (φ → runs K m Q) → runs (λ s, K s ∧ φ) m Q.
Proof using Type. intros Hm c Hi [Hc Hφ]. by apply Hm. Qed.

Lemma runs_ret {A} (K : S → Prop) (a : A) Q : (∀ s, inv s → K s → Q a s) → runs K (mret a) Q.
Proof using Hpre. intros HQ c Hi Hc. split_and!; [done|reflexivity|]. intros b [= <-]. by apply HQ. Qed.

Lemma runs_throw {A} (K : S → Prop) e Q : runs (A := A) K (m_throw e) Q.
Proof using Hpre. intros c Hi Hc. by split_and!. Qed.

Lemma runs_lift {A} (K : S → Prop) (r : res A) : runs K (m_lift r) (λ a _, r = Ok a).
Proof using Hpre. intros c Hi Hc. by split_and!. Qed.

Lemma runs_lift_ret {A} (K : S → Prop) (r : res A) Q : (∀ a s, r = Ok a → inv s → K s → Q a s) → runs K (m_lift r) Q.
Proof using Hpre. intros HQ c Hi Hc. split_and!; [done|reflexivity|]. intros a Ha. by apply HQ. Qed.

(** A step whose result is a fact about values. *)
Lemma runs_lift_bind {A B} (K : S → Prop) (r : res A) (f : A → M (Client S) B) R :
  Stable K → (∀ a, r = Ok a → runs K (f a) R) → runs K (m_lift r ≫= f) R.
Proof using Hpre. intros HK Hf. eapply runs_bind; [done|apply runs_lift|]. intros a. apply (runs_pure K (r = Ok a)), Hf. Qed.

(** A step whose result does not matter. *)
Lemma runs_skip {A B} (K : S → Prop) (m : M (Client S) A) (f : A → M (Client S) B) R :
  Stable K → runs K m (λ _ _, True) → (∀ a, runs K (f a) R) → runs K (m ≫= f) R.
Proof using Hpre. intros HK Hm Hf. eapply runs_bind; [done|exact Hm|]. intros a. apply (runs_pure K True). intros _. apply Hf. Qed.

Lemma runs_catching {A} (K : S → Prop) (m : M (Client S) A) (h : error → M (Client S) A) Q :
  Stable K → runs K m Q → (∀ e, runs K (h e) Q) → runs K (catching m h) Q.
Proof using Hpre.
  intros HK Hm Hh c Hi Hc. unfold catching. specialize (Hm c Hi Hc). destruct (m c) as [[a|e] c1]; [done|].
  destruct Hm as (Hi1 & Hg1 & _). specialize (Hh e c1 Hi1 (HK _ _ Hi1 Hg1 Hc)). destruct (h e c1) as [r c2].
  destruct Hh as (? & ? & ?). split_and!; [done|by etrans|done].
Qed.

Lemma runs_id (K : S → Prop) ids : runs K (next_id ids) (λ _ _, True).
Proof using Hpre. intros c Hi Hc. by split_and!. Qed.

Lemma runs_now (K : S → Prop) clock : runs K (now clock) (λ _ _, True).
Proof using Hpre. intros c Hi Hc. by split_and!. Qed.

Lemma runs_ids {A} (K : S → Prop) (m : M nat A) : runs K (on_ids m) (λ a _, ∃ n n', m n = (Ok a, n')).
Proof using Hpre.
  intros c Hi Hc. unfold on_ids. destruct (m (cl_ids c)) as [r n] eqn:E. split_and!; [done|reflexivity|].
  intros a ->. by exists (cl_ids c), n.
Qed.

(** Each element of a list, with what is found out about each. *)
Lemma runs_map {A B} (K : S → Prop) (f : A → M (Client S) B) (P : A → B → S → Prop) l :
  Stable K → (∀ x y, Stable (P x y)) → (∀ x, x ∈ l → runs K (f x) (P x)) →
  runs K (m_map f l) (λ ys s, Forall2 (λ x y, P x y s) l ys).
Proof using Hpre.
  intros HK HP. induction l as [|x l IH]; intros Hf; cbn [m_map]; [apply runs_ret; intros; by apply Forall2_nil_2|].
  eapply runs_bind; [done|apply Hf; by left|]. intros y. eapply runs_bind; [apply _| |].
  - eapply runs_mono; [apply IH; intros z Hz; apply Hf; by right|by intros s _ [? _]|by intros ys s _ Hys].
  - intros ys. apply runs_ret. intros s _ [[_ Hy] Hys]. by apply Forall2_cons.
Qed.

(** A step that learns something about values besides. *)
Lemma runs_learn {A B} (K : S → Prop) (m : M (Client S) A) (f : A → M (Client S) B) Q (φ : A → Prop) R :
  Stable K → runs K m (λ a s, Q a s ∧ φ a) → (∀ a, φ a → runs (λ s, K s ∧ Q a s) (f a) R) → runs K (m ≫= f) R.
Proof using Hpre.
  intros HK Hm Hf. eapply runs_bind; [done|exact Hm|]. intros a c Hi (Hc & HQ & Hφ). by apply Hf.
Qed.

Context `{Henv : !Lawful}.

Lemma runs_observe {A} (K : S → Prop) (f : S → res A) : runs K (observe env f) (λ a s, f s = Ok a).
Proof using Henv. intros c Hi Hc. cbn. destruct (lawful (cl_tick c) _ Hi) as [Hi' Hg]. by split_and!. Qed.

(** A write meets the store as the others left it. *)
Lemma runs_update {A} (K : S → Prop) (m : M S A) Q :
  Stable K →
  (∀ s, inv s → K s → let (r, s') := m s in inv s' ∧ grows s s' ∧ ∀ a, r = Ok a → Q a s') →
  runs K (update env m) Q.
Proof using Henv Hpre.
  intros HK Hm c Hi Hc. destruct (lawful (cl_tick c) _ Hi) as [Hi' Hg]. unfold update, on_store, awaited.
  rewrite m_bind_run. cbn. specialize (Hm _ Hi' (HK _ _ Hi' Hg Hc)).
  destruct (m (env (cl_tick c) (cl_store c))) as [r s']. destruct Hm as (? & ? & ?). split_and!; [done|by etrans|done].
Qed.

Lemma once_mono (K L : S → Prop) s : once K s → (∀ s0, K s0 → L s0) → once L s.
Proof using Type. intros (s0 & ? & ? & ?) HKL. exists s0. split_and!; [done..|by apply HKL]. Qed.

(** A read, with what was known when it was made. *)
Lemma runs_observed {A} (K : S → Prop) (f : S → res A) :
  Stable K → runs K (observe env f) (λ a, once (λ s, K s ∧ f s = Ok a)).
Proof using Henv Hpre.
  intros HK. eapply runs_mono; [apply runs_frame, runs_observe; exact HK|done|].
  intros a s Hi Ha. by apply once_now.
Qed.

(** A computation that keeps the invariant and only grows the store, whatever is known:
    it goes unnoticed in a proof about the call. *)
Class Keeps {A} (m : M (Client S) A) : Prop := keeps : ∀ K, Stable K → runs K m (λ _ _, True).

Lemma runs_keeps {A B} (K : S → Prop) (m : M (Client S) A) (f : A → M (Client S) B) R :
  Keeps m → Stable K → (∀ a, runs K (f a) R) → runs K (m ≫= f) R.
Proof using Hpre. intros Hm HK. apply runs_skip; [done|by apply Hm]. Qed.

(** What comes after may use what was learnt. *)
Lemma runs_anything {A} (K : S → Prop) (m : M (Client S) A) : Stable K → Keeps m → runs K m (λ _ _, True).
Proof using Type. intros HK Hm. by apply Hm. Qed.

(** A write, and a rest that keeps. *)
Lemma runs_then {A B} (K : S → Prop) (m : M (Client S) A) (f : A → M (Client S) B) :
  Stable K → runs K m (λ _ _, True) → (∀ a, Keeps (f a)) → runs K (m ≫= f) (λ _ _, True).
Proof using Hpre. intros HK Hm Hf. apply runs_skip; [done|done|]. intros a. by apply Hf. Qed.

#[export] Instance keeps_ret {A} (a : A) : Keeps (mret a).
Proof using Hpre. intros K HK. by apply runs_ret. Qed.

#[export] Instance keeps_throw {A} e : Keeps (m_throw (A := A) e).
Proof using Hpre. intros K HK. apply runs_throw. Qed.

#[export] Instance keeps_lift {A} (r : res A) : Keeps (m_lift r).
Proof using Hpre. intros K HK. by eapply runs_mono; [apply runs_lift|..]. Qed.

#[export] Instance keeps_bind {A B} (m : M (Client S) A) (f : A → M (Client S) B) :
  Keeps m → (∀ a, Keeps (f a)) → Keeps (m ≫= f).
Proof using Hpre. intros Hm Hf K HK. apply runs_keeps; [done|done|]. intros a. by apply Hf. Qed.

#[export] Instance keeps_observe {A} (f : S → res A) : Keeps (observe env f).
Proof using Henv. intros K HK. by eapply runs_mono; [apply runs_observe|..]. Qed.

#[export] Instance keeps_id ids : Keeps (next_id ids).
Proof using Hpre. intros K HK. apply runs_id. Qed.

#[export] Instance keeps_now clock : Keeps (now clock).
Proof using Hpre. intros K HK. apply runs_now. Qed.

#[export] Instance keeps_ids {A} (m : M nat A) : Keeps (on_ids m).
Proof using Hpre. intros K HK. by eapply runs_mono; [apply runs_ids|..]. Qed.

#[export] Instance keeps_catching {A} (m : M (Client S) A) h : Keeps m → (∀ e, Keeps (h e)) → Keeps (catching m h).
Proof using Hpre. intros Hm Hh K HK. apply runs_catching; [done|by apply Hm|]. intros e. by apply Hh. Qed.

#[export] Instance keeps_map {A B} (f : A → M (Client S) B) l : (∀ x, Keeps (f x)) → Keeps (m_map f l).
Proof using Hpre.
  intros Hf K HK. eapply runs_mono; [apply (runs_map K f (λ _ _ _, True)); [done|intros; apply _|]|done..].
  intros x _. by apply Hf.
Qed.

#[export] Instance keeps_if {A} (b : bool) (m m' : M (Client S) A) : Keeps m → Keeps m' → Keeps (if b then m else m').
Proof using Type. by destruct b. Qed.

#[export] Instance keeps_option {A B} (o : option B) (f : B → M (Client S) A) m :
  (∀ b, Keeps (f b)) → Keeps m → Keeps (match o with Some b => f b | None => m end).
Proof using Type. by destruct o. Qed.
End logic.

(** ** Writes that change the invariant

    A call that writes once reads under one invariant, [inv], and leaves another: [out]
    when it returns, and [broken] when it throws, before its write or after it. *)
Section writes.
Context {S : Type} (grows : S → S → Prop) `{Hpre : !PreOrder grows} (inv broken out : S → Prop).

Definition leads {A} (K : S → Prop) (m : M (Client S) A) (Q : A → S → Prop) : Prop :=
  ∀ c, inv (cl_store c) → K (cl_store c) →
  match m c with
  | (Ok a, c') => out (cl_store c') ∧ grows (cl_store c) (cl_store c') ∧ Q a (cl_store c')
  | (Throw _, c') => broken (cl_store c') ∧ grows (cl_store c) (cl_store c')
  end.

(** Reads come before the write. *)
Lemma leads_reads {A B} (K : S → Prop) (m : M (Client S) A) (f : A → M (Client S) B) Q R :
  (∀ s, inv s → broken s) → Stable grows inv K → runs grows inv K m Q →
  (∀ a, leads (λ s, K s ∧ Q a s) (f a) R) → leads K (m ≫= f) R.
Proof using Hpre.
  intros Hb HK Hm%(runs_frame _ _ _ _ _ HK) Hf c Hi Hc. rewrite m_bind_run. specialize (Hm c Hi Hc).
  destruct (m c) as [[a|e] c1]; destruct Hm as (Hi1 & Hg1 & Ha); [|by split; [apply Hb|]].
  specialize (Hf a c1 Hi1 (Ha a eq_refl)). destruct (f a c1) as [[b|e] c2].
  - destruct Hf as (? & ? & ?). split_and!; [done|by etrans|done].
  - destruct Hf as (? & ?). split; [done|by etrans].
Qed.

(** Reads that are kept out of a proof, and those whose result is a fact about values. *)
Lemma leads_keeps {A B} (K : S → Prop) (m : M (Client S) A) (f : A → M (Client S) B) R :
  (∀ s, inv s → broken s) → Keeps grows inv m → Stable grows inv K → (∀ a, leads K (f a) R) → leads K (m ≫= f) R.
Proof using Hpre.
  intros Hb Hm HK Hf. eapply leads_reads; [done|done|by apply Hm|]. intros a c Hi [Hc _]. by apply Hf.
Qed.

Lemma leads_lift {A B} (K : S → Prop) (r : res A) (f : A → M (Client S) B) R :
  (∀ s, inv s → broken s) → Stable grows inv K → (∀ a, r = Ok a → leads K (f a) R) → leads K (m_lift r ≫= f) R.
Proof using Hpre.
  intros Hb HK Hf. eapply leads_reads; [done|done|apply (runs_lift _ _ K r)|]. intros a c Hi [Hc Ha]. by apply Hf.
Qed.

Lemma leads_pure {A} (K : S → Prop) (φ : Prop) (m : M (Client S) A) Q : (φ → leads K m Q) → leads (λ s, K s ∧ φ) m Q.
Proof using Type. intros Hm c Hi [Hc Hφ]. by apply Hm. Qed.

(** Nothing is written after the write. *)
Lemma leads_then {A B} (K : S → Prop) (m : M (Client S) A) (f : A → M (Client S) B) Q R :
  (∀ s, out s → broken s) → leads K m Q → (∀ a, runs grows out (Q a) (f a) R) → leads K (m ≫= f) R.
Proof using Hpre.
  intros Hb Hm Hf c Hi Hc. rewrite m_bind_run. specialize (Hm c Hi Hc). destruct (m c) as [[a|e] c1]; [|done].
  destruct Hm as (Ho & Hg & HQ). specialize (Hf a c1 Ho HQ). destruct (f a c1) as [[b|e] c2]; destruct Hf as (Ho2 & Hg2 & Hb2).
  - split_and!; [done|by etrans|by apply Hb2].
  - split; [by apply Hb|by etrans].
Qed.

Lemma leads_last {A B} (K : S → Prop) (m : M (Client S) A) (f : A → M (Client S) B) :
  (∀ s, out s → broken s) → leads K m (λ _ _, True) → (∀ a, Keeps grows out (f a)) → leads K (m ≫= f) (λ _ _, True).
Proof using Hpre.
  intros Hb Hm Hf. eapply leads_then; [done|exact Hm|]. intros a. apply Hf. by intros s s' _ _.
Qed.

(** The write meets the store as the others left it. *)
Lemma leads_update (env : nat → S → S) `{Henv : !Lawful env grows inv} {A} (K : S → Prop) (m : M S A) Q :
  Stable grows inv K →
  (∀ s, inv s → K s → match m s with
    | (Ok a, s') => out s' ∧ grows s s' ∧ Q a s'
    | (Throw _, s') => broken s' ∧ grows s s'
    end) →
  leads K (update env m) Q.
Proof using Hpre.
  intros HK Hm c Hi Hc. destruct (Henv (cl_tick c) _ Hi) as [Hi' Hg]. unfold update, on_store, awaited.
  rewrite m_bind_run. cbn. specialize (Hm _ Hi' (HK _ _ Hi' Hg Hc)).
  destruct (m (env (cl_tick c) (cl_store c))) as [[a|e] s'].
  - destruct Hm as (? & ? & ?). split_and!; [done|by etrans|done].
  - destruct Hm as (? & ?). split; [done|by etrans].
Qed.
End writes.

Section weaken.
Context {S : Type} (grows : S → S → Prop) `{Hpre : !PreOrder grows}.

Lemma leads_mono {A} (inv inv' broken broken' out out' K K' : S → Prop) (m : M (Client S) A) (Q Q' : A → S → Prop) :
  leads grows inv broken out K m Q → (∀ s, inv' s → K' s → inv s ∧ K s) → (∀ s, broken s → broken' s) →
  (∀ a s, out s → Q a s → out' s ∧ Q' a s) → leads grows inv' broken' out' K' m Q'.
Proof using Type.
  intros Hm Hi Hb Ho c Hc HK. destruct (Hi _ Hc HK) as [Hc' HK']. specialize (Hm c Hc' HK').
  destruct (m c) as [[a|e] c'].
  - destruct Hm as (Hout & Hg & HQ). destruct (Ho _ _ Hout HQ). by split_and!.
  - destruct Hm as (? & ?). split; [by apply Hb|done].
Qed.

(** A handler meets what the computation left. *)
Lemma leads_catching {A} (inv thrown broken out K : S → Prop) (m : M (Client S) A) h (Q : A → S → Prop) :
  leads grows inv thrown out K m Q → (∀ e, leads grows thrown broken out (λ _, True) (h e) Q) →
  leads grows inv broken out K (catching m h) Q.
Proof using Hpre.
  intros Hm Hh c Hi Hc. unfold catching. specialize (Hm c Hi Hc). destruct (m c) as [[a|e] c1]; [done|].
  destruct Hm as (Ht & Hg). specialize (Hh e c1 Ht I). destruct (h e c1) as [[b|e'] c2].
  - destruct Hh as (? & ? & ?). split_and!; [done|by etrans|done].
  - destruct Hh as (? & ?). split; [done|by etrans].
Qed.

(** Computations that read only. *)
Lemma leads_runs {A} (inv broken out K : S → Prop) (m : M (Client S) A) Q :
  runs grows inv K m Q → (∀ s, inv s → broken s) → (∀ s, inv s → out s) → leads grows inv broken out K m Q.
Proof using Type.
  intros Hm Hb Ho c Hi Hc. specialize (Hm c Hi Hc). destruct (m c) as [[a|e] c']; destruct Hm as (? & ? & Ha).
  - split_and!; [by apply Ho|done|by apply Ha].
  - split; [by apply Hb|done].
Qed.

Lemma runs_leads {A} (inv K : S → Prop) (m : M (Client S) A) Q : leads grows inv inv inv K m Q → runs grows inv K m Q.
Proof using Type.
  intros Hm c Hi Hc. specialize (Hm c Hi Hc). destruct (m c) as [[a|e] c'].
  - destruct Hm as (? & ? & ?). split_and!; [done|done|]. by intros b [= <-].
  - by destruct Hm as (? & ?).
Qed.
End weaken.

#[export] Hint Mode Keeps - - - - ! : typeclass_instances.

(** A rule of the logic, with the instances that it needs found. *)
Tactic Notation "call" uconstr(R) := eapply R; try typeclasses eauto.

(** What was learnt last, when it is about values only. *)
Ltac learn := cbv beta;
  match goal with |- runs ?g ?i (fun s => @?K s ∧ ?φ) ?m ?Q => apply (runs_pure g i K φ m Q) end.
