(* ===== verification/Types.v ===== *)
(** * Types: the framework's data types

    Models [core/types.ts] and the payload unions declared beside each family of
    events.  Optional fields are [option]s.  A record keeps the fields the
    modelled code reads; presentation fields (labels, placeholders, list and
    form hints) are left out.  A payload is one constructor per [kind]; the
    kinds of components that are not modelled are [POther]. *)

From S2P Require Export Json JsMap.
From stdpp Require Export base option list.

(** ** Predicates *)

Inductive PredicateOperator :=
| OpEq | OpNe | OpIn | OpNotIn | OpIs | OpContains | OpLike | OpNotLike
| OpGt | OpGte | OpLt | OpLte | OpBetween | OpNotBetween.
#[export] Instance PredicateOperator_eq_dec : EqDecision PredicateOperator.
Proof. solve_decision. Defined.

Inductive PredicateScope := ScBefore | ScAfter | ScInput | ScEvent | ScActor.
#[export] Instance PredicateScope_eq_dec : EqDecision PredicateScope.
Proof. solve_decision. Defined.

Inductive PredicateOperand :=
| OLiteral (v : value)
| OField (scope : PredicateScope) (field : jstr)
| OPath (scope : PredicateScope) (path : list jstr).

Inductive GroupMatch := MatchAll | MatchAny.

Inductive PredicateExpression :=
| PCompare (left : PredicateOperand) (operator : PredicateOperator) (right : PredicateOperand)
| PGroup (m : GroupMatch) (predicates : list PredicateExpression)
| PNot (predicate : PredicateExpression).

Section predicate_induction.
Context (P : PredicateExpression → Prop).
Context (Hcmp : ∀ l o r, P (PCompare l o r))
        (Hgroup : ∀ m ps, Forall P ps → P (PGroup m ps))
        (Hnot : ∀ p, P p → P (PNot p)).
Fixpoint predicate_ind' (p : PredicateExpression) : P p :=
  match p with
  | PCompare l o r => Hcmp l o r
  | PGroup m ps => Hgroup m ps ((fix go ps := match ps return Forall P ps with
      | [] => Forall_nil_2 _
      | q :: ps => Forall_cons_2 _ _ _ (predicate_ind' q) (go ps) end) ps)
  | PNot q => Hnot q (predicate_ind' q)
  end.
End predicate_induction.

(** ** DocTypes *)

Inductive FieldType :=
| FText | FLongText | FInteger | FNumber | FBoolean | FDate | FDatetime
| FJson | FSelect | FLink | FTable.
#[export] Instance FieldType_eq_dec : EqDecision FieldType.
Proof. solve_decision. Defined.

Inductive PermissionAction :=
| ARead | ARendition | ACreate | AMetadata | AUpdate | ADelete | ASubmit | ACancel
| ATransition | AComment | AAssign | AActivity | ATag | AFollow | AShare.
#[export] Instance PermissionAction_eq_dec : EqDecision PermissionAction.
Proof. solve_decision. Defined.

Inductive FieldPermissionAction := FARead | FACreate | FAUpdate.
#[export] Instance FieldPermissionAction_eq_dec : EqDecision FieldPermissionAction.
Proof. solve_decision. Defined.

Record Actor := {
  actor_id : jstr;
  actor_roles : list jstr;
  actor_tenantId : option jstr;
  actor_email : option jstr
}.

Inductive DocStatus := Draft | Submitted | Cancelled | Deleted.
#[export] Instance DocStatus_eq_dec : EqDecision DocStatus.
Proof. solve_decision. Defined.

Record DocumentSnapshot := {
  ds_tenantId : jstr;
  ds_doctype : jstr;
  ds_name : jstr;
  ds_version : Z;
  ds_docstatus : DocStatus;
  ds_data : data;
  ds_createdAt : jstr;
  ds_updatedAt : jstr
}.

(** [FieldPermissionRule]; [when] receives the actor, the document and the
    value of the context (its doctype and field are the rule's own). *)
Record FieldPermissionRule := {
  fpr_roles : list jstr;
  fpr_actions : list FieldPermissionAction;
  fpr_when : option (Actor → FieldPermissionAction → option DocumentSnapshot → option value → bool)
}.

(** [FieldDefaultContext] and the two forms of [defaultValue]. *)
Record FieldDefaultContext := { fdc_actor : Actor; fdc_now : jstr }.

Inductive FieldDefault :=
| DefaultLiteral (v : value)
| DefaultFunction (f : FieldDefaultContext → value).

Record FieldDefinition := {
  fd_name : jstr;
  fd_type : FieldType;
  fd_required : bool;
  fd_mandatoryDependsOn : option PredicateExpression;
  fd_readOnly : bool;
  fd_readOnlyDependsOn : option PredicateExpression;
  fd_hidden : bool;
  fd_hiddenDependsOn : option PredicateExpression;
  fd_unique : bool;
  fd_noCopy : bool;
  fd_allowOnSubmit : bool;
  fd_fetchFrom : option jstr;
  fd_fetchIfEmpty : bool;
  fd_options : option (list jstr);
  fd_linkTo : option jstr;
  fd_tableOf : option jstr;
  fd_min : option num;
  fd_max : option num;
  fd_defaultValue : option FieldDefault;
  fd_permissions : option (list FieldPermissionRule)
}.

(** A field that declares nothing but its name, its type and the given flags. *)
Definition plain_field (name : jstr) (type : FieldType) (readOnly unique noCopy : bool)
    (options : option (list jstr)) : FieldDefinition :=
  {| fd_name := name; fd_type := type; fd_required := false; fd_mandatoryDependsOn := None;
     fd_readOnly := readOnly; fd_readOnlyDependsOn := None; fd_hidden := false; fd_hiddenDependsOn := None; fd_unique := unique;
     fd_noCopy := noCopy; fd_allowOnSubmit := false; fd_fetchFrom := None; fd_fetchIfEmpty := false;
     fd_options := options; fd_linkTo := None; fd_tableOf := None; fd_min := None; fd_max := None;
     fd_defaultValue := None; fd_permissions := None |}.

Record PermissionRule := {
  pr_roles : list jstr;
  pr_actions : list PermissionAction;
  pr_when : option (Actor → PermissionAction → option DocumentSnapshot → bool)
}.

(** [ValidationIssue], without its message. *)
Record ValidationIssue := { vi_field : option jstr; vi_code : jstr }.

(** ** Workflows *)

Record NamedWorkflowTransition := {
  nwt_action : jstr;
  nwt_from : jstr;
  nwt_to : jstr;
  nwt_roles : option (list jstr);
  nwt_allowWhen : option PredicateExpression;
  nwt_eventType : option jstr
}.

Record NamedWorkflowDefinition := {
  nwd_name : jstr;
  nwd_label : option jstr;
  nwd_stateField : jstr;
  nwd_initialState : jstr;
  nwd_states : list jstr;
  nwd_transitions : list NamedWorkflowTransition
}.

(** ** Naming *)

Inductive NamingSeriesReset := ResetNever | ResetYear | ResetMonth | ResetDay.
#[export] Instance NamingSeriesReset_eq_dec : EqDecision NamingSeriesReset.
Proof. solve_decision. Defined.

Inductive NamingSeriesExclusion :=
| ExExact (v : jstr)
| ExPrefix (v : jstr)
| ExSuffix (v : jstr)
| ExContains (v : jstr)
| ExRange (from to : Z)
| ExRegex (pattern : jstr) (flag_i : bool).

Record NamingSeriesStrategy := {
  nss_pattern : jstr;
  nss_targetField : option jstr;
  nss_counter : option jstr;
  nss_padding : option Z;
  nss_start : option Z;
  nss_step : option Z;
  nss_reset : option NamingSeriesReset;
  nss_scopeFields : option (list jstr);
  nss_exclusions : option (list NamingSeriesExclusion);
  nss_maxAttempts : option Z
}.

Inductive NamingStrategy :=
| NamingUuid
| NamingField (field : jstr)
| NamingProvided (field : option jstr)
| NamingSeries (s : NamingSeriesStrategy).

(** ** Automations *)

Inductive AutomationValueExpression :=
| XLiteral (v : value)
| XField (field : jstr)
| XDocumentName
| XActor.

Record AutomationActionDefinition := {
  aa_id : jstr;
  aa_doctype : jstr;
  aa_name : AutomationValueExpression;
  aa_patch : list (jstr * AutomationValueExpression)
}.

Record AutomationChangeSelectorDefinition := {
  acs_field : jstr;
  acs_from : option value;
  acs_to : option value
}.

Record AutomationTriggerDefinition := {
  atd_events : list jstr;
  atd_touchedFields : option (list jstr);
  atd_changes : option (list AutomationChangeSelectorDefinition);
  atd_workflow : option jstr;
  atd_workflowAction : option jstr;
  atd_domainCommand : option jstr
}.

Record AutomationRuleDefinition := {
  aru_id : jstr;
  aru_name : jstr;
  aru_enabled : option bool;
  aru_trigger : AutomationTriggerDefinition;
  aru_runWhen : option PredicateExpression;
  aru_actions : list AutomationActionDefinition
}.

(** ** Domain commands *)

Record DomainCommandContext := {
  dcx_actor : Actor;
  dcx_document : DocumentSnapshot;
  dcx_input : data;
  dcx_now : jstr
}.

Record DomainCommandTransitionIntent := { dti_workflow : jstr; dti_action : jstr }.

Record DomainCommandPlan := {
  dcp_patch : data;
  dcp_transitions : option (list DomainCommandTransitionIntent)
}.

(** The functions of a command are the application's. *)
Record DomainCommandDefinition := {
  dcd_name : jstr;
  dcd_eventType : jstr;
  dcd_fields : option (list jstr);
  dcd_internal : bool;
  dcd_allowReadOnlyFields : bool;
  dcd_bypassFieldPermissions : bool;
  dcd_roles : option (list jstr);
  dcd_permissionAction : option PermissionAction;
  dcd_buildPatch : option (DomainCommandContext → res data);
  dcd_buildPlan : option (DomainCommandContext → res DomainCommandPlan)
}.

(** ** The definition of a doctype *)

(** [events]: the types that replace those made from the name of the doctype. *)
Record DocTypeEvents := {
  dte_create : option jstr;
  dte_update : option jstr;
  dte_submit : option jstr;
  dte_cancel : option jstr;
  dte_delete : option jstr;
  dte_comment : option jstr;
  dte_activity : option jstr;
  dte_assign : option jstr;
  dte_unassign : option jstr;
  dte_tag : option jstr;
  dte_untag : option jstr;
  dte_follow : option jstr;
  dte_unfollow : option jstr;
  dte_share : option jstr;
  dte_unshare : option jstr
}.

Definition no_event_types : DocTypeEvents :=
  {| dte_create := None; dte_update := None; dte_submit := None; dte_cancel := None; dte_delete := None;
     dte_comment := None; dte_activity := None; dte_assign := None; dte_unassign := None; dte_tag := None;
     dte_untag := None; dte_follow := None; dte_unfollow := None; dte_share := None; dte_unshare := None |}.

Record DocTypeDefinition := {
  dt_name : jstr;
  dt_fields : list FieldDefinition;
  dt_permissions : option (list PermissionRule);
  dt_workflows : option (list NamedWorkflowDefinition);
  dt_automationRules : option (list AutomationRuleDefinition);
  dt_commands : option (list DomainCommandDefinition);
  dt_naming : option NamingStrategy;
  dt_allowUnknownFields : bool;
  dt_events : DocTypeEvents
}.

(** A doctype that declares nothing but its name and its fields. *)
Definition plain_doctype (name : jstr) (fields : list FieldDefinition) : DocTypeDefinition :=
  {| dt_name := name; dt_fields := fields; dt_permissions := None; dt_workflows := None;
     dt_automationRules := None; dt_commands := None; dt_naming := None; dt_allowUnknownFields := false;
     dt_events := no_event_types |}.

(** [doctype.fields.find((field) => field.name === name)]. *)
Definition find_field (doctype : DocTypeDefinition) (name : jstr) : option FieldDefinition :=
  List.find (λ field, bool_decide (fd_name field = name)) (dt_fields doctype).

(** [new Map(doctype.fields.map((field) => [field.name, field])).get(name)]. *)
Definition fields_get (doctype : DocTypeDefinition) (name : jstr) : option FieldDefinition :=
  List.find (λ field, bool_decide (fd_name field = name)) (rev (dt_fields doctype)).

(** [{ ...doctype, fields }], [{ ...doctype, workflows }] and [{ ...doctype, naming }]. *)
Definition with_fields (doctype : DocTypeDefinition) (fields : list FieldDefinition) : DocTypeDefinition :=
  {| dt_name := dt_name doctype; dt_fields := fields; dt_permissions := dt_permissions doctype;
     dt_workflows := dt_workflows doctype; dt_automationRules := dt_automationRules doctype;
     dt_commands := dt_commands doctype; dt_naming := dt_naming doctype;
     dt_allowUnknownFields := dt_allowUnknownFields doctype; dt_events := dt_events doctype |}.

Definition with_workflows (doctype : DocTypeDefinition) (workflows : option (list NamedWorkflowDefinition))
    : DocTypeDefinition :=
  {| dt_name := dt_name doctype; dt_fields := dt_fields doctype; dt_permissions := dt_permissions doctype;
     dt_workflows := workflows; dt_automationRules := dt_automationRules doctype;
     dt_commands := dt_commands doctype; dt_naming := dt_naming doctype;
     dt_allowUnknownFields := dt_allowUnknownFields doctype; dt_events := dt_events doctype |}.

Definition with_naming (doctype : DocTypeDefinition) (naming : option NamingStrategy) : DocTypeDefinition :=
  {| dt_name := dt_name doctype; dt_fields := dt_fields doctype; dt_permissions := dt_permissions doctype;
     dt_workflows := dt_workflows doctype; dt_automationRules := dt_automationRules doctype;
     dt_commands := dt_commands doctype; dt_naming := naming;
     dt_allowUnknownFields := dt_allowUnknownFields doctype; dt_events := dt_events doctype |}.

(** ** Event payloads *)

Record TransitionFact := {
  tf_workflow : jstr;
  tf_stateField : jstr;
  tf_action : jstr;
  tf_from : jstr;
  tf_to : jstr
}.

Inductive DocumentDeliveryOutboxTarget := TNotification | TRealtime | TEmail.
#[export] Instance OutboxTarget_eq_dec : EqDecision DocumentDeliveryOutboxTarget.
Proof. solve_decision. Defined.

Record OutboxEnqueued := {
  oe_outboxId : jstr;
  oe_target : DocumentDeliveryOutboxTarget;
  oe_sourceEventId : jstr;
  oe_sourceEventType : jstr;
  oe_payloadKind : jstr;
  oe_doctype : jstr;
  oe_documentName : jstr;
  oe_actorId : jstr;
  oe_payload : option data
}.

Record AutomationRunRetryPolicy := {
  rp_maxAttempts : Z;
  rp_baseDelaySeconds : Z;
  rp_maxDelaySeconds : Z
}.

(** [ResolvedAutomationActionDefinition], whose only kind is [updateDocument]. *)
Record ResolvedAutomationAction := {
  raa_doctype : jstr;
  raa_name : jstr;
  raa_patch : data
}.

Record AutomationRunEnqueued := {
  are_runId : jstr;
  are_sourceEventId : jstr;
  are_sourceEventType : jstr;
  are_sourcePayloadKind : jstr;
  are_sourceDoctype : jstr;
  are_sourceDocumentName : jstr;
  are_sourceActorId : jstr;
  are_workflowName : option jstr;
  are_workflowAction : option jstr;
  are_workflowTransitions : option (list TransitionFact);
  are_ruleId : jstr;
  are_ruleName : jstr;
  are_actionId : jstr;
  are_action : ResolvedAutomationAction;
  are_retry : AutomationRunRetryPolicy;
  are_causationId : jstr;
  are_correlationId : jstr;
  are_automationDepth : Z;
  are_automationPath : list jstr
}.

Inductive DocumentSharePermission := ShareRead | ShareUpdate | ShareShare.
#[export] Instance DocumentSharePermission_eq_dec : EqDecision DocumentSharePermission.
Proof. solve_decision. Defined.

Record JobScheduleSaved := {
  jss_scheduleId : jstr;
  jss_cron : jstr;
  jss_jobName : jstr;
  jss_tenantId : jstr;
  jss_enabled : bool;
  jss_payload : option data;
  jss_metadata : option data;
  jss_idempotencyKey : option jstr;
  jss_delaySeconds : option Z
}.

Inductive payload :=
(* document-lifecycle-events.ts *)
| PDocumentCreated (d : data) (docstatus : DocStatus)
| PDocumentUpdated (patch : data) (unset : option (list jstr))
| PDocumentDeleted
| PDocumentSubmitted
| PDocumentCancelled
(* document-command-events.ts; the fields of a stored transition are unchecked *)
| PWorkflowTransitioned (workflow stateField action from to patch : value)
| PDomainCommandApplied (command : jstr) (input patch : data) (transitions : list TransitionFact)
(* document-collaboration-events.ts *)
| PDocumentCommentAdded (text : jstr)
| PDocumentActivityRecorded (activityType subject : jstr) (detail channel externalId : option jstr)
| PDocumentAssigned (assigneeId : jstr)
| PDocumentUnassigned (assigneeId : jstr)
| PDocumentTagged (tag : jstr)
| PDocumentUntagged (tag : jstr)
| PDocumentFollowed (followerId : jstr)
| PDocumentUnfollowed (followerId : jstr)
(* document-shares.ts *)
| PDocumentShared (userId : jstr) (permissions : list jstr)
| PDocumentShareRevoked (userId : jstr)
(* user-permissions.ts *)
| PUserPermissionAllowed (userId targetDoctype targetName : jstr) (applicableDoctypes : option (list jstr))
| PUserPermissionRevoked (userId targetDoctype targetName : jstr) (applicableDoctypes : option (list jstr))
(* document-delivery-outbox-events.ts *)
| POutboxEnqueued (r : OutboxEnqueued)
| POutboxClaimed (outboxId claimId : jstr)
| POutboxDelivered (outboxId claimId : jstr)
| POutboxFailed (outboxId claimId err : jstr) (retryAt : option jstr)
| POutboxCheckpointed (upToSequence : Z) (carryOver : list jstr)
(* automation-run-events.ts *)
| PRunEnqueued (r : AutomationRunEnqueued)
| PRunClaimed (runId claimId claimExpiresAt : jstr)
| PRunDelivered (runId claimId : jstr)
| PRunFailed (runId claimId err retryAt : jstr)
| PRunDeadLettered (runId claimId err : jstr)
| PRunSuppressed (runId err : jstr)
(* workflow.ts *)
| PNamedWorkflowSaved (doctypeName workflowName : jstr) (w : NamedWorkflowDefinition)
| PNamedWorkflowCleared (doctypeName workflowName : jstr)
(* workflow-events.ts *)
| PWorkflowFieldClaimed (doctypeName stateField workflowName : jstr)
| PWorkflowFieldReleased (doctypeName stateField workflowName : jstr)
(* naming-configuration.ts *)
| PNamingStrategySaved (doctypeName : jstr) (s : NamingStrategy)
| PNamingStrategyCleared (doctypeName : jstr)
(* custom-fields.ts *)
| PCustomFieldSaved (doctypeName : jstr) (field : FieldDefinition)
| PCustomFieldDisabled (doctypeName fieldName : jstr)
(* job-schedule-events.ts *)
| PJobScheduleOverrideSet (scheduleId : jstr) (enabled : bool)
| PJobSchedulePaused (scheduleId pausedUntil : jstr)
| PJobScheduleOverrideCleared (scheduleId : jstr)
| PJobScheduleSaved (r : JobScheduleSaved)
| PJobScheduleDeleted (scheduleId tenantId : jstr)
(* every other family *)
| POther (kind : jstr) (body : value).

(** [NewDomainEvent]: everything but the sequence number. *)
Record NewDomainEvent := {
  e_id : jstr;
  e_tenantId : jstr;
  e_stream : jstr;
  e_type : jstr;
  e_doctype : jstr;
  e_documentName : jstr;
  e_actorId : jstr;
  e_occurredAt : jstr;
  e_payload : payload;
  e_metadata : data
}.

Record DomainEvent := {
  e_new :> NewDomainEvent;
  e_sequence : Z
}.

Definition CHILD_TABLE_ROW_INDEX_FIELD : jstr := js "__cf_frappe_row_index".
Definition SYSTEM_MANAGER_ROLE : jstr := js "System Manager".
Definition DEFAULT_TENANT_ID : jstr := js "default".

(** ** The doctypes of an application

    The part of [core/registry.ts] that the services read: the doctypes by name,
    and the roles that the metadata mentions. *)

(** What the services read of [ModelRegistry]: the doctypes, and the names of the
    roles that its commands, reports and other resources mention. *)
Record Registry := {
  reg_doctypes : list (jstr * DocTypeDefinition);
  reg_resourceRoles : list jstr
}.

(** [registry.get(doctype)]. *)
Definition registry_get (registry : Registry) (doctype : jstr) : res DocTypeDefinition :=
  match jm_get doctype (reg_doctypes registry) with
  | Some definition => Ok definition
  | None => Throw (notFound DOCTYPE_NOT_FOUND)
  end.

(** [registryRoleNames(registry)]. *)
Definition registryRoleNames (registry : Registry) : list jstr :=
  js_unique (flat_map (λ entry : jstr * DocTypeDefinition,
      flat_map pr_roles (default [] (dt_permissions entry.2)) ++
      flat_map (λ field, flat_map fpr_roles (default [] (fd_permissions field))) (dt_fields entry.2) ++
      flat_map (λ workflow, flat_map (λ transition, default [] (nwt_roles transition)) (nwd_transitions workflow))
        (default [] (dt_workflows entry.2))) (reg_doctypes registry)
    ++ reg_resourceRoles registry).
