(* ===== verification/DomainEvents.v ===== *)
(** * DomainEvents: event identity and sequencing

    Models [core/domain-events.ts] (kinds, the JSON guard of a clone,
    [sequenceEvents], the recognition of a current workflow transition) and
    [core/document-snapshots.ts]. *)

From S2P Require Export Types.
From stdpp Require Export base option list.

(** [event.payload.kind]. *)
Definition payload_kind (p : payload) : jstr :=
  match p with
  | PDocumentCreated _ _ => js "DocumentCreated"
  | PDocumentUpdated _ _ => js "DocumentUpdated"
  | PDocumentDeleted => js "DocumentDeleted"
  | PDocumentSubmitted => js "DocumentSubmitted"
  | PDocumentCancelled => js "DocumentCancelled"
  | PWorkflowTransitioned _ _ _ _ _ _ => js "WorkflowTransitioned"
  | PDomainCommandApplied _ _ _ _ => js "DomainCommandApplied"
  | PDocumentCommentAdded _ => js "DocumentCommentAdded"
  | PDocumentActivityRecorded _ _ _ _ _ => js "DocumentActivityRecorded"
  | PDocumentAssigned _ => js "DocumentAssigned"
  | PDocumentUnassigned _ => js "DocumentUnassigned"
  | PDocumentTagged _ => js "DocumentTagged"
  | PDocumentUntagged _ => js "DocumentUntagged"
  | PDocumentFollowed _ => js "DocumentFollowed"
  | PDocumentUnfollowed _ => js "DocumentUnfollowed"
  | PDocumentShared _ _ => js "DocumentShared"
  | PDocumentShareRevoked _ => js "DocumentShareRevoked"
  | PUserPermissionAllowed _ _ _ _ => js "UserPermissionAllowed"
  | PUserPermissionRevoked _ _ _ _ => js "UserPermissionRevoked"
  | POutboxEnqueued _ => js "DocumentDeliveryOutboxEnqueued"
  | POutboxClaimed _ _ => js "DocumentDeliveryOutboxClaimed"
  | POutboxDelivered _ _ => js "DocumentDeliveryOutboxDelivered"
  | POutboxFailed _ _ _ _ => js "DocumentDeliveryOutboxFailed"
  | POutboxCheckpointed _ _ => js "DocumentDeliveryOutboxCheckpointed"
  | PRunEnqueued _ => js "AutomationRunEnqueued"
  | PRunClaimed _ _ _ => js "AutomationRunClaimed"
  | PRunDelivered _ _ => js "AutomationRunDelivered"
  | PRunFailed _ _ _ _ => js "AutomationRunFailed"
  | PRunDeadLettered _ _ _ => js "AutomationRunDeadLettered"
  | PRunSuppressed _ _ => js "AutomationRunSuppressed"
  | PNamedWorkflowSaved _ _ _ => js "NamedWorkflowSaved"
  | PNamedWorkflowCleared _ _ => js "NamedWorkflowCleared"
  | PWorkflowFieldClaimed _ _ _ => js "NamedWorkflowFieldClaimed"
  | PWorkflowFieldReleased _ _ _ => js "NamedWorkflowFieldReleased"
  | PNamingStrategySaved _ _ => js "NamingStrategySaved"
  | PNamingStrategyCleared _ => js "NamingStrategyCleared"
  | PCustomFieldSaved _ _ => js "CustomFieldSaved"
  | PCustomFieldDisabled _ _ => js "CustomFieldDisabled"
  | PJobScheduleOverrideSet _ _ => js "JobScheduleOverrideSet"
  | PJobSchedulePaused _ _ => js "JobSchedulePaused"
  | PJobScheduleOverrideCleared _ => js "JobScheduleOverrideCleared"
  | PJobScheduleSaved _ => js "JobScheduleSaved"
  | PJobScheduleDeleted _ _ => js "JobScheduleDeleted"
  | POther kind _ => kind
  end.

Definition domainEventPayloadKind (event : DomainEvent) : jstr := payload_kind (e_payload event).

(** Every literal of an expression is a JSON value. *)
Definition operandIsJson (o : PredicateOperand) : bool :=
  match o with OLiteral v => isJsonValue v | _ => true end.

Fixpoint expressionIsJson (p : PredicateExpression) : bool :=
  match p with
  | PCompare l _ r => operandIsJson l && operandIsJson r
  | PGroup _ ps => forallb expressionIsJson ps
  | PNot q => expressionIsJson q
  end.

Definition transitionIsJson (t : NamedWorkflowTransition) : bool :=
  match nwt_allowWhen t with Some p => expressionIsJson p | None => true end.

(** A field without functions, whose values are JSON. *)
Definition conditionIsJson (condition : option PredicateExpression) : bool :=
  match condition with Some e => expressionIsJson e | None => true end.
Definition boundIsJson (bound : option num) : bool :=
  match bound with Some n => isJsonValue (VNum n) | None => true end.
Definition fieldIsJson (field : FieldDefinition) : bool :=
  conditionIsJson (fd_mandatoryDependsOn field) && conditionIsJson (fd_readOnlyDependsOn field) &&
  conditionIsJson (fd_hiddenDependsOn field) && boundIsJson (fd_min field) && boundIsJson (fd_max field) &&
  match fd_defaultValue field with Some (DefaultLiteral v) => isJsonValue v | Some (DefaultFunction _) => false | None => true end &&
  forallb (λ rule, match fpr_when rule with None => true | Some _ => false end) (default [] (fd_permissions field)).

(** [isJsonValue(payload)]: the parts of a payload that are not strings, booleans,
    integers or arrays of those by their type. *)
Definition payloadIsJson (p : payload) : bool :=
  match p with
  | PDocumentCreated d _ => isJsonData d
  | PDocumentUpdated patch _ => isJsonData patch
  | PWorkflowTransitioned workflow stateField action from to patch =>
      forallb isJsonValue [workflow; stateField; action; from; to; patch]
  | PDomainCommandApplied _ input patch _ => isJsonData input && isJsonData patch
  | POutboxEnqueued r => match oe_payload r with Some d => isJsonData d | None => true end
  | PRunEnqueued r => isJsonData (raa_patch (are_action r))
  | PNamedWorkflowSaved _ _ w => forallb transitionIsJson (nwd_transitions w)
  | PCustomFieldSaved _ field => fieldIsJson field
  | PJobScheduleSaved r =>
      match jss_payload r with Some d => isJsonData d | None => true end &&
      match jss_metadata r with Some d => isJsonData d | None => true end
  | POther _ body => match body with VObj _ => isJsonValue body | _ => false end
  | _ => true
  end.

Definition event_invalid : error := FrameworkError EVENT_INVALID 409.

(** [cloneDomainEvent]: a deep copy, which requires JSON payload and metadata. *)
Definition cloneDomainEvent (event : DomainEvent) : res DomainEvent :=
  _ ← ensure (payloadIsJson (e_payload event)) event_invalid;
  _ ← ensure (isJsonData (e_metadata event)) event_invalid;
  Ok event.

(** [sequenceEvents(expectedVersion, events)]. *)
Fixpoint sequenceFrom (next : Z) (events : list NewDomainEvent) : res (list DomainEvent) :=
  match events with
  | [] => Ok []
  | event :: events =>
      saved ← cloneDomainEvent {| e_new := event; e_sequence := next |};
      rest ← sequenceFrom (next + 1) events;
      Ok (saved :: rest)
  end.

Definition sequenceEvents (expectedVersion : Z) (events : list NewDomainEvent) : res (list DomainEvent) :=
  sequenceFrom (expectedVersion + 1) events.

(** [isRequiredString]. *)
Definition isRequiredString (v : value) : bool :=
  match v with VStr s => negb (bool_decide (trim s = [])) | _ => false end.

Definition isJsonObject (v : value) : bool :=
  match v with VObj d => isJsonData d | _ => false end.

(** [isCurrentWorkflowTransitionPayload]. *)
Definition isCurrentWorkflowTransitionPayload (p : payload) : bool :=
  match p with
  | PWorkflowTransitioned workflow stateField action from to patch =>
      isRequiredString workflow && isRequiredString stateField && isRequiredString action &&
      is_string from && is_string to && isJsonObject patch
  | _ => false
  end.

(** The payload and the metadata of an event may be stored. *)
Definition event_json (event : NewDomainEvent) : bool :=
  payloadIsJson (e_payload event) && isJsonData (e_metadata event).

Lemma cloneDomainEvent_ok (event event' : DomainEvent) :
  cloneDomainEvent event = Ok event' ↔ event_json event = true ∧ event' = event.
Proof.
  unfold cloneDomainEvent, event_json.
  destruct (payloadIsJson _), (isJsonData _); simpl; split; naive_solver.
Qed.

Lemma cloneDomainEvent_id (event : DomainEvent) : event_json event = true → cloneDomainEvent event = Ok event.
Proof. intros H. by apply cloneDomainEvent_ok. Qed.

Lemma sequenceFrom_ok next events saved :
  sequenceFrom next events = Ok saved →
  e_new <$> saved = events ∧ forallb event_json events = true ∧
  ∀ i e, saved !! i = Some e → e_sequence e = (next + Z.of_nat i)%Z.
Proof.
  revert next saved. induction events as [|ev events IH]; intros next saved H; simpl in H.
  - inv_res. split_and!; [done..|]. intros i e Hi. by rewrite lookup_nil in Hi.
  - inv_res. apply cloneDomainEvent_ok in H as [Hj ->]. cbn [e_new] in Hj. apply IH in H0 as (H1 & H2 & H3).
    split_and!; simpl.
    + exact (f_equal (cons ev) H1).
    + by rewrite Hj, H2.
    + intros [|i] e Hi; simpl in Hi; [injection Hi as <-; simpl; lia|].
      rewrite (H3 _ _ Hi). lia.
Qed.

Lemma sequenceFrom_total next events :
  forallb event_json events = true → ∃ saved, sequenceFrom next events = Ok saved.
Proof.
  revert next. induction events as [|ev events IH]; intros next H; simpl in *; [eauto|].
  apply andb_prop in H as [H1 H2]. rewrite cloneDomainEvent_id by done. simpl.
  destruct (IH (next + 1)%Z H2) as [saved Hs]. rewrite Hs. simpl. eauto.
Qed.

(** [cloneDocumentSnapshot]. *)
Definition cloneDocumentSnapshot (s : DocumentSnapshot) : res DocumentSnapshot :=
  _ ← ensure (isJsonData (ds_data s)) (FrameworkError DOCUMENT_INVALID 409);
  Ok s.

Lemma cloneDocumentSnapshot_ok s s' :
  cloneDocumentSnapshot s = Ok s' ↔ isJsonData (ds_data s) = true ∧ s' = s.
Proof. unfold cloneDocumentSnapshot. destruct (isJsonData _); simpl; split; naive_solver. Qed.

(** Events ordered by sequence: the comparator every fold sorts by. *)
Definition seq_leb (left right : DomainEvent) : bool := (e_sequence left <=? e_sequence right)%Z.

Definition sort_events (events : list DomainEvent) : list DomainEvent := isort seq_leb events.

Lemma seq_leb_total x y : seq_leb x y ∨ seq_leb y x.
Proof. unfold seq_leb. rewrite !Is_true_true, !Z.leb_le. lia. Qed.

Lemma seq_leb_trans x y z : seq_leb x y → seq_leb y z → seq_leb x z.
Proof. unfold seq_leb. rewrite !Is_true_true, !Z.leb_le. lia. Qed.

(** A tail that follows a prefix. *)
Definition follows (prefix tail : list DomainEvent) : Prop :=
  ∀ x y, x ∈ prefix → y ∈ tail → (e_sequence x <= e_sequence y)%Z.

Lemma follows_check prefix tail :
  forallb (λ x, forallb (seq_leb x) tail) prefix = true → follows prefix tail.
Proof.
  rewrite forallb_In. intros H x y Hx Hy. specialize (H x Hx). rewrite forallb_In in H.
  by apply Z.leb_le, H.
Qed.

Lemma sort_events_app l1 l2 : follows l1 l2 → sort_events (l1 ++ l2) = sort_events l1 ++ sort_events l2.
Proof.
  intros H. apply isort_app. intros x y Hx Hy. apply Is_true_true, Z.leb_le. by apply H.
Qed.

Lemma sort_events_perm l1 l2 :
  NoDup (e_sequence <$> l1) → l1 ≡ₚ l2 → sort_events l1 = sort_events l2.
Proof.
  intros Hnd. apply isort_unique; [apply seq_leb_total|apply seq_leb_trans|].
  intros x y Hx Hy Hxy%Is_true_true%Z.leb_le Hyx%Is_true_true%Z.leb_le.
  apply list_elem_of_lookup in Hx as [i Hi], Hy as [j Hj].
  assert (i = j) as ->; [|congruence].
  eapply (NoDup_lookup _ i j (e_sequence x) Hnd); rewrite list_lookup_fmap.
  - by rewrite Hi.
  - rewrite Hj. simpl. f_equal. lia.
Qed.

#[export] Hint Resolve seq_leb_total seq_leb_trans : cff.

(** ** Sample events, for the witnesses of later files *)
Definition sample_new (stream : jstr) (p : payload) : NewDomainEvent :=
  {| e_id := js "e"; e_tenantId := js "default"; e_stream := stream; e_type := js "Sample";
     e_doctype := js "Task"; e_documentName := js "T-1"; e_actorId := js "ada";
     e_occurredAt := js "2026-01-01T00:00:00.000Z"; e_payload := p; e_metadata := [] |}.

Definition sample_event (n : Z) (p : payload) : DomainEvent :=
  {| e_new := sample_new (js "default:Task:T-1") p; e_sequence := n |}.

Definition sample_created : DomainEvent :=
  sample_event 1 (PDocumentCreated [(js "title", vstr "Draft"); (js "done", VBool false)] Draft).
Definition sample_updated : DomainEvent :=
  sample_event 2 (PDocumentUpdated [(js "title", vstr "Final")] (Some [js "done"])).
Definition sample_submitted : DomainEvent := sample_event 3 PDocumentSubmitted.
Definition sample_history : list DomainEvent := [sample_created; sample_updated; sample_submitted].
