(* ===== verification/Fold.v ===== *)
(** * Fold: a document is the fold of its events

    Models [core/events.ts]: [foldDocumentFrom], the data change it applies, and
    the folds of a document's assignees, tags and followers.  The main results
    are that a fold can be resumed from its own result (which is what lets a
    snapshot stand in for a prefix), that it does not depend on the order in
    which a store returns events, and that the version it computes is the
    length of a document's stream. *)

From S2P Require Export DomainEvents.
From stdpp Require Export base option list.

(** ** The document fold *)

(** [cloneData]: refuses anything but a JSON object. *)
Definition cloneData (d : data) : res data :=
  if isJsonData d then Ok (prod_map id cloneJsonValue <$> d)
  else Throw (FrameworkError EVENT_INVALID 409).

Definition cloneSnapshot (s : DocumentSnapshot) : res DocumentSnapshot :=
  d ← cloneData (ds_data s);
  Ok {| ds_tenantId := ds_tenantId s; ds_doctype := ds_doctype s; ds_name := ds_name s;
        ds_version := ds_version s; ds_docstatus := ds_docstatus s; ds_data := d;
        ds_createdAt := ds_createdAt s; ds_updatedAt := ds_updatedAt s |}.

(** [applyDocumentDataChange(data, patch, unset)]. *)
Definition applyDocumentDataChange (d patch : data) (unset : list jstr) : res data :=
  d' ← cloneData d;
  patch' ← cloneData patch;
  Ok (foldl (λ next field, jm_delete field next) (jm_spread d' patch') unset).

(** [{ ...current, version: event.sequence, docstatus?, data?, updatedAt: event.occurredAt }]. *)
Definition touch (current : DocumentSnapshot) (event : DomainEvent) (docstatus : DocStatus) (d : data)
    : DocumentSnapshot :=
  {| ds_tenantId := ds_tenantId current; ds_doctype := ds_doctype current;
     ds_name := ds_name current; ds_version := e_sequence event;
     ds_docstatus := docstatus; ds_data := d;
     ds_createdAt := ds_createdAt current; ds_updatedAt := e_occurredAt event |}.

(** One iteration of the loop of [foldDocumentFrom]: the [switch] on the kind. *)
Definition foldDocumentStep (snapshot : option DocumentSnapshot) (event : DomainEvent)
    : res (option DocumentSnapshot) :=
  match e_payload event with
  | PDocumentCreated d docstatus =>
      d' ← cloneData d;
      Ok (Some {| ds_tenantId := e_tenantId event; ds_doctype := e_doctype event;
                  ds_name := e_documentName event; ds_version := e_sequence event;
                  ds_docstatus := docstatus; ds_data := d';
                  ds_createdAt := e_occurredAt event; ds_updatedAt := e_occurredAt event |})
  | PDocumentUpdated patch unset =>
      match snapshot with
      | Some current =>
          d ← applyDocumentDataChange (ds_data current) patch (default [] unset);
          Ok (Some (touch current event (ds_docstatus current) d))
      | None => Ok None
      end
  | PWorkflowTransitioned _ _ _ _ _ patch =>
      if negb (isCurrentWorkflowTransitionPayload (e_payload event)) then Ok snapshot
      else match snapshot, patch with
      | Some current, VObj patch =>
          patch' ← cloneData patch;
          Ok (Some (touch current event (ds_docstatus current) (jm_spread (ds_data current) patch')))
      | _, _ => Ok snapshot
      end
  | PDomainCommandApplied _ _ patch _ =>
      match snapshot with
      | Some current =>
          patch' ← cloneData patch;
          Ok (Some (touch current event (ds_docstatus current) (jm_spread (ds_data current) patch')))
      | None => Ok None
      end
  | PDocumentDeleted =>
      Ok ((λ current, touch current event Deleted (ds_data current)) <$> snapshot)
  | PDocumentSubmitted =>
      Ok ((λ current, touch current event Submitted (ds_data current)) <$> snapshot)
  | PDocumentCancelled =>
      Ok ((λ current, touch current event Cancelled (ds_data current)) <$> snapshot)
  | PDocumentCommentAdded _ | PDocumentActivityRecorded _ _ _ _ _
  | PDocumentAssigned _ | PDocumentUnassigned _ | PDocumentTagged _ | PDocumentUntagged _
  | PDocumentFollowed _ | PDocumentUnfollowed _ | PDocumentShared _ _ | PDocumentShareRevoked _ =>
      Ok ((λ current, touch current event (ds_docstatus current) (ds_data current)) <$> snapshot)
  | _ => Ok snapshot
  end.

Definition foldDocumentFrom (initialSnapshot : option DocumentSnapshot) (events : list DomainEvent)
    : res (option DocumentSnapshot) :=
  snapshot ← match initialSnapshot with
             | Some s => s' ← cloneSnapshot s; Ok (Some s')
             | None => Ok None
             end;
  foldl_res foldDocumentStep snapshot (sort_events events).

Definition foldDocument (events : list DomainEvent) : res (option DocumentSnapshot) :=
  foldDocumentFrom None events.

(** *** Lemmas *)

Lemma clone_fields_id (d : data) : prod_map id cloneJsonValue <$> d = d.
Proof.
  induction d as [|[k v] d IH]; [done|]. rewrite fmap_cons, IH.
  unfold prod_map. simpl. by rewrite cloneJsonValue_id.
Qed.

Lemma cloneData_ok d d' : cloneData d = Ok d' ↔ isJsonData d = true ∧ d' = d.
Proof.
  unfold cloneData. rewrite clone_fields_id. destruct (isJsonData d); split; naive_solver.
Qed.

Lemma cloneData_json d : isJsonData d = true → cloneData d = Ok d.
Proof. intros H. by apply cloneData_ok. Qed.

Lemma cloneSnapshot_ok s s' : cloneSnapshot s = Ok s' ↔ isJsonData (ds_data s) = true ∧ s' = s.
Proof.
  unfold cloneSnapshot, cloneData. rewrite clone_fields_id.
  destruct (isJsonData (ds_data s)); simpl; split.
  - intros [= <-]. by destruct s.
  - intros [_ ->]. by destruct s.
  - done.
  - by intros [? _].
Qed.

(** JSON data is closed under the operations of the fold. *)
Lemma isJsonData_set k v d :
  isJsonValue v = true → isJsonData d = true → isJsonData (jm_set k v d) = true.
Proof.
  rewrite !isJsonData_forallb. intros Hv. induction d as [|[j w] d IH]; simpl; [by rewrite Hv|].
  intros [Hw Hd]%andb_prop. destruct (decide (k = j)); simpl; [by rewrite Hv, Hd|].
  by rewrite Hw, IH.
Qed.

Lemma isJsonData_spread d patch :
  isJsonData d = true → isJsonData patch = true → isJsonData (jm_spread d patch) = true.
Proof.
  unfold jm_spread. rewrite (isJsonData_forallb patch). revert d.
  induction patch as [|[k v] patch IH]; intros d Hd; simpl; [done|].
  intros [Hv Hp]%andb_prop. apply IH; [by apply isJsonData_set|done].
Qed.

Lemma isJsonData_delete k d : isJsonData d = true → isJsonData (jm_delete k d) = true.
Proof.
  rewrite !isJsonData_forallb. induction d as [|[j w] d IH]; simpl; [done|].
  intros [Hw Hd]%andb_prop. destruct (decide (k = j)); simpl; [done|]. by rewrite Hw, IH.
Qed.

Lemma isJsonData_unset unset d :
  isJsonData d = true → isJsonData (foldl (λ next field, jm_delete field next) d unset) = true.
Proof. revert d. induction unset; intros d Hd; simpl; auto using isJsonData_delete. Qed.

#[local] Hint Resolve isJsonData_spread isJsonData_unset : cff.

Definition json_state (s : option DocumentSnapshot) : Prop :=
  match s with Some s => isJsonData (ds_data s) = true | None => True end.

(** The data of a folded document is a JSON object. *)
Lemma foldDocumentStep_json s event s' :
  json_state s → foldDocumentStep s event = Ok s' → json_state s'.
Proof.
  unfold foldDocumentStep, applyDocumentDataChange, json_state. intros Hs H.
  destruct (e_payload event); destruct s as [s|]; simpl in H;
    repeat first
      [ progress inv_res
      | match goal with
        | H : cloneData _ = Ok _ |- _ => apply cloneData_ok in H as [? ->]
        | H : (if ?b then _ else _) = Ok _ |- _ => destruct b
        | H : match ?v with VUndef => _ | _ => _ end = Ok _ |- _ => destruct v
        end ];
    simpl; auto with cff.
Qed.

Lemma foldDocumentFrom_json init events s :
  foldDocumentFrom init events = Ok s → json_state s.
Proof.
  unfold foldDocumentFrom. intros H. inv_res. eapply foldl_res_inv; [| |eassumption].
  - destruct init; inv_res; [|done]. apply cloneSnapshot_ok in H as [? ->]. done.
  - intros a e a' _. apply foldDocumentStep_json.
Qed.

Lemma initial_clone s : json_state s →
  match s with
  | Some s => s' ← cloneSnapshot s; Ok (Some s')
  | None => Ok None
  end = Ok s.
Proof.
  destruct s as [s|]; simpl; [|done]. intros H.
  by rewrite (proj2 (cloneSnapshot_ok s s)).
Qed.

(** *** Properties *)

(** A fold over an ordered concatenation is the fold of the second part from
    the result of the first. *)
Lemma foldDocumentFrom_app init prefix tail :
  follows prefix tail →
  foldDocumentFrom init (prefix ++ tail) =
  foldDocumentFrom init prefix ≫= λ s, foldDocumentFrom s tail.
Proof.
  intros Hf. unfold foldDocumentFrom. rewrite sort_events_app by done.
  destruct (match init with Some _ => _ | None => _ end) as [s0|e] eqn:E0; simpl; [|done].
  rewrite foldl_res_app. destruct (foldl_res _ s0 _) as [s|e] eqn:Es; simpl; [|done].
  rewrite initial_clone; [done|].
  apply (foldDocumentFrom_json init prefix). unfold foldDocumentFrom. by rewrite E0.
Qed.

(** folding a document from a state already folded from a prefix of its
    stream gives what folding the whole stream gives; a failure of the prefix
    is a failure of the whole. *)
Theorem foldDocument_resume prefix tail :
  follows prefix tail →
  foldDocument (prefix ++ tail) = foldDocument prefix ≫= λ s, foldDocumentFrom s tail.
Proof. apply foldDocumentFrom_app. Qed.

Lemma foldDocument_resume_witness :
  follows [sample_created; sample_updated] [sample_submitted] ∧
  foldDocument sample_history =
    foldDocument [sample_created; sample_updated] ≫= λ s, foldDocumentFrom s [sample_submitted].
Proof.
  assert (follows [sample_created; sample_updated] [sample_submitted]) as H by by apply follows_check.
  split; [exact H|]. exact (foldDocument_resume _ _ H).
Defined.

(** the fold depends on the events, not on the order a store returns them
    in, when no two share a sequence number. *)
Theorem foldDocument_order init events events' :
  NoDup (e_sequence <$> events) → events ≡ₚ events' →
  foldDocumentFrom init events = foldDocumentFrom init events'.
Proof.
  intros Hnd Hp. unfold foldDocumentFrom. by rewrite (sort_events_perm _ _ Hnd Hp).
Qed.

Lemma foldDocument_order_witness :
  foldDocumentFrom None sample_history = foldDocumentFrom None (reverse sample_history).
Proof.
  apply (foldDocument_order None sample_history (reverse sample_history)).
  - apply (bool_decide_unpack _). vm_compute. exact I.
  - symmetry. apply reverse_Permutation.
Defined.

(** The kinds of events a document's own stream carries after its creation. *)
Definition documentKind (p : payload) : bool :=
  match p with
  | PDocumentCreated _ _ | PDocumentUpdated _ _ | PDocumentDeleted | PDocumentSubmitted
  | PDocumentCancelled | PDomainCommandApplied _ _ _ _ | PDocumentCommentAdded _
  | PDocumentActivityRecorded _ _ _ _ _ | PDocumentAssigned _ | PDocumentUnassigned _
  | PDocumentTagged _ | PDocumentUntagged _ | PDocumentFollowed _ | PDocumentUnfollowed _
  | PDocumentShared _ _ | PDocumentShareRevoked _ => true
  | PWorkflowTransitioned _ _ _ _ _ _ => isCurrentWorkflowTransitionPayload p
  | _ => false
  end.

(** A stream as a store keeps it: sequences 1, 2, ..., n in order. *)
Definition contiguous (events : list DomainEvent) : Prop :=
  ∀ i e, events !! i = Some e → e_sequence e = Z.of_nat (S i).

Fixpoint contiguousb (n : Z) (events : list DomainEvent) : bool :=
  match events with
  | [] => true
  | e :: rest => (e_sequence e =? n)%Z && contiguousb (n + 1) rest
  end.

Lemma contiguousb_spec n events :
  contiguousb n events = true → ∀ i e, events !! i = Some e → e_sequence e = (n + Z.of_nat i)%Z.
Proof.
  revert n. induction events as [|x events IH]; intros n; simpl; [done|].
  intros [Hx H]%andb_prop [|i] e Hi; simpl in Hi; [|rewrite (IH _ H _ _ Hi); lia].
  injection Hi as <-. apply Z.eqb_eq in Hx. lia.
Qed.

Lemma contiguous_check events : contiguousb 1 events = true → contiguous events.
Proof. intros H i e Hi. rewrite (contiguousb_spec _ _ H _ _ Hi). lia. Qed.

Lemma contiguous_app_inv l1 l2 : contiguous (l1 ++ l2) → contiguous l1.
Proof. intros H i e Hi. apply H. by apply lookup_app_l_Some. Qed.

Lemma contiguous_strongly_sorted events : contiguous events → StronglySorted seq_leb events.
Proof.
  intros H. induction events as [|e events IH] using rev_ind; [constructor|].
  apply StronglySorted_app. split_and!; [|by eapply IH, contiguous_app_inv|repeat constructor].
  intros x y [i Hi]%list_elem_of_lookup ->%list_elem_of_singleton.
  apply Is_true_true, Z.leb_le.
  rewrite (H i x) by by apply lookup_app_l_Some.
  rewrite (H (length events) e) by by rewrite lookup_app_r, Nat.sub_diag.
  apply lookup_lt_Some in Hi. lia.
Qed.

Lemma contiguous_sorted events : contiguous events → sort_events events = events.
Proof. intros H. by apply isort_id, contiguous_strongly_sorted. Qed.

(** A filtered stream is still in order. *)
Lemma contiguous_sorted_filter (P : DomainEvent → Prop) `{∀ e, Decision (P e)} events :
  contiguous events → sort_events (filter P events) = filter P events.
Proof. intros H'. by apply isort_id, StronglySorted_filter, contiguous_strongly_sorted. Qed.

Lemma contiguous_bound events (e : DomainEvent) :
  contiguous events → e ∈ events → (e_sequence e <= Z.of_nat (length events))%Z.
Proof. intros Hc [i Hi]%list_elem_of_lookup. rewrite (Hc _ _ Hi). apply lookup_lt_Some in Hi. lia. Qed.

Lemma contiguous_nodup events : contiguous events → NoDup (e_sequence <$> events).
Proof.
  intros H. apply NoDup_alt. intros i j z. rewrite !list_lookup_fmap.
  destruct (events !! i) eqn:Ei, (events !! j) eqn:Ej; simpl; try done.
  intros [= <-] [= E]. rewrite (H _ _ Ei), (H _ _ Ej) in E. lia.
Qed.

(** Every document event advances the version to its own sequence. *)
Lemma foldDocumentStep_version current (event : DomainEvent) :
  isJsonData (ds_data current) = true →
  documentKind (e_payload event) = true → payloadIsJson (e_payload event) = true →
  ∃ s, foldDocumentStep (Some current) event = Ok (Some s) ∧ ds_version s = e_sequence event.
Proof.
  intros Hc Hk Hj. unfold foldDocumentStep, applyDocumentDataChange.
  destruct (e_payload event) eqn:Ep; try discriminate Hk; simpl in *;
    try (apply andb_prop in Hj as [Hj1 Hj2]);
    rewrite ?cloneData_json by done; simpl; eauto.
  rewrite Hk. simpl. destruct patch;
    try (repeat (apply andb_prop in Hk as [Hk ?]); done).
  unfold isCurrentWorkflowTransitionPayload in Hk.
  repeat (apply andb_prop in Hk as [Hk ?]). rewrite cloneData_json by done. simpl. eauto.
Qed.

(** the version of a folded document is the number of events of its stream,
    so it is the [expectedVersion] of the next append. *)
Theorem foldDocument_version events :
  contiguous events → events ≠ [] →
  (∃ (e : DomainEvent) d st, head events = Some e ∧ e_payload e = PDocumentCreated d st) →
  (∀ e : DomainEvent, e ∈ events → documentKind (e_payload e) = true ∧ payloadIsJson (e_payload e) = true) →
  ∃ s, foldDocument events = Ok (Some s) ∧ ds_version s = Z.of_nat (length events).
Proof.
  intros Hcont Hne (e0 & d & st & Hhead & Hp0) Hall.
  unfold foldDocument, foldDocumentFrom. simpl. rewrite contiguous_sorted by done.
  destruct events as [|e events]; [done|]. simpl in Hhead. injection Hhead as ->. clear Hne.
  cut (∃ s, foldl_res foldDocumentStep None (e0 :: events) = Ok (Some s) ∧
            ds_version s = Z.of_nat (length (e0 :: events)) ∧ isJsonData (ds_data s) = true).
  { intros (s & H1 & H2 & _). eauto. }
  induction events as [|e events IH] using rev_ind.
  - destruct (Hall e0 ltac:(left)) as [_ Hj]. rewrite Hp0 in Hj. simpl in Hj. simpl.
    unfold foldDocumentStep. rewrite Hp0, cloneData_json by done. simpl.
    eexists. split_and!; [done| |done]. simpl. by rewrite (Hcont 0 e0).
  - rewrite app_comm_cons in Hcont, Hall |- *.
    destruct IH as (s & Hs & Hv & Hj).
    { by eapply contiguous_app_inv. }
    { intros x Hx. apply Hall. apply elem_of_app. by left. }
    rewrite foldl_res_app, Hs. simpl.
    destruct (Hall e) as [Hk Hpj]; [apply elem_of_app; right; left|].
    destruct (foldDocumentStep_version s e Hj Hk Hpj) as (s' & Hs' & Hv').
    rewrite Hs'. simpl. eexists. split_and!; [done| |].
    + rewrite Hv', (Hcont (length (e0 :: events)) e).
      * rewrite length_app. simpl. lia.
      * by rewrite lookup_app_r, Nat.sub_diag.
    + apply (foldDocumentStep_json (Some s) e (Some s')); done.
Qed.

Lemma foldDocument_version_witness :
  ∃ s, foldDocument sample_history = Ok (Some s) ∧ ds_version s = 3%Z.
Proof.
  apply (foldDocument_version sample_history); [by apply contiguous_check|done| |].
  - exists sample_created. eexists _, _. split; reflexivity.
  - intros e He. apply andb_true_iff.
    revert e He. apply (forallb_In (λ e : DomainEvent, documentKind (e_payload e) && payloadIsJson (e_payload e))).
    vm_compute. reflexivity.
Defined.

(** ** Assignees, tags and followers: sets folded from their own events *)

Inductive set_op := SAdd (x : jstr) | SRemove (x : jstr).

Definition apply_set_op (set : list jstr) (o : option set_op) : list jstr :=
  match o with
  | Some (SAdd x) => js_add x set
  | Some (SRemove x) => js_remove x set
  | None => set
  end.

Section set_folds.
Context `{Collation}.

(** [new Set(initial ?? [])], the loop, and the final sort. *)
Definition foldSetFrom (op : payload → option set_op) (initial : option (list jstr))
    (events : list DomainEvent) : list jstr :=
  locale_sort (foldl (λ set (event : DomainEvent), apply_set_op set (op (e_payload event)))
                 (js_unique (default [] initial)) (sort_events events)).

Definition assignment_op (p : payload) : option set_op :=
  match p with
  | PDocumentAssigned assigneeId => Some (SAdd assigneeId)
  | PDocumentUnassigned assigneeId => Some (SRemove assigneeId)
  | _ => None
  end.

Definition foldDocumentAssignmentsFrom := foldSetFrom assignment_op.
Definition foldDocumentAssignments := foldDocumentAssignmentsFrom None.

Definition tag_op (p : payload) : option set_op :=
  match p with
  | PDocumentTagged tag => Some (SAdd tag)
  | PDocumentUntagged tag => Some (SRemove tag)
  | _ => None
  end.

Definition foldDocumentTagsFrom := foldSetFrom tag_op.
Definition foldDocumentTags := foldDocumentTagsFrom None.

Definition follower_op (p : payload) : option set_op :=
  match p with
  | PDocumentFollowed followerId => Some (SAdd followerId)
  | PDocumentUnfollowed followerId => Some (SRemove followerId)
  | _ => None
  end.

Definition foldDocumentFollowersFrom := foldSetFrom follower_op.
Definition foldDocumentFollowers := foldDocumentFollowersFrom None.

Lemma apply_set_op_elem set o x :
  x ∈ apply_set_op set o ↔
  default (bool_decide (x ∈ set))
    (match o with
     | Some (SAdd y) => if decide (x = y) then Some true else None
     | Some (SRemove y) => if decide (x = y) then Some false else None
     | None => None
     end) = true.
Proof.
  destruct o as [[y|y]|]; simpl; [rewrite js_add_elem|rewrite js_remove_elem|];
    try (destruct (decide (x = y)); simpl); rewrite ?bool_decide_eq_true; naive_solver.
Qed.

Lemma foldl_set_elem op set events x :
  x ∈ foldl (λ set (event : DomainEvent), apply_set_op set (op (e_payload event))) set events ↔
  foldl (λ b (event : DomainEvent), default b
    (match op (e_payload event) with
     | Some (SAdd y) => if decide (x = y) then Some true else None
     | Some (SRemove y) => if decide (x = y) then Some false else None
     | None => None
     end)) (bool_decide (x ∈ set)) events = true.
Proof.
  revert set. induction events as [|e events IH]; intros set; simpl;
    [by rewrite bool_decide_eq_true|].
  rewrite IH. f_equiv. f_equal. apply eq_iff_eq_true.
  by rewrite bool_decide_eq_true, apply_set_op_elem.
Qed.

(** after the fold, [x] is in the set exactly when some event adds it and
    no later event removes it (or it was there and none removes it). *)
Theorem foldSetFrom_elem op initial events x :
  x ∈ foldSetFrom op initial events ↔
  (∃ l1 (e : DomainEvent) l2, sort_events events = l1 ++ e :: l2 ∧
     op (e_payload e) = Some (SAdd x) ∧
     ∀ e' : DomainEvent, e' ∈ l2 → op (e_payload e') ≠ Some (SRemove x)) ∨
  (x ∈ default [] initial ∧
     ∀ e : DomainEvent, e ∈ events → op (e_payload e) ≠ Some (SRemove x)).
Proof.
  assert (Heff : ∀ o b, match o with
    | Some (SAdd y) => if decide (x = y) then Some true else None
    | Some (SRemove y) => if decide (x = y) then Some false else None
    | None => None end = Some b ↔ o = Some (if b then SAdd x else SRemove x)).
  { intros [[y|y]|] []; try destruct (decide (x = y)); naive_solver. }
  unfold foldSetFrom. rewrite elem_of_locale_sort, foldl_set_elem, foldl_flag.
  rewrite bool_decide_eq_true, js_unique_elem.
  setoid_rewrite Heff. unfold sort_events. by setoid_rewrite elem_of_isort.
Qed.

(** the set folds resume from their own result: the same members, and the
    same list when the collation tells all strings apart. *)
Theorem foldSetFrom_resume op initial prefix tail :
  follows prefix tail →
  foldSetFrom op (Some (foldSetFrom op initial prefix)) tail
    ≡ₚ foldSetFrom op initial (prefix ++ tail) ∧
  (collation_separates →
   foldSetFrom op (Some (foldSetFrom op initial prefix)) tail
    = foldSetFrom op initial (prefix ++ tail)).
Proof.
  intros Hf. unfold foldSetFrom. rewrite sort_events_app, foldl_app by done. simpl.
  set (f := λ set (event : DomainEvent), apply_set_op set (op (e_payload event))).
  set (s := foldl f (js_unique (default [] initial)) (sort_events prefix)).
  assert (Hnd : ∀ l events, NoDup l → NoDup (foldl f l events)).
  { intros l events. revert l. induction events as [|e events IH]; intros l Hl; [done|].
    apply IH. unfold f, apply_set_op.
    destruct (op (e_payload e)) as [[]|]; auto with cff. }
  assert (Hs : NoDup s) by (apply Hnd, js_unique_nodup).
  rewrite js_unique_id by by apply isort_nodup.
  assert (Hp : ∀ l l' events, l ≡ₚ l' → NoDup l → foldl f l events ≡ₚ foldl f l' events).
  { intros l l' events Hl Hl'. apply NoDup_Permutation; [by apply Hnd|apply Hnd; by rewrite <-Hl|].
    intros x. unfold f. rewrite !foldl_set_elem.
    assert (bool_decide (x ∈ l) = bool_decide (x ∈ l')) as ->; [|done].
    apply bool_decide_ext. by rewrite Hl. }
  split.
  - unfold locale_sort.
    rewrite (isort_perm _ (foldl f (isort _ s) _)), (isort_perm _ (foldl f s _)).
    apply Hp; [by apply isort_perm|by apply isort_nodup].
  - intros Hsep. apply locale_sort_perm; [done|].
    apply Hp; [by apply isort_perm|by apply isort_nodup].
Qed.
End set_folds.

Lemma foldSetFrom_resume_witness :
  let prefix := [sample_event 1 (PDocumentTagged (js "b")); sample_event 2 (PDocumentTagged (js "a"))] in
  let tail := [sample_event 3 (PDocumentUntagged (js "b")); sample_event 4 (PDocumentTagged (js "c"))] in
  @foldSetFrom code_unit_collation tag_op
    (Some (@foldSetFrom code_unit_collation tag_op None prefix)) tail ≡ₚ [js "a"; js "c"].
Proof.
  intros prefix tail.
  assert (follows prefix tail) as H by by apply follows_check.
  destruct (@foldSetFrom_resume code_unit_collation tag_op None prefix tail H) as [Hp _].
  etrans; [exact Hp|]. reflexivity.
Defined.
