(* ===== verification/Lifecycle.v ===== *)
(** * Lifecycle: the events of a document's life and their projections

    Models [application/document-lifecycle-events.ts].  A commit stores, beside the
    event, the snapshot projected from it; the lemmas show that this snapshot is
    the one that folding the event gives, so that a reader of snapshots and a reader
    of streams see the same document. *)

From S2P Require Export Fold.

(** ** Payloads and types of events *)

Inductive LifecycleKind := KCreated | KUpdated | KDeleted | KSubmitted | KCancelled.

Definition DOCUMENT_LIFECYCLE_PAYLOAD_KINDS : list jstr :=
  [js "DocumentCreated"; js "DocumentUpdated"; js "DocumentDeleted"; js "DocumentSubmitted"; js "DocumentCancelled"].

(** [documentCreatedPayload(data, docstatus)]. *)
Definition documentCreatedPayload (d : data) (docstatus : DocStatus) : payload := PDocumentCreated d docstatus.

(** [documentUpdatedPayload(patch, unset)]. *)
Definition documentUpdatedPayload (patch : data) (unset : list jstr) : payload :=
  PDocumentUpdated patch (match unset with [] => None | _ => Some unset end).

(** [documentDeletedPayload()]. *)
Definition documentDeletedPayload : payload := PDocumentDeleted.

(** [documentStatusChangedPayload(kind)]. *)
Definition documentStatusChangedPayload (cancelled : bool) : payload :=
  if cancelled then PDocumentCancelled else PDocumentSubmitted.

Record DocumentLifecycleEventTypeOptions := {
  let_doctypeName : jstr;
  let_kind : LifecycleKind;
  let_commandEventType : option jstr;
  let_createEventType : option jstr;
  let_updateEventType : option jstr;
  let_submitEventType : option jstr;
  let_cancelEventType : option jstr;
  let_deleteEventType : option jstr
}.

(** [a ?? b]. *)
Definition coalesce (a b : option jstr) : option jstr := match a with Some _ => a | None => b end.

(** [documentLifecycleEventType(options)]. *)
Definition documentLifecycleEventType (options : DocumentLifecycleEventTypeOptions) : jstr :=
  let name := let_doctypeName options in
  match let_kind options with
  | KCreated => default (name ++ js "Created") (coalesce (let_commandEventType options) (let_createEventType options))
  | KUpdated => default (name ++ js "Updated") (coalesce (let_commandEventType options) (let_updateEventType options))
  | KSubmitted => default (name ++ js "Submitted") (let_submitEventType options)
  | KCancelled => default (name ++ js "Cancelled") (let_cancelEventType options)
  | KDeleted => default (name ++ js "Deleted") (let_deleteEventType options)
  end.

(** [isDocumentLifecyclePayloadKind(kind)]. *)
Definition isDocumentLifecyclePayloadKind (kind : jstr) : bool := bool_decide (kind ∈ DOCUMENT_LIFECYCLE_PAYLOAD_KINDS).

(** [isDocumentLifecycleEvent(event)]. *)
Definition isDocumentLifecycleEvent (event : DomainEvent) : bool :=
  isDocumentLifecyclePayloadKind (domainEventPayloadKind event).

(** ** Snapshots *)

(** [snapshotFromDocumentCreatedEvent(event)]; the error is a plain [Error]. *)
Definition snapshotFromDocumentCreatedEvent (event : DomainEvent) : res DocumentSnapshot :=
  match e_payload event with
  | PDocumentCreated d docstatus =>
      Ok {| ds_tenantId := e_tenantId event; ds_doctype := e_doctype event; ds_name := e_documentName event;
            ds_version := e_sequence event; ds_docstatus := docstatus; ds_data := d;
            ds_createdAt := e_occurredAt event; ds_updatedAt := e_occurredAt event |}
  | _ => Throw (FrameworkError PLAIN_ERROR 500)
  end.

(** [snapshotFromCommittedDocumentEvent(existing, event, projection)]. *)
Definition snapshotFromCommittedDocumentEvent (existing : DocumentSnapshot) (event : DomainEvent)
    (d : option data) (docstatus : option DocStatus) : DocumentSnapshot :=
  {| ds_tenantId := ds_tenantId existing; ds_doctype := ds_doctype existing; ds_name := ds_name existing;
     ds_version := e_sequence event; ds_docstatus := default (ds_docstatus existing) docstatus;
     ds_data := default (ds_data existing) d; ds_createdAt := ds_createdAt existing;
     ds_updatedAt := e_occurredAt event |}.

(** [requireLiveDocumentSnapshot(input)]. *)
Definition requireLiveDocumentSnapshot (snapshot : option DocumentSnapshot) : res DocumentSnapshot :=
  match snapshot with
  | None => Throw (notFound DOCUMENT_NOT_FOUND)
  | Some s =>
      _ ← ensure (negb (bool_decide (ds_docstatus s = Deleted))) (FrameworkError DOCUMENT_DELETED 410);
      Ok s
  end.

(** [requireSavedEvent(events, id)]. *)
Definition requireSavedEvent (events : list DomainEvent) (id : jstr) : res DomainEvent :=
  match List.find (λ e : DomainEvent, bool_decide (e_id e = id)) events with
  | Some event => Ok event
  | None => Throw (FrameworkError BAD_REQUEST 500)
  end.

(** [requireFirstSavedEvent(events)]. *)
Definition requireFirstSavedEvent (events : list DomainEvent) : res DomainEvent :=
  match events with
  | event :: _ => Ok event
  | [] => Throw (FrameworkError BAD_REQUEST 500)
  end.

(** ** Projections are folds *)

Lemma created_projection (event : DomainEvent) s existing :
  event_json event = true → snapshotFromDocumentCreatedEvent event = Ok s →
  foldDocumentStep existing event = Ok (Some s).
Proof.
  unfold snapshotFromDocumentCreatedEvent, foldDocumentStep, event_json. intros Hj Hs.
  destruct (e_payload event); try done. injection Hs as <-. apply andb_true_iff in Hj as [Hj _].
  cbn [payloadIsJson] in Hj. by rewrite cloneData_json.
Qed.

Lemma updated_projection (event : DomainEvent) existing patch unset :
  e_payload event = documentUpdatedPayload patch unset → event_json event = true →
  isJsonData (ds_data existing) = true →
  foldDocumentStep (Some existing) event =
  Ok (Some (snapshotFromCommittedDocumentEvent existing event
    (Some (foldl (λ next field, jm_delete field next) (jm_spread (ds_data existing) patch) unset)) None)).
Proof.
  unfold foldDocumentStep, event_json, applyDocumentDataChange. intros E Hj Hd. rewrite E in Hj |- *.
  apply andb_true_iff in Hj as [Hj _]. unfold documentUpdatedPayload in Hj |- *. cbn in Hj.
  rewrite !cloneData_json by done. by destruct unset.
Qed.

(** The status changes: submission, cancellation and deletion. *)
Definition status_after (p : payload) : option DocStatus :=
  match p with
  | PDocumentSubmitted => Some Submitted
  | PDocumentCancelled => Some Cancelled
  | PDocumentDeleted => Some Deleted
  | _ => None
  end.

Lemma status_projection (event : DomainEvent) existing docstatus :
  status_after (e_payload event) = Some docstatus →
  foldDocumentStep (Some existing) event =
  Ok (Some (snapshotFromCommittedDocumentEvent existing event None (Some docstatus))).
Proof. unfold foldDocumentStep. destruct (e_payload event); try done; by intros [= <-]. Qed.

(** The snapshot that a commit projects from a lifecycle event is the fold of that
    event: whether the document is created, changed, submitted, cancelled or
    deleted, reading the stored snapshot and folding the stream agree. *)
Theorem lifecycle_projection_fold (event : DomainEvent) existing patch unset docstatus s :
  event_json event = true → isJsonData (ds_data existing) = true →
  (snapshotFromDocumentCreatedEvent event = Ok s → foldDocumentFrom None [event] = Ok (Some s)) ∧
  (e_payload event = documentUpdatedPayload patch unset →
   foldDocumentFrom (Some existing) [event] =
   Ok (Some (snapshotFromCommittedDocumentEvent existing event
     (Some (foldl (λ next field, jm_delete field next) (jm_spread (ds_data existing) patch) unset)) None))) ∧
  (status_after (e_payload event) = Some docstatus →
   foldDocumentFrom (Some existing) [event] =
   Ok (Some (snapshotFromCommittedDocumentEvent existing event None (Some docstatus)))).
Proof.
  intros Hj Hd. unfold foldDocumentFrom. rewrite (proj2 (cloneSnapshot_ok existing existing)) by done.
  change (sort_events [event]) with [event]. cbn [mbind res_bind foldl_res]. split_and!.
  - intros Hs. by rewrite (created_projection event s).
  - intros E. by rewrite (updated_projection event existing patch unset).
  - intros E. by rewrite (status_projection event existing docstatus).
Qed.

(** ** Witness *)

Definition sample_lifecycle_event (n : Z) (p : payload) : DomainEvent :=
  {| e_new := {| e_id := js "evt_" ++ dec (Z.to_N n); e_tenantId := js "acme"; e_stream := js "acme:Note:N-1";
                 e_type := js "NoteChanged"; e_doctype := js "Note"; e_documentName := js "N-1";
                 e_actorId := js "ada"; e_occurredAt := js "2026-01-01T00:00:00.000Z"; e_payload := p;
                 e_metadata := [] |};
     e_sequence := n |}.

Definition sample_note : DocumentSnapshot :=
  {| ds_tenantId := js "acme"; ds_doctype := js "Note"; ds_name := js "N-1"; ds_version := 1; ds_docstatus := Draft;
     ds_data := [(js "title", vstr "a"); (js "body", vstr "b")]; ds_createdAt := js "2026-01-01T00:00:00.000Z";
     ds_updatedAt := js "2026-01-01T00:00:00.000Z" |}.

Definition sample_note_update : DomainEvent :=
  sample_lifecycle_event 2 (documentUpdatedPayload [(js "title", vstr "c")] [js "body"]).

Lemma lifecycle_projection_fold_witness :
  foldDocumentFrom (Some sample_note) [sample_note_update] =
  Ok (Some (snapshotFromCommittedDocumentEvent sample_note sample_note_update (Some [(js "title", vstr "c")]) None)).
Proof.
  destruct (lifecycle_projection_fold sample_note_update sample_note [(js "title", vstr "c")] [js "body"] Draft sample_note)
    as (_ & H & _); [by vm_compute|by vm_compute|].
  exact (H eq_refl).
Defined.
