(* ===== verification/EventStore.v ===== *)
(** * EventStore: append-only streams with optimistic concurrency

    Models [adapters/in-memory/event-store.ts] and
    [adapters/in-memory/document-store.ts] (the ports are
    [ports/event-store.ts] and [ports/document-store.ts]).  A store keeps a map
    from stream names to their events, and the document store also a map of
    projected snapshots.  [StreamLog] is what the stores promise to a reader;
    the in-memory store implements it. *)

From S2P Require Export Fold.
From stdpp Require Export base option list.

(** ** The port *)

Record ReadStreamOptions := {
  rso_minSequence : option Z;
  rso_maxSequence : option Z;
  rso_limit : option Z;
  rso_payloadKinds : option (list jstr)
}.

Definition no_options : ReadStreamOptions :=
  {| rso_minSequence := None; rso_maxSequence := None; rso_limit := None; rso_payloadKinds := None |}.

Definition from_sequence (minSequence : Z) : ReadStreamOptions :=
  {| rso_minSequence := Some minSequence; rso_maxSequence := None; rso_limit := None;
     rso_payloadKinds := None |}.

Record AppendEntry := {
  ae_stream : jstr;
  ae_expectedVersion : Z;
  ae_events : list NewDomainEvent
}.

Record BatchProjection := {
  bp_snapshot : DocumentSnapshot;
  bp_auxiliarySnapshots : option (list DocumentSnapshot)
}.

Record DocumentCommit := {
  dc_events : list DomainEvent;
  dc_snapshot : DocumentSnapshot
}.

(** ** The stores *)

Abbreviation streams_map := (list (jstr * list DomainEvent)).

Record DocumentStore := {
  st_streams : streams_map;
  st_documents : list (jstr * DocumentSnapshot)
}.

Definition empty_store : DocumentStore := {| st_streams := []; st_documents := [] |}.

Definition with_streams (f : streams_map → streams_map) (s : DocumentStore) : DocumentStore :=
  {| st_streams := f (st_streams s); st_documents := st_documents s |}.

(** [this.streams.get(stream) ?? []]. *)
Definition stream_events (streams : streams_map) (stream : jstr) : list DomainEvent :=
  default [] (jm_get stream streams).

(** [currentVersion(stream)]. *)
Definition currentVersion (streams : streams_map) (stream : jstr) : Z :=
  Z.of_nat (length (stream_events streams stream)).

(** [append(stream, expectedVersion, events)]. *)
Definition append (stream : jstr) (expectedVersion : Z) (events : list NewDomainEvent)
    : M streams_map (list DomainEvent) :=
  streams ← m_get;
  let current := stream_events streams stream in
  _ ← m_ensure (Z.of_nat (length current) =? expectedVersion)%Z conflict;
  saved ← m_lift (sequenceEvents expectedVersion events);
  copies ← m_lift (map_res cloneDomainEvent saved);
  _ ← m_put (jm_set stream (current ++ copies) streams);
  mret saved.

(** The first loop of [appendBatch] and [commitBatch]: every entry is checked
    before anything is written. *)
Definition check_entry (streams : streams_map) (entry : AppendEntry) : res unit :=
  ensure (Z.of_nat (length (stream_events streams (ae_stream entry))) =? ae_expectedVersion entry)%Z
    conflict.

Definition check_entries (streams : streams_map) (entries : list AppendEntry) : res unit :=
  foldl_res (λ _ entry, check_entry streams entry) tt entries.

(** [entries.flatMap((entry) => sequenceEvents(entry.expectedVersion, entry.events))]. *)
Definition sequence_entries (entries : list AppendEntry) : res (list DomainEvent) :=
  groups ← map_res (λ entry, sequenceEvents (ae_expectedVersion entry) (ae_events entry)) entries;
  Ok (concat groups).

(** The second loop: each entry's stream receives the saved events that name it. *)
Definition write_entry (saved : list DomainEvent) (entry : AppendEntry) : M streams_map unit :=
  streams ← m_get;
  let current := stream_events streams (ae_stream entry) in
  let mine := filter (λ event : DomainEvent, e_stream event = ae_stream entry) saved in
  copies ← m_lift (map_res cloneDomainEvent mine);
  m_put (jm_set (ae_stream entry) (current ++ copies) streams).

(** [appendBatch(entries)]. *)
Definition appendBatch (entries : list AppendEntry) : M streams_map (list DomainEvent) :=
  streams ← m_get;
  _ ← m_lift (check_entries streams entries);
  saved ← m_lift (sequence_entries entries);
  _ ← m_each (write_entry saved) entries;
  mret saved.

(** Running an event-store operation on the streams of a document store. *)
Definition on_streams {A} (m : M streams_map A) : M DocumentStore A := λ s,
  let (r, streams) := m (st_streams s) in (r, with_streams (λ _, streams) s).

(** [key(tenantId, doctype, name)]. *)
Definition document_key (tenantId doctype name : jstr) : jstr :=
  tenantId ++ js ":" ++ doctype ++ js ":" ++ name.

Definition snapshot_key_of (s : DocumentSnapshot) : jstr :=
  document_key (ds_tenantId s) (ds_doctype s) (ds_name s).

(** [save(snapshot)]. *)
Definition save (snapshot : DocumentSnapshot) : M DocumentStore unit :=
  copy ← m_lift (cloneDocumentSnapshot snapshot);
  s ← m_get;
  m_put {| st_streams := st_streams s;
           st_documents := jm_set (snapshot_key_of snapshot) copy (st_documents s) |}.

(** [get(tenantId, doctype, name)]. *)
Definition get_document (tenantId doctype name : jstr) (s : DocumentStore)
    : res (option DocumentSnapshot) :=
  match jm_get (document_key tenantId doctype name) (st_documents s) with
  | Some snapshot => copy ← cloneDocumentSnapshot snapshot; Ok (Some copy)
  | None => Ok None
  end.

(** [commitBatch(entries, project)]. *)
Definition commitBatch (entries : list AppendEntry)
    (project : list DomainEvent → res BatchProjection) : M DocumentStore DocumentCommit :=
  s ← m_get;
  _ ← m_lift (check_entries (st_streams s) entries);
  saved ← m_lift (sequence_entries entries);
  projection ← m_lift (project saved);
  _ ← on_streams (m_each (write_entry saved) entries);
  _ ← m_each save (bp_snapshot projection :: default [] (bp_auxiliarySnapshots projection));
  mret {| dc_events := saved; dc_snapshot := bp_snapshot projection |}.

(** [commit(stream, expectedVersion, events, project)]. *)
Definition commit (stream : jstr) (expectedVersion : Z) (events : list NewDomainEvent)
    (project : list DomainEvent → res DocumentSnapshot) : M DocumentStore DocumentCommit :=
  commitBatch [{| ae_stream := stream; ae_expectedVersion := expectedVersion; ae_events := events |}]
    (λ saved, snapshot ← project saved;
              Ok {| bp_snapshot := snapshot; bp_auxiliarySnapshots := None |}).

(** [events.slice(start, end)] with [start] from the front. *)
Definition slice_from {A} (start : Z) (l : list A) : list A := drop (Z.to_nat start) l.
Definition slice_to {A} (stop : Z) (l : list A) : list A :=
  if (stop <? 0)%Z then take (length l - Z.to_nat (- stop)) l else take (Z.to_nat stop) l.

(** The three filters of [readStream]. *)
Definition read_matches (options : ReadStreamOptions) (event : DomainEvent) : bool :=
  match rso_minSequence options with Some m => (m <=? e_sequence event)%Z | None => true end &&
  match rso_maxSequence options with Some m => (e_sequence event <=? m)%Z | None => true end &&
  match rso_payloadKinds options with
  | Some kinds => bool_decide (domainEventPayloadKind event ∈ kinds)
  | None => true
  end.

(** [readStream(stream, options)]. *)
Definition readStream (streams : streams_map) (stream : jstr) (options : ReadStreamOptions)
    : res (list DomainEvent) :=
  let events := sort_events (filter (λ e, read_matches options e = true) (stream_events streams stream)) in
  let page := match rso_limit options with
    | None => events
    | Some limit =>
        match rso_minSequence options with
        | None => slice_from (Z.max 0 (Z.of_nat (length events) - limit)) events
        | Some _ => slice_to limit events
        end
    end in
  map_res cloneDomainEvent page.

(** [listStreams({ tenantId, doctype })]. *)
Definition listStreams (streams : streams_map) (tenantId doctype : jstr) : list jstr :=
  sort_strings (jm_keys (filter (λ entry : jstr * list DomainEvent,
    existsb (λ event : DomainEvent, bool_decide (e_tenantId event = tenantId ∧ e_doctype event = doctype))
      entry.2 = true) streams)).

(** ** Invariant *)

(** What a stream holds: its own events, in sequence 1, 2, ..., all JSON. *)
Definition stream_ok (stream : jstr) (events : list DomainEvent) : Prop :=
  contiguous events ∧
  ∀ e : DomainEvent, e ∈ events → e_stream e = stream ∧ event_json e = true.

Definition wf_streams (m : streams_map) : Prop :=
  jm_wf m ∧ ∀ stream, stream_ok stream (stream_events m stream).

Lemma stream_events_set stream evs m s :
  stream_events (jm_set stream evs m) s = if decide (s = stream) then evs else stream_events m s.
Proof. unfold stream_events. rewrite jm_get_set. by destruct (decide _). Qed.

Lemma wf_streams_nil : wf_streams [].
Proof.
  split; [apply jm_wf_nil|]. intros s. change (stream_events [] s) with (@nil DomainEvent).
  split; [by intros i e Hi; rewrite lookup_nil in Hi|].
  by intros e ?%elem_of_nil.
Qed.

Lemma map_res_clone l :
  (∀ e : DomainEvent, e ∈ l → event_json e = true) → map_res cloneDomainEvent l = Ok l.
Proof.
  intros H. rewrite (map_res_pure _ (λ e, e)); [by rewrite list_fmap_id|].
  intros e He. by apply cloneDomainEvent_id, H.
Qed.

(** What [sequenceEvents] saves. *)
Definition sequenced (v : Z) (events : list NewDomainEvent) (saved : list DomainEvent) : Prop :=
  e_new <$> saved = events ∧
  (∀ e : DomainEvent, e ∈ saved → event_json e = true) ∧
  ∀ i e, saved !! i = Some e → e_sequence e = (v + 1 + Z.of_nat i)%Z.

Lemma sequenceEvents_sequenced v events saved :
  sequenceEvents v events = Ok saved → sequenced v events saved.
Proof.
  intros (H1 & H2 & H3)%sequenceFrom_ok. split_and!; [done| |done].
  intros e He. rewrite forallb_In in H2. apply H2. rewrite <-H1. by apply list_elem_of_fmap_2.
Qed.

Lemma sequenceEvents_cases v events :
  (∃ saved, sequenceEvents v events = Ok saved) ∨
  (sequenceEvents v events = Throw event_invalid ∧ ∃ ev, ev ∈ events ∧ event_json ev = false).
Proof.
  unfold sequenceEvents. generalize (v + 1)%Z. clear v.
  induction events as [|ev events IH]; intros n; simpl; [eauto|].
  destruct (event_json ev) eqn:Ej.
  - rewrite cloneDomainEvent_id by done. cbn [mbind res_bind].
    destruct (IH (n + 1)%Z) as [[saved ->]|[-> (ev' & Hin & Hj)]]; simpl; [eauto|].
    right. split; [done|]. exists ev'. split; [by right|done].
  - right. split; [|exists ev; split; [by left|done]].
    unfold cloneDomainEvent, event_json in *. simpl.
    by destruct (payloadIsJson _); [destruct (isJsonData _)|].
Qed.

Lemma sequenced_length v events saved : sequenced v events saved → length saved = length events.
Proof. intros [<- _]. by rewrite length_fmap. Qed.

(** Extending a well-formed stream by what was sequenced at its length. *)
Lemma stream_ok_app stream current events saved :
  stream_ok stream current →
  sequenced (Z.of_nat (length current)) events saved →
  (∀ ev, ev ∈ events → e_stream ev = stream) →
  stream_ok stream (current ++ saved).
Proof.
  intros [Hc He] (H1 & H2 & H3) Hs. split.
  - intros i e [Hi|[Hle Hi]]%lookup_app_Some; [by apply Hc|].
    rewrite (H3 _ _ Hi). lia.
  - intros e [?|Hin]%elem_of_app; [by apply He|]. split; [|by apply H2].
    apply Hs. rewrite <-H1. by apply list_elem_of_fmap_2.
Qed.

(** [append] on every branch. *)
Lemma append_eq stream v events m :
  append stream v events m =
  if (Z.of_nat (length (stream_events m stream)) =? v)%Z then
    match sequenceEvents v events with
    | Ok saved => (Ok saved, jm_set stream (stream_events m stream ++ saved) m)
    | Throw e => (Throw e, m)
    end
  else (Throw conflict, m).
Proof.
  unfold append, m_ensure, m_lift, m_get, m_put, mbind, M_bind, mret, M_ret, ensure.
  destruct (_ =? _)%Z; [|done].
  destruct (sequenceEvents v events) as [saved|e] eqn:E; [|done].
  apply sequenceEvents_sequenced in E as (_ & H2 & _). by rewrite map_res_clone.
Qed.

(** ** The abstract log

    Specification: a log per stream name, extended by an append that names its
    current length and refused otherwise. *)
Definition Log := jstr → list NewDomainEvent.

Definition log_append (log : Log) (stream : jstr) (expectedVersion : Z) (events : list NewDomainEvent)
    : option Log :=
  if (Z.of_nat (length (log stream)) =? expectedVersion)%Z
  then Some (λ s, if decide (s = stream) then log stream ++ events else log s)
  else None.

(** The abstraction: a stream without its sequence numbers. *)
Definition log_of (m : streams_map) : Log := λ stream, e_new <$> stream_events m stream.

Lemma log_of_length m stream : length (log_of m stream) = length (stream_events m stream).
Proof. apply length_fmap. Qed.

Lemma wf_streams_set m stream evs :
  wf_streams m → stream_ok stream evs → wf_streams (jm_set stream evs m).
Proof.
  intros [H1 H2] Hok. split; [by apply jm_wf_set|]. intros s. rewrite stream_events_set.
  destruct (decide (s = stream)) as [->|]; [done|apply H2].
Qed.

Definition sample_stream : jstr := js "default:Task:T-1".
Definition sample_news : list NewDomainEvent := e_new <$> sample_history.

Lemma sample_news_stream ev : ev ∈ sample_news → e_stream ev = sample_stream.
Proof. by intros [->|[->|[->|[]%elem_of_nil]%elem_of_cons]%elem_of_cons]%elem_of_cons. Qed.

(** C25: [append] implements the append of the abstract log.  It succeeds exactly
    when the expected version is the stream's length and the events are JSON;
    it then numbers them from that version on and keeps the invariant; when it
    throws, the store is unchanged. *)
Theorem append_refines_log stream v events m :
  wf_streams m → (∀ ev, ev ∈ events → e_stream ev = stream) →
  match append stream v events m with
  | (Ok saved, m') =>
      wf_streams m' ∧ sequenced v events saved ∧
      ∃ log', log_append (log_of m) stream v events = Some log' ∧ ∀ s, log_of m' s = log' s
  | (Throw e, m') =>
      m' = m ∧
      ((e = conflict ∧ log_append (log_of m) stream v events = None) ∨
       (e = event_invalid ∧ ∃ ev, ev ∈ events ∧ event_json ev = false))
  end.
Proof.
  intros Hwf Hs. rewrite append_eq. unfold log_append. rewrite log_of_length.
  destruct (Z.eqb_spec (Z.of_nat (length (stream_events m stream))) v) as [<-|Hne]; [|by eauto].
  destruct (sequenceEvents_cases (Z.of_nat (length (stream_events m stream))) events)
    as [[saved Hsv]|[-> Hj]]; [|by eauto].
  rewrite Hsv. apply sequenceEvents_sequenced in Hsv as Hsq. split_and!; [|done|].
  - apply wf_streams_set; [done|]. eapply stream_ok_app; [apply Hwf|done|done].
  - eexists. split; [done|]. intros s. unfold log_of. rewrite stream_events_set.
    destruct (decide (s = stream)) as [->|]; [|done].
    rewrite fmap_app. f_equal. apply Hsq.
Qed.

Lemma append_refines_log_witness :
  ∃ m, append sample_stream 0 sample_news [] = (Ok sample_history, m) ∧ wf_streams m ∧
       log_of m sample_stream = sample_news.
Proof.
  pose proof (append_refines_log sample_stream 0 sample_news [] wf_streams_nil sample_news_stream) as H.
  destruct (append sample_stream 0 sample_news []) as [r m] eqn:E. vm_compute in E.
  injection E as <- <-. eexists. split; [reflexivity|]. split; [exact (proj1 H)|reflexivity].
Defined.

(** of two writers that read the same version, at most one succeeds: after a
    successful append of at least one event, an append at the same expected
    version throws [DOCUMENT_CONFLICT] and changes nothing. *)
Theorem append_race stream v events saved m m' events' :
  append stream v events m = (Ok saved, m') → events ≠ [] →
  append stream v events' m' = (Throw conflict, m').
Proof.
  rewrite !append_eq. intros H Hne.
  destruct (Z.eqb_spec (Z.of_nat (length (stream_events m stream))) v) as [<-|]; [|done].
  destruct (sequenceEvents _ events) as [saved'|] eqn:E; [|done]. injection H as <- <-.
  apply sequenceEvents_sequenced, sequenced_length in E.
  rewrite stream_events_set, decide_True, length_app, E by done.
  destruct (Z.eqb_spec (Z.of_nat (length (stream_events m stream) + length events))
    (Z.of_nat (length (stream_events m stream)))) as [Heq|]; [|done].
  destruct events; [done|]. simpl in Heq. lia.
Qed.

Lemma append_race_witness :
  let '(r, m) := append sample_stream 0 sample_news [] in
  r = Ok sample_history ∧ append sample_stream 0 [e_new sample_created] m = (Throw conflict, m).
Proof.
  destruct (append sample_stream 0 sample_news []) as [r m] eqn:E.
  assert (r = Ok sample_history) as -> by (apply (f_equal fst) in E; vm_compute in E; by rewrite <-E).
  split; [reflexivity|]. by apply (append_race _ _ _ _ _ _ [e_new sample_created] E).
Defined.

(** ** Batches *)

Definition entry_streams (entries : list AppendEntry) : list jstr := ae_stream <$> entries.

(** A batch as the services build it: one entry per stream, each event naming
    its entry's stream. *)
Definition batch_ok (entries : list AppendEntry) : Prop :=
  NoDup (entry_streams entries) ∧
  ∀ entry, entry ∈ entries → ∀ ev, ev ∈ ae_events entry → e_stream ev = ae_stream entry.

Definition sample_other : jstr := js "default:Note:N-1".

Definition sample_entries : list AppendEntry :=
  [ {| ae_stream := sample_stream; ae_expectedVersion := 0; ae_events := sample_news |};
    {| ae_stream := sample_other; ae_expectedVersion := 0;
       ae_events := [sample_new sample_other PDocumentDeleted] |} ].

Lemma sample_entries_ok : batch_ok sample_entries.
Proof.
  split; [apply (bool_decide_unpack _); vm_compute; exact I|].
  intros entry [->|[->|[]%elem_of_nil]%elem_of_cons]%elem_of_cons ev Hev; [by apply sample_news_stream|].
  by apply list_elem_of_singleton in Hev as ->.
Qed.

Definition sample_snapshot : DocumentSnapshot :=
  {| ds_tenantId := js "default"; ds_doctype := js "Task"; ds_name := js "T-1"; ds_version := 3;
     ds_docstatus := Submitted; ds_data := [(js "title", vstr "Final")];
     ds_createdAt := js "2026-01-01"; ds_updatedAt := js "2026-01-01" |}.

Lemma check_entry_ok streams entry u :
  check_entry streams entry = Ok u ↔
  Z.of_nat (length (stream_events streams (ae_stream entry))) = ae_expectedVersion entry.
Proof. unfold check_entry. by rewrite ensure_ok, Z.eqb_eq. Qed.

Lemma check_entries_ok streams entries u :
  check_entries streams entries = Ok u ↔
  ∀ entry, entry ∈ entries →
    Z.of_nat (length (stream_events streams (ae_stream entry))) = ae_expectedVersion entry.
Proof.
  unfold check_entries. destruct u. induction entries as [|entry entries IH]; cbn [foldl_res].
  - split; [by intros _ entry ?%elem_of_nil|done].
  - rewrite bind_ok. split.
    + intros ([] & H1 & H2) x [->|Hx]%elem_of_cons; [by apply check_entry_ok in H1|].
      by apply IH.
    + intros H. exists tt. split; [apply check_entry_ok, H; by left|].
      apply IH. intros x Hx. apply H. by right.
Qed.

Lemma check_entries_throw streams entries e :
  check_entries streams entries = Throw e → e = conflict.
Proof.
  unfold check_entries. induction entries as [|entry entries IH]; cbn [foldl_res]; [done|].
  destruct (check_entry streams entry) as [[]|e'] eqn:E; simpl; [done|].
  intros [= <-]. by apply ensure_throw in E as [_ ->].
Qed.

Definition mine (saved : list DomainEvent) (stream : jstr) : list DomainEvent :=
  filter (λ event : DomainEvent, e_stream event = stream) saved.

Lemma mine_elem saved stream (e : DomainEvent) : e ∈ mine saved stream → e ∈ saved.
Proof. unfold mine. rewrite list_elem_of_filter. naive_solver. Qed.

Lemma write_entry_run saved entry m :
  (∀ e : DomainEvent, e ∈ saved → event_json e = true) →
  write_entry saved entry m =
  (Ok tt, jm_set (ae_stream entry) (stream_events m (ae_stream entry) ++ mine saved (ae_stream entry)) m).
Proof.
  intros H. unfold write_entry, m_get, m_lift, m_put, mbind, M_bind.
  fold (mine saved (ae_stream entry)).
  rewrite map_res_clone; [done|]. intros e He%mine_elem. by apply H.
Qed.

(** The write loop never throws on JSON events, only extends streams, and on
    distinct streams extends each by the saved events that name it. *)
Lemma write_entries_run saved entries m :
  (∀ e : DomainEvent, e ∈ saved → event_json e = true) →
  ∃ m', m_each (write_entry saved) entries m = (Ok tt, m') ∧
    (jm_wf m → jm_wf m') ∧
    (∀ s, stream_events m s `prefix_of` stream_events m' s) ∧
    (NoDup (entry_streams entries) → ∀ s,
       stream_events m' s = stream_events m s ++
         (if decide (s ∈ entry_streams entries) then mine saved s else [])).
Proof.
  intros Hj. revert m. induction entries as [|entry entries IH]; intros m; cbn [m_each].
  - exists m. split_and!; [done..|]. intros _ s. rewrite decide_False by apply not_elem_of_nil.
    by rewrite app_nil_r.
  - rewrite m_bind_run, write_entry_run by done.
    set (m1 := jm_set _ _ m). destruct (IH m1) as (m' & Hrun & Hw & Hpre & Hex).
    exists m'. split_and!; [done|intros; by apply Hw, jm_wf_set| |].
    + intros s. etrans; [|apply Hpre]. unfold m1. rewrite stream_events_set.
      destruct (decide (s = ae_stream entry)) as [->|]; [by apply prefix_app_r|done].
    + intros [Hnin Hnd]%NoDup_cons s. rewrite (Hex Hnd). unfold m1. rewrite stream_events_set.
      destruct (decide (s = ae_stream entry)) as [->|Hne].
      * rewrite (decide_False (P := _ ∈ entry_streams entries)) by done.
        rewrite decide_True by by left. by rewrite app_nil_r.
      * f_equal. destruct (decide (s ∈ entry_streams entries)).
        -- by rewrite decide_True by by right.
        -- rewrite decide_False; [done|]. by intros [->|]%elem_of_cons.
Qed.

Lemma sequence_entries_groups entries saved :
  sequence_entries entries = Ok saved →
  ∃ groups, saved = concat groups ∧
    Forall2 (λ entry group, sequenced (ae_expectedVersion entry) (ae_events entry) group) entries groups.
Proof.
  unfold sequence_entries. intros H. inv_res. exists x. split; [done|].
  apply map_res_ok in H. eapply Forall2_impl; [exact H|].
  intros entry group. apply sequenceEvents_sequenced.
Qed.

Lemma sequence_entries_json entries saved :
  sequence_entries entries = Ok saved → ∀ e : DomainEvent, e ∈ saved → event_json e = true.
Proof.
  intros (groups & -> & HF)%sequence_entries_groups.
  induction HF as [|entry group entries groups Hg _ IH]; simpl; [by intros e ?%elem_of_nil|].
  intros e [He|He]%elem_of_app; [by apply Hg|by apply IH].
Qed.

(** The saved events of other entries do not name a stream outside the batch. *)
Lemma mine_none entries groups s :
  (∀ entry, entry ∈ entries → ∀ ev, ev ∈ ae_events entry → e_stream ev = ae_stream entry) →
  Forall2 (λ entry group, sequenced (ae_expectedVersion entry) (ae_events entry) group) entries groups →
  s ∉ entry_streams entries → mine (concat groups) s = [].
Proof.
  intros Hnames HF Hs. apply filter_none. intros e He <-. apply Hs. clear Hs.
  induction HF as [|en group entries groups (Hg & _) _ IH]; simpl in *; [by apply elem_of_nil in He|].
  apply elem_of_app in He as [He|He].
  - rewrite (Hnames en); [left|left|]. rewrite <-Hg. by apply list_elem_of_fmap_2.
  - right. apply IH; [|done]. intros en' Hen'. apply Hnames. by right.
Qed.

(** In a well-formed batch the saved events naming an entry's stream are that
    entry's events, sequenced after its expected version. *)
Lemma mine_group entries saved entry :
  batch_ok entries → sequence_entries entries = Ok saved → entry ∈ entries →
  sequenced (ae_expectedVersion entry) (ae_events entry) (mine saved (ae_stream entry)).
Proof.
  intros [Hnd Hnames] (groups & -> & HF)%sequence_entries_groups Hin.
  induction HF as [|en group entries groups Hg HF IH]; simpl; [by apply elem_of_nil in Hin|].
  apply NoDup_cons in Hnd as [Hnin Hnd].
  assert (Hnames' : ∀ en', en' ∈ entries → ∀ ev, ev ∈ ae_events en' → e_stream ev = ae_stream en').
  { intros en' Hen'. apply Hnames. by right. }
  assert (Hgs : ∀ e : DomainEvent, e ∈ group → e_stream e = ae_stream en).
  { intros e He. apply Hnames; [by left|]. destruct Hg as [<- _]. by apply list_elem_of_fmap_2. }
  unfold mine. rewrite filter_app. fold (mine (concat groups) (ae_stream entry)).
  apply elem_of_cons in Hin as [->|Hin].
  - by rewrite (mine_none entries groups), app_nil_r, filter_all.
  - rewrite filter_none; [by apply IH|]. intros e He Heq.
    apply Hnin. rewrite <-(Hgs e He), Heq. by apply list_elem_of_fmap_2.
Qed.

Lemma mine_json entries saved s (e : DomainEvent) :
  sequence_entries entries = Ok saved → e ∈ mine saved s → event_json e = true.
Proof. intros Hs He%mine_elem. by eapply sequence_entries_json. Qed.

(** What a successful batch leaves: every entry's stream extended by the
    entry's events, every other stream as it was. *)
Definition batch_written (entries : list AppendEntry) (saved : list DomainEvent)
    (m m' : streams_map) : Prop :=
  wf_streams m' ∧
  (∀ entry, entry ∈ entries →
     stream_events m' (ae_stream entry) = stream_events m (ae_stream entry) ++ mine saved (ae_stream entry) ∧
     log_of m' (ae_stream entry) = log_of m (ae_stream entry) ++ ae_events entry) ∧
  (∀ s, s ∉ entry_streams entries → stream_events m' s = stream_events m s).

Lemma batch_write entries saved m u :
  wf_streams m → batch_ok entries → check_entries m entries = Ok u →
  sequence_entries entries = Ok saved →
  ∃ m', m_each (write_entry saved) entries m = (Ok tt, m') ∧ batch_written entries saved m m'.
Proof.
  intros Hwf Hb Hck Hsq. pose proof (sequence_entries_json _ _ Hsq) as Hj.
  destruct (write_entries_run saved entries m Hj) as (m' & Hrun & Hw & _ & Hex).
  specialize (Hex (proj1 Hb)). exists m'. split; [done|].
  assert (Hin : ∀ entry, entry ∈ entries →
    stream_events m' (ae_stream entry) = stream_events m (ae_stream entry) ++ mine saved (ae_stream entry)).
  { intros entry He. rewrite Hex, decide_True; [done|]. by apply list_elem_of_fmap_2. }
  split_and!.
  - split; [by apply Hw, Hwf|]. intros s.
    destruct (decide (s ∈ entry_streams entries)) as [(entry & -> & He)%list_elem_of_fmap|Hs].
    + rewrite Hin by done.
      pose proof (mine_group entries saved entry Hb Hsq He) as Hg.
      eapply check_entries_ok in Hck as Hv; [|exact He]. rewrite <-Hv in Hg.
      eapply stream_ok_app; [apply Hwf|exact Hg|]. by apply Hb.
    + rewrite Hex, decide_False, app_nil_r by done. apply Hwf.
  - intros entry He. split; [by apply Hin|]. unfold log_of. rewrite Hin, fmap_app by done.
    f_equal. by apply (mine_group entries saved entry Hb Hsq He).
  - intros s Hs. by rewrite Hex, decide_False, app_nil_r.
Qed.

(** ** The document store *)

(** [save] touches no stream, and throws only on a snapshot that is not JSON. *)
Lemma saves_run snaps s :
  let '(r, s') := m_each save snaps s in
  st_streams s' = st_streams s ∧
  match r with
  | Ok _ => st_documents s' = foldl (λ d x, jm_set (snapshot_key_of x) x d) (st_documents s) snaps ∧
      ∀ x, x ∈ snaps → isJsonData (ds_data x) = true
  | Throw e => e = FrameworkError DOCUMENT_INVALID 409 ∧
      ∃ x, x ∈ snaps ∧ isJsonData (ds_data x) = false
  end.
Proof.
  revert s. induction snaps as [|x snaps IH]; intros s; cbn [m_each].
  { split_and!; [done..|]. by intros x ?%elem_of_nil. }
  rewrite m_bind_run. unfold save at 1. rewrite m_bind_run. unfold m_lift, cloneDocumentSnapshot.
  destruct (isJsonData (ds_data x)) eqn:Ej; simpl.
  - set (s1 := {| st_streams := st_streams s; st_documents := _ |}).
    specialize (IH s1). destruct (m_each save snaps s1) as [[u|e] s'].
    + destruct IH as (-> & -> & H). split_and!; [done..|].
      by intros y [->|Hy]%elem_of_cons; [|apply H].
    + destruct IH as (-> & -> & y & Hy & Hj). split_and!; [done..|]. exists y. by split; [right|].
  - split_and!; [done..|]. exists x. by split; [left|].
Qed.

Definition projected (p : BatchProjection) : list DocumentSnapshot :=
  bp_snapshot p :: default [] (bp_auxiliarySnapshots p).

Lemma commitBatch_cases entries project s :
  wf_streams (st_streams s) → batch_ok entries →
  match commitBatch entries project s with
  | (Ok c, s') =>
      ∃ p, project (dc_events c) = Ok p ∧ dc_snapshot c = bp_snapshot p ∧
        sequence_entries entries = Ok (dc_events c) ∧
        batch_written entries (dc_events c) (st_streams s) (st_streams s') ∧
        st_documents s' =
          foldl (λ d x, jm_set (snapshot_key_of x) x d) (st_documents s) (projected p) ∧
        ∀ x, x ∈ projected p → isJsonData (ds_data x) = true
  | (Throw e, s') =>
      s' = s ∨
      e = FrameworkError DOCUMENT_INVALID 409 ∧
      ∃ saved p x, project saved = Ok p ∧ x ∈ projected p ∧ isJsonData (ds_data x) = false
  end.
Proof.
  intros Hwf Hb. unfold commitBatch. rewrite m_bind_run. unfold m_get.
  rewrite m_bind_run. unfold m_lift at 1.
  destruct (check_entries _ entries) as [u|e] eqn:Hck; [|by left].
  rewrite m_bind_run. unfold m_lift at 1.
  destruct (sequence_entries entries) as [saved|e] eqn:Hsq; [|by left].
  rewrite m_bind_run. unfold m_lift at 1.
  destruct (project saved) as [p|e] eqn:Hp; [|by left].
  rewrite m_bind_run. unfold on_streams.
  destruct (batch_write entries saved _ u Hwf Hb Hck Hsq) as (m' & -> & H).
  rewrite m_bind_run. fold (projected p).
  pose proof (saves_run (projected p) (with_streams (λ _, m') s)) as Hsave.
  destruct (m_each save _ _) as [[[]|e] s'].
  - destruct Hsave as (Hst & Hd & Hall). simpl. exists p. split_and!; [done..| |done|done]. by rewrite Hst.
  - destruct Hsave as (_ & -> & x & Hx & Hj). right. split; [done|]. by exists saved, p, x.
Qed.

(** C26: [commitBatch] commits the events of all its streams together with the
    projections computed from them, or throws and leaves the store unchanged;
    the only other outcome is a projection whose data is not JSON. *)
Theorem commitBatch_atomic entries project s :
  wf_streams (st_streams s) → batch_ok entries →
  match commitBatch entries project s with
  | (Ok c, s') =>
      ∃ p, project (dc_events c) = Ok p ∧ dc_snapshot c = bp_snapshot p ∧
        sequence_entries entries = Ok (dc_events c) ∧
        batch_written entries (dc_events c) (st_streams s) (st_streams s') ∧
        st_documents s' =
          foldl (λ d x, jm_set (snapshot_key_of x) x d) (st_documents s) (projected p) ∧
        ∀ x, x ∈ projected p → isJsonData (ds_data x) = true
  | (Throw e, s') =>
      s' = s ∨
      e = FrameworkError DOCUMENT_INVALID 409 ∧
      ∃ saved p x, project saved = Ok p ∧ x ∈ projected p ∧ isJsonData (ds_data x) = false
  end.
Proof. apply commitBatch_cases. Qed.

Lemma commitBatch_atomic_witness :
  let project := λ _, Ok {| bp_snapshot := sample_snapshot; bp_auxiliarySnapshots := None |} in
  ∃ c s', commitBatch sample_entries project empty_store = (Ok c, s') ∧
    dc_snapshot c = sample_snapshot ∧ batch_written sample_entries (dc_events c) [] (st_streams s').
Proof.
  intros project.
  pose proof (commitBatch_atomic sample_entries project empty_store wf_streams_nil sample_entries_ok) as H.
  destruct (commitBatch sample_entries project empty_store) as [r s'] eqn:E. vm_compute in E.
  injection E as <- <-. destruct H as (p & _ & _ & _ & H & _).
  eexists _, _. split_and!; [reflexivity|reflexivity|exact H].
Defined.

(** after a successful [commit], [get] returns the snapshot it committed. *)
Theorem commit_get stream v events project s c s' :
  wf_streams (st_streams s) → (∀ ev, ev ∈ events → e_stream ev = stream) →
  commit stream v events project s = (Ok c, s') →
  get_document (ds_tenantId (dc_snapshot c)) (ds_doctype (dc_snapshot c)) (ds_name (dc_snapshot c)) s'
  = Ok (Some (dc_snapshot c)).
Proof.
  intros Hwf Hs Hc. unfold commit in Hc.
  pose proof (commitBatch_cases [{| ae_stream := stream; ae_expectedVersion := v; ae_events := events |}]
    (λ saved, snapshot ← project saved;
              Ok {| bp_snapshot := snapshot; bp_auxiliarySnapshots := None |}) s Hwf) as H.
  rewrite Hc in H. destruct H as (p & Hp & Hsnap & _ & _ & Hd & Hall).
  { split; [apply NoDup_singleton|]. by intros entry ->%list_elem_of_singleton. }
  inv_res. unfold projected in Hd. simpl in Hd, Hsnap. subst x. unfold get_document. rewrite Hd.
  unfold snapshot_key_of. rewrite jm_get_set_eq. 
  rewrite (proj2 (cloneDocumentSnapshot_ok (dc_snapshot c) (dc_snapshot c))); [done|].
  split; [|done]. apply Hall. left.
Qed.

Lemma commit_get_witness :
  let '(r, s') := commit sample_stream 0 sample_news (λ _, Ok sample_snapshot) empty_store in
  get_document (js "default") (js "Task") (js "T-1") s' = Ok (Some sample_snapshot).
Proof.
  destruct (commit sample_stream 0 sample_news (λ _, Ok sample_snapshot) empty_store) as [r s'] eqn:E.
  assert (∃ c, r = Ok c ∧ dc_snapshot c = sample_snapshot) as (c & -> & Hc).
  { apply (f_equal fst) in E. vm_compute in E. rewrite <-E. eexists. split; reflexivity. }
  pose proof (commit_get _ _ _ _ empty_store _ _ wf_streams_nil sample_news_stream E) as H.
  rewrite Hc in H. exact H.
Defined.

(** ** Reading *)

(** The events of a stream an options object selects, before paging. *)
Definition selected (options : ReadStreamOptions) (events : list DomainEvent) : list DomainEvent :=
  filter (λ e, read_matches options e = true) events.

(** [readStream] returns the selected events in sequence order; a limit
    keeps the first ones when a lower bound is given (forward replay) and the
    last ones otherwise (the recent page). *)
Theorem readStream_page m stream options :
  wf_streams m →
  let events := selected options (stream_events m stream) in
  readStream m stream options = Ok
    match rso_limit options, rso_minSequence options with
    | None, _ => events
    | Some limit, Some _ =>
        if (limit <? 0)%Z then take (length events - Z.to_nat (- limit)) events
        else take (Z.to_nat limit) events
    | Some limit, None => drop (Z.to_nat (Z.of_nat (length events) - limit)) events
    end.
Proof.
  intros [_ Hwf]. destruct (Hwf stream) as [Hc Hj]. unfold readStream.
  rewrite contiguous_sorted_filter by done. fold (selected options (stream_events m stream)).
  simpl. set (events := selected options (stream_events m stream)).
  assert (Hev : ∀ e : DomainEvent, e ∈ events → event_json e = true).
  { intros e [_ He]%list_elem_of_filter. by apply Hj. }
  unfold slice_from, slice_to.
  destruct (rso_limit options) as [limit|]; [|by apply map_res_clone].
  destruct (rso_minSequence options) as [min|].
  - destruct (limit <? 0)%Z; apply map_res_clone;
      intros e ?%elem_of_take_1; by apply Hev.
  - rewrite map_res_clone.
    + do 2 f_equal. lia.
    + intros e ?%elem_of_drop_1. by apply Hev.
Qed.

(** The promise of a store to a reader that does not page. *)
Class StreamLog (S : Type) := {
  sl_wf : S → Prop;
  sl_events : S → jstr → list DomainEvent;
  sl_read : S → jstr → ReadStreamOptions → res (list DomainEvent);
  sl_contiguous : ∀ s stream, sl_wf s → contiguous (sl_events s stream);
  sl_read_ok : ∀ s stream options, sl_wf s → rso_limit options = None →
    sl_read s stream options = Ok (selected options (sl_events s stream))
}.

Lemma readStream_selected m stream options :
  wf_streams m → rso_limit options = None →
  readStream m stream options = Ok (selected options (stream_events m stream)).
Proof.
  intros [_ Hwf] Hl. destruct (Hwf stream) as [Hc Hj]. unfold readStream. rewrite Hl.
  rewrite contiguous_sorted_filter by done. apply map_res_clone.
  intros e [_ He]%list_elem_of_filter. by apply Hj.
Qed.

#[export] Instance in_memory_log : StreamLog DocumentStore := {
  sl_wf s := wf_streams (st_streams s);
  sl_events s stream := stream_events (st_streams s) stream;
  sl_read s stream options := readStream (st_streams s) stream options;
  sl_contiguous s stream H := proj1 (proj2 H stream);
  sl_read_ok s stream options := readStream_selected (st_streams s) stream options
}.

(** The tail after [n] events of a contiguous stream. *)
Lemma selected_from events n :
  contiguous events → selected (from_sequence (Z.of_nat n + 1)) events = drop n events.
Proof.
  intros Hc. unfold selected. rewrite <-(take_drop n events) at 1. rewrite filter_app.
  rewrite filter_none, filter_all; [done| |].
  - intros e [i Hi]%list_elem_of_lookup. rewrite lookup_drop in Hi. apply Hc in Hi.
    unfold read_matches. simpl. rewrite !andb_true_r. apply Z.leb_le. lia.
  - intros e [i Hi]%list_elem_of_lookup. apply lookup_take_Some in Hi as [Hi Hlt]. apply Hc in Hi.
    unfold read_matches. simpl. rewrite !andb_true_r. rewrite Z.leb_le. lia.
Qed.

Lemma selected_all events : selected no_options events = events.
Proof. by apply filter_all. Qed.

(** ** Histories *)

(** One call on the store, by any caller, with any outcome. *)
Inductive store_step : DocumentStore → DocumentStore → Prop :=
| step_append stream v events s r m' :
    (∀ ev, ev ∈ events → e_stream ev = stream) →
    append stream v events (st_streams s) = (r, m') →
    store_step s (with_streams (λ _, m') s)
| step_appendBatch entries s r m' :
    batch_ok entries → appendBatch entries (st_streams s) = (r, m') →
    store_step s (with_streams (λ _, m') s)
| step_commitBatch entries project s r s' :
    batch_ok entries → commitBatch entries project s = (r, s') →
    store_step s s'
| step_save snapshot s r s' :
    save snapshot s = (r, s') → store_step s s'.

Definition extends (s s' : DocumentStore) : Prop :=
  ∀ stream, stream_events (st_streams s) stream `prefix_of` stream_events (st_streams s') stream.

#[export] Instance extends_preorder : PreOrder extends.
Proof.
  split; [intros s stream; reflexivity|].
  intros s1 s2 s3 H1 H2 stream. etrans; [apply H1|apply H2].
Qed.

Lemma append_step stream v events m r m' :
  wf_streams m → (∀ ev, ev ∈ events → e_stream ev = stream) →
  append stream v events m = (r, m') →
  wf_streams m' ∧ ∀ s, stream_events m s `prefix_of` stream_events m' s.
Proof.
  intros Hwf Hs. rewrite append_eq.
  destruct (Z.eqb_spec (Z.of_nat (length (stream_events m stream))) v) as [<-|];
    [|intros [= _ <-]; split; [done|reflexivity]].
  destruct (sequenceEvents _ events) as [saved|e] eqn:E; intros [= _ <-]; [|split; [done|reflexivity]].
  apply sequenceEvents_sequenced in E. split.
  - apply wf_streams_set; [done|]. eapply stream_ok_app; [apply Hwf|done|done].
  - intros s. rewrite stream_events_set. destruct (decide (s = stream)) as [->|]; [|reflexivity].
    apply prefix_app_r; reflexivity.
Qed.

Lemma readStream_page_witness :
  let m := (append sample_stream 0 sample_news []).2 in
  readStream m sample_stream
    {| rso_payloadKinds := None; rso_minSequence := None; rso_maxSequence := None; rso_limit := Some 2%Z |}
  = Ok [sample_updated; sample_submitted].
Proof.
  intros m. assert (wf_streams m) as Hwf.
  { eapply (append_step sample_stream 0 sample_news []); [apply wf_streams_nil|apply sample_news_stream|].
    apply surjective_pairing. }
  rewrite (readStream_page m sample_stream _ Hwf). reflexivity.
Defined.

Lemma batch_written_prefix entries saved m m' s :
  batch_written entries saved m m' → stream_events m s `prefix_of` stream_events m' s.
Proof.
  intros (_ & Hin & Hout).
  destruct (decide (s ∈ entry_streams entries)) as [(entry & -> & He)%list_elem_of_fmap|Hs].
  - rewrite (proj1 (Hin _ He)). apply prefix_app_r; reflexivity.
  - rewrite Hout by done. reflexivity.
Qed.

Lemma appendBatch_cases entries m :
  wf_streams m → batch_ok entries →
  match appendBatch entries m with
  | (Ok saved, m') => batch_written entries saved m m'
  | (Throw _, m') => m' = m
  end.
Proof.
  intros Hwf Hb. unfold appendBatch, m_get, m_lift, mbind, M_bind, mret, M_ret.
  destruct (check_entries m entries) as [u|e] eqn:Hck; [|done].
  destruct (sequence_entries entries) as [saved|e] eqn:Hsq; [|done].
  by destruct (batch_write entries saved m u Hwf Hb Hck Hsq) as (m' & -> & H).
Qed.

(** [appendBatch] is atomic: it extends every stream of the batch by that
    entry's events, or throws and leaves the store unchanged. *)
Theorem appendBatch_atomic entries m :
  wf_streams m → batch_ok entries →
  match appendBatch entries m with
  | (Ok saved, m') => batch_written entries saved m m'
  | (Throw _, m') => m' = m
  end.
Proof. apply appendBatch_cases. Qed.

Lemma appendBatch_atomic_witness :
  ∃ saved m, appendBatch sample_entries [] = (Ok saved, m) ∧ batch_written sample_entries saved [] m.
Proof.
  pose proof (appendBatch_atomic sample_entries [] wf_streams_nil sample_entries_ok) as H.
  destruct (appendBatch sample_entries []) as [r m] eqn:E. vm_compute in E.
  injection E as <- <-. eexists _, _. split; [reflexivity|exact H].
Defined.

(** A [commitBatch] leaves its streams either as they were or fully written,
    also when a snapshot cannot be saved; it writes only what passed its checks. *)
Lemma commitBatch_written entries project s r s' :
  wf_streams (st_streams s) → batch_ok entries → commitBatch entries project s = (r, s') →
  st_streams s' = st_streams s ∨
  ∃ saved, check_entries (st_streams s) entries = Ok tt ∧ batch_written entries saved (st_streams s) (st_streams s').
Proof.
  intros Hwf Hb. unfold commitBatch. rewrite m_bind_run. unfold m_get.
  rewrite m_bind_run. unfold m_lift at 1.
  destruct (check_entries _ entries) as [u|e] eqn:Hck; [|intros [= _ <-]; by left].
  rewrite m_bind_run. unfold m_lift at 1.
  destruct (sequence_entries entries) as [saved|e] eqn:Hsq; [|intros [= _ <-]; by left].
  rewrite m_bind_run. unfold m_lift at 1.
  destruct (project saved) as [p|e] eqn:Hp; [|intros [= _ <-]; by left].
  rewrite m_bind_run. unfold on_streams.
  destruct (batch_write entries saved _ u Hwf Hb Hck Hsq) as (m' & -> & H).
  rewrite m_bind_run. fold (projected p).
  pose proof (saves_run (projected p) (with_streams (λ _, m') s)) as Hsave. destruct u.
  destruct (m_each save _ _) as [[[]|e] s1]; intros [= _ <-]; right; exists saved;
    destruct Hsave as [-> _]; done.
Qed.

Lemma commitBatch_step entries project s r s' :
  wf_streams (st_streams s) → batch_ok entries → commitBatch entries project s = (r, s') →
  st_streams s' = st_streams s ∨ ∃ saved, batch_written entries saved (st_streams s) (st_streams s').
Proof.
  intros Hwf Hb H. destruct (commitBatch_written _ _ _ _ _ Hwf Hb H) as [?|(saved & _ & ?)]; [by left|right; by exists saved].
Qed.

Lemma store_step_ok s s' :
  store_step s s' → wf_streams (st_streams s) → wf_streams (st_streams s') ∧ extends s s'.
Proof.
  intros Hstep Hwf. destruct Hstep as [stream v events s r m' Hs H|entries s r m' Hb H|
    entries project s r s' Hb H|snapshot s r s' H].
  - by eapply append_step.
  - pose proof (appendBatch_cases entries _ Hwf Hb) as Hc. rewrite H in Hc.
    destruct r as [saved|e]; simpl; [|subst; split; [done|intros stream; reflexivity]].
    split; [apply Hc|]. intros stream. by eapply batch_written_prefix.
  - destruct (commitBatch_step _ _ _ _ _ Hwf Hb H) as [E|[saved Hw]].
    + rewrite E. split; [done|]. intros stream. rewrite E. reflexivity.
    + split; [apply Hw|]. intros stream. by eapply batch_written_prefix.
  - pose proof (saves_run [snapshot] s) as Hs. cbn [m_each] in Hs. rewrite m_bind_run, H in Hs.
    assert (st_streams s' = st_streams s) as E by (by destruct r; destruct Hs).
    rewrite E. split; [done|]. intros stream. rewrite E. reflexivity.
Qed.

(** in every history of calls on the store, whatever their order and
    outcome, streams stay well formed (contiguous sequences from 1, JSON
    events of their own stream) and are append-only: an event once stored is
    never changed, moved or removed. *)
Theorem store_history s s' :
  rtc store_step s s' → wf_streams (st_streams s) → wf_streams (st_streams s') ∧ extends s s'.
Proof.
  induction 1 as [s|s1 s2 s3 H12 _ IH]; intros Hwf; [split; [done|intros stream; reflexivity]|].
  destruct (store_step_ok _ _ H12 Hwf) as [Hwf2 Hext].
  destruct (IH Hwf2) as [Hwf3 Hext3]. split; [done|]. by etrans.
Qed.

Lemma store_history_witness :
  let s := with_streams (λ _, (append sample_stream 0 sample_news []).2) empty_store in
  wf_streams (st_streams s) ∧ extends empty_store s.
Proof.
  apply (store_history empty_store); [|apply wf_streams_nil].
  apply rtc_once.
  apply (step_append sample_stream 0 sample_news empty_store (Ok sample_history));
    [apply sample_news_stream|reflexivity].
Defined.

(** ** A finding about the in-memory adapter *)

(** two entries for one stream in a batch both pass the version check and
    both events are then stored twice, under the same sequence; the store no
    longer keeps contiguous streams. *)
Theorem appendBatch_duplicate_stream stream ev1 ev2 :
  event_json ev1 = true → event_json ev2 = true →
  e_stream ev1 = stream → e_stream ev2 = stream →
  let entry ev := {| ae_stream := stream; ae_expectedVersion := 0; ae_events := [ev] |} in
  let at_1 ev := {| e_new := ev; e_sequence := 1 |} in
  let '(r, m) := appendBatch [entry ev1; entry ev2] [] in
  r = Ok [at_1 ev1; at_1 ev2] ∧
  stream_events m stream = [at_1 ev1; at_1 ev2; at_1 ev1; at_1 ev2] ∧
  ¬ wf_streams m.
Proof.
  intros H1 H2 E1 E2. simpl.
  assert (Hsq : ∀ ev, event_json ev = true → sequenceEvents 0 [ev] = Ok [{| e_new := ev; e_sequence := 1 |}]).
  { intros ev Hj. unfold sequenceEvents. simpl. by rewrite cloneDomainEvent_id. }
  set (saved := [{| e_new := ev1; e_sequence := 1 |}; {| e_new := ev2; e_sequence := 1 |}]).
  assert (Hw : ∀ entry m, write_entry saved entry m = (Ok tt, jm_set (ae_stream entry)
    (stream_events m (ae_stream entry) ++ mine saved (ae_stream entry)) m)).
  { intros entry m. apply write_entry_run.
    intros e [->|[->|[]%elem_of_nil]%elem_of_cons]%elem_of_cons; done. }
  unfold appendBatch. rewrite m_bind_run. cbn [m_get]. rewrite m_bind_run.
  unfold m_lift at 1. change (check_entries [] _) with (Ok tt). cbv iota beta.
  rewrite m_bind_run. unfold m_lift at 1, sequence_entries.
  cbn [map_res ae_expectedVersion ae_events mbind res_bind]. rewrite !Hsq by done.
  cbn [mbind res_bind concat app]. fold saved.
  rewrite m_bind_run. cbn [m_each]. rewrite m_bind_run, Hw, m_bind_run, Hw. cbn [ae_stream].
  assert (mine saved stream = saved) as Hmine.
  { apply filter_all. intros e [->|[->| []%elem_of_nil]%elem_of_cons]%elem_of_cons; done. }
  rewrite !Hmine. unfold mret, M_ret. split_and!; [done| |].
  - by rewrite stream_events_set, decide_True, stream_events_set, decide_True.
  - intros [_ Hwf]. destruct (Hwf stream) as [Hc _].
    rewrite stream_events_set, decide_True, stream_events_set, decide_True in Hc by done.
    specialize (Hc 2 _ eq_refl). discriminate Hc.
Qed.

Lemma appendBatch_duplicate_stream_witness :
  let entry ev := {| ae_stream := sample_stream; ae_expectedVersion := 0; ae_events := [e_new ev] |} in
  let '(r, m) := appendBatch [entry sample_created; entry sample_submitted] [] in
  length (stream_events m sample_stream) = 4 ∧ ¬ wf_streams m.
Proof.
  pose proof (appendBatch_duplicate_stream sample_stream (e_new sample_created) (e_new sample_submitted)
    eq_refl eq_refl eq_refl eq_refl) as H.
  cbv zeta in H |- *.
  destruct (appendBatch _ _) as [r m]. destruct H as (_ & -> & H). by split.
Defined.
