(* ===== verification/SnapshotStore.v ===== *)
(** * SnapshotStore: folded state kept between reads

    Models [ports/snapshot-store.ts] (the key, the snapshot and the port) and
    [adapters/in-memory/snapshot-store.ts] (a bounded map in order of use).  The
    port is the class [SnapshotPort], the promise the fold readers rely on; the
    in-memory store and a store whose calls always throw are its instances. *)

From S2P Require Export EventStore.

Record FoldSnapshotKey := {
  fk_stream : jstr;
  fk_foldName : jstr;
  fk_foldVersion : Z
}.

Record FoldSnapshot (U : Type) := {
  fs_key :> FoldSnapshotKey;
  fs_uptoSequence : Z;
  fs_state : U
}.
Arguments fs_key {U} _.
Arguments fs_uptoSequence {U} _.
Arguments fs_state {U} _.

(** [InMemorySnapshotStore]: the map and the limit of one instance. *)
Record SnapshotStore (U : Type) := {
  ss_snapshots : list (jstr * FoldSnapshot U);
  ss_limit : Z
}.
Arguments ss_snapshots {U} _.
Arguments ss_limit {U} _.

Definition DEFAULT_SNAPSHOT_LIMIT : Z := 256.

Definition new_snapshot_store (U : Type) (limit : option Z) : SnapshotStore U :=
  {| ss_snapshots := []; ss_limit := default DEFAULT_SNAPSHOT_LIMIT limit |}.

(** [snapshotKey(key)]; [\u0020] is the space. *)
Definition snapshotKey (key : FoldSnapshotKey) : jstr :=
  fk_stream key ++ [32%N] ++ fk_foldName key ++ [32%N] ++ dec_Z (fk_foldVersion key).

Section store.
Context {U : Type}.

Definition with_snapshots (m : list (jstr * FoldSnapshot U)) (s : SnapshotStore U) : SnapshotStore U :=
  {| ss_snapshots := m; ss_limit := ss_limit s |}.

(** [read(key)]: a hit moves the entry to the end of the map's order. *)
Definition snapshot_read (key : FoldSnapshotKey) : M (SnapshotStore U) (option (FoldSnapshot U)) :=
  s ← m_get;
  let mapKey := snapshotKey key in
  match jm_get mapKey (ss_snapshots s) with
  | None => mret None
  | Some found =>
      _ ← m_put (with_snapshots (jm_set mapKey found (jm_delete mapKey (ss_snapshots s))) s);
      mret (Some found)
  end.

(** The eviction loop: while the map is over the limit, its first key, the
    least recently used, is deleted; an empty map ends the loop. *)
Fixpoint evict (limit : Z) (m : list (jstr * FoldSnapshot U)) : list (jstr * FoldSnapshot U) :=
  if (Z.of_nat (length m) >? limit)%Z then
    match m with
    | [] => []
    | _ :: rest => evict limit rest
    end
  else m.

(** [write(snapshot)]. *)
Definition snapshot_write (snapshot : FoldSnapshot U) : M (SnapshotStore U) unit :=
  s ← m_get;
  let key := snapshotKey snapshot in
  let newer := match jm_get key (ss_snapshots s) with
    | Some existing => (fs_uptoSequence existing >=? fs_uptoSequence snapshot)%Z
    | None => false
    end in
  if newer then mret tt
  else m_put (with_snapshots
         (evict (ss_limit s) (jm_set key snapshot (jm_delete key (ss_snapshots s)))) s).

(** ** Bounds and recency *)

(** Eviction keeps exactly the most recently used entries. *)
Lemma evict_drop limit m :
  (0 <= limit)%Z → evict limit m = drop (length m - Z.to_nat limit) m.
Proof.
  intros Hl. induction m as [|e m IH]; cbn [evict]; [by destruct (_ >? _)%Z|].
  destruct (Z.gtb_spec (Z.of_nat (length (e :: m))) limit) as [Hgt|Hle]; simpl length in *.
  - replace (S (length m) - Z.to_nat limit) with (S (length m - Z.to_nat limit)) by lia. apply IH.
  - by replace (S (length m) - Z.to_nat limit) with 0 by lia.
Qed.

Lemma evict_nonpositive limit m : (limit < 0)%Z → evict limit m = [].
Proof.
  intros Hl. induction m as [|e m IH]; cbn [evict].
  - by destruct (_ >? _)%Z.
  - assert ((Z.of_nat (length (e :: m)) >? limit)%Z = true) as -> by (apply Z.gtb_lt; lia). done.
Qed.

Lemma evict_suffix limit m : ∃ gone, m = gone ++ evict limit m.
Proof.
  destruct (Z.le_gt_cases 0 limit) as [H|H].
  - rewrite evict_drop by done. eexists. symmetry. apply take_drop.
  - rewrite evict_nonpositive by lia. exists m. by rewrite app_nil_r.
Qed.

(** The invariant of the store: distinct keys, each entry under its own key,
    and no more entries than the limit. *)
Definition snapshots_ok (s : SnapshotStore U) : Prop :=
  jm_wf (ss_snapshots s) ∧
  (∀ k (x : FoldSnapshot U), (k, x) ∈ ss_snapshots s → k = snapshotKey x) ∧
  (Z.of_nat (length (ss_snapshots s)) <= Z.max 0 (ss_limit s))%Z.

Lemma moved_eq (k : jstr) (x : FoldSnapshot U) m :
  jm_wf m → jm_set k x (jm_delete k m) = jm_delete k m ++ [(k, x)].
Proof. intros Hwf. apply jm_set_new. apply jm_get_None. by apply jm_get_delete_eq. Qed.

Lemma jm_delete_sub k (m : list (jstr * FoldSnapshot U)) e : e ∈ jm_delete k m → e ∈ m.
Proof.
  induction m as [|[j y] m IH]; simpl; [done|]. destruct (decide (k = j)); [by right|].
  rewrite !elem_of_cons. naive_solver.
Qed.

Lemma snapshot_read_cases key s r s' :
  snapshots_ok s → snapshot_read key s = (r, s') →
  (jm_get (snapshotKey key) (ss_snapshots s) = None ∧ r = Ok None ∧ s' = s) ∨
  ∃ x, jm_get (snapshotKey key) (ss_snapshots s) = Some x ∧ r = Ok (Some x) ∧
    ss_snapshots s' = jm_delete (snapshotKey key) (ss_snapshots s) ++ [(snapshotKey key, x)] ∧
    ss_limit s' = ss_limit s.
Proof.
  intros (Hwf & _) H. unfold snapshot_read, m_get, m_put, mbind, M_bind, mret, M_ret in H.
  destruct (jm_get _ _) as [x|] eqn:E; [|left; by simplify_eq].
  right. exists x. rewrite moved_eq in H by done. by simplify_eq.
Qed.

Lemma snapshot_write_cases x s r s' :
  snapshots_ok s → snapshot_write x s = (r, s') →
  r = Ok tt ∧
  ((∃ y, jm_get (snapshotKey x) (ss_snapshots s) = Some y ∧
         (fs_uptoSequence x <= fs_uptoSequence y)%Z ∧ s' = s) ∨
   (∀ y, jm_get (snapshotKey x) (ss_snapshots s) = Some y → (fs_uptoSequence y < fs_uptoSequence x)%Z) ∧
   ss_snapshots s' = evict (ss_limit s)
     (jm_delete (snapshotKey x) (ss_snapshots s) ++ [(snapshotKey x, x)]) ∧
   ss_limit s' = ss_limit s).
Proof.
  intros (Hwf & _) H. unfold snapshot_write, m_get, m_put, mbind, M_bind, mret, M_ret in H.
  rewrite moved_eq in H by done.
  destruct (jm_get _ _) as [y|] eqn:E.
  - destruct (Z.geb_spec (fs_uptoSequence y) (fs_uptoSequence x)) as [Hge|Hlt]; simplify_eq;
      (split; [done|]); [left; by exists y|right].
    split_and!; [|done..]. intros ? [= <-]. lia.
  - simplify_eq. split; [done|]. right. by split_and!.
Qed.

Lemma moved_wf (k : jstr) (x : FoldSnapshot U) m :
  jm_wf m → jm_wf (jm_delete k m ++ [(k, x)]).
Proof. intros H. rewrite <-moved_eq by done. by apply jm_wf_set, jm_wf_delete. Qed.

Lemma jm_wf_suffix (m1 m2 : list (jstr * FoldSnapshot U)) : jm_wf (m1 ++ m2) → jm_wf m2.
Proof. unfold jm_wf, jm_keys. rewrite fmap_app. by intros (_ & _ & ?)%NoDup_app. Qed.

Lemma snapshot_read_ok key s r s' :
  snapshots_ok s → snapshot_read key s = (r, s') → snapshots_ok s'.
Proof.
  intros Hok H. pose proof Hok as (Hwf & Hk & Hlen).
  destruct (snapshot_read_cases _ _ _ _ Hok H) as [(_ & _ & ->)|(x & Hx & _ & Hs & Hl)]; [done|].
  split_and!; rewrite Hs.
  - by apply moved_wf.
  - intros k y [Hy%jm_delete_sub|[= -> ->]%list_elem_of_singleton]%elem_of_app; [by apply Hk|].
    apply Hk. by apply jm_get_elem_1.
  - rewrite length_app, Hl. simpl.
    rewrite <-(jm_delete_length (snapshotKey key) (ss_snapshots s)) in Hlen; [lia|].
    apply jm_get_elem_1 in Hx. by apply (list_elem_of_fmap_2 fst) in Hx.
Qed.

Lemma snapshot_write_ok x s r s' :
  snapshots_ok s → snapshot_write x s = (r, s') → snapshots_ok s'.
Proof.
  intros Hok H. pose proof Hok as (Hwf & Hk & Hlen).
  destruct (snapshot_write_cases _ _ _ _ Hok H) as [_ [(y & _ & _ & ->)|(_ & Hs & Hl)]]; [done|].
  set (m := jm_delete _ _ ++ _) in Hs. destruct (evict_suffix (ss_limit s) m) as [gone Hm].
  split_and!; rewrite Hs.
  - apply (jm_wf_suffix gone). rewrite <-Hm. by apply moved_wf.
  - intros k y Hy. assert (Hin : (k, y) ∈ m) by (rewrite Hm; apply elem_of_app; by right).
    apply elem_of_app in Hin as [Hin%jm_delete_sub|[= -> ->]%list_elem_of_singleton]; [|done].
    by apply Hk.
  - rewrite Hl. destruct (Z.le_gt_cases 0 (ss_limit s)).
    + rewrite evict_drop, length_drop by done. lia.
    + rewrite evict_nonpositive by lia. simpl. lia.
Qed.

(** One call by a reader or a writer of snapshots. *)
Inductive snapshot_step : SnapshotStore U → SnapshotStore U → Prop :=
| snapshot_step_read key s r s' : snapshot_read key s = (r, s') → snapshot_step s s'
| snapshot_step_write x s r s' : snapshot_write x s = (r, s') → snapshot_step s s'.

(** After any sequence of reads and writes the store holds at most [limit]
    snapshots, one per key. *)
Theorem snapshot_store_bounded s s' :
  rtc snapshot_step s s' → snapshots_ok s → snapshots_ok s'.
Proof.
  induction 1 as [|s1 s2 s3 Hstep _ IH]; [done|]. intros Hok. apply IH. clear IH.
  destruct Hstep; [by eapply snapshot_read_ok|by eapply snapshot_write_ok].
Qed.

(** A write that is not older than what its key holds becomes the most recently
    used entry, and what eviction drops are the least recently used entries:
    the map afterwards is the last [limit] of the uses.  An older snapshot that
    arrives late changes nothing. *)
Theorem snapshot_write_newest x s :
  snapshots_ok s → (1 <= ss_limit s)%Z →
  ∃ s', snapshot_write x s = (Ok tt, s') ∧
  match jm_get (snapshotKey x) (ss_snapshots s) with
  | Some y =>
      if (fs_uptoSequence x <=? fs_uptoSequence y)%Z then s' = s
      else ss_snapshots s' = jm_delete (snapshotKey x) (ss_snapshots s) ++ [(snapshotKey x, x)]
  | None =>
      let uses := ss_snapshots s ++ [(snapshotKey x, x)] in
      ss_snapshots s' = drop (length uses - Z.to_nat (ss_limit s)) uses
  end ∧
  ∃ y, jm_get (snapshotKey x) (ss_snapshots s') = Some y ∧
       (fs_uptoSequence x <= fs_uptoSequence y)%Z.
Proof.
  intros Hok Hlim. pose proof Hok as (Hwf & Hk & Hlen).
  destruct (snapshot_write x s) as [r s'] eqn:E. exists s'.
  pose proof (snapshot_write_ok _ _ _ _ Hok E) as (Hwf' & _ & _).
  destruct (snapshot_write_cases _ _ _ _ Hok E) as [-> [(y & Hy & Hle & ->)|(Hlt & Hs & Hl)]].
  - split; [done|]. rewrite Hy. split; [|by exists y]. by rewrite (proj2 (Z.leb_le _ _) Hle).
  - split; [done|]. rewrite Hs. split.
    + destruct (jm_get _ _) as [y|] eqn:Ey.
      * assert ((fs_uptoSequence x <=? fs_uptoSequence y)%Z = false) as ->.
        { apply Z.leb_gt. by apply Hlt. }
        rewrite evict_drop by lia. rewrite length_app. simpl.
        assert (Hd : S (length (jm_delete (snapshotKey x) (ss_snapshots s))) = length (ss_snapshots s)).
        { apply jm_delete_length. apply jm_get_elem_1 in Ey. by apply (list_elem_of_fmap_2 fst) in Ey. }
        by replace (_ - _) with 0 by lia.
      * apply jm_get_None in Ey. rewrite jm_delete_notin by done. rewrite evict_drop by lia. done.
    + exists x. split; [|lia]. rewrite Hs in Hwf'. apply jm_get_elem; [done|].
      rewrite evict_drop by lia. rewrite length_app. simpl.
      rewrite drop_app_le by lia. apply elem_of_app. right. left.
Qed.
End store.

(** ** Keys *)

(** Fold names are identifiers: they hold no space. *)
Definition key_ok (key : FoldSnapshotKey) : Prop := 32%N ∉ fk_foldName key.

Lemma dec_Z_no_space z : 32%N ∉ dec_Z z.
Proof.
  assert (H : ∀ n, 32%N ∉ dec n).
  { intros n Hn. pose proof (dec_all_digits n) as Hd. rewrite forallb_In in Hd.
    by specialize (Hd _ Hn). }
  unfold dec_Z. destruct (z <? 0)%Z; [|apply H]. rewrite not_elem_of_cons. split; [done|apply H].
Qed.

(** The last separator splits off the version, the one before it the name. *)
Lemma snapshotKey_inj k1 k2 :
  key_ok k1 → key_ok k2 → snapshotKey k1 = snapshotKey k2 → k1 = k2.
Proof.
  destruct k1 as [s1 n1 v1], k2 as [s2 n2 v2]. unfold key_ok, snapshotKey. simpl.
  intros H1 H2 E. apply (f_equal reverse) in E.
  repeat rewrite ?reverse_app, ?reverse_cons, <-?app_assoc in E. simpl in E.
  assert (Hr : ∀ (l : jstr), 32%N ∉ l → 32%N ∉ reverse l) by (intros l; by rewrite elem_of_reverse).
  apply split_at_unique in E as [Ev E]; [|apply Hr, dec_Z_no_space..].
  apply split_at_unique in E as [En Es]; [|by apply Hr..].
  apply (inj reverse), dec_Z_inj in Ev. apply (inj reverse) in En, Es. by subst.
Qed.

(** ** The port

    What a reader may rely on, for any implementation: calls may throw, may
    forget snapshots, and only return what was written under the same key. *)
Class SnapshotPort (S U : Type) := {
  sp_read : FoldSnapshotKey → M S (option (FoldSnapshot U));
  sp_write : FoldSnapshot U → M S unit;
  sp_inv : S → Prop;
  sp_holds : S → FoldSnapshot U → Prop;
  sp_read_spec key s r s' :
    sp_inv s → key_ok key → sp_read key s = (r, s') →
    sp_inv s' ∧ (∀ y, sp_holds s' y → sp_holds s y) ∧
    ∀ x, r = Ok (Some x) → sp_holds s x ∧ fs_key x = key;
  sp_write_spec (x : FoldSnapshot U) s r s' :
    sp_inv s → key_ok x → sp_write x s = (r, s') →
    sp_inv s' ∧ ∀ y, sp_holds s' y → sp_holds s y ∨ y = x
}.

Section in_memory.
Context {U : Type}.

Definition in_memory_inv (s : SnapshotStore U) : Prop :=
  snapshots_ok s ∧ ∀ k (x : FoldSnapshot U), (k, x) ∈ ss_snapshots s → key_ok x.

Definition in_memory_holds (s : SnapshotStore U) (x : FoldSnapshot U) : Prop :=
  (snapshotKey x, x) ∈ ss_snapshots s.

Lemma in_memory_read_spec key s r s' :
  in_memory_inv s → key_ok key → snapshot_read key s = (r, s') →
  in_memory_inv s' ∧ (∀ y, in_memory_holds s' y → in_memory_holds s y) ∧
  ∀ x, r = Ok (Some x) → in_memory_holds s x ∧ fs_key x = key.
Proof.
  intros [Hok Hn] Hkey H. pose proof (snapshot_read_ok _ _ _ _ Hok H) as Hok'.
  destruct (snapshot_read_cases _ _ _ _ Hok H) as [(_ & -> & ->)|(x & Hx & -> & Hs & _)].
  - split_and!; [done..|]. by intros ? [=].
  - apply jm_get_elem_1 in Hx. pose proof Hok as (_ & Hk & _).
    assert (Hsub : ∀ e, e ∈ ss_snapshots s' → e ∈ ss_snapshots s).
    { intros e. rewrite Hs. intros [?%jm_delete_sub| ->%list_elem_of_singleton]%elem_of_app; done. }
    split_and!.
    + split; [done|]. intros k y Hy. by apply (Hn k), Hsub.
    + intros y. apply Hsub.
    + intros y [= <-]. pose proof (Hk _ _ Hx) as E. split.
      * unfold in_memory_holds. by rewrite <-E.
      * apply snapshotKey_inj; [|done|done]. by apply (Hn _ _ Hx).
Qed.

Lemma in_memory_write_spec (x : FoldSnapshot U) s r s' :
  in_memory_inv s → key_ok x → snapshot_write x s = (r, s') →
  in_memory_inv s' ∧ ∀ y, in_memory_holds s' y → in_memory_holds s y ∨ y = x.
Proof.
  intros [Hok Hn] Hkey H. pose proof (snapshot_write_ok _ _ _ _ Hok H) as Hok'.
  destruct (snapshot_write_cases _ _ _ _ Hok H) as [_ [(y & _ & _ & ->)|(_ & Hs & _)]].
  { split; [done|]. by left. }
  assert (Hsub : ∀ e, e ∈ ss_snapshots s' → e ∈ ss_snapshots s ∨ e = (snapshotKey x, x)).
  { intros e He. set (m := jm_delete _ _ ++ _) in Hs.
    destruct (evict_suffix (ss_limit s) m) as [gone Hm].
    assert (e ∈ m) as [?%jm_delete_sub| ->%list_elem_of_singleton]%elem_of_app; auto.
    rewrite Hm. apply elem_of_app. right. by rewrite <-Hs. }
  split; [split; [done|]|].
  - intros k y [Hy|[= -> ->]]%Hsub; [by apply (Hn k)|done].
  - intros y [Hy|[= _ ->]]%Hsub; [by left|by right].
Qed.

#[export] Instance in_memory_port : SnapshotPort (SnapshotStore U) U := {
  sp_read := snapshot_read;
  sp_write := snapshot_write;
  sp_inv := in_memory_inv;
  sp_holds := in_memory_holds;
  sp_read_spec := in_memory_read_spec;
  sp_write_spec := in_memory_write_spec
}.
End in_memory.

(** A store that always fails. *)
Program Definition failing_port U : SnapshotPort unit U := {|
  sp_read _ := m_throw (FrameworkError PLAIN_ERROR 500);
  sp_write _ := m_throw (FrameworkError PLAIN_ERROR 500);
  sp_inv _ := True;
  sp_holds _ _ := False
|}.
Next Obligation. intros U key s r s' _ _ [= <- _]. split_and!; [done..|]. by intros x [=]. Qed.
Next Obligation. intros U x s r s' _ _ _. split; [done|]. by left. Qed.

(** ** Witnesses *)
Definition sample_key : FoldSnapshotKey :=
  {| fk_stream := sample_stream; fk_foldName := js "document"; fk_foldVersion := 1 |}.
Definition sample_fold_snapshot (n : Z) : FoldSnapshot Z :=
  {| fs_key := sample_key; fs_uptoSequence := n; fs_state := n |}.

Lemma new_snapshot_store_ok U limit : snapshots_ok (new_snapshot_store U limit).
Proof.
  split_and!; [apply jm_wf_nil|by intros k x ?%elem_of_nil|]. simpl. lia.
Qed.

Lemma snapshot_store_bounded_witness :
  snapshots_ok (snapshot_write (sample_fold_snapshot 3) (new_snapshot_store Z (Some 2%Z))).2.
Proof.
  apply (snapshot_store_bounded (new_snapshot_store Z (Some 2%Z))); [|apply new_snapshot_store_ok].
  apply rtc_once. eapply snapshot_step_write. apply surjective_pairing.
Defined.

Lemma snapshot_write_newest_witness :
  ∃ s', snapshot_write (sample_fold_snapshot 3) (new_snapshot_store Z (Some 2%Z)) = (Ok tt, s') ∧
    ss_snapshots s' = [(snapshotKey sample_key, sample_fold_snapshot 3)].
Proof.
  destruct (snapshot_write_newest (sample_fold_snapshot 3) (new_snapshot_store Z (Some 2%Z)))
    as (s' & H1 & H2 & _); [apply new_snapshot_store_ok|simpl; lia|].
  exists s'. split; [exact H1|exact H2].
Defined.
