(* ===== verification/FoldSnapshots.v ===== *)
(** * FoldSnapshots: reading a stream forward from a snapshot

    Models [application/document-fold-snapshots.ts] and
    [application/stream-fold-snapshots.ts].  Both are written against any event
    log ([StreamLog]) and any snapshot store ([SnapshotPort]); the theorems are
    their safety rule: a snapshot may always be ignored, and ignoring it gives
    the same answer. *)

From S2P Require Export SnapshotStore.

Definition DOCUMENT_FOLD_NAME : jstr := js "document".
Definition DOCUMENT_FOLD_VERSION : Z := 1.

(** [StreamFold<State>] with its codec; [foldFrom] and [decode] may throw. *)
Record StreamFold (State U : Type) := {
  sf_name : jstr;
  sf_version : Z;
  sf_payloadKinds : option (list jstr);
  sf_foldFrom : option State → list DomainEvent → res State;
  sf_encode : State → U;
  sf_decode : U → res (option State)
}.
Arguments sf_name {State U} _.
Arguments sf_version {State U} _.
Arguments sf_payloadKinds {State U} _.
Arguments sf_foldFrom {State U} _ _ _.
Arguments sf_encode {State U} _ _.
Arguments sf_decode {State U} _ _.

(** [try { m } catch { recover }], keeping the effects of [m]. *)
Definition m_catch {S A} (m : M S A) (recover : M S A) : M S A := λ s,
  match m s with
  | (Ok a, s') => (Ok a, s')
  | (Throw _, s') => recover s'
  end.

Section stream_folds.
Context {L S U State : Type} `{StreamLog L} `{SnapshotPort S U}.

(** The snapshot key of a fold over a stream. *)
Definition fold_key (stream : jstr) (fold : StreamFold State U) : FoldSnapshotKey :=
  {| fk_stream := stream; fk_foldName := sf_name fold; fk_foldVersion := sf_version fold |}.

(** [read(stream, fold)]: a store that is absent or throws, a missing snapshot
    and a state that does not decode are all a miss. *)
Definition fold_read (enabled : bool) (stream : jstr) (fold : StreamFold State U)
    : M S (option (Z * State)) :=
  if negb enabled then mret None
  else m_catch
    (stored ← sp_read (fold_key stream fold);
     match stored with
     | None => mret None
     | Some stored =>
         state ← m_lift (sf_decode fold (fs_state stored));
         match state with
         | None => mret None
         | Some state => mret (Some (fs_uptoSequence stored, state))
         end
     end)
    (mret None).

(** The options of both reads of [resume]. *)
Definition fold_options (fold : StreamFold State U) (minSequence : option Z) : ReadStreamOptions :=
  {| rso_payloadKinds := sf_payloadKinds fold; rso_minSequence := minSequence;
     rso_maxSequence := None; rso_limit := None |}.

(** [resume(stream, fold)]; [enabled] says whether there is a snapshot store. *)
Definition fold_resume (enabled : bool) (log : L) (stream : jstr) (fold : StreamFold State U) : M S State :=
  base ← fold_read enabled stream fold;
  let cold := m_lift (events ← sl_read log stream (fold_options fold None); sf_foldFrom fold None events) in
  match base with
  | Some (uptoSequence, state) =>
      m_catch (m_lift (events ← sl_read log stream (fold_options fold (Some (uptoSequence + 1)%Z));
                       sf_foldFrom fold (Some state) events)) cold
  | None => cold
  end.

(** [record(stream, fold, state, uptoSequence)]. *)
Definition fold_record (enabled : bool) (stream : jstr) (fold : StreamFold State U) (state : State)
    (uptoSequence : Z) : M S unit :=
  if negb enabled || (uptoSequence <=? 0)%Z then mret tt
  else m_catch (sp_write {| fs_key := fold_key stream fold; fs_uptoSequence := uptoSequence;
                            fs_state := sf_encode fold state |}) (mret tt).

(** ** Soundness of snapshots *)

(** What the fold reads of a list of events. *)
Definition fold_sees (fold : StreamFold State U) (events : list DomainEvent) : list DomainEvent :=
  selected (fold_options fold None) events.

(** The laws of a fold that [StreamFold] asks its owner for: a fold resumed
    from the state of a prefix is the fold of the whole, and [decode] gives back
    what was encoded or does not recognise it. *)
Class LawfulFold (fold : StreamFold State U) : Prop := {
  lf_resume prefix tail :
    follows prefix tail →
    sf_foldFrom fold None (prefix ++ tail) =
    sf_foldFrom fold None prefix ≫= λ state, sf_foldFrom fold (Some state) tail;
  lf_decode state : match sf_decode fold (sf_encode fold state) with
    | Ok (Some state') => state' = state
    | _ => True
    end;
  lf_name : 32%N ∉ sf_name fold
}.

(** A snapshot that tells the truth about its stream in [log]. *)
Definition snapshot_sound (log : L) (stream : jstr) (fold : StreamFold State U) (x : FoldSnapshot U) : Prop :=
  fs_key x = fold_key stream fold →
  ∃ n state, fs_uptoSequence x = Z.of_nat n ∧ n ≤ length (sl_events log stream) ∧
    sf_foldFrom fold None (fold_sees fold (take n (sl_events log stream))) = Ok state ∧
    fs_state x = sf_encode fold state.

Definition store_sound (log : L) (stream : jstr) (fold : StreamFold State U) (s : S) : Prop :=
  sp_inv s ∧ ∀ x, sp_holds s x → snapshot_sound log stream fold x.

Lemma fold_sees_tail fold events n :
  contiguous events →
  selected (fold_options fold (Some (Z.of_nat n + 1)%Z)) events = fold_sees fold (drop n events).
Proof.
  intros Hc. rewrite <-(selected_from events n Hc). unfold fold_sees, selected.
  rewrite list_filter_filter. apply list_filter_iff. intros e. unfold read_matches. simpl.
  destruct (Z.of_nat n + 1 <=? e_sequence e)%Z; simpl; naive_solver.
Qed.

Lemma fold_sees_app fold l1 l2 : fold_sees fold (l1 ++ l2) = fold_sees fold l1 ++ fold_sees fold l2.
Proof. apply filter_app. Qed.

Lemma fold_sees_follows fold events n :
  contiguous events → follows (fold_sees fold (take n events)) (fold_sees fold (drop n events)).
Proof.
  intros Hc x y [_ Hx]%list_elem_of_filter [_ Hy]%list_elem_of_filter.
  apply list_elem_of_lookup in Hx as [i Hi], Hy as [j Hj].
  apply lookup_take_Some in Hi as [Hi Hlt]. rewrite lookup_drop in Hj.
  rewrite (Hc _ _ Hi), (Hc _ _ Hj). lia.
Qed.

Lemma fold_read_spec enabled log stream fold s `{!LawfulFold fold} r s' :
  store_sound log stream fold s → fold_read enabled stream fold s = (r, s') →
  store_sound log stream fold s' ∧
  ∃ base, r = Ok base ∧ ∀ upto state, base = Some (upto, state) →
    ∃ n, upto = Z.of_nat n ∧
      sf_foldFrom fold None (fold_sees fold (take n (sl_events log stream))) = Ok state.
Proof.
  intros [Hinv Hs] Hr. unfold fold_read in Hr. destruct enabled; cbn [negb] in Hr.
  2:{ unfold mret, M_ret in Hr. injection Hr as <- <-. split; [done|]. by exists None. }
  unfold m_catch in Hr. rewrite m_bind_run in Hr.
  assert (Hname : key_ok (fold_key stream fold)) by apply lf_name.
  destruct (sp_read (fold_key stream fold) s) as [[stored|e] s1] eqn:E;
    destruct (sp_read_spec _ _ _ _ Hinv Hname E) as (Hinv' & Hmono & Hget).
  all: assert (Hs' : store_sound log stream fold s1) by (split; [done|]; intros y Hy; by apply Hs, Hmono).
  2:{ injection Hr as <- <-. split; [done|]. by exists None. }
  destruct stored as [x|]; [|injection Hr as <- <-; split; [done|by exists None]].
  destruct (Hget x eq_refl) as [Hx Hk]. destruct (Hs x Hx Hk) as (n & state & Hup & _ & Hf & He).
  rewrite m_bind_run, He in Hr. unfold m_lift in Hr.
  pose proof (lf_decode (fold := fold) state) as Hd.
  destruct (sf_decode fold (sf_encode fold state)) as [[state'|]|e];
    injection Hr as <- <-; (split; [done|]); eexists; (split; [done|]); [|done..].
  intros ? ? [= <- <-]. subst state'. by exists n.
Qed.

(** [resume] on every log and store. *)
Lemma fold_resume_cold enabled log stream fold s `{!LawfulFold fold} :
  sl_wf log → store_sound log stream fold s →
  (fold_resume enabled log stream fold s).1 =
    sf_foldFrom fold None (fold_sees fold (sl_events log stream)) ∧
  store_sound log stream fold (fold_resume enabled log stream fold s).2.
Proof.
  intros Hwf Hs. unfold fold_resume. rewrite m_bind_run.
  destruct (fold_read enabled stream fold s) as [r s'] eqn:E.
  destruct (fold_read_spec _ _ _ _ _ _ _ Hs E) as [Hs' (base & -> & Hb)].
  rewrite sl_read_ok by done. cbn [mbind res_bind].
  destruct base as [[upto state]|]; [|done].
  destruct (Hb _ _ eq_refl) as (n & -> & Hf).
  unfold m_catch, m_lift. rewrite sl_read_ok by done. cbn [mbind res_bind].
  rewrite fold_sees_tail by by apply sl_contiguous.
  pose proof (lf_resume (fold := fold) (fold_sees fold (take n (sl_events log stream)))
    (fold_sees fold (drop n (sl_events log stream)))) as Hres.
  rewrite Hf, <-fold_sees_app, take_drop in Hres. cbn [mbind res_bind] in Hres.
  rewrite <-Hres by (apply fold_sees_follows; by apply sl_contiguous).
  fold (fold_sees fold (sl_events log stream)).
  destruct (sf_foldFrom fold None (fold_sees fold (sl_events log stream))); (split; [done|exact Hs']).
Qed.

(** The safety rule of [StreamFoldSnapshots]: whatever the snapshot store does
    (it may be absent, throw, forget or return state that does not decode),
    [resume] is the fold of the whole stream, also when that fold throws. *)
Theorem stream_snapshot_ignorable enabled log stream fold s :
  LawfulFold fold → sl_wf log → store_sound log stream fold s →
  (fold_resume enabled log stream fold s).1 =
    sf_foldFrom fold None (fold_sees fold (sl_events log stream)).
Proof. intros. by apply fold_resume_cold. Qed.

(** [record] keeps the store sound when the caller records the fold of what the
    stream holds up to the sequence it names; a write that throws is ignored. *)
Lemma fold_record_sound enabled log stream fold s state n `{!LawfulFold fold} :
  store_sound log stream fold s → n ≤ length (sl_events log stream) →
  sf_foldFrom fold None (fold_sees fold (take n (sl_events log stream))) = Ok state →
  ∃ s', fold_record enabled stream fold state (Z.of_nat n) s = (Ok tt, s') ∧
        store_sound log stream fold s'.
Proof.
  intros [Hinv Hs] Hn Hf. unfold fold_record.
  destruct (negb enabled || _); [by exists s|]. unfold m_catch.
  destruct (sp_write _ s) as [r s'] eqn:E.
  apply sp_write_spec in E as [Hinv' Hw]; [|done|apply lf_name].
  assert (store_sound log stream fold s').
  { split; [done|]. intros y [Hy| ->]%Hw; [by apply Hs|]. intros _. by exists n, state. }
  exists s'. by destruct r as [[]|].
Qed.

(** Appending to the log keeps sound snapshots sound: they speak of a prefix. *)
Lemma store_sound_extends log log' stream fold s :
  sl_events log stream `prefix_of` sl_events log' stream →
  store_sound log stream fold s → store_sound log' stream fold s.
Proof.
  intros [rest E] [Hinv Hs]. split; [done|]. intros x Hx Hk.
  destruct (Hs x Hx Hk) as (n & state & H1 & H2 & H3 & H4). exists n, state.
  rewrite E, length_app, take_app_le by done. split_and!; [done|lia|done..].
Qed.
End stream_folds.

(** ** Documents *)

Section documents.
Context {L S : Type} `{StreamLog L} `{SnapshotPort S (option DocumentSnapshot)}.

Definition document_fold_key (stream : jstr) : FoldSnapshotKey :=
  {| fk_stream := stream; fk_foldName := DOCUMENT_FOLD_NAME; fk_foldVersion := DOCUMENT_FOLD_VERSION |}.

(** [structuredClone] of plain data: an equal copy. *)
Definition structuredClone {A} (x : A) : A := x.

(** [DocumentFoldSnapshots.read(stream)]. *)
Definition document_read (enabled : bool) (stream : jstr)
    : M S (option (FoldSnapshot (option DocumentSnapshot))) :=
  if negb enabled then mret None
  else m_catch (sp_read (document_fold_key stream)) (mret None).

(** [DocumentFoldSnapshots.resume(stream)]. *)
Definition document_resume (enabled : bool) (log : L) (stream : jstr) : M S (option DocumentSnapshot) :=
  base ← document_read enabled stream;
  let cold := m_lift (events ← sl_read log stream no_options; foldDocument events) in
  match base with
  | Some base =>
      m_catch (m_lift (events ← sl_read log stream (from_sequence (fs_uptoSequence base + 1));
                       foldDocumentFrom (structuredClone (fs_state base)) events)) cold
  | None => cold
  end.

(** [DocumentFoldSnapshots.record(stream, commit)]. *)
Definition document_record (enabled : bool) (stream : jstr) (commit : DocumentCommit) : M S unit :=
  if negb enabled then mret tt
  else match last (mine (dc_events commit) stream) with
    | None => mret tt
    | Some event =>
        m_catch (sp_write {| fs_key := document_fold_key stream; fs_uptoSequence := e_sequence event;
                             fs_state := structuredClone (Some (dc_snapshot commit)) |}) (mret tt)
    end.

(** The document fold as a [StreamFold] whose stored form is the state itself. *)
Definition document_fold : StreamFold (option DocumentSnapshot) (option DocumentSnapshot) :=
  {| sf_name := DOCUMENT_FOLD_NAME; sf_version := DOCUMENT_FOLD_VERSION; sf_payloadKinds := None;
     sf_foldFrom prior events := foldDocumentFrom (mjoin prior) events;
     sf_encode state := state; sf_decode stored := Ok (Some stored) |}.

#[export] Instance document_fold_lawful : LawfulFold document_fold.
Proof.
  split.
  - intros prefix tail Hf. simpl. by apply foldDocumentFrom_app.
  - done.
  - apply (bool_decide_unpack _). vm_compute. exact I.
Qed.

Lemma document_resume_eq enabled log stream s :
  document_resume enabled log stream s = fold_resume enabled log stream document_fold s.
Proof.
  unfold document_resume, fold_resume, document_read, fold_read, m_catch. rewrite !m_bind_run.
  destruct enabled; [|done]. cbn [negb]. rewrite m_bind_run.
  change (fold_key stream document_fold) with (document_fold_key stream).
  by destruct (sp_read (document_fold_key stream) s) as [[[x|]|e] s'].
Qed.

Lemma document_sees events : fold_sees document_fold events = events.
Proof. by apply filter_all. Qed.

Lemma document_resume_cold enabled log stream s :
  sl_wf log → store_sound log stream document_fold s →
  (document_resume enabled log stream s).1 = foldDocument (sl_events log stream).
Proof.
  intros Hwf Hs. rewrite document_resume_eq.
  by rewrite (proj1 (fold_resume_cold enabled log stream document_fold s Hwf Hs)), document_sees.
Qed.

(** The safety rule of [DocumentFoldSnapshots]: whatever the snapshot store
    does, [resume] is the fold of the document's whole stream. *)
Theorem document_snapshot_ignorable enabled log stream s :
  sl_wf log → store_sound log stream document_fold s →
  (document_resume enabled log stream s).1 = foldDocument (sl_events log stream).
Proof. apply document_resume_cold. Qed.

Lemma document_record_sound enabled log stream c s :
  store_sound log stream document_fold s → contiguous (sl_events log stream) →
  (∃ rest, sl_events log stream = rest ++ mine (dc_events c) stream) →
  foldDocument (sl_events log stream) = Ok (Some (dc_snapshot c)) →
  ∃ s', document_record enabled stream c s = (Ok tt, s') ∧ store_sound log stream document_fold s'.
Proof.
  intros Hs Hc [rest E] Hf. unfold document_record. destruct enabled; [|by exists s]. cbn [negb].
  destruct (last (mine (dc_events c) stream)) as [event|] eqn:Hl; [|by exists s].
  assert (Hseq : e_sequence event = Z.of_nat (length (sl_events log stream))).
  { rewrite last_lookup in Hl. set (own := mine (dc_events c) stream) in *.
    rewrite (Hc (length rest + pred (length own)) event).
    - rewrite E, length_app. apply lookup_lt_Some in Hl. lia.
    - rewrite E, lookup_app_r by lia. by replace (_ - _) with (pred (length own)) by lia. }
  assert (Hpos : 0 < length (sl_events log stream)).
  { rewrite E, length_app. destruct (mine (dc_events c) stream); [done|simpl; lia]. }
  destruct (fold_record_sound true log stream document_fold s (Some (dc_snapshot c))
    (length (sl_events log stream)) Hs) as (s' & Hr & Hs'); [done|by rewrite firstn_all, document_sees|].
  exists s'. split; [|done]. rewrite <-Hr. unfold fold_record. simpl negb.
  assert ((Z.of_nat (length (sl_events log stream)) <=? 0)%Z = false) as -> by lia.
  by rewrite Hseq.
Qed.
End documents.

(** A commit, its [record] and a later [resume] on the in-memory stores: when
    the service commits the fold of the document's stream, the next [resume]
    answers with the committed snapshot, and the stores stay in agreement. *)
Theorem document_commit_resume entries project stream s c s' snaps :
  wf_streams (st_streams s) → batch_ok entries → stream ∈ entry_streams entries →
  store_sound s stream document_fold snaps →
  commitBatch entries project s = (Ok c, s') →
  foldDocument (stream_events (st_streams s') stream) = Ok (Some (dc_snapshot c)) →
  ∃ snaps' : SnapshotStore (option DocumentSnapshot),
    document_record true stream c snaps = (Ok tt, snaps') ∧
    store_sound s' stream document_fold snaps' ∧
    (document_resume true s' stream snaps').1 = Ok (Some (dc_snapshot c)).
Proof.
  intros Hwf Hb Hin Hs Hc Hf.
  pose proof (commitBatch_cases entries project s Hwf Hb) as H. rewrite Hc in H.
  destruct H as (p & _ & _ & _ & Hw & _). pose proof (proj1 Hw) as Hwf'.
  assert (Hs1 : store_sound s' stream document_fold snaps).
  { eapply store_sound_extends; [|exact Hs]. by eapply batch_written_prefix. }
  apply list_elem_of_fmap in Hin as (entry & -> & He).
  destruct (document_record_sound true s' (ae_stream entry) c snaps Hs1) as (snaps' & Hr & Hs');
    [by apply sl_contiguous| |done|].
  { exists (stream_events (st_streams s) (ae_stream entry)). by apply Hw. }
  exists snaps'. split; [exact Hr|]. split; [exact Hs'|]. rewrite <-Hf.
  exact (document_resume_cold true s' (ae_stream entry) snaps' Hwf' Hs').
Qed.

(** ** Witnesses *)

Definition sample_store : DocumentStore :=
  with_streams (λ _, (append sample_stream 0 sample_news []).2) empty_store.

Lemma sample_store_wf : wf_streams (st_streams sample_store).
Proof.
  eapply (append_step sample_stream 0 sample_news []);
    [apply wf_streams_nil|apply sample_news_stream|apply surjective_pairing].
Qed.

(** A store that holds a snapshot of the first two events. *)
Definition sample_snapshots : SnapshotStore (option DocumentSnapshot) :=
  match foldDocument [sample_created; sample_updated] with
  | Ok state => {| ss_snapshots := [(snapshotKey (document_fold_key sample_stream),
      {| fs_key := document_fold_key sample_stream; fs_uptoSequence := 2; fs_state := state |})];
      ss_limit := 1 |}
  | Throw _ => new_snapshot_store _ None
  end.

Lemma sample_snapshots_sound : store_sound sample_store sample_stream document_fold sample_snapshots.
Proof.
  split.
  - split; [split_and!; [apply NoDup_singleton| |done]|];
      intros k x [= -> ->]%list_elem_of_singleton; [done|].
    apply (bool_decide_unpack _). vm_compute. exact I.
  - intros x [= _ ->]%list_elem_of_singleton _. eexists 2, _. split_and!; [done| |done|done].
    vm_compute. lia.
Qed.

Lemma document_snapshot_ignorable_witness :
  (document_resume true sample_store sample_stream sample_snapshots).1 = foldDocument sample_history.
Proof.
  exact (document_snapshot_ignorable true sample_store sample_stream sample_snapshots
    sample_store_wf sample_snapshots_sound).
Defined.

Lemma stream_snapshot_ignorable_witness :
  (fold_resume true sample_store sample_stream document_fold sample_snapshots).1
  = foldDocumentFrom None sample_history.
Proof.
  exact (stream_snapshot_ignorable true sample_store sample_stream document_fold sample_snapshots
    document_fold_lawful sample_store_wf sample_snapshots_sound).
Defined.

Definition sample_project (saved : list DomainEvent) : res BatchProjection :=
  folded ← foldDocument (sample_history ++ saved);
  match folded with
  | Some snapshot => Ok {| bp_snapshot := snapshot; bp_auxiliarySnapshots := None |}
  | None => Throw (notFound DOCUMENT_NOT_FOUND)
  end.

Lemma document_commit_resume_witness :
  let entries := [{| ae_stream := sample_stream; ae_expectedVersion := 3;
                     ae_events := [sample_new sample_stream PDocumentCancelled] |}] in
  ∃ c s' snaps', commitBatch entries sample_project sample_store = (Ok c, s') ∧
    ds_docstatus (dc_snapshot c) = Cancelled ∧
    (document_resume true s' sample_stream snaps').1 = Ok (Some (dc_snapshot c)).
Proof.
  intros entries. destruct (commitBatch entries sample_project sample_store) as [r s'] eqn:E.
  assert (∃ c, r = Ok c ∧ ds_docstatus (dc_snapshot c) = Cancelled ∧
    foldDocument (stream_events (st_streams s') sample_stream) = Ok (Some (dc_snapshot c)))
    as (c & -> & Hst & Hf).
  { pose proof (f_equal fst E) as E1. pose proof (f_equal (λ p, st_streams p.2) E) as E2.
    simpl in E1, E2. rewrite <-E1, <-E2. vm_compute. eexists. split_and!; reflexivity. }
  destruct (document_commit_resume entries sample_project sample_stream sample_store c s' sample_snapshots)
    as (snaps' & _ & _ & H); [exact sample_store_wf| |left|exact sample_snapshots_sound|exact E|exact Hf|].
  { split; [apply NoDup_singleton|]. intros entry ->%list_elem_of_singleton ev ->%list_elem_of_singleton.
    reflexivity. }
  exists c, s', snaps'. split; [reflexivity|]. split; [exact Hst|exact H].
Defined.
