(* ===== verification/Streams.v ===== *)
(** * Streams: the names of event streams

    Models [core/streams.ts].  [encodeURIComponent] is the language's: UTF-16
    code units are paired into code points, a lone surrogate throws, and every
    code point outside the unreserved set becomes the percent-escaped bytes of
    its UTF-8 form.  The theorems: stream names of different documents differ,
    and the internal families of streams are disjoint. *)

From S2P Require Export DomainEvents.

(** ** [encodeURIComponent] *)

Definition is_high (u : N) : bool := ((55296 <=? u) && (u <=? 56319))%N.
Definition is_low (u : N) : bool := ((56320 <=? u) && (u <=? 57343))%N.

Definition pair_code_point (high low : N) : N := (65536 + (high - 55296) * 1024 + (low - 56320))%N.

(** The code points of a string, or a [URIError] on a lone surrogate.  A list of
    numbers that are not code units is no string, and has none. *)
Fixpoint code_points (s : jstr) : res (list N) :=
  match s with
  | [] => Ok []
  | u :: rest =>
      if is_high u then
        match rest with
        | l :: rest' =>
            if is_low l then points ← code_points rest'; Ok (pair_code_point u l :: points)
            else Throw (FrameworkError PLAIN_ERROR 500)
        | [] => Throw (FrameworkError PLAIN_ERROR 500)
        end
      else if is_low u || (65536 <=? u)%N then Throw (FrameworkError PLAIN_ERROR 500)
      else points ← code_points rest; Ok (u :: points)
  end.

(** [A-Z a-z 0-9 - _ . ! ~ * ' ( )]. *)
Definition unreserved (c : N) : bool :=
  ((65 <=? c) && (c <=? 90) || (97 <=? c) && (c <=? 122) || (48 <=? c) && (c <=? 57))%N ||
  bool_decide (c ∈ [45; 95; 46; 33; 126; 42; 39; 40; 41]%N).

Definition utf8 (c : N) : list N :=
  if (c <? 128)%N then [c]
  else if (c <? 2048)%N then [192 + c / 64; 128 + c mod 64]%N
  else if (c <? 65536)%N then [224 + c / 4096; 128 + (c / 64) mod 64; 128 + c mod 64]%N
  else [240 + c / 262144; 128 + (c / 4096) mod 64; 128 + (c / 64) mod 64; 128 + c mod 64]%N.

Definition hex_digit (d : N) : N := if (d <? 10)%N then (48 + d)%N else (55 + d)%N.
Definition percent (byte : N) : jstr := [37%N; hex_digit (byte / 16); hex_digit (byte mod 16)].

Definition encode_point (c : N) : jstr :=
  if unreserved c then [c] else flat_map percent (utf8 c).

Definition encodeURIComponent (s : jstr) : res jstr :=
  points ← code_points s; Ok (flat_map encode_point points).

(** [value.replaceAll(".", "%2E")]. *)
Definition escape_dot (c : N) : jstr := if decide (c = 46%N) then js "%2E" else [c].

(** [escapePart(value)]. *)
Definition escapePart (s : jstr) : res jstr :=
  encoded ← encodeURIComponent s; Ok (flat_map escape_dot encoded).

(** ** Stream names *)

(** [documentStream(tenantId, doctype, name)]. *)
Definition documentStream (tenantId doctype name : jstr) : res jstr :=
  t ← escapePart tenantId;
  d ← escapePart doctype;
  n ← escapePart name;
  Ok (t ++ js ":" ++ d ++ js ":" ++ n).

Definition namingSeriesStream (tenantId doctype counter scope : jstr) : res jstr :=
  documentStream tenantId (js "__NamingSeries")
    (doctype ++ js ":" ++ counter ++ (if decide (scope = []) then [] else js ":" ++ scope)).
Definition namingConfigurationStream (tenantId doctype : jstr) : res jstr :=
  documentStream tenantId (js "__NamingConfiguration") doctype.
Definition metadataRevisionStream (tenantId doctype : jstr) : res jstr :=
  documentStream tenantId (js "__MetadataRevision") doctype.
Definition uniqueValueStream (tenantId doctype field v : jstr) : res jstr :=
  documentStream tenantId (js "__UniqueValues") (doctype ++ js ":" ++ field ++ js ":" ++ v).
Definition savedListFiltersStream (tenantId doctype ownerId : jstr) : res jstr :=
  documentStream tenantId (js "__SavedListFilters") (doctype ++ js ":" ++ ownerId).
Definition savedReportsStream (tenantId doctype ownerId : jstr) : res jstr :=
  documentStream tenantId (js "__SavedReports") (doctype ++ js ":" ++ ownerId).
Definition customFieldsCatalogStream (tenantId : jstr) : res jstr :=
  documentStream tenantId (js "__CustomFields") (js "__catalog").
Definition customFieldsStream (tenantId doctype : jstr) : res jstr :=
  documentStream tenantId (js "__CustomFields") doctype.
Definition namedWorkflowStream (tenantId doctype workflowName : jstr) : res jstr :=
  documentStream tenantId (js "__NamedWorkflows") (doctype ++ js ":" ++ workflowName).
Definition namedWorkflowStateFieldStream (tenantId doctype stateField : jstr) : res jstr :=
  documentStream tenantId (js "__NamedWorkflowFields") (doctype ++ js ":" ++ stateField).
Definition fieldPropertyOverridesStream (tenantId : jstr) : res jstr :=
  documentStream tenantId (js "__FieldProperties") (js "overrides").
Definition userPermissionsStream (tenantId userId : jstr) : res jstr :=
  documentStream tenantId (js "__UserPermissions") userId.
Definition userAccountsStream (tenantId userId : jstr) : res jstr :=
  documentStream tenantId (js "__UserAccounts") userId.
Definition userProfilesStream (tenantId userId : jstr) : res jstr :=
  documentStream tenantId (js "__UserProfiles") userId.
Definition printSettingsStream (tenantId : jstr) : res jstr :=
  documentStream tenantId (js "__PrintSettings") (js "settings").
Definition userNotificationsStream (tenantId userId : jstr) : res jstr :=
  documentStream tenantId (js "__UserNotifications") userId.
Definition notificationRulesStream (tenantId : jstr) : res jstr :=
  documentStream tenantId (js "__NotificationRules") (js "rules").
Definition assignmentRulesStream (tenantId : jstr) : res jstr :=
  documentStream tenantId (js "__AssignmentRules") (js "rules").
Definition emailOutboxStream (tenantId messageId : jstr) : res jstr :=
  documentStream tenantId (js "__EmailOutbox") messageId.
Definition documentDeliveryOutboxStream (tenantId : jstr) : res jstr :=
  documentStream tenantId (js "__DocumentDeliveryOutbox") (js "deliveries").
Definition automationRunStream (tenantId runId : jstr) : res jstr :=
  documentStream tenantId (js "__AutomationRuns") runId.
Definition roleCatalogStream (tenantId : jstr) : res jstr :=
  documentStream tenantId (js "__Roles") (js "catalog").
Definition jobScheduleOverridesStream (tenantId : jstr) : res jstr :=
  documentStream tenantId (js "__JobSchedules") (js "overrides").
Definition jobScheduleDefinitionsStream : res jstr :=
  documentStream (js "__global__") (js "__JobSchedules") (js "definitions").

(** ** Decoding, as a proof device *)

Definition unhex (c : N) : N := if (c <? 58)%N then (c - 48)%N else (c - 55)%N.

(** The bytes a percent-encoded string stands for. *)
Fixpoint percent_decode (s : jstr) : list N :=
  match s with
  | [] => []
  | c :: rest =>
      match decide (c = 37%N), rest with
      | left _, h :: l :: rest' => (16 * unhex h + unhex l)%N :: percent_decode rest'
      | _, _ => c :: percent_decode rest
      end
  end.

Lemma unhex_hex d : (d < 16)%N → unhex (hex_digit d) = d.
Proof.
  intros H. unfold unhex, hex_digit. destruct (N.ltb_spec d 10);
    [destruct (N.ltb_spec (48 + d) 58)|destruct (N.ltb_spec (55 + d) 58)]; lia.
Qed.

Lemma percent_decode_percent b s :
  (b < 256)%N → percent_decode (percent b ++ s) = b :: percent_decode s.
Proof.
  intros Hb. simpl. rewrite !unhex_hex; [|apply N.mod_lt; lia|apply N.Div0.div_lt_upper_bound; lia].
  f_equal. symmetry. apply N.div_mod'.
Qed.

(** Characters and bytes as small numbers. *)
Lemma unreserved_small c : unreserved c = true → (c < 128)%N ∧ c ≠ 37%N ∧ c ≠ 58%N ∧ c ≠ 32%N.
Proof.
  unfold unreserved. rewrite !orb_true_iff, !andb_true_iff, !N.leb_le, bool_decide_eq_true.
  intros [[[?|?]|?]|H]; [lia..|].
  repeat (apply elem_of_cons in H as [->|H]; [lia|]). by apply elem_of_nil in H.
Qed.

Definition is_point (c : N) : Prop := (c < 1114112)%N.

Ltac euclid := zify; Z.to_euclidean_division_equations; lia.

Lemma utf8_bytes c b : is_point c → b ∈ utf8 c → (b < 256)%N.
Proof.
  unfold is_point, utf8. intros Hc H.
  destruct (N.ltb_spec c 128), (N.ltb_spec c 2048), (N.ltb_spec c 65536);
    repeat (apply elem_of_cons in H as [->|H]; [euclid|]); by apply elem_of_nil in H.
Qed.

(** The base-64 digits of a code point. *)
Lemma utf8_digits c :
  (c = 64 * (c / 64) + c mod 64)%N ∧ (c / 64 = 64 * (c / 4096) + (c / 64) mod 64)%N ∧
  (c / 4096 = 64 * (c / 262144) + (c / 4096) mod 64)%N ∧
  (c mod 64 < 64)%N ∧ ((c / 64) mod 64 < 64)%N ∧ ((c / 4096) mod 64 < 64)%N.
Proof.
  replace (c / 4096)%N with (c / 64 / 64)%N by (rewrite N.Div0.div_div; done).
  replace (c / 262144)%N with (c / 64 / 64 / 64)%N by (rewrite !N.Div0.div_div; done).
  split_and!; try apply N.div_mod'; apply N.mod_lt; lia.
Qed.

(** UTF-8 is a prefix code. *)
Lemma utf8_prefix a b s t :
  is_point a → is_point b → utf8 a ++ s = utf8 b ++ t → a = b ∧ s = t.
Proof.
  unfold is_point, utf8. intros Ha Hb.
  pose proof (utf8_digits a) as Da. pose proof (utf8_digits b) as Db.
  revert Da Db.
  generalize ((a / 64) mod 64)%N. generalize ((a / 4096) mod 64)%N. generalize (a mod 64)%N.
  generalize (a / 64)%N. generalize (a / 4096)%N. generalize (a / 262144)%N.
  generalize ((b / 64) mod 64)%N. generalize ((b / 4096) mod 64)%N. generalize (b mod 64)%N.
  generalize (b / 64)%N. generalize (b / 4096)%N. generalize (b / 262144)%N.
  intros b1 b2 b3 b4 b5 b6 a1 a2 a3 a4 a5 a6 Da Db.
  destruct (N.ltb_spec a 128); [|destruct (N.ltb_spec a 2048); [|destruct (N.ltb_spec a 65536)]];
    (destruct (N.ltb_spec b 128); [|destruct (N.ltb_spec b 2048); [|destruct (N.ltb_spec b 65536)]]);
    simpl; intros E; injection E; intros; split; first [assumption|lia|exfalso; lia].
Qed.

Lemma utf8_concat_inj l1 l2 :
  Forall is_point l1 → Forall is_point l2 → flat_map utf8 l1 = flat_map utf8 l2 → l1 = l2.
Proof.
  intros H1. revert l2. induction H1 as [|a l1 Ha H1 IH]; intros l2 H2 E; destruct H2 as [|b l2 Hb H2]; [done| | |].
  - exfalso. simpl in E. unfold utf8 in E. by repeat destruct (_ <? _)%N.
  - exfalso. simpl in E. unfold utf8 in E. by repeat destruct (_ <? _)%N.
  - simpl in E. apply utf8_prefix in E as [-> E]; [|done..]. f_equal. by apply IH.
Qed.

(** The characters of an escaped byte. *)
Lemma percent_chars b c : (b < 256)%N → c ∈ percent b →
  c = 37%N ∨ (48 <= c <= 57)%N ∨ (65 <= c <= 70)%N.
Proof.
  intros Hb H. assert (b / 16 < 16)%N by (apply N.Div0.div_lt_upper_bound; lia).
  assert (b mod 16 < 16)%N by (apply N.mod_lt; lia).
  assert (Hx : ∀ d, (d < 16)%N → (48 <= hex_digit d <= 57 ∨ 65 <= hex_digit d <= 70)%N).
  { intros d Hd. unfold hex_digit. destruct (N.ltb_spec d 10); lia. }
  unfold percent in H. apply elem_of_cons in H as [->|H]; [by left|right].
  apply elem_of_cons in H as [->| ->%list_elem_of_singleton]; by apply Hx.
Qed.

Lemma escape_dot_id s : 46%N ∉ s → flat_map escape_dot s = s.
Proof.
  induction s as [|c s IH]; simpl; [done|]. intros [Hc Hs]%not_elem_of_cons.
  unfold escape_dot at 1. rewrite decide_False by done. simpl. by rewrite IH.
Qed.

(** One escaped code point. *)
Definition escape_point (c : N) : jstr := flat_map escape_dot (encode_point c).

Lemma escape_point_reserved c :
  is_point c → unreserved c = false → escape_point c = flat_map percent (utf8 c).
Proof.
  intros Hc Hu. unfold escape_point, encode_point. rewrite Hu. apply escape_dot_id.
  intros (b & Hd & Hb)%list_elem_of_In%in_flat_map.
  apply list_elem_of_In in Hd, Hb. apply (percent_chars b) in Hb; [lia|]. by apply (utf8_bytes c).
Qed.

Lemma percent_decode_bytes l s :
  (∀ b, b ∈ l → (b < 256)%N) → percent_decode (flat_map percent l ++ s) = l ++ percent_decode s.
Proof.
  induction l as [|b l IH]; intros H; [done|]. cbn [flat_map]. rewrite <-app_assoc.
  rewrite percent_decode_percent by (apply H; left). simpl. rewrite IH; [done|].
  intros b' Hb'. apply H. by right.
Qed.

Lemma percent_decode_point c s :
  is_point c → percent_decode (escape_point c ++ s) = utf8 c ++ percent_decode s.
Proof.
  intros Hc. destruct (unreserved c) eqn:Hu.
  - destruct (unreserved_small _ Hu) as (Hlt & Hne & _).
    unfold escape_point, encode_point. rewrite Hu. simpl. rewrite app_nil_r. unfold escape_dot.
    assert (utf8 c = [c]) as ->. { unfold utf8. by destruct (N.ltb_spec c 128); [|lia]. }
    destruct (decide (c = 46%N)) as [->|]; [done|]. simpl.
    destruct (decide (c = 37%N)); [done|]. done.
  - rewrite escape_point_reserved by done. apply percent_decode_bytes.
    intros b. by apply utf8_bytes.
Qed.

Lemma escaped_eq points :
  flat_map escape_dot (flat_map encode_point points) = flat_map escape_point points.
Proof.
  induction points as [|c points IH]; [done|]. simpl. by rewrite flat_map_app, IH.
Qed.

Lemma percent_decode_points points :
  Forall is_point points → percent_decode (flat_map escape_point points) = flat_map utf8 points.
Proof.
  induction 1 as [|c points Hc _ IH]; [done|]. simpl. by rewrite percent_decode_point, IH.
Qed.

(** ** Code points of a string *)

Lemma surrogate_false u :
  is_high u = false → is_low u = false → (u < 55296 ∨ 57343 < u)%N.
Proof.
  unfold is_high, is_low. rewrite !andb_false_iff, !N.leb_gt. lia.
Qed.

Lemma surrogate_true u l :
  is_high u = true → is_low l = true → (55296 <= u <= 56319)%N ∧ (56320 <= l <= 57343)%N.
Proof. unfold is_high, is_low. rewrite !andb_true_iff, !N.leb_le. lia. Qed.

(** The head of a string with a given head code point. *)
Lemma code_points_cons u s p points :
  code_points (u :: s) = Ok (p :: points) →
  (is_high u = false ∧ is_low u = false ∧ p = u ∧ code_points s = Ok points) ∨
  (∃ l s', s = l :: s' ∧ is_high u = true ∧ is_low l = true ∧ p = pair_code_point u l ∧
           code_points s' = Ok points).
Proof.
  simpl. destruct (is_high u) eqn:Hh.
  - destruct s as [|l s']; [done|]. destruct (is_low l) eqn:Hl; [|done].
    intros H. inv_res. right. by exists l, s'.
  - destruct (is_low u) eqn:Hl; [done|]. cbn [orb]. destruct (65536 <=? u)%N; [done|]. intros H. inv_res. by left.
Qed.

(** Only a string has code points. *)
Lemma code_points_wf s points : code_points s = Ok points → jstr_wf s.
Proof.
  revert s. induction points as [|p points IH]; intros s H.
  - destruct s as [|u s]; [constructor|]. exfalso. cbn in H.
    destruct (is_high u); [destruct s as [|l s]; [done|destruct (is_low l); [|done]]|destruct (is_low u || _); [done|]];
      inv_res; discriminate.
  - destruct s as [|u s]; [done|]. pose proof H as Hc.
    apply code_points_cons in Hc as [(Hh & Hl & -> & Hs)|(l & s' & -> & Hh & Hl & _ & Hs)].
    + cbn in H. rewrite Hh, Hl in H. destruct (N.leb_spec 65536 u); [done|].
      constructor; [unfold code_unit; lia|by apply IH].
    + destruct (surrogate_true _ _ Hh Hl). repeat constructor; [unfold code_unit; lia..|by apply IH].
Qed.

Lemma code_points_nil_inv s : code_points s = Ok [] → s = [].
Proof.
  destruct s as [|u s]; [done|]. simpl. intros H.
  destruct (is_high u); [destruct s as [|l s]; [done|destruct (is_low l); [|done]]|destruct (is_low u || _); [done|]];
    inv_res; discriminate.
Qed.

Lemma code_points_range s points : jstr_wf s → code_points s = Ok points → Forall is_point points.
Proof.
  intros Hwf. revert s Hwf. induction points as [|p points IH]; intros s Hwf H; [constructor|].
  destruct s as [|u s]; [done|]. apply Forall_cons in Hwf as [Hu Hwf]. unfold code_unit in Hu.
  apply code_points_cons in H as [(_ & _ & -> & H)|(l & s' & -> & Hh & Hl & -> & H)].
  - constructor; [unfold is_point; lia|]. by eapply IH.
  - apply Forall_cons in Hwf as [_ Hwf]. constructor; [|by eapply IH].
    destruct (surrogate_true _ _ Hh Hl). unfold is_point, pair_code_point. lia.
Qed.

Lemma code_points_inj s t points :
  jstr_wf s → jstr_wf t → code_points s = Ok points → code_points t = Ok points → s = t.
Proof.
  revert s t. induction points as [|p points IH]; intros s t Hs Ht Es Et.
  { by rewrite (code_points_nil_inv s), (code_points_nil_inv t). }
  destruct s as [|u s]; [done|]. destruct t as [|v t]; [done|].
  apply Forall_cons in Hs as [Hu Hs], Ht as [Hv Ht]. unfold code_unit in Hu, Hv.
  apply code_points_cons in Es as [(_ & _ & -> & Es)|(l & s' & -> & Hh & Hl & -> & Es)];
  apply code_points_cons in Et as [(_ & _ & E & Et)|(l' & t' & -> & Hh' & Hl' & E & Et)].
  - subst v. f_equal. by eapply IH.
  - exfalso. unfold pair_code_point in E. lia.
  - exfalso. unfold pair_code_point in E. lia.
  - destruct (surrogate_true _ _ Hh Hl), (surrogate_true _ _ Hh' Hl').
    apply Forall_cons in Hs as [_ Hs], Ht as [_ Ht].
    assert (u = v ∧ l = l') as [-> ->] by (unfold pair_code_point in E; lia).
    do 2 f_equal. by eapply IH.
Qed.

Lemma escapePart_ok s out :
  escapePart s = Ok out ↔ ∃ points, code_points s = Ok points ∧ out = flat_map escape_point points.
Proof.
  unfold escapePart, encodeURIComponent. destruct (code_points s) as [points|e]; simpl.
  - rewrite escaped_eq. split; [intros [= <-]; by exists points|]. by intros (? & [= <-] & ->).
  - split; [done|]. by intros (? & ? & _).
Qed.

Lemma escapePart_inj_lemma s t out :
  jstr_wf s → jstr_wf t → escapePart s = Ok out → escapePart t = Ok out → s = t.
Proof.
  intros Hs Ht (ps & Es & ->)%escapePart_ok (pt & Et & E)%escapePart_ok.
  pose proof (code_points_range _ _ Hs Es) as Rs. pose proof (code_points_range _ _ Ht Et) as Rt.
  apply (f_equal percent_decode) in E. rewrite !percent_decode_points in E by done.
  apply utf8_concat_inj in E as ->; [|done..]. by eapply code_points_inj.
Qed.

(** Which characters an escaped part may hold. *)
Lemma escape_point_chars p c : is_point p → c ∈ escape_point p →
  c ≠ 58%N ∧ c ≠ 32%N ∧ c ≠ 46%N ∧ (c < 128)%N.
Proof.
  intros Hp. destruct (unreserved p) eqn:Hu.
  - destruct (unreserved_small _ Hu) as (? & _ & ? & ?). unfold escape_point, encode_point.
    rewrite Hu. simpl. rewrite app_nil_r. unfold escape_dot.
    destruct (decide (p = 46%N)) as [->|]; [|by intros ->%list_elem_of_singleton].
    intros H'. repeat (apply elem_of_cons in H' as [->|H']; [done|]). by apply elem_of_nil in H'.
  - rewrite escape_point_reserved by done.
    intros (b & Hb & Hc)%list_elem_of_In%in_flat_map. apply list_elem_of_In in Hb, Hc.
    apply percent_chars in Hc; [lia|]. by eapply utf8_bytes.
Qed.

Lemma escapePart_chars s out c : jstr_wf s → escapePart s = Ok out → c ∈ out →
  c ≠ 58%N ∧ c ≠ 32%N ∧ c ≠ 46%N ∧ (c < 128)%N.
Proof.
  intros Hs (ps & Es & ->)%escapePart_ok (p & Hp & Hc)%list_elem_of_In%in_flat_map.
  apply list_elem_of_In in Hp, Hc. apply (escape_point_chars p); [|done].
  apply code_points_range in Es; [|done]. by eapply Forall_forall in Es.
Qed.

Lemma documentStream_ok t d n s :
  documentStream t d n = Ok s ↔
  ∃ t' d' n', escapePart t = Ok t' ∧ escapePart d = Ok d' ∧ escapePart n = Ok n' ∧
    s = t' ++ 58%N :: d' ++ 58%N :: n'.
Proof.
  unfold documentStream. split.
  - intros H. inv_res. by eexists _, _, _.
  - intros (t' & d' & n' & -> & -> & -> & ->). done.
Qed.

Lemma documentStream_parts t d n t' d' n' s :
  jstr_wf t → jstr_wf d → jstr_wf n → jstr_wf t' → jstr_wf d' → jstr_wf n' →
  documentStream t d n = Ok s → documentStream t' d' n' = Ok s → t = t' ∧ d = d' ∧ n = n'.
Proof.
  intros ?????? (a & b & c & Ha & Hb & Hc & ->)%documentStream_ok
    (a' & b' & c' & Ha' & Hb' & Hc' & E)%documentStream_ok.
  assert (Hn : ∀ s out, jstr_wf s → escapePart s = Ok out → 58%N ∉ out).
  { intros x out Hx Hout Hin. by destruct (escapePart_chars _ _ _ Hx Hout Hin) as [? _]. }
  apply split_at_unique in E as [-> E]; [|eapply Hn; [|eassumption]; done..].
  apply split_at_unique in E as [-> ->]; [|eapply Hn; [|eassumption]; done..].
  split_and!; (eapply escapePart_inj_lemma; [| |eassumption..]; done).
Qed.

Lemma escapePart_wf s out : escapePart s = Ok out → jstr_wf s.
Proof. intros (ps & Hs & _)%escapePart_ok. by eapply code_points_wf. Qed.

(** The parts of a name, whatever they are. *)
Lemma documentStream_same t d n t' d' n' s :
  documentStream t d n = Ok s → documentStream t' d' n' = Ok s → t = t' ∧ d = d' ∧ n = n'.
Proof.
  intros H H'. pose proof H as (a & b & c & Ha & Hb & Hc & _)%documentStream_ok.
  pose proof H' as (a' & b' & c' & Ha' & Hb' & Hc' & _)%documentStream_ok.
  by apply (documentStream_parts t d n t' d' n' s); try (by eapply escapePart_wf).
Qed.

(** Two documents (tenant, doctype and name) never share a stream, so neither do
    two streams of different internal families or of different tenants. *)
Theorem documentStream_inj t d n t' d' n' s :
  documentStream t d n = Ok s → documentStream t' d' n' = Ok s → t = t' ∧ d = d' ∧ n = n'.
Proof. apply documentStream_same. Qed.

Lemma documentStream_inj_witness :
  ∃ s, documentStream (js "a") (js "Task") (js "x:y.z é") = Ok s ∧
    (∀ t d n, documentStream t d n = Ok s → t = js "a" ∧ d = js "Task" ∧ n = js "x:y.z é").
Proof.
  eexists. split; [reflexivity|]. intros t d n H.
  exact (documentStream_inj t d n (js "a") (js "Task") (js "x:y.z é") _ H eq_refl).
Defined.

Lemma uniqueValueStream_same t d f v t' d' f' v' s :
  58%N ∉ d → 58%N ∉ f → 58%N ∉ d' → 58%N ∉ f' →
  uniqueValueStream t d f v = Ok s → uniqueValueStream t' d' f' v' = Ok s →
  t = t' ∧ d = d' ∧ f = f' ∧ v = v'.
Proof.
  intros Hd Hf Hd' Hf' H1 H2. destruct (documentStream_same _ _ _ _ _ _ _ H1 H2) as (-> & _ & E).
  change (js ":") with [58%N] in E. simpl in E.
  apply split_at_unique in E as [-> E]; [|done..]. by apply split_at_unique in E as [-> ->].
Qed.

(** The stream that reserves a unique value belongs to that value alone, among
    doctypes and fields whose names hold no colon. *)
Theorem uniqueValueStream_inj t d f v t' d' f' v' s :
  58%N ∉ d → 58%N ∉ f → 58%N ∉ d' → 58%N ∉ f' →
  uniqueValueStream t d f v = Ok s → uniqueValueStream t' d' f' v' = Ok s →
  t = t' ∧ d = d' ∧ f = f' ∧ v = v'.
Proof. apply uniqueValueStream_same. Qed.

Lemma uniqueValueStream_inj_witness :
  uniqueValueStream (js "t") (js "Task") (js "code") (js "a") ≠
  uniqueValueStream (js "t") (js "Task") (js "code") (js "b").
Proof.
  intros E. destruct (uniqueValueStream (js "t") (js "Task") (js "code") (js "a")) as [s|] eqn:E1;
    [|discriminate E1].
  destruct (uniqueValueStream_inj (js "t") (js "Task") (js "code") (js "a")
    (js "t") (js "Task") (js "code") (js "b") s) as (_ & _ & _ & H);
    [| | | |exact E1|by symmetry|discriminate H];
    apply (bool_decide_unpack _); vm_compute; exact I.
Defined.
