(* ===== verification/Merge.v ===== *)
(** * Merge: three-way merge of a document's fields

    Models [core/document-merge.ts].  A plan compares, field by field, the base
    a user started from, the remote state and the user's draft.  The theorems
    say when a plan conflicts and that applying a clean plan to the remote
    document gives every local change on top of every remote one. *)

From S2P Require Export Fold.

Record DocumentMergeSnapshot := {
  ms_version : Z;
  ms_docstatus : option DocStatus;
  ms_data : data
}.

Record PlanDocumentFieldMergeInput := {
  mi_base : DocumentMergeSnapshot;
  mi_remote : DocumentMergeSnapshot;
  mi_draft : data;
  mi_fields : option (list jstr)
}.

Inductive DocumentFieldMergeStatus := MergeClean | MergeConflict.

Inductive DocumentFieldMergeConflictReason := RemoteChanged | RemoteStatusChanged.

(** A value that is left out of the conflict is [VUndef]. *)
Record DocumentFieldMergeConflict := {
  mc_field : jstr;
  mc_reason : DocumentFieldMergeConflictReason;
  mc_basePresent : bool;
  mc_localPresent : bool;
  mc_remotePresent : bool;
  mc_baseValue : value;
  mc_localValue : value;
  mc_remoteValue : value
}.

(** The lists and the patch the loop accumulates. *)
Record merge_state := {
  st_localChanged : list jstr;
  st_remoteChanged : list jstr;
  st_merged : list jstr;
  st_patch : data;
  st_unset : list jstr;
  st_conflicts : list DocumentFieldMergeConflict
}.

Record DocumentFieldMergePlan := {
  mp_status : DocumentFieldMergeStatus;
  mp_baseVersion : Z;
  mp_remoteVersion : Z;
  mp_localChangedFields : list jstr;
  mp_remoteChangedFields : list jstr;
  mp_mergedFields : list jstr;
  mp_patch : data;
  mp_unset : list jstr;
  mp_conflicts : list DocumentFieldMergeConflict
}.

Definition docstatus_value (s : DocStatus) : value :=
  VStr (match s with
        | Draft => js "draft" | Submitted => js "submitted"
        | Cancelled => js "cancelled" | Deleted => js "deleted" end).

(** [mergeFields(input)]: the trimmed names, without blanks and repeats. *)
Definition mergeFields (input : PlanDocumentFieldMergeInput) : list jstr :=
  let fields := default (jm_keys (ms_data (mi_base input)) ++ jm_keys (ms_data (mi_remote input)) ++
                         jm_keys (mi_draft input)) (mi_fields input) in
  foldl (λ normalized field,
    let name := trim field in
    if bool_decide (name = []) || bool_decide (name ∈ normalized) then normalized
    else normalized ++ [name]) [] fields.

(** [conflictFor(field, reason, values)]. *)
Definition conflictFor (field : jstr) (reason : DocumentFieldMergeConflictReason)
    (basePresent localPresent remotePresent : bool) (baseValue localValue remoteValue : value)
    : DocumentFieldMergeConflict :=
  {| mc_field := field; mc_reason := reason; mc_basePresent := basePresent;
     mc_localPresent := localPresent; mc_remotePresent := remotePresent;
     mc_baseValue := cloneJsonValue baseValue; mc_localValue := cloneJsonValue localValue;
     mc_remoteValue := cloneJsonValue remoteValue |}.

Section plan.
Context (input : PlanDocumentFieldMergeInput).

Definition local_changed (field : jstr) : bool :=
  if jm_has field (mi_draft input)
  then negb (jsonEqual (vget field (mi_draft input)) (vget field (ms_data (mi_base input))))
  else jm_has field (ms_data (mi_base input)).

Definition remote_changed (field : jstr) : bool :=
  negb (jsonEqual (vget field (ms_data (mi_remote input))) (vget field (ms_data (mi_base input)))).

(** [jsonEqual(localValue, remoteValue)]. *)
Definition agrees (field : jstr) : bool :=
  jsonEqual (vget field (mi_draft input)) (vget field (ms_data (mi_remote input))).

(** One iteration of the loop over the fields. *)
Definition merge_field (s : merge_state) (field : jstr) : merge_state :=
  let baseValue := vget field (ms_data (mi_base input)) in
  let localValue := vget field (mi_draft input) in
  let remoteValue := vget field (ms_data (mi_remote input)) in
  let localChanged := local_changed field in
  let remoteChanged := remote_changed field in
  let s := {| st_localChanged := st_localChanged s ++ (if localChanged then [field] else []);
              st_remoteChanged := st_remoteChanged s ++ (if remoteChanged then [field] else []);
              st_merged := st_merged s; st_patch := st_patch s; st_unset := st_unset s;
              st_conflicts := st_conflicts s |} in
  if negb localChanged then s
  else if remoteChanged && negb (agrees field) then
    {| st_localChanged := st_localChanged s; st_remoteChanged := st_remoteChanged s;
       st_merged := st_merged s; st_patch := st_patch s; st_unset := st_unset s;
       st_conflicts := st_conflicts s ++
         [conflictFor field RemoteChanged (jm_has field (ms_data (mi_base input)))
            (jm_has field (mi_draft input)) (jm_has field (ms_data (mi_remote input)))
            baseValue localValue remoteValue] |}
  else if agrees field then
    {| st_localChanged := st_localChanged s; st_remoteChanged := st_remoteChanged s;
       st_merged := st_merged s ++ [field]; st_patch := st_patch s; st_unset := st_unset s;
       st_conflicts := st_conflicts s |}
  else
    {| st_localChanged := st_localChanged s; st_remoteChanged := st_remoteChanged s;
       st_merged := st_merged s ++ [field];
       st_patch := if is_undefined localValue then st_patch s
                   else jm_set field (cloneJsonValue localValue) (st_patch s);
       st_unset := if is_undefined localValue then st_unset s ++ [field] else st_unset s;
       st_conflicts := st_conflicts s |}.

(** The conflict on [docstatus], tested before the loop. *)
Definition status_conflict : list DocumentFieldMergeConflict :=
  match ms_docstatus (mi_base input), ms_docstatus (mi_remote input) with
  | Some b, Some r =>
      if decide (b = r) then []
      else [conflictFor (js "docstatus") RemoteStatusChanged true true true
              (docstatus_value b) (docstatus_value b) (docstatus_value r)]
  | _, _ => []
  end.

Definition merge_loop : merge_state :=
  foldl merge_field
    {| st_localChanged := []; st_remoteChanged := []; st_merged := []; st_patch := [];
       st_unset := []; st_conflicts := status_conflict |} (mergeFields input).

(** [planDocumentFieldMerge(input)]. *)
Definition planDocumentFieldMerge : DocumentFieldMergePlan :=
  let s := merge_loop in
  {| mp_status := if bool_decide (st_conflicts s = []) then MergeClean else MergeConflict;
     mp_baseVersion := ms_version (mi_base input); mp_remoteVersion := ms_version (mi_remote input);
     mp_localChangedFields := st_localChanged s; mp_remoteChangedFields := st_remoteChanged s;
     mp_mergedFields := st_merged s; mp_patch := st_patch s; mp_unset := st_unset s;
     mp_conflicts := st_conflicts s |}.

(** ** The fields compared *)

Lemma mergeFields_nodup : NoDup (mergeFields input).
Proof.
  unfold mergeFields. generalize (default
    (jm_keys (ms_data (mi_base input)) ++ jm_keys (ms_data (mi_remote input)) ++
     jm_keys (mi_draft input)) (mi_fields input)). intros fields.
  assert (H : NoDup (@nil jstr)) by constructor. revert H. generalize (@nil jstr) at 1 3.
  induction fields as [|f fields IH]; intros acc Hacc; [done|]. simpl. apply IH.
  destruct (bool_decide_reflect (trim f = [])); [done|].
  destruct (bool_decide_reflect (trim f ∈ acc)); [done|]. simpl.
  apply NoDup_app. split_and!; [done| |apply NoDup_singleton].
  by intros x Hx ->%list_elem_of_singleton.
Qed.

(** ** What the loop accumulates, as comprehensions over the fields *)

Definition conflicting (field : jstr) : bool :=
  local_changed field && remote_changed field && negb (agrees field).

(** A field whose local value has to be written over the remote one. *)
Definition applied (field : jstr) : bool :=
  local_changed field && negb (remote_changed field) && negb (agrees field).

Definition undefined_locally (field : jstr) : bool := is_undefined (vget field (mi_draft input)).

Lemma merge_loop_spec fields s :
  let s' := foldl merge_field s fields in
  st_localChanged s' = st_localChanged s ++ filter (λ f, local_changed f = true) fields ∧
  st_remoteChanged s' = st_remoteChanged s ++ filter (λ f, remote_changed f = true) fields ∧
  st_unset s' = st_unset s ++ filter (λ f, applied f && undefined_locally f = true) fields ∧
  mc_field <$> st_conflicts s' =
    (mc_field <$> st_conflicts s) ++ filter (λ f, conflicting f = true) fields ∧
  st_patch s' = foldl (λ patch f, jm_set f (vget f (mi_draft input)) patch) (st_patch s)
    (filter (λ f, applied f && negb (undefined_locally f) = true) fields).
Proof.
  revert s. induction fields as [|f fields IH]; intros s; cbn [foldl].
  { cbn. by rewrite !app_nil_r. }
  destruct (IH (merge_field s f)) as (-> & -> & -> & -> & ->). clear IH.
  rewrite !filter_cons. unfold merge_field, applied, conflicting, undefined_locally.
  rewrite !cloneJsonValue_id.
  destruct (local_changed f); cbn;
    [destruct (remote_changed f); cbn; destruct (agrees f); cbn;
      try destruct (is_undefined (vget f (mi_draft input))); cbn
    |destruct (remote_changed f); cbn];
    rewrite ?fmap_app, <-?app_assoc, ?app_nil_r; done.
Qed.

Lemma clean_iff :
  mp_status planDocumentFieldMerge = MergeClean ↔
  status_conflict = [] ∧ ∀ f, f ∈ mergeFields input → conflicting f = false.
Proof.
  destruct (merge_loop_spec (mergeFields input)
    {| st_localChanged := []; st_remoteChanged := []; st_merged := []; st_patch := [];
       st_unset := []; st_conflicts := status_conflict |}) as (_ & _ & _ & Hc & _).
  unfold planDocumentFieldMerge. simpl. fold merge_loop in Hc. simpl in Hc.
  assert (Hnil : st_conflicts merge_loop = [] ↔
    (mc_field <$> status_conflict) ++ filter (λ f, conflicting f = true) (mergeFields input) = []).
  { rewrite <-Hc. by destruct (st_conflicts merge_loop). }
  transitivity (st_conflicts merge_loop = []); [by case_bool_decide|]. rewrite Hnil. split.
  - intros [H1 H2]%app_nil. split; [by destruct status_conflict|]. intros f Hf.
    apply not_true_is_false. intros Hcf. apply (not_elem_of_nil f). rewrite <-H2.
    by apply list_elem_of_filter.
  - intros [-> H]. simpl. apply filter_none. intros f Hf. by rewrite (H f Hf).
Qed.

Lemma clean_no_conflict f :
  mp_status planDocumentFieldMerge = MergeClean → f ∈ mergeFields input → conflicting f = false.
Proof. intros [_ H]%clean_iff. apply H. Qed.

(** A plan is a conflict exactly when the remote status changed or some field
    was changed on both sides to different values, and it names those fields. *)
Theorem plan_conflict :
  mc_field <$> mp_conflicts planDocumentFieldMerge =
    (mc_field <$> status_conflict) ++ filter (λ f, conflicting f = true) (mergeFields input) ∧
  (mp_status planDocumentFieldMerge = MergeClean ↔
   status_conflict = [] ∧ ∀ f, f ∈ mergeFields input → conflicting f = false).
Proof.
  split; [|apply clean_iff].
  by destruct (merge_loop_spec (mergeFields input)
    {| st_localChanged := []; st_remoteChanged := []; st_merged := []; st_patch := [];
       st_unset := []; st_conflicts := status_conflict |}) as (_ & _ & _ & Hc & _).
Qed.

(** ** Applying a plan *)

Lemma jm_get_write (w : jstr → value) patch fields f :
  jm_get f (foldl (λ patch f, jm_set f (w f) patch) patch fields) =
  if decide (f ∈ fields) then Some (w f) else jm_get f patch.
Proof.
  revert patch. induction fields as [|g fields IH]; intros patch; simpl; [done|].
  rewrite IH, jm_get_set. destruct (decide (f ∈ fields)) as [Hin|Hout].
  - by rewrite decide_True by by right.
  - destruct (decide (f = g)) as [->|Hne]; [by rewrite decide_True by left|].
    rewrite decide_False; [done|]. by intros [?|?]%elem_of_cons.
Qed.

Lemma jm_wf_write (w : jstr → value) patch fields :
  jm_wf patch → jm_wf (foldl (λ patch f, jm_set f (w f) patch) patch fields).
Proof. revert patch. induction fields; intros patch Hp; simpl; auto using jm_wf_set. Qed.

Lemma isJsonData_write (w : jstr → value) patch fields :
  isJsonData patch = true → (∀ f, f ∈ fields → isJsonValue (w f) = true) →
  isJsonData (foldl (λ patch f, jm_set f (w f) patch) patch fields) = true.
Proof.
  revert patch. induction fields as [|f fields IH]; intros patch Hp Hw; simpl; [done|].
  apply IH; [|intros g Hg; apply Hw; by right]. apply isJsonData_set; [apply Hw; left|done].
Qed.

Lemma jm_get_unset (d : data) fields f :
  jm_wf d → jm_get f (foldl (λ next field, jm_delete field next) d fields) =
  if decide (f ∈ fields) then None else jm_get f d.
Proof.
  revert d. induction fields as [|g fields IH]; intros d Hd; simpl; [done|].
  rewrite IH by by apply jm_wf_delete. rewrite jm_get_delete by done.
  destruct (decide (f ∈ fields)) as [Hin|Hout].
  - by rewrite decide_True by by right.
  - destruct (decide (f = g)) as [->|Hne]; [by rewrite decide_True by left|].
    rewrite decide_False; [done|]. by intros [?|?]%elem_of_cons.
Qed.

(** The values of a draft are JSON or undefined. *)
Definition draft_ok : Prop :=
  ∀ f, is_undefined (vget f (mi_draft input)) = true ∨
       isJsonValue (vget f (mi_draft input)) = true ∧ vwf (vget f (mi_draft input)).

Lemma plan_apply_get :
  jm_wf (ms_data (mi_remote input)) → isJsonData (ms_data (mi_remote input)) = true → draft_ok →
  ∃ result,
    applyDocumentDataChange (ms_data (mi_remote input)) (mp_patch planDocumentFieldMerge)
      (mp_unset planDocumentFieldMerge) = Ok result ∧
    ∀ f, vget f result =
      if decide (f ∈ mergeFields input ∧ applied f = true) then vget f (mi_draft input)
      else vget f (ms_data (mi_remote input)).
Proof.
  intros Hwf Hj Hd.
  destruct (merge_loop_spec (mergeFields input)
    {| st_localChanged := []; st_remoteChanged := []; st_merged := []; st_patch := [];
       st_unset := []; st_conflicts := status_conflict |}) as (_ & _ & Hu & _ & Hp).
  unfold planDocumentFieldMerge. simpl. fold merge_loop in Hu, Hp. simpl in Hu, Hp.
  rewrite Hu, Hp. clear Hu Hp. unfold applyDocumentDataChange.
  rewrite (cloneData_json (ms_data (mi_remote input))) by done.
  rewrite cloneData_json; [|apply isJsonData_write; [done|]].
  2:{ intros f [Hf _]%list_elem_of_filter. apply andb_prop in Hf as [_ Hf].
      unfold undefined_locally in Hf. destruct (Hd f) as [E|[E _]]; [by rewrite E in Hf|done]. }
  eexists. split; [reflexivity|]. intros f. unfold vget at 1.
  rewrite jm_get_unset by by apply jm_wf_spread.
  rewrite jm_get_spread by (apply jm_wf_write, NoDup_nil_2). rewrite jm_get_write.
  assert (Hmem : ∀ (g : jstr → bool), f ∈ filter (λ f, g f = true) (mergeFields input) ↔
    g f = true ∧ f ∈ mergeFields input) by (intros g; by rewrite list_elem_of_filter).
  destruct (decide (f ∈ filter (λ f, applied f && undefined_locally f = true) (mergeFields input)))
    as [[[Ha Hun]%andb_prop Hin]%Hmem|Hnu].
  - rewrite decide_True by done. unfold undefined_locally in Hun. by destruct (vget f (mi_draft input)).
  - destruct (decide (f ∈ filter (λ f, applied f && negb (undefined_locally f) = true) (mergeFields input)))
      as [[[Ha Hun]%andb_prop Hin]%Hmem|Hnw].
    + by rewrite decide_True.
    + rewrite decide_False; [done|]. intros [Hin Ha].
      rewrite (Hmem (λ f, applied f && undefined_locally f)) in Hnu.
      rewrite (Hmem (λ f, applied f && negb (undefined_locally f))) in Hnw.
      rewrite Ha in Hnu, Hnw. destruct (undefined_locally f); naive_solver.
Qed.

(** Applying a clean plan to the remote document: every field the draft changed
    has the draft's value, every other field the remote's. *)
Theorem plan_apply :
  jm_wf (ms_data (mi_remote input)) → isJsonData (ms_data (mi_remote input)) = true → draft_ok →
  mp_status planDocumentFieldMerge = MergeClean →
  ∃ result,
    applyDocumentDataChange (ms_data (mi_remote input)) (mp_patch planDocumentFieldMerge)
      (mp_unset planDocumentFieldMerge) = Ok result ∧
    ∀ f, if bool_decide (f ∈ mergeFields input) && local_changed f
         then jsonEqual (vget f (mi_draft input)) (vget f result) = true
         else vget f result = vget f (ms_data (mi_remote input)).
Proof.
  intros Hwf Hj Hd Hclean. destruct (plan_apply_get Hwf Hj Hd) as (result & Hr & Hget).
  exists result. split; [done|]. intros f. rewrite Hget.
  assert (Hcf : f ∈ mergeFields input → conflicting f = false) by by apply clean_no_conflict.
  case_bool_decide as Hin; simpl; [|by rewrite decide_False by naive_solver].
  specialize (Hcf Hin). unfold applied, conflicting, agrees in *.
  destruct (local_changed f); simpl in *; [|by rewrite decide_False by naive_solver].
  destruct (jsonEqual (vget f (mi_draft input)) (vget f (ms_data (mi_remote input)))) eqn:Ea.
  - rewrite decide_False; [done|]. rewrite andb_false_r. naive_solver.
  - destruct (remote_changed f); [done|]. simpl. rewrite decide_True by done.
    destruct (Hd f) as [E|[E1 E2]]; [by destruct (vget f (mi_draft input))|by apply jsonEqual_refl].
Qed.
End plan.

(** ** Witness *)
Definition sample_merge : PlanDocumentFieldMergeInput :=
  {| mi_base := {| ms_version := 1; ms_docstatus := Some Draft;
       ms_data := [(js "title", vstr "A"); (js "done", VBool false); (js "note", vstr "x")] |};
     mi_remote := {| ms_version := 2; ms_docstatus := Some Draft;
       ms_data := [(js "title", vstr "A"); (js "done", VBool true); (js "note", vstr "x")] |};
     mi_draft := [(js "title", vstr "B"); (js "done", VBool false)];
     mi_fields := None |}.

Lemma plan_apply_witness :
  ∃ result, applyDocumentDataChange (ms_data (mi_remote sample_merge))
      (mp_patch (planDocumentFieldMerge sample_merge)) (mp_unset (planDocumentFieldMerge sample_merge))
    = Ok result ∧ result = [(js "title", vstr "B"); (js "done", VBool true)].
Proof.
  destruct (plan_apply sample_merge) as (result & H & _).
  - apply (bool_decide_unpack _). vm_compute. exact I.
  - reflexivity.
  - intros f. unfold vget. destruct (jm_get f (mi_draft sample_merge)) as [v|] eqn:E; [right|by left].
    apply jm_get_elem_1 in E.
    by apply elem_of_cons in E as [[= -> ->]|[= -> ->]%list_elem_of_singleton].
  - reflexivity.
  - exists result. split; [exact H|]. vm_compute in H. injection H as <-. reflexivity.
Defined.
