(* ===== verification/SafeRegex.v ===== *)
(** * SafeRegex: the bounded regular expressions of naming exclusions

    Models [core/safe-regex.ts]: the compiler of patterns (anchors, classes,
    escapes, quantifiers, all expanded to a bounded list of steps) and the
    matcher, a table of reachable positions.  [toLocaleLowerCase("en-US")] of a
    character is the host's and an argument of the model.  The theorems: the
    compiler terminates with at most 256 steps or a [NAMING_INVALID] error, the
    matcher decides the declarative meaning of the steps, and a quantifier means
    its bounds. *)

From S2P Require Export JsMap.

Definition MAX_PATTERN_LENGTH : nat := 128.
Definition MAX_EXPANDED_ATOMS : N := 256.

Inductive SafeRegexAtom :=
| ALiteral (value : N)
| AAny
| ADigit (negated : bool)
| AWord (negated : bool)
| ASpace (negated : bool)
| AClass (negated : bool) (singles : list N) (ranges : list (N * N)).

Inductive StepKind := KRequired | KOptional | KStar.
#[export] Instance StepKind_eq_dec : EqDecision StepKind.
Proof. solve_decision. Defined.

Record SafeRegexStep := { step_kind : StepKind; step_atom : SafeRegexAtom }.

Record SafeRegex := {
  sr_anchoredStart : bool;
  sr_anchoredEnd : bool;
  sr_ignoreCase : bool;
  sr_steps : list SafeRegexStep
}.

Definition invalidRegex : error := FrameworkError NAMING_INVALID 400.

(** ** Matching *)

Section matching.
Context (lower : N → jstr).

(** [comparable(value, ignoreCase)]. *)
Definition comparable (c : N) (ignoreCase : bool) : jstr := if ignoreCase then lower c else [c].

Definition between (c lo hi : N) : bool := ((lo <=? c) && (c <=? hi))%N.

Definition isAsciiWord (c : N) : bool :=
  between c 97 122 || between c 65 90 || between c 48 57 || (c =? 95)%N.

(** [atomMatches(atom, value, ignoreCase)]. *)
Definition atomMatches (atom : SafeRegexAtom) (c : N) (ignoreCase : bool) : bool :=
  match atom with
  | AAny => true
  | ALiteral v => bool_decide (comparable v ignoreCase = comparable c ignoreCase)
  | ADigit negated => xorb negated (between c 48 57)
  | AWord negated => xorb negated (isAsciiWord c)
  | ASpace negated => xorb negated ((c =? 32) || (c =? 9))%N
  | AClass negated singles ranges =>
      let candidate := comparable c ignoreCase in
      xorb negated
        (existsb (λ single, bool_decide (comparable single ignoreCase = candidate)) singles ||
         existsb (λ range : N * N, jstr_leb (comparable range.1 ignoreCase) candidate &&
                                   jstr_leb candidate (comparable range.2 ignoreCase)) ranges)
  end.

(** The inner loop over the positions 1, ..., [value.length]: [previous] and
    [current] at the position before, and the rest of [previous]. *)
Fixpoint row_rest (kind : StepKind) (matches : N → bool) (p_before c_before : bool)
    (previous : list bool) (text : jstr) : list bool :=
  match previous, text with
  | p :: previous, ch :: text =>
      let matched := matches ch in
      let c := match kind with
        | KRequired => p_before && matched
        | KOptional => p || p_before && matched
        | KStar => p || c_before && matched
        end in
      c :: row_rest kind matches p c previous text
  | _, _ => []
  end.

(** One step of the outer loop: the next row of the table. *)
Definition next_row (ignoreCase : bool) (text : jstr) (previous : list bool) (step : SafeRegexStep)
    : list bool :=
  match previous with
  | [] => []
  | p0 :: previous =>
      let c0 := match step_kind step with KRequired => false | _ => p0 end in
      c0 :: row_rest (step_kind step) (λ ch, atomMatches (step_atom step) ch ignoreCase) p0 c0 previous text
  end.

Definition first_row (anchoredStart : bool) (text : jstr) : list bool :=
  true :: ((λ _, negb anchoredStart) <$> text).

(** [matchesSafeRegex(expression, value)]. *)
Definition matchesSafeRegex (expression : SafeRegex) (text : jstr) : bool :=
  let final := foldl (next_row (sr_ignoreCase expression) text)
    (first_row (sr_anchoredStart expression) text) (sr_steps expression) in
  if sr_anchoredEnd expression then default false (final !! length text)
  else existsb id final.
End matching.

(** ** Compiling

    The parser walks an index; here it walks the rest of the pattern. *)

Definition isQuantifierStart (c : N) : bool := bool_decide (c ∈ [63; 42; 43; 123]%N).

(** [shorthandAtom(character)]: [d], [w], [s] and their capitals. *)
Definition shorthandAtom (c : N) : option SafeRegexAtom :=
  if decide (c = 100%N) then Some (ADigit false) else if decide (c = 68%N) then Some (ADigit true)
  else if decide (c = 119%N) then Some (AWord false) else if decide (c = 87%N) then Some (AWord true)
  else if decide (c = 115%N) then Some (ASpace false) else if decide (c = 83%N) then Some (ASpace true)
  else None.

(** [parseEscape]: what follows the backslash. *)
Definition parseEscape (rest : jstr) : res (SafeRegexAtom * jstr) :=
  match rest with
  | [] => Throw invalidRegex
  | escaped :: rest => Ok (default (ALiteral escaped) (shorthandAtom escaped), rest)
  end.

(** The first loop of [parseCharacterClass]: the members up to the bracket. *)
Fixpoint class_members (rest : jstr) : res (list (N * bool) * jstr) :=
  match rest with
  | [] => Throw invalidRegex
  | c :: rest =>
      if decide (c = 93%N) then Ok ([], rest)
      else if decide (c = 92%N) then
        match rest with
        | [] => Throw invalidRegex
        | escaped :: rest =>
            _ ← ensure (match shorthandAtom escaped with None => true | Some _ => false end) invalidRegex;
            out ← class_members rest;
            Ok ((escaped, true) :: out.1, out.2)
        end
      else out ← class_members rest; Ok ((c, false) :: out.1, out.2)
  end.

(** The second loop: members into singles and ranges. *)
Fixpoint class_ranges (values : list (N * bool)) : res (list N * list (N * N)) :=
  match values with
  | [] => Ok ([], [])
  | first :: rest =>
      match rest with
      | dash :: last :: rest' =>
          if bool_decide (dash.1 = 45%N) && negb dash.2 && negb (bool_decide (first.1 = 45%N)) &&
             negb (bool_decide (last.1 = 45%N)) then
            _ ← ensure (negb (last.1 <? first.1)%N) invalidRegex;
            out ← class_ranges rest';
            Ok (out.1, (first.1, last.1) :: out.2)
          else out ← class_ranges rest; Ok (first.1 :: out.1, out.2)
      | _ => out ← class_ranges rest; Ok (first.1 :: out.1, out.2)
      end
  end.

(** [parseCharacterClass]: what follows the opening bracket. *)
Definition parseCharacterClass (rest : jstr) : res (SafeRegexAtom * jstr) :=
  let negated := match rest with c :: _ => bool_decide (c = 94%N) | [] => false end in
  members ← class_members (if negated then drop 1 rest else rest);
  _ ← ensure (negb (bool_decide (members.1 = []))) invalidRegex;
  split ← class_ranges members.1;
  Ok (AClass negated split.1 split.2, members.2).

(** [parseAtom(pattern, index)]. *)
Definition parseAtom (c : N) (rest : jstr) : res (SafeRegexAtom * jstr) :=
  _ ← ensure (negb (bool_decide (c ∈ [94; 36; 40; 41; 124]%N) || isQuantifierStart c)) invalidRegex;
  if decide (c = 46%N) then Ok (AAny, rest)
  else if decide (c = 91%N) then parseCharacterClass rest
  else if decide (c = 92%N) then parseEscape rest
  else Ok (ALiteral c, rest).

(** [text.split(separator)] at one character. *)
Fixpoint split_char (sep : N) (s : jstr) : list jstr :=
  match s with
  | [] => [[]]
  | c :: s =>
      if decide (c = sep) then [] :: split_char sep s
      else match split_char sep s with part :: parts => (c :: part) :: parts | [] => [[c]] end
  end.

(** The text before and after the first closing brace. *)
Fixpoint until_brace (s : jstr) : option (jstr * jstr) :=
  match s with
  | [] => None
  | c :: s => if decide (c = 125%N) then Some ([], s)
      else match until_brace s with Some (a, b) => Some (c :: a, b) | None => None end
  end.

Definition isDecimal (s : jstr) : bool := negb (bool_decide (s = [])) && forallb is_digit s.

Definition decimalNumber (s : jstr) : res N :=
  _ ← ensure (isDecimal s) invalidRegex; Ok (undec s).

(** [parseQuantifier(pattern, index)]: [min], [max] and what is left. *)
Definition parseQuantifier (rest : jstr) : res (N * option N * jstr) :=
  match rest with
  | [] => Ok (1%N, Some 1%N, rest)
  | c :: after =>
      if negb (isQuantifierStart c) then Ok (1%N, Some 1%N, rest)
      else if decide (c = 63%N) then Ok (0%N, Some 1%N, after)
      else if decide (c = 42%N) then Ok (0%N, None, after)
      else if decide (c = 43%N) then Ok (1%N, None, after)
      else match until_brace after with
        | None => Throw invalidRegex
        | Some (body, rest') =>
            let parts := split_char 44%N body in
            let part0 := default [] (head parts) in
            _ ← ensure (negb (Nat.ltb 2 (length parts) || bool_decide (part0 = []) || negb (isDecimal part0)))
                  invalidRegex;
            let min := undec part0 in
            max ← match parts with
              | _ :: part1 :: _ =>
                  if decide (part1 = []) then Ok None else m ← decimalNumber part1; Ok (Some m)
              | _ => Ok (Some min)
              end;
            _ ← ensure (negb ((MAX_EXPANDED_ATOMS <? min)%N ||
                   match max with
                   | Some m => (m <? min)%N || (MAX_EXPANDED_ATOMS <? m)%N
                   | None => false
                   end)) invalidRegex;
            Ok (min, max, rest')
        end
  end.

(** The steps [appendQuantifiedSteps] pushes. *)
Definition quantified_steps (atom : SafeRegexAtom) (min : N) (max : option N) : list SafeRegexStep :=
  replicate (N.to_nat min) {| step_kind := KRequired; step_atom := atom |} ++
  match max with
  | None => [{| step_kind := KStar; step_atom := atom |}]
  | Some m => replicate (N.to_nat m - N.to_nat min) {| step_kind := KOptional; step_atom := atom |}
  end.

(** The loop of [compileSafeRegex]; [fuel] bounds its iterations. *)
Fixpoint compile_loop (fuel : nat) (rest : jstr) (steps : list SafeRegexStep) (atomCount : N)
    : res (list SafeRegexStep * N * bool) :=
  match fuel with
  | 0 => Throw (FrameworkError PLAIN_ERROR 500)
  | S fuel =>
      match rest with
      | [] => Ok (steps, atomCount, false)
      | c :: rest' =>
          if bool_decide (c = 36%N ∧ rest' = []) then Ok (steps, atomCount, true)
          else
            parsed ← parseAtom c rest';
            quantified ← parseQuantifier parsed.2;
            let '(min, max, rest) := quantified in
            let steps := steps ++ quantified_steps parsed.1 min max in
            _ ← ensure (negb (MAX_EXPANDED_ATOMS <? N.of_nat (length steps))%N) invalidRegex;
            compile_loop fuel rest steps (atomCount + 1)
      end
  end.

(** [compileSafeRegex(pattern, flags)]; the flags are absent, [i] or another
    string. *)
Definition compileSafeRegex (pattern : jstr) (flags : option jstr) : res SafeRegex :=
  _ ← ensure (negb (bool_decide (pattern = []) || Nat.ltb MAX_PATTERN_LENGTH (length pattern) ||
                    hasUnsafeControlCharacter pattern)) invalidRegex;
  _ ← ensure (match flags with None => true | Some f => bool_decide (f = js "i") end) invalidRegex;
  let anchoredStart := match pattern with c :: _ => bool_decide (c = 94%N) | [] => false end in
  let rest := if anchoredStart then drop 1 pattern else pattern in
  out ← compile_loop (S (length rest)) rest [] 0;
  let '(steps, atomCount, anchoredEnd) := out in
  _ ← ensure (negb (atomCount =? 0)%N) invalidRegex;
  Ok {| sr_anchoredStart := anchoredStart; sr_anchoredEnd := anchoredEnd;
        sr_ignoreCase := match flags with Some _ => true | None => false end; sr_steps := steps |}.

(** ** What a list of steps means *)

Section semantics.
Context (matches : SafeRegexAtom → N → bool).

Definition step_matches (step : SafeRegexStep) (w : jstr) : Prop :=
  Forall (λ c, matches (step_atom step) c = true) w ∧
  match step_kind step with
  | KRequired => length w = 1
  | KOptional => length w ≤ 1
  | KStar => True
  end.

Inductive steps_match : list SafeRegexStep → jstr → Prop :=
| steps_nil : steps_match [] []
| steps_cons step steps w1 w2 :
    step_matches step w1 → steps_match steps w2 → steps_match (step :: steps) (w1 ++ w2).

Lemma steps_match_app steps1 steps2 w :
  steps_match (steps1 ++ steps2) w ↔
  ∃ w1 w2, w = w1 ++ w2 ∧ steps_match steps1 w1 ∧ steps_match steps2 w2.
Proof.
  revert w. induction steps1 as [|s steps1 IH]; intros w; simpl; split.
  - intros H. exists [], w. split_and!; [done|constructor|done].
  - intros (w1 & w2 & -> & H1 & H2). by inversion H1.
  - intros H. inversion H as [|? ? w1 w2 Hs Ht]; subst.
    apply IH in Ht as (u & v & -> & Hu & Hv). exists (w1 ++ u), v. rewrite app_assoc.
    split_and!; [done|by constructor|done].
  - intros (w1 & w2 & -> & H1 & H2). inversion H1 as [|? ? u v Hs Ht]; subst.
    rewrite <-app_assoc. constructor; [done|]. apply IH. by exists v, w2.
Qed.

Lemma steps_match_one step w : steps_match [step] w ↔ step_matches step w.
Proof.
  split.
  - intros H. inversion H as [|? ? u v Hs Ht]; subst. inversion Ht; subst. by rewrite app_nil_r.
  - intros H. rewrite <-(app_nil_r w). constructor; [done|constructor].
Qed.

(** The prefixes of a text at which the steps can have been matched, from the
    start or, unanchored, from anywhere. *)
Definition accepts (anchoredStart : bool) (steps : list SafeRegexStep) (p : jstr) : Prop :=
  ∃ u w, p = u ++ w ∧ (anchoredStart = true → u = []) ∧ steps_match steps w.

Lemma accepts_snoc anchored steps step p :
  accepts anchored (steps ++ [step]) p ↔
  ∃ q w, p = q ++ w ∧ accepts anchored steps q ∧ step_matches step w.
Proof.
  unfold accepts. split.
  - intros (u & w & -> & Hu & (w1 & w2 & -> & H1 & H2%steps_match_one)%steps_match_app).
    exists (u ++ w1), w2. split_and!; [by rewrite app_assoc| |done]. by exists u, w1.
  - intros (q & w & -> & (u & w1 & -> & Hu & H1) & H2). exists u, (w1 ++ w).
    split_and!; [by rewrite app_assoc|done|]. apply steps_match_app. exists w1, w.
    split_and!; [done..|]. by apply steps_match_one.
Qed.

(** The recurrence of the table. *)
Lemma accepts_step_nil anchored steps step :
  accepts anchored (steps ++ [step]) [] ↔
  match step_kind step with KRequired => False | _ => accepts anchored steps [] end.
Proof.
  rewrite accepts_snoc. split.
  - intros (q & w & E & Ha & Hs). symmetry in E. apply app_nil in E as [-> ->].
    destruct Hs as [_ Hs]. by destruct (step_kind step).
  - intros H. exists [], []. unfold step_matches. destruct (step_kind step); [done|..];
      (split_and!; [done|done|constructor|simpl; lia || done]).
Qed.

Lemma step_matches_nil step :
  step_matches step [] ↔ match step_kind step with KRequired => False | _ => True end.
Proof. unfold step_matches. destruct (step_kind step); simpl; split; intuition (auto; lia). Qed.

Lemma accepts_step_snoc anchored steps step p c :
  accepts anchored (steps ++ [step]) (p ++ [c]) ↔
  match step_kind step with
  | KRequired => accepts anchored steps p ∧ matches (step_atom step) c = true
  | KOptional => accepts anchored steps (p ++ [c]) ∨
                 accepts anchored steps p ∧ matches (step_atom step) c = true
  | KStar => accepts anchored steps (p ++ [c]) ∨
             accepts anchored (steps ++ [step]) p ∧ matches (step_atom step) c = true
  end.
Proof.
  rewrite accepts_snoc. split.
  - intros (q & w & E & Ha & Hs). destruct w as [|d w _] using rev_ind.
    + rewrite app_nil_r in E. subst q. apply step_matches_nil in Hs.
      by destruct (step_kind step); [|left..].
    + rewrite app_assoc in E. apply app_inj_2 in E as [-> [= ->]]; [|done].
      destruct Hs as [Hf Hk]. apply Forall_app in Hf as [Hw [Hd _]%Forall_cons].
      rewrite length_app in Hk. simpl in Hk.
      destruct (step_kind step) eqn:Ek.
      * destruct w; [|simpl in Hk; lia]. by rewrite app_nil_r.
      * destruct w; [|simpl in Hk; lia]. right. by rewrite app_nil_r.
      * right. split; [|done]. apply accepts_snoc. exists q, w. split_and!; [done..|].
        split; [done|by rewrite Ek].
  - assert (Hone : accepts anchored steps p → matches (step_atom step) c = true →
      ∃ q w, p ++ [c] = q ++ w ∧ accepts anchored steps q ∧ step_matches step w).
    { intros Ha Hc. exists p, [c]. split_and!; [done..|]. split; [by repeat constructor|].
      by destruct (step_kind step). }
    destruct (step_kind step) eqn:Ek.
    + intros [Ha Hc]. by apply Hone.
    + intros [Ha|[Ha Hc]]; [|by apply Hone]. exists (p ++ [c]), []. rewrite app_nil_r.
      split_and!; [done..|]. apply step_matches_nil. by rewrite Ek.
    + intros [Ha|[Ha Hc]].
      * exists (p ++ [c]), []. rewrite app_nil_r. split_and!; [done..|].
        apply step_matches_nil. by rewrite Ek.
      * apply accepts_snoc in Ha as (q & w & -> & Ha & [Hw _]). exists q, (w ++ [c]).
        rewrite app_assoc. split_and!; [done..|]. split; [|by rewrite Ek].
        apply Forall_app. split; [done|by repeat constructor].
Qed.
End semantics.

(** ** The table *)

Section table.
Context (lower : N → jstr).

(** A row that says, for each prefix of the text, whether [F] holds of it. *)
Definition describes (F : jstr → Prop) (p : jstr) (row : list bool) (text : jstr) : Prop :=
  length row = length text ∧
  ∀ i b, row !! i = Some b → (b = true ↔ F (p ++ take (S i) text)).

Lemma describes_cons F p b row c text :
  describes F p (b :: row) (c :: text) ↔
  (b = true ↔ F (p ++ [c])) ∧ describes F (p ++ [c]) row text.
Proof.
  unfold describes. simpl. split.
  - intros [Hl H]. split; [by apply (H 0 b)|]. split; [lia|]. intros i b' Hi.
    rewrite <-app_assoc. simpl. by apply (H (S i)).
  - intros [H0 [Hl H]]. split; [lia|]. intros [|i] b' Hi; simpl in Hi.
    + by injection Hi as <-.
    + specialize (H i b' Hi). by rewrite <-app_assoc in H.
Qed.

Lemma row_rest_spec anchored ignoreCase steps step p pb cb row text :
  let ok := λ a c, atomMatches lower a c ignoreCase in
  let F := accepts ok anchored steps in
  let G := accepts ok anchored (steps ++ [step]) in
  (pb = true ↔ F p) → (cb = true ↔ G p) → describes F p row text →
  describes G p (row_rest (step_kind step) (ok (step_atom step)) pb cb row text) text.
Proof.
  intros ok F G. revert p pb cb row. induction text as [|c text IH]; intros p pb cb row Hp Hc Hd.
  - destruct row; [|by destruct Hd]. simpl. split; [done|]. by intros i b; rewrite lookup_nil.
  - destruct row as [|b row]; [by destruct Hd|]. apply describes_cons in Hd as [Hb Hd].
    cbn [row_rest]. apply describes_cons.
    assert (Hnew : match step_kind step with
        | KRequired => pb && ok (step_atom step) c
        | KOptional => b || pb && ok (step_atom step) c
        | KStar => b || cb && ok (step_atom step) c end = true ↔ G (p ++ [c])).
    { unfold G. rewrite accepts_step_snoc. fold F G.
      destruct (step_kind step); rewrite ?orb_true_iff, ?andb_true_iff; fold F G; tauto. }
    split; [done|]. by apply IH.
Qed.

(** The row before any step, and after each. *)
Definition row_ok (anchored ignoreCase : bool) (steps : list SafeRegexStep) (text : jstr)
    (row : list bool) : Prop :=
  let F := accepts (λ a c, atomMatches lower a c ignoreCase) anchored steps in
  ∃ b0 rest, row = b0 :: rest ∧ (b0 = true ↔ F []) ∧ describes F [] rest text.

Lemma first_row_ok anchored ignoreCase text :
  row_ok anchored ignoreCase [] text (first_row anchored text).
Proof.
  unfold row_ok, first_row. eexists _, _. split; [done|].
  assert (Hnil : ∀ p, accepts (λ a c, atomMatches lower a c ignoreCase) anchored [] p ↔
    (anchored = true → p = [])).
  { intros p. split.
    - intros (u & w & -> & Hu & Hw). inversion Hw; subst. by rewrite app_nil_r.
    - intros H. exists p, []. rewrite app_nil_r. split_and!; [done..|constructor]. }
  split; [by rewrite Hnil|]. split; [by rewrite length_fmap|].
  intros i b Hi. rewrite Hnil. apply list_lookup_fmap_Some in Hi as (c & -> & Hc).
  simpl. destruct text as [|d text]; [done|]. simpl. destruct anchored; simpl; naive_solver.
Qed.

Lemma next_row_ok anchored ignoreCase steps step text row :
  row_ok anchored ignoreCase steps text row →
  row_ok anchored ignoreCase (steps ++ [step]) text (next_row lower ignoreCase text row step).
Proof.
  intros (b0 & rest & -> & H0 & Hd). unfold row_ok, next_row. eexists _, _. split; [done|].
  assert (Hc0 : match step_kind step with KRequired => false | _ => b0 end = true ↔
    accepts (λ a c, atomMatches lower a c ignoreCase) anchored (steps ++ [step]) []).
  { rewrite accepts_step_nil. by destruct (step_kind step). }
  split; [done|]. by apply row_rest_spec.
Qed.

Lemma rows_ok anchored ignoreCase steps text :
  row_ok anchored ignoreCase steps text
    (foldl (next_row lower ignoreCase text) (first_row anchored text) steps).
Proof.
  induction steps as [|step steps IH] using rev_ind; [apply first_row_ok|].
  rewrite foldl_app. by apply next_row_ok.
Qed.

(** C35: The matcher decides the meaning of an expression: the text has a part,
    from its start or to its end where anchored, that the steps match in order. *)
Theorem matchesSafeRegex_spec expression text :
  matchesSafeRegex lower expression text = true ↔
  ∃ u w v, text = u ++ w ++ v ∧
    (sr_anchoredStart expression = true → u = []) ∧
    (sr_anchoredEnd expression = true → v = []) ∧
    steps_match (λ a c, atomMatches lower a c (sr_ignoreCase expression)) (sr_steps expression) w.
Proof.
  unfold matchesSafeRegex.
  destruct (rows_ok (sr_anchoredStart expression) (sr_ignoreCase expression) (sr_steps expression) text)
    as (b0 & rest & -> & H0 & Hlen & Hrow).
  destruct (sr_anchoredEnd expression).
  - transitivity (accepts (λ a c, atomMatches lower a c (sr_ignoreCase expression))
      (sr_anchoredStart expression) (sr_steps expression) text).
    + destruct text as [|c text]; simpl in Hlen; [by rewrite <-H0|].
      simpl. destruct (rest !! length text) as [b|] eqn:Hb.
      * apply Hrow in Hb. simpl. rewrite Hb. simpl. by rewrite firstn_all.
      * apply lookup_ge_None in Hb. lia.
    + split.
      * intros (u & w & -> & Hu & Hw). exists u, w, []. rewrite app_nil_r. by split_and!.
      * intros (u & w & v & -> & Hu & -> & Hw); [|done]. rewrite app_nil_r. by exists u, w.
  - rewrite existsb_In. split.
    + intros (b & Hb & Ht). simpl in Ht. subst b.
      assert (∃ n, accepts (λ a c, atomMatches lower a c (sr_ignoreCase expression))
        (sr_anchoredStart expression) (sr_steps expression) (take n text)) as (n & u & w & E & Hu & Hw).
      { apply elem_of_cons in Hb as [<-|[i Hi]%list_elem_of_lookup].
        - exists 0. by apply H0.
        - exists (S i). by apply (Hrow i true). }
      exists u, w, (drop n text). rewrite app_assoc, <-E, take_drop. by split_and!.
    + intros (u & w & v & -> & Hu & _ & Hw).
      assert (Ha : accepts (λ a c, atomMatches lower a c (sr_ignoreCase expression))
        (sr_anchoredStart expression) (sr_steps expression) (u ++ w)) by by exists u, w.
      exists true. split; [|done].
      destruct (u ++ w) as [|c p] eqn:Ep; [apply H0 in Ha as ->; left|]. right.
      destruct (rest !! length p) as [b|] eqn:Hb.
      * assert (b = true) as ->; [|by apply list_elem_of_lookup_2 in Hb].
        apply (Hrow _ _ Hb). rewrite app_assoc, Ep. simpl. by rewrite take_app_length.
      * apply lookup_ge_None in Hb. rewrite app_assoc, Ep in Hlen. simpl in Hlen.
        rewrite length_app in Hlen. lia.
Qed.
End table.

(** ** Quantifiers *)

Lemma steps_match_replicate matches kind atom n w :
  kind = KRequired ∨ kind = KOptional →
  steps_match matches (replicate n {| step_kind := kind; step_atom := atom |}) w ↔
  Forall (λ c, matches atom c = true) w ∧
  (if decide (kind = KRequired) then length w = n else length w ≤ n).
Proof.
  intros Hk. revert w. induction n as [|n IH]; intros w; simpl.
  - split.
    + intros H. inversion H. split; [constructor|]. by destruct (decide _).
    + intros [_ Hl]. destruct w; [constructor|]. destruct (decide _); simpl in Hl; lia.
  - split.
    + intros H. inversion H as [|? ? w1 w2 [Hf Hs] Ht]; subst. apply IH in Ht as [Ht Hn].
      split; [by apply Forall_app|]. rewrite length_app. simpl in Hs.
      destruct Hk as [-> | ->]; simpl in *; lia.
    + intros [Hf Hl]. destruct w as [|c w].
      * destruct (decide (kind = KRequired)); [done|]. destruct Hk as [-> | ->]; [done|].
        apply (steps_cons matches _ _ [] []); [by split; simpl; [|lia]|]. apply IH. simpl.
        split; [constructor|lia].
      * apply Forall_cons in Hf as [Hc Hf]. apply (steps_cons matches _ _ [c] w).
        -- split; [by repeat constructor|]. destruct Hk as [-> | ->]; simpl; lia.
        -- apply IH. split; [done|]. destruct (decide _); simpl in Hl; lia.
Qed.

(** A quantifier matches the texts of matching characters whose length is
    within its bounds. *)
Theorem quantifier_bounds matches atom min max w :
  match max with Some m => (min <= m)%N | None => True end →
  steps_match matches (quantified_steps atom min max) w ↔
  Forall (λ c, matches atom c = true) w ∧
  N.to_nat min ≤ length w ∧ match max with Some m => length w ≤ N.to_nat m | None => True end.
Proof.
  intros Hm. unfold quantified_steps. rewrite steps_match_app. split.
  - intros (w1 & w2 & -> & H1 & H2). apply steps_match_replicate in H1 as [F1 L1]; [|by left].
    rewrite decide_True in L1 by done. rewrite length_app. destruct max as [m|].
    + apply steps_match_replicate in H2 as [F2 L2]; [|by right]. rewrite decide_False in L2 by done.
      split_and!; [by apply Forall_app|lia..].
    + apply steps_match_one in H2 as [F2 _]. split_and!; [by apply Forall_app|lia|done].
  - intros (F & Lmin & Lmax). exists (take (N.to_nat min) w), (drop (N.to_nat min) w).
    split_and!; [by rewrite take_drop| |].
    + apply steps_match_replicate; [by left|]. rewrite decide_True by done.
      split; [by apply Forall_take|]. rewrite length_take. lia.
    + destruct max as [m|].
      * apply steps_match_replicate; [by right|]. rewrite decide_False by done.
        split; [by apply Forall_drop|]. rewrite length_drop. lia.
      * apply steps_match_one. split; [by apply Forall_drop|done].
Qed.

(** ** The compiler's bounds *)

Lemma class_members_shrink rest out : class_members rest = Ok out → length out.2 < length rest.
Proof.
  assert (H : ∀ n rest out, length rest ≤ n → class_members rest = Ok out → length out.2 < length rest).
  { clear rest out. induction n as [|n IH]; intros rest out Hn H; (destruct rest as [|c rest]; [done|]);
      simpl in Hn; [lia|]. simpl in H.
    destruct (decide (c = 93%N)); [inv_res; simpl; lia|].
    destruct (decide (c = 92%N)).
    - destruct rest as [|d rest]; [done|]. apply bind_ok in H as (? & _ & H).
      apply bind_ok in H as (o & Ho & [= <-]). simpl in *. apply IH in Ho; lia.
    - apply bind_ok in H as (o & Ho & [= <-]). apply IH in Ho; simpl; lia. }
  by apply (H (length rest)).
Qed.

Lemma class_members_throw rest e : class_members rest = Throw e → e = invalidRegex.
Proof.
  assert (H : ∀ n rest e, length rest ≤ n → class_members rest = Throw e → e = invalidRegex).
  { clear rest e. induction n as [|n IH]; intros rest e Hn H; (destruct rest as [|c rest]; [by injection H as <-|]);
      simpl in Hn; [lia|]. simpl in H.
    destruct (decide (c = 93%N)); [done|].
    destruct (decide (c = 92%N)).
    - destruct rest as [|d rest]; [by injection H as <-|]. simpl in Hn.
      apply bind_throw in H as [H|(? & _ & H)]; [by apply ensure_throw in H as [_ ->]|].
      apply bind_throw in H as [H|(? & _ & H)]; [|done]. apply (IH rest); [lia|done].
    - apply bind_throw in H as [H|(? & _ & H)]; [|done]. apply (IH rest); [lia|done]. }
  by apply (H (length rest)).
Qed.

Lemma class_ranges_throw values e : class_ranges values = Throw e → e = invalidRegex.
Proof.
  assert (H : ∀ n values e, length values ≤ n → class_ranges values = Throw e → e = invalidRegex).
  { clear values e. induction n as [|n IH]; intros values e Hn H; (destruct values as [|a values]; [done|]);
      simpl in Hn; [lia|]. cbn [class_ranges] in H.
    destruct values as [|b [|c values]]; simpl in Hn.
    - done.
    - apply bind_throw in H as [H|(? & _ & H)]; [|done]. apply (IH [b]); [simpl; lia|done].
    - destruct (bool_decide _ && _ && _ && _).
      + apply bind_throw in H as [H|(? & _ & H)]; [by apply ensure_throw in H as [_ ->]|].
        apply bind_throw in H as [H|(? & _ & H)]; [|done]. apply (IH values); [lia|done].
      + apply bind_throw in H as [H|(? & _ & H)]; [|done]. apply (IH (b :: c :: values)); [simpl; lia|done]. }
  by apply (H (length values)).
Qed.

(** A pattern's parts never grow, and every error is [NAMING_INVALID]. *)
Lemma parseAtom_shrink c rest out : parseAtom c rest = Ok out → length out.2 ≤ length rest.
Proof.
  unfold parseAtom. intros (? & _ & H)%bind_ok.
  destruct (decide (c = 46%N)); [by injection H as <-|].
  destruct (decide (c = 91%N)).
  - unfold parseCharacterClass in H. apply bind_ok in H as (m & Hm & H).
    apply bind_ok in H as (? & _ & H). apply bind_ok in H as (? & _ & [= <-]). simpl.
    apply class_members_shrink in Hm. destruct rest as [|d rest]; simpl in *; [lia|].
    destruct (bool_decide _); simpl in Hm; rewrite ?drop_0 in Hm; simpl in Hm; lia.
  - destruct (decide (c = 92%N)); [|by injection H as <-].
    unfold parseEscape in H. destruct rest; [done|]. injection H as <-. simpl. lia.
Qed.

Lemma parseAtom_throw c rest e : parseAtom c rest = Throw e → e = invalidRegex.
Proof.
  unfold parseAtom. intros [H|(? & _ & H)]%bind_throw; [by apply ensure_throw in H as [_ ->]|].
  destruct (decide (c = 46%N)); [done|]. destruct (decide (c = 91%N)).
  - unfold parseCharacterClass in H. apply bind_throw in H as [H|(? & _ & H)]; [by eapply class_members_throw|].
    apply bind_throw in H as [H|(? & _ & H)]; [by apply ensure_throw in H as [_ ->]|].
    apply bind_throw in H as [H|(? & _ & H)]; [by eapply class_ranges_throw|done].
  - destruct (decide (c = 92%N)); [|done]. unfold parseEscape in H. destruct rest; [|done]. by injection H as <-.
Qed.

Lemma until_brace_shrink s a b : until_brace s = Some (a, b) → length b < length s.
Proof.
  revert a b. induction s as [|c s IH]; intros a b; simpl; [done|].
  destruct (decide (c = 125%N)); [intros [= <- <-]; lia|].
  destruct (until_brace s) as [[a' b']|]; [|done]. intros [= <- <-].
  specialize (IH _ _ eq_refl). lia.
Qed.

(** The bounds of a parsed quantifier. *)
Definition quantifier_ok (min : N) (max : option N) : Prop :=
  (min <= 256)%N ∧ match max with Some m => (min <= m <= 256)%N | None => True end.

Lemma parseQuantifier_ok rest min max rest' :
  parseQuantifier rest = Ok (min, max, rest') → length rest' ≤ length rest ∧ quantifier_ok min max.
Proof.
  unfold parseQuantifier, quantifier_ok. destruct rest as [|c rest]; [intros [= <- <- <-]; lia|].
  destruct (negb (isQuantifierStart c)); [intros [= <- <- <-]; lia|].
  destruct (decide (c = 63%N)); [intros [= <- <- <-]; simpl; lia|].
  destruct (decide (c = 42%N)); [intros [= <- <- <-]; simpl; lia|].
  destruct (decide (c = 43%N)); [intros [= <- <- <-]; simpl; lia|].
  destruct (until_brace rest) as [[body after]|] eqn:E; [|done]. apply until_brace_shrink in E.
  intros (? & _ & H)%bind_ok. apply bind_ok in H as (m & _ & H).
  apply bind_ok in H as (? & Hb%ensure_ok & [= <- <- <-]).
  apply negb_true_iff, orb_false_iff in Hb as [H1%N.ltb_ge Hb]. split; [simpl; lia|]. split; [done|].
  destruct m as [m|]; [|done]. apply orb_false_iff in Hb as [H2%N.ltb_ge H3%N.ltb_ge]. by split.
Qed.

Lemma parseQuantifier_throw rest e : parseQuantifier rest = Throw e → e = invalidRegex.
Proof.
  unfold parseQuantifier. destruct rest as [|c rest]; [done|].
  destruct (negb (isQuantifierStart c)); [done|].
  destruct (decide (c = 63%N)); [done|]. destruct (decide (c = 42%N)); [done|].
  destruct (decide (c = 43%N)); [done|].
  destruct (until_brace rest) as [[body after]|]; [|by intros [= <-]].
  intros [H|(? & _ & H)]%bind_throw; [by apply ensure_throw in H as [_ ->]|].
  apply bind_throw in H as [H|(? & _ & H)].
  - destruct (split_char 44%N body) as [|p0 [|part1 parts]]; [done..|].
    destruct (decide (part1 = [])); [done|]. unfold decimalNumber in H.
    apply bind_throw in H as [H|(? & _ & H)]; [|done].
    apply bind_throw in H as [H|(? & _ & H)]; [by apply ensure_throw in H as [_ ->]|done].
  - apply bind_throw in H as [H|(? & _ & H)]; [by apply ensure_throw in H as [_ ->]|done].
Qed.

Lemma compile_loop_cases fuel rest steps n :
  length rest < fuel → (length steps ≤ 256) →
  match compile_loop fuel rest steps n with
  | Ok (steps', _, _) => length steps' ≤ 256
  | Throw e => e = invalidRegex
  end.
Proof.
  revert rest steps n. induction fuel as [|fuel IH]; intros rest steps n Hf Hs; [lia|]. cbn [compile_loop].
  destruct rest as [|c rest]; [done|]. simpl in Hf.
  destruct (bool_decide (c = 36%N ∧ rest = [])); [done|].
  destruct (parseAtom c rest) as [[atom r1]|e] eqn:Ea; cbn [mbind res_bind]; [|by eapply parseAtom_throw].
  apply parseAtom_shrink in Ea. simpl in Ea. cbn [snd fst].
  destruct (parseQuantifier r1) as [[[min max] r2]|e] eqn:Eq; cbn [mbind res_bind];
    [|by eapply parseQuantifier_throw].
  apply parseQuantifier_ok in Eq as [Hr _].
  destruct (ensure _ _) as [u|e] eqn:Ee; cbn [mbind res_bind]; [|by apply ensure_throw in Ee as [_ ->]].
  apply ensure_ok, negb_true_iff, N.ltb_ge in Ee. apply IH; [lia|]. unfold MAX_EXPANDED_ATOMS in Ee. lia.
Qed.

(** The compiler always answers: a compiled expression of at most 256 steps, so
    a match costs at most 256 passes over the text, or a [NAMING_INVALID]
    error; no other outcome, and no pattern makes it loop. *)
Theorem compileSafeRegex_bounded pattern flags :
  match compileSafeRegex pattern flags with
  | Ok regex => length (sr_steps regex) ≤ 256 ∧ 0 < length pattern ≤ 128
  | Throw e => e = FrameworkError NAMING_INVALID 400
  end.
Proof.
  destruct (compileSafeRegex pattern flags) as [regex|e] eqn:E; unfold compileSafeRegex in E;
    set (rest := if (match pattern with c :: _ => bool_decide (c = 94%N) | [] => false end)
                 then drop 1 pattern else pattern) in E;
    pose proof (compile_loop_cases (S (length rest)) rest [] 0 ltac:(lia) ltac:(simpl; lia)) as Hc.
  - apply bind_ok in E as (? & E1%ensure_ok & E). apply bind_ok in E as (? & _ & E).
    apply bind_ok in E as ([[steps n] anchoredEnd] & El & E). rewrite El in Hc.
    apply bind_ok in E as (? & _ & [= <-]).
    apply negb_true_iff, orb_false_iff in E1 as [E1 _].
    apply orb_false_iff in E1 as [Hne%bool_decide_eq_false Hlen%Nat.ltb_ge].
    simpl. split; [done|]. unfold MAX_PATTERN_LENGTH in Hlen. destruct pattern; [done|]. simpl in *. lia.
  - apply bind_throw in E as [[_ ->]%ensure_throw|(? & _ & E)]; [done|].
    apply bind_throw in E as [[_ ->]%ensure_throw|(? & _ & E)]; [done|].
    apply bind_throw in E as [E|([[steps n] anchoredEnd] & _ & E)]; [by rewrite E in Hc|].
    by apply bind_throw in E as [[_ ->]%ensure_throw|(? & _ & E)].
Qed.

(** ** Witness *)
Lemma quantifier_bounds_witness :
  let digits := λ a c, atomMatches (λ c, [c]) a c false in
  steps_match digits (quantified_steps (ADigit false) 2 (Some 3%N)) (js "123") ∧
  ¬ steps_match digits (quantified_steps (ADigit false) 2 (Some 3%N)) (js "1").
Proof.
  intros digits.
  pose proof (quantifier_bounds digits (ADigit false) 2 (Some 3%N)) as H.
  split.
  - apply H; [lia|]. split; [repeat constructor|]. simpl. lia.
  - intros Hs. apply H in Hs; [|lia]. simpl in Hs. lia.
Defined.

Example compileSafeRegex_example :
  ∃ regex, compileSafeRegex (js "^[0-4]+x{2}$") None = Ok regex ∧
    matchesSafeRegex (λ c, [c]) regex (js "043xx") = true ∧
    matchesSafeRegex (λ c, [c]) regex (js "043x") = false.
Proof. eexists. split; [vm_compute; reflexivity|]. split; reflexivity. Qed.
