(* ===== verification/Like.v ===== *)
(** * Like: text patterns and their translation to SQL

    Models the [like] and [contains] rules of [core/predicates.ts] and the
    translation of [core/like-glob.ts] to SQLite's [GLOB].

    The regular expression [likePatternRegex] builds is kept as its list of
    terms; its characters are compared through the engine's canonicalisation
    (the [i] flag), an argument of the model.  [GLOB] is SQLite's and an
    argument too, with its documented rules as hypotheses of the section that
    uses it.  The theorems: [contains] takes its needle literally, and the
    translated pattern selects exactly the strings the in-memory rule does. *)

From S2P Require Export JsMap.

(** ** The in-memory rule *)

(** The terms of the expression: an escaped character, [[\s\S]], [[\s\S]*] and
    [(?!)]. *)
Inductive like_term :=
| TChar (c : N)
| TAny
| TMany
| TNever.

(** [likePatternRegex(pattern)]. *)
Fixpoint likePatternRegex (pattern : jstr) : list like_term :=
  match pattern with
  | [] => []
  | char :: rest =>
      if decide (char = 92%N) then
        match rest with
        | [] => [TNever]
        | next :: rest' => TChar next :: likePatternRegex rest'
        end
      else if decide (char = 37%N) then TMany :: likePatternRegex rest
      else if decide (char = 95%N) then TAny :: likePatternRegex rest
      else TChar char :: likePatternRegex rest
  end.

(** [escapeLikePattern(value)]. *)
Definition escapeLikePattern (v : jstr) : jstr :=
  flat_map (λ c, if decide (c ∈ [92; 37; 95]%N) then [92%N; c] else [c]) v.

(** [containsLikePattern(needle)]. *)
Definition containsLikePattern (needle : jstr) : jstr := js "%" ++ escapeLikePattern needle ++ js "%".

Section like.
Context (canonicalize : N → N).

(** [^terms$] with the [i] flag, tested on a whole string. *)
Fixpoint terms_match (terms : list like_term) (text : jstr) : bool :=
  match terms with
  | [] => bool_decide (text = [])
  | TChar c :: terms =>
      match text with d :: text => bool_decide (canonicalize c = canonicalize d) && terms_match terms text | [] => false end
  | TAny :: terms => match text with _ :: text => terms_match terms text | [] => false end
  | TMany :: terms =>
      (fix many text := terms_match terms text ||
         match text with _ :: text => many text | [] => false end) text
  | TNever :: _ => false
  end.

(** [likePatternMatches(actual, pattern)] on the text of the value. *)
Definition likePatternMatches (text pattern : jstr) : bool :=
  terms_match (likePatternRegex pattern) text.

(** [containsFoldedText(value, needle)]. *)
Definition containsFoldedText (text needle : jstr) : bool :=
  likePatternMatches text (containsLikePattern needle).

(** What the terms mean. *)
Inductive terms_mean : list like_term → jstr → Prop :=
| mean_nil : terms_mean [] []
| mean_char c d terms text :
    canonicalize c = canonicalize d → terms_mean terms text → terms_mean (TChar c :: terms) (d :: text)
| mean_any d terms text : terms_mean terms text → terms_mean (TAny :: terms) (d :: text)
| mean_many some terms text : terms_mean terms text → terms_mean (TMany :: terms) (some ++ text).

Lemma terms_match_many terms text :
  terms_match (TMany :: terms) text = true ↔ ∃ some rest, text = some ++ rest ∧ terms_match terms rest = true.
Proof.
  induction text as [|c text IH].
  - simpl. rewrite orb_false_r. split; [intros H; by exists [], []|].
    intros (some & rest & E & H). symmetry in E. apply app_nil in E as [_ ->]. done.
  - change (terms_match (TMany :: terms) (c :: text))
      with (terms_match terms (c :: text) || terms_match (TMany :: terms) text).
    rewrite orb_true_iff, IH. split.
    + intros [H|(some & rest & -> & H)]; [by exists [], (c :: text)|by exists (c :: some), rest].
    + intros ([|d some] & rest & E & H); [left; by rewrite E|].
      right. simpl in E. injection E as _ ->. by exists some, rest.
Qed.

Lemma terms_match_spec terms text : terms_match terms text = true ↔ terms_mean terms text.
Proof.
  revert text. induction terms as [|t terms IH]; intros text.
  - cbn [terms_match]. rewrite bool_decide_eq_true. split; [intros ->; constructor|by inversion 1].
  - destruct t.
    + destruct text as [|d text]; cbn [terms_match]; [split; [done|by inversion 1]|].
      rewrite andb_true_iff, bool_decide_eq_true, IH. split; [intros [??]; by constructor|by inversion 1].
    + destruct text as [|d text]; cbn [terms_match]; [split; [done|by inversion 1]|].
      rewrite IH. split; [by constructor|by inversion 1].
    + rewrite terms_match_many. split.
      * intros (some & rest & -> & H%IH). by constructor.
      * inversion 1 as [| | |some ? rest Hm]; subst. exists some, rest. by rewrite IH.
    + split; [done|inversion 1].
Qed.

(** The terms of an escaped literal are its characters. *)
Lemma likePatternRegex_escape needle rest :
  likePatternRegex (escapeLikePattern needle ++ rest) = (TChar <$> needle) ++ likePatternRegex rest.
Proof.
  induction needle as [|c needle IH]; [done|]. unfold escapeLikePattern. cbn [flat_map].
  fold (escapeLikePattern needle).
  destruct (decide (c ∈ [92; 37; 95]%N)) as [Hin|Hout].
  - cbn [app]. cbn [likePatternRegex]. rewrite decide_True by done. by rewrite IH.
  - rewrite !not_elem_of_cons in Hout. destruct Hout as (H1 & H2 & H3 & _).
    cbn [app likePatternRegex]. rewrite !decide_False by done. by rewrite IH.
Qed.

Lemma terms_mean_chars needle terms text :
  terms_mean ((TChar <$> needle) ++ terms) text ↔
  ∃ mid rest, text = mid ++ rest ∧ canonicalize <$> mid = canonicalize <$> needle ∧ terms_mean terms rest.
Proof.
  revert text. induction needle as [|c needle IH]; intros text.
  - split; [intros H; by exists [], text|]. intros (mid & rest & -> & E & H). by destruct mid.
  - rewrite fmap_cons. cbn [app]. split.
    + inversion 1 as [|? d ? t Hc Hm| |]; subst. apply IH in Hm as (mid & rest & -> & E & H').
      exists (d :: mid), rest. rewrite !fmap_cons. split_and!; [done| |done]. by rewrite E, Hc.
    + intros ([|d mid] & rest & -> & E & H); [done|]. rewrite !fmap_cons in E. injection E as Ed E.
      simpl. constructor; [done|]. apply IH. by exists mid, rest.
Qed.

(** [contains] holds exactly when the text has a part that folds to the needle:
    [%], [_] and the backslash in a needle stand for themselves. *)
Theorem contains_literal text needle :
  containsFoldedText text needle = true ↔
  ∃ pre mid post, text = pre ++ mid ++ post ∧ canonicalize <$> mid = canonicalize <$> needle.
Proof.
  unfold containsFoldedText, likePatternMatches, containsLikePattern.
  rewrite terms_match_spec. change (js "%") with [37%N]. cbn [app likePatternRegex].
  rewrite (decide_False (P := 37%N = 92%N)) by done. rewrite decide_True by done.
  rewrite likePatternRegex_escape. split.
  - inversion 1 as [| | |pre ? rest Hm]; subst.
    apply terms_mean_chars in Hm as (mid & post & -> & E & _). by exists pre, mid, post.
  - intros (pre & mid & post & -> & E). constructor. apply terms_mean_chars.
    exists mid, post. split_and!; [done..|]. simpl. rewrite <-(app_nil_r post). repeat constructor.
Qed.
End like.

(** ** The translation to [GLOB] *)

(** [CASE_FOLD_GROUPS]: the code units of each group of the table. *)
Definition CASE_FOLD_GROUPS : list jstr := [
    [65; 97]; [66; 98]; [67; 99]; [68; 100]; [69; 101]; [70; 102]; [71; 103]; [72; 104]; [73; 105];
    [74; 106]; [75; 107]; [76; 108]; [77; 109]; [78; 110]; [79; 111]; [80; 112]; [81; 113];
    [82; 114]; [83; 115]; [84; 116]; [85; 117]; [86; 118]; [87; 119]; [88; 120]; [89; 121];
    [90; 122]; [181; 924; 956]; [192; 224]; [193; 225]; [194; 226]; [195; 227]; [196; 228];
    [197; 229]; [198; 230]; [199; 231]; [200; 232]; [201; 233]; [202; 234]; [203; 235]; [204; 236];
    [205; 237]; [206; 238]; [207; 239]; [208; 240]; [209; 241]; [210; 242]; [211; 243]; [212; 244];
    [213; 245]; [214; 246]; [216; 248]; [217; 249]; [218; 250]; [219; 251]; [220; 252]; [221; 253];
    [222; 254]; [255; 376]; [256; 257]; [258; 259]; [260; 261]; [262; 263]; [264; 265]; [266; 267];
    [268; 269]; [270; 271]; [272; 273]; [274; 275]; [276; 277]; [278; 279]; [280; 281]; [282; 283];
    [284; 285]; [286; 287]; [288; 289]; [290; 291]; [292; 293]; [294; 295]; [296; 297]; [298; 299];
    [300; 301]; [302; 303]; [306; 307]; [308; 309]; [310; 311]; [313; 314]; [315; 316]; [317; 318];
    [319; 320]; [321; 322]; [323; 324]; [325; 326]; [327; 328]; [330; 331]; [332; 333]; [334; 335];
    [336; 337]; [338; 339]; [340; 341]; [342; 343]; [344; 345]; [346; 347]; [348; 349]; [350; 351];
    [352; 353]; [354; 355]; [356; 357]; [358; 359]; [360; 361]; [362; 363]; [364; 365]; [366; 367];
    [368; 369]; [370; 371]; [372; 373]; [374; 375]; [377; 378]; [379; 380]; [381; 382]; [384; 579];
    [385; 595]; [386; 387]; [388; 389]; [390; 596]; [391; 392]; [393; 598]; [394; 599]; [395; 396];
    [398; 477]; [399; 601]; [400; 603]; [401; 402]; [403; 608]; [404; 611]; [405; 502]; [406; 617];
    [407; 616]; [408; 409]; [410; 573]; [411; 42972]; [412; 623]; [413; 626]; [414; 544];
    [415; 629]; [416; 417]; [418; 419]; [420; 421]; [422; 640]; [423; 424]; [425; 643]; [428; 429];
    [430; 648]; [431; 432]; [433; 650]; [434; 651]; [435; 436]; [437; 438]; [439; 658]; [440; 441];
    [444; 445]; [447; 503]; [452; 453; 454]; [455; 456; 457]; [458; 459; 460]; [461; 462];
    [463; 464]; [465; 466]; [467; 468]; [469; 470]; [471; 472]; [473; 474]; [475; 476]; [478; 479];
    [480; 481]; [482; 483]; [484; 485]; [486; 487]; [488; 489]; [490; 491]; [492; 493]; [494; 495];
    [497; 498; 499]; [500; 501]; [504; 505]; [506; 507]; [508; 509]; [510; 511]; [512; 513];
    [514; 515]; [516; 517]; [518; 519]; [520; 521]; [522; 523]; [524; 525]; [526; 527]; [528; 529];
    [530; 531]; [532; 533]; [534; 535]; [536; 537]; [538; 539]; [540; 541]; [542; 543]; [546; 547];
    [548; 549]; [550; 551]; [552; 553]; [554; 555]; [556; 557]; [558; 559]; [560; 561]; [562; 563];
    [570; 11365]; [571; 572]; [574; 11366]; [575; 11390]; [576; 11391]; [577; 578]; [580; 649];
    [581; 652]; [582; 583]; [584; 585]; [586; 587]; [588; 589]; [590; 591]; [592; 11375];
    [593; 11373]; [594; 11376]; [604; 42923]; [609; 42924]; [612; 42955]; [613; 42893];
    [614; 42922]; [618; 42926]; [619; 11362]; [620; 42925]; [625; 11374]; [637; 11364];
    [642; 42949]; [647; 42929]; [669; 42930]; [670; 42928]; [837; 921; 953; 8126]; [880; 881];
    [882; 883]; [886; 887]; [891; 1021]; [892; 1022]; [893; 1023]; [895; 1011]; [902; 940];
    [904; 941]; [905; 942]; [906; 943]; [908; 972]; [910; 973]; [911; 974]; [913; 945];
    [914; 946; 976]; [915; 947]; [916; 948]; [917; 949; 1013]; [918; 950]; [919; 951];
    [920; 952; 977]; [922; 954; 1008]; [923; 955]; [925; 957]; [926; 958]; [927; 959];
    [928; 960; 982]; [929; 961; 1009]; [931; 962; 963]; [932; 964]; [933; 965]; [934; 966; 981];
    [935; 967]; [936; 968]; [937; 969]; [938; 970]; [939; 971]; [975; 983]; [984; 985]; [986; 987];
    [988; 989]; [990; 991]; [992; 993]; [994; 995]; [996; 997]; [998; 999]; [1000; 1001];
    [1002; 1003]; [1004; 1005]; [1006; 1007]; [1010; 1017]; [1015; 1016]; [1018; 1019];
    [1024; 1104]; [1025; 1105]; [1026; 1106]; [1027; 1107]; [1028; 1108]; [1029; 1109];
    [1030; 1110]; [1031; 1111]; [1032; 1112]; [1033; 1113]; [1034; 1114]; [1035; 1115];
    [1036; 1116]; [1037; 1117]; [1038; 1118]; [1039; 1119]; [1040; 1072]; [1041; 1073];
    [1042; 1074; 7296]; [1043; 1075]; [1044; 1076; 7297]; [1045; 1077]; [1046; 1078]; [1047; 1079];
    [1048; 1080]; [1049; 1081]; [1050; 1082]; [1051; 1083]; [1052; 1084]; [1053; 1085];
    [1054; 1086; 7298]; [1055; 1087]; [1056; 1088]; [1057; 1089; 7299]; [1058; 1090; 7300; 7301];
    [1059; 1091]; [1060; 1092]; [1061; 1093]; [1062; 1094]; [1063; 1095]; [1064; 1096];
    [1065; 1097]; [1066; 1098; 7302]; [1067; 1099]; [1068; 1100]; [1069; 1101]; [1070; 1102];
    [1071; 1103]; [1120; 1121]; [1122; 1123; 7303]; [1124; 1125]; [1126; 1127]; [1128; 1129];
    [1130; 1131]; [1132; 1133]; [1134; 1135]; [1136; 1137]; [1138; 1139]; [1140; 1141];
    [1142; 1143]; [1144; 1145]; [1146; 1147]; [1148; 1149]; [1150; 1151]; [1152; 1153];
    [1162; 1163]; [1164; 1165]; [1166; 1167]; [1168; 1169]; [1170; 1171]; [1172; 1173];
    [1174; 1175]; [1176; 1177]; [1178; 1179]; [1180; 1181]; [1182; 1183]; [1184; 1185];
    [1186; 1187]; [1188; 1189]; [1190; 1191]; [1192; 1193]; [1194; 1195]; [1196; 1197];
    [1198; 1199]; [1200; 1201]; [1202; 1203]; [1204; 1205]; [1206; 1207]; [1208; 1209];
    [1210; 1211]; [1212; 1213]; [1214; 1215]; [1216; 1231]; [1217; 1218]; [1219; 1220];
    [1221; 1222]; [1223; 1224]; [1225; 1226]; [1227; 1228]; [1229; 1230]; [1232; 1233];
    [1234; 1235]; [1236; 1237]; [1238; 1239]; [1240; 1241]; [1242; 1243]; [1244; 1245];
    [1246; 1247]; [1248; 1249]; [1250; 1251]; [1252; 1253]; [1254; 1255]; [1256; 1257];
    [1258; 1259]; [1260; 1261]; [1262; 1263]; [1264; 1265]; [1266; 1267]; [1268; 1269];
    [1270; 1271]; [1272; 1273]; [1274; 1275]; [1276; 1277]; [1278; 1279]; [1280; 1281];
    [1282; 1283]; [1284; 1285]; [1286; 1287]; [1288; 1289]; [1290; 1291]; [1292; 1293];
    [1294; 1295]; [1296; 1297]; [1298; 1299]; [1300; 1301]; [1302; 1303]; [1304; 1305];
    [1306; 1307]; [1308; 1309]; [1310; 1311]; [1312; 1313]; [1314; 1315]; [1316; 1317];
    [1318; 1319]; [1320; 1321]; [1322; 1323]; [1324; 1325]; [1326; 1327]; [1329; 1377];
    [1330; 1378]; [1331; 1379]; [1332; 1380]; [1333; 1381]; [1334; 1382]; [1335; 1383];
    [1336; 1384]; [1337; 1385]; [1338; 1386]; [1339; 1387]; [1340; 1388]; [1341; 1389];
    [1342; 1390]; [1343; 1391]; [1344; 1392]; [1345; 1393]; [1346; 1394]; [1347; 1395];
    [1348; 1396]; [1349; 1397]; [1350; 1398]; [1351; 1399]; [1352; 1400]; [1353; 1401];
    [1354; 1402]; [1355; 1403]; [1356; 1404]; [1357; 1405]; [1358; 1406]; [1359; 1407];
    [1360; 1408]; [1361; 1409]; [1362; 1410]; [1363; 1411]; [1364; 1412]; [1365; 1413];
    [1366; 1414]; [4256; 11520]; [4257; 11521]; [4258; 11522]; [4259; 11523]; [4260; 11524];
    [4261; 11525]; [4262; 11526]; [4263; 11527]; [4264; 11528]; [4265; 11529]; [4266; 11530];
    [4267; 11531]; [4268; 11532]; [4269; 11533]; [4270; 11534]; [4271; 11535]; [4272; 11536];
    [4273; 11537]; [4274; 11538]; [4275; 11539]; [4276; 11540]; [4277; 11541]; [4278; 11542];
    [4279; 11543]; [4280; 11544]; [4281; 11545]; [4282; 11546]; [4283; 11547]; [4284; 11548];
    [4285; 11549]; [4286; 11550]; [4287; 11551]; [4288; 11552]; [4289; 11553]; [4290; 11554];
    [4291; 11555]; [4292; 11556]; [4293; 11557]; [4295; 11559]; [4301; 11565]; [4304; 7312];
    [4305; 7313]; [4306; 7314]; [4307; 7315]; [4308; 7316]; [4309; 7317]; [4310; 7318];
    [4311; 7319]; [4312; 7320]; [4313; 7321]; [4314; 7322]; [4315; 7323]; [4316; 7324];
    [4317; 7325]; [4318; 7326]; [4319; 7327]; [4320; 7328]; [4321; 7329]; [4322; 7330];
    [4323; 7331]; [4324; 7332]; [4325; 7333]; [4326; 7334]; [4327; 7335]; [4328; 7336];
    [4329; 7337]; [4330; 7338]; [4331; 7339]; [4332; 7340]; [4333; 7341]; [4334; 7342];
    [4335; 7343]; [4336; 7344]; [4337; 7345]; [4338; 7346]; [4339; 7347]; [4340; 7348];
    [4341; 7349]; [4342; 7350]; [4343; 7351]; [4344; 7352]; [4345; 7353]; [4346; 7354];
    [4349; 7357]; [4350; 7358]; [4351; 7359]; [5024; 43888]; [5025; 43889]; [5026; 43890];
    [5027; 43891]; [5028; 43892]; [5029; 43893]; [5030; 43894]; [5031; 43895]; [5032; 43896];
    [5033; 43897]; [5034; 43898]; [5035; 43899]; [5036; 43900]; [5037; 43901]; [5038; 43902];
    [5039; 43903]; [5040; 43904]; [5041; 43905]; [5042; 43906]; [5043; 43907]; [5044; 43908];
    [5045; 43909]; [5046; 43910]; [5047; 43911]; [5048; 43912]; [5049; 43913]; [5050; 43914];
    [5051; 43915]; [5052; 43916]; [5053; 43917]; [5054; 43918]; [5055; 43919]; [5056; 43920];
    [5057; 43921]; [5058; 43922]; [5059; 43923]; [5060; 43924]; [5061; 43925]; [5062; 43926];
    [5063; 43927]; [5064; 43928]; [5065; 43929]; [5066; 43930]; [5067; 43931]; [5068; 43932];
    [5069; 43933]; [5070; 43934]; [5071; 43935]; [5072; 43936]; [5073; 43937]; [5074; 43938];
    [5075; 43939]; [5076; 43940]; [5077; 43941]; [5078; 43942]; [5079; 43943]; [5080; 43944];
    [5081; 43945]; [5082; 43946]; [5083; 43947]; [5084; 43948]; [5085; 43949]; [5086; 43950];
    [5087; 43951]; [5088; 43952]; [5089; 43953]; [5090; 43954]; [5091; 43955]; [5092; 43956];
    [5093; 43957]; [5094; 43958]; [5095; 43959]; [5096; 43960]; [5097; 43961]; [5098; 43962];
    [5099; 43963]; [5100; 43964]; [5101; 43965]; [5102; 43966]; [5103; 43967]; [5104; 5112];
    [5105; 5113]; [5106; 5114]; [5107; 5115]; [5108; 5116]; [5109; 5117]; [7304; 42570; 42571];
    [7305; 7306]; [7545; 42877]; [7549; 11363]; [7566; 42950]; [7680; 7681]; [7682; 7683];
    [7684; 7685]; [7686; 7687]; [7688; 7689]; [7690; 7691]; [7692; 7693]; [7694; 7695];
    [7696; 7697]; [7698; 7699]; [7700; 7701]; [7702; 7703]; [7704; 7705]; [7706; 7707];
    [7708; 7709]; [7710; 7711]; [7712; 7713]; [7714; 7715]; [7716; 7717]; [7718; 7719];
    [7720; 7721]; [7722; 7723]; [7724; 7725]; [7726; 7727]; [7728; 7729]; [7730; 7731];
    [7732; 7733]; [7734; 7735]; [7736; 7737]; [7738; 7739]; [7740; 7741]; [7742; 7743];
    [7744; 7745]; [7746; 7747]; [7748; 7749]; [7750; 7751]; [7752; 7753]; [7754; 7755];
    [7756; 7757]; [7758; 7759]; [7760; 7761]; [7762; 7763]; [7764; 7765]; [7766; 7767];
    [7768; 7769]; [7770; 7771]; [7772; 7773]; [7774; 7775]; [7776; 7777; 7835]; [7778; 7779];
    [7780; 7781]; [7782; 7783]; [7784; 7785]; [7786; 7787]; [7788; 7789]; [7790; 7791];
    [7792; 7793]; [7794; 7795]; [7796; 7797]; [7798; 7799]; [7800; 7801]; [7802; 7803];
    [7804; 7805]; [7806; 7807]; [7808; 7809]; [7810; 7811]; [7812; 7813]; [7814; 7815];
    [7816; 7817]; [7818; 7819]; [7820; 7821]; [7822; 7823]; [7824; 7825]; [7826; 7827];
    [7828; 7829]; [7840; 7841]; [7842; 7843]; [7844; 7845]; [7846; 7847]; [7848; 7849];
    [7850; 7851]; [7852; 7853]; [7854; 7855]; [7856; 7857]; [7858; 7859]; [7860; 7861];
    [7862; 7863]; [7864; 7865]; [7866; 7867]; [7868; 7869]; [7870; 7871]; [7872; 7873];
    [7874; 7875]; [7876; 7877]; [7878; 7879]; [7880; 7881]; [7882; 7883]; [7884; 7885];
    [7886; 7887]; [7888; 7889]; [7890; 7891]; [7892; 7893]; [7894; 7895]; [7896; 7897];
    [7898; 7899]; [7900; 7901]; [7902; 7903]; [7904; 7905]; [7906; 7907]; [7908; 7909];
    [7910; 7911]; [7912; 7913]; [7914; 7915]; [7916; 7917]; [7918; 7919]; [7920; 7921];
    [7922; 7923]; [7924; 7925]; [7926; 7927]; [7928; 7929]; [7930; 7931]; [7932; 7933];
    [7934; 7935]; [7936; 7944]; [7937; 7945]; [7938; 7946]; [7939; 7947]; [7940; 7948];
    [7941; 7949]; [7942; 7950]; [7943; 7951]; [7952; 7960]; [7953; 7961]; [7954; 7962];
    [7955; 7963]; [7956; 7964]; [7957; 7965]; [7968; 7976]; [7969; 7977]; [7970; 7978];
    [7971; 7979]; [7972; 7980]; [7973; 7981]; [7974; 7982]; [7975; 7983]; [7984; 7992];
    [7985; 7993]; [7986; 7994]; [7987; 7995]; [7988; 7996]; [7989; 7997]; [7990; 7998];
    [7991; 7999]; [8000; 8008]; [8001; 8009]; [8002; 8010]; [8003; 8011]; [8004; 8012];
    [8005; 8013]; [8017; 8025]; [8019; 8027]; [8021; 8029]; [8023; 8031]; [8032; 8040];
    [8033; 8041]; [8034; 8042]; [8035; 8043]; [8036; 8044]; [8037; 8045]; [8038; 8046];
    [8039; 8047]; [8048; 8122]; [8049; 8123]; [8050; 8136]; [8051; 8137]; [8052; 8138];
    [8053; 8139]; [8054; 8154]; [8055; 8155]; [8056; 8184]; [8057; 8185]; [8058; 8170];
    [8059; 8171]; [8060; 8186]; [8061; 8187]; [8112; 8120]; [8113; 8121]; [8144; 8152];
    [8145; 8153]; [8160; 8168]; [8161; 8169]; [8165; 8172]; [8498; 8526]; [8544; 8560];
    [8545; 8561]; [8546; 8562]; [8547; 8563]; [8548; 8564]; [8549; 8565]; [8550; 8566];
    [8551; 8567]; [8552; 8568]; [8553; 8569]; [8554; 8570]; [8555; 8571]; [8556; 8572];
    [8557; 8573]; [8558; 8574]; [8559; 8575]; [8579; 8580]; [9398; 9424]; [9399; 9425];
    [9400; 9426]; [9401; 9427]; [9402; 9428]; [9403; 9429]; [9404; 9430]; [9405; 9431];
    [9406; 9432]; [9407; 9433]; [9408; 9434]; [9409; 9435]; [9410; 9436]; [9411; 9437];
    [9412; 9438]; [9413; 9439]; [9414; 9440]; [9415; 9441]; [9416; 9442]; [9417; 9443];
    [9418; 9444]; [9419; 9445]; [9420; 9446]; [9421; 9447]; [9422; 9448]; [9423; 9449];
    [11264; 11312]; [11265; 11313]; [11266; 11314]; [11267; 11315]; [11268; 11316]; [11269; 11317];
    [11270; 11318]; [11271; 11319]; [11272; 11320]; [11273; 11321]; [11274; 11322]; [11275; 11323];
    [11276; 11324]; [11277; 11325]; [11278; 11326]; [11279; 11327]; [11280; 11328]; [11281; 11329];
    [11282; 11330]; [11283; 11331]; [11284; 11332]; [11285; 11333]; [11286; 11334]; [11287; 11335];
    [11288; 11336]; [11289; 11337]; [11290; 11338]; [11291; 11339]; [11292; 11340]; [11293; 11341];
    [11294; 11342]; [11295; 11343]; [11296; 11344]; [11297; 11345]; [11298; 11346]; [11299; 11347];
    [11300; 11348]; [11301; 11349]; [11302; 11350]; [11303; 11351]; [11304; 11352]; [11305; 11353];
    [11306; 11354]; [11307; 11355]; [11308; 11356]; [11309; 11357]; [11310; 11358]; [11311; 11359];
    [11360; 11361]; [11367; 11368]; [11369; 11370]; [11371; 11372]; [11378; 11379]; [11381; 11382];
    [11392; 11393]; [11394; 11395]; [11396; 11397]; [11398; 11399]; [11400; 11401]; [11402; 11403];
    [11404; 11405]; [11406; 11407]; [11408; 11409]; [11410; 11411]; [11412; 11413]; [11414; 11415];
    [11416; 11417]; [11418; 11419]; [11420; 11421]; [11422; 11423]; [11424; 11425]; [11426; 11427];
    [11428; 11429]; [11430; 11431]; [11432; 11433]; [11434; 11435]; [11436; 11437]; [11438; 11439];
    [11440; 11441]; [11442; 11443]; [11444; 11445]; [11446; 11447]; [11448; 11449]; [11450; 11451];
    [11452; 11453]; [11454; 11455]; [11456; 11457]; [11458; 11459]; [11460; 11461]; [11462; 11463];
    [11464; 11465]; [11466; 11467]; [11468; 11469]; [11470; 11471]; [11472; 11473]; [11474; 11475];
    [11476; 11477]; [11478; 11479]; [11480; 11481]; [11482; 11483]; [11484; 11485]; [11486; 11487];
    [11488; 11489]; [11490; 11491]; [11499; 11500]; [11501; 11502]; [11506; 11507]; [42560; 42561];
    [42562; 42563]; [42564; 42565]; [42566; 42567]; [42568; 42569]; [42572; 42573]; [42574; 42575];
    [42576; 42577]; [42578; 42579]; [42580; 42581]; [42582; 42583]; [42584; 42585]; [42586; 42587];
    [42588; 42589]; [42590; 42591]; [42592; 42593]; [42594; 42595]; [42596; 42597]; [42598; 42599];
    [42600; 42601]; [42602; 42603]; [42604; 42605]; [42624; 42625]; [42626; 42627]; [42628; 42629];
    [42630; 42631]; [42632; 42633]; [42634; 42635]; [42636; 42637]; [42638; 42639]; [42640; 42641];
    [42642; 42643]; [42644; 42645]; [42646; 42647]; [42648; 42649]; [42650; 42651]; [42786; 42787];
    [42788; 42789]; [42790; 42791]; [42792; 42793]; [42794; 42795]; [42796; 42797]; [42798; 42799];
    [42802; 42803]; [42804; 42805]; [42806; 42807]; [42808; 42809]; [42810; 42811]; [42812; 42813];
    [42814; 42815]; [42816; 42817]; [42818; 42819]; [42820; 42821]; [42822; 42823]; [42824; 42825];
    [42826; 42827]; [42828; 42829]; [42830; 42831]; [42832; 42833]; [42834; 42835]; [42836; 42837];
    [42838; 42839]; [42840; 42841]; [42842; 42843]; [42844; 42845]; [42846; 42847]; [42848; 42849];
    [42850; 42851]; [42852; 42853]; [42854; 42855]; [42856; 42857]; [42858; 42859]; [42860; 42861];
    [42862; 42863]; [42873; 42874]; [42875; 42876]; [42878; 42879]; [42880; 42881]; [42882; 42883];
    [42884; 42885]; [42886; 42887]; [42891; 42892]; [42896; 42897]; [42898; 42899]; [42900; 42948];
    [42902; 42903]; [42904; 42905]; [42906; 42907]; [42908; 42909]; [42910; 42911]; [42912; 42913];
    [42914; 42915]; [42916; 42917]; [42918; 42919]; [42920; 42921]; [42931; 43859]; [42932; 42933];
    [42934; 42935]; [42936; 42937]; [42938; 42939]; [42940; 42941]; [42942; 42943]; [42944; 42945];
    [42946; 42947]; [42951; 42952]; [42953; 42954]; [42956; 42957]; [42958; 42959]; [42960; 42961];
    [42962; 42963]; [42964; 42965]; [42966; 42967]; [42968; 42969]; [42970; 42971]; [42997; 42998];
    [65313; 65345]; [65314; 65346]; [65315; 65347]; [65316; 65348]; [65317; 65349]; [65318; 65350];
    [65319; 65351]; [65320; 65352]; [65321; 65353]; [65322; 65354]; [65323; 65355]; [65324; 65356];
    [65325; 65357]; [65326; 65358]; [65327; 65359]; [65328; 65360]; [65329; 65361]; [65330; 65362];
    [65331; 65363]; [65332; 65364]; [65333; 65365]; [65334; 65366]; [65335; 65367]; [65336; 65368];
    [65337; 65369]; [65338; 65370]]%N.

(** [likeGlobCaseFoldGroups()]: each member with its group. *)
Definition likeGlobCaseFoldGroups : list (N * jstr) :=
  flat_map (λ group, (λ member, (member, group)) <$> group) CASE_FOLD_GROUPS.

Definition GLOB_METACHARACTERS : list N := [42; 63; 91]%N.

(** [globLiteral(char, groups)]. *)
Definition globLiteral (c : N) : jstr :=
  match jm_get c likeGlobCaseFoldGroups with
  | Some group => [91%N] ++ group ++ [93%N]
  | None => if bool_decide (c ∈ GLOB_METACHARACTERS) then [91%N; c; 93%N] else [c]
  end.

Inductive LikeGlobPattern :=
| LGlob (pattern : jstr)
| LNever.

(** The loop of [likeGlobPattern], on the pattern that is left. *)
Fixpoint likeGlobPattern (pattern : jstr) : LikeGlobPattern :=
  let prepend s p := match p with LGlob g => LGlob (s ++ g) | LNever => LNever end in
  match pattern with
  | [] => LGlob []
  | char :: rest =>
      if decide (char = 92%N) then
        match rest with
        | [] => LNever
        | next :: rest' => prepend (globLiteral next) (likeGlobPattern rest')
        end
      else if decide (char = 37%N) then prepend [42%N] (likeGlobPattern rest)
      else if decide (char = 95%N) then prepend [63%N] (likeGlobPattern rest)
      else prepend (globLiteral char) (likeGlobPattern rest)
  end.

(** *** The table *)

(** No group holds a character that is special in a class, so a group can be
    written between brackets as it is. *)
Definition class_special : list N := [42; 63; 91; 93; 94; 45]%N.

Lemma groups_plain : forallb (λ g, forallb (λ c, negb (bool_decide (c ∈ class_special))) g) CASE_FOLD_GROUPS = true.
Proof. vm_compute. reflexivity. Qed.

Lemma groups_nonempty : forallb (λ g, negb (bool_decide (g = []))) CASE_FOLD_GROUPS = true.
Proof. vm_compute. reflexivity. Qed.

Lemma group_of c group : jm_get c likeGlobCaseFoldGroups = Some group → group ∈ CASE_FOLD_GROUPS ∧ c ∈ group.
Proof.
  intros H%jm_get_elem_1. apply list_elem_of_In, in_flat_map in H as (g & Hg & Hc).
  apply list_elem_of_In in Hg, Hc. by apply list_elem_of_fmap in Hc as (d & [= <- <-] & Hd).
Qed.

(** *** Equivalence *)

Section glob.
Context (canonicalize : N → N).
#[local] Opaque likeGlobCaseFoldGroups.

(** The table is the engine's: two characters fold together exactly when they
    are equal or share a group. *)
Definition table_agrees : Prop :=
  ∀ c d, canonicalize c = canonicalize d ↔
    match jm_get c likeGlobCaseFoldGroups with Some group => d ∈ group | None => d = c end.

(** SQLite's [text GLOB pattern], by its documented rules: [*] matches any
    sequence, [?] one character, a bracketed set one of its characters, any
    other character itself. *)
Record glob_rules (glob : jstr → jstr → bool) : Prop := {
  glob_nil text : glob [] text = true ↔ text = [];
  glob_star pattern text :
    glob (42%N :: pattern) text = true ↔ ∃ some rest, text = some ++ rest ∧ glob pattern rest = true;
  glob_question pattern text :
    glob (63%N :: pattern) text = true ↔ ∃ c rest, text = c :: rest ∧ glob pattern rest = true;
  glob_set set pattern text :
    set ≠ [] → (∀ c, c ∈ set → c ∉ [93; 94; 45]%N) →
    glob (91%N :: set ++ 93%N :: pattern) text = true ↔
    ∃ c rest, text = c :: rest ∧ c ∈ set ∧ glob pattern rest = true;
  glob_char c pattern text :
    c ∉ GLOB_METACHARACTERS →
    glob (c :: pattern) text = true ↔ ∃ rest, text = c :: rest ∧ glob pattern rest = true
}.

Context (glob : jstr → jstr → bool).

Lemma glob_literal c pattern text :
  glob_rules glob → table_agrees →
  glob (globLiteral c ++ pattern) text = true ↔
  ∃ d rest, text = d :: rest ∧ canonicalize c = canonicalize d ∧ glob pattern rest = true.
Proof.
  intros HG HT. specialize (HT c). unfold globLiteral.
  destruct (jm_get c likeGlobCaseFoldGroups) as [group|] eqn:E.
  - apply group_of in E as [Hg Hc].
    pose proof groups_plain as Hp. rewrite forallb_In in Hp. specialize (Hp _ Hg).
    rewrite forallb_In in Hp. simpl. rewrite <-app_assoc. simpl.
    rewrite (glob_set _ HG); [|by intros ->; apply elem_of_nil in Hc|].
    + split.
      * intros (d & rest & -> & Hd & HP). exists d, rest. by rewrite HT.
      * intros (d & rest & -> & Hd%HT & HP). by exists d, rest.
    + intros d Hd Hs. specialize (Hp d Hd). apply negb_true_iff, bool_decide_eq_false in Hp.
      apply Hp. unfold class_special. rewrite !elem_of_cons in *. tauto.
  - assert (Hset : ∀ P : jstr → Prop, (∃ rest, text = c :: rest ∧ P rest) ↔
      ∃ d rest, text = d :: rest ∧ canonicalize c = canonicalize d ∧ P rest).
    { intros P. split.
      - intros (rest & -> & HP). exists c, rest. by rewrite HT.
      - intros (d & rest & -> & Hcd & HP). apply HT in Hcd as ->. by exists rest. }
    case_bool_decide as Hm.
    + change ([91%N; c; 93%N] ++ pattern) with (91%N :: [c] ++ 93%N :: pattern).
      rewrite (glob_set _ HG); [|done|].
      * rewrite <-(Hset (λ rest, glob pattern rest = true)). split.
        -- intros (d & rest & -> & ->%list_elem_of_singleton & HP). by exists rest.
        -- intros (rest & -> & HP). exists c, rest. by rewrite list_elem_of_singleton.
      * intros d ->%list_elem_of_singleton Hs. unfold GLOB_METACHARACTERS in Hm.
        rewrite !elem_of_cons in Hm, Hs. destruct Hm as [->|[->|[->|Hm]]];
          [by destruct Hs as [?|[?|[?|?%elem_of_nil]]]..|by apply elem_of_nil in Hm].
    + simpl. rewrite (glob_char _ HG) by done. apply Hset.
Qed.

Lemma glob_meaning pattern text :
  glob_rules glob → table_agrees →
  match likeGlobPattern pattern with
  | LGlob g => glob g text = true ↔ terms_mean canonicalize (likePatternRegex pattern) text
  | LNever => ¬ terms_mean canonicalize (likePatternRegex pattern) text
  end.
Proof.
  intros HG HT. revert text.
  assert (H : ∀ n pattern, length pattern ≤ n → ∀ text, match likeGlobPattern pattern with
    | LGlob g => glob g text = true ↔ terms_mean canonicalize (likePatternRegex pattern) text
    | LNever => ¬ terms_mean canonicalize (likePatternRegex pattern) text end);
    [|intros text; by apply (H (length pattern))].
  clear pattern. induction n as [|n IH]; intros pattern Hn text; (destruct pattern as [|c pattern];
    [simpl; rewrite (glob_nil _ HG); split; [intros ->; constructor|by inversion 1]|]); simpl in Hn; [lia|].
  assert (Hlit : ∀ c pattern text, length pattern ≤ n →
    match match likeGlobPattern pattern with LGlob g => LGlob (globLiteral c ++ g) | LNever => LNever end with
    | LGlob g => glob g text = true ↔ terms_mean canonicalize (TChar c :: likePatternRegex pattern) text
    | LNever => ¬ terms_mean canonicalize (TChar c :: likePatternRegex pattern) text end).
  { clear c pattern Hn text. intros c pattern text Hn. specialize (IH pattern ltac:(lia)).
    destruct (likeGlobPattern pattern) as [g|].
    - rewrite glob_literal by done. split.
      + intros (d & rest & -> & E & H%IH). by constructor.
      + inversion 1 as [|? d ? rest E Hm| |]; subst. exists d, rest. by rewrite IH.
    - inversion 1; subst. by eapply IH. }
  cbn [likeGlobPattern likePatternRegex].
  destruct (decide (c = 92%N)).
  - destruct pattern as [|d pattern]; [inversion 1|]. apply Hlit. simpl in Hn. lia.
  - destruct (decide (c = 37%N)); [|destruct (decide (c = 95%N)); [|apply Hlit; lia]];
      specialize (IH pattern ltac:(lia)); destruct (likeGlobPattern pattern) as [g|].
    + simpl. rewrite (glob_star _ HG). split.
      * intros (some & rest & -> & H%IH). by constructor.
      * inversion 1 as [| | |some ? rest Hm]; subst. exists some, rest. by rewrite IH.
    + inversion 1; subst. by eapply IH.
    + simpl. rewrite (glob_question _ HG). split.
      * intros (d & rest & -> & H%IH). by constructor.
      * inversion 1 as [| |d ? rest Hm|]; subst. exists d, rest. by rewrite IH.
    + inversion 1; subst. by eapply IH.
Qed.

(** A pushed-down text filter answers like the in-memory one: the [GLOB] pattern
    matches exactly the texts the [like] pattern does, and a pattern translated
    to [never] matches none. *)
Theorem like_glob_equivalence pattern text :
  glob_rules glob → table_agrees →
  match likeGlobPattern pattern with
  | LGlob g => glob g text = likePatternMatches canonicalize text pattern
  | LNever => likePatternMatches canonicalize text pattern = false
  end.
Proof.
  intros HG HT. pose proof (glob_meaning pattern text HG HT) as H. unfold likePatternMatches.
  destruct (likeGlobPattern pattern) as [g|].
  - apply eq_true_iff_eq. by rewrite H, terms_match_spec.
  - apply not_true_is_false. by rewrite terms_match_spec.
Qed.
End glob.

(** ** Witnesses

    A reference [GLOB] and the fold of the table, to see that the hypotheses of
    the equivalence can hold together. *)

Fixpoint glob_tokens (set : option jstr) (pattern : jstr) : list (option (N → bool)) :=
  match pattern, set with
  | [], None => []
  | [], Some _ => [Some (λ _, false)]
  | c :: pattern, Some acc =>
      if decide (c = 93%N) then Some (λ d, bool_decide (d ∈ acc)) :: glob_tokens None pattern
      else glob_tokens (Some (acc ++ [c])) pattern
  | c :: pattern, None =>
      if decide (c = 42%N) then None :: glob_tokens None pattern
      else if decide (c = 63%N) then Some (λ _, true) :: glob_tokens None pattern
      else if decide (c = 91%N) then glob_tokens (Some []) pattern
      else Some (λ d, bool_decide (d = c)) :: glob_tokens None pattern
  end.

Fixpoint tokens_match (tokens : list (option (N → bool))) (text : jstr) : bool :=
  match tokens with
  | [] => bool_decide (text = [])
  | Some p :: tokens => match text with d :: text => p d && tokens_match tokens text | [] => false end
  | None :: tokens =>
      (fix many text := tokens_match tokens text ||
         match text with _ :: text => many text | [] => false end) text
  end.

Definition reference_glob (pattern text : jstr) : bool := tokens_match (glob_tokens None pattern) text.

Lemma tokens_match_many tokens text :
  tokens_match (None :: tokens) text = true ↔ ∃ some rest, text = some ++ rest ∧ tokens_match tokens rest = true.
Proof.
  induction text as [|c text IH].
  - simpl. rewrite orb_false_r. split; [intros H; by exists [], []|].
    intros (some & rest & E & H). symmetry in E. by apply app_nil in E as [_ ->].
  - change (tokens_match (None :: tokens) (c :: text))
      with (tokens_match tokens (c :: text) || tokens_match (None :: tokens) text).
    rewrite orb_true_iff, IH. split.
    + intros [H|(some & rest & -> & H)]; [by exists [], (c :: text)|by exists (c :: some), rest].
    + intros ([|d some] & rest & E & H); [left; by rewrite E|].
      right. simpl in E. injection E as _ ->. by exists some, rest.
Qed.

Lemma tokens_match_one p tokens text :
  tokens_match (Some p :: tokens) text = true ↔
  ∃ c rest, text = c :: rest ∧ p c = true ∧ tokens_match tokens rest = true.
Proof.
  destruct text as [|d text]; simpl; [naive_solver|]. rewrite andb_true_iff. naive_solver.
Qed.

Lemma glob_tokens_set acc set pattern :
  93%N ∉ set →
  glob_tokens (Some acc) (set ++ 93%N :: pattern) =
  Some (λ d, bool_decide (d ∈ acc ++ set)) :: glob_tokens None pattern.
Proof.
  revert acc. induction set as [|c set IH]; intros acc H; simpl.
  - by rewrite app_nil_r.
  - apply not_elem_of_cons in H as [Hc H]. rewrite decide_False by done. rewrite IH by done.
    by rewrite <-app_assoc.
Qed.

Lemma reference_glob_rules : glob_rules reference_glob.
Proof.
  unfold reference_glob. split.
  - intros text. simpl. by rewrite bool_decide_eq_true.
  - intros pattern text. cbn [glob_tokens]. rewrite decide_True by done. apply tokens_match_many.
  - intros pattern text. cbn [glob_tokens]. rewrite decide_False, decide_True by done.
    rewrite tokens_match_one. naive_solver.
  - intros set pattern text Hne Hs. cbn [glob_tokens]. rewrite !decide_False, decide_True by done.
    rewrite glob_tokens_set; [|intros H; apply (Hs _ H); left].
    rewrite tokens_match_one. simpl. by setoid_rewrite bool_decide_eq_true.
  - intros c pattern text Hc. unfold GLOB_METACHARACTERS in Hc. rewrite !not_elem_of_cons in Hc.
    cbn [glob_tokens]. rewrite !decide_False by tauto. rewrite tokens_match_one.
    setoid_rewrite bool_decide_eq_true. naive_solver.
Qed.

(** Each member is listed under its own group only. *)
Lemma groups_disjoint :
  forallb (λ entry : N * jstr, bool_decide (jm_get entry.1 likeGlobCaseFoldGroups = Some entry.2))
    likeGlobCaseFoldGroups = true.
Proof. vm_compute. reflexivity. Qed.

Definition table_fold (c : N) : N :=
  match jm_get c likeGlobCaseFoldGroups with Some (first :: _) => first | _ => c end.

Lemma group_listed d group : group ∈ CASE_FOLD_GROUPS → d ∈ group → (d, group) ∈ likeGlobCaseFoldGroups.
Proof.
  intros Hg Hd. unfold likeGlobCaseFoldGroups. apply list_elem_of_In, in_flat_map. exists group.
  split; apply list_elem_of_In; [done|]. by apply (list_elem_of_fmap_2 (λ member, (member, group))).
Qed.

#[local] Opaque likeGlobCaseFoldGroups.

Lemma group_member c d group :
  jm_get c likeGlobCaseFoldGroups = Some group → d ∈ group → jm_get d likeGlobCaseFoldGroups = Some group.
Proof.
  intros [Hg _]%group_of Hd. pose proof groups_disjoint as H. rewrite forallb_In in H.
  specialize (H (d, group)). simpl in H. rewrite bool_decide_eq_true in H. apply H.
  by apply group_listed.
Qed.

Lemma table_fold_agrees : table_agrees table_fold.
Proof.
  intros c d. unfold table_fold.
  assert (Hne : ∀ x, jm_get x likeGlobCaseFoldGroups ≠ Some []).
  { intros x [_ H]%group_of. by apply elem_of_nil in H. }
  destruct (jm_get c likeGlobCaseFoldGroups) as [[|f gc]|] eqn:Ec; [by destruct (Hne c)| |];
    destruct (jm_get d likeGlobCaseFoldGroups) as [[|f' gd]|] eqn:Ed; try by destruct (Hne d).
  - split.
    + intros <-. pose proof (group_member c f _ Ec ltac:(left)) as H1.
      pose proof (group_member d f _ Ed ltac:(left)) as H2.
      rewrite H1 in H2. injection H2 as ->. by apply group_of in Ed as [_ ?].
    + intros Hd. pose proof (group_member c d _ Ec Hd) as H. rewrite Ed in H. by injection H.
  - split.
    + intros <-. by rewrite (group_member c f _ Ec ltac:(left)) in Ed.
    + intros Hd. by rewrite (group_member c d _ Ec Hd) in Ed.
  - split; [|by intros ->; rewrite Ec in Ed].
    intros ->. by rewrite (group_member d f' _ Ed ltac:(left)) in Ec.
  - split; by intros ->.
Qed.

Lemma like_glob_equivalence_witness :
  likeGlobPattern (js "a%b_") = LGlob (js "[Aa]*[Bb]?") ∧
  reference_glob (js "[Aa]*[Bb]?") (js "A50%bX") = true ∧
  likePatternMatches table_fold (js "A50%bX") (js "a%b_") = true.
Proof.
  split; [vm_compute; reflexivity|]. split; [vm_compute; reflexivity|].
  pose proof (like_glob_equivalence table_fold reference_glob (js "a%b_") (js "A50%bX")
    reference_glob_rules table_fold_agrees) as H.
  assert (likeGlobPattern (js "a%b_") = LGlob (js "[Aa]*[Bb]?")) as E by (vm_compute; reflexivity).
  rewrite E in H. rewrite <-H. vm_compute. reflexivity.
Defined.
