(* ===== verification/Predicates.v ===== *)
(** * Predicates: conditions on documents, events and actors

    Models [core/predicates.ts]: the normaliser that accepts an expression
    within a depth and node budget, the evaluator, the composition of
    expressions and the text order.  An expression is typed here, so the checks
    that its parts are objects of a known kind have nothing to refuse.  The
    [event] and the [actor] of a context are read as plain objects.  The text of
    a number, array or object is the host's, and so is the canonicalisation of
    characters. *)

From S2P Require Export Like Streams.

Definition MAX_PREDICATE_DEPTH : Z := 5.
Definition MAX_PREDICATE_NODES : Z := 64.

(** ** Fields *)

Definition system_field (name : jstr) (type : FieldType) (options : option (list jstr)) : FieldDefinition :=
  plain_field name type true false false options.

Definition SYSTEM_PREDICATE_FIELDS : list (jstr * FieldDefinition) :=
  (λ f, (fd_name f, f)) <$>
  [ system_field (js "system.name") FText None;
    system_field (js "system.docstatus") FSelect
      (Some [js "draft"; js "submitted"; js "cancelled"; js "deleted"]);
    system_field (js "system.createdAt") FDatetime None;
    system_field (js "system.updatedAt") FDatetime None;
    system_field (js "system.version") FInteger None ].

Definition UNSAFE_PATH_SEGMENTS : list jstr := [js "__proto__"; js "constructor"; js "prototype"].

(** [invalid(errorCode, message)]. *)
Definition invalid_predicate (errorCode : FrameworkErrorCode) : error := FrameworkError errorCode 400.

(** [requirePredicateField(doctype, fieldName, errorCode)]. *)
Definition requirePredicateField (doctype : DocTypeDefinition) (fieldName : jstr)
    (errorCode : FrameworkErrorCode) : res FieldDefinition :=
  let found := match jm_get fieldName SYSTEM_PREDICATE_FIELDS with
    | Some field => Some field
    | None => snd <$> list_find (λ candidate, fd_name candidate = fieldName) (dt_fields doctype)
    end in
  match found with
  | None => Throw (invalid_predicate errorCode)
  | Some field =>
      _ ← ensure (negb (bool_decide (fd_type field ∈ [FTable; FJson]))) (invalid_predicate errorCode);
      Ok field
  end.

(** ** Normalisation *)

Record NormalizeOptions := {
  no_availableScopes : option (list PredicateScope);
  no_errorCode : option FrameworkErrorCode;
  no_maxDepth : option Z;
  no_maxNodes : option Z
}.

Inductive PredicateValueType :=
| VTArray | VTBoolean | VTDate | VTDatetime | VTNull | VTNumber | VTObject | VTString | VTUnknown.
#[export] Instance PredicateValueType_eq_dec : EqDecision PredicateValueType.
Proof. solve_decision. Defined.

(** [literalValueType(value)]. *)
Definition literalValueType (v : value) : PredicateValueType :=
  match v with
  | VNull => VTNull
  | VArr _ => VTArray
  | VObj _ => VTObject
  | VNum _ => VTNumber
  | VBool _ => VTBoolean
  | VStr _ | VUndef => VTString
  end.

Section normalize.
Context (doctype : DocTypeDefinition) (availableScopes : list PredicateScope)
        (errorCode : FrameworkErrorCode) (maxDepth : Z).

(** [assertScopeAvailable]. *)
Definition assertScopeAvailable (scope : PredicateScope) : res unit :=
  ensure (bool_decide (scope ∈ availableScopes)) (invalid_predicate errorCode).

(** [normalizeOperand]. *)
Definition normalizeOperand (operand : PredicateOperand) : res PredicateOperand :=
  match operand with
  | OLiteral v => Ok (OLiteral (cloneJsonValue v))
  | OField scope field =>
      _ ← assertScopeAvailable scope;
      _ ← ensure (negb (bool_decide (trim field = []))) (invalid_predicate errorCode);
      _ ← requirePredicateField doctype field errorCode;
      Ok (OField scope field)
  | OPath scope path =>
      _ ← assertScopeAvailable scope;
      _ ← ensure (negb (Nat.eqb (length path) 0 || Nat.ltb 16 (length path))) (invalid_predicate errorCode);
      path ← map_res (λ segment,
        _ ← ensure (negb (bool_decide (trim segment = []))) (invalid_predicate errorCode);
        _ ← ensure (negb (bool_decide (segment ∈ UNSAFE_PATH_SEGMENTS))) (invalid_predicate errorCode);
        Ok segment) path;
      Ok (OPath scope path)
  end.

(** [assertOperatorAllowedForOperand]. *)
Definition assertOperatorAllowedForOperand (operand : PredicateOperand) (operator : PredicateOperator)
    : res unit :=
  match operand with
  | OField _ name =>
      field ← requirePredicateField doctype name errorCode;
      let supported := [OpEq; OpNe; OpIn; OpNotIn; OpIs] ++
        (if bool_decide (fd_type field ∈ [FText; FLongText; FLink]) then [OpContains; OpLike; OpNotLike] else []) ++
        (if bool_decide (fd_type field ∈ [FInteger; FNumber; FDate; FDatetime])
         then [OpGt; OpGte; OpLt; OpLte; OpBetween; OpNotBetween] else []) in
      ensure (bool_decide (operator ∈ supported)) (invalid_predicate errorCode)
  | _ => Ok tt
  end.

Definition is_array (v : value) : bool := match v with VArr _ => true | _ => false end.

(** [assertStaticOperatorValue]. *)
Definition assertStaticOperatorValue (operator : PredicateOperator) (right : PredicateOperand) : res unit :=
  match right with
  | OLiteral v =>
      _ ← ensure (negb (bool_decide (operator ∈ [OpIn; OpNotIn]) && negb (is_array v)))
            (invalid_predicate errorCode);
      _ ← ensure (negb (bool_decide (operator ∈ [OpBetween; OpNotBetween]) &&
                        negb (match v with VArr l => Nat.eqb (length l) 2 | _ => false end)))
            (invalid_predicate errorCode);
      ensure (negb (bool_decide (operator = OpIs) &&
                    negb (match v with VStr s => bool_decide (s ∈ [js "set"; js "not set"]) | _ => false end)))
        (invalid_predicate errorCode)
  | _ => Ok tt
  end.

(** [predicateOperandType]. *)
Definition predicateOperandType (operand : PredicateOperand) : res PredicateValueType :=
  match operand with
  | OPath _ _ => Ok VTUnknown
  | OLiteral v => Ok (literalValueType v)
  | OField _ name =>
      field ← requirePredicateField doctype name errorCode;
      Ok (match fd_type field with
          | FInteger | FNumber => VTNumber
          | FBoolean => VTBoolean
          | FDate => VTDate
          | FDatetime => VTDatetime
          | FText | FLongText | FLink | FSelect => VTString
          | FJson | FTable => VTUnknown
          end)
  end.

Definition assertStringCompatible (type : PredicateValueType) : res unit :=
  ensure (bool_decide (type ∈ [VTString; VTUnknown])) (invalid_predicate errorCode).

Definition assertOrderedType (type : PredicateValueType) : res unit :=
  ensure (bool_decide (type ∈ [VTNumber; VTDate; VTDatetime; VTUnknown])) (invalid_predicate errorCode).

Definition assertCompatibleTypes (left right : PredicateValueType) : res unit :=
  ensure (bool_decide (left = VTUnknown) || bool_decide (right = VTUnknown) || bool_decide (right = VTNull) ||
          bool_decide (left = right)) (invalid_predicate errorCode).

(** A date compared with a literal string. *)
Definition date_with_string (leftType : PredicateValueType) (right : PredicateOperand) : bool :=
  bool_decide (leftType ∈ [VTDate; VTDatetime]) && match right with OLiteral (VStr _) => true | _ => false end.

(** [assertOperandCompatibility]. *)
Definition assertOperandCompatibility (left : PredicateOperand) (operator : PredicateOperator)
    (right : PredicateOperand) : res unit :=
  leftType ← predicateOperandType left;
  rightType ← predicateOperandType right;
  match operator with
  | OpIs => match right with OLiteral _ => Ok tt | _ => Throw (invalid_predicate errorCode) end
  | OpIn | OpNotIn | OpBetween | OpNotBetween =>
      match right with
      | OLiteral (VArr values) =>
          foldl_res (λ _ v,
            if bool_decide (leftType ∈ [VTDate; VTDatetime]) && is_string v then Ok tt
            else assertCompatibleTypes leftType (literalValueType v)) tt values
      | _ => Throw (invalid_predicate errorCode)
      end
  | OpContains | OpLike | OpNotLike =>
      _ ← assertStringCompatible leftType; assertStringCompatible rightType
  | OpGt | OpGte | OpLt | OpLte =>
      _ ← assertOrderedType leftType;
      if date_with_string leftType right then Ok tt
      else _ ← assertOrderedType rightType; assertCompatibleTypes leftType rightType
  | OpEq | OpNe =>
      if date_with_string leftType right then Ok tt
      else assertCompatibleTypes leftType rightType
  end.

(** The comparison branch of [normalizePredicateNode]. *)
Definition normalizeCompare (left : PredicateOperand) (operator : PredicateOperator) (right : PredicateOperand)
    : res PredicateExpression :=
  lhs ← normalizeOperand left;
  rhs ← normalizeOperand right;
  _ ← assertOperatorAllowedForOperand lhs operator;
  _ ← assertStaticOperatorValue operator rhs;
  _ ← assertOperandCompatibility lhs operator rhs;
  Ok (PCompare lhs operator rhs).

(** [consumeBudget]: the budget is shared by all nodes. *)
Definition consumeBudget : M Z unit :=
  remaining ← m_get;
  _ ← m_put (remaining - 1)%Z;
  m_ensure (negb (remaining - 1 <? 0)%Z) (invalid_predicate errorCode).

(** [normalizePredicateNode(doctype, expression, options)]. *)
Fixpoint normalizePredicateNode (expression : PredicateExpression) (depth : Z) : M Z PredicateExpression :=
  _ ← consumeBudget;
  _ ← m_ensure (negb (maxDepth <? depth)%Z) (invalid_predicate errorCode);
  match expression with
  | PGroup m predicates =>
      _ ← m_ensure (match predicates with [] => false | _ => true end) (invalid_predicate errorCode);
      predicates ← m_map (λ predicate, normalizePredicateNode predicate (depth + 1)%Z) predicates;
      mret (PGroup m predicates)
  | PNot predicate =>
      predicate ← normalizePredicateNode predicate (depth + 1)%Z;
      mret (PNot predicate)
  | PCompare lhs operator rhs => m_lift (normalizeCompare lhs operator rhs)
  end.
End normalize.

(** [normalizePredicateExpression(doctype, expression, options)]. *)
Definition normalizePredicateExpression (doctype : DocTypeDefinition) (expression : PredicateExpression)
    (options : NormalizeOptions) : res PredicateExpression :=
  (normalizePredicateNode doctype (default [ScAfter] (no_availableScopes options))
     (default BAD_REQUEST (no_errorCode options)) (default MAX_PREDICATE_DEPTH (no_maxDepth options))
     expression 1 (default MAX_PREDICATE_NODES (no_maxNodes options))).1.

(** ** Evaluation *)

(** The host's: the text of a number, array or object, and the character fold. *)
Record predicate_host := {
  ph_text : value → jstr;
  ph_canonicalize : N → N
}.

(** [String(value)]. *)
Definition string_of (host : predicate_host) (v : value) : jstr :=
  match v with
  | VUndef => js "undefined"
  | VNull => js "null"
  | VBool b => if b then js "true" else js "false"
  | VStr s => s
  | VNum _ | VArr _ | VObj _ => ph_text host v
  end.

(** [new TextEncoder().encode(text)]: a lone surrogate becomes U+FFFD. *)
Fixpoint text_bytes (s : jstr) : list N :=
  match s with
  | [] => []
  | u :: rest =>
      if is_high u then
        match rest with
        | l :: rest' =>
            if is_low l then utf8 (pair_code_point u l) ++ text_bytes rest'
            else utf8 0xFFFD ++ text_bytes rest
        | [] => utf8 0xFFFD
        end
      else if is_low u then utf8 0xFFFD ++ text_bytes rest
      else utf8 u ++ text_bytes rest
  end.

(** The loop over the shared bytes, then the difference of lengths. *)
Fixpoint bytes_difference (l r : list N) : Z :=
  match l, r with
  | a :: l, b :: r => if (a =? b)%N then bytes_difference l r else (Z.of_N a - Z.of_N b)%Z
  | _, _ => (Z.of_nat (length l) - Z.of_nat (length r))%Z
  end.

(** [compareTextBinary(left, right)]. *)
Definition compareTextBinary (l r : jstr) : Z :=
  if decide (l = r) then 0%Z else bytes_difference (text_bytes l) (text_bytes r).

(** [comparable(left, right)]. *)
Definition comparable_values (l r : value) : bool :=
  let primitive v := match v with VUndef | VNull | VArr _ | VObj _ => false | _ => true end in
  primitive l && primitive r.

(** [compareValues(left, right)], as the sign of the number it returns ([None]
    for [NaN]). *)
Definition compareValues (host : predicate_host) (l r : value) : option comparison :=
  match l, r with
  | VNum a, VNum b => SFcompare (SFsub 53 1024 a b) (S754_zero false)
  | _, _ => Some (compareTextBinary (string_of host l)
      (if is_nullish r then [] else string_of host r) ?= 0)%Z
  end.

Definition is_gt (c : option comparison) : bool := match c with Some Gt => true | _ => false end.
Definition is_gte (c : option comparison) : bool := match c with Some Gt | Some Eq => true | _ => false end.
Definition is_lt (c : option comparison) : bool := match c with Some Lt => true | _ => false end.
Definition is_lte (c : option comparison) : bool := match c with Some Lt | Some Eq => true | _ => false end.

(** [comparePredicateValues(actual, operator, expected)]. *)
Definition comparePredicateValues (host : predicate_host) (actual : value) (operator : PredicateOperator)
    (expected : value) : bool :=
  let present := negb (is_nullish actual) in
  match operator with
  | OpEq => jsonValuesEqual actual expected
  | OpNe => present && negb (jsonValuesEqual actual expected)
  | OpIn => present && match expected with VArr l => existsb (jsonValuesEqual actual) l | _ => false end
  | OpNotIn => present && match expected with VArr l => negb (existsb (jsonValuesEqual actual) l) | _ => false end
  | OpIs => match expected with
      | VStr s => if decide (s = js "set") then present
                  else bool_decide (s = js "not set") && is_nullish actual
      | _ => false
      end
  | OpContains => present && negb (is_nullish expected) &&
      containsFoldedText (ph_canonicalize host) (string_of host actual) (string_of host expected)
  | OpLike => present && match expected with
      | VStr s => likePatternMatches (ph_canonicalize host) (string_of host actual) s | _ => false end
  | OpNotLike => present && match expected with
      | VStr s => negb (likePatternMatches (ph_canonicalize host) (string_of host actual) s) | _ => false end
  | OpGt => comparable_values actual expected && is_gt (compareValues host actual expected)
  | OpGte => comparable_values actual expected && is_gte (compareValues host actual expected)
  | OpLt => comparable_values actual expected && is_lt (compareValues host actual expected)
  | OpLte => comparable_values actual expected && is_lte (compareValues host actual expected)
  | OpBetween => present && match expected with
      | VArr [lo; hi] => comparable_values actual lo && comparable_values actual hi &&
          is_gte (compareValues host actual lo) && is_lte (compareValues host actual hi)
      | _ => false
      end
  | OpNotBetween => present && match expected with
      | VArr [lo; hi] => comparable_values actual lo && comparable_values actual hi &&
          (is_lt (compareValues host actual lo) || is_gt (compareValues host actual hi))
      | _ => false
      end
  end.

(** [PredicateEvaluationContext]; an absent event or actor is [VUndef]. *)
Record PredicateEvaluationContext := {
  pc_before : option DocumentSnapshot;
  pc_after : option DocumentSnapshot;
  pc_input : data;
  pc_event : value;
  pc_actor : value
}.

Definition docstatus_text (s : DocStatus) : jstr :=
  match s with
  | Draft => js "draft" | Submitted => js "submitted"
  | Cancelled => js "cancelled" | Deleted => js "deleted"
  end.

(** [predicateDocumentValue(document, field)]. *)
Definition predicateDocumentValue (document : option DocumentSnapshot) (field : jstr) : value :=
  match document with
  | None => VUndef
  | Some d =>
      if decide (field = js "system.name") then VStr (ds_name d)
      else if decide (field = js "system.docstatus") then VStr (docstatus_text (ds_docstatus d))
      else if decide (field = js "system.createdAt") then VStr (ds_createdAt d)
      else if decide (field = js "system.updatedAt") then VStr (ds_updatedAt d)
      else if decide (field = js "system.version") then vint (ds_version d)
      else vget field (ds_data d)
  end.

(** [isJsonValue] of predicates.ts, which does not ask numbers to be finite. *)
Fixpoint json_shaped (v : value) : bool :=
  match v with
  | VUndef => false
  | VNull | VStr _ | VNum _ | VBool _ => true
  | VArr l => (fix go l := match l with [] => true | x :: l => json_shaped x && go l end) l
  | VObj m => (fix go m := match m with [] => true | kv :: m => json_shaped kv.2 && go m end) m
  end.

(** [readPredicatePath(root, path)]: the loop over the segments. *)
Fixpoint readPredicatePath (root : value) (path : list jstr) : value :=
  match path with
  | [] => if json_shaped root then root else VUndef
  | segment :: path =>
      match root with
      | VObj m => match jm_get segment m with Some v => readPredicatePath v path | None => VUndef end
      | _ => VUndef
      end
  end.

(** [predicateOperandValue(operand, context)]. *)
Definition predicateOperandValue (operand : PredicateOperand) (context : PredicateEvaluationContext) : value :=
  match operand with
  | OLiteral v => v
  | OField scope field =>
      predicateDocumentValue (if decide (scope = ScBefore) then pc_before context else pc_after context) field
  | OPath scope path =>
      readPredicatePath (match scope with
        | ScInput => VObj (pc_input context)
        | ScEvent => pc_event context
        | _ => pc_actor context
        end) path
  end.

(** [evaluatePredicateExpression(expression, context)] on an expression. *)
Fixpoint evaluatePredicate (host : predicate_host) (expression : PredicateExpression)
    (context : PredicateEvaluationContext) : bool :=
  match expression with
  | PGroup MatchAll predicates => forallb (λ predicate, evaluatePredicate host predicate context) predicates
  | PGroup MatchAny predicates => existsb (λ predicate, evaluatePredicate host predicate context) predicates
  | PNot predicate => negb (evaluatePredicate host predicate context)
  | PCompare lhs operator rhs =>
      comparePredicateValues host (predicateOperandValue lhs context) operator
        (predicateOperandValue rhs context)
  end.

(** ... and on one that may be missing, which holds. *)
Definition evaluatePredicateExpression (host : predicate_host) (expression : option PredicateExpression)
    (context : PredicateEvaluationContext) : bool :=
  match expression with Some e => evaluatePredicate host e context | None => true end.

(** ** Composition *)

(** [andPredicateExpressions(expressions)]. *)
Definition andPredicateExpressions (expressions : list (option PredicateExpression))
    : option PredicateExpression :=
  let predicates := flat_map (λ expression, match expression with
    | None => []
    | Some (PGroup MatchAll predicates) => predicates
    | Some e => [e]
    end) expressions in
  match predicates with
  | [] => None
  | [e] => Some e
  | _ => Some (PGroup MatchAll predicates)
  end.

(** [ListFilterExpression]. *)
Inductive ListFilterExpression :=
| LFilter (field : jstr) (operator : option PredicateOperator) (v : value)
| LGroup (m : GroupMatch) (filters : list ListFilterExpression).

(** [predicateExpressionFromListFilterExpression(expression)]. *)
Fixpoint predicateExpressionFromListFilterExpression (expression : ListFilterExpression)
    : PredicateExpression :=
  match expression with
  | LGroup m filters => PGroup m (predicateExpressionFromListFilterExpression <$> filters)
  | LFilter field operator v =>
      PCompare (OField ScAfter field) (default OpEq operator) (OLiteral (cloneJsonValue v))
  end.

(** ** What the normaliser accepts *)

Fixpoint predicate_depth (e : PredicateExpression) : nat :=
  match e with
  | PCompare _ _ _ => 1
  | PGroup _ ps => S (foldr (λ p, Nat.max (predicate_depth p)) 0 ps)
  | PNot p => S (predicate_depth p)
  end.

Fixpoint predicate_nodes (e : PredicateExpression) : nat :=
  match e with
  | PCompare _ _ _ => 1
  | PGroup _ ps => S (foldr (λ p n, predicate_nodes p + n) 0 ps)
  | PNot p => S (predicate_nodes p)
  end.

Definition nodes_sum (ps : list PredicateExpression) : nat := foldr (λ p n, predicate_nodes p + n) 0 ps.
Definition depth_max (ps : list PredicateExpression) : nat := foldr (λ p, Nat.max (predicate_depth p)) 0 ps.

Lemma nodes_sum_cons p ps : nodes_sum (p :: ps) = predicate_nodes p + nodes_sum ps.
Proof. done. Qed.
Lemma depth_max_cons p ps : depth_max (p :: ps) = Nat.max (predicate_depth p) (depth_max ps).
Proof. done. Qed.
Lemma nodes_group m ps : predicate_nodes (PGroup m ps) = S (nodes_sum ps).
Proof. done. Qed.
Lemma depth_group m ps : predicate_depth (PGroup m ps) = S (depth_max ps).
Proof. done. Qed.
#[local] Opaque nodes_sum depth_max.

Section accepted.
Context (doctype : DocTypeDefinition) (scopes : list PredicateScope) (code : FrameworkErrorCode).

(** Every group has a predicate and every comparison passes its checks. *)
Fixpoint predicate_ok (e : PredicateExpression) : bool :=
  match e with
  | PCompare lhs op rhs => is_ok (normalizeCompare doctype scopes code lhs op rhs)
  | PGroup _ ps => negb (Nat.eqb (length ps) 0) && forallb predicate_ok ps
  | PNot p => predicate_ok p
  end.

Lemma normalizeOperand_id o o' : normalizeOperand doctype scopes code o = Ok o' → o' = o.
Proof.
  destruct o as [v|scope field|scope path]; simpl.
  - intros [= <-]. by rewrite cloneJsonValue_id.
  - intros (? & _ & H)%bind_ok. apply bind_ok in H as (? & _ & H). by apply bind_ok in H as (? & _ & [= <-]).
  - intros (? & _ & H)%bind_ok. apply bind_ok in H as (? & _ & H).
    apply bind_ok in H as (path' & Hp & [= <-]). f_equal. apply map_res_ok in Hp.
    induction Hp as [|s s' path path' Hs _ IH]; [done|]. f_equal; [|done].
    apply bind_ok in Hs as (? & _ & Hs). by apply bind_ok in Hs as (? & _ & [= <-]).
Qed.

Lemma normalizeCompare_id l op r e :
  normalizeCompare doctype scopes code l op r = Ok e → e = PCompare l op r.
Proof.
  unfold normalizeCompare. intros (l' & Hl%normalizeOperand_id & H)%bind_ok.
  apply bind_ok in H as (r' & Hr%normalizeOperand_id & H). subst.
  apply bind_ok in H as (? & _ & H). apply bind_ok in H as (? & _ & H).
  by apply bind_ok in H as (? & _ & [= <-]).
Qed.

(** A run of the normaliser on one node, from a budget [s]. *)
Definition node_accepts (maxDepth : Z) (e : PredicateExpression) (depth s : Z) : Prop :=
  (Z.of_nat (predicate_nodes e) <= s)%Z ∧ (depth + Z.of_nat (predicate_depth e) - 1 <= maxDepth)%Z ∧
  predicate_ok e = true.

Lemma m_map_accepts maxDepth depth ps s :
  (0 <= s)%Z →
  Forall (λ p, ∀ d s e' s', normalizePredicateNode doctype scopes code maxDepth p d s = (Ok e', s') ↔
    e' = p ∧ s' = (s - Z.of_nat (predicate_nodes p))%Z ∧ node_accepts maxDepth p d s) ps →
  ∀ ps' s', m_map (λ p, normalizePredicateNode doctype scopes code maxDepth p depth) ps s = (Ok ps', s') ↔
    ps' = ps ∧ s' = (s - Z.of_nat (nodes_sum ps))%Z ∧
    (Z.of_nat (nodes_sum ps) <= s)%Z ∧
    (ps = [] ∨ (depth + Z.of_nat (depth_max ps) - 1 <= maxDepth)%Z) ∧
    forallb predicate_ok ps = true.
Proof.
  intros Hs Hps. revert s Hs. induction Hps as [|p ps Hp _ IH]; intros s Hs ps' s'.
  - change (nodes_sum []) with 0. unfold m_map, mret, M_ret. split.
    + intros [= <- <-]. split_and!; [done|lia|lia|by left|done].
    + intros (-> & -> & _). by rewrite Z.sub_0_r.
  - cbn [m_map forallb]. rewrite nodes_sum_cons, depth_max_cons, m_bind_run.
    fold (@m_map Z _ _ (λ p, normalizePredicateNode doctype scopes code maxDepth p depth)). split.
    + destruct (normalizePredicateNode _ _ _ _ p depth s) as [[e1|] s1] eqn:E1; [|done].
      apply Hp in E1 as (-> & -> & Hn & Hd & Hok). rewrite m_bind_run.
      destruct (m_map _ ps _) as [[ps1|] s2] eqn:E2; [|done]. intros [= <- <-].
      apply IH in E2 as (-> & -> & Hn' & Hd' & Hok'); [|lia].
      split_and!; [done|lia|lia| |by rewrite Hok, Hok'].
      right. destruct Hd' as [->|Hd']; [change (depth_max []) with 0|]; lia.
    + intros (-> & -> & Hn & [?|Hd] & Hok); [done|]. apply andb_prop in Hok as [Hok1 Hok2].
      assert (E1 : normalizePredicateNode doctype scopes code maxDepth p depth s =
        (Ok p, (s - Z.of_nat (predicate_nodes p))%Z)).
      { apply Hp. split_and!; [done..|]. unfold node_accepts. split_and!; [lia|lia|done]. }
      rewrite E1, m_bind_run.
      assert (E2 : m_map (λ p, normalizePredicateNode doctype scopes code maxDepth p depth) ps
        (s - Z.of_nat (predicate_nodes p))%Z =
        (Ok ps, (s - Z.of_nat (predicate_nodes p) - Z.of_nat (nodes_sum ps))%Z)).
      { apply IH; [lia|]. split_and!; [done..|lia| |done]. right. lia. }
      rewrite E2. unfold mret, M_ret. f_equal. lia.
Qed.

Lemma normalizePredicateNode_run maxDepth e depth s e' s' :
  normalizePredicateNode doctype scopes code maxDepth e depth s = (Ok e', s') ↔
  e' = e ∧ s' = (s - Z.of_nat (predicate_nodes e))%Z ∧ node_accepts maxDepth e depth s.
Proof.
  revert depth s e' s'. induction e as [l op r|m ps IH|p IH] using predicate_ind'; intros depth s e' s';
    cbn [normalizePredicateNode]; rewrite m_bind_run; unfold consumeBudget; rewrite !m_bind_run;
    unfold m_get at 1, m_ensure, m_put; unfold m_lift at 1; rewrite !m_bind_run; unfold m_lift at 1; unfold node_accepts, ensure;
    (destruct (Z.ltb_spec (s - 1) 0) as [Hb|Hb]; cbn [negb]; [split; [done|intros (_ & _ & Hn & _); simpl in Hn; lia]|]);
    (destruct (Z.ltb_spec maxDepth depth) as [Hd|Hd]; cbn [negb];
      [split; [done|intros (_ & _ & _ & Hn & _); simpl in Hn; lia]|]).
  - unfold m_lift. simpl. split.
    + intros [= H <-]. rewrite H. apply normalizeCompare_id in H as ->. split_and!; [done|lia|lia|lia|done].
    + intros (-> & -> & _ & _ & Hok). destruct (normalizeCompare _ _ _ l op r) as [e|] eqn:E; [|done].
      apply normalizeCompare_id in E as ->. done.
  - rewrite m_bind_run. unfold m_lift at 1. destruct ps as [|p ps]; [split; [done|naive_solver]|].
    rewrite m_bind_run. pose proof (m_map_accepts maxDepth (depth + 1) (p :: ps) (s - 1) ltac:(lia) IH) as Hm.
    rewrite nodes_group, depth_group. cbn [predicate_ok]. split.
    + destruct (m_map _ (p :: ps) _) as [[ps'|] s1] eqn:E; [|done]. intros [= <- <-].
      destruct (proj1 (Hm ps' s1) eq_refl) as (-> & -> & Hn & [?|Hdd] & Hok); [done|]. split_and!; [done|lia|lia|lia|done].
    + intros (-> & -> & Hn & Hdd & Hok).
      rewrite (proj2 (Hm (p :: ps) (s - 1 - Z.of_nat (nodes_sum (p :: ps)))%Z)).
      * unfold mret, M_ret. f_equal. lia.
      * split_and!; [done|done|lia| |done]. right. lia.
  - rewrite m_bind_run. cbn [predicate_nodes predicate_depth predicate_ok]. split.
    + destruct (normalizePredicateNode _ _ _ _ p _ _) as [[p'|] s1] eqn:E; [|done]. intros [= <- <-].
      apply IH in E as (-> & -> & Hn & Hdd & Hok). split_and!; [done|lia|lia|lia|done].
    + intros (-> & -> & Hn & Hdd & Hok).
      rewrite (proj2 (IH (depth + 1)%Z (s - 1)%Z p (s - 1 - Z.of_nat (predicate_nodes p))%Z)).
      * unfold mret, M_ret. f_equal. lia.
      * split_and!; [done..|]. unfold node_accepts. split_and!; [lia|lia|done].
Qed.
End accepted.

Lemma normalizePredicateExpression_run doctype e options e' :
  normalizePredicateExpression doctype e options = Ok e' ↔
  e' = e ∧
  (Z.of_nat (predicate_depth e) <= default 5 (no_maxDepth options))%Z ∧
  (Z.of_nat (predicate_nodes e) <= default 64 (no_maxNodes options))%Z ∧
  predicate_ok doctype (default [ScAfter] (no_availableScopes options))
    (default BAD_REQUEST (no_errorCode options)) e = true.
Proof.
  unfold normalizePredicateExpression, MAX_PREDICATE_DEPTH, MAX_PREDICATE_NODES.
  destruct (normalizePredicateNode _ _ _ _ e 1 _) as [r s] eqn:E. simpl. split.
  - intros ->. apply normalizePredicateNode_run in E as (-> & _ & Hn & Hd & Hok).
    split_and!; [done|lia|lia|done].
  - intros (-> & Hd & Hn & Hok).
    assert (H : (r, s) = (Ok e, (default 64 (no_maxNodes options) - Z.of_nat (predicate_nodes e))%Z)).
    { rewrite <-E. apply normalizePredicateNode_run. split_and!; [done..|].
      unfold node_accepts. split_and!; [lia|lia|done]. }
    by injection H.
Qed.

(** The normaliser accepts exactly the expressions within the depth and node
    budgets whose groups are non-empty and whose comparisons pass their checks,
    and returns them unchanged. *)
Theorem normalizePredicate_exact doctype e options e' :
  normalizePredicateExpression doctype e options = Ok e' ↔
  e' = e ∧
  (Z.of_nat (predicate_depth e) <= default 5 (no_maxDepth options))%Z ∧
  (Z.of_nat (predicate_nodes e) <= default 64 (no_maxNodes options))%Z ∧
  predicate_ok doctype (default [ScAfter] (no_availableScopes options))
    (default BAD_REQUEST (no_errorCode options)) e = true.
Proof. apply normalizePredicateExpression_run. Qed.

(** A conjunction means that every part that is present holds. *)
Theorem andPredicateExpressions_eval host expressions context :
  evaluatePredicateExpression host (andPredicateExpressions expressions) context =
  forallb (λ e, evaluatePredicateExpression host e context) expressions.
Proof.
  unfold andPredicateExpressions. set (flat := flat_map _ expressions).
  assert (forallb (λ e, evaluatePredicate host e context) flat =
          forallb (λ e, evaluatePredicateExpression host e context) expressions) as <-.
  { unfold flat. clear flat. induction expressions as [|e expressions IH]; [done|]. simpl.
    rewrite forallb_app, IH. f_equal. destruct e as [[l op r|[] ps|p]|]; simpl; rewrite ?andb_true_r; done. }
  destruct flat as [|e1 [|e2 flat]]; [done| |done]. simpl. by rewrite andb_true_r.
Qed.

(** ** The text order *)

Lemma text_bytes_points s points :
  code_points s = Ok points → text_bytes s = flat_map utf8 points.
Proof.
  assert (H : ∀ n s points, length s ≤ n → code_points s = Ok points → text_bytes s = flat_map utf8 points).
  { clear s points. induction n as [|n IH]; intros s points Hn H;
      (destruct s as [|u s]; [by injection H as <-|]); simpl in Hn; [lia|].
    destruct points as [|p points]; [by apply code_points_nil_inv in H|].
    apply code_points_cons in H as [(Hh & Hl & -> & H)|(l & s' & -> & Hh & Hl & -> & H)]; simpl.
    - rewrite Hh, Hl. f_equal. apply IH; [lia|done].
    - rewrite Hh, Hl. f_equal. apply IH; [simpl in Hn; lia|done]. }
  by apply (H (length s)).
Qed.

Lemma bytes_difference_app w l r : bytes_difference (w ++ l) (w ++ r) = bytes_difference l r.
Proof. induction w as [|b w IH]; [done|]. simpl. by rewrite N.eqb_refl. Qed.

Lemma bytes_difference_anti l r : bytes_difference l r = (- bytes_difference r l)%Z.
Proof.
  revert r. induction l as [|a l IH]; intros [|b r]; simpl; [lia..|].
  rewrite (N.eqb_sym b a). destruct (a =? b)%N; [apply IH|lia].
Qed.

(** UTF-8 keeps the order of code points. *)
Lemma utf8_order a b s t :
  is_point a → is_point b → (a < b)%N → (bytes_difference (utf8 a ++ s) (utf8 b ++ t) < 0)%Z.
Proof.
  unfold is_point, utf8. intros Ha Hb Hab.
  pose proof (utf8_digits a) as Da. pose proof (utf8_digits b) as Db.
  revert Da Db.
  generalize ((a / 64) mod 64)%N. generalize ((a / 4096) mod 64)%N. generalize (a mod 64)%N.
  generalize (a / 64)%N. generalize (a / 4096)%N. generalize (a / 262144)%N.
  generalize ((b / 64) mod 64)%N. generalize ((b / 4096) mod 64)%N. generalize (b mod 64)%N.
  generalize (b / 64)%N. generalize (b / 4096)%N. generalize (b / 262144)%N.
  intros b1 b2 b3 b4 b5 b6 a1 a2 a3 a4 a5 a6 Da Db.
  destruct (N.ltb_spec a 128); [|destruct (N.ltb_spec a 2048); [|destruct (N.ltb_spec a 65536)]];
    (destruct (N.ltb_spec b 128); [|destruct (N.ltb_spec b 2048); [|destruct (N.ltb_spec b 65536)]]);
    cbn [app bytes_difference]; repeat (match goal with |- context [(?x =? ?y)%N] => destruct (N.eqb_spec x y) end);
    lia.
Qed.

(** Strings compared code point by code point. *)
Fixpoint points_lt (l r : list N) : bool :=
  match l, r with
  | [], _ :: _ => true
  | a :: l, b :: r => (a <? b)%N || (a =? b)%N && points_lt l r
  | _, _ => false
  end.

Lemma utf8_nonempty a s t : bytes_difference (utf8 a ++ s) [] = Z.of_nat (length (utf8 a ++ s)) ∧ 0 < length (utf8 a ++ t).
Proof.
  assert (0 < length (utf8 a)) by (unfold utf8; repeat destruct (_ <? _)%N; simpl; lia).
  split; [|rewrite length_app; lia]. destruct (utf8 a ++ s); simpl; lia.
Qed.

Lemma bytes_points_order l r :
  Forall is_point l → Forall is_point r →
  ((bytes_difference (flat_map utf8 l) (flat_map utf8 r) < 0)%Z ↔ points_lt l r = true).
Proof.
  intros Hl. revert r. induction Hl as [|a l Ha _ IH]; intros r Hr; destruct Hr as [|b r Hb Hr]; cbn [flat_map points_lt].
  - simpl. lia.
  - rewrite bytes_difference_anti. destruct (utf8_nonempty b (flat_map utf8 r) (flat_map utf8 r)) as [-> ?]. lia.
  - destruct (utf8_nonempty a (flat_map utf8 l) (flat_map utf8 l)) as [-> ?]. split; [lia|done].
  - rewrite orb_true_iff, andb_true_iff, N.ltb_lt, N.eqb_eq.
    destruct (N.lt_total a b) as [Hab|[->|Hab]].
    + pose proof (utf8_order a b (flat_map utf8 l) (flat_map utf8 r) Ha Hb Hab). split; [by left|done].
    + rewrite bytes_difference_app, IH by done. split; [naive_solver|]. intros [?|[_ ?]]; [lia|done].
    + pose proof (utf8_order b a (flat_map utf8 r) (flat_map utf8 l) Hb Ha Hab) as H.
      rewrite bytes_difference_anti. split; [lia|]. intros [?|[? _]]; lia.
Qed.

(** On well-formed strings the text order is the order of code points: a
    comparison is negative exactly when the left string comes first, zero
    exactly on equal strings, and swapping the sides changes its sign. *)
Theorem compareTextBinary_order s t ps pt :
  jstr_wf s → jstr_wf t → code_points s = Ok ps → code_points t = Ok pt →
  ((compareTextBinary s t < 0)%Z ↔ points_lt ps pt = true) ∧
  (compareTextBinary s t = 0%Z ↔ s = t) ∧
  compareTextBinary t s = (- compareTextBinary s t)%Z.
Proof.
  intros Ws Wt Es Et. unfold compareTextBinary.
  pose proof (code_points_range _ _ Ws Es) as Rs. pose proof (code_points_range _ _ Wt Et) as Rt.
  destruct (decide (s = t)) as [->|Hne].
  - rewrite decide_True by done. rewrite Es in Et. injection Et as <-.
    split_and!; [|done|lia]. split; [lia|].
    intros H. exfalso. clear -H. induction ps as [|a ps IH]; [done|]. simpl in H.
    rewrite N.ltb_irrefl, N.eqb_refl in H. by apply IH.
  - rewrite decide_False by done.
    rewrite (text_bytes_points s ps), (text_bytes_points t pt) by done.
    split_and!; [by apply bytes_points_order| |apply bytes_difference_anti].
    split; [|by intros ->]. intros H0.
    assert (points_lt ps pt = false ∧ points_lt pt ps = false) as [H1 H2].
    { split; apply not_true_is_false; intros Hlt.
      - apply bytes_points_order in Hlt; [lia|done..].
      - apply bytes_points_order in Hlt; [|done..]. rewrite bytes_difference_anti in Hlt. lia. }
    assert (ps = pt) as ->.
    { clear -H1 H2. revert pt H1 H2. induction ps as [|a ps IH]; intros [|b pt]; simpl; [done..|].
      rewrite !orb_false_iff, !andb_false_iff, !N.ltb_ge, !N.eqb_neq. intros [H1 H1'] [H2 H2'].
      assert (a = b) as -> by lia. f_equal. apply IH; [by destruct H1'|by destruct H2']. }
    exfalso. apply Hne. by eapply code_points_inj.
Qed.

(** ** Witness *)
Lemma compareTextBinary_order_witness :
  (compareTextBinary (js "B") (js "apple") < 0)%Z ∧ (compareTextBinary [0xE000]%N [0xD83D; 0xDE00]%N < 0)%Z.
Proof.
  split.
  - apply (compareTextBinary_order (js "B") (js "apple") (js "B") (js "apple"));
      [repeat constructor..|reflexivity|reflexivity|reflexivity].
  - apply (compareTextBinary_order [0xE000]%N [0xD83D; 0xDE00]%N [0xE000]%N [0x1F600]%N);
      [repeat constructor..|reflexivity|reflexivity|reflexivity].
Defined.
