(* ===== verification/Schema.v ===== *)
(** * Schema: defaults and validation of document data

    Models the data half of [core/schema.ts]: the defaults of a new document, and
    the validation of its fields, with the rows of table fields validated against
    their child doctype.  Predicates of fields are evaluated by [Predicates]. *)

From S2P Require Export Predicates.

(** [compactData(input)]. *)
Definition compactData (input : data) : data := filter (λ kv, is_undefined kv.2 = false) input.

(** The value of a default, cloned. *)
Definition default_value (context : FieldDefaultContext) (default : FieldDefault) : value :=
  cloneJsonValue (match default with DefaultLiteral v => v | DefaultFunction f => f context end).

(** The two loops of [applyDefaults]. *)
Definition default_field (context : FieldDefaultContext) (d : data) (field : FieldDefinition) : data :=
  match fd_defaultValue field with
  | Some default =>
      if is_undefined (vget (fd_name field) d) then jm_set (fd_name field) (default_value context default) d else d
  | None => d
  end.

Definition default_state (d : data) (workflow : NamedWorkflowDefinition) : data :=
  if is_undefined (vget (nwd_stateField workflow) d)
  then jm_set (nwd_stateField workflow) (VStr (nwd_initialState workflow)) d else d.

(** [applyDefaults(definition, input, context)]. *)
Definition applyDefaults (definition : DocTypeDefinition) (input : data) (context : FieldDefaultContext) : data :=
  compactData (foldl default_state (foldl (default_field context) input (dt_fields definition))
    (default [] (dt_workflows definition))).

Definition issue (field code : jstr) : ValidationIssue := {| vi_field := Some field; vi_code := code |}.

(** [{ ...issue, field: `${path}${issue.field ? `.${issue.field}` : ''}` }]. *)
Definition prefix_issue (path : jstr) (i : ValidationIssue) : ValidationIssue :=
  {| vi_field := Some (path ++ match vi_field i with
       | Some f => if bool_decide (f = []) then [] else js "." ++ f
       | None => []
       end);
     vi_code := vi_code i |}.

(** The path of a row: [name[index]]. *)
Definition row_path (name : jstr) (index : nat) : jstr := name ++ js "[" ++ dec (N.of_nat index) ++ js "]".

(** Whether a value counts as missing. *)
Definition missing (field : FieldDefinition) (v : value) : bool :=
  match v with
  | VUndef | VNull => true
  | VStr s => bool_decide (s = [])
  | VArr items => bool_decide (fd_type field = FTable) && bool_decide (items = [])
  | _ => false
  end.

(** The issues of the type of a value, for every type but a table. *)
Definition scalar_issues (field : FieldDefinition) (v : value) : list ValidationIssue :=
  let fail code := [issue (fd_name field) code] in
  match fd_type field with
  | FText | FLongText | FDate | FDatetime | FLink =>
      match v with
      | VStr s => if bool_decide (0%N ∈ s) then fail (js "nul") else []
      | _ => fail (js "type")
      end
  | FInteger => match v with VNum n => match num_to_Z n with Some _ => [] | None => fail (js "type") end | _ => fail (js "type") end
  | FNumber => match v with VNum n => if num_is_finite n then [] else fail (js "type") | _ => fail (js "type") end
  | FBoolean => match v with VBool _ => [] | _ => fail (js "type") end
  | FJson | FTable => []
  | FSelect =>
      match v with
      | VStr s => match fd_options field with
          | Some options => if bool_decide (s ∈ options) then [] else fail (js "option")
          | None => []
          end
      | _ => fail (js "type")
      end
  end.

(** [left < right] of numbers. *)
Definition num_ltb (l r : num) : bool := SFltb l r.

(** The issues of the bounds of a value. *)
Definition bound_issues (field : FieldDefinition) (v : value) : list ValidationIssue :=
  let measure := match v with
    | VStr s => Some (num_of_Z (Z.of_nat (length s))) | VNum n => Some n | _ => None end in
  match measure with
  | None => []
  | Some n =>
      (match fd_min field with Some m => if num_ltb n m then [issue (fd_name field) (js "min")] else [] | None => [] end) ++
      (match fd_max field with Some m => if num_ltb m n then [issue (fd_name field) (js "max")] else [] | None => [] end)
  end.

(** [ValidationOptions]. *)
Record ValidationOptions := {
  vo_partial : bool;
  vo_existing : option data;
  vo_relatedDocType : jstr → option DocTypeDefinition
}.

Section validation.
Context (host : predicate_host).

(** [documentSnapshotForValidation(definition, input, options)]. *)
Definition documentSnapshotForValidation (definition : DocTypeDefinition) (input : data) (options : ValidationOptions)
    : DocumentSnapshot :=
  {| ds_tenantId := []; ds_doctype := dt_name definition; ds_name := []; ds_version := 0; ds_docstatus := Draft;
     ds_data := match vo_existing options with
       | Some existing => compactData (jm_spread existing input)
       | None => compactData input
       end;
     ds_createdAt := []; ds_updatedAt := [] |}.

(** Whether a condition makes the field mandatory. *)
Definition mandatory_by_dependency (field : FieldDefinition) (document : DocumentSnapshot) (input : data) : bool :=
  match fd_mandatoryDependsOn field with
  | Some condition => evaluatePredicate host condition
      {| pc_before := None; pc_after := Some document; pc_input := compactData input; pc_event := VUndef;
         pc_actor := VUndef |}
  | None => false
  end.

(** One turn of the loop of [validateDocumentData]; [check] is [validateField]. *)
Definition field_issues (options : ValidationOptions) (document : DocumentSnapshot) (input : data)
    (check : FieldDefinition → list ValidationIssue) (field : FieldDefinition) : list ValidationIssue :=
  let v := vget (fd_name field) input in
  let finalValue := vget (fd_name field) (ds_data document) in
  if fd_required field && missing field v && (negb (vo_partial options) || negb (is_undefined v)) ||
     mandatory_by_dependency field document input && missing field finalValue
  then [issue (fd_name field) (js "required")]
  else if vo_partial options && is_undefined v then []
  else if missing field v then []
  else check field.

(** [fields.has(key)]. *)
Definition has_field (definition : DocTypeDefinition) (key : jstr) : bool :=
  bool_decide (key ∈ fd_name <$> dt_fields definition).

Definition unknown_issues (definition : DocTypeDefinition) (input : data) : list ValidationIssue :=
  if dt_allowUnknownFields definition then []
  else (λ key, issue key (js "unknown_field")) <$> filter (λ key, has_field definition key = false) (jm_keys input).

(** The body of [validateDocumentData], with [validateField] as an argument. *)
Definition data_issues (definition : DocTypeDefinition) (options : ValidationOptions) (input : data)
    (check : FieldDefinition → list ValidationIssue) : list ValidationIssue :=
  unknown_issues definition input ++
  flat_map (field_issues options (documentSnapshotForValidation definition input options) input check)
    (dt_fields definition).

Definition whole (options : ValidationOptions) : ValidationOptions :=
  {| vo_partial := false; vo_existing := vo_existing options; vo_relatedDocType := vo_relatedDocType options |}.

(** [field.tableOf ? options.relatedDocType?.(field.tableOf) : undefined]. *)
Definition child_doctype (relatedDocType : jstr → option DocTypeDefinition) (field : FieldDefinition)
    : option DocTypeDefinition :=
  match fd_tableOf field with
  | Some t => if bool_decide (t = []) then None else relatedDocType t
  | None => None
  end.

(** [validateField(field, value, options)], with [validateTableField]; the rows are
    validated by the recursive calls on their values. *)
Fixpoint validateField (options : ValidationOptions) (v : value) (field : FieldDefinition) {struct v}
    : list ValidationIssue :=
  (match fd_type field with
   | FTable =>
       match v with
       | VArr rows =>
           match child_doctype (vo_relatedDocType options) field with
           | None => [issue (fd_name field) (js "table_target")]
           | Some child =>
               (fix each (index : nat) (rows : list value) : list ValidationIssue :=
                  match rows with
                  | [] => []
                  | row :: rows =>
                      match row with
                      | VObj m =>
                          prefix_issue (row_path (fd_name field) index) <$>
                          data_issues child (whole options) m (λ childField,
                            (fix at_ (m : data) : list ValidationIssue :=
                               match m with
                               | [] => []
                               | (k, w) :: m =>
                                   if decide (k = fd_name childField) then validateField (whole options) w childField else at_ m
                               end) m)
                      | _ => [issue (row_path (fd_name field) index) (js "type")]
                      end ++ each (S index) rows
                  end) 0 rows
           end
       | _ => [issue (fd_name field) (js "type")]
       end
   | _ => scalar_issues field v
   end) ++ bound_issues field v.

(** [validateDocumentData(definition, input, options)]. *)
Definition validateDocumentData (definition : DocTypeDefinition) (input : data) (options : ValidationOptions)
    : list ValidationIssue :=
  data_issues definition options input (λ field, validateField options (vget (fd_name field) input) field).
End validation.

(** ** The equations of the validator *)

Lemma field_issues_ext host options document input check check' field :
  (missing field (vget (fd_name field) input) = false → check field = check' field) →
  field_issues host options document input check field = field_issues host options document input check' field.
Proof.
  intros H. unfold field_issues. destruct (_ || _); [done|]. destruct (_ && _); [done|].
  destruct (missing field _); [done|]. by apply H.
Qed.

Lemma data_issues_ext host definition options input check check' :
  (∀ field, missing field (vget (fd_name field) input) = false → check field = check' field) →
  data_issues host definition options input check = data_issues host definition options input check'.
Proof.
  intros H. unfold data_issues. f_equal. generalize (documentSnapshotForValidation definition input options) as document.
  intros document. induction (dt_fields definition) as [|field fields IH]; [done|]. cbn [flat_map]. rewrite IH.
  f_equal. by apply field_issues_ext, H.
Qed.

(** The issues of a row. *)
Definition row_issues (host : predicate_host) (options : ValidationOptions) (field : FieldDefinition)
    (child : DocTypeDefinition) (index : nat) (row : value) : list ValidationIssue :=
  match row with
  | VObj m => prefix_issue (row_path (fd_name field) index) <$> validateDocumentData host child m (whole options)
  | _ => [issue (row_path (fd_name field) index) (js "type")]
  end.

Lemma validateField_scalar host options v field :
  fd_type field ≠ FTable → validateField host options v field = scalar_issues field v ++ bound_issues field v.
Proof. intros Ht. destruct v; simpl; destruct (fd_type field); done. Qed.

Lemma validateField_rows host options rows field :
  fd_type field = FTable →
  validateField host options (VArr rows) field =
  match child_doctype (vo_relatedDocType options) field with
  | None => [issue (fd_name field) (js "table_target")]
  | Some child => concat (imap (row_issues host options field child) rows)
  end.
Proof.
  intros Ht. cbn [validateField]. rewrite Ht. unfold bound_issues. rewrite app_nil_r.
  destruct (child_doctype _ field) as [child|]; [|done].
  change (imap (row_issues host options field child) rows)
    with (imap (λ i, row_issues host options field child (0 + i)) rows).
  generalize 0 as index. induction rows as [|row rows IH]; intros index; [done|].
  rewrite imap_cons. cbn [concat]. f_equal.
  - rewrite Nat.add_0_r. destruct row as [| | | | | |m]; try done. cbn [row_issues]. f_equal. apply data_issues_ext.
    intros childField Hm. unfold vget in *. induction m as [|[k w] m IHm]; [done|]. cbn [jm_get] in *.
    rewrite (decide_ext (k = fd_name childField) (fd_name childField = k)) by (split; congruence).
    destruct (decide (fd_name childField = k)); [done|]. by apply IHm.
  - rewrite (IH (S index)). f_equal. apply imap_ext. intros i x _. cbn. f_equal. lia.
Qed.

(** ** Well-typed data *)

(** The values of a type. *)
Definition typed (field : FieldDefinition) (v : value) : Prop :=
  match fd_type field, v with
  | (FText | FLongText | FDate | FDatetime | FLink), VStr s => 0%N ∉ s
  | FInteger, VNum n => is_Some (num_to_Z n)
  | FNumber, VNum n => num_is_finite n = true
  | FBoolean, VBool _ => True
  | FJson, _ => True
  | FSelect, VStr s => ∀ options, fd_options field = Some options → s ∈ options
  | _, _ => False
  end.

(** What the bounds of a field measure: the length of a text, a number itself. *)
Definition measure (v : value) : option num :=
  match v with VStr s => Some (num_of_Z (Z.of_nat (length s))) | VNum n => Some n | _ => None end.

Definition within_bounds (field : FieldDefinition) (v : value) : Prop :=
  ∀ n, measure v = Some n →
    (∀ m, fd_min field = Some m → num_ltb n m = false) ∧ (∀ m, fd_max field = Some m → num_ltb m n = false).

Lemma scalar_issues_typed field v :
  fd_type field ≠ FTable → scalar_issues field v = [] ↔ typed field v.
Proof.
  intros Ht. unfold scalar_issues, typed. destruct (fd_type field); try done; destruct v; try done.
  all: try (case_bool_decide; naive_solver).
  all: try match goal with |- context [num_to_Z ?n] => destruct (num_to_Z n); naive_solver end.
  all: try match goal with |- context [num_is_finite ?n] => destruct (num_is_finite n); naive_solver end.
  destruct (fd_options field) as [options|]; [|naive_solver]. case_bool_decide; naive_solver.
Qed.

Lemma bound_issues_within field v : bound_issues field v = [] ↔ within_bounds field v.
Proof.
  unfold bound_issues, within_bounds. fold (measure v). destruct (measure v) as [n|]; [|naive_solver].
  split.
  - intros [Hmin Hmax]%app_nil n' [= <-]. split; intros m Hm.
    + rewrite Hm in Hmin. by destruct (num_ltb n m).
    + rewrite Hm in Hmax. by destruct (num_ltb m n).
  - intros H. destruct (H n eq_refl) as [Hmin Hmax]. apply app_nil. split.
    + destruct (fd_min field) as [m|]; [|done]. by rewrite Hmin.
    + destruct (fd_max field) as [m|]; [|done]. by rewrite Hmax.
Qed.

Lemma fmap_nil {A B} (f : A → B) (l : list A) : f <$> l = [] ↔ l = [].
Proof. by destruct l. Qed.

Lemma jm_get_compact k d : jm_wf d → vget k (compactData d) = vget k d.
Proof.
  intros Hd. unfold vget, compactData. induction d as [|[k' v] d IH]; [done|].
  apply NoDup_cons in Hd as [Hk Hd]. specialize (IH Hd). rewrite filter_cons. cbn [jm_get snd].
  destruct (decide (k = k')) as [->|Hne].
  - case_decide as Hv; cbn [jm_get]; [by rewrite decide_True|]. rewrite IH.
    apply jm_get_None in Hk. cbn [fst] in Hk. rewrite Hk. by destruct v.
  - case_decide; [|done]. cbn [jm_get]. by rewrite decide_False.
Qed.

Lemma flat_map_nil {A B} (f : A → list B) l : flat_map f l = [] ↔ ∀ x, x ∈ l → f x = [].
Proof.
  induction l as [|x l IH]; cbn [flat_map]; [split; [by intros _ x ?%elem_of_nil|done]|].
  rewrite app_nil, IH. split.
  - intros [H1 H2] y [->|Hy]%elem_of_cons; [done|by apply H2].
  - intros H. split; [apply H; by left|]. intros y Hy. apply H. by right.
Qed.

Lemma concat_nil {A} (l : list (list A)) : concat l = [] ↔ ∀ x, x ∈ l → x = [].
Proof.
  induction l as [|y l IH]; cbn [concat]; [split; [by intros _ x ?%elem_of_nil|done]|].
  rewrite app_nil, IH. split; [intros [? ?] x [->|?]%elem_of_cons; auto|].
  intros H. split; [apply H; by left|]. intros x Hx. apply H. by right.
Qed.

Lemma unknown_issues_nil definition d :
  unknown_issues definition d = [] ↔
  (dt_allowUnknownFields definition = false → ∀ k, k ∈ jm_keys d → k ∈ fd_name <$> dt_fields definition).
Proof.
  unfold unknown_issues. destruct (dt_allowUnknownFields definition); [naive_solver|].
  rewrite fmap_nil. split.
  - intros H _ k Hk. destruct (has_field definition k) eqn:E; [by apply bool_decide_eq_true in E|].
    assert (k ∈ filter (λ key, has_field definition key = false) (jm_keys d)) as Hin by (by apply list_elem_of_filter).
    rewrite H in Hin. by apply elem_of_nil in Hin.
  - intros H. apply filter_none. intros k Hk. unfold has_field. rewrite bool_decide_eq_false. intros []. by apply H.
Qed.

Section welltyped.
Context (host : predicate_host) (relatedDocType : jstr → option DocTypeDefinition).

(** The validation of a whole document. *)
Definition whole_options : ValidationOptions :=
  {| vo_partial := false; vo_existing := None; vo_relatedDocType := relatedDocType |}.

(** A field that a document must hold: required, or made so by its condition. *)
Definition mandatory (definition : DocTypeDefinition) (d : data) (field : FieldDefinition) : bool :=
  fd_required field ||
  mandatory_by_dependency host field (documentSnapshotForValidation definition d whole_options) d.

Inductive data_ok : DocTypeDefinition → data → Prop :=
| data_ok_intro definition d :
    (dt_allowUnknownFields definition = false → ∀ k, k ∈ jm_keys d → k ∈ fd_name <$> dt_fields definition) →
    (∀ field, field ∈ dt_fields definition → mandatory definition d field = true →
       missing field (vget (fd_name field) d) = false) →
    (∀ field, field ∈ dt_fields definition → missing field (vget (fd_name field) d) = false →
       value_ok field (vget (fd_name field) d)) →
    data_ok definition d
with value_ok : FieldDefinition → value → Prop :=
| value_ok_scalar field v : fd_type field ≠ FTable → typed field v → within_bounds field v → value_ok field v
| value_ok_table field child rows :
    fd_type field = FTable → child_doctype relatedDocType field = Some child →
    (∀ row, row ∈ rows → ∃ m, row = VObj m ∧ data_ok child m) →
    value_ok field (VArr rows).

Lemma document_value definition d field :
  jm_wf d → vget (fd_name field) (ds_data (documentSnapshotForValidation definition d whole_options)) = vget (fd_name field) d.
Proof. apply jm_get_compact. Qed.

Lemma field_issues_nil definition d check field :
  jm_wf d →
  field_issues host whole_options (documentSnapshotForValidation definition d whole_options) d check field = [] ↔
  (mandatory definition d field = true → missing field (vget (fd_name field) d) = false) ∧
  (missing field (vget (fd_name field) d) = false → check field = []).
Proof.
  intros Hd. unfold field_issues, mandatory. rewrite document_value by done. cbn [vo_partial whole_options negb orb].
  rewrite andb_true_r. cbn [andb].
  destruct (missing field _), (fd_required field), (mandatory_by_dependency host field _ d); naive_solver.
Qed.

(** The validator's verdict on a document, from the verdicts on its fields. *)
Lemma data_issues_nil definition d check :
  jm_wf d →
  data_issues host definition whole_options d check = [] ↔
  unknown_issues definition d = [] ∧
  ∀ field, field ∈ dt_fields definition →
    (mandatory definition d field = true → missing field (vget (fd_name field) d) = false) ∧
    (missing field (vget (fd_name field) d) = false → check field = []).
Proof.
  intros Hd. unfold data_issues. rewrite app_nil, flat_map_nil. apply and_iff_compat_l.
  split; intros H field Hf; [by apply field_issues_nil, H|by apply field_issues_nil, H].
Qed.

Lemma validate_ok_iff definition d :
  jm_wf d →
  (∀ field, validateField host whole_options (vget (fd_name field) d) field = [] ↔ value_ok field (vget (fd_name field) d)) →
  validateDocumentData host definition d whole_options = [] ↔ data_ok definition d.
Proof.
  intros Hd Hv. unfold validateDocumentData. rewrite data_issues_nil, unknown_issues_nil by done. split.
  - intros [Hu Hf]. constructor; [done| |]; intros field Hin; [by apply Hf|].
    intros Hm. apply Hv. by apply (Hf field Hin).
  - inversion 1 as [? ? Hu Hm Ht]; subst. split; [done|]. intros field Hin. split; [by apply Hm|].
    intros Hp. apply Hv. by apply Ht.
Qed.

Lemma row_issues_nil field child index row :
  row_issues host whole_options field child index row = [] ↔
  ∃ m, row = VObj m ∧ validateDocumentData host child m whole_options = [].
Proof.
  unfold row_issues. destruct row as [| | | | | |m]; try naive_solver. rewrite fmap_nil. naive_solver.
Qed.

Lemma validate_value_ok v :
  vwf v →
  (∀ field, validateField host whole_options v field = [] ↔ value_ok field v) ∧
  (∀ m, v = VObj m → ∀ definition, validateDocumentData host definition m whole_options = [] ↔ data_ok definition m).
Proof.
  assert (Hscalar : ∀ v field, (fd_type field = FTable → ∀ rows, v ≠ VArr rows) →
    validateField host whole_options v field = [] ↔ value_ok field v).
  { intros w field Hw. destruct (decide (fd_type field = FTable)) as [Ht|Ht].
    - split; [|by inversion 1; subst; [|by edestruct (Hw Ht)]].
      destruct w; cbn [validateField]; rewrite Ht; try done. by edestruct (Hw Ht).
    - rewrite validateField_scalar, app_nil, scalar_issues_typed, bound_issues_within by done. split.
      + intros [? ?]. by constructor.
      + inversion 1; subst; [done|]. congruence. }
  induction v as [| | | | |items IH|m IH] using value_ind'; intros Hwf;
    try (split; [intros field; apply Hscalar; by intros|done]).
  - split; [|done]. intros field. destruct (decide (fd_type field = FTable)) as [Ht|Ht]; [|by apply Hscalar].
    rewrite validateField_rows by done. cbn [vo_relatedDocType whole_options].
    destruct (child_doctype relatedDocType field) as [child|] eqn:Ec;
      [|split; [done|]; inversion 1; subst; congruence].
    rewrite concat_nil. rewrite vwf_arr in Hwf. rewrite Forall_forall in IH, Hwf. split.
    + intros Hrows. eapply value_ok_table; [done|done|]. intros row [i Hi]%list_elem_of_lookup.
      assert (row_issues host whole_options field child i row = []) as Hr.
      { apply Hrows. apply list_elem_of_lookup. exists i. by rewrite list_lookup_imap, Hi. }
      apply row_issues_nil in Hr as (m & -> & Hm). exists m. split; [done|].
      apply list_elem_of_lookup_2 in Hi. by apply (proj2 (IH _ Hi (Hwf _ Hi)) m eq_refl child).
    + inversion 1 as [|? child' ? _ Ec' Hrows]; subst; [done|]. rewrite Ec in Ec'. injection Ec' as <-.
      intros x [i Hi]%list_elem_of_lookup. rewrite list_lookup_imap in Hi.
      destruct (items !! i) as [row|] eqn:Hrow; [|done]. injection Hi as <-.
      apply list_elem_of_lookup_2 in Hrow. destruct (Hrows row Hrow) as (m & -> & Hm). apply row_issues_nil.
      exists m. split; [done|]. by apply (proj2 (IH _ Hrow (Hwf _ Hrow)) m eq_refl child).
  - apply vwf_obj in Hwf as [Hm Hwf]. split; [intros field; apply Hscalar; by intros|].
    intros m' [= <-] definition. apply validate_ok_iff; [done|]. intros field. unfold vget.
    destruct (jm_get (fd_name field) m) as [w|] eqn:Hw; [|by apply Hscalar].
    apply jm_get_elem_1 in Hw. rewrite Forall_forall in IH, Hwf. by apply (IH _ Hw), (Hwf _ Hw).
Qed.
End welltyped.

(** ** Validation and defaults *)

(** [validateField] looks at its options only for the rows of a table. *)
Lemma validateField_whole host options v field :
  validateField host options v field = validateField host (whole options) v field.
Proof.
  destruct (decide (fd_type field = FTable)) as [Ht|Ht]; [|by rewrite !validateField_scalar]. by destruct v.
Qed.

(** The validation of a patch. *)
Definition patch_options (relatedDocType : jstr → option DocTypeDefinition) : ValidationOptions :=
  {| vo_partial := true; vo_existing := None; vo_relatedDocType := relatedDocType |}.

(** What an accepted patch guarantees: known fields, required ones not emptied, and
    well-typed values. *)
Lemma patch_issues_nil host relatedDocType definition patch :
  vwf (VObj patch) → validateDocumentData host definition patch (patch_options relatedDocType) = [] →
  unknown_issues definition patch = [] ∧
  ∀ field, field ∈ dt_fields definition → is_undefined (vget (fd_name field) patch) = false →
    (fd_required field = true → missing field (vget (fd_name field) patch) = false) ∧
    (missing field (vget (fd_name field) patch) = false → value_ok host relatedDocType field (vget (fd_name field) patch)).
Proof.
  intros Hwf Hv. unfold validateDocumentData, data_issues in Hv. apply app_nil in Hv as [Hu Hf]. split; [done|].
  intros field Hin Hdef. rewrite flat_map_nil in Hf. specialize (Hf field Hin). unfold field_issues in Hf.
  rewrite Hdef in Hf. cbn [vo_partial patch_options negb orb andb] in Hf. rewrite andb_true_r in Hf.
  destruct (fd_required field && missing field (vget (fd_name field) patch)) eqn:Er; [done|]. cbn [orb] in Hf.
  destruct (mandatory_by_dependency _ _ _ _ && _); [done|].
  split; [intros Hr; by rewrite Hr in Er|]. intros Hm. rewrite Hm in Hf.
  rewrite validateField_whole in Hf. change (whole (patch_options relatedDocType)) with (whole_options relatedDocType) in Hf.
  apply vwf_obj in Hwf as [_ Hwf]. unfold vget in *. destruct (jm_get (fd_name field) patch) as [w|] eqn:Hw; [|done].
  apply jm_get_elem_1 in Hw. rewrite Forall_forall in Hwf. by apply (validate_value_ok host relatedDocType w (Hwf _ Hw)).
Qed.

(** C33: The validator accepts exactly the well-typed documents: those whose fields are
    declared (unless the doctype allows others), which hold every mandatory field,
    required or made so by its condition, and whose values have the type, the
    options and the bounds of their fields, with the rows of table fields well typed
    for their child doctypes. *)
Theorem validation_exact host relatedDocType definition d :
  vwf (VObj d) →
  validateDocumentData host definition d (whole_options relatedDocType) = [] ↔ data_ok host relatedDocType definition d.
Proof. intros Hd. by apply (validate_value_ok host relatedDocType (VObj d) Hd). Qed.

(** ** Defaults *)

Lemma jm_wf_filter (P : jstr * value → Prop) `{∀ kv, Decision (P kv)} (d : data) : jm_wf d → jm_wf (filter P d).
Proof.
  intros Hd. induction d as [|kv d IH]; [done|]. apply NoDup_cons in Hd as [Hk Hd]. rewrite filter_cons.
  case_decide; [|by apply IH]. apply NoDup_cons. split; [|by apply IH].
  intros (x & Hx & Hin)%list_elem_of_fmap. apply list_elem_of_filter in Hin as [_ Hin]. apply Hk. rewrite Hx.
  by apply list_elem_of_fmap_2.
Qed.

Lemma default_field_get context d field k :
  vget k (default_field context d field) =
  match fd_defaultValue field with
  | Some default => if decide (k = fd_name field) then
      (if is_undefined (vget k d) then default_value context default else vget k d) else vget k d
  | None => vget k d
  end.
Proof.
  unfold default_field. destruct (fd_defaultValue field) as [default|]; [|done].
  destruct (decide (k = fd_name field)) as [->|Hne].
  - destruct (is_undefined _) eqn:E; [|by rewrite ?E]. unfold vget. by rewrite jm_get_set_eq.
  - destruct (is_undefined (vget (fd_name field) d)); [|done]. unfold vget. by rewrite jm_get_set_ne.
Qed.

(** A default is never [undefined]: the type of [defaultValue] excludes it. *)
Definition defaults_defined (context : FieldDefaultContext) (fields : list FieldDefinition) : Prop :=
  ∀ field default, field ∈ fields → fd_defaultValue field = Some default →
    is_undefined (default_value context default) = false.

(** The value that the defaults give to an absent field. *)
Definition field_default (context : FieldDefaultContext) (fields : list FieldDefinition) (k : jstr) : value :=
  match head (omap (λ field, if decide (k = fd_name field) then fd_defaultValue field else None) fields) with
  | Some default => default_value context default
  | None => VUndef
  end.

Lemma default_fields_get context fields d k :
  defaults_defined context fields →
  vget k (foldl (default_field context) d fields) =
  (if is_undefined (vget k d) then field_default context fields k else vget k d).
Proof.
  intros Hd. revert d. induction fields as [|field fields IH]; intros d; cbn [foldl].
  { unfold field_default. cbn. by destruct (vget k d). }
  rewrite IH by (intros f default Hin; apply Hd; by right). rewrite default_field_get.
  unfold field_default at 2. cbn [omap list_omap].
  destruct (fd_defaultValue field) as [default|] eqn:E; [|by destruct (decide _)].
  destruct (decide (k = fd_name field)); [|done].
  destruct (is_undefined (vget k d)) eqn:Eu; [|by rewrite Eu]. cbn [head].
  by rewrite (Hd field default ltac:(left) E).
Qed.

Lemma default_states_get workflows d k :
  vget k (foldl default_state d workflows) =
  (if is_undefined (vget k d)
   then match List.find (λ w, bool_decide (nwd_stateField w = k)) workflows with
        | Some w => VStr (nwd_initialState w) | None => VUndef end
   else vget k d).
Proof.
  revert d. induction workflows as [|w workflows IH]; intros d; cbn [foldl List.find].
  { by destruct (vget k d). }
  rewrite IH. unfold default_state. case_bool_decide as Hk.
  - subst k. destruct (is_undefined (vget (nwd_stateField w) d)) eqn:E; [|by rewrite E].
    unfold vget. by rewrite jm_get_set_eq.
  - destruct (is_undefined (vget (nwd_stateField w) d)); [|done].
    assert (vget k (jm_set (nwd_stateField w) (VStr (nwd_initialState w)) d) = vget k d) as ->; [|done].
    unfold vget. by rewrite jm_get_set_ne by congruence.
Qed.

Lemma default_field_wf context d field : jm_wf d → jm_wf (default_field context d field).
Proof. unfold default_field. destruct (fd_defaultValue field); [|done]. destruct (is_undefined _); [by apply jm_wf_set|done]. Qed.

Lemma default_state_wf d w : jm_wf d → jm_wf (default_state d w).
Proof. unfold default_state. destruct (is_undefined _); [by apply jm_wf_set|done]. Qed.

Lemma defaults_wf definition context input :
  jm_wf input → jm_wf (foldl default_state (foldl (default_field context) input (dt_fields definition))
    (default [] (dt_workflows definition))).
Proof.
  intros Hi. assert (H1 : jm_wf (foldl (default_field context) input (dt_fields definition))).
  { revert input Hi. induction (dt_fields definition); intros; [done|]. cbn. by apply IHl, default_field_wf. }
  revert H1. generalize (foldl (default_field context) input (dt_fields definition)) as d.
  induction (default [] (dt_workflows definition)); intros; [done|]. cbn. by apply IHl, default_state_wf.
Qed.

(** A new document holds what it was given; a field that was not given takes the
    default that its doctype declares, else the initial state of a workflow whose
    state it is; nothing else is added, and applying the defaults again changes
    nothing. *)
Theorem applyDefaults_spec definition input context k :
  jm_wf input → defaults_defined context (dt_fields definition) →
  vget k (applyDefaults definition input context) =
    (if is_undefined (vget k input) then
       let declared := field_default context (dt_fields definition) k in
       if is_undefined declared then
         match List.find (λ w, bool_decide (nwd_stateField w = k)) (default [] (dt_workflows definition)) with
         | Some w => VStr (nwd_initialState w) | None => VUndef end
       else declared
     else vget k input) ∧
  vget k (applyDefaults definition (applyDefaults definition input context) context) =
  vget k (applyDefaults definition input context).
Proof.
  intros Hi Hd.
  assert (Hone : ∀ d, jm_wf d → vget k (applyDefaults definition d context) =
    (if is_undefined (vget k d) then
       let declared := field_default context (dt_fields definition) k in
       if is_undefined declared then
         match List.find (λ w, bool_decide (nwd_stateField w = k)) (default [] (dt_workflows definition)) with
         | Some w => VStr (nwd_initialState w) | None => VUndef end
       else declared
     else vget k d)).
  { intros d Hwf. unfold applyDefaults. rewrite jm_get_compact by by apply defaults_wf.
    rewrite default_states_get, default_fields_get by done. cbv zeta.
    destruct (is_undefined (vget k d)) eqn:E; [done|]. by rewrite E. }
  assert (Hwf : jm_wf (applyDefaults definition input context)).
  { unfold applyDefaults, compactData. apply jm_wf_filter. by apply defaults_wf. }
  split; [by apply Hone|]. rewrite (Hone _ Hwf).
  destruct (is_undefined (vget k (applyDefaults definition input context))) eqn:E; [|done].
  rewrite (Hone _ Hi) in E |- *. cbv zeta in *. destruct (is_undefined (vget k input)) eqn:E1; [|congruence].
  destruct (is_undefined (field_default _ _ _)) eqn:E2; [done|congruence].
Qed.

(** ** Witnesses *)

Definition sample_schema_host : predicate_host := {| ph_text := λ _, []; ph_canonicalize := λ c, c |}.

(** A required title, a priority that defaults to [Low], a reason that is mandatory
    when the priority is [High], and rows of items whose quantity is at least one. *)
Definition sample_required (field : FieldDefinition) : FieldDefinition :=
  {| fd_name := fd_name field; fd_type := fd_type field; fd_required := true; fd_mandatoryDependsOn := None;
     fd_readOnly := false; fd_readOnlyDependsOn := None; fd_hidden := false; fd_hiddenDependsOn := None; fd_unique := false;
     fd_noCopy := false; fd_allowOnSubmit := false; fd_fetchFrom := None; fd_fetchIfEmpty := false;
     fd_options := None; fd_linkTo := None; fd_tableOf := None; fd_min := Some (num_of_Z 1); fd_max := None;
     fd_defaultValue := None; fd_permissions := None |}.

Definition sample_conditional (name : jstr) (type : FieldType) (condition : option PredicateExpression)
    (options : option (list jstr)) (tableOf : option jstr) (default : option FieldDefault) : FieldDefinition :=
  {| fd_name := name; fd_type := type; fd_required := false; fd_mandatoryDependsOn := condition;
     fd_readOnly := false; fd_readOnlyDependsOn := None; fd_hidden := false; fd_hiddenDependsOn := None; fd_unique := false;
     fd_noCopy := false; fd_allowOnSubmit := false; fd_fetchFrom := None; fd_fetchIfEmpty := false;
     fd_options := options; fd_linkTo := None; fd_tableOf := tableOf; fd_min := None; fd_max := None;
     fd_defaultValue := default; fd_permissions := None |}.

Definition sample_item : DocTypeDefinition :=
  plain_doctype (js "Item") [sample_required (plain_field (js "quantity") FInteger false false false None)].

Definition sample_escalation : DocTypeDefinition :=
  plain_doctype (js "Escalation")
    [ sample_required (plain_field (js "title") FText false false false None);
      sample_conditional (js "priority") FSelect None (Some [js "Low"; js "High"]) None
        (Some (DefaultLiteral (vstr "Low")));
      sample_conditional (js "reason") FText
        (Some (PCompare (OField ScAfter (js "priority")) OpEq (OLiteral (vstr "High")))) None None None;
      sample_conditional (js "items") FTable None None (Some (js "Item")) None ].

Definition sample_related (name : jstr) : option DocTypeDefinition :=
  if bool_decide (name = js "Item") then Some sample_item else None.

Definition sample_escalation_data : data :=
  [(js "title", vstr "Outage"); (js "priority", vstr "High"); (js "reason", vstr "Customers are down");
   (js "items", VArr [VObj [(js "quantity", vint 2)]])].

Lemma sample_escalation_wf : vwf (VObj sample_escalation_data).
Proof.
  cbn. repeat (split || constructor); try by apply (bool_decide_unpack _).
Qed.

Lemma sample_changed_wf k v :
  k ∈ [js "reason"; js "priority"] → vwf v → vwf (VObj (jm_spread sample_escalation_data [(k, v)])).
Proof.
  intros Hk Hv. pose proof sample_escalation_wf as [Hn Hf]%vwf_obj. apply vwf_obj. split; [by apply jm_wf_set|].
  cbn [jm_spread foldl fst snd]. apply Forall_forall. intros kv [->|Hin]%jm_set_elem; [done|].
  rewrite Forall_forall in Hf. by apply Hf.
Qed.

Lemma validation_exact_witness :
  data_ok sample_schema_host sample_related sample_escalation sample_escalation_data ∧
  validateDocumentData sample_schema_host sample_escalation [(js "priority", vstr "High")] (whole_options sample_related)
  = [issue (js "title") (js "required"); issue (js "reason") (js "required")].
Proof.
  split; [|by vm_compute].
  apply (validation_exact sample_schema_host sample_related sample_escalation sample_escalation_data sample_escalation_wf).
  by vm_compute.
Defined.

Definition sample_default_context : FieldDefaultContext :=
  {| fdc_actor := {| actor_id := js "ada"; actor_roles := []; actor_tenantId := None; actor_email := None |};
     fdc_now := js "2026-01-01T00:00:00.000Z" |}.

Lemma sample_defaults_defined : defaults_defined sample_default_context (dt_fields sample_escalation).
Proof.
  intros field default Hin Hd.
  repeat (apply elem_of_cons in Hin as [->|Hin]; [cbn in Hd; by simplify_eq|]). by apply elem_of_nil in Hin.
Qed.

Lemma applyDefaults_spec_witness :
  vget (js "priority") (applyDefaults sample_escalation [(js "title", vstr "Outage")] sample_default_context) = vstr "Low".
Proof.
  rewrite (proj1 (applyDefaults_spec sample_escalation [(js "title", vstr "Outage")] sample_default_context (js "priority")
    ltac:(apply (bool_decide_unpack _); by vm_compute) sample_defaults_defined)).
  by vm_compute.
Defined.

(** A patch is validated alone, not with the document it changes: a field that its
    condition makes mandatory can be emptied by an update that leaves the condition
    alone, after which the document is not well typed; and an update that only sets
    the condition is refused on a document that already has the field. *)
Theorem conditional_requirement_lost :
  let host := sample_schema_host in
  let existing := sample_escalation_data in
  let cleared := [(js "reason", vstr "")] in
  let raised := [(js "priority", vstr "High")] in
  data_ok host sample_related sample_escalation existing ∧
  validateDocumentData host sample_escalation cleared (patch_options sample_related) = [] ∧
  ¬ data_ok host sample_related sample_escalation (jm_spread existing cleared) ∧
  validateDocumentData host sample_escalation raised (patch_options sample_related)
    = [issue (js "reason") (js "required")] ∧
  data_ok host sample_related sample_escalation (jm_spread existing raised).
Proof.
  cbv zeta.
  assert (Hx : ∀ d, vwf (VObj d) → validateDocumentData sample_schema_host sample_escalation d (whole_options sample_related) = []
      ↔ data_ok sample_schema_host sample_related sample_escalation d).
  { intros d Hd. by apply (validate_value_ok sample_schema_host sample_related (VObj d) Hd). }
  split_and!.
  - apply Hx; [apply sample_escalation_wf|by vm_compute].
  - by vm_compute.
  - intros H. apply Hx in H; [|by apply sample_changed_wf; [apply (bool_decide_unpack _); by vm_compute|]]. by vm_compute in H.
  - by vm_compute.
  - apply Hx; [by apply sample_changed_wf; [apply (bool_decide_unpack _); by vm_compute|]|by vm_compute].
Qed.
