(* ===== verification/FieldPolicy.v ===== *)
(** * FieldPolicy: what a command may do to the fields of a document

    Models [application/document-field-policy.ts]: read-only fields, the fields that
    hold the state of a workflow, changes after submission, fields that are unset,
    and the rows of child tables, which keep the read-only values of the rows they
    come from.  Functions that descend into the rows of a table recurse on the value. *)

From S2P Require Export Normalize Schema Fold.

Section policy.
Context (host : predicate_host) (relatedDocType : jstr → option DocTypeDefinition).

(** ** Read-only fields *)

(** [documentSnapshotForFieldCondition(doctype, data)]. *)
Definition documentSnapshotForFieldCondition (doctype : DocTypeDefinition) (d : data) : DocumentSnapshot :=
  {| ds_tenantId := []; ds_doctype := dt_name doctype; ds_name := []; ds_version := 0; ds_docstatus := Draft;
     ds_data := d; ds_createdAt := []; ds_updatedAt := [] |}.

(** [conditionalReadOnlyApplies(field, document)]. *)
Definition conditionalReadOnlyApplies (field : FieldDefinition) (document : DocumentSnapshot) : bool :=
  match fd_readOnlyDependsOn field with
  | Some condition => evaluatePredicate host condition
      {| pc_before := None; pc_after := Some document; pc_input := []; pc_event := VUndef; pc_actor := VUndef |}
  | None => false
  end.

(** [fieldIsReadOnly(field, document)] and [fieldIsReadOnlyForData(doctype, field, data)]. *)
Definition fieldIsReadOnly (field : FieldDefinition) (document : DocumentSnapshot) : bool :=
  fd_readOnly field || conditionalReadOnlyApplies field document.
Definition fieldIsReadOnlyForData (doctype : DocTypeDefinition) (field : FieldDefinition) (d : data) : bool :=
  fieldIsReadOnly field (documentSnapshotForFieldCondition doctype d).

(** The issues of [readonlyIssues] about the patch itself, and about what it unsets. *)
Definition patch_readonly_issues (doctype : DocTypeDefinition) (patch : data) (finalDocument : DocumentSnapshot)
    : list ValidationIssue :=
  flat_map (λ fieldName, match fields_get doctype fieldName with
    | Some field => if fieldIsReadOnly field finalDocument then [issue fieldName (js "readonly")] else []
    | None => []
    end) (jm_keys patch).

Definition unset_readonly_issues (doctype : DocTypeDefinition) (patch : data) (unset : list jstr)
    (finalDocument : DocumentSnapshot) : list ValidationIssue :=
  flat_map (λ fieldName, match fields_get doctype fieldName with
    | Some field =>
        if negb (fd_readOnly field) && conditionalReadOnlyApplies field finalDocument
        then [issue fieldName (js "readonly")] else []
    | None => []
    end) (filter (λ fieldName, jm_has fieldName patch = false) unset).

Definition own_readonly_issues (doctype : DocTypeDefinition) (patch finalData : data) (unset : list jstr)
    : list ValidationIssue :=
  let finalDocument := documentSnapshotForFieldCondition doctype finalData in
  patch_readonly_issues doctype patch finalDocument ++ unset_readonly_issues doctype patch unset finalDocument.

Definition rows_of (v : value) : list value := match v with VArr rows => rows | _ => [] end.

(** The value of a property, given to a function that recurses on it. *)
Definition child_fields (doctype : DocTypeDefinition) : list FieldDefinition :=
  filter (λ field, fd_type field = FTable) (dt_fields doctype).

(** The issues of the rows of a table field. *)
Fixpoint readonly_rows (v : value) (field : FieldDefinition) (finalValue : value) {struct v} : list ValidationIssue :=
  match v, child_doctype relatedDocType field with
  | VArr rows, Some child =>
      (fix each (index : nat) (rows : list value) : list ValidationIssue :=
         match rows with
         | [] => []
         | row :: rows =>
             match row with
             | VObj m =>
                 let final := compactData (match rows_of finalValue !! index with Some (VObj r) => r | _ => m end) in
                 prefix_issue (row_path (fd_name field) index) <$>
                 (own_readonly_issues child m final [] ++
                  flat_map (λ childField,
                    (fix at_ (m : data) : list ValidationIssue :=
                       match m with
                       | [] => []
                       | (k, w) :: m =>
                           if decide (k = fd_name childField)
                           then readonly_rows w childField (vget (fd_name childField) final) else at_ m
                       end) m) (child_fields child))
             | _ => []
             end ++ each (S index) rows
         end) 0 rows
  | _, _ => []
  end.

(** [readonlyIssues(doctype, patch, relatedDocType, finalData, unset)]. *)
Definition readonlyIssues (doctype : DocTypeDefinition) (patch finalData : data) (unset : list jstr)
    : list ValidationIssue :=
  own_readonly_issues doctype patch finalData unset ++
  flat_map (λ field, readonly_rows (vget (fd_name field) patch) field (vget (fd_name field) finalData))
    (child_fields doctype).

(** ** The state of workflows *)

(** [workflowStateProtectedIssue(field)]. *)
Definition workflowStateProtectedIssue (field : jstr) : ValidationIssue := issue field (js "workflow_state_protected").

(** [workflowStateCreateIssues(doctype, data)]. *)
Definition workflowStateCreateIssues (doctype : DocTypeDefinition) (d : data) : list ValidationIssue :=
  flat_map (λ workflow,
    let v := vget (nwd_stateField workflow) d in
    let state := if is_nullish v then nwd_initialState workflow else string_of host v in
    if bool_decide (state = nwd_initialState workflow) then []
    else [workflowStateProtectedIssue (nwd_stateField workflow)]) (default [] (dt_workflows doctype)).

(** [workflowStateMutationIssues(doctype, patch, unset, authorizedTransitions)]. *)
Definition workflowStateMutationIssues (doctype : DocTypeDefinition) (patch : data) (unset : list jstr)
    (authorizedTransitions : data) : list ValidationIssue :=
  flat_map (λ workflow,
    let field := nwd_stateField workflow in
    if negb (jm_has field patch) && negb (bool_decide (field ∈ unset)) then []
    else if negb (bool_decide (field ∈ unset)) && jm_has field authorizedTransitions &&
            strict_equal (vget field patch) (vget field authorizedTransitions) then []
    else [workflowStateProtectedIssue field]) (default [] (dt_workflows doctype)).

(** ** Submitted documents and unset fields *)

(** [allowOnSubmitIssues(doctype, patch, unset)]. *)
Definition allowOnSubmitIssues (doctype : DocTypeDefinition) (patch : data) (unset : list jstr) : list ValidationIssue :=
  flat_map (λ fieldName, match fields_get doctype fieldName with
    | Some field => if fd_allowOnSubmit field then [] else [issue fieldName (js "allow_on_submit")]
    | None => []
    end) (js_unique (jm_keys patch ++ unset)).

(** [documentUnsetIssues(doctype, unset, existingData, patch)]. *)
Definition documentUnsetIssues (doctype : DocTypeDefinition) (unset : list jstr) (existingData patch : data)
    : list ValidationIssue :=
  flat_map (λ field,
    let definition := fields_get doctype field in
    let holds test := match definition with Some f => test f | None => false end in
    (if jm_has field patch then [issue field (js "unset_patch_conflict")] else []) ++
    (if holds fd_required then [issue field (js "required")] else []) ++
    (if holds fd_readOnly then [issue field (js "readonly")] else []) ++
    (if match definition with Some _ => false | None => negb (jm_has field existingData) end
     then [issue field (js "unknown_field")] else [])) unset.

(** ** Rows of child tables *)

(** [stripChildRowInternalFields(row)]. *)
Definition strip_index (m : data) : data := filter (λ kv, kv.1 ≠ CHILD_TABLE_ROW_INDEX_FIELD) m.
Definition stripChildRowInternalFields (row : value) : data := match row with VObj m => strip_index m | _ => [] end.

(** [childRowOriginIndex(value)]. *)
Definition childRowOriginIndex (v : value) : option nat :=
  match v with
  | VNum n => match num_safe_integer n with
      | Some z => if (0 <=? z)%Z then Some (Z.to_nat z) else None
      | None => None
      end
  | VStr s =>
      if negb (bool_decide (s = [])) && forallb is_digit s && is_safe_integer (Z.of_N (undec s))
      then Some (N.to_nat (undec s)) else None
  | _ => None
  end.

(** The issues of the rows of a table field; [seen] are the origins already used. *)
Fixpoint origin_rows (v : value) (field : FieldDefinition) (existingValue : value) (pathPrefix : jstr) {struct v}
    : list ValidationIssue :=
  match v, child_doctype relatedDocType field with
  | VArr rows, Some child =>
      (fix each (index : nat) (seen : list nat) (rows : list value) : list ValidationIssue :=
         match rows with
         | [] => []
         | row :: rows =>
             let path := pathPrefix ++ row_path (fd_name field) index ++ js "." in
             let refuse := [issue (path ++ CHILD_TABLE_ROW_INDEX_FIELD) (js "child_row_origin")] in
             match row with
             | VObj m =>
                 if jm_has CHILD_TABLE_ROW_INDEX_FIELD m then
                   match childRowOriginIndex (vget CHILD_TABLE_ROW_INDEX_FIELD m) with
                   | None => refuse ++ each (S index) seen rows
                   | Some origin =>
                       if Nat.leb (length (rows_of existingValue)) origin then refuse ++ each (S index) seen rows
                       else if bool_decide (origin ∈ seen) then refuse ++ each (S index) seen rows
                       else
                         let existingRow := match rows_of existingValue !! origin with Some (VObj r) => r | _ => [] end in
                         flat_map (λ childField,
                           (fix at_ (m : data) : list ValidationIssue :=
                              match m with
                              | [] => []
                              | (k, w) :: m =>
                                  if decide (k = fd_name childField)
                                  then origin_rows w childField (vget (fd_name childField) existingRow) path else at_ m
                              end) m) (child_fields child) ++ each (S index) (seen ++ [origin]) rows
                   end
                 else each (S index) seen rows
             | _ => each (S index) seen rows
             end
         end) 0 [] rows
  | _, _ => []
  end.

(** [childTableOriginIssues(doctype, patch, existingData, relatedDocType)]. *)
Definition childTableOriginIssues (doctype : DocTypeDefinition) (patch existingData : data) : list ValidationIssue :=
  flat_map (λ field, origin_rows (vget (fd_name field) patch) field (vget (fd_name field) existingData) [])
    (child_fields doctype).

(** The read-only values that a row keeps from the row it comes from. *)
Definition preserve_row (child : DocTypeDefinition) (existingRow normalized : data) : data :=
  foldl (λ preserved childField,
    if negb (jm_has (fd_name childField) preserved) && jm_has (fd_name childField) existingRow
    then jm_set (fd_name childField) (vget (fd_name childField) existingRow) preserved else preserved)
    normalized (filter (λ childField, fd_readOnly childField = true) (dt_fields child)).

(** A table field that names a child doctype. *)
Definition table_target (field : option FieldDefinition) : option jstr :=
  match field with
  | Some f => if bool_decide (fd_type f = FTable) then
      match fd_tableOf f with Some t => if bool_decide (t = []) then None else Some t | None => None end else None
  | None => None
  end.

(** The value of a field, with the rows of a table normalized. *)
Fixpoint normalize_value (v : value) (field : option FieldDefinition) (existingValue : value) {struct v} : value :=
  match v, table_target field with
  | VArr rows, Some target =>
      match relatedDocType target with
      | None => VArr ((λ row, VObj (stripChildRowInternalFields row)) <$> rows)
      | Some child =>
          VArr ((fix each (rows : list value) : list value :=
             match rows with
             | [] => []
             | row :: rows =>
                 match row with
                 | VObj m =>
                     let existingRow := match childRowOriginIndex (vget CHILD_TABLE_ROW_INDEX_FIELD m), existingValue with
                       | Some origin, VArr existingRows =>
                           match existingRows !! origin with Some (VObj r) => Some r | _ => None end
                       | _, _ => None
                       end in
                     let normalized := (fix entries (m : data) : data :=
                       match m with
                       | [] => []
                       | (k, w) :: m =>
                           if decide (k = CHILD_TABLE_ROW_INDEX_FIELD) then entries m
                           else (k, normalize_value w (find_field child k) (vget k (default [] existingRow))) :: entries m
                       end) m in
                     VObj (match existingRow with Some r => preserve_row child r normalized | None => normalized end)
                 | _ => row
                 end :: each rows
             end) rows)
      end
  | _, _ => v
  end.

(** [normalizeTableFields(doctype, data, existingData, relatedDocType)]. *)
Definition normalizeTableFields (doctype : DocTypeDefinition) (d : data) (existingData : option data) : data :=
  (λ kv, (kv.1, normalize_value kv.2 (find_field doctype kv.1) (vget kv.1 (default [] existingData)))) <$> d.

(** [preserveReadOnlyTableValues(doctype, patch, existing, relatedDocType)] and
    [stripInternalTableFields(doctype, data, relatedDocType)]. *)
Definition preserveReadOnlyTableValues (doctype : DocTypeDefinition) (patch : data) (existing : DocumentSnapshot) : data :=
  normalizeTableFields doctype patch (Some (ds_data existing)).
Definition stripInternalTableFields (doctype : DocTypeDefinition) (d : data) : data :=
  normalizeTableFields doctype d None.

(** ** Copies *)

(** Whether a copy keeps a field. *)
Definition copied (doctype : DocTypeDefinition) (skipNoCopy : bool) (fieldName : jstr) : bool :=
  negb (bool_decide (fieldName ∈ nwd_stateField <$> default [] (dt_workflows doctype))) &&
  negb (existsb (λ field, bool_decide (fd_name field = fieldName) && (fd_readOnly field || skipNoCopy && fd_noCopy field))
    (dt_fields doctype)).

Fixpoint copy_value (skipNoCopy : bool) (v : value) (field : option FieldDefinition) {struct v} : value :=
  match v, table_target field with
  | VArr rows, Some target =>
      match relatedDocType target with
      | None => VArr ((λ row, VObj (stripChildRowInternalFields row)) <$> rows)
      | Some child =>
          VArr ((fix each (rows : list value) : list value :=
             match rows with
             | [] => []
             | row :: rows =>
                 match row with
                 | VObj m =>
                     VObj ((fix entries (m : data) : data :=
                       match m with
                       | [] => []
                       | (k, w) :: m =>
                           if negb (bool_decide (k = CHILD_TABLE_ROW_INDEX_FIELD)) && negb (is_undefined w) &&
                              copied child skipNoCopy k
                           then (k, copy_value skipNoCopy w (find_field child k)) :: entries m else entries m
                       end) m)
                 | _ => row
                 end :: each rows
             end) rows)
      end
  | _, _ => v
  end.

(** [copyDocumentData(doctype, data, relatedDocType, { skipNoCopy })]. *)
Definition copyDocumentData (doctype : DocTypeDefinition) (d : data) (skipNoCopy : bool) : data :=
  (λ kv, (kv.1, copy_value skipNoCopy kv.2 (find_field doctype kv.1))) <$>
  filter (λ kv, copied doctype skipNoCopy kv.1 = true) d.
End policy.

(** ** What accepted changes leave *)

(** Doctypes are defined with distinct field names. *)
Definition distinct_fields (doctype : DocTypeDefinition) : Prop := NoDup (fd_name <$> dt_fields doctype).

Lemma find_unique {A} (key : A → jstr) (l : list A) (x : A) :
  NoDup (key <$> l) → x ∈ l → List.find (λ y, bool_decide (key y = key x)) l = Some x.
Proof.
  induction l as [|y l IH]; [by intros _ ?%elem_of_nil|]. intros [Hy Hn]%NoDup_cons Hx. cbn [List.find].
  case_bool_decide as E.
  - apply elem_of_cons in Hx as [->|Hx]; [done|]. destruct Hy. rewrite E. by apply list_elem_of_fmap_2.
  - apply elem_of_cons in Hx as [->|Hx]; [done|]. by apply IH.
Qed.

Lemma fields_get_elem doctype field :
  distinct_fields doctype → field ∈ dt_fields doctype → fields_get doctype (fd_name field) = Some field.
Proof.
  intros Hd Hin. unfold fields_get. apply (find_unique fd_name).
  - by rewrite <-(Permutation_rev (dt_fields doctype)).
  - by rewrite <-Permutation_rev.
Qed.

Lemma find_field_elem doctype field :
  distinct_fields doctype → field ∈ dt_fields doctype → find_field doctype (fd_name field) = Some field.
Proof. intros. by apply (find_unique fd_name). Qed.

(** The properties of a document after a change. *)
Lemma change_get d patch unset next k :
  jm_wf d → jm_wf patch → applyDocumentDataChange d patch unset = Ok next →
  jm_get k next = if decide (k ∈ unset) then None
                  else match jm_get k patch with Some v => Some v | None => jm_get k d end.
Proof.
  intros Hd Hp E. unfold applyDocumentDataChange in E. step_ok E as d' Hd'. step_ok E as p' Hp'.
  apply cloneData_ok in Hd' as [_ ->]. apply cloneData_ok in Hp' as [_ ->]. injection E as <-.
  assert (Hun : ∀ l (m : data), jm_wf m → jm_get k (foldl (λ next field, jm_delete field next) m l) =
    if decide (k ∈ l) then None else jm_get k m).
  { induction l as [|f l IH]; intros m Hm; cbn [foldl]; [rewrite decide_False; [done|apply not_elem_of_nil]|].
    rewrite IH by (by apply jm_wf_delete). destruct (decide (k ∈ l)) as [Hin|Hin].
    - rewrite decide_True; [done|by right].
    - destruct (decide (k = f)) as [->|Hne].
      + rewrite jm_get_delete_eq by done. rewrite decide_True; [done|by left].
      + rewrite jm_get_delete_ne by done. rewrite decide_False; [done|]. by intros [?|?]%elem_of_cons. }
  rewrite Hun by (by apply jm_wf_spread). destruct (decide (k ∈ unset)); [done|]. by apply jm_get_spread.
Qed.

Lemma change_json d patch unset next :
  applyDocumentDataChange d patch unset = Ok next → isJsonData d = true ∧ isJsonData patch = true.
Proof.
  intros E. unfold applyDocumentDataChange in E. step_ok E as d' Hd'. step_ok E as p' Hp'.
  apply cloneData_ok in Hd' as [? _]. by apply cloneData_ok in Hp' as [? _].
Qed.

Lemma json_defined d k v : isJsonData d = true → jm_get k d = Some v → is_undefined v = false.
Proof. rewrite isJsonData_forallb, forallb_In. intros Hj E%jm_get_elem_1. apply Hj in E. by destruct v. Qed.

Lemma jm_has_get k (d : data) : jm_has k d = match jm_get k d with Some _ => true | None => false end.
Proof. done. Qed.

Section accepted.
Context (host : predicate_host) (relatedDocType : jstr → option DocTypeDefinition) (doctype : DocTypeDefinition).

(** What no issue about unset fields means. *)
Lemma unset_issues_nil unset d patch field :
  documentUnsetIssues doctype unset d patch = [] → field ∈ unset →
  jm_has field patch = false ∧
  match fields_get doctype field with
  | Some f => fd_required f = false ∧ fd_readOnly f = false
  | None => jm_has field d = true
  end.
Proof.
  unfold documentUnsetIssues. rewrite flat_map_nil. intros H Hin. specialize (H field Hin).
  rewrite !app_nil in H. destruct H as (H1 & H2 & H3 & H4).
  destruct (jm_has field patch); [done|]. split; [done|].
  destruct (fields_get doctype field) as [f|].
  - destruct (fd_required f), (fd_readOnly f); done.
  - by destruct (jm_has field d).
Qed.

(** A doctype without fields that a condition makes mandatory. *)
Definition unconditional : Prop := ∀ field, field ∈ dt_fields doctype → fd_mandatoryDependsOn field = None.

Lemma mandatory_required d field :
  unconditional → field ∈ dt_fields doctype → mandatory host relatedDocType doctype d field = fd_required field.
Proof. intros Hu Hin. unfold mandatory, mandatory_by_dependency. by rewrite Hu, orb_false_r. Qed.

(** A well-typed document stays well typed under an accepted patch. *)
Lemma change_data_ok d patch unset next :
  distinct_fields doctype → unconditional → vwf (VObj d) → vwf (VObj patch) →
  data_ok host relatedDocType doctype d →
  validateDocumentData host doctype patch (patch_options relatedDocType) = [] →
  documentUnsetIssues doctype unset d patch = [] →
  applyDocumentDataChange d patch unset = Ok next → data_ok host relatedDocType doctype next.
Proof.
  intros Hdist Hun Hwd Hwp Hok Hv Hu Hnext.
  pose proof (λ k, change_get d patch unset next k (proj1 (proj1 (vwf_obj d) Hwd)) (proj1 (proj1 (vwf_obj patch) Hwp)) Hnext) as Hget.
  destruct (change_json _ _ _ _ Hnext) as [_ Hjp].
  destruct (patch_issues_nil host relatedDocType doctype patch Hwp Hv) as [Hknown Hpatch].
  inversion Hok as [? ? Hk Hm Ht]; subst. rewrite unknown_issues_nil in Hknown.
  assert (Hcase : ∀ field, field ∈ dt_fields doctype → fd_required field = true ∨ missing field (vget (fd_name field) next) = false →
    missing field (vget (fd_name field) next) = false ∧ value_ok host relatedDocType field (vget (fd_name field) next)).
  { intros field Hin Hor. unfold vget in Hor |- *. rewrite Hget in Hor |- *. case_decide as Hunset.
    - exfalso. destruct Hor as [Hr|]; [|done]. apply (unset_issues_nil unset d patch) in Hunset as [_ Hf]; [|done].
      rewrite fields_get_elem in Hf by done. destruct Hf. congruence.
    - destruct (jm_get (fd_name field) patch) as [w|] eqn:Hw.
      + destruct (Hpatch field Hin) as [Hreq Hty]; [unfold vget; rewrite Hw; by eapply json_defined|].
        unfold vget in Hreq, Hty. rewrite Hw in Hreq, Hty. cbn [default] in *. destruct Hor as [Hr|Hr]; auto.
      + fold (vget (fd_name field) d) in Hor |- *. destruct Hor as [Hr|Hr]; [|auto].
        assert (missing field (vget (fd_name field) d) = false) by (apply Hm; [done|]; by rewrite mandatory_required).
        auto. }
  constructor.
  - intros Hall k Hin. apply jm_has_elem in Hin. rewrite jm_has_get, Hget in Hin. case_decide; [done|].
    destruct (jm_get k patch) as [w|] eqn:Hw; [apply Hknown|apply Hk]; try done; apply jm_has_elem; by rewrite jm_has_get, ?Hw.
  - intros field Hin Hreq. apply Hcase; [done|left]. by rewrite mandatory_required in Hreq.
  - intros field Hin Hp. apply Hcase; [done|by right].
Qed.
(** The state of a workflow moves only as authorized. *)
Lemma change_workflow_state d patch unset authorized next workflow :
  vwf (VObj d) → vwf (VObj patch) → workflow ∈ default [] (dt_workflows doctype) →
  workflowStateMutationIssues doctype patch unset authorized = [] →
  applyDocumentDataChange d patch unset = Ok next →
  vget (nwd_stateField workflow) next = vget (nwd_stateField workflow) d ∨
  jm_has (nwd_stateField workflow) authorized = true ∧
  strict_equal (vget (nwd_stateField workflow) next) (vget (nwd_stateField workflow) authorized) = true.
Proof.
  intros Hwd Hwp Hin Hiss Hnext. unfold workflowStateMutationIssues in Hiss. rewrite flat_map_nil in Hiss.
  specialize (Hiss workflow Hin). cbv zeta in Hiss.
  pose proof (change_get d patch unset next (nwd_stateField workflow) (proj1 (proj1 (vwf_obj d) Hwd))
    (proj1 (proj1 (vwf_obj patch) Hwp)) Hnext) as Hget.
  unfold vget at 1 3. rewrite Hget. rewrite jm_has_get in Hiss. revert Hiss. unfold vget.
  case_bool_decide as Hu; case_decide; try done.
  - by destruct (jm_get _ patch).
  - destruct (jm_get _ patch) as [w|]; [|by left]. cbn [negb andb]. intros Hs.
    destruct (jm_has (nwd_stateField workflow) authorized); [|done]. right. split; [done|].
    cbn [andb default] in Hs |- *. by destruct (strict_equal _ _).
Qed.

(** A read-only field keeps its value: one that is declared read-only, and one that
    its condition makes so on the resulting document.  The patch that is checked may
    differ from the one that is applied, but not on whether it has the field. *)
Lemma change_readonly d checked patch unset next field :
  distinct_fields doctype → vwf (VObj d) → vwf (VObj patch) → field ∈ dt_fields doctype →
  jm_has (fd_name field) checked = jm_has (fd_name field) patch →
  own_readonly_issues host doctype checked next unset = [] →
  documentUnsetIssues doctype unset d patch = [] →
  applyDocumentDataChange d patch unset = Ok next →
  fieldIsReadOnlyForData host doctype field next = true →
  vget (fd_name field) next = vget (fd_name field) d.
Proof.
  intros Hdist Hwd Hwp Hin Hsame Hro Hun Hnext Hr. unfold own_readonly_issues in Hro. cbv zeta in Hro.
  apply app_nil in Hro as [Hp Hu]. unfold patch_readonly_issues in Hp. unfold unset_readonly_issues in Hu.
  rewrite flat_map_nil in Hp, Hu. unfold fieldIsReadOnlyForData in Hr.
  assert (jm_get (fd_name field) patch = None) as Hnp.
  { destruct (jm_get (fd_name field) patch) as [w|] eqn:Hw; [|done]. exfalso.
    assert (fd_name field ∈ jm_keys checked) as Hk by (apply jm_has_elem; by rewrite Hsame, jm_has_get, Hw).
    specialize (Hp _ Hk). rewrite fields_get_elem in Hp by done. by rewrite Hr in Hp. }
  unfold vget. rewrite (change_get d patch unset next (fd_name field) (proj1 (proj1 (vwf_obj d) Hwd))
    (proj1 (proj1 (vwf_obj patch) Hwp)) Hnext), Hnp. case_decide as Hunset; [|done]. exfalso.
  destruct (unset_issues_nil unset d patch (fd_name field) Hun Hunset) as [Hhas Hf].
  rewrite fields_get_elem in Hf by done. destruct Hf as [_ Hdecl].
  rewrite <-Hsame in Hhas.
  assert (fd_name field ∈ filter (λ fieldName, jm_has fieldName checked = false) unset) as Hk by (by apply list_elem_of_filter).
  specialize (Hu _ Hk). rewrite fields_get_elem, Hdecl in Hu by done. unfold fieldIsReadOnly in Hr. rewrite Hdecl in Hr.
  cbn [negb orb andb] in Hr, Hu. by rewrite Hr in Hu.
Qed.

(** After submission only the fields that allow it change. *)
Lemma change_submitted d patch unset next field :
  distinct_fields doctype → vwf (VObj d) → vwf (VObj patch) → field ∈ dt_fields doctype →
  allowOnSubmitIssues doctype patch unset = [] → applyDocumentDataChange d patch unset = Ok next →
  fd_allowOnSubmit field = false → vget (fd_name field) next = vget (fd_name field) d.
Proof.
  intros Hdist Hwd Hwp Hin Hiss Hnext Ha. unfold allowOnSubmitIssues in Hiss. rewrite flat_map_nil in Hiss.
  assert (Hnot : fd_name field ∉ js_unique (jm_keys patch ++ unset)).
  { intros Hk. specialize (Hiss _ Hk). rewrite fields_get_elem in Hiss by done. by rewrite Ha in Hiss. }
  rewrite js_unique_elem, elem_of_app in Hnot. unfold vget.
  rewrite (change_get d patch unset next (fd_name field) (proj1 (proj1 (vwf_obj d) Hwd)) (proj1 (proj1 (vwf_obj patch) Hwp)) Hnext).
  rewrite decide_False by naive_solver. assert (jm_get (fd_name field) patch = None) as ->; [|done].
  apply jm_get_None. naive_solver.
Qed.
End accepted.

(** ** Rows and copies *)

(** The rows of a table value, one by one. *)
Definition normalize_row (related : jstr → option DocTypeDefinition) (child : DocTypeDefinition) (existingValue row : value)
    : value :=
  match row with
  | VObj m =>
      let existingRow := match childRowOriginIndex (vget CHILD_TABLE_ROW_INDEX_FIELD m), existingValue with
        | Some origin, VArr existingRows => match existingRows !! origin with Some (VObj r) => Some r | _ => None end
        | _, _ => None
        end in
      let normalized := normalizeTableFields related child (strip_index m) existingRow in
      VObj (match existingRow with Some r => preserve_row child r normalized | None => normalized end)
  | _ => row
  end.

Lemma normalize_value_rows related field target child rows existingValue :
  table_target field = Some target → related target = Some child →
  normalize_value related (VArr rows) field existingValue = VArr (normalize_row related child existingValue <$> rows).
Proof.
  intros Ht Hc. cbn [normalize_value]. rewrite Ht, Hc. f_equal. induction rows as [|row rows IH]; [done|].
  rewrite fmap_cons, <-IH. f_equal. destruct row as [| | | | | |m]; try done. cbn [normalize_row]. f_equal.
  set (existingRow := match childRowOriginIndex _ with Some _ => _ | None => _ end).
  assert (Hn : (fix entries (m : data) : data :=
      match m with
      | [] => []
      | (k, w) :: m =>
          if decide (k = CHILD_TABLE_ROW_INDEX_FIELD) then entries m
          else (k, normalize_value related w (find_field child k) (vget k (default [] existingRow))) :: entries m
      end) m = normalizeTableFields related child (strip_index m) existingRow); [|by rewrite Hn].
  unfold normalizeTableFields, strip_index. clearbody existingRow. clear. induction m as [|[k w] m IH]; [done|].
  rewrite filter_cons. cbn [fst]. destruct (decide (k = CHILD_TABLE_ROW_INDEX_FIELD)) as [->|Hne].
  - destruct (decide (CHILD_TABLE_ROW_INDEX_FIELD ≠ CHILD_TABLE_ROW_INDEX_FIELD)); [done|apply IH].
  - destruct (decide (k ≠ CHILD_TABLE_ROW_INDEX_FIELD)); [|done]. rewrite fmap_cons. by rewrite IH.
Qed.

Lemma preserve_row_get child r m field :
  distinct_fields child → field ∈ dt_fields child → fd_readOnly field = true →
  jm_has (fd_name field) m = false → jm_has (fd_name field) r = true →
  vget (fd_name field) (preserve_row child r m) = vget (fd_name field) r.
Proof.
  intros Hd Hin Hr Hm Hh. unfold preserve_row.
  assert (Hin' : field ∈ filter (λ f, fd_readOnly f = true) (dt_fields child)) by (by apply list_elem_of_filter).
  assert (Hd' : NoDup (fd_name <$> filter (λ f, fd_readOnly f = true) (dt_fields child))).
  { unfold distinct_fields in Hd. revert Hd. generalize (dt_fields child) as l. clear. induction l as [|x l IH]; [done|].
    intros [Hx Hn]%NoDup_cons. rewrite filter_cons. case_decide; [|by apply IH]. apply NoDup_cons. split; [|by apply IH].
    intros (y & Hy & Hin)%list_elem_of_fmap. apply list_elem_of_filter in Hin as [_ Hin]. apply Hx. rewrite Hy.
    by apply list_elem_of_fmap_2. }
  revert Hin' Hd' m Hm. generalize (filter (λ f, fd_readOnly f = true) (dt_fields child)) as l.
  induction l as [|x l IH]; [by intros ?%elem_of_nil|]. intros Hin' [Hx Hn]%NoDup_cons m Hm. cbn [foldl].
  assert (Hkeep : ∀ l m, fd_name field ∉ fd_name <$> l → vget (fd_name field)
    (foldl (λ preserved f, if negb (jm_has (fd_name f) preserved) && jm_has (fd_name f) r
       then jm_set (fd_name f) (vget (fd_name f) r) preserved else preserved) m l) = vget (fd_name field) m).
  { clear. induction l as [|y l IH]; intros m Hy; [done|]. rewrite fmap_cons, not_elem_of_cons in Hy. cbn [foldl].
    rewrite IH by naive_solver. destruct (_ && _); [|done]. unfold vget. by rewrite jm_get_set_ne by naive_solver. }
  apply elem_of_cons in Hin' as [<-|Hin'].
  - rewrite Hm, Hh. cbn [negb andb]. rewrite Hkeep by done. unfold vget at 1. by rewrite jm_get_set_eq.
  - apply IH; [done|done|]. destruct (_ && _); [|done]. rewrite jm_has_get, jm_get_set_ne; [by rewrite <-jm_has_get|].
    intros E. apply Hx. rewrite <-E. by apply list_elem_of_fmap_2.
Qed.

(** A row that comes from an existing row keeps the read-only values that it does
    not set itself. *)
Lemma normalize_row_keeps related child existingRows m origin r field :
  distinct_fields child → field ∈ dt_fields child → fd_readOnly field = true →
  fd_name field ≠ CHILD_TABLE_ROW_INDEX_FIELD →
  childRowOriginIndex (vget CHILD_TABLE_ROW_INDEX_FIELD m) = Some origin → existingRows !! origin = Some (VObj r) →
  jm_has (fd_name field) m = false → jm_has (fd_name field) r = true →
  ∃ m', normalize_row related child (VArr existingRows) (VObj m) = VObj m' ∧
    vget (fd_name field) m' = vget (fd_name field) r.
Proof.
  intros Hd Hin Hr Hne Ho Hrow Hm Hh. cbn [normalize_row]. rewrite Ho, Hrow. cbv zeta. eexists. split; [done|].
  apply (preserve_row_get child r _ field); try done. apply not_true_is_false. intros Hin'%jm_has_elem.
  unfold normalizeTableFields in Hin'.
  apply list_elem_of_fmap in Hin' as (kv & Hk & Hkv). apply list_elem_of_fmap in Hkv as (kv' & -> & Hkv).
  apply list_elem_of_filter in Hkv as [_ Hkv]. cbn [fst] in Hk.
  assert (jm_has kv'.1 m = true) by (apply jm_has_elem; by apply list_elem_of_fmap_2). congruence.
Qed.

(** A copy holds exactly the fields it may carry over. *)
Lemma copyDocumentData_get related doctype d skipNoCopy k :
  jm_get k (copyDocumentData related doctype d skipNoCopy) =
  if copied doctype skipNoCopy k
  then (λ v, copy_value related skipNoCopy v (find_field doctype k)) <$> jm_get k d else None.
Proof.
  unfold copyDocumentData. induction d as [|[k' v] d IH]; [by destruct (copied _ _ _)|].
  rewrite filter_cons. cbn [fst]. destruct (decide (copied doctype skipNoCopy k' = true)) as [Hc|Hc].
  - rewrite fmap_cons. cbn [jm_get fst snd]. destruct (decide (k = k')) as [->|]; [by rewrite Hc|apply IH].
  - rewrite IH. cbn [jm_get]. destruct (decide (k = k')) as [->|]; [|done]. by destruct (copied _ _ _).
Qed.
