(* ===== verification/AutomationRun.v ===== *)
(** * AutomationRun: the life of one automation run

    Models [application/automation-run-events.ts] (the events of a run's stream,
    the fold, the snapshot of a record and its reading) and
    [application/automation-run-policy.ts] (limits, leases, retries, what can be
    claimed).  Times are ISO strings, compared as strings as the code does; the
    arithmetic of [Date] is an argument of the model, the text of a number,
    array or object the host's. *)

From S2P Require Export Predicates Fold.

Inductive AutomationRunStatus := RunPending | RunClaimed | RunDelivered | RunFailed | RunDead.
#[export] Instance AutomationRunStatus_eq_dec : EqDecision AutomationRunStatus.
Proof. solve_decision. Defined.

(** [AutomationRunRecord]: the fields of the enqueued payload, then the state. *)
Record AutomationRunRecord := {
  ar_enqueued : AutomationRunEnqueued;
  ar_tenantId : jstr;
  ar_status : AutomationRunStatus;
  ar_attempts : Z;
  ar_enqueuedAt : jstr;
  ar_claimedAt : option jstr;
  ar_claimId : option jstr;
  ar_claimExpiresAt : option jstr;
  ar_deliveredAt : option jstr;
  ar_failedAt : option jstr;
  ar_error : option jstr;
  ar_retryAt : option jstr;
  ar_deadLetteredAt : option jstr;
  ar_version : Z
}.

Definition ar_id (r : AutomationRunRecord) : jstr := are_runId (ar_enqueued r).
Definition ar_retry (r : AutomationRunRecord) : AutomationRunRetryPolicy := are_retry (ar_enqueued r).

Definition AUTOMATION_RUN_PAYLOAD_KINDS : list jstr :=
  [js "AutomationRunEnqueued"; js "AutomationRunClaimed"; js "AutomationRunDelivered";
   js "AutomationRunFailed"; js "AutomationRunDeadLettered"; js "AutomationRunSuppressed"].

(** The run an event of the family speaks of. *)
Definition run_of (p : payload) : option jstr :=
  match p with
  | PRunEnqueued r => Some (are_runId r)
  | PRunClaimed runId _ _ | PRunDelivered runId _ | PRunFailed runId _ _ _
  | PRunDeadLettered runId _ _ | PRunSuppressed runId _ => Some runId
  | _ => None
  end.

(** [isAutomationRunEvent(event)]. *)
Definition isAutomationRunEvent (event : DomainEvent) : bool :=
  match run_of (e_payload event) with Some _ => true | None => false end.

(** [automationRunEvent(options)]; the payload carries a run id. *)
Definition automationRunEvent (id tenantId stream actorId occurredAt : jstr) (p : payload)
    (metadata : option data) : NewDomainEvent :=
  {| e_id := id; e_tenantId := tenantId; e_stream := stream; e_type := payload_kind p;
     e_doctype := js "__AutomationRuns"; e_documentName := default [] (run_of p); e_actorId := actorId;
     e_occurredAt := occurredAt; e_payload := p; e_metadata := default [] metadata |}.

(** The record of an enqueued run. *)
Definition pending_run (tenantId : jstr) (r : AutomationRunEnqueued) (event : DomainEvent) : AutomationRunRecord :=
  {| ar_enqueued := r; ar_tenantId := tenantId; ar_status := RunPending; ar_attempts := 0;
     ar_enqueuedAt := e_occurredAt event; ar_claimedAt := None; ar_claimId := None;
     ar_claimExpiresAt := None; ar_deliveredAt := None; ar_failedAt := None; ar_error := None;
     ar_retryAt := None; ar_deadLetteredAt := None; ar_version := e_sequence event |}.

(** [applyAutomationRunEvent(record, event)]. *)
Definition applyAutomationRunEvent (r : AutomationRunRecord) (event : DomainEvent) : AutomationRunRecord :=
  let base := {| ar_enqueued := ar_enqueued r; ar_tenantId := ar_tenantId r; ar_status := ar_status r;
    ar_attempts := ar_attempts r; ar_enqueuedAt := ar_enqueuedAt r; ar_claimedAt := ar_claimedAt r;
    ar_claimId := ar_claimId r; ar_claimExpiresAt := ar_claimExpiresAt r;
    ar_deliveredAt := ar_deliveredAt r; ar_failedAt := ar_failedAt r; ar_error := ar_error r;
    ar_retryAt := ar_retryAt r; ar_deadLetteredAt := ar_deadLetteredAt r;
    ar_version := e_sequence event |} in
  match e_payload event with
  | PRunClaimed _ claimId claimExpiresAt =>
      {| ar_enqueued := ar_enqueued base; ar_tenantId := ar_tenantId base; ar_status := RunClaimed;
         ar_attempts := ar_attempts base + 1; ar_enqueuedAt := ar_enqueuedAt base;
         ar_claimedAt := Some (e_occurredAt event); ar_claimId := Some claimId;
         ar_claimExpiresAt := Some claimExpiresAt; ar_deliveredAt := ar_deliveredAt base;
         ar_failedAt := ar_failedAt base; ar_error := None; ar_retryAt := None;
         ar_deadLetteredAt := ar_deadLetteredAt base; ar_version := ar_version base |}
  | PRunDelivered _ claimId =>
      {| ar_enqueued := ar_enqueued base; ar_tenantId := ar_tenantId base; ar_status := RunDelivered;
         ar_attempts := ar_attempts base; ar_enqueuedAt := ar_enqueuedAt base;
         ar_claimedAt := ar_claimedAt base; ar_claimId := Some claimId; ar_claimExpiresAt := None;
         ar_deliveredAt := Some (e_occurredAt event); ar_failedAt := ar_failedAt base; ar_error := None;
         ar_retryAt := None; ar_deadLetteredAt := ar_deadLetteredAt base; ar_version := ar_version base |}
  | PRunFailed _ claimId err retryAt =>
      {| ar_enqueued := ar_enqueued base; ar_tenantId := ar_tenantId base; ar_status := RunFailed;
         ar_attempts := ar_attempts base; ar_enqueuedAt := ar_enqueuedAt base;
         ar_claimedAt := ar_claimedAt base; ar_claimId := Some claimId;
         ar_claimExpiresAt := ar_claimExpiresAt base; ar_deliveredAt := ar_deliveredAt base;
         ar_failedAt := Some (e_occurredAt event); ar_error := Some err; ar_retryAt := Some retryAt;
         ar_deadLetteredAt := ar_deadLetteredAt base; ar_version := ar_version base |}
  | PRunDeadLettered _ claimId err =>
      {| ar_enqueued := ar_enqueued base; ar_tenantId := ar_tenantId base; ar_status := RunDead;
         ar_attempts := ar_attempts base; ar_enqueuedAt := ar_enqueuedAt base;
         ar_claimedAt := ar_claimedAt base; ar_claimId := Some claimId; ar_claimExpiresAt := None;
         ar_deliveredAt := ar_deliveredAt base; ar_failedAt := ar_failedAt base; ar_error := Some err;
         ar_retryAt := None; ar_deadLetteredAt := Some (e_occurredAt event); ar_version := ar_version base |}
  | PRunSuppressed _ err =>
      {| ar_enqueued := ar_enqueued base; ar_tenantId := ar_tenantId base; ar_status := RunDead;
         ar_attempts := ar_attempts base; ar_enqueuedAt := ar_enqueuedAt base;
         ar_claimedAt := ar_claimedAt base; ar_claimId := ar_claimId base; ar_claimExpiresAt := None;
         ar_deliveredAt := ar_deliveredAt base; ar_failedAt := ar_failedAt base; ar_error := Some err;
         ar_retryAt := None; ar_deadLetteredAt := Some (e_occurredAt event); ar_version := ar_version base |}
  | _ => r
  end.

(** One iteration of the loop of [foldAutomationRunFrom]. *)
Definition foldRunStep (tenantId : jstr) (record : option AutomationRunRecord) (event : DomainEvent)
    : option AutomationRunRecord :=
  if negb (isAutomationRunEvent event) then record
  else match e_payload event with
  | PRunEnqueued r => Some (pending_run tenantId r event)
  | _ => match record with
      | None => None
      | Some record => Some (applyAutomationRunEvent record event)
      end
  end.

(** [foldAutomationRunFrom(initial, tenantId, events)]. *)
Definition foldAutomationRunFrom (initial : option AutomationRunRecord) (tenantId : jstr)
    (events : list DomainEvent) : option AutomationRunRecord :=
  foldl (foldRunStep tenantId) initial (sort_events events).

Definition foldAutomationRun (tenantId : jstr) (events : list DomainEvent) : option AutomationRunRecord :=
  foldAutomationRunFrom None tenantId events.

(** ** Policy *)

Definition AUTOMATION_RUN_DEFAULT_CLAIM_LIMIT : Z := 25.
Definition AUTOMATION_RUN_MAX_CLAIM_LIMIT : Z := 100.
Definition AUTOMATION_RUN_DEFAULT_CLAIM_LEASE_SECONDS : Z := 300.
Definition AUTOMATION_RUN_MAX_CLAIM_LEASE_SECONDS : Z := 3600.
Definition AUTOMATION_RUN_DEFAULT_MAX_ATTEMPTS : Z := 10.
Definition AUTOMATION_RUN_DEFAULT_RETRY_BASE_DELAY_SECONDS : Z := 30.
Definition AUTOMATION_RUN_DEFAULT_RETRY_MAX_DELAY_SECONDS : Z := 1800.

Definition automationRunClaimLimit (limit : option Z) : res Z :=
  match limit with
  | None => Ok AUTOMATION_RUN_DEFAULT_CLAIM_LIMIT
  | Some l => _ ← ensure (negb (negb (is_safe_integer l) || (l <? 1)%Z || (AUTOMATION_RUN_MAX_CLAIM_LIMIT <? l)%Z))
                    badRequest; Ok l
  end.

Definition automationRunClaimLeaseSeconds (v : option Z) : res Z :=
  match v with
  | None => Ok AUTOMATION_RUN_DEFAULT_CLAIM_LEASE_SECONDS
  | Some l => _ ← ensure (negb (negb (is_safe_integer l) || (l <? 1)%Z ||
                                (AUTOMATION_RUN_MAX_CLAIM_LEASE_SECONDS <? l)%Z)) badRequest; Ok l
  end.

Definition automationRunFailureError (err : jstr) : res jstr :=
  let normalized := trim err in
  _ ← ensure (negb (bool_decide (normalized = []))) badRequest; Ok normalized.

(** The delay of [automationRunRetryAt], in seconds.  The product by a power of
    two is exact in a double until it overflows to infinity, far above any
    [maxDelaySeconds]. *)
Definition retry_delay (attempts baseDelaySeconds maxDelaySeconds : Z) : Z :=
  Z.min maxDelaySeconds (baseDelaySeconds * 2 ^ Z.max 0 (attempts - 1)).

(** [new Date(Date.parse(now) + seconds * 1000).toISOString()]. *)
Class DateHost := iso_after : jstr → Z → jstr.

Definition automationRunRetryAt `{DateHost} (now : jstr) (attempts baseDelaySeconds maxDelaySeconds : Z) : jstr :=
  iso_after now (retry_delay attempts baseDelaySeconds maxDelaySeconds).

Definition automationRunRetryDue (r : AutomationRunRecord) (now : jstr) : bool :=
  match ar_retryAt r with None => true | Some retryAt => jstr_leb retryAt now end.

Definition automationRunClaimExpired (r : AutomationRunRecord) (now : jstr) : bool :=
  bool_decide (ar_status r = RunClaimed) &&
  match ar_claimExpiresAt r with Some expires => jstr_leb expires now | None => false end.

(** The filter of [claimableAutomationRuns]. *)
Definition run_claimable (now : jstr) (r : AutomationRunRecord) : bool :=
  bool_decide (ar_status r = RunPending) ||
  bool_decide (ar_status r = RunFailed) && automationRunRetryDue r now ||
  automationRunClaimExpired r now.

(** By [enqueuedAt], then by [id], in the host's collation. *)
Definition run_leb `{Collation} (left right : AutomationRunRecord) : bool :=
  if collation_leb (ar_enqueuedAt left) (ar_enqueuedAt right) then
    if collation_leb (ar_enqueuedAt right) (ar_enqueuedAt left) then collation_leb (ar_id left) (ar_id right)
    else true
  else false.

Definition sortedAutomationRunRecords `{Collation} (records : list AutomationRunRecord)
    : list AutomationRunRecord := isort run_leb records.

(** [claimableAutomationRuns(records, now, limit)]; the limit is positive. *)
Definition claimableAutomationRuns `{Collation} (records : list AutomationRunRecord) (now : jstr) (limit : Z)
    : list AutomationRunRecord :=
  take (Z.to_nat limit) (isort run_leb (filter (λ r, run_claimable now r = true) records)).

(** [selectedAutomationRunRecords(records, runIds)]. *)
Definition selectedAutomationRunRecords `{Collation} (records : list AutomationRunRecord)
    (runIds : option (list jstr)) : list AutomationRunRecord :=
  match runIds with
  | None => sortedAutomationRunRecords records
  | Some runIds =>
      let byId := jm_of_list ((λ r, (ar_id r, r)) <$> records) in
      omap (λ runId, jm_get runId byId) runIds
  end.

Definition ensureAutomationRunClaimed (r : AutomationRunRecord) (claimId : jstr) : res unit :=
  ensure (bool_decide (ar_status r = RunClaimed) && bool_decide (ar_claimId r = Some claimId)) conflict.

Definition automationRunShouldDeadLetter (r : AutomationRunRecord) : bool :=
  (rp_maxAttempts (ar_retry r) <=? ar_attempts r)%Z.

(** [normalizeAutomationRunRetryPolicy(value)]. *)
Definition normalizeAutomationRunRetryPolicy (maxAttempts baseDelaySeconds maxDelaySeconds : option Z)
    : res AutomationRunRetryPolicy :=
  let maxAttempts := default AUTOMATION_RUN_DEFAULT_MAX_ATTEMPTS maxAttempts in
  let baseDelaySeconds := default AUTOMATION_RUN_DEFAULT_RETRY_BASE_DELAY_SECONDS baseDelaySeconds in
  let maxDelaySeconds := default AUTOMATION_RUN_DEFAULT_RETRY_MAX_DELAY_SECONDS maxDelaySeconds in
  _ ← ensure (is_safe_integer maxAttempts && (1 <=? maxAttempts)%Z) badRequest;
  _ ← ensure (is_safe_integer baseDelaySeconds && (1 <=? baseDelaySeconds)%Z) badRequest;
  _ ← ensure (is_safe_integer maxDelaySeconds && (baseDelaySeconds <=? maxDelaySeconds)%Z) badRequest;
  Ok {| rp_maxAttempts := maxAttempts; rp_baseDelaySeconds := baseDelaySeconds;
        rp_maxDelaySeconds := maxDelaySeconds |}.

(** ** Snapshots of runs *)

Definition run_status_text (s : AutomationRunStatus) : jstr :=
  match s with
  | RunPending => js "pending" | RunClaimed => js "claimed" | RunDelivered => js "delivered"
  | RunFailed => js "failed" | RunDead => js "dead"
  end.

(** The plain objects that a transition, an action and a retry policy are. *)
Definition transition_value (t : TransitionFact) : value :=
  VObj [(js "workflow", VStr (tf_workflow t)); (js "stateField", VStr (tf_stateField t));
        (js "action", VStr (tf_action t)); (js "from", VStr (tf_from t)); (js "to", VStr (tf_to t))].

Definition action_value (a : ResolvedAutomationAction) : value :=
  VObj [(js "kind", vstr "updateDocument");
        (js "target", VObj [(js "doctype", VStr (raa_doctype a)); (js "name", VStr (raa_name a))]);
        (js "patch", VObj (raa_patch a))].

Definition retry_value (p : AutomationRunRetryPolicy) : value :=
  VObj [(js "maxAttempts", vint (rp_maxAttempts p)); (js "baseDelaySeconds", vint (rp_baseDelaySeconds p));
        (js "maxDelaySeconds", vint (rp_maxDelaySeconds p))].

(** [...(value === undefined ? {} : { key: value })]. *)
Definition optional_entry (key : jstr) (v : option value) : data :=
  match v with Some v => [(key, v)] | None => [] end.

(** [automationRunData(record)]. *)
Definition automationRunData (r : AutomationRunRecord) : data :=
  let e := ar_enqueued r in
  [(js "sourceEventId", VStr (are_sourceEventId e));
   (js "sourceEventType", VStr (are_sourceEventType e));
   (js "sourcePayloadKind", VStr (are_sourcePayloadKind e));
   (js "sourceDoctype", VStr (are_sourceDoctype e));
   (js "sourceDocumentName", VStr (are_sourceDocumentName e));
   (js "sourceActorId", VStr (are_sourceActorId e))] ++
  optional_entry (js "workflowName") (VStr <$> are_workflowName e) ++
  optional_entry (js "workflowAction") (VStr <$> are_workflowAction e) ++
  optional_entry (js "workflowTransitions") ((λ l, VArr (transition_value <$> l)) <$> are_workflowTransitions e) ++
  [(js "ruleId", VStr (are_ruleId e));
   (js "ruleName", VStr (are_ruleName e));
   (js "actionId", VStr (are_actionId e));
   (js "action", action_value (are_action e));
   (js "retry", retry_value (are_retry e));
   (js "causationId", VStr (are_causationId e));
   (js "correlationId", VStr (are_correlationId e));
   (js "automationDepth", vint (are_automationDepth e));
   (js "automationPath", VArr (VStr <$> are_automationPath e));
   (js "status", VStr (run_status_text (ar_status r)));
   (js "attempts", vint (ar_attempts r));
   (js "enqueuedAt", VStr (ar_enqueuedAt r))] ++
  optional_entry (js "claimedAt") (VStr <$> ar_claimedAt r) ++
  optional_entry (js "claimId") (VStr <$> ar_claimId r) ++
  optional_entry (js "claimExpiresAt") (VStr <$> ar_claimExpiresAt r) ++
  optional_entry (js "deliveredAt") (VStr <$> ar_deliveredAt r) ++
  optional_entry (js "failedAt") (VStr <$> ar_failedAt r) ++
  optional_entry (js "error") (VStr <$> ar_error r) ++
  optional_entry (js "retryAt") (VStr <$> ar_retryAt r) ++
  optional_entry (js "deadLetteredAt") (VStr <$> ar_deadLetteredAt r).

(** The first of the times that is set. *)
Definition first_set (times : list (option jstr)) (fallback : jstr) : jstr :=
  default fallback (head (omap id times)).

(** [automationRunSnapshot(record)]. *)
Definition automationRunSnapshot (r : AutomationRunRecord) : DocumentSnapshot :=
  {| ds_tenantId := ar_tenantId r; ds_doctype := js "__AutomationRuns"; ds_name := ar_id r;
     ds_version := ar_version r;
     ds_docstatus := match ar_status r with RunDead => Cancelled | RunDelivered => Submitted | _ => Draft end;
     ds_data := automationRunData r; ds_createdAt := ar_enqueuedAt r;
     ds_updatedAt := first_set [ar_deliveredAt r; ar_deadLetteredAt r; ar_failedAt r; ar_claimedAt r]
                       (ar_enqueuedAt r) |}.

Definition plain_error : error := FrameworkError PLAIN_ERROR 500.

(** [typeof value === "string" ? { key: value } : {}]. *)
Definition string_value (v : value) : option jstr := match v with VStr s => Some s | _ => None end.

(** A property of an object that must be a string. *)
Definition required_string (key : jstr) (m : data) : res jstr :=
  match vget key m with VStr s => Ok s | _ => Throw plain_error end.

(** [automationRunWorkflowTransitionsFromData(value)]. *)
Definition automationRunWorkflowTransitionsFromData (v : value) : res (option (list TransitionFact)) :=
  match v with
  | VUndef => Ok None
  | VArr items =>
      transitions ← map_res (λ item, match item with
        | VObj m =>
            workflow ← required_string (js "workflow") m;
            stateField ← required_string (js "stateField") m;
            action ← required_string (js "action") m;
            from ← required_string (js "from") m;
            to ← required_string (js "to") m;
            Ok {| tf_workflow := workflow; tf_stateField := stateField; tf_action := action;
                  tf_from := from; tf_to := to |}
        | _ => Throw plain_error
        end) items;
      Ok (Some transitions)
  | _ => Throw plain_error
  end.

(** [automationRunActionFromData(value)]. *)
Definition automationRunActionFromData (v : value) : res ResolvedAutomationAction :=
  match v with
  | VObj m =>
      _ ← ensure (match vget (js "kind") m with VStr s => bool_decide (s = js "updateDocument") | _ => false end)
            plain_error;
      match vget (js "target") m, vget (js "patch") m with
      | VObj target, VObj patch =>
          doctype ← required_string (js "doctype") target;
          name ← required_string (js "name") target;
          _ ← ensure (forallb (λ kv, isJsonValue kv.2) patch) plain_error;
          Ok {| raa_doctype := doctype; raa_name := name; raa_patch := patch |}
      | _, _ => Throw plain_error
      end
  | _ => Throw plain_error
  end.

(** A property that must be a safe integer. *)
Definition required_safe_integer (key : jstr) (m : data) : res Z :=
  match vget key m with
  | VNum n => match num_safe_integer n with Some z => Ok z | None => Throw plain_error end
  | _ => Throw plain_error
  end.

(** [automationRunRetryFromData(value)]. *)
Definition automationRunRetryFromData (v : value) : res AutomationRunRetryPolicy :=
  match v with
  | VObj m =>
      maxAttempts ← required_safe_integer (js "maxAttempts") m;
      baseDelaySeconds ← required_safe_integer (js "baseDelaySeconds") m;
      maxDelaySeconds ← required_safe_integer (js "maxDelaySeconds") m;
      Ok {| rp_maxAttempts := maxAttempts; rp_baseDelaySeconds := baseDelaySeconds;
            rp_maxDelaySeconds := maxDelaySeconds |}
  | _ => Throw plain_error
  end.

(** [automationPathFromData(value)]. *)
Definition automationPathFromData (v : value) : res (list jstr) :=
  match v with
  | VArr items => map_res (λ item, match item with VStr s => Ok s | _ => Throw plain_error end) items
  | _ => Throw plain_error
  end.

(** [automationRunStatusFromData(value)]. *)
Definition automationRunStatusFromData (v : value) : res AutomationRunStatus :=
  match v with
  | VStr s =>
      if decide (s = js "pending") then Ok RunPending
      else if decide (s = js "claimed") then Ok RunClaimed
      else if decide (s = js "delivered") then Ok RunDelivered
      else if decide (s = js "failed") then Ok RunFailed
      else if decide (s = js "dead") then Ok RunDead
      else Throw plain_error
  | _ => Throw plain_error
  end.

(** [Number(value)] of a count.  A count is an integer here: a snapshot whose
    count is anything else is outside the model and reads as an error. *)
Definition read_count (v : value) : res Z :=
  match v with
  | VNum n => match num_to_Z n with Some z => Ok z | None => Throw plain_error end
  | _ => Throw plain_error
  end.

(** [automationRunRecordFromSnapshot(snapshot)]. *)
Definition automationRunRecordFromSnapshot (host : predicate_host) (snapshot : DocumentSnapshot)
    : res AutomationRunRecord :=
  let d := ds_data snapshot in
  let str key := string_of host (vget key d) in
  let optional key := string_value (vget key d) in
  transitions ← automationRunWorkflowTransitionsFromData (vget (js "workflowTransitions") d);
  action ← automationRunActionFromData (vget (js "action") d);
  retry ← automationRunRetryFromData (vget (js "retry") d);
  depth ← read_count (vget (js "automationDepth") d);
  path ← automationPathFromData (vget (js "automationPath") d);
  status ← automationRunStatusFromData (vget (js "status") d);
  attempts ← read_count (vget (js "attempts") d);
  Ok {| ar_enqueued := {|
          are_runId := ds_name snapshot;
          are_sourceEventId := str (js "sourceEventId"); are_sourceEventType := str (js "sourceEventType");
          are_sourcePayloadKind := str (js "sourcePayloadKind"); are_sourceDoctype := str (js "sourceDoctype");
          are_sourceDocumentName := str (js "sourceDocumentName"); are_sourceActorId := str (js "sourceActorId");
          are_workflowName := optional (js "workflowName"); are_workflowAction := optional (js "workflowAction");
          are_workflowTransitions := transitions;
          are_ruleId := str (js "ruleId"); are_ruleName := str (js "ruleName"); are_actionId := str (js "actionId");
          are_action := action; are_retry := retry;
          are_causationId := str (js "causationId"); are_correlationId := str (js "correlationId");
          are_automationDepth := depth; are_automationPath := path |};
        ar_tenantId := ds_tenantId snapshot; ar_status := status; ar_attempts := attempts;
        ar_enqueuedAt := str (js "enqueuedAt"); ar_claimedAt := optional (js "claimedAt");
        ar_claimId := optional (js "claimId"); ar_claimExpiresAt := optional (js "claimExpiresAt");
        ar_deliveredAt := optional (js "deliveredAt"); ar_failedAt := optional (js "failedAt");
        ar_error := optional (js "error"); ar_retryAt := optional (js "retryAt");
        ar_deadLetteredAt := optional (js "deadLetteredAt"); ar_version := ds_version snapshot |}.

(** ** The snapshot of a run reads back *)

Lemma vget_hit k v m : vget k ((k, v) :: m) = v.
Proof. unfold vget. simpl. by rewrite decide_True. Qed.

Lemma vget_skip k k' v m : k ≠ k' → vget k ((k', v) :: m) = vget k m.
Proof. intros Hk. unfold vget. simpl. by rewrite decide_False. Qed.

Lemma vget_optional_hit k o m : vget k (optional_entry k o ++ m) = default (vget k m) o.
Proof. destruct o; simpl; [apply vget_hit|done]. Qed.

Lemma vget_optional_skip k k' o m : k ≠ k' → vget k (optional_entry k' o ++ m) = vget k m.
Proof. intros Hk. destruct o; simpl; [by apply vget_skip|done]. Qed.

(** Reads a literal key of an object with literal keys. *)
Ltac read_key :=
  repeat first
    [ rewrite vget_hit | rewrite vget_skip by (vm_compute; discriminate)
    | rewrite vget_optional_hit | rewrite vget_optional_skip by (vm_compute; discriminate) ];
  try change (vget _ []) with VUndef.

Lemma map_res_section {A B} (f : A → res B) (g : B → A) l :
  (∀ x, f (g x) = Ok x) → map_res f (g <$> l) = Ok l.
Proof.
  intros Hf. induction l as [|x l IH]; [done|]. rewrite fmap_cons. cbn [map_res].
  rewrite Hf. cbn [mbind res_bind]. by rewrite IH.
Qed.

(** The counts are safe integers and the patch is JSON. *)
Definition storable_run (r : AutomationRunRecord) : bool :=
  is_safe_integer (ar_attempts r) && is_safe_integer (are_automationDepth (ar_enqueued r)) &&
  (is_safe_integer (rp_maxAttempts (ar_retry r)) && is_safe_integer (rp_baseDelaySeconds (ar_retry r)) &&
   is_safe_integer (rp_maxDelaySeconds (ar_retry r))) &&
  forallb (λ kv, isJsonValue kv.2) (raa_patch (are_action (ar_enqueued r))).

Lemma transitions_roundtrip o :
  automationRunWorkflowTransitionsFromData
    (default VUndef ((λ l, VArr (transition_value <$> l)) <$> o)) = Ok o.
Proof.
  destruct o as [l|]; [|done]. cbn [default fmap option_fmap option_map id automationRunWorkflowTransitionsFromData].
  rewrite map_res_section; [done|]. intros t. unfold transition_value, required_string.
  read_key. by destruct t.
Qed.

Lemma action_roundtrip a :
  forallb (λ kv, isJsonValue kv.2) (raa_patch a) = true → automationRunActionFromData (action_value a) = Ok a.
Proof.
  intros Ha. unfold automationRunActionFromData, action_value, required_string. read_key.
  cbn -[isJsonValue]. read_key. rewrite Ha. by destruct a.
Qed.

Lemma required_safe_integer_int k z m :
  vget k m = vint z → is_safe_integer z = true → required_safe_integer k m = Ok z.
Proof.
  intros H Hz. unfold required_safe_integer. rewrite H. unfold vint.
  by rewrite num_safe_integer_of_Z.
Qed.

Lemma retry_roundtrip p :
  is_safe_integer (rp_maxAttempts p) = true → is_safe_integer (rp_baseDelaySeconds p) = true →
  is_safe_integer (rp_maxDelaySeconds p) = true → automationRunRetryFromData (retry_value p) = Ok p.
Proof.
  intros H1 H2 H3. unfold automationRunRetryFromData, retry_value.
  rewrite (required_safe_integer_int (js "maxAttempts") (rp_maxAttempts p)) by first [done|by read_key].
  rewrite (required_safe_integer_int (js "baseDelaySeconds") (rp_baseDelaySeconds p)) by first [done|by read_key].
  rewrite (required_safe_integer_int (js "maxDelaySeconds") (rp_maxDelaySeconds p)) by first [done|by read_key].
  by destruct p.
Qed.

Lemma read_count_int z : is_safe_integer z = true → read_count (vint z) = Ok z.
Proof.
  intros H%num_safe_integer_of_Z. unfold read_count, vint, num_safe_integer in *.
  destruct (num_to_Z _); [|done]. by destruct (is_safe_integer _); simplify_eq.
Qed.

Lemma path_roundtrip l : automationPathFromData (VArr (VStr <$> l)) = Ok l.
Proof. by apply map_res_section. Qed.

Lemma status_roundtrip s : automationRunStatusFromData (VStr (run_status_text s)) = Ok s.
Proof. by destruct s. Qed.

Lemma string_value_optional o : string_value (default VUndef (VStr <$> o)) = o.
Proof. by destruct o. Qed.

(** What each key of the data reads as. *)
Definition run_reads (r : AutomationRunRecord) : list (jstr * value) :=
  [(js "sourceEventId", VStr (are_sourceEventId (ar_enqueued r)));
   (js "sourceEventType", VStr (are_sourceEventType (ar_enqueued r)));
   (js "sourcePayloadKind", VStr (are_sourcePayloadKind (ar_enqueued r)));
   (js "sourceDoctype", VStr (are_sourceDoctype (ar_enqueued r)));
   (js "sourceDocumentName", VStr (are_sourceDocumentName (ar_enqueued r)));
   (js "sourceActorId", VStr (are_sourceActorId (ar_enqueued r)));
   (js "workflowName", default VUndef (VStr <$> are_workflowName (ar_enqueued r)));
   (js "workflowAction", default VUndef (VStr <$> are_workflowAction (ar_enqueued r)));
   (js "workflowTransitions", default VUndef ((λ l, VArr (transition_value <$> l)) <$> are_workflowTransitions (ar_enqueued r)));
   (js "ruleId", VStr (are_ruleId (ar_enqueued r)));
   (js "ruleName", VStr (are_ruleName (ar_enqueued r)));
   (js "actionId", VStr (are_actionId (ar_enqueued r)));
   (js "action", action_value (are_action (ar_enqueued r)));
   (js "retry", retry_value (are_retry (ar_enqueued r)));
   (js "causationId", VStr (are_causationId (ar_enqueued r)));
   (js "correlationId", VStr (are_correlationId (ar_enqueued r)));
   (js "automationDepth", vint (are_automationDepth (ar_enqueued r)));
   (js "automationPath", VArr (VStr <$> are_automationPath (ar_enqueued r)));
   (js "status", VStr (run_status_text (ar_status r)));
   (js "attempts", vint (ar_attempts r));
   (js "enqueuedAt", VStr (ar_enqueuedAt r));
   (js "claimedAt", default VUndef (VStr <$> ar_claimedAt r));
   (js "claimId", default VUndef (VStr <$> ar_claimId r));
   (js "claimExpiresAt", default VUndef (VStr <$> ar_claimExpiresAt r));
   (js "deliveredAt", default VUndef (VStr <$> ar_deliveredAt r));
   (js "failedAt", default VUndef (VStr <$> ar_failedAt r));
   (js "error", default VUndef (VStr <$> ar_error r));
   (js "retryAt", default VUndef (VStr <$> ar_retryAt r));
   (js "deadLetteredAt", default VUndef (VStr <$> ar_deadLetteredAt r))].

Lemma run_reads_ok r : Forall (λ kv, vget kv.1 (automationRunData r) = kv.2) (run_reads r).
Proof.
  unfold run_reads, automationRunData.
  rewrite <-(app_nil_r (optional_entry (js "deadLetteredAt") _)). cbn [app].
  repeat (apply Forall_cons; split; [cbn [fst snd]; by read_key|]). constructor.
Qed.

Lemma snapshot_reads host r :
  storable_run r = true → automationRunRecordFromSnapshot host (automationRunSnapshot r) = Ok r.
Proof.
  unfold storable_run. rewrite !andb_true_iff. intros [[[Ha Hd] [[H1 H2] H3]] Hp].
  unfold automationRunRecordFromSnapshot, automationRunSnapshot.
  cbn [ds_data ds_name ds_tenantId ds_version].
  pose proof (run_reads_ok r) as Hall. unfold run_reads in Hall.
  repeat match goal with
  | H : Forall _ (_ :: _) |- _ => apply Forall_cons in H as [Hk H]; cbn [fst snd] in Hk; rewrite Hk; clear Hk
  end.
  rewrite transitions_roundtrip, action_roundtrip, retry_roundtrip by done. cbn [mbind res_bind].
  rewrite path_roundtrip, status_roundtrip, !read_count_int by done. cbn [mbind res_bind].
  rewrite !string_value_optional.
  by destruct r as [[] ].
Qed.

Definition sample_enqueued : AutomationRunEnqueued := {|
  are_runId := js "r1"; are_sourceEventId := js "e"; are_sourceEventType := js "TaskUpdated";
  are_sourcePayloadKind := js "DocumentUpdated"; are_sourceDoctype := js "Task";
  are_sourceDocumentName := js "T-1"; are_sourceActorId := js "ada";
  are_workflowName := Some (js "review"); are_workflowAction := None;
  are_workflowTransitions := Some [{| tf_workflow := js "review"; tf_stateField := js "state";
    tf_action := js "approve"; tf_from := js "Open"; tf_to := js "Done" |}];
  are_ruleId := js "rule"; are_ruleName := js "Rule"; are_actionId := js "close";
  are_action := {| raa_doctype := js "Task"; raa_name := js "T-2"; raa_patch := [(js "done", VBool true)] |};
  are_retry := {| rp_maxAttempts := 10; rp_baseDelaySeconds := 30; rp_maxDelaySeconds := 1800 |};
  are_causationId := js "e"; are_correlationId := js "e"; are_automationDepth := 1;
  are_automationPath := [js "rule:close"] |}.

Definition sample_run_host : predicate_host := {| ph_text := λ _, []; ph_canonicalize := λ c, c |}.

Definition sample_run_stream : jstr := js "default:__AutomationRuns:r1".

Definition run_event (n : Z) (at_ : jstr) (p : payload) : DomainEvent :=
  {| e_new := automationRunEvent (js "e") (js "default") sample_run_stream (js "system") at_ p None; e_sequence := n |}.

Definition sample_run_history : list DomainEvent :=
  [run_event 1 (js "2026-01-01T00:00:00.000Z") (PRunEnqueued sample_enqueued);
   run_event 2 (js "2026-01-01T00:00:01.000Z")
     (PRunClaimed (js "r1") (js "c1") (js "2026-01-01T00:05:01.000Z"));
   run_event 3 (js "2026-01-01T00:00:02.000Z")
     (PRunFailed (js "r1") (js "c1") (js "boom") (js "2026-01-01T00:00:32.000Z"));
   run_event 4 (js "2026-01-01T00:00:33.000Z")
     (PRunClaimed (js "r1") (js "c2") (js "2026-01-01T00:05:33.000Z"))].

(** A record of a run whose counts are safe integers and whose patch is JSON is
    read back unchanged from the snapshot that stores it, whatever the host's
    text of a value is. *)
Theorem automation_snapshot_roundtrip host r :
  storable_run r = true → automationRunRecordFromSnapshot host (automationRunSnapshot r) = Ok r.
Proof. apply snapshot_reads. Qed.

Lemma automation_snapshot_roundtrip_witness :
  ∃ r, foldAutomationRun (js "default") sample_run_history = Some r ∧
    automationRunRecordFromSnapshot sample_run_host (automationRunSnapshot r) = Ok r.
Proof.
  eexists. split; [reflexivity|]. apply (automation_snapshot_roundtrip sample_run_host). by vm_compute.
Defined.

(** ** The fold *)

Lemma foldAutomationRunFrom_app init tenantId prefix tail :
  follows prefix tail →
  foldAutomationRunFrom init tenantId (prefix ++ tail) =
  foldAutomationRunFrom (foldAutomationRunFrom init tenantId prefix) tenantId tail.
Proof. intros H. unfold foldAutomationRunFrom. by rewrite sort_events_app, foldl_app. Qed.

(** A run's stream: it starts with its enqueueing and every other event of it is a later step. *)
Definition run_step_payload (p : payload) : bool :=
  match p with
  | PRunClaimed _ _ _ | PRunDelivered _ _ | PRunFailed _ _ _ _ | PRunDeadLettered _ _ _ | PRunSuppressed _ _ => true
  | _ => false
  end.

Definition is_claim (p : payload) : bool := match p with PRunClaimed _ _ _ => true | _ => false end.

(** The status a step leaves. *)
Definition step_status (p : payload) : AutomationRunStatus :=
  match p with
  | PRunClaimed _ _ _ => RunClaimed
  | PRunDelivered _ _ => RunDelivered
  | PRunFailed _ _ _ _ => RunFailed
  | PRunDeadLettered _ _ _ | PRunSuppressed _ _ => RunDead
  | _ => RunPending
  end.

Lemma foldRunStep_step tenantId r (event : DomainEvent) :
  run_step_payload (e_payload event) = true →
  ∃ r', foldRunStep tenantId (Some r) event = Some r' ∧
    ar_enqueued r' = ar_enqueued r ∧ ar_tenantId r' = ar_tenantId r ∧ ar_enqueuedAt r' = ar_enqueuedAt r ∧
    ar_status r' = step_status (e_payload event) ∧ ar_version r' = e_sequence event ∧
    ar_attempts r' = (ar_attempts r + if is_claim (e_payload event) then 1 else 0)%Z.
Proof.
  unfold foldRunStep, isAutomationRunEvent, applyAutomationRunEvent.
  destruct (e_payload event); intros H; try done; eexists; split_and!; try reflexivity; simpl; lia.
Qed.

(** The events of one run: the enqueueing, then steps. *)
Definition run_history (events : list DomainEvent) : Prop :=
  contiguous events ∧ ∃ e0 steps r, events = e0 :: steps ∧ e_payload e0 = PRunEnqueued r ∧
    ∀ e : DomainEvent, e ∈ steps → run_step_payload (e_payload e) = true.

Definition claims_in (events : list DomainEvent) : nat :=
  length (filter (λ e : DomainEvent, is_claim (e_payload e) = true) events).

(** What a record says of the stream it was folded from. *)
Definition run_record_of (events : list DomainEvent) (r : AutomationRunRecord) : Prop :=
  (∃ e0 : DomainEvent, head events = Some e0 ∧ e_payload e0 = PRunEnqueued (ar_enqueued r) ∧
     ar_enqueuedAt r = e_occurredAt e0) ∧
  (∃ e1 : DomainEvent, last events = Some e1 ∧ ar_status r = step_status (e_payload e1)) ∧
  ar_version r = Z.of_nat (length events) ∧ ar_attempts r = Z.of_nat (claims_in events).

Lemma run_record_snoc tenantId events r (e : DomainEvent) :
  events ≠ [] → run_record_of events r → run_step_payload (e_payload e) = true →
  e_sequence e = Z.of_nat (S (length events)) →
  ∃ r', foldRunStep tenantId (Some r) e = Some r' ∧ run_record_of (events ++ [e]) r'.
Proof.
  intros Hne ((e0 & Hhd & He0 & Hat) & (e1 & _ & _) & Hv & Ha) Hstep Hseq.
  destruct (foldRunStep_step tenantId r e Hstep) as (r' & Hf & Henq & _ & Hat' & Hst & Hver & Hatt).
  exists r'. split; [done|]. split_and!.
  - exists e0. destruct events; [done|]. simpl in *. rewrite Henq, Hat'. done.
  - exists e. by rewrite last_snoc.
  - rewrite Hver, Hseq, length_app. simpl. lia.
  - rewrite Hatt, Ha. unfold claims_in. rewrite filter_app, length_app. simpl.
    unfold filter, list_filter. destruct (is_claim (e_payload e)); simpl; lia.
Qed.

Lemma run_history_fold tenantId events :
  run_history events →
  ∃ r, foldAutomationRun tenantId events = Some r ∧ ar_tenantId r = tenantId ∧ run_record_of events r.
Proof.
  intros [Hc (e0 & steps & enq & -> & He0 & Hs)]. unfold foldAutomationRun, foldAutomationRunFrom.
  rewrite contiguous_sorted by done.
  induction steps as [|e steps IH] using rev_ind.
  - simpl. unfold foldRunStep, isAutomationRunEvent. rewrite He0. simpl. eexists. split; [done|]. split; [done|]. split_and!.
    + exists e0. by rewrite He0.
    + exists e0. by rewrite He0.
    + simpl. by rewrite (Hc 0 e0).
    + unfold claims_in, filter. simpl. by rewrite He0.
  - rewrite app_comm_cons in Hc |- *. destruct IH as (r & Hf & Ht & Hr).
    { by eapply contiguous_app_inv. } { intros e' He'. apply Hs. set_solver. }
    rewrite foldl_app, Hf. cbn [foldl].
    destruct (run_record_snoc tenantId (e0 :: steps) r e) as (r' & Hf' & Hr'); [done|done| | |].
    { apply Hs. set_solver. } { apply (Hc (length (e0 :: steps))). by apply list_lookup_middle. }
    exists r'. split_and!; [done| |done].
    destruct (foldRunStep_step tenantId r e) as (r2 & H2 & _ & H3 & _); [apply Hs; set_solver|].
    by simplify_eq.
Qed.

(** The record folded from a run's stream is its state: the payload and time of
    its enqueueing, the status its last event leaves, the length of the stream
    as version and the number of claims as attempts. *)
Theorem run_fold_state tenantId events :
  run_history events →
  ∃ r, foldAutomationRun tenantId events = Some r ∧ ar_tenantId r = tenantId ∧ run_record_of events r.
Proof. apply run_history_fold. Qed.

Lemma sample_run_history_ok : run_history sample_run_history.
Proof.
  split; [by apply contiguous_check|]. do 3 eexists. split_and!; [done..|].
  intros e He. repeat (apply elem_of_cons in He as [-> |He]; [done|]). by apply elem_of_nil in He.
Qed.

Lemma run_fold_state_witness :
  ∃ r, foldAutomationRun (js "default") sample_run_history = Some r ∧ ar_tenantId r = js "default" ∧
    run_record_of sample_run_history r.
Proof. apply (run_fold_state (js "default") sample_run_history). apply sample_run_history_ok. Defined.

(** Folding the rest of a run's stream onto the record of a prefix gives the
    record of the whole stream. *)
Theorem foldAutomationRun_resume tenantId prefix tail :
  follows prefix tail →
  foldAutomationRun tenantId (prefix ++ tail) =
  foldAutomationRunFrom (foldAutomationRun tenantId prefix) tenantId tail.
Proof. apply foldAutomationRunFrom_app. Qed.

Lemma foldAutomationRun_resume_witness :
  foldAutomationRun (js "default") sample_run_history =
  foldAutomationRunFrom (foldAutomationRun (js "default") (take 2 sample_run_history)) (js "default")
    (drop 2 sample_run_history).
Proof.
  apply (foldAutomationRun_resume (js "default") (take 2 sample_run_history) (drop 2 sample_run_history)).
  by apply follows_check.
Defined.

(** ** Retries and claims *)

Lemma retry_delay_bounds attempts base max :
  (1 <= base)%Z → (base <= max)%Z →
  (base <= retry_delay attempts base max <= max)%Z.
Proof.
  intros Hb Hm. unfold retry_delay.
  pose proof (Z.pow_pos_nonneg 2 (Z.max 0 (attempts - 1)) ltac:(lia) ltac:(lia)). nia.
Qed.

Lemma retry_delay_mono attempts base max :
  (1 <= base)%Z → (base <= max)%Z →
  (retry_delay attempts base max <= retry_delay (attempts + 1) base max)%Z.
Proof.
  intros Hb Hm. unfold retry_delay.
  assert (2 ^ Z.max 0 (attempts - 1) <= 2 ^ Z.max 0 (attempts + 1 - 1))%Z by (apply Z.pow_le_mono_r; lia). nia.
Qed.

(** The backoff of a normalized policy: the delay lies between the base and the
    maximum, the first retry waits the base, each further attempt waits twice as
    long until the maximum is reached, and it never shrinks. *)
Theorem retry_backoff maxAttempts base max policy attempts :
  normalizeAutomationRunRetryPolicy maxAttempts base max = Ok policy → (1 <= attempts)%Z →
  let delay n := retry_delay n (rp_baseDelaySeconds policy) (rp_maxDelaySeconds policy) in
  delay 1%Z = rp_baseDelaySeconds policy ∧
  (rp_baseDelaySeconds policy <= delay attempts <= rp_maxDelaySeconds policy)%Z ∧
  (delay attempts <= delay (attempts + 1))%Z ∧
  delay (attempts + 1)%Z = Z.min (rp_maxDelaySeconds policy) (2 * delay attempts).
Proof.
  unfold normalizeAutomationRunRetryPolicy. intros H Ha. cbv zeta in *. inv_res.
  repeat match goal with H : _ && _ = true |- _ => apply andb_prop in H as [? ?] end.
  repeat match goal with H : (_ <=? _)%Z = true |- _ => apply Z.leb_le in H end.
  cbn [rp_baseDelaySeconds rp_maxDelaySeconds] in *.
  split_and!; [unfold retry_delay; change (2 ^ Z.max 0 (1 - 1))%Z with 1%Z; lia|apply retry_delay_bounds; lia..|apply retry_delay_mono; lia|].
  unfold retry_delay. rewrite !Z.max_r by lia.
  replace (attempts + 1 - 1)%Z with (Z.succ (attempts - 1)) by lia. rewrite Z.pow_succ_r by lia.
  pose proof (Z.pow_pos_nonneg 2 (attempts - 1) ltac:(lia) ltac:(lia)). nia.
Qed.

Lemma retry_backoff_witness :
  let delay n := retry_delay n 30 1800 in
  delay 1%Z = 30%Z ∧ (30 <= delay 3 <= 1800)%Z ∧ (delay 3 <= delay (3 + 1))%Z ∧
  delay (3 + 1)%Z = Z.min 1800 (2 * delay 3%Z).
Proof.
  apply (retry_backoff None None None
    {| rp_maxAttempts := 10; rp_baseDelaySeconds := 30; rp_maxDelaySeconds := 1800 |} 3); [reflexivity|lia].
Defined.
