(* ===== verification/AutomationService.v ===== *)
(** * AutomationService: claiming and completing automation runs

    Models [AutomationRunService] of [application/automation-run-service.ts]
    (claiming one run, marking it delivered, failed or dead-lettered, and the
    optimistic append they share), on the in-memory document store.

    Other clients of the store may act at every [await] of [appendRunEvent]: what
    they do is the argument [env], indexed by the await.  The identifiers and the
    clock are arguments too, indexed by the attempt that asks for them. *)

From S2P Require Export AutomationRun EventStore Lifecycle Streams.

Definition MAX_AUTOMATION_RUN_APPEND_ATTEMPTS : nat := 5.

(** [isDocumentConflictError(error)]. *)
Definition isDocumentConflictError (e : error) : bool :=
  match e with FrameworkError code _ => bool_decide (code = DOCUMENT_CONFLICT) end.

(** [requireAutomationRunRecord(record, runId)]. *)
Definition requireAutomationRunRecord (record : option AutomationRunRecord) : res AutomationRunRecord :=
  match record with
  | Some r => Ok r
  | None => Throw (notFound AUTOMATION_RUN_NOT_FOUND)
  end.

(** What a plan decides: an event to append, or a record to return. *)
Record RunPlan := {
  pl_event : option NewDomainEvent;
  pl_record : option AutomationRunRecord
}.

Definition plan_event (e : NewDomainEvent) : RunPlan := {| pl_event := Some e; pl_record := None |}.
Definition plan_record (r : option AutomationRunRecord) : RunPlan := {| pl_event := None; pl_record := r |}.

Section service.
Context (host : predicate_host) `{DateHost} `{Collation}.
(** [ids.next] and [clock.now], at each attempt. *)
Context (ids clock : nat → jstr).
(** What the other clients do: before the read of attempt [n] ([2 * n]) and
    between it and the commit ([2 * n + 1]). *)
Context (env : nat → DocumentStore → DocumentStore).

Definition others (n : nat) : M DocumentStore unit := λ s, (Ok tt, env n s).

(** [try { m } catch (error) { handler(error) }]. *)
Definition m_catch {S A} (m : M S A) (handler : error → M S A) : M S A := λ s,
  match m s with
  | (Ok a, s') => (Ok a, s')
  | (Throw e, s') => handler e s'
  end.

Definition run_read_options : ReadStreamOptions :=
  {| rso_minSequence := None; rso_maxSequence := None; rso_limit := None;
     rso_payloadKinds := Some AUTOMATION_RUN_PAYLOAD_KINDS |}.

(** The projection of the commit. *)
Definition run_projection (tenantId : jstr) (events : list DomainEvent) (id : jstr)
    (savedEvents : list DomainEvent) : res BatchProjection :=
  saved ← requireSavedEvent savedEvents id;
  match foldAutomationRun tenantId (events ++ [saved]) with
  | None => Throw plain_error
  | Some updated => Ok {| bp_snapshot := automationRunSnapshot updated; bp_auxiliarySnapshots := None |}
  end.

(** The [try] block: commit the event and read the committed record. *)
Definition commit_run_event (tenantId stream : jstr) (events : list DomainEvent)
    (record : option AutomationRunRecord) (event : NewDomainEvent)
    : M DocumentStore (option AutomationRunRecord) :=
  commit ← commitBatch
    [{| ae_stream := stream;
        ae_expectedVersion := match record with Some r => ar_version r | None => 0 end;
        ae_events := [event] |}]
    (run_projection tenantId events (e_id event));
  r ← m_lift (automationRunRecordFromSnapshot host (dc_snapshot commit));
  mret (Some r).

(** The loop of [appendRunEvent]; [fuel] attempts are left. *)
Fixpoint append_attempts (tenantId stream : jstr)
    (plan : nat → option AutomationRunRecord → res RunPlan) (allowMissingResult : bool)
    (fuel attempt : nat) : M DocumentStore (option AutomationRunRecord) :=
  match fuel with
  | 0 => m_throw plain_error
  | S fuel =>
      _ ← others (2 * attempt);
      s ← m_get;
      events ← m_lift (readStream (st_streams s) stream run_read_options);
      _ ← others (2 * attempt + 1);
      let record := foldAutomationRun tenantId events in
      planned ← m_lift (plan attempt record);
      match pl_event planned with
      | None =>
          match pl_record planned with
          | Some r => mret (Some r)
          | None =>
              if allowMissingResult then mret None
              else r ← m_lift (requireAutomationRunRecord record); mret (Some r)
          end
      | Some event =>
          m_catch (commit_run_event tenantId stream events record event)
            (λ e, if isDocumentConflictError e && (attempt <? MAX_AUTOMATION_RUN_APPEND_ATTEMPTS)
                  then append_attempts tenantId stream plan allowMissingResult fuel (S attempt)
                  else m_throw e)
      end
  end.

(** [appendRunEvent(tenantId, runId, plan, options)]. *)
Definition appendRunEvent (tenantId runId : jstr)
    (plan : nat → option AutomationRunRecord → res RunPlan) (allowMissingResult : bool)
    : M DocumentStore (option AutomationRunRecord) :=
  stream ← m_lift (automationRunStream tenantId runId);
  append_attempts tenantId stream plan allowMissingResult MAX_AUTOMATION_RUN_APPEND_ATTEMPTS 1.

(** [newRunEvent(record, payload, metadata)]. *)
Definition newRunEvent (attempt : nat) (record : AutomationRunRecord) (p : payload) (metadata : option data)
    : res NewDomainEvent :=
  stream ← automationRunStream (ar_tenantId record) (ar_id record);
  Ok (automationRunEvent (ids attempt) (ar_tenantId record) stream (js "system") (clock attempt) p metadata).

(** The plan of [claimOne]. *)
Definition claim_plan (runId claimId now : jstr) (leaseSeconds : Z) (attempt : nat)
    (record : option AutomationRunRecord) : res RunPlan :=
  existing ← requireAutomationRunRecord record;
  if negb (existsb (λ item, bool_decide (ar_id item = ar_id existing))
             (claimableAutomationRuns [existing] now 1))
  then Ok (plan_record None)
  else
    stream ← automationRunStream (ar_tenantId existing) (ar_id existing);
    Ok (plan_event (automationRunEvent (ids attempt) (ar_tenantId existing) stream (js "system") now
          (PRunClaimed runId claimId (iso_after now leaseSeconds)) None)).

(** [claimOne(command)]. *)
Definition claimOne (tenantId runId claimId now : jstr) (leaseSeconds : Z)
    : M DocumentStore (option AutomationRunRecord) :=
  appendRunEvent tenantId runId (claim_plan runId claimId now leaseSeconds) true.

(** The plan of [markDelivered]. *)
Definition delivered_plan (runId claimId : jstr) (metadata : option data) (attempt : nat)
    (record : option AutomationRunRecord) : res RunPlan :=
  existing ← requireAutomationRunRecord record;
  if bool_decide (ar_status existing = RunDelivered) then Ok (plan_record (Some existing))
  else
    _ ← ensureAutomationRunClaimed existing claimId;
    event ← newRunEvent attempt existing (PRunDelivered runId claimId) metadata;
    Ok (plan_event event).

(** [markDelivered(command)]. *)
Definition markDelivered (tenantId runId claimId : jstr) (metadata : option data)
    : M DocumentStore AutomationRunRecord :=
  r ← appendRunEvent tenantId runId (delivered_plan runId claimId metadata) false;
  m_lift (requireAutomationRunRecord r).

(** The plan of [markFailed]. *)
Definition failed_plan (runId claimId normalizedError : jstr) (retryAt : option jstr)
    (metadata : option data) (attempt : nat) (record : option AutomationRunRecord) : res RunPlan :=
  existing ← requireAutomationRunRecord record;
  _ ← ensureAutomationRunClaimed existing claimId;
  let retryAt := default (automationRunRetryAt (clock attempt) (ar_attempts existing)
    (rp_baseDelaySeconds (ar_retry existing)) (rp_maxDelaySeconds (ar_retry existing))) retryAt in
  event ← newRunEvent attempt existing (PRunFailed runId claimId normalizedError retryAt) metadata;
  Ok (plan_event event).

(** [markFailed(command)]. *)
Definition markFailed (tenantId runId claimId err : jstr) (retryAt : option jstr) (metadata : option data)
    : M DocumentStore AutomationRunRecord :=
  normalizedError ← m_lift (automationRunFailureError err);
  r ← appendRunEvent tenantId runId (failed_plan runId claimId normalizedError retryAt metadata) false;
  m_lift (requireAutomationRunRecord r).

(** The plan of [markDeadLettered]. *)
Definition dead_plan (runId claimId normalizedError : jstr) (metadata : option data) (attempt : nat)
    (record : option AutomationRunRecord) : res RunPlan :=
  existing ← requireAutomationRunRecord record;
  if bool_decide (ar_status existing = RunDead) then Ok (plan_record (Some existing))
  else
    _ ← ensureAutomationRunClaimed existing claimId;
    event ← newRunEvent attempt existing (PRunDeadLettered runId claimId normalizedError) metadata;
    Ok (plan_event event).

(** [markDeadLettered(command)]. *)
Definition markDeadLettered (tenantId runId claimId err : jstr) (metadata : option data)
    : M DocumentStore AutomationRunRecord :=
  normalizedError ← m_lift (automationRunFailureError err);
  r ← appendRunEvent tenantId runId (dead_plan runId claimId normalizedError metadata) false;
  m_lift (requireAutomationRunRecord r).

End service.

Arguments appendRunEvent : clear implicits.
Arguments append_attempts : clear implicits.

(** The loop of [claimPending]: the selected runs, one after the other, each with
    its own identifiers and interference. *)
Definition claim_selected (host : predicate_host) `{DateHost} `{Collation} (ids : nat → nat → jstr)
    (env : nat → nat → DocumentStore → DocumentStore) (tenantId claimId now : jstr) (leaseSeconds : Z)
    (selected : list AutomationRunRecord) : M DocumentStore (list AutomationRunRecord) :=
  claimed ← m_map (λ item : nat * AutomationRunRecord,
    claimOne host (ids item.1) (env item.1) tenantId (ar_id item.2) claimId now leaseSeconds)
    (zip (seq 0 (length selected)) selected);
  mret (selectedAutomationRunRecords (omap id claimed) (Some (ar_id <$> selected))).

(** [claimPending(command)], for the candidates that the projections list. *)
Definition claimPending (host : predicate_host) `{DateHost} `{Collation} (ids : nat → nat → jstr)
    (env : nat → nat → DocumentStore → DocumentStore) (tenantId claimId now : jstr)
    (limit leaseSeconds : option Z) (candidates : list AutomationRunRecord)
    : M DocumentStore (list AutomationRunRecord) :=
  limit ← m_lift (automationRunClaimLimit limit);
  leaseSeconds ← m_lift (automationRunClaimLeaseSeconds leaseSeconds);
  claim_selected host ids env tenantId claimId now leaseSeconds
    (claimableAutomationRuns candidates now limit).

(** ** The life of a run

    Specification: when a step may follow the record of a run.  A run is claimed
    when it waits, when its retry is due or when its claim has expired, and only
    the holder of its claim completes it. *)
Definition legal_step (r : AutomationRunRecord) (now : jstr) (p : payload) : Prop :=
  match p with
  | PRunClaimed _ _ _ => run_claimable now r = true
  | PRunDelivered _ claimId | PRunFailed _ claimId _ _ | PRunDeadLettered _ claimId _ =>
      ar_status r = RunClaimed ∧ ar_claimId r = Some claimId
  | _ => False
  end.

Inductive run_trace (tenantId runId : jstr) : list DomainEvent → Prop :=
| trace_enqueued (e : DomainEvent) q :
    e_payload e = PRunEnqueued q → are_runId q = runId → e_sequence e = 1%Z →
    run_trace tenantId runId [e]
| trace_suppressed (e e' : DomainEvent) q err :
    e_payload e = PRunEnqueued q → are_runId q = runId → e_sequence e = 1%Z →
    e_payload e' = PRunSuppressed runId err → e_sequence e' = 2%Z →
    run_trace tenantId runId [e; e']
| trace_step events r (e : DomainEvent) :
    run_trace tenantId runId events → foldAutomationRun tenantId events = Some r →
    run_of (e_payload e) = Some runId → legal_step r (e_occurredAt e) (e_payload e) →
    e_sequence e = Z.of_nat (S (length events)) →
    run_trace tenantId runId (events ++ [e]).

Lemma legal_step_payload r now p : legal_step r now p → run_step_payload p = true.
Proof. by destruct p. Qed.

Lemma contiguous_snoc events (e : DomainEvent) :
  contiguous events → e_sequence e = Z.of_nat (S (length events)) → contiguous (events ++ [e]).
Proof.
  intros Hc He i x [Hi|[Hle Hi]]%lookup_app_Some; [by apply Hc|].
  apply list_lookup_singleton_Some in Hi as [Hi <-]. rewrite He. f_equal. lia.
Qed.

Lemma run_history_snoc events (e : DomainEvent) :
  run_history events → run_step_payload (e_payload e) = true →
  e_sequence e = Z.of_nat (S (length events)) → run_history (events ++ [e]).
Proof.
  intros [Hc (e0 & steps & q & -> & He0 & Hs)] Hp He. split; [by apply contiguous_snoc|].
  exists e0, (steps ++ [e]), q. split_and!; [done..|].
  intros x [?| ->%list_elem_of_singleton]%elem_of_app; [by apply Hs|done].
Qed.

Lemma run_trace_history tenantId runId events : run_trace tenantId runId events → run_history events.
Proof.
  induction 1 as [e q He Hq Hs|e e' q err He Hq Hs He' Hs'|events r e Ht IH Hf Hof Hl Hs].
  - split; [apply contiguous_check; simpl; by rewrite Hs|].
    exists e, [], q. split_and!; [done..|]. by intros ? ?%elem_of_nil.
  - split; [apply contiguous_check; simpl; by rewrite Hs, Hs'|].
    exists e, [e'], q. split_and!; [done..|]. intros ? ->%list_elem_of_singleton. by rewrite He'.
  - apply run_history_snoc; [done|by eapply legal_step_payload|done].
Qed.

Lemma run_trace_run tenantId runId events (e : DomainEvent) :
  run_trace tenantId runId events → e ∈ events → run_of (e_payload e) = Some runId.
Proof.
  induction 1 as [e0 q He Hq Hs|e0 e1 q err He Hq Hs He' Hs'|events r e1 Ht IH Hf Hof Hl Hs]; intros Hin.
  - apply list_elem_of_singleton in Hin as ->. rewrite He. simpl. by rewrite Hq.
  - apply elem_of_cons in Hin as [-> |Hin]; [rewrite He; simpl; by rewrite Hq|].
    apply list_elem_of_singleton in Hin as ->. by rewrite He'.
  - apply elem_of_app in Hin as [?| ->%list_elem_of_singleton]; auto.
Qed.

(** The record of a trace. *)
Lemma run_trace_record tenantId runId events :
  run_trace tenantId runId events →
  ∃ r, foldAutomationRun tenantId events = Some r ∧ ar_tenantId r = tenantId ∧ ar_id r = runId ∧
    ar_version r = Z.of_nat (length events) ∧ run_record_of events r.
Proof.
  intros Ht. destruct (run_history_fold tenantId events) as (r & Hf & Hten & Hr); [by eapply run_trace_history|].
  exists r. split_and!; [done..| |apply Hr|done].
  destruct Hr as [(e0 & Hhd & He0 & _) _].
  assert (e0 ∈ events) as Hin by (destruct events; [done|]; simplify_eq/=; left).
  pose proof (run_trace_run _ _ _ _ Ht Hin) as Hrun. rewrite He0 in Hrun. by simplify_eq/=.
Qed.

Definition terminal (s : AutomationRunStatus) : bool :=
  match s with RunDelivered | RunDead => true | _ => false end.

Lemma terminal_no_step r now p : terminal (ar_status r) = true → ¬ legal_step r now p.
Proof.
  unfold legal_step, run_claimable, automationRunClaimExpired. intros Ht Hl.
  destruct p; try done; destruct (ar_status r) eqn:E; try done; by destruct Hl.
Qed.
(** A commit of one event, on every branch. *)
Lemma commitBatch_one stream v ev project s :
  e_stream ev = stream →
  commitBatch [{| ae_stream := stream; ae_expectedVersion := v; ae_events := [ev] |}] project s =
  let saved := {| e_new := ev; e_sequence := v + 1 |} in
  if (Z.of_nat (length (stream_events (st_streams s) stream)) =? v)%Z then
    if event_json ev then
      match project [saved] with
      | Ok p =>
          let s1 := with_streams (jm_set stream (stream_events (st_streams s) stream ++ [saved])) s in
          match m_each save (projected p) s1 with
          | (Ok _, s2) => (Ok {| dc_events := [saved]; dc_snapshot := bp_snapshot p |}, s2)
          | (Throw e, s2) => (Throw e, s2)
          end
      | Throw e => (Throw e, s)
      end
    else (Throw event_invalid, s)
  else (Throw conflict, s).
Proof.
  intros Hs. unfold commitBatch. rewrite m_bind_run. unfold m_get. rewrite m_bind_run. unfold m_lift at 1.
  unfold check_entries, check_entry. cbn [foldl_res ae_stream ae_expectedVersion].
  destruct (_ =? v)%Z eqn:Ev; cbn [ensure mbind res_bind]; [|done].
  rewrite m_bind_run. unfold m_lift at 1, sequence_entries.
  cbn [map_res ae_expectedVersion ae_events]. unfold sequenceEvents. cbn [sequenceFrom].
  destruct (event_json ev) eqn:Ej.
  - rewrite cloneDomainEvent_id by done. cbn [mbind res_bind concat app].
    rewrite m_bind_run. unfold m_lift at 1. destruct (project _) as [p|e]; [|done].
    rewrite m_bind_run. unfold on_streams. cbn [m_each]. rewrite m_bind_run, write_entry_run.
    2: { by intros e ->%list_elem_of_singleton. }
    cbn [ae_stream]. unfold mine. rewrite filter_all by (by intros e ->%list_elem_of_singleton).
    unfold mret at 1, M_ret at 1. rewrite m_bind_run. fold (projected p). done.
  - destruct (cloneDomainEvent _) as [e|e] eqn:E; [apply cloneDomainEvent_ok in E as [E _]; simpl in E; congruence|].
    unfold cloneDomainEvent in E. cbn [mbind res_bind]. 
    destruct (payloadIsJson _); simpl in E; [|by inv E]. destruct (isJsonData _); simpl in E; by inv E.
Qed.

Lemma run_kind p runId : run_of p = Some runId → payload_kind p ∈ AUTOMATION_RUN_PAYLOAD_KINDS.
Proof. destruct p; try done; intros _; apply (bool_decide_unpack _); by vm_compute. Qed.

(** ** The optimistic append *)

(** Computations that throw nothing but a plain error. *)
Definition plain_throws {A} (m : res A) : Prop := ∀ e, m = Throw e → e = plain_error.

Lemma plain_ok {A} (a : A) : plain_throws (Ok a).
Proof. by intros e [=]. Qed.
Lemma plain_throw {A} : plain_throws (A := A) (Throw plain_error).
Proof. by intros e [= <-]. Qed.
Lemma plain_ensure b : plain_throws (ensure b plain_error).
Proof. by intros e [_ ->]%ensure_throw. Qed.
Lemma plain_bind {A B} (m : res A) (f : A → res B) :
  plain_throws m → (∀ a, plain_throws (f a)) → plain_throws (m ≫= f).
Proof. intros Hm Hf e. destruct m as [a|e']; simpl; [apply Hf|]. intros [= <-]. by apply Hm. Qed.
Lemma plain_map_res {A B} (f : A → res B) l : (∀ a, plain_throws (f a)) → plain_throws (map_res f l).
Proof.
  intros Hf. induction l as [|x l IH]; simpl; [apply plain_ok|].
  apply plain_bind; [apply Hf|]. intros y. apply plain_bind; [done|]. intros ys. apply plain_ok.
Qed.
#[export] Hint Resolve plain_ok plain_throw plain_ensure plain_bind plain_map_res : cff.

Lemma required_string_plain k m : plain_throws (required_string k m).
Proof. unfold required_string. destruct (vget k m); auto with cff. Qed.
Lemma required_safe_integer_plain k m : plain_throws (required_safe_integer k m).
Proof. unfold required_safe_integer. destruct (vget k m) as [| | |x| | |]; try destruct (num_safe_integer x); auto with cff. Qed.
Lemma read_count_plain v : plain_throws (read_count v).
Proof. unfold read_count. destruct v as [| | |x| | |]; try destruct (num_to_Z x); auto with cff. Qed.
#[export] Hint Resolve required_string_plain required_safe_integer_plain read_count_plain : cff.

Lemma from_snapshot_plain host snapshot : plain_throws (automationRunRecordFromSnapshot host snapshot).
Proof.
  unfold automationRunRecordFromSnapshot.
  apply plain_bind; [|intros ?; apply plain_bind; [|intros ?; apply plain_bind; [|intros ?;
    apply plain_bind; [auto with cff|intros ?; apply plain_bind; [|intros ?; apply plain_bind; [|intros ?;
    apply plain_bind; auto with cff]]]]]].
  - destruct (vget _ _) as [| | | | |l|]; simpl; try auto with cff.
    apply plain_bind; [|auto with cff]. apply plain_map_res. intros []; auto 12 with cff.
  - destruct (vget _ _) as [| | | | | |d]; simpl; try auto with cff. apply plain_bind; [auto with cff|intros _].
    destruct (vget (js "target") d); auto with cff. destruct (vget (js "patch") d); auto 8 with cff.
  - destruct (vget _ _); simpl; auto 8 with cff.
  - destruct (vget _ _); simpl; try auto with cff. apply plain_map_res. intros []; auto with cff.
  - unfold automationRunStatusFromData. destruct (vget _ _); try auto with cff. repeat case_decide; auto with cff.
Qed.

Section append.
Context (host : predicate_host) (env : nat → DocumentStore → DocumentStore).
Context (tenantId runId stream : jstr).

(** What the store keeps of the run: nothing yet, or its trace. *)
Definition run_stored (s : DocumentStore) : Prop :=
  wf_streams (st_streams s) ∧
  (stream_events (st_streams s) stream = [] ∨
   run_trace tenantId runId (stream_events (st_streams s) stream)).

Definition run_extends (s s' : DocumentStore) : Prop :=
  stream_events (st_streams s) stream `prefix_of` stream_events (st_streams s') stream.

(** The other clients keep to the life of the run and only append. *)
Definition env_lawful : Prop :=
  ∀ n s, run_stored s → run_stored (env n s) ∧ run_extends s (env n s).

(** A plan appends only legal steps of this run. *)
Definition plan_lawful (plan : nat → option AutomationRunRecord → res RunPlan) : Prop :=
  (∀ n planned, plan n None = Ok planned → pl_event planned = None) ∧
  ∀ n r planned ev, ar_tenantId r = tenantId → ar_id r = runId →
    plan n (Some r) = Ok planned → pl_event planned = Some ev →
    e_stream ev = stream ∧ run_of (e_payload ev) = Some runId ∧
    legal_step r (e_occurredAt ev) (e_payload ev).

Lemma run_read s :
  run_stored s →
  readStream (st_streams s) stream run_read_options = Ok (stream_events (st_streams s) stream).
Proof.
  intros [Hwf Ht]. unfold readStream. cbn [rso_limit run_read_options].
  rewrite filter_all.
  - rewrite contiguous_sorted by apply Hwf. apply map_res_clone. intros e He. by apply Hwf in He as [_ ?].
  - intros e He. unfold read_matches. cbn -[AUTOMATION_RUN_PAYLOAD_KINDS]. apply bool_decide_eq_true_2.
    destruct Ht as [Ht|Ht]; [rewrite Ht in He; by apply elem_of_nil in He|].
    by eapply run_kind, run_trace_run.
Qed.

(** The record the service returns is the fold of the stream it leaves, which
    extends by one event the stream its plan saw. *)
Definition run_committed (plan : nat → option AutomationRunRecord → res RunPlan) (s : DocumentStore)
    (saved : DomainEvent) (u : AutomationRunRecord) : Prop :=
  ∃ n events r planned,
    foldAutomationRun tenantId events = Some r ∧ plan n (Some r) = Ok planned ∧
    pl_event planned = Some (e_new saved) ∧
    stream_events (st_streams s) stream = events ++ [saved] ∧
    foldAutomationRun tenantId (events ++ [saved]) = Some u.

Definition commit_outcome plan (s : DocumentStore) (o : res (option AutomationRunRecord) * DocumentStore) : Prop :=
  run_stored o.2 ∧ run_extends s o.2 ∧
  match o.1 with
  | Ok r => ∃ saved u x, run_committed plan o.2 saved u ∧ r = Some x ∧
      automationRunRecordFromSnapshot host (automationRunSnapshot u) = Ok x ∧
      get_document tenantId (js "__AutomationRuns") runId o.2 = Ok (Some (automationRunSnapshot u))
  | Throw e => isDocumentConflictError e = true → o.2 = s
  end.


Lemma commit_run_event_outcome plan n s events r planned ev :
  plan_lawful plan → run_stored s → run_trace tenantId runId events →
  events `prefix_of` stream_events (st_streams s) stream →
  foldAutomationRun tenantId events = Some r → plan n (Some r) = Ok planned → pl_event planned = Some ev →
  commit_outcome plan s (commit_run_event host tenantId stream events (Some r) ev s).
Proof.
  intros Hplan Hs Ht Hpre Hf Hp Hev.
  destruct (run_trace_record _ _ _ Ht) as (r' & Hf' & Hten & Hid & Hver & _). simplify_eq.
  destruct (proj2 Hplan n _ _ _ Hten Hid Hp Hev) as (Hstr & Hrun & Hlegal).
  unfold commit_run_event. rewrite m_bind_run. rewrite commitBatch_one by done. cbv zeta. rewrite Hver.
  assert (Hsame : commit_outcome plan s (Throw conflict, s) ∧ commit_outcome plan s (Throw event_invalid, s)
    ∧ ∀ e, commit_outcome plan s (Throw e, s)).
  { split_and!; intros; split_and!; try apply Hs; unfold run_extends; try done; try reflexivity. }
  destruct (Z.eqb_spec (Z.of_nat (length (stream_events (st_streams s) stream))) (Z.of_nat (length events)))
    as [Hlen|]; [|apply Hsame].
  destruct (event_json ev) eqn:Ej; [|apply Hsame].
  assert (stream_events (st_streams s) stream = events) as Hevs.
  { destruct Hpre as [k Hk]. rewrite Hk, length_app in Hlen. destruct k; [|simpl in Hlen; lia].
    by rewrite Hk, app_nil_r. }
  set (saved := {| e_new := ev; e_sequence := (Z.of_nat (length events) + 1)%Z |}).
  unfold run_projection, requireSavedEvent. cbn [List.find]. rewrite bool_decide_true by done.
  cbn [mbind res_bind].
  assert (run_trace tenantId runId (events ++ [saved])) as Ht'.
  { eapply trace_step; [done..|]. subst saved. simpl. lia. }
  destruct (run_trace_record _ _ _ Ht') as (u & Hu & Hut & Hui & _). rewrite Hu.
  pose proof (saves_run (projected {| bp_snapshot := automationRunSnapshot u; bp_auxiliarySnapshots := None |})
    (with_streams (jm_set stream (stream_events (st_streams s) stream ++ [saved])) s)) as Hsave.
  destruct (m_each save _ _) as [o s2]. destruct Hsave as [Hst Ho]. cbn [st_streams with_streams] in Hst.
  assert (stream_events (st_streams s2) stream = events ++ [saved]) as Hs2.
  { by rewrite Hst, stream_events_set, decide_True, Hevs. }
  assert (run_stored s2 ∧ run_extends s s2) as [Hstored Hext].
  { split; [split; [|right; by rewrite Hs2]|].
    - rewrite Hst. apply wf_streams_set; [apply Hs|]. apply (stream_ok_app _ _ [ev]); [apply Hs| |].
      + split_and!; [done| |].
        * by intros e ->%list_elem_of_singleton.
        * intros i e [-> <-]%list_lookup_singleton_Some. rewrite Hevs. simpl. lia.
      + by intros ? ->%list_elem_of_singleton.
    - unfold run_extends. rewrite Hs2, Hevs. by apply prefix_app_r. }
  destruct o as [[]|e]; [|refine (conj Hstored (conj Hext _)); by destruct Ho as [-> _]].
  destruct Ho as [Hdocs Hjson]. rewrite m_bind_run. unfold m_lift. cbn [dc_snapshot].
  destruct (automationRunRecordFromSnapshot host _) as [x|e] eqn:Ex.
  2: { refine (conj Hstored (conj Hext _)). by apply from_snapshot_plain in Ex as ->. }
  refine (conj Hstored (conj Hext _)). cbn [fst snd]. exists saved, u, x. split_and!; [|done|done|].
  - exists n, events, r, planned. cbn [mret M_ret snd]. by rewrite Hs2.
  - cbn [mret M_ret snd]. unfold get_document. unfold projected in Hdocs. simpl in Hdocs. rewrite Hdocs.
    unfold snapshot_key_of. simpl. rewrite Hut, Hui, jm_get_set_eq.
    rewrite (proj2 (cloneDocumentSnapshot_ok (automationRunSnapshot u) (automationRunSnapshot u))); [done|]. split; [|done]. apply Hjson. left.
Qed.

(** What [append_attempts] leaves and returns, whatever the other clients do. *)
Definition append_outcome plan (allowMissingResult : bool) (s : DocumentStore)
    (o : res (option AutomationRunRecord) * DocumentStore) : Prop :=
  run_stored o.2 ∧ run_extends s o.2 ∧
  match o.1 with
  | Ok r =>
      (∃ saved u x, run_committed plan o.2 saved u ∧ r = Some x ∧
         automationRunRecordFromSnapshot host (automationRunSnapshot u) = Ok x ∧
         get_document tenantId (js "__AutomationRuns") runId o.2 = Ok (Some (automationRunSnapshot u))) ∨
      (∃ n events planned, events `prefix_of` stream_events (st_streams o.2) stream ∧
         plan n (foldAutomationRun tenantId events) = Ok planned ∧ pl_event planned = None ∧
         match pl_record planned with
         | Some x => r = Some x
         | None => r = if allowMissingResult then None else foldAutomationRun tenantId events
         end)
  | Throw _ => True
  end.

Lemma append_outcome_trans plan allow s1 s2 o :
  run_extends s1 s2 → append_outcome plan allow s2 o → append_outcome plan allow s1 o.
Proof. intros H1 (Ho & H2 & H3). refine (conj Ho (conj _ H3)). unfold run_extends in *. by etrans. Qed.

Lemma append_outcome_throw plan allow s1 s2 e :
  run_stored s2 → run_extends s1 s2 → append_outcome plan allow s1 (Throw e, s2).
Proof. intros H1 H2. exact (conj H1 (conj H2 I)). Qed.

Lemma append_attempts_outcome plan allow fuel n s :
  env_lawful → plan_lawful plan → run_stored s →
  append_outcome plan allow s (append_attempts host env tenantId stream plan allow fuel n s).
Proof.
  intros Henv Hplan. revert n s. induction fuel as [|fuel IH]; intros n s Hs.
  { apply append_outcome_throw; [done|]. unfold run_extends. reflexivity. }
  cbn [append_attempts]. rewrite m_bind_run. unfold others at 1.
  destruct (Henv (2 * n) s Hs) as [Hs1 H01]. apply (append_outcome_trans _ _ _ _ _ H01).
  set (s1 := env (2 * n) s) in *. clearbody s1. clear H01 Hs s.
  rewrite m_bind_run. unfold m_get. rewrite m_bind_run. unfold m_lift at 1. rewrite run_read by done.
  rewrite m_bind_run. unfold others at 1.
  destruct (Henv (2 * n + 1) s1 Hs1) as [Hs2 H12]. apply (append_outcome_trans _ _ _ _ _ H12).
  set (s2 := env (2 * n + 1) s1) in *. clearbody s2. unfold run_extends in H12.
  set (events := stream_events (st_streams s1) stream) in *.
  assert (Hrefl : run_extends s2 s2) by (unfold run_extends; reflexivity).
  rewrite m_bind_run. unfold m_lift at 1.
  destruct (plan n _) as [planned|e] eqn:Hp; [|by apply append_outcome_throw].
  destruct (pl_event planned) as [ev|] eqn:Hev.
  - assert (run_trace tenantId runId events) as Ht.
    { destruct Hs1 as [_ [Hnil|Ht]]; [|done]. subst events. rewrite Hnil in Hp.
      by rewrite (proj1 Hplan n planned Hp) in Hev. }
    destruct (run_trace_record _ _ _ Ht) as (r & Hf & _). rewrite Hf in Hp |- *.
    pose proof (commit_run_event_outcome plan n s2 events r planned ev Hplan Hs2 Ht H12 Hf Hp Hev)
      as (Hc1 & Hc2 & Hc3).
    unfold m_catch. destruct (commit_run_event _ _ _ _ _ _ _) as [[o|e] s3]; cbn [fst snd] in *.
    + refine (conj Hc1 (conj Hc2 _)). left. apply Hc3.
    + destruct (_ && _) eqn:Eb; [|by apply append_outcome_throw].
      apply andb_prop in Eb as [Eb _]. rewrite Hc3 by done. by apply IH.
  - assert (∀ r, match pl_record planned with Some x => r = Some x
         | None => r = if allow then None else foldAutomationRun tenantId events end →
      append_outcome plan allow s2 (Ok r, s2)) as Hdone.
    { intros r Hr. refine (conj Hs2 (conj Hrefl (or_intror _))). by exists n, events, planned. }
    destruct (pl_record planned) as [x|] eqn:Epr; [by apply Hdone|].
    destruct allow; [by apply Hdone|]. rewrite m_bind_run. unfold m_lift at 1, requireAutomationRunRecord.
    destruct (foldAutomationRun tenantId events) as [x|] eqn:Ef; [by apply Hdone|by apply append_outcome_throw].
Qed.

End append.

(** ** The operations *)

Section operations.
Context (host : predicate_host) `{DateHost} `{Collation} (ids clock : nat → jstr).

Lemma claimable_one r now : claimableAutomationRuns [r] now 1 = if run_claimable now r then [r] else [].
Proof. unfold claimableAutomationRuns, filter. simpl. by destruct (run_claimable now r). Qed.

Lemma ensure_claimed r claimId u :
  ensureAutomationRunClaimed r claimId = Ok u → ar_status r = RunClaimed ∧ ar_claimId r = Some claimId.
Proof.
  unfold ensureAutomationRunClaimed. intros [H1 H2]%ensure_ok%andb_prop.
  by apply bool_decide_eq_true in H1, H2.
Qed.

Lemma newRunEvent_ok n r p metadata ev :
  newRunEvent ids clock n r p metadata = Ok ev →
  automationRunStream (ar_tenantId r) (ar_id r) = Ok (e_stream ev) ∧ e_payload ev = p ∧ e_occurredAt ev = clock n.
Proof. unfold newRunEvent. intros E. inv_res. done. Qed.

(** Reads the guards of a completion off its plan. *)
Ltac claimed_event :=
  repeat match goal with
  | H : ensureAutomationRunClaimed _ _ = Ok _ |- _ => apply ensure_claimed in H as [? ?]
  | H : newRunEvent _ _ _ _ _ _ = Ok _ |- _ => apply newRunEvent_ok in H as (? & ? & _)
  end.

(** The event a plan makes of a record, if any. *)
Definition planned_event (plan : nat → option AutomationRunRecord → res RunPlan) n r ev : Prop :=
  ∃ planned, plan n (Some r) = Ok planned ∧ pl_event planned = Some ev.

Lemma claim_plan_event runId claimId now lease n r ev :
  planned_event (claim_plan ids runId claimId now lease) n r ev →
  automationRunStream (ar_tenantId r) (ar_id r) = Ok (e_stream ev) ∧ e_occurredAt ev = now ∧
  e_payload ev = PRunClaimed runId claimId (iso_after now lease) ∧ run_claimable now r = true.
Proof.
  intros (planned & Hp & Hev). unfold claim_plan in Hp. cbn [requireAutomationRunRecord mbind res_bind] in Hp.
  rewrite claimable_one in Hp. destruct (run_claimable now r) eqn:Ec; simpl in Hp; [|by inv Hp].
  rewrite bool_decide_true in Hp by done. simpl in Hp.
  destruct (automationRunStream _ _); simpl in Hp; inv Hp. by inv Hev.
Qed.

Lemma delivered_plan_event runId claimId metadata n r ev :
  planned_event (delivered_plan ids clock runId claimId metadata) n r ev →
  automationRunStream (ar_tenantId r) (ar_id r) = Ok (e_stream ev) ∧
  e_payload ev = PRunDelivered runId claimId ∧ ar_status r = RunClaimed ∧ ar_claimId r = Some claimId.
Proof.
  intros (planned & Hp & Hev). unfold delivered_plan in Hp. cbn [requireAutomationRunRecord mbind res_bind] in Hp.
  case_bool_decide; [by inv Hp|]. inv_res. inv Hev.
  claimed_event. done.
Qed.

Lemma failed_plan_event runId claimId err retryAt metadata n r ev :
  planned_event (failed_plan ids clock runId claimId err retryAt metadata) n r ev →
  automationRunStream (ar_tenantId r) (ar_id r) = Ok (e_stream ev) ∧
  (∃ at_, e_payload ev = PRunFailed runId claimId err at_) ∧
  ar_status r = RunClaimed ∧ ar_claimId r = Some claimId.
Proof.
  intros (planned & Hp & Hev). unfold failed_plan in Hp. cbn [requireAutomationRunRecord mbind res_bind] in Hp.
  inv_res. inv Hev.
  claimed_event. eauto.
Qed.

Lemma dead_plan_event runId claimId err metadata n r ev :
  planned_event (dead_plan ids clock runId claimId err metadata) n r ev →
  automationRunStream (ar_tenantId r) (ar_id r) = Ok (e_stream ev) ∧
  e_payload ev = PRunDeadLettered runId claimId err ∧ ar_status r = RunClaimed ∧ ar_claimId r = Some claimId.
Proof.
  intros (planned & Hp & Hev). unfold dead_plan in Hp. cbn [requireAutomationRunRecord mbind res_bind] in Hp.
  case_bool_decide; [by inv Hp|]. inv_res. inv Hev.
  claimed_event. done.
Qed.

(** A plan that needs a record and whose events are legal steps of the record's run. *)
Lemma plan_lawful_intro plan tenantId runId stream :
  automationRunStream tenantId runId = Ok stream →
  (∀ n planned, plan n None ≠ Ok planned) →
  (∀ n r ev, planned_event plan n r ev →
     automationRunStream (ar_tenantId r) (ar_id r) = Ok (e_stream ev) ∧
     run_of (e_payload ev) = Some runId ∧ legal_step r (e_occurredAt ev) (e_payload ev)) →
  plan_lawful tenantId runId stream plan.
Proof.
  intros Hs Hnone Hev. split; [intros n planned Hp; by apply Hnone in Hp|].
  intros n r planned ev Ht Hi Hp He. destruct (Hev n r ev) as (H1 & H2 & H3); [by exists planned|].
  rewrite Ht, Hi, Hs in H1. by injection H1 as ->.
Qed.

(** The plans of the four operations. *)
Inductive service_plan (runId : jstr) : (nat → option AutomationRunRecord → res RunPlan) → Prop :=
| plan_claim claimId now lease : service_plan runId (claim_plan ids runId claimId now lease)
| plan_delivered claimId metadata : service_plan runId (delivered_plan ids clock runId claimId metadata)
| plan_failed claimId err retryAt metadata :
    service_plan runId (failed_plan ids clock runId claimId err retryAt metadata)
| plan_dead claimId err metadata : service_plan runId (dead_plan ids clock runId claimId err metadata).

Lemma service_plan_lawful tenantId runId stream plan :
  automationRunStream tenantId runId = Ok stream → service_plan runId plan →
  plan_lawful tenantId runId stream plan.
Proof.
  intros Hs Hp. apply plan_lawful_intro; [done|by destruct Hp|]. intros n r ev Hev. destruct Hp.
  - apply claim_plan_event in Hev as (? & -> & -> & ?). done.
  - apply delivered_plan_event in Hev as (? & -> & ?). done.
  - apply failed_plan_event in Hev as (? & [at_ ->] & ?). done.
  - apply dead_plan_event in Hev as (? & -> & ?). done.
Qed.
End operations.

(** ** What a trace excludes *)

Lemma fold_run_snoc tenantId events (e : DomainEvent) :
  contiguous (events ++ [e]) →
  foldAutomationRun tenantId (events ++ [e]) = foldRunStep tenantId (foldAutomationRun tenantId events) e.
Proof.
  intros Hc. unfold foldAutomationRun, foldAutomationRunFrom.
  rewrite !contiguous_sorted by (try done; by eapply contiguous_app_inv). by rewrite foldl_app.
Qed.

Lemma run_trace_step_inv tenantId runId events (e : DomainEvent) :
  run_trace tenantId runId (events ++ [e]) →
  match e_payload e with PRunEnqueued _ | PRunSuppressed _ _ => False | _ => True end →
  ∃ r, run_trace tenantId runId events ∧ foldAutomationRun tenantId events = Some r ∧
    legal_step r (e_occurredAt e) (e_payload e).
Proof.
  intros Ht He. remember (events ++ [e]) as l eqn:El.
  destruct Ht as [e0 q Hq|e0 e1 q err H0 Hq Hs0 H1|events' r e' Ht Hf Hof Hl Hs].
  - destruct events as [|x [|]]; simplify_eq/=. by rewrite Hq in He.
  - destruct events as [|x [|y [|]]]; simplify_eq/=. by rewrite H1 in He.
  - apply app_inj_tail in El as [-> ->]. eauto.
Qed.

Lemma run_trace_absorbing tenantId runId events more r :
  run_trace tenantId runId (events ++ more) → foldAutomationRun tenantId events = Some r →
  terminal (ar_status r) = true → more = [].
Proof.
  intros Ht Hf Hterm. remember (events ++ more) as l eqn:El. revert more El.
  induction Ht as [e q He Hq Hs|e e' q err He Hq Hs He' Hs'|events' r' e Ht IH Hf' Hof Hl Hs]; intros more El.
  - destruct events as [|x [|]]; simplify_eq/=; done.
  - destruct events as [|x [|y [|]]]; simplify_eq/=; try done.
    unfold foldAutomationRun, foldAutomationRunFrom in Hf. simpl in Hf.
    unfold foldRunStep, isAutomationRunEvent in Hf. rewrite He in Hf. by simplify_eq/=.
  - destruct more as [|x more _] using rev_ind; [done|exfalso].
    rewrite app_assoc in El. apply app_inj_tail in El as [-> ->].
    rewrite (IH more eq_refl), app_nil_r in Hf'. simplify_eq. by eapply terminal_no_step.
Qed.

(** A run that was delivered or given up stays so: no event ever follows in its
    stream. *)
Theorem run_terminal tenantId runId events more r :
  run_trace tenantId runId (events ++ more) → foldAutomationRun tenantId events = Some r →
  ar_status r = RunDelivered ∨ ar_status r = RunDead → more = [].
Proof. intros Ht Hf Hs. eapply run_trace_absorbing; [done..|]. by destruct Hs as [-> | ->]. Qed.

(** A lease is exclusive: a claim of a claimed run that has not failed since is
    made at or after the time at which the earlier claim expires. *)
Theorem claim_lease tenantId runId events (c1 c2 : DomainEvent) id1 id2 expires1 expires2 :
  run_trace tenantId runId (events ++ [c1; c2]) →
  e_payload c1 = PRunClaimed runId id1 expires1 → e_payload c2 = PRunClaimed runId id2 expires2 →
  jstr_leb expires1 (e_occurredAt c2) = true.
Proof.
  intros Ht H1 H2. change [c1; c2] with ([c1] ++ [c2]) in Ht. rewrite app_assoc in Ht.
  destruct (run_trace_step_inv _ _ _ _ Ht) as (r & Ht1 & Hf & Hl); [by rewrite H2|].
  rewrite fold_run_snoc in Hf by (by eapply run_trace_history).
  destruct (run_trace_step_inv _ _ _ _ Ht1) as (r0 & _ & Hf0 & _); [by rewrite H1|].
  rewrite Hf0 in Hf. unfold foldRunStep, isAutomationRunEvent, applyAutomationRunEvent in Hf.
  rewrite H1 in Hf. simplify_eq/=. rewrite H2 in Hl. simpl in Hl.
  unfold run_claimable, automationRunClaimExpired in Hl. by simpl in Hl.
Qed.

(** ** The life of a run, and what the operations return *)

Section results.
Context (host : predicate_host) `{DateHost} `{Collation} (ids clock : nat → jstr).
Context (env : nat → DocumentStore → DocumentStore).

Lemma appendRunEvent_outcome tenantId runId stream plan allow s :
  automationRunStream tenantId runId = Ok stream → env_lawful env tenantId runId stream →
  service_plan ids clock runId plan → run_stored tenantId runId stream s →
  append_outcome host tenantId runId stream plan allow s
    (appendRunEvent host env tenantId runId plan allow s).
Proof.
  intros Hs Henv Hplan Hst. unfold appendRunEvent. rewrite m_bind_run. unfold m_lift. rewrite Hs.
  apply append_attempts_outcome; [done| |done]. by eapply service_plan_lawful.
Qed.

(** The four calls of the service on a run. *)
Inductive service_call (tenantId runId : jstr) : (DocumentStore → DocumentStore) → Prop :=
| call_claim claimId now lease :
    service_call tenantId runId (λ s, (claimOne host ids env tenantId runId claimId now lease s).2)
| call_delivered claimId metadata :
    service_call tenantId runId (λ s, (markDelivered host ids clock env tenantId runId claimId metadata s).2)
| call_failed claimId err retryAt metadata :
    service_call tenantId runId (λ s, (markFailed host ids clock env tenantId runId claimId err retryAt metadata s).2)
| call_dead claimId err metadata :
    service_call tenantId runId (λ s, (markDeadLettered host ids clock env tenantId runId claimId err metadata s).2).

Lemma service_call_life tenantId runId stream call s :
  automationRunStream tenantId runId = Ok stream → env_lawful env tenantId runId stream →
  service_call tenantId runId call → run_stored tenantId runId stream s →
  run_stored tenantId runId stream (call s) ∧ run_extends stream s (call s).
Proof.
  intros Hs Henv Hcall Hst.
  assert (Hout : ∀ plan allow, service_plan ids clock runId plan →
    let s' := (appendRunEvent host env tenantId runId plan allow s).2 in
    run_stored tenantId runId stream s' ∧ run_extends stream s s').
  { intros plan allow Hp. by destruct (appendRunEvent_outcome _ _ _ _ allow s Hs Henv Hp Hst) as (? & ? & _). }
  assert (Hreq : ∀ plan allow, service_plan ids clock runId plan →
    let s' := ((r ← appendRunEvent host env tenantId runId plan allow; m_lift (requireAutomationRunRecord r)) s).2 in
    run_stored tenantId runId stream s' ∧ run_extends stream s s').
  { intros plan allow Hp. rewrite m_bind_run. specialize (Hout plan allow Hp).
    by destruct (appendRunEvent _ _ _ _ _ _ s) as [[]]. }
  assert (Hrefl : run_extends stream s s) by (unfold run_extends; reflexivity).
  destruct Hcall.
  - apply Hout. constructor.
  - apply Hreq. constructor.
  - unfold markFailed. rewrite m_bind_run. unfold m_lift at 1.
    destruct (automationRunFailureError _); [apply Hreq; constructor|done].
  - unfold markDeadLettered. rewrite m_bind_run. unfold m_lift at 1.
    destruct (automationRunFailureError _); [apply Hreq; constructor|done].
Qed.

(** The record of the stream that the store keeps of a run. *)
Definition stored_record (tenantId stream : jstr) (s : DocumentStore) : option AutomationRunRecord :=
  foldAutomationRun tenantId (stream_events (st_streams s) stream).

(** A call that returned a record: what it did, and the record it returned. *)
Lemma service_result tenantId runId stream plan allow s x s' :
  automationRunStream tenantId runId = Ok stream → env_lawful env tenantId runId stream →
  service_plan ids clock runId plan → run_stored tenantId runId stream s →
  (∀ u, stored_record tenantId stream s' = Some u → storable_run u = true) →
  appendRunEvent host env tenantId runId plan allow s = (Ok (Some x), s') →
  (∃ n events r0 saved, stored_record tenantId stream s' = Some x ∧
     stream_events (st_streams s') stream = events ++ [saved] ∧
     foldAutomationRun tenantId events = Some r0 ∧ planned_event plan n r0 (e_new saved) ∧
     foldRunStep tenantId (Some r0) saved = Some x ∧
     get_document tenantId (js "__AutomationRuns") runId s' = Ok (Some (automationRunSnapshot x))) ∨
  (∃ n events planned, events `prefix_of` stream_events (st_streams s') stream ∧
     plan n (foldAutomationRun tenantId events) = Ok planned ∧ pl_event planned = None ∧
     match pl_record planned with
     | Some y => x = y
     | None => allow = false ∧ foldAutomationRun tenantId events = Some x
     end).
Proof.
  intros Hs Henv Hplan Hst Hstor Hrun.
  pose proof (appendRunEvent_outcome _ _ _ _ allow s Hs Henv Hplan Hst) as Ho. rewrite Hrun in Ho.
  destruct Ho as (Hst' & _ & [(saved & u & y & Hc & [= <-] & Hsnap & Hdoc)|(n & events & planned & H1 & H2 & H3 & H4)]).
  - left. destruct Hc as (n & events & r0 & planned & Hf & Hp & Hev & Hevs & Hu). cbn [fst snd] in *.
    assert (stored_record tenantId stream s' = Some u) as Hrec by (unfold stored_record; by rewrite Hevs).
    rewrite snapshot_reads in Hsnap by auto. injection Hsnap as ->.
    exists n, events, r0, saved. split_and!; [done..| | |done]; [by exists planned|].
    rewrite fold_run_snoc, Hf in Hu; [done|]. rewrite <-Hevs. apply Hst'.
  - right. exists n, events, planned. split_and!; [done..|].
    destruct (pl_record planned); [by simplify_eq|]. by destruct allow.
Qed.
End results.

(** A sample store with one run, and a second worker that claims it in between. *)
Definition sample_date : DateHost := λ _ _, js "2026-01-01T00:10:00.000Z".
Definition sample_ids (n : nat) : jstr := js "evt_" ++ dec (N.of_nat n).
Definition sample_clock (_ : nat) : jstr := js "2026-01-01T00:01:00.000Z".
Definition sample_now : jstr := js "2026-01-01T00:05:40.000Z".

Definition sample_run_store (events : list DomainEvent) : DocumentStore :=
  {| st_streams := [(sample_run_stream, events)]; st_documents := [] |}.

Definition sample_claim (env : nat → DocumentStore → DocumentStore) (claimId : jstr)
    : M DocumentStore (option AutomationRunRecord) :=
  claimOne (H := sample_date) (H0 := code_unit_collation) sample_run_host sample_ids env
    (js "default") (js "r1") claimId sample_now 300.

Definition idle_env (_ : nat) (s : DocumentStore) : DocumentStore := s.

Definition rival_env (n : nat) (s : DocumentStore) : DocumentStore :=
  if decide (n = 3) then (sample_claim idle_env (js "rival") s).2 else s.

Lemma sample_run_trace : run_trace (js "default") (js "r1") sample_run_history.
Proof.
  eapply (trace_step _ _ (take 3 sample_run_history) _ (run_event 4 (js "2026-01-01T00:00:33.000Z")
     (PRunClaimed (js "r1") (js "c2") (js "2026-01-01T00:05:33.000Z")))); [|reflexivity..].
  eapply (trace_step _ _ (take 2 sample_run_history) _ (run_event 3 (js "2026-01-01T00:00:02.000Z")
     (PRunFailed (js "r1") (js "c1") (js "boom") (js "2026-01-01T00:00:32.000Z"))));
    [|reflexivity|reflexivity|by vm_compute|reflexivity].
  eapply (trace_step _ _ (take 1 sample_run_history) _ (run_event 2 (js "2026-01-01T00:00:01.000Z")
     (PRunClaimed (js "r1") (js "c1") (js "2026-01-01T00:05:01.000Z")))); [|reflexivity..].
  by eapply trace_enqueued.
Qed.

Lemma sample_run_stored : run_stored (js "default") (js "r1") sample_run_stream (sample_run_store sample_run_history).
Proof.
  split; [|right; apply sample_run_trace]. split; [apply NoDup_singleton|]. intros s.
  unfold stream_events. simpl. destruct (decide (s = sample_run_stream)) as [->|Hne]; simpl.
  - split; [apply contiguous_check; by vm_compute|]. intros e He.
    repeat (apply elem_of_cons in He as [-> |He]; [done|]). by apply elem_of_nil in He.
  - split; [by intros i e Hi; rewrite lookup_nil in Hi|]. by intros e ?%elem_of_nil.
Qed.

Lemma idle_env_lawful tenantId runId stream : env_lawful idle_env tenantId runId stream.
Proof. intros n s Hs. split; [done|]. unfold run_extends. reflexivity. Qed.

Lemma sample_run_stream_ok : automationRunStream (js "default") (js "r1") = Ok sample_run_stream.
Proof. by vm_compute. Qed.

Lemma rival_env_lawful : env_lawful rival_env (js "default") (js "r1") sample_run_stream.
Proof.
  intros n s Hs. unfold rival_env. destruct (decide (n = 3)); [|by apply (idle_env_lawful _ _ _ 0)].
  apply (service_call_life (H := sample_date) (H0 := code_unit_collation) sample_run_host sample_ids sample_clock
    idle_env (js "default") (js "r1") sample_run_stream
    (λ s, (sample_claim idle_env (js "rival") s).2) s sample_run_stream_ok (idle_env_lawful _ _ _)); [|done].
  exact (call_claim (H := sample_date) (H0 := code_unit_collation) sample_run_host sample_ids sample_clock
    idle_env (js "default") (js "r1") (js "rival") sample_now 300).
Qed.

(** C30: Whatever the other clients do between the reads and the commits of a call, as
    long as they keep to the life of the run, the call leaves a stream that
    extends the one it found and still is the life of a run: legal steps only,
    in sequence. *)
Theorem service_life (host : predicate_host) `{DateHost} `{Collation} ids clock env tenantId runId stream call s :
  automationRunStream tenantId runId = Ok stream → env_lawful env tenantId runId stream →
  service_call host ids clock env tenantId runId call → run_stored tenantId runId stream s →
  run_stored tenantId runId stream (call s) ∧ run_extends stream s (call s).
Proof. apply service_call_life. Qed.

Lemma service_life_witness :
  let s' := (sample_claim rival_env (js "mine") (sample_run_store sample_run_history)).2 in
  run_stored (js "default") (js "r1") sample_run_stream s' ∧
  run_extends sample_run_stream (sample_run_store sample_run_history) s'.
Proof.
  apply (service_life (H := sample_date) (H0 := code_unit_collation) sample_run_host sample_ids sample_clock
    rival_env (js "default") (js "r1") sample_run_stream
    (λ s, (sample_claim rival_env (js "mine") s).2) (sample_run_store sample_run_history)).
  - by vm_compute.
  - apply rival_env_lawful.
  - exact (call_claim (H := sample_date) (H0 := code_unit_collation) sample_run_host sample_ids sample_clock
      rival_env (js "default") (js "r1") (js "mine") sample_now 300).
  - apply sample_run_stored.
Defined.

(** A claim that succeeds: the record returned is the record of the stream the
    store now keeps and of the projected document; it is claimed, by this claim
    and until its expiry; the event is the last of the stream and follows exactly
    the events on which the run was found claimable. *)
Theorem claimOne_claims (host : predicate_host) `{DateHost} `{Collation} ids env tenantId runId stream
    claimId now lease s x s' :
  automationRunStream tenantId runId = Ok stream → env_lawful env tenantId runId stream →
  run_stored tenantId runId stream s →
  (∀ u, stored_record tenantId stream s' = Some u → storable_run u = true) →
  claimOne host ids env tenantId runId claimId now lease s = (Ok (Some x), s') →
  stored_record tenantId stream s' = Some x ∧
  get_document tenantId (js "__AutomationRuns") runId s' = Ok (Some (automationRunSnapshot x)) ∧
  ar_status x = RunClaimed ∧ ar_claimId x = Some claimId ∧ ar_claimExpiresAt x = Some (iso_after now lease) ∧
  ∃ events r0 saved, stream_events (st_streams s') stream = events ++ [saved] ∧
    foldAutomationRun tenantId events = Some r0 ∧ run_claimable now r0 = true ∧
    ar_attempts x = (ar_attempts r0 + 1)%Z.
Proof.
  intros Hs Henv Hst Hstor Hrun.
  destruct (service_result host ids (λ _, []) env tenantId runId stream _ true s x s' Hs Henv
    (plan_claim ids (λ _, []) runId claimId now lease) Hst Hstor Hrun)
    as [(n & events & r0 & saved & Hrec & Hevs & Hf & Hpl & Hfold & Hdoc)|(n & events & planned & _ & Hp & Hev & Hr)].
  - apply claim_plan_event in Hpl as (_ & Hat & Hpay & Hcl).
    unfold foldRunStep, isAutomationRunEvent, applyAutomationRunEvent in Hfold. rewrite Hpay in Hfold.
    simpl in Hfold. injection Hfold as <-. split_and!; try done. by exists events, r0, saved.
  - unfold claim_plan in Hp. destruct (foldAutomationRun tenantId events) as [r|]; [|done].
    simpl in Hp. rewrite claimable_one in Hp. destruct (run_claimable now r); simpl in Hp.
    + rewrite bool_decide_true in Hp by done. simpl in Hp.
      destruct (automationRunStream (ar_tenantId r) (ar_id r)); simpl in Hp; [|done]. injection Hp as <-. done.
    + injection Hp as <-. by destruct Hr.
Qed.

Lemma storable_check tenantId stream s :
  match stored_record tenantId stream s with Some u => storable_run u | None => true end = true →
  ∀ u, stored_record tenantId stream s = Some u → storable_run u = true.
Proof. intros H u Hu. by rewrite Hu in H. Qed.

(** What the sample claim returns and leaves, evaluated. *)
Definition sample_claim_result : res (option AutomationRunRecord) * DocumentStore :=
  Eval vm_compute in sample_claim idle_env (js "mine") (sample_run_store sample_run_history).

Definition sample_claimed : AutomationRunRecord :=
  Eval vm_compute in match sample_claim_result.1 with
    | Ok (Some x) => x
    | _ => pending_run [] sample_enqueued sample_created
    end.

Lemma claimOne_claims_witness :
  stored_record (js "default") sample_run_stream sample_claim_result.2 = Some sample_claimed ∧
  ar_status sample_claimed = RunClaimed ∧ ar_claimId sample_claimed = Some (js "mine").
Proof.
  destruct (claimOne_claims (H := sample_date) (H0 := code_unit_collation) sample_run_host sample_ids
    idle_env (js "default") (js "r1") sample_run_stream (js "mine") sample_now 300
    (sample_run_store sample_run_history) sample_claimed sample_claim_result.2) as (H1 & _ & H2 & H3 & _).
  - by vm_compute.
  - apply idle_env_lawful.
  - apply sample_run_stored.
  - apply storable_check. by vm_compute.
  - by vm_compute.
  - by split.
Defined.

Lemma m_require_ok (m : M DocumentStore (option AutomationRunRecord)) s x s' :
  (r ← m; m_lift (requireAutomationRunRecord r)) s = (Ok x, s') → m s = (Ok (Some x), s').
Proof. rewrite m_bind_run. destruct (m s) as [[[r|]|] s1]; simpl; intros [= -> ->]; done. Qed.

(** A prefix of a trace that is itself the stored stream's record. *)
Lemma prefix_terminal tenantId runId stream s events r :
  run_stored tenantId runId stream s → events `prefix_of` stream_events (st_streams s) stream →
  foldAutomationRun tenantId events = Some r → terminal (ar_status r) = true →
  stored_record tenantId stream s = Some r.
Proof.
  intros [_ [Hnil|Ht]] [more Hmore] Hf Hterm.
  - rewrite Hmore in Hnil. apply app_eq_nil in Hnil as [-> _]. done.
  - unfold stored_record. rewrite Hmore in Ht |- *.
    by rewrite (run_trace_absorbing _ _ _ _ _ Ht Hf Hterm), app_nil_r.
Qed.

(** Completing a run: what is returned is what the store keeps. *)
Section completions.
Context (host : predicate_host) `{DateHost} (ids clock : nat → jstr).
Context (env : nat → DocumentStore → DocumentStore) (tenantId runId stream claimId : jstr).

(** When [markDelivered] returns, the run is delivered: the record returned is
    the record of the stored stream.  Either it already was, or the last event of
    the stream is this delivery, appended to events on which the run was claimed
    under this claim. *)
Theorem markDelivered_delivers metadata s x s' :
  automationRunStream tenantId runId = Ok stream → env_lawful env tenantId runId stream →
  run_stored tenantId runId stream s →
  (∀ u, stored_record tenantId stream s' = Some u → storable_run u = true) →
  markDelivered host ids clock env tenantId runId claimId metadata s = (Ok x, s') →
  stored_record tenantId stream s' = Some x ∧ ar_status x = RunDelivered ∧
  ((∃ events, events `prefix_of` stream_events (st_streams s') stream ∧
      foldAutomationRun tenantId events = Some x) ∨
   ∃ events r0 saved, stream_events (st_streams s') stream = events ++ [saved] ∧
     foldAutomationRun tenantId events = Some r0 ∧
     ar_status r0 = RunClaimed ∧ ar_claimId r0 = Some claimId).
Proof.
  intros Hs Henv Hst Hstor Hrun%m_require_ok.
  pose proof (plan_delivered (H := λ _ _, []) (H0 := code_unit_collation) ids clock runId claimId metadata) as Hpl.
  pose proof (appendRunEvent_outcome (H := λ _ _, []) (H0 := code_unit_collation) host ids clock env _ _ _ _ false s Hs Henv Hpl Hst) as (Hst' & _).
  rewrite Hrun in Hst'.
  destruct (service_result (H := λ _ _, []) (H0 := code_unit_collation) host ids clock env _ _ _ _ _ _ _ _ Hs Henv Hpl Hst Hstor Hrun)
    as [(n & events & r0 & saved & Hrec & Hevs & Hf & Hev & Hfold & _)|(n & events & planned & Hpre & Hp & Hev & Hr)].
  - apply delivered_plan_event in Hev as (_ & Hpay & Hc & Hid). split; [done|].
    unfold foldRunStep, isAutomationRunEvent, applyAutomationRunEvent in Hfold. rewrite Hpay in Hfold.
    simpl in Hfold. injection Hfold as <-. split; [done|]. right. by exists events, r0, saved.
  - unfold delivered_plan in Hp. destruct (foldAutomationRun tenantId events) as [r|] eqn:Hf; [|done].
    cbn [requireAutomationRunRecord mbind res_bind] in Hp.
    case_bool_decide as Hd; [|inv_res; done]. injection Hp as <-. cbn in Hr. subst r.
    assert (terminal (ar_status x) = true) as Hterm by (by rewrite Hd).
    split_and!; [by eapply prefix_terminal|done|]. left. by exists events.
Qed.

(** When [markFailed] returns, the last event of the stream is this failure,
    appended to events on which the run was claimed under this claim; the run can
    be claimed again from its retry time on, and not before. *)
Theorem markFailed_fails err retryAt metadata s x s' :
  automationRunStream tenantId runId = Ok stream → env_lawful env tenantId runId stream →
  run_stored tenantId runId stream s →
  (∀ u, stored_record tenantId stream s' = Some u → storable_run u = true) →
  markFailed host ids clock env tenantId runId claimId err retryAt metadata s = (Ok x, s') →
  stored_record tenantId stream s' = Some x ∧ ar_status x = RunFailed ∧
  (∃ events r0 saved, stream_events (st_streams s') stream = events ++ [saved] ∧
     foldAutomationRun tenantId events = Some r0 ∧
     ar_status r0 = RunClaimed ∧ ar_claimId r0 = Some claimId) ∧
  ∃ at_, ar_retryAt x = Some at_ ∧ ∀ now, run_claimable now x = jstr_leb at_ now.
Proof.
  intros Hs Henv Hst Hstor Hrun. unfold markFailed in Hrun. rewrite m_bind_run in Hrun.
  unfold m_lift at 1 in Hrun.
  destruct (automationRunFailureError err) as [norm|e]; [|done]. apply m_require_ok in Hrun.
  pose proof (plan_failed (H0 := code_unit_collation) ids clock runId claimId norm retryAt metadata) as Hpl.
  destruct (service_result (H0 := code_unit_collation) host ids clock env _ _ _ _ _ _ _ _ Hs Henv Hpl Hst Hstor Hrun)
    as [(n & events & r0 & saved & Hrec & Hevs & Hf & Hev & Hfold & _)|(n & events & planned & Hpre & Hp & Hev & Hr)].
  - apply failed_plan_event in Hev as (_ & [at_ Hpay] & Hc & Hid). split; [done|].
    unfold foldRunStep, isAutomationRunEvent, applyAutomationRunEvent in Hfold. rewrite Hpay in Hfold.
    simpl in Hfold. injection Hfold as <-. split; [done|]. split; [by exists events, r0, saved|].
    exists at_. split; [done|]. intros now. unfold run_claimable, automationRunRetryDue, automationRunClaimExpired.
    simpl. by rewrite orb_false_r.
  - unfold failed_plan in Hp. destruct (foldAutomationRun tenantId events) as [r|] eqn:Hf; [|done].
    cbn [requireAutomationRunRecord mbind res_bind] in Hp. inv_res. done.
Qed.
End completions.

Definition sample_delivered_result : res AutomationRunRecord * DocumentStore :=
  Eval vm_compute in markDelivered sample_run_host sample_ids sample_clock idle_env (js "default") (js "r1")
    (js "c2") None (sample_run_store sample_run_history).

Definition sample_delivered : AutomationRunRecord :=
  Eval vm_compute in match sample_delivered_result.1 with Ok x => x | Throw _ => sample_claimed end.

Lemma markDelivered_delivers_witness :
  stored_record (js "default") sample_run_stream sample_delivered_result.2 = Some sample_delivered ∧
  ar_status sample_delivered = RunDelivered.
Proof.
  destruct (markDelivered_delivers sample_run_host sample_ids sample_clock idle_env (js "default") (js "r1")
    sample_run_stream (js "c2") None (sample_run_store sample_run_history) sample_delivered sample_delivered_result.2)
    as (H1 & H2 & _).
  - by vm_compute.
  - apply idle_env_lawful.
  - apply sample_run_stored.
  - apply storable_check. by vm_compute.
  - by vm_compute.
  - by split.
Defined.

Definition sample_failed_result : res AutomationRunRecord * DocumentStore :=
  Eval vm_compute in markFailed (H := sample_date) sample_run_host sample_ids sample_clock idle_env (js "default")
    (js "r1") (js "c2") (js " boom ") None None (sample_run_store sample_run_history).

Definition sample_failed : AutomationRunRecord :=
  Eval vm_compute in match sample_failed_result.1 with Ok x => x | Throw _ => sample_claimed end.

Lemma markFailed_fails_witness :
  stored_record (js "default") sample_run_stream sample_failed_result.2 = Some sample_failed ∧
  ar_status sample_failed = RunFailed.
Proof.
  destruct (markFailed_fails (H := sample_date) sample_run_host sample_ids sample_clock idle_env (js "default")
    (js "r1") sample_run_stream (js "c2") (js " boom ") None None (sample_run_store sample_run_history) sample_failed
    sample_failed_result.2) as (H1 & H2 & _).
  - by vm_compute.
  - apply idle_env_lawful.
  - apply sample_run_stored.
  - apply storable_check. by vm_compute.
  - by vm_compute.
  - by split.
Defined.

Lemma run_terminal_witness :
  let events := sample_run_history ++ [run_event 5 sample_now (PRunDelivered (js "r1") (js "c2"))] in
  run_trace (js "default") (js "r1") (events ++ []) ∧ (@nil DomainEvent) = [].
Proof.
  intros events.
  assert (run_trace (js "default") (js "r1") (events ++ [])) as Ht.
  { rewrite app_nil_r. eapply (trace_step _ _ sample_run_history); [apply sample_run_trace|reflexivity..| |reflexivity].
    by vm_compute. }
  split; [exact Ht|].
  eapply (run_terminal (js "default") (js "r1") events [] _ Ht); [reflexivity|]. left. reflexivity.
Defined.

Lemma claim_lease_witness :
  let expires := js "2026-01-01T00:05:33.000Z" in
  let c1 := run_event 4 (js "2026-01-01T00:00:33.000Z") (PRunClaimed (js "r1") (js "c2") expires) in
  let c2 := run_event 5 sample_now (PRunClaimed (js "r1") (js "c3") (js "2026-01-01T00:10:40.000Z")) in
  run_trace (js "default") (js "r1") (take 3 sample_run_history ++ [c1; c2]) ∧
  jstr_leb expires (e_occurredAt c2) = true.
Proof.
  intros expires c1 c2.
  assert (run_trace (js "default") (js "r1") (take 3 sample_run_history ++ [c1; c2])) as Ht.
  { change (take 3 sample_run_history ++ [c1; c2]) with (sample_run_history ++ [c2]).
    eapply (trace_step _ _ sample_run_history); [apply sample_run_trace|reflexivity..]. }
  split; [exact Ht|].
  exact (claim_lease (js "default") (js "r1") (take 3 sample_run_history) c1 c2 (js "c2") (js "c3") expires _
    Ht eq_refl eq_refl).
Defined.
