(* ===== verification/AutomationRules.v ===== *)
(** * AutomationRules: which actions an event triggers

    Models [core/automation-rules.ts] and [core/document-change.ts]: the changes
    between two snapshots, the rules of a doctype and their normalization, the
    match of a rule with an event, and the actions it resolves.  Rules are typed
    data here: the checks of [typeof] on them are the types of the records. *)

From S2P Require Export Normalize Predicates Fold.

(** ** Changes between two snapshots *)

Record DocumentFieldChange := { dfc_before : value; dfc_after : value }.

Record DocumentChangeContext := {
  dcc_before : option DocumentSnapshot;
  dcc_after : option DocumentSnapshot;
  dcc_touchedFields : list jstr;
  dcc_changedFields : list jstr;
  dcc_changes : list (jstr * DocumentFieldChange)
}.

(** [uniqueSorted(values)]. *)
Definition uniqueSorted (values : list jstr) : list jstr := sort_strings (js_unique values).

(** [snapshot?.data ?? {}]. *)
Definition snapshot_data (s : option DocumentSnapshot) : data :=
  match s with Some s => ds_data s | None => [] end.

(** [documentChangeContext(before, after, touchedFields)]. *)
Definition documentChangeContext (before after : option DocumentSnapshot) (touchedFields : option (list jstr))
    : DocumentChangeContext :=
  let candidateFields := uniqueSorted (jm_keys (snapshot_data before) ++ jm_keys (snapshot_data after)) in
  let normalizedTouched := match touchedFields with None => candidateFields | Some l => uniqueSorted l end in
  let changes := foldl (λ changes field,
    let previous := vget field (snapshot_data before) in
    let next := vget field (snapshot_data after) in
    if negb (jsonValuesEqual previous next)
    then jm_set field {| dfc_before := previous; dfc_after := next |} changes
    else changes) [] candidateFields in
  {| dcc_before := before; dcc_after := after; dcc_touchedFields := normalizedTouched;
     dcc_changedFields := sort_strings (jm_keys changes); dcc_changes := changes |}.

(** [changedDocumentValue(context, field)]. *)
Definition changedDocumentValue (context : DocumentChangeContext) (field : jstr) : option DocumentFieldChange :=
  jm_get field (dcc_changes context).

(** ** Rules *)

Definition AUTOMATION_RULE_EVENT_KINDS : list jstr :=
  [js "DocumentCreated"; js "DocumentUpdated"; js "DocumentSubmitted"; js "DocumentCancelled";
   js "WorkflowTransitioned"; js "DomainCommandApplied"].

Definition isAutomationRuleEventKind (kind : jstr) : bool := bool_decide (kind ∈ AUTOMATION_RULE_EVENT_KINDS).

Definition DEFAULT_MAX_AUTOMATION_RULES : Z := 64.
Definition DEFAULT_MAX_AUTOMATION_ACTIONS_PER_RULE : Z := 16.

(** [AutomationNormalizationLimits]. *)
Record AutomationNormalizationLimits := {
  anl_maxRules : option Z;
  anl_maxActionsPerRule : option Z
}.

Definition invalid_rule : error := FrameworkError AUTOMATION_RULE_INVALID 400.

(** [positiveLimit(value, fallback, label)], [normalizeRequiredText(value, label)]
    and [normalizeStableId(value, label)]. *)
Definition positiveLimit (v : option Z) (fallback : Z) : res Z := positive_limit invalid_rule v fallback.
Definition normalizeRequiredText (v : jstr) : res jstr := required_text invalid_rule v.
Definition normalizeStableId (v : jstr) : res jstr := stable_text invalid_rule v.

Definition optionalStableId (v : option jstr) : res (option jstr) := optional_res normalizeStableId v.

(** [normalizeJsonValue(value, label)]. *)
Definition normalizeJsonValue (v : value) : res value :=
  _ ← ensure (isJsonValueAtDepth v (Some 16) 0) invalid_rule;
  Ok (cloneJsonValue v).

(** [requireAutomationField(doctype, field)]. *)
Definition requireAutomationField (doctype : DocTypeDefinition) (field : jstr) : res unit :=
  ensure (existsb (λ candidate, bool_decide (fd_name candidate = field)) (dt_fields doctype)) invalid_rule.

(** The loops that normalize an array and refuse a repeated key. *)
Abbreviation normalize_distinct := (distinct_loop invalid_rule).

(** [normalizeEventKinds(values)]. *)
Definition normalizeEventKinds (values : list jstr) : res (list jstr) :=
  _ ← ensure (negb (bool_decide (values = []))) invalid_rule;
  normalize_distinct (λ v, _ ← ensure (isAutomationRuleEventKind v) invalid_rule; Ok v) id values.

(** [normalizeFieldNames(doctype, values, property)]. *)
Definition normalizeFieldNames (doctype : DocTypeDefinition) (values : option (list jstr))
    : res (option (list jstr)) :=
  match values with
  | None => Ok None
  | Some values =>
      _ ← ensure (negb (bool_decide (values = []))) invalid_rule;
      l ← normalize_distinct (λ v, field ← normalizeRequiredText v; _ ← requireAutomationField doctype field; Ok field)
            id values;
      Ok (Some l)
  end.

(** [selector.from === undefined ? {} : { from: normalizeJsonValue(...) }]. *)
Definition normalize_optional_json (v : option value) : res (option value) :=
  optional_res normalizeJsonValue v.

(** [normalizeChangeSelectors(doctype, selectors)]. *)
Definition normalizeChangeSelectors (doctype : DocTypeDefinition)
    (selectors : option (list AutomationChangeSelectorDefinition))
    : res (option (list AutomationChangeSelectorDefinition)) :=
  match selectors with
  | None => Ok None
  | Some selectors =>
      _ ← ensure (negb (bool_decide (length selectors = 0))) invalid_rule;
      l ← normalize_distinct (λ selector,
            field ← normalizeRequiredText (acs_field selector);
            _ ← requireAutomationField doctype field;
            from ← normalize_optional_json (acs_from selector);
            to ← normalize_optional_json (acs_to selector);
            Ok {| acs_field := field; acs_from := from; acs_to := to |}) acs_field selectors;
      Ok (Some l)
  end.

(** [normalizeValueExpression(doctype, value, label)]. *)
Definition normalizeValueExpression (doctype : DocTypeDefinition) (e : AutomationValueExpression)
    : res AutomationValueExpression :=
  match e with
  | XLiteral v => v ← normalizeJsonValue v; Ok (XLiteral v)
  | XField f =>
      field ← normalizeRequiredText f;
      _ ← requireAutomationField doctype field;
      Ok (XField field)
  | XDocumentName => Ok XDocumentName
  | XActor => Ok XActor
  end.

(** [normalizePatch(doctype, patch)]. *)
Definition normalizePatch (doctype : DocTypeDefinition) (patch : list (jstr * AutomationValueExpression))
    : res (list (jstr * AutomationValueExpression)) :=
  _ ← ensure (negb (bool_decide (length patch = 0))) invalid_rule;
  foldl_res (λ normalized entry,
    field ← normalizeRequiredText entry.1;
    expression ← normalizeValueExpression doctype entry.2;
    Ok (jm_set field expression normalized)) [] patch.

(** [normalizeAction(doctype, action)]. *)
Definition normalizeAction (doctype : DocTypeDefinition) (action : AutomationActionDefinition)
    : res AutomationActionDefinition :=
  id ← normalizeStableId (aa_id action);
  targetDoctype ← normalizeRequiredText (aa_doctype action);
  targetName ← normalizeValueExpression doctype (aa_name action);
  patch ← normalizePatch doctype (aa_patch action);
  Ok {| aa_id := id; aa_doctype := targetDoctype; aa_name := targetName; aa_patch := patch |}.

(** [normalizeActions(doctype, values, limits)]. *)
Definition normalizeActions (doctype : DocTypeDefinition) (values : list AutomationActionDefinition)
    (limits : AutomationNormalizationLimits) : res (list AutomationActionDefinition) :=
  _ ← ensure (negb (bool_decide (length values = 0))) invalid_rule;
  maxActions ← positiveLimit (anl_maxActionsPerRule limits) DEFAULT_MAX_AUTOMATION_ACTIONS_PER_RULE;
  _ ← ensure (negb (maxActions <? Z.of_nat (length values))%Z) invalid_rule;
  normalize_distinct (normalizeAction doctype) aa_id values.

(** [normalizeTrigger(doctype, trigger)]. *)
Definition normalizeTrigger (doctype : DocTypeDefinition) (trigger : AutomationTriggerDefinition)
    : res AutomationTriggerDefinition :=
  events ← normalizeEventKinds (atd_events trigger);
  touchedFields ← normalizeFieldNames doctype (atd_touchedFields trigger);
  changes ← normalizeChangeSelectors doctype (atd_changes trigger);
  workflow ← optionalStableId (atd_workflow trigger);
  workflowAction ← optionalStableId (atd_workflowAction trigger);
  domainCommand ← optionalStableId (atd_domainCommand trigger);
  _ ← ensure (negb (bool_decide (workflowAction ≠ None) && bool_decide (workflow = None))) invalid_rule;
  _ ← ensure (negb ((bool_decide (workflow ≠ None) || bool_decide (workflowAction ≠ None)) &&
                    negb (bool_decide (js "WorkflowTransitioned" ∈ events)) &&
                    negb (bool_decide (js "DomainCommandApplied" ∈ events)))) invalid_rule;
  _ ← ensure (negb (bool_decide (domainCommand ≠ None) &&
                    negb (bool_decide (js "DomainCommandApplied" ∈ events)))) invalid_rule;
  Ok {| atd_events := events; atd_touchedFields := touchedFields; atd_changes := changes;
        atd_workflow := workflow; atd_workflowAction := workflowAction; atd_domainCommand := domainCommand |}.

(** The options that [normalizeAutomationRule] gives [normalizePredicateExpression]. *)
Definition run_when_options : NormalizeOptions :=
  {| no_availableScopes := Some [ScBefore; ScAfter; ScInput; ScEvent; ScActor];
     no_errorCode := Some AUTOMATION_RULE_INVALID; no_maxDepth := None; no_maxNodes := None |}.

(** [normalizeAutomationRule(doctype, rule, limits)]. *)
Definition normalizeAutomationRule (doctype : DocTypeDefinition) (rule : AutomationRuleDefinition)
    (limits : AutomationNormalizationLimits) : res AutomationRuleDefinition :=
  id ← normalizeStableId (aru_id rule);
  name ← normalizeRequiredText (aru_name rule);
  trigger ← normalizeTrigger doctype (aru_trigger rule);
  runWhen ← match aru_runWhen rule with
            | None => Ok None
            | Some e => e ← normalizePredicateExpression doctype e run_when_options; Ok (Some e)
            end;
  actions ← normalizeActions doctype (aru_actions rule) limits;
  Ok {| aru_id := id; aru_name := name; aru_enabled := aru_enabled rule; aru_trigger := trigger;
        aru_runWhen := runWhen; aru_actions := actions |}.

(** [normalizeAutomationRules(doctype, rules, limits)]. *)
Definition normalizeAutomationRules (doctype : DocTypeDefinition) (rules : option (list AutomationRuleDefinition))
    (limits : AutomationNormalizationLimits) : res (option (list AutomationRuleDefinition)) :=
  match rules with
  | None => Ok None
  | Some rules =>
      maxRules ← positiveLimit (anl_maxRules limits) DEFAULT_MAX_AUTOMATION_RULES;
      _ ← ensure (negb (maxRules <? Z.of_nat (length rules))%Z) invalid_rule;
      r ← foldl_res (λ (acc : list AutomationRuleDefinition * list jstr * list jstr) rule,
            let '(normalized, ids, names) := acc in
            normalizedRule ← normalizeAutomationRule doctype rule limits;
            _ ← ensure (negb (bool_decide (aru_id normalizedRule ∈ ids))) invalid_rule;
            _ ← ensure (negb (bool_decide (aru_name normalizedRule ∈ names))) invalid_rule;
            Ok (normalized ++ [normalizedRule], js_add (aru_id normalizedRule) ids,
                js_add (aru_name normalizedRule) names)) ([], [], []) rules;
      Ok (Some r.1.1)
  end.

(** ** Evaluation *)

(** [AutomationRuleMatchContext]; [rmc_eventObject] and [rmc_actorObject] are the
    event and the actor as the plain objects a predicate path reads. *)
Record AutomationRuleMatchContext := {
  rmc_event : DomainEvent;
  rmc_change : DocumentChangeContext;
  rmc_input : data;
  rmc_eventObject : value;
  rmc_actorObject : value
}.

(** [automationChangeSelectorMatches(selector, change)]. *)
Definition automationChangeSelectorMatches (selector : AutomationChangeSelectorDefinition)
    (change : DocumentChangeContext) : bool :=
  match jm_get (acs_field selector) (dcc_changes change) with
  | None => false
  | Some fieldChange =>
      match acs_from selector with None => true | Some v => jsonValuesEqual (dfc_before fieldChange) v end &&
      match acs_to selector with None => true | Some v => jsonValuesEqual (dfc_after fieldChange) v end
  end.

(** A selector that is absent matches; a present one must be this string. *)
Definition optional_is (selector : option jstr) (actual : value) : bool :=
  match selector with None => true | Some s => match actual with VStr t => bool_decide (t = s) | _ => false end end.

(** [workflowIdentityMatches(trigger, payload)]. *)
Definition workflowIdentityMatches (trigger : AutomationTriggerDefinition) (p : payload) : bool :=
  match p with
  | PWorkflowTransitioned workflow _ action _ _ _ =>
      optional_is (atd_workflow trigger) workflow && optional_is (atd_workflowAction trigger) action
  | PDomainCommandApplied _ _ _ transitions =>
      existsb (λ t, optional_is (atd_workflow trigger) (VStr (tf_workflow t)) &&
                    optional_is (atd_workflowAction trigger) (VStr (tf_action t))) transitions
  | _ => false
  end.

(** [triggerIdentityMatches(trigger, event)]. *)
Definition triggerIdentityMatches (trigger : AutomationTriggerDefinition) (event : DomainEvent) : bool :=
  let p := e_payload event in
  if (bool_decide (atd_workflow trigger ≠ None) || bool_decide (atd_workflowAction trigger ≠ None)) &&
     negb (workflowIdentityMatches trigger p) then false
  else match atd_domainCommand trigger with
  | None => true
  | Some command => match p with PDomainCommandApplied c _ _ _ => bool_decide (c = command) | _ => false end
  end.

(** [automationRuleMatches(rule, context)]. *)
Definition automationRuleMatches (host : predicate_host) (rule : AutomationRuleDefinition)
    (context : AutomationRuleMatchContext) : bool :=
  let trigger := aru_trigger rule in
  if bool_decide (aru_enabled rule = Some false) ||
     negb (bool_decide (domainEventPayloadKind (rmc_event context) ∈ atd_events trigger)) then false
  else if negb (triggerIdentityMatches trigger (rmc_event context)) then false
  else if match atd_touchedFields trigger with
          | None => false
          | Some fields => negb (existsb (λ field, bool_decide (field ∈ dcc_touchedFields (rmc_change context))) fields)
          end then false
  else if match atd_changes trigger with
          | None => false
          | Some selectors =>
              negb (existsb (λ selector, automationChangeSelectorMatches selector (rmc_change context)) selectors)
          end then false
  else evaluatePredicateExpression host (aru_runWhen rule)
         {| pc_before := dcc_before (rmc_change context); pc_after := dcc_after (rmc_change context);
            pc_input := rmc_input context; pc_event := rmc_eventObject context;
            pc_actor := rmc_actorObject context |}.

(** [resolveAutomationValue(expression, event, snapshot)]. *)
Definition resolveAutomationValue (expression : AutomationValueExpression) (event : DomainEvent)
    (snapshot : DocumentSnapshot) : value :=
  match expression with
  | XLiteral v => v
  | XDocumentName => VStr (ds_name snapshot)
  | XActor => VStr (e_actorId event)
  | XField field => vget field (ds_data snapshot)
  end.

(** [resolveUpdateDocumentAction(action, event, snapshot)], which
    [resolveAutomationAction] is. *)
Definition resolveUpdateDocumentAction (action : AutomationActionDefinition) (event : DomainEvent)
    (snapshot : DocumentSnapshot) : option ResolvedAutomationAction :=
  match resolveAutomationValue (aa_name action) event snapshot with
  | VStr name =>
      if bool_decide (trim name = []) then None
      else
        let patch := foldl (λ patch (entry : jstr * AutomationValueExpression),
          match resolveAutomationValue entry.2 event snapshot with
          | VUndef => patch
          | v => jm_set entry.1 v patch
          end) [] (aa_patch action) in
        if bool_decide (length patch = 0) then None
        else Some {| raa_doctype := aa_doctype action; raa_name := trim name; raa_patch := patch |}
  | _ => None
  end.

Definition resolveAutomationAction := resolveUpdateDocumentAction.

(** One character of [value.replaceAll("%", "%25")] and of [replaceAll(":", "%3A")]. *)
Definition escape_percent (c : N) : jstr := if decide (c = 37%N) then js "%25" else [c].
Definition escape_colon (c : N) : jstr := if decide (c = 58%N) then js "%3A" else [c].

(** [automationIdentityPart(value)]. *)
Definition automationIdentityPart (v : jstr) : jstr := flat_map escape_colon (flat_map escape_percent v).

Definition automationActionIdentity (ruleId actionId : jstr) : jstr :=
  automationIdentityPart ruleId ++ js ":" ++ automationIdentityPart actionId.

Definition automationActionId (sourceEventId ruleId actionId : jstr) : jstr :=
  automationIdentityPart sourceEventId ++ js ":" ++ automationActionIdentity ruleId actionId.

(** [ResolvedAutomationAction] of [automation-rules.ts]: an action and its run. *)
Record TriggeredAction := {
  ta_runId : jstr;
  ta_ruleId : jstr;
  ta_ruleName : jstr;
  ta_actionId : jstr;
  ta_action : ResolvedAutomationAction
}.

(** [automationActionsFromDomainEvent(context)]. *)
Definition automationActionsFromDomainEvent (host : predicate_host) (rules : list AutomationRuleDefinition)
    (context : AutomationRuleMatchContext) : list TriggeredAction :=
  match dcc_after (rmc_change context) with
  | None => []
  | Some snapshot =>
      if bool_decide (ds_docstatus snapshot = Deleted) ||
         negb (isAutomationRuleEventKind (domainEventPayloadKind (rmc_event context))) then []
      else
        flat_map (λ rule,
          if automationRuleMatches host rule context then
            omap (λ action,
              resolved ← resolveAutomationAction action (rmc_event context) snapshot;
              Some {| ta_runId := automationActionId (e_id (e_new (rmc_event context))) (aru_id rule) (aa_id action);
                      ta_ruleId := aru_id rule; ta_ruleName := aru_name rule; ta_actionId := aa_id action;
                      ta_action := resolved |}) (aru_actions rule)
          else []) rules
  end.


(** ** Run identifiers *)

Definition escape_id (c : N) : jstr := flat_map escape_colon (escape_percent c).

Lemma automationIdentityPart_eq s : automationIdentityPart s = flat_map escape_id s.
Proof.
  unfold automationIdentityPart. induction s as [|c s IH]; [done|]. simpl. by rewrite flat_map_app, IH.
Qed.

Lemma escape_id_cases c :
  (c = 37%N ∧ escape_id c = js "%25") ∨ (c = 58%N ∧ escape_id c = js "%3A") ∨
  (c ≠ 37%N ∧ c ≠ 58%N ∧ escape_id c = [c]).
Proof.
  unfold escape_id, escape_percent, escape_colon.
  destruct (decide (c = 37%N)) as [-> |H1]; [by left|].
  destruct (decide (c = 58%N)) as [-> |H2]; [by right; left|]. right; right. simpl.
  rewrite decide_False by done. done.
Qed.

(** An escaped part followed by the separator determines the part. *)
Lemma escape_id_inj s t u v :
  flat_map escape_id s ++ 58%N :: u = flat_map escape_id t ++ 58%N :: v → s = t ∧ u = v.
Proof.
  revert t. induction s as [|c s IH]; intros [|d t] E; cbn [flat_map app] in E.
  - by injection E.
  - destruct (escape_id_cases d) as [[-> Ed]|[[-> Ed]|(H1 & H2 & Ed)]]; rewrite Ed in E; simplify_eq/=.
  - destruct (escape_id_cases c) as [[-> Ec]|[[-> Ec]|(H1 & H2 & Ec)]]; rewrite Ec in E; simplify_eq/=.
  - rewrite <-!(assoc_L (++)) in E.
    destruct (escape_id_cases c) as [[-> Ec]|[[-> Ec]|(H1 & H2 & Ec)]],
             (escape_id_cases d) as [[-> Ed]|[[-> Ed]|(H3 & H4 & Ed)]];
      rewrite Ec, ?Ed in E; simpl in E; try (by simplify_eq/=);
      injection E; intros; simplify_eq; edestruct IH as [-> ->]; done.
Qed.

Lemma actionIdentity_inj r a r' a' :
  automationActionIdentity r a = automationActionIdentity r' a' → r = r' ∧ a = a'.
Proof.
  unfold automationActionIdentity. rewrite !automationIdentityPart_eq. intros E.
  apply escape_id_inj in E as [-> E]. split; [done|].
  apply (f_equal (λ l, l ++ [58%N])) in E. by apply escape_id_inj in E as [-> _].
Qed.

Lemma actionId_inj e r a e' r' a' :
  automationActionId e r a = automationActionId e' r' a' → e = e' ∧ r = r' ∧ a = a'.
Proof.
  unfold automationActionId. rewrite !automationIdentityPart_eq. intros E.
  apply escape_id_inj in E as [-> E]. by apply actionIdentity_inj in E as [-> ->].
Qed.

(** The identifier of a run names its event, its rule and its action, whatever
    characters they hold: two triggers share a run only when they are the same. *)
Theorem automationActionId_inj e r a e' r' a' :
  automationActionId e r a = automationActionId e' r' a' → e = e' ∧ r = r' ∧ a = a'.
Proof. apply actionId_inj. Qed.

Lemma automationActionId_inj_witness :
  automationActionId (js "e:1") (js "r%") (js "a") = automationActionId (js "e:1") (js "r%") (js "a") ∧
  js "r%" = js "r%".
Proof. split; [reflexivity|]. by apply (automationActionId_inj (js "e:1") (js "r%") (js "a") (js "e:1") (js "r%") (js "a")). Defined.

(** ** Normalization *)

Lemma normalizeRequiredText_ok v v' :
  normalizeRequiredText v = Ok v' → v' = trim v ∧ normalizeRequiredText v' = Ok v'.
Proof. intros (? & _ & ?)%required_text_ok. done. Qed.

Lemma normalizeStableId_ok v v' : normalizeStableId v = Ok v' → normalizeStableId v' = Ok v'.
Proof. apply stable_text_settles. Qed.

Lemma optionalStableId_ok v v' : optionalStableId v = Ok v' → optionalStableId v' = Ok v'.
Proof. apply optional_res_settles, stable_text_settles. Qed.

Lemma normalizeJsonValue_ok v v' : normalizeJsonValue v = Ok v' → normalizeJsonValue v' = Ok v'.
Proof.
  unfold normalizeJsonValue. rewrite cloneJsonValue_id. intros H. inv_res. rewrite cloneJsonValue_id. by rewrite H.
Qed.

Lemma normalize_optional_json_ok v v' : normalize_optional_json v = Ok v' → normalize_optional_json v' = Ok v'.
Proof. apply optional_res_settles. intros x y. apply normalizeJsonValue_ok. Qed.

Lemma normalizeEventKinds_settles : settles normalizeEventKinds.
Proof.
  intros l l'. unfold normalizeEventKinds. intros H. inv_res. pose proof (distinct_loop_length _ _ _ _ _ H0) as Hlen.
  apply distinct_loop_settles in H0.
  - rewrite bool_decide_false; [by rewrite H0|]. intros ->. by destruct l.
  - intros v w Hv. apply bind_ok in Hv as (u & Hk & Hv). inv_res. by rewrite Hk.
Qed.

Lemma required_field_settles doctype :
  settles (λ v, field ← normalizeRequiredText v; _ ← requireAutomationField doctype field; Ok field).
Proof.
  intros v v' H. inv_res. apply normalizeRequiredText_ok in H as [_ H]. rewrite H. cbn [mbind res_bind].
  by rewrite H0.
Qed.

Lemma normalizeFieldNames_settles doctype : settles (normalizeFieldNames doctype).
Proof.
  intros [l|] l' H; simpl in H; inv_res; [|done]. pose proof (distinct_loop_length _ _ _ _ _ H0) as Hlen.
  apply (distinct_loop_settles _ _ _ (required_field_settles doctype)) in H0. simpl.
  rewrite bool_decide_false; [by rewrite H0|]. intros ->. by destruct l.
Qed.

Lemma selector_settles doctype :
  settles (λ selector,
    field ← normalizeRequiredText (acs_field selector);
    _ ← requireAutomationField doctype field;
    from ← normalize_optional_json (acs_from selector);
    to ← normalize_optional_json (acs_to selector);
    Ok {| acs_field := field; acs_from := from; acs_to := to |}).
Proof.
  intros v v' H. inv_res. cbn [acs_field acs_from acs_to].
  apply normalizeRequiredText_ok in H as [_ ->]. apply normalize_optional_json_ok in H1, H2.
  cbn [mbind res_bind]. rewrite H0. cbn [mbind res_bind]. rewrite H1. cbn [mbind res_bind]. by rewrite H2.
Qed.

Lemma normalizeChangeSelectors_settles doctype : settles (normalizeChangeSelectors doctype).
Proof.
  intros [l|] l' H; simpl in H; inv_res; [|done]. pose proof (distinct_loop_length _ _ _ _ _ H0) as Hlen.
  apply (distinct_loop_settles _ _ _ (selector_settles doctype)) in H0. simpl.
  rewrite Hlen, H. cbn [ensure mbind res_bind]. by rewrite H0.
Qed.

Lemma normalizeValueExpression_settles doctype : settles (normalizeValueExpression doctype).
Proof.
  intros e e' H. destruct e; simpl in H; inv_res; try done; simpl.
  - apply normalizeJsonValue_ok in H. by rewrite H.
  - apply normalizeRequiredText_ok in H as [_ ->]. simpl. by rewrite H0.
Qed.

(** The patch: every entry settles and the keys are distinct. *)
Definition patch_normal (doctype : DocTypeDefinition) (m : list (jstr * AutomationValueExpression)) : Prop :=
  jm_wf m ∧ ∀ entry, entry ∈ m →
    normalizeRequiredText entry.1 = Ok entry.1 ∧ normalizeValueExpression doctype entry.2 = Ok entry.2.

(** One entry added to a normal patch. *)
Lemma patch_step doctype (m m' : list (jstr * AutomationValueExpression)) entry :
  patch_normal doctype m →
  (field ← normalizeRequiredText entry.1;
   expression ← normalizeValueExpression doctype entry.2;
   Ok (jm_set field expression m)) = Ok m' →
  patch_normal doctype m' ∧ m' ≠ [].
Proof.
  intros [Hwf Hall] H. apply bind_ok in H as (field & Hf & H). apply bind_ok in H as (e & He & [= <-]).
  apply normalizeRequiredText_ok in Hf as [_ Hf]. apply normalizeValueExpression_settles in He.
  split; [split|].
  - by apply jm_wf_set.
  - intros x [-> |Hin]%jm_set_elem; [done|by apply Hall].
  - destruct m as [|[k v] m]; [done|]. simpl. by destruct (decide _).
Qed.

Lemma normalizePatch_normal doctype patch m :
  normalizePatch doctype patch = Ok m → patch_normal doctype m ∧ m ≠ [].
Proof.
  unfold normalizePatch. intros H. apply bind_ok in H as (u & Hne & H).
  apply ensure_ok, negb_true_iff, bool_decide_eq_false in Hne.
  destruct patch as [|entry patch]; [done|]. clear u Hne. cbn [foldl_res] in H.
  apply bind_ok in H as (m0 & H0 & H). apply patch_step in H0; [|split; [constructor|by intros ? ?%elem_of_nil]].
  revert m0 H H0. induction patch as [|x patch IH]; intros m0 H Hm0; cbn [foldl_res] in H; [by injection H as <-|].
  apply bind_ok in H as (m1 & H1 & H). eapply IH; [exact H|]. eapply patch_step; [apply Hm0|exact H1].
Qed.

Lemma normalizePatch_id doctype m : patch_normal doctype m → m ≠ [] → normalizePatch doctype m = Ok m.
Proof.
  intros [Hwf Hall] Hne. unfold normalizePatch. rewrite bool_decide_false by (by destruct m).
  cbn [negb ensure mbind res_bind].
  assert (H : ∀ l acc, (∀ entry, entry ∈ l → normalizeRequiredText entry.1 = Ok entry.1 ∧
      normalizeValueExpression doctype entry.2 = Ok entry.2) → jm_wf (acc ++ l) →
    foldl_res (λ normalized entry, field ← normalizeRequiredText entry.1;
      expression ← normalizeValueExpression doctype entry.2; Ok (jm_set field expression normalized)) acc l
    = Ok (acc ++ l)).
  { clear. induction l as [|[k v] l IH]; intros acc Hall Hwf; cbn [foldl_res]; [by rewrite app_nil_r|].
    destruct (Hall (k, v)) as [H1 H2]; [left|]. cbn [fst snd] in *. rewrite H1. cbn [mbind res_bind].
    rewrite H2. cbn [mbind res_bind].
    rewrite jm_set_new.
    - rewrite IH; [by rewrite <-(assoc_L (++))| |by rewrite <-(assoc_L (++))]. intros e He. apply Hall. by right.
    - intros Hk. unfold jm_wf, jm_keys in Hwf. rewrite fmap_app in Hwf.
      apply NoDup_app in Hwf as (_ & Hd & _). apply (Hd k Hk). left. }
  by apply (H m []).
Qed.

Lemma normalizeAction_settles doctype : settles (normalizeAction doctype).
Proof.
  intros a a' H. unfold normalizeAction in *.
  step_ok H as i Hi. step_ok H as d Hd. step_ok H as n Hn. step_ok H as m Hm. injection H as <-.
  cbn [aa_id aa_doctype aa_name aa_patch].
  apply normalizeStableId_ok in Hi as ->. apply normalizeRequiredText_ok in Hd as [_ ->].
  apply normalizeValueExpression_settles in Hn. apply normalizePatch_normal in Hm as [Hm Hne].
  cbn [mbind res_bind]. rewrite Hn. cbn [mbind res_bind]. by rewrite normalizePatch_id.
Qed.

Lemma normalizeActions_settles doctype limits : settles (λ l, normalizeActions doctype l limits).
Proof.
  intros l l' H. unfold normalizeActions in *.
  step_ok H as u1 Hne. step_ok H as n Hn. step_ok H as u2 Hle.
  pose proof (distinct_loop_length _ _ _ _ _ H) as Hlen.
  apply (distinct_loop_settles _ _ _ (normalizeAction_settles doctype)) in H.
  rewrite Hlen, Hne. cbn [mbind res_bind]. rewrite Hn. cbn [mbind res_bind].
  by rewrite Hle.
Qed.

Lemma normalizeTrigger_settles doctype : settles (normalizeTrigger doctype).
Proof.
  intros t t' H. unfold normalizeTrigger in *.
  step_ok H as events He. step_ok H as touched Ht. step_ok H as changes Hc. step_ok H as w Hw.
  step_ok H as wa Hwa. step_ok H as c Hdc. step_ok H as u1 H1. step_ok H as u2 H2. step_ok H as u3 H3.
  injection H as <-.
  cbn [atd_events atd_touchedFields atd_changes atd_workflow atd_workflowAction atd_domainCommand].
  apply normalizeEventKinds_settles in He as ->. cbn [mbind res_bind].
  apply normalizeFieldNames_settles in Ht as ->. cbn [mbind res_bind].
  apply normalizeChangeSelectors_settles in Hc as ->. cbn [mbind res_bind].
  apply optionalStableId_ok in Hw as ->. cbn [mbind res_bind].
  apply optionalStableId_ok in Hwa as ->. cbn [mbind res_bind].
  apply optionalStableId_ok in Hdc as ->. cbn [mbind res_bind].
  rewrite H1. cbn [mbind res_bind]. rewrite H2. cbn [mbind res_bind]. by rewrite H3.
Qed.

Lemma normalizeAutomationRule_settles doctype limits : settles (λ r, normalizeAutomationRule doctype r limits).
Proof.
  intros r r' H. unfold normalizeAutomationRule in *.
  step_ok H as i Hi. step_ok H as n Hn. step_ok H as t Ht. step_ok H as w Hw. step_ok H as l Hl. injection H as <-.
  cbn [aru_id aru_name aru_enabled aru_trigger aru_runWhen aru_actions].
  apply normalizeStableId_ok in Hi as ->. cbn [mbind res_bind].
  apply normalizeRequiredText_ok in Hn as [_ ->]. cbn [mbind res_bind].
  apply normalizeTrigger_settles in Ht as ->. cbn [mbind res_bind].
  apply normalizeActions_settles in Hl.
  destruct (aru_runWhen r) as [e|]; [step_ok Hw as e' He|]; injection Hw as <-; cbn [mbind res_bind].
  - pose proof (proj1 (normalizePredicateExpression_run _ _ _ _) He) as [-> _]. rewrite He.
    cbn [mbind res_bind]. by rewrite Hl.
  - by rewrite Hl.
Qed.

(** Appending to a list whose keys are distinct. *)
Lemma nodup_key_snoc {A} (key : A → jstr) acc y :
  NoDup (key <$> acc) → key y ∉ key <$> acc → NoDup (key <$> acc ++ [y]).
Proof.
  intros Hnd Hy. rewrite fmap_app. apply NoDup_app. split_and!; [done| |apply NoDup_singleton].
  by intros z Hz ->%list_elem_of_singleton.
Qed.

Lemma nodup_key_middle {A} (key : A → jstr) acc y ys : NoDup (key <$> acc ++ y :: ys) → key y ∉ key <$> acc.
Proof. rewrite fmap_app. intros (_ & Hd & _)%NoDup_app Hy. apply (Hd _ Hy). left. Qed.

Lemma js_add_key {A} (key : A → jstr) acc y :
  key y ∉ key <$> acc → js_add (key y) (key <$> acc) = key <$> acc ++ [y].
Proof. intros Hy. unfold js_add. by rewrite decide_False, fmap_app. Qed.

Lemma rules_loop doctype limits l acc r :
  NoDup (aru_id <$> acc) → NoDup (aru_name <$> acc) →
  foldl_res (λ (acc : list AutomationRuleDefinition * list jstr * list jstr) rule,
    let '(normalized, ids, names) := acc in
    normalizedRule ← normalizeAutomationRule doctype rule limits;
    _ ← ensure (negb (bool_decide (aru_id normalizedRule ∈ ids))) invalid_rule;
    _ ← ensure (negb (bool_decide (aru_name normalizedRule ∈ names))) invalid_rule;
    Ok (normalized ++ [normalizedRule], js_add (aru_id normalizedRule) ids,
        js_add (aru_name normalizedRule) names)) (acc, aru_id <$> acc, aru_name <$> acc) l = Ok r ↔
  ∃ ys, map_res (λ r, normalizeAutomationRule doctype r limits) l = Ok ys ∧
    NoDup (aru_id <$> acc ++ ys) ∧ NoDup (aru_name <$> acc ++ ys) ∧
    r = (acc ++ ys, aru_id <$> acc ++ ys, aru_name <$> acc ++ ys).
Proof.
  revert acc. induction l as [|x l IH]; intros acc Hi Hn; cbn [foldl_res map_res].
  { split; [intros [= <-]; exists []; by rewrite app_nil_r|]. intros (? & [= <-] & _ & _ & ->). by rewrite app_nil_r. }
  destruct (normalizeAutomationRule doctype x limits) as [y|e]; cbn [mbind res_bind];
    [|split; [done|by intros (? & ? & _)]].
  assert (Happ : ∀ ys, acc ++ y :: ys = (acc ++ [y]) ++ ys) by (intros; by rewrite <-(assoc_L (++))).
  assert (Hrefuse : aru_id y ∈ aru_id <$> acc ∨ aru_name y ∈ aru_name <$> acc → ¬ ∃ ys,
    (y0 ← map_res (λ r, normalizeAutomationRule doctype r limits) l; Ok (y :: y0)) = Ok ys ∧
    NoDup (aru_id <$> acc ++ ys) ∧ NoDup (aru_name <$> acc ++ ys) ∧
    r = (acc ++ ys, aru_id <$> acc ++ ys, aru_name <$> acc ++ ys)).
  { intros Hy (ys & H & H1 & H2 & _). step_ok H as ys' Hys. injection H as <-.
    apply nodup_key_middle in H1, H2. by destruct Hy. }
  destruct (decide (aru_id y ∈ aru_id <$> acc)) as [Hyi|Hyi].
  { rewrite (bool_decide_true (aru_id y ∈ _)) by done. split; [done|]. intros H. destruct Hrefuse; auto. }
  rewrite (bool_decide_false (aru_id y ∈ _)) by done. cbn [negb ensure mbind res_bind].
  destruct (decide (aru_name y ∈ aru_name <$> acc)) as [Hyn|Hyn].
  { rewrite (bool_decide_true (aru_name y ∈ _)) by done. split; [done|]. intros H. destruct Hrefuse; auto. }
  rewrite (bool_decide_false (aru_name y ∈ _)) by done. cbn [negb ensure mbind res_bind].
  rewrite !js_add_key, IH by auto using nodup_key_snoc. split.
  - intros (ys & -> & H1 & H2 & ->). exists (y :: ys). by rewrite (Happ ys).
  - intros (ys & H & H1 & H2 & ->). step_ok H as ys' Hys. injection H as <-. exists ys'.
    rewrite (Happ ys') in H1, H2 |- *. done.
Qed.

(** The loop over the rules succeeds exactly when every rule normalizes and no
    identifier and no name repeats. *)
Lemma normalizeAutomationRules_ok doctype rules limits rules' :
  normalizeAutomationRules doctype (Some rules) limits = Ok (Some rules') ↔
  (∃ n, positiveLimit (anl_maxRules limits) DEFAULT_MAX_AUTOMATION_RULES = Ok n ∧
     (Z.of_nat (length rules) <= n)%Z) ∧
  map_res (λ r, normalizeAutomationRule doctype r limits) rules = Ok rules' ∧
  NoDup (aru_id <$> rules') ∧ NoDup (aru_name <$> rules').
Proof.
  cbn [normalizeAutomationRules]. split.
  - intros H. step_ok H as n Hn. step_ok H as u Hle. step_ok H as r Hr. injection H as H.
    apply ensure_ok, negb_true_iff, Z.ltb_ge in Hle.
    apply (rules_loop doctype limits rules []) in Hr as (ys & Hm & H1 & H2 & ->); [|constructor..].
    cbn in H. subst ys. split_and!; [by exists n|done..].
  - intros ((n & Hn & Hle) & Hm & H1 & H2). rewrite Hn. cbn [mbind res_bind].
    rewrite (proj2 (Z.ltb_ge _ _) Hle). cbn [negb ensure mbind res_bind].
    pose proof (proj2 (rules_loop doctype limits rules [] (rules', aru_id <$> rules', aru_name <$> rules')
      ltac:(constructor) ltac:(constructor))) as H.
    change (aru_id <$> []) with (@nil jstr) in H. change (aru_name <$> []) with (@nil jstr) in H.
    rewrite H; [done|]. by exists rules'.
Qed.

Lemma normalizeAutomationRules_settles doctype limits rules rules' :
  normalizeAutomationRules doctype (Some rules) limits = Ok (Some rules') →
  normalizeAutomationRules doctype (Some rules') limits = Ok (Some rules').
Proof.
  rewrite !normalizeAutomationRules_ok. intros ((n & Hn & Hle) & Hm & H1 & H2).
  split_and!; [|by eapply (map_res_settles _ _ _ (normalizeAutomationRule_settles doctype limits))|done..].
  exists n. apply map_res_length in Hm. by rewrite Hm.
Qed.

(** Normalization is idempotent: normalized rules normalize to themselves. *)
Theorem normalizeAutomationRules_idempotent doctype limits rules rules' :
  normalizeAutomationRules doctype (Some rules) limits = Ok (Some rules') →
  normalizeAutomationRules doctype (Some rules') limits = Ok (Some rules').
Proof. apply normalizeAutomationRules_settles. Qed.

(** ** Distinct runs *)

Lemma normalized_actions_nodup doctype limits rule rule' :
  normalizeAutomationRule doctype rule limits = Ok rule' → NoDup (aa_id <$> aru_actions rule').
Proof.
  unfold normalizeAutomationRule. intros H. step_ok H as i Hi. step_ok H as n Hn. step_ok H as t Ht.
  step_ok H as w Hw. step_ok H as l Hl. injection H as <-. cbn [aru_actions].
  unfold normalizeActions in Hl. step_ok Hl as u1 H1. step_ok Hl as m H2. step_ok Hl as u2 H3.
  by apply distinct_loop_ok in Hl as [_ ?].
Qed.

(** The actions of one rule. *)
Definition rule_actions (host : predicate_host) (context : AutomationRuleMatchContext) (snapshot : DocumentSnapshot)
    (rule : AutomationRuleDefinition) : list TriggeredAction :=
  if automationRuleMatches host rule context then
    omap (λ action,
      resolved ← resolveAutomationAction action (rmc_event context) snapshot;
      Some {| ta_runId := automationActionId (e_id (e_new (rmc_event context))) (aru_id rule) (aa_id action);
              ta_ruleId := aru_id rule; ta_ruleName := aru_name rule; ta_actionId := aa_id action;
              ta_action := resolved |}) (aru_actions rule)
  else [].

Lemma rule_actions_elem host context snapshot rule t :
  t ∈ rule_actions host context snapshot rule →
  ∃ action, action ∈ aru_actions rule ∧ ta_actionId t = aa_id action ∧ ta_ruleId t = aru_id rule ∧
    ta_runId t = automationActionId (e_id (e_new (rmc_event context))) (aru_id rule) (aa_id action).
Proof.
  unfold rule_actions. destruct (automationRuleMatches host rule context); [|by intros ?%elem_of_nil].
  intros (action & Hin & Ht)%list_elem_of_omap. exists action. split; [done|].
  destruct (resolveAutomationAction _ _ _); [|done]. injection Ht as <-. done.
Qed.

Lemma rule_actions_nodup host context snapshot rule :
  NoDup (aa_id <$> aru_actions rule) → NoDup (ta_runId <$> rule_actions host context snapshot rule).
Proof.
  unfold rule_actions. destruct (automationRuleMatches host rule context); [|constructor].
  induction (aru_actions rule) as [|a l IH]; [constructor|]. rewrite fmap_cons. intros [Hnin Hnd]%NoDup_cons.
  cbn [omap list_omap]. destruct (resolveAutomationAction a _ snapshot) as [resolved|]; cbn [mbind option_bind];
    [|by apply IH].
  rewrite fmap_cons. apply NoDup_cons. split; [|by apply IH]. cbn [ta_runId].
  intros (t & Ht & (b & Hb & Hres)%list_elem_of_omap)%list_elem_of_fmap.
  destruct (resolveAutomationAction b _ _); [|done]. injection Hres as <-.
  apply actionId_inj in Ht as (_ & _ & Hab). apply Hnin. rewrite Hab. by apply list_elem_of_fmap_2.
Qed.

Lemma actions_nodup host context snapshot rules :
  NoDup (aru_id <$> rules) → (∀ rule, rule ∈ rules → NoDup (aa_id <$> aru_actions rule)) →
  NoDup (ta_runId <$> flat_map (rule_actions host context snapshot) rules).
Proof.
  induction rules as [|rule rules IH]; intros Hnd Hall; [constructor|].
  rewrite fmap_cons in Hnd. apply NoDup_cons in Hnd as [Hnin Hnd]. cbn [flat_map]. rewrite fmap_app.
  apply NoDup_app. split_and!.
  - apply rule_actions_nodup, Hall. left.
  - intros x (t & -> & Ht)%list_elem_of_fmap (t' & Htt & (rule' & Hr' & Ht')%list_elem_of_In%in_flat_map)%list_elem_of_fmap.
    apply list_elem_of_In in Hr', Ht'.
    apply rule_actions_elem in Ht as (a & _ & _ & _ & Ha), Ht' as (a' & _ & _ & _ & Ha').
    rewrite Ha, Ha' in Htt. apply actionId_inj in Htt as (_ & Hid & _). apply Hnin. rewrite Hid.
    by apply list_elem_of_fmap_2.
  - apply IH; [done|]. intros r Hr. apply Hall. by right.
Qed.

Lemma runs_nodup host doctype limits rules rules' context :
  normalizeAutomationRules doctype (Some rules) limits = Ok (Some rules') →
  NoDup (ta_runId <$> automationActionsFromDomainEvent host rules' context).
Proof.
  rewrite normalizeAutomationRules_ok. intros (_ & Hm & Hids & _). unfold automationActionsFromDomainEvent.
  destruct (dcc_after _) as [snapshot|]; [|constructor]. destruct (_ || _); [constructor|].
  apply (actions_nodup host context snapshot); [done|]. intros rule Hrule.
  apply map_res_ok in Hm. apply list_elem_of_lookup in Hrule as [i Hi].
  destruct (Forall2_lookup_r _ _ _ _ _ Hm Hi) as (r & _ & Hr). by eapply normalized_actions_nodup.
Qed.

(** The runs that an event triggers are distinct: under normalized rules, no two
    actions of one event share a run, so enqueueing them never conflicts with
    itself. *)
Theorem automation_runs_distinct host doctype limits rules rules' context :
  normalizeAutomationRules doctype (Some rules) limits = Ok (Some rules') →
  NoDup (ta_runId <$> automationActionsFromDomainEvent host rules' context).
Proof. apply runs_nodup. Qed.

(** ** Changes *)

Section changes.
Context (before after : option DocumentSnapshot).

Definition field_change (field : jstr) : DocumentFieldChange :=
  {| dfc_before := vget field (snapshot_data before); dfc_after := vget field (snapshot_data after) |}.

Definition field_changed (field : jstr) : bool :=
  negb (jsonValuesEqual (vget field (snapshot_data before)) (vget field (snapshot_data after))).

Lemma changes_get fields acc field :
  jm_get field (foldl (λ changes f,
    let previous := vget f (snapshot_data before) in
    let next := vget f (snapshot_data after) in
    if negb (jsonValuesEqual previous next)
    then jm_set f {| dfc_before := previous; dfc_after := next |} changes else changes) acc fields) =
  if bool_decide (field ∈ fields) && field_changed field then Some (field_change field) else jm_get field acc.
Proof.
  revert acc. induction fields as [|f fields IH]; intros acc; cbn [foldl]; [done|]. rewrite IH. cbv zeta.
  fold (field_changed f). fold (field_change f).
  destruct (decide (field = f)) as [-> |Hne].
  - rewrite (bool_decide_true (f ∈ f :: _)) by left. cbn [andb].
    destruct (field_changed f); [|by rewrite andb_false_r]. rewrite jm_get_set_eq. by destruct (_ && _).
  - assert (bool_decide (field ∈ f :: fields) = bool_decide (field ∈ fields)) as ->.
    { apply bool_decide_ext. rewrite elem_of_cons. naive_solver. }
    destruct (_ && _); [done|]. destruct (field_changed f); [|done]. by rewrite jm_get_set_ne.
Qed.

Lemma candidate_elem field :
  field ∈ uniqueSorted (jm_keys (snapshot_data before) ++ jm_keys (snapshot_data after)) ↔
  jm_get field (snapshot_data before) ≠ None ∨ jm_get field (snapshot_data after) ≠ None.
Proof.
  unfold uniqueSorted, sort_strings. rewrite elem_of_isort, js_unique_elem, elem_of_app, !jm_get_None.
  destruct (decide (field ∈ jm_keys (snapshot_data before))), (decide (field ∈ jm_keys (snapshot_data after))); tauto.
Qed.
End changes.

(** A change context holds exactly the fields on which the two snapshots differ,
    with their values before and after, and lists them once each, in order. *)
Theorem documentChangeContext_exact before after touched :
  let context := documentChangeContext before after touched in
  (∀ field, changedDocumentValue context field =
     if jsonValuesEqual (vget field (snapshot_data before)) (vget field (snapshot_data after)) then None
     else Some (field_change before after field)) ∧
  (∀ field, field ∈ dcc_changedFields context ↔
     jsonValuesEqual (vget field (snapshot_data before)) (vget field (snapshot_data after)) = false) ∧
  StronglySorted jstr_leb (dcc_changedFields context).
Proof.
  intros context.
  assert (Hget : ∀ field, changedDocumentValue context field =
     if jsonValuesEqual (vget field (snapshot_data before)) (vget field (snapshot_data after)) then None
     else Some (field_change before after field)).
  { intros field. unfold changedDocumentValue, context, documentChangeContext. cbn [dcc_changes].
    rewrite changes_get. unfold field_changed.
    destruct (jsonValuesEqual _ _) eqn:E; [by rewrite andb_false_r|]. rewrite andb_true_r.
    rewrite bool_decide_true; [done|]. apply candidate_elem. unfold vget in E.
    destruct (jm_get field (snapshot_data before)); [by left|].
    destruct (jm_get field (snapshot_data after)); [by right|]. done. }
  split_and!; [done| |apply isort_sorted; [apply jstr_leb_total|apply jstr_leb_trans]].
  intros field. change (dcc_changedFields context) with (sort_strings (jm_keys (dcc_changes context))).
  unfold sort_strings. rewrite elem_of_isort. specialize (Hget field). unfold changedDocumentValue in Hget.
  destruct (jsonValuesEqual _ _) eqn:E.
  - apply jm_get_None in Hget. naive_solver.
  - split; [done|]. intros _. apply jm_get_elem_1 in Hget. by apply (list_elem_of_fmap_2 fst) in Hget.
Qed.

(** ** A sample *)

Definition sample_field (name : jstr) : FieldDefinition :=
  plain_field name FText false false false None.

Definition sample_doctype : DocTypeDefinition :=
  plain_doctype (js "Task") [sample_field (js "title"); sample_field (js "next")].

Definition sample_action (id : jstr) : AutomationActionDefinition :=
  {| aa_id := id; aa_doctype := js " Task"; aa_name := XField (js "next ");
     aa_patch := [(js " title", XLiteral (vstr "Follow up")); (js "by", XActor)] |}.

Definition sample_rules : list AutomationRuleDefinition :=
  [{| aru_id := js " follow-up "; aru_name := js "Follow up"; aru_enabled := None;
      aru_trigger := {| atd_events := [js "DocumentUpdated"]; atd_touchedFields := Some [js "title "];
        atd_changes := Some [{| acs_field := js "title"; acs_from := None; acs_to := Some (vstr "Final") |}];
        atd_workflow := None; atd_workflowAction := None; atd_domainCommand := None |};
      aru_runWhen := None; aru_actions := [sample_action (js "a"); sample_action (js "b:c")] |}].

Definition sample_limits : AutomationNormalizationLimits :=
  {| anl_maxRules := None; anl_maxActionsPerRule := Some 2%Z |}.

Definition sample_normalized : list AutomationRuleDefinition :=
  Eval vm_compute in match normalizeAutomationRules sample_doctype (Some sample_rules) sample_limits with
    | Ok (Some rules) => rules
    | _ => []
    end.

Definition sample_context : AutomationRuleMatchContext :=
  let snapshot (title : value) := {| ds_tenantId := js "default"; ds_doctype := js "Task"; ds_name := js "T-1";
    ds_version := 2; ds_docstatus := Draft; ds_data := [(js "title", title); (js "next", vstr "T-2")];
    ds_createdAt := []; ds_updatedAt := [] |} in
  {| rmc_event := sample_updated;
     rmc_change := documentChangeContext (Some (snapshot (vstr "Draft"))) (Some (snapshot (vstr "Final"))) None;
     rmc_input := []; rmc_eventObject := VObj []; rmc_actorObject := VObj [] |}.

Definition sample_rule_host : predicate_host := {| ph_text := λ _, []; ph_canonicalize := λ c, c |}.

Lemma normalizeAutomationRules_idempotent_witness :
  normalizeAutomationRules sample_doctype (Some sample_normalized) sample_limits = Ok (Some sample_normalized).
Proof.
  apply (normalizeAutomationRules_idempotent sample_doctype sample_limits sample_rules sample_normalized).
  by vm_compute.
Defined.

Lemma automation_runs_distinct_witness :
  ta_runId <$> automationActionsFromDomainEvent sample_rule_host sample_normalized sample_context
    = [js "e:follow-up:a"; js "e:follow-up:b%3Ac"] ∧
  NoDup (ta_runId <$> automationActionsFromDomainEvent sample_rule_host sample_normalized sample_context).
Proof.
  split; [by vm_compute|].
  apply (automation_runs_distinct sample_rule_host sample_doctype sample_limits sample_rules sample_normalized).
  by vm_compute.
Defined.
