(* ===== verification/AutomationPlanner.v ===== *)
(** * AutomationPlanner: the runs an event enqueues

    Models [AutomationRunPlanner] of [application/automation-run-service.ts] and
    [domainEventWorkflowIdentity] of [core/domain-events.ts].  The identifiers the
    host generates are a sequence, of which the state counts those used. *)

From S2P Require Export AutomationRules AutomationService.

(** [DomainEventWorkflowIdentity]. *)
Record WorkflowIdentity := {
  wi_workflowName : option jstr;
  wi_workflowAction : option jstr;
  wi_workflowTransitions : option (list TransitionFact)
}.

Definition no_identity : WorkflowIdentity :=
  {| wi_workflowName := None; wi_workflowAction := None; wi_workflowTransitions := None |}.

(** A value that was checked to be a string. *)
Definition the_string (v : value) : jstr := default [] (string_value v).

(** [domainEventWorkflowIdentity(event)]. *)
Definition domainEventWorkflowIdentity (event : DomainEvent) : WorkflowIdentity :=
  match e_payload event with
  | PWorkflowTransitioned workflow stateField action from to _ =>
      if negb (isCurrentWorkflowTransitionPayload (e_payload event)) then no_identity
      else {| wi_workflowName := Some (the_string workflow); wi_workflowAction := Some (the_string action);
              wi_workflowTransitions := Some [{| tf_workflow := the_string workflow;
                tf_stateField := the_string stateField; tf_action := the_string action;
                tf_from := the_string from; tf_to := the_string to |}] |}
  | PDomainCommandApplied _ _ _ transitions =>
      match transitions with
      | [] => no_identity
      | [only] => {| wi_workflowName := Some (tf_workflow only); wi_workflowAction := Some (tf_action only);
                     wi_workflowTransitions := Some [only] |}
      | _ => {| wi_workflowName := None; wi_workflowAction := None; wi_workflowTransitions := Some transitions |}
      end
  | _ => no_identity
  end.

(** [workflowIdentityMetadata(identity)]. *)
Definition workflowIdentityMetadata (identity : WorkflowIdentity) : data :=
  optional_entry (js "workflowName") (VStr <$> wi_workflowName identity) ++
  optional_entry (js "workflowAction") (VStr <$> wi_workflowAction identity) ++
  optional_entry (js "workflowTransitions")
    ((λ l, VArr (transition_value <$> l)) <$> wi_workflowTransitions identity).

(** [committedLikeEvent(event)] of an event that has no sequence yet. *)
Definition committedLikeEvent (event : NewDomainEvent) : DomainEvent := {| e_new := event; e_sequence := 0 |}.

(** [sourceAutomationDepth(event)]. *)
Definition sourceAutomationDepth (event : DomainEvent) : Z :=
  match vget (js "automationDepth") (e_metadata event) with
  | VNum n => match num_safe_integer n with
      | Some z => if (0 <=? z)%Z then z else 0%Z
      | None => 0%Z
      end
  | _ => 0%Z
  end.

(** [sourceAutomationPath(event)]. *)
Definition sourceAutomationPath (event : DomainEvent) : list jstr :=
  match vget (js "automationPath") (e_metadata event) with
  | VArr l => if forallb (λ item, match item with VStr _ => true | _ => false end) l then omap string_value l else []
  | _ => []
  end.

(** [sourceCorrelationId(event)]. *)
Definition sourceCorrelationId (event : DomainEvent) : jstr :=
  match vget (js "correlationId") (e_metadata event) with
  | VStr s => if bool_decide (s = []) then e_id event else s
  | _ => e_id event
  end.

(** The number of times a key occurs in a path. *)
Definition occurrences (key : jstr) (path : list jstr) : Z := Z.of_nat (length (filter (λ item, item = key) path)).

Definition int_text (z : Z) : jstr := if (z <? 0)%Z then js "-" ++ dec (Z.to_N (- z)) else dec (Z.to_N z).

(** [automationLoopSuppressionError(options)]. *)
Definition automationLoopSuppressionError (automationDepth : Z) (automationPathKey : jstr)
    (maxDepth maxPathRepeats : Z) (sourcePath : list jstr) : option jstr :=
  if (maxDepth <? automationDepth)%Z then
    Some (js "Automation depth " ++ int_text automationDepth ++ js " exceeds limit " ++ int_text maxDepth)
  else if (maxPathRepeats <=? occurrences automationPathKey sourcePath)%Z then
    Some (js "Automation path '" ++ automationPathKey ++ js "' exceeds repeat limit " ++ int_text maxPathRepeats)
  else None.

(** [positiveInteger(value, fallback, label)]. *)
Definition positiveInteger (v : option Z) (fallback : Z) : res Z :=
  let normalized := default fallback v in
  _ ← ensure (negb (negb (is_safe_integer normalized) || (normalized <=? 0)%Z)) plain_error;
  Ok normalized.

Definition DEFAULT_AUTOMATION_MAX_DEPTH : Z := 8.
Definition DEFAULT_AUTOMATION_MAX_PATH_REPEATS : Z := 1.

(** [AutomationRunPlanner]. *)
Record AutomationRunPlanner := {
  arp_retry : AutomationRunRetryPolicy;
  arp_maxDepth : Z;
  arp_maxPathRepeats : Z
}.

(** [new AutomationRunPlanner(options)]. *)
Definition new_planner (maxAttempts baseDelaySeconds maxDelaySeconds maxDepth maxPathRepeats : option Z)
    : res AutomationRunPlanner :=
  retry ← normalizeAutomationRunRetryPolicy maxAttempts baseDelaySeconds maxDelaySeconds;
  maxDepth ← positiveInteger maxDepth DEFAULT_AUTOMATION_MAX_DEPTH;
  maxPathRepeats ← positiveInteger maxPathRepeats DEFAULT_AUTOMATION_MAX_PATH_REPEATS;
  Ok {| arp_retry := retry; arp_maxDepth := maxDepth; arp_maxPathRepeats := maxPathRepeats |}.

(** One run of the plan: [runId] and [events]. *)
Record RunGroup := { rg_runId : jstr; rg_events : list NewDomainEvent }.

(** [AutomationRunCommitPlan]; [acp_groups] is what [auxiliarySnapshots] closes over. *)
Record AutomationRunCommitPlan := {
  acp_entries : list AppendEntry;
  acp_runIds : list jstr;
  acp_groups : list RunGroup
}.

Section planner.
Context (host : predicate_host) (ids : nat → jstr).

(** [this.ids.next("evt_")]. *)
Definition next_event_id : M nat jstr := λ n, (Ok (ids n), S n).

(** The payload of an enqueued run. *)
Definition enqueued_payload (planner : AutomationRunPlanner) (sourceEvent : DomainEvent) (action : TriggeredAction)
    : AutomationRunEnqueued :=
  let identity := domainEventWorkflowIdentity sourceEvent in
  {| are_runId := ta_runId action; are_sourceEventId := e_id sourceEvent; are_sourceEventType := e_type sourceEvent;
     are_sourcePayloadKind := domainEventPayloadKind sourceEvent; are_sourceDoctype := e_doctype sourceEvent;
     are_sourceDocumentName := e_documentName sourceEvent; are_sourceActorId := e_actorId sourceEvent;
     are_workflowName := wi_workflowName identity; are_workflowAction := wi_workflowAction identity;
     are_workflowTransitions := wi_workflowTransitions identity;
     are_ruleId := ta_ruleId action; are_ruleName := ta_ruleName action; are_actionId := ta_actionId action;
     are_action := ta_action action; are_retry := arp_retry planner;
     are_causationId := e_id sourceEvent; are_correlationId := sourceCorrelationId sourceEvent;
     are_automationDepth := sourceAutomationDepth sourceEvent + 1;
     are_automationPath := sourceAutomationPath sourceEvent ++
       [automationActionIdentity (ta_ruleId action) (ta_actionId action)] |}.

(** The metadata of the two events of a run. *)
Definition run_metadata (q : AutomationRunEnqueued) (ruleName : option jstr) (identity : WorkflowIdentity) : data :=
  [(js "sourceEventId", VStr (are_sourceEventId q)); (js "causationId", VStr (are_causationId q));
   (js "correlationId", VStr (are_correlationId q)); (js "automationDepth", vint (are_automationDepth q));
   (js "automationPath", VArr (VStr <$> are_automationPath q)); (js "automationRuleId", VStr (are_ruleId q))] ++
  optional_entry (js "automationRuleName") (VStr <$> ruleName) ++
  [(js "automationActionDefinitionId", VStr (are_actionId q))] ++ workflowIdentityMetadata identity.

(** The function that [runGroups] maps over the actions. *)
Definition run_group (planner : AutomationRunPlanner) (sourceEvent : DomainEvent) (metadata : option data)
    (action : TriggeredAction) : M nat RunGroup :=
  let q := enqueued_payload planner sourceEvent action in
  let identity := domainEventWorkflowIdentity sourceEvent in
  id ← next_event_id;
  stream ← m_lift (automationRunStream (e_tenantId sourceEvent) (ta_runId action));
  let enqueued := automationRunEvent id (e_tenantId sourceEvent) stream (e_actorId sourceEvent)
    (e_occurredAt sourceEvent) (PRunEnqueued q)
    (Some (jm_spread (run_metadata q (Some (ta_ruleName action)) identity) (default [] metadata))) in
  match automationLoopSuppressionError (are_automationDepth q)
          (automationActionIdentity (ta_ruleId action) (ta_actionId action))
          (arp_maxDepth planner) (arp_maxPathRepeats planner) (sourceAutomationPath sourceEvent) with
  | None => mret {| rg_runId := ta_runId action; rg_events := [enqueued] |}
  | Some suppressionError =>
      id' ← next_event_id;
      mret {| rg_runId := ta_runId action;
              rg_events := [enqueued; automationRunEvent id' (e_tenantId sourceEvent) stream (js "system")
                (e_occurredAt sourceEvent) (PRunSuppressed (ta_runId action) suppressionError)
                (Some (run_metadata q None identity))] |}
  end.

(** The entry of a group: [group.events[0]!.stream] at version 0. *)
Definition group_entry (group : RunGroup) : AppendEntry :=
  {| ae_stream := match rg_events group with e :: _ => e_stream e | [] => [] end;
     ae_expectedVersion := 0; ae_events := rg_events group |}.

Definition emptyAutomationRunCommitPlan : AutomationRunCommitPlan :=
  {| acp_entries := []; acp_runIds := []; acp_groups := [] |}.

(** [planEnqueueFromDomainEvent(command)]. *)
Definition planEnqueueFromDomainEvent (planner : AutomationRunPlanner) (context : AutomationRuleMatchContext)
    (rules : option (list AutomationRuleDefinition)) (metadata : option data) : M nat AutomationRunCommitPlan :=
  let rules := default [] rules in
  if bool_decide (length rules = 0) then mret emptyAutomationRunCommitPlan
  else
    let actions := automationActionsFromDomainEvent host rules context in
    if bool_decide (length actions = 0) then mret emptyAutomationRunCommitPlan
    else
      groups ← m_map (run_group planner (rmc_event context) metadata) actions;
      mret {| acp_entries := group_entry <$> groups; acp_runIds := rg_runId <$> groups; acp_groups := groups |}.

(** The projection of the saved events of one run. *)
Definition group_snapshot (saved : list DomainEvent) : res DocumentSnapshot :=
  match saved with
  | [] => Throw plain_error
  | first :: _ =>
      match foldAutomationRun (e_tenantId first) saved with
      | None => Throw plain_error
      | Some record => Ok (automationRunSnapshot record)
      end
  end.

(** [auxiliarySnapshots(savedEvents)] of a plan. *)
Definition auxiliarySnapshots (plan : AutomationRunCommitPlan) (savedEvents : list DomainEvent)
    : res (list DocumentSnapshot) :=
  map_res (λ group : RunGroup,
    saved ← map_res (λ event : NewDomainEvent, requireSavedEvent savedEvents (e_id event)) (rg_events group);
    group_snapshot saved) (acp_groups plan).
End planner.


(** ** The groups of a plan *)

Section groups.
Context (ids : nat → jstr) (planner : AutomationRunPlanner) (e : DomainEvent) (metadata : option data).

Definition action_key (action : TriggeredAction) : jstr :=
  automationActionIdentity (ta_ruleId action) (ta_actionId action).

Definition suppression (action : TriggeredAction) : option jstr :=
  automationLoopSuppressionError (sourceAutomationDepth e + 1) (action_key action)
    (arp_maxDepth planner) (arp_maxPathRepeats planner) (sourceAutomationPath e).

(** A group: the enqueueing, and its suppression when a loop is cut. *)
Definition group_of (action : TriggeredAction) (g : RunGroup) : Prop :=
  ∃ stream ev rest, automationRunStream (e_tenantId e) (ta_runId action) = Ok stream ∧
    rg_runId g = ta_runId action ∧ rg_events g = ev :: rest ∧
    e_tenantId ev = e_tenantId e ∧ e_stream ev = stream ∧
    e_payload ev = PRunEnqueued (enqueued_payload planner e action) ∧
    match suppression action with
    | None => rest = []
    | Some err => ∃ ev', rest = [ev'] ∧ e_tenantId ev' = e_tenantId e ∧ e_stream ev' = stream ∧
        e_payload ev' = PRunSuppressed (ta_runId action) err
    end.

Lemma run_group_of action n g n' : run_group ids planner e metadata action n = (Ok g, n') → group_of action g.
Proof.
  unfold run_group, group_of. cbv zeta. rewrite m_bind_run. unfold next_event_id at 1. rewrite m_bind_run.
  unfold m_lift. destruct (automationRunStream _ _) as [stream|] eqn:Es; [|done].
  change (automationLoopSuppressionError (are_automationDepth _) _ _ _ _) with (suppression action).
  destruct (suppression action) as [err|].
  - rewrite m_bind_run. unfold next_event_id. intros [= <- _].
    eexists _, _, _. split_and!; [done..|]. eexists. by split_and!.
  - intros [= <- _]. eexists _, _, _. by split_and!.
Qed.

Lemma run_groups_of actions n groups n' :
  m_map (run_group ids planner e metadata) actions n = (Ok groups, n') → Forall2 group_of actions groups.
Proof.
  revert n groups. induction actions as [|a actions IH]; intros n groups; cbn [m_map].
  { intros [= <- _]. constructor. }
  rewrite m_bind_run. destruct (run_group _ _ _ _ a n) as [[g|] n1] eqn:Eg; [|done].
  rewrite m_bind_run. fold (m_map (run_group ids planner e metadata)).
  destruct (m_map _ actions n1) as [[gs|] n2] eqn:Egs; [|done]. intros [= <- <-].
  constructor; [by eapply run_group_of|by eapply IH].
Qed.
End groups.

Lemma plan_groups host ids planner context rules metadata n plan n' :
  planEnqueueFromDomainEvent host ids planner context rules metadata n = (Ok plan, n') →
  acp_entries plan = group_entry <$> acp_groups plan ∧
  (acp_groups plan = [] ∨
   Forall2 (group_of planner (rmc_event context))
    (automationActionsFromDomainEvent host (default [] rules) context) (acp_groups plan)).
Proof.
  unfold planEnqueueFromDomainEvent. cbv zeta. case_bool_decide; [intros [= <- _]; by split; [|left]|].
  case_bool_decide; [intros [= <- _]; by split; [|left]|]. rewrite m_bind_run.
  destruct (m_map _ _ n) as [[gs|] n1] eqn:E; [|done]. intros [= <- _]. cbn [acp_entries acp_groups].
  split; [done|right]. by eapply run_groups_of.
Qed.

Lemma plan_group_elem host ids planner context rules metadata n plan n' g :
  planEnqueueFromDomainEvent host ids planner context rules metadata n = (Ok plan, n') → g ∈ acp_groups plan →
  ∃ action, action ∈ automationActionsFromDomainEvent host (default [] rules) context ∧
    group_of planner (rmc_event context) action g.
Proof.
  intros [_ [-> |H]]%plan_groups Hg; [by apply elem_of_nil in Hg|].
  apply list_elem_of_lookup in Hg as [i Hi]. destruct (Forall2_lookup_r _ _ _ _ _ H Hi) as (a & Ha & Hga).
  exists a. split; [by eapply list_elem_of_lookup_2|done].
Qed.

Lemma occurrences_snoc key path : occurrences key (path ++ [key]) = (occurrences key path + 1)%Z.
Proof.
  unfold occurrences. rewrite filter_app, length_app. unfold filter at 2. simpl. rewrite decide_True by done.
  simpl. lia.
Qed.

(** Loops are cut: a run goes one level deeper than the event that triggers it
    and records its action in its path, and it is enqueued to execute, rather than
    suppressed, exactly when its depth is within the limit and its action occurs
    no more often in the path than the limit of repeats. *)
Theorem planner_cuts_loops host ids planner context rules metadata n plan n' g :
  planEnqueueFromDomainEvent host ids planner context rules metadata n = (Ok plan, n') → g ∈ acp_groups plan →
  ∃ (q : AutomationRunEnqueued) ev rest key, rg_events g = ev :: rest ∧ e_payload ev = PRunEnqueued q ∧
    are_automationDepth q = (sourceAutomationDepth (rmc_event context) + 1)%Z ∧
    are_automationPath q = sourceAutomationPath (rmc_event context) ++ [key] ∧
    (rest = [] ↔ (are_automationDepth q <= arp_maxDepth planner)%Z ∧
                 (occurrences key (are_automationPath q) <= arp_maxPathRepeats planner)%Z).
Proof.
  intros Hp Hg. destruct (plan_group_elem _ _ _ _ _ _ _ _ _ _ Hp Hg)
    as (action & _ & stream & ev & rest & _ & _ & Hev & _ & _ & Hpay & Hsup).
  exists (enqueued_payload planner (rmc_event context) action), ev, rest, (action_key action).
  split_and!; [done..|]. cbn [are_automationDepth are_automationPath enqueued_payload]. rewrite occurrences_snoc.
  unfold suppression, automationLoopSuppressionError, action_key in *.
  destruct (Z.ltb_spec (arp_maxDepth planner) (sourceAutomationDepth (rmc_event context) + 1)).
  { destruct Hsup as (ev' & -> & _). split; [done|]. intros [? ?]. exfalso. lia. }
  destruct (Z.leb_spec (arp_maxPathRepeats planner) (occurrences (automationActionIdentity (ta_ruleId action) (ta_actionId action))
    (sourceAutomationPath (rmc_event context)))).
  { destruct Hsup as (ev' & -> & _). split; [done|]. intros [? ?]. exfalso. lia. }
  subst rest. split; [|done]. intros _. lia.
Qed.

(** ** Committing a plan *)

Lemma group_entry_stream planner e action g stream :
  group_of planner e action g → automationRunStream (e_tenantId e) (ta_runId action) = Ok stream →
  ae_stream (group_entry g) = stream ∧ ∀ ev, ev ∈ ae_events (group_entry g) → e_stream ev = stream.
Proof.
  intros (s & ev & rest & Hs & _ & Hev & _ & Hst & _ & Hsup) Hs'. rewrite Hs in Hs'. injection Hs' as ->.
  unfold group_entry. rewrite Hev. cbn [ae_stream ae_events]. split; [done|].
  intros x [-> |Hx]%elem_of_cons; [done|]. destruct (suppression planner e action).
  - destruct Hsup as (ev' & -> & _ & Hs' & _). by apply list_elem_of_singleton in Hx as ->.
  - subst rest. by apply elem_of_nil in Hx.
Qed.

Lemma sequenced_group g saved :
  sequence_entries [group_entry g] = Ok saved → sequenced 0 (rg_events g) saved.
Proof.
  unfold sequence_entries. cbn [map_res]. cbn [ae_expectedVersion ae_events group_entry]. intros H.
  step_ok H as groups Hg. step_ok Hg as x Hx. injection Hg as <-. injection H as <-. cbn [concat].
  rewrite app_nil_r. by apply sequenceEvents_sequenced.
Qed.

Lemma group_life planner e action g saved :
  group_of planner e action g → sequence_entries [group_entry g] = Ok saved →
  run_trace (e_tenantId e) (rg_runId g) saved ∧
  ∃ r, foldAutomationRun (e_tenantId e) saved = Some r ∧ group_snapshot saved = Ok (automationRunSnapshot r) ∧
    ar_status r = match suppression planner e action with Some _ => RunDead | None => RunPending end.
Proof.
  intros (stream & ev & rest & _ & Hid & Hev & Hten & _ & Hpay & Hsup) (H1 & _ & H3)%sequenced_group.
  rewrite Hid. rewrite Hev in H1.
  assert (run_trace (e_tenantId e) (ta_runId action) saved ∧
    ∃ s0 sl, head saved = Some s0 ∧ e_tenantId s0 = e_tenantId e ∧ last saved = Some sl ∧
      step_status (e_payload sl) = match suppression planner e action with Some _ => RunDead | None => RunPending end)
    as [Ht (s0 & sl & Hhd & Ht0 & Hl & Hst)].
  { destruct (suppression planner e action) as [err|].
    - destruct Hsup as (ev' & -> & _ & _ & Hpay').
      destruct saved as [|s0 [|s1 [|]]]; simplify_eq/=. split.
      + eapply trace_suppressed; [exact Hpay|done|by apply (H3 0 s0)|exact Hpay'|by apply (H3 1%nat s1)].
      + exists s0, s1. by rewrite Hpay'.
    - subst rest. destruct saved as [|s0 [|]]; simplify_eq/=. split.
      + eapply trace_enqueued; [exact Hpay|done|by apply (H3 0 s0)].
      + exists s0, s0. by rewrite Hpay. }
  split; [done|].
  destruct (run_trace_record _ _ _ Ht) as (r & Hf & _ & _ & _ & _ & (e1 & Hl1 & Hs1) & _).
  exists r. split_and!; [done| |congruence].
  unfold group_snapshot. destruct saved as [|s0' saved]; [done|]. cbn in Hhd. injection Hhd as ->.
  by rewrite Ht0, Hf.
Qed.

(** What the planner enqueues starts the life of a run: the saved events of each
    group are a legal trace of that run, and the projection committed with them
    is the snapshot of its record, pending unless the loop was cut. *)
Theorem planner_starts_runs host ids planner context rules metadata n plan n' g saved :
  planEnqueueFromDomainEvent host ids planner context rules metadata n = (Ok plan, n') → g ∈ acp_groups plan →
  sequence_entries [group_entry g] = Ok saved →
  run_trace (e_tenantId (rmc_event context)) (rg_runId g) saved ∧
  ∃ r, foldAutomationRun (e_tenantId (rmc_event context)) saved = Some r ∧
    group_snapshot saved = Ok (automationRunSnapshot r) ∧
    ar_status r = if decide (length (rg_events g) = 1) then RunPending else RunDead.
Proof.
  intros Hp Hg Hs. destruct (plan_group_elem _ _ _ _ _ _ _ _ _ _ Hp Hg) as (action & _ & Hga).
  destruct (group_life _ _ _ _ _ Hga Hs) as (Ht & r & Hf & Hsn & Hst). split; [done|].
  exists r. split_and!; [done..|]. rewrite Hst.
  destruct Hga as (stream & ev & rest & _ & _ & Hev & _ & _ & _ & Hsup). rewrite Hev.
  destruct (suppression _ _ _).
  - by destruct Hsup as (ev' & -> & _).
  - by subst rest.
Qed.

Lemma planner_batch host ids doctype limits given rules planner context metadata n plan n' :
  normalizeAutomationRules doctype (Some given) limits = Ok (Some rules) →
  planEnqueueFromDomainEvent host ids planner context (Some rules) metadata n = (Ok plan, n') →
  batch_ok (acp_entries plan).
Proof.
  intros Hnorm [-> [-> |HF]]%plan_groups; [split; [constructor|by intros ? ?%elem_of_nil]|].
  change (default [] (Some rules)) with rules in HF.
  pose proof (runs_nodup host doctype limits given rules context Hnorm) as Hnd.
  revert HF Hnd. generalize (automationActionsFromDomainEvent host rules context) (acp_groups plan).
  intros actions groups HF Hnd.
  split.
  - unfold entry_streams. revert Hnd. induction HF as [|a g actions groups Hag HF IH]; intros Hnd; [constructor|].
    rewrite !fmap_cons. rewrite fmap_cons in Hnd. apply NoDup_cons in Hnd as [Hnin Hnd].
    apply NoDup_cons. split; [|by apply IH].
    intros (en & Hen & (g' & -> & Hg')%list_elem_of_fmap)%list_elem_of_fmap.
    apply list_elem_of_lookup in Hg' as [i Hi]. destruct (Forall2_lookup_r _ _ _ _ _ HF Hi) as (a' & Ha' & Hga').
    pose proof Hag as (s & _ & _ & Hs & _). pose proof Hga' as (s' & _ & _ & Hs' & _).
    destruct (group_entry_stream _ _ _ _ _ Hag Hs) as [Hst _].
    destruct (group_entry_stream _ _ _ _ _ Hga' Hs') as [Hst' _].
    rewrite Hst, Hst' in Hen. subst s'. apply Hnin.
    apply list_elem_of_lookup_2 in Ha'.
    destruct (documentStream_same _ _ _ _ _ _ _ Hs Hs') as (_ & _ & ->).
    by apply list_elem_of_fmap_2.
  - intros en (g & -> & Hg)%list_elem_of_fmap ev Hev.
    apply list_elem_of_lookup in Hg as [i Hi]. destruct (Forall2_lookup_r _ _ _ _ _ HF Hi) as (a & _ & Hga).
    pose proof Hga as (s & _ & _ & Hs & _). destruct (group_entry_stream _ _ _ _ _ Hga Hs) as [-> Hall]. by apply Hall.
Qed.

(** The entries of a plan are a batch the store can commit: their streams are
    distinct and hold only their own events. *)
Theorem planner_batch_ok host ids doctype limits given rules planner context metadata n plan n' :
  normalizeAutomationRules doctype (Some given) limits = Ok (Some rules) →
  planEnqueueFromDomainEvent host ids planner context (Some rules) metadata n = (Ok plan, n') →
  batch_ok (acp_entries plan).
Proof. apply planner_batch. Qed.

(** ** A sample *)

Definition sample_planner : AutomationRunPlanner :=
  {| arp_retry := {| rp_maxAttempts := 10; rp_baseDelaySeconds := 30; rp_maxDelaySeconds := 1800 |};
     arp_maxDepth := 8; arp_maxPathRepeats := 1 |}.

Definition sample_plan : AutomationRunCommitPlan :=
  Eval vm_compute in
    match (planEnqueueFromDomainEvent sample_rule_host sample_ids sample_planner sample_context
             (Some sample_normalized) None 0).1 with
    | Ok plan => plan
    | Throw _ => emptyAutomationRunCommitPlan
    end.

Lemma planner_cuts_loops_witness :
  ∃ g, g ∈ acp_groups sample_plan ∧
  ∃ (q : AutomationRunEnqueued) ev rest key, rg_events g = ev :: rest ∧ e_payload ev = PRunEnqueued q ∧
    are_automationDepth q = 1%Z ∧ are_automationPath q = [key] ∧
    (rest = [] ↔ (are_automationDepth q <= 8)%Z ∧ (occurrences key (are_automationPath q) <= 1)%Z).
Proof.
  eexists. split; [left|].
  apply (planner_cuts_loops sample_rule_host sample_ids sample_planner sample_context (Some sample_normalized) None 0
    sample_plan 2); [by vm_compute|left].
Defined.

Lemma planner_starts_runs_witness :
  ∃ g saved r, g ∈ acp_groups sample_plan ∧ sequence_entries [group_entry g] = Ok saved ∧
    run_trace (js "default") (rg_runId g) saved ∧
    foldAutomationRun (js "default") saved = Some r ∧ ar_status r = RunPending.
Proof.
  eexists _, _. edestruct (planner_starts_runs sample_rule_host sample_ids sample_planner sample_context
    (Some sample_normalized) None 0 sample_plan 2) as (H1 & r & H2 & _ & H3);
    [by vm_compute|left|vm_compute; reflexivity|].
  exists r. split_and!; [left|vm_compute; reflexivity|exact H1|exact H2|exact H3].
Defined.

Lemma planner_batch_ok_witness : batch_ok (acp_entries sample_plan).
Proof.
  exact (planner_batch_ok sample_rule_host sample_ids sample_doctype sample_limits sample_rules sample_normalized
    sample_planner sample_context None 0 sample_plan 2 eq_refl eq_refl).
Defined.
