(* ===== verification/AppGraph.v ===== *)
(** * AppGraph: the order in which apps are installed

    Models [core/app-graph.ts] and [core/app-name.ts]: a depth-first search that
    orders apps after their dependencies.  The recursion of [visitApp] is on fuel;
    one more than the number of apps is enough, since every nested call is for an
    app that is not yet being visited ([resolve_order]). *)

From S2P Require Export JsMap Prelude.

(** ** Names *)

Definition is_lower (c : N) : bool := (97 <=? c)%N && (c <=? 122)%N.

(** [/^[a-z][a-z0-9_-]*$/]. *)
Definition appNamePattern (name : jstr) : bool :=
  match name with
  | [] => false
  | c :: rest => is_lower c && forallb (λ c, is_lower c || is_digit c || bool_decide (c ∈ js "_-")) rest
  end.

Definition assertAppName (name : jstr) : res unit :=
  ensure (appNamePattern name) (FrameworkError APP_INVALID 400).

Definition assertAppNames (names : list jstr) : res unit :=
  foldl_res (λ _ name, assertAppName name) tt names.

(** ** The graph *)

Record AppDependencyNode := {
  ad_name : jstr;
  ad_dependencies : option (list jstr)
}.

Section graph.
(** [T extends AppDependencyNode]. *)
Context {T : Type} (node : T → AppDependencyNode).

Definition app_name (app : T) : jstr := ad_name (node app).
Definition app_dependencies (app : T) : list jstr := default [] (ad_dependencies (node app)).

(** The sets and the array that [visitApp] shares. *)
Record VisitState := {
  vs_visiting : list jstr;
  vs_visited : list jstr;
  vs_ordered : list T
}.

Definition dependency_cycle : error := FrameworkError APP_DEPENDENCY_CYCLE 409.
Definition dependency_missing : error := FrameworkError APP_DEPENDENCY_MISSING 400.

(** [visitApp(app, byName, visiting, visited, ordered)]. *)
Fixpoint visitApp (fuel : nat) (byName : list (jstr * T)) (app : T) : M VisitState unit :=
  match fuel with
  | 0 => m_throw (FrameworkError PLAIN_ERROR 500)
  | S fuel =>
      s ← m_get;
      if bool_decide (app_name app ∈ vs_visited s) then mret tt
      else
        _ ← m_ensure (negb (bool_decide (app_name app ∈ vs_visiting s))) dependency_cycle;
        _ ← m_put {| vs_visiting := js_add (app_name app) (vs_visiting s); vs_visited := vs_visited s;
                     vs_ordered := vs_ordered s |};
        _ ← m_each (λ dependencyName,
              match jm_get dependencyName byName with
              | None => m_throw dependency_missing
              | Some dependency => visitApp fuel byName dependency
              end) (app_dependencies app);
        s ← m_get;
        m_put {| vs_visiting := js_remove (app_name app) (vs_visiting s);
                 vs_visited := js_add (app_name app) (vs_visited s);
                 vs_ordered := vs_ordered s ++ [app] |}
  end.

(** The first loop of [resolveAppDependencyOrder]. *)
Definition index_apps (apps : list T) : res (list (jstr * T)) :=
  foldl_res (λ byName app,
    _ ← assertAppName (app_name app);
    _ ← assertAppNames (app_dependencies app);
    _ ← ensure (negb (jm_has (app_name app) byName)) (FrameworkError APP_DUPLICATE 409);
    Ok (jm_set (app_name app) app byName)) [] apps.

(** [resolveAppDependencyOrder(apps)]. *)
Definition resolveAppDependencyOrder (apps : list T) : res (list T) :=
  byName ← index_apps apps;
  match m_each (visitApp (S (length apps)) byName) apps {| vs_visiting := []; vs_visited := []; vs_ordered := [] |} with
  | (Ok _, s) => Ok (vs_ordered s)
  | (Throw e, _) => Throw e
  end.

(** ** What an order must satisfy *)

(** [x] names an app that depends on [y]. *)
Definition depends_on (apps : list T) (x y : jstr) : Prop :=
  ∃ app, app ∈ apps ∧ app_name app = x ∧ y ∈ app_dependencies app.

(** Every app comes after its dependencies. *)
Definition topological (ordered : list T) : Prop :=
  ∀ i app, ordered !! i = Some app → ∀ d, d ∈ app_dependencies app → d ∈ app_name <$> take i ordered.

Lemma topological_snoc ordered app :
  topological ordered → (∀ d, d ∈ app_dependencies app → d ∈ app_name <$> ordered) → topological (ordered ++ [app]).
Proof.
  intros Ht Hd i x Hi d Hin. apply lookup_app_Some in Hi as [Hi|[Hle Hi]].
  - rewrite take_app_le by (apply lookup_lt_Some in Hi; lia). by eapply Ht.
  - apply list_lookup_singleton_Some in Hi as [Hi <-]. rewrite take_app_ge, fmap_app, elem_of_app by lia.
    left. by apply Hd.
Qed.

(** ** The search *)

Section search.
Context (apps : list T) (byName : list (jstr * T)).
(** What the first loop established. *)
Context (Hnames : NoDup (app_name <$> apps))
        (Hindex : ∀ name app, jm_get name byName = Some app ↔ app ∈ apps ∧ app_name app = name).

Record search_ok (s : VisitState) : Prop := {
  so_visited : vs_visited s = app_name <$> vs_ordered s;
  so_nodup : NoDup (app_name <$> vs_ordered s);
  so_known : ∀ app, app ∈ vs_ordered s → app ∈ apps;
  so_topological : topological (vs_ordered s);
  so_path : NoDup (vs_visiting s);
  so_path_known : ∀ x, x ∈ vs_visiting s → x ∈ app_name <$> apps;
  so_disjoint : ∀ x, x ∈ vs_visiting s → x ∉ vs_visited s
}.

(** What a failure means. *)
Definition failure (e : error) : Prop :=
  (e = dependency_cycle ∧ ∃ x, tc (depends_on apps) x x) ∨
  (e = dependency_missing ∧ ∃ x y, depends_on apps x y ∧ y ∉ app_name <$> apps).

(** What a visit of some names does. *)
Definition visit_result (s : VisitState) (names : list jstr) (r : res unit * VisitState) : Prop :=
  match r with
  | (Ok _, s') => search_ok s' ∧ vs_visiting s' = vs_visiting s ∧ vs_ordered s `prefix_of` vs_ordered s' ∧
      ∀ x, x ∈ names → x ∈ vs_visited s'
  | (Throw e, _) => failure e
  end.

Lemma visited_mono s s' x :
  search_ok s → search_ok s' → vs_ordered s `prefix_of` vs_ordered s' → x ∈ vs_visited s → x ∈ vs_visited s'.
Proof using Type.
  intros Hs Hs' [k Hk]. rewrite (so_visited _ Hs), (so_visited _ Hs'), Hk, fmap_app, elem_of_app. by left.
Qed.

Lemma visit_each {A} (key : A → jstr) (f : A → M VisitState unit) l path s :
  (∀ x s, x ∈ l → search_ok s → vs_visiting s = path → visit_result s [key x] (f x s)) →
  search_ok s → vs_visiting s = path → visit_result s (key <$> l) (m_each f l s).
Proof using Type.
  revert s. induction l as [|x l IH]; intros s Hf Hs Hpath; cbn [m_each].
  { split_and!; [done|done|reflexivity|by intros ? ?%elem_of_nil]. }
  rewrite m_bind_run. pose proof (Hf x s ltac:(left) Hs Hpath) as H1.
  destruct (f x s) as [[u|e] s1]; [|done]. destruct H1 as (Hs1 & Hp1 & Ho1 & Hv1).
  assert (H2 : visit_result s1 (key <$> l) (m_each f l s1)).
  { apply IH; [|done|congruence]. intros y t Hy. apply Hf. by right. }
  destruct (m_each f l s1) as [[u'|e] s2]; [|done]. destruct H2 as (Hs2 & Hp2 & Ho2 & Hv2).
  split_and!; [done|congruence|by etrans|]. rewrite fmap_cons. intros y [-> |Hy]%elem_of_cons; [|by apply Hv2].
  eapply visited_mono; [exact Hs1|done..|]. apply Hv1. left.
Qed.

(** An app that is about to be visited. *)
Lemma push_ok s app :
  search_ok s → app ∈ apps → app_name app ∉ vs_visited s → app_name app ∉ vs_visiting s →
  search_ok {| vs_visiting := vs_visiting s ++ [app_name app]; vs_visited := vs_visited s;
               vs_ordered := vs_ordered s |}.
Proof using Type.
  intros [] Hin Hv Hp. constructor; cbn [vs_visiting vs_visited vs_ordered]; try done.
  - apply NoDup_app. split_and!; [done| |apply NoDup_singleton]. by intros x Hx ->%list_elem_of_singleton.
  - intros x [?| ->%list_elem_of_singleton]%elem_of_app; [auto|by apply list_elem_of_fmap_2].
  - intros x [?| ->%list_elem_of_singleton]%elem_of_app; auto.
Qed.

(** An app whose dependencies have been visited. *)
Lemma pop_ok s app path :
  search_ok s → app ∈ apps → vs_visiting s = path ++ [app_name app] →
  (∀ d, d ∈ app_dependencies app → d ∈ vs_visited s) →
  js_remove (app_name app) (vs_visiting s) = path ∧
  search_ok {| vs_visiting := path; vs_visited := js_add (app_name app) (vs_visited s);
               vs_ordered := vs_ordered s ++ [app] |}.
Proof using Type.
  intros [Hvis Hnd Hknown Htop Hpath Hpk Hdis] Hin Hp Hdeps. rewrite Hp in *.
  apply NoDup_app in Hpath as (Hpath & Hnew & _).
  assert (app_name app ∉ path) as Hnot by (intros Hx; by apply (Hnew _ Hx), list_elem_of_singleton).
  assert (app_name app ∉ vs_visited s) as Hnv.
  { apply Hdis, elem_of_app. right. by apply list_elem_of_singleton. }
  split.
  - unfold js_remove. rewrite filter_app, filter_all, filter_none; [by rewrite app_nil_r| |].
    + intros x ->%list_elem_of_singleton. tauto.
    + intros x Hx ->. done.
  - constructor; cbn [vs_visiting vs_visited vs_ordered]; try done.
    + unfold js_add. rewrite decide_False by done. by rewrite fmap_app, Hvis.
    + rewrite fmap_app. apply NoDup_app. split_and!; [done| |apply NoDup_singleton].
      intros x Hx ->%list_elem_of_singleton. by rewrite Hvis in Hnv.
    + intros x [?| ->%list_elem_of_singleton]%elem_of_app; auto.
    + apply topological_snoc; [done|]. by rewrite <-Hvis.
    + intros x Hx. apply Hpk, elem_of_app. by left.
    + intros x Hx [-> |Hxv]%js_add_elem; [done|]. apply (Hdis x); [|done]. apply elem_of_app. by left.
Qed.

Lemma visit_app fuel app s :
  app ∈ apps → search_ok s → (∀ v, v ∈ vs_visiting s → tc (depends_on apps) v (app_name app)) →
  length apps < fuel + length (vs_visiting s) →
  visit_result s [app_name app] (visitApp fuel byName app s).
Proof using Hindex.
  revert app s. induction fuel as [|fuel IH]; intros app s Hin Hs Hreach Hfuel.
  { exfalso. destruct Hs as [_ _ _ _ Hnd Hk _].
    assert (length (vs_visiting s) <= length (app_name <$> apps)) as Hle by (apply submseteq_length, NoDup_submseteq; auto).
    rewrite length_fmap in Hle. lia. }
  cbn [visitApp]. rewrite m_bind_run. unfold m_get at 1. case_bool_decide as Hv.
  { split_and!; [done|done|reflexivity|]. by intros x ->%list_elem_of_singleton. }
  rewrite m_bind_run. unfold m_ensure, m_lift. case_bool_decide as Hp; cbn [negb ensure].
  { left. split; [done|]. exists (app_name app). by apply Hreach. }
  rewrite m_bind_run. unfold m_put at 1.
  replace (js_add (app_name app) (vs_visiting s)) with (vs_visiting s ++ [app_name app])
    by (unfold js_add; by rewrite decide_False).
  pose proof (push_ok s app Hs Hin Hv Hp) as Hs1.
  set (s1 := {| vs_visiting := vs_visiting s ++ [app_name app] |}) in *.
  rewrite m_bind_run.
  assert (Heach : visit_result s1 (id <$> app_dependencies app) (m_each (λ dependencyName,
    match jm_get dependencyName byName with
    | None => m_throw dependency_missing
    | Some dependency => visitApp fuel byName dependency
    end) (app_dependencies app) s1)).
  { apply (visit_each id _ _ (vs_visiting s1)); [|done|done]. intros d t Hd Ht Hpath. unfold id.
    assert (depends_on apps (app_name app) d) as Hdep by (by exists app).
    destruct (jm_get d byName) as [dep|] eqn:Ed.
    - apply Hindex in Ed as [Hdin <-]. apply IH; [done|done| |].
      + rewrite Hpath. subst s1. cbn [vs_visiting]. intros v [Hvv| ->%list_elem_of_singleton]%elem_of_app.
        * eapply tc_r; [by apply Hreach|done].
        * by apply tc_once.
      + rewrite Hpath. subst s1. cbn [vs_visiting]. rewrite length_app. simpl. lia.
    - right. split; [done|]. exists (app_name app), d. split; [done|].
      intros (a & -> & Ha)%list_elem_of_fmap. assert (jm_get (app_name a) byName = Some a) by (by apply Hindex).
      congruence. }
  destruct (m_each _ _ s1) as [[u|e] s2]; [|exact Heach]. destruct Heach as (Hs2 & Hp2 & Ho2 & Hv2).
  rewrite list_fmap_id in Hv2. rewrite m_bind_run. unfold m_get, m_put.
  destruct (pop_ok s2 app (vs_visiting s) Hs2 Hin Hp2 Hv2) as [-> Hs3].
  split_and!; [done|done| |].
  - etrans; [exact Ho2|]. cbn [vs_ordered]. by apply prefix_app_r.
  - intros x ->%list_elem_of_singleton. cbn [vs_visited]. apply js_add_elem. by left.
Qed.
End search.

(** ** The index *)

Lemma assertAppName_ok name :
  assertAppName name = if appNamePattern name then Ok tt else Throw (FrameworkError APP_INVALID 400).
Proof. unfold assertAppName. by destruct (appNamePattern name). Qed.

Lemma assertAppNames_ok names :
  assertAppNames names = if forallb appNamePattern names then Ok tt else Throw (FrameworkError APP_INVALID 400).
Proof.
  unfold assertAppNames. generalize tt at 1. induction names as [|n names IH]; intros []; cbn [foldl_res forallb]; [done|].
  rewrite assertAppName_ok. destruct (appNamePattern n); cbn [mbind res_bind andb]; [apply IH|done].
Qed.

(** The names of an app and of its dependencies. *)
Definition names_valid (app : T) : bool := appNamePattern (app_name app) && forallb appNamePattern (app_dependencies app).

Definition app_entry (app : T) : jstr * T := (app_name app, app).

Lemma index_loop acc l :
  NoDup (app_name <$> acc) →
  foldl_res (λ byName app,
    _ ← assertAppName (app_name app);
    _ ← assertAppNames (app_dependencies app);
    _ ← ensure (negb (jm_has (app_name app) byName)) (FrameworkError APP_DUPLICATE 409);
    Ok (jm_set (app_name app) app byName)) (app_entry <$> acc) l =
  Ok (app_entry <$> acc ++ l) ∧ forallb names_valid l = true ∧ NoDup (app_name <$> acc ++ l) ∨
  (∃ e, foldl_res (λ byName app,
    _ ← assertAppName (app_name app);
    _ ← assertAppNames (app_dependencies app);
    _ ← ensure (negb (jm_has (app_name app) byName)) (FrameworkError APP_DUPLICATE 409);
    Ok (jm_set (app_name app) app byName)) (app_entry <$> acc) l = Throw e ∧
    ((e = FrameworkError APP_INVALID 400 ∧ forallb names_valid l = false) ∨
     (e = FrameworkError APP_DUPLICATE 409 ∧ ¬ NoDup (app_name <$> acc ++ l)))).
Proof.
  revert acc. induction l as [|x l IH]; intros acc Hnd; cbn [foldl_res forallb].
  { left. by rewrite app_nil_r. }
  rewrite assertAppName_ok, assertAppNames_ok. unfold names_valid at 1 3.
  destruct (appNamePattern (app_name x)); cbn [ensure mbind res_bind andb]; [|right; eauto 6].
  destruct (forallb appNamePattern (app_dependencies x)); cbn [mbind res_bind andb]; [|right; eauto 6].
  assert (Hkeys : jm_keys (app_entry <$> acc) = app_name <$> acc) by (unfold jm_keys; by rewrite <-list_fmap_compose).
  assert (Happ : acc ++ x :: l = (acc ++ [x]) ++ l) by (by rewrite <-(assoc_L (++))).
  destruct (jm_has (app_name x) (app_entry <$> acc)) eqn:Ex; cbn [negb ensure mbind res_bind].
  - right. eexists. split; [done|]. right. split; [done|]. apply jm_has_elem in Ex. rewrite Hkeys in Ex.
    rewrite fmap_app. intros (_ & Hd & _)%NoDup_app. apply (Hd _ Ex). left.
  - assert (app_name x ∉ app_name <$> acc) as Hx by (rewrite <-Hkeys, <-jm_has_elem; congruence).
    rewrite jm_set_new by (by rewrite Hkeys).
    replace ((app_entry <$> acc) ++ [(app_name x, x)]) with (app_entry <$> acc ++ [x]) by (by rewrite fmap_app).
    rewrite Happ. apply IH. rewrite fmap_app. apply NoDup_app. split_and!; [done| |apply NoDup_singleton].
    by intros y Hy ->%list_elem_of_singleton.
Qed.

Lemma index_get apps name app :
  NoDup (app_name <$> apps) → jm_get name (app_entry <$> apps) = Some app ↔ app ∈ apps ∧ app_name app = name.
Proof.
  intros Hnd. rewrite jm_get_elem.
  - rewrite list_elem_of_fmap. unfold app_entry. split; [intros (a & [= -> ->] & ?); done|]. intros [? <-]. by exists app.
  - unfold jm_wf, jm_keys. by rewrite <-list_fmap_compose.
Qed.

(** What [resolveAppDependencyOrder] means by an error. *)
Definition graph_error (apps : list T) (e : error) : Prop :=
  (e = FrameworkError APP_INVALID 400 ∧ forallb names_valid apps = false) ∨
  (e = FrameworkError APP_DUPLICATE 409 ∧ ¬ NoDup (app_name <$> apps)) ∨
  (e = dependency_cycle ∧ ∃ x, tc (depends_on apps) x x) ∨
  (e = dependency_missing ∧ ∃ x y, depends_on apps x y ∧ y ∉ app_name <$> apps).

Lemma resolve_cases apps :
  match resolveAppDependencyOrder apps with
  | Ok ordered => ordered ≡ₚ apps ∧ topological ordered
  | Throw e => graph_error apps e
  end.
Proof.
  unfold resolveAppDependencyOrder, index_apps.
  pose proof (index_loop [] apps ltac:(constructor)) as Hloop.
  change (app_entry <$> []) with (@nil (jstr * T)) in Hloop.
  destruct Hloop as [(-> & _ & Hnd)|(e & -> & He)]; [|unfold graph_error; cbn [mbind res_bind]; tauto].
  cbn [mbind res_bind]. change ([] ++ apps) with apps in *.
  set (s0 := {| vs_visiting := []; vs_visited := []; vs_ordered := [] |}).
  assert (Hs0 : search_ok apps s0).
  { constructor; cbn; try done; try constructor; try by intros ? ?%elem_of_nil. }
  assert (H : visit_result apps s0 (app_name <$> apps) (m_each (visitApp (S (length apps)) (app_entry <$> apps)) apps s0)).
  { apply (visit_each apps app_name _ apps []); [|done|done]. intros x t Hx Ht Hp.
    apply visit_app; [intros; by apply index_get|done|done| |].
    { rewrite Hp. by intros ? ?%elem_of_nil. }
    rewrite Hp. simpl. lia. }
  destruct (m_each _ apps s0) as [[u|e] s].
  - destruct H as (Hs & _ & _ & Hall).
    split; [|apply Hs]. apply NoDup_Permutation.
    + eapply NoDup_fmap_1, Hs.
    + by eapply NoDup_fmap_1.
    + intros x. split; [apply Hs|]. intros Hx.
      assert (app_name x ∈ vs_visited s) as Hv by (by apply Hall, list_elem_of_fmap_2).
      rewrite (so_visited _ _ Hs) in Hv. apply list_elem_of_fmap in Hv as (y & Hxy & Hy).
      replace x with y; [done|]. pose proof (so_known _ _ Hs y Hy) as Hy'.
      apply list_elem_of_lookup in Hx as [i Hi], Hy' as [j Hj].
      assert (i = j) as ->; [|congruence].
      eapply (NoDup_lookup _ i j (app_name x) Hnd); rewrite list_lookup_fmap; [by rewrite Hi|].
      rewrite Hj. simpl. by rewrite Hxy.
  - destruct H as [H|H]; unfold graph_error; tauto.
Qed.

(** C37: The order of installation: it is a permutation of the apps in which every app
    comes after its dependencies; and when there is none, the error says why:
    an invalid name, a duplicate, a dependency that is not there, or a cycle. The
    search always ends. *)
Theorem resolve_order apps :
  match resolveAppDependencyOrder apps with
  | Ok ordered => ordered ≡ₚ apps ∧ topological ordered
  | Throw e => graph_error apps e
  end.
Proof. apply resolve_cases. Qed.

(** Completeness: apps with valid and distinct names whose dependencies are all
    there and have no cycle are ordered. *)
Theorem resolve_complete apps :
  forallb names_valid apps = true → NoDup (app_name <$> apps) →
  (∀ x y, depends_on apps x y → y ∈ app_name <$> apps) → (∀ x, ¬ tc (depends_on apps) x x) →
  ∃ ordered, resolveAppDependencyOrder apps = Ok ordered.
Proof.
  intros Hv Hnd Hclosed Hacyclic. pose proof (resolve_cases apps) as H.
  destruct (resolveAppDependencyOrder apps) as [ordered|e]; [by exists ordered|exfalso].
  destruct H as [[_ H]|[[_ H]|[[_ [x H]]|[_ (x & y & H & Hy)]]]]; [congruence|done|by eapply Hacyclic|by eapply Hy, Hclosed].
Qed.
End graph.

(** ** A sample *)

Definition sample_app (name : jstr) (dependencies : list jstr) : AppDependencyNode :=
  {| ad_name := name; ad_dependencies := Some dependencies |}.

Definition sample_apps : list AppDependencyNode :=
  [sample_app (js "crm") [js "core"; js "mail"]; sample_app (js "core") []; sample_app (js "mail") [js "core"]].

(** A measure that decreases along the dependencies excludes cycles. *)
Lemma ranked_acyclic {T} (node : T → AppDependencyNode) apps (rank : jstr → nat) :
  (∀ x y, depends_on node apps x y → rank y < rank x) → ∀ x, ¬ tc (depends_on node apps) x x.
Proof.
  intros H. assert (Htc : ∀ x y, tc (depends_on node apps) x y → rank y < rank x).
  { induction 1 as [x y Hxy|x y z Hxy _ IH]; [by apply H|]. apply H in Hxy. lia. }
  intros x Hx%Htc. lia.
Qed.

Lemma resolve_complete_witness :
  ∃ ordered, resolveAppDependencyOrder id sample_apps = Ok ordered ∧
    ad_name <$> ordered = [js "core"; js "mail"; js "crm"].
Proof.
  destruct (resolve_complete id sample_apps) as [ordered E].
  - by vm_compute.
  - apply (bool_decide_unpack _). by vm_compute.
  - intros x y (app & Hin & <- & Hy). apply (bool_decide_unpack _).
    repeat (apply elem_of_cons in Hin as [-> |Hin];
      [repeat (apply elem_of_cons in Hy as [-> |Hy]; [by vm_compute|]); by apply elem_of_nil in Hy|]).
    by apply elem_of_nil in Hin.
  - apply (ranked_acyclic id sample_apps (λ x, if decide (x = js "crm") then 2 else if decide (x = js "mail") then 1 else 0)).
    intros x y (app & Hin & <- & Hy). apply Nat.ltb_lt.
    repeat (apply elem_of_cons in Hin as [-> |Hin];
      [repeat (apply elem_of_cons in Hy as [-> |Hy]; [by vm_compute|]); by apply elem_of_nil in Hy|]).
    by apply elem_of_nil in Hin.
  - exists ordered. split; [exact E|]. vm_compute in E. injection E as <-. reflexivity.
Defined.
