(* ===== verification/Permissions.v ===== *)
(** * Permissions: who may do what

    Models [core/permissions.ts] (role rules of a doctype),
    [core/field-permissions.ts] (rules of a field), [core/document-shares.ts]
    (shares of one document) and [core/user-permissions.ts] (restrictions of a
    user to some documents).  Both families of grants are folded from events into
    a map by key: [foldGrantsFrom] is the loop they share. *)

From S2P Require Export Fold Types.

(** ** Doctype permissions *)

Definition is_system_manager (actor : Actor) : bool := bool_decide (SYSTEM_MANAGER_ROLE ∈ actor_roles actor).

(** [roles.some((role) => actor.roles.includes(role))]. *)
Definition has_role (roles : list jstr) (actor : Actor) : bool :=
  existsb (λ role, bool_decide (role ∈ actor_roles actor)) roles.

(** [can(actor, doctype, action, document)]. *)
Definition can (actor : Actor) (doctype : DocTypeDefinition) (action : PermissionAction)
    (document : option DocumentSnapshot) : bool :=
  if is_system_manager actor then true
  else existsb (λ rule,
    let roleMatch := has_role (pr_roles rule) actor in
    let actionMatch := bool_decide (action ∈ pr_actions rule) in
    let conditionMatch := match pr_when rule with Some f => f actor action document | None => true end in
    roleMatch && actionMatch && conditionMatch) (default [] (dt_permissions doctype)).

(** ** Field permissions *)

(** [FieldPermissionCheck]; the doctype is the rule's own. *)
Record FieldPermissionCheck := {
  fpc_actor : Actor;
  fpc_action : FieldPermissionAction;
  fpc_field : FieldDefinition;
  fpc_document : option DocumentSnapshot;
  fpc_value : option value
}.

(** [fieldPermissionRuleMatchesActorAndAction(rule, actor, action)]. *)
Definition fieldPermissionRuleMatchesActorAndAction (rule : FieldPermissionRule) (actor : Actor)
    (action : FieldPermissionAction) : bool :=
  bool_decide (action ∈ fpr_actions rule) && has_role (fpr_roles rule) actor.

(** [fieldPermissionRuleAllows(rule, input)]. *)
Definition fieldPermissionRuleAllows (rule : FieldPermissionRule) (input : FieldPermissionCheck) : bool :=
  if negb (fieldPermissionRuleMatchesActorAndAction rule (fpc_actor input) (fpc_action input)) then false
  else match fpr_when rule with
  | Some f => f (fpc_actor input) (fpc_action input) (fpc_document input) (fpc_value input)
  | None => true
  end.

(** The shape of the three checks: the manager passes, a field without rules is
    open, otherwise some rule must allow. *)
Definition field_rules_allow (actor : Actor) (field : FieldDefinition) (allows : FieldPermissionRule → bool) : bool :=
  if is_system_manager actor then true
  else
    let rules := default [] (fd_permissions field) in
    if bool_decide (length rules = 0) then true else existsb allows rules.

(** [canAccessField(input)]. *)
Definition canAccessField (input : FieldPermissionCheck) : bool :=
  field_rules_allow (fpc_actor input) (fpc_field input) (λ rule, fieldPermissionRuleAllows rule input).

(** [canReadField(input)]. *)
Definition canReadField (actor : Actor) (field : FieldDefinition) (document : option DocumentSnapshot)
    (v : option value) : bool :=
  canAccessField {| fpc_actor := actor; fpc_action := FARead; fpc_field := field; fpc_document := document;
                    fpc_value := v |}.

(** [canWriteField(input)]. *)
Definition canWriteField (input : FieldPermissionCheck) : bool :=
  match fpc_action input with
  | FACreate | FAUpdate => canAccessField input
  | FARead => false
  end.

(** [canFieldAppearInMetadata(input)]. *)
Definition canFieldAppearInMetadata (actor : Actor) (action : FieldPermissionAction) (field : FieldDefinition) : bool :=
  field_rules_allow actor field (λ rule, fieldPermissionRuleMatchesActorAndAction rule actor action).

(** [canFieldBeQueried(input)]. *)
Definition canFieldBeQueried (actor : Actor) (field : FieldDefinition) : bool :=
  field_rules_allow actor field (λ rule,
    match fpr_when rule with None => true | Some _ => false end &&
    fieldPermissionRuleMatchesActorAndAction rule actor FARead).

(** [projectDocTypeForFieldAccess(options)], as far as a doctype is modelled. *)
Definition projectDocTypeForFieldAccess (actor : Actor) (doctype : DocTypeDefinition)
    (action : FieldPermissionAction) : DocTypeDefinition :=
  with_fields doctype (filter (λ field, canFieldAppearInMetadata actor action field = true) (dt_fields doctype)).

(** ** Grants *)

(** What an event does to a map of grants. *)
Inductive grant_op (G : Type) :=
| GrantSet (g : G)
| GrantDelete (key : jstr).
Arguments GrantSet {G}.
Arguments GrantDelete {G}.

(** [localeCompare] of the first keys that differ. *)
Fixpoint locale_leb_list `{Collation} (l r : list jstr) : bool :=
  match l, r with
  | [], _ => true
  | _ :: _, [] => false
  | x :: l, y :: r =>
      if collation_leb x y then if collation_leb y x then locale_leb_list l r else true else false
  end.

Record GrantState (G : Type) := { gs_version : Z; gs_grants : list G }.
Arguments gs_version {G}.
Arguments gs_grants {G}.
Arguments Build_GrantState {G}.

Section grants.
Context {G : Type} (key : G → jstr) (leb : G → G → bool) (op : payload → option (grant_op G)).

Definition apply_grant_op (grants : list (jstr * G)) (o : option (grant_op G)) : list (jstr * G) :=
  match o with
  | Some (GrantSet g) => jm_set (key g) g grants
  | Some (GrantDelete k) => jm_delete k grants
  | None => grants
  end.

(** The map of the initial grants. *)
Definition initial_grants (initial : option (GrantState G)) : list (jstr * G) :=
  jm_of_list ((λ g, (key g, g)) <$> match initial with Some s => gs_grants s | None => [] end).

(** The loop over the sorted events. *)
Definition grants_loop (grants : list (jstr * G)) (events : list DomainEvent) : list (jstr * G) :=
  foldl (λ grants (event : DomainEvent), apply_grant_op grants (op (e_payload event))) grants events.

Definition foldGrantsFrom (initial : option (GrantState G)) (events : list DomainEvent) : GrantState G :=
  let sorted := sort_events events in
  {| gs_version := foldl (λ v (event : DomainEvent), Z.max v (e_sequence event))
       match initial with Some s => gs_version s | None => 0%Z end sorted;
     gs_grants := isort leb (jm_values (grants_loop (initial_grants initial) sorted)) |}.
End grants.

(** ** Document shares *)

Definition DOCUMENT_SHARE_PERMISSIONS : list DocumentSharePermission := [ShareRead; ShareUpdate; ShareShare].

Definition share_text (p : DocumentSharePermission) : jstr :=
  match p with ShareRead => js "read" | ShareUpdate => js "update" | ShareShare => js "share" end.

Record DocumentShareGrant := {
  dsg_userId : jstr;
  dsg_permissions : list DocumentSharePermission
}.

(** [toLowerCase] of the ASCII letters.  The letters outside ASCII whose lower case
    is ASCII (the Kelvin sign) occur in no permission. *)
Definition ascii_lower (s : jstr) : jstr := (λ c, if (65 <=? c)%N && (c <=? 90)%N then (c + 32)%N else c) <$> s.

(** [isDocumentSharePermission(value)], with the permission it is. *)
Definition share_of_text (s : jstr) : option DocumentSharePermission :=
  List.find (λ p, bool_decide (share_text p = s)) DOCUMENT_SHARE_PERMISSIONS.

(** [normalizeDocumentSharePermission(permission)]. *)
Definition normalizeDocumentSharePermission (permission : jstr) : option DocumentSharePermission :=
  let normalized := ascii_lower (trim permission) in
  if decide (normalized = js "write") then Some ShareUpdate else share_of_text normalized.

(** [uniqueSorted(values)] of permissions. *)
Definition uniqueSortedShares `{Collation} (l : list DocumentSharePermission) : list DocumentSharePermission :=
  isort (λ x y, collation_leb (share_text x) (share_text y)) (js_unique l).

(** [normalizeDocumentSharePermissions(permissions)]. *)
Definition normalizeDocumentSharePermissions `{Collation} (permissions : list jstr) : list DocumentSharePermission :=
  let normalized := uniqueSortedShares (omap normalizeDocumentSharePermission permissions) in
  if existsb (λ p, negb (bool_decide (p = ShareRead))) normalized && negb (bool_decide (ShareRead ∈ normalized))
  then uniqueSortedShares (ShareRead :: normalized) else normalized.

Definition normalizeDocumentShareUserId (userId : jstr) : jstr := trim userId.

(** [normalizeDocumentShareGrant(grant)]. *)
Definition normalizeDocumentShareGrant `{Collation} (userId : jstr) (permissions : list jstr) : DocumentShareGrant :=
  {| dsg_userId := normalizeDocumentShareUserId userId;
     dsg_permissions := normalizeDocumentSharePermissions permissions |}.

(** [invalidDocumentSharePermissions(permissions)]. *)
Definition invalidDocumentSharePermissions (permissions : list jstr) : list jstr :=
  filter (λ p, p ≠ [] ∧ normalizeDocumentSharePermission p = None) (trim <$> permissions).

(** [documentShareGrantKey(grant)]. *)
Definition documentShareGrantKey (grant : DocumentShareGrant) : jstr :=
  dsg_userId grant ++ [0%N] ++ str_join [1%N] (share_text <$> dsg_permissions grant).

(** [compareDocumentShareGrants(left, right)]. *)
Definition compareDocumentShareGrants `{Collation} (l r : DocumentShareGrant) : bool :=
  locale_leb_list [dsg_userId l; str_join [1%N] (share_text <$> dsg_permissions l)]
    [dsg_userId r; str_join [1%N] (share_text <$> dsg_permissions r)].

(** The cases of the switch of [foldDocumentSharesFrom]. *)
Definition share_op `{Collation} (p : payload) : option (grant_op DocumentShareGrant) :=
  match p with
  | PDocumentShared userId permissions => Some (GrantSet (normalizeDocumentShareGrant userId permissions))
  | PDocumentShareRevoked userId => Some (GrantDelete (normalizeDocumentShareUserId userId))
  | _ => None
  end.

(** [foldDocumentSharesFrom(initial, tenantId, doctype, name, events)]: the version
    and the grants of the state. *)
Definition foldDocumentSharesFrom `{Collation} :=
  foldGrantsFrom dsg_userId compareDocumentShareGrants share_op.
Definition foldDocumentShares `{Collation} := foldDocumentSharesFrom None.

(** [documentSharePermissionsForActor(actor, grants)]. *)
Definition documentSharePermissionsForActor `{Collation} (actor : Actor) (grants : list DocumentShareGrant)
    : list DocumentSharePermission :=
  let actorIds := js_unique (omap id [Some (actor_id actor); actor_email actor]) in
  uniqueSortedShares (flat_map dsg_permissions (filter (λ item, dsg_userId item ∈ actorIds) grants)).

(** [documentShareAllows(permissions, action)]. *)
Definition documentShareAllows (permissions : list DocumentSharePermission) (action : PermissionAction) : bool :=
  match action with
  | ARead => bool_decide (ShareRead ∈ permissions)
  | AUpdate => bool_decide (ShareUpdate ∈ permissions)
  | AShare => bool_decide (ShareShare ∈ permissions)
  | _ => false
  end.

(** ** User permissions *)

Record UserPermissionGrant := {
  upg_targetDoctype : jstr;
  upg_targetName : jstr;
  upg_applicableDoctypes : option (list jstr)
}.

(** [normalizeUserPermissionGrant(grant)]. *)
Definition normalizeUserPermissionGrant `{Collation} (grant : UserPermissionGrant) : UserPermissionGrant :=
  let applicableDoctypes := locale_sort (js_unique
    (filter (λ doctype, doctype ≠ []) (trim <$> default [] (upg_applicableDoctypes grant)))) in
  {| upg_targetDoctype := trim (upg_targetDoctype grant); upg_targetName := trim (upg_targetName grant);
     upg_applicableDoctypes := if bool_decide (0 < length applicableDoctypes) then Some applicableDoctypes else None |}.

Definition applicable_text (grant : UserPermissionGrant) : jstr :=
  str_join [1%N] (default [] (upg_applicableDoctypes grant)).

(** [userPermissionGrantKey(grant)]. *)
Definition userPermissionGrantKey (grant : UserPermissionGrant) : jstr :=
  upg_targetDoctype grant ++ [0%N] ++ upg_targetName grant ++ [0%N] ++ applicable_text grant.

(** [compareUserPermissionGrants(left, right)]. *)
Definition compareUserPermissionGrants `{Collation} (l r : UserPermissionGrant) : bool :=
  locale_leb_list [upg_targetDoctype l; upg_targetName l; applicable_text l]
    [upg_targetDoctype r; upg_targetName r; applicable_text r].

(** The cases of the switch of [foldUserPermissionsFrom]. *)
Definition user_permission_op `{Collation} (userId : jstr) (p : payload) : option (grant_op UserPermissionGrant) :=
  match p with
  | PUserPermissionAllowed user targetDoctype targetName applicableDoctypes =>
      if decide (user = userId) then
        Some (GrantSet (normalizeUserPermissionGrant {| upg_targetDoctype := targetDoctype;
          upg_targetName := targetName; upg_applicableDoctypes := applicableDoctypes |}))
      else None
  | PUserPermissionRevoked user targetDoctype targetName applicableDoctypes =>
      if decide (user = userId) then
        Some (GrantDelete (userPermissionGrantKey (normalizeUserPermissionGrant
          {| upg_targetDoctype := targetDoctype; upg_targetName := targetName;
             upg_applicableDoctypes := applicableDoctypes |})))
      else None
  | _ => None
  end.

(** [foldUserPermissionsFrom(initial, tenantId, userId, events)]: the version and
    the grants of the state. *)
Definition foldUserPermissionsFrom `{Collation} (initial : option (GrantState UserPermissionGrant)) (userId : jstr) :=
  foldGrantsFrom userPermissionGrantKey compareUserPermissionGrants (user_permission_op userId) initial.
Definition foldUserPermissions `{Collation} := foldUserPermissionsFrom None.

(** [isGrantApplicableToDoctype(grant, doctype)]. *)
Definition isGrantApplicableToDoctype (grant : UserPermissionGrant) (doctype : jstr) : bool :=
  match upg_applicableDoctypes grant with None => true | Some l => bool_decide (doctype ∈ l) end.

(** [field.type === link && field.linkTo === target]. *)
Definition links_to (target : jstr) (field : FieldDefinition) : bool :=
  bool_decide (fd_type field = FLink) && bool_decide (fd_linkTo field = Some target).

(** [isGrantRelevantToDoctype(grant, doctype)]. *)
Definition isGrantRelevantToDoctype (grant : UserPermissionGrant) (doctype : DocTypeDefinition) : bool :=
  if negb (isGrantApplicableToDoctype grant (dt_name doctype)) then false
  else bool_decide (dt_name doctype = upg_targetDoctype grant) ||
       existsb (links_to (upg_targetDoctype grant)) (dt_fields doctype).

(** [isGrantRelevantToLinkField(grant, doctype, field)]. *)
Definition isGrantRelevantToLinkField (grant : UserPermissionGrant) (doctype : DocTypeDefinition)
    (field : FieldDefinition) : bool :=
  isGrantApplicableToDoctype grant (dt_name doctype) && links_to (upg_targetDoctype grant) field.

(** [documentMatchesTargetRestriction(doctype, document, targetDoctype, allowedNames)]. *)
Definition documentMatchesTargetRestriction (doctype : DocTypeDefinition) (document : DocumentSnapshot)
    (targetDoctype : jstr) (allowedNames : list jstr) : bool :=
  if decide (dt_name doctype = targetDoctype) then bool_decide (ds_name document ∈ allowedNames)
  else
    let linkFields := List.filter (links_to targetDoctype) (dt_fields doctype) in
    if bool_decide (length linkFields = 0) then true
    else existsb (λ field, match vget (fd_name field) (ds_data document) with
      | VStr v => bool_decide (v ∈ allowedNames)
      | _ => false
      end) linkFields.

(** The map from targets to names of [documentMatchesUserPermissions]. *)
Definition grants_by_target (relevant : list UserPermissionGrant) : list (jstr * list jstr) :=
  foldl (λ byTarget grant,
    let names := default [] (jm_get (upg_targetDoctype grant) byTarget) in
    jm_set (upg_targetDoctype grant) (js_add (upg_targetName grant) names) byTarget) [] relevant.

(** [documentMatchesUserPermissions(doctype, document, grants)]. *)
Definition documentMatchesUserPermissions (doctype : DocTypeDefinition) (document : DocumentSnapshot)
    (grants : list UserPermissionGrant) : bool :=
  let relevant := List.filter (λ grant, isGrantRelevantToDoctype grant doctype) grants in
  if bool_decide (length relevant = 0) then true
  else forallb (λ entry, documentMatchesTargetRestriction doctype document entry.1 entry.2) (grants_by_target relevant).

(** [linkTargetMatchesUserPermissions(sourceDoctype, field, target, grants)]. *)
Definition linkTargetMatchesUserPermissions (sourceDoctype : DocTypeDefinition) (field : FieldDefinition)
    (target : DocumentSnapshot) (grants : list UserPermissionGrant) : bool :=
  match fd_type field, fd_linkTo field with
  | FLink, Some linkTo =>
      if negb (bool_decide (ds_doctype target = linkTo)) then false
      else
        let allowedNames := foldl (λ names grant,
          if isGrantRelevantToLinkField grant sourceDoctype field then js_add (upg_targetName grant) names
          else names) [] grants in
        bool_decide (length allowedNames = 0) || bool_decide (ds_name target ∈ allowedNames)
  | _, _ => true
  end.


(** ** Fields *)

(** What a user may query the user may read on every document, and what may be
    read on some document is shown in the metadata. *)
Theorem field_visibility actor field document v :
  (canFieldBeQueried actor field = true → canReadField actor field document v = true) ∧
  (canReadField actor field document v = true → canFieldAppearInMetadata actor FARead field = true).
Proof.
  unfold canFieldBeQueried, canReadField, canAccessField, canFieldAppearInMetadata, field_rules_allow.
  cbn [fpc_actor fpc_field]. destruct (is_system_manager actor); [done|].
  case_bool_decide; [done|]. rewrite !existsb_In. unfold fieldPermissionRuleAllows. cbn [fpc_actor fpc_action].
  split; intros (rule & Hin & H').
  - apply andb_prop in H' as [Hw Hm]. exists rule. rewrite Hm. by destruct (fpr_when rule).
  - exists rule. split; [done|]. by destruct (fieldPermissionRuleMatchesActorAndAction _ _ _).
Qed.

(** ** Folding grants *)

Section folding.
Context {G : Type} (key : G → jstr) (leb : G → G → bool) (op : payload → option (grant_op G)).

(** Every grant is stored under its key. *)
Definition keyed (m : list (jstr * G)) : Prop := jm_wf m ∧ ∀ kv, kv ∈ m → kv.1 = key kv.2.

Lemma apply_grant_op_keyed m o : keyed m → keyed (apply_grant_op key m o).
Proof.
  intros [Hwf Hk]. destruct o as [[g|k]|]; simpl; [|split|done].
  - split; [by apply jm_wf_set|]. intros kv [-> |?]%jm_set_elem; auto.
  - by apply jm_wf_delete.
  - intros kv ?%jm_delete_elem. auto.
Qed.

Lemma grants_loop_keyed m events : keyed m → keyed (grants_loop key op m events).
Proof.
  unfold grants_loop. revert m. induction events as [|e events IH]; intros m Hm; simpl; [done|].
  by apply IH, apply_grant_op_keyed.
Qed.

Lemma of_list_keyed l : keyed (jm_of_list ((λ g, (key g, g)) <$> l)).
Proof.
  unfold jm_of_list, jm_spread. assert (Hn : keyed []) by (split; [apply jm_wf_nil|by intros ? ?%elem_of_nil]).
  revert Hn. generalize (@nil (jstr * G)). induction l as [|g l IH]; intros m Hm; [done|]. rewrite fmap_cons. simpl.
  apply IH. by apply (apply_grant_op_keyed m (Some (GrantSet g))).
Qed.

(** The grants that a map with such keys lists rebuild it. *)
Lemma of_list_values m l :
  keyed m → l ≡ₚ jm_values m → jm_equiv (jm_of_list ((λ g, (key g, g)) <$> l)) m.
Proof.
  intros [Hwf Hk] Hl.
  assert (Hpairs : (λ g, (key g, g)) <$> l ≡ₚ m).
  { rewrite Hl. unfold jm_values. rewrite <-list_fmap_compose.
    enough ((λ g, (key g, g)) ∘ snd <$> m = m) as -> by done.
    rewrite <-(list_fmap_id m) at 2. apply list_fmap_ext. intros i [k g] Hi.
    apply list_elem_of_lookup_2, Hk in Hi. simpl in *. by subst. }
  assert (Hwf' : jm_wf ((λ g, (key g, g)) <$> l)).
  { unfold jm_wf, jm_keys in *. by rewrite Hpairs. }
  intros k. unfold jm_of_list. rewrite jm_get_spread by done.
  assert (jm_equiv ((λ g, (key g, g)) <$> l) m) as -> by (by apply jm_equiv_perm).
  by destruct (jm_get k m).
Qed.

Lemma apply_grant_op_equiv m m' o :
  jm_wf m → jm_wf m' → jm_equiv m m' → jm_equiv (apply_grant_op key m o) (apply_grant_op key m' o).
Proof.
  intros H1 H2 H k. destruct o as [[g|k']|]; simpl; [| |apply H].
  - by rewrite !jm_get_set, H.
  - by rewrite !jm_get_delete, H.
Qed.

Lemma grants_loop_equiv m m' events :
  keyed m → keyed m' → jm_equiv m m' → jm_equiv (grants_loop key op m events) (grants_loop key op m' events).
Proof.
  unfold grants_loop. revert m m'. induction events as [|e events IH]; intros m m' H1 H2 H; simpl; [done|].
  apply IH; [by apply apply_grant_op_keyed..|]. apply apply_grant_op_equiv; [apply H1|apply H2|done].
Qed.

Lemma foldGrantsFrom_resume_lemma initial prefix tail :
  follows prefix tail →
  gs_version (foldGrantsFrom key leb op (Some (foldGrantsFrom key leb op initial prefix)) tail) =
    gs_version (foldGrantsFrom key leb op initial (prefix ++ tail)) ∧
  gs_grants (foldGrantsFrom key leb op (Some (foldGrantsFrom key leb op initial prefix)) tail) ≡ₚ
    gs_grants (foldGrantsFrom key leb op initial (prefix ++ tail)).
Proof.
  intros Hf. unfold foldGrantsFrom at 1 3 4 6. cbn [gs_version gs_grants]. rewrite sort_events_app by done.
  rewrite foldl_app. split; [done|]. rewrite !isort_perm. unfold grants_loop at 2. rewrite foldl_app.
  fold (grants_loop key op). set (m := grants_loop key op (initial_grants key initial) (sort_events prefix)).
  assert (Hm : keyed m) by apply grants_loop_keyed, of_list_keyed.
  unfold initial_grants at 1. cbn [gs_grants foldGrantsFrom]. fold m.
  set (m' := jm_of_list _).
  assert (Hm' : keyed m') by apply of_list_keyed.
  assert (Heq : jm_equiv m' m) by (apply of_list_values; [done|apply isort_perm]).
  pose proof (grants_loop_equiv m' m (sort_events tail) Hm' Hm Heq) as He.
  unfold jm_values. apply Permutation_map. apply jm_equiv_perm; [apply grants_loop_keyed, Hm'| |done].
  apply grants_loop_keyed, Hm.
Qed.
End folding.

(** ** Which grants are in force *)

Section in_force.
Context {G : Type} (key : G → jstr) (leb : G → G → bool) (op : payload → option (grant_op G)).

(** The key an operation touches. *)
Definition op_key (o : option (grant_op G)) : option jstr :=
  match o with Some (GrantSet g) => Some (key g) | Some (GrantDelete k) => Some k | None => None end.

Definition untouched (k : jstr) (events : list DomainEvent) : Prop :=
  ∀ e : DomainEvent, e ∈ events → op_key (op (e_payload e)) ≠ Some k.

Lemma apply_grant_op_get m o k :
  jm_wf m →
  jm_get k (apply_grant_op key m o) =
  match o with
  | Some (GrantSet g) => if decide (k = key g) then Some g else jm_get k m
  | Some (GrantDelete k') => if decide (k = k') then None else jm_get k m
  | None => jm_get k m
  end.
Proof. intros Hm. destruct o as [[g|k']|]; simpl; [apply jm_get_set|by apply jm_get_delete|done]. Qed.

Lemma snoc_split {A} (l l1 l2 : list A) x y :
  l ++ [x] = l1 ++ y :: l2 → (l2 = [] ∧ l1 = l ∧ y = x) ∨ ∃ l2', l2 = l2' ++ [x] ∧ l = l1 ++ y :: l2'.
Proof.
  intros E. destruct l2 as [|z l2 _] using rev_ind; [left; by apply app_inj_tail in E as [-> ->]|right].
  rewrite app_comm_cons, app_assoc in E. apply app_inj_tail in E as [-> ->]. by exists l2.
Qed.

(** A set of [g] under [k] that nothing touches later. *)
Definition set_last (k : jstr) (g : G) (events : list DomainEvent) : Prop :=
  ∃ l1 (e : DomainEvent) l2, events = l1 ++ e :: l2 ∧ op (e_payload e) = Some (GrantSet g) ∧ key g = k ∧ untouched k l2.

Lemma set_last_keep k g events (e : DomainEvent) :
  op_key (op (e_payload e)) ≠ Some k → set_last k g events ↔ set_last k g (events ++ [e]).
Proof.
  intros Hne. split; intros (l1 & e' & l2 & E & H1 & H2 & H3).
  - exists l1, e', (l2 ++ [e]). rewrite E, <-app_assoc. split_and!; [done..|].
    intros x [?| ->%list_elem_of_singleton]%elem_of_app; [by apply H3|done].
  - destruct (snoc_split _ _ _ _ _ E) as [(-> & -> & ->)|(l2' & -> & ->)].
    + rewrite H1 in Hne. simpl in Hne. congruence.
    + exists l1, e', l2'. split_and!; [done..|]. intros x Hx. apply H3, elem_of_app. by left.
Qed.

Lemma set_last_touch k g events (e : DomainEvent) :
  op_key (op (e_payload e)) = Some k →
  set_last k g (events ++ [e]) ↔ op (e_payload e) = Some (GrantSet g) ∧ key g = k.
Proof.
  intros Hk. split.
  - intros (l1 & e' & l2 & E & H1 & H2 & H3).
    destruct (snoc_split _ _ _ _ _ E) as [(-> & -> & ->)|(l2' & -> & ->)]; [done|].
    exfalso. apply (H3 e); [|done]. apply elem_of_app. right. by apply list_elem_of_singleton.
  - intros [H1 H2]. exists events, e, []. split_and!; [done..|]. by intros ? ?%elem_of_nil.
Qed.

Lemma grants_loop_get events k g :
  jm_get k (grants_loop key op [] events) = Some g ↔ set_last k g events.
Proof.
  induction events as [|e events IH] using rev_ind.
  { split; [done|]. by intros ([|] & e & l2 & ? & _). }
  unfold grants_loop. rewrite foldl_app. fold (grants_loop key op [] events). cbn [foldl].
  rewrite apply_grant_op_get by (apply (grants_loop_keyed key op []); split; [apply jm_wf_nil|by intros ? ?%elem_of_nil]).
  pose proof (set_last_keep k g events e) as Hkeep. pose proof (set_last_touch k g events e) as Htouch.
  destruct (op (e_payload e)) as [[g'|k']|] eqn:Eop; simpl in *.
  - destruct (decide (k = key g')) as [-> |Hne].
    + rewrite Htouch by done. split; [by intros [= ->]|]. by intros [[= ->] _].
    + rewrite <-Hkeep by congruence. exact IH.
  - destruct (decide (k = k')) as [-> |Hne].
    + rewrite Htouch by done. split; [done|by intros [? _]].
    + rewrite <-Hkeep by congruence. exact IH.
  - rewrite <-Hkeep by done. exact IH.
Qed.

Lemma foldGrants_in_force events g :
  g ∈ gs_grants (foldGrantsFrom key leb op None events) ↔
  ∃ l1 (e : DomainEvent) l2, sort_events events = l1 ++ e :: l2 ∧ op (e_payload e) = Some (GrantSet g) ∧
    untouched (key g) l2.
Proof.
  unfold foldGrantsFrom. cbn [gs_grants]. rewrite elem_of_isort. change (initial_grants key None) with (@nil (jstr * G)).
  assert (Hk : keyed key (grants_loop key op [] (sort_events events))).
  { apply grants_loop_keyed. split; [apply jm_wf_nil|by intros ? ?%elem_of_nil]. }
  transitivity (jm_get (key g) (grants_loop key op [] (sort_events events)) = Some g).
  - rewrite jm_get_elem by apply Hk. unfold jm_values. rewrite list_elem_of_fmap. split.
    + intros ([k g'] & -> & Hin). apply Hk in Hin as Hkey. simpl in *. by rewrite <-Hkey.
    + intros Hin. by exists (key g, g).
  - rewrite grants_loop_get. unfold set_last. split.
    + intros (l1 & e & l2 & H1 & H2 & _ & H3). by exists l1, e, l2.
    + intros (l1 & e & l2 & H1 & H2 & H3). by exists l1, e, l2.
Qed.

Lemma foldGrants_one_per_key events :
  NoDup (key <$> gs_grants (foldGrantsFrom key leb op None events)).
Proof.
  unfold foldGrantsFrom. cbn [gs_grants]. rewrite isort_perm.
  assert (Hk : keyed key (grants_loop key op [] (sort_events events))).
  { apply grants_loop_keyed. split; [apply jm_wf_nil|by intros ? ?%elem_of_nil]. }
  change (initial_grants key None) with (@nil (jstr * G)). destruct Hk as [Hwf Hk]. unfold jm_values.
  rewrite <-list_fmap_compose. replace (key ∘ snd <$> _) with (jm_keys (grants_loop key op [] (sort_events events))); [done|].
  unfold jm_keys. apply list_fmap_ext. intros i kv Hi. apply Hk. by eapply list_elem_of_lookup_2.
Qed.
End in_force.

(** A document is shared with a user exactly as the last event about that user
    says: the shares in force are those of the last share event of each user that
    no revocation follows, at most one per user. *)
Theorem shares_in_force `{Collation} events :
  NoDup (dsg_userId <$> gs_grants (foldDocumentShares events)) ∧
  ∀ grant, grant ∈ gs_grants (foldDocumentShares events) ↔
    ∃ l1 (e : DomainEvent) l2, sort_events events = l1 ++ e :: l2 ∧
      share_op (e_payload e) = Some (GrantSet grant) ∧ untouched dsg_userId share_op (dsg_userId grant) l2.
Proof. split; [apply foldGrants_one_per_key|intros grant; apply foldGrants_in_force]. Qed.

(** A user is restricted exactly as the last event about each grant says: allowed
    and not revoked since. *)
Theorem user_permissions_in_force `{Collation} userId events grant :
  grant ∈ gs_grants (foldUserPermissions userId events) ↔
    ∃ l1 (e : DomainEvent) l2, sort_events events = l1 ++ e :: l2 ∧
      user_permission_op userId (e_payload e) = Some (GrantSet grant) ∧
      untouched userPermissionGrantKey (user_permission_op userId) (userPermissionGrantKey grant) l2.
Proof. apply foldGrants_in_force. Qed.

(** Both folds resume from the state of a prefix: same version, same grants. *)
Theorem grants_resume `{Collation} userId shares grants prefix tail :
  follows prefix tail →
  (gs_version (foldDocumentSharesFrom (Some (foldDocumentSharesFrom shares prefix)) tail) =
     gs_version (foldDocumentSharesFrom shares (prefix ++ tail)) ∧
   gs_grants (foldDocumentSharesFrom (Some (foldDocumentSharesFrom shares prefix)) tail) ≡ₚ
     gs_grants (foldDocumentSharesFrom shares (prefix ++ tail))) ∧
  (gs_version (foldUserPermissionsFrom (Some (foldUserPermissionsFrom grants userId prefix)) userId tail) =
     gs_version (foldUserPermissionsFrom grants userId (prefix ++ tail)) ∧
   gs_grants (foldUserPermissionsFrom (Some (foldUserPermissionsFrom grants userId prefix)) userId tail) ≡ₚ
     gs_grants (foldUserPermissionsFrom grants userId (prefix ++ tail))).
Proof. intros Hf. split; by apply foldGrantsFrom_resume_lemma. Qed.

(** ** Normalized shares *)

Lemma uniqueSortedShares_elem `{Collation} l p : p ∈ uniqueSortedShares l ↔ p ∈ l.
Proof. unfold uniqueSortedShares. by rewrite elem_of_isort, js_unique_elem. Qed.

Lemma uniqueSortedShares_nodup `{Collation} l : NoDup (uniqueSortedShares l).
Proof. apply isort_nodup, js_unique_nodup. Qed.

(** Any share lets its user read: whatever permissions are asked for, the
    normalized ones are those that are known, each once, together with reading
    when there is any. *)
Theorem share_implies_read `{Collation} permissions :
  let normalized := normalizeDocumentSharePermissions permissions in
  NoDup normalized ∧
  (∀ p, p ∈ normalized ↔
     p ∈ omap normalizeDocumentSharePermission permissions ∨
     p = ShareRead ∧ omap normalizeDocumentSharePermission permissions ≠ []) ∧
  (documentShareAllows normalized AUpdate = true ∨ documentShareAllows normalized AShare = true →
   documentShareAllows normalized ARead = true).
Proof.
  intros normalized.
  assert (Hmem : ∀ p, p ∈ normalized ↔
     p ∈ omap normalizeDocumentSharePermission permissions ∨
     p = ShareRead ∧ omap normalizeDocumentSharePermission permissions ≠ []).
  { intros p. unfold normalized, normalizeDocumentSharePermissions.
    set (l := omap normalizeDocumentSharePermission permissions).
    destruct (existsb _ _) eqn:Eo; cbn [andb].
    - apply existsb_In in Eo as (o & Ho & _). rewrite uniqueSortedShares_elem in Ho.
      assert (l ≠ []) as Hl by (intros E; rewrite E in Ho; by apply elem_of_nil in Ho).
      case_bool_decide as Hr; cbn [negb]; rewrite uniqueSortedShares_elem.
      + rewrite uniqueSortedShares_elem in Hr. split; [by left|]. by intros [?|[-> _]].
      + rewrite elem_of_cons, uniqueSortedShares_elem. tauto.
    - rewrite uniqueSortedShares_elem. split; [by left|]. intros [?|[-> Hl]]; [done|].
      destruct l as [|o l'] eqn:El; [done|]. apply not_true_iff_false in Eo. rewrite existsb_In in Eo.
      destruct (decide (o = ShareRead)) as [-> |Hne]; [left|]. exfalso. apply Eo. exists o.
      rewrite uniqueSortedShares_elem. split; [left|]. by rewrite bool_decide_false. }
  split_and!; [|done|].
  - unfold normalized, normalizeDocumentSharePermissions. destruct (_ && _); apply uniqueSortedShares_nodup.
  - cbn [documentShareAllows]. rewrite !bool_decide_eq_true, !Hmem. intros Hp. right. split; [done|].
    intros E. rewrite E in Hp. by destruct Hp as [[?%elem_of_nil|[? _]]|[?%elem_of_nil|[? _]]].
Qed.

(** ** Restrictions *)

(** The document satisfies the restriction of one grant. *)
Definition grant_allows (doctype : DocTypeDefinition) (document : DocumentSnapshot) (grant : UserPermissionGrant) : Prop :=
  if decide (dt_name doctype = upg_targetDoctype grant) then ds_name document = upg_targetName grant
  else ∃ field, field ∈ dt_fields doctype ∧ links_to (upg_targetDoctype grant) field = true ∧
         vget (fd_name field) (ds_data document) = VStr (upg_targetName grant).

Lemma grants_by_target_get relevant acc target :
  jm_get target (foldl (λ byTarget grant,
    let names := default [] (jm_get (upg_targetDoctype grant) byTarget) in
    jm_set (upg_targetDoctype grant) (js_add (upg_targetName grant) names) byTarget) acc relevant) =
  match List.filter (λ g, bool_decide (upg_targetDoctype g = target)) relevant with
  | [] => jm_get target acc
  | l => Some (foldl (λ names g, js_add (upg_targetName g) names) (default [] (jm_get target acc)) l)
  end.
Proof.
  revert acc. induction relevant as [|g relevant IH]; intros acc; [done|]. cbn [foldl List.filter]. rewrite IH. cbv zeta.
  rewrite jm_get_set. case_bool_decide as E.
  - subst target. rewrite decide_True by done. cbn [default foldl].
    by destruct (List.filter _ relevant).
  - rewrite decide_False by done. done.
Qed.

Lemma names_elem l acc n :
  n ∈ foldl (λ names (g : UserPermissionGrant), js_add (upg_targetName g) names) acc l ↔
  n ∈ acc ∨ ∃ g, g ∈ l ∧ upg_targetName g = n.
Proof.
  revert acc. induction l as [|g l IH]; intros acc; cbn [foldl].
  - split; [by left|]. by intros [?|(g & ?%elem_of_nil & _)].
  - rewrite IH, js_add_elem. split.
    + intros [[-> |?]|(g' & ? & ?)]; [right; exists g; by split; [left|]|by left|right; exists g'; by split; [right|]].
    + intros [?|(g' & [-> |?]%elem_of_cons & <-)]; [left; by right|by left; left|right; by exists g'].
Qed.

Lemma restriction_allows doctype document target names :
  (dt_name doctype = target ∨ ∃ field, field ∈ dt_fields doctype ∧ links_to target field = true) →
  documentMatchesTargetRestriction doctype document target names = true ↔
  ∃ n, n ∈ names ∧ if decide (dt_name doctype = target) then ds_name document = n
    else ∃ field, field ∈ dt_fields doctype ∧ links_to target field = true ∧
           vget (fd_name field) (ds_data document) = VStr n.
Proof.
  intros Hrel. unfold documentMatchesTargetRestriction. destruct (decide (dt_name doctype = target)) as [E|Hne].
  - rewrite bool_decide_eq_true. split; [by exists (ds_name document)|]. by intros (n & ? & ->).
  - destruct Hrel as [?|(f0 & Hf0 & Hl0)]; [done|]. rewrite bool_decide_false.
    + rewrite existsb_In. split.
      * intros (field & Hin & Hv). apply list_elem_of_In, filter_In in Hin as [Hin Hl].
        apply list_elem_of_In in Hin. destruct (vget _ _) as [| | | |v| |] eqn:Ev; try done.
        apply bool_decide_eq_true in Hv. exists v. split; [done|]. by exists field.
      * intros (n & Hn & field & Hin & Hl & Hv). exists field. rewrite Hv. split; [|by apply bool_decide_eq_true].
        apply list_elem_of_In, filter_In. by apply list_elem_of_In in Hin.
    + intros Hlen. assert (f0 ∈ List.filter (links_to target) (dt_fields doctype)) as Hin.
      { apply list_elem_of_In, filter_In. by apply list_elem_of_In in Hf0. }
      apply length_zero_iff_nil in Hlen. rewrite Hlen in Hin. by apply elem_of_nil in Hin.
Qed.

Lemma relevant_target grant doctype :
  isGrantRelevantToDoctype grant doctype = true →
  dt_name doctype = upg_targetDoctype grant ∨
  ∃ field, field ∈ dt_fields doctype ∧ links_to (upg_targetDoctype grant) field = true.
Proof.
  unfold isGrantRelevantToDoctype. destruct (isGrantApplicableToDoctype _ _); cbn [negb]; [|done].
  intros [H|H]%orb_prop; [left; by apply bool_decide_eq_true in H|right]. by apply existsb_In in H.
Qed.

Lemma filter_elem {A} (f : A → bool) l x : x ∈ List.filter f l ↔ x ∈ l ∧ f x = true.
Proof. by rewrite !list_elem_of_In, filter_In. Qed.

(** What the map holds: the targets of the grants, each with its names. *)
Lemma by_target_get relevant g :
  g ∈ relevant → ∃ names, jm_get (upg_targetDoctype g) (grants_by_target relevant) = Some names ∧
    ∀ n, n ∈ names ↔ ∃ g', g' ∈ relevant ∧ upg_targetDoctype g' = upg_targetDoctype g ∧ upg_targetName g' = n.
Proof.
  intros Hg. unfold grants_by_target. rewrite grants_by_target_get.
  set (l := List.filter (λ g', bool_decide (upg_targetDoctype g' = upg_targetDoctype g)) relevant).
  assert (Hl : ∀ g', g' ∈ l ↔ g' ∈ relevant ∧ upg_targetDoctype g' = upg_targetDoctype g).
  { intros g'. unfold l. by rewrite filter_elem, bool_decide_eq_true. }
  assert (g ∈ l) as Hgl by (by apply Hl).
  destruct l as [|x l']; [by apply elem_of_nil in Hgl|]. eexists. split; [reflexivity|]. intros n.
  rewrite names_elem. cbn [jm_get default]. setoid_rewrite Hl. rewrite elem_of_nil. split.
  - intros [[]|(g' & [? ?] & ?)]. by exists g'.
  - intros (g' & ? & ? & ?). right. by exists g'.
Qed.

Lemma by_target_entry relevant target names :
  (target, names) ∈ grants_by_target relevant →
  ∃ g, g ∈ relevant ∧ upg_targetDoctype g = target ∧ jm_get target (grants_by_target relevant) = Some names.
Proof.
  intros Hin. assert (jm_wf (grants_by_target relevant)) as Hwf.
  { unfold grants_by_target. assert (Hn : jm_wf (@nil (jstr * list jstr))) by apply jm_wf_nil. revert Hn.
    generalize (@nil (jstr * list jstr)). clear. induction relevant as [|g l IH]; intros acc Hn; simpl; [done|].
    by apply IH, jm_wf_set. }
  apply (jm_get_elem _ _ _ Hwf) in Hin. pose proof Hin as Hin'. unfold grants_by_target in Hin'.
  rewrite grants_by_target_get in Hin'. destruct (List.filter _ relevant) as [|g l] eqn:El; [done|].
  assert (g ∈ List.filter (λ g0, bool_decide (upg_targetDoctype g0 = target)) relevant) as Hg by (rewrite El; left).
  apply filter_elem in Hg as [Hg Ht%bool_decide_eq_true]. by exists g.
Qed.

(** A document passes a user's restrictions exactly when, for every grant that
    concerns its doctype, some grant for the same target allows the document: by
    its name when the target is its own doctype, by a link field otherwise. *)
Theorem userPermissions_match doctype document grants :
  documentMatchesUserPermissions doctype document grants = true ↔
  ∀ g, g ∈ grants → isGrantRelevantToDoctype g doctype = true →
    ∃ g', g' ∈ grants ∧ isGrantRelevantToDoctype g' doctype = true ∧
      upg_targetDoctype g' = upg_targetDoctype g ∧ grant_allows doctype document g'.
Proof.
  unfold documentMatchesUserPermissions. set (relevant := List.filter _ grants).
  assert (Hrel : ∀ g, g ∈ relevant ↔ g ∈ grants ∧ isGrantRelevantToDoctype g doctype = true) 
    by (intros g; unfold relevant; by rewrite filter_elem).
  assert (Hallow : ∀ g names, g ∈ relevant → jm_get (upg_targetDoctype g) (grants_by_target relevant) = Some names →
    documentMatchesTargetRestriction doctype document (upg_targetDoctype g) names = true ↔
    ∃ g', g' ∈ grants ∧ isGrantRelevantToDoctype g' doctype = true ∧
      upg_targetDoctype g' = upg_targetDoctype g ∧ grant_allows doctype document g').
  { intros g names Hg Hn. destruct (by_target_get relevant g Hg) as (names' & Hn' & Hmem).
    rewrite Hn in Hn'. injection Hn' as <-.
    rewrite restriction_allows by (apply relevant_target, Hrel, Hg). unfold grant_allows. split.
    - intros (n & (g' & Hg' & Ht & <-)%Hmem & Hok). exists g'. apply Hrel in Hg' as [? ?]. by rewrite Ht.
    - intros (g' & H1 & H2 & Ht & Hok). exists (upg_targetName g'). rewrite Ht in Hok. split; [|done].
      apply Hmem. exists g'. by rewrite Hrel. }
  transitivity (∀ g, g ∈ relevant → ∃ g', g' ∈ grants ∧ isGrantRelevantToDoctype g' doctype = true ∧
      upg_targetDoctype g' = upg_targetDoctype g ∧ grant_allows doctype document g').
  2: { setoid_rewrite Hrel. split; [intros H g H1 H2; by apply H|]. intros H g [H1 H2]. by apply H. }
  case_bool_decide as Hlen.
  - apply length_zero_iff_nil in Hlen. rewrite Hlen. split; [|done]. by intros _ g ?%elem_of_nil.
  - rewrite forallb_In. split.
    + intros H g Hg. destruct (by_target_get relevant g Hg) as (names & Hn & _). apply (Hallow g names Hg Hn).
      apply jm_get_elem_1 in Hn. exact (H _ Hn).
    + intros H [target names] Hin. destruct (by_target_entry _ _ _ Hin) as (g & Hg & <- & Hn). cbn [fst snd].
      apply (Hallow g names Hg Hn). by apply H.
Qed.

Lemma grants_resume_witness :
  let shared user permissions n := sample_event n (PDocumentShared user permissions) in
  let prefix := [shared (js "bob") [js "write"] 1%Z; shared (js "eve") [js "read"] 2%Z] in
  let tail := [sample_event 3 (PDocumentShareRevoked (js "eve ")); sample_event 4 (PUserPermissionAllowed (js "bob")
    (js "Task") (js "T-1") None)] in
  gs_grants (foldDocumentSharesFrom (H := code_unit_collation)
    (Some (foldDocumentSharesFrom (H := code_unit_collation) None prefix)) tail) ≡ₚ
  [{| dsg_userId := js "bob"; dsg_permissions := [ShareRead; ShareUpdate] |}].
Proof.
  intros shared prefix tail.
  destruct (grants_resume (H := code_unit_collation) (js "bob") None None prefix tail) as [[_ ->] _];
    [by apply follows_check|]. by vm_compute.
Defined.
