(* ===== verification/Workflow.v ===== *)
(** * Workflow: named workflows of a doctype

    Models [core/workflow.ts]: the normalization of workflow definitions, the
    decision on a transition, the definitions in force as a fold of their
    events, and their effect on a doctype.  Definitions are typed data, so the
    checks of [typeof] on them are the types of the records.  The text of a state
    value that is not a string is the host's. *)

From S2P Require Export Normalize Predicates Fold.

(** ** Normalization *)

Definition DEFAULT_MAX_WORKFLOWS : Z := 16.
Definition DEFAULT_MAX_TRANSITIONS_PER_WORKFLOW : Z := 64.

Record WorkflowNormalizationLimits := {
  wnl_maxWorkflows : option Z;
  wnl_maxTransitionsPerWorkflow : option Z
}.

Definition workflowInvalid : error := FrameworkError WORKFLOW_INVALID 400.

(** [positiveLimit], [normalizeRequiredString], [normalizeStableId] and
    [optionalRequiredString]. *)
Definition positiveLimit (v : option Z) (fallback : Z) : res Z := positive_limit workflowInvalid v fallback.
Definition normalizeRequiredString (v : jstr) : res jstr := required_text workflowInvalid v.
Definition normalizeStableId (v : jstr) : res jstr := stable_text workflowInvalid v.
Definition optionalRequiredString (v : option jstr) : res (option jstr) :=
  optional_res normalizeRequiredString v.

(** [uniqueRequiredStrings(values, label)]. *)
Definition uniqueRequiredStrings (values : list jstr) : res (list jstr) :=
  _ ← ensure (negb (bool_decide (values = []))) workflowInvalid;
  distinct_loop workflowInvalid normalizeRequiredString id values.

(** [isWorkflowStateField(field)]. *)
Definition isWorkflowStateField (field : FieldDefinition) : bool :=
  bool_decide (fd_type field ∈ [FText; FLongText; FDate; FDatetime; FLink; FSelect]).

(** [assertWorkflowStateFieldCanStoreStates(field, states, workflowName)]. *)
Definition assertWorkflowStateFieldCanStoreStates (field : FieldDefinition) (states : list jstr) : res unit :=
  _ ← ensure (isWorkflowStateField field) workflowInvalid;
  match fd_type field, fd_options field with
  | FSelect, Some options => ensure (forallb (λ state, bool_decide (state ∈ options)) states) workflowInvalid
  | _, _ => Ok tt
  end.

(** The options that [normalizeNamedWorkflowTransition] gives
    [normalizePredicateExpression]. *)
Definition allow_when_options : NormalizeOptions :=
  {| no_availableScopes := Some [ScBefore; ScAfter; ScInput; ScActor];
     no_errorCode := Some WORKFLOW_INVALID; no_maxDepth := None; no_maxNodes := None |}.

(** [normalizeNamedWorkflowTransition(doctype, workflowName, transition, states, index)]. *)
Definition normalizeNamedWorkflowTransition (doctype : DocTypeDefinition) (states : list jstr)
    (transition : NamedWorkflowTransition) : res NamedWorkflowTransition :=
  action ← normalizeStableId (nwt_action transition);
  from ← normalizeRequiredString (nwt_from transition);
  to ← normalizeRequiredString (nwt_to transition);
  _ ← ensure (bool_decide (from ∈ states)) workflowInvalid;
  _ ← ensure (bool_decide (to ∈ states)) workflowInvalid;
  roles ← optional_res uniqueRequiredStrings (nwt_roles transition);
  allowWhen ← optional_res (λ e, normalizePredicateExpression doctype e allow_when_options)
                (nwt_allowWhen transition);
  eventType ← optionalRequiredString (nwt_eventType transition);
  Ok {| nwt_action := action; nwt_from := from; nwt_to := to; nwt_roles := roles;
        nwt_allowWhen := allowWhen; nwt_eventType := eventType |}.

(** The key of a transition: the code joins state and action with a null character. *)
Definition transition_key (transition : NamedWorkflowTransition) : jstr :=
  nwt_from transition ++ [0%N] ++ nwt_action transition.

(** [assertUniqueTransitionActions(workflowName, transitions)]. *)
Definition assertUniqueTransitionActions (transitions : list NamedWorkflowTransition) : res unit :=
  _ ← foldl_res (λ seen transition,
        _ ← ensure (negb (bool_decide (transition_key transition ∈ seen))) workflowInvalid;
        Ok (js_add (transition_key transition) seen)) [] transitions;
  Ok tt.

(** [doctype.fields.find((field) => field.name === name)]. *)
Definition field_named (doctype : DocTypeDefinition) (name : jstr) : option FieldDefinition :=
  snd <$> list_find (λ field, fd_name field = name) (dt_fields doctype).

(** [normalizeNamedWorkflowDefinition(doctype, workflow, limits)]. *)
Definition normalizeNamedWorkflowDefinition (doctype : DocTypeDefinition) (workflow : NamedWorkflowDefinition)
    (limits : WorkflowNormalizationLimits) : res NamedWorkflowDefinition :=
  name ← normalizeStableId (nwd_name workflow);
  label ← optionalRequiredString (nwd_label workflow);
  stateField ← normalizeRequiredString (nwd_stateField workflow);
  match field_named doctype stateField with
  | None => Throw workflowInvalid
  | Some stateFieldDefinition =>
      states ← uniqueRequiredStrings (nwd_states workflow);
      _ ← assertWorkflowStateFieldCanStoreStates stateFieldDefinition states;
      initialState ← normalizeRequiredString (nwd_initialState workflow);
      _ ← ensure (bool_decide (initialState ∈ states)) workflowInvalid;
      maxTransitions ← positiveLimit (wnl_maxTransitionsPerWorkflow limits) DEFAULT_MAX_TRANSITIONS_PER_WORKFLOW;
      _ ← ensure (negb (maxTransitions <? Z.of_nat (length (nwd_transitions workflow)))%Z) workflowInvalid;
      transitions ← map_res (normalizeNamedWorkflowTransition doctype states) (nwd_transitions workflow);
      _ ← ensure (negb (Nat.eqb (length transitions) 0)) workflowInvalid;
      _ ← assertUniqueTransitionActions transitions;
      Ok {| nwd_name := name; nwd_label := label; nwd_stateField := stateField; nwd_initialState := initialState;
            nwd_states := states; nwd_transitions := transitions |}
  end.

(** The loop of [normalizeNamedWorkflows] over the normalized workflows. *)
Definition assert_distinct_workflows (normalized : list NamedWorkflowDefinition) : res unit :=
  _ ← foldl_res (λ (seen : list jstr * list jstr) workflow,
        _ ← ensure (negb (bool_decide (nwd_name workflow ∈ seen.1))) workflowInvalid;
        _ ← ensure (negb (bool_decide (nwd_stateField workflow ∈ seen.2))) workflowInvalid;
        Ok (js_add (nwd_name workflow) seen.1, js_add (nwd_stateField workflow) seen.2)) ([], []) normalized;
  Ok tt.

(** [normalizeNamedWorkflows(doctype, workflows, limits)]. *)
Definition normalizeNamedWorkflows (doctype : DocTypeDefinition)
    (workflows : option (list NamedWorkflowDefinition)) (limits : WorkflowNormalizationLimits)
    : res (option (list NamedWorkflowDefinition)) :=
  match workflows with
  | None => Ok None
  | Some workflows =>
      maxWorkflows ← positiveLimit (wnl_maxWorkflows limits) DEFAULT_MAX_WORKFLOWS;
      _ ← ensure (negb (maxWorkflows <? Z.of_nat (length workflows))%Z) workflowInvalid;
      normalized ← map_res (λ workflow, normalizeNamedWorkflowDefinition doctype workflow limits) workflows;
      _ ← assert_distinct_workflows normalized;
      Ok (Some normalized)
  end.

(** ** Decisions *)

(** [NamedWorkflowTransitionContext]; the actor as the plain object a predicate
    path reads beside its roles. *)
Record NamedWorkflowTransitionContext := {
  ntc_roles : list jstr;
  ntc_actorObject : value;
  ntc_document : DocumentSnapshot;
  ntc_workflow : NamedWorkflowDefinition;
  ntc_input : option data
}.

(** [NamedWorkflowTransitionDecision], after the state it is taken in. *)
Inductive NamedWorkflowTransitionDecision :=
| Allowed (from : jstr) (transition : NamedWorkflowTransition)
| ActionNotFound (from : jstr)
| StateDenied (from : jstr)
| RoleDenied (from : jstr) (transition : NamedWorkflowTransition)
| ConditionDenied (from : jstr) (transition : NamedWorkflowTransition).

(** [namedWorkflowByName(doctype, workflowName)]. *)
Definition namedWorkflowByName (doctype : DocTypeDefinition) (workflowName : jstr)
    : option NamedWorkflowDefinition :=
  workflows ← dt_workflows doctype;
  snd <$> list_find (λ workflow, nwd_name workflow = workflowName) workflows.

Section decisions.
Context (host : predicate_host).

(** [currentWorkflowState(workflow, document)]. *)
Definition currentWorkflowState (workflow : NamedWorkflowDefinition) (document : DocumentSnapshot) : jstr :=
  match vget (nwd_stateField workflow) (ds_data document) with
  | VUndef | VNull => nwd_initialState workflow
  | v => string_of host v
  end.

(** The document after a transition: [{ ...document.data, [stateField]: to }]. *)
Definition after_transition (workflow : NamedWorkflowDefinition) (transition : NamedWorkflowTransition)
    (document : DocumentSnapshot) : DocumentSnapshot :=
  {| ds_tenantId := ds_tenantId document; ds_doctype := ds_doctype document; ds_name := ds_name document;
     ds_version := ds_version document; ds_docstatus := ds_docstatus document;
     ds_data := jm_set (nwd_stateField workflow) (VStr (nwt_to transition)) (ds_data document);
     ds_createdAt := ds_createdAt document; ds_updatedAt := ds_updatedAt document |}.

(** [evaluateNamedWorkflowTransition(context, action)]. *)
Definition evaluateNamedWorkflowTransition (context : NamedWorkflowTransitionContext) (action : jstr)
    : NamedWorkflowTransitionDecision :=
  let workflow := ntc_workflow context in
  let from := currentWorkflowState workflow (ntc_document context) in
  let transitionsForAction := filter (λ transition, nwt_action transition = action) (nwd_transitions workflow) in
  if Nat.eqb (length transitionsForAction) 0 then ActionNotFound from
  else match snd <$> list_find (λ candidate, nwt_from candidate = from) transitionsForAction with
  | None => StateDenied from
  | Some transition =>
      if match nwt_roles transition with
         | Some roles => negb (existsb (λ role, bool_decide (role ∈ ntc_roles context)) roles)
         | None => false
         end
      then RoleDenied from transition
      else if negb (evaluatePredicateExpression host (nwt_allowWhen transition)
          {| pc_before := Some (ntc_document context);
             pc_after := Some (after_transition workflow transition (ntc_document context));
             pc_input := default [(js "action", VStr action)] (ntc_input context);
             pc_event := VUndef;
             pc_actor := ntc_actorObject context |})
      then ConditionDenied from transition
      else Allowed from transition
  end.

Definition is_allowed (decision : NamedWorkflowTransitionDecision) : bool :=
  match decision with Allowed _ _ => true | _ => false end.

(** [allowedWorkflowTransitions(context)]. *)
Definition allowedWorkflowTransitions (context : NamedWorkflowTransitionContext) : list NamedWorkflowTransition :=
  let currentState := currentWorkflowState (ntc_workflow context) (ntc_document context) in
  filter (λ transition, is_allowed (evaluateNamedWorkflowTransition context (nwt_action transition)) = true)
    (filter (λ transition, nwt_from transition = currentState) (nwd_transitions (ntc_workflow context))).
End decisions.

(** [FieldTransitionPolicyDefinition]. *)
Record FieldTransitionPolicyDefinition := {
  ftp_name : jstr;
  ftp_field : jstr;
  ftp_action : jstr;
  ftp_from : jstr;
  ftp_to : jstr;
  ftp_roles : option (list jstr);
  ftp_allowWhen : option PredicateExpression;
  ftp_eventType : option jstr
}.

(** [compileWorkflowTransitionPolicies(workflow)]. *)
Definition compileWorkflowTransitionPolicies (workflow : NamedWorkflowDefinition)
    : list FieldTransitionPolicyDefinition :=
  (λ transition,
    {| ftp_name := nwd_name workflow ++ js "." ++ nwt_action transition;
       ftp_field := nwd_stateField workflow; ftp_action := nwt_action transition;
       ftp_from := nwt_from transition; ftp_to := nwt_to transition; ftp_roles := nwt_roles transition;
       ftp_allowWhen := nwt_allowWhen transition; ftp_eventType := nwt_eventType transition |})
  <$> nwd_transitions workflow.

(** [workflowStateFieldNames(doctype)]. *)
Definition workflowStateFieldNames (doctype : DocTypeDefinition) : list jstr :=
  nwd_stateField <$> default [] (dt_workflows doctype).

(** ** The definition in force *)

Record NamedWorkflowDefinitionState := {
  nws_tenantId : jstr;
  nws_doctypeName : jstr;
  nws_workflowName : jstr;
  nws_version : Z;
  nws_cleared : bool;
  nws_workflow : option NamedWorkflowDefinition
}.

Definition NAMED_WORKFLOW_STATE_PAYLOAD_KINDS : list jstr := [js "NamedWorkflowSaved"; js "NamedWorkflowCleared"].

(** The body of the loop of [foldNamedWorkflowDefinitionFrom]. *)
Definition fold_workflow_step (doctypeName workflowName : jstr)
    (acc : option NamedWorkflowDefinition * bool * Z) (event : DomainEvent)
    : option NamedWorkflowDefinition * bool * Z :=
  let '(workflow, cleared, version) := acc in
  let version := Z.max version (e_sequence event) in
  match e_payload event with
  | PNamedWorkflowSaved d n w =>
      if bool_decide (d = doctypeName) && bool_decide (n = workflowName) then (Some w, false, version)
      else (workflow, cleared, version)
  | PNamedWorkflowCleared d n =>
      if bool_decide (d = doctypeName) && bool_decide (n = workflowName) then (None, true, version)
      else (workflow, cleared, version)
  | _ => (workflow, cleared, version)
  end.

(** [foldNamedWorkflowDefinitionFrom(initial, tenantId, doctypeName, workflowName, events)]. *)
Definition foldNamedWorkflowDefinitionFrom (initial : option NamedWorkflowDefinitionState)
    (tenantId doctypeName workflowName : jstr) (events : list DomainEvent) : NamedWorkflowDefinitionState :=
  let '(workflow, cleared, version) :=
    foldl (fold_workflow_step doctypeName workflowName)
      (initial ≫= nws_workflow, default false (nws_cleared <$> initial), default 0%Z (nws_version <$> initial))
      (sort_events events) in
  {| nws_tenantId := tenantId; nws_doctypeName := doctypeName; nws_workflowName := workflowName;
     nws_version := version; nws_cleared := cleared; nws_workflow := workflow |}.

(** [foldNamedWorkflowDefinition(tenantId, doctypeName, workflowName, events)]. *)
Definition foldNamedWorkflowDefinition (tenantId doctypeName workflowName : jstr) (events : list DomainEvent)
    : NamedWorkflowDefinitionState :=
  foldNamedWorkflowDefinitionFrom None tenantId doctypeName workflowName events.

(** [applyNamedWorkflowDefinitionToDocType(doctype, state, limits)]. *)
Definition applyNamedWorkflowDefinitionToDocType (doctype : DocTypeDefinition)
    (state : NamedWorkflowDefinitionState) (limits : WorkflowNormalizationLimits) : res DocTypeDefinition :=
  if (nws_version state =? 0)%Z then Ok doctype
  else
    let retained := filter (λ workflow, nwd_name workflow ≠ nws_workflowName state)
                      (default [] (dt_workflows doctype)) in
    let workflows := match nws_workflow state with None => retained | Some w => retained ++ [w] end in
    normalized ← normalizeNamedWorkflows doctype (Some workflows) limits;
    Ok (with_workflows doctype (match normalized with
                                | None | Some [] => None
                                | Some l => Some l
                                end)).

(** ** What normalization guarantees *)

Lemma assertUniqueTransitionActions_ok transitions u :
  assertUniqueTransitionActions transitions = Ok u ↔ NoDup (transition_key <$> transitions).
Proof.
  unfold assertUniqueTransitionActions. pose proof (seen_loop workflowInvalid transition_key transitions []) as H.
  destruct u, (foldl_res _ [] transitions) as [seen|e]; cbn [is_ok mbind res_bind] in *.
  - split; [|done]. intros _. by apply H.
  - split; [done|]. intros Hnd. destruct H as [_ H]. discriminate H. split; [done|]. by intros ? _ ?%elem_of_nil.
Qed.

Lemma assert_distinct_workflows_ok workflows u :
  assert_distinct_workflows workflows = Ok u ↔
  NoDup (nwd_name <$> workflows) ∧ NoDup (nwd_stateField <$> workflows).
Proof.
  unfold assert_distinct_workflows.
  pose proof (seen_loop2 workflowInvalid nwd_name nwd_stateField workflows ([], [])) as H.
  destruct u, (foldl_res _ ([], []) workflows) as [seen|e]; cbn [is_ok mbind res_bind fst snd] in *.
  - split; [|done]. intros _. by destruct (proj1 H eq_refl) as [[? _] [? _]].
  - split; [done|]. intros [H1 H2]. destruct H as [_ H]. discriminate H.
    split; (split; [done|]); by intros ? _ ?%elem_of_nil.
Qed.

Lemma normalizeRequiredString_settles : settles normalizeRequiredString.
Proof. apply required_text_settles. Qed.

Lemma normalizeStableId_settles : settles normalizeStableId.
Proof. apply stable_text_settles. Qed.

Lemma optionalRequiredString_settles : settles optionalRequiredString.
Proof. apply optional_res_settles, required_text_settles. Qed.

Lemma uniqueRequiredStrings_settles : settles uniqueRequiredStrings.
Proof.
  intros l l'. unfold uniqueRequiredStrings. intros H. step_ok H as u Hu.
  pose proof (distinct_loop_length _ _ _ _ _ H) as Hlen.
  apply (distinct_loop_settles _ _ _ normalizeRequiredString_settles) in H.
  rewrite bool_decide_false; [by rewrite H|]. intros ->. by destruct l.
Qed.

Lemma uniqueRequiredStrings_ok l l' :
  uniqueRequiredStrings l = Ok l' → l' ≠ [] ∧ NoDup l' ∧ Forall (λ s, s ≠ []) l'.
Proof.
  unfold uniqueRequiredStrings. intros H. step_ok H as u Hu. apply distinct_loop_ok in H as [Hm Hnd].
  rewrite list_fmap_id in Hnd. apply ensure_ok, negb_true_iff, bool_decide_eq_false in Hu.
  pose proof (map_res_length _ _ _ Hm) as Hlen. split_and!; [|done|].
  - intros ->. destruct l; [done|discriminate].
  - apply map_res_ok in Hm. clear Hu Hlen Hnd. induction Hm as [|x y l l' Hxy _ IH]; constructor; [|done].
    by apply required_text_ok in Hxy as (_ & ? & _).
Qed.

Lemma allow_when_settles doctype :
  settles (λ e, normalizePredicateExpression doctype e allow_when_options).
Proof. intros e e' H. pose proof H as H'. apply normalizePredicateExpression_run in H as [-> _]. done. Qed.

Lemma normalizeNamedWorkflowTransition_settles doctype states :
  settles (normalizeNamedWorkflowTransition doctype states).
Proof.
  intros t t' H. unfold normalizeNamedWorkflowTransition in *.
  step_ok H as a Ha. step_ok H as f Hf. step_ok H as g Hg. step_ok H as u1 H1. step_ok H as u2 H2.
  step_ok H as r Hr. step_ok H as w Hw. step_ok H as e He. injection H as <-.
  cbn [nwt_action nwt_from nwt_to nwt_roles nwt_allowWhen nwt_eventType].
  apply normalizeStableId_settles in Ha. apply normalizeRequiredString_settles in Hf, Hg.
  apply (optional_res_settles _ uniqueRequiredStrings_settles) in Hr.
  apply (optional_res_settles _ (allow_when_settles doctype)) in Hw.
  apply optionalRequiredString_settles in He.
  rewrite Ha. cbn [mbind res_bind]. rewrite Hf. cbn [mbind res_bind]. rewrite Hg. cbn [mbind res_bind].
  rewrite H1. cbn [mbind res_bind]. rewrite H2. cbn [mbind res_bind]. rewrite Hr. cbn [mbind res_bind].
  rewrite Hw. cbn [mbind res_bind]. by rewrite He.
Qed.

Lemma normalizeNamedWorkflowDefinition_settles doctype limits :
  settles (λ w, normalizeNamedWorkflowDefinition doctype w limits).
Proof.
  intros w w' H. unfold normalizeNamedWorkflowDefinition in *.
  step_ok H as n Hn. step_ok H as l Hl. step_ok H as f Hf.
  destruct (field_named doctype f) as [field|] eqn:Efield; [|done].
  step_ok H as states Hs. step_ok H as u1 H1. step_ok H as i Hi. step_ok H as u2 H2. step_ok H as m Hm.
  step_ok H as u3 H3. step_ok H as ts Hts. step_ok H as u4 H4. step_ok H as u5 H5. injection H as <-.
  cbn [nwd_name nwd_label nwd_stateField nwd_initialState nwd_states nwd_transitions].
  apply normalizeStableId_settles in Hn. apply optionalRequiredString_settles in Hl.
  apply normalizeRequiredString_settles in Hf, Hi. apply uniqueRequiredStrings_settles in Hs.
  rewrite <-(map_res_length _ _ _ Hts) in H3.
  apply (map_res_settles _ _ _ (normalizeNamedWorkflowTransition_settles doctype states)) in Hts.
  rewrite Hn. cbn [mbind res_bind]. rewrite Hl. cbn [mbind res_bind]. rewrite Hf. cbn [mbind res_bind].
  rewrite Efield, Hs. cbn [mbind res_bind]. rewrite H1. cbn [mbind res_bind]. rewrite Hi. cbn [mbind res_bind].
  rewrite H2. cbn [mbind res_bind]. rewrite Hm. cbn [mbind res_bind]. rewrite H3. cbn [mbind res_bind].
  rewrite Hts. cbn [mbind res_bind]. rewrite H4. cbn [mbind res_bind]. by rewrite H5.
Qed.

Lemma normalizeNamedWorkflows_ok doctype workflows limits workflows' :
  normalizeNamedWorkflows doctype (Some workflows) limits = Ok (Some workflows') ↔
  (∃ n, positiveLimit (wnl_maxWorkflows limits) DEFAULT_MAX_WORKFLOWS = Ok n ∧
     (Z.of_nat (length workflows) <= n)%Z) ∧
  map_res (λ w, normalizeNamedWorkflowDefinition doctype w limits) workflows = Ok workflows' ∧
  NoDup (nwd_name <$> workflows') ∧ NoDup (nwd_stateField <$> workflows').
Proof.
  cbn [normalizeNamedWorkflows]. split.
  - intros H. step_ok H as n Hn. step_ok H as u Hle. step_ok H as ws Hm. step_ok H as u2 Hd. injection H as <-.
    apply ensure_ok, negb_true_iff, Z.ltb_ge in Hle. apply assert_distinct_workflows_ok in Hd as [? ?].
    split_and!; [by exists n|done..].
  - intros ((n & Hn & Hle) & Hm & H1 & H2). rewrite Hn. cbn [mbind res_bind].
    rewrite (proj2 (Z.ltb_ge _ _) Hle). cbn [negb ensure mbind res_bind]. rewrite Hm. cbn [mbind res_bind].
    by rewrite (proj2 (assert_distinct_workflows_ok workflows' tt) (conj H1 H2)).
Qed.

Lemma normalizeNamedWorkflows_some doctype workflows limits r :
  normalizeNamedWorkflows doctype (Some workflows) limits = Ok r → ∃ workflows', r = Some workflows'.
Proof.
  cbn [normalizeNamedWorkflows]. intros H. step_ok H as n Hn. step_ok H as u Hle. step_ok H as ws Hm.
  step_ok H as u2 Hd. injection H as <-. by eexists.
Qed.

Lemma normalizeNamedWorkflows_settles doctype limits :
  settles (λ ws, normalizeNamedWorkflows doctype ws limits).
Proof.
  intros [ws|] r H; [|by injection H as <-]. destruct (normalizeNamedWorkflows_some _ _ _ _ H) as [ws' ->].
  apply normalizeNamedWorkflows_ok in H as ((n & Hn & Hle) & Hm & H1 & H2). apply normalizeNamedWorkflows_ok.
  split_and!; [|by eapply (map_res_settles _ _ _ (normalizeNamedWorkflowDefinition_settles doctype limits))|done..].
  exists n. apply map_res_length in Hm. by rewrite Hm.
Qed.

(** Normalization is idempotent. *)
Theorem normalizeNamedWorkflows_idempotent doctype limits workflows workflows' :
  normalizeNamedWorkflows doctype workflows limits = Ok workflows' →
  normalizeNamedWorkflows doctype workflows' limits = Ok workflows'.
Proof. apply (normalizeNamedWorkflows_settles doctype limits). Qed.

(** A well-formed workflow: a deterministic state machine over its own states,
    kept in a field that can store them. *)
Record workflow_ok (doctype : DocTypeDefinition) (w : NamedWorkflowDefinition) : Prop := {
  wok_field : ∃ field, field_named doctype (nwd_stateField w) = Some field ∧ isWorkflowStateField field = true ∧
    (∀ options state, fd_type field = FSelect → fd_options field = Some options →
       state ∈ nwd_states w → state ∈ options);
  wok_states : NoDup (nwd_states w) ∧ Forall (λ s, s ≠ []) (nwd_states w);
  wok_initial : nwd_initialState w ∈ nwd_states w;
  wok_transitions : ∀ t, t ∈ nwd_transitions w → nwt_from t ∈ nwd_states w ∧ nwt_to t ∈ nwd_states w;
  wok_nonempty : nwd_transitions w ≠ [];
  wok_deterministic : ∀ t t', t ∈ nwd_transitions w → t' ∈ nwd_transitions w →
    nwt_from t = nwt_from t' → nwt_action t = nwt_action t' → t = t'
}.

Lemma normalizeNamedWorkflowTransition_states doctype states t t' :
  normalizeNamedWorkflowTransition doctype states t = Ok t' → nwt_from t' ∈ states ∧ nwt_to t' ∈ states.
Proof.
  unfold normalizeNamedWorkflowTransition. intros H.
  step_ok H as a Ha. step_ok H as f Hf. step_ok H as g Hg. step_ok H as u1 H1. step_ok H as u2 H2.
  step_ok H as r Hr. step_ok H as w Hw. step_ok H as e He. injection H as <-. cbn [nwt_from nwt_to].
  apply ensure_ok in H1, H2. by rewrite bool_decide_eq_true in H1, H2.
Qed.

Lemma nodup_fmap_inj {A B} (f : A → B) l x y : NoDup (f <$> l) → x ∈ l → y ∈ l → f x = f y → x = y.
Proof.
  intros Hnd [i Hi]%list_elem_of_lookup [j Hj]%list_elem_of_lookup E.
  assert (i = j) as ->; [|congruence].
  eapply (NoDup_lookup _ i j (f x) Hnd); rewrite list_lookup_fmap; [by rewrite Hi|]. by rewrite Hj, E.
Qed.

Lemma normalizeNamedWorkflowDefinition_wf doctype limits w w' :
  normalizeNamedWorkflowDefinition doctype w limits = Ok w' → workflow_ok doctype w'.
Proof.
  unfold normalizeNamedWorkflowDefinition. intros H.
  step_ok H as n Hn. step_ok H as l Hl. step_ok H as f Hf.
  destruct (field_named doctype f) as [field|] eqn:Efield; [|done].
  step_ok H as states Hs. step_ok H as u1 H1. step_ok H as i Hi. step_ok H as u2 H2. step_ok H as m Hm.
  step_ok H as u3 H3. step_ok H as ts Hts. step_ok H as u4 H4. step_ok H as u5 H5. injection H as <-.
  apply uniqueRequiredStrings_ok in Hs as (_ & Hnd & Hne). apply assertUniqueTransitionActions_ok in H5.
  apply ensure_ok, bool_decide_eq_true in H2. apply ensure_ok in H4.
  split; cbn [nwd_name nwd_label nwd_stateField nwd_initialState nwd_states nwd_transitions].
  - exists field. split; [done|]. unfold assertWorkflowStateFieldCanStoreStates in H1. step_ok H1 as u6 H6.
    apply ensure_ok in H6. split; [done|]. intros options state Ht Ho Hstate. rewrite Ht, Ho in H1.
    apply ensure_ok in H1. rewrite forallb_In in H1. specialize (H1 _ Hstate). by apply bool_decide_eq_true in H1.
  - done.
  - done.
  - intros t Ht. apply map_res_ok in Hts. apply list_elem_of_lookup in Ht as [k Hk].
    destruct (Forall2_lookup_r _ _ _ _ _ Hts Hk) as (t0 & _ & Ht0).
    by apply normalizeNamedWorkflowTransition_states in Ht0.
  - by intros ->.
  - intros t t' Ht Ht' E1 E2. eapply (nodup_fmap_inj transition_key); [done..|].
    unfold transition_key. by rewrite E1, E2.
Qed.

(** Normalized workflows are deterministic state machines that stay within their
    states, in fields that can store them, with distinct names and distinct
    state fields, and there are no more of them than the limit. *)
Theorem normalized_workflows_sound doctype limits workflows workflows' :
  normalizeNamedWorkflows doctype (Some workflows) limits = Ok (Some workflows') →
  Forall (workflow_ok doctype) workflows' ∧
  NoDup (nwd_name <$> workflows') ∧ NoDup (nwd_stateField <$> workflows') ∧
  (Z.of_nat (length workflows') <= default 16 (wnl_maxWorkflows limits))%Z.
Proof.
  intros ((n & Hn & Hle) & Hm & H1 & H2)%normalizeNamedWorkflows_ok. split_and!; [|done..|].
  - apply map_res_ok in Hm. clear Hle H1 H2. induction Hm as [|w w' ws ws' Hw _ IH]; constructor; [|done].
    by eapply normalizeNamedWorkflowDefinition_wf.
  - unfold positiveLimit, positive_limit in Hn. step_ok Hn as u Hu. injection Hn as <-.
    apply map_res_length in Hm. unfold DEFAULT_MAX_WORKFLOWS in Hle. lia.
Qed.

(** ** Decisions *)

Section deciding.
Context (host : predicate_host).

(** The actor has one of the roles of the transition, if it names any. *)
Definition role_granted (context : NamedWorkflowTransitionContext) (t : NamedWorkflowTransition) : Prop :=
  match nwt_roles t with
  | Some roles => ∃ role, role ∈ roles ∧ role ∈ ntc_roles context
  | None => True
  end.

(** The condition of the transition holds, before and after it. *)
Definition condition_holds (context : NamedWorkflowTransitionContext) (action : jstr)
    (t : NamedWorkflowTransition) : Prop :=
  evaluatePredicateExpression host (nwt_allowWhen t)
    {| pc_before := Some (ntc_document context);
       pc_after := Some (after_transition (ntc_workflow context) t (ntc_document context));
       pc_input := default [(js "action", VStr action)] (ntc_input context);
       pc_event := VUndef; pc_actor := ntc_actorObject context |} = true.

Lemma role_check context t :
  match nwt_roles t with
  | Some roles => negb (existsb (λ role, bool_decide (role ∈ ntc_roles context)) roles)
  | None => false
  end = false ↔ role_granted context t.
Proof.
  unfold role_granted. destruct (nwt_roles t) as [roles|]; [|done].
  rewrite negb_false_iff, existsb_In. by setoid_rewrite bool_decide_eq_true.
Qed.

Lemma find_transition w action from :
  match snd <$> list_find (λ c, nwt_from c = from) (filter (λ t, nwt_action t = action) (nwd_transitions w)) with
  | Some t => t ∈ nwd_transitions w ∧ nwt_action t = action ∧ nwt_from t = from
  | None => ∀ t, t ∈ nwd_transitions w → nwt_action t = action → nwt_from t ≠ from
  end.
Proof.
  destruct (list_find _ _) as [[k t]|] eqn:E; simpl.
  - apply list_find_Some in E as (Hk & Hf & _). apply list_elem_of_lookup_2 in Hk.
    apply list_elem_of_filter in Hk as [Ha Ht]. done.
  - apply list_find_None in E. intros t Ht Ha. rewrite Forall_forall in E. apply E.
    by apply list_elem_of_filter.
Qed.

(** The decision, by cases. *)
Lemma evaluate_cases context action :
  match evaluateNamedWorkflowTransition host context action with
  | ActionNotFound from => ∀ t, t ∈ nwd_transitions (ntc_workflow context) → nwt_action t ≠ action
  | StateDenied from =>
      (∃ t, t ∈ nwd_transitions (ntc_workflow context) ∧ nwt_action t = action) ∧
      ∀ t, t ∈ nwd_transitions (ntc_workflow context) → nwt_action t = action →
        nwt_from t ≠ currentWorkflowState host (ntc_workflow context) (ntc_document context)
  | RoleDenied from t =>
      t ∈ nwd_transitions (ntc_workflow context) ∧ nwt_action t = action ∧ nwt_from t = from ∧
      from = currentWorkflowState host (ntc_workflow context) (ntc_document context) ∧ ¬ role_granted context t
  | ConditionDenied from t =>
      t ∈ nwd_transitions (ntc_workflow context) ∧ nwt_action t = action ∧ nwt_from t = from ∧
      from = currentWorkflowState host (ntc_workflow context) (ntc_document context) ∧
      role_granted context t ∧ ¬ condition_holds context action t
  | Allowed from t =>
      t ∈ nwd_transitions (ntc_workflow context) ∧ nwt_action t = action ∧ nwt_from t = from ∧
      from = currentWorkflowState host (ntc_workflow context) (ntc_document context) ∧
      role_granted context t ∧ condition_holds context action t
  end.
Proof.
  unfold evaluateNamedWorkflowTransition. cbv zeta.
  pose proof (find_transition (ntc_workflow context) action
    (currentWorkflowState host (ntc_workflow context) (ntc_document context))) as Hfind.
  destruct (filter _ _) as [|t0 ts] eqn:Ef; cbn [length Nat.eqb].
  { intros t Ht Ha. assert (t ∈ @nil NamedWorkflowTransition) as []%elem_of_nil.
    rewrite <-Ef. by apply list_elem_of_filter. }
  destruct (snd <$> list_find _ (t0 :: ts)) as [t|] eqn:E.
  - destruct Hfind as (Ht & Ha & Hf). pose proof (role_check context t) as Hr.
    destruct (match nwt_roles t with Some _ => _ | None => _ end).
    { split_and!; [done..|]. intros Hg. by apply Hr in Hg. }
    destruct (evaluatePredicateExpression host (nwt_allowWhen t) _) eqn:Ec; cbn [negb]; unfold condition_holds.
    + split_and!; [done..|by apply Hr|done].
    + split_and!; [done..|by apply Hr|by rewrite Ec].
  - split; [|done]. exists t0. assert (t0 ∈ t0 :: ts) as Ht by left. rewrite <-Ef in Ht.
    apply list_elem_of_filter in Ht as [? ?]. done.
Qed.
End deciding.

Lemma allowed_iff host doctype context action from t :
  workflow_ok doctype (ntc_workflow context) →
  evaluateNamedWorkflowTransition host context action = Allowed from t ↔
  t ∈ nwd_transitions (ntc_workflow context) ∧ nwt_action t = action ∧ nwt_from t = from ∧
  from = currentWorkflowState host (ntc_workflow context) (ntc_document context) ∧
  role_granted context t ∧ condition_holds host context action t.
Proof.
  intros Hw. pose proof (evaluate_cases host context action) as H. split; [by intros E; rewrite E in H|].
  intros (Ht & Ha & Hf & -> & Hr & Hc). destruct (evaluateNamedWorkflowTransition host context action) as
    [from' t'|from'|from'|from' t'|from' t'].
  - destruct H as (Ht' & Ha' & Hf' & -> & _). f_equal.
    eapply (wok_deterministic _ _ Hw); [done..| |]; congruence.
  - by destruct (H t Ht).
  - by destruct (proj2 H t Ht Ha).
  - destruct H as (Ht' & Ha' & Hf' & -> & Hr'). exfalso. apply Hr'.
    assert (t' = t) as ->; [|done]. eapply (wok_deterministic _ _ Hw); [done..| |]; congruence.
  - destruct H as (Ht' & Ha' & Hf' & -> & _ & Hc'). exfalso. apply Hc'.
    assert (t' = t) as ->; [|done]. eapply (wok_deterministic _ _ Hw); [done..| |]; congruence.
Qed.

(** Of a well-formed workflow, an action is allowed exactly when a transition of
    that action leaves the current state, the actor has one of its roles and its
    condition holds; that transition is then the one returned, and the list of
    allowed transitions is that of the actions that are allowed. *)
Theorem transition_decision host doctype context action from t :
  workflow_ok doctype (ntc_workflow context) →
  (evaluateNamedWorkflowTransition host context action = Allowed from t ↔
   t ∈ nwd_transitions (ntc_workflow context) ∧ nwt_action t = action ∧ nwt_from t = from ∧
   from = currentWorkflowState host (ntc_workflow context) (ntc_document context) ∧
   role_granted context t ∧ condition_holds host context action t) ∧
  (t ∈ allowedWorkflowTransitions host context ↔
   ∃ from, evaluateNamedWorkflowTransition host context (nwt_action t) = Allowed from t).
Proof.
  intros Hw. split; [by apply (allowed_iff host doctype)|]. unfold allowedWorkflowTransitions.
  rewrite list_elem_of_filter, list_elem_of_filter. split.
  - intros (Ha & Hf & Ht). pose proof (evaluate_cases host context (nwt_action t)) as H.
    destruct (evaluateNamedWorkflowTransition host context (nwt_action t)) as [from' t'|?|?|? ?|? ?]; try done.
    exists from'. destruct H as (Ht' & Ha' & Hf' & -> & _). f_equal.
    eapply (wok_deterministic _ _ Hw); [done..| |]; congruence.
  - intros [from' H]. rewrite H. split; [done|].
    apply (allowed_iff host doctype) in H as (Ht & _ & Hf & -> & _); [|done]. done.
Qed.

(** ** Documents under a workflow *)

(** A document takes an allowed transition, whoever asks and with any input. *)
Inductive workflow_step (host : predicate_host) (w : NamedWorkflowDefinition)
    : DocumentSnapshot → DocumentSnapshot → Prop :=
| take_transition context action from t :
    ntc_workflow context = w →
    evaluateNamedWorkflowTransition host context action = Allowed from t →
    workflow_step host w (ntc_document context) (after_transition w t (ntc_document context)).

(** A path of the abstract state machine. *)
Inductive workflow_path (w : NamedWorkflowDefinition) : jstr → jstr → Prop :=
| path_stay s : workflow_path w s s
| path_take t s' : t ∈ nwd_transitions w → workflow_path w (nwt_to t) s' → workflow_path w (nwt_from t) s'.

Lemma current_after host w t d : currentWorkflowState host w (after_transition w t d) = nwt_to t.
Proof. unfold currentWorkflowState, after_transition, vget. cbn [ds_data]. by rewrite jm_get_set_eq. Qed.

Lemma workflow_step_moves host w d d' :
  workflow_step host w d d' →
  ∃ t, t ∈ nwd_transitions w ∧ nwt_from t = currentWorkflowState host w d ∧
    nwt_to t = currentWorkflowState host w d'.
Proof.
  intros [context action from t <- H]. pose proof (evaluate_cases host context action) as Hc. rewrite H in Hc.
  destruct Hc as (Ht & _ & Hf & -> & _). exists t. by rewrite current_after.
Qed.

Lemma workflow_runs_path host w d d' :
  rtc (workflow_step host w) d d' →
  workflow_path w (currentWorkflowState host w d) (currentWorkflowState host w d').
Proof.
  induction 1 as [d|d1 d2 d3 (t & Ht & Hf & Hto)%workflow_step_moves _ IH]; [constructor|].
  rewrite <-Hf. apply path_take; [done|]. by rewrite Hto.
Qed.

Lemma workflow_path_states doctype w s s' :
  workflow_ok doctype w → workflow_path w s s' → s ∈ nwd_states w → s' ∈ nwd_states w.
Proof.
  intros Hw. induction 1 as [s|t s' Ht _ IH]; [done|]. intros _. apply IH.
  by apply (wok_transitions _ _ Hw).
Qed.

(** However many transitions a document takes, it follows a path of the
    workflow's state machine, and if it was in a state of the workflow (as a
    document without one is) it still is. *)
Theorem workflow_refines_machine host doctype w d d' :
  workflow_ok doctype w →
  rtc (workflow_step host w) d d' →
  workflow_path w (currentWorkflowState host w d) (currentWorkflowState host w d') ∧
  (currentWorkflowState host w d ∈ nwd_states w ∨ vget (nwd_stateField w) (ds_data d) = VUndef →
   currentWorkflowState host w d' ∈ nwd_states w).
Proof.
  intros Hw Hsteps. pose proof (workflow_runs_path _ _ _ _ Hsteps) as Hp. split; [done|].
  intros Hd. eapply workflow_path_states; [done|exact Hp|]. destruct Hd as [?|E]; [done|].
  unfold currentWorkflowState. rewrite E. apply (wok_initial _ _ Hw).
Qed.

(** ** The definition in force *)

(** What an event of the stream says of one workflow. *)
Definition workflow_change (doctypeName workflowName : jstr) (event : DomainEvent)
    : option (option NamedWorkflowDefinition) :=
  match e_payload event with
  | PNamedWorkflowSaved d n w =>
      if bool_decide (d = doctypeName) && bool_decide (n = workflowName) then Some (Some w) else None
  | PNamedWorkflowCleared d n =>
      if bool_decide (d = doctypeName) && bool_decide (n = workflowName) then Some None else None
  | _ => None
  end.

Definition max_sequence (v : Z) (events : list DomainEvent) : Z := foldl (λ v e, Z.max v (e_sequence e)) v events.

Lemma fold_workflow_steps d n events w c v :
  foldl (fold_workflow_step d n) (w, c, v) events =
  (match last (omap (workflow_change d n) events) with Some r => r | None => w end,
   match last (omap (workflow_change d n) events) with Some r => bool_decide (r = None) | None => c end,
   max_sequence v events).
Proof.
  revert w c v. induction events as [|e events IH] using rev_ind; intros w c v; [done|].
  rewrite foldl_snoc, IH, omap_app, last_app. unfold max_sequence. rewrite foldl_snoc.
  unfold fold_workflow_step, workflow_change. cbn [omap list_omap].
  destruct (e_payload e); cbn [last]; try done; destruct (bool_decide _ && bool_decide _); done.
Qed.

(** What is in force after the events, from a state before them. *)
Lemma foldNamedWorkflowDefinitionFrom_state initial t d n events :
  foldNamedWorkflowDefinitionFrom initial t d n events =
  {| nws_tenantId := t; nws_doctypeName := d; nws_workflowName := n;
     nws_version := max_sequence (default 0%Z (nws_version <$> initial)) (sort_events events);
     nws_cleared := match last (omap (workflow_change d n) (sort_events events)) with
                    | Some r => bool_decide (r = None)
                    | None => default false (nws_cleared <$> initial)
                    end;
     nws_workflow := match last (omap (workflow_change d n) (sort_events events)) with
                     | Some r => r
                     | None => initial ≫= nws_workflow
                     end |}.
Proof. unfold foldNamedWorkflowDefinitionFrom. by rewrite fold_workflow_steps. Qed.

(** The last event about a workflow decides which definition is in force and
    whether it was cleared, the version is the highest sequence read, and the
    fold resumes from the state of a prefix. *)
Theorem workflow_in_force t d n events tail :
  (foldNamedWorkflowDefinition t d n events =
   {| nws_tenantId := t; nws_doctypeName := d; nws_workflowName := n;
      nws_version := max_sequence 0 (sort_events events);
      nws_cleared := match last (omap (workflow_change d n) (sort_events events)) with Some None => true | _ => false end;
      nws_workflow := mjoin (last (omap (workflow_change d n) (sort_events events))) |}) ∧
  (follows events tail →
   foldNamedWorkflowDefinitionFrom (Some (foldNamedWorkflowDefinition t d n events)) t d n tail =
   foldNamedWorkflowDefinition t d n (events ++ tail)).
Proof.
  unfold foldNamedWorkflowDefinition. rewrite !foldNamedWorkflowDefinitionFrom_state. split.
  - f_equal; destruct (last (omap _ _)) as [[w|]|]; done.
  - intros Hf. rewrite sort_events_app by done. rewrite omap_app, last_app. unfold max_sequence.
    rewrite foldl_app. cbn [fmap option_fmap option_map default nws_version nws_cleared nws_workflow mbind option_bind].
    f_equal; destruct (last (omap (workflow_change d n) (sort_events tail))); done.
Qed.

(** ** Effect on a doctype *)

Lemma workflow_by_name_elem doctype workflows n w :
  dt_workflows doctype = Some workflows → NoDup (nwd_name <$> workflows) →
  namedWorkflowByName doctype n = Some w ↔ w ∈ workflows ∧ nwd_name w = n.
Proof.
  intros E Hnd. unfold namedWorkflowByName. rewrite E. cbn [mbind option_bind]. split.
  - destruct (list_find _ workflows) as [[i w']|] eqn:Ef; [|done]. intros [= <-].
    apply list_find_Some in Ef as (Hi & Hn & _). by apply list_elem_of_lookup_2 in Hi.
  - intros [Hw Hn]. destruct (list_find (λ workflow, nwd_name workflow = n) workflows) as [[i w']|] eqn:Ef.
    + apply list_find_Some in Ef as (Hi & Hn' & _). apply list_elem_of_lookup_2 in Hi. simpl. f_equal.
      eapply (nodup_fmap_inj nwd_name); [done..|]. congruence.
    + apply list_find_None in Ef. rewrite Forall_forall in Ef. by destruct (Ef w Hw).
Qed.

Lemma workflow_by_name_none doctype n :
  dt_workflows doctype = None → namedWorkflowByName doctype n = None.
Proof. unfold namedWorkflowByName. by intros ->. Qed.

(** Settled workflows stay as they are, whatever list of them is normalized. *)
Lemma settled_workflows doctype limits workflows workflows' :
  Forall (λ w, normalizeNamedWorkflowDefinition doctype w limits = Ok w) workflows →
  normalizeNamedWorkflows doctype (Some workflows) limits = Ok (Some workflows') →
  workflows' = workflows ∧ NoDup (nwd_name <$> workflows) ∧ NoDup (nwd_stateField <$> workflows).
Proof.
  intros Hs (_ & Hm & H1 & H2)%normalizeNamedWorkflows_ok.
  assert (workflows' = workflows) as ->; [|done].
  apply map_res_ok in Hm. clear H1 H2. induction Hm as [|w w' ws ws' Hw _ IH]; [done|].
  apply Forall_cons in Hs as [Hw' Hs]. rewrite Hw in Hw'. injection Hw' as ->. f_equal. by apply IH.
Qed.

Lemma elem_of_option_list_iff {A} (o : option A) x : x ∈ option_list o ↔ o = Some x.
Proof. destruct o as [y|]; simpl; [rewrite list_elem_of_singleton; naive_solver|]. by split; [intros []%elem_of_nil|]. Qed.

(** What a doctype holds once normalized workflows are put in it. *)
Definition nonempty_workflows (l : list NamedWorkflowDefinition) : option (list NamedWorkflowDefinition) :=
  match l with [] => None | _ => Some l end.

Lemma with_workflows_by_name doctype l n w :
  NoDup (nwd_name <$> l) →
  namedWorkflowByName (with_workflows doctype (nonempty_workflows l)) n = Some w ↔ w ∈ l ∧ nwd_name w = n.
Proof.
  intros Hnd. destruct l as [|w0 l]; [|by apply workflow_by_name_elem].
  rewrite workflow_by_name_none by done. split; [done|]. by intros [?%elem_of_nil _].
Qed.

Lemma settled_each doctype limits workflows :
  normalizeNamedWorkflows doctype (Some workflows) limits = Ok (Some workflows) →
  Forall (λ w, normalizeNamedWorkflowDefinition doctype w limits = Ok w) workflows ∧ NoDup (nwd_name <$> workflows).
Proof.
  intros (_ & Hm & Hnd & _)%normalizeNamedWorkflows_ok. split; [|done].
  apply map_res_ok in Hm. apply Forall_forall. intros w [i Hi]%list_elem_of_lookup.
  destruct (Forall2_lookup_l _ _ _ _ _ Hm Hi) as (w' & Hi' & ?). congruence.
Qed.

(** The workflows a state leaves in a doctype: those of other names, and its own. *)
Definition merged_workflows (state : NamedWorkflowDefinitionState) (workflows : list NamedWorkflowDefinition)
    : list NamedWorkflowDefinition :=
  filter (λ w, nwd_name w ≠ nws_workflowName state) workflows ++ option_list (nws_workflow state).

Lemma apply_workflow_ok doctype limits workflows state doctype' :
  dt_workflows doctype = Some workflows → nws_version state ≠ 0%Z →
  Forall (λ w, normalizeNamedWorkflowDefinition doctype w limits = Ok w) workflows →
  (∀ w, nws_workflow state = Some w → normalizeNamedWorkflowDefinition doctype w limits = Ok w) →
  applyNamedWorkflowDefinitionToDocType doctype state limits = Ok doctype' →
  doctype' = with_workflows doctype (nonempty_workflows (merged_workflows state workflows)) ∧
  NoDup (nwd_name <$> merged_workflows state workflows).
Proof.
  intros E Hv Hset Hw H. unfold applyNamedWorkflowDefinitionToDocType in H.
  rewrite (proj2 (Z.eqb_neq _ _) Hv), E in H. cbn [default] in H. step_ok H as normalized Hn. injection H as <-.
  replace (match nws_workflow state with None => _ | Some w => _ end) with (merged_workflows state workflows) in Hn
    by (unfold merged_workflows; destruct (nws_workflow state); [done|by rewrite app_nil_r]).
  destruct (normalizeNamedWorkflows_some _ _ _ _ Hn) as [all' ->].
  apply settled_workflows in Hn as (-> & Hnd & _); [by destruct (merged_workflows state workflows)|].
  unfold merged_workflows. apply Forall_app. split.
  - apply Forall_forall. intros w [_ ?]%list_elem_of_filter. rewrite Forall_forall in Hset. by apply Hset.
  - destruct (nws_workflow state) as [w|]; [|constructor]. apply Forall_singleton. by apply Hw.
Qed.

(** Applying the stored state of a workflow to a doctype puts that definition in
    force under its name (or none, when it was cleared), and leaves the workflows
    of every other name as they were. *)
Theorem apply_workflow_effect doctype limits workflows state doctype' n :
  dt_workflows doctype = Some workflows → nws_version state ≠ 0%Z →
  normalizeNamedWorkflows doctype (Some workflows) limits = Ok (Some workflows) →
  (∀ w, nws_workflow state = Some w → nwd_name w = nws_workflowName state ∧
     normalizeNamedWorkflowDefinition doctype w limits = Ok w) →
  applyNamedWorkflowDefinitionToDocType doctype state limits = Ok doctype' →
  namedWorkflowByName doctype' n =
    (if decide (n = nws_workflowName state) then nws_workflow state else namedWorkflowByName doctype n).
Proof.
  intros E Hv [Hset Hnd]%settled_each Hw H.
  apply (apply_workflow_ok doctype limits workflows) in H as [-> Hnda]; [|done|done|done|by intros w []%Hw].
  apply option_eq. intros w. rewrite with_workflows_by_name by done. unfold merged_workflows.
  rewrite elem_of_app, list_elem_of_filter, elem_of_option_list_iff. case_decide as Hd.
  - subst n. split.
    + intros [[[? _]|Hs] ?]; [done|]. done.
    + intros Hs. destruct (Hw w Hs) as [? _]. auto.
  - rewrite (workflow_by_name_elem doctype workflows) by done. split.
    + intros [[[_ ?]|Hs] ?]; [done|]. destruct (Hw w Hs) as [? _]. congruence.
    + intros [? ?]. split; [left; split; [congruence|done]|done].
Qed.

(** ** Witnesses *)

Definition sample_state_field : FieldDefinition :=
  plain_field (js "state") FSelect false false false (Some [js "Open"; js "Review"; js "Done"]).

Definition sample_workflow_doctype : DocTypeDefinition :=
  plain_doctype (js "Task") [sample_state_field].

Definition sample_transition (action from to : jstr) (roles : option (list jstr))
    (allowWhen : option PredicateExpression) : NamedWorkflowTransition :=
  {| nwt_action := action; nwt_from := from; nwt_to := to; nwt_roles := roles; nwt_allowWhen := allowWhen;
     nwt_eventType := None |}.

(** As an author writes it, with spaces around. *)
Definition sample_raw_workflow : NamedWorkflowDefinition :=
  {| nwd_name := js " approval "; nwd_label := None; nwd_stateField := js "state "; nwd_initialState := js "Open";
     nwd_states := [js "Open"; js " Review"; js "Done"];
     nwd_transitions :=
       [ sample_transition (js "submit") (js "Open") (js "Review") None None;
         sample_transition (js "approve") (js "Review") (js "Done") (Some [js "Manager"])
           (Some (PCompare (OField ScBefore (js "state")) OpEq (OLiteral (VStr (js "Review"))))) ] |}.

Definition no_workflow_limits : WorkflowNormalizationLimits :=
  {| wnl_maxWorkflows := None; wnl_maxTransitionsPerWorkflow := None |}.

Definition sample_workflows : list NamedWorkflowDefinition :=
  Eval vm_compute in
  match normalizeNamedWorkflows sample_workflow_doctype (Some [sample_raw_workflow]) no_workflow_limits with
  | Ok (Some l) => l
  | _ => []
  end.

Definition sample_workflow : NamedWorkflowDefinition :=
  Eval vm_compute in match sample_workflows with w :: _ => w | [] => sample_raw_workflow end.

Lemma normalizeNamedWorkflows_idempotent_witness :
  normalizeNamedWorkflows sample_workflow_doctype (Some sample_workflows) no_workflow_limits
    = Ok (Some sample_workflows).
Proof.
  apply (normalizeNamedWorkflows_idempotent sample_workflow_doctype no_workflow_limits
    (Some [sample_raw_workflow]) (Some sample_workflows)).
  by vm_compute.
Defined.

Lemma normalized_workflows_sound_witness : Forall (workflow_ok sample_workflow_doctype) sample_workflows.
Proof.
  apply (normalized_workflows_sound sample_workflow_doctype no_workflow_limits [sample_raw_workflow]).
  by vm_compute.
Defined.

Lemma sample_workflow_ok : workflow_ok sample_workflow_doctype sample_workflow.
Proof.
  apply (normalizeNamedWorkflowDefinition_wf sample_workflow_doctype no_workflow_limits sample_raw_workflow).
  by vm_compute.
Qed.

Definition sample_workflow_host : predicate_host := {| ph_text := λ _, []; ph_canonicalize := λ c, c |}.

Definition sample_document (state : value) : DocumentSnapshot :=
  {| ds_tenantId := js "default"; ds_doctype := js "Task"; ds_name := js "T-1"; ds_version := 1;
     ds_docstatus := Draft; ds_data := [(js "state", state)]; ds_createdAt := []; ds_updatedAt := [] |}.

Definition sample_transition_context (roles : list jstr) (state : value) : NamedWorkflowTransitionContext :=
  {| ntc_roles := roles; ntc_actorObject := VObj []; ntc_document := sample_document state;
     ntc_workflow := sample_workflow; ntc_input := None |}.

Definition sample_approve : NamedWorkflowTransition :=
  sample_transition (js "approve") (js "Review") (js "Done") (Some [js "Manager"])
    (Some (PCompare (OField ScBefore (js "state")) OpEq (OLiteral (VStr (js "Review"))))).

Lemma transition_decision_witness :
  evaluateNamedWorkflowTransition sample_workflow_host
    (sample_transition_context [js "Manager"] (VStr (js "Review"))) (js "approve") = Allowed (js "Review") sample_approve ∧
  evaluateNamedWorkflowTransition sample_workflow_host
    (sample_transition_context [] (VStr (js "Review"))) (js "approve") = RoleDenied (js "Review") sample_approve ∧
  sample_approve ∈ allowedWorkflowTransitions sample_workflow_host
    (sample_transition_context [js "Manager"] (VStr (js "Review"))).
Proof.
  split; [by vm_compute|]. split; [by vm_compute|].
  apply (transition_decision sample_workflow_host sample_workflow_doctype
    (sample_transition_context [js "Manager"] (VStr (js "Review"))) (js "approve") (js "Review") sample_approve);
    [exact sample_workflow_ok|].
  exists (js "Review"). by vm_compute.
Defined.

Lemma workflow_refines_machine_witness :
  currentWorkflowState sample_workflow_host sample_workflow
    (after_transition sample_workflow sample_approve (sample_document (VStr (js "Review")))) ∈ nwd_states sample_workflow.
Proof.
  refine (proj2 (workflow_refines_machine sample_workflow_host sample_workflow_doctype sample_workflow
    (sample_document (VStr (js "Review"))) _ sample_workflow_ok _) _).
  - apply rtc_once.
    exact (take_transition sample_workflow_host sample_workflow
      (sample_transition_context [js "Manager"] (VStr (js "Review"))) (js "approve") (js "Review") sample_approve
      eq_refl eq_refl).
  - left. by apply (bool_decide_unpack _).
Defined.

Definition sample_workflow_saved (n : Z) : DomainEvent :=
  sample_event n (PNamedWorkflowSaved (js "Task") (js "approval") sample_workflow).
Definition sample_workflow_cleared (n : Z) : DomainEvent :=
  sample_event n (PNamedWorkflowCleared (js "Task") (js "approval")).

Lemma workflow_in_force_witness :
  foldNamedWorkflowDefinitionFrom
    (Some (foldNamedWorkflowDefinition (js "default") (js "Task") (js "approval")
       [sample_workflow_cleared 2; sample_workflow_saved 1]))
    (js "default") (js "Task") (js "approval") [sample_workflow_saved 3] =
  {| nws_tenantId := js "default"; nws_doctypeName := js "Task"; nws_workflowName := js "approval";
     nws_version := 3; nws_cleared := false; nws_workflow := Some sample_workflow |}.
Proof.
  rewrite (proj2 (workflow_in_force (js "default") (js "Task") (js "approval")
    [sample_workflow_cleared 2; sample_workflow_saved 1] [sample_workflow_saved 3])).
  - by vm_compute.
  - apply follows_check. by vm_compute.
Defined.

Definition sample_workflow_state : NamedWorkflowDefinitionState :=
  {| nws_tenantId := js "default"; nws_doctypeName := js "Task"; nws_workflowName := js "approval";
     nws_version := 2; nws_cleared := true; nws_workflow := None |}.

Lemma apply_workflow_effect_witness :
  namedWorkflowByName (with_workflows sample_workflow_doctype None) (js "approval") = None.
Proof.
  rewrite (apply_workflow_effect (with_workflows sample_workflow_doctype (Some sample_workflows)) no_workflow_limits
    sample_workflows sample_workflow_state (with_workflows sample_workflow_doctype None) (js "approval")); try by vm_compute.
Defined.
