(* ===== verification/WorkflowService.v ===== *)
(** * WorkflowService: saving and clearing named workflows

    Models [application/workflow-service.ts] with [application/workflow-policy.ts]
    and [application/workflow-events.ts], on the in-memory event store.  A workflow
    is a stream of its own; a second family of streams records which workflow owns
    a state field, and a save writes to both in one batch.

    Other clients of the store may act at every [await] ([Interference]).
    [JSON.stringify] of a definition, the identifiers, the clock, the roles the
    resolver returns and the doctype resolver are arguments too. *)

From S2P Require Export Workflow Permissions EventStore Streams Interference Types.

(** ** Events *)

Definition NAMED_WORKFLOW_FIELD_OWNERSHIP_PAYLOAD_KINDS : list jstr :=
  [js "NamedWorkflowFieldClaimed"; js "NamedWorkflowFieldReleased"].

Record NamedWorkflowFieldOwnershipState := {
  nwo_tenantId : jstr;
  nwo_doctypeName : jstr;
  nwo_stateField : jstr;
  nwo_version : Z;
  nwo_workflowName : option jstr
}.

(** [namedWorkflowDefinitionEvent(options)]. *)
Definition namedWorkflowDefinitionEvent (id tenantId stream : jstr) (actor : Actor) (occurredAt : jstr)
    (doctypeName workflowName : jstr) (p : payload) (metadata : option data) : NewDomainEvent :=
  {| e_id := id; e_tenantId := tenantId; e_stream := stream; e_type := payload_kind p;
     e_doctype := js "__NamedWorkflows"; e_documentName := doctypeName ++ js ":" ++ workflowName;
     e_actorId := actor_id actor; e_occurredAt := occurredAt; e_payload := p; e_metadata := default [] metadata |}.

(** [namedWorkflowFieldOwnershipEvent(options)]. *)
Definition namedWorkflowFieldOwnershipEvent (id tenantId stream : jstr) (actor : Actor) (occurredAt : jstr)
    (doctypeName stateField : jstr) (p : payload) (metadata : option data) : NewDomainEvent :=
  {| e_id := id; e_tenantId := tenantId; e_stream := stream; e_type := payload_kind p;
     e_doctype := js "__NamedWorkflowFields"; e_documentName := doctypeName ++ js ":" ++ stateField;
     e_actorId := actor_id actor; e_occurredAt := occurredAt; e_payload := p; e_metadata := default [] metadata |}.

(** The body of the loop of [foldNamedWorkflowFieldOwnershipFrom]. *)
Definition fold_ownership_step (doctypeName stateField : jstr) (acc : option jstr * Z) (event : DomainEvent)
    : option jstr * Z :=
  let '(workflowName, version) := acc in
  match e_payload event with
  | PWorkflowFieldClaimed d f n =>
      if bool_decide (d = doctypeName) && bool_decide (f = stateField)
      then (Some n, Z.max version (e_sequence event)) else (workflowName, version)
  | PWorkflowFieldReleased d f n =>
      if bool_decide (d = doctypeName) && bool_decide (f = stateField)
      then (if bool_decide (workflowName = Some n) then None else workflowName, Z.max version (e_sequence event))
      else (workflowName, version)
  | _ => (workflowName, version)
  end.

(** [foldNamedWorkflowFieldOwnershipFrom(initial, tenantId, doctypeName, stateField, events)]. *)
Definition foldNamedWorkflowFieldOwnershipFrom (initial : option NamedWorkflowFieldOwnershipState)
    (tenantId doctypeName stateField : jstr) (events : list DomainEvent) : NamedWorkflowFieldOwnershipState :=
  let '(workflowName, version) :=
    foldl (fold_ownership_step doctypeName stateField)
      (initial ≫= nwo_workflowName, default 0%Z (nwo_version <$> initial)) events in
  {| nwo_tenantId := tenantId; nwo_doctypeName := doctypeName; nwo_stateField := stateField;
     nwo_version := version; nwo_workflowName := workflowName |}.

(** [foldNamedWorkflowFieldOwnership(tenantId, doctypeName, stateField, events)]. *)
Definition foldNamedWorkflowFieldOwnership (tenantId doctypeName stateField : jstr) (events : list DomainEvent)
    : NamedWorkflowFieldOwnershipState :=
  foldNamedWorkflowFieldOwnershipFrom None tenantId doctypeName stateField events.

(** [replayNamedWorkflowAppend(state, previousEvents, savedEvents)]. *)
Definition replayNamedWorkflowAppend (state : NamedWorkflowDefinitionState)
    (previousEvents savedEvents : list DomainEvent) : NamedWorkflowDefinitionState :=
  foldNamedWorkflowDefinition (nws_tenantId state) (nws_doctypeName state) (nws_workflowName state)
    (previousEvents ++ savedEvents).

(** [namedWorkflowEventsVisibleAt(events, occurredAt)]. *)
Definition namedWorkflowEventsVisibleAt (events : list DomainEvent) (occurredAt : option jstr) : list DomainEvent :=
  match occurredAt with
  | None => events
  | Some at_ => filter (λ event : DomainEvent, jstr_leb (e_occurredAt event) at_ = true) events
  end.

(** ** Policy *)

(** [resolveWorkflowTenant(command)]. *)
Definition resolveWorkflowTenant (actor : Actor) (tenantId : option jstr) : res jstr :=
  let actorTenantId := default DEFAULT_TENANT_ID (actor_tenantId actor) in
  let tenantId := default actorTenantId tenantId in
  _ ← ensure (bool_decide (tenantId = actorTenantId)) permissionDenied;
  Ok tenantId.

(** [authorizeWorkflowAdministration(command)]. *)
Definition authorizeWorkflowAdministration (actor : Actor) (adminRoles : list jstr) (tenantId : option jstr)
    : res jstr :=
  _ ← ensure (existsb (λ role, bool_decide (role ∈ actor_roles actor)) adminRoles) permissionDenied;
  resolveWorkflowTenant actor tenantId.

(** [ensureWorkflowExpectedVersion(state, expectedVersion)]. *)
Definition ensureWorkflowExpectedVersion (state : NamedWorkflowDefinitionState) (expectedVersion : option Z)
    : res unit :=
  match expectedVersion with
  | Some v => ensure (nws_version state =? v)%Z conflict
  | None => Ok tt
  end.

(** [planWorkflowDefinitionClear(state)]: whether there is nothing to do. *)
Definition planWorkflowDefinitionClear (state : NamedWorkflowDefinitionState) : bool := nws_cleared state.

(** [ensureWorkflowRolesKnown(workflow, roles)]; a role is enabled or disabled. *)
Definition ensureWorkflowRolesKnown (workflow : NamedWorkflowDefinition) (roles : list (jstr * bool)) : res unit :=
  foldl_res (λ _ role,
    match jm_get role roles with
    | Some true => Ok tt
    | _ => Throw workflowInvalid
    end) tt (js_unique (flat_map (λ transition, default [] (nwt_roles transition)) (nwd_transitions workflow))).

(** ** The service *)

(** [WorkflowServiceOptions]; the resolvers are the application's. *)
Record WorkflowServiceOptions := {
  wso_registry : Registry;
  wso_adminRoles : option (list jstr);
  wso_preWorkflowDocTypeResolver : option (DocTypeDefinition → jstr → res DocTypeDefinition);
  wso_roleResolver : option (Actor → jstr → res (list (jstr * bool)));
  wso_limits : WorkflowNormalizationLimits;
  wso_stringify : NamedWorkflowDefinition → jstr
}.

(** The state of a call: the event store, the awaits so far, the identifiers taken. *)
Abbreviation ServiceState := (Client streams_map).

Record SaveWorkflowDefinitionCommand := {
  swc_actor : Actor;
  swc_doctype : jstr;
  swc_workflow : NamedWorkflowDefinition;
  swc_tenantId : option jstr;
  swc_expectedVersion : option Z;
  swc_metadata : option data
}.

Record ClearWorkflowDefinitionCommand := {
  cwc_actor : Actor;
  cwc_doctype : jstr;
  cwc_workflowName : jstr;
  cwc_tenantId : option jstr;
  cwc_expectedVersion : option Z;
  cwc_metadata : option data
}.

Inductive OwnershipAction := OwnClaim | OwnRelease.

(** [WorkflowFieldOwnershipWrite]. *)
Record WorkflowFieldOwnershipWrite := {
  wfw_action : OwnershipAction;
  wfw_state : NamedWorkflowFieldOwnershipState
}.

Section service.
Context `{Collation} (options : WorkflowServiceOptions).
(** [ids.next("evt_")] by the identifiers taken, [clock.now()] by the awaits made. *)
Context (ids clock : nat → jstr).
(** What other clients do at each await. *)
Context (env : nat → streams_map → streams_map).

(** [await this.events.readStream(stream, options)]. *)
Definition read_events (stream : jstr) (read : ReadStreamOptions) : M ServiceState (list DomainEvent) :=
  observe env (λ streams, readStream streams stream read).

(** [await this.events.listStreams(query)]. *)
Definition list_streams (tenantId doctype : jstr) : M ServiceState (list jstr) :=
  observe env (λ streams, Ok (listStreams streams tenantId doctype)).

(** [await this.events.appendBatch(entries)]. *)
Definition append_batch (entries : list AppendEntry) : M ServiceState (list DomainEvent) :=
  update env (appendBatch entries).

Definition workflow_read_options : ReadStreamOptions :=
  {| rso_minSequence := None; rso_maxSequence := None; rso_limit := None;
     rso_payloadKinds := Some NAMED_WORKFLOW_STATE_PAYLOAD_KINDS |}.

Definition ownership_read_options : ReadStreamOptions :=
  {| rso_minSequence := None; rso_maxSequence := None; rso_limit := None;
     rso_payloadKinds := Some NAMED_WORKFLOW_FIELD_OWNERSHIP_PAYLOAD_KINDS |}.

Definition until_sequence (maxSequence : Z) : ReadStreamOptions :=
  {| rso_minSequence := None; rso_maxSequence := Some maxSequence; rso_limit := None; rso_payloadKinds := None |}.

(** [withStaticFallback(doctype, state)]. *)
Definition withStaticFallback (doctype : DocTypeDefinition) (state : NamedWorkflowDefinitionState)
    : NamedWorkflowDefinitionState :=
  if negb (nws_version state =? 0)%Z || match nws_workflow state with Some _ => true | None => false end ||
     nws_cleared state
  then state
  else match namedWorkflowByName doctype (nws_workflowName state) with
  | None => state
  | Some workflow =>
      {| nws_tenantId := nws_tenantId state; nws_doctypeName := nws_doctypeName state;
         nws_workflowName := nws_workflowName state; nws_version := nws_version state;
         nws_cleared := nws_cleared state; nws_workflow := Some workflow |}
  end.

(** [stateFor(tenantId, doctype, workflowName)]. *)
Definition stateFor (tenantId : jstr) (doctype : DocTypeDefinition) (workflowName : jstr)
    : M ServiceState NamedWorkflowDefinitionState :=
  stream ← m_lift (namedWorkflowStream tenantId (dt_name doctype) workflowName);
  events ← read_events stream workflow_read_options;
  mret (withStaticFallback doctype
    (foldNamedWorkflowDefinition tenantId (dt_name doctype) workflowName events)).

(** The workflow a stream is about: that of its first event about the doctype. *)
Definition stream_workflow (doctypeName : jstr) (events : list DomainEvent) : option jstr :=
  head (omap (λ event : DomainEvent,
    match e_payload event with
    | PNamedWorkflowSaved d n _ | PNamedWorkflowCleared d n => if bool_decide (d = doctypeName) then Some n else None
    | _ => None
    end) events).

(** The loop of [statesFor] over the streams of the catalog. *)
Fixpoint catalog_states (tenantId : jstr) (doctype : DocTypeDefinition) (streams : list jstr)
    : M ServiceState (list NamedWorkflowDefinitionState) :=
  match streams with
  | [] => mret []
  | stream :: streams =>
      events ← read_events stream workflow_read_options;
      rest ← catalog_states tenantId doctype streams;
      mret (match stream_workflow (dt_name doctype) events with
            | None => rest
            | Some workflowName =>
                withStaticFallback doctype
                  (foldNamedWorkflowDefinition tenantId (dt_name doctype) workflowName events) :: rest
            end)
  end.

Definition state_leb (left right : NamedWorkflowDefinitionState) : bool :=
  collation_leb (nws_workflowName left) (nws_workflowName right).

(** [statesFor(tenantId, doctype)]. *)
Definition statesFor (tenantId : jstr) (doctype : DocTypeDefinition)
    : M ServiceState (list NamedWorkflowDefinitionState) :=
  streams ← list_streams tenantId (js "__NamedWorkflows");
  runtimeStates ← catalog_states tenantId doctype streams;
  let runtimeNames := js_unique (nws_workflowName <$> runtimeStates) in
  let names := js_unique ((nwd_name <$> default [] (dt_workflows doctype)) ++ (nws_workflowName <$> runtimeStates)) in
  let static := filter (λ name, name ∉ runtimeNames) names in
  mret (isort state_leb (runtimeStates ++
    ((λ name, withStaticFallback doctype (foldNamedWorkflowDefinition tenantId (dt_name doctype) name [])) <$> static))).

(** [preWorkflowDocTypeFor(doctypeName, tenantId)]. *)
Definition preWorkflowDocTypeFor (doctypeName tenantId : jstr) : res DocTypeDefinition :=
  base ← registry_get (wso_registry options) doctypeName;
  match wso_preWorkflowDocTypeResolver options with
  | Some resolver => resolver base tenantId
  | None => Ok base
  end.

(** [effectiveDocType(doctypeName, tenantId, base)]. *)
Definition effectiveDocType (doctypeName tenantId : jstr) (base : option DocTypeDefinition)
    : M ServiceState DocTypeDefinition :=
  doctype ← m_lift (match base with Some doctype => Ok doctype | None => preWorkflowDocTypeFor doctypeName tenantId end);
  states ← statesFor tenantId doctype;
  m_lift (foldl_res (λ effective state, applyNamedWorkflowDefinitionToDocType effective state (wso_limits options))
    doctype states).

(** [this.adminRoles]. *)
Definition service_adminRoles : list jstr := default [SYSTEM_MANAGER_ROLE] (wso_adminRoles options).

(** [authorizeAdministration(actor, tenantId)]. *)
Definition authorizeAdministration (actor : Actor) (tenantId : option jstr) : res jstr :=
  authorizeWorkflowAdministration actor service_adminRoles tenantId.

(** [knownRoles(actor, tenantId)]. *)
Definition knownRoles (actor : Actor) (tenantId : jstr) : res (list (jstr * bool)) :=
  resolved ← match wso_roleResolver options with Some resolver => resolver actor tenantId | None => Ok [] end;
  Ok (jm_spread (jm_of_list ((λ role, (role, true)) <$> service_adminRoles ++ registryRoleNames (wso_registry options)))
    resolved).

(** [workflowDefinitionsEqual(left, right)], which is also [planWorkflowDefinitionSave]. *)
Definition workflowDefinitionsEqual (lhs : option NamedWorkflowDefinition) (rhs : NamedWorkflowDefinition) : bool :=
  match lhs with
  | None => false
  | Some lhs => bool_decide (wso_stringify options lhs = wso_stringify options rhs)
  end.

(** [fieldOwnershipFor(tenantId, doctypeName, stateField)]. *)
Definition fieldOwnershipFor (tenantId doctypeName stateField : jstr)
    : M ServiceState NamedWorkflowFieldOwnershipState :=
  stream ← m_lift (namedWorkflowStateFieldStream tenantId doctypeName stateField);
  events ← read_events stream ownership_read_options;
  mret (foldNamedWorkflowFieldOwnership tenantId doctypeName stateField events).

(** [workflowName === undefined] and [workflowName === name] of an owner. *)
Definition unowned (owner : option jstr) : bool := match owner with None => true | Some _ => false end.
Definition owned_by (name : jstr) (owner : option jstr) : bool :=
  match owner with Some n => bool_decide (n = name) | None => false end.

(** The owner of a field must be the workflow itself, or nobody. *)
Definition ensure_not_foreign (owner : NamedWorkflowFieldOwnershipState) (workflowName : jstr) : res unit :=
  ensure (match nwo_workflowName owner with Some n => bool_decide (n = workflowName) | None => true end) workflowInvalid.

(** [planFieldOwnershipChange(input)]. *)
Definition planFieldOwnershipChange (tenantId doctypeName workflowName : jstr) (beforeField afterField : option jstr)
    : M ServiceState (list WorkflowFieldOwnershipWrite) :=
  released ← match beforeField with
    | Some before =>
        if bool_decide (beforeField = afterField) then mret []
        else
          previous ← fieldOwnershipFor tenantId doctypeName before;
          _ ← m_lift (ensure_not_foreign previous workflowName);
          mret (if owned_by workflowName (nwo_workflowName previous)
                then [{| wfw_action := OwnRelease; wfw_state := previous |}] else [])
    | None => mret []
    end;
  claimed ← match afterField with
    | Some after =>
        next ← fieldOwnershipFor tenantId doctypeName after;
        _ ← m_lift (ensure_not_foreign next workflowName);
        mret (if unowned (nwo_workflowName next)
              then [{| wfw_action := OwnClaim; wfw_state := next |}] else [])
    | None => mret []
    end;
  mret (released ++ claimed).

(** The batch entry of an ownership write. *)
Definition ownership_entry (actor : Actor) (metadata : option data) (eventId occurredAt workflowName : jstr)
    (write : WorkflowFieldOwnershipWrite) : res AppendEntry :=
  let state := wfw_state write in
  ownershipStream ← namedWorkflowStateFieldStream (nwo_tenantId state) (nwo_doctypeName state) (nwo_stateField state);
  field ← encodeURIComponent (nwo_stateField state);
  let '(action, p) := match wfw_action write with
    | OwnClaim => (js "claim", PWorkflowFieldClaimed (nwo_doctypeName state) (nwo_stateField state) workflowName)
    | OwnRelease => (js "release", PWorkflowFieldReleased (nwo_doctypeName state) (nwo_stateField state) workflowName)
    end in
  Ok {| ae_stream := ownershipStream; ae_expectedVersion := nwo_version state;
        ae_events := [namedWorkflowFieldOwnershipEvent (eventId ++ js ":field:" ++ action ++ js ":" ++ field)
          (nwo_tenantId state) ownershipStream actor occurredAt (nwo_doctypeName state) (nwo_stateField state)
          p metadata] |}.

(** [appendAndFold(state, options)]. *)
Definition appendAndFold (state : NamedWorkflowDefinitionState) (actor : Actor) (metadata : option data)
    (p : payload) (ownershipWrites : list WorkflowFieldOwnershipWrite)
    : M ServiceState NamedWorkflowDefinitionState :=
  stream ← m_lift (namedWorkflowStream (nws_tenantId state) (nws_doctypeName state) (nws_workflowName state));
  eventId ← next_id ids;
  occurredAt ← now clock;
  let event := namedWorkflowDefinitionEvent eventId (nws_tenantId state) stream actor occurredAt
    (nws_doctypeName state) (nws_workflowName state) p metadata in
  previous ← read_events stream (until_sequence (nws_version state));
  entries ← m_lift (map_res (ownership_entry actor metadata eventId occurredAt (nws_workflowName state)) ownershipWrites);
  saved ← append_batch
    ({| ae_stream := stream; ae_expectedVersion := nws_version state; ae_events := [event] |} :: entries);
  mret (replayNamedWorkflowAppend state previous (mine saved stream)).

(** [save(command)]. *)
Definition saveWorkflow (command : SaveWorkflowDefinitionCommand) : M ServiceState NamedWorkflowDefinitionState :=
  tenantId ← m_lift (authorizeAdministration (swc_actor command) (swc_tenantId command));
  doctype ← m_lift (preWorkflowDocTypeFor (swc_doctype command) tenantId);
  let visibleDoctype := projectDocTypeForFieldAccess (swc_actor command) doctype FARead in
  workflow ← m_lift (normalizeNamedWorkflowDefinition visibleDoctype (swc_workflow command) (wso_limits options));
  roles ← m_lift (knownRoles (swc_actor command) tenantId);
  _ ← m_lift (ensureWorkflowRolesKnown workflow roles);
  state ← stateFor tenantId doctype (nwd_name workflow);
  _ ← m_lift (ensureWorkflowExpectedVersion state (swc_expectedVersion command));
  effective ← effectiveDocType (dt_name doctype) tenantId (Some doctype);
  _ ← m_lift (normalizeNamedWorkflows doctype
        (Some (filter (λ candidate, nwd_name candidate ≠ nwd_name workflow) (default [] (dt_workflows effective))
               ++ [workflow])) (wso_limits options));
  if workflowDefinitionsEqual (nws_workflow state) workflow && negb (nws_cleared state) then mret state
  else
    ownershipWrites ← planFieldOwnershipChange tenantId (dt_name doctype) (nwd_name workflow)
      (nwd_stateField <$> nws_workflow state) (Some (nwd_stateField workflow));
    appendAndFold state (swc_actor command) (swc_metadata command)
      (PNamedWorkflowSaved (dt_name doctype) (nwd_name workflow) workflow) ownershipWrites.

(** [clear(command)]. *)
Definition clearWorkflow (command : ClearWorkflowDefinitionCommand) : M ServiceState NamedWorkflowDefinitionState :=
  tenantId ← m_lift (authorizeAdministration (cwc_actor command) (cwc_tenantId command));
  doctype ← m_lift (preWorkflowDocTypeFor (cwc_doctype command) tenantId);
  state ← stateFor tenantId doctype (cwc_workflowName command);
  _ ← m_lift (ensureWorkflowExpectedVersion state (cwc_expectedVersion command));
  if planWorkflowDefinitionClear state then mret state
  else
    ownershipWrites ← planFieldOwnershipChange tenantId (dt_name doctype) (nws_workflowName state)
      (nwd_stateField <$> nws_workflow state) None;
    appendAndFold state (cwc_actor command) (cwc_metadata command)
      (PNamedWorkflowCleared (dt_name doctype) (nws_workflowName state)) ownershipWrites.

(** [list(actor, doctypeName, tenantId)] and [get(actor, doctypeName, workflowName, tenantId)]. *)
Definition listWorkflows (actor : Actor) (doctypeName : jstr) (tenantId : option jstr)
    : M ServiceState (list NamedWorkflowDefinitionState) :=
  tenantId ← m_lift (authorizeAdministration actor tenantId);
  doctype ← m_lift (preWorkflowDocTypeFor doctypeName tenantId);
  statesFor tenantId doctype.

Definition getWorkflow (actor : Actor) (doctypeName workflowName : jstr) (tenantId : option jstr)
    : M ServiceState NamedWorkflowDefinitionState :=
  tenantId ← m_lift (authorizeAdministration actor tenantId);
  doctype ← m_lift (preWorkflowDocTypeFor doctypeName tenantId);
  stateFor tenantId doctype workflowName.
End service.
