(* ===== verification/WorkflowOwnership.v ===== *)
(** * WorkflowOwnership: a state field has one workflow

    The safety of [WorkflowService]: whatever calls clients make, and however
    their reads and batches interleave, a state field is owned by a workflow
    exactly when that workflow's definition in force uses the field, so no two
    workflows of a doctype ever share one.  The batch of a save checks only the
    streams it writes; the proof is that this is enough.

    It ends with a finding on [effectiveDocType], which applies the stored states
    one at a time. *)

From S2P Require Export WorkflowService.

(** ** What the streams say *)

(** What a payload says of the definition of one workflow. *)
Definition definition_change (d n : jstr) (p : payload) : option (option NamedWorkflowDefinition) :=
  match p with
  | PNamedWorkflowSaved d' n' w => if bool_decide (d' = d) && bool_decide (n' = n) then Some (Some w) else None
  | PNamedWorkflowCleared d' n' => if bool_decide (d' = d) && bool_decide (n' = n) then Some None else None
  | _ => None
  end.

(** What a payload does to the owner of one field. *)
Definition owner_change (d f : jstr) (owner : option jstr) (p : payload) : option jstr :=
  match p with
  | PWorkflowFieldClaimed d' f' n => if bool_decide (d' = d) && bool_decide (f' = f) then Some n else owner
  | PWorkflowFieldReleased d' f' n =>
      if bool_decide (d' = d) && bool_decide (f' = f) then (if bool_decide (owner = Some n) then None else owner)
      else owner
  | _ => owner
  end.

Definition log_definition (d n : jstr) (log : list NewDomainEvent) : option NamedWorkflowDefinition :=
  mjoin (last (omap (λ e, definition_change d n (e_payload e)) log)).

Definition log_owner (d f : jstr) (log : list NewDomainEvent) : option jstr :=
  foldl (λ owner e, owner_change d f owner (e_payload e)) None log.

(** The definition in force of a workflow, and the owner of a field. *)
Definition in_force (m : streams_map) (t d n : jstr) : option NamedWorkflowDefinition :=
  match namedWorkflowStream t d n with Ok s => log_definition d n (log_of m s) | Throw _ => None end.

Definition field_owner (m : streams_map) (t d f : jstr) : option jstr :=
  match namedWorkflowStateFieldStream t d f with Ok s => log_owner d f (log_of m s) | Throw _ => None end.

Lemma log_definition_snoc d n log e :
  log_definition d n (log ++ [e]) =
  match definition_change d n (e_payload e) with Some r => r | None => log_definition d n log end.
Proof.
  unfold log_definition. rewrite omap_app, last_app. cbn [omap list_omap].
  by destruct (definition_change d n (e_payload e)).
Qed.

Lemma log_owner_snoc d f log e : log_owner d f (log ++ [e]) = owner_change d f (log_owner d f log) (e_payload e).
Proof. unfold log_owner. by rewrite foldl_snoc. Qed.

(** ** Stream names *)

Lemma jstr_wf_key (a b : jstr) : jstr_wf a → jstr_wf b → jstr_wf (a ++ js ":" ++ b).
Proof. unfold jstr_wf. intros Ha Hb. rewrite !Forall_app. split_and!; [done|repeat constructor|done]. Qed.

Lemma family_wf : jstr_wf (js "__NamedWorkflows") ∧ jstr_wf (js "__NamedWorkflowFields").
Proof. split; repeat constructor. Qed.

#[local] Hint Resolve jstr_wf_key : core.

Lemma namedWorkflowStream_inj t d n t' d' n' s :
  jstr_wf t → jstr_wf d → jstr_wf n → jstr_wf t' → jstr_wf d' → jstr_wf n' →
  namedWorkflowStream t d n = Ok s → namedWorkflowStream t' d' n' = Ok s →
  t = t' ∧ d ++ js ":" ++ n = d' ++ js ":" ++ n'.
Proof.
  intros ?????? H H'. destruct family_wf.
  pose proof (λ w1 w2 w3 w4 w5 w6, documentStream_parts _ _ _ _ _ _ s w1 w2 w3 w4 w5 w6 H H') as P.
  destruct P as (? & _ & ?); auto.
Qed.

Lemma namedWorkflowStateFieldStream_inj t d n t' d' n' s :
  jstr_wf t → jstr_wf d → jstr_wf n → jstr_wf t' → jstr_wf d' → jstr_wf n' →
  namedWorkflowStateFieldStream t d n = Ok s → namedWorkflowStateFieldStream t' d' n' = Ok s →
  t = t' ∧ d ++ js ":" ++ n = d' ++ js ":" ++ n'.
Proof.
  intros ?????? H H'. destruct family_wf.
  pose proof (λ w1 w2 w3 w4 w5 w6, documentStream_parts _ _ _ _ _ _ s w1 w2 w3 w4 w5 w6 H H') as P.
  destruct P as (? & _ & ?); auto.
Qed.

Lemma workflow_families_disjoint t d n t' d' f s :
  jstr_wf t → jstr_wf d → jstr_wf n → jstr_wf t' → jstr_wf d' → jstr_wf f →
  namedWorkflowStream t d n = Ok s → namedWorkflowStateFieldStream t' d' f = Ok s → False.
Proof.
  intros ?????? H H'. destruct family_wf.
  pose proof (λ w1 w2 w3 w4 w5 w6, documentStream_parts _ _ _ _ _ _ s w1 w2 w3 w4 w5 w6 H H') as P.
  destruct P as (_ & E & _); auto. discriminate E.
Qed.

(** ** The invariant *)

Definition wf_strings (l : list jstr) : Prop := Forall jstr_wf l.

(** The strings of a list of well-formed strings. *)
Ltac split_strings :=
  unfold wf_strings in *;
  repeat match goal with H : Forall jstr_wf (_ :: _) |- _ => apply Forall_cons in H as [? H] end.

(** A field's owner is the workflow whose definition in force uses it. *)
Record ownership_inv (m : streams_map) : Prop := {
  oi_streams : wf_streams m;
  oi_fields : ∀ t d n w, wf_strings [t; d; n] → in_force m t d n = Some w → jstr_wf (nwd_stateField w);
  oi_owner : ∀ t d n f, wf_strings [t; d; n; f] →
    field_owner m t d f = Some n ↔ nwd_stateField <$> in_force m t d n = Some f
}.

Definition grows (m m' : streams_map) : Prop := ∀ s, stream_events m s `prefix_of` stream_events m' s.

#[export] Instance grows_preorder : PreOrder grows.
Proof. split; [intros m s; reflexivity|]. intros m1 m2 m3 H1 H2 s. etrans; [apply H1|apply H2]. Qed.

Lemma ownership_inv_nil : ownership_inv [].
Proof.
  split; [apply wf_streams_nil| |].
  - intros t d n w _. unfold in_force. by destruct (namedWorkflowStream t d n).
  - intros t d n f _. unfold in_force, field_owner.
    by destruct (namedWorkflowStream t d n), (namedWorkflowStateFieldStream t d f).
Qed.

(** Streams that did not change between two states say the same. *)
Lemma log_of_eq m m' s : stream_events m s = stream_events m' s → log_of m s = log_of m' s.
Proof. unfold log_of. by intros ->. Qed.

Lemma grows_pinched m1 m2 m3 s :
  grows m1 m2 → grows m2 m3 → stream_events m1 s = stream_events m3 s → stream_events m2 s = stream_events m1 s.
Proof.
  intros H12 H23 E. specialize (H12 s). specialize (H23 s). rewrite <-E in H23.
  apply prefix_length_eq in H12; [done|]. by apply prefix_length.
Qed.

(** ** What a read knows *)

Lemma omap_filter_skip {A B} (P : A → Prop) `{∀ x, Decision (P x)} (g : A → option B) (l : list A) :
  (∀ x, x ∈ l → ¬ P x → g x = None) → omap g (filter P l) = omap g l.
Proof.
  induction l as [|x l IH]; intros Hg; [done|]. rewrite filter_cons. cbn [omap list_omap].
  case_decide as Hx; cbn [omap list_omap].
  - by rewrite IH by (intros; apply Hg; [by right|done]).
  - rewrite (Hg x) by (done || left). by rewrite IH by (intros; apply Hg; [by right|done]).
Qed.

Lemma foldl_filter_skip {A B} (P : A → Prop) `{∀ x, Decision (P x)} (f : B → A → B) (l : list A) b :
  (∀ b x, x ∈ l → ¬ P x → f b x = b) → foldl f b (filter P l) = foldl f b l.
Proof.
  revert b. induction l as [|x l IH]; intros b Hf; [done|]. rewrite filter_cons. case_decide as Hx; simpl.
  - rewrite IH; [done|]. intros; apply Hf; [by right|done].
  - rewrite (Hf b x) by (done || left). rewrite IH; [done|]. intros; apply Hf; [by right|done].
Qed.

(** The kinds filter of a read. *)
Lemma kinds_matches kinds (e : DomainEvent) :
  read_matches {| rso_minSequence := None; rso_maxSequence := None; rso_limit := None;
                  rso_payloadKinds := Some kinds |} e = true ↔ payload_kind (e_payload e) ∈ kinds.
Proof. unfold read_matches. cbn [rso_minSequence rso_maxSequence rso_payloadKinds]. cbn. by rewrite bool_decide_eq_true. Qed.

Lemma log_definition_events d n events :
  log_definition d n (e_new <$> events) = mjoin (last (omap (workflow_change d n) events)).
Proof.
  unfold log_definition. do 2 f_equal. induction events as [|e events IH]; [done|].
  cbn [fmap list_fmap omap list_omap]. by rewrite IH.
Qed.

Lemma log_owner_events d f events o :
  foldl (λ owner e, owner_change d f owner (e_payload e)) o (e_new <$> events) =
  foldl (λ owner (e : DomainEvent), owner_change d f owner (e_payload e)) o events.
Proof. revert o. induction events as [|e events IH]; intros o; [done|]. apply IH. Qed.

Definition definition_events (events : list DomainEvent) : list DomainEvent := selected workflow_read_options events.
Definition ownership_events (events : list DomainEvent) : list DomainEvent := selected ownership_read_options events.

Lemma max_sequence_bound v events k :
  (v <= k)%Z → (∀ e : DomainEvent, e ∈ events → (e_sequence e <= k)%Z) → (max_sequence v events <= k)%Z.
Proof.
  revert v. induction events as [|e events IH]; intros v Hv He; [done|]. apply IH.
  - specialize (He e ltac:(left)). lia.
  - intros x Hx. apply He. by right.
Qed.

(** The state a reader folds: the definition the log gives, at a version that is
    at most the length of the stream. *)
Lemma definition_read t d n m s :
  wf_streams m →
  let state := foldNamedWorkflowDefinition t d n (definition_events (stream_events m s)) in
  nws_workflow state = log_definition d n (log_of m s) ∧
  (nws_version state <= Z.of_nat (length (stream_events m s)))%Z ∧
  nws_tenantId state = t ∧ nws_doctypeName state = d ∧ nws_workflowName state = n.
Proof.
  intros [_ Hwf]. destruct (Hwf s) as [Hc _]. cbv zeta. unfold foldNamedWorkflowDefinition.
  rewrite foldNamedWorkflowDefinitionFrom_state. unfold definition_events, selected.
  rewrite contiguous_sorted_filter by done. cbn [nws_workflow nws_version nws_tenantId nws_doctypeName nws_workflowName].
  split_and!; [|apply max_sequence_bound|done..].
  - rewrite omap_filter_skip.
    + unfold log_of. rewrite log_definition_events. by destruct (last _).
    + intros e _ Hk. rewrite (kinds_matches NAMED_WORKFLOW_STATE_PAYLOAD_KINDS e : read_matches workflow_read_options e = true ↔ _) in Hk. unfold workflow_change.
      destruct (e_payload e); try done; exfalso; apply Hk; by (apply (bool_decide_unpack _); vm_compute).
  - cbn. lia.
  - intros e [_ He]%list_elem_of_filter. by apply contiguous_bound.
Qed.

Lemma ownership_fold_parts t d f events :
  let state := foldNamedWorkflowFieldOwnership t d f events in
  nwo_workflowName state = foldl (λ owner (e : DomainEvent), owner_change d f owner (e_payload e)) None events ∧
  (∀ k, (0 <= k)%Z → (∀ e : DomainEvent, e ∈ events → (e_sequence e <= k)%Z) → (nwo_version state <= k)%Z) ∧
  nwo_tenantId state = t ∧ nwo_doctypeName state = d ∧ nwo_stateField state = f.
Proof.
  cbv zeta. unfold foldNamedWorkflowFieldOwnership, foldNamedWorkflowFieldOwnershipFrom. cbn [mbind option_bind fmap option_fmap option_map default].
  assert (H : (foldl (fold_ownership_step d f) (None, 0%Z) events).1 =
      foldl (λ owner (e : DomainEvent), owner_change d f owner (e_payload e)) None events ∧
    ∀ k, (0 <= k)%Z → (∀ e : DomainEvent, e ∈ events → (e_sequence e <= k)%Z) →
      ((foldl (fold_ownership_step d f) (None, 0%Z) events).2 <= k)%Z).
  { induction events as [|e events [IH1 IH2]] using rev_ind; [split; [done|]; simpl; lia|].
    rewrite !foldl_snoc. destruct (foldl (fold_ownership_step d f) (None, 0%Z) events) as [o v].
    cbn [fst snd] in IH1, IH2. rewrite <-IH1. unfold fold_ownership_step, owner_change. split.
    - destruct (e_payload e); try done; by destruct (bool_decide _ && bool_decide _).
    - intros k Hk He. assert ((v <= k)%Z) as Hv by (apply IH2; [done|]; intros x Hx; apply He, elem_of_app; by left).
      assert ((e_sequence e <= k)%Z) as He' by (apply He, elem_of_app; right; left).
      destruct (e_payload e); try done; destruct (bool_decide _ && bool_decide _); simpl; lia. }
  destruct (foldl _ (None, 0%Z) events) as [o v]. cbn [fst snd] in H. destruct H as [H1 H2]. done.
Qed.

Lemma ownership_read t d f m s :
  wf_streams m →
  let state := foldNamedWorkflowFieldOwnership t d f (ownership_events (stream_events m s)) in
  nwo_workflowName state = log_owner d f (log_of m s) ∧
  (nwo_version state <= Z.of_nat (length (stream_events m s)))%Z ∧
  nwo_tenantId state = t ∧ nwo_doctypeName state = d ∧ nwo_stateField state = f.
Proof.
  intros [_ Hwf]. destruct (Hwf s) as [Hc _]. cbv zeta.
  destruct (ownership_fold_parts t d f (ownership_events (stream_events m s))) as (H1 & H2 & ? & ? & ?).
  split_and!; [|apply H2|done..].
  - rewrite H1. unfold log_owner, log_of. rewrite log_owner_events. unfold ownership_events, selected.
    apply foldl_filter_skip. intros o e _ Hk.
    rewrite (kinds_matches NAMED_WORKFLOW_FIELD_OWNERSHIP_PAYLOAD_KINDS e : read_matches ownership_read_options e = true ↔ _) in Hk. unfold owner_change.
    destruct (e_payload e); try done; exfalso; apply Hk; by (apply (bool_decide_unpack _); vm_compute).
  - lia.
  - intros e [_ He]%list_elem_of_filter. by apply contiguous_bound.
Qed.

(** ** What a batch changes *)

Definition own_payload (a : OwnershipAction) (d f n : jstr) : payload :=
  match a with OwnClaim => PWorkflowFieldClaimed d f n | OwnRelease => PWorkflowFieldReleased d f n end.

(** The entry of a batch that records an ownership change. *)
Definition entry_for (t d n : jstr) (effect : jstr * OwnershipAction) (entry : AppendEntry) : Prop :=
  namedWorkflowStateFieldStream t d effect.1 = Ok (ae_stream entry) ∧
  ∃ ev, ae_events entry = [ev] ∧ e_payload ev = own_payload effect.2 d effect.1 n.

Section batch.
Context (t d n s : jstr) (p : payload) (main : AppendEntry) (ents : list AppendEntry)
        (effects : list (jstr * OwnershipAction)) (saved : list DomainEvent) (m m' : streams_map).
Hypothesis (Hstrings : wf_strings [t; d; n]) (Hfields : wf_strings (effects.*1)).
Hypothesis (Hstream : namedWorkflowStream t d n = Ok s) (Hmain : ae_stream main = s).
Hypothesis (Hevent : ∃ ev, ae_events main = [ev] ∧ e_payload ev = p).
Hypothesis (Hdef : definition_change d n p ≠ None ∧ ∀ d' n', (d', n') ≠ (d, n) → definition_change d' n' p = None).
Hypothesis (Hents : Forall2 (entry_for t d n) effects ents) (Hnodup : jm_wf effects).
Hypothesis (Hwritten : batch_written (main :: ents) saved m m').

Lemma entry_of_effect f a : jm_get f effects = Some a → ∃ entry, entry ∈ ents ∧ entry_for t d n (f, a) entry.
Proof using Hents Hnodup.
  intros [i Hi]%(jm_get_elem f a effects Hnodup)%list_elem_of_lookup.
  destruct (Forall2_lookup_l _ _ _ _ _ Hents Hi) as (entry & He & H). exists entry.
  split; [by eapply list_elem_of_lookup_2|done].
Qed.

Lemma effect_of_entry entry : entry ∈ ents → ∃ f a, jm_get f effects = Some a ∧ jstr_wf f ∧ entry_for t d n (f, a) entry.
Proof using Hents Hnodup Hfields.
  intros [i Hi]%list_elem_of_lookup. destruct (Forall2_lookup_r _ _ _ _ _ Hents Hi) as ([f a] & He & H).
  exists f, a. apply list_elem_of_lookup_2 in He. split_and!; [by apply jm_get_elem| |done].
  eapply (Forall_forall jstr_wf (effects.*1)); [exact Hfields|]. by apply (list_elem_of_fmap_2 fst) in He.
Qed.

Lemma batch_log entry : entry ∈ main :: ents → log_of m' (ae_stream entry) = log_of m (ae_stream entry) ++ ae_events entry.
Proof using Hwritten. intros He. by apply Hwritten. Qed.

Lemma batch_log_other o : o ∉ entry_streams (main :: ents) → log_of m' o = log_of m o.
Proof using Hwritten. intros Ho. apply log_of_eq. by apply Hwritten. Qed.

Lemma in_force_after t' d' n' :
  wf_strings [t'; d'; n'] →
  in_force m' t' d' n' =
  if decide (t' = t ∧ d' = d ∧ n' = n) then mjoin (definition_change d n p) else in_force m t' d' n'.
Proof using Type*.
  intros Hw. unfold in_force. destruct (namedWorkflowStream t' d' n') as [s'|e] eqn:Es'.
  2:{ rewrite decide_False; [done|]. intros (-> & -> & ->). by rewrite Hstream in Es'. }
  split_strings.
  destruct (decide (s' ∈ entry_streams (main :: ents))) as [Hin|Hout].
  - unfold entry_streams in Hin. rewrite fmap_cons in Hin. apply elem_of_cons in Hin as [->|(entry & -> & He)%list_elem_of_fmap].
    + rewrite (batch_log main) by left. destruct Hevent as (ev & -> & Hev). rewrite log_definition_snoc, Hev, Hmain.
      rewrite Hmain in Es'. destruct (namedWorkflowStream_inj t' d' n' t d n s) as [-> E]; [done..|].
      destruct Hdef as [Hd1 Hd2]. case_decide as Hc.
      * destruct Hc as (_ & -> & ->). by destruct (definition_change d n p).
      * rewrite Hd2; [done|]. intros [= -> ->]. by apply Hc.
    + exfalso. destruct (effect_of_entry entry He) as (f & a & _ & Hf & Hs & _).
      by eapply (workflow_families_disjoint t' d' n' t d f).
  - rewrite batch_log_other by done. rewrite decide_False; [done|]. intros (-> & -> & ->). apply Hout.
    rewrite Hstream in Es'. injection Es' as <-. rewrite <-Hmain. left.
Qed.

Lemma field_owner_after t' d' f' :
  wf_strings [t'; d'; f'] →
  field_owner m' t' d' f' =
  match (if decide (t' = t ∧ d' = d) then jm_get f' effects else None) with
  | Some a => owner_change d f' (field_owner m t d f') (own_payload a d f' n)
  | None => field_owner m t' d' f'
  end.
Proof using Type*.
  intros Hw. unfold field_owner.
  split_strings.
  destruct (namedWorkflowStateFieldStream t' d' f') as [o|e] eqn:Eo.
  2:{ case_decide as Hc; [|done]. destruct Hc as [-> ->]. destruct (jm_get f' effects) as [a|] eqn:Ea; [|done].
      destruct (entry_of_effect _ _ Ea) as (entry & _ & Hs & _). cbn [fst] in Hs. by rewrite Hs in Eo. }
  destruct (decide (o ∈ entry_streams (main :: ents))) as [Hin|Hout].
  - unfold entry_streams in Hin. rewrite fmap_cons in Hin. apply elem_of_cons in Hin as [->|(entry & -> & He)%list_elem_of_fmap].
    + exfalso. rewrite Hmain in Eo. by eapply (workflow_families_disjoint t d n t' d' f').
    + destruct (effect_of_entry entry He) as (f & a & Ha & Hf & Hs & ev & Hev & Hp). cbn [fst snd] in Hs, Hp.
      rewrite (batch_log entry) by (by right). rewrite Hev, log_owner_snoc, Hp.
      destruct (namedWorkflowStateFieldStream_inj t' d' f' t d f (ae_stream entry)) as [-> E]; [done..|].
      destruct (decide (t = t ∧ d' = d)) as [[_ ->]|Hne].
      * apply app_inv_head, app_inv_head in E as ->. by rewrite Ha, Eo.
      * unfold own_payload, owner_change. destruct a; rewrite (bool_decide_false (d = d')); try done; intros ->; by apply Hne.
  - rewrite batch_log_other by done. case_decide as Hc; [|done]. destruct Hc as [-> ->].
    destruct (jm_get f' effects) as [a|] eqn:Ea; [|done]. exfalso. apply Hout.
    destruct (entry_of_effect _ _ Ea) as (entry & He & Hs & _). cbn [fst] in Hs. rewrite Hs in Eo. injection Eo as <-.
    right. by apply list_elem_of_fmap_2.
Qed.
End batch.

(** ** A committed change keeps the invariant *)

Section change.
Context (t d n : jstr) (p : payload) (new : option NamedWorkflowDefinition)
        (effects : list (jstr * OwnershipAction)) (m m' : streams_map).

(** The ownership changes are those the change of definition calls for. *)
Record effects_ok : Prop := {
  eo_release : ∀ f, jm_get f effects = Some OwnRelease →
    field_owner m t d f = Some n ∧ nwd_stateField <$> new ≠ Some f;
  eo_claim : ∀ f, jm_get f effects = Some OwnClaim → field_owner m t d f = None ∧ nwd_stateField <$> new = Some f;
  eo_kept : ∀ f, nwd_stateField <$> new = Some f → jm_get f effects = None → nwd_stateField <$> in_force m t d n = Some f;
  eo_left : ∀ f, nwd_stateField <$> in_force m t d n = Some f → nwd_stateField <$> new ≠ Some f →
    jm_get f effects = Some OwnRelease
}.

Lemma change_keeps_inv :
  wf_strings [t; d; n] → effects_ok → (∀ w, new = Some w → jstr_wf (nwd_stateField w)) →
  ownership_inv m → wf_streams m' →
  (∀ t' d' n', wf_strings [t'; d'; n'] → in_force m' t' d' n' =
     if decide (t' = t ∧ d' = d ∧ n' = n) then new else in_force m t' d' n') →
  (∀ t' d' f', wf_strings [t'; d'; f'] → field_owner m' t' d' f' =
     match (if decide (t' = t ∧ d' = d) then jm_get f' effects else None) with
     | Some a => owner_change d f' (field_owner m t d f') (own_payload a d f' n)
     | None => field_owner m t' d' f'
     end) →
  ownership_inv m'.
Proof.
  intros Hs [Hrel Hclaim Hkept Hleft] Hnew [Hwf Hfields Howner] Hwf' Hforce Hown. split; [done| |].
  - intros t' d' n' w Hs'. rewrite Hforce by done. case_decide; [apply Hnew|by apply Hfields].
  - intros t' d' n' f' Hs'. assert (wf_strings [t'; d'; n'] ∧ wf_strings [t'; d'; f']) as [Hw1 Hw2].
    { split_strings. unfold wf_strings. split; repeat constructor; done. }
    rewrite Hforce, Hown by done. specialize (Howner t' d' n' f' Hs').
    destruct (decide (t' = t ∧ d' = d)) as [[-> ->]|Htd].
    2:{ rewrite (decide_False (P := _ ∧ _ ∧ _)); [done|]. intros (-> & -> & _). by apply Htd. }
    destruct (jm_get f' effects) as [[]|] eqn:Ea.
    + apply Hclaim in Ea as [Eo En]. unfold own_payload, owner_change. rewrite !bool_decide_true by done. cbn [andb].
      case_decide as Hn; [destruct Hn as (_ & _ & ->); by rewrite En|].
      rewrite <-Howner, Eo. split; [|done]. intros [= ->]. by destruct Hn.
    + apply Hrel in Ea as [Eo En]. unfold own_payload, owner_change. rewrite !bool_decide_true by done. cbn [andb].
      case_decide as Hn; [destruct Hn as (_ & _ & ->); by split|].
      rewrite <-Howner, Eo. split; [done|]. intros [= ->]. by destruct Hn.
    + case_decide as Hn; [|done]. destruct Hn as (_ & _ & ->). rewrite Howner. split.
      * intros E. destruct (decide (nwd_stateField <$> new = Some f')) as [|Hne]; [done|].
        by rewrite (Hleft _ E Hne) in Ea.
      * intros E. by apply Hkept.
Qed.
End change.

(** ** Running under interference *)

Section running.
Context `{Collation} (options : WorkflowServiceOptions) (ids clock : nat → jstr).
Context (env : nat → streams_map → streams_map) (G : nat → streams_map → Prop).
Context `{He : !Environment env grows G ownership_inv}.
#[local] Abbreviation sees := (Interference.sees G).
#[local] Abbreviation quiet := (Interference.quiet grows G).

Lemma quiet_read stream read :
  rso_limit read = None → quiet (read_events env stream read) (λ events _ m', events = selected read (stream_events m' stream)).
Proof using He.
  intros Hl. eapply quiet_mono; [apply (quiet_observe He)|]. cbn beta. intros events _ m' [Hi E].
  rewrite readStream_selected in E; [by injection E|by apply oi_streams|done].
Qed.

Lemma quiet_catalog t doctype streams : quiet (catalog_states env t doctype streams) anything.
Proof using He.
  induction streams as [|stream streams IH]; cbn [catalog_states].
  - eapply quiet_mono; [apply (quiet_ret He)|done].
  - eapply quiet_mono; [eapply (quiet_bind He); [by apply quiet_read|]; intros events;
      eapply (quiet_bind He); [exact IH|]; intros rest; apply (quiet_ret He)|done].
Qed.

Lemma quiet_statesFor t doctype : quiet (statesFor env t doctype) anything.
Proof using He.
  unfold statesFor. eapply quiet_mono; [eapply (quiet_bind He) with (Q := anything); [|intros streams;
    eapply (quiet_bind He); [apply quiet_catalog|]; intros runtime; apply (quiet_ret He)]|done].
  eapply quiet_mono; [apply (quiet_observe He)|done].
Qed.

Lemma quiet_effectiveDocType name t base : quiet (effectiveDocType options env name t base) anything.
Proof using He.
  unfold effectiveDocType. eapply quiet_mono; [eapply (quiet_bind He); [apply (quiet_lift He)|]; intros doctype;
    eapply (quiet_bind He); [apply quiet_statesFor|]; intros states; apply (quiet_lift He)|done].
Qed.

(** What [stateFor] returns is the state of the stream when it was read. *)
Definition state_at (t : jstr) (doctype : DocTypeDefinition) (n : jstr)
    (state : NamedWorkflowDefinitionState) (m : streams_map) : Prop :=
  ∃ s, namedWorkflowStream t (dt_name doctype) n = Ok s ∧
    state = withStaticFallback doctype
      (foldNamedWorkflowDefinition t (dt_name doctype) n (definition_events (stream_events m s))).

Lemma quiet_stateFor t doctype n :
  quiet (stateFor env t doctype n) (λ state _ m, state_at t doctype n state m).
Proof using He.
  unfold stateFor. eapply quiet_mono; [eapply (quiet_bind He); [apply (quiet_lift He)|]; intros s;
    eapply (quiet_bind He); [by apply quiet_read|]; intros events; apply (quiet_ret He)|].
  cbn beta. intros state m m' (s & m1 & _ & _ & _ & [Hs ->] & events & m2 & _ & _ & _ & -> & -> & ->). by exists s.
Qed.

Definition owner_at (t d f : jstr) (owner : NamedWorkflowFieldOwnershipState) (m : streams_map) : Prop :=
  ∃ s, namedWorkflowStateFieldStream t d f = Ok s ∧
    owner = foldNamedWorkflowFieldOwnership t d f (ownership_events (stream_events m s)).

Lemma quiet_fieldOwnershipFor t d f :
  quiet (fieldOwnershipFor env t d f) (λ owner _ m, owner_at t d f owner m).
Proof using He.
  unfold fieldOwnershipFor. eapply quiet_mono; [eapply (quiet_bind He); [apply (quiet_lift He)|]; intros s;
    eapply (quiet_bind He); [by apply quiet_read|]; intros events; apply (quiet_ret He)|].
  cbn beta. intros owner m m' (s & m1 & _ & _ & _ & [Hs ->] & events & m2 & _ & _ & _ & -> & -> & ->). by exists s.
Qed.

(** One half of the ownership plan: the field read, and the write it asks for. *)
Definition half_plan (t d n f : jstr) (wanted : option jstr → bool) (a : OwnershipAction)
    (writes : list WorkflowFieldOwnershipWrite) (m : streams_map) : Prop :=
  ∃ owner, owner_at t d f owner m ∧ (nwo_workflowName owner = None ∨ nwo_workflowName owner = Some n) ∧
    writes = if wanted (nwo_workflowName owner) then [{| wfw_action := a; wfw_state := owner |}] else [].

Lemma ensure_not_foreign_ok owner n u :
  ensure_not_foreign owner n = Ok u → nwo_workflowName owner = None ∨ nwo_workflowName owner = Some n.
Proof using Type.
  unfold ensure_not_foreign. intros Ho%ensure_ok. destruct (nwo_workflowName owner) as [n'|]; [right|by left].
  by apply bool_decide_eq_true in Ho as ->.
Qed.

Lemma quiet_half_plan t d n f (wanted : option jstr → bool) a :
  quiet (owner ← fieldOwnershipFor env t d f;
         _ ← m_lift (ensure_not_foreign owner n);
         mret (if wanted (nwo_workflowName owner) then [{| wfw_action := a; wfw_state := owner |}] else []))
    (λ writes _ m, half_plan t d n f wanted a writes m).
Proof using He.
  eapply quiet_mono; [eapply (quiet_bind He); [apply quiet_fieldOwnershipFor|]; intros owner;
    eapply (quiet_bind He); [apply (quiet_lift He)|]; intros u; apply (quiet_ret He)|].
  cbn beta. intros writes m m' (owner & m1 & _ & _ & _ & Ho & u & m2 & _ & _ & _ & [Hu ->] & -> & ->).
  exists owner. split_and!; [done|by eapply ensure_not_foreign_ok|done].
Qed.

(** The two halves of the plan, made at two moments. *)
Definition ownership_plan (t d n : jstr) (before after : option jstr)
    (writes : list WorkflowFieldOwnershipWrite) (m m' : streams_map) : Prop :=
  ∃ released claimed m1, writes = released ++ claimed ∧ ownership_inv m1 ∧ grows m m1 ∧ grows m1 m' ∧
    match before with
    | Some b => if decide (before = after) then released = [] else half_plan t d n b (owned_by n) OwnRelease released m1
    | None => released = []
    end ∧
    match after with Some a => half_plan t d n a unowned OwnClaim claimed m' | None => claimed = [] end.

Lemma quiet_planFieldOwnershipChange t d n before after :
  quiet (planFieldOwnershipChange env t d n before after) (ownership_plan t d n before after).
Proof using He.
  unfold planFieldOwnershipChange.
  eapply quiet_mono with (Q := λ writes m m2, ∃ released m1, ownership_inv m1 ∧ grows m m1 ∧ grows m1 m2 ∧
      (match before with
       | Some b => if decide (before = after) then released = [] else half_plan t d n b (owned_by n) OwnRelease released m1
       | None => released = []
       end) ∧
      ∃ claimed m3, ownership_inv m3 ∧ grows m1 m3 ∧ grows m3 m2 ∧
        match after with Some a => half_plan t d n a unowned OwnClaim claimed m3 | None => claimed = [] end ∧
        writes = released ++ claimed ∧ m2 = m3).
  - eapply (quiet_bind He) with (Q := λ released _ m1, match before with
       | Some b => if decide (before = after) then released = [] else half_plan t d n b (owned_by n) OwnRelease released m1
       | None => released = [] end).
    { destruct before as [b|]; [|eapply quiet_mono; [apply (quiet_ret He)|by intros ? ? ? [-> _]]].
      destruct (decide (Some b = after)) as [Hd|Hd].
      - rewrite bool_decide_true by done. eapply quiet_mono; [apply (quiet_ret He)|by intros ? ? ? [-> _]].
      - rewrite bool_decide_false by done. apply (quiet_half_plan t d n b (owned_by n) OwnRelease). }
    intros released. eapply (quiet_bind He) with (Q := λ claimed _ m3, match after with
       | Some a => half_plan t d n a unowned OwnClaim claimed m3 | None => claimed = [] end).
    { destruct after as [a|]; [apply (quiet_half_plan t d n a unowned OwnClaim)|]. eapply quiet_mono; [apply (quiet_ret He)|by intros ? ? ? [-> _]]. }
    intros claimed. apply (quiet_ret He).
  - intros writes m m2 (released & m1 & Hi1 & Hg1 & _ & Hr & claimed & m3 & _ & Hg3 & _ & Hc & -> & ->).
    by exists released, claimed, m1.
Qed.

(** ** The batch *)

(** The entry built for an ownership write. *)
Definition entry_of_write (n : jstr) (write : WorkflowFieldOwnershipWrite) (entry : AppendEntry) : Prop :=
  let state := wfw_state write in
  namedWorkflowStateFieldStream (nwo_tenantId state) (nwo_doctypeName state) (nwo_stateField state)
    = Ok (ae_stream entry) ∧
  ae_expectedVersion entry = nwo_version state ∧
  ∃ ev, ae_events entry = [ev] ∧ e_stream ev = ae_stream entry ∧
    e_payload ev = own_payload (wfw_action write) (nwo_doctypeName state) (nwo_stateField state) n.

Lemma ownership_entry_ok actor metadata id at_ n write entry :
  ownership_entry actor metadata id at_ n write = Ok entry → entry_of_write n write entry.
Proof using Type.
  unfold ownership_entry. intros H0. step_ok H0 as s Hs. step_ok H0 as f Hf.
  unfold entry_of_write. destruct (wfw_action write); injection H0 as <-; cbn; split_and!; eauto.
Qed.

(** The entry of the definition itself. *)
Definition main_entry (s : jstr) (version : Z) (p : payload) (entry : AppendEntry) : Prop :=
  ae_stream entry = s ∧ ae_expectedVersion entry = version ∧
  ∃ ev, ae_events entry = [ev] ∧ e_stream ev = s ∧ e_payload ev = p.

(** A batch that was checked against a store and written to it. *)
Definition committed (state : NamedWorkflowDefinitionState) (p : payload)
    (writes : list WorkflowFieldOwnershipWrite) (m m' : streams_map) : Prop :=
  ∃ s main ents saved,
    namedWorkflowStream (nws_tenantId state) (nws_doctypeName state) (nws_workflowName state) = Ok s ∧
    main_entry s (nws_version state) p main ∧ Forall2 (entry_of_write (nws_workflowName state)) writes ents ∧
    check_entries m (main :: ents) = Ok tt ∧ batch_written (main :: ents) saved m m'.

Lemma appendBatch_checked entries m saved m' :
  appendBatch entries m = (Ok saved, m') → check_entries m entries = Ok tt.
Proof using Type.
  unfold appendBatch. rewrite m_bind_run. unfold m_get. rewrite m_bind_run. unfold m_lift.
  by destruct (check_entries m entries) as [[]|e].
Qed.

Lemma appendAndFold_run state actor metadata p writes s0 :
  sees s0 →
  (∀ s main ents,
     namedWorkflowStream (nws_tenantId state) (nws_doctypeName state) (nws_workflowName state) = Ok s →
     main_entry s (nws_version state) p main → Forall2 (entry_of_write (nws_workflowName state)) writes ents →
     batch_ok (main :: ents)) →
  let (r, s1) := appendAndFold ids clock env state actor metadata p writes s0 in
  ∃ m, G (cl_tick s1) m ∧ grows (cl_store s0) m ∧
    (cl_store s1 = m ∨ committed state p writes m (cl_store s1)).
Proof using He.
  intros Hs Hok. unfold appendAndFold. rewrite m_bind_run. unfold m_lift at 1.
  destruct (namedWorkflowStream _ _ _) as [s|e] eqn:Es; [|exists (cl_store s0); by split_and!; [|reflexivity|left]].
  rewrite m_bind_run. unfold next_id. cbv beta iota. rewrite m_bind_run. unfold now. cbv beta iota.
  set (c0 := {| cl_tick := cl_tick s0; cl_ids := S (cl_ids s0); cl_store := cl_store s0 |}). rewrite m_bind_run.
  pose proof (quiet_read s (until_sequence (nws_version state)) eq_refl c0 Hs) as Hread.
  destruct (read_events env s _ c0) as [[previous|e] s1].
  2:{ destruct Hread as (Hs1 & Hg & _). exists (cl_store s1). split_and!; [done|done|by left]. }
  destruct Hread as (Hs1 & Hg1 & _). rewrite m_bind_run. unfold m_lift at 1.
  destruct (map_res _ writes) as [ents|e] eqn:Eents; [|exists (cl_store s1); split_and!; [done|done|by left]].
  rewrite m_bind_run. unfold append_batch, update, awaited, on_store, mret, M_ret. rewrite m_bind_run. cbn [cl_tick cl_store].
  destruct (env_step _ _ Hs1) as [Hs2 Hg2]. set (m := env (cl_tick s1) (cl_store s1)) in *.
  set (event := namedWorkflowDefinitionEvent _ _ _ _ _ _ _ _ _).
  set (main := {| ae_stream := s; ae_expectedVersion := nws_version state; ae_events := [event] |}).
  assert (Hmain : main_entry s (nws_version state) p main) by (split_and!; [done|done|by exists event]).
  assert (Hents : Forall2 (entry_of_write (nws_workflowName state)) writes ents).
  { apply map_res_ok in Eents. eapply Forall2_impl; [exact Eents|]. intros w entry. apply ownership_entry_ok. }
  pose proof (appendBatch_cases (main :: ents) m (oi_streams _ (env_inv _ _ Hs2)) (Hok s main ents eq_refl Hmain Hents)) as Hcases.
  destruct (appendBatch (main :: ents) m) as [[saved|e] m'] eqn:Ebatch; cbn [cl_tick cl_store];
    exists m; (split_and!; [done|by etrans|]).
  - right. exists s, main, ents, saved. split_and!; try done. by eapply appendBatch_checked.
  - left. by rewrite Hcases.
Qed.
End running.

(** ** Why the version checks are enough *)

Lemma state_at_facts t doctype n state m :
  wf_streams m → state_at t doctype n state m →
  nws_tenantId state = t ∧ nws_doctypeName state = dt_name doctype ∧ nws_workflowName state = n ∧
  (∃ s, namedWorkflowStream t (dt_name doctype) n = Ok s ∧
     (nws_version state <= Z.of_nat (length (stream_events m s)))%Z) ∧
  (nws_workflow state = in_force m t (dt_name doctype) n ∨
   in_force m t (dt_name doctype) n = None ∧ ∃ w, nws_workflow state = Some w ∧ w ∈ default [] (dt_workflows doctype)).
Proof.
  intros Hwf (s & Hs & ->). destruct (definition_read t (dt_name doctype) n m s Hwf) as (Hw & Hv & Ht & Hd & Hn).
  unfold in_force. rewrite Hs, <-Hw. set (state := foldNamedWorkflowDefinition _ _ _ _) in *.
  unfold withStaticFallback. destruct (negb _ || _ || _) eqn:E; [eauto 10|].
  destruct (namedWorkflowByName doctype (nws_workflowName state)) as [w|] eqn:Ew; [|eauto 10].
  cbn [nws_tenantId nws_doctypeName nws_workflowName nws_version nws_workflow]. split_and!; eauto.
  right. split; [by destruct (nws_workflow state); [rewrite orb_true_r in E|]|]. exists w. split; [done|].
  unfold namedWorkflowByName in Ew. destruct (dt_workflows doctype) as [ws|]; [|done]. cbn [mbind option_bind default] in Ew |- *.
  destruct (list_find _ ws) as [[i w']|] eqn:Ef; [|done]. injection Ew as <-.
  apply list_find_Some in Ef as (Hi & _). by apply list_elem_of_lookup_2 in Hi.
Qed.

Lemma owner_at_facts t d f owner m :
  wf_streams m → owner_at t d f owner m →
  nwo_tenantId owner = t ∧ nwo_doctypeName owner = d ∧ nwo_stateField owner = f ∧
  nwo_workflowName owner = field_owner m t d f ∧
  ∃ s, namedWorkflowStateFieldStream t d f = Ok s ∧ (nwo_version owner <= Z.of_nat (length (stream_events m s)))%Z.
Proof.
  intros Hwf (s & Hs & ->). destruct (ownership_read t d f m s Hwf) as (Hw & Hv & Ht & Hd & Hf).
  unfold field_owner. rewrite Hs. split_and!; eauto.
Qed.

(** A read whose version is still the stream's length is still exact. *)
Lemma still_exact m m' s v :
  grows m m' → (v <= Z.of_nat (length (stream_events m s)))%Z → Z.of_nat (length (stream_events m' s)) = v →
  stream_events m s = stream_events m' s.
Proof. intros Hg Hv Hl. apply prefix_length_eq; [apply Hg|]. lia. Qed.

Definition effect_of (w : WorkflowFieldOwnershipWrite) : jstr * OwnershipAction :=
  (nwo_stateField (wfw_state w), wfw_action w).

(** What a plan made between two moments says at a later one. *)
Record plan_says (t d n : jstr) (before after : option jstr) (writes : list WorkflowFieldOwnershipWrite)
    (m0 m3 : streams_map) : Prop := {
  ps_write : ∀ w, w ∈ writes → ∃ m, wf_streams m ∧ grows m m3 ∧ owner_at t d (nwo_stateField (wfw_state w)) (wfw_state w) m ∧
    match wfw_action w with
    | OwnRelease => nwo_workflowName (wfw_state w) = Some n ∧ before = Some (nwo_stateField (wfw_state w)) ∧ before ≠ after
    | OwnClaim => nwo_workflowName (wfw_state w) = None ∧ after = Some (nwo_stateField (wfw_state w))
    end;
  ps_nodup : jm_wf (effect_of <$> writes);
  ps_after : ∀ a, after = Some a → jm_get a (effect_of <$> writes) = Some OwnClaim ∨
    ∃ m, ownership_inv m ∧ grows m0 m ∧ grows m m3 ∧ field_owner m t d a = Some n;
  ps_before : ∀ b, before = Some b → before ≠ after → jm_get b (effect_of <$> writes) = Some OwnRelease ∨
    ∃ m, ownership_inv m ∧ grows m0 m ∧ grows m m3 ∧ field_owner m t d b = None
}.

Lemma half_plan_says t d n f wanted a writes m :
  wf_streams m → half_plan t d n f wanted a writes m →
  (∃ owner, writes = [{| wfw_action := a; wfw_state := owner |}] ∧ owner_at t d f owner m ∧
     nwo_stateField owner = f ∧ wanted (nwo_workflowName owner) = true) ∨
  (writes = [] ∧ wanted (field_owner m t d f) = false ∧ (field_owner m t d f = None ∨ field_owner m t d f = Some n)).
Proof.
  intros Hwf (owner & Ho & Hn & ->). destruct (owner_at_facts t d f owner m Hwf Ho) as (_ & _ & Hf & <- & _).
  destruct (wanted (nwo_workflowName owner)) eqn:E; [left; by exists owner|by right].
Qed.

Lemma plan_says_intro t d n before after writes m0 m2 m3 :
  ownership_inv m2 → grows m2 m3 → ownership_plan t d n before after writes m0 m2 →
  plan_says t d n before after writes m0 m3.
Proof.
  intros Hi2 Hg23 (released & claimed & m1 & -> & Hi1 & Hg01 & Hg12 & Hrel & Hclaim).
  assert (Hr : released = [] ∧ (∀ b, before = Some b → before ≠ after → field_owner m1 t d b = None) ∨
    ∃ b owner, before = Some b ∧ before ≠ after ∧ owner_at t d b owner m1 ∧ nwo_stateField owner = b ∧
      nwo_workflowName owner = Some n ∧ released = [{| wfw_action := OwnRelease; wfw_state := owner |}]).
  { destruct before as [b|]; [|left; split; [done|by intros]]. case_decide as Hd; [left; split; [done|by intros ? _ []]|].
    apply half_plan_says in Hrel as [(owner & -> & Ho & Hf & Hw)|(-> & Hw & Hn)]; [|left|by apply Hi1].
    - right. exists b, owner. split_and!; try done. unfold owned_by in Hw.
      destruct (nwo_workflowName owner); [|done]. by apply bool_decide_eq_true in Hw as ->.
    - split; [done|]. intros b' [= <-] _. destruct Hn as [?|E]; [done|]. rewrite E in Hw. cbn in Hw.
      by apply bool_decide_eq_false in Hw. }
  assert (Hc : claimed = [] ∧ (∀ a, after = Some a → field_owner m2 t d a = Some n) ∨
    ∃ a owner, after = Some a ∧ owner_at t d a owner m2 ∧ nwo_stateField owner = a ∧
      nwo_workflowName owner = None ∧ claimed = [{| wfw_action := OwnClaim; wfw_state := owner |}]).
  { destruct after as [a|]; [|left; split; [done|by intros]].
    apply half_plan_says in Hclaim as [(owner & -> & Ho & Hf & Hw)|(-> & Hw & Hn)]; [|left|by apply Hi2].
    - right. exists a, owner. split_and!; try done. by destruct (nwo_workflowName owner).
    - split; [done|]. intros a' [= <-]. destruct Hn as [E|?]; [|done]. by rewrite E in Hw. }
  assert (Hg13 : grows m1 m3) by (by etrans). assert (Hg02 : grows m0 m2) by (by etrans).
  split.
  - intros w [Hw|Hw]%elem_of_app.
    + destruct Hr as [[-> _]|(b & owner & -> & Hd & Ho & Hf & Hn & ->)]; [by apply elem_of_nil in Hw|].
      apply list_elem_of_singleton in Hw as ->. exists m1. cbn. rewrite Hf. split_and!; [apply Hi1|done..].
    + destruct Hc as [[-> _]|(a & owner & -> & Ho & Hf & Hn & ->)]; [by apply elem_of_nil in Hw|].
      apply list_elem_of_singleton in Hw as ->. exists m2. cbn. rewrite Hf. split_and!; [apply Hi2|done..].
  - unfold jm_wf, jm_keys. destruct Hr as [[-> _]|(b & owner & -> & Hd & Ho & Hf & Hn & ->)];
      destruct Hc as [[-> _]|(a & owner' & -> & Ho' & Hf' & Hn' & ->)]; cbn; repeat constructor; try by intros []%elem_of_nil.
    intros E%list_elem_of_singleton. apply Hd. by rewrite <-Hf, <-Hf', E.
  - intros a ->. destruct Hc as [[_ H]|(a' & owner & [= <-] & _ & Hf & Hn & ->)]; [right; exists m2; auto|left].
    destruct Hr as [[-> _]|(b & owner' & -> & Hd & _ & Hf' & _ & ->)]; cbn; rewrite Hf; [by rewrite decide_True|].
    rewrite Hf', decide_False by congruence. by rewrite decide_True.
  - intros b -> Hd. destruct Hr as [[_ H]|(b' & owner & [= <-] & _ & _ & Hf & Hn & ->)]; [right; exists m1; auto|left].
    cbn. by rewrite Hf, decide_True.
Qed.

Lemma strings3 a b c : wf_strings [a; b; c] → jstr_wf a ∧ jstr_wf b ∧ jstr_wf c.
Proof. intros H. by split_strings. Qed.

(** The entries of different fields name different streams. *)
Lemma entries_nodup t d n effects ents :
  jstr_wf t → jstr_wf d → (∀ e, e ∈ effects → jstr_wf e.1) → Forall2 (entry_for t d n) effects ents →
  jm_wf effects → NoDup (entry_streams ents).
Proof.
  intros Ht Hd Hwf Hfor. unfold jm_wf, jm_keys. revert Hwf.
  induction Hfor as [|e entry es ents He Hfor IH]; intros Hwf Hnd; [constructor|].
  rewrite fmap_cons in Hnd. unfold entry_streams. rewrite fmap_cons.
  apply NoDup_cons in Hnd as [Hnin Hnd]. apply NoDup_cons. split.
  - intros (entry' & E & [i Hi]%list_elem_of_lookup)%list_elem_of_fmap.
    destruct (Forall2_lookup_r _ _ _ _ _ Hfor Hi) as (e' & He'%list_elem_of_lookup_2 & Ho & _).
    destruct He as [Ho' _]. rewrite <-E in Ho. apply Hnin.
    destruct (namedWorkflowStateFieldStream_inj t d e.1 t d e'.1 (ae_stream entry)) as [_ Ef];
      [done|done|apply Hwf; left|done|done|apply Hwf; by right|done|done|].
    apply app_inv_head, app_inv_head in Ef. rewrite Ef. by apply list_elem_of_fmap_2.
  - apply IH; [|done]. intros e' He'. apply Hwf. by right.
Qed.

Section commit.
Context (t n : jstr) (doctype : DocTypeDefinition) (state : NamedWorkflowDefinitionState) (p : payload)
        (new : option NamedWorkflowDefinition) (writes : list WorkflowFieldOwnershipWrite) (m0 m3 : streams_map).
Abbreviation d := (dt_name doctype).
Hypothesis (Hstrings : wf_strings [t; d; n]).
Hypothesis (Hstatic : ∀ w, w ∈ default [] (dt_workflows doctype) → jstr_wf (nwd_stateField w)).
Hypothesis (Hnew : ∀ w, new = Some w → jstr_wf (nwd_stateField w)).
Hypothesis (Hchange : definition_change d n p = Some new).
Hypothesis (Hother : ∀ d' n', (d', n') ≠ (d, n) → definition_change d' n' p = None).
Hypothesis (Hinv0 : ownership_inv m0) (Hinv3 : ownership_inv m3) (Hgrows : grows m0 m3).
Hypothesis (Hstate : state_at t doctype n state m0).
Hypothesis (Hplan : plan_says t d n (nwd_stateField <$> nws_workflow state) (nwd_stateField <$> new) writes m0 m3).

Lemma write_field_wf w : w ∈ writes → jstr_wf (nwo_stateField (wfw_state w)).
Proof using Type*.
  intros Hw. destruct (ps_write _ _ _ _ _ _ _ _ Hplan w Hw) as (m & _ & _ & _ & H).
  destruct (state_at_facts t doctype n state m0 (oi_streams _ Hinv0) Hstate) as (_ & _ & _ & _ & Hdef).
  destruct (wfw_action w).
  - destruct H as [_ E]. destruct new as [w'|]; [|done]. injection E as <-. by apply Hnew.
  - destruct H as (_ & E & _). destruct (nws_workflow state) as [w'|] eqn:Ew; [|done]. injection E as <-.
    destruct Hdef as [Hdef|(_ & w2 & [= <-] & Hin)]; [|by apply Hstatic].
    by eapply (oi_fields _ Hinv0 t d n w').
Qed.

Lemma write_facts w :
  w ∈ writes → ∃ m s, wf_streams m ∧ grows m m3 ∧
    nwo_tenantId (wfw_state w) = t ∧ nwo_doctypeName (wfw_state w) = d ∧
    namedWorkflowStateFieldStream t d (nwo_stateField (wfw_state w)) = Ok s ∧
    (nwo_version (wfw_state w) <= Z.of_nat (length (stream_events m s)))%Z ∧
    nwo_workflowName (wfw_state w) = field_owner m t d (nwo_stateField (wfw_state w)).
Proof using Hplan.
  intros Hw. destruct (ps_write _ _ _ _ _ _ _ _ Hplan w Hw) as (m & Hwf & Hg & Ho & _).
  destruct (owner_at_facts _ _ _ _ _ Hwf Ho) as (? & ? & _ & ? & s & ? & ?). by exists m, s.
Qed.

Lemma entries_for ents :
  Forall2 (entry_of_write n) writes ents → Forall2 (entry_for t d n) (effect_of <$> writes) ents.
Proof using Hplan.
  intros H. apply Forall2_fmap_l. apply Forall2_same_length_lookup. split; [by eapply Forall2_length|].
  intros i w entry Hi He. destruct (write_facts w) as (m & s & _ & _ & Ht & Hd & _); [by eapply list_elem_of_lookup_2|].
  destruct (Forall2_lookup_lr _ _ _ _ _ _ H Hi He) as (Hs & _ & ev & Hev & _ & Hp).
  rewrite Ht, Hd in Hs. rewrite Hd in Hp. split; [done|]. by exists ev.
Qed.

Lemma plan_batch_ok s main ents :
  namedWorkflowStream t d n = Ok s → main_entry s (nws_version state) p main →
  Forall2 (entry_of_write n) writes ents → batch_ok (main :: ents).
Proof using Type*.
  intros Hs (Hms & _ & ev & Hev & Hes & _) Hents. destruct (strings3 _ _ _ Hstrings) as (? & ? & ?). split.
  - unfold entry_streams. rewrite fmap_cons. apply NoDup_cons. split.
    + intros (entry & E & [i Hi]%list_elem_of_lookup)%list_elem_of_fmap. rewrite Hms in E.
      destruct (Forall2_lookup_r _ _ _ _ _ Hents Hi) as (w & Hw%list_elem_of_lookup_2 & Ho & _).
      destruct (write_facts w Hw) as (m & s' & _ & _ & Ht & Hd & _). rewrite Ht, Hd, <-E in Ho.
      eapply workflow_families_disjoint; [..|exact Hs|exact Ho]; try done. by apply write_field_wf.
    + apply (entries_nodup t d n (effect_of <$> writes)); [done|done| |by apply entries_for|by eapply ps_nodup].
      intros e (w & -> & Hw)%list_elem_of_fmap. by apply write_field_wf.
  - intros entry He ev' Hev'. apply elem_of_cons in He as [->|[i Hi]%list_elem_of_lookup].
    + rewrite Hev in Hev'. apply list_elem_of_singleton in Hev' as ->. by rewrite Hms.
    + destruct (Forall2_lookup_r _ _ _ _ _ Hents Hi) as (w & _ & _ & _ & ev2 & Hev2 & Hs2 & _).
      rewrite Hev2 in Hev'. by apply list_elem_of_singleton in Hev' as ->.
Qed.

Section checked.
Context (s : jstr) (main : AppendEntry) (ents : list AppendEntry).
Hypothesis (Hs : namedWorkflowStream t d n = Ok s) (Hmain : main_entry s (nws_version state) p main).
Hypothesis (Hents : Forall2 (entry_of_write n) writes ents) (Hchecked : check_entries m3 (main :: ents) = Ok tt).

(** The definition was not changed since it was read ... *)
Lemma definition_unmoved m : grows m0 m → grows m m3 → in_force m t d n = in_force m3 t d n.
Proof using Type*.
  intros H1 H2. destruct (state_at_facts t doctype n state m0 (oi_streams _ Hinv0) Hstate)
    as (_ & _ & _ & (s' & Hs' & Hv) & _).
  rewrite Hs in Hs'. injection Hs' as <-. destruct Hmain as (Hms & Hmv & _).
  assert (E : stream_events m0 s = stream_events m3 s).
  { eapply still_exact; [exact Hgrows|exact Hv|]. rewrite <-Hmv, <-Hms.
    by eapply (proj1 (check_entries_ok _ _ _) Hchecked); left. }
  unfold in_force. rewrite Hs. rewrite (log_of_eq m m3 s); [done|]. by rewrite (grows_pinched m0 m m3 s).
Qed.

(** ... and neither was the owner of a field that is written. *)
Lemma owner_unmoved w : w ∈ writes → field_owner m3 t d (nwo_stateField (wfw_state w)) = nwo_workflowName (wfw_state w).
Proof using Type*.
  intros Hw. destruct (write_facts w Hw) as (m & o & Hwf & Hg & Ht & Hd & Ho & Hv & ->).
  apply list_elem_of_lookup in Hw as [i Hi]. destruct (Forall2_lookup_l _ _ _ _ _ Hents Hi) as (entry & He & Ho' & Hev & _).
  apply list_elem_of_lookup_2 in He. rewrite Ht, Hd, Ho in Ho'. injection Ho' as Ho'.
  assert (E : stream_events m o = stream_events m3 o).
  { eapply still_exact; [exact Hg|exact Hv|]. rewrite <-Hev, Ho'.
    by eapply (proj1 (check_entries_ok _ _ _) Hchecked); right. }
  unfold field_owner. rewrite Ho. by rewrite (log_of_eq m m3 o).
Qed.

Lemma plan_effects_ok : effects_ok t d n new (effect_of <$> writes) m3.
Proof using Type*.
  assert (Hw : ∀ f a, jm_get f (effect_of <$> writes) = Some a →
    ∃ w, w ∈ writes ∧ nwo_stateField (wfw_state w) = f ∧ wfw_action w = a).
  { intros f a (w & E & Hw)%jm_get_elem_1%list_elem_of_fmap. injection E as -> ->. by exists w. }
  destruct (strings3 _ _ _ Hstrings) as (? & ? & ?). split.
  - intros f (w & Hin & <- & Ha)%Hw. destruct (ps_write _ _ _ _ _ _ _ _ Hplan w Hin) as (_ & _ & _ & _ & H').
    rewrite Ha in H'. destruct H' as (Hn & Hb & Hd). rewrite owner_unmoved by done. split; [done|]. congruence.
  - intros f (w & Hin & <- & Ha)%Hw. destruct (ps_write _ _ _ _ _ _ _ _ Hplan w Hin) as (_ & _ & _ & _ & H').
    rewrite Ha in H'. destruct H' as (Hn & Hb). by rewrite owner_unmoved.
  - intros f Hf Hnone. destruct (ps_after _ _ _ _ _ _ _ _ Hplan f Hf) as [E|(m & Hi & Hg1 & Hg2 & Ho)]; [by rewrite E in Hnone|].
    rewrite <-(definition_unmoved m) by done. apply (oi_owner _ Hi); [|done].
    destruct new as [w'|]; [|done]. injection Hf as <-. repeat constructor; try done. by apply Hnew.
  - intros f Hf Hne. destruct (in_force m3 t d n) as [w|] eqn:Ew; [|done]. injection Hf as <-.
    destruct (state_at_facts t doctype n state m0 (oi_streams _ Hinv0) Hstate) as (_ & _ & _ & _ & Hdef).
    rewrite (definition_unmoved m0), Ew in Hdef by done. destruct Hdef as [Hdef|[? _]]; [|done].
    destruct (ps_before _ _ _ _ _ _ _ _ Hplan (nwd_stateField w)) as [?|(m & Hi & Hg1 & Hg2 & Ho)];
      [by rewrite Hdef|rewrite Hdef; by apply not_eq_sym|done|].
    exfalso. rewrite <-(definition_unmoved m) in Ew by done.
    assert (field_owner m t d (nwd_stateField w) = Some n) as Ho'; [|by rewrite Ho in Ho'].
    apply (oi_owner _ Hi); [|by rewrite Ew]. repeat constructor; try done. by eapply (oi_fields _ Hi t d n w).
Qed.
End checked.

Lemma committed_inv m' : committed state p writes m3 m' → ownership_inv m'.
Proof using Type*.
  intros (s & main & ents & saved & Hs & Hmain & Hents & Hck & Hw).
  destruct (state_at_facts t doctype n state m0 (oi_streams _ Hinv0) Hstate) as (Ht & Hd & Hn & _ & _).
  rewrite Ht, Hd, Hn in Hs. rewrite Hn in Hents.
  assert (Hev : ∃ ev, ae_events main = [ev] ∧ e_payload ev = p) by (destruct Hmain as (_ & _ & ev & ? & _ & ?); by exists ev).
  assert (Hfields : wf_strings ((effect_of <$> writes).*1)).
  { apply Forall_forall. intros f (e & -> & (w & -> & Hin)%list_elem_of_fmap)%list_elem_of_fmap. by apply write_field_wf. }
  assert (Hdef : definition_change d n p ≠ None ∧ ∀ d' n', (d', n') ≠ (d, n) → definition_change d' n' p = None)
    by (by rewrite Hchange).
  apply (change_keeps_inv t d n new (effect_of <$> writes) m3 m' Hstrings); [|exact Hnew|exact Hinv3|apply Hw| |].
  - by eapply plan_effects_ok.
  - intros t' d' n' Hstr. rewrite (in_force_after t d n s p main ents (effect_of <$> writes) saved m3 m'); try done.
    + by rewrite Hchange.
    + apply Hmain.
    + by apply entries_for.
    + by eapply ps_nodup.
  - intros t' d' f' Hstr. apply (field_owner_after t d n s p main ents (effect_of <$> writes) saved m3 m'); try done.
    + apply Hmain.
    + by apply entries_for.
    + by eapply ps_nodup.
Qed.

End commit.

(** ** Calls *)

Lemma jstr_wf_trim s : jstr_wf s → jstr_wf (trim s).
Proof.
  intros H. unfold trim, trim_end, jstr_wf. apply Forall_reverse.
  destruct (trim_start_suffix (reverse (trim_start s))) as [p2 E2].
  destruct (trim_start_suffix s) as [p1 E1].
  assert (H1 : jstr_wf (trim_start s)) by (unfold jstr_wf in *; rewrite E1 in H; by apply Forall_app in H as [_ H]).
  apply (Forall_reverse _ (trim_start s)) in H1. unfold jstr_wf in H1. rewrite E2 in H1.
  by apply Forall_app in H1 as [_ H1].
Qed.

(** Names, fields and tenants are strings of code units, as all strings are. *)
Definition options_wf (options : WorkflowServiceOptions) : Prop :=
  ∀ name t doctype, preWorkflowDocTypeFor options name t = Ok doctype →
    jstr_wf (dt_name doctype) ∧ ∀ w, w ∈ default [] (dt_workflows doctype) → jstr_wf (nwd_stateField w).

Definition actor_wf (actor : Actor) : Prop := jstr_wf (default DEFAULT_TENANT_ID (actor_tenantId actor)).

Definition save_wf (command : SaveWorkflowDefinitionCommand) : Prop :=
  actor_wf (swc_actor command) ∧ jstr_wf (nwd_name (swc_workflow command)) ∧
  jstr_wf (nwd_stateField (swc_workflow command)).

Definition clear_wf (command : ClearWorkflowDefinitionCommand) : Prop :=
  actor_wf (cwc_actor command) ∧ jstr_wf (cwc_workflowName command).

Lemma authorized_tenant options actor tenantId t :
  authorizeAdministration options actor tenantId = Ok t → t = default DEFAULT_TENANT_ID (actor_tenantId actor).
Proof.
  unfold authorizeAdministration, authorizeWorkflowAdministration, resolveWorkflowTenant.
  intros H. step_ok H as u Hu. step_ok H as u' Hu'. injection H as <-.
  apply ensure_ok in Hu'. by apply bool_decide_eq_true in Hu'.
Qed.

Lemma normalized_names doctype w limits w' :
  normalizeNamedWorkflowDefinition doctype w limits = Ok w' →
  nwd_name w' = trim (nwd_name w) ∧ nwd_stateField w' = trim (nwd_stateField w).
Proof.
  unfold normalizeNamedWorkflowDefinition. intros H.
  step_ok H as n Hn. step_ok H as l Hl. step_ok H as f Hf. destruct (field_named doctype f); [|done].
  step_ok H as states Hs. step_ok H as u1 H1. step_ok H as i Hi. step_ok H as u2 H2. step_ok H as m Hm.
  step_ok H as u3 H3. step_ok H as ts Hts. step_ok H as u4 H4. step_ok H as u5 H5. injection H as <-.
  cbn [nwd_name nwd_stateField]. unfold normalizeStableId, stable_text in Hn. step_ok Hn as n' Hn'.
  step_ok Hn as u6 H6. injection Hn as <-. by apply required_text_ok in Hn' as [-> _], Hf as [-> _].
Qed.

Section calls.
Context `{Collation} (options : WorkflowServiceOptions) (ids clock : nat → jstr).
Context (env : nat → streams_map → streams_map) (G : nat → streams_map → Prop).
Context `{He : !Environment env grows G ownership_inv}.
#[local] Abbreviation sees := (Interference.sees G).
#[local] Abbreviation outcome := (Interference.outcome grows G ownership_inv).
Hypothesis (Hoptions : options_wf options).

(** The write phase of both calls. *)
Lemma write_phase t n doctype state new p actor metadata m0 s :
  wf_strings [t; dt_name doctype; n] →
  (∀ w, w ∈ default [] (dt_workflows doctype) → jstr_wf (nwd_stateField w)) →
  (∀ w, new = Some w → jstr_wf (nwd_stateField w)) →
  definition_change (dt_name doctype) n p = Some new →
  (∀ d' n', (d', n') ≠ (dt_name doctype, n) → definition_change d' n' p = None) →
  ownership_inv m0 → state_at t doctype n state m0 → sees s → grows m0 (cl_store s) →
  outcome (cl_store s)
    ((writes ← planFieldOwnershipChange env t (dt_name doctype) n (nwd_stateField <$> nws_workflow state)
                 (nwd_stateField <$> new);
      appendAndFold ids clock env state actor metadata p writes) s).
Proof using He.
  intros Hstr Hstatic Hnew Hchange Hother Hi0 Hst Hs Hg0.
  destruct (state_at_facts t doctype n state m0 (oi_streams _ Hi0) Hst) as (Ht & Hd & Hn & _ & _).
  eapply (outcome_quiet He); [by eapply quiet_planFieldOwnershipChange|done|].
  intros writes s1 Hs1 Hg1 Hplan.
  assert (Hi1 : ownership_inv (cl_store s1)) by (by eapply env_inv).
  assert (Hsays : ∀ m3, grows (cl_store s1) m3 → plan_says t (dt_name doctype) n (nwd_stateField <$> nws_workflow state)
    (nwd_stateField <$> new) writes m0 m3).
  { intros m3 Hg3. destruct (plan_says_intro _ _ _ _ _ _ _ _ m3 Hi1 Hg3 Hplan) as [P1 P2 P3 P4]. split; [done|done| |].
    - intros a Ha. destruct (P3 a Ha) as [?|(m & ? & ? & ? & ?)]; [by left|right; exists m; split_and!; try done; by etrans].
    - intros b Hb Hne. destruct (P4 b Hb Hne) as [?|(m & ? & ? & ? & ?)]; [by left|right; exists m; split_and!; try done; by etrans]. }
  pose proof (appendAndFold_run ids clock env G state actor metadata p writes s1 Hs1) as Hrun.
  destruct (appendAndFold ids clock env state actor metadata p writes s1) as [r s2].
  destruct Hrun as (m & Hm & Hgm & Hres).
  { intros o main ents. rewrite Ht, Hd, Hn. intros Ho Hmain Hents.
    apply (plan_batch_ok t n doctype state p new writes m0 (cl_store s1)) with (s := o); try done; [by etrans|by apply Hsays]. }
  exists m. cbn [snd]. split_and!; [done|done| |].
  - destruct Hres as [->|(o & main & ents & saved & _ & _ & _ & _ & Hw)]; [reflexivity|].
    intros x. by eapply batch_written_prefix.
  - destruct Hres as [->|Hc]; [by eapply env_inv|].
    eapply (committed_inv t n doctype state p new writes m0 m); try done.
    + by eapply env_inv.
    + etrans; [exact Hg0|]. by etrans.
    + by apply Hsays.
Qed.

Lemma save_outcome command s :
  save_wf command → sees s → outcome (cl_store s) (saveWorkflow options ids clock env command s).
Proof using He Hoptions.
  intros (Hactor & Hname & Hfield) Hs. unfold saveWorkflow.
  apply (outcome_lift He); [done|]. intros t Ht%authorized_tenant.
  apply (outcome_lift He); [done|]. intros doctype Hdt. destruct (Hoptions _ _ _ Hdt) as [Hd Hstatic].
  apply (outcome_lift He); [done|]. intros w [Hwn Hwf]%normalized_names.
  apply (outcome_lift He); [done|]. intros roles _. apply (outcome_lift He); [done|]. intros _ _.
  eapply (outcome_quiet He); [by eapply quiet_stateFor|done|]. intros state s1 Hs1 Hg1 Hstate. cbn beta in Hstate.
  apply (outcome_lift He); [done|]. intros _ _.
  eapply (outcome_quiet He); [by eapply quiet_effectiveDocType|done|]. intros effective s2 Hs2 Hg2 _.
  apply (outcome_lift He); [done|]. intros _ _.
  destruct (_ && _); [by apply (outcome_here He)|].
  apply (write_phase t (nwd_name w) doctype state (Some w) _ _ _ (cl_store s1) s2); try done.
  - repeat constructor; [|done|]; subst; [done|]. rewrite Hwn. by apply jstr_wf_trim.
  - intros w' [= <-]. rewrite Hwf. by apply jstr_wf_trim.
  - cbn. by rewrite !bool_decide_true.
  - intros d' n' Hne. cbn. destruct (bool_decide_reflect (dt_name doctype = d')) as [<-|]; [|done].
    rewrite bool_decide_false; [done|]. intros <-. by apply Hne.
  - by eapply env_inv.
Qed.

Lemma clear_outcome command s :
  clear_wf command → sees s → outcome (cl_store s) (clearWorkflow options ids clock env command s).
Proof using He Hoptions.
  intros (Hactor & Hname) Hs. unfold clearWorkflow.
  apply (outcome_lift He); [done|]. intros t Ht%authorized_tenant.
  apply (outcome_lift He); [done|]. intros doctype Hdt. destruct (Hoptions _ _ _ Hdt) as [Hd Hstatic].
  eapply (outcome_quiet He); [by eapply quiet_stateFor|done|]. intros state s1 Hs1 Hg1 Hstate. cbn beta in Hstate.
  apply (outcome_lift He); [done|]. intros _ _.
  destruct (planWorkflowDefinitionClear state); [by apply (outcome_here He)|].
  destruct (state_at_facts t doctype _ state _ (oi_streams _ (env_inv _ _ Hs1)) Hstate) as (_ & _ & Hn & _ & _).
  rewrite Hn. apply (write_phase t (cwc_workflowName command) doctype state None _ _ _ (cl_store s1) s1); try done.
  - repeat constructor; [|done|done]. by subst.
  - cbn. by rewrite !bool_decide_true.
  - intros d' n' Hne. cbn. destruct (bool_decide_reflect (dt_name doctype = d')) as [<-|]; [|done].
    rewrite bool_decide_false; [done|]. intros <-. by apply Hne.
  - by eapply env_inv.
Qed.
End calls.

(** ** Histories *)

(** A stream of no workflow and of no state field. *)
Definition foreign_stream (s : jstr) : Prop :=
  ∀ t d x, wf_strings [t; d; x] → namedWorkflowStream t d x ≠ Ok s ∧ namedWorkflowStateFieldStream t d x ≠ Ok s.

(** The successive states of a store that clients use through any number of
    workflow services, their calls interleaved in any way: a call reads states of
    the history in order, and its batch meets the newest. *)
Inductive workflow_history : list streams_map → Prop :=
| history_empty : workflow_history [[]]
| history_save `{Collation} h options ids clock env at_ command start r s :
    workflow_history h → options_wf options → save_wf command → call_sees h at_ env start →
    saveWorkflow options ids clock env command (new_client start) = (r, s) →
    S (at_ (cl_tick s)) = length h → workflow_history (h ++ [cl_store s])
| history_clear `{Collation} h options ids clock env at_ command start r s :
    workflow_history h → options_wf options → clear_wf command → call_sees h at_ env start →
    clearWorkflow options ids clock env command (new_client start) = (r, s) →
    S (at_ (cl_tick s)) = length h → workflow_history (h ++ [cl_store s])
| history_other h m entries r m' :
    workflow_history (h ++ [m]) → batch_ok entries → (∀ s, s ∈ entry_streams entries → foreign_stream s) →
    appendBatch entries m = (r, m') → workflow_history ((h ++ [m]) ++ [m']).

Lemma foreign_batch m entries r m' :
  ownership_inv m → batch_ok entries → (∀ s, s ∈ entry_streams entries → foreign_stream s) →
  appendBatch entries m = (r, m') → ownership_inv m' ∧ grows m m'.
Proof.
  intros Hi Hb Hf Hrun. pose proof (appendBatch_cases entries m (oi_streams _ Hi) Hb) as Hc. rewrite Hrun in Hc.
  destruct r as [saved|e]; [|subst; split; [done|reflexivity]].
  split; [|by intros s; eapply batch_written_prefix]. destruct Hc as (Hwf & _ & Hout).
  assert (Hsame : ∀ t d x s, wf_strings [t; d; x] →
    (namedWorkflowStream t d x = Ok s ∨ namedWorkflowStateFieldStream t d x = Ok s) → log_of m' s = log_of m s).
  { intros t d x s Hw Hs. apply log_of_eq, Hout. intros Hin. destruct (Hf s Hin t d x Hw). by destruct Hs. }
  assert (H1 : ∀ t d n, wf_strings [t; d; n] → in_force m' t d n = in_force m t d n).
  { intros t d n Hw. unfold in_force. destruct (namedWorkflowStream t d n) as [s|] eqn:E; [|done].
    rewrite (Hsame t d n s); auto. }
  assert (H2 : ∀ t d f, wf_strings [t; d; f] → field_owner m' t d f = field_owner m t d f).
  { intros t d f Hw. unfold field_owner. destruct (namedWorkflowStateFieldStream t d f) as [s|] eqn:E; [|done].
    rewrite (Hsame t d f s); auto. }
  destruct Hi as [_ Hfields Howner]. split; [done| |].
  - intros t d n w Hw. rewrite H1 by done. by apply Hfields.
  - intros t d n f Hw. assert (wf_strings [t; d; n] ∧ wf_strings [t; d; f]) as [Hw1 Hw2].
    { split_strings. unfold wf_strings. split; repeat constructor; done. }
    rewrite H1, H2 by done. by apply Howner.
Qed.

Lemma workflow_history_ok h : workflow_history h → history_ok grows ownership_inv h.
Proof.
  induction 1 as [|C h options ids clock env at_ command start r s _ IH Hopt Hcmd Hsees Hrun Hlen
    |C h options ids clock env at_ command start r s _ IH Hopt Hcmd Hsees Hrun Hlen|h m entries r m' _ IH Hb Hf Hrun].
  - by apply (history_ok_one grows), ownership_inv_nil.
  - destruct (call_environment _ _ h at_ env start IH Hsees) as [He Hstart].
    pose proof (save_outcome options ids clock env _ Hopt command (new_client start) Hcmd Hstart) as Ho.
    rewrite Hrun in Ho. by eapply (history_call grows).
  - destruct (call_environment _ _ h at_ env start IH Hsees) as [He Hstart].
    pose proof (clear_outcome options ids clock env _ Hopt command (new_client start) Hcmd Hstart) as Ho.
    rewrite Hrun in Ho. by eapply (history_call grows).
  - assert (Hl : (h ++ [m]) !! pred (length (h ++ [m])) = Some m).
    { rewrite length_app, Nat.add_1_r. cbn [pred length]. by apply list_lookup_middle. }
    assert (Hi : ownership_inv m) by (by eapply (proj1 IH)).
    destruct (foreign_batch m entries r m' Hi Hb Hf Hrun) as [Hi' Hg]. by eapply (history_ok_snoc grows).
Qed.

(** C29: However the calls of any number of clients interleave, a state field is owned
    by a workflow exactly when that workflow's definition in force uses it; so two
    workflows of a doctype never share a state field. *)
Theorem workflow_fields_exclusive h m t d n n' f :
  workflow_history h → m ∈ h → wf_strings [t; d; n; f] → jstr_wf n' →
  (field_owner m t d f = Some n ↔ nwd_stateField <$> in_force m t d n = Some f) ∧
  (nwd_stateField <$> in_force m t d n = Some f → nwd_stateField <$> in_force m t d n' = Some f → n = n').
Proof.
  intros Hh [i Hi]%list_elem_of_lookup Hw Hn'. pose proof (proj1 (workflow_history_ok h Hh) i m Hi) as Hinv.
  split; [by apply (oi_owner _ Hinv)|]. intros H1 H2.
  apply (oi_owner _ Hinv) in H1; [|done]. apply (oi_owner _ Hinv) in H2; [congruence|].
  split_strings. unfold wf_strings. repeat constructor; done.
Qed.

(** ** Witnesses *)

(** A doctype with two text fields, whose only workflow [zz] moves [state]. *)
Definition sample_text_field (name : jstr) : FieldDefinition :=
  plain_field name FText false false false None.

Definition sample_two_states (name field : jstr) : NamedWorkflowDefinition :=
  {| nwd_name := name; nwd_label := None; nwd_stateField := field; nwd_initialState := js "Open";
     nwd_states := [js "Open"; js "Done"];
     nwd_transitions := [sample_transition (js "finish") (js "Open") (js "Done") None None] |}.

Definition sample_static_doctype : DocTypeDefinition :=
  with_workflows (plain_doctype (js "Task") [sample_text_field (js "state"); sample_text_field (js "phase")]) (Some [sample_two_states (js "zz") (js "state")]).

Definition sample_service : WorkflowServiceOptions :=
  {| wso_registry := {| reg_doctypes := [(js "Task", sample_static_doctype)]; reg_resourceRoles := [] |};
     wso_adminRoles := None; wso_preWorkflowDocTypeResolver := None; wso_roleResolver := None;
     wso_limits := no_workflow_limits; wso_stringify := λ w, nwd_name w ++ js "/" ++ nwd_stateField w |}.

Definition sample_admin : Actor :=
  {| actor_id := js "ada"; actor_roles := [SYSTEM_MANAGER_ROLE]; actor_tenantId := None; actor_email := None |}.

Definition sample_save (name field : jstr) : SaveWorkflowDefinitionCommand :=
  {| swc_actor := sample_admin; swc_doctype := js "Task"; swc_workflow := sample_two_states name field;
     swc_tenantId := None; swc_expectedVersion := None; swc_metadata := None |}.

Definition sample_clear (name : jstr) : ClearWorkflowDefinitionCommand :=
  {| cwc_actor := sample_admin; cwc_doctype := js "Task"; cwc_workflowName := name; cwc_tenantId := None;
     cwc_expectedVersion := None; cwc_metadata := None |}.

Definition sample_event_ids (n : nat) : jstr := js "evt_" ++ dec (N.of_nat n).
Definition sample_event_clock (_ : nat) : jstr := js "2026-01-01T00:00:00.000Z".

(** The calls of a client that is alone, from a store. *)
Definition save_alone (command : SaveWorkflowDefinitionCommand) (m : streams_map) :=
  saveWorkflow (H := code_unit_collation) sample_service sample_event_ids sample_event_clock (λ _, id) command
    (new_client m).
Definition clear_alone (command : ClearWorkflowDefinitionCommand) (m : streams_map) :=
  clearWorkflow sample_service sample_event_ids sample_event_clock (λ _, id) command (new_client m).
Definition effective_alone (m : streams_map) :=
  effectiveDocType (H := code_unit_collation) sample_service (λ _, id) (js "Task") DEFAULT_TENANT_ID None
    (new_client m).

Definition sample_cleared : streams_map := Eval vm_compute in cl_store (clear_alone (sample_clear (js "zz")) []).2.
Definition sample_resaved : streams_map :=
  Eval vm_compute in cl_store (save_alone (sample_save (js "aa") (js "state")) sample_cleared).2.

Lemma sample_service_wf : options_wf sample_service.
Proof.
  intros name t doctype. unfold preWorkflowDocTypeFor, registry_get, sample_service. cbn [wso_registry wso_preWorkflowDocTypeResolver reg_doctypes jm_get].
  destruct (decide (name = js "Task")); [|discriminate]. intros [= <-]. split; [by repeat constructor|].
  intros w Hw. cbn in Hw. apply list_elem_of_singleton in Hw as ->. by repeat constructor.
Qed.

(** The history of the first sample. *)
Lemma sample_cleared_history : workflow_history ([[]] ++ [sample_cleared]).
Proof.
  pose (run := clearWorkflow sample_service sample_event_ids sample_event_clock (λ _ _, []) (sample_clear (js "zz"))
    (new_client [])).
  replace sample_cleared with (cl_store run.2) by (by vm_compute).
  eapply (history_clear (H := code_unit_collation) [[]] sample_service sample_event_ids sample_event_clock (λ _ _, [])
    (λ _, 0) (sample_clear (js "zz")) [] run.1 run.2).
  - apply history_empty.
  - apply sample_service_wf.
  - by repeat constructor.
  - repeat split; done.
  - by vm_compute.
  - done.
Qed.

Lemma sample_resaved_history : workflow_history (([[]] ++ [sample_cleared]) ++ [sample_resaved]).
Proof.
  pose (run := saveWorkflow (H := code_unit_collation) sample_service sample_event_ids sample_event_clock
    (λ _ _, sample_cleared) (sample_save (js "aa") (js "state")) (new_client sample_cleared)).
  replace sample_resaved with (cl_store run.2) by (by vm_compute).
  eapply (history_save (H := code_unit_collation) ([[]] ++ [sample_cleared]) sample_service sample_event_ids
    sample_event_clock (λ _ _, sample_cleared) (λ _, 1) (sample_save (js "aa") (js "state")) sample_cleared run.1 run.2).
  - apply sample_cleared_history.
  - apply sample_service_wf.
  - by repeat constructor.
  - repeat split; done.
  - by vm_compute.
  - done.
Qed.

Lemma workflow_fields_exclusive_witness :
  field_owner sample_resaved DEFAULT_TENANT_ID (js "Task") (js "state") = Some (js "aa").
Proof.
  apply (workflow_fields_exclusive ([[]] ++ [sample_cleared] ++ [sample_resaved]) sample_resaved DEFAULT_TENANT_ID
    (js "Task") (js "aa") (js "zz") (js "state")).
  - exact sample_resaved_history.
  - by repeat constructor.
  - by repeat constructor.
  - by repeat constructor.
  - by vm_compute.
Defined.

(** ** A finding *)

