(* ===== verification/Naming.v ===== *)
(** * Naming: series of document names

    Models [core/naming.ts]: the normalisation of a naming strategy, the compiler
    of naming patterns, the rendering of a name, the identity of a counter and the
    scan for the next allowed names.  The text of a number, the parsing of the
    clock's text to a date and the lower case of a character are the host's.
    Numbers of a strategy are integers ([Z]), kept within the safe range where the
    code checks it. *)

From S2P Require Export Normalize Types SafeRegex Streams Calendar.

(** ** Data *)

Definition NAMING_MAX_PATTERN_LENGTH : nat := 256.
Definition MAX_PATTERN_TOKENS : nat := 32.
Definition MAX_IDENTIFIER_LENGTH : nat := 255.
Definition MAX_FIELD_TOKEN_LENGTH : nat := 128.
Definition MAX_COUNTER_LENGTH : nat := 64.
Definition MAX_EXCLUSIONS : nat := 100.
Definition MAX_EXCLUSION_TEXT_LENGTH : nat := 255.
Definition MAX_PADDING : nat := 18.
Definition DEFAULT_NAMING_MAX_ATTEMPTS : Z := 10000.

Inductive DateToken := DYYYY | DYY | DMM | DDD | DDDD | DWW.
#[export] Instance DateToken_eq_dec : EqDecision DateToken.
Proof. solve_decision. Defined.

Inductive NamingPatternToken :=
| TLiteral (v : jstr)
| TSequence (width : option nat)
| TDate (v : DateToken)
| TTenant
| TDoctype
| TField (field : jstr).
#[export] Instance NamingPatternToken_eq_dec : EqDecision NamingPatternToken.
Proof. solve_decision. Defined.

Record NamingRenderContext := { nrc_tenantId : jstr; nrc_now : jstr }.

Record NamingSeriesIdentity := { nsi_counter : jstr; nsi_scope : jstr; nsi_documentName : jstr }.

Record NamingCandidate := { nc_value : Z; nc_name : jstr }.

Record NamingCandidateScan := { ncs_candidates : list NamingCandidate; ncs_attempts : Z }.

Definition invalidNaming (status : Z) : error := FrameworkError NAMING_INVALID status.

(** ** Checked text and numbers *)

(** [requiredText(value, label, maxLength)]. *)
Definition naming_text (maxLength : nat) (v : jstr) : res jstr :=
  _ ← ensure (negb (bool_decide (trim v = []) || Nat.ltb maxLength (length v) || hasUnsafeControlCharacter v))
        (invalidNaming 400);
  Ok v.

(** [optionalText(value, label, maxLength, key)]. *)
Definition optionalText (maxLength : nat) (v : option jstr) : res (option jstr) :=
  optional_res (naming_text maxLength) v.

(** [optionalInteger(value, label, min, max, key)]. *)
Definition optionalInteger (min max : Z) (v : option Z) : res (option Z) :=
  optional_res (λ n, _ ← ensure (is_safe_integer n && (min <=? n)%Z && (n <=? max)%Z) (invalidNaming 400); Ok n) v.

(** [safeAdd(value, increment)]. *)
Definition safeAdd (v increment : Z) : res Z :=
  let result := (v + increment)%Z in
  _ ← ensure (is_safe_integer result) (invalidNaming 409);
  Ok result.

(** [uniqueStrings(values, label, maxLength)]. *)
Definition uniqueStrings (maxLength : nat) (values : list jstr) : res (list jstr) :=
  normalized ← map_res (naming_text maxLength) values;
  _ ← ensure (bool_decide (NoDup normalized)) (invalidNaming 400);
  Ok normalized.

(** ** Exclusions *)

Definition regex_flags (flag_i : bool) : option jstr := if flag_i then Some (js "i") else None.

(** The body of the loop of [normalizeExclusions]. *)
Definition normalize_exclusion (exclusion : NamingSeriesExclusion) : res NamingSeriesExclusion :=
  match exclusion with
  | ExRange from to =>
      _ ← ensure (is_safe_integer from && is_safe_integer to && (0 <=? from)%Z && (from <=? to)%Z) (invalidNaming 400);
      Ok exclusion
  | ExRegex pattern flag_i => _ ← compileSafeRegex pattern (regex_flags flag_i); Ok exclusion
  | ExExact v => w ← naming_text MAX_EXCLUSION_TEXT_LENGTH v; Ok (ExExact w)
  | ExPrefix v => w ← naming_text MAX_EXCLUSION_TEXT_LENGTH v; Ok (ExPrefix w)
  | ExSuffix v => w ← naming_text MAX_EXCLUSION_TEXT_LENGTH v; Ok (ExSuffix w)
  | ExContains v => w ← naming_text MAX_EXCLUSION_TEXT_LENGTH v; Ok (ExContains w)
  end.

(** [normalizeExclusions(exclusions)]. *)
Definition normalizeExclusions (exclusions : list NamingSeriesExclusion) : res (list NamingSeriesExclusion) :=
  _ ← ensure (Nat.leb (length exclusions) MAX_EXCLUSIONS) (invalidNaming 400);
  map_res normalize_exclusion exclusions.

Inductive CompiledExclusion :=
| CExclusion (exclusion : NamingSeriesExclusion)
| CRegex (expression : SafeRegex).

(** [compileExclusions(exclusions)]. *)
Definition compileExclusions (exclusions : list NamingSeriesExclusion) : res (list CompiledExclusion) :=
  normalized ← normalizeExclusions exclusions;
  map_res (λ exclusion, match exclusion with
    | ExRegex pattern flag_i => expression ← compileSafeRegex pattern (regex_flags flag_i); Ok (CRegex expression)
    | _ => Ok (CExclusion exclusion)
    end) normalized.

(** [isExcluded(exclusions, value, name)]. *)
Definition excludes (lower : N → jstr) (v : Z) (name : jstr) (exclusion : CompiledExclusion) : bool :=
  match exclusion with
  | CExclusion (ExExact w) => bool_decide (name = w)
  | CExclusion (ExPrefix w) => starts_with name w
  | CExclusion (ExSuffix w) => ends_with name w
  | CExclusion (ExContains w) => includes name w
  | CExclusion (ExRange from to) => (from <=? v)%Z && (v <=? to)%Z
  | CExclusion (ExRegex _ _) => false
  | CRegex expression => matchesSafeRegex lower expression name
  end.

Definition isExcluded (lower : N → jstr) (exclusions : list CompiledExclusion) (v : Z) (name : jstr) : bool :=
  existsb (excludes lower v name) exclusions.

(** ** Patterns *)

Definition date_token_text (t : DateToken) : jstr :=
  match t with
  | DYYYY => js "YYYY" | DYY => js "YY" | DMM => js "MM" | DDD => js "DD" | DDDD => js "DDD" | DWW => js "WW"
  end.

Definition DATE_TOKENS : list DateToken := [DYYYY; DYY; DMM; DDD; DDDD; DWW].

(** [sequence:1] to [sequence:18]. *)
Definition sequence_text (width : nat) : jstr := js "sequence:" ++ dec (N.of_nat width).

(** [parsePatternToken(doctype, value)]. *)
Definition parsePatternToken (doctype : DocTypeDefinition) (v : jstr) : res NamingPatternToken :=
  if bool_decide (v = js "sequence") then Ok (TSequence None)
  else match List.find (λ width, bool_decide (v = sequence_text width)) (seq 1 18) with
  | Some width => Ok (TSequence (Some width))
  | None =>
  match List.find (λ t, bool_decide (v = date_token_text t)) DATE_TOKENS with
  | Some t => Ok (TDate t)
  | None =>
      if bool_decide (v = js "tenant") then Ok TTenant
      else if bool_decide (v = js "doctype") then Ok TDoctype
      else if starts_with v (js "field:") then
        field ← naming_text MAX_FIELD_TOKEN_LENGTH (drop 6 v);
        _ ← ensure (match find_field doctype field with Some _ => true | None => false end) (invalidNaming 400);
        Ok (TField field)
      else Throw (invalidNaming 400)
  end
  end.

Definition HASH : N := 35.
Definition OPEN_BRACE : N := 123.
Definition CLOSE_BRACE : N := 125.

(** [flushLiteral()]. *)
Definition flushLiteral (literal : jstr) (tokens : list NamingPatternToken) : list NamingPatternToken :=
  if bool_decide (literal = []) then tokens else tokens ++ [TLiteral literal].

(** The run of [#] at the start, and what follows it. *)
Fixpoint hashes (s : jstr) : nat * jstr :=
  match s with
  | c :: rest => if bool_decide (c = HASH) then let (n, rest) := hashes rest in (S n, rest) else (0, s)
  | [] => (0, s)
  end.

(** The text before the first closing brace, and what follows the brace. *)
Fixpoint until_close (s : jstr) : option (jstr * jstr) :=
  match s with
  | [] => None
  | c :: rest =>
      if bool_decide (c = CLOSE_BRACE) then Some ([], rest)
      else match until_close rest with Some (v, rest) => Some (c :: v, rest) | None => None end
  end.

Section compile.
Context (doctype : DocTypeDefinition).

(** The loop of [compileNamingPattern], on the rest of the pattern. *)
Fixpoint naming_loop (fuel : nat) (rest literal : jstr) (tokens : list NamingPatternToken)
    : res (list NamingPatternToken) :=
  match fuel with
  | 0 => Throw (FrameworkError PLAIN_ERROR 500)
  | S fuel =>
      match rest with
      | [] => Ok (flushLiteral literal tokens)
      | character :: rest' =>
          if bool_decide (character = HASH) then
            let tokens := flushLiteral literal tokens in
            let (width, rest) := hashes rest in
            _ ← ensure (Nat.leb width MAX_PADDING) (invalidNaming 400);
            naming_loop fuel rest [] (tokens ++ [TSequence (Some width)])
          else if bool_decide (character = OPEN_BRACE) then
            let tokens := flushLiteral literal tokens in
            match until_close rest' with
            | None => Throw (invalidNaming 400)
            | Some (v, rest) =>
                token ← parsePatternToken doctype v;
                naming_loop fuel rest [] (tokens ++ [token])
            end
          else if bool_decide (character = CLOSE_BRACE) then Throw (invalidNaming 400)
          else naming_loop fuel rest' (literal ++ [character]) tokens
      end
  end.

Definition is_sequence (token : NamingPatternToken) : bool := match token with TSequence _ => true | _ => false end.

(** [compileNamingPattern(doctype, strategy)]. *)
Definition compileNamingPattern (strategy : NamingSeriesStrategy) : res (list NamingPatternToken) :=
  let pattern := nss_pattern strategy in
  tokens ← naming_loop (S (length pattern)) pattern [] [];
  _ ← ensure (Nat.leb (length tokens) MAX_PATTERN_TOKENS) (invalidNaming 400);
  let sequenceTokens := filter (λ token, is_sequence token = true) tokens in
  _ ← ensure (Nat.eqb (length sequenceTokens) 1) (invalidNaming 400);
  Ok tokens.
End compile.

(** ** Normalisation *)

(** [/^[A-Za-z0-9][A-Za-z0-9_.-]*$/]. *)
Definition counter_text (s : jstr) : bool :=
  match s with
  | [] => false
  | c :: rest => is_alphanumeric c && forallb (λ c, is_alphanumeric c || bool_decide (c ∈ js "_.-")) rest
  end.

(** [assertCounterScopeIsVisible(strategy, compiled)]. *)
Definition assertCounterScopeIsVisible (strategy : NamingSeriesStrategy) (tokens : list NamingPatternToken)
    : res unit :=
  let fieldTokens := omap (λ token, match token with TField f => Some f | _ => None end) tokens in
  _ ← foldl_res (λ _ field, ensure (bool_decide (field ∈ fieldTokens)) (invalidNaming 400)) tt
        (default [] (nss_scopeFields strategy));
  let has t := bool_decide (t ∈ omap (λ token, match token with TDate t => Some t | _ => None end) tokens) in
  match default ResetNever (nss_reset strategy) with
  | ResetNever => Ok tt
  | ResetYear => ensure (has DYYYY) (invalidNaming 400)
  | ResetMonth => ensure (has DYYYY && has DMM) (invalidNaming 400)
  | ResetDay => ensure (has DYYYY && (has DDDD || has DMM && has DDD)) (invalidNaming 400)
  end.

(** The check of [targetField] in [assertSeriesDefinition]. *)
Definition target_field_ok (doctype : DocTypeDefinition) (targetField : jstr) : bool :=
  match find_field doctype targetField with
  | None => false
  | Some field => bool_decide (fd_type field = FText) && fd_readOnly field && fd_noCopy field
  end.

(** The check of a scope field. *)
Definition scope_field_ok (doctype : DocTypeDefinition) (field : jstr) : bool :=
  match find_field doctype field with
  | None => false
  | Some definition => negb (bool_decide (fd_type definition ∈ [FTable; FJson; FLongText]))
  end.

(** [assertSeriesDefinition(doctype, strategy)]. *)
Definition assertSeriesDefinition (doctype : DocTypeDefinition) (strategy : NamingSeriesStrategy) : res unit :=
  _ ← ensure (match nss_counter strategy with Some counter => counter_text counter | None => true end) (invalidNaming 400);
  _ ← ensure (match nss_targetField strategy with Some f => target_field_ok doctype f | None => true end) (invalidNaming 400);
  _ ← foldl_res (λ _ field, ensure (scope_field_ok doctype field) (invalidNaming 400)) tt
        (default [] (nss_scopeFields strategy));
  compiled ← compileNamingPattern doctype strategy;
  assertCounterScopeIsVisible strategy compiled.

(** The fields of a series, checked one by one. *)
Definition normalize_series (strategy : NamingSeriesStrategy) : res NamingSeriesStrategy :=
  pattern ← naming_text NAMING_MAX_PATTERN_LENGTH (nss_pattern strategy);
  targetField ← optionalText MAX_FIELD_TOKEN_LENGTH (nss_targetField strategy);
  counter ← optionalText MAX_COUNTER_LENGTH (nss_counter strategy);
  padding ← optionalInteger 1 (Z.of_nat MAX_PADDING) (nss_padding strategy);
  start ← optionalInteger 1 MAX_SAFE_INTEGER (nss_start strategy);
  step ← optionalInteger 1 MAX_SAFE_INTEGER (nss_step strategy);
  scopeFields ← optional_res (uniqueStrings MAX_FIELD_TOKEN_LENGTH) (nss_scopeFields strategy);
  exclusions ← optional_res normalizeExclusions (nss_exclusions strategy);
  maxAttempts ← optionalInteger 1 DEFAULT_NAMING_MAX_ATTEMPTS (nss_maxAttempts strategy);
  Ok {| nss_pattern := pattern; nss_targetField := targetField; nss_counter := counter; nss_padding := padding;
        nss_start := start; nss_step := step; nss_reset := nss_reset strategy; nss_scopeFields := scopeFields;
        nss_exclusions := exclusions; nss_maxAttempts := maxAttempts |}.

(** [normalizeNamingStrategy(doctype, strategy)]; the reset is one of the four
    values by its type. *)
Definition normalizeNamingStrategy (doctype : DocTypeDefinition) (strategy : NamingStrategy) : res NamingStrategy :=
  match strategy with
  | NamingSeries series =>
      normalized ← normalize_series series;
      _ ← assertSeriesDefinition doctype normalized;
      Ok (NamingSeries normalized)
  | _ => Ok strategy
  end.

(** [assertNamingStrategyDefinition(doctype)]. *)
Definition assertNamingStrategyDefinition (doctype : DocTypeDefinition) : res unit :=
  match dt_naming doctype with
  | Some strategy => _ ← normalizeNamingStrategy doctype strategy; Ok tt
  | None => Ok tt
  end.

(** ** Rendering *)

(** What the host decides: the date a text stands for, in milliseconds, the text
    of a number and the lower case of a character. *)
Class NamingHost := {
  nh_date : jstr → option Z;
  nh_number : num → jstr;
  nh_lower : N → jstr
}.

(** [String(n).padStart(width, "0")] of an integer. *)
Definition padded (width : nat) (n : Z) : jstr := pad_start0 width (dec_Z n).

(** [renderDateToken(date, token)]. *)
Definition renderDateToken (date : Z) (token : DateToken) : jstr :=
  match token with
  | DYYYY => padded 4 (utc_year date)
  | DYY => padded 2 (Z.rem (utc_year date) 100)
  | DMM => padded 2 (utc_month date + 1)
  | DDD => padded 2 (utc_date date)
  | DDDD => padded 3 (dayOfYear date)
  | DWW => padded 2 (isoWeek date)
  end.

(** [dateBucket(date, reset)]. *)
Definition dateBucket (date : Z) (reset : NamingSeriesReset) : jstr :=
  let year := padded 4 (utc_year date) in
  let month := padded 2 (utc_month date + 1) in
  match reset with
  | ResetNever | ResetYear => year
  | ResetMonth => year ++ js "-" ++ month
  | ResetDay => year ++ js "-" ++ month ++ js "-" ++ padded 2 (utc_date date)
  end.

Section rendering.
Context `{NamingHost}.

(** [parsedDate(value)]. *)
Definition parsedDate (v : jstr) : res Z :=
  match nh_date v with Some time => Ok time | None => Throw (invalidNaming 500) end.

(** [namingFieldValue(value, field)]. *)
Definition namingFieldValue (v : value) : res jstr :=
  text ← match v with
    | VStr s => Ok s
    | VNum n => Ok (nh_number n)
    | VBool b => Ok (js (if b then "true" else "false"))
    | _ => Throw (invalidNaming 422)
    end;
  let rendered := trim text in
  _ ← ensure (negb (bool_decide (rendered = []) || Nat.ltb MAX_FIELD_TOKEN_LENGTH (length rendered) ||
                    hasUnsafeControlCharacter rendered)) (invalidNaming 422);
  Ok rendered.

(** The text of a token. *)
Definition render_token (doctype : DocTypeDefinition) (strategy : NamingSeriesStrategy) (d : data)
    (context : NamingRenderContext) (date v : Z) (token : NamingPatternToken) : res jstr :=
  match token with
  | TLiteral text => Ok text
  | TSequence width => Ok (padded (default (Z.to_nat (default 4%Z (nss_padding strategy))) width) v)
  | TDate t => Ok (renderDateToken date t)
  | TTenant => Ok (nrc_tenantId context)
  | TDoctype => Ok (dt_name doctype)
  | TField field => namingFieldValue (vget field d)
  end.

(** [renderNamingCandidate(doctype, strategy, data, context, value, compiled)]. *)
Definition renderNamingCandidate (doctype : DocTypeDefinition) (strategy : NamingSeriesStrategy) (d : data)
    (context : NamingRenderContext) (v : Z) (compiled : list NamingPatternToken) : res jstr :=
  _ ← ensure (is_safe_integer v && (0 <=? v)%Z) (invalidNaming 409);
  date ← parsedDate (nrc_now context);
  parts ← map_res (render_token doctype strategy d context date v) compiled;
  let name := mjoin parts in
  _ ← ensure (negb (Nat.eqb (length name) 0 || Nat.ltb MAX_IDENTIFIER_LENGTH (length name) ||
                    hasUnsafeControlCharacter name)) (invalidNaming 409);
  Ok name.

(** One part of a scope. *)
Definition scope_part (d : data) (field : jstr) : res jstr :=
  text ← namingFieldValue (vget field d);
  encoded ← encodeURIComponent text;
  Ok (field ++ js "=" ++ encoded).

(** [resolveNamingSeriesIdentity(doctype, strategy, data, context)]. *)
Definition resolveNamingSeriesIdentity (doctype : DocTypeDefinition) (strategy : NamingSeriesStrategy) (d : data)
    (context : NamingRenderContext) : res NamingSeriesIdentity :=
  let counter := default (nss_pattern strategy) (nss_counter strategy) in
  dates ← match default ResetNever (nss_reset strategy) with
    | ResetNever => Ok []
    | reset => date ← parsedDate (nrc_now context); Ok [js "date=" ++ dateBucket date reset]
    end;
  fields ← map_res (scope_part d) (default [] (nss_scopeFields strategy));
  let scope := str_join (js "|") (dates ++ fields) in
  Ok {| nsi_counter := counter; nsi_scope := scope;
        nsi_documentName := dt_name doctype ++ js ":" ++ counter ++
          (if bool_decide (scope = []) then [] else js ":" ++ scope) |}.

(** ** Scanning *)

(** The loop of [scanNamingCandidates]: [attemptsLeft] is the limit less the
    attempts made. *)
Fixpoint scan_loop (render : Z → res jstr) (allowed : Z → jstr → bool) (step : Z) (count attemptsLeft : nat)
    (candidate : Z) (result : list NamingCandidate) : res (list NamingCandidate * nat) :=
  if Nat.leb count (length result) then Ok (result, attemptsLeft)
  else match attemptsLeft with
  | O => Throw (invalidNaming 409)
  | S attemptsLeft =>
      name ← render candidate;
      let result := if allowed candidate name then result ++ [{| nc_value := candidate; nc_name := name |}] else result in
      candidate ← safeAdd candidate step;
      scan_loop render allowed step count attemptsLeft candidate result
  end.

(** [scanNamingCandidates(input)]. *)
Definition scanNamingCandidates (doctype : DocTypeDefinition) (strategy : NamingSeriesStrategy) (d : data)
    (context : NamingRenderContext) (current count attemptLimit : option Z) : res NamingCandidateScan :=
  let count := default 1%Z count in
  _ ← ensure (is_safe_integer count && (1 <=? count)%Z && (count <=? 100)%Z) (invalidNaming 400);
  compiled ← compileNamingPattern doctype strategy;
  exclusions ← compileExclusions (default [] (nss_exclusions strategy));
  let step := default 1%Z (nss_step strategy) in
  let configuredAttemptLimit := default DEFAULT_NAMING_MAX_ATTEMPTS (nss_maxAttempts strategy) in
  let attemptLimit := default configuredAttemptLimit attemptLimit in
  _ ← ensure (is_safe_integer attemptLimit && (1 <=? attemptLimit)%Z && (attemptLimit <=? configuredAttemptLimit)%Z)
        (invalidNaming 400);
  candidate ← match current with
    | None => Ok (default 1%Z (nss_start strategy))
    | Some current => safeAdd current step
    end;
  out ← scan_loop (λ v, renderNamingCandidate doctype strategy d context v compiled)
    (λ v name, negb (isExcluded nh_lower exclusions v name)) step (Z.to_nat count) (Z.to_nat attemptLimit) candidate [];
  Ok {| ncs_candidates := out.1; ncs_attempts := attemptLimit - Z.of_nat out.2 |}.

(** [nextNamingCandidates(input)]. *)
Definition nextNamingCandidates (doctype : DocTypeDefinition) (strategy : NamingSeriesStrategy) (d : data)
    (context : NamingRenderContext) (current count : option Z) : res (list NamingCandidate) :=
  scan ← scanNamingCandidates doctype strategy d context current count None;
  Ok (ncs_candidates scan).
End rendering.

(** [namingTargetData(strategy, data, name)]. *)
Definition namingTargetData (strategy : NamingSeriesStrategy) (d : data) (name : jstr) : data :=
  match nss_targetField strategy with None => d | Some field => jm_set field (VStr name) d end.

(** [namingSeriesCurrentValue(value)]. *)
Definition namingSeriesCurrentValue (v : value) : option Z :=
  match v with
  | VNum n => match num_safe_integer n with Some z => if (0 <=? z)%Z then Some z else None | None => None end
  | _ => None
  end.

(** ** Compiled patterns *)

Definition is_literal (token : NamingPatternToken) : bool := match token with TLiteral _ => true | _ => false end.

Definition plain_char (c : N) : Prop := c ≠ HASH ∧ c ≠ OPEN_BRACE ∧ c ≠ CLOSE_BRACE.

Definition token_ok (doctype : DocTypeDefinition) (token : NamingPatternToken) : Prop :=
  match token with
  | TLiteral v => v ≠ [] ∧ Forall plain_char v
  | TSequence (Some width) => 1 ≤ width ≤ MAX_PADDING
  | TField f => naming_text MAX_FIELD_TOKEN_LENGTH f = Ok f ∧ is_Some (find_field doctype f) ∧ CLOSE_BRACE ∉ f
  | _ => True
  end.

(** No literal is followed by a literal. *)
Definition literals_merged (tokens : list NamingPatternToken) : Prop :=
  ∀ l1 t t' l2, tokens = l1 ++ t :: t' :: l2 → is_literal t = true → is_literal t' = false.

Definition ends_plain (tokens : list NamingPatternToken) : Prop := ∀ l t, tokens = l ++ [t] → is_literal t = false.

Record tokens_good (doctype : DocTypeDefinition) (tokens : list NamingPatternToken) : Prop := {
  tg_ok : Forall (token_ok doctype) tokens;
  tg_merged : literals_merged tokens
}.

Lemma naming_text_ok n v w : naming_text n v = Ok w → w = v.
Proof. unfold naming_text. intros H. step_ok H as u Hu. by injection H. Qed.

Lemma tokens_good_snoc doctype tokens t :
  tokens_good doctype tokens → token_ok doctype t → (is_literal t = true → ends_plain tokens) →
  tokens_good doctype (tokens ++ [t]).
Proof.
  intros [Hok Hm] Ht Hlast. split; [apply Forall_app; split; [done|by constructor]|].
  intros l1 a b l2 E Ha. destruct l2 as [|x l2 _] using rev_ind.
  - change (l1 ++ [a; b]) with (l1 ++ [a] ++ [b]) in E. rewrite (assoc_L (++)) in E.
    apply app_inj_tail in E as [-> ->]. destruct (is_literal b) eqn:Hb; [|done].
    by rewrite (Hlast eq_refl l1 a eq_refl) in Ha.
  - rewrite !app_comm_cons, (assoc_L (++)) in E. apply app_inj_tail in E as [-> ->]. by eapply Hm.
Qed.

Lemma ends_plain_snoc tokens t : is_literal t = false → ends_plain (tokens ++ [t]).
Proof. intros Ht l t' E. by apply app_inj_tail in E as [_ <-]. Qed.

Lemma flush_good doctype literal tokens :
  tokens_good doctype tokens → ends_plain tokens → Forall plain_char literal →
  tokens_good doctype (flushLiteral literal tokens).
Proof.
  intros Hg He Hl. unfold flushLiteral. case_bool_decide as Hb; [done|]. by apply tokens_good_snoc.
Qed.

Lemma until_close_ok s v rest : until_close s = Some (v, rest) ↔ s = v ++ CLOSE_BRACE :: rest ∧ CLOSE_BRACE ∉ v.
Proof.
  revert v. induction s as [|c s IH]; intros v; cbn [until_close].
  - split; [done|]. intros [E _]. by destruct v.
  - case_bool_decide as Hc.
    + subst c. split; [intros [= <- <-]; split; [done|by intros ?%elem_of_nil]|].
      intros [E Hv]. destruct v as [|x v]; [by injection E as ->|]. injection E as <- _. destruct Hv. left.
    + split.
      * destruct (until_close s) as [[v' rest']|]; [|done]. intros [= <- <-].
        destruct (proj1 (IH v') eq_refl) as [-> Hv]. split; [done|]. by intros [E|?]%elem_of_cons.
      * intros [E Hv]. destruct v as [|x v]; [by injection E as E _|]. injection E as <- ->.
        rewrite (proj2 (IH v)); [done|]. split; [done|]. intros H. apply Hv. by right.
Qed.

Lemma hashes_ok s : let (n, rest) := hashes s in
  s = replicate n HASH ++ rest ∧ match rest with c :: _ => c ≠ HASH | [] => True end.
Proof.
  induction s as [|c s IH]; cbn [hashes]; [done|]. case_bool_decide as Hc; [|done].
  destruct (hashes s) as [n rest]. destruct IH as [-> H]. by subst c.
Qed.

Lemma hashes_replicate n rest :
  match rest with c :: _ => c ≠ HASH | [] => True end → hashes (replicate n HASH ++ rest) = (n, rest).
Proof.
  intros H. induction n as [|n IH]; cbn [replicate app].
  - destruct rest as [|c rest]; [done|]. cbn [hashes]. by rewrite bool_decide_false.
  - cbn [hashes]. rewrite bool_decide_true by done. by rewrite IH.
Qed.

Lemma parse_token_ok doctype v token :
  CLOSE_BRACE ∉ v → parsePatternToken doctype v = Ok token → token_ok doctype token ∧ is_literal token = false.
Proof.
  intros Hv. unfold parsePatternToken. case_bool_decide; [by intros [= <-]|].
  destruct (List.find _ (seq 1 18)) as [w|] eqn:Hw.
  { intros [= <-]. apply List.find_some in Hw as [Hin _]. apply List.in_seq in Hin. cbn. unfold MAX_PADDING. lia. }
  destruct (List.find _ DATE_TOKENS); [by intros [= <-]|].
  do 2 (case_bool_decide; [by intros [= <-]|]). destruct (starts_with v (js "field:")); [|done].
  intros E. step_ok E as f Hf. step_ok E as u Hu. injection E as <-. apply ensure_ok in Hu.
  pose proof (naming_text_ok _ _ _ Hf) as ->. cbn. split_and!; [done| | |done].
  - by destruct (find_field doctype _).
  - intros Hin. apply Hv. by eapply elem_of_drop_1.
Qed.

Lemma naming_loop_good doctype fuel rest literal tokens out :
  tokens_good doctype tokens → ends_plain tokens → Forall plain_char literal →
  naming_loop doctype fuel rest literal tokens = Ok out → tokens_good doctype out.
Proof.
  revert rest literal tokens. induction fuel as [|fuel IH]; intros rest literal tokens Hg He Hl; [done|].
  cbn [naming_loop]. destruct rest as [|c rest]; [intros [= <-]; by apply flush_good|].
  pose proof (flush_good doctype literal tokens Hg He Hl) as Hflush.
  assert (Hpush : ∀ t rest', token_ok doctype t → is_literal t = false →
    naming_loop doctype fuel rest' [] (flushLiteral literal tokens ++ [t]) = Ok out → tokens_good doctype out).
  { intros t rest' Ht Hlit. apply IH; [apply tokens_good_snoc; [done|done|congruence]|by apply ends_plain_snoc|constructor]. }
  case_bool_decide as Hc.
  { pose proof (hashes_ok (c :: rest)) as Hh. destruct (hashes (c :: rest)) as [w rest'].
    destruct Hh as [E Hr]. intros H. step_ok H as u Hu. apply ensure_ok, Nat.leb_le in Hu.
    apply Hpush in H; [done| |done]. cbn. destruct w; [|lia]. cbn in E. subst rest'. by destruct Hr. }
  case_bool_decide as Ho.
  { destruct (until_close rest) as [[v rest']|] eqn:Hu; [|done]. apply until_close_ok in Hu as [_ Hv].
    intros H. step_ok H as t Ht. apply parse_token_ok in Ht as [Ht Hlit]; [|done]. by apply Hpush in H. }
  case_bool_decide as Hcl; [done|]. apply IH; [done|done|]. apply Forall_app. split; [done|]. by repeat constructor.
Qed.

(** ** Printing *)

(** What stands between the braces of a token. *)
Definition token_body (token : NamingPatternToken) : jstr :=
  match token with
  | TSequence _ => js "sequence"
  | TDate t => date_token_text t
  | TTenant => js "tenant"
  | TDoctype => js "doctype"
  | TField f => js "field:" ++ f
  | TLiteral v => v
  end.

Definition print_token (token : NamingPatternToken) : jstr :=
  match token with
  | TLiteral v => v
  | TSequence (Some width) => replicate width HASH
  | _ => OPEN_BRACE :: token_body token ++ [CLOSE_BRACE]
  end.

Definition print_tokens (tokens : list NamingPatternToken) : jstr := mjoin (print_token <$> tokens).

Definition braced (token : NamingPatternToken) : bool :=
  match token with TLiteral _ | TSequence (Some _) => false | _ => true end.

Lemma parse_body doctype token :
  token_ok doctype token → braced token = true →
  parsePatternToken doctype (token_body token) = Ok token ∧ CLOSE_BRACE ∉ token_body token.
Proof.
  destruct token as [v|[w|]|t| | |f]; intros Hok Hb; try done.
  - split; [by vm_compute|]. by apply (bool_decide_unpack _).
  - destruct t; (split; [by vm_compute|by apply (bool_decide_unpack _)]).
  - split; [by vm_compute|]. by apply (bool_decide_unpack _).
  - split; [by vm_compute|]. by apply (bool_decide_unpack _).
  - destruct Hok as (Hf & [fd Hfd] & Hc). cbn [token_body]. split.
    + unfold parsePatternToken. rewrite bool_decide_false by done.
      assert (Hnone : ∀ {A} (p : A → bool) l, (∀ x, p x = false) → List.find p l = None).
      { intros A p l Hp. induction l as [|x l IH]; [done|]. cbn. by rewrite Hp. }
      rewrite (Hnone _ _ (seq 1 18)) by (intros; by apply bool_decide_false).
      rewrite (Hnone _ _ DATE_TOKENS) by (intros []; by apply bool_decide_false).
      rewrite !bool_decide_false by done.
      rewrite (proj2 (starts_with_spec _ _)) by (by exists f).
      replace (drop 6 (js "field:" ++ f)) with f by done. rewrite Hf. cbn [mbind res_bind]. by rewrite Hfd.
    + rewrite elem_of_app. intros [Hin|]; [|done]. revert Hin. by apply (bool_decide_unpack _).
Qed.

Section print.
Context (doctype : DocTypeDefinition).

(** The loop reads a literal into its accumulator. *)
Lemma loop_literal fuel v rest literal tokens :
  Forall plain_char v →
  naming_loop doctype (length v + fuel) (v ++ rest) literal tokens =
  naming_loop doctype fuel rest (literal ++ v) tokens.
Proof.
  intros Hv. revert literal. induction Hv as [|c v (H1 & H2 & H3) _ IH]; intros literal; [by rewrite app_nil_r|].
  cbn [length plus app naming_loop]. rewrite !bool_decide_false by done.
  rewrite IH. by rewrite <-(assoc_L (++)).
Qed.

(** Before anything but a literal, the accumulator may be flushed early. *)
Lemma loop_flush fuel tokens literal acc :
  literals_merged tokens → Forall (token_ok doctype) tokens →
  match tokens with t :: _ => is_literal t = false | [] => True end →
  naming_loop doctype fuel (print_tokens tokens) literal acc =
  naming_loop doctype fuel (print_tokens tokens) [] (flushLiteral literal acc).
Proof.
  intros _ Hok Ht. destruct fuel as [|fuel]; [done|]. destruct tokens as [|t tokens]; [done|].
  apply Forall_cons in Hok as [Ht' _]. unfold print_tokens. rewrite fmap_cons. cbn [mjoin list_join].
  destruct t as [v|[w|]|t| | |f]; try done. destruct w as [|w]; [cbn in Ht'; lia|]. done.
Qed.

Lemma loop_print tokens acc fuel :
  Forall (token_ok doctype) tokens → literals_merged tokens →
  length (filter (λ t, is_sequence t = true) tokens) ≤ 1 → length (print_tokens tokens) < fuel →
  naming_loop doctype fuel (print_tokens tokens) [] acc = Ok (acc ++ tokens).
Proof.
  revert acc fuel. induction tokens as [|t tokens IH]; intros acc fuel Hok Hm Hseq Hfuel.
  { destruct fuel; [cbn in Hfuel; lia|]. cbn. by rewrite app_nil_r. }
  apply Forall_cons in Hok as [Ht Hok].
  assert (Hm' : literals_merged tokens) by (intros l1 a b l2 ->; apply (Hm (t :: l1) a b l2); done).
  assert (Hseq' : length (filter (λ t, is_sequence t = true) tokens) ≤ 1).
  { rewrite filter_cons in Hseq. case_decide; cbn [length] in Hseq; lia. }
  change (print_tokens (t :: tokens)) with (print_token t ++ print_tokens tokens) in *.
  rewrite length_app in Hfuel. replace (acc ++ t :: tokens) with ((acc ++ [t]) ++ tokens) by (by rewrite <-(assoc_L (++))).
  destruct (is_literal t) eqn:Hlit.
  - destruct t as [v| | | | |]; try done. destruct Ht as [Hv Hp]. cbn [print_token] in *.
    replace fuel with (length v + (fuel - length v)) by lia. rewrite loop_literal by done.
    rewrite loop_flush; [|done|done|].
    + cbn [app]. unfold flushLiteral. rewrite bool_decide_false by done. apply IH; [done|done|done|lia].
    + destruct tokens as [|t' tokens]; [done|]. by apply (Hm [] (TLiteral v) t' tokens).
  - destruct fuel as [|fuel]; [lia|]. destruct (braced t) eqn:Hb.
    + destruct (parse_body doctype t Ht Hb) as [Hparse Hclose].
      assert (print_token t = OPEN_BRACE :: token_body t ++ [CLOSE_BRACE]) as Hpr by (by destruct t as [|[]| | | |]).
      rewrite Hpr in *. cbn [app naming_loop]. rewrite bool_decide_false by done. rewrite bool_decide_true by done.
      rewrite <-(assoc_L (++)). cbn [app].
      rewrite (proj2 (until_close_ok _ (token_body t) (print_tokens tokens))) by (by split).
      rewrite Hparse. cbn [mbind res_bind]. apply IH; [done|done|done|]. cbn [length] in Hfuel. lia.
    + destruct t as [|[w|]| | | |]; try done. cbn [print_token] in *. cbn in Ht.
      destruct w as [|w]; [lia|]. cbn [replicate app naming_loop]. rewrite bool_decide_true by done.
      change (HASH :: replicate w HASH ++ print_tokens tokens) with (replicate (S w) HASH ++ print_tokens tokens).
      rewrite hashes_replicate.
      * rewrite (proj2 (Nat.leb_le (S w) MAX_PADDING)) by lia. cbn [ensure mbind res_bind].
        apply IH; [done|done|done|]. rewrite length_replicate in Hfuel. lia.
      * destruct tokens as [|t' tokens]; [done|]. apply Forall_cons in Hok as [Ht' _].
        change (print_tokens (t' :: tokens)) with (print_token t' ++ print_tokens tokens).
        destruct t' as [[|c v]|[w'|]|t'| | |f]; try done; [by destruct Ht'|destruct Ht' as [_ [(?&?&?) _]%Forall_cons]; done|].
        rewrite !filter_cons, !decide_True in Hseq by done. cbn [length] in Hseq. lia.
Qed.
End print.

Definition with_pattern (pattern : jstr) (s : NamingSeriesStrategy) : NamingSeriesStrategy :=
  {| nss_pattern := pattern; nss_targetField := nss_targetField s; nss_counter := nss_counter s;
     nss_padding := nss_padding s; nss_start := nss_start s; nss_step := nss_step s; nss_reset := nss_reset s;
     nss_scopeFields := nss_scopeFields s; nss_exclusions := nss_exclusions s; nss_maxAttempts := nss_maxAttempts s |}.

Record pattern_good (doctype : DocTypeDefinition) (tokens : list NamingPatternToken) : Prop := {
  pg_tokens : tokens_good doctype tokens;
  pg_length : length tokens ≤ MAX_PATTERN_TOKENS;
  pg_sequence : length (filter (λ t, is_sequence t = true) tokens) = 1
}.

Lemma compile_good doctype strategy tokens :
  compileNamingPattern doctype strategy = Ok tokens → pattern_good doctype tokens.
Proof.
  unfold compileNamingPattern. intros E. step_ok E as out Hout. step_ok E as u Hu. step_ok E as u' Hu'.
  injection E as ->. apply ensure_ok in Hu, Hu'. apply Nat.leb_le in Hu. apply Nat.eqb_eq in Hu'.
  split; [|done|done]. eapply naming_loop_good; [| | |exact Hout].
  - split; [constructor|]. intros l1 a b l2 E. by destruct l1.
  - intros l t E. by destruct l.
  - constructor.
Qed.

Lemma compile_print doctype strategy tokens :
  pattern_good doctype tokens → compileNamingPattern doctype (with_pattern (print_tokens tokens) strategy) = Ok tokens.
Proof.
  intros [[Hok Hm] Hlen Hseq]. unfold compileNamingPattern. cbn [nss_pattern with_pattern].
  rewrite loop_print; [|done|done|by rewrite Hseq|cbn; lia]. cbn [mbind res_bind app].
  rewrite (proj2 (Nat.leb_le _ _) Hlen). cbn [ensure mbind res_bind]. by rewrite Hseq.
Qed.
