(* ===== verification/NamingSeries.v ===== *)
(** * NamingSeries: what the naming of documents guarantees

    The theorems on [Naming]: patterns are recovered from their own text, accepted
    strategies are well formed, a scan returns the next free values under different
    names and finds them whenever they are within its attempts, and a counter is
    shared exactly by the documents of one period and one scope. *)

From S2P Require Export Naming.

(** ** What a scan finds *)

(** [first], [first + step], ... *)
Fixpoint progression (first step : Z) (n : nat) : list Z :=
  match n with O => [] | S n => first :: progression (first + step)%Z step n end.

Section scan.
Context (render : Z → res jstr) (allowed : Z → jstr → bool) (step : Z) (count : nat).

Definition value_allowed (v : Z) : bool := match render v with Ok name => allowed v name | Throw _ => false end.

(** The value can be named and the next one is a safe integer. *)
Definition passes (v : Z) : Prop := is_ok (render v) = true ∧ is_safe_integer (v + step) = true.

Definition allowed_among (values : list Z) : list Z := filter (λ v, value_allowed v = true) values.

Definition named (c : NamingCandidate) : Prop := render (nc_value c) = Ok (nc_name c).

Lemma scan_step left candidate result :
  length result < count →
  scan_loop render allowed step count (S left) candidate result =
  (name ← render candidate;
   next ← safeAdd candidate step;
   scan_loop render allowed step count left next
     (if allowed candidate name then result ++ [{| nc_value := candidate; nc_name := name |}] else result)).
Proof.
  intros Hl. unfold scan_loop at 1. fold scan_loop. rewrite (proj2 (Nat.leb_gt _ _) Hl). done.
Qed.

Lemma scan_loop_ok left candidate result out left' :
  length result ≤ count → Forall named result →
  scan_loop render allowed step count left candidate result = Ok (out, left') →
  ∃ n, left = left' + n ∧ Forall passes (progression candidate step n) ∧
    (nc_value <$> out) = (nc_value <$> result) ++ allowed_among (progression candidate step n) ∧
    Forall named out ∧ length out = count ∧
    match last (progression candidate step n) with Some v => value_allowed v = true | None => True end.
Proof.
  revert candidate result. induction left as [|left IH]; intros candidate result Hlen Hnamed.
  { unfold scan_loop. destruct (Nat.leb_spec count (length result)); [|done]. intros [= <- <-].
    exists 0. cbn. rewrite app_nil_r. split_and!; try done. lia. }
  destruct (decide (count ≤ length result)) as [Hc|Hc].
  { unfold scan_loop. rewrite (proj2 (Nat.leb_le _ _) Hc). intros [= <- <-].
    exists 0. cbn. rewrite app_nil_r. split_and!; try done; lia. }
  rewrite scan_step by lia. intros E. step_ok E as name Hname. unfold safeAdd in E.
  step_ok E as next Hnext. step_ok Hnext as u Hu. injection Hnext as <-. apply ensure_ok in Hu.
  assert (Hallowed : value_allowed candidate = allowed candidate name) by (unfold value_allowed; by rewrite Hname).
  assert (Hpass : passes candidate) by (split; [by rewrite Hname|done]).
  apply IH in E as (n & -> & Hn & Hout & Hnm & Hl & Hlast).
  - exists (S n). cbn [progression]. split_and!; [lia|by constructor| |done|done|].
    + unfold allowed_among in *. rewrite filter_cons, Hallowed, Hout.
      destruct (allowed candidate name); [|done]. rewrite decide_True by done. by rewrite fmap_app, <-(assoc_L (++)).
    + destruct n as [|n]; [|by cbn [progression] in *].
      cbn. rewrite Hallowed. cbn in Hout. rewrite app_nil_r in Hout. apply (f_equal length) in Hout.
      rewrite !length_fmap in Hout. destruct (allowed candidate name); [done|lia].
  - destruct (allowed candidate name); [rewrite length_app; cbn|]; lia.
  - destruct (allowed candidate name); [|done]. apply Forall_app. split; [done|]. by repeat constructor.
Qed.

(** When enough values are allowed within the attempts, they are found. *)
Lemma scan_loop_finds left candidate result n :
  n ≤ left → Forall passes (progression candidate step n) →
  count ≤ length result + length (allowed_among (progression candidate step n)) →
  is_ok (scan_loop render allowed step count left candidate result) = true.
Proof.
  revert left candidate result. induction n as [|n IH]; intros left candidate result Hn Hp Hc.
  { cbn in Hc. unfold scan_loop. destruct left; by rewrite (proj2 (Nat.leb_le _ _)) by lia. }
  destruct left as [|left]; [lia|]. destruct (decide (count ≤ length result)) as [Hl|Hl].
  { unfold scan_loop. by rewrite (proj2 (Nat.leb_le _ _) Hl). }
  rewrite scan_step by lia. cbn [progression] in Hp, Hc. apply Forall_cons in Hp as [[Hr Hs] Hp].
  unfold allowed_among in *. rewrite filter_cons in Hc.
  destruct (render candidate) as [name|] eqn:Hname; [|done]. cbn [mbind res_bind]. unfold safeAdd. rewrite Hs.
  cbn [ensure mbind res_bind]. apply IH; [lia|done|].
  assert (Hallowed : value_allowed candidate = allowed candidate name) by (unfold value_allowed; by rewrite Hname).
  rewrite Hallowed in Hc. destruct (allowed candidate name); [|done].
  rewrite decide_True in Hc by done. rewrite length_app. cbn in *. lia.
Qed.
End scan.

Lemma progression_bound first step n v : (0 < step)%Z → v ∈ progression first step n → (first ≤ v)%Z.
Proof.
  intros Hs. revert first. induction n as [|n IH]; intros first; cbn; [by intros ?%elem_of_nil|].
  intros [->|Hv]%elem_of_cons; [lia|]. apply IH in Hv. lia.
Qed.

Lemma progression_sorted first step n : (0 < step)%Z → StronglySorted Z.lt (progression first step n).
Proof.
  intros Hs. revert first. induction n as [|n IH]; intros first; cbn; constructor; [apply IH|].
  apply Forall_forall. intros v Hv. apply progression_bound in Hv; lia.
Qed.

(** ** Names *)

Section names.
Context `{NamingHost} (doctype : DocTypeDefinition) (strategy : NamingSeriesStrategy) (d : data)
        (context : NamingRenderContext).

Lemma render_ok v tokens name :
  renderNamingCandidate doctype strategy d context v tokens = Ok name →
  (0 ≤ v)%Z ∧ ∃ date parts, parsedDate (nrc_now context) = Ok date ∧
    Forall2 (λ token part, render_token doctype strategy d context date v token = Ok part) tokens parts ∧
    name = mjoin parts ∧ 1 ≤ length name ≤ MAX_IDENTIFIER_LENGTH ∧ hasUnsafeControlCharacter name = false.
Proof.
  unfold renderNamingCandidate. intros E. step_ok E as u Hu. step_ok E as date Hdate. step_ok E as parts Hparts.
  step_ok E as u' Hu'. injection E as <-. apply ensure_ok in Hu, Hu'.
  apply andb_true_iff in Hu as [_ Hv]. apply Z.leb_le in Hv. split; [done|]. exists date, parts.
  apply negb_true_iff, orb_false_iff in Hu' as [Hlen Hctl]. apply orb_false_iff in Hlen as [H1 H2].
  apply Nat.eqb_neq in H1. apply Nat.ltb_ge in H2. rewrite map_res_ok in Hparts.
  split; [done|]. split; [done|]. split; [done|]. split; [lia|done].
Qed.

(** Two values of one series, one document and one moment have different names. *)
Lemma render_inj v v' tokens name :
  length (filter (λ t, is_sequence t = true) tokens) = 1 →
  renderNamingCandidate doctype strategy d context v tokens = Ok name →
  renderNamingCandidate doctype strategy d context v' tokens = Ok name → v = v'.
Proof.
  intros Hseq (Hv & date & parts & Hdate & Hparts & -> & _)%render_ok (Hv' & date' & parts' & Hdate' & Hparts' & E & _)%render_ok.
  rewrite Hdate in Hdate'. injection Hdate' as <-.
  assert (Hsame : ∀ ts ps ps', length (filter (λ t, is_sequence t = true) ts) = 0 →
    Forall2 (λ token part, render_token doctype strategy d context date v token = Ok part) ts ps →
    Forall2 (λ token part, render_token doctype strategy d context date v' token = Ok part) ts ps' → ps = ps').
  { intros ts ps ps' Hno HF. revert ps' Hno. induction HF as [|t p ts ps Ht _ IH]; intros ps' Hno HF'; [by inversion HF'|].
    inversion HF' as [|? p' ? ps'' Ht' HF'']; subst. rewrite filter_cons in Hno. case_decide as Hd; [done|].
    f_equal; [|by apply IH]. assert (Ht2 : render_token doctype strategy d context date v t = Ok p') by (by destruct t).
    congruence. }
  revert parts' E Hparts'. induction Hparts as [|t p tokens parts Ht HF IH]; intros parts' E HF'; [done|].
  inversion HF' as [|? p' ? parts'' Ht' HF'']; subst. rewrite filter_cons in Hseq. case_decide as Hd.
  - cbn [length] in Hseq. assert (parts = parts'') as -> by (eapply Hsame; [|exact HF|exact HF'']; lia).
    cbn in E. apply app_inv_tail in E. destruct t as [|w| | | |]; try done.
    cbn in Ht, Ht'. injection Ht as <-. injection Ht' as <-. unfold padded, dec_Z in E.
    destruct (Z.ltb_spec v 0), (Z.ltb_spec v' 0); try lia. apply pad_dec_inj in E. lia.
  - assert (Ht2 : render_token doctype strategy d context date v t = Ok p') by (by destruct t).
    assert (p = p') as -> by congruence. cbn in E. apply app_inv_head in E. by apply (IH Hseq parts'').
Qed.
End names.

(** ** Scopes *)

Definition BAR : N := 124.

Lemma encode_no_bar s out : jstr_wf s → encodeURIComponent s = Ok out → BAR ∉ out.
Proof.
  unfold encodeURIComponent. intros Hs E. step_ok E as points Hp. injection E as <-.
  apply code_points_range in Hp; [|done]. intros (p & Hin & Hc)%list_elem_of_In%in_flat_map.
  apply list_elem_of_In in Hin, Hc. rewrite Forall_forall in Hp. specialize (Hp p Hin).
  unfold encode_point in Hc. destruct (unreserved p) eqn:Hu.
  - apply list_elem_of_singleton in Hc. subst p. by vm_compute in Hu.
  - apply list_elem_of_In, in_flat_map in Hc as (b & Hb & Hc). apply list_elem_of_In in Hb, Hc.
    apply percent_chars in Hc; [unfold BAR in Hc; lia|]. by eapply utf8_bytes.
Qed.

Lemma encode_inj s t out :
  jstr_wf s → jstr_wf t → encodeURIComponent s = Ok out → encodeURIComponent t = Ok out → s = t.
Proof.
  intros Hs Ht Es Et. eapply (escapePart_inj_lemma s t); [done|done| |]; unfold escapePart.
  - by rewrite Es.
  - by rewrite Et.
Qed.

(** Parts with the same labels, whose texts hold no bar, are read off their join. *)
Lemma join_labelled (labels texts texts' : list jstr) :
  length texts = length labels → length texts' = length labels →
  Forall (λ t, BAR ∉ t) texts → Forall (λ t, BAR ∉ t) texts' →
  str_join [BAR] (zip_with app labels texts) = str_join [BAR] (zip_with app labels texts') → texts = texts'.
Proof.
  revert texts texts'. induction labels as [|l labels IH]; intros [|t texts] [|t' texts'] Hl Hl' Ht Ht' E; try done.
  apply Forall_cons in Ht as [Ht Hts], Ht' as [Ht' Hts']. injection Hl as Hl. injection Hl' as Hl'.
  destruct labels as [|l2 labels].
  - destruct texts, texts'; try done. cbn in E. by apply app_inv_head in E as ->.
  - destruct texts as [|t2 texts], texts' as [|t2' texts']; try done.
    change (str_join [BAR] (zip_with app (l :: l2 :: labels) (t :: t2 :: texts))) with
      ((l ++ t) ++ [BAR] ++ str_join [BAR] (zip_with app (l2 :: labels) (t2 :: texts))) in E.
    change (str_join [BAR] (zip_with app (l :: l2 :: labels) (t' :: t2' :: texts'))) with
      ((l ++ t') ++ [BAR] ++ str_join [BAR] (zip_with app (l2 :: labels) (t2' :: texts'))) in E.
    rewrite <-!(assoc_L (++)) in E. apply app_inv_head in E. apply split_at_unique in E as [-> E]; [|done..].
    f_equal. by apply IH.
Qed.

Section scopes.
Context `{NamingHost} (doctype : DocTypeDefinition) (strategy : NamingSeriesStrategy).

(** The labels of the parts of a scope, and their texts. *)
Definition scope_labels : list jstr :=
  (match default ResetNever (nss_reset strategy) with ResetNever => [] | _ => [js "date="] end) ++
  ((λ field, field ++ js "=") <$> default [] (nss_scopeFields strategy)).

Definition scope_dates (context : NamingRenderContext) : res (list jstr) :=
  match default ResetNever (nss_reset strategy) with
  | ResetNever => Ok []
  | reset => date ← parsedDate (nrc_now context); Ok [dateBucket date reset]
  end.

Definition scope_values (d : data) : res (list jstr) :=
  map_res (λ field, namingFieldValue (vget field d)) (default [] (nss_scopeFields strategy)).

Lemma padded_no_bar w n : BAR ∉ padded w n.
Proof.
  unfold padded, pad_start0. rewrite elem_of_app. intros [Hr%elem_of_replicate_inv|Hd]; [done|].
  assert (Hdec : ∀ m, BAR ∉ dec m).
  { intros m Hm. pose proof (dec_all_digits m) as Ha. rewrite forallb_In in Ha. by apply Ha in Hm. }
  unfold dec_Z in Hd. destruct (n <? 0)%Z; [|by eapply Hdec].
  apply elem_of_cons in Hd as [?|Hd]; [done|]. by eapply Hdec.
Qed.

Lemma bucket_no_bar date reset : BAR ∉ dateBucket date reset.
Proof.
  assert (Hdash : BAR ∉ js "-") by (by apply (bool_decide_unpack _)).
  unfold dateBucket. destruct reset; rewrite ?not_elem_of_app; split_and?; first [apply padded_no_bar|done].
Qed.

(** A scope is the join of its labelled texts. *)
Lemma identity_ok d context i :
  resolveNamingSeriesIdentity doctype strategy d context = Ok i →
  ∃ dates texts encoded, scope_dates context = Ok dates ∧ scope_values d = Ok texts ∧
    Forall2 (λ t e, encodeURIComponent t = Ok e) texts encoded ∧
    length (dates ++ encoded) = length scope_labels ∧ Forall (λ t, BAR ∉ t) dates ∧
    nsi_scope i = str_join [BAR] (zip_with app scope_labels (dates ++ encoded)).
Proof.
  unfold resolveNamingSeriesIdentity. intros E. step_ok E as dates0 Hdates. step_ok E as parts Hparts. injection E as <-.
  cbn [nsi_scope]. assert (Hf : ∃ texts encoded, scope_values d = Ok texts ∧
    Forall2 (λ t e, encodeURIComponent t = Ok e) texts encoded ∧
    length encoded = length (default [] (nss_scopeFields strategy)) ∧
    parts = zip_with app ((λ field, field ++ js "=") <$> default [] (nss_scopeFields strategy)) encoded).
  { unfold scope_values. revert parts Hparts. induction (default [] (nss_scopeFields strategy)) as [|f fields IH];
      intros parts Hparts; cbn [map_res] in Hparts.
    - injection Hparts as <-. by exists [], [].
    - step_ok Hparts as p Hp. step_ok Hparts as ps Hps. injection Hparts as <-.
      destruct (IH ps Hps) as (texts & encoded & Ht & HF & Hl & ->). unfold scope_part in Hp.
      step_ok Hp as t Htext. step_ok Hp as e He. injection Hp as <-.
      exists (t :: texts), (e :: encoded). cbn [map_res length fmap list_fmap zip_with]. rewrite Htext, Ht.
      cbn [mbind res_bind]. split_and!; [done|by constructor|by rewrite Hl|]. by rewrite <-(assoc_L (++)). }
  destruct Hf as (texts & encoded & Hv & HF & Hl & ->). unfold scope_dates, scope_labels.
  destruct (default ResetNever (nss_reset strategy)) eqn:Hreset;
    [injection Hdates as <-; exists [], texts, encoded; cbn [app]; rewrite length_fmap; split_and!; done|..];
    step_ok Hdates as date Hdate; injection Hdates as <-; eexists [_], texts, encoded; rewrite Hdate; cbn [mbind res_bind];
    cbn [app length zip_with]; rewrite length_fmap, Hl; split_and!; try done; constructor; try constructor; apply bucket_no_bar.
Qed.
End scopes.

(** ** Normalized strategies *)

Definition bounded (min max : Z) (v : option Z) : Prop := ∀ n, v = Some n → (min ≤ n ≤ max)%Z.

(** A series that the normaliser accepts. *)
Record series_ok (doctype : DocTypeDefinition) (s : NamingSeriesStrategy) : Prop := {
  so_padding : bounded 1 (Z.of_nat MAX_PADDING) (nss_padding s);
  so_start : bounded 1 MAX_SAFE_INTEGER (nss_start s);
  so_step : bounded 1 MAX_SAFE_INTEGER (nss_step s);
  so_attempts : bounded 1 DEFAULT_NAMING_MAX_ATTEMPTS (nss_maxAttempts s);
  so_target : ∀ f, nss_targetField s = Some f → ∃ field, find_field doctype f = Some field ∧
    fd_type field = FText ∧ fd_readOnly field = true ∧ fd_noCopy field = true;
  so_exclusions : is_ok (compileExclusions (default [] (nss_exclusions s))) = true;
  so_scope_distinct : NoDup (default [] (nss_scopeFields s));
  (* what a counter depends on can be read in the names it makes *)
  so_visible : ∃ tokens, compileNamingPattern doctype s = Ok tokens ∧
    (∀ f, f ∈ default [] (nss_scopeFields s) → TField f ∈ tokens) ∧
    (nss_reset s = Some ResetYear → TDate DYYYY ∈ tokens) ∧
    (nss_reset s = Some ResetMonth → TDate DYYYY ∈ tokens ∧ TDate DMM ∈ tokens) ∧
    (nss_reset s = Some ResetDay → TDate DYYYY ∈ tokens ∧
       (TDate DDDD ∈ tokens ∨ TDate DMM ∈ tokens ∧ TDate DDD ∈ tokens))
}.

(** A check: what it accepts it returns. *)
Definition only_checks {A} (f : A → res A) : Prop := ∀ x y, f x = Ok y → y = x.

Lemma optional_checks {A} (f : A → res A) : only_checks f → only_checks (optional_res f).
Proof.
  intros Hf [v|] w E; simpl in E; [|by injection E]. step_ok E as x Hx. injection E as <-. by apply Hf in Hx as ->.
Qed.

Lemma map_checks {A} (f : A → res A) : only_checks f → only_checks (map_res f).
Proof. intros Hf l l'. rewrite map_res_ok. induction 1 as [|x y l l' Hxy _ ->]; [done|]. by apply Hf in Hxy as ->. Qed.

Lemma naming_text_checks n : only_checks (naming_text n).
Proof. intros v w. apply naming_text_ok. Qed.

Lemma integer_checks min max : only_checks (optionalInteger min max).
Proof. apply optional_checks. intros n m E. step_ok E as u Hu. by injection E. Qed.

Lemma integer_bounded min max v w : optionalInteger min max v = Ok w → bounded min max w.
Proof.
  intros E n ->. destruct v as [v|]; simpl in E; [|done]. step_ok E as x Hx. step_ok Hx as u Hu.
  injection Hx as <-. injection E as ->. apply ensure_ok in Hu. rewrite !andb_true_iff, !Z.leb_le in Hu. lia.
Qed.

Lemma strings_checks n : only_checks (uniqueStrings n).
Proof.
  intros l l' E. unfold uniqueStrings in E. step_ok E as x Hx. step_ok E as u Hu. injection E as <-.
  by apply (map_checks _ (naming_text_checks n)) in Hx.
Qed.

Lemma exclusion_checks : only_checks normalize_exclusion.
Proof.
  intros x y E. destruct x; cbn in E; step_ok E as w Hw; injection E as <-; try done; by apply naming_text_ok in Hw as ->.
Qed.

Lemma exclusions_checks : only_checks normalizeExclusions.
Proof.
  intros l l' E. unfold normalizeExclusions in E. step_ok E as u Hu. revert E. by apply map_checks, exclusion_checks.
Qed.

Lemma normalize_series_ok s s' :
  normalize_series s = Ok s' →
  s' = s ∧ bounded 1 (Z.of_nat MAX_PADDING) (nss_padding s) ∧ bounded 1 MAX_SAFE_INTEGER (nss_start s) ∧
  bounded 1 MAX_SAFE_INTEGER (nss_step s) ∧ bounded 1 DEFAULT_NAMING_MAX_ATTEMPTS (nss_maxAttempts s) ∧
  NoDup (default [] (nss_scopeFields s)) ∧ optional_res normalizeExclusions (nss_exclusions s) = Ok (nss_exclusions s).
Proof.
  unfold normalize_series. intros E. step_ok E as pattern H1. step_ok E as target H2. step_ok E as counter H3.
  step_ok E as padding H4. step_ok E as start H5. step_ok E as stp H6. step_ok E as scopes H7.
  step_ok E as excl H8. step_ok E as attempts H9. injection E as <-.
  pose proof (integer_bounded _ _ _ _ H4) as B4. pose proof (integer_bounded _ _ _ _ H5) as B5.
  pose proof (integer_bounded _ _ _ _ H6) as B6. pose proof (integer_bounded _ _ _ _ H9) as B9.
  pose proof (optional_checks _ (strings_checks _) _ _ H7) as E7.
  pose proof (optional_checks _ exclusions_checks _ _ H8) as E8.
  apply naming_text_checks in H1. apply (optional_checks _ (naming_text_checks _)) in H2, H3.
  apply integer_checks in H4, H5, H6, H9. subst. split_and!; try done; [by destruct s|].
  destruct (nss_scopeFields s) as [l|]; [|constructor]. simpl in H7. step_ok H7 as l' Hl. injection H7 as ->.
  unfold uniqueStrings in Hl. step_ok Hl as x Hx. step_ok Hl as u Hu. injection Hl as ->. apply ensure_ok in Hu.
  by apply bool_decide_eq_true in Hu.
Qed.

(** Compiling what was normalized succeeds. *)
Lemma compileExclusions_ok l : normalizeExclusions l = Ok l → is_ok (compileExclusions l) = true.
Proof.
  intros E. unfold compileExclusions. rewrite E. cbn [mbind res_bind]. unfold normalizeExclusions in E.
  step_ok E as u Hu. clear Hu. rewrite map_res_ok in E. induction E as [|x y l l' Hxy _ IH]; [done|].
  pose proof (exclusion_checks _ _ Hxy) as ->. cbn [map_res]. destruct (map_res _ l') as [r|]; [|done]. destruct x as [| | | | |pattern flag]; try done.
  cbn [normalize_exclusion] in Hxy. step_ok Hxy as compiled Hr. by rewrite Hr.
Qed.

Lemma loop_checks {A} (p : A → bool) (e : error) (l : list A) u :
  foldl_res (λ _ x, ensure (p x) e) u l = Ok tt → ∀ x, x ∈ l → p x = true.
Proof.
  revert u. induction l as [|y l IH]; intros u E x; [by intros ?%elem_of_nil|]. cbn [foldl_res] in E.
  step_ok E as u' Hu. apply ensure_ok in Hu. intros [->|Hx]%elem_of_cons; [done|]. by eapply IH.
Qed.

Lemma visible_ok strategy tokens :
  assertCounterScopeIsVisible strategy tokens = Ok tt →
  (∀ f, f ∈ default [] (nss_scopeFields strategy) → TField f ∈ tokens) ∧
  (nss_reset strategy = Some ResetYear → TDate DYYYY ∈ tokens) ∧
  (nss_reset strategy = Some ResetMonth → TDate DYYYY ∈ tokens ∧ TDate DMM ∈ tokens) ∧
  (nss_reset strategy = Some ResetDay → TDate DYYYY ∈ tokens ∧
     (TDate DDDD ∈ tokens ∨ TDate DMM ∈ tokens ∧ TDate DDD ∈ tokens)).
Proof.
  unfold assertCounterScopeIsVisible. cbv zeta. intros E. step_ok E as u Hu. destruct u.
  assert (Hfield : ∀ f, f ∈ omap (λ token, match token with TField f => Some f | _ => None end) tokens → TField f ∈ tokens).
  { intros f (t & Ht & Hf)%list_elem_of_omap. destruct t; by simplify_eq. }
  assert (Hdate : ∀ t, t ∈ omap (λ token, match token with TDate t => Some t | _ => None end) tokens → TDate t ∈ tokens).
  { intros t (x & Hx & Hf)%list_elem_of_omap. destruct x; by simplify_eq. }
  split_and!.
  - intros f Hf. apply Hfield. pose proof (loop_checks _ _ _ _ Hu f Hf) as Hb. by apply bool_decide_eq_true in Hb.
  - intros Hr. rewrite Hr in E. cbn in E. apply ensure_ok, bool_decide_eq_true in E. auto.
  - intros Hr. rewrite Hr in E. cbn in E. apply ensure_ok in E. rewrite andb_true_iff, !bool_decide_eq_true in E.
    destruct E; auto.
  - intros Hr. rewrite Hr in E. cbn in E. apply ensure_ok in E.
    rewrite !andb_true_iff, orb_true_iff, andb_true_iff, !bool_decide_eq_true in E. destruct E as [? [?|[? ?]]]; auto.
Qed.

(** The normaliser of a naming strategy is a check: what it accepts it returns
    unchanged, and an accepted series is well formed: its numbers are in range, its
    exclusions compile, its target is a read-only text field that is not copied,
    and the period and the fields that its counter depends on all appear in the
    names it makes. *)
Theorem normalized_series_sound doctype strategy strategy' :
  normalizeNamingStrategy doctype strategy = Ok strategy' →
  strategy' = strategy ∧ match strategy with NamingSeries s => series_ok doctype s | _ => True end.
Proof.
  destruct strategy as [|f|f|s]; simpl; try (by intros [= <-]).
  intros E. step_ok E as s' Hs. step_ok E as u Hu. injection E as <-. destruct u.
  apply normalize_series_ok in Hs as (-> & H1 & H2 & H3 & H4 & H5 & H6). split; [done|].
  unfold assertSeriesDefinition in Hu. step_ok Hu as u1 Hu1. step_ok Hu as u2 Hu2. step_ok Hu as u3 Hu3.
  step_ok Hu as tokens Htokens. apply visible_ok in Hu. apply ensure_ok in Hu2. split; try done.
  - intros f Hf. rewrite Hf in Hu2. unfold target_field_ok in Hu2.
    destruct (find_field doctype f) as [field|]; [|done]. exists field.
    rewrite !andb_true_iff, bool_decide_eq_true in Hu2. by destruct Hu2 as [[? ?] ?].
  - destruct (nss_exclusions s) as [l|]; [|done]. simpl in H6. step_ok H6 as l' Hl. injection H6 as ->.
    by apply compileExclusions_ok.
  - by exists tokens.
Qed.

(** ** The scan and the counter *)

Section scanning.
Context `{NamingHost} (doctype : DocTypeDefinition) (strategy : NamingSeriesStrategy) (d : data)
        (context : NamingRenderContext) (tokens : list NamingPatternToken) (exclusions : list CompiledExclusion).

(** A value whose name exists and is not excluded. *)
Definition free_value (v : Z) : bool :=
  value_allowed (λ v, renderNamingCandidate doctype strategy d context v tokens)
    (λ v name, negb (isExcluded nh_lower exclusions v name)) v.
End scanning.

Definition first_value (strategy : NamingSeriesStrategy) (current : option Z) : Z :=
  match current with
  | None => default 1%Z (nss_start strategy)
  | Some current => (current + default 1 (nss_step strategy))%Z
  end.

Lemma scan_unfold `{NamingHost} doctype strategy d context current count limit scan :
  scanNamingCandidates doctype strategy d context current count limit = Ok scan →
  ∃ tokens exclusions left, compileNamingPattern doctype strategy = Ok tokens ∧
    compileExclusions (default [] (nss_exclusions strategy)) = Ok exclusions ∧
    let attemptLimit := default (default DEFAULT_NAMING_MAX_ATTEMPTS (nss_maxAttempts strategy)) limit in
    (1 ≤ attemptLimit)%Z ∧ ncs_attempts scan = (attemptLimit - Z.of_nat left)%Z ∧ (1 ≤ default 1 count)%Z ∧
    scan_loop (λ v, renderNamingCandidate doctype strategy d context v tokens)
      (λ v name, negb (isExcluded nh_lower exclusions v name)) (default 1%Z (nss_step strategy))
      (Z.to_nat (default 1%Z count)) (Z.to_nat attemptLimit) (first_value strategy current) []
      = Ok (ncs_candidates scan, left).
Proof.
  unfold scanNamingCandidates. cbv zeta. intros E. step_ok E as u Hu. step_ok E as tokens Ht. step_ok E as exclusions Hx.
  step_ok E as u' Hu'. step_ok E as candidate Hc. step_ok E as out Ho. injection E as <-. destruct out as [out left].
  exists tokens, exclusions, left. cbn [ncs_candidates ncs_attempts fst snd]. apply ensure_ok in Hu, Hu'.
  rewrite !andb_true_iff, !Z.leb_le in Hu, Hu'. destruct Hu as [[_ ?] _], Hu' as [[_ ?] _].
  split_and!; try done. replace (first_value strategy current) with candidate; [done|].
  unfold first_value, safeAdd in *. destruct current; [step_ok Hc as u2 Hu2|]; by injection Hc.
Qed.

(** A scan tries the values of the series one after the other, from the start or
    after the current one, and returns those that are free, with their names,
    stopping at the last it was asked for; within one scan all values and all
    names are different. *)
Theorem naming_scan_exact `{NamingHost} doctype strategy d context current count limit scan :
  (1 ≤ default 1 (nss_step strategy))%Z →
  scanNamingCandidates doctype strategy d context current count limit = Ok scan →
  ∃ tokens exclusions, compileNamingPattern doctype strategy = Ok tokens ∧
    compileExclusions (default [] (nss_exclusions strategy)) = Ok exclusions ∧
    let tried := progression (first_value strategy current) (default 1%Z (nss_step strategy)) (Z.to_nat (ncs_attempts scan)) in
    nc_value <$> ncs_candidates scan = filter (λ v, free_value doctype strategy d context tokens exclusions v = true) tried ∧
    Forall (λ c, renderNamingCandidate doctype strategy d context (nc_value c) tokens = Ok (nc_name c)) (ncs_candidates scan) ∧
    Z.of_nat (length (ncs_candidates scan)) = default 1%Z count ∧
    last (nc_value <$> ncs_candidates scan) = last tried ∧
    (1 ≤ ncs_attempts scan ≤ default (default DEFAULT_NAMING_MAX_ATTEMPTS (nss_maxAttempts strategy)) limit)%Z ∧
    NoDup (nc_value <$> ncs_candidates scan) ∧ NoDup (nc_name <$> ncs_candidates scan).
Proof.
  intros Hstep E. apply scan_unfold in E as (tokens & exclusions & left & Ht & Hx & Hlim & Ha & Hcount & Hloop).
  exists tokens, exclusions. split; [done|]. split; [done|]. cbv zeta.
  apply scan_loop_ok in Hloop as (n & Hn & Hp & Hvals & Hnamed & Hlen & Hlast); [|cbn; lia|constructor].
  assert (Hatt : Z.to_nat (ncs_attempts scan) = n) by lia. rewrite Hatt. cbn [fmap list_fmap app] in Hvals.
  assert (Hnd : NoDup (nc_value <$> ncs_candidates scan)).
  { rewrite Hvals. apply NoDup_filter.
    assert (Hs : StronglySorted Z.lt (progression (first_value strategy current) (default 1%Z (nss_step strategy)) n))
      by (apply progression_sorted; lia). revert Hs. clear.
    induction (progression _ _ n) as [|v l IH]; intros Hs; [constructor|]. inversion Hs as [|? ? Hl Hall]; subst.
    constructor; [|by apply IH]. intros Hin. rewrite Forall_forall in Hall. apply Hall in Hin. lia. }
  assert (Hpos : 1 ≤ n).
  { destruct n; [|lia]. cbn in Hvals. apply (f_equal length) in Hvals. rewrite length_fmap in Hvals. cbn in Hvals. lia. }
  split_and!; [exact Hvals|exact Hnamed|lia| |lia|lia|done|].
  - rewrite Hvals. unfold allowed_among. destruct (progression _ _ n) as [|l v _] using rev_ind; [done|].
    rewrite last_snoc in Hlast |- *. rewrite filter_app, filter_cons, decide_True, filter_nil by done. by rewrite last_snoc.
  - revert Hnd Hnamed. clear -Ht. apply compile_good in Ht as [_ _ Hseq].
    induction (ncs_candidates scan) as [|c l IH]; intros Hnd Hnamed; [constructor|].
    apply NoDup_cons in Hnd as [Hc Hnd]. apply Forall_cons in Hnamed as [Hn Hnamed].
    constructor; [|by apply IH]. intros (c' & Hname & Hin)%list_elem_of_fmap. apply Hc.
    rewrite Forall_forall in Hnamed. pose proof (Hnamed c' Hin) as Hn'. unfold named in Hn, Hn'. cbn beta in Hn, Hn'. rewrite <-Hname in Hn'.
    rewrite (render_inj doctype strategy d context _ _ tokens (nc_name c) Hseq Hn Hn'). by apply list_elem_of_fmap_2.
Qed.


(** A counter is shared exactly by the documents that agree on the period and on
    the values of the scope fields: its scope determines them, and is determined by
    them. *)
Theorem naming_scope_identity `{NamingHost} doctype strategy d d' context context' i i' texts texts' :
  resolveNamingSeriesIdentity doctype strategy d context = Ok i →
  resolveNamingSeriesIdentity doctype strategy d' context' = Ok i' →
  scope_values strategy d = Ok texts → scope_values strategy d' = Ok texts' →
  Forall jstr_wf texts → Forall jstr_wf texts' →
  nsi_scope i = nsi_scope i' ↔ scope_dates strategy context = scope_dates strategy context' ∧ texts = texts'.
Proof.
  intros (dates & ts & enc & Hd & Ht & He & Hl & Hb & Hs)%identity_ok
    (dates' & ts' & enc' & Hd' & Ht' & He' & Hl' & Hb' & Hs')%identity_ok E E' Hw Hw'.
  rewrite Ht in E. rewrite Ht' in E'. injection E as <-. injection E' as <-. rewrite Hs, Hs', Hd, Hd'.
  assert (Hbars : ∀ ts enc, Forall jstr_wf ts → Forall2 (λ t e, encodeURIComponent t = Ok e) ts enc → Forall (λ t, BAR ∉ t) enc).
  { intros l l' Hl1. induction 1 as [|t e l l' Hte _ IH]; [constructor|]. apply Forall_cons in Hl1 as [? ?].
    constructor; [by eapply encode_no_bar|by apply IH]. }
  split.
  - intros E%join_labelled; [|done|done|apply Forall_app; split; [done|by apply (Hbars ts)]|apply Forall_app; split; [done|by apply (Hbars ts')]].
    assert (Hdl : length dates = length dates').
    { pose proof (f_equal length E) as Hlen. rewrite !length_app in Hlen.
      apply map_res_length in Ht. apply map_res_length in Ht'. apply Forall2_length in He, He'. lia. }
    apply app_inj_1 in E as [-> ->]; [|done]. split; [done|].
    clear -He He' Hw Hw'. revert ts' He' Hw'. induction He as [|t e ts enc Hte _ IH]; intros ts' He' Hw'; [by inversion He'|].
    inversion He' as [|t' ? ts2 ? Hte' He2]; subst. apply Forall_cons in Hw as [? ?], Hw' as [? ?].
    f_equal; [by eapply encode_inj|by apply IH].
  - intros [[= ->] ->]. f_equal. f_equal. f_equal. clear -He He'. revert enc' He'.
    induction He as [|t e ts enc Hte _ IH]; intros enc' He'; [by inversion He'|].
    inversion He' as [|? e' ? enc2 Hte' He2]; subst. f_equal; [congruence|by apply IH].
Qed.

(** ** Patterns *)

(** A compiled pattern has at most 32 tokens, one of them a sequence, each well
    formed for the doctype; and it is recovered from its own text: printing the
    tokens and compiling again gives the same tokens. *)
Theorem naming_pattern_roundtrip doctype strategy tokens :
  compileNamingPattern doctype strategy = Ok tokens →
  pattern_good doctype tokens ∧ compileNamingPattern doctype (with_pattern (print_tokens tokens) strategy) = Ok tokens.
Proof. intros E%compile_good. split; [done|by apply compile_print]. Qed.

(** ** Witnesses *)

Definition sample_naming_field (name : jstr) (readOnly noCopy : bool) : FieldDefinition :=
  plain_field name FText readOnly false noCopy None.

Definition sample_naming_doctype : DocTypeDefinition :=
  plain_doctype (js "Invoice") [sample_naming_field (js "number") true true; sample_naming_field (js "branch") false false].

(** INV-202610-HK-0001, ..., a counter per branch and month. *)
Definition sample_series : NamingSeriesStrategy :=
  {| nss_pattern := js "INV-{YYYY}{MM}-{field:branch}-####"; nss_targetField := Some (js "number");
     nss_counter := Some (js "invoices"); nss_padding := None; nss_start := Some 3%Z; nss_step := None;
     nss_reset := Some ResetMonth; nss_scopeFields := Some [js "branch"];
     nss_exclusions := Some [ExRange 4 5; ExSuffix (js "7")]; nss_maxAttempts := Some 20%Z |}.

#[local] Instance sample_naming_host : NamingHost :=
  {| nh_date := λ _, Some sample_date_time; nh_number := λ _, js "0"; nh_lower := λ c, [c] |}.

Definition sample_naming_context : NamingRenderContext :=
  {| nrc_tenantId := js "acme"; nrc_now := js "2026-10-15T00:00:00.000Z" |}.

Definition sample_branch (branch : jstr) : data := [(js "branch", VStr branch)].

Definition sample_tokens : list NamingPatternToken :=
  [TLiteral (js "INV-"); TDate DYYYY; TDate DMM; TLiteral (js "-"); TField (js "branch"); TLiteral (js "-"); TSequence (Some 4)].

Lemma naming_pattern_roundtrip_witness : pattern_good sample_naming_doctype sample_tokens.
Proof. apply (naming_pattern_roundtrip sample_naming_doctype sample_series sample_tokens). by vm_compute. Defined.

Lemma normalized_series_sound_witness : series_ok sample_naming_doctype sample_series.
Proof.
  exact (proj2 (normalized_series_sound sample_naming_doctype (NamingSeries sample_series) (NamingSeries sample_series)
    eq_refl)).
Defined.

(** The values 4 and 5 are excluded, and so is the name of 7. *)
Definition sample_scan : NamingCandidateScan :=
  {| ncs_candidates := [{| nc_value := 3; nc_name := js "INV-202610-HK-0003" |};
                        {| nc_value := 6; nc_name := js "INV-202610-HK-0006" |};
                        {| nc_value := 8; nc_name := js "INV-202610-HK-0008" |}];
     ncs_attempts := 6 |}.

Lemma naming_scan_exact_witness : NoDup (nc_name <$> ncs_candidates sample_scan).
Proof.
  destruct (naming_scan_exact sample_naming_doctype sample_series (sample_branch (js "HK")) sample_naming_context
    None (Some 3%Z) None sample_scan) as (tokens & exclusions & _ & _ & _ & _ & _ & _ & _ & _ & H).
  - done.
  - by vm_compute.
  - exact H.
Defined.

Definition sample_exclusions : list CompiledExclusion := [CExclusion (ExRange 4 5); CExclusion (ExSuffix (js "7"))].


Definition sample_identity (branch : jstr) : NamingSeriesIdentity :=
  let scope := js "date=2026-10|branch=" ++ branch in
  {| nsi_counter := js "invoices"; nsi_scope := scope; nsi_documentName := js "Invoice:invoices:" ++ scope |}.

Lemma naming_scope_identity_witness : nsi_scope (sample_identity (js "HK")) ≠ nsi_scope (sample_identity (js "SG")).
Proof.
  intros E. apply (naming_scope_identity sample_naming_doctype sample_series (sample_branch (js "HK"))
    (sample_branch (js "SG")) sample_naming_context sample_naming_context (sample_identity (js "HK"))
    (sample_identity (js "SG")) [js "HK"] [js "SG"]) in E as [_ E].
  - discriminate E.
  - by vm_compute.
  - by vm_compute.
  - by vm_compute.
  - by vm_compute.
  - by repeat constructor.
  - by repeat constructor.
Defined.
