(* ===== verification/NamingConfiguration.v ===== *)
(** * NamingConfiguration: the naming strategy in force, and the events of naming

    Models [core/naming-configuration.ts], [application/naming-events.ts],
    [application/document-naming.ts] and [application/metadata-revision.ts]: the
    fold of the strategy that administrators save and clear, its application to a
    doctype, the events of a counter, and the write that pairs a change of metadata
    with an advance of the doctype's metadata revision. *)

From S2P Require Export NamingSeries EventStore Lifecycle Interference.

(** ** The fold of a configuration *)

Definition NAMING_CONFIGURATION_PAYLOAD_KINDS : list jstr := [js "NamingStrategySaved"; js "NamingStrategyCleared"].

Inductive NamingSource := SourceDefault | SourceStatic | SourceRuntime.

Record NamingConfigurationState := {
  ncf_tenantId : jstr;
  ncf_doctype : jstr;
  ncf_version : Z;
  ncf_staticStrategy : option NamingStrategy;
  ncf_runtimeStrategy : option NamingStrategy;
  ncf_effectiveStrategy : option NamingStrategy;
  ncf_source : NamingSource;
  ncf_updatedAt : option jstr
}.

(** [isNamingConfigurationPayloadKind(kind)] and [isNamingConfigurationEvent(event)]. *)
Definition isNamingConfigurationPayloadKind (kind : jstr) : bool :=
  bool_decide (kind ∈ NAMING_CONFIGURATION_PAYLOAD_KINDS).
Definition isNamingConfigurationEvent (event : DomainEvent) : bool :=
  isNamingConfigurationPayloadKind (domainEventPayloadKind event).

(** The body of the loop of [foldNamingConfigurationFrom]. *)
Definition fold_naming_step (doctypeName : jstr) (acc : option NamingStrategy * Z * option jstr) (event : DomainEvent)
    : option NamingStrategy * Z * option jstr :=
  let '(runtimeStrategy, version, updatedAt) := acc in
  match e_payload event with
  | PNamingStrategySaved d strategy =>
      if bool_decide (d = doctypeName)
      then (Some strategy, Z.max version (e_sequence event), Some (e_occurredAt event)) else acc
  | PNamingStrategyCleared d =>
      if bool_decide (d = doctypeName)
      then (None, Z.max version (e_sequence event), Some (e_occurredAt event)) else acc
  | _ => acc
  end.

(** [a ?? b]. *)
Definition or_else {A} (a b : option A) : option A := match a with Some _ => a | None => b end.

(** The state that a fold returns. *)
Definition naming_state (tenantId : jstr) (doctype : DocTypeDefinition)
    (acc : option NamingStrategy * Z * option jstr) : NamingConfigurationState :=
  let '(runtimeStrategy, version, updatedAt) := acc in
  {| ncf_tenantId := tenantId; ncf_doctype := dt_name doctype; ncf_version := version;
     ncf_staticStrategy := dt_naming doctype; ncf_runtimeStrategy := runtimeStrategy;
     ncf_effectiveStrategy := or_else runtimeStrategy (dt_naming doctype);
     ncf_source := match runtimeStrategy, dt_naming doctype with
       | Some _, _ => SourceRuntime | None, Some _ => SourceStatic | None, None => SourceDefault
       end;
     ncf_updatedAt := updatedAt |}.

(** [foldNamingConfigurationFrom(initial, tenantId, doctype, events)]. *)
Definition foldNamingConfigurationFrom (initial : option NamingConfigurationState) (tenantId : jstr)
    (doctype : DocTypeDefinition) (events : list DomainEvent) : NamingConfigurationState :=
  naming_state tenantId doctype
    (foldl (fold_naming_step (dt_name doctype))
      (initial ≫= ncf_runtimeStrategy, default 0%Z (ncf_version <$> initial), initial ≫= ncf_updatedAt)
      (sort_events events)).

(** [foldNamingConfiguration(tenantId, doctype, events)]. *)
Definition foldNamingConfiguration (tenantId : jstr) (doctype : DocTypeDefinition) (events : list DomainEvent)
    : NamingConfigurationState := foldNamingConfigurationFrom None tenantId doctype events.

(** [applyNamingConfigurationToDocType(base, state)]. *)
Definition applyNamingConfigurationToDocType (base : DocTypeDefinition) (state : NamingConfigurationState)
    : res DocTypeDefinition :=
  _ ← ensure (bool_decide (dt_name base = ncf_doctype state)) (invalidNaming 400);
  effectiveStrategy ← optional_res (normalizeNamingStrategy base) (ncf_effectiveStrategy state);
  Ok (with_naming base effectiveStrategy).

(** [namingStrategySavedPayload(doctypeName, strategy)], [namingStrategyClearedPayload(doctypeName)]
    and [namingEventType(payload)]. *)
Definition namingStrategySavedPayload (doctypeName : jstr) (strategy : NamingStrategy) : payload :=
  PNamingStrategySaved doctypeName strategy.
Definition namingStrategyClearedPayload (doctypeName : jstr) : payload := PNamingStrategyCleared doctypeName.
Definition namingEventType (p : payload) : jstr := payload_kind p.

(** ** The names of documents *)

Definition NAMING_SERIES_DOCTYPE : jstr := js "__NamingSeries".

Record NamingSeriesEventPlan := {
  nsp_eventType : jstr;
  nsp_documentName : jstr;
  nsp_payload : payload;
  nsp_metadata : data
}.

(** [resolveDocumentName(doctype, data, ids)], in a call that takes identifiers. *)
Definition resolveDocumentName {S} (ids : nat → jstr) (doctype : DocTypeDefinition) (d : data) : M (Client S) jstr :=
  match default NamingUuid (dt_naming doctype) with
  | NamingUuid => next_id ids
  | NamingField field =>
      match vget field d with
      | VStr v => if bool_decide (v = []) then m_throw validationFailed else mret v
      | _ => m_throw validationFailed
      end
  | NamingSeries _ => m_throw (FrameworkError DOCTYPE_NAMING_INVALID 500)
  | NamingProvided field =>
      match vget (default (js "name") field) d with
      | VStr v => if bool_decide (v = []) then next_id ids else mret v
      | _ => next_id ids
      end
  end.

(** [ensureCreateNameAllowed(doctype, name)]. *)
Definition ensureCreateNameAllowed (doctype : DocTypeDefinition) (name : option jstr) : res unit :=
  match name, dt_naming doctype with
  | Some _, Some (NamingSeries _) => Throw validationFailed
  | _, _ => Ok tt
  end.

(** The field that a series generates. *)
Definition generated_field (doctype : DocTypeDefinition) : option jstr :=
  match dt_naming doctype with Some (NamingSeries series) => nss_targetField series | _ => None end.

(** [generatedNamingFieldMutationIssues(doctype, touchedFields)]. *)
Definition generatedNamingFieldMutationIssues (doctype : DocTypeDefinition) (touchedFields : list jstr)
    : list ValidationIssue :=
  match generated_field doctype with
  | Some targetField =>
      if bool_decide (targetField ∈ touchedFields)
      then [{| vi_field := Some targetField; vi_code := js "generated_name" |}] else []
  | None => []
  end.

(** [renderNamingSeries(pattern, value)]: the first run of [#] becomes the number. *)
Fixpoint renderNamingSeries (pattern : jstr) (v : Z) : jstr :=
  match pattern with
  | [] => []
  | c :: rest =>
      if bool_decide (c = HASH) then let (width, rest) := hashes pattern in padded width v ++ rest
      else c :: renderNamingSeries rest v
  end.

(** An optional property of an object. *)
Definition entry (key : jstr) (v : option jstr) : data := match v with Some s => [(key, VStr s)] | None => [] end.

(** [input.scope === undefined || input.scope.length === 0]: the scope that is stored. *)
Definition stored_scope (scope : option jstr) : option jstr :=
  match scope with Some s => if bool_decide (s = []) then None else Some s | None => None end.

Definition KEY_current : jstr := js "current".

(** [planNamingSeriesEvent(input)]. *)
Definition planNamingSeriesEvent (doctypeName pattern : jstr) (counter scope : option jstr) (next : Z)
    (existing : option DocumentSnapshot) : NamingSeriesEventPlan :=
  let scope := stored_scope scope in
  let scoped := entry (js "scope") scope in
  {| nsp_eventType := match existing with
       | Some _ => js "NamingSeriesAdvanced" | None => js "NamingSeriesStarted" end;
     nsp_documentName := doctypeName ++ js ":" ++ default pattern counter ++
       match scope with Some s => js ":" ++ s | None => [] end;
     nsp_payload := match existing with
       | Some _ => documentUpdatedPayload ([(KEY_current, vint next)] ++
           match counter with
           | Some c => [(js "pattern", VStr pattern); (js "counter", VStr c)]
           | None => []
           end ++ scoped) []
       | None => documentCreatedPayload ([(js "doctype", VStr doctypeName); (js "pattern", VStr pattern)] ++
           entry (js "counter") counter ++ scoped ++ [(KEY_current, vint next)]) Draft
       end;
     nsp_metadata := [(js "target_doctype", VStr doctypeName)] ++ entry (js "counter") counter ++ scoped |}.

(** [namingSeriesEventCommand(input)], with the identifier that its callers add. *)
Definition namingSeriesEventCommand (id tenantId stream actorId occurredAt : jstr) (plan : NamingSeriesEventPlan)
    : NewDomainEvent :=
  {| e_id := id; e_tenantId := tenantId; e_stream := stream; e_type := nsp_eventType plan;
     e_doctype := NAMING_SERIES_DOCTYPE; e_documentName := nsp_documentName plan; e_actorId := actorId;
     e_occurredAt := occurredAt; e_payload := nsp_payload plan; e_metadata := nsp_metadata plan |}.

(** ** The metadata revision *)

(** [metadataRevisionVersion(events, tenantId, doctype)], on the streams that the
    call finds. *)
Definition metadataRevisionVersion (tenantId doctype : jstr) (streams : streams_map) : res Z :=
  stream ← metadataRevisionStream tenantId doctype;
  Ok (currentVersion streams stream).

(** The event that advances the revision. *)
Definition metadata_revision_event (tenantId doctype revisionStream sourceStream : jstr) (sourceEvent : NewDomainEvent)
    (metadataRevision : Z) : NewDomainEvent :=
  {| e_id := e_id sourceEvent ++ js ":metadata"; e_tenantId := tenantId; e_stream := revisionStream;
     e_type := js (if (metadataRevision =? 0)%Z then "MetadataRevisionStarted" else "MetadataRevisionAdvanced");
     e_doctype := js "__MetadataRevision"; e_documentName := doctype; e_actorId := e_actorId sourceEvent;
     e_occurredAt := e_occurredAt sourceEvent;
     e_payload := if (metadataRevision =? 0)%Z
       then PDocumentCreated [(js "revision", vint 1)] Draft
       else PDocumentUpdated [(js "revision", vint (metadataRevision + 1))] None;
     e_metadata := [(js "sourceStream", VStr sourceStream)] |}.

(** [appendMetadataMutation(events, input)]. *)
Definition appendMetadataMutation (tenantId doctype sourceStream : jstr) (sourceExpectedVersion : Z)
    (sourceEvent : NewDomainEvent) (metadataRevision : Z) : M streams_map DomainEvent :=
  revisionStream ← m_lift (metadataRevisionStream tenantId doctype);
  let revisionEvent := metadata_revision_event tenantId doctype revisionStream sourceStream sourceEvent metadataRevision in
  saved ← appendBatch
    [ {| ae_stream := sourceStream; ae_expectedVersion := sourceExpectedVersion; ae_events := [sourceEvent] |};
      {| ae_stream := revisionStream; ae_expectedVersion := metadataRevision; ae_events := [revisionEvent] |} ];
  match List.find (λ event : DomainEvent, bool_decide (e_id event = e_id sourceEvent)) saved with
  | Some source => mret source
  | None => m_throw (FrameworkError DOCUMENT_INVALID 500)
  end.
