(* ===== verification/UniqueValues.v ===== *)
(** * UniqueValues: reservations of the values of unique fields

    Models [application/document-unique-values.ts] and
    [application/document-atomic-commit-policy.ts].  A unique field reserves its
    value on a stream of its own, named by the doctype, the field and a canonical key
    of the value; a commit writes the document, its reservations, its releases and
    its counter in one batch.  The text of a number is the host's. *)

From S2P Require Export NamingConfiguration.

Definition UNIQUE_VALUE_DOCTYPE : jstr := js "__UniqueValues".
Definition MAX_UNIQUE_VALUE_KEY_LENGTH : nat := 512.

Record UniqueValueReservation := {
  uvr_tenantId : jstr;
  uvr_stream : jstr;
  uvr_doctype : jstr;
  uvr_field : jstr;
  uvr_valueKey : jstr;
  uvr_valueLabel : jstr;
  uvr_documentName : jstr
}.

Record UniqueValueEventPlan := {
  uvp_eventType : jstr;
  uvp_documentName : jstr;
  uvp_payload : payload;
  uvp_metadata : data
}.

Inductive UniqueValueReservationWriteDecision :=
| ReserveSkip
| ReserveConflict
| Reserve (reservation : UniqueValueReservation) (existing : option DocumentSnapshot).

Inductive UniqueValueReleaseWriteDecision :=
| ReleaseSkip
| Release (reservation : UniqueValueReservation) (existing : DocumentSnapshot).

(** Whether the owner of a reservation is to be read, and which document it is. *)
Inductive UniqueValueReservationOwnerLookup :=
| LookupSkip
| LookupOwner (documentName : jstr).

Definition KEY_active : jstr := js "active".
Definition KEY_documentName : jstr := js "documentName".

(** ** Canonical values *)

(** [boundedUniqueValue(key, label, fieldName)]. *)
Definition boundedUniqueValue (key label : jstr) : res (option (jstr * jstr)) :=
  _ ← ensure (Nat.leb (length key) MAX_UNIQUE_VALUE_KEY_LENGTH) validationFailed;
  Ok (Some (key, label)).

Section keys.
Context (number_text : num → jstr).

(** [canonicalUniqueValue(value, fieldName)]: the key and the label. *)
Definition canonicalUniqueValue (v : value) : res (option (jstr * jstr)) :=
  match v with
  | VUndef | VNull => Ok None
  | VStr s => if bool_decide (s = []) then Ok None else boundedUniqueValue (js "s:" ++ s) s
  | VNum n => boundedUniqueValue (js "n:" ++ number_text n) (number_text n)
  | VBool b => let text := js (if b then "true" else "false") in boundedUniqueValue (js "b:" ++ text) text
  | VArr _ | VObj _ => Throw validationFailed
  end.

(** The reservation of one field. *)
Definition field_reservation (tenantId doctypeName : jstr) (d : data) (documentName : jstr) (field : FieldDefinition)
    : res (list UniqueValueReservation) :=
  if fd_unique field then
    canonical ← canonicalUniqueValue (vget (fd_name field) d);
    match canonical with
    | None => Ok []
    | Some (key, label) =>
        stream ← uniqueValueStream tenantId doctypeName (fd_name field) key;
        Ok [{| uvr_tenantId := tenantId; uvr_stream := stream; uvr_doctype := doctypeName;
               uvr_field := fd_name field; uvr_valueKey := key; uvr_valueLabel := label;
               uvr_documentName := documentName |}]
    end
  else Ok [].

(** [uniqueValueReservations(tenantId, doctype, data, documentName)]. *)
Definition uniqueValueReservations (tenantId : jstr) (doctype : DocTypeDefinition) (d : data) (documentName : jstr)
    : res (list UniqueValueReservation) :=
  reservations ← map_res (field_reservation tenantId (dt_name doctype) d documentName) (dt_fields doctype);
  Ok (concat reservations).

(** [uniqueReservationOwnerStillOwnsValue(reservation, owner)]. *)
Definition uniqueReservationOwnerStillOwnsValue (reservation : UniqueValueReservation) (owner : option DocumentSnapshot)
    : res bool :=
  match owner with
  | None => Ok false
  | Some owner =>
      if bool_decide (ds_docstatus owner = Deleted) then Ok false
      else
        canonical ← canonicalUniqueValue (vget (uvr_field reservation) (ds_data owner));
        Ok (match canonical with Some (key, _) => bool_decide (key = uvr_valueKey reservation) | None => false end)
  end.
End keys.

(** [activeUniqueValueOwner(snapshot)]. *)
Definition activeUniqueValueOwner (snapshot : option DocumentSnapshot) : option jstr :=
  match snapshot with
  | None => None
  | Some s =>
      if bool_decide (ds_docstatus s = Deleted) then None
      else match vget KEY_active (ds_data s) with
      | VBool false => None
      | _ => match vget KEY_documentName (ds_data s) with
          | VStr owner => if bool_decide (owner = []) then None else Some owner
          | _ => None
          end
      end
  end.

(** [uniqueValueReservationKey(reservation)]. *)
Definition uniqueValueReservationKey (reservation : UniqueValueReservation) : jstr :=
  uvr_stream reservation ++ [0%N] ++ uvr_documentName reservation.

(** [releasedUniqueValueReservations(existing, next)]. *)
Definition releasedUniqueValueReservations (existing next : list UniqueValueReservation) : list UniqueValueReservation :=
  let nextKeys := uniqueValueReservationKey <$> next in
  filter (λ reservation, uniqueValueReservationKey reservation ∉ nextKeys) existing.

(** ** Events *)

(** [uniqueValueDocumentName(reservation)] and [uniqueValueEventMetadata(reservation)]. *)
Definition uniqueValueDocumentName (reservation : UniqueValueReservation) : jstr :=
  uvr_doctype reservation ++ js ":" ++ uvr_field reservation ++ js ":" ++ uvr_valueKey reservation.
Definition uniqueValueEventMetadata (reservation : UniqueValueReservation) : data :=
  [(js "target_doctype", VStr (uvr_doctype reservation)); (js "target_field", VStr (uvr_field reservation))].

(** [planUniqueValueReservationEvent(reservation, existing)]. *)
Definition planUniqueValueReservationEvent (reservation : UniqueValueReservation) (existing : option DocumentSnapshot)
    : UniqueValueEventPlan :=
  {| uvp_eventType := js (match existing with Some _ => "UniqueValueReserved" | None => "UniqueValueStarted" end);
     uvp_documentName := uniqueValueDocumentName reservation;
     uvp_payload := match existing with
       | Some _ => documentUpdatedPayload
           [(KEY_active, VBool true); (KEY_documentName, VStr (uvr_documentName reservation))] []
       | None => documentCreatedPayload
           [ (js "doctype", VStr (uvr_doctype reservation)); (js "field", VStr (uvr_field reservation));
             (js "value", VStr (uvr_valueLabel reservation)); (js "valueKey", VStr (uvr_valueKey reservation));
             (KEY_documentName, VStr (uvr_documentName reservation)); (KEY_active, VBool true) ] Draft
       end;
     uvp_metadata := uniqueValueEventMetadata reservation |}.

(** [planUniqueValueReleaseEvent(reservation)]. *)
Definition planUniqueValueReleaseEvent (reservation : UniqueValueReservation) : UniqueValueEventPlan :=
  {| uvp_eventType := js "UniqueValueReleased"; uvp_documentName := uniqueValueDocumentName reservation;
     uvp_payload := documentUpdatedPayload [(KEY_active, VBool false)] [];
     uvp_metadata := uniqueValueEventMetadata reservation |}.

(** [uniqueValueEventCommand(input)], with the identifier that its callers add. *)
Definition uniqueValueEventCommand (id : jstr) (reservation : UniqueValueReservation) (actorId occurredAt : jstr)
    (plan : UniqueValueEventPlan) : NewDomainEvent :=
  {| e_id := id; e_tenantId := uvr_tenantId reservation; e_stream := uvr_stream reservation;
     e_type := uvp_eventType plan; e_doctype := UNIQUE_VALUE_DOCTYPE; e_documentName := uvp_documentName plan;
     e_actorId := actorId; e_occurredAt := occurredAt; e_payload := uvp_payload plan;
     e_metadata := uvp_metadata plan |}.

(** ** Decisions *)

(** [planUniqueValueReservationOwnerLookup(input)]. *)
Definition planUniqueValueReservationOwnerLookup (reservation : UniqueValueReservation)
    (existing : option DocumentSnapshot) : UniqueValueReservationOwnerLookup :=
  match activeUniqueValueOwner existing with
  | None => LookupSkip
  | Some owner => if bool_decide (owner = uvr_documentName reservation) then LookupSkip else LookupOwner owner
  end.

(** [planUniqueValueReservationWriteDecision(input)]. *)
Definition planUniqueValueReservationWriteDecision (reservation : UniqueValueReservation)
    (existing : option DocumentSnapshot) (ownerStillOwnsValue : bool) : UniqueValueReservationWriteDecision :=
  let owner := activeUniqueValueOwner existing in
  if bool_decide (owner = Some (uvr_documentName reservation)) then ReserveSkip
  else if match owner with Some _ => ownerStillOwnsValue | None => false end then ReserveConflict
  else Reserve reservation existing.

(** [planUniqueValueReleaseWriteDecision(input)]. *)
Definition planUniqueValueReleaseWriteDecision (reservation : UniqueValueReservation)
    (existing : option DocumentSnapshot) : UniqueValueReleaseWriteDecision :=
  match existing with
  | None => ReleaseSkip
  | Some s =>
      if bool_decide (activeUniqueValueOwner existing = Some (uvr_documentName reservation))
      then Release reservation s else ReleaseSkip
  end.

(** [projectUniqueValueReservationWrite(input)]. *)
Definition projectUniqueValueReservationWrite (reservation : UniqueValueReservation)
    (existing : option DocumentSnapshot) (saved : DomainEvent) : res DocumentSnapshot :=
  match existing with
  | None => snapshotFromDocumentCreatedEvent saved
  | Some existing =>
      Ok (snapshotFromCommittedDocumentEvent existing saved
        (Some (jm_set KEY_active (VBool true)
          (jm_set KEY_documentName (VStr (uvr_documentName reservation)) (ds_data existing)))) None)
  end.

(** [projectUniqueValueReleaseWrite(input)]. *)
Definition projectUniqueValueReleaseWrite (existing : DocumentSnapshot) (saved : DomainEvent) : DocumentSnapshot :=
  snapshotFromCommittedDocumentEvent existing saved (Some (jm_set KEY_active (VBool false) (ds_data existing))) None.

(** ** Atomic commits *)

Record AtomicUniqueReservationWrite := {
  arw_reservation : UniqueValueReservation;
  arw_existing : option DocumentSnapshot;
  arw_event : NewDomainEvent
}.

Record AtomicUniqueReleaseWrite := {
  alw_reservation : UniqueValueReservation;
  alw_existing : DocumentSnapshot;
  alw_event : NewDomainEvent
}.

Record AtomicNamingSeriesWrite := {
  anw_stream : jstr;
  anw_existing : option DocumentSnapshot;
  anw_next : Z;
  anw_event : NewDomainEvent
}.

(** [existing?.version ?? 0]. *)
Definition version_of (existing : option DocumentSnapshot) : Z := default 0%Z (ds_version <$> existing).

Definition naming_entry (write : AtomicNamingSeriesWrite) : AppendEntry :=
  {| ae_stream := anw_stream write; ae_expectedVersion := version_of (anw_existing write);
     ae_events := [anw_event write] |}.
Definition reservation_entry (write : AtomicUniqueReservationWrite) : AppendEntry :=
  {| ae_stream := uvr_stream (arw_reservation write); ae_expectedVersion := version_of (arw_existing write);
     ae_events := [arw_event write] |}.
Definition release_entry (write : AtomicUniqueReleaseWrite) : AppendEntry :=
  {| ae_stream := uvr_stream (alw_reservation write); ae_expectedVersion := ds_version (alw_existing write);
     ae_events := [alw_event write] |}.

(** [documentAtomicCommitEntries(input)]. *)
Definition documentAtomicCommitEntries (namingSeriesWrite : option AtomicNamingSeriesWrite)
    (uniqueReservationWrites : list AtomicUniqueReservationWrite) (uniqueReleaseWrites : list AtomicUniqueReleaseWrite)
    (stream : jstr) (expectedVersion : Z) (event : NewDomainEvent) : list AppendEntry :=
  (match namingSeriesWrite with Some write => [naming_entry write] | None => [] end) ++
  (reservation_entry <$> uniqueReservationWrites) ++
  (release_entry <$> uniqueReleaseWrites) ++
  [{| ae_stream := stream; ae_expectedVersion := expectedVersion; ae_events := [event] |}].

(** The projection of the event of a counter: the value it was given. *)
Definition counter_projection (existing : option DocumentSnapshot) (current : Z) (saved : DomainEvent)
    : res DocumentSnapshot :=
  match existing with
  | None => snapshotFromDocumentCreatedEvent saved
  | Some existing =>
      let patch := match e_payload saved with PDocumentUpdated patch _ => patch | _ => [] end in
      Ok (snapshotFromCommittedDocumentEvent existing saved
        (Some (jm_set KEY_current (vint current) (jm_spread (ds_data existing) patch))) None)
  end.

(** [projectNamingSeriesWrite(write, savedEvents)]. *)
Definition projectNamingSeriesWrite (write : AtomicNamingSeriesWrite) (savedEvents : list DomainEvent)
    : res DocumentSnapshot :=
  saved ← requireSavedEvent savedEvents (e_id (anw_event write));
  counter_projection (anw_existing write) (anw_next write) saved.

(** [documentAtomicAuxiliarySnapshots(input)]. *)
Definition documentAtomicAuxiliarySnapshots (savedEvents : list DomainEvent)
    (namingSeriesWrite : option AtomicNamingSeriesWrite) (uniqueReservationWrites : list AtomicUniqueReservationWrite)
    (uniqueReleaseWrites : list AtomicUniqueReleaseWrite) : res (list DocumentSnapshot) :=
  naming ← match namingSeriesWrite with
    | Some write => snapshot ← projectNamingSeriesWrite write savedEvents; Ok [snapshot]
    | None => Ok []
    end;
  reserved ← map_res (λ write,
    saved ← requireSavedEvent savedEvents (e_id (arw_event write));
    projectUniqueValueReservationWrite (arw_reservation write) (arw_existing write) saved) uniqueReservationWrites;
  released ← map_res (λ write,
    saved ← requireSavedEvent savedEvents (e_id (alw_event write));
    Ok (projectUniqueValueReleaseWrite (alw_existing write) saved)) uniqueReleaseWrites;
  Ok (naming ++ reserved ++ released).

(** ** The reservations of a document *)

Section reservations.
Context (number_text : num → jstr) (tenantId : jstr) (doctype : DocTypeDefinition) (d : data) (documentName : jstr).

(** A reservation that the data ask for. *)
Definition reservation_of (r : UniqueValueReservation) : Prop :=
  uvr_tenantId r = tenantId ∧ uvr_doctype r = dt_name doctype ∧ uvr_documentName r = documentName ∧
  uniqueValueStream tenantId (dt_name doctype) (uvr_field r) (uvr_valueKey r) = Ok (uvr_stream r) ∧
  (∃ field, field ∈ dt_fields doctype ∧ fd_unique field = true ∧ fd_name field = uvr_field r) ∧
  canonicalUniqueValue number_text (vget (uvr_field r) d) = Ok (Some (uvr_valueKey r, uvr_valueLabel r)).

Lemma field_reservation_elem field rs r :
  field_reservation number_text tenantId (dt_name doctype) d documentName field = Ok rs → r ∈ rs →
  field ∈ dt_fields doctype → reservation_of r ∧ uvr_field r = fd_name field.
Proof.
  unfold field_reservation. destruct (fd_unique field) eqn:Eu; [|intros [= <-] ?%elem_of_nil; done].
  intros E Hr Hf. step_ok E as canonical Hc. destruct canonical as [[key label]|]; [|by injection E as <-; apply elem_of_nil in Hr].
  step_ok E as stream Hs. injection E as <-. apply list_elem_of_singleton in Hr as ->.
  split; [|done]. split_and!; try done. by exists field.
Qed.

Lemma field_reservation_fields field rs :
  field_reservation number_text tenantId (dt_name doctype) d documentName field = Ok rs →
  uvr_field <$> rs = [] ∨ uvr_field <$> rs = [fd_name field].
Proof.
  unfold field_reservation. destruct (fd_unique field); [|intros [= <-]; by left].
  intros E. step_ok E as canonical Hc. destruct canonical as [[key label]|]; [|by injection E as <-; left].
  step_ok E as stream Hs. injection E as <-. by right.
Qed.

Lemma reservations_elem rs r :
  uniqueValueReservations number_text tenantId doctype d documentName = Ok rs → r ∈ rs → reservation_of r.
Proof.
  unfold uniqueValueReservations. intros E Hr. step_ok E as groups Hg. injection E as <-. apply map_res_ok in Hg.
  apply list_elem_of_In, in_concat in Hr as (g & Hg' & Hr). apply list_elem_of_In in Hg', Hr.
  apply list_elem_of_lookup in Hg' as [i Hi]. destruct (Forall2_lookup_r _ _ _ _ _ Hg Hi) as (field & Hf & E).
  by eapply field_reservation_elem, list_elem_of_lookup_2.
Qed.

(** Every value of a unique field is reserved. *)
Lemma reservations_complete rs field key label :
  uniqueValueReservations number_text tenantId doctype d documentName = Ok rs →
  field ∈ dt_fields doctype → fd_unique field = true →
  canonicalUniqueValue number_text (vget (fd_name field) d) = Ok (Some (key, label)) →
  ∃ r, r ∈ rs ∧ uvr_field r = fd_name field ∧ uvr_valueKey r = key.
Proof.
  unfold uniqueValueReservations. intros E Hf Hu Hc. step_ok E as groups Hg. injection E as <-. apply map_res_ok in Hg.
  apply list_elem_of_lookup in Hf as [i Hi]. destruct (Forall2_lookup_l _ _ _ _ _ Hg Hi) as (g & Hgi & E).
  unfold field_reservation in E. rewrite Hu, Hc in E. cbn [mbind res_bind] in E. step_ok E as stream Hs. injection E as <-.
  apply list_elem_of_lookup_2, list_elem_of_In in Hgi.
  eexists. split; [apply list_elem_of_In, in_concat; eexists; split; [exact Hgi|by left]|done].
Qed.

(** A field reserves at most one value. *)
Lemma reservations_fields rs :
  NoDup (fd_name <$> dt_fields doctype) →
  uniqueValueReservations number_text tenantId doctype d documentName = Ok rs → NoDup (uvr_field <$> rs).
Proof.
  unfold uniqueValueReservations. intros Hnd E. step_ok E as groups Hg. injection E as <-. apply map_res_ok in Hg.
  revert Hnd. induction Hg as [|field g fields groups Hg Hgs IH]; cbn; [intros _; constructor|].
  intros [Hnin Hnd]%NoDup_cons. specialize (IH Hnd). rewrite fmap_app. apply NoDup_app.
  assert (∀ f, f ∈ uvr_field <$> concat groups → f ∈ fd_name <$> fields) as Hsub.
  { intros f (r & -> & (g' & Hg' & Hr)%list_elem_of_In%in_concat)%list_elem_of_fmap. apply list_elem_of_In in Hg', Hr.
    apply list_elem_of_lookup in Hg' as [i Hi]. destruct (Forall2_lookup_r _ _ _ _ _ Hgs Hi) as (field' & Hf & E).
    apply list_elem_of_lookup_2 in Hf. apply list_elem_of_fmap. exists field'. split; [|done].
    apply list_elem_of_fmap_2 with (f := uvr_field) in Hr.
    destruct (field_reservation_fields _ _ E) as [E' | E']; rewrite E' in Hr; [by apply elem_of_nil in Hr|].
    by apply list_elem_of_singleton in Hr. }
  destruct (field_reservation_fields _ _ Hg) as [-> | ->].
  - split_and!; [constructor|by intros f ?%elem_of_nil|done].
  - split_and!; [apply NoDup_singleton|intros f ->%list_elem_of_singleton Hf; by apply Hnin, Hsub|done].
Qed.
End reservations.
