(* ===== verification/NamingService.v ===== *)
(** * NamingService: administering the names of documents

    Models [application/naming-service.ts] on the in-memory document store, which is
    also its event store: saving and clearing the strategy of a doctype, previewing
    the next names, and moving a counter forward.  Other clients of the store may act
    at every [await] ([Interference]). *)

From S2P Require Export UniqueValues Types.

(** ** Commands and options *)

(** [NamingServiceOptions]; the resolver is the application's, and so is the text of
    a strategy ([JSON.stringify], with the keys in the order they were given). *)
Record NamingServiceOptions := {
  nso_registry : Registry;
  nso_adminRoles : option (list jstr);
  nso_preNamingDocTypeResolver : option (DocTypeDefinition → jstr → res DocTypeDefinition);
  nso_stringify : NamingStrategy → jstr
}.

Record SaveNamingStrategyCommand := {
  snc_actor : Actor;
  snc_doctype : jstr;
  snc_strategy : NamingStrategy;
  snc_tenantId : option jstr;
  snc_expectedVersion : option Z;
  snc_metadata : option data
}.

Record ClearNamingStrategyCommand := {
  cnc_actor : Actor;
  cnc_doctype : jstr;
  cnc_tenantId : option jstr;
  cnc_expectedVersion : option Z;
  cnc_metadata : option data
}.

Record PreviewNamingCommand := {
  pnc_actor : Actor;
  pnc_doctype : jstr;
  pnc_data : option data;
  pnc_count : option Z;
  pnc_tenantId : option jstr
}.

Record AdjustNamingCounterCommand := {
  anc_actor : Actor;
  anc_doctype : jstr;
  anc_current : Z;
  anc_data : option data;
  anc_tenantId : option jstr;
  anc_expectedVersion : option Z;
  anc_metadata : option data
}.

Record NamingPreview := {
  npv_tenantId : jstr;
  npv_doctype : jstr;
  npv_counter : jstr;
  npv_scope : jstr;
  npv_counterVersion : Z;
  npv_current : option Z;
  npv_candidates : list NamingCandidate
}.

(** ** Guards *)

(** [requireSeriesStrategy(doctype)]. *)
Definition requireSeriesStrategy (doctype : DocTypeDefinition) : res NamingSeriesStrategy :=
  match dt_naming doctype with
  | Some (NamingSeries series) => Ok series
  | _ => Throw (invalidNaming 400)
  end.

(** [ensureExpectedVersion(current, expected, label)]. *)
Definition ensure_expected_version (current : Z) (expected : option Z) : res unit :=
  match expected with
  | Some v => ensure (v =? current)%Z conflict
  | None => Ok tt
  end.

(** [namingSeriesCurrentValue(existing?.data.current)]. *)
Definition stored_current (existing : option DocumentSnapshot) : option Z :=
  existing ≫= λ s, namingSeriesCurrentValue (vget KEY_current (ds_data s)).

Definition with_metadata (event : NewDomainEvent) (metadata : data) : NewDomainEvent :=
  {| e_id := e_id event; e_tenantId := e_tenantId event; e_stream := e_stream event; e_type := e_type event;
     e_doctype := e_doctype event; e_documentName := e_documentName event; e_actorId := e_actorId event;
     e_occurredAt := e_occurredAt event; e_payload := e_payload event; e_metadata := metadata |}.

(** ** The service *)

Section service.
Context `{NamingHost} (options : NamingServiceOptions) (ids clock : nat → jstr).
(** What other clients do at each await. *)
Context (env : nat → DocumentStore → DocumentStore).

Abbreviation Call := (M (Client DocumentStore)).

(** [await this.store.readStream(stream)]. *)
Definition read_stream (stream : jstr) : Call (list DomainEvent) :=
  observe env (λ s, readStream (st_streams s) stream no_options).

(** [authorizeAdministration(actor, tenantId)]. *)
Definition authorizeNamingAdministration (actor : Actor) (tenantId : option jstr) : res jstr :=
  let resolvedTenantId := default (default DEFAULT_TENANT_ID (actor_tenantId actor)) tenantId in
  _ ← ensure (match actor_tenantId actor with Some t => bool_decide (t = resolvedTenantId) | None => true end)
        permissionDenied;
  _ ← ensure (existsb (λ role, bool_decide (role ∈ actor_roles actor))
        (default [SYSTEM_MANAGER_ROLE] (nso_adminRoles options))) permissionDenied;
  Ok resolvedTenantId.

(** [preNamingDocTypeFor(doctypeName, tenantId)]. *)
Definition preNamingDocTypeFor (doctypeName tenantId : jstr) : res DocTypeDefinition :=
  base ← registry_get (nso_registry options) doctypeName;
  match nso_preNamingDocTypeResolver options with
  | Some resolver => resolver base tenantId
  | None => Ok base
  end.

(** [stateFor(tenantId, doctype)], with [configurationEvents]. *)
Definition namingStateFor (tenantId : jstr) (doctype : DocTypeDefinition) : Call NamingConfigurationState :=
  stream ← m_lift (namingConfigurationStream tenantId (dt_name doctype));
  events ← read_stream stream;
  mret (foldNamingConfiguration tenantId doctype events).

(** [get(actor, doctypeName, tenantId)]. *)
Definition getNaming (actor : Actor) (doctypeName : jstr) (tenantId : option jstr) : Call NamingConfigurationState :=
  tenantId ← m_lift (authorizeNamingAdministration actor tenantId);
  doctype ← m_lift (preNamingDocTypeFor doctypeName tenantId);
  namingStateFor tenantId doctype.

(** [effectiveDocType(doctypeName, tenantId, base)]. *)
Definition effectiveNamingDocType (doctypeName tenantId : jstr) (base : option DocTypeDefinition)
    : Call DocTypeDefinition :=
  doctype ← m_lift (match base with Some doctype => Ok doctype | None => preNamingDocTypeFor doctypeName tenantId end);
  state ← namingStateFor tenantId doctype;
  m_lift (applyNamingConfigurationToDocType doctype state).

(** [configurationEvent(input)]. *)
Definition configurationEvent (tenantId stream : jstr) (actor : Actor) (doctypeName : jstr) (p : payload)
    (metadata : option data) : Call NewDomainEvent :=
  id ← next_id ids;
  occurredAt ← now clock;
  mret {| e_id := id; e_tenantId := tenantId; e_stream := stream; e_type := namingEventType p;
          e_doctype := js "__NamingConfiguration"; e_documentName := doctypeName; e_actorId := actor_id actor;
          e_occurredAt := occurredAt; e_payload := p; e_metadata := default [] metadata |}.

(** The write that [save] and [clear] share: the event of the configuration with the
    advance of the metadata revision, and the state that follows. *)
Definition change_configuration (tenantId : jstr) (doctype : DocTypeDefinition) (state : NamingConfigurationState)
    (metadataRevision : Z) (actor : Actor) (p : payload) (metadata : option data) : Call NamingConfigurationState :=
  stream ← m_lift (namingConfigurationStream tenantId (dt_name doctype));
  event ← configurationEvent tenantId stream actor (dt_name doctype) p metadata;
  _ ← update env (on_streams (appendMetadataMutation tenantId (dt_name doctype) stream (ncf_version state) event
        metadataRevision));
  namingStateFor tenantId doctype.

(** [sameJson(left, right)]. *)
Definition same_strategy (lhs : option NamingStrategy) (rhs : NamingStrategy) : bool :=
  match lhs with
  | Some lhs => bool_decide (nso_stringify options lhs = nso_stringify options rhs)
  | None => false
  end.

(** [save(command)]. *)
Definition saveNaming (command : SaveNamingStrategyCommand) : Call NamingConfigurationState :=
  tenantId ← m_lift (authorizeNamingAdministration (snc_actor command) (snc_tenantId command));
  metadataRevision ← observe env (λ s, metadataRevisionVersion tenantId (snc_doctype command) (st_streams s));
  doctype ← m_lift (preNamingDocTypeFor (snc_doctype command) tenantId);
  strategy ← m_lift (normalizeNamingStrategy doctype (snc_strategy command));
  state ← namingStateFor tenantId doctype;
  _ ← m_lift (ensure_expected_version (ncf_version state) (snc_expectedVersion command));
  if same_strategy (ncf_runtimeStrategy state) strategy then mret state
  else change_configuration tenantId doctype state metadataRevision (snc_actor command)
    (namingStrategySavedPayload (dt_name doctype) strategy) (snc_metadata command).

(** [clear(command)]. *)
Definition clearNaming (command : ClearNamingStrategyCommand) : Call NamingConfigurationState :=
  tenantId ← m_lift (authorizeNamingAdministration (cnc_actor command) (cnc_tenantId command));
  metadataRevision ← observe env (λ s, metadataRevisionVersion tenantId (cnc_doctype command) (st_streams s));
  doctype ← m_lift (preNamingDocTypeFor (cnc_doctype command) tenantId);
  state ← namingStateFor tenantId doctype;
  _ ← m_lift (ensure_expected_version (ncf_version state) (cnc_expectedVersion command));
  match ncf_runtimeStrategy state with
  | None => mret state
  | Some _ => change_configuration tenantId doctype state metadataRevision (cnc_actor command)
      (namingStrategyClearedPayload (dt_name doctype)) (cnc_metadata command)
  end.

(** [preview(command)]. *)
Definition previewNaming (command : PreviewNamingCommand) : Call NamingPreview :=
  tenantId ← m_lift (authorizeNamingAdministration (pnc_actor command) (pnc_tenantId command));
  doctype ← effectiveNamingDocType (pnc_doctype command) tenantId None;
  strategy ← m_lift (requireSeriesStrategy doctype);
  let d := default [] (pnc_data command) in
  at_ ← now clock;
  let context := {| nrc_tenantId := tenantId; nrc_now := at_ |} in
  identity ← m_lift (resolveNamingSeriesIdentity doctype strategy d context);
  stream ← m_lift (namingSeriesStream tenantId (dt_name doctype) (nsi_counter identity) (nsi_scope identity));
  events ← read_stream stream;
  existing ← m_lift (foldDocument events);
  let current := stored_current existing in
  candidates ← m_lift (nextNamingCandidates doctype strategy d context current (pnc_count command));
  mret {| npv_tenantId := tenantId; npv_doctype := dt_name doctype; npv_counter := nsi_counter identity;
          npv_scope := nsi_scope identity; npv_counterVersion := version_of existing; npv_current := current;
          npv_candidates := candidates |}.

(** The write of [adjust]. *)
Definition move_counter (tenantId stream at_ : jstr) (doctype : DocTypeDefinition) (strategy : NamingSeriesStrategy)
    (identity : NamingSeriesIdentity) (existing : option DocumentSnapshot) (command : AdjustNamingCounterCommand)
    : Call unit :=
  let plan := planNamingSeriesEvent (dt_name doctype) (nss_pattern strategy) (Some (nsi_counter identity))
    (Some (nsi_scope identity)) (anc_current command) existing in
  id ← next_id ids;
  let event := with_metadata
    (namingSeriesEventCommand id tenantId stream (actor_id (anc_actor command)) at_ plan)
    (jm_spread (default [] (anc_metadata command)) (nsp_metadata plan)) in
  _ ← update env (commit stream (version_of existing) [event] (λ saved,
        match saved with
        | [] => Throw (invalidNaming 500)
        | committed :: _ => counter_projection existing (anc_current command) committed
        end));
  mret tt.

(** [adjust(command)]. *)
Definition adjustNaming (command : AdjustNamingCounterCommand) : Call NamingPreview :=
  tenantId ← m_lift (authorizeNamingAdministration (anc_actor command) (anc_tenantId command));
  _ ← m_lift (ensure (is_safe_integer (anc_current command) && (0 <=? anc_current command)%Z) (invalidNaming 400));
  doctype ← effectiveNamingDocType (anc_doctype command) tenantId None;
  strategy ← m_lift (requireSeriesStrategy doctype);
  let d := default [] (anc_data command) in
  at_ ← now clock;
  let context := {| nrc_tenantId := tenantId; nrc_now := at_ |} in
  identity ← m_lift (resolveNamingSeriesIdentity doctype strategy d context);
  stream ← m_lift (namingSeriesStream tenantId (dt_name doctype) (nsi_counter identity) (nsi_scope identity));
  events ← read_stream stream;
  existing ← m_lift (foldDocument events);
  _ ← m_lift (ensure_expected_version (version_of existing) (anc_expectedVersion command));
  let current := stored_current existing in
  _ ← m_lift (ensure (match current with Some c => (c <=? anc_current command)%Z | None => true end) (invalidNaming 409));
  _ ← (if bool_decide (current = Some (anc_current command)) then mret tt
       else move_counter tenantId stream at_ doctype strategy identity existing command);
  previewNaming {| pnc_actor := anc_actor command; pnc_doctype := dt_name doctype; pnc_data := Some d;
                   pnc_count := Some 5%Z; pnc_tenantId := Some tenantId |}.
End service.
