(* ===== verification/CommandPolicy.v ===== *)
(** * CommandPolicy: what the commands on a document decide

    Models [application/document-command-policy.ts] and
    [application/document-command-events.ts]: the guards of the commands, the groups
    of issues that refuse one, and the plans of the events that they write.  Issues
    that a group does not have are the empty list.  Upper-case letters are the host's. *)

From S2P Require Export Workflow FieldPolicy NamingConfiguration Permissions Merge.

(** ** Guards *)

(** [ensureExpectedVersion(existing, expectedVersion)]. *)
Definition ensureExpectedVersion (existing : DocumentSnapshot) (expectedVersion : option Z) : res unit :=
  match expectedVersion with
  | Some v => ensure (ds_version existing =? v)%Z conflict
  | None => Ok tt
  end.

(** [ensureMergeBaseVersion(baseVersion)]. *)
Definition ensureMergeBaseVersion (baseVersion : num) : res unit :=
  ensure (match num_safe_integer baseVersion with Some z => (0 <=? z)%Z | None => false end) badRequest.

(** [requireMergeBaseSnapshot(input)]. *)
Definition requireMergeBaseSnapshot (base : option DocumentSnapshot) (baseVersion : Z) : res DocumentSnapshot :=
  match base with
  | Some s => if (ds_version s =? baseVersion)%Z then Ok s else Throw conflict
  | None => Throw conflict
  end.

(** [mergeSnapshotFromDocument(document)]. *)
Definition mergeSnapshotFromDocument (document : DocumentSnapshot) : DocumentMergeSnapshot :=
  {| ms_version := ds_version document; ms_docstatus := Some (ds_docstatus document); ms_data := ds_data document |}.

(** [ensureDocumentStatus(document, allowed, action)]. *)
Definition ensureDocumentStatus (document : DocumentSnapshot) (allowed : list DocStatus) : res unit :=
  ensure (bool_decide (ds_docstatus document ∈ allowed)) (FrameworkError DOCUMENT_STATUS_CONFLICT 409).

(** [ensureDocumentUpdateStatus(document, action)]. *)
Definition ensureDocumentUpdateStatus (document : DocumentSnapshot) : res unit :=
  match ds_docstatus document with
  | Draft | Submitted => Ok tt
  | _ => ensureDocumentStatus document [Draft]
  end.

(** [normalizeUnsetFields(fields)]. *)
Definition normalizeUnsetFields (fields : option (list jstr)) : list jstr :=
  match fields with
  | Some fields => js_unique (filter (λ field, field ≠ []) (trim <$> fields))
  | None => []
  end.

(** [ensureDocumentCreateAvailable(input)]. *)
Definition ensureDocumentCreateAvailable (existing : option DocumentSnapshot) : res unit :=
  match existing with
  | Some s => ensure (bool_decide (ds_docstatus s = Deleted)) conflict
  | None => Ok tt
  end.

Inductive DocumentMergeDisposition := DispositionConflict | DispositionNoop | DispositionApply.

(** [documentMergeDisposition(plan)]. *)
Definition documentMergeDisposition (plan : DocumentFieldMergePlan) : DocumentMergeDisposition :=
  match mp_status plan with
  | MergeConflict => DispositionConflict
  | MergeClean =>
      if bool_decide (jm_keys (mp_patch plan) = []) && bool_decide (mp_unset plan = [])
      then DispositionNoop else DispositionApply
  end.

(** ** Groups of issues *)

Record DocumentUpdateValidationIssueGroups := {
  ug_submittedUpdateIssues : list ValidationIssue;
  ug_unsetIssues : list ValidationIssue;
  ug_originIssues : list ValidationIssue;
  ug_workflowStateIssues : list ValidationIssue;
  ug_generatedNamingIssues : list ValidationIssue;
  ug_readOnlyIssues : list ValidationIssue;
  ug_fieldPermissionIssues : list ValidationIssue;
  ug_validationIssues : list ValidationIssue;
  ug_linkIssues : list ValidationIssue
}.

(** [documentUpdateValidationIssues(groups)]. *)
Definition documentUpdateValidationIssues (groups : DocumentUpdateValidationIssueGroups) : list ValidationIssue :=
  ug_submittedUpdateIssues groups ++ ug_unsetIssues groups ++ ug_originIssues groups ++
  ug_workflowStateIssues groups ++ ug_generatedNamingIssues groups ++ ug_readOnlyIssues groups ++
  ug_fieldPermissionIssues groups ++ ug_validationIssues groups ++ ug_linkIssues groups.

Record DocumentCreateValidationIssueGroups := {
  cg_workflowStateIssues : list ValidationIssue;
  cg_fieldPermissionIssues : list ValidationIssue;
  cg_validationIssues : list ValidationIssue;
  cg_linkIssues : list ValidationIssue
}.

(** [documentCreateValidationIssues(groups)]. *)
Definition documentCreateValidationIssues (groups : DocumentCreateValidationIssueGroups) : list ValidationIssue :=
  cg_workflowStateIssues groups ++ cg_fieldPermissionIssues groups ++ cg_validationIssues groups ++ cg_linkIssues groups.

Record DocumentDomainCommandValidationIssueGroups := {
  dg_originIssues : list ValidationIssue;
  dg_workflowStateIssues : list ValidationIssue;
  dg_generatedNamingIssues : list ValidationIssue;
  dg_readOnlyIssues : list ValidationIssue;
  dg_fieldPermissionIssues : list ValidationIssue;
  dg_validationIssues : list ValidationIssue;
  dg_linkIssues : list ValidationIssue
}.

(** [documentDomainCommandValidationIssues(groups)]. *)
Definition documentDomainCommandValidationIssues (groups : DocumentDomainCommandValidationIssueGroups)
    : list ValidationIssue :=
  dg_originIssues groups ++ dg_workflowStateIssues groups ++ dg_generatedNamingIssues groups ++
  dg_readOnlyIssues groups ++ dg_fieldPermissionIssues groups ++ dg_validationIssues groups ++ dg_linkIssues groups.

(** ** Events *)

(** What the commands of every event have in common, with the identifier that their
    callers add; [metadata ?? {}]. *)
Record DocumentEventInput := {
  dei_id : jstr;
  dei_tenantId : jstr;
  dei_stream : jstr;
  dei_doctypeName : jstr;
  dei_documentName : jstr;
  dei_actorId : jstr;
  dei_occurredAt : jstr;
  dei_metadata : option data
}.

Definition document_event (input : DocumentEventInput) (eventType : jstr) (p : payload) : NewDomainEvent :=
  {| e_id := dei_id input; e_tenantId := dei_tenantId input; e_stream := dei_stream input; e_type := eventType;
     e_doctype := dei_doctypeName input; e_documentName := dei_documentName input; e_actorId := dei_actorId input;
     e_occurredAt := dei_occurredAt input; e_payload := p; e_metadata := default [] (dei_metadata input) |}.

(** The options of [documentLifecycleEventType] that a doctype gives. *)
Definition event_type_options (doctype : DocTypeDefinition) (kind : LifecycleKind) (eventType : option jstr)
    : DocumentLifecycleEventTypeOptions :=
  {| let_doctypeName := dt_name doctype; let_kind := kind; let_commandEventType := eventType;
     let_createEventType := dte_create (dt_events doctype); let_updateEventType := dte_update (dt_events doctype);
     let_submitEventType := dte_submit (dt_events doctype); let_cancelEventType := dte_cancel (dt_events doctype);
     let_deleteEventType := dte_delete (dt_events doctype) |}.

Record DocumentCreatePolicyPlan := { crp_eventType : jstr; crp_docstatus : DocStatus; crp_payload : payload }.

(** [planDocumentCreatePolicy(input)]. *)
Definition planDocumentCreatePolicy (doctype : DocTypeDefinition) (d : data) (eventType : option jstr)
    : DocumentCreatePolicyPlan :=
  {| crp_eventType := documentLifecycleEventType (event_type_options doctype KCreated eventType);
     crp_docstatus := Draft; crp_payload := documentCreatedPayload d Draft |}.

(** [documentCreateEventCommand(input)]. *)
Definition documentCreateEventCommand (input : DocumentEventInput) (plan : DocumentCreatePolicyPlan) : NewDomainEvent :=
  document_event input (crp_eventType plan) (crp_payload plan).

Record DocumentUpdatePolicyPlan := { upp_eventType : jstr; upp_payload : payload }.

(** [planDocumentUpdatePolicy(input)]. *)
Definition planDocumentUpdatePolicy (doctype : DocTypeDefinition) (patch : data) (unset : option (list jstr))
    (eventType : option jstr) : DocumentUpdatePolicyPlan :=
  {| upp_eventType := documentLifecycleEventType (event_type_options doctype KUpdated eventType);
     upp_payload := documentUpdatedPayload patch (default [] unset) |}.

(** [documentUpdateEventCommand(input)]. *)
Definition documentUpdateEventCommand (input : DocumentEventInput) (plan : DocumentUpdatePolicyPlan) : NewDomainEvent :=
  document_event input (upp_eventType plan) (upp_payload plan).

Record DocumentStatusChangePolicyPlan := {
  scp_allowedStatus : list DocStatus;
  scp_nextStatus : DocStatus;
  scp_eventType : jstr;
  scp_cancelled : bool
}.

(** [planDocumentStatusChangePolicy(doctype, action)]; [cancel] is the action. *)
Definition planDocumentStatusChangePolicy (doctype : DocTypeDefinition) (cancel : bool) : DocumentStatusChangePolicyPlan :=
  if cancel
  then {| scp_allowedStatus := [Submitted]; scp_nextStatus := Cancelled;
          scp_eventType := documentLifecycleEventType (event_type_options doctype KCancelled None);
          scp_cancelled := true |}
  else {| scp_allowedStatus := [Draft]; scp_nextStatus := Submitted;
          scp_eventType := documentLifecycleEventType (event_type_options doctype KSubmitted None);
          scp_cancelled := false |}.

(** [documentStatusChangeEventCommand(input)]. *)
Definition documentStatusChangeEventCommand (input : DocumentEventInput) (plan : DocumentStatusChangePolicyPlan)
    : NewDomainEvent :=
  document_event input (scp_eventType plan) (documentStatusChangedPayload (scp_cancelled plan)).

Record DocumentDeletePolicyPlan := {
  ddp_allowedStatus : list DocStatus;
  ddp_nextStatus : DocStatus;
  ddp_eventType : jstr
}.

(** [planDocumentDeletePolicy(doctype)]. *)
Definition planDocumentDeletePolicy (doctype : DocTypeDefinition) : DocumentDeletePolicyPlan :=
  {| ddp_allowedStatus := [Draft; Cancelled]; ddp_nextStatus := Deleted;
     ddp_eventType := documentLifecycleEventType (event_type_options doctype KDeleted None) |}.

(** [documentDeleteEventCommand(input)]. *)
Definition documentDeleteEventCommand (input : DocumentEventInput) (plan : DocumentDeletePolicyPlan) : NewDomainEvent :=
  document_event input (ddp_eventType plan) documentDeletedPayload.

(** ** Copies *)

Record DocumentCopyPolicyPlan := { ccp_data : data; ccp_metadata : data }.

(** [planDocumentCopyPolicy(input)]; [amend] is the action. *)
Definition planDocumentCopyPolicy (relatedDocType : jstr → option DocTypeDefinition) (amend : bool)
    (doctype : DocTypeDefinition) (existing : DocumentSnapshot) (d metadata : option data) : DocumentCopyPolicyPlan :=
  let overrides := compactData (default [] d) in
  let marked (name version : jstr) := jm_spread (default [] metadata)
    [(name, VStr (ds_name existing)); (version, vint (ds_version existing))] in
  if amend
  then {| ccp_data := copyDocumentData relatedDocType doctype (jm_spread (ds_data existing) overrides) false;
          ccp_metadata := marked (js "amendedFrom") (js "amendedFromVersion") |}
  else {| ccp_data := copyDocumentData relatedDocType doctype
            (jm_spread (copyDocumentData relatedDocType doctype (ds_data existing) true) overrides) false;
          ccp_metadata := marked (js "duplicatedFrom") (js "duplicatedFromVersion") |}.

(** ** Workflow transitions *)

Definition DOCUMENT_COMMAND_PAYLOAD_KINDS : list jstr := [js "WorkflowTransitioned"; js "DomainCommandApplied"].

(** [isDocumentCommandPayloadKind(kind)] and [isDocumentCommandEvent(event)]. *)
Definition isDocumentCommandPayloadKind (kind : jstr) : bool := bool_decide (kind ∈ DOCUMENT_COMMAND_PAYLOAD_KINDS).
Definition isDocumentCommandEvent (event : DomainEvent) : bool :=
  isDocumentCommandPayloadKind (domainEventPayloadKind event).

(** The actor as a predicate reads it. *)
Definition actor_object (actor : Actor) : value :=
  VObj ([(js "id", VStr (actor_id actor)); (js "roles", VArr (VStr <$> actor_roles actor))] ++
        entry (js "tenantId") (actor_tenantId actor) ++ entry (js "email") (actor_email actor)).

Record WorkflowTransitionPolicyPlan := {
  wtp_workflow : jstr;
  wtp_stateField : jstr;
  wtp_action : jstr;
  wtp_from : jstr;
  wtp_to : jstr;
  wtp_patch : data;
  wtp_eventType : jstr
}.

(** [workflowTransitionedPayload(input)]. *)
Definition workflowTransitionedPayload (workflow stateField action from to : jstr) (patch : data) : payload :=
  PWorkflowTransitioned (VStr workflow) (VStr stateField) (VStr action) (VStr from) (VStr to) (VObj patch).

(** [domainCommandAppliedPayload(input)]. *)
Definition domainCommandAppliedPayload (command : jstr) (input patch : data) (transitions : option (list TransitionFact))
    : payload := PDomainCommandApplied command input patch (default [] transitions).

Section transitions.
Context (host : predicate_host) (upper : N → jstr).

(** [capitalizeAction(action)]. *)
Definition capitalizeAction (action : jstr) : jstr :=
  match action with c :: rest => upper c ++ rest | [] => [] end.

(** [workflowTransitionEventType(options)]. *)
Definition workflowTransitionEventType (doctypeName workflow action : jstr) (transitionEventType : option jstr) : jstr :=
  default (doctypeName ++ capitalizeAction workflow ++ capitalizeAction action) transitionEventType.

Definition transition_context (actor : Actor) (document : DocumentSnapshot) (workflow : NamedWorkflowDefinition)
    (input : option data) : NamedWorkflowTransitionContext :=
  {| ntc_roles := actor_roles actor; ntc_actorObject := actor_object actor; ntc_document := document;
     ntc_workflow := workflow; ntc_input := input |}.

(** [planWorkflowTransitionPolicy(input)]. *)
Definition planWorkflowTransitionPolicy (actor : Actor) (action doctypeName : jstr) (document : DocumentSnapshot)
    (workflow : NamedWorkflowDefinition) (input : option data) : res WorkflowTransitionPolicyPlan :=
  match evaluateNamedWorkflowTransition host (transition_context actor document workflow input) action with
  | ActionNotFound _ => Throw (FrameworkError WORKFLOW_ACTION_NOT_FOUND 404)
  | StateDenied _ => Throw (FrameworkError WORKFLOW_TRANSITION_DENIED 409)
  | RoleDenied _ _ => Throw (FrameworkError WORKFLOW_TRANSITION_DENIED 403)
  | ConditionDenied _ _ => Throw (FrameworkError WORKFLOW_TRANSITION_CONDITION_FAILED 409)
  | Allowed from transition =>
      Ok {| wtp_workflow := nwd_name workflow; wtp_stateField := nwd_stateField workflow; wtp_action := action;
            wtp_from := from; wtp_to := nwt_to transition;
            wtp_patch := [(nwd_stateField workflow, VStr (nwt_to transition))];
            wtp_eventType := workflowTransitionEventType doctypeName (nwd_name workflow) action
              (nwt_eventType transition) |}
  end.

(** [workflowTransitionEventCommand(input)]. *)
Definition workflowTransitionEventCommand (input : DocumentEventInput) (action : jstr) (plan : WorkflowTransitionPolicyPlan)
    : NewDomainEvent :=
  document_event input (wtp_eventType plan)
    (workflowTransitionedPayload (wtp_workflow plan) (wtp_stateField plan) action (wtp_from plan) (wtp_to plan)
      (wtp_patch plan)).

(** [requireNamedWorkflowDefinition(doctype, workflowName)]. *)
Definition requireNamedWorkflowDefinition (doctype : DocTypeDefinition) (workflowName : jstr)
    : res NamedWorkflowDefinition :=
  match namedWorkflowByName doctype workflowName with
  | Some workflow => Ok workflow
  | None => Throw (FrameworkError WORKFLOW_NOT_FOUND 404)
  end.

(** ** Domain commands *)

Record DomainCommandPolicyPlan := {
  dpp_input : data;
  dpp_patch : data;
  dpp_transitions : list DomainCommandTransitionIntent;
  dpp_permissionAction : PermissionAction;
  dpp_allowReadOnlyFields : bool;
  dpp_bypassFieldPermissions : bool
}.

(** [pickCommandFields(fields, input)]. *)
Definition pickCommandFields (fields : option (list jstr)) (input : data) : data :=
  match fields with
  | None => input
  | Some fields => jm_of_list (filter (λ kv, is_undefined kv.2 = false) ((λ field, (field, vget field input)) <$> fields))
  end.

(** [canExecuteDomainCommandForRoles(actor, definition)] and
    [ensureDomainCommandRoleAccess(actor, definition, command)]. *)
Definition canExecuteDomainCommandForRoles (actor : Actor) (definition : DomainCommandDefinition) : bool :=
  match dcd_roles definition with Some roles => has_role roles actor | None => true end.
Definition ensureDomainCommandRoleAccess (actor : Actor) (definition : DomainCommandDefinition) : res unit :=
  ensure (canExecuteDomainCommandForRoles actor definition) permissionDenied.

(** [requireDomainCommandDefinition(doctype, command)]. *)
Definition requireDomainCommandDefinition (doctype : DocTypeDefinition) (command : jstr) : res DomainCommandDefinition :=
  match List.find (λ item, bool_decide (dcd_name item = command)) (default [] (dt_commands doctype)) with
  | Some definition => Ok definition
  | None => Throw badRequest
  end.

(** [requiredDomainCommandTransitionId(value, label)]. *)
Definition requiredDomainCommandTransitionId (v : jstr) : res jstr :=
  if bool_decide (trim v = []) then Throw badRequest else Ok (trim v).

(** [normalizeDomainCommandTransitionIntents(transitions)], on intents of their type. *)
Definition normalizeDomainCommandTransitionIntents (transitions : option (list DomainCommandTransitionIntent))
    : res (list DomainCommandTransitionIntent) :=
  map_res (λ transition,
    workflow ← requiredDomainCommandTransitionId (dti_workflow transition);
    action ← requiredDomainCommandTransitionId (dti_action transition);
    Ok {| dti_workflow := workflow; dti_action := action |}) (default [] transitions).

(** [planDomainCommandPolicy(input)]. *)
Definition planDomainCommandPolicy (actor : Actor) (definition : DomainCommandDefinition) (document : DocumentSnapshot)
    (input : data) (now : jstr) : res DomainCommandPolicyPlan :=
  let commandInput := compactData input in
  let context := {| dcx_actor := actor; dcx_document := document; dcx_input := commandInput; dcx_now := now |} in
  _ ← ensure (match dcd_buildPatch definition, dcd_buildPlan definition with Some _, Some _ => false | _, _ => true end)
        badRequest;
  built ← match dcd_buildPlan definition with
    | Some buildPlan => plan ← buildPlan context; Ok (Some plan)
    | None => Ok None
    end;
  patch ← match built with
    | Some plan => Ok (dcp_patch plan)
    | None => match dcd_buildPatch definition with
        | Some buildPatch => buildPatch context
        | None => Ok (pickCommandFields (dcd_fields definition) commandInput)
        end
    end;
  transitions ← normalizeDomainCommandTransitionIntents (built ≫= dcp_transitions);
  Ok {| dpp_input := commandInput; dpp_patch := compactData patch; dpp_transitions := transitions;
        dpp_permissionAction := default AUpdate (dcd_permissionAction definition);
        dpp_allowReadOnlyFields := dcd_allowReadOnlyFields definition;
        dpp_bypassFieldPermissions := dcd_bypassFieldPermissions definition |}.

(** [domainCommandEventCommand(input)]. *)
Definition domainCommandEventCommand (input : DocumentEventInput) (eventType commandName : jstr)
    (commandInput patch : data) (transitions : option (list TransitionFact)) : NewDomainEvent :=
  document_event input eventType (domainCommandAppliedPayload commandName commandInput patch transitions).

Record DomainCommandTransitionsPlan := { dtp_patch : data; dtp_transitions : list TransitionFact }.

(** [{ ...document, data }]. *)
Definition with_data (document : DocumentSnapshot) (d : data) : DocumentSnapshot :=
  {| ds_tenantId := ds_tenantId document; ds_doctype := ds_doctype document; ds_name := ds_name document;
     ds_version := ds_version document; ds_docstatus := ds_docstatus document; ds_data := d;
     ds_createdAt := ds_createdAt document; ds_updatedAt := ds_updatedAt document |}.

(** One intent of the loop: the proposed document, the authorized patch and the facts. *)
Definition take_intent (actor : Actor) (doctype : DocTypeDefinition) (commandInput : data)
    (acc : DocumentSnapshot * data * list TransitionFact) (intent : DomainCommandTransitionIntent)
    : res (DocumentSnapshot * data * list TransitionFact) :=
  let '(proposed, authorizedPatch, facts) := acc in
  workflow ← requireNamedWorkflowDefinition doctype (dti_workflow intent);
  plan ← planWorkflowTransitionPolicy actor (dti_action intent) (dt_name doctype) proposed workflow (Some commandInput);
  Ok (with_data proposed (jm_spread (ds_data proposed) (wtp_patch plan)),
      jm_set (wtp_stateField plan) (VStr (wtp_to plan)) authorizedPatch,
      facts ++ [{| tf_workflow := wtp_workflow plan; tf_stateField := wtp_stateField plan;
                   tf_action := wtp_action plan; tf_from := wtp_from plan; tf_to := wtp_to plan |}]).

(** The patch without the fields that hold the state of a workflow. *)
Definition ordinary_patch (doctype : DocTypeDefinition) (patch : data) : data :=
  filter (λ kv, kv.1 ∉ workflowStateFieldNames doctype) patch.

(** Whether the patch sets the state of a workflow to something else than its
    transitions do. *)
Definition unauthorized_state (patch authorizedPatch : data) (workflow : NamedWorkflowDefinition) : bool :=
  jm_has (nwd_stateField workflow) patch &&
  (negb (jm_has (nwd_stateField workflow) authorizedPatch) ||
   negb (strict_equal (vget (nwd_stateField workflow) patch) (vget (nwd_stateField workflow) authorizedPatch))).

(** [planDomainCommandTransitions(input)]. *)
Definition planDomainCommandTransitions (actor : Actor) (doctype : DocTypeDefinition) (document : DocumentSnapshot)
    (patch : data) (transitions : list DomainCommandTransitionIntent) (commandInput : data)
    : res DomainCommandTransitionsPlan :=
  let ordinaryPatch := ordinary_patch doctype patch in
  outcome ← foldl_res (take_intent actor doctype commandInput)
    (with_data document (jm_spread (ds_data document) ordinaryPatch), [], []) transitions;
  let '(_, authorizedPatch, facts) := outcome in
  _ ← ensure (negb (existsb (unauthorized_state patch authorizedPatch) (default [] (dt_workflows doctype))))
        (FrameworkError WORKFLOW_STATE_PROTECTED 409);
  Ok {| dtp_patch := jm_spread ordinaryPatch authorizedPatch; dtp_transitions := facts |}.
End transitions.

(** ** A domain command moves workflows along their machines *)

Lemma workflow_path_trans w s1 s2 s3 : workflow_path w s1 s2 → workflow_path w s2 s3 → workflow_path w s1 s3.
Proof. induction 1 as [s|t s' Ht _ IH]; [done|]. intros. apply path_take; [done|]. by apply IH. Qed.

Lemma requireNamedWorkflowDefinition_ok doctype name w :
  requireNamedWorkflowDefinition doctype name = Ok w →
  w ∈ default [] (dt_workflows doctype) ∧ nwd_name w = name.
Proof.
  unfold requireNamedWorkflowDefinition, namedWorkflowByName. destruct (dt_workflows doctype) as [l|]; [|done].
  cbn [mbind option_bind default]. destruct (list_find _ l) as [[i x]|] eqn:E; [|done]. cbn. intros [= ->].
  apply list_find_Some in E as (E & ? & _). split; [|done]. by apply list_elem_of_lookup_2 in E.
Qed.

(** What an accepted transition is. *)
Lemma planWorkflowTransitionPolicy_ok host upper actor action doctypeName document w input plan :
  planWorkflowTransitionPolicy host upper actor action doctypeName document w input = Ok plan →
  wtp_workflow plan = nwd_name w ∧ wtp_stateField plan = nwd_stateField w ∧ wtp_action plan = action ∧
  wtp_patch plan = [(nwd_stateField w, VStr (wtp_to plan))] ∧
  wtp_from plan = currentWorkflowState host w document ∧
  ∃ t, t ∈ nwd_transitions w ∧ nwt_action t = action ∧ nwt_from t = wtp_from plan ∧ nwt_to t = wtp_to plan ∧
    role_granted (transition_context actor document w input) t ∧
    condition_holds host (transition_context actor document w input) action t.
Proof.
  unfold planWorkflowTransitionPolicy.
  pose proof (evaluate_cases host (transition_context actor document w input) action) as Hc.
  destruct (evaluateNamedWorkflowTransition host _ action) as [from t|?|?|? ?|? ?]; try done. intros [= <-].
  cbn [wtp_workflow wtp_stateField wtp_action wtp_from wtp_to wtp_patch].
  destruct Hc as (Ht & Ha & Hf & -> & Hr & Hcond). split_and!; try done. by exists t.
Qed.

Section commands.
Context (host : predicate_host) (upper : N → jstr) (actor : Actor) (doctype : DocTypeDefinition) (commandInput : data).

Abbreviation workflows := (default [] (dt_workflows doctype)).

(** The transitions that a command takes, one after the other. *)
Inductive transitions_taken : DocumentSnapshot → list TransitionFact → DocumentSnapshot → Prop :=
| taken_none d : transitions_taken d [] d
| taken_next w t d facts d' :
    w ∈ workflows → t ∈ nwd_transitions w → nwt_from t = currentWorkflowState host w d →
    role_granted (transition_context actor d w (Some commandInput)) t →
    condition_holds host (transition_context actor d w (Some commandInput)) (nwt_action t) t →
    transitions_taken (after_transition w t d) facts d' →
    transitions_taken d
      ({| tf_workflow := nwd_name w; tf_stateField := nwd_stateField w; tf_action := nwt_action t;
          tf_from := nwt_from t; tf_to := nwt_to t |} :: facts) d'.

Lemma transitions_taken_app d1 facts1 d2 facts2 d3 :
  transitions_taken d1 facts1 d2 → transitions_taken d2 facts2 d3 → transitions_taken d1 (facts1 ++ facts2) d3.
Proof using Type. induction 1; [done|]. intros. cbn [app]. by econstructor; eauto. Qed.

(** What the loop over the intents keeps: each workflow has moved along its machine,
    the proposed document is the first one with the authorized patch, and each
    authorized state is the target of a fact. *)
Record intents_ok (start : DocumentSnapshot) (intents : list DomainCommandTransitionIntent)
    (proposed : DocumentSnapshot) (authorized : data) (facts : list TransitionFact) : Prop := {
  ino_taken : transitions_taken start facts proposed;
  ino_path w : w ∈ workflows →
    workflow_path w (currentWorkflowState host w start) (currentWorkflowState host w proposed);
  ino_data k : jm_get k (ds_data proposed) =
    match jm_get k authorized with Some v => Some v | None => jm_get k (ds_data start) end;
  ino_wf : jm_wf authorized;
  ino_intents : (λ f, (tf_workflow f, tf_action f)) <$> facts = (λ i, (dti_workflow i, dti_action i)) <$> intents;
  ino_facts k v : jm_get k authorized = Some v →
    k ∈ workflowStateFieldNames doctype ∧ ∃ f, f ∈ facts ∧ tf_stateField f = k ∧ v = VStr (tf_to f)
}.

Lemma take_intent_ok start intents proposed authorized facts intent acc :
  NoDup (workflowStateFieldNames doctype) →
  intents_ok start intents proposed authorized facts →
  take_intent host upper actor doctype commandInput (proposed, authorized, facts) intent = Ok acc →
  intents_ok start (intents ++ [intent]) acc.1.1 acc.1.2 acc.2.
Proof.
  intros Hnd [Htk Hp Hd Hwf Hi Hf]. unfold take_intent.
  intros E. step_ok E as w Hw. step_ok E as plan Hplan. injection E as <-. cbn [fst snd].
  apply requireNamedWorkflowDefinition_ok in Hw as [Hw Hname].
  apply planWorkflowTransitionPolicy_ok in Hplan as (Ewf & Esf & Eact & Epatch & Efrom & t & Ht & Ha & Hfrom & Hto & Hrole & Hcond).
  rewrite Epatch. unfold jm_spread. cbn [foldl fst snd].
  constructor.
  - eapply transitions_taken_app; [done|]. rewrite Ewf, Esf, Eact, <-Ha, <-Hfrom, <-Hto.
    apply taken_next; [done|done|by rewrite Hfrom|done|by rewrite Ha|constructor].
  - intros w' Hw'. eapply workflow_path_trans; [by apply Hp|].
    unfold currentWorkflowState at 2, vget. cbn [with_data ds_data].
    destruct (decide (nwd_stateField w' = nwd_stateField w)) as [Es|Hne].
    + assert (w' = w) as ->.
      { unfold workflowStateFieldNames in Hnd. by eapply nodup_fmap_inj. }
      rewrite jm_get_set_eq. cbn [default]. rewrite <-Efrom, <-Hfrom. cbn [string_of]. rewrite <-Hto.
      apply path_take; [done|]. constructor.
    + rewrite jm_get_set_ne by done. constructor.
  - intros k. cbn [with_data ds_data]. rewrite Esf, !jm_get_set. case_decide; [done|]. apply Hd.
  - by apply jm_wf_set.
  - rewrite !fmap_app, Hi. cbn. by rewrite Ewf, Eact, Hname.
  - intros k v. rewrite Esf, jm_get_set. case_decide as Ek; [intros [= <-]; split; [subst k; by apply list_elem_of_fmap_2|]|intros Hk].
    + eexists. split; [apply elem_of_app; right; by left|]. by cbn.
    + apply Hf in Hk as (? & f & ? & ? & ?). split; [done|]. exists f. split; [apply elem_of_app; by left|done].
Qed.

Lemma take_intents_ok start intents : NoDup (workflowStateFieldNames doctype) →
  ∀ done_ proposed authorized facts acc,
  intents_ok start done_ proposed authorized facts →
  foldl_res (take_intent host upper actor doctype commandInput) (proposed, authorized, facts) intents = Ok acc →
  intents_ok start (done_ ++ intents) acc.1.1 acc.1.2 acc.2.
Proof.
  intros Hnd. induction intents as [|intent intents IH]; intros done_ proposed authorized facts acc Hok.
  - intros [= <-]. by rewrite app_nil_r.
  - cbn [foldl_res]. intros E. step_ok E as acc1 H1. destruct acc1 as [[p1 a1] f1].
    eapply take_intent_ok in H1; [|done..]. cbn [fst snd] in H1.
    rewrite cons_middle, app_assoc. by eapply IH.
Qed.

Lemma ordinary_get patch k :
  jm_get k (ordinary_patch doctype patch) = if decide (k ∈ workflowStateFieldNames doctype) then None else jm_get k patch.
Proof.
  unfold ordinary_patch. induction patch as [|[k' v] patch IH]; [by case_decide|].
  rewrite filter_cons. cbn [fst]. destruct (decide (k' ∉ workflowStateFieldNames doctype)) as [Hk|Hk]; cbn [jm_get].
  - destruct (decide (k = k')) as [->|]; [by rewrite decide_False|apply IH].
  - rewrite IH. destruct (decide (k = k')) as [->|]; [|done]. destruct (decide (k' ∈ workflowStateFieldNames doctype)); [done|by destruct Hk].
Qed.
End commands.

(** C28: A domain command that is accepted takes every workflow of the document along a
    path of its machine: each of its intents is a transition, in their order, that the
    roles and the condition allow in the state the previous ones left.  Its patch sets
    the state of a workflow only to the target of such a transition, and every other
    field as the command asked. *)
Theorem command_follows_workflows host upper actor doctype document patch intents commandInput plan :
  NoDup (workflowStateFieldNames doctype) →
  jm_wf patch →
  planDomainCommandTransitions host upper actor doctype document patch intents commandInput = Ok plan →
  (∀ w, w ∈ default [] (dt_workflows doctype) →
    workflow_path w (currentWorkflowState host w document)
      (currentWorkflowState host w (with_data document (jm_spread (ds_data document) (dtp_patch plan))))) ∧
  (∃ last_, transitions_taken host actor doctype commandInput
    (with_data document (jm_spread (ds_data document) (ordinary_patch doctype patch))) (dtp_transitions plan) last_) ∧
  (λ f, (tf_workflow f, tf_action f)) <$> dtp_transitions plan = (λ i, (dti_workflow i, dti_action i)) <$> intents ∧
  (∀ k, k ∉ workflowStateFieldNames doctype → jm_get k (dtp_patch plan) = jm_get k patch) ∧
  (∀ k v, k ∈ workflowStateFieldNames doctype → jm_get k (dtp_patch plan) = Some v →
    ∃ f, f ∈ dtp_transitions plan ∧ tf_stateField f = k ∧ v = VStr (tf_to f)).
Proof.
  intros Hnd Hp E. unfold planDomainCommandTransitions in E. step_ok E as acc Hacc. destruct acc as [[proposed authorized] facts].
  step_ok E as u Hu. injection E as <-. cbn [dtp_patch dtp_transitions].
  set (start := with_data document (jm_spread (ds_data document) (ordinary_patch doctype patch))) in *.
  assert (intents_ok host actor doctype commandInput start [] start [] []) as Hstart.
  { constructor; [constructor|constructor|done|apply jm_wf_nil|done|done]. }
  apply (take_intents_ok host upper actor doctype commandInput start intents Hnd [] _ _ _ _ Hstart) in Hacc.
  destruct Hacc as [Htaken Hpath Hdata Hwf Hint Hfacts]. cbn [fst snd app] in *.
  assert (jm_wf (ordinary_patch doctype patch)) as Hwo by (by apply jm_wf_filter).
  assert (Hget : ∀ k, jm_get k (ds_data proposed) =
    jm_get k (jm_spread (ds_data document) (jm_spread (ordinary_patch doctype patch) authorized))).
  { intros k. rewrite Hdata, jm_get_spread by (by apply jm_wf_spread). rewrite jm_get_spread by done.
    destruct (jm_get k authorized); [done|]. subst start. cbn [with_data ds_data]. by rewrite jm_get_spread. }
  assert (Hstate : ∀ k, k ∈ workflowStateFieldNames doctype → jm_get k (ordinary_patch doctype patch) = None).
  { intros k Hk. rewrite ordinary_get. by rewrite decide_True. }
  split_and!; [|by exists proposed|done| |].
  - intros w Hw. specialize (Hpath w Hw). unfold currentWorkflowState, vget in Hpath |- *. rewrite Hget in Hpath.
    cbn [with_data ds_data] in Hpath |- *. subst start. cbn [with_data ds_data] in Hpath.
    rewrite (jm_get_spread _ (ds_data document) (ordinary_patch doctype patch)) in Hpath by done.
    rewrite Hstate in Hpath; [done|]. by apply list_elem_of_fmap_2.
  - intros k Hk. rewrite jm_get_spread by done. destruct (jm_get k authorized) as [v|] eqn:Ha.
    + by apply Hfacts in Ha as [? _].
    + rewrite ordinary_get. by rewrite decide_False.
  - intros k v Hk. rewrite jm_get_spread, Hstate by done. destruct (jm_get k authorized) eqn:Ha; [|done].
    intros [= <-]. apply Hfacts in Ha. apply Ha.
Qed.

(** ** Witness *)

Definition sample_task_doctype : DocTypeDefinition := with_workflows sample_workflow_doctype (Some sample_workflows).

Definition sample_manager : Actor :=
  {| actor_id := js "grace"; actor_roles := [js "Manager"]; actor_tenantId := None; actor_email := None |}.

Definition sample_intents : list DomainCommandTransitionIntent :=
  [ {| dti_workflow := js "approval"; dti_action := js "submit" |};
    {| dti_workflow := js "approval"; dti_action := js "approve" |} ].

Definition sample_command_plan : DomainCommandTransitionsPlan :=
  Eval vm_compute in
  match planDomainCommandTransitions sample_workflow_host (λ c, [c]) sample_manager sample_task_doctype
    (sample_document (VStr (js "Open"))) [(js "state", vstr "Done"); (js "title", vstr "t")] sample_intents [] with
  | Ok plan => plan
  | Throw _ => {| dtp_patch := []; dtp_transitions := [] |}
  end.

Lemma command_follows_workflows_witness :
  planDomainCommandTransitions sample_workflow_host (λ c, [c]) sample_manager sample_task_doctype
    (sample_document (VStr (js "Open"))) [(js "state", vstr "Done"); (js "title", vstr "t")] sample_intents []
    = Ok sample_command_plan ∧
  workflow_path sample_workflow (js "Open")
    (currentWorkflowState sample_workflow_host sample_workflow
      (with_data (sample_document (VStr (js "Open")))
        (jm_spread (ds_data (sample_document (VStr (js "Open")))) (dtp_patch sample_command_plan)))).
Proof.
  split; [by vm_compute|].
  refine (proj1 (command_follows_workflows sample_workflow_host (λ c, [c]) sample_manager sample_task_doctype
    (sample_document (VStr (js "Open"))) [(js "state", vstr "Done"); (js "title", vstr "t")] sample_intents []
    sample_command_plan _ _ _) sample_workflow _).
  - by apply (bool_decide_unpack _).
  - by apply (bool_decide_unpack _).
  - by vm_compute.
  - by left.
Defined.
