(* ===== verification/References.v ===== *)
(** * References: the doctypes and documents that a document refers to

    Models [application/document-tenant-policy.ts] and
    [application/document-reference-policy.ts]: the doctypes that are reachable from
    one, the fields that are fetched from a linked document, and the links that lead
    nowhere.  What a callback reads is a computation over the state of the caller. *)

From S2P Require Export Schema.

(** ** Tenants *)

(** [resolveTenant(actor, explicitTenantId)]. *)
Definition resolveTenant (actor : Actor) (explicitTenantId : option jstr) : jstr :=
  default (default DEFAULT_TENANT_ID (actor_tenantId actor)) explicitTenantId.

(** [resolveTenantDocType(base, context, resolver)]; the resolver is the
    application's, and what it leaves undefined is the base. *)
Definition resolveTenantDocType (base : DocTypeDefinition) (actor : Actor) (tenantId : jstr)
    (resolver : option (DocTypeDefinition → Actor → jstr → res (option DocTypeDefinition))) : res DocTypeDefinition :=
  match resolver with
  | Some resolver => resolved ← resolver base actor tenantId; Ok (default base resolved)
  | None => Ok base
  end.

(** [relatedDocTypeNames(doctype)]. *)
Definition relatedDocTypeNames (doctype : DocTypeDefinition) : list jstr :=
  let named (type : FieldType) (field : FieldDefinition) (name : option jstr) : list jstr :=
    match name with
    | Some n => if bool_decide (fd_type field = type) && negb (bool_decide (n = [])) then [n] else []
    | None => []
    end in
  js_unique (flat_map (λ field, named FTable field (fd_tableOf field) ++ named FLink field (fd_linkTo field))
    (dt_fields doctype)).

Abbreviation RelatedDocTypes := (list (jstr * DocTypeDefinition)).

(** The known names that are not collected yet. *)
Definition pending (known : list jstr) (related : RelatedDocTypes) : nat :=
  length (filter (λ name, jm_has name related = false) known).

Lemma pending_le known a b : (∀ n, jm_has n a = true → jm_has n b = true) → pending known b ≤ pending known a.
Proof.
  intros Hab. unfold pending. induction known as [|n l IH]; [done|]. rewrite !filter_cons.
  destruct (decide (jm_has n b = false)) as [Hb|Hb], (decide (jm_has n a = false)) as [Ha|Ha]; cbn [length]; try lia.
  exfalso. apply Ha. specialize (Hab n). destruct (jm_has n a); [|done]. by rewrite (Hab eq_refl) in Hb.
Qed.

Section reachable.
Context (resolveByName : jstr → res DocTypeDefinition).

(** The loop of [collectReachableDocTypes] over names; [collect] is its recursion. *)
Fixpoint collect_each (collect : DocTypeDefinition → RelatedDocTypes → option (res RelatedDocTypes)) (names : list jstr)
    (related : RelatedDocTypes) : option (res RelatedDocTypes) :=
  match names with
  | [] => Some (Ok related)
  | name :: names =>
      if jm_has name related then collect_each collect names related
      else match resolveByName name with
      | Throw e => Some (Throw e)
      | Ok resolved =>
          match collect resolved (jm_set name resolved related) with
          | Some (Ok related) => collect_each collect names related
          | r => r
          end
      end
  end.

(** [collectReachableDocTypes(doctype, resolveByName, related)]; [None] when the
    fuel, the depth of the recursion, does not suffice. *)
Fixpoint collectReachableDocTypes (fuel : nat) (doctype : DocTypeDefinition) (related : RelatedDocTypes)
    : option (res RelatedDocTypes) :=
  match fuel with
  | O => None
  | S fuel => collect_each (collectReachableDocTypes fuel) (relatedDocTypeNames doctype) related
  end.

(** [resolveTenantDocTypeContext(root, resolveByName)]: the map behind [relatedDocType]. *)
Definition resolveTenantDocTypeContext (fuel : nat) (root : DocTypeDefinition) : option (res RelatedDocTypes) :=
  collectReachableDocTypes fuel root [(dt_name root, root)].

(** The names that can be resolved are those of [known]. *)
Context (known : list jstr) (Hknown : ∀ name d, resolveByName name = Ok d → name ∈ known).

(** What collecting adds to a map: the doctypes that names resolve to, whose own
    names are then collected. *)
Record grown (related related' : RelatedDocTypes) : Prop := {
  gr_keeps k d : jm_get k related = Some d → jm_get k related' = Some d;
  gr_new k d : jm_get k related' = Some d → jm_get k related = None →
    resolveByName k = Ok d ∧ ∀ n, n ∈ relatedDocTypeNames d → jm_has n related' = true
}.

Lemma grown_refl related : grown related related.
Proof using Type. split; [done|]. intros k d Hk Hn. congruence. Qed.

Lemma grown_has related related' n : grown related related' → jm_has n related = true → jm_has n related' = true.
Proof using Type.
  intros Hg. unfold jm_has. destruct (jm_get n related) as [d|] eqn:E; [|done]. by rewrite (gr_keeps _ _ Hg _ _ E).
Qed.

Lemma grown_trans a b c : grown a b → grown b c → grown a c.
Proof using Type.
  intros Hab Hbc. split.
  - intros k d Hk. apply (gr_keeps _ _ Hbc), (gr_keeps _ _ Hab), Hk.
  - intros k d Hk Hn. destruct (jm_get k b) as [d'|] eqn:Eb.
    + assert (d' = d) as -> by (apply (gr_keeps _ _ Hbc) in Eb; congruence).
      destruct (gr_new _ _ Hab k d Eb Hn) as [Hr Hnames]. split; [done|]. intros n Hin.
      by apply (grown_has b c), Hnames.
    + by apply (gr_new _ _ Hbc).
Qed.

Lemma pending_lt name d a :
  resolveByName name = Ok d → jm_has name a = false → pending known (jm_set name d a) < pending known a.
Proof using Hknown.
  intros Hr Ha. apply Hknown, list_elem_of_split in Hr as (l1 & l2 & ->). unfold pending.
  assert (Hle : ∀ l, length (filter (λ n, jm_has n (jm_set name d a) = false) l) ≤
    length (filter (λ n, jm_has n a = false) l)).
  { intros l. apply (pending_le l a). intros n. unfold jm_has. rewrite jm_get_set. by case_decide. }
  rewrite !filter_app, !filter_cons, !length_app, Ha. rewrite decide_False, decide_True; [|done|].
  - cbn [length]. pose proof (Hle l1). pose proof (Hle l2). lia.
  - unfold jm_has. by rewrite jm_get_set_eq.
Qed.

Lemma grown_set name d a b :
  resolveByName name = Ok d → jm_has name a = false → grown (jm_set name d a) b →
  (∀ n, n ∈ relatedDocTypeNames d → jm_has n b = true) → grown a b.
Proof using Type.
  intros Hr Ha Hg Hnames. assert (jm_get name a = None) as Hnone by (unfold jm_has in Ha; by destruct (jm_get name a)). split.
  - intros k d' Hk. apply (gr_keeps _ _ Hg). rewrite jm_get_set. case_decide; [congruence|done].
  - intros k d' Hk Hn. destruct (decide (k = name)) as [->|Hne].
    + assert (d' = d) as ->; [|done]. pose proof (gr_keeps _ _ Hg name d (jm_get_set_eq _ _ _)). congruence.
    + apply (gr_new _ _ Hg); [done|]. by rewrite jm_get_set_ne.
Qed.

(** What a computation does when its fuel exceeds the pending names. *)
Definition collects (names : list jstr) (related : RelatedDocTypes) (o : option (res RelatedDocTypes)) : Prop :=
  match o with
  | None => False
  | Some (Throw e) => ∃ n, resolveByName n = Throw e
  | Some (Ok related') => grown related related' ∧ ∀ n, n ∈ names → jm_has n related' = true
  end.

Lemma collect_each_ok collect names related :
  (∀ d r, pending known r < pending known related → collects (relatedDocTypeNames d) r (collect d r)) →
  collects names related (collect_each collect names related).
Proof using Hknown.
  revert related. induction names as [|name names IH]; intros related Hc; cbn [collect_each].
  - split; [apply grown_refl|]. by intros n ?%elem_of_nil.
  - destruct (jm_has name related) eqn:Ehas.
    + specialize (IH related Hc). unfold collects in *. destruct (collect_each _ _ _) as [[r|e]|]; [|done..].
      destruct IH as [Hg Hn]. split; [done|]. intros n [->|Hin]%elem_of_cons; [by eapply grown_has|by apply Hn].
    + destruct (resolveByName name) as [d|e] eqn:Er; [|by exists name].
      pose proof (Hc d (jm_set name d related) (pending_lt name d related Er Ehas)) as Hd.
      destruct (collect d _) as [[r|e]|]; [|done..]. destruct Hd as [Hg Hn].
      assert (grown related r) as Hgr by (by eapply grown_set).
      assert (Hle : pending known r ≤ pending known related) by (apply pending_le; intros n; by apply grown_has).
      specialize (IH r (λ d r' Hlt, Hc d r' (Nat.lt_le_trans _ _ _ Hlt Hle))). unfold collects in *.
      destruct (collect_each _ _ _) as [[r'|e]|]; [|done..]. destruct IH as [Hg' Hn'].
      split; [by eapply grown_trans|]. intros n [->|Hin]%elem_of_cons; [|by apply Hn'].
      apply (grown_has r r'); [done|]. unfold jm_has. by rewrite (gr_keeps _ _ Hg name d (jm_get_set_eq _ _ _)).
Qed.

Lemma collect_ok fuel : ∀ doctype related,
  pending known related < fuel → collects (relatedDocTypeNames doctype) related (collectReachableDocTypes fuel doctype related).
Proof using Hknown.
  induction fuel as [|fuel IH]; intros doctype related Hlt; [lia|]. cbn [collectReachableDocTypes].
  apply collect_each_ok. intros d r Hr. apply IH. lia.
Qed.
End reachable.

(** Collecting the doctypes that are reachable from one terminates, however they refer
    to one another, when finitely many names can be resolved.  Unless a name cannot be
    resolved, the doctypes it collects are the root and those that the names resolve
    to, and they are closed: every doctype that one of them names is among them. *)
Theorem reachable_doctypes resolveByName known root :
  (∀ name d, resolveByName name = Ok d → name ∈ known) →
  match resolveTenantDocTypeContext resolveByName (S (length known)) root with
  | None => False
  | Some (Throw e) => ∃ n, resolveByName n = Throw e
  | Some (Ok related) =>
      jm_get (dt_name root) related = Some root ∧
      ∀ k d, jm_get k related = Some d →
        (k = dt_name root ∨ resolveByName k = Ok d) ∧
        ∀ n, n ∈ relatedDocTypeNames d → jm_has n related = true
  end.
Proof.
  intros Hknown. unfold resolveTenantDocTypeContext.
  assert (Hlt : pending known [(dt_name root, root)] < S (length known)).
  { unfold pending. pose proof (length_filter (λ n, jm_has n [(dt_name root, root)] = false) known). lia. }
  pose proof (collect_ok resolveByName known Hknown (S (length known)) root _ Hlt) as Hc. unfold collects in Hc.
  destruct (collectReachableDocTypes _ _ _ _) as [[related|e]|]; [|done..]. destruct Hc as [Hg Hn].
  assert (jm_get (dt_name root) [(dt_name root, root)] = Some root) as Hroot by (cbn; by rewrite decide_True).
  split; [by apply (gr_keeps _ _ _ Hg)|]. intros k d Hk. destruct (decide (k = dt_name root)) as [->|Hne].
  - rewrite (gr_keeps _ _ _ Hg _ _ Hroot) in Hk. injection Hk as <-. split; [by left|done].
  - destruct (gr_new _ _ _ Hg k d Hk) as [Hr Hnames]; [cbn; by rewrite decide_False|]. split; [by right|done].
Qed.

(** ** Fetched fields *)

(** [s.split(c)]. *)
Fixpoint split_char (c : N) (s : jstr) : list jstr :=
  match s with
  | [] => [[]]
  | x :: s =>
      if decide (x = c) then [] :: split_char c s
      else match split_char c s with part :: parts => (x :: part) :: parts | [] => [[x]] end
  end.

Record FetchFromPath := { ffp_linkField : jstr; ffp_sourceField : jstr }.

(** [parseFetchFrom(fetchFrom)]. *)
Definition parseFetchFrom (fetchFrom : jstr) : option FetchFromPath :=
  match split_char 46 fetchFrom with
  | [linkField; sourceField] =>
      if bool_decide (linkField = []) || bool_decide (sourceField = []) then None
      else Some {| ffp_linkField := linkField; ffp_sourceField := sourceField |}
  | _ => None
  end.

(** [isEmptyFetchedTarget(value)]. *)
Definition isEmptyFetchedTarget (v : value) : bool :=
  match v with
  | VUndef | VNull => true
  | VStr s => bool_decide (s = [])
  | VArr l => bool_decide (l = [])
  | _ => false
  end.

(** [a ?? b]. *)
Definition or_nullish (a b : value) : value := if is_nullish a then b else a.

Section fetched.
Context {St : Type} (relatedDocType : jstr → option DocTypeDefinition).
(** [readFetchedTarget], of the link field, the doctype it leads to and a name. *)
Context (readFetchedTarget : FieldDefinition → DocTypeDefinition → jstr → M St (option DocumentSnapshot)).

(** The link that a field is fetched through, if the loop gets as far. *)
Definition fetch_link (doctype : DocTypeDefinition) (d enriched : data) (existing : option DocumentSnapshot)
    (field : FieldDefinition) : option (FieldDefinition * DocTypeDefinition * jstr * jstr) :=
  fetchFrom ← fd_fetchFrom field;
  if jm_has (fd_name field) d then None else
  path ← parseFetchFrom fetchFrom;
  linkField ← find_field doctype (ffp_linkField path);
  if negb (bool_decide (fd_type linkField = FLink)) then None else
  if match existing with Some _ => negb (jm_has (fd_name linkField) d) | None => false end then None else
  let old k := match existing with Some s => vget k (ds_data s) | None => VUndef end in
  if fd_fetchIfEmpty field && negb (isEmptyFetchedTarget (or_nullish (vget (fd_name field) enriched) (old (fd_name field))))
  then None else
  match or_nullish (vget (fd_name linkField) enriched) (old (fd_name linkField)) with
  | VStr name =>
      if bool_decide (name = []) then None
      else targetDoctype ← relatedDocType (default [] (fd_linkTo linkField));
           Some (linkField, targetDoctype, name, ffp_sourceField path)
  | _ => None
  end.

(** The loop of [applyFetchedFields] over fields. *)
Fixpoint fetch_fields (doctype : DocTypeDefinition) (d : data) (existing : option DocumentSnapshot)
    (fields : list FieldDefinition) (enriched : data) : M St data :=
  match fields with
  | [] => mret enriched
  | field :: fields =>
      match fetch_link doctype d enriched existing field with
      | None => fetch_fields doctype d existing fields enriched
      | Some (linkField, targetDoctype, targetName, sourceField) =>
          target ← readFetchedTarget linkField targetDoctype targetName;
          let fetchedValue := match target with Some t => vget sourceField (ds_data t) | None => VUndef end in
          fetch_fields doctype d existing fields
            (if is_undefined fetchedValue then enriched else jm_set (fd_name field) fetchedValue enriched)
      end
  end.

(** [applyFetchedFields(options)]. *)
Definition applyFetchedFields (doctype : DocTypeDefinition) (d : data) (existing : option DocumentSnapshot) : M St data :=
  enriched ← fetch_fields doctype d existing (dt_fields doctype) d;
  mret (compactData enriched).

(** What a fetch adds to the fields of [d]. *)
Definition fetched_over (doctype : DocTypeDefinition) (d enriched : data) : Prop :=
  jm_wf enriched ∧ (∀ k, jm_has k d = true → jm_get k enriched = jm_get k d) ∧
  ∀ k, jm_has k enriched = true → jm_has k d = false →
    ∃ field, field ∈ dt_fields doctype ∧ fd_name field = k ∧ fd_fetchFrom field ≠ None.

Lemma fetch_fields_over doctype d existing fields enriched s r s' :
  (∀ field, field ∈ fields → field ∈ dt_fields doctype) → fetched_over doctype d enriched →
  fetch_fields doctype d existing fields enriched s = (Ok r, s') → fetched_over doctype d r.
Proof using Type.
  revert enriched s. induction fields as [|field fields IH]; intros enriched s Hsub Hover; cbn [fetch_fields].
  - by intros [= <- <-].
  - assert (Hsub' : ∀ f, f ∈ fields → f ∈ dt_fields doctype) by (intros f Hf; apply Hsub; by right).
    destruct (fetch_link doctype d enriched existing field) as [[[[linkField target] name] sourceField]|] eqn:El;
      [|by apply IH].
    rewrite m_bind_run. destruct (readFetchedTarget linkField target name s) as [[t|e] s1]; [|done].
    apply IH; [done|]. destruct (is_undefined _); [done|]. destruct Hover as (Hwf & Hkeep & Hnew).
    unfold fetch_link in El. destruct (fd_fetchFrom field) as [from|] eqn:Ef; [|done]. cbn [mbind option_bind] in El.
    destruct (jm_has (fd_name field) d) eqn:Ed; [done|]. split_and!; [by apply jm_wf_set| |].
    + intros k Hk. rewrite jm_get_set_ne by congruence. by apply Hkeep.
    + intros k Hk Hkd. destruct (decide (k = fd_name field)) as [->|Hne].
      * exists field. split_and!; [apply Hsub; by left|done|by rewrite Ef].
      * apply Hnew; [|done]. revert Hk. unfold jm_has. by rewrite jm_get_set_ne.
Qed.

(** A fetch keeps the values that are given, and adds only fields that are fetched. *)
Lemma applyFetchedFields_over doctype d existing s r s' :
  jm_wf d → applyFetchedFields doctype d existing s = (Ok r, s') →
  jm_wf r ∧ (∀ k, jm_has k d = true → vget k r = vget k d) ∧
  ∀ k, jm_has k r = true → jm_has k d = false →
    ∃ field, field ∈ dt_fields doctype ∧ fd_name field = k ∧ fd_fetchFrom field ≠ None.
Proof using Type.
  intros Hwf. unfold applyFetchedFields. rewrite m_bind_run.
  destruct (fetch_fields _ _ _ _ _ s) as [[enriched|e] s1] eqn:E; [|done]. intros [= <- <-].
  assert (fetched_over doctype d d) as Hd by (split_and!; [done|done|intros k; by destruct (jm_has k d)]).
  apply fetch_fields_over in E as (Hw & Hkeep & Hnew); [|done..]. split_and!.
  - by apply jm_wf_filter.
  - intros k Hk. rewrite jm_get_compact by done. unfold vget. by rewrite Hkeep.
  - intros k Hk. apply Hnew. apply jm_has_elem in Hk. apply jm_has_elem.
    apply list_elem_of_fmap in Hk as (kv & -> & Hkv). apply list_elem_of_filter in Hkv as [_ Hkv].
    by apply list_elem_of_fmap_2.
Qed.
End fetched.

(** ** Links *)

(** A link to check: the doctype and the field it is found in, the doctype it leads to,
    a name, and where it is. *)
Record DocumentLink := {
  dln_source : DocTypeDefinition;
  dln_field : FieldDefinition;
  dln_target : DocTypeDefinition;
  dln_name : jstr;
  dln_path : jstr
}.

Section links.
Context (relatedDocType : jstr → option DocTypeDefinition).

Definition is_linkable (field : FieldDefinition) : bool :=
  bool_decide (fd_type field = FLink) || bool_decide (fd_type field = FTable).

(** The links of one value: in the rows of a table, or the name that a link holds. *)
Fixpoint value_links (v : value) (source : DocTypeDefinition) (field : FieldDefinition) (fieldPath : jstr) {struct v}
    : list DocumentLink :=
  match fd_type field, v with
  | FTable, VArr rows =>
      match child_doctype relatedDocType field with
      | None => []
      | Some child =>
          (fix each (index : nat) (rows : list value) : list DocumentLink :=
             match rows with
             | [] => []
             | row :: rows =>
                 match row with
                 | VObj m =>
                     flat_map (λ childField,
                       (fix at_ (m : data) : list DocumentLink :=
                          match m with
                          | [] => []
                          | (k, w) :: m =>
                              if decide (k = fd_name childField)
                              then value_links w child childField (row_path fieldPath index ++ js "." ++ fd_name childField)
                              else at_ m
                          end) m) (filter (λ f, is_linkable f = true) (dt_fields child))
                 | _ => []
                 end ++ each (S index) rows
             end) 0 rows
      end
  | FLink, VStr name =>
      if bool_decide (name = []) then []
      else match relatedDocType (default [] (fd_linkTo field)) with
      | None => []
      | Some targetDoctype =>
          [{| dln_source := source; dln_field := field; dln_target := targetDoctype; dln_name := name;
              dln_path := fieldPath |}]
      end
  | _, _ => []
  end.

(** The links of a document, in the order of its fields. *)
Definition document_links (doctype : DocTypeDefinition) (d : data) : list DocumentLink :=
  flat_map (λ field, value_links (vget (fd_name field) d) doctype field (fd_name field))
    (filter (λ field, is_linkable field = true ∧ jm_has (fd_name field) d = true) (dt_fields doctype)).

(** [validateDocumentLinks(options)]: every link is asked for, in their order, and the
    issues are those of the links that cannot be read. *)
Definition validateDocumentLinks {St} (canReadLinkedTarget : DocumentLink → M St bool) (doctype : DocTypeDefinition)
    (d : data) : M St (list ValidationIssue) :=
  issues ← m_map (λ l,
    readable ← canReadLinkedTarget l;
    mret (if readable : bool then [] else [issue (dln_path l) (js "link_not_found")])) (document_links doctype d);
  mret (concat issues).

(** Values whose links lead to readable documents. *)
Context (canRead : DocTypeDefinition → FieldDefinition → DocTypeDefinition → jstr → bool).

Inductive links_ok : DocTypeDefinition → FieldDefinition → value → Prop :=
| links_ok_intro source field v :
    (∀ rows child i m childField, fd_type field = FTable → v = VArr rows → child_doctype relatedDocType field = Some child →
       rows !! i = Some (VObj m) → childField ∈ dt_fields child → links_ok child childField (vget (fd_name childField) m)) →
    (∀ name targetDoctype, fd_type field = FLink → v = VStr name → name ≠ [] →
       relatedDocType (default [] (fd_linkTo field)) = Some targetDoctype →
       canRead source field targetDoctype name = true) →
    links_ok source field v.

Definition answer (l : DocumentLink) : bool := canRead (dln_source l) (dln_field l) (dln_target l) (dln_name l).
Abbreviation readable_links links := (∀ l, l ∈ links → answer l = true).

Definition row_links (child : DocTypeDefinition) (fieldPath : jstr) (index : nat) (row : value) : list DocumentLink :=
  match row with
  | VObj m => flat_map (λ childField,
      value_links (vget (fd_name childField) m) child childField (row_path fieldPath index ++ js "." ++ fd_name childField))
      (filter (λ f, is_linkable f = true) (dt_fields child))
  | _ => []
  end.

Lemma value_links_undefined source field path : value_links VUndef source field path = [].
Proof using Type. cbn. by destruct (fd_type field). Qed.

Lemma value_links_rows rows source field path :
  fd_type field = FTable →
  value_links (VArr rows) source field path =
  match child_doctype relatedDocType field with
  | None => []
  | Some child => concat (imap (row_links child path) rows)
  end.
Proof using Type.
  intros Ht. cbn [value_links]. rewrite Ht. destruct (child_doctype relatedDocType field) as [child|]; [|done].
  change (imap (row_links child path) rows) with (imap (λ i, row_links child path (0 + i)) rows).
  generalize 0 as index. induction rows as [|row rows IH]; intros index; [done|].
  rewrite imap_cons. cbn [concat]. f_equal.
  - rewrite Nat.add_0_r. destruct row as [| | | | | |m]; try done. cbn [row_links]. clear IH.
    induction (filter _ (dt_fields child)) as [|f fs IHf]; [done|]. cbn [flat_map]. rewrite IHf. f_equal.
    clear IHf. unfold vget. induction m as [|[k w] m IHm]; [by rewrite value_links_undefined|]. cbn [jm_get].
    rewrite (decide_ext (fd_name f = k) (k = fd_name f)) by (split; congruence).
    by destruct (decide (k = fd_name f)).
  - rewrite (IH (S index)). f_equal. apply imap_ext. intros i x _. cbn. f_equal. lia.
Qed.

Lemma links_ok_plain source field v : is_linkable field = false → links_ok source field v.
Proof using Type.
  unfold is_linkable. rewrite orb_false_iff, !bool_decide_eq_false. intros [? ?]. constructor; congruence.
Qed.

Lemma elem_of_flat_map {A B} (f : A → list B) l y : y ∈ flat_map f l ↔ ∃ x, x ∈ l ∧ y ∈ f x.
Proof using Type.
  rewrite list_elem_of_In, in_flat_map. split; intros (x & Hx & Hy); exists x; by rewrite !list_elem_of_In in *.
Qed.

Lemma value_links_flat v source field path :
  (fd_type field = FTable → ∀ rows, v ≠ VArr rows) →
  readable_links (value_links v source field path) ↔ links_ok source field v.
Proof using Type.
  intros Hv. split.
  - intros Hl. constructor; [intros rows child i m f Ht ->; by destruct (Hv Ht rows)|].
    intros name target Ht -> Hne Hr. cbn in Hl. rewrite Ht, bool_decide_false, Hr in Hl by done.
    exact (Hl {| dln_source := source; dln_field := field; dln_target := target; dln_name := name; dln_path := path |}
      (list_elem_of_here _ _)).
  - inversion 1 as [? ? ? _ Hl]; subst. intros l. destruct (fd_type field) eqn:Ht;
      try (destruct v; cbn [value_links]; rewrite Ht; by intros ?%elem_of_nil).
    + destruct v as [| | | |name| |]; cbn [value_links]; rewrite Ht; try (by intros ?%elem_of_nil).
      case_bool_decide; [by intros ?%elem_of_nil|].
      destruct (relatedDocType _) as [target|] eqn:Hr; [|by intros ?%elem_of_nil].
      intros ->%list_elem_of_singleton. by apply Hl.
    + destruct v as [| | | | |rows|]; cbn [value_links]; rewrite Ht; try (by intros ?%elem_of_nil).
      by destruct (Hv eq_refl rows).
Qed.

Lemma value_links_readable v :
  (∀ source field path, readable_links (value_links v source field path) ↔ links_ok source field v) ∧
  (∀ m, v = VObj m → ∀ k source field path,
     readable_links (value_links (vget k m) source field path) ↔ links_ok source field (vget k m)).
Proof using Type.
  induction v as [| | | | |items IH|m IH] using value_ind';
    [split; [intros source field path; apply value_links_flat; intros _ rows [=]|intros m [=]]..| |].
  - split; [|intros m [=]]. intros source field path. destruct (decide (fd_type field = FTable)) as [Ht|Ht];
      [|by apply value_links_flat].
    rewrite value_links_rows by done. rewrite Forall_forall in IH. split.
    + intros Hl. constructor; [|intros; congruence]. intros rows child i m f _ [= <-] Hc Hi Hf. rewrite Hc in Hl.
      destruct (is_linkable f) eqn:El; [|by apply links_ok_plain].
      apply (proj2 (IH _ (list_elem_of_lookup_2 _ _ _ Hi)) m eq_refl) with (path := row_path path i ++ js "." ++ fd_name f).
      intros l Hin. apply Hl. apply list_elem_of_In, in_concat. exists (row_links child path i (VObj m)). split.
      * apply list_elem_of_In, list_elem_of_lookup. exists i. by rewrite list_lookup_imap, Hi.
      * apply list_elem_of_In, elem_of_flat_map. exists f. split; [by apply list_elem_of_filter|done].
    + inversion 1 as [? ? ? Hrows _]; subst. destruct (child_doctype relatedDocType field) as [child|] eqn:Hc;
        [|by intros l ?%elem_of_nil].
      intros l (x & Hx & Hin)%list_elem_of_In%in_concat. apply list_elem_of_In in Hx, Hin.
      apply list_elem_of_lookup in Hx as [i Hi]. rewrite list_lookup_imap in Hi.
      destruct (items !! i) as [row|] eqn:Hrow; [|done]. injection Hi as <-.
      destruct row as [| | | | | |m]; try (by apply elem_of_nil in Hin).
      apply elem_of_flat_map in Hin as (f & [_ Hf]%list_elem_of_filter & Hin). revert l Hin.
      apply (proj2 (IH _ (list_elem_of_lookup_2 _ _ _ Hrow)) m eq_refl). by eapply Hrows.
  - split; [intros source field path; apply value_links_flat; intros _ rows [=]|]. intros m' [= <-] k. unfold vget.
    destruct (jm_get k m) as [w|] eqn:Hw; [|intros; apply value_links_flat; intros _ rows [=]].
    apply jm_get_elem_1 in Hw. rewrite Forall_forall in IH. apply (IH _ Hw).
Qed.

Lemma document_links_readable doctype d :
  readable_links (document_links doctype d) ↔
  ∀ field, field ∈ dt_fields doctype → links_ok doctype field (vget (fd_name field) d).
Proof using Type.
  unfold document_links. split.
  - intros Hl field Hin. destruct (is_linkable field) eqn:El; [|by apply links_ok_plain].
    apply (proj1 (value_links_readable _)) with (path := fd_name field).
    destruct (jm_has (fd_name field) d) eqn:Hd.
    + intros l Hlin. apply Hl, elem_of_flat_map. exists field. split; [by apply list_elem_of_filter|done].
    + unfold vget. unfold jm_has in Hd. destruct (jm_get (fd_name field) d); [done|]. rewrite value_links_undefined.
      by intros l ?%elem_of_nil.
  - intros Hl l (field & [_ Hin]%list_elem_of_filter & Hlin)%elem_of_flat_map. revert l Hlin.
    by apply (proj1 (value_links_readable _)), Hl.
Qed.
End links.

Lemma m_map_pure {S A B} (f : A → M S B) (g : A → B) l s :
  (∀ x, f x s = (Ok (g x), s)) → m_map f l s = (Ok (g <$> l), s).
Proof.
  intros Hf. induction l as [|x l IH]; [done|].
  change (m_map f (x :: l) s) with ((y ← f x; ys ← m_map f l; mret (y :: ys)) s).
  by rewrite m_bind_run, Hf, m_bind_run, IH.
Qed.

(** C34: The links of a document are all asked for, however deep in the rows of its tables,
    and it has no issues about them exactly when all lead to documents that the actor
    can read. *)
Theorem links_exact {St} relatedDocType (canRead : DocTypeDefinition → FieldDefinition → DocTypeDefinition → jstr → bool)
    doctype d (s : St) :
  ∃ issues,
    validateDocumentLinks relatedDocType (λ l, mret (answer canRead l)) doctype d s = (Ok issues, s) ∧
    (issues = [] ↔
     ∀ field, field ∈ dt_fields doctype → links_ok relatedDocType canRead doctype field (vget (fd_name field) d)).
Proof.
  pose proof (document_links_readable relatedDocType canRead doctype d) as Hd.
  exists (concat ((λ l, if answer canRead l then [] else [issue (dln_path l) (js "link_not_found")]) <$>
    document_links relatedDocType doctype d)). split.
  - unfold validateDocumentLinks. rewrite m_bind_run.
    rewrite (m_map_pure _ (λ l, if answer canRead l then [] else [issue (dln_path l) (js "link_not_found")])); done.
  - rewrite <-Hd, concat_nil. split.
    + intros Hn l Hl. destruct (answer canRead l) eqn:Ea; [done|].
      specialize (Hn _ (list_elem_of_fmap_2 _ _ _ Hl)). cbn in Hn. by rewrite Ea in Hn.
    + intros Hl x (l & -> & Hin)%list_elem_of_fmap. by rewrite Hl.
Qed.

(** ** Witness *)

(** Two doctypes that refer to each other, and one that nothing resolves. *)
Definition sample_link (name target : jstr) : FieldDefinition :=
  {| fd_name := name; fd_type := FLink; fd_required := false; fd_mandatoryDependsOn := None; fd_readOnly := false;
     fd_readOnlyDependsOn := None; fd_hidden := false; fd_hiddenDependsOn := None; fd_unique := false; fd_noCopy := false;
     fd_allowOnSubmit := false; fd_fetchFrom := None; fd_fetchIfEmpty := false; fd_options := None;
     fd_linkTo := Some target; fd_tableOf := None; fd_min := None; fd_max := None; fd_defaultValue := None;
     fd_permissions := None |}.

Definition sample_customer : DocTypeDefinition := plain_doctype (js "Customer") [sample_link (js "last") (js "Order")].
Definition sample_order : DocTypeDefinition := plain_doctype (js "Order") [sample_link (js "buyer") (js "Customer")].

Definition sample_resolve (name : jstr) : res DocTypeDefinition :=
  if bool_decide (name = js "Customer") then Ok sample_customer
  else if bool_decide (name = js "Order") then Ok sample_order else Throw (notFound DOCTYPE_NOT_FOUND).

Lemma reachable_doctypes_witness :
  resolveTenantDocTypeContext sample_resolve 3 sample_order =
    Some (Ok [(js "Order", sample_order); (js "Customer", sample_customer)]) ∧
  match resolveTenantDocTypeContext sample_resolve 3 sample_order with
  | None => False
  | Some (Throw e) => ∃ n, sample_resolve n = Throw e
  | Some (Ok related) =>
      jm_get (js "Order") related = Some sample_order ∧
      ∀ k d, jm_get k related = Some d →
        (k = js "Order" ∨ sample_resolve k = Ok d) ∧
        ∀ n, n ∈ relatedDocTypeNames d → jm_has n related = true
  end.
Proof.
  split; [by vm_compute|].
  apply (reachable_doctypes sample_resolve [js "Customer"; js "Order"] sample_order).
  intros name d. unfold sample_resolve. case_bool_decide as E1; [rewrite E1; by left|].
  case_bool_decide as E2; [rewrite E2; intros _; right; by left|done].
Defined.
