(* ===== verification/Access.v ===== *)
(** * Access: what an actor sees and may change of a document

    Models [application/document-access-policy.ts] and
    [application/document-field-access-policy.ts]: access to a document by the rules
    of its doctype, its shares and the restrictions of a user; the fields that an actor
    is shown and may write, in the document and in the rows of its tables; and what is
    left of a merge plan.  The views of a form or a list, and the messages, are left out. *)

From S2P Require Export Permissions FieldPolicy References Merge.

(** ** Access to documents *)

(** [canUseDocTypeAction(options)]. *)
Definition canUseDocTypeAction (actor : Actor) (doctype : DocTypeDefinition) (action : PermissionAction) : bool :=
  can actor doctype action None.

(** [canUseDocumentAction(options)]. *)
Definition canUseDocumentAction (actor : Actor) (doctype : DocTypeDefinition) (action : PermissionAction)
    (document : DocumentSnapshot) (sharedPermissions : list DocumentSharePermission) : bool :=
  can actor doctype action (Some document) || documentShareAllows sharedPermissions action.

(** [planDocTypeActionAccess(options)] and [planDocumentActionAccess(options)], as the
    guards of their callers: a refusal is a permission error. *)
Definition planDocTypeActionAccess (actor : Actor) (doctype : DocTypeDefinition) (action : PermissionAction) : res unit :=
  ensure (canUseDocTypeAction actor doctype action) permissionDenied.
Definition planDocumentActionAccess (actor : Actor) (doctype : DocTypeDefinition) (action : PermissionAction)
    (document : DocumentSnapshot) (sharedPermissions : list DocumentSharePermission) : res unit :=
  ensure (canUseDocumentAction actor doctype action document sharedPermissions) permissionDenied.

(** [planDocumentSharedPermissionLookup(options)]: whether the shares are to be read. *)
Definition planDocumentSharedPermissionLookup (actor : Actor) (doctype : DocTypeDefinition) (action : PermissionAction)
    (document : DocumentSnapshot) : bool := negb (canUseDocumentAction actor doctype action document []).

(** [resolveDocumentSharedPermissionsForAction(options)]: the permissions it returns;
    [readSharedPermissions] is the callback. *)
Definition resolveDocumentSharedPermissionsForAction {St} (actor : Actor) (doctype : DocTypeDefinition)
    (action : PermissionAction) (document : DocumentSnapshot)
    (readSharedPermissions : M St (list DocumentSharePermission)) : M St (list DocumentSharePermission) :=
  if planDocumentSharedPermissionLookup actor doctype action document then readSharedPermissions else mret [].

(** [documentSatisfiesUserPermissions(options)] and [planDocumentUserPermissionAccess(options)]. *)
Definition documentSatisfiesUserPermissions (doctype : DocTypeDefinition) (document : DocumentSnapshot)
    (userPermissionGrants : list UserPermissionGrant) : bool :=
  documentMatchesUserPermissions doctype document userPermissionGrants.
Definition planDocumentUserPermissionAccess (doctype : DocTypeDefinition) (document : DocumentSnapshot)
    (userPermissionGrants : list UserPermissionGrant) : res unit :=
  ensure (documentSatisfiesUserPermissions doctype document userPermissionGrants) permissionDenied.

(** [canUseVisibleDocument(options)]. *)
Definition canUseVisibleDocument (actor : Actor) (doctype : DocTypeDefinition) (action : PermissionAction)
    (document : DocumentSnapshot) (sharedPermissions : list DocumentSharePermission)
    (userPermissionGrants : list UserPermissionGrant) : bool :=
  negb (bool_decide (ds_docstatus document = Deleted)) &&
  canUseDocumentAction actor doctype action document sharedPermissions &&
  documentSatisfiesUserPermissions doctype document userPermissionGrants.

(** [canReadLinkedDocumentTarget(options)]. *)
Definition canReadLinkedDocumentTarget (actor : Actor) (sourceDoctype : DocTypeDefinition) (field : FieldDefinition)
    (targetDoctype : DocTypeDefinition) (target : DocumentSnapshot) (sharedPermissions : list DocumentSharePermission)
    (userPermissionGrants : list UserPermissionGrant) : bool :=
  negb (bool_decide (ds_docstatus target = Deleted)) &&
  canUseDocumentAction actor targetDoctype ARead target sharedPermissions &&
  linkTargetMatchesUserPermissions sourceDoctype field target userPermissionGrants.

(** ** Fields that are shown *)

Section fields.
Context (host : predicate_host) (relatedDocType : jstr → option DocTypeDefinition) (actor : Actor).

(** A value that is left out of a check when it is undefined. *)
Definition given (v : value) : option value := if is_undefined v then None else Some v.

(** [childRowSnapshot(input)]. *)
Definition childRowSnapshot (parent : option DocumentSnapshot) (child : DocTypeDefinition) (field : FieldDefinition)
    (index : nat) (d : data) : DocumentSnapshot :=
  let path := row_path (fd_name field) index in
  match parent with
  | Some p =>
      {| ds_tenantId := ds_tenantId p; ds_doctype := dt_name child; ds_name := ds_name p ++ js "." ++ path;
         ds_version := ds_version p; ds_docstatus := ds_docstatus p; ds_data := d;
         ds_createdAt := ds_createdAt p; ds_updatedAt := ds_updatedAt p |}
  | None =>
      {| ds_tenantId := []; ds_doctype := dt_name child; ds_name := path; ds_version := 0; ds_docstatus := Draft;
         ds_data := d; ds_createdAt := []; ds_updatedAt := [] |}
  end.

(** One field of the loop of [redactDocumentData]; [shown] is [redactFieldValue]. *)
Definition redact_field (document : DocumentSnapshot) (d : data) (shown : FieldDefinition → value) (redacted : data)
    (field : FieldDefinition) : data :=
  match vget (fd_name field) d with
  | VUndef => redacted
  | v =>
      if canReadField actor field (Some document) (Some v)
      then jm_set (fd_name field) (shown field) redacted else jm_delete (fd_name field) redacted
  end.

(** The body of [redactDocumentData]. *)
Definition redact_with (doctype : DocTypeDefinition) (d : data) (document : DocumentSnapshot)
    (shown : FieldDefinition → value) : data :=
  compactData (foldl (redact_field document d shown) (if dt_allowUnknownFields doctype then d else []) (dt_fields doctype)).

(** The doctype of the rows of a table field. *)
Definition rows_doctype (field : FieldDefinition) : option DocTypeDefinition :=
  if bool_decide (fd_type field = FTable) then fd_tableOf field ≫= relatedDocType else None.

(** [redactFieldValue(input)]; the rows are redacted by the recursive calls on their values. *)
Fixpoint redactFieldValue (v : value) (field : FieldDefinition) (parent : DocumentSnapshot) {struct v} : value :=
  match v, rows_doctype field with
  | VArr rows, Some child =>
      VArr ((fix each (index : nat) (rows : list value) : list value :=
         match rows with
         | [] => []
         | row :: rows =>
             match row with
             | VObj m =>
                 let rowSnapshot := childRowSnapshot (Some parent) child field index m in
                 VObj (redact_with child m rowSnapshot (λ childField,
                   (fix at_ (m : data) : value :=
                      match m with
                      | [] => VUndef
                      | (k, w) :: m =>
                          if decide (k = fd_name childField) then redactFieldValue w childField rowSnapshot else at_ m
                      end) m))
             | _ => row
             end :: each (S index) rows
         end) 0 rows)
  | _, _ => v
  end.

(** [redactDocumentData(input)]. *)
Definition redactDocumentData (doctype : DocTypeDefinition) (d : data) (document : DocumentSnapshot) : data :=
  redact_with doctype d document (λ field, redactFieldValue (vget (fd_name field) d) field document).

(** [redactDocumentSnapshot(options)]. *)
Definition redactDocumentSnapshot (doctype : DocTypeDefinition) (document : DocumentSnapshot) : DocumentSnapshot :=
  {| ds_tenantId := ds_tenantId document; ds_doctype := ds_doctype document; ds_name := ds_name document;
     ds_version := ds_version document; ds_docstatus := ds_docstatus document;
     ds_data := redactDocumentData doctype (ds_data document) document;
     ds_createdAt := ds_createdAt document; ds_updatedAt := ds_updatedAt document |}.

(** Whether a field of a document is readable, with the value it has there. *)
Definition readable (document : DocumentSnapshot) (field : FieldDefinition) : bool :=
  canReadField actor field (Some document) (given (vget (fd_name field) (ds_data document))).

(** [readableDocumentFieldNames(options)]. *)
Definition readableDocumentFieldNames (doctype : DocTypeDefinition) (document : DocumentSnapshot) : list jstr :=
  js_unique (fd_name <$> filter (λ field, readable document field = true) (dt_fields doctype)).

(** ** Fields that may be written *)

(** The body of [documentFieldPermissionIssues]; [children] is [childFieldPermissionIssues]. *)
Definition own_permission_issues (action : FieldPermissionAction) (doctype : DocTypeDefinition) (d : data)
    (document : option DocumentSnapshot) (unset : list jstr) (pathPrefix : jstr)
    (children : FieldDefinition → list ValidationIssue) : list ValidationIssue :=
  flat_map (λ fieldName, match fields_get doctype fieldName with
    | None => []
    | Some field =>
        if canWriteField {| fpc_actor := actor; fpc_action := action; fpc_field := field; fpc_document := document;
                            fpc_value := given (vget (fd_name field) d) |}
        then children field else [issue (pathPrefix ++ fd_name field) (js "field_permission")]
    end) (js_unique (jm_keys d ++ unset)).

(** [childFieldPermissionIssues(input)]. *)
Fixpoint childFieldPermissionIssues (action : FieldPermissionAction) (v : value) (field : FieldDefinition)
    (document : option DocumentSnapshot) (fieldPath : jstr) {struct v} : list ValidationIssue :=
  match v, rows_doctype field with
  | VArr rows, Some child =>
      (fix each (index : nat) (rows : list value) : list ValidationIssue :=
         match rows with
         | [] => []
         | row :: rows =>
             match row with
             | VObj m =>
                 let rowDocument := Some (childRowSnapshot document child field index (compactData m)) in
                 let prefix := row_path fieldPath index ++ js "." in
                 own_permission_issues action child m rowDocument [] prefix (λ childField,
                   (fix at_ (m : data) : list ValidationIssue :=
                      match m with
                      | [] => []
                      | (k, w) :: m =>
                          if decide (k = fd_name childField)
                          then childFieldPermissionIssues action w childField rowDocument (prefix ++ fd_name childField)
                          else at_ m
                      end) m)
             | _ => []
             end ++ each (S index) rows
         end) 0 rows
  | _, _ => []
  end.

(** [fieldPermissionIssues(options)]. *)
Definition fieldPermissionIssues (action : FieldPermissionAction) (doctype : DocTypeDefinition) (d : data)
    (document : option DocumentSnapshot) (unset : list jstr) : list ValidationIssue :=
  own_permission_issues action doctype d document unset [] (λ field,
    childFieldPermissionIssues action (vget (fd_name field) d) field document (fd_name field)).

(** ** The state of each field *)

Record DocumentFieldState := { dfs_read : bool; dfs_write : bool; dfs_redacted : bool; dfs_hidden : bool }.

(** [documentStatusAllowsFieldUpdate(document, field)]. *)
Definition documentStatusAllowsFieldUpdate (document : DocumentSnapshot) (field : FieldDefinition) : bool :=
  match ds_docstatus document with Draft => true | Submitted => fd_allowOnSubmit field | _ => false end.

(** [fieldIsHidden(field, document)]. *)
Definition fieldIsHidden (field : FieldDefinition) (document : DocumentSnapshot) : bool :=
  fd_hidden field ||
  match fd_hiddenDependsOn field with
  | Some condition => evaluatePredicate host condition
      {| pc_before := None; pc_after := Some document; pc_input := []; pc_event := VUndef; pc_actor := VUndef |}
  | None => false
  end.

(** What the caller is shown, for the conditions that hide fields. *)
Definition shown_document (doctype : DocTypeDefinition) (document : DocumentSnapshot) : DocumentSnapshot :=
  let fields := filter (λ field, canFieldAppearInMetadata actor FARead field = true) (dt_fields doctype) in
  let readable_fields := jm_of_list ((λ field, (fd_name field, readable document field)) <$> fields) in
  {| ds_tenantId := ds_tenantId document; ds_doctype := ds_doctype document; ds_name := ds_name document;
     ds_version := ds_version document; ds_docstatus := ds_docstatus document;
     ds_data := filter (λ kv,
       (if has_field doctype kv.1 then bool_decide (jm_get kv.1 readable_fields = Some true)
        else dt_allowUnknownFields doctype) = true) (ds_data document);
     ds_createdAt := ds_createdAt document; ds_updatedAt := ds_updatedAt document |}.

(** The state of one field. *)
Definition field_state (doctype : DocTypeDefinition) (document : DocumentSnapshot) (canUpdateDocument : bool)
    (conditionalReadOnly : bool) (field : FieldDefinition) : DocumentFieldState :=
  let read := readable document field in
  {| dfs_read := read;
     dfs_write := canUpdateDocument && documentStatusAllowsFieldUpdate document field &&
       negb (bool_decide (fd_name field ∈ nwd_stateField <$> default [] (dt_workflows doctype))) &&
       negb (fd_readOnly field || (conditionalReadOnly && fieldIsReadOnlyForData host doctype field (ds_data document))) &&
       canWriteField {| fpc_actor := actor; fpc_action := FAUpdate; fpc_field := field; fpc_document := Some document;
                        fpc_value := given (vget (fd_name field) (ds_data document)) |};
     dfs_redacted := negb read;
     dfs_hidden := fieldIsHidden field (shown_document doctype document) |}.

(** [computeDocumentFieldStates(options, rules)] and [documentFieldStates(options)]. *)
Definition computeDocumentFieldStates (doctype : DocTypeDefinition) (document : DocumentSnapshot)
    (canUpdateDocument conditionalReadOnly : bool) : list (jstr * DocumentFieldState) :=
  jm_of_list ((λ field, (fd_name field, field_state doctype document canUpdateDocument conditionalReadOnly field)) <$>
    filter (λ field, canFieldAppearInMetadata actor FARead field = true) (dt_fields doctype)).
Definition documentFieldStates (doctype : DocTypeDefinition) (document : DocumentSnapshot) (canUpdateDocument : bool)
    : list (jstr * DocumentFieldState) :=
  computeDocumentFieldStates doctype document canUpdateDocument true.

(** [projectDocTypeForFieldQueries(input)]: the fields. *)
Definition projectDocTypeForFieldQueries (doctype : DocTypeDefinition) : DocTypeDefinition :=
  with_fields doctype (filter (λ field, canFieldBeQueried actor field = true) (dt_fields doctype)).

(** ** Merge plans *)

(** [projectMergeConflictForFieldAccess(input)]. *)
Definition projectMergeConflictForFieldAccess (doctype : DocTypeDefinition) (document : DocumentSnapshot)
    (c : DocumentFieldMergeConflict) : DocumentFieldMergeConflict :=
  match fields_get doctype (mc_field c) with
  | None => c
  | Some field =>
      {| mc_field := mc_field c; mc_reason := mc_reason c; mc_basePresent := mc_basePresent c;
         mc_localPresent := mc_localPresent c; mc_remotePresent := mc_remotePresent c;
         mc_baseValue := redactFieldValue (mc_baseValue c) field document;
         mc_localValue := redactFieldValue (mc_localValue c) field document;
         mc_remoteValue := redactFieldValue (mc_remoteValue c) field document |}
  end.

(** Whether the name of a field may be shown in a plan. *)
Definition merge_field_visible (doctype : DocTypeDefinition) (document : DocumentSnapshot) (field : jstr) : bool :=
  bool_decide (field = js "docstatus") ||
  bool_decide (field ∈ readableDocumentFieldNames doctype document) ||
  (dt_allowUnknownFields doctype && negb (has_field doctype field)).

(** [projectDocumentMergePlanForFieldAccess(options)]. *)
Definition projectDocumentMergePlanForFieldAccess (doctype : DocTypeDefinition) (document : DocumentSnapshot)
    (plan : DocumentFieldMergePlan) : DocumentFieldMergePlan :=
  let visible := filter (λ field, merge_field_visible doctype document field = true) in
  let patchData := compactData (mp_patch plan) in
  let patchDocument :=
    {| ds_tenantId := ds_tenantId document; ds_doctype := ds_doctype document; ds_name := ds_name document;
       ds_version := ds_version document; ds_docstatus := ds_docstatus document;
       ds_data := compactData (jm_spread (ds_data document) patchData);
       ds_createdAt := ds_createdAt document; ds_updatedAt := ds_updatedAt document |} in
  {| mp_status := mp_status plan; mp_baseVersion := mp_baseVersion plan; mp_remoteVersion := mp_remoteVersion plan;
     mp_localChangedFields := visible (mp_localChangedFields plan);
     mp_remoteChangedFields := visible (mp_remoteChangedFields plan);
     mp_mergedFields := visible (mp_mergedFields plan);
     mp_patch := redactDocumentData doctype patchData patchDocument;
     mp_unset := visible (mp_unset plan);
     mp_conflicts := projectMergeConflictForFieldAccess doctype patchDocument <$>
       filter (λ c, merge_field_visible doctype document (mc_field c) = true) (mp_conflicts plan) |}.
End fields.

(** ** Redaction *)

Section redaction.
Context (relatedDocType : jstr → option DocTypeDefinition) (actor : Actor).

Abbreviation redacted_value := (redactFieldValue relatedDocType actor).

Lemma redact_fold_get document d shown fields acc k :
  NoDup (fd_name <$> fields) → jm_wf acc →
  jm_get k (foldl (redact_field actor document d shown) acc fields) =
  match List.find (λ field, bool_decide (fd_name field = k)) fields with
  | Some field =>
      if is_undefined (vget k d) then jm_get k acc
      else if canReadField actor field (Some document) (Some (vget k d)) then Some (shown field) else None
  | None => jm_get k acc
  end.
Proof using Type.
  revert acc. induction fields as [|f fields IH]; intros acc Hnd Hwf; [done|]. apply NoDup_cons in Hnd as [Hf Hnd].
  cbn [foldl List.find]. rewrite IH; [|done|].
  - case_bool_decide as E; [subst k|].
    + assert (List.find (λ field, bool_decide (fd_name field = fd_name f)) fields = None) as ->.
      { destruct (List.find _ fields) as [x|] eqn:Ex; [|done]. exfalso. apply List.find_some in Ex as [Hx E].
        apply bool_decide_eq_true in E. apply Hf. rewrite <-E. by apply list_elem_of_fmap_2, list_elem_of_In. }
      unfold redact_field. destruct (vget (fd_name f) d) eqn:Ev; cbn [is_undefined]; [done|..];
        (destruct (canReadField _ _ _ _); [by rewrite jm_get_set_eq|by rewrite jm_get_delete_eq]).
    + assert (jm_get k (redact_field actor document d shown acc f) = jm_get k acc) as ->; [|done].
      unfold redact_field. destruct (vget (fd_name f) d); [done|..];
        (destruct (canReadField _ _ _ _); [by rewrite jm_get_set_ne|by rewrite jm_get_delete_ne]).
  - unfold redact_field. destruct (vget (fd_name f) d); [done|..];
      (destruct (canReadField _ _ _ _); [by apply jm_wf_set|by apply jm_wf_delete]).
Qed.

Lemma redacted_defined v field parent : is_undefined (redacted_value v field parent) = is_undefined v.
Proof using Type. destruct v; cbn; try done. by destruct (rows_doctype _ _). Qed.

(** The rows of a table, one by one. *)
Definition redact_row (child : DocTypeDefinition) (field : FieldDefinition) (parent : DocumentSnapshot) (index : nat)
    (row : value) : value :=
  match row with
  | VObj m => VObj (redactDocumentData relatedDocType actor child m (childRowSnapshot (Some parent) child field index m))
  | _ => row
  end.

Lemma redact_fold_ext document d shown shown' fields acc :
  (∀ field, shown field = shown' field) →
  foldl (redact_field actor document d shown) acc fields = foldl (redact_field actor document d shown') acc fields.
Proof using Type.
  intros E. revert acc. induction fields as [|f fields IH]; intros acc; [done|]. cbn [foldl]. rewrite IH. f_equal.
  unfold redact_field. by rewrite E.
Qed.

Lemma redact_rows rows field child parent :
  rows_doctype relatedDocType field = Some child →
  redacted_value (VArr rows) field parent = VArr (imap (redact_row child field parent) rows).
Proof using Type.
  intros Hc. cbn [redactFieldValue]. rewrite Hc. f_equal.
  change (imap (redact_row child field parent) rows) with (imap (λ i, redact_row child field parent (0 + i)) rows).
  generalize 0 as index. induction rows as [|row rows IH]; intros index; [done|]. rewrite imap_cons. f_equal.
  - rewrite Nat.add_0_r. destruct row as [| | | | | |m]; try done. cbn [redact_row]. f_equal.
    unfold redactDocumentData, redact_with. f_equal. apply redact_fold_ext. intros childField.
    generalize (childRowSnapshot (Some parent) child field index m) as rowSnapshot. intros rowSnapshot. clear IH.
    unfold vget. induction m as [|[k w] m IHm]; [done|]. cbn [jm_get].
    rewrite (decide_ext (fd_name childField = k) (k = fd_name childField)) by (split; congruence).
    by destruct (decide (k = fd_name childField)).
  - rewrite (IH (S index)). apply imap_ext. intros i x _. cbn. f_equal. lia.
Qed.

Lemma redact_get doctype d document k :
  distinct_fields doctype → jm_wf d →
  vget k (redactDocumentData relatedDocType actor doctype d document) =
  match find_field doctype k with
  | Some field =>
      if canReadField actor field (Some document) (given (vget k d))
      then redacted_value (vget k d) field document else VUndef
  | None => if dt_allowUnknownFields doctype then vget k d else VUndef
  end.
Proof using Type.
  intros Hd Hwf. unfold redactDocumentData, redact_with.
  assert (Hwf' : ∀ shown fields acc, jm_wf acc → jm_wf (foldl (redact_field actor document d shown) acc fields)).
  { intros shown. induction fields as [|f fields IH]; intros acc Hacc; [done|]. cbn [foldl]. apply IH.
    unfold redact_field. destruct (vget (fd_name f) d); [done|..];
      (destruct (canReadField _ _ _ _); [by apply jm_wf_set|by apply jm_wf_delete]). }
  assert (jm_wf (if dt_allowUnknownFields doctype then d else [])) as Hinit
    by (destruct (dt_allowUnknownFields doctype); [done|apply jm_wf_nil]).
  rewrite jm_get_compact by (by apply Hwf'). unfold vget at 1. rewrite redact_fold_get by done.
  change (List.find _ (dt_fields doctype)) with (find_field doctype k).
  destruct (find_field doctype k) as [field|] eqn:Ef; [|by destruct (dt_allowUnknownFields doctype)].
  assert (fd_name field = k) as Hk by (apply List.find_some in Ef as [_ Ef]; by apply bool_decide_eq_true in Ef).
  unfold given. destruct (is_undefined (vget k d)) eqn:Eu.
  - assert (vget k d = VUndef) as Ev by (by destruct (vget k d)). rewrite Ev. cbn.
    assert (default VUndef (jm_get k (if dt_allowUnknownFields doctype then d else [])) = VUndef) as ->.
    { destruct (dt_allowUnknownFields doctype); [exact Ev|done]. }
    by destruct (canReadField _ _ _ _).
  - destruct (canReadField _ _ _ _); [|done]. cbn. by rewrite Hk.
Qed.
End redaction.

(** C31: What an actor is shown of a document: of every field the value if the actor may
    read it and nothing otherwise, of a table the rows with each redacted by the rules
    of its own doctype, and other properties only if the doctype allows them. *)
Theorem redaction_exact relatedDocType actor doctype document :
  distinct_fields doctype → jm_wf (ds_data document) →
  let shown := ds_data (redactDocumentSnapshot relatedDocType actor doctype document) in
  (∀ field, field ∈ dt_fields doctype →
     vget (fd_name field) shown =
     if readable actor document field
     then redactFieldValue relatedDocType actor (vget (fd_name field) (ds_data document)) field document else VUndef) ∧
  (∀ field child rows, rows_doctype relatedDocType field = Some child →
     redactFieldValue relatedDocType actor (VArr rows) field document =
     VArr (imap (redact_row relatedDocType actor child field document) rows)) ∧
  (∀ k, find_field doctype k = None →
     vget k shown = if dt_allowUnknownFields doctype then vget k (ds_data document) else VUndef).
Proof.
  intros Hd Hwf shown. subst shown. cbn [redactDocumentSnapshot ds_data]. split_and!.
  - intros field Hin. rewrite redact_get by done. by rewrite find_field_elem.
  - intros field child rows. by apply redact_rows.
  - intros k Hk. rewrite redact_get by done. by rewrite Hk.
Qed.

(** The states that are announced for fields are those that are enforced: a field is
    announced as readable exactly if its value is in the document that is shown, and a
    field announced as writable passes, whatever value is written, the checks on the
    status of the document, on fields after submission, on workflow states and on
    read-only fields as the document stands. *)
Theorem field_states_enforced host relatedDocType actor doctype document canUpdate field state v :
  distinct_fields doctype → jm_wf (ds_data document) → field ∈ dt_fields doctype →
  jm_get (fd_name field) (documentFieldStates host actor doctype document canUpdate) = Some state →
  is_undefined (vget (fd_name field) (ds_data document)) = false →
  dfs_read state = negb (is_undefined (vget (fd_name field)
    (ds_data (redactDocumentSnapshot relatedDocType actor doctype document)))) ∧
  (dfs_write state = true →
   (ds_docstatus document = Draft ∨
    ds_docstatus document = Submitted ∧ allowOnSubmitIssues doctype [(fd_name field, v)] [] = []) ∧
   workflowStateMutationIssues doctype [(fd_name field, v)] [] [] = [] ∧
   patch_readonly_issues host doctype [(fd_name field, v)]
     (documentSnapshotForFieldCondition doctype (ds_data document)) = []).
Proof.
  intros Hd Hwf Hin Hst Hdef.
  assert (state = field_state host actor doctype document canUpdate true field) as ->.
  { unfold documentFieldStates, computeDocumentFieldStates, jm_of_list in Hst. rewrite jm_get_spread in Hst.
    - destruct (jm_get (fd_name field) _) as [st|] eqn:E; [|done]. injection Hst as <-. apply jm_get_elem_1 in E.
      apply list_elem_of_fmap in E as (f & [= Hn ->] & [_ Hf]%list_elem_of_filter).
      assert (f = field) as ->; [|done]. pose proof (find_field_elem doctype f Hd Hf) as H1.
      pose proof (find_field_elem doctype field Hd Hin) as H2. rewrite <-Hn in H1. congruence.
    - unfold jm_wf, jm_keys. rewrite <-list_fmap_compose. unfold distinct_fields in Hd. revert Hd.
      generalize (dt_fields doctype) as l. clear. induction l as [|x l IH]; [done|].
      intros [Hx Hn]%NoDup_cons. rewrite filter_cons. case_decide; [|by apply IH]. apply NoDup_cons. split; [|by apply IH].
      intros (y & Hy & Hin)%list_elem_of_fmap. apply list_elem_of_filter in Hin as [_ Hin]. apply Hx. cbn in Hy. rewrite Hy.
      by apply list_elem_of_fmap_2. }
  split.
  - rewrite (proj1 (redaction_exact relatedDocType actor doctype document Hd Hwf) field Hin).
    cbn [dfs_read field_state]. destruct (readable actor document field); [|done].
    by rewrite redacted_defined, Hdef.
  - cbn [dfs_write field_state]. rewrite !andb_true_iff, !negb_true_iff. intros ((((_ & Hs) & Hw) & Hr) & _).
    apply bool_decide_eq_false in Hw. apply orb_false_iff in Hr as [Hro Hcond]. split_and!.
    + unfold documentStatusAllowsFieldUpdate in Hs. destruct (ds_docstatus document); try done; [by left|right].
      split; [done|]. unfold allowOnSubmitIssues.
      change (js_unique (jm_keys [(fd_name field, v)] ++ [])) with [fd_name field]. cbn [flat_map].
      rewrite fields_get_elem by done. by rewrite Hs.
    + unfold workflowStateMutationIssues. rewrite flat_map_nil. intros w Hin'. cbv zeta.
      assert (jm_has (nwd_stateField w) [(fd_name field, v)] = false) as ->; [|by rewrite bool_decide_false by apply not_elem_of_nil].
      unfold jm_has. cbn. rewrite decide_False; [done|]. intros E. apply Hw. rewrite <-E. by apply list_elem_of_fmap_2.
    + unfold patch_readonly_issues. change (jm_keys [(fd_name field, v)]) with [fd_name field]. cbn [flat_map].
      rewrite fields_get_elem by done. unfold fieldIsReadOnlyForData in Hcond.
      cbn [andb] in Hcond. by rewrite Hcond.
Qed.

(** ** Witnesses *)

(** A salary that only managers read. *)
Definition sample_salary : FieldDefinition :=
  {| fd_name := js "salary"; fd_type := FInteger; fd_required := false; fd_mandatoryDependsOn := None; fd_readOnly := false;
     fd_readOnlyDependsOn := None; fd_hidden := false; fd_hiddenDependsOn := None; fd_unique := false; fd_noCopy := false;
     fd_allowOnSubmit := false; fd_fetchFrom := None; fd_fetchIfEmpty := false; fd_options := None; fd_linkTo := None;
     fd_tableOf := None; fd_min := None; fd_max := None; fd_defaultValue := None;
     fd_permissions := Some [{| fpr_roles := [js "Manager"]; fpr_actions := [FARead; FAUpdate]; fpr_when := None |}] |}.

Definition sample_title : FieldDefinition := plain_field (js "title") FText false false false None.

Definition sample_employee : DocTypeDefinition := plain_doctype (js "Employee") [sample_title; sample_salary].

Definition sample_employee_document : DocumentSnapshot :=
  {| ds_tenantId := js "acme"; ds_doctype := js "Employee"; ds_name := js "E-1"; ds_version := 1; ds_docstatus := Draft;
     ds_data := [(js "title", vstr "Clerk"); (js "salary", vint 9)]; ds_createdAt := []; ds_updatedAt := [] |}.

Definition sample_clerk : Actor :=
  {| actor_id := js "bob"; actor_roles := [js "Clerk"]; actor_tenantId := None; actor_email := None |}.

Lemma sample_employee_distinct : distinct_fields sample_employee.
Proof. by apply (bool_decide_unpack _). Qed.

Lemma sample_employee_wf : jm_wf (ds_data sample_employee_document).
Proof. by apply (bool_decide_unpack _). Qed.

Definition sample_access_host : predicate_host := {| ph_text := λ _, []; ph_canonicalize := λ c, c |}.

Lemma redaction_exact_witness :
  vget (js "salary") (ds_data (redactDocumentSnapshot (λ _, None) sample_clerk sample_employee sample_employee_document)) = VUndef.
Proof.
  assert (Hin : sample_salary ∈ dt_fields sample_employee) by (right; by left).
  etrans; [exact (proj1 (redaction_exact (λ _, None) sample_clerk sample_employee sample_employee_document
    sample_employee_distinct sample_employee_wf) sample_salary Hin)|]. by vm_compute.
Defined.

Definition sample_title_state : DocumentFieldState :=
  {| dfs_read := true; dfs_write := true; dfs_redacted := false; dfs_hidden := false |}.

Lemma field_states_enforced_witness :
  workflowStateMutationIssues sample_employee [(js "title", vstr "Chief")] [] [] = [].
Proof.
  assert (Hin : sample_title ∈ dt_fields sample_employee) by by left.
  refine (proj1 (proj2 (proj2 (field_states_enforced sample_access_host (λ _, None) sample_clerk sample_employee
    sample_employee_document true sample_title sample_title_state (vstr "Chief")
    sample_employee_distinct sample_employee_wf Hin _ _) _))); by vm_compute.
Defined.
