(* ===== verification/DocumentUpdate.v ===== *)
(** * DocumentUpdate: what an accepted change leaves of a document

    Models the decision of [applyDocumentUpdate] in [application/document-service.ts],
    between the reads that precede it and the writes that follow: the patch that is
    stored, the data that result and the nine groups of issues that refuse the change.
    What the hooks and the links found are arguments, and so is the patch with the
    fields that were fetched.  The first part are the hooks that an application hangs on
    the commands of a doctype ([core/document-hooks.ts]). *)

From S2P Require Export Normalize Schema Fold CommandPolicy Access.

(** ** The functions an application hangs on the commands of a doctype

    Models [core/document-hooks.ts].  A hook is a function of the application: what it
    returns, or throws, is part of the model's input. *)

Record HookContext := { hcx_doctype : DocTypeDefinition; hcx_data : data; hcx_existing : option DocumentSnapshot }.

Record AfterCommitContext := { acc_hook : HookContext; acc_event : DomainEvent; acc_snapshot : option DocumentSnapshot }.

Record DocumentHooks := {
  dh_beforeValidate : option (HookContext → res (option data));
  dh_validate : option (HookContext → res (option (list ValidationIssue)));
  dh_afterCommit : option (AfterCommitContext → res unit)
}.

(** [documentHookContext(input)]. *)
Definition documentHookContext (doctype : DocTypeDefinition) (d : data) (existing : option DocumentSnapshot) : HookContext :=
  {| hcx_doctype := doctype; hcx_data := compactData d; hcx_existing := existing |}.

(** [mergeDocumentHookPatch(current, patch)]. *)
Definition mergeDocumentHookPatch (current : data) (patch : option data) : data :=
  match patch with Some patch => jm_spread current patch | None => current end.

(** [documentValidationHookData(input)]. *)
Definition documentValidationHookData (d : data) (existing : option DocumentSnapshot) (override : option data) : data :=
  match override with
  | Some override => override
  | None => match existing with
      | Some existing => jm_spread (ds_data existing) (compactData d)
      | None => compactData d
      end
  end.

(** [runDocumentBeforeValidateHooks(options)]. *)
Definition runDocumentBeforeValidateHooks (hooks : list DocumentHooks) (doctype : DocTypeDefinition) (d : data)
    (existing : option DocumentSnapshot) : res data :=
  current ← foldl_res (λ current hook,
    patch ← match dh_beforeValidate hook with
      | Some beforeValidate => beforeValidate (documentHookContext doctype current existing)
      | None => Ok None
      end;
    Ok (mergeDocumentHookPatch current patch)) d hooks;
  Ok (compactData current).

(** [runDocumentValidationHooks(options)]. *)
Definition runDocumentValidationHooks (hooks : list DocumentHooks) (doctype : DocTypeDefinition) (d : data)
    (existing : option DocumentSnapshot) (override : option data) : res (list ValidationIssue) :=
  let hookData := documentValidationHookData d existing override in
  foldl_res (λ issues hook,
    hookIssues ← match dh_validate hook with
      | Some validate => validate (documentHookContext doctype hookData existing)
      | None => Ok None
      end;
    Ok (issues ++ default [] hookIssues)) [] hooks.

(** [documentValidationIssues(input)]. *)
Definition documentValidationIssues (schemaIssues hookIssues : list ValidationIssue) : list ValidationIssue :=
  schemaIssues ++ hookIssues.

(** [documentAfterCommitContext(input)]. *)
Definition documentAfterCommitContext (doctype : DocTypeDefinition) (event : DomainEvent)
    (snapshot : option DocumentSnapshot) : AfterCommitContext :=
  {| acc_hook := {| hcx_doctype := doctype; hcx_data := match snapshot with Some s => ds_data s | None => [] end;
                    hcx_existing := None |};
     acc_event := event; acc_snapshot := snapshot |}.

(** [runDocumentAfterCommitHooks(options)]: the errors that hooks throw go to
    [onHookError], whose own errors end the call. *)
Definition runDocumentAfterCommitHooks (hooks : list DocumentHooks) (afterCommit : option (AfterCommitContext → res unit))
    (onHookError : option (error → DomainEvent → res unit)) (doctype : DocTypeDefinition) (event : DomainEvent)
    (snapshot : option DocumentSnapshot) : res unit :=
  let context := documentAfterCommitContext doctype event snapshot in
  let run (hook : option (AfterCommitContext → res unit)) : res unit :=
    match hook with
    | None => Ok tt
    | Some hook => match hook context with
        | Ok _ => Ok tt
        | Throw e => match onHookError with Some report => report e event | None => Ok tt end
        end
    end in
  foldl_res (λ _ hook, run hook) tt ((dh_afterCommit <$> hooks) ++ [afterCommit]).

(** Hooks keep the properties of an object distinct. *)
Lemma before_validate_wf hooks doctype d existing r :
  jm_wf d → runDocumentBeforeValidateHooks hooks doctype d existing = Ok r → jm_wf r.
Proof.
  intros Hd E. unfold runDocumentBeforeValidateHooks in E. step_ok E as current Hc. injection E as <-.
  apply jm_wf_filter. revert Hc. apply (foldl_res_inv jm_wf); [done|].
  intros c hook c' _ Hwf E. step_ok E as patch Hp. injection E as <-. unfold mergeDocumentHookPatch.
  destruct patch; [by apply jm_wf_spread|done].
Qed.

Section update.
Context (host : predicate_host) (relatedDocType : jstr → option DocTypeDefinition) (actor : Actor).
Context (doctype : DocTypeDefinition) (existing : DocumentSnapshot).

(** The patch that is stored, and the data after it. *)
Definition update_data (fetched : data) (unset : list jstr) : res (data * data) :=
  let normalizedPatch := preserveReadOnlyTableValues relatedDocType doctype fetched existing in
  next ← applyDocumentDataChange (ds_data existing) normalizedPatch unset;
  Ok (normalizedPatch, next).

(** [{ ...existing, data, version: existing.version + 1 }]. *)
Definition changed_draft (next : data) : DocumentSnapshot :=
  {| ds_tenantId := ds_tenantId existing; ds_doctype := ds_doctype existing; ds_name := ds_name existing;
     ds_version := ds_version existing + 1; ds_docstatus := ds_docstatus existing; ds_data := next;
     ds_createdAt := ds_createdAt existing; ds_updatedAt := ds_updatedAt existing |}.

(** The issues of the schema: [validate] calls it without the existing document. *)
Definition patch_schema_issues (patch : data) : list ValidationIssue :=
  validateDocumentData host doctype patch (patch_options relatedDocType).

(** The groups of an update or a merge; [patch] is what the hooks made of the
    command's. *)
Definition update_groups (patch fetched normalizedPatch next : data) (unset : list jstr)
    (hookIssues linkIssues : list ValidationIssue) : DocumentUpdateValidationIssueGroups :=
  let patchWithoutInternalFields := stripInternalTableFields relatedDocType doctype patch in
  let fetchedPatchWithoutInternalFields := stripInternalTableFields relatedDocType doctype fetched in
  {| ug_submittedUpdateIssues := if bool_decide (ds_docstatus existing = Submitted)
       then allowOnSubmitIssues doctype fetchedPatchWithoutInternalFields unset else [];
     ug_unsetIssues := documentUnsetIssues doctype unset (ds_data existing) fetchedPatchWithoutInternalFields;
     ug_originIssues := childTableOriginIssues relatedDocType doctype fetched (ds_data existing);
     ug_workflowStateIssues := workflowStateMutationIssues doctype fetchedPatchWithoutInternalFields unset [];
     ug_generatedNamingIssues := generatedNamingFieldMutationIssues doctype (jm_keys normalizedPatch ++ unset);
     ug_readOnlyIssues := readonlyIssues host relatedDocType doctype patchWithoutInternalFields next unset;
     ug_fieldPermissionIssues := fieldPermissionIssues relatedDocType actor FAUpdate doctype patchWithoutInternalFields
       (Some (changed_draft next)) unset;
     ug_validationIssues := documentValidationIssues (patch_schema_issues normalizedPatch) hookIssues;
     ug_linkIssues := linkIssues |}.

(** The decision on a change. *)
Definition accept_update (patch fetched : data) (unset : list jstr) (hookIssues linkIssues : list ValidationIssue)
    : res (data * data) :=
  changed ← update_data fetched unset;
  let '(normalizedPatch, next) := changed in
  _ ← ensure (bool_decide (documentUpdateValidationIssues
        (update_groups patch fetched normalizedPatch next unset hookIssues linkIssues) = [])) validationFailed;
  Ok (normalizedPatch, next).
End update.

(** ** Patches whose table values are normalized *)

Lemma normalized_has related doctype d existingData k :
  jm_has k (normalizeTableFields related doctype d existingData) = jm_has k d.
Proof.
  unfold normalizeTableFields, jm_has. induction d as [|[k' v] d IH]; [done|]. cbn.
  by destruct (decide (k = k')).
Qed.

Lemma normalized_keys related doctype d existingData : jm_keys (normalizeTableFields related doctype d existingData) = jm_keys d.
Proof. unfold normalizeTableFields, jm_keys. by rewrite <-list_fmap_compose. Qed.

Lemma preserve_row_vwf child r m : vwf (VObj r) → vwf (VObj m) → vwf (VObj (preserve_row child r m)).
Proof.
  intros Hr. unfold preserve_row. generalize (filter (λ f, fd_readOnly f = true) (dt_fields child)) as l.
  intros l. revert m. induction l as [|f l IH]; intros m Hm; [done|]. cbn [foldl]. apply IH.
  destruct (_ && _) eqn:E; [|done]. apply andb_true_iff in E as [_ E]. unfold jm_has in E.
  destruct (jm_get (fd_name f) r) as [w|] eqn:Ew; [|done]. rewrite vwf_obj in Hm |- *. destruct Hm as [Hm1 Hm2].
  split; [by apply jm_wf_set|]. apply Forall_forall. intros kv [->|Hkv]%jm_set_elem.
  - cbn. unfold vget. rewrite Ew. apply jm_get_elem_1 in Ew. rewrite vwf_obj, Forall_forall in Hr. by apply (proj2 Hr) in Ew.
  - rewrite Forall_forall in Hm2. by apply Hm2.
Qed.

Lemma normalized_vwf related v : vwf v →
  (∀ field old, vwf old → vwf (normalize_value related v field old)) ∧
  (∀ m, v = VObj m → ∀ doctype m' existingData, jm_wf m' → (∀ kv, kv ∈ m' → kv ∈ m) →
    match existingData with Some r => vwf (VObj r) | None => True end →
    vwf (VObj (normalizeTableFields related doctype m' existingData))).
Proof.
  assert (Hflat : ∀ v field old, vwf v → (∀ rows, v ≠ VArr rows) → vwf (normalize_value related v field old)).
  { intros w field old Hw Hne. destruct w as [| | | | |rows|]; try done. by destruct (Hne rows). }
  induction v as [| | | | |items IH|m IH] using value_ind'; intros Hwf;
    [split; [intros field old _; by apply Hflat|intros m [=]]..| |].
  - split; [|intros m [=]]. intros field old Hold. rewrite vwf_arr, Forall_forall in Hwf. rewrite Forall_forall in IH.
    destruct (table_target field) as [target|] eqn:Et; [|cbn [normalize_value]; rewrite Et; by rewrite vwf_arr, Forall_forall].
    destruct (related target) as [child|] eqn:Ec.
    + rewrite (normalize_value_rows related field target child) by done. rewrite vwf_arr, Forall_forall.
      intros x (row & -> & Hrow)%list_elem_of_fmap. specialize (IH row Hrow (Hwf row Hrow)). specialize (Hwf row Hrow).
      destruct row as [| | | | | |m]; try done. cbn [normalize_row]. apply vwf_obj in Hwf as [Hm _].
      destruct IH as [_ IH]. specialize (IH m eq_refl child (strip_index m)).
      assert (jm_wf (strip_index m)) as Hs by (by apply jm_wf_filter).
      assert (∀ kv, kv ∈ strip_index m → kv ∈ m) as Hsub by (by intros kv [_ ?]%list_elem_of_filter).
      set (existingRow := match childRowOriginIndex _ with Some _ => _ | None => _ end).
      assert (match existingRow with Some r => vwf (VObj r) | None => True end) as Her.
      { subst existingRow. destruct (childRowOriginIndex _); [|done]. destruct old as [| | | | |rows|]; try done.
        destruct (rows !! n) as [[| | | | | |r]|] eqn:Er; try done. rewrite vwf_arr, Forall_forall in Hold.
        apply Hold. by apply list_elem_of_lookup_2 in Er. }
      destruct existingRow as [r|]; [apply preserve_row_vwf; [done|]|]; by apply IH.
    + cbn [normalize_value]. rewrite Et, Ec, vwf_arr, Forall_forall. intros x (row & -> & Hrow)%list_elem_of_fmap.
      specialize (Hwf row Hrow). destruct row as [| | | | | |m]; try (apply vwf_obj; split; [apply jm_wf_nil|apply Forall_nil_2]).
      cbn [stripChildRowInternalFields]. apply vwf_obj in Hwf as [Hm Hv]. apply vwf_obj. split; [by apply jm_wf_filter|].
      rewrite Forall_forall in Hv |- *. intros kv [_ Hkv]%list_elem_of_filter. by apply Hv.
  - split; [intros field old _; by apply Hflat|]. intros m0 [= <-] doctype m' existingData Hm' Hsub Hed.
    apply vwf_obj in Hwf as [Hm Hv]. rewrite Forall_forall in IH, Hv. apply vwf_obj. split.
    + unfold jm_wf. by rewrite normalized_keys.
    + apply Forall_forall. intros kv (kv' & -> & Hkv)%list_elem_of_fmap. cbn [snd]. apply Hsub in Hkv.
      apply (IH kv' Hkv (Hv kv' Hkv)). destruct existingData as [r|]; [|exact I]. change (default [] (Some r)) with r. unfold vget.
      destruct (jm_get kv'.1 r) as [w|] eqn:Ew; [|exact I]. apply jm_get_elem_1 in Ew. rewrite vwf_obj, Forall_forall in Hed.
      by apply (proj2 Hed) in Ew.
Qed.

Lemma normalized_patch_vwf related doctype patch existing :
  vwf (VObj patch) → vwf (VObj (ds_data existing)) →
  vwf (VObj (preserveReadOnlyTableValues related doctype patch existing)).
Proof.
  intros Hp He. unfold preserveReadOnlyTableValues. pose proof (proj1 (proj1 (vwf_obj patch) Hp)) as Hwf.
  by apply (proj2 (normalized_vwf related (VObj patch) Hp) patch eq_refl).
Qed.

(** The checks that look only at the names of the changed fields. *)
Lemma unset_issues_has doctype unset d p q :
  (∀ k, jm_has k p = jm_has k q) → documentUnsetIssues doctype unset d p = documentUnsetIssues doctype unset d q.
Proof. intros E. unfold documentUnsetIssues. apply List.flat_map_ext. intros field. by rewrite E. Qed.

Lemma workflow_issues_has doctype p q unset :
  (∀ k, jm_has k p = jm_has k q) →
  workflowStateMutationIssues doctype p unset [] = workflowStateMutationIssues doctype q unset [].
Proof.
  intros E. unfold workflowStateMutationIssues. apply List.flat_map_ext. intros w. rewrite E.
  by rewrite !andb_false_r.
Qed.

Lemma submit_issues_keys doctype p q unset :
  jm_keys p = jm_keys q → allowOnSubmitIssues doctype p unset = allowOnSubmitIssues doctype q unset.
Proof. intros E. unfold allowOnSubmitIssues. by rewrite E. Qed.

(** A field that the actor changes is one the actor may write. *)
Lemma permission_issues_nil related actor action doctype d document unset field :
  distinct_fields doctype → field ∈ dt_fields doctype →
  fieldPermissionIssues related actor action doctype d document unset = [] →
  jm_has (fd_name field) d = true ∨ fd_name field ∈ unset →
  canWriteField {| fpc_actor := actor; fpc_action := action; fpc_field := field; fpc_document := document;
                   fpc_value := given (vget (fd_name field) d) |} = true.
Proof.
  intros Hd Hin Hiss Hch. unfold fieldPermissionIssues, own_permission_issues in Hiss. rewrite flat_map_nil in Hiss.
  specialize (Hiss (fd_name field)). rewrite fields_get_elem in Hiss by done.
  destruct (canWriteField _); [done|]. assert (fd_name field ∈ js_unique (jm_keys d ++ unset)) as Hk.
  { rewrite js_unique_elem, elem_of_app. destruct Hch as [Hch|]; [left; by apply jm_has_elem|by right]. }
  by specialize (Hiss Hk).
Qed.

(** The field that a series generates is left alone. *)
Lemma generated_issues_nil doctype touched field :
  generatedNamingFieldMutationIssues doctype touched = [] → generated_field doctype = Some field → field ∉ touched.
Proof. unfold generatedNamingFieldMutationIssues. intros H E. rewrite E in H. by case_bool_decide. Qed.

Lemma untouched d patch unset next k :
  vwf (VObj d) → vwf (VObj patch) → applyDocumentDataChange d patch unset = Ok next →
  jm_has k patch = false → k ∉ unset → vget k next = vget k d.
Proof.
  intros Hd Hp Hnext Hk Hu. unfold vget.
  rewrite (change_get d patch unset next k (proj1 (proj1 (vwf_obj d) Hd)) (proj1 (proj1 (vwf_obj patch) Hp)) Hnext).
  rewrite decide_False by done. unfold jm_has in Hk. by destruct (jm_get k patch).
Qed.


(** ** Witness *)

(** A note whose title may change until it is submitted. *)
Definition sample_note_doctype : DocTypeDefinition := with_fields sample_employee [sample_title].

Definition sample_note_existing : DocumentSnapshot :=
  {| ds_tenantId := js "acme"; ds_doctype := js "Employee"; ds_name := js "E-1"; ds_version := 1; ds_docstatus := Draft;
     ds_data := [(js "title", vstr "Clerk")]; ds_createdAt := []; ds_updatedAt := [] |}.

Lemma sample_title_wf s : vwf (VObj [(js "title", VStr s)]).
Proof. split; [apply NoDup_singleton|by split]. Qed.

Lemma sample_note_ok : data_ok sample_access_host (λ _, None) sample_note_doctype (ds_data sample_note_existing).
Proof.
  apply (proj2 (validate_value_ok sample_access_host (λ _, None) (VObj (ds_data sample_note_existing))
    (sample_title_wf _)) (ds_data sample_note_existing) eq_refl sample_note_doctype).
  by vm_compute.
Qed.

