(* ===== verification/DocumentWrites.v ===== *)
(** * DocumentWrites: the writes of the commands on a document

    Models the private methods of [application/document-service.ts] that plan and make
    the writes of a command on the in-memory document store: the reservations and
    releases of unique values, the advance of a naming series, the automation runs, and
    the commit that writes them in one batch with the event of the document.  Other
    clients of the store may act at every [await] ([Interference]). *)

From S2P Require Export NamingService CommandPolicy AutomationPlanner.

(** ** Plans *)

(** [AtomicNamingSeriesWrite] with the name and the attempts of [DocumentNameResolution]. *)
Record NamedSeriesWrite := { nsw_write : AtomicNamingSeriesWrite; nsw_name : jstr; nsw_candidateAttempts : Z }.

Record DocumentNameResolution := { dnr_name : jstr; dnr_data : data; dnr_write : option NamedSeriesWrite }.

Inductive NamingConflict := ConflictCounter | ConflictDocument.

Section writes.
Context (host : predicate_host) `{NamingHost} (ids : nat → jstr) (planner : AutomationRunPlanner).
(** The event of a command as the plain object that a predicate path reads. *)
Context (event_object : NewDomainEvent → value).
Context (env : nat → DocumentStore → DocumentStore).

Abbreviation Call := (M (Client DocumentStore)).

(** [foldDocument(await this.store.readStream(stream))]. *)
Definition read_document (stream : jstr) : Call (option DocumentSnapshot) :=
  observe env (λ s, events ← readStream (st_streams s) stream no_options; foldDocument events).

(** ** Unique values *)

(** [uniqueReservationOwnerStillOwnsValue(reservation, documentName)]. *)
Definition owner_still_owns (reservation : UniqueValueReservation) (documentName : jstr) : Call bool :=
  stream ← m_lift (documentStream (uvr_tenantId reservation) (uvr_doctype reservation) documentName);
  owner ← read_document stream;
  m_lift (uniqueReservationOwnerStillOwnsValue nh_number reservation owner).

(** What the loop of [planUniqueValueReservationWrites] decides on one reservation. *)
Definition plan_reservation (reservation : UniqueValueReservation)
    : Call (option (UniqueValueReservation * option DocumentSnapshot)) :=
  existing ← read_document (uvr_stream reservation);
  ownerStillOwnsValue ← match planUniqueValueReservationOwnerLookup reservation existing with
    | LookupSkip => mret false
    | LookupOwner documentName => owner_still_owns reservation documentName
    end;
  match planUniqueValueReservationWriteDecision reservation existing ownerStillOwnsValue with
  | ReserveSkip => mret None
  | ReserveConflict => m_throw conflict
  | Reserve reservation existing => mret (Some (reservation, existing))
  end.

(** The event of a planned reservation. *)
Definition reservation_write (actor : Actor) (occurredAt : jstr)
    (planned : UniqueValueReservation * option DocumentSnapshot) : Call AtomicUniqueReservationWrite :=
  let '(reservation, existing) := planned in
  id ← next_id ids;
  mret {| arw_reservation := reservation; arw_existing := existing;
          arw_event := uniqueValueEventCommand id reservation (actor_id actor) occurredAt
            (planUniqueValueReservationEvent reservation existing) |}.

(** [planUniqueValueReservationWrites(actor, reservations, occurredAt)]. *)
Definition planUniqueValueReservationWrites (actor : Actor) (reservations : list UniqueValueReservation) (occurredAt : jstr)
    : Call (list AtomicUniqueReservationWrite) :=
  planned ← m_map plan_reservation reservations;
  m_map (reservation_write actor occurredAt) (omap id planned).

(** What the loop of [planUniqueValueReleaseWrites] does with one reservation. *)
Definition plan_release (actor : Actor) (occurredAt : jstr) (reservation : UniqueValueReservation)
    : Call (option AtomicUniqueReleaseWrite) :=
  existing ← read_document (uvr_stream reservation);
  match planUniqueValueReleaseWriteDecision reservation existing with
  | ReleaseSkip => mret None
  | Release reservation existing =>
      id ← next_id ids;
      mret (Some {| alw_reservation := reservation; alw_existing := existing;
                    alw_event := uniqueValueEventCommand id reservation (actor_id actor) occurredAt
                      (planUniqueValueReleaseEvent reservation) |})
  end.

(** [planUniqueValueReleaseWrites(actor, reservations, occurredAt)]. *)
Definition planUniqueValueReleaseWrites (actor : Actor) (reservations : list UniqueValueReservation) (occurredAt : jstr)
    : Call (list AtomicUniqueReleaseWrite) :=
  planned ← m_map (plan_release actor occurredAt) reservations;
  mret (omap id planned).

(** ** Names *)

(** [planNamingSeriesWrite(doctype, strategy, data, context)]; no candidate is the
    [undefined] that the code asserts away. *)
Definition planNamingSeriesWrite (doctype : DocTypeDefinition) (strategy : NamingSeriesStrategy) (d : data)
    (actor : Actor) (tenantId now : jstr) (occupiedNamingCurrent : option Z) (maxCandidateAttempts : Z)
    : Call NamedSeriesWrite :=
  let context := {| nrc_tenantId := tenantId; nrc_now := now |} in
  identity ← m_lift (resolveNamingSeriesIdentity doctype strategy d context);
  stream ← m_lift (namingSeriesStream tenantId (dt_name doctype) (nsi_counter identity) (nsi_scope identity));
  existing ← read_document stream;
  let current := match stored_current existing, occupiedNamingCurrent with
    | None, occupied => occupied
    | Some stored, None => Some stored
    | Some stored, Some occupied => Some (Z.max stored occupied)
    end in
  scan ← m_lift (scanNamingCandidates doctype strategy d context current None (Some maxCandidateAttempts));
  match ncs_candidates scan with
  | [] => m_throw (FrameworkError PLAIN_ERROR 500)
  | candidate :: _ =>
      let eventPlan := planNamingSeriesEvent (dt_name doctype) (nss_pattern strategy) (Some (nsi_counter identity))
        (Some (nsi_scope identity)) (nc_value candidate) existing in
      id ← next_id ids;
      mret {| nsw_write := {| anw_stream := stream; anw_existing := existing; anw_next := nc_value candidate;
                              anw_event := namingSeriesEventCommand id tenantId stream (actor_id actor) now eventPlan |};
              nsw_name := nc_name candidate; nsw_candidateAttempts := ncs_attempts scan |}
  end.

(** [resolveName(doctype, data, context)]. *)
Definition resolveName (doctype : DocTypeDefinition) (d : data) (actor : Actor) (tenantId now : jstr)
    (occupiedNamingCurrent : option Z) (maxCandidateAttempts : Z) : Call DocumentNameResolution :=
  match dt_naming doctype with
  | Some (NamingSeries strategy) =>
      write ← planNamingSeriesWrite doctype strategy d actor tenantId now occupiedNamingCurrent maxCandidateAttempts;
      mret {| dnr_name := nsw_name write; dnr_data := namingTargetData strategy d (nsw_name write);
              dnr_write := Some write |}
  | _ =>
      name ← resolveDocumentName ids doctype d;
      mret {| dnr_name := name; dnr_data := d; dnr_write := None |}
  end.

(** [namingConflictDisposition(input)]. *)
Definition namingConflictDisposition (e : error) (doctype : DocTypeDefinition) (tenantId documentName : jstr)
    (write : option NamedSeriesWrite) : Call (option NamingConflict) :=
  match write with
  | None => mret None
  | Some write =>
      if negb (isDocumentConflictError e) then mret None else
      counterEvents ← read_stream env (anw_stream (nsw_write write));
      if negb (match last counterEvents with Some e => e_sequence e | None => 0 end =?
               version_of (anw_existing (nsw_write write)))%Z
      then mret (Some ConflictCounter)
      else
        stream ← m_lift (documentStream tenantId (dt_name doctype) documentName);
        document ← read_document stream;
        mret (match document with
              | Some s => if bool_decide (ds_docstatus s = Deleted) then None else Some ConflictDocument
              | None => None
              end)
  end.

(** ** Automations *)

(** [planAutomationRuns(options)]; the event has no sequence number yet. *)
Definition planAutomationRuns (doctype : DocTypeDefinition) (event : NewDomainEvent) (before : option DocumentSnapshot)
    (after : DocumentSnapshot) (touchedFields : list jstr) (input : data) (actor : Actor)
    : Call AutomationRunCommitPlan :=
  on_ids (planEnqueueFromDomainEvent host ids planner
    {| rmc_event := {| e_new := event; e_sequence := 0 |};
       rmc_change := documentChangeContext before (Some after) (Some touchedFields);
       rmc_input := input; rmc_eventObject := event_object event; rmc_actorObject := actor_object actor |}
    (dt_automationRules doctype) None).

(** ** Commits *)

(** The commit of a batch, with the identifier of the document's event. *)
Record Committed := { cmt_commit : DocumentCommit; cmt_eventId : jstr }.

(** [{ ...existing, version: existing.version + 1, docstatus?, data?, updatedAt: now }]. *)
Definition document_after (existing : DocumentSnapshot) (docstatus : DocStatus) (d : data) (now : jstr) : DocumentSnapshot :=
  {| ds_tenantId := ds_tenantId existing; ds_doctype := ds_doctype existing; ds_name := ds_name existing;
     ds_version := ds_version existing + 1; ds_docstatus := docstatus; ds_data := d;
     ds_createdAt := ds_createdAt existing; ds_updatedAt := now |}.

(** The write that updates, transitions and domain commands share: [next] are the data
    after the change, and [make_event] gives the event its identifier. *)
Definition write_change (doctype : DocTypeDefinition) (existing : DocumentSnapshot) (stream tenantId : jstr) (actor : Actor)
    (now : jstr) (next : data) (make_event : jstr → NewDomainEvent) (touchedFields : list jstr) (input : data)
    : Call Committed :=
  nextReservations ← m_lift (uniqueValueReservations nh_number tenantId doctype next (ds_name existing));
  existingReservations ← m_lift (uniqueValueReservations nh_number tenantId doctype (ds_data existing) (ds_name existing));
  let releasedReservations := releasedUniqueValueReservations existingReservations nextReservations in
  reservationWrites ← planUniqueValueReservationWrites actor nextReservations now;
  releaseWrites ← planUniqueValueReleaseWrites actor releasedReservations now;
  id ← next_id ids;
  let event := make_event id in
  automation ← planAutomationRuns doctype event (Some existing) (document_after existing (ds_docstatus existing) next now)
    touchedFields input actor;
  commit ← update env (commitBatch
    (documentAtomicCommitEntries None reservationWrites releaseWrites stream (ds_version existing) event
     ++ acp_entries automation)
    (λ savedEvents,
      saved ← requireSavedEvent savedEvents id;
      auxiliary ← documentAtomicAuxiliarySnapshots savedEvents None reservationWrites releaseWrites;
      runs ← auxiliarySnapshots automation savedEvents;
      Ok {| bp_snapshot := snapshotFromCommittedDocumentEvent existing saved (Some next) None;
            bp_auxiliarySnapshots := Some (auxiliary ++ runs) |}));
  mret {| cmt_commit := commit; cmt_eventId := id |}.

(** The write of [delete]. *)
Definition write_delete (doctype : DocTypeDefinition) (existing : DocumentSnapshot) (stream tenantId : jstr) (actor : Actor)
    (now : jstr) (make_event : jstr → NewDomainEvent) : Call Committed :=
  uniqueReservations ← m_lift (uniqueValueReservations nh_number tenantId doctype (ds_data existing) (ds_name existing));
  releaseWrites ← planUniqueValueReleaseWrites actor uniqueReservations now;
  id ← next_id ids;
  let event := make_event id in
  commit ← update env (commitBatch
    (documentAtomicCommitEntries None [] releaseWrites stream (ds_version existing) event)
    (λ savedEvents,
      saved ← requireSavedEvent savedEvents id;
      auxiliary ← documentAtomicAuxiliarySnapshots savedEvents None [] releaseWrites;
      Ok {| bp_snapshot := snapshotFromCommittedDocumentEvent existing saved None (Some Deleted);
            bp_auxiliarySnapshots := Some auxiliary |}));
  mret {| cmt_commit := commit; cmt_eventId := id |}.

(** [changeDocStatus(options)]: the write. *)
Definition write_status (doctype : DocTypeDefinition) (existing : DocumentSnapshot) (stream : jstr) (actor : Actor)
    (now : jstr) (nextStatus : DocStatus) (make_event : jstr → NewDomainEvent) : Call Committed :=
  id ← next_id ids;
  let event := make_event id in
  automation ← planAutomationRuns doctype event (Some existing) (document_after existing nextStatus (ds_data existing) now)
    [] [] actor;
  commit ← update env (commitBatch
    ({| ae_stream := stream; ae_expectedVersion := ds_version existing; ae_events := [event] |} :: acp_entries automation)
    (λ savedEvents,
      saved ← requireFirstSavedEvent savedEvents;
      runs ← auxiliarySnapshots automation savedEvents;
      Ok {| bp_snapshot := snapshotFromCommittedDocumentEvent existing saved None (Some nextStatus);
            bp_auxiliarySnapshots := Some runs |}));
  mret {| cmt_commit := commit; cmt_eventId := id |}.

(** The events of one turn of the loop of [create]: the creation, and the automation
    runs that it triggers. *)
Definition plan_create (doctype : DocTypeDefinition) (tenantId name : jstr) (actor : Actor) (now : jstr) (d : data)
    (make_event : jstr → NewDomainEvent) (input : data) : Call (NewDomainEvent * AutomationRunCommitPlan) :=
  id ← next_id ids;
  let event := make_event id in
  let after := {| ds_tenantId := tenantId; ds_doctype := dt_name doctype; ds_name := name; ds_version := 1;
                  ds_docstatus := Draft; ds_data := d; ds_createdAt := now; ds_updatedAt := now |} in
  automation ← planAutomationRuns doctype event None after (jm_keys d) input actor;
  mret (event, automation).

(** The commit of one turn of the loop of [create]. *)
Definition commit_create (stream : jstr) (series : option AtomicNamingSeriesWrite)
    (reservationWrites : list AtomicUniqueReservationWrite) (planned : NewDomainEvent * AutomationRunCommitPlan)
    : Call DocumentCommit :=
  let '(event, automation) := planned in
  update env (commitBatch
    (documentAtomicCommitEntries series reservationWrites [] stream 0 event ++ acp_entries automation)
    (λ savedEvents,
      saved ← requireSavedEvent savedEvents (e_id event);
      snapshot ← snapshotFromDocumentCreatedEvent saved;
      auxiliary ← documentAtomicAuxiliarySnapshots savedEvents series reservationWrites [];
      runs ← auxiliarySnapshots automation savedEvents;
      Ok {| bp_snapshot := snapshot; bp_auxiliarySnapshots := Some (auxiliary ++ runs) |})).

(** [commitDocumentEvent(actor, doctype, existing, stream, event)]: the write. *)
Definition commit_event (stream : jstr) (existing : DocumentSnapshot) (event : NewDomainEvent)
    : M DocumentStore DocumentCommit :=
  commit stream (ds_version existing) [event] (λ savedEvents,
    saved ← requireFirstSavedEvent savedEvents;
    Ok (snapshotFromCommittedDocumentEvent existing saved None None)).
End writes.
