(* ===== verification/DocumentService.v ===== *)
(** * DocumentService: the commands on documents

    Models the commands of [application/document-service.ts] on the in-memory document
    store, without a store of snapshots (with one they read the same documents, as
    [FoldSnapshots] proves).  What a command reads it reads at an [await], where other
    clients may act ([Interference]); the resolver of doctypes and the hooks are the
    application's, and so are the two providers, which may read the store. *)

From S2P Require Export Collaboration DocumentUpdate DocumentWrites Types.

(** ** Commands *)

(** What the commands on an existing document have in common. *)
Record DocumentCommand := {
  dcm_actor : Actor;
  dcm_doctype : jstr;
  dcm_name : jstr;
  dcm_tenantId : option jstr;
  dcm_expectedVersion : option Z;
  dcm_metadata : option data
}.

Record CreateDocumentCommand := {
  crc_actor : Actor;
  crc_doctype : jstr;
  crc_data : data;
  crc_tenantId : option jstr;
  crc_name : option jstr;
  crc_metadata : option data;
  crc_eventType : option jstr
}.

Record UpdateDocumentCommand := {
  udc_command : DocumentCommand;
  udc_patch : data;
  udc_unset : option (list jstr);
  udc_eventType : option jstr
}.

Record MergeDocumentCommand := {
  mdc_command : DocumentCommand;
  mdc_baseVersion : num;
  mdc_patch : data;
  mdc_unset : option (list jstr);
  mdc_eventType : option jstr
}.

(** [DuplicateDocumentCommand] and [AmendDocumentCommand]. *)
Record CopyDocumentCommand := {
  cdc_command : DocumentCommand;
  cdc_data : option data;
  cdc_newName : option jstr;
  cdc_eventType : option jstr
}.

Inductive MergeStatus := MergeApplied | MergeNoop | MergeConflicts.

Record MergeDocumentResult := {
  mdr_status : MergeStatus;
  mdr_plan : DocumentFieldMergePlan;
  mdr_document : DocumentSnapshot
}.

(** [DocumentServiceOptions], without the parts that the model takes as arguments. *)
Record DocumentServiceOptions := {
  dso_registry : Registry;
  dso_hooksFor : jstr → list DocumentHooks;
  dso_doctypeResolver : option (DocTypeDefinition → Actor → jstr → res (option DocTypeDefinition));
  dso_userPermissions : option (Actor → jstr → DocumentStore → res (list UserPermissionGrant));
  dso_documentShares : option (Actor → DocumentSnapshot → DocumentStore → res (list DocumentSharePermission));
  dso_onHookError : option (error → DomainEvent → res unit);
  dso_afterCommit : option (AfterCommitContext → res unit)
}.

(** What a command resolves first: the doctype, and those it refers to. *)
Record DocumentServiceDocTypeContext := {
  dsc_doctype : DocTypeDefinition;
  dsc_relatedDocType : jstr → option DocTypeDefinition
}.

Section service.
Context (host : predicate_host) `{NamingHost} `{Collation} (upper : N → jstr).
Context (ids clock : nat → jstr) (planner : AutomationRunPlanner) (event_object : NewDomainEvent → value).
Context (options : DocumentServiceOptions) (env : nat → DocumentStore → DocumentStore).

Abbreviation Call := (M (Client DocumentStore)).

(** ** Doctypes and access *)

(** [doctypeFor(actor, doctypeName, tenantId)]. *)
Definition doctypeFor (actor : Actor) (doctypeName tenantId : jstr) : res DocTypeDefinition :=
  base ← registry_get (dso_registry options) doctypeName;
  resolveTenantDocType base actor tenantId (dso_doctypeResolver options).

(** [doctypeContext(actor, doctypeName, tenantId)]. *)
Definition doctypeContext (actor : Actor) (doctypeName tenantId : jstr) : res DocumentServiceDocTypeContext :=
  root ← doctypeFor actor doctypeName tenantId;
  match resolveTenantDocTypeContext (λ name, doctypeFor actor name tenantId)
          (S (length (reg_doctypes (dso_registry options)))) root with
  | Some related => related ← related; Ok {| dsc_doctype := root; dsc_relatedDocType := λ name, jm_get name related |}
  | None => Throw (FrameworkError PLAIN_ERROR 500)
  end.

(** [readDocumentFromEvents(tenantId, doctype, name)]. *)
Definition readDocumentFromEvents (tenantId : jstr) (doctype : DocTypeDefinition) (name : jstr)
    : Call (option DocumentSnapshot) :=
  stream ← m_lift (documentStream tenantId (dt_name doctype) name);
  read_document env stream.

(** [requireExistingFromEvents(stream, doctype, name)]. *)
Definition requireExistingFromEvents (stream : jstr) : Call DocumentSnapshot :=
  snapshot ← read_document env stream;
  m_lift (requireLiveDocumentSnapshot snapshot).

(** [requireExistingEventStream(stream, doctype, name)]. *)
Definition requireExistingEventStream (stream : jstr) : Call (DocumentSnapshot * list DomainEvent) :=
  events ← read_stream env stream;
  folded ← m_lift (foldDocument events);
  snapshot ← m_lift (requireLiveDocumentSnapshot folded);
  mret (snapshot, events).

(** [readSharedPermissions(actor, document)]. *)
Definition readSharedPermissions (actor : Actor) (document : DocumentSnapshot) : Call (list DocumentSharePermission) :=
  match dso_documentShares options with
  | Some sharedPermissionsFor => observe env (sharedPermissionsFor actor document)
  | None => mret []
  end.

(** [this.userPermissions?.permissionsFor(actor, tenantId) ?? []]. *)
Definition permissions_for (actor : Actor) (tenantId : jstr) : Call (list UserPermissionGrant) :=
  match dso_userPermissions options with
  | Some permissionsFor => observe env (permissionsFor actor tenantId)
  | None => mret []
  end.

(** [sharedPermissionsForAction(actor, doctype, action, document)]. *)
Definition sharedPermissionsForAction (actor : Actor) (doctype : DocTypeDefinition) (action : PermissionAction)
    (document : DocumentSnapshot) : Call (list DocumentSharePermission) :=
  resolveDocumentSharedPermissionsForAction actor doctype action document (readSharedPermissions actor document).

(** [ensureDocTypeActionAccess(actor, doctype, action)] and
    [ensureDocumentActionAccess(actor, doctype, action, document)]. *)
Definition ensureDocTypeActionAccess (actor : Actor) (doctype : DocTypeDefinition) (action : PermissionAction) : Call unit :=
  m_lift (planDocTypeActionAccess actor doctype action).
Definition ensureDocumentActionAccess (actor : Actor) (doctype : DocTypeDefinition) (action : PermissionAction)
    (document : DocumentSnapshot) : Call unit := m_lift (planDocumentActionAccess actor doctype action document []).

(** [ensureSharedDocumentActionAccess(actor, doctype, action, document)]: whether the
    shares were read, and the permissions found. *)
Definition ensureSharedDocumentActionAccess (actor : Actor) (doctype : DocTypeDefinition) (action : PermissionAction)
    (document : DocumentSnapshot) : Call (bool * list DocumentSharePermission) :=
  sharedPermissions ← sharedPermissionsForAction actor doctype action document;
  _ ← m_lift (planDocumentActionAccess actor doctype action document sharedPermissions);
  mret (planDocumentSharedPermissionLookup actor doctype action document, sharedPermissions).

(** [ensureUserPermissionAccess(actor, doctype, document)]. *)
Definition ensureUserPermissionAccess (actor : Actor) (doctype : DocTypeDefinition) (document : DocumentSnapshot)
    : Call unit :=
  grants ← permissions_for actor (ds_tenantId document);
  m_lift (planDocumentUserPermissionAccess doctype document grants).

(** [canReadLinkedDocument(actor, sourceDoctype, field, targetDoctype, target)]. *)
Definition canReadLinkedDocument (actor : Actor) (sourceDoctype : DocTypeDefinition) (field : FieldDefinition)
    (targetDoctype : DocTypeDefinition) (target : DocumentSnapshot) : Call bool :=
  sharedPermissions ← sharedPermissionsForAction actor targetDoctype ARead target;
  grants ← permissions_for actor (ds_tenantId target);
  mret (canReadLinkedDocumentTarget actor sourceDoctype field targetDoctype target sharedPermissions grants).

(** ** Preparing and checking data *)

(** [runBeforeValidate(doctype, data, existing)]. *)
Definition runBeforeValidate (doctype : DocTypeDefinition) (d : data) (existing : option DocumentSnapshot) : Call data :=
  m_lift (runDocumentBeforeValidateHooks (dso_hooksFor options (dt_name doctype)) doctype d existing).

(** [validate(doctype, data, relatedDocType, existing, hookDataOverride)]. *)
Definition validate (doctype : DocTypeDefinition) (d : data) (relatedDocType : jstr → option DocTypeDefinition)
    (existing : option DocumentSnapshot) (hookDataOverride : option data) : Call (list ValidationIssue) :=
  hookIssues ← m_lift (runDocumentValidationHooks (dso_hooksFor options (dt_name doctype)) doctype d existing
    hookDataOverride);
  mret (documentValidationIssues (validateDocumentData host doctype d
    {| vo_partial := bool_decide (existing ≠ None); vo_existing := None; vo_relatedDocType := relatedDocType |}) hookIssues).

(** [applyFetchedFields(actor, tenantId, doctype, data, relatedDocType, { existing })]. *)
Definition fetchedFields (actor : Actor) (tenantId : jstr) (doctype : DocTypeDefinition) (d : data)
    (relatedDocType : jstr → option DocTypeDefinition) (existing : option DocumentSnapshot) : Call data :=
  applyFetchedFields relatedDocType (λ field targetDoctype targetName,
    target ← readDocumentFromEvents tenantId targetDoctype targetName;
    match target with
    | None => mret None
    | Some target =>
        readable ← canReadLinkedDocument actor doctype field targetDoctype target;
        mret (if readable : bool then Some target else None)
    end) doctype d existing.

(** [validateLinks(actor, tenantId, doctype, data, relatedDocType)]. *)
Definition validateLinks (actor : Actor) (tenantId : jstr) (doctype : DocTypeDefinition) (d : data)
    (relatedDocType : jstr → option DocTypeDefinition) : Call (list ValidationIssue) :=
  validateDocumentLinks relatedDocType (λ link,
    target ← readDocumentFromEvents tenantId (dln_target link) (dln_name link);
    match target with
    | None => mret false
    | Some target => canReadLinkedDocument actor (dln_source link) (dln_field link) (dln_target link) target
    end) doctype d.

(** ** After a commit *)

(** [runAfterCommit(doctype, event, snapshot)]. *)
Definition runAfterCommit (doctype : DocTypeDefinition) (event : DomainEvent) (snapshot : option DocumentSnapshot)
    : Call (option DocumentSnapshot) :=
  _ ← m_lift (runDocumentAfterCommitHooks (dso_hooksFor options (dt_name doctype)) (dso_afterCommit options)
    (dso_onHookError options) doctype event snapshot);
  readDocumentFromEvents (e_tenantId event) doctype (e_documentName event).

(** [finishAfterCommit(actor, doctype, commit, saved, relatedDocType)]. *)
Definition finishAfterCommit (actor : Actor) (context : DocumentServiceDocTypeContext) (commit : DocumentCommit)
    (saved : DomainEvent) : Call DocumentSnapshot :=
  shown ← runAfterCommit (dsc_doctype context) saved (Some (dc_snapshot commit));
  mret (redactDocumentSnapshot (dsc_relatedDocType context) actor (dsc_doctype context)
    (default (dc_snapshot commit) shown)).

(** The end of the commands that commit a batch. *)
Definition finish_committed (actor : Actor) (context : DocumentServiceDocTypeContext) (committed : Committed)
    : Call DocumentSnapshot :=
  saved ← m_lift (requireSavedEvent (dc_events (cmt_commit committed)) (cmt_eventId committed));
  finishAfterCommit actor context (cmt_commit committed) saved.

(** The fields of an event that a command writes, with its identifier. *)
Definition event_input (tenantId stream : jstr) (doctype : DocTypeDefinition) (name : jstr) (actor : Actor) (now : jstr)
    (metadata : option data) (id : jstr) : DocumentEventInput :=
  {| dei_id := id; dei_tenantId := tenantId; dei_stream := stream; dei_doctypeName := dt_name doctype;
     dei_documentName := name; dei_actorId := actor_id actor; dei_occurredAt := now; dei_metadata := metadata |}.

(** ** Opening a document *)

Record OpenedDocument := {
  opd_tenantId : jstr;
  opd_context : DocumentServiceDocTypeContext;
  opd_stream : jstr;
  opd_existing : DocumentSnapshot
}.

(** The start of the commands on an existing document; [require] is what a command
    looks up in the doctype before it reads the document. *)
Definition open_document {A} (command : DocumentCommand) (require : DocTypeDefinition → res A)
    : Call (OpenedDocument * A) :=
  let tenantId := resolveTenant (dcm_actor command) (dcm_tenantId command) in
  context ← m_lift (doctypeContext (dcm_actor command) (dcm_doctype command) tenantId);
  required ← m_lift (require (dsc_doctype context));
  stream ← m_lift (documentStream tenantId (dt_name (dsc_doctype context)) (dcm_name command));
  existing ← requireExistingFromEvents stream;
  mret ({| opd_tenantId := tenantId; opd_context := context; opd_stream := stream; opd_existing := existing |}, required).

(** The same, for the commands that fold the events themselves. *)
Definition open_stream (command : DocumentCommand) : Call (OpenedDocument * list DomainEvent) :=
  let tenantId := resolveTenant (dcm_actor command) (dcm_tenantId command) in
  context ← m_lift (doctypeContext (dcm_actor command) (dcm_doctype command) tenantId);
  stream ← m_lift (documentStream tenantId (dt_name (dsc_doctype context)) (dcm_name command));
  read ← requireExistingEventStream stream;
  mret ({| opd_tenantId := tenantId; opd_context := context; opd_stream := stream; opd_existing := read.1 |}, read.2).

(** [ensureDocumentActionAccess], [ensureUserPermissionAccess], [ensureExpectedVersion]. *)
Definition ensure_access (command : DocumentCommand) (opened : OpenedDocument) (action : PermissionAction) : Call unit :=
  _ ← ensureDocumentActionAccess (dcm_actor command) (dsc_doctype (opd_context opened)) action (opd_existing opened);
  _ ← ensureUserPermissionAccess (dcm_actor command) (dsc_doctype (opd_context opened)) (opd_existing opened);
  m_lift (ensureExpectedVersion (opd_existing opened) (dcm_expectedVersion command)).

(** The same with [ensureSharedDocumentActionAccess]. *)
Definition ensure_shared_access (command : DocumentCommand) (opened : OpenedDocument) (action : PermissionAction)
    : Call (bool * list DocumentSharePermission) :=
  access ← ensureSharedDocumentActionAccess (dcm_actor command) (dsc_doctype (opd_context opened)) action
    (opd_existing opened);
  _ ← ensureUserPermissionAccess (dcm_actor command) (dsc_doctype (opd_context opened)) (opd_existing opened);
  _ ← m_lift (ensureExpectedVersion (opd_existing opened) (dcm_expectedVersion command));
  mret access.

(** The event of a command on an opened document. *)
Definition opened_input (command : DocumentCommand) (opened : OpenedDocument) (now id : jstr) : DocumentEventInput :=
  event_input (opd_tenantId opened) (opd_stream opened) (dsc_doctype (opd_context opened)) (dcm_name command)
    (dcm_actor command) now (dcm_metadata command) id.

(** The document as the actor may see it. *)
Definition redacted (command : DocumentCommand) (opened : OpenedDocument) : DocumentSnapshot :=
  redactDocumentSnapshot (dsc_relatedDocType (opd_context opened)) (dcm_actor command) (dsc_doctype (opd_context opened))
    (opd_existing opened).

(** ** Updates *)

(** [applyDocumentUpdate(options)]; [commandPatch] is the patch of the command, and
    [prevalidated] whether the hooks have already run on [patch]. *)
Definition applyDocumentUpdate (command : DocumentCommand) (opened : OpenedDocument) (commandPatch patch : data)
    (prevalidated : bool) (unset : option (list jstr)) (eventType : option jstr) : Call DocumentSnapshot :=
  let actor := dcm_actor command in
  let tenantId := opd_tenantId opened in
  let doctype := dsc_doctype (opd_context opened) in
  let relatedDocType := dsc_relatedDocType (opd_context opened) in
  let existing := opd_existing opened in
  _ ← m_lift (ensureDocumentUpdateStatus existing);
  patch ← if prevalidated then mret patch else runBeforeValidate doctype (compactData patch) (Some existing);
  let patchWithoutInternalFields := stripInternalTableFields relatedDocType doctype patch in
  fetched ← fetchedFields actor tenantId doctype patch relatedDocType (Some existing);
  let unset := normalizeUnsetFields unset in
  changed ← m_lift (update_data relatedDocType doctype existing fetched unset);
  hookIssues ← m_lift (runDocumentValidationHooks (dso_hooksFor options (dt_name doctype)) doctype changed.1 (Some existing)
    (Some changed.2));
  linkIssues ← validateLinks actor tenantId doctype changed.1 relatedDocType;
  accepted ← m_lift (accept_update host relatedDocType actor doctype existing patch fetched unset hookIssues linkIssues);
  let '(normalizedPatch, next) := accepted in
  now ← Interference.now clock;
  committed ← write_change host ids planner event_object env doctype existing (opd_stream opened) tenantId actor now next
    (λ id, documentUpdateEventCommand (opened_input command opened now id)
      (planDocumentUpdatePolicy doctype normalizedPatch (Some unset) eventType))
    (jm_keys commandPatch ++ unset) patchWithoutInternalFields;
  finish_committed actor (opd_context opened) committed.

(** [update(command)]. *)
Definition update_document (command : UpdateDocumentCommand) : Call DocumentSnapshot :=
  opened ← open_document (udc_command command) (λ _, Ok tt);
  _ ← ensure_shared_access (udc_command command) opened.1 AUpdate;
  applyDocumentUpdate (udc_command command) opened.1 (udc_patch command) (udc_patch command) false (udc_unset command)
    (udc_eventType command).

(** The events up to a version: [events.filter((event) => event.sequence <= version)]. *)
Definition events_until (version : Z) (events : list DomainEvent) : list DomainEvent :=
  filter (λ event : DomainEvent, (e_sequence event <= version)%Z) events.

(** [merge(command)]; a merge has no expected version. *)
Definition merge_document (command : MergeDocumentCommand) : Call MergeDocumentResult :=
  _ ← m_lift (ensureMergeBaseVersion (mdc_baseVersion command));
  let baseVersion := default 0%Z (num_safe_integer (mdc_baseVersion command)) in
  let base := mdc_command command in
  let actor := dcm_actor base in
  read ← open_stream base;
  let '(opened, events) := read in
  let doctype := dsc_doctype (opd_context opened) in
  let relatedDocType := dsc_relatedDocType (opd_context opened) in
  let existing := opd_existing opened in
  _ ← ensureSharedDocumentActionAccess actor doctype AUpdate existing;
  _ ← ensureUserPermissionAccess actor doctype existing;
  folded ← m_lift (foldDocument (events_until baseVersion events));
  baseSnapshot ← m_lift (requireMergeBaseSnapshot folded baseVersion);
  patch ← runBeforeValidate doctype (compactData (mdc_patch command)) (Some existing);
  let patchWithoutInternalFields := stripInternalTableFields relatedDocType doctype patch in
  let normalizedPatch := preserveReadOnlyTableValues relatedDocType doctype patch existing in
  let unset := normalizeUnsetFields (mdc_unset command) in
  preflight ← m_lift (applyDocumentDataChange (ds_data existing) normalizedPatch unset);
  _ ← m_lift (ensure (bool_decide (fieldPermissionIssues relatedDocType actor FAUpdate doctype patchWithoutInternalFields
        (Some (changed_draft existing preflight)) unset = [])) validationFailed);
  draft ← m_lift (applyDocumentDataChange (ds_data baseSnapshot) normalizedPatch unset);
  let plan := planDocumentFieldMerge {| mi_base := mergeSnapshotFromDocument baseSnapshot;
    mi_remote := mergeSnapshotFromDocument existing; mi_draft := draft; mi_fields := None |} in
  let responsePlan := projectDocumentMergePlanForFieldAccess relatedDocType actor doctype existing plan in
  match documentMergeDisposition plan with
  | DispositionConflict =>
      mret {| mdr_status := MergeConflicts; mdr_plan := responsePlan; mdr_document := redacted base opened |}
  | DispositionNoop =>
      mret {| mdr_status := MergeNoop; mdr_plan := responsePlan; mdr_document := redacted base opened |}
  | DispositionApply =>
      document ← applyDocumentUpdate base opened (mdc_patch command) (compactData (mp_patch plan)) true
        (Some (mp_unset plan)) (mdc_eventType command);
      mret {| mdr_status := MergeApplied; mdr_plan := responsePlan; mdr_document := document |}
  end.

(** ** Transitions and domain commands *)

(** What [transition] and [execute] share: the checks on the patch, the write and the
    end.  [patch] is what the actor and the transitions made of it, [exact] makes the
    states of the transitions of the fetched patch, [controlled] leaves of the patch
    what the actor controls. *)
Definition apply_command (command : DocumentCommand) (opened : OpenedDocument) (now : option jstr) (patch : data)
    (exact controlled : data → data) (authorized : data) (checkReadOnly checkFieldPermissions overrideHookData : bool)
    (make_event : jstr → data → jstr → NewDomainEvent) (input : data) : Call DocumentSnapshot :=
  let actor := dcm_actor command in
  let tenantId := opd_tenantId opened in
  let doctype := dsc_doctype (opd_context opened) in
  let relatedDocType := dsc_relatedDocType (opd_context opened) in
  let existing := opd_existing opened in
  let patchWithoutInternalFields := stripInternalTableFields relatedDocType doctype patch in
  fetched ← fetchedFields actor tenantId doctype patch relatedDocType (Some existing);
  let fetchedPatchWithoutInternalFields := stripInternalTableFields relatedDocType doctype fetched in
  let exactPatch := exact fetched in
  let originIssues := childTableOriginIssues relatedDocType doctype exactPatch (ds_data existing) in
  let normalizedPatch := preserveReadOnlyTableValues relatedDocType doctype exactPatch existing in
  next ← m_lift (applyDocumentDataChange (ds_data existing) normalizedPatch []);
  let actorPatch := controlled patchWithoutInternalFields in
  validationIssues ← validate doctype normalizedPatch relatedDocType (Some existing)
    (if overrideHookData then Some next else None);
  linkIssues ← validateLinks actor tenantId doctype normalizedPatch relatedDocType;
  let issues := documentDomainCommandValidationIssues
    {| dg_originIssues := originIssues;
       dg_workflowStateIssues := workflowStateMutationIssues doctype fetchedPatchWithoutInternalFields [] authorized;
       dg_generatedNamingIssues := generatedNamingFieldMutationIssues doctype (jm_keys normalizedPatch);
       dg_readOnlyIssues := if checkReadOnly then readonlyIssues host relatedDocType doctype actorPatch next [] else [];
       dg_fieldPermissionIssues := if checkFieldPermissions
         then fieldPermissionIssues relatedDocType actor FAUpdate doctype actorPatch (Some (changed_draft existing next)) []
         else [];
       dg_validationIssues := validationIssues;
       dg_linkIssues := linkIssues |} in
  _ ← m_lift (ensure (bool_decide (issues = [])) validationFailed);
  now ← match now with Some now => mret now | None => Interference.now clock end;
  committed ← write_change host ids planner event_object env doctype existing (opd_stream opened) tenantId actor now next
    (make_event now normalizedPatch) (jm_keys normalizedPatch) input;
  finish_committed actor (opd_context opened) committed.

(** [transition(command)]. *)
Definition transition_document (command : DocumentCommand) (workflow action : jstr) : Call DocumentSnapshot :=
  open ← open_document command (λ doctype, requireNamedWorkflowDefinition doctype workflow);
  let '(opened, definition) := open in
  let doctype := dsc_doctype (opd_context opened) in
  let existing := opd_existing opened in
  let input := [(js "workflow", VStr workflow); (js "action", VStr action)] in
  _ ← ensure_access command opened ATransition;
  _ ← m_lift (ensureDocumentStatus existing [Draft]);
  plan ← m_lift (planWorkflowTransitionPolicy host upper (dcm_actor command) action (dt_name doctype) existing definition
    (Some input));
  hookPatch ← runBeforeValidate doctype (wtp_patch plan) (Some existing);
  let set_state (d : data) : data := jm_set (wtp_stateField plan) (VStr (wtp_to plan)) d in
  apply_command command opened None (set_state hookPatch) set_state (filter (λ kv, kv.1 ≠ wtp_stateField plan))
    [(wtp_stateField plan, VStr (wtp_to plan))] true true true
    (λ now normalizedPatch id, workflowTransitionEventCommand (opened_input command opened now id) action
      {| wtp_workflow := wtp_workflow plan; wtp_stateField := wtp_stateField plan; wtp_action := wtp_action plan;
         wtp_from := wtp_from plan; wtp_to := wtp_to plan; wtp_patch := normalizedPatch;
         wtp_eventType := wtp_eventType plan |}) input.

(** [execute(command)]. *)
Definition execute_command (command : DocumentCommand) (name : jstr) (input : data) : Call DocumentSnapshot :=
  open ← open_document command (λ doctype, requireDomainCommandDefinition doctype name);
  let '(opened, definition) := open in
  let actor := dcm_actor command in
  let doctype := dsc_doctype (opd_context opened) in
  let relatedDocType := dsc_relatedDocType (opd_context opened) in
  let existing := opd_existing opened in
  now ← Interference.now clock;
  plan ← m_lift (planDomainCommandPolicy actor definition existing input now);
  _ ← ensureSharedDocumentActionAccess actor doctype (dpp_permissionAction plan) existing;
  _ ← ensureUserPermissionAccess actor doctype existing;
  _ ← m_lift (ensureDomainCommandRoleAccess actor definition);
  _ ← m_lift (ensureExpectedVersion existing (dcm_expectedVersion command));
  _ ← m_lift (ensureDocumentStatus existing [Draft]);
  let sanitizedInput := stripInternalTableFields relatedDocType doctype (dpp_input plan) in
  normalizedPatch ← runBeforeValidate doctype (dpp_patch plan) (Some existing);
  transitionPlan ← m_lift (planDomainCommandTransitions host upper actor doctype existing normalizedPatch
    (dpp_transitions plan) sanitizedInput);
  apply_command command opened (Some now) (dtp_patch transitionPlan) id id
    (jm_of_list ((λ t, (tf_stateField t, VStr (tf_to t))) <$> dtp_transitions transitionPlan))
    (negb (dpp_allowReadOnlyFields plan)) (negb (dpp_bypassFieldPermissions plan && is_system_manager actor)) false
    (λ now patch id, domainCommandEventCommand (opened_input command opened now id) (dcd_eventType definition) name
      sanitizedInput patch (Some (dtp_transitions transitionPlan))) sanitizedInput.

(** ** Creation *)

(** [ensureGeneratedNamingFieldNotSupplied(doctype, data)]. *)
Definition ensureGeneratedNamingFieldNotSupplied (doctype : DocTypeDefinition) (d : data) : res unit :=
  match generated_field doctype with
  | Some targetField => ensure (negb (jm_has targetField d)) validationFailed
  | None => Ok tt
  end.

(** [withoutGeneratedNamingField(doctype, data)]. *)
Definition withoutGeneratedNamingField (doctype : DocTypeDefinition) (d : data) : data :=
  match generated_field doctype with Some targetField => jm_delete targetField d | None => d end.

(** [draftDocumentSnapshot(input)]. *)
Definition draftDocumentSnapshot (tenantId : jstr) (doctype : DocTypeDefinition) (name : jstr) (version : Z) (d : data)
    (now : jstr) : DocumentSnapshot :=
  {| ds_tenantId := tenantId; ds_doctype := dt_name doctype; ds_name := name; ds_version := version;
     ds_docstatus := Draft; ds_data := d; ds_createdAt := now; ds_updatedAt := now |}.

(** What one turn of the loop of [create] ends with: a commit to finish, or another
    turn with what is known of the occupied values of the series. *)
Inductive CreateOutcome :=
| CreateDone (commit : DocumentCommit) (saved : DomainEvent)
| CreateAgain (occupiedNamingCurrent : option Z).

Section create.
Context (command : CreateDocumentCommand) (tenantId now : jstr) (context : DocumentServiceDocTypeContext).
Context (preparedData userSuppliedData : data).

(** The name of a turn: the command's, or what the doctype's naming makes. *)
Definition create_name (remaining : Z) (occupied : option Z) : Call DocumentNameResolution :=
  match crc_name command with
  | Some name => mret {| dnr_name := name; dnr_data := preparedData; dnr_write := None |}
  | None => resolveName ids env (dsc_doctype context) preparedData (crc_actor command) tenantId now occupied remaining
  end.

(** The attempts left after a turn took its name. *)
Definition remaining_after (resolution : DocumentNameResolution) (remaining : Z) : Z :=
  match dnr_write resolution with Some write => remaining - nsw_candidateAttempts write | None => 0 end%Z.

(** The issues of a new document. *)
Definition create_issues (name : jstr) (d : data) : Call (list ValidationIssue) :=
  let doctype := dsc_doctype context in
  let relatedDocType := dsc_relatedDocType context in
  let draft := draftDocumentSnapshot tenantId doctype name 0 d now in
  validationIssues ← validate doctype d relatedDocType None None;
  linkIssues ← validateLinks (crc_actor command) tenantId doctype d relatedDocType;
  mret (documentCreateValidationIssues
    {| cg_workflowStateIssues := workflowStateCreateIssues host doctype d;
       cg_fieldPermissionIssues := fieldPermissionIssues relatedDocType (crc_actor command) FACreate doctype
         userSuppliedData (Some draft) [];
       cg_validationIssues := validationIssues;
       cg_linkIssues := linkIssues |}).

(** The events of a new document, and the commit that writes them; [plan_create] and
    [commit_create] are of [DocumentWrites]. *)
Definition create_commit (resolution : DocumentNameResolution) (stream : jstr) (remaining : Z) (occupied : option Z)
    : Call CreateOutcome :=
  let doctype := dsc_doctype context in
  let actor := crc_actor command in
  let name := dnr_name resolution in
  let d := dnr_data resolution in
  let series := nsw_write <$> dnr_write resolution in
  uniqueReservations ← m_lift (uniqueValueReservations nh_number tenantId doctype d name);
  reservationWrites ← planUniqueValueReservationWrites ids env actor uniqueReservations now;
  let plan := planDocumentCreatePolicy doctype d (crc_eventType command) in
  planned ← plan_create host ids planner event_object doctype tenantId name actor now d
    (λ id, documentCreateEventCommand (event_input tenantId stream doctype name actor now (crc_metadata command) id) plan)
    userSuppliedData;
  catching
    (commit ← commit_create env stream series reservationWrites planned;
     saved ← m_lift (requireSavedEvent (dc_events commit) (e_id planned.1));
     mret (CreateDone commit saved))
    (λ e,
      disposition ← namingConflictDisposition env e doctype tenantId name (dnr_write resolution);
      match disposition, series with
      | Some ConflictDocument, Some write =>
          if (0 <? remaining)%Z then mret (CreateAgain (Some (anw_next write))) else m_throw e
      | Some _, _ => if (0 <? remaining)%Z then mret (CreateAgain occupied) else m_throw e
      | None, _ => m_throw e
      end).

(** One turn of the loop: what it ends with, and the attempts left. *)
Definition create_turn (remaining : Z) (occupied : option Z) : Call (CreateOutcome * Z) :=
  let doctype := dsc_doctype context in
  resolution ← create_name remaining occupied;
  let remaining := remaining_after resolution remaining in
  issues ← create_issues (dnr_name resolution) (dnr_data resolution);
  _ ← m_lift (ensure (bool_decide (issues = [])) validationFailed);
  stream ← m_lift (documentStream tenantId (dt_name doctype) (dnr_name resolution));
  existing ← read_document env stream;
  match ensureDocumentCreateAvailable existing with
  | Throw e =>
      match dnr_write resolution with
      | Some write =>
          if isDocumentConflictError e && (0 <? remaining)%Z
          then mret (CreateAgain (Some (anw_next (nsw_write write))), remaining) else m_throw e
      | None => m_throw e
      end
  | Ok _ =>
      outcome ← create_commit resolution stream remaining occupied;
      mret (outcome, remaining)
  end.

(** The loop of [create]; each turn but the last takes an attempt of the series. *)
Fixpoint create_loop (fuel : nat) (remaining : Z) (occupied : option Z) : Call DocumentSnapshot :=
  match fuel with
  | O => m_throw (FrameworkError PLAIN_ERROR 500)
  | S fuel =>
      if (0 <? remaining)%Z then
        turn ← create_turn remaining occupied;
        match turn with
        | (CreateDone commit saved, _) => finishAfterCommit (crc_actor command) context commit saved
        | (CreateAgain occupied, remaining) => create_loop fuel remaining occupied
        end
      else m_throw conflict
  end.
End create.

(** The attempts a creation starts with. *)
Definition naming_attempts (doctype : DocTypeDefinition) : Z :=
  match dt_naming doctype with
  | Some (NamingSeries series) => default DEFAULT_NAMING_MAX_ATTEMPTS (nss_maxAttempts series)
  | _ => 1
  end.

(** [create(command)]. *)
Definition create_document (command : CreateDocumentCommand) : Call DocumentSnapshot :=
  let actor := crc_actor command in
  let tenantId := resolveTenant actor (crc_tenantId command) in
  context ← m_lift (doctypeContext actor (crc_doctype command) tenantId);
  let doctype := dsc_doctype context in
  let relatedDocType := dsc_relatedDocType context in
  _ ← ensureDocTypeActionAccess actor doctype ACreate;
  _ ← m_lift (ensureCreateNameAllowed doctype (crc_name command));
  _ ← m_lift (ensureGeneratedNamingFieldNotSupplied doctype (crc_data command));
  now ← Interference.now clock;
  let withDefaults := applyDefaults doctype (crc_data command) {| fdc_actor := actor; fdc_now := now |} in
  withValidatedHooks ← runBeforeValidate doctype withDefaults None;
  withFetchedFields ← fetchedFields actor tenantId doctype withValidatedHooks relatedDocType None;
  let preparedData := stripInternalTableFields relatedDocType doctype withFetchedFields in
  let userSuppliedData := stripInternalTableFields relatedDocType doctype (compactData (crc_data command)) in
  create_loop command tenantId now context preparedData userSuppliedData (S (Z.to_nat (naming_attempts doctype)))
    (naming_attempts doctype) None.

(** [duplicate(command)] and [amend(command)]; [amend] is the command. *)
Definition copy_document (amend : bool) (command : CopyDocumentCommand) : Call DocumentSnapshot :=
  let base := cdc_command command in
  opened ← open_document base (λ _, Ok tt);
  _ ← ensure_shared_access base opened.1 ARead;
  _ ← m_lift (if amend then ensureDocumentStatus (opd_existing opened.1) [Cancelled] else Ok tt);
  let doctype := dsc_doctype (opd_context opened.1) in
  let plan := planDocumentCopyPolicy (dsc_relatedDocType (opd_context opened.1)) amend doctype (redacted base opened.1)
    (cdc_data command) (dcm_metadata base) in
  create_document {| crc_actor := dcm_actor base; crc_doctype := dt_name doctype;
    crc_data := withoutGeneratedNamingField doctype (ccp_data plan); crc_tenantId := dcm_tenantId base;
    crc_name := cdc_newName command; crc_metadata := Some (ccp_metadata plan); crc_eventType := cdc_eventType command |}.

(** ** Status *)

(** [delete(command)]. *)
Definition delete_document (command : DocumentCommand) : Call DocumentSnapshot :=
  open ← open_document command (λ _, Ok tt);
  let opened := open.1 in
  let doctype := dsc_doctype (opd_context opened) in
  _ ← ensure_access command opened ADelete;
  let plan := planDocumentDeletePolicy doctype in
  _ ← m_lift (ensureDocumentStatus (opd_existing opened) (ddp_allowedStatus plan));
  now ← Interference.now clock;
  committed ← write_delete ids env doctype (opd_existing opened) (opd_stream opened) (opd_tenantId opened)
    (dcm_actor command) now (λ id, documentDeleteEventCommand (opened_input command opened now id) plan);
  finish_committed (dcm_actor command) (opd_context opened) committed.

(** [submit(command)] and [cancel(command)], with [changeDocStatus(options)]. *)
Definition change_status (cancel : bool) (command : DocumentCommand) : Call DocumentSnapshot :=
  open ← open_document command (λ _, Ok tt);
  let opened := open.1 in
  let doctype := dsc_doctype (opd_context opened) in
  _ ← ensure_access command opened (if cancel then ACancel else ASubmit);
  let plan := planDocumentStatusChangePolicy doctype cancel in
  _ ← m_lift (ensureDocumentStatus (opd_existing opened) (scp_allowedStatus plan));
  now ← Interference.now clock;
  committed ← write_status host ids planner event_object env doctype (opd_existing opened) (opd_stream opened)
    (dcm_actor command) now (scp_nextStatus plan)
    (λ id, documentStatusChangeEventCommand (opened_input command opened now id) plan);
  saved ← m_lift (requireFirstSavedEvent (dc_events (cmt_commit committed)));
  finishAfterCommit (dcm_actor command) (opd_context opened) (cmt_commit committed) saved.

(** ** Collaboration *)

(** [commitDocumentEvent(actor, doctype, existing, stream, event, relatedDocType)]. *)
Definition commitDocumentEvent (actor : Actor) (opened : OpenedDocument) (event : NewDomainEvent) : Call DocumentSnapshot :=
  commit ← update env (commit_event (opd_stream opened) (opd_existing opened) event);
  saved ← m_lift (requireFirstSavedEvent (dc_events commit));
  finishAfterCommit actor (opd_context opened) commit saved.

(** The event of a plan, and its commit. *)
Definition commit_plan (command : DocumentCommand) (opened : OpenedDocument) (plan : DocumentCollaborationEventPlan)
    : Call DocumentSnapshot :=
  now ← Interference.now clock;
  id ← next_id ids;
  commitDocumentEvent (dcm_actor command) opened (documentCollaborationEventCommand (opened_input command opened now id) plan).

(** A plan that may have nothing to do. *)
Definition commit_unless_noop (command : DocumentCommand) (opened : OpenedDocument) (noop : bool)
    (plan : DocumentCollaborationEventPlan) : Call DocumentSnapshot :=
  if noop then mret (redacted command opened) else commit_plan command opened plan.

(** [comment(command)] and [recordActivity(command)]. *)
Definition comment_document (command : DocumentCommand) (text : jstr) : Call DocumentSnapshot :=
  opened ← open_document command (λ _, Ok tt);
  _ ← ensure_access command opened.1 AComment;
  plan ← m_lift (planDocumentCommentPolicy (dsc_doctype (opd_context opened.1)) text);
  commit_plan command opened.1 plan.
Definition record_activity (command : DocumentCommand) (activity : ActivityInput) : Call DocumentSnapshot :=
  opened ← open_document command (λ _, Ok tt);
  _ ← ensure_access command opened.1 AActivity;
  plan ← m_lift (planDocumentActivityPolicy (dsc_doctype (opd_context opened.1)) activity);
  commit_plan command opened.1 plan.

(** [changeAssignment], [changeTag] and [changeFollower]; [plan] is the policy of each. *)
Definition change_collection (command : DocumentCommand) (action : PermissionAction)
    (plan : DocTypeDefinition → list DomainEvent → res DocumentCollaborationCollectionPlan) : Call DocumentSnapshot :=
  opened ← open_stream command;
  _ ← ensure_access command opened.1 action;
  plan ← m_lift (plan (dsc_doctype (opd_context opened.1)) opened.2);
  commit_unless_noop command opened.1 (ccc_noop (clp_change plan)) (clp_event plan).

Definition changeAssignment (command : DocumentCommand) (assignee : jstr) (add : bool) : Call DocumentSnapshot :=
  change_collection command AAssign (λ doctype events,
    planDocumentAssignmentChangePolicy doctype (foldDocumentAssignments events) assignee add).
Definition changeTag (command : DocumentCommand) (tag : jstr) (add : bool) : Call DocumentSnapshot :=
  change_collection command ATag (λ doctype events,
    planDocumentTagChangePolicy doctype (foldDocumentTags events) tag add).
Definition changeFollower (command : DocumentCommand) (follower : option jstr) (add : bool) : Call DocumentSnapshot :=
  change_collection command AFollow (λ doctype events,
    planDocumentFollowerChangePolicy doctype (dcm_actor command) (foldDocumentFollowers events) follower add).

(** [share(command)]. *)
Definition share_document (command : DocumentCommand) (userId : jstr) (permissions : list jstr) : Call DocumentSnapshot :=
  opened ← open_stream command;
  access ← ensure_shared_access command opened.1 AShare;
  plan ← m_lift (planDocumentSharePolicy (dsc_doctype (opd_context opened.1)) (documentShareStateFromEvents opened.2)
    userId permissions);
  _ ← m_lift (ensureSharedGrantDelegabilityForLookup access.1 access.2 (sgp_grant plan));
  commit_unless_noop command opened.1 (sgp_noop plan) (sgp_event plan).

(** [revokeShare(command)]. *)
Definition revoke_share (command : DocumentCommand) (userId : jstr) : Call DocumentSnapshot :=
  opened ← open_stream command;
  _ ← ensure_shared_access command opened.1 AShare;
  plan ← m_lift (planDocumentShareRevocationPolicy (dsc_doctype (opd_context opened.1))
    (documentShareStateFromEvents opened.2) userId);
  commit_unless_noop command opened.1 (srp_noop plan) (srp_event plan).
End service.
