(* ===== verification/DocumentSteps.v ===== *)
(** * DocumentSteps: the steps that the document service takes

    A command of [application/document-service.ts] reads for a while and then commits
    one batch.  This file says what such a batch is, as a relation between the store
    before and after it: an event that the document's life allows, with the reservations
    and the releases of unique values that the command decided on what it read, while
    others wrote.  [DocumentCalls] shows that every command takes such steps only, so
    that what the steps keep the service keeps. *)

From S2P Require Export Interference DocumentService.

(** ** What a store holds *)

(** The document that a stream folds to. *)
Definition doc_at (s : DocumentStore) (stream : jstr) : res (option DocumentSnapshot) :=
  foldDocument (stream_events (st_streams s) stream).

Lemma foldDocument_version_le events d :
  contiguous events → foldDocument events = Ok (Some d) → (ds_version d <= Z.of_nat (length events))%Z.
Proof.
  intros Hc. unfold foldDocument, foldDocumentFrom. cbn [mbind res_bind]. rewrite contiguous_sorted by done. intros E.
  assert (∀ e : DomainEvent, e ∈ events → (e_sequence e <= Z.of_nat (length events))%Z) as Hle.
  { intros e [i Hi]%list_elem_of_lookup. rewrite (Hc _ _ Hi). apply lookup_lt_Some in Hi. lia. }
  pose proof (foldl_res_inv (λ o, match o with Some d => (ds_version d <= Z.of_nat (length events))%Z | None => True end)
    foldDocumentStep None events (Some d) I) as Hinv. apply Hinv; [|done].
  clear Hinv E. intros a e a' He Ha. specialize (Hle e He). unfold foldDocumentStep, applyDocumentDataChange. intros E.
  destruct (e_payload e); destruct a as [a|]; cbn [mbind res_bind] in E;
    repeat first [progress inv_res | match goal with
      | E : (if ?b then _ else _) = Ok _ |- _ => destruct b
      | E : match ?v with VUndef => _ | _ => _ end = Ok _ |- _ => destruct v
      end]; cbn; done.
Qed.

(** What was read of a stream is what it still holds when the version read is its length. *)
Lemma read_unchanged s0 s stream existing :
  wf_streams (st_streams s0) → extends s0 s → doc_at s0 stream = Ok existing →
  Z.of_nat (length (stream_events (st_streams s) stream)) = version_of existing →
  stream_events (st_streams s0) stream = stream_events (st_streams s) stream.
Proof.
  intros Hwf Hex Hd Hl. destruct (Hex stream) as [tail Ht]. rewrite Ht in Hl |- *. rewrite length_app in Hl.
  assert (version_of existing <= Z.of_nat (length (stream_events (st_streams s0) stream)))%Z.
  { destruct existing as [d|]; cbn; [|lia]. apply foldDocument_version_le; [apply Hwf|done]. }
  assert (length tail = 0) as ->%nil_length_inv by lia. by rewrite app_nil_r.
Qed.

(** One more event. *)
Lemma doc_at_snoc s s' stream (event : NewDomainEvent) :
  wf_streams (st_streams s) → wf_streams (st_streams s') →
  log_of (st_streams s') stream = log_of (st_streams s) stream ++ [event] → extends s s' →
  doc_at s' stream = doc_at s stream ≫= λ d, foldDocumentStep d
    {| e_new := event; e_sequence := Z.of_nat (length (stream_events (st_streams s) stream)) + 1 |}.
Proof.
  intros [_ Hs] [_ Hs'] Hlog Hex. destruct (Hex stream) as [tail Ht]. unfold doc_at.
  unfold log_of in Hlog. rewrite Ht, fmap_app in Hlog. apply app_inv_head in Hlog.
  destruct tail as [|saved [|? ?]]; try done. injection Hlog as Hlog.
  destruct (Hs' stream) as [Hc _]. rewrite Ht in Hc |- *.
  assert (e_sequence saved = Z.of_nat (length (stream_events (st_streams s) stream)) + 1)%Z as Hseq.
  { rewrite (Hc (length (stream_events (st_streams s) stream)) saved); [lia|]. by rewrite lookup_app_r, Nat.sub_diag. }
  assert (saved = {| e_new := event; e_sequence := Z.of_nat (length (stream_events (st_streams s) stream)) + 1 |}) as ->
    by (destruct saved; cbn in *; congruence).
  unfold foldDocument, foldDocumentFrom. cbn [mbind res_bind]. rewrite (contiguous_sorted _ Hc).
  rewrite (contiguous_sorted _ (contiguous_app_inv _ _ Hc)). rewrite foldl_res_app.
  by destruct (foldl_res foldDocumentStep None _); [cbn; destruct (foldDocumentStep _ _)|].
Qed.

(** ** The life of a document *)

(** Whether a document in a status, or none, may take an event. *)
Definition event_allowed (status : option DocStatus) (p : payload) : bool :=
  match p, status with
  | PDocumentCreated _ docstatus, None => bool_decide (docstatus = Draft)
  | PDocumentUpdated _ _, Some (Draft | Submitted) => true
  | PWorkflowTransitioned _ _ _ _ _ _, Some Draft => isCurrentWorkflowTransitionPayload p
  | PDomainCommandApplied _ _ _ _, Some Draft => true
  | PDocumentSubmitted, Some Draft => true
  | PDocumentCancelled, Some Submitted => true
  | PDocumentDeleted, Some (Draft | Cancelled) => true
  | (PDocumentCommentAdded _ | PDocumentActivityRecorded _ _ _ _ _ | PDocumentAssigned _ | PDocumentUnassigned _
     | PDocumentTagged _ | PDocumentUntagged _ | PDocumentFollowed _ | PDocumentUnfollowed _
     | PDocumentShared _ _ | PDocumentShareRevoked _), Some (Draft | Submitted | Cancelled) => true
  | _, _ => false
  end.

(** The status after an event that is allowed. *)
Definition status_next (status : option DocStatus) (p : payload) : option DocStatus :=
  match p with
  | PDocumentCreated _ docstatus => Some docstatus
  | PDocumentSubmitted => Some Submitted
  | PDocumentCancelled => Some Cancelled
  | PDocumentDeleted => Some Deleted
  | _ => status
  end.

(** The status that a life ends in, or nothing when some event is not allowed. *)
Fixpoint life (status : option DocStatus) (events : list payload) : option (option DocStatus) :=
  match events with
  | [] => Some status
  | p :: events => if event_allowed status p then life (status_next status p) events else None
  end.

Lemma life_snoc status events p status' :
  life status events = Some status' → event_allowed status' p = true →
  life status (events ++ [p]) = Some (status_next status' p).
Proof.
  revert status. induction events as [|q events IH]; intros status; cbn; [by intros [= ->] ->|].
  destruct (event_allowed status q); [apply IH|done].
Qed.

Lemma event_status existing (event : DomainEvent) after :
  event_allowed (ds_docstatus <$> existing) (e_payload event) = true →
  foldDocumentStep existing event = Ok after →
  ∃ d, after = Some d ∧ status_next (ds_docstatus <$> existing) (e_payload event) = Some (ds_docstatus d) ∧
    ds_version d = e_sequence event ∧
    match existing with
    | Some e => ds_tenantId d = ds_tenantId e ∧ ds_doctype d = ds_doctype e ∧ ds_name d = ds_name e
    | None => ds_tenantId d = e_tenantId event ∧ ds_doctype d = e_doctype event ∧ ds_name d = e_documentName event
    end.
Proof.
  unfold foldDocumentStep, applyDocumentDataChange. destruct (e_payload event) eqn:Ep; destruct existing as [e|];
    cbn [fmap option_fmap option_map event_allowed]; intros Ha E; try done;
    try (destruct (ds_docstatus e); done);
    try (cbn [mbind res_bind] in E; repeat (progress inv_res); eexists; cbn; by split_and!; [done|destruct (ds_docstatus e)|..]).
  - step_ok E as d' Hd. injection E as <-. apply bool_decide_eq_true in Ha as ->. by eexists.
  - destruct (ds_docstatus e) eqn:Es; try done. rewrite Ha in E. cbn [negb] in E.
    destruct patch; try (unfold isCurrentWorkflowTransitionPayload in Ha; rewrite andb_false_r in Ha; done).
    step_ok E as p' Hp. injection E as <-. eexists. split_and!; [done|by cbn; congruence|done..].
Qed.

(** ** What the doctypes of an application promise *)

Definition INTERNAL_DOCTYPES : list jstr := [js "__NamingSeries"; js "__UniqueValues"; js "__AutomationRuns"].

(** A name that the validation of payloads accepts. *)
Definition named (s : jstr) : Prop := trim s ≠ [].

Record doctype_ok (doctype : DocTypeDefinition) : Prop := {
  dok_name : dt_name doctype ∉ INTERNAL_DOCTYPES;
  dok_fields : distinct_fields doctype;
  dok_colon : 58%N ∉ dt_name doctype;
  dok_field_colon : ∀ field, field ∈ dt_fields doctype → 58%N ∉ fd_name field;
  dok_rules : dt_automationRules doctype = None ∨
    ∃ doctype' limits given, normalizeAutomationRules doctype' (Some given) limits = Ok (dt_automationRules doctype);
  dok_workflows : ∀ w, w ∈ default [] (dt_workflows doctype) →
    named (nwd_name w) ∧ named (nwd_stateField w) ∧ ∀ t, t ∈ nwd_transitions w → named (nwt_action t)
}.

(** The document that a command is about. *)
Record Target := { tg_tenantId : jstr; tg_doctype : DocTypeDefinition; tg_name : jstr; tg_stream : jstr }.

Definition target_ok (target : Target) : Prop :=
  doctype_ok (tg_doctype target) ∧
  documentStream (tg_tenantId target) (dt_name (tg_doctype target)) (tg_name target) = Ok (tg_stream target).

Definition event_of (target : Target) (event : NewDomainEvent) : Prop :=
  e_stream event = tg_stream target ∧ e_tenantId event = tg_tenantId target ∧
  e_doctype event = dt_name (tg_doctype target) ∧ e_documentName event = tg_name target.

(** What an event makes of a document. *)
Definition effect (existing : option DocumentSnapshot) (event : NewDomainEvent) (d : data) (status : DocStatus) : Prop :=
  payloadIsJson (e_payload event) = true → ∀ n, ∃ after,
  foldDocumentStep existing {| e_new := event; e_sequence := n |} = Ok (Some after) ∧
  ds_data after = d ∧ ds_docstatus after = status.

(** ** Steps *)

Section steps.
Context `{NamingHost} (inv : DocumentStore → Prop) (good : jstr → DocTypeDefinition → Prop).

Abbreviation before := (once extends inv).

(** A document was read from a stream. *)
Definition seen (stream : jstr) (existing : option DocumentSnapshot) : DocumentStore → Prop :=
  before (λ s, doc_at s stream = Ok existing).

(** A reservation was free to take: nobody owned the value, or its owner did not hold
    it any more. *)
Definition free_to_take (r : UniqueValueReservation) (existing : option DocumentSnapshot) (s : DocumentStore) : Prop :=
  match activeUniqueValueOwner existing with
  | None => True
  | Some owner => owner ≠ uvr_documentName r ∧ ∃ stream d,
      documentStream (uvr_tenantId r) (uvr_doctype r) owner = Ok stream ∧ doc_at s stream = Ok d ∧
      uniqueReservationOwnerStillOwnsValue nh_number r d = Ok false
  end.

(** The decision on a reservation: it was the document's already, when [known] held,
    or it was free to take after it was read. *)
Definition reservation_decided (known : DocumentStore → Prop) (r : UniqueValueReservation)
    (planned : option (UniqueValueReservation * option DocumentSnapshot)) (s : DocumentStore) : Prop :=
  match planned with
  | None => before (λ s0, known s0 ∧ ∃ e, doc_at s0 (uvr_stream r) = Ok e ∧
      activeUniqueValueOwner e = Some (uvr_documentName r)) s
  | Some (r', e) => r' = r ∧ before (λ s0, seen (uvr_stream r) e s0 ∧ free_to_take r e s0) s
  end.

(** The decision on a release. *)
Definition release_decided (known : DocumentStore → Prop) (r : UniqueValueReservation)
    (planned : option AtomicUniqueReleaseWrite) (s : DocumentStore) : Prop :=
  match planned with
  | None => before (λ s0, known s0 ∧ ∃ e, doc_at s0 (uvr_stream r) = Ok e ∧
      activeUniqueValueOwner e ≠ Some (uvr_documentName r)) s
  | Some w => alw_reservation w = r ∧ seen (uvr_stream r) (Some (alw_existing w)) s ∧
      activeUniqueValueOwner (Some (alw_existing w)) = Some (uvr_documentName r) ∧
      e_stream (alw_event w) = uvr_stream r ∧ e_payload (alw_event w) = uvp_payload (planUniqueValueReleaseEvent r)
  end.

Definition reservation_written (planned : UniqueValueReservation * option DocumentSnapshot)
    (w : AtomicUniqueReservationWrite) : Prop :=
  arw_reservation w = planned.1 ∧ arw_existing w = planned.2 ∧ e_stream (arw_event w) = uvr_stream planned.1 ∧
  e_payload (arw_event w) = uvp_payload (planUniqueValueReservationEvent planned.1 planned.2).

(** The reservations of a document, and none when there is no document. *)
Definition live_reservations (target : Target) (name : jstr) (document : option DocumentSnapshot)
    (rs : list UniqueValueReservation) : Prop :=
  match document with
  | Some d => if bool_decide (ds_docstatus d = Deleted) then rs = []
      else uniqueValueReservations nh_number (tg_tenantId target) (tg_doctype target) (ds_data d) name = Ok rs
  | None => rs = []
  end.

(** The writes of a command that moves reservations. *)
Inductive moves (target : Target) (existing after : option DocumentSnapshot) (s : DocumentStore) :
    list AtomicUniqueReservationWrite → list AtomicUniqueReleaseWrite → Prop :=
| unique_moved name old next planned writes released :
    name = match existing with Some e => ds_name e | None => tg_name target end →
    live_reservations target name existing old → live_reservations target name after next →
    Forall2 (λ r p, reservation_decided (seen (tg_stream target) existing) r p s) next planned →
    Forall2 reservation_written (omap id planned) writes →
    Forall2 (λ r p, release_decided (seen (tg_stream target) existing) r p s)
      (releasedUniqueValueReservations old next) released →
    moves target existing after s writes (omap id released).

Lemma moves_inv target existing after s writes releases :
  moves target existing after s writes releases →
  let name := match existing with Some e => ds_name e | None => tg_name target end in
  ∃ old next planned released,
    live_reservations target name existing old ∧ live_reservations target name after next ∧
    Forall2 (λ r p, reservation_decided (seen (tg_stream target) existing) r p s) next planned ∧
    Forall2 reservation_written (omap id planned) writes ∧
    Forall2 (λ r p, release_decided (seen (tg_stream target) existing) r p s)
      (releasedUniqueValueReservations old next) released ∧ releases = omap id released.
Proof using Type. intros [name old next planned writes' released -> ? ? ? ? ?]. by exists old, next, planned, released. Qed.

(** What a command does with the reservations: it moves them, or the document keeps its
    data. *)
Definition unique_change (target : Target) (existing after : option DocumentSnapshot) (s : DocumentStore)
    (writes : list AtomicUniqueReservationWrite) (releases : list AtomicUniqueReleaseWrite) : Prop :=
  moves target existing after s writes releases ∨
  writes = [] ∧ releases = [] ∧ ∃ e a, existing = Some e ∧ after = Some a ∧ ds_data a = ds_data e ∧
    ds_docstatus e ≠ Deleted ∧ ds_docstatus a ≠ Deleted.

Definition series_of (target : Target) (series : option AtomicNamingSeriesWrite) : Prop :=
  match series with
  | Some w => e_stream (anw_event w) = anw_stream w ∧ ∃ counter scope,
      namingSeriesStream (tg_tenantId target) (dt_name (tg_doctype target)) counter scope = Ok (anw_stream w)
  | None => True
  end.

Definition runs_of (target : Target) (runs : list AppendEntry) : Prop :=
  batch_ok runs ∧ ∀ entry, entry ∈ runs → ∃ id, automationRunStream (tg_tenantId target) id = Ok (ae_stream entry).

Definition step_entries (target : Target) (existing : option DocumentSnapshot) (event : NewDomainEvent)
    (series : option AtomicNamingSeriesWrite) (writes : list AtomicUniqueReservationWrite)
    (releases : list AtomicUniqueReleaseWrite) (runs : list AppendEntry) : list AppendEntry :=
  documentAtomicCommitEntries series writes releases (tg_stream target) (version_of existing) event ++ runs.

(** A batch that passed the checks of the store and was written. *)
Definition appended (entries : list AppendEntry) (s s' : DocumentStore) : Prop :=
  batch_ok entries ∧ check_entries (st_streams s) entries = Ok tt ∧
  ∃ saved, batch_written entries saved (st_streams s) (st_streams s').

(** One commit of a command. *)
Inductive document_step (s s' : DocumentStore) : Prop :=
| DocumentStep target existing event after series writes releases runs :
    good (tg_tenantId target) (tg_doctype target) → target_ok target → event_of target event →
    doc_at s (tg_stream target) = Ok existing →
    event_allowed (ds_docstatus <$> existing) (e_payload event) = true →
    doc_at s' (tg_stream target) = Ok (Some after) →
    unique_change target existing (Some after) s writes releases →
    series_of target series → runs_of target runs →
    appended (step_entries target existing event series writes releases runs) s s' →
    document_step s s'.

(** ** The entries of a step *)

(** The reservations that a step writes. *)
Definition step_reservations (writes : list AtomicUniqueReservationWrite) (releases : list AtomicUniqueReleaseWrite)
    : list UniqueValueReservation := (arw_reservation <$> writes) ++ (alw_reservation <$> releases).

Lemma omap_sublist {A B} (f : B → A) (l : list A) (ps : list (option B)) (P : A → option B → Prop) :
  Forall2 P l ps → (∀ x p, P x (Some p) → f p = x) → sublist (f <$> omap id ps) l.
Proof using Type.
  intros HF Hf. induction HF as [|x p l ps Hp _ IH]; cbn; [constructor|].
  destruct p as [p|]; cbn; [rewrite (Hf _ _ Hp)|]; by constructor.
Qed.

Lemma written_reservations planned writes :
  Forall2 reservation_written planned writes → arw_reservation <$> writes = fst <$> planned.
Proof using Type. induction 1 as [|p w ps ws (E & _) _ IH]; cbn; [done|]. by rewrite E, IH. Qed.

Section entries.
Context (target : Target) (Hok : target_ok target).

Lemma live_reservations_elem name document rs r :
  live_reservations target name document rs → r ∈ rs →
  ∃ d, document = Some d ∧ ds_docstatus d ≠ Deleted ∧
    reservation_of nh_number (tg_tenantId target) (tg_doctype target) (ds_data d) name r.
Proof using Type.
  unfold live_reservations. destruct document as [d|]; [case_bool_decide|]; [intros -> ?%elem_of_nil; done| |by intros -> ?%elem_of_nil].
  intros E Hr. exists d. split_and!; [done|done|]. by eapply reservations_elem.
Qed.

Lemma reservation_colon d name r :
  reservation_of nh_number (tg_tenantId target) (tg_doctype target) d name r →
  58%N ∉ dt_name (tg_doctype target) ∧ 58%N ∉ uvr_field r.
Proof using Hok.
  intros (_ & _ & _ & _ & (field & Hf & _ & <- ) & _). split; [apply Hok|]. by eapply dok_field_colon; [apply Hok|].
Qed.

(** Two reservations of the document on one stream are of one field and value. *)
Lemma reservation_stream_same d1 name1 r1 d2 name2 r2 :
  reservation_of nh_number (tg_tenantId target) (tg_doctype target) d1 name1 r1 →
  reservation_of nh_number (tg_tenantId target) (tg_doctype target) d2 name2 r2 →
  uvr_stream r1 = uvr_stream r2 → uvr_field r1 = uvr_field r2 ∧ uvr_valueKey r1 = uvr_valueKey r2.
Proof using Hok.
  intros H1 H2 E. destruct (reservation_colon _ _ _ H1) as [Hd Hf1]. destruct (reservation_colon _ _ _ H2) as [_ Hf2].
  destruct H1 as (_ & _ & _ & Hs1 & _). destruct H2 as (_ & _ & _ & Hs2 & _). rewrite E in Hs1.
  by destruct (uniqueValueStream_same _ _ _ _ _ _ _ _ _ Hd Hf1 Hd Hf2 Hs1 Hs2) as (_ & _ & ? & ?).
Qed.

Lemma live_reservations_streams name document rs :
  live_reservations target name document rs → NoDup (uvr_stream <$> rs).
Proof using Hok.
  intros Hl. pose proof (λ r, live_reservations_elem _ _ _ r Hl) as Hin.
  assert (NoDup (uvr_field <$> rs)) as Hnd.
  { unfold live_reservations in Hl. destruct document as [d|]; [case_bool_decide|]; [subst; constructor| |subst; constructor].
    eapply reservations_fields; [apply Hok|done]. }
  clear Hl. induction rs as [|r rs IH]; cbn in *; [constructor|]. apply NoDup_cons in Hnd as [Hnin Hnd].
  apply NoDup_cons. split; [|apply IH; [intros x Hx; apply Hin; by right|done]].
  intros (r' & Hs & Hr')%list_elem_of_fmap. apply Hnin, list_elem_of_fmap. exists r'. split; [|done].
  destruct (Hin r) as (d & _ & _ & H1); [by left|]. destruct (Hin r') as (d' & _ & _ & H2); [by right|].
  by destruct (reservation_stream_same _ _ _ _ _ _ H1 H2 Hs).
Qed.

(** The reservations that a step writes have streams of their own. *)
Lemma moves_streams existing after s writes releases :
  moves target existing after s writes releases →
  NoDup (uvr_stream <$> step_reservations writes releases) ∧
  ∀ r, r ∈ step_reservations writes releases → ∃ d name,
    reservation_of nh_number (tg_tenantId target) (tg_doctype target) d name r.
Proof using Hok.
  intros [name old next planned writes' released _ Hold Hnext Hplanned Hwritten Hreleased].
  assert ((arw_reservation <$> writes') `sublist_of` next) as Hw.
  { rewrite (written_reservations _ _ Hwritten). eapply omap_sublist; [exact Hplanned|]. by intros x [r e] [-> _]. }
  assert ((alw_reservation <$> omap id released) `sublist_of` releasedUniqueValueReservations old next) as Hr.
  { eapply omap_sublist; [exact Hreleased|]. by intros x w (-> & _). }
  unfold step_reservations. split.
  - rewrite fmap_app. apply NoDup_app. split_and!.
    + eapply sublist_NoDup; [|by apply fmap_sublist]. by eapply live_reservations_streams.
    + intros st (r & -> & Hr1)%list_elem_of_fmap (r' & Est & Hr2)%list_elem_of_fmap.
      pose proof (elem_of_sublist _ _ _ Hr1 Hw) as Hr1'. pose proof (elem_of_sublist _ _ _ Hr2 Hr) as Hr2'.
      unfold releasedUniqueValueReservations in Hr2'. apply list_elem_of_filter in Hr2' as [Hnk Hr2'].
      destruct (live_reservations_elem _ _ _ _ Hnext Hr1') as (d1 & _ & _ & H1).
      destruct (live_reservations_elem _ _ _ _ Hold Hr2') as (d2 & _ & _ & H2).
      apply Hnk, list_elem_of_fmap. exists r. split; [|done]. unfold uniqueValueReservationKey. rewrite Est.
      destruct H1 as (_ & _ & -> & _). destruct H2 as (_ & _ & -> & _). done.
    + eapply sublist_NoDup; [|apply fmap_sublist; exact Hr]. unfold releasedUniqueValueReservations.
      eapply sublist_NoDup; [|apply fmap_sublist, sublist_filter]. by eapply live_reservations_streams.
  - intros r [Hr1|Hr2]%elem_of_app.
    + apply (elem_of_sublist _ _ _) with (2 := Hw) in Hr1. destruct (live_reservations_elem _ _ _ _ Hnext Hr1) as (d & _ & _ & ?).
      by exists (ds_data d), name.
    + apply (elem_of_sublist _ _ _) with (2 := Hr) in Hr2. apply list_elem_of_filter in Hr2 as [_ Hr2].
      destruct (live_reservations_elem _ _ _ _ Hold Hr2) as (d & _ & _ & ?). by exists (ds_data d), name.
Qed.

Lemma moves_events existing after s writes releases :
  moves target existing after s writes releases →
  (∀ w, w ∈ writes → e_stream (arw_event w) = uvr_stream (arw_reservation w)) ∧
  (∀ w, w ∈ releases → e_stream (alw_event w) = uvr_stream (alw_reservation w)).
Proof using Type.
  intros [name old next planned writes' released _ _ _ _ Hwritten Hreleased]. split.
  - intros w [i Hi]%list_elem_of_lookup. destruct (Forall2_lookup_r _ _ _ _ _ Hwritten Hi) as (p & _ & -> & _ & -> & _). done.
  - intros w [[p|] [Hw Hp]]%list_elem_of_omap; [|done]. cbn in Hp. injection Hp as ->.
    apply list_elem_of_lookup in Hw as [i Hi]. destruct (Forall2_lookup_r _ _ _ _ _ Hreleased Hi) as (r & _ & -> & _ & _ & -> & _).
    done.
Qed.

(** A step writes each of its streams once. *)
Definition in_doctype (doctypeName stream : jstr) : Prop := ∃ t n, documentStream t doctypeName n = Ok stream.

Lemma in_doctype_same d d' stream : in_doctype d stream → in_doctype d' stream → d = d'.
Proof using Type. intros (t & n & E) (t' & n' & E'). by destruct (documentStream_same _ _ _ _ _ _ _ E E') as (_ & -> & _). Qed.

Lemma step_entries_streams existing event series writes releases runs :
  entry_streams (step_entries target existing event series writes releases runs) =
  ((λ w, anw_stream w) <$> option_list series) ++ (uvr_stream <$> step_reservations writes releases) ++
  [tg_stream target] ++ entry_streams runs.
Proof using Type.
  unfold step_entries, documentAtomicCommitEntries, entry_streams, step_reservations. rewrite !fmap_app, <-!list_fmap_compose.
  rewrite <-!app_assoc. by destruct series.
Qed.

Lemma step_entries_ok existing after event s series writes releases runs :
  event_of target event → unique_change target existing after s writes releases →
  series_of target series → runs_of target runs →
  batch_ok (step_entries target existing event series writes releases runs).
Proof using Hok.
  intros (Hev & _) Hu Hseries [[Hrn Hre] Hruns].
  assert (NoDup (uvr_stream <$> step_reservations writes releases) ∧
    (∀ r, r ∈ step_reservations writes releases → in_doctype (js "__UniqueValues") (uvr_stream r)) ∧
    (∀ w, w ∈ writes → e_stream (arw_event w) = uvr_stream (arw_reservation w)) ∧
    (∀ w, w ∈ releases → e_stream (alw_event w) = uvr_stream (alw_reservation w))) as (Hnd & Hin & Hw & Hr).
  { destruct Hu as [Hm|(-> & -> & _)]; [|split_and!; [constructor|by intros ? ?%elem_of_nil..]].
    destruct (moves_streams _ _ _ _ _ Hm) as [Hnd Hin]. destruct (moves_events _ _ _ _ _ Hm) as [Hw Hr]. split_and!; [done| |done..].
    intros r Hrr. destruct (Hin r Hrr) as (d & n & _ & _ & _ & Hs & _). unfold uniqueValueStream in Hs. by eexists _, _. }
  assert (in_doctype (dt_name (tg_doctype target)) (tg_stream target)) as Hdoc by (eexists _, _; apply Hok).
  assert (∀ st, st ∈ entry_streams runs → in_doctype (js "__AutomationRuns") st) as Hrunst.
  { intros st (en & -> & Hen)%list_elem_of_fmap. destruct (Hruns en Hen) as [id Hid]. by eexists _, _. }
  assert (∀ st, st ∈ uvr_stream <$> step_reservations writes releases → in_doctype (js "__UniqueValues") st) as Hres.
  { intros st (r & -> & Hrr)%list_elem_of_fmap. by apply Hin. }
  assert (∀ st, st ∈ (λ w, anw_stream w) <$> option_list series → in_doctype (js "__NamingSeries") st) as Hser.
  { intros st (w & -> & Hws)%list_elem_of_fmap. destruct series as [w'|]; [|by apply elem_of_nil in Hws].
    apply list_elem_of_singleton in Hws as ->. destruct Hseries as (_ & c & sc & Hs). by eexists _, _. }
  pose proof (dok_name _ (proj1 Hok)) as Hname. split.
  - rewrite step_entries_streams. apply NoDup_app. split_and!.
    { destruct series; cbn; [apply NoDup_singleton|constructor]. }
    { intros st Hst1 [Hst2|[->%list_elem_of_singleton|Hst2]%elem_of_app]%elem_of_app.
      - by pose proof (in_doctype_same _ _ _ (Hser _ Hst1) (Hres _ Hst2)).
      - pose proof (in_doctype_same _ _ _ (Hser _ Hst1) Hdoc) as E. apply Hname. rewrite <-E. by left.
      - by pose proof (in_doctype_same _ _ _ (Hser _ Hst1) (Hrunst _ Hst2)). }
    apply NoDup_app. split_and!; [done| |].
    { intros st Hst1 [->%list_elem_of_singleton|Hst2]%elem_of_app.
      - pose proof (in_doctype_same _ _ _ (Hres _ Hst1) Hdoc) as E. apply Hname. rewrite <-E. by right; left.
      - by pose proof (in_doctype_same _ _ _ (Hres _ Hst1) (Hrunst _ Hst2)). }
    apply NoDup_app. split_and!; [apply NoDup_singleton| |done].
    intros st ->%list_elem_of_singleton Hst2. pose proof (in_doctype_same _ _ _ Hdoc (Hrunst _ Hst2)) as E.
    apply Hname. rewrite E. by right; right; left.
  - unfold step_entries, documentAtomicCommitEntries. intros entry Hen ev Hevs. rewrite !elem_of_app in Hen.
    destruct Hen as [[Hen|[(w & -> & Hww)%list_elem_of_fmap|[(w & -> & Hww)%list_elem_of_fmap| ->%list_elem_of_singleton]]]|Hen].
    + destruct series as [w|]; [|by apply elem_of_nil in Hen]. apply list_elem_of_singleton in Hen as ->.
      apply list_elem_of_singleton in Hevs as ->. apply Hseries.
    + apply list_elem_of_singleton in Hevs as ->. by apply Hw.
    + apply list_elem_of_singleton in Hevs as ->. by apply Hr.
    + by apply list_elem_of_singleton in Hevs as ->.
    + by eapply Hre.
Qed.

(** A step writes no other document than its own. *)
Lemma step_elsewhere existing after event s series writes releases runs d stream :
  unique_change target existing after s writes releases → series_of target series → runs_of target runs →
  in_doctype d stream → d ∉ INTERNAL_DOCTYPES → stream ≠ tg_stream target →
  stream ∉ entry_streams (step_entries target existing event series writes releases runs).
Proof using Hok.
  intros Hu Hseries [_ Hruns] Hd Hint Hne. rewrite step_entries_streams, !elem_of_app.
  intros [(w & -> & Hw)%list_elem_of_fmap|[(r & -> & Hr)%list_elem_of_fmap|[->%list_elem_of_singleton|(en & -> & Hen)%list_elem_of_fmap]]].
  - destruct series as [w'|]; [|by apply elem_of_nil in Hw]. apply list_elem_of_singleton in Hw as ->.
    destruct Hseries as (_ & c & sc & Hs). apply Hint. rewrite (in_doctype_same d (js "__NamingSeries") _ Hd); [by left|]. by eexists _, _.
  - destruct Hu as [Hm|(-> & -> & _)]; [|by apply elem_of_nil in Hr].
    destruct (proj2 (moves_streams _ _ _ _ _ Hm) r Hr) as (d' & n & _ & _ & _ & Hs & _).
    apply Hint. rewrite (in_doctype_same d (js "__UniqueValues") _ Hd); [by right; left|]. by eexists _, _.
  - done.
  - destruct (Hruns en Hen) as [id Hid]. apply Hint. rewrite (in_doctype_same d (js "__AutomationRuns") _ Hd); [by right; right; left|].
    by eexists _, _.
Qed.
End entries.

(** ** Commits *)

Section commits.
Context (Hwf : ∀ s, inv s → wf_streams (st_streams s)).

(** What was read before a commit that passes its check, still holds, and held at every
    time in between. *)
Lemma seen_still s stream existing :
  seen stream existing s → Z.of_nat (length (stream_events (st_streams s) stream)) = version_of existing →
  doc_at s stream = Ok existing.
Proof using Hwf.
  intros (s0 & Hi & Hg & Hd) Hl. unfold doc_at. by rewrite <-(read_unchanged s0 s stream existing (Hwf _ Hi) Hg Hd Hl).
Qed.

Lemma seen_between s0 s stream existing :
  inv s0 → extends s0 s → seen stream existing s0 →
  Z.of_nat (length (stream_events (st_streams s) stream)) = version_of existing →
  stream_events (st_streams s0) stream = stream_events (st_streams s) stream.
Proof using Hwf.
  intros Hi Hg (s1 & Hi1 & Hg1 & Hd) Hl.
  pose proof (read_unchanged s1 s stream existing (Hwf _ Hi1) (transitivity Hg1 Hg) Hd Hl) as E.
  apply prefix_length_eq; [apply Hg|]. rewrite <-E. apply prefix_length, Hg1.
Qed.

Lemma commit_step target existing event d status series writes releases runs project s r s' :
  inv s → good (tg_tenantId target) (tg_doctype target) → target_ok target → event_of target event →
  event_allowed (ds_docstatus <$> existing) (e_payload event) = true → effect existing event d status →
  (Z.of_nat (length (stream_events (st_streams s) (tg_stream target))) = version_of existing →
    seen (tg_stream target) existing s ∧
    ∀ after, ds_data after = d → ds_docstatus after = status → unique_change target existing (Some after) s writes releases) →
  series_of target series → runs_of target runs →
  commitBatch (step_entries target existing event series writes releases runs) project s = (r, s') →
  st_streams s' = st_streams s ∨ document_step s s'.
Proof using Hwf.
  intros Hi Hgood Hok Hev Hal Heff HQ Hseries Hruns Hc.
  set (entry := {| ae_stream := tg_stream target; ae_expectedVersion := version_of existing; ae_events := [event] |}).
  assert (entry ∈ step_entries target existing event series writes releases runs) as Hen.
  { unfold step_entries, documentAtomicCommitEntries. rewrite !elem_of_app. left. right. right. right. by left. }
  destruct (check_entries (st_streams s) (step_entries target existing event series writes releases runs)) as [[]|err] eqn:Hck.
  2:{ left. unfold commitBatch in Hc. rewrite m_bind_run in Hc. unfold m_get in Hc. rewrite m_bind_run in Hc.
      unfold m_lift at 1 in Hc. rewrite Hck in Hc. by injection Hc as _ <-. }
  pose proof (proj1 (check_entries_ok _ _ _) Hck entry Hen) as Hlen. cbn in Hlen. destruct (HQ Hlen) as [Hseen Hu].
  assert (batch_ok (step_entries target existing event series writes releases runs)) as Hb.
  { eapply step_entries_ok; [done|done| |done|done].
    apply (Hu {| ds_tenantId := []; ds_doctype := []; ds_name := []; ds_version := 0; ds_docstatus := status; ds_data := d;
                 ds_createdAt := []; ds_updatedAt := [] |}); done. }
  destruct (commitBatch_written _ _ _ _ _ (Hwf _ Hi) Hb Hc) as [?|(saved & _ & Hwr)]; [by left|right].
  pose proof (seen_still _ _ _ Hseen Hlen) as Hd. pose proof Hwr as (Hwf' & Hin & _).
  destruct (Hin entry Hen) as [_ Hlog]. cbn in Hlog.
  assert (extends s s') as Hex by (intros stream; by eapply batch_written_prefix).
  pose proof (doc_at_snoc s s' _ event (Hwf _ Hi) Hwf' Hlog Hex) as Hd'. rewrite Hd in Hd'. cbn [mbind res_bind] in Hd'.
  assert (payloadIsJson (e_payload event) = true) as Hj.
  { destruct Hwf' as [_ Hs']. destruct (Hs' (tg_stream target)) as [_ Hjson].
    assert (event ∈ log_of (st_streams s') (tg_stream target)) as (saved' & -> & Hs)%list_elem_of_fmap
      by (rewrite Hlog; apply elem_of_app; right; by left).
    destruct (Hjson _ Hs) as [_ Hj]. by apply andb_prop in Hj as [? _]. }
  destruct (Heff Hj (Z.of_nat (length (stream_events (st_streams s) (tg_stream target))) + 1)%Z) as (after & Ha & Hda & Hst).
  rewrite Ha in Hd'. econstructor; [done..|by apply Hu|done|done|].
  split_and!; [done|done|by exists saved].
Qed.

Context (env : nat → DocumentStore → DocumentStore) `{Henv : !Lawful env extends inv}.
Context (Hinv : ∀ s s', inv s → st_streams s' = st_streams s → inv s').
Context (Hstep : ∀ s s', inv s → document_step s s' → inv s').

(** The event is written after the events that the command counted on. *)
Definition logged (target : Target) (existing : option DocumentSnapshot) (event : NewDomainEvent) (s' : DocumentStore) : Prop :=
  ∃ s, inv s ∧ extends s s' ∧ Z.of_nat (length (stream_events (st_streams s) (tg_stream target))) = version_of existing ∧
    log_of (st_streams s') (tg_stream target) = log_of (st_streams s) (tg_stream target) ++ [event].

Lemma document_step_extends s s' : st_streams s' = st_streams s ∨ document_step s s' → extends s s'.
Proof using Type.
  intros [E|[???????? _ _ _ _ _ _ _ _ _ (_ & _ & saved & Hwr)]] stream; [by rewrite E|by eapply batch_written_prefix].
Qed.

Lemma commit_logged target existing event series writes releases runs_ project s commit s' :
  inv s →
  (Z.of_nat (length (stream_events (st_streams s) (tg_stream target))) = version_of existing →
   batch_ok (step_entries target existing event series writes releases runs_)) →
  commitBatch (step_entries target existing event series writes releases runs_) project s = (Ok commit, s') →
  logged target existing event s'.
Proof using Hwf.
  intros Hi Hb Hc.
  set (entry := {| ae_stream := tg_stream target; ae_expectedVersion := version_of existing; ae_events := [event] |}).
  assert (entry ∈ step_entries target existing event series writes releases runs_) as Hen.
  { unfold step_entries, documentAtomicCommitEntries. rewrite !elem_of_app. left. right. right. right. by left. }
  destruct (check_entries (st_streams s) (step_entries target existing event series writes releases runs_)) as [[]|err] eqn:Hck.
  2:{ unfold commitBatch in Hc. rewrite m_bind_run in Hc. unfold m_get in Hc. rewrite m_bind_run in Hc.
      unfold m_lift at 1 in Hc. by rewrite Hck in Hc. }
  pose proof (proj1 (check_entries_ok _ _ _) Hck entry Hen) as Hlen. specialize (Hb Hlen).
  pose proof (commitBatch_cases _ project _ (Hwf _ Hi) Hb) as Hcases. rewrite Hc in Hcases.
  destruct Hcases as (p & _ & _ & _ & Hwr & _). exists s. split_and!; [done|intros stream; by eapply batch_written_prefix|done|].
  destruct Hwr as (_ & Hin & _). apply (Hin entry Hen).
Qed.

(** The commit of a command, in the logic of calls. *)
Lemma runs_commit_logged K target existing event d status series writes releases runs_ project :
  Stable extends inv K → good (tg_tenantId target) (tg_doctype target) → target_ok target → event_of target event →
  event_allowed (ds_docstatus <$> existing) (e_payload event) = true → effect existing event d status →
  series_of target series → runs_of target runs_ →
  (∀ s, inv s → K s → Z.of_nat (length (stream_events (st_streams s) (tg_stream target))) = version_of existing →
    seen (tg_stream target) existing s ∧
    ∀ after, ds_data after = d → ds_docstatus after = status → unique_change target existing (Some after) s writes releases) →
  runs extends inv K (update env (commitBatch (step_entries target existing event series writes releases runs_) project))
    (λ _, logged target existing event).
Proof using Hwf Henv Hinv Hstep.
  intros HK Hgood Hok Hev Hal Heff Hseries Hruns HQ. eapply runs_update; [apply _|done|exact HK|]. intros s Hi Hs.
  destruct (commitBatch _ project s) as [r s'] eqn:Hc.
  pose proof (commit_step _ _ _ _ _ _ _ _ _ _ _ _ _ Hi Hgood Hok Hev Hal Heff (HQ s Hi Hs) Hseries Hruns Hc) as Hcases.
  split_and!; [destruct Hcases as [E|Hst]; [by eapply Hinv|exact (Hstep _ _ Hi Hst)]|by eapply document_step_extends|].
  intros commit ->. eapply commit_logged; [exact Hi| |exact Hc]. intros Hl. destruct (HQ s Hi Hs Hl) as [_ Hu].
  eapply step_entries_ok; [done|done| |done|done].
  apply (Hu {| ds_tenantId := []; ds_doctype := []; ds_name := []; ds_version := 0; ds_docstatus := status; ds_data := d;
               ds_createdAt := []; ds_updatedAt := [] |}); done.
Qed.

(** Without what it establishes. *)
Lemma runs_commit K target existing event d status series writes releases runs_ project :
  Stable extends inv K → good (tg_tenantId target) (tg_doctype target) → target_ok target → event_of target event →
  event_allowed (ds_docstatus <$> existing) (e_payload event) = true → effect existing event d status →
  series_of target series → runs_of target runs_ →
  (∀ s, inv s → K s → Z.of_nat (length (stream_events (st_streams s) (tg_stream target))) = version_of existing →
    seen (tg_stream target) existing s ∧
    ∀ after, ds_data after = d → ds_docstatus after = status → unique_change target existing (Some after) s writes releases) →
  runs extends inv K (update env (commitBatch (step_entries target existing event series writes releases runs_) project))
    (λ _ _, True).
Proof using Hwf Henv Hinv Hstep. intros. eapply runs_mono; [by eapply runs_commit_logged|done|done]. Qed.
End commits.
End steps.
