(* ===== verification/DocumentBulk.v ===== *)
(** * DocumentBulk: one command on many documents

    Models [application/document-bulk-policy.ts] and the bulk commands of
    [application/document-service.ts]: the documents are taken one after the other, and
    what fails on one does not stop the others. *)

From S2P Require Export DocumentService.

Definition MAX_BULK_DOCUMENTS : nat := 100.

Record BulkDocumentSelection := { bds_name : jstr; bds_expectedVersion : option num }.

Record BulkDocumentsCommand := {
  bdc_actor : Actor;
  bdc_doctype : jstr;
  bdc_documents : list BulkDocumentSelection;
  bdc_tenantId : option jstr;
  bdc_metadata : option data
}.

(** A selection that was accepted. *)
Record NormalizedSelection := { nsl_name : jstr; nsl_expectedVersion : option Z }.

(** One document of [normalizeBulkDocumentSelections]; [seen] are the names before it. *)
Definition normalize_selection (seen : list jstr) (document : BulkDocumentSelection) : res NormalizedSelection :=
  let name := trim (bds_name document) in
  _ ← ensure (negb (bool_decide (name = []))) badRequest;
  _ ← ensure (negb (bool_decide (name ∈ seen))) badRequest;
  expectedVersion ← match bds_expectedVersion document with
    | None => Ok None
    | Some v => match num_to_Z v with Some z => Ok (Some z) | None => Throw badRequest end
    end;
  Ok {| nsl_name := name; nsl_expectedVersion := expectedVersion |}.

Fixpoint normalize_selections (seen : list jstr) (documents : list BulkDocumentSelection) : res (list NormalizedSelection) :=
  match documents with
  | [] => Ok []
  | document :: documents =>
      selection ← normalize_selection seen document;
      rest ← normalize_selections (nsl_name selection :: seen) documents;
      Ok (selection :: rest)
  end.

(** [normalizeBulkDocumentSelections(documents)]. *)
Definition normalizeBulkDocumentSelections (documents : list BulkDocumentSelection) : res (list NormalizedSelection) :=
  _ ← ensure (negb (bool_decide (documents = []))) badRequest;
  _ ← ensure (length documents <=? MAX_BULK_DOCUMENTS) badRequest;
  normalize_selections [] documents.

Record BulkDocumentCommandEntry := { bde_name : jstr; bde_snapshot : DocumentSnapshot }.

(** [BulkDocumentCommandFailure]; no code is UNKNOWN. *)
Record BulkDocumentCommandFailure := { bdf_name : jstr; bdf_code : option FrameworkErrorCode; bdf_status : Z }.

Record BulkDocumentCommandResult := {
  bdr_succeeded : list BulkDocumentCommandEntry;
  bdr_failed : list BulkDocumentCommandFailure
}.

(** [bulkDocumentFailure(name, error)]. *)
Definition bulkDocumentFailure (name : jstr) (e : error) : BulkDocumentCommandFailure :=
  match e with
  | FrameworkError PLAIN_ERROR _ => {| bdf_name := name; bdf_code := None; bdf_status := 500 |}
  | FrameworkError code status => {| bdf_name := name; bdf_code := Some code; bdf_status := status |}
  end.

(** [bulkDocumentSelectionSuccess(selection, snapshot)]. *)
Definition bulkDocumentSelectionSuccess (selection : NormalizedSelection) (snapshot : DocumentSnapshot)
    : BulkDocumentCommandEntry := {| bde_name := nsl_name selection; bde_snapshot := snapshot |}.

(** [bulkNamedCommand(command, selection)]. *)
Definition bulkNamedCommand (command : BulkDocumentsCommand) (selection : NormalizedSelection) : DocumentCommand :=
  {| dcm_actor := bdc_actor command; dcm_doctype := bdc_doctype command; dcm_name := nsl_name selection;
     dcm_tenantId := bdc_tenantId command; dcm_expectedVersion := nsl_expectedVersion selection;
     dcm_metadata := Some (default [] (bdc_metadata command)) |}.

Section bulk.
Context {S : Type} (run : NormalizedSelection → M (Client S) DocumentSnapshot).

(** What [runBulkDocumentCommand] makes of one selection. *)
Definition run_selection (selection : NormalizedSelection)
    : M (Client S) (BulkDocumentCommandEntry + BulkDocumentCommandFailure) :=
  catching (snapshot ← run selection; mret (inl (bulkDocumentSelectionSuccess selection snapshot)))
    (λ e, mret (inr (bulkDocumentFailure (nsl_name selection) e))).

(** The loop of [runBulkDocumentSelections]. *)
Fixpoint run_selections (selections : list NormalizedSelection) (result : BulkDocumentCommandResult)
    : M (Client S) BulkDocumentCommandResult :=
  match selections with
  | [] => mret result
  | selection :: selections =>
      outcome ← run_selection selection;
      run_selections selections (match outcome with
        | inl entry => {| bdr_succeeded := bdr_succeeded result ++ [entry]; bdr_failed := bdr_failed result |}
        | inr failure => {| bdr_succeeded := bdr_succeeded result; bdr_failed := bdr_failed result ++ [failure] |}
        end)
  end.

(** [runBulkDocumentSelections(command, run)]. *)
Definition runBulkDocumentSelections (command : BulkDocumentsCommand) : M (Client S) BulkDocumentCommandResult :=
  selections ← m_lift (normalizeBulkDocumentSelections (bdc_documents command));
  run_selections selections {| bdr_succeeded := []; bdr_failed := [] |}.
End bulk.

Section service.
Context (host : predicate_host) `{NamingHost} (upper : N → jstr).
Context (ids clock : nat → jstr) (planner : AutomationRunPlanner) (event_object : NewDomainEvent → value).
Context (options : DocumentServiceOptions) (env : nat → DocumentStore → DocumentStore).

(** [bulkDelete(command)], [bulkSubmit(command)], [bulkCancel(command)] and
    [bulkTransition(command)]. *)
Definition bulkDelete (command : BulkDocumentsCommand) : M (Client DocumentStore) BulkDocumentCommandResult :=
  runBulkDocumentSelections (λ selection, delete_document ids clock options env (bulkNamedCommand command selection)) command.
Definition bulkChangeStatus (cancel : bool) (command : BulkDocumentsCommand)
    : M (Client DocumentStore) BulkDocumentCommandResult :=
  runBulkDocumentSelections (λ selection,
    change_status host ids clock planner event_object options env cancel (bulkNamedCommand command selection)) command.
Definition bulkTransition (command : BulkDocumentsCommand) (workflow action : jstr)
    : M (Client DocumentStore) BulkDocumentCommandResult :=
  runBulkDocumentSelections (λ selection,
    transition_document host upper ids clock planner event_object options env (bulkNamedCommand command selection)
      workflow action) command.
End service.

(** ** Selections *)

(** A document and the selection that it is accepted as. *)
Definition selects (document : BulkDocumentSelection) (selection : NormalizedSelection) : Prop :=
  nsl_name selection = trim (bds_name document) ∧ nsl_name selection ≠ [] ∧
  match bds_expectedVersion document with
  | None => nsl_expectedVersion selection = None
  | Some v => ∃ z, num_to_Z v = Some z ∧ nsl_expectedVersion selection = Some z
  end.

Lemma normalize_selection_ok seen document selection :
  normalize_selection seen document = Ok selection ↔
  selects document selection ∧ nsl_name selection ∉ seen.
Proof.
  unfold normalize_selection, selects. cbv zeta. destruct selection as [n ev]. cbn [nsl_name nsl_expectedVersion].
  destruct (decide (trim (bds_name document) = [])) as [E|E].
  { rewrite (bool_decide_eq_true_2 _ E). cbn. split; [done|]. intros [(-> & ? & _) _]. done. }
  rewrite (bool_decide_eq_false_2 _ E). cbn [negb ensure mbind res_bind].
  destruct (decide (trim (bds_name document) ∈ seen)) as [Hs|Hs].
  { rewrite (bool_decide_eq_true_2 _ Hs). cbn. split; [done|]. intros [(-> & _) ?]. done. }
  rewrite (bool_decide_eq_false_2 _ Hs). cbn [negb ensure mbind res_bind].
  destruct (bds_expectedVersion document) as [v|]; [destruct (num_to_Z v) as [z|] eqn:Ez|]; cbn; split.
  - intros [= <- <-]. by split_and!; [| |exists z|].
  - intros [(-> & _ & z' & [= <-] & ->) _]. done.
  - done.
  - intros [(_ & _ & z' & [=] & _) _].
  - intros [= <- <-]. done.
  - intros [(-> & _ & ->) _]. done.
Qed.

Lemma normalize_selections_ok seen documents selections :
  normalize_selections seen documents = Ok selections ↔
  Forall2 selects documents selections ∧ NoDup (nsl_name <$> selections) ∧
  ∀ selection, selection ∈ selections → nsl_name selection ∉ seen.
Proof.
  revert seen selections. induction documents as [|document documents IH]; intros seen selections; cbn [normalize_selections].
  { split; [intros [= <-]; split_and!; [done|constructor|by intros ? ?%elem_of_nil]|].
    by intros [->%Forall2_nil_inv_l _]. }
  split.
  - intros E. step_ok E as selection Hs. step_ok E as rest Hr. injection E as <-.
    apply normalize_selection_ok in Hs as [Hs Hn]. apply IH in Hr as (HF & Hnd & Hseen).
    split_and!; [by constructor| |].
    + apply NoDup_cons. split; [|done]. intros (x & Hx & Hin)%list_elem_of_fmap.
      apply (Hseen x Hin). rewrite <-Hx. by left.
    + intros x [-> |Hx]%elem_of_cons; [done|]. specialize (Hseen x Hx). by apply not_elem_of_cons in Hseen as [_ ?].
  - intros (HF & Hnd & Hseen). apply Forall2_cons_inv_l in HF as (selection & rest & Hs & HF & ->).
    rewrite fmap_cons in Hnd. apply NoDup_cons in Hnd as [Hnin Hnd].
    rewrite (proj2 (normalize_selection_ok _ _ _)) by (split; [done|]; apply Hseen; by left). cbn [mbind res_bind].
    rewrite (proj2 (IH _ rest)); [done|]. split_and!; [done|done|]. intros x Hx.
    apply not_elem_of_cons. split; [|apply Hseen; by right].
    intros E. apply Hnin. rewrite <-E. by apply list_elem_of_fmap_2.
Qed.

(** A bulk command is accepted exactly when it names between one and a hundred
    documents, whose trimmed names are not empty and all different, with integers for
    the versions that it expects; its selections are those names and versions, in order. *)
Theorem bulk_selections_exact documents selections :
  normalizeBulkDocumentSelections documents = Ok selections ↔
  1 ≤ length documents ≤ MAX_BULK_DOCUMENTS ∧ Forall2 selects documents selections ∧
  NoDup (nsl_name <$> selections).
Proof.
  unfold normalizeBulkDocumentSelections. destruct (decide (documents = [])) as [-> |Hne].
  { cbn. split; [done|]. intros [? _]. lia. }
  rewrite (bool_decide_eq_false_2 _ Hne). cbn [negb ensure mbind res_bind].
  destruct (Nat.leb_spec (length documents) MAX_BULK_DOCUMENTS) as [Hl|Hl]; cbn [ensure mbind res_bind].
  - rewrite normalize_selections_ok. split.
    + intros (? & ? & _). split_and!; [|done|done|done]. by destruct documents; cbn; [|lia].
    + intros (_ & ? & ?). split_and!; [done|done|]. by intros ? _ ?%elem_of_nil.
  - split; [done|]. intros [? _]. lia.
Qed.

(** ** Runs *)

Section traces.
Context {S : Type} (run : NormalizedSelection → M (Client S) DocumentSnapshot).

(** The runs of a bulk command, each on what the one before it left, and what is
    reported of them. *)
Inductive bulk_trace : list NormalizedSelection → Client S → BulkDocumentCommandResult → Client S → Prop :=
| bulk_done c : bulk_trace [] c {| bdr_succeeded := []; bdr_failed := [] |} c
| bulk_success selection selections snapshot c c1 result c2 :
    run selection c = (Ok snapshot, c1) → bulk_trace selections c1 result c2 →
    bulk_trace (selection :: selections) c
      {| bdr_succeeded := bulkDocumentSelectionSuccess selection snapshot :: bdr_succeeded result;
         bdr_failed := bdr_failed result |} c2
| bulk_failure selection selections e c c1 result c2 :
    run selection c = (Throw e, c1) → bulk_trace selections c1 result c2 →
    bulk_trace (selection :: selections) c
      {| bdr_succeeded := bdr_succeeded result;
         bdr_failed := bulkDocumentFailure (nsl_name selection) e :: bdr_failed result |} c2.

Lemma run_selections_trace selections before c : ∃ result c',
  run_selections run selections before c =
    (Ok {| bdr_succeeded := bdr_succeeded before ++ bdr_succeeded result;
           bdr_failed := bdr_failed before ++ bdr_failed result |}, c') ∧
  bulk_trace selections c result c'.
Proof.
  revert before c. induction selections as [|selection selections IH]; intros before c; cbn [run_selections].
  { exists {| bdr_succeeded := []; bdr_failed := [] |}, c. split; [|constructor]. cbn. rewrite !app_nil_r. by destruct before. }
  rewrite m_bind_run. unfold run_selection at 1, catching. rewrite m_bind_run.
  destruct (run selection c) as [[snapshot|e] c1] eqn:E; cbn.
  all: match goal with |- context [run_selections _ _ ?b ?c1] => destruct (IH b c1) as (result & c2 & -> & Ht) end.
  all: eexists _, c2; split; [|by econstructor]; cbn; by rewrite <-app_assoc.
Qed.

Lemma bulk_trace_names selections c result c' :
  bulk_trace selections c result c' →
  (bde_name <$> bdr_succeeded result) ++ (bdf_name <$> bdr_failed result) ≡ₚ nsl_name <$> selections.
Proof.
  induction 1 as [c|selection selections snapshot c c1 result c2 _ _ IH|selection selections e c c1 result c2 _ _ IH]; cbn.
  - done.
  - by constructor.
  - rewrite <-Permutation_middle. assert (bdf_name (bulkDocumentFailure (nsl_name selection) e) = nsl_name selection) as ->
      by (destruct e as [[] ?]; done). by constructor.
Qed.

(** A bulk command that is accepted always returns: it runs every selection once, in
    order, each on what the ones before it left, reports each as succeeded with its
    snapshot or as failed with its error, and a failure stops none of the others. *)
Theorem bulk_runs_all (command : BulkDocumentsCommand) selections c :
  normalizeBulkDocumentSelections (bdc_documents command) = Ok selections →
  ∃ result c', runBulkDocumentSelections run command c = (Ok result, c') ∧
    bulk_trace selections c result c' ∧
    (bde_name <$> bdr_succeeded result) ++ (bdf_name <$> bdr_failed result) ≡ₚ nsl_name <$> selections.
Proof.
  intros E. destruct (run_selections_trace selections {| bdr_succeeded := []; bdr_failed := [] |} c) as (result & c' & Hr & Ht).
  exists result, c'. split_and!; [|done|by eapply bulk_trace_names].
  unfold runBulkDocumentSelections. rewrite m_bind_run. unfold m_lift. rewrite E, Hr. by destruct result.
Qed.
End traces.

(** ** Witness *)

Definition sample_bulk : BulkDocumentsCommand :=
  {| bdc_actor := {| actor_id := js "ada"; actor_roles := []; actor_tenantId := None; actor_email := None |};
     bdc_doctype := js "Note";
     bdc_documents := [{| bds_name := js " N-1 "; bds_expectedVersion := None |};
                       {| bds_name := js "N-2"; bds_expectedVersion := Some (num_of_Z 3) |}];
     bdc_tenantId := None; bdc_metadata := None |}.

(** A run that fails on the documents whose version is expected. *)
Definition sample_bulk_run (selection : NormalizedSelection) : M (Client DocumentStore) DocumentSnapshot :=
  match nsl_expectedVersion selection with
  | None => mret {| ds_tenantId := js "acme"; ds_doctype := js "Note"; ds_name := nsl_name selection; ds_version := 1;
                    ds_docstatus := Draft; ds_data := []; ds_createdAt := []; ds_updatedAt := [] |}
  | Some _ => m_throw conflict
  end.

Lemma bulk_runs_all_witness :
  ∃ result c', runBulkDocumentSelections sample_bulk_run sample_bulk (new_client empty_store) = (Ok result, c') ∧
    bulk_trace sample_bulk_run [{| nsl_name := js "N-1"; nsl_expectedVersion := None |};
                                {| nsl_name := js "N-2"; nsl_expectedVersion := Some 3%Z |}] (new_client empty_store) result c' ∧
    (bde_name <$> bdr_succeeded result) ++ (bdf_name <$> bdr_failed result) ≡ₚ [js "N-1"; js "N-2"].
Proof.
  exact (bulk_runs_all sample_bulk_run sample_bulk
    [{| nsl_name := js "N-1"; nsl_expectedVersion := None |}; {| nsl_name := js "N-2"; nsl_expectedVersion := Some 3%Z |}]
    (new_client empty_store) eq_refl).
Defined.
