(* ===== verification/DocumentCalls.v ===== *)
(** * DocumentCalls: the commands take the steps of [DocumentSteps] only

    Whatever the steps of [DocumentSteps] keep, every command of
    [application/document-service.ts] keeps: it reads, and it writes by such steps,
    while other clients that keep it too act at every [await].  The writes come first,
    then the commands, in the order of [DocumentWrites] and [DocumentService]. *)

From S2P Require Export DocumentSteps DocumentBulk.

Section calls.
Context (host : predicate_host) `{NamingHost} `{Collation} (upper : N → jstr).
Context (ids clock : nat → jstr) (planner : AutomationRunPlanner) (event_object : NewDomainEvent → value).
Context (options : DocumentServiceOptions) (env : nat → DocumentStore → DocumentStore).
Context (inv : DocumentStore → Prop) (good : jstr → DocTypeDefinition → Prop).

(** The stores are well formed, and the invariant is about their streams; the others
    keep it, and so do the steps; the application's doctypes are as they should be. *)
Context (Hwf : ∀ s, inv s → wf_streams (st_streams s)) `{Henv : !Lawful env extends inv}.
Context (Hinv : ∀ s s', inv s → st_streams s' = st_streams s → inv s').
Context (Hstep : ∀ s s', inv s → document_step inv good s s' → inv s').
Context (Hdoctypes : ∀ actor name tenantId doctype,
  doctypeFor options actor name tenantId = Ok doctype → good tenantId doctype ∧ doctype_ok doctype).

Abbreviation Call := (M (Client DocumentStore)).
Abbreviation Runs := (runs extends inv).
Abbreviation Known := (Stable extends inv).
Abbreviation before := (once extends inv).

(** ** Reads *)

Lemma readStream_all s stream : inv s → readStream (st_streams s) stream no_options = Ok (stream_events (st_streams s) stream).
Proof using Hwf. intros Hi. rewrite (readStream_selected _ _ no_options (Hwf _ Hi) eq_refl). by rewrite selected_all. Qed.

Lemma runs_read K stream : Known K →
  Runs K (read_document env stream) (λ d, before (λ s, K s ∧ doc_at s stream = Ok d)).
Proof using Hwf Henv.
  intros HK. eapply (runs_mono _ _ K K); [call runs_observed|done|]. intros d s Hi (s0 & Hi0 & Hg & HK0 & E).
  exists s0. split_and!; [done..|]. by rewrite readStream_all in E.
Qed.

#[local] Instance keeps_read stream : Keeps extends inv (read_document env stream).
Proof using Henv. apply _. Qed.

(** ** Reservations *)

#[local] Instance stable_reservation known r p : Known (reservation_decided inv known r p).
Proof using Type. destruct p as [[? ?]|]; apply _. Qed.

#[local] Instance stable_release known r p : Known (release_decided inv known r p).
Proof using Type. destruct p; apply _. Qed.

#[local] Instance stable_forall2 {A B} (P : A → B → DocumentStore → Prop) l l' :
  (∀ x y, Known (P x y)) → Known (λ s, Forall2 (λ x y, P x y s) l l').
Proof using Type. intros HP s s' Hi Hg HF. eapply Forall2_impl; [exact HF|]. intros x y Hxy. by eapply HP. Qed.

(** The owner of a value, when it is found not to hold it. *)
Lemma owner_free K r existing owner : Known K →
  activeUniqueValueOwner existing = Some owner → owner ≠ uvr_documentName r →
  (∀ s, K s → seen inv (uvr_stream r) existing s) →
  Runs K (owner_still_owns env r owner) (λ b s, b = false →
    before (λ s, seen inv (uvr_stream r) existing s ∧ free_to_take r existing s) s).
Proof using Hwf Henv.
  intros HK Eo Hne Hseen. unfold owner_still_owns. call runs_lift_bind. intros stream Est.
  call runs_bind; [by apply runs_read|]. intros d. call runs_lift_ret. intros b s Eb _ [_ Hd] ->.
  eapply once_mono; [exact Hd|]. intros s0 [Hk Hd0]. split; [by apply Hseen|]. unfold free_to_take. rewrite Eo.
  split; [done|]. by exists stream, d.
Qed.

Lemma plan_reservation_decided K known r : Known K → (∀ s, K s → known s) →
  Runs K (plan_reservation env r) (λ p s, reservation_decided inv known r p s).
Proof using Hwf Henv.
  intros HK Hknown. unfold plan_reservation. call runs_bind; [by apply runs_read|]. intros existing.
  assert (∀ s, K s ∧ before (λ s, K s ∧ doc_at s (uvr_stream r) = Ok existing) s → seen inv (uvr_stream r) existing s) as Hseen.
  { intros s [_ Hs]. eapply once_mono; [exact Hs|]. by intros s0 [_ ?]. }
  unfold planUniqueValueReservationOwnerLookup, planUniqueValueReservationWriteDecision.
  destruct (activeUniqueValueOwner existing) as [owner|] eqn:Eo; [destruct (decide (owner = uvr_documentName r)) as [Hown|Hown]|].
  - rewrite (bool_decide_eq_true_2 (owner = _)) by done. call runs_keeps. intros b. rewrite bool_decide_eq_true_2 by congruence.
    call runs_ret. intros s _ [_ Hs]. eapply once_mono; [exact Hs|]. intros s0 [Hk Hd]. split; [by apply Hknown|].
    exists existing. split; [done|]. congruence.
  - rewrite (bool_decide_eq_false_2 (owner = _)) by done. call runs_bind; [eapply owner_free; [apply _|done..]|]. intros [].
    + rewrite bool_decide_eq_false_2 by congruence. call runs_throw.
    + rewrite bool_decide_eq_false_2 by congruence. call runs_ret. intros s _ [_ Hs]. split; [done|]. by apply Hs.
  - call runs_keeps. intros b. rewrite bool_decide_eq_false_2 by done.
    call runs_ret. intros s Hi Hs. split; [done|]. apply once_now; [apply _|done|]. split; [by apply Hseen|].
    unfold free_to_take. by rewrite Eo.
Qed.

Lemma reservation_write_written K actor occurredAt planned : Known K →
  Runs K (reservation_write ids actor occurredAt planned) (λ w _, reservation_written planned w).
Proof using Type.
  intros HK. destruct planned as [r existing]. unfold reservation_write. call runs_keeps. intros id.
  call runs_ret. intros s _ _. by split_and!.
Qed.

(** The planned reservations are decided on what was known. *)
Lemma plan_reservations_decided K known actor rs occurredAt : Known K → (∀ s, K s → known s) →
  Runs K (planUniqueValueReservationWrites ids env actor rs occurredAt) (λ ws s, ∃ planned,
    Forall2 (λ r p, reservation_decided inv known r p s) rs planned ∧ Forall2 reservation_written (omap id planned) ws).
Proof using Hwf Henv.
  intros HK Hknown. unfold planUniqueValueReservationWrites.
  call runs_bind; [call (runs_map _ _ K _ (λ r p, reservation_decided inv known r p)); intros r _; by apply plan_reservation_decided|].
  intros planned. call runs_last.
  - call (runs_map _ _ _ _ (λ p w _, reservation_written p w)). intros p _. apply reservation_write_written, _.
  - intros ws s Hi [_ HF] HW. by exists planned.
Qed.

Lemma plan_release_decided K known actor occurredAt r : Known K → (∀ s, K s → known s) →
  Runs K (plan_release ids env actor occurredAt r) (λ p s, release_decided inv known r p s).
Proof using Hwf Henv.
  intros HK Hknown. unfold plan_release. call runs_bind; [by apply runs_read|]. intros existing.
  unfold planUniqueValueReleaseWriteDecision.
  assert (∀ s, K s ∧ before (λ s, K s ∧ doc_at s (uvr_stream r) = Ok existing) s →
    activeUniqueValueOwner existing ≠ Some (uvr_documentName r) → release_decided inv known r None s) as Hskip.
  { intros s [_ Hs] Hne. eapply once_mono; [exact Hs|]. intros s0 [Hk Hd]. split; [by apply Hknown|]. by exists existing. }
  destruct existing as [e|]; [case_bool_decide as Ho|].
  - call runs_keeps. intros id. call runs_ret. intros s _ [_ Hs]. split_and!; try done.
    eapply once_mono; [exact Hs|]. by intros s0 [_ ?].
  - call runs_ret. intros s _ Hs. by apply Hskip.
  - call runs_ret. intros s _ Hs. by apply Hskip.
Qed.

Lemma plan_releases_decided K known actor rs occurredAt : Known K → (∀ s, K s → known s) →
  Runs K (planUniqueValueReleaseWrites ids env actor rs occurredAt) (λ ws s, ∃ released,
    Forall2 (λ r p, release_decided inv known r p s) rs released ∧ ws = omap id released).
Proof using Hwf Henv.
  intros HK Hknown. unfold planUniqueValueReleaseWrites.
  call runs_bind; [call (runs_map _ _ K _ (λ r p, release_decided inv known r p)); intros r _; by apply plan_release_decided|].
  intros planned. call runs_ret. intros s Hi [_ HF]. by exists planned.
Qed.

(** ** Automations *)

Lemma plan_runs_of target context plan n n' :
  target_ok target → e_tenantId (rmc_event context) = tg_tenantId target →
  planEnqueueFromDomainEvent host ids planner context (dt_automationRules (tg_doctype target)) None n = (Ok plan, n') →
  runs_of target (acp_entries plan).
Proof using Type.
  intros [Hok _] Ht. destruct (dok_rules _ Hok) as [-> |(doctype' & limits & given & Hnorm)].
  { intros [= <- _]. split; [split; [constructor|]|]; by intros ? ?%elem_of_nil. }
  destruct (dt_automationRules (tg_doctype target)) as [rules|].
  2:{ intros [= <- _]. split; [split; [constructor|]|]; by intros ? ?%elem_of_nil. }
  intros E. split; [by eapply planner_batch|]. intros entry Hen.
  rewrite (proj1 (plan_groups _ _ _ _ _ _ _ _ _ E)) in Hen. apply list_elem_of_fmap in Hen as (g & -> & Hg).
  destruct (plan_group_elem _ _ _ _ _ _ _ _ _ _ E Hg) as (action & _ & Hga). exists (ta_runId action).
  pose proof Hga as (stream & _ & _ & Hs & _). rewrite <-Ht, Hs. f_equal. symmetry.
  by apply (group_entry_stream _ _ _ _ _ Hga Hs).
Qed.

Lemma planned_runs K target event e after touched input actor : Known K → target_ok target → event_of target event →
  Runs K (planAutomationRuns host ids planner event_object (tg_doctype target) event e after touched input actor)
    (λ plan _, runs_of target (acp_entries plan)).
Proof using Type.
  intros HK Hok (_ & Ht & _). unfold planAutomationRuns. call runs_last; [call runs_ids|].
  intros plan s _ _ (n & n' & E). eapply plan_runs_of; [exact Hok| |exact E]. exact Ht.
Qed.

(** ** Commits *)

Section writes.
Context (K : DocumentStore → Prop) `{HK : !Known K} (target : Target).
Context (Hgood : good (tg_tenantId target) (tg_doctype target)) (Hok : target_ok target).

Lemma unique_moved_none name document rs : live_reservations target name document rs → document = None → rs = [].
Proof using Type. by intros E ->. Qed.

Section existing.
Context (e : DocumentSnapshot) (Hlive : ds_docstatus e ≠ Deleted).
Context (Hseen : ∀ s, K s → seen inv (tg_stream target) (Some e) s).

(** The event of a command, and what it makes of the document. *)
Definition makes (make_event : jstr → NewDomainEvent) (d : data) (status : DocStatus) : Prop :=
  ∀ id, event_of target (make_event id) ∧ event_allowed (Some (ds_docstatus e)) (e_payload (make_event id)) = true ∧
    effect (Some e) (make_event id) d status.

Lemma runs_write_change actor now next make_event touched input :
  makes make_event next (ds_docstatus e) →
  Runs K (write_change host ids planner event_object env (tg_doctype target) e (tg_stream target) (tg_tenantId target)
    actor now next make_event touched input) (λ _ _, True).
Proof using All.
  intros Hmake. unfold write_change. call runs_lift_bind. intros nextReservations En.
  call runs_lift_bind. intros existingReservations Ee.
  call runs_bind; [by eapply (plan_reservations_decided K (seen inv (tg_stream target) (Some e)))|]. intros writes.
  call runs_bind; [eapply (plan_releases_decided _ (seen inv (tg_stream target) (Some e))); [apply _|]; by intros s [? _]; apply Hseen|].
  intros releases. call runs_keeps. intros id. destruct (Hmake id) as (Hev & Hal & Heff).
  call runs_bind; [by eapply planned_runs; [apply _|..]|]. intros automation. learn. intros Hruns.
  call runs_then.
  call (runs_commit inv good Hwf env Hinv Hstep _ target (Some e) (make_event id) next (ds_docstatus e) None writes releases
    (acp_entries automation)); [done..|].
  intros s Hi [[Hs (planned & Hplanned & Hwritten)] (released & Hreleased & ->)] _. split; [by apply Hseen|].
  intros after Ha Hst. left. eapply unique_moved; [done| | |exact Hplanned|exact Hwritten|exact Hreleased].
  - cbn. by rewrite bool_decide_eq_false_2.
  - cbn. rewrite Hst, bool_decide_eq_false_2 by done. by rewrite Ha.
Qed.

Lemma released_all existing : releasedUniqueValueReservations existing [] = existing.
Proof using Type. unfold releasedUniqueValueReservations. apply filter_all. intros r _. by intros ?%elem_of_nil. Qed.

Lemma runs_write_delete actor now make_event :
  makes make_event (ds_data e) Deleted →
  Runs K (write_delete ids env (tg_doctype target) e (tg_stream target) (tg_tenantId target) actor now make_event) (λ _ _, True).
Proof using All.
  intros Hmake. unfold write_delete. call runs_lift_bind. intros existingReservations Ee.
  call runs_bind; [by eapply (plan_releases_decided K (seen inv (tg_stream target) (Some e)))|].
  intros releases. call runs_keeps. intros id. destruct (Hmake id) as (Hev & Hal & Heff).
  call runs_then. rewrite <-(app_nil_r (documentAtomicCommitEntries _ _ _ _ _ _)).
  call (runs_commit inv good Hwf env Hinv Hstep _ target (Some e) (make_event id) (ds_data e) Deleted None [] releases []); [done..| |].
  { split; [split; [constructor|]|]; by intros ? ?%elem_of_nil. }
  intros s Hi [Hs (released & Hreleased & ->)] _. split; [by apply Hseen|].
  intros after Ha Hst. left. eapply (unique_moved _ _ _ _ _ _ _ [] []); [done| | |constructor|constructor|by rewrite released_all].
  - cbn. by rewrite bool_decide_eq_false_2.
  - cbn. by rewrite bool_decide_eq_true_2.
Qed.

(** The commands that leave the data alone. *)
Lemma kept_commit status event runs_ project :
  status ≠ Deleted → event_of target event → event_allowed (Some (ds_docstatus e)) (e_payload event) = true →
  effect (Some e) event (ds_data e) status → runs_of target runs_ →
  Runs K (update env (commitBatch (step_entries target (Some e) event None [] [] runs_) project)) (λ _ _, True).
Proof using All.
  intros Hstatus Hev Hal Heff Hruns.
  call (runs_commit inv good Hwf env Hinv Hstep _ target (Some e) event (ds_data e) status None [] []); [done..|].
  intros s Hi Hs _. split; [by apply Hseen|]. intros after Ha Hst. right. split_and!; [done..|]. exists e, after.
  split_and!; [done..|]. congruence.
Qed.

Lemma runs_write_status actor now status make_event :
  status ≠ Deleted → makes make_event (ds_data e) status →
  Runs K (write_status host ids planner event_object env (tg_doctype target) e (tg_stream target) actor now status make_event)
    (λ _ _, True).
Proof using All.
  intros Hstatus Hmake. unfold write_status. call runs_keeps. intros id. destruct (Hmake id) as (Hev & Hal & Heff).
  call runs_bind; [by eapply planned_runs; [apply _|..]|]. intros automation. learn. intros Hruns.
  call runs_then. by eapply kept_commit.
Qed.

Lemma runs_commit_event event :
  event_of target event → event_allowed (Some (ds_docstatus e)) (e_payload event) = true →
  effect (Some e) event (ds_data e) (ds_docstatus e) →
  Runs K (update env (commit_event (tg_stream target) e event)) (λ _ _, True).
Proof using All.
  intros Hev Hal Heff. unfold commit_event, commit.
  eapply (kept_commit (ds_docstatus e) event []); [done..|].
  split; [split; [constructor|]|]; by intros ? ?%elem_of_nil.
Qed.
End existing.

(** A stream that is empty held no document before. *)
Lemma empty_unseen s s0 : inv s0 → extends s0 s → length (stream_events (st_streams s) (tg_stream target)) = 0 →
  seen inv (tg_stream target) None s0.
Proof using Type.
  intros Hi Hg Hl. apply once_now; [apply _|done|]. unfold doc_at. pose proof (prefix_length _ _ (Hg (tg_stream target))).
  by rewrite (nil_length_inv (stream_events (st_streams s0) (tg_stream target))) by lia.
Qed.

Lemma reservation_decided_known known known' r p s :
  reservation_decided inv known r p s → (∀ s0, inv s0 → extends s0 s → known s0 → known' s0) →
  reservation_decided inv known' r p s.
Proof using Type.
  destruct p as [[r' e]|]; [done|]. intros (s0 & Hi & Hg & Hk & He) Hkk. exists s0. split_and!; [done..|by apply Hkk|done].
Qed.

Lemma runs_commit_create series rs writes event automation d planned :
  series_of target series → event_of target event → e_payload event = PDocumentCreated d Draft →
  uniqueValueReservations nh_number (tg_tenantId target) (tg_doctype target) d (tg_name target) = Ok rs →
  Forall2 reservation_written (omap Datatypes.id planned) writes → runs_of target (acp_entries automation) →
  (∀ s, K s → Forall2 (λ r p, reservation_decided inv (λ _, True) r p s) rs planned) →
  Runs K (commit_create env (tg_stream target) series writes (event, automation)) (λ _, logged inv target None event).
Proof using HK Hgood Hok Hwf Henv Hinv Hstep.
  intros Hseries Hev Hp Hrs Hwritten Hruns Hdec. unfold commit_create.
  call (runs_commit_logged inv good Hwf env Hinv Hstep _ target None event d Draft series writes []); [done..|by rewrite Hp| |done|done|].
  { intros Hj n. unfold foldDocumentStep. cbn [e_new]. rewrite Hp in Hj |- *. cbn in Hj. rewrite cloneData_json by done.
    by eexists. }
  intros s Hi Hs Hl. cbn in Hl. assert (length (stream_events (st_streams s) (tg_stream target)) = 0) as Hl0 by lia.
  split; [by eapply empty_unseen|]. intros after Hd Hst. left.
  eapply (unique_moved _ _ _ _ _ _ [] rs planned writes []); [done|done| | |done|constructor].
  - cbn. rewrite Hst, bool_decide_eq_false_2 by done. by rewrite Hd.
  - eapply Forall2_impl; [exact (Hdec s Hs)|]. intros r p Hrp. eapply reservation_decided_known; [exact Hrp|].
    intros s0 Hi0 Hg0 _. by eapply empty_unseen.
Qed.
End writes.

(** ** Commands *)

#[local] Instance keeps_stream stream : Keeps extends inv (read_stream env stream).
Proof using Henv. apply _. Qed.

#[local] Instance keeps_shared actor doctype action document :
  Keeps extends inv (sharedPermissionsForAction options env actor doctype action document).
Proof using Henv. unfold sharedPermissionsForAction, resolveDocumentSharedPermissionsForAction, readSharedPermissions. apply _. Qed.

#[local] Instance keeps_permissions actor tenantId : Keeps extends inv (permissions_for options env actor tenantId).
Proof using Henv. unfold permissions_for. apply _. Qed.

#[local] Instance keeps_linked actor source field target document :
  Keeps extends inv (canReadLinkedDocument options env actor source field target document).
Proof using Henv. unfold canReadLinkedDocument. apply _. Qed.

#[local] Instance keeps_from_events tenantId doctype name : Keeps extends inv (readDocumentFromEvents env tenantId doctype name).
Proof using Henv. unfold readDocumentFromEvents. apply _. Qed.

#[local] Instance keeps_fetched actor tenantId doctype d related existing :
  Keeps extends inv (fetchedFields options env actor tenantId doctype d related existing).
Proof using Henv.
  unfold fetchedFields, applyFetchedFields. call keeps_bind.
  match goal with |- Keeps _ _ (fetch_fields ?r ?f _ _ _ _ _) =>
    cut (∀ fields enriched, Keeps extends inv (fetch_fields r f doctype d existing fields enriched)); [intros Hf; apply Hf|] end.
  intros fields. induction fields as [|field fields IH]; intros enriched; cbn [fetch_fields].
  - apply _.
  - destruct (fetch_link _ _ _ _ _ _) as [[[[linkField target] name] source]|]; [|apply IH].
    call keeps_bind.
Qed.

#[local] Instance keeps_links actor tenantId doctype d related :
  Keeps extends inv (validateLinks options env actor tenantId doctype d related).
Proof using Henv. unfold validateLinks, validateDocumentLinks. apply _. Qed.

#[local] Instance keeps_validate doctype d related existing override :
  Keeps extends inv (validate host options doctype d related existing override).
Proof using Type. unfold validate. apply _. Qed.

#[local] Instance keeps_finish actor context commit saved :
  Keeps extends inv (finishAfterCommit options env actor context commit saved).
Proof using Henv. unfold finishAfterCommit, runAfterCommit. apply _. Qed.

#[local] Instance keeps_committed actor context committed :
  Keeps extends inv (finish_committed options env actor context committed).
Proof using Henv. unfold finish_committed. apply _. Qed.

#[local] Instance keeps_access command opened action : Keeps extends inv (ensure_access options env command opened action).
Proof using Henv. unfold ensure_access, ensureDocumentActionAccess, ensureUserPermissionAccess. apply _. Qed.

#[local] Instance keeps_shared_action actor doctype action document :
  Keeps extends inv (ensureSharedDocumentActionAccess options env actor doctype action document).
Proof using Henv. unfold ensureSharedDocumentActionAccess. apply _. Qed.

#[local] Instance keeps_shared_access command opened action :
  Keeps extends inv (ensure_shared_access options env command opened action).
Proof using Henv. unfold ensure_shared_access, ensureUserPermissionAccess. apply _. Qed.

(** ** Opening *)

(** The document that a command opened. *)
Definition opened_target (command : DocumentCommand) (opened : OpenedDocument) : Target :=
  {| tg_tenantId := opd_tenantId opened; tg_doctype := dsc_doctype (opd_context opened); tg_name := dcm_name command;
     tg_stream := opd_stream opened |}.

Definition opened_ok (command : DocumentCommand) (opened : OpenedDocument) : Prop :=
  good (opd_tenantId opened) (dsc_doctype (opd_context opened)) ∧ target_ok (opened_target command opened) ∧
  ds_docstatus (opd_existing opened) ≠ Deleted.

Definition opened_seen (opened : OpenedDocument) : DocumentStore → Prop :=
  seen inv (opd_stream opened) (Some (opd_existing opened)).

Lemma doctypeContext_ok actor doctypeName tenantId context :
  doctypeContext options actor doctypeName tenantId = Ok context →
  good tenantId (dsc_doctype context) ∧ doctype_ok (dsc_doctype context).
Proof using Hdoctypes.
  unfold doctypeContext. intros E. step_ok E as root Hroot.
  destruct (resolveTenantDocTypeContext _ _ _) as [related|]; [|done]. step_ok E as r Hr. injection E as <-.
  by eapply Hdoctypes.
Qed.

Lemma requireLive_ok d e : requireLiveDocumentSnapshot d = Ok e → d = Some e ∧ ds_docstatus e ≠ Deleted.
Proof using Type.
  unfold requireLiveDocumentSnapshot. destruct d as [x|]; [|done]. intros E. ensure_step E as Hd. injection E as ->.
  by apply negb_true_iff, bool_decide_eq_false in Hd.
Qed.

Lemma runs_open {A} K command (require : DocTypeDefinition → res A) : Known K →
  Runs K (open_document options env command require) (λ o s, opened_seen o.1 s ∧
    (opened_ok command o.1 ∧ require (dsc_doctype (opd_context o.1)) = Ok o.2)).
Proof using Hwf Henv Hdoctypes.
  intros HK. unfold open_document. call runs_lift_bind. intros context Hc. apply doctypeContext_ok in Hc as [Hgood Hok].
  call runs_lift_bind. intros required Hr. call runs_lift_bind. intros stream Hs. unfold requireExistingFromEvents.
  call (runs_learn _ _ _ _ _ (λ e s, seen inv stream (Some e) s) (λ e, ds_docstatus e ≠ Deleted)).
  - call runs_bind; [by apply runs_read|]. intros d. call runs_lift_ret. intros e s Ee _ [_ Hd].
    apply requireLive_ok in Ee as [-> Hlive]. split; [|done]. eapply once_mono; [exact Hd|]. by intros s0 [_ ?].
  - intros existing Hlive. call runs_ret. intros s _ [_ Hseen]. split; [exact Hseen|]. by split_and!.
Qed.

Lemma runs_open_stream K command : Known K →
  Runs K (open_stream options env command) (λ o s, opened_seen o.1 s ∧ opened_ok command o.1).
Proof using Hwf Henv Hdoctypes.
  intros HK. unfold open_stream. call runs_lift_bind. intros context Hc. apply doctypeContext_ok in Hc as [Hgood Hok].
  call runs_lift_bind. intros stream Hs. unfold requireExistingEventStream.
  call (runs_learn _ _ _ _ _ (λ e s, seen inv stream (Some e.1) s) (λ e, ds_docstatus e.1 ≠ Deleted)).
  - unfold read_stream. call runs_bind; [call runs_observed|]. intros events. call runs_lift_bind. intros d Hd.
    call runs_lift_bind. intros e He. call runs_ret. intros s Hi [_ (s0 & Hi0 & Hg & _ & Er)].
    apply requireLive_ok in He as [-> Hlive]. split; [|done]. exists s0. split_and!; [done..|].
    rewrite readStream_all in Er by done. injection Er as <-. done.
  - intros [existing events] Hlive. call runs_ret. intros s _ [_ Hseen]. split; [exact Hseen|]. by split_and!.
Qed.

Lemma opened_event_of command opened now id eventType p :
  event_of (opened_target command opened) (document_event (opened_input command opened now id) eventType p).
Proof using Type. by split_and!. Qed.

(** ** Effects of events *)

Lemma applied_json d patch unset next : applyDocumentDataChange d patch unset = Ok next → isJsonData patch = true.
Proof using Type. unfold applyDocumentDataChange. intros E. step_ok E as d' Hd. step_ok E as p' Hp. by apply cloneData_ok in Hp as [? _]. Qed.

Lemma applied_spread d patch next : applyDocumentDataChange d patch [] = Ok next → next = jm_spread d patch.
Proof using Type.
  unfold applyDocumentDataChange. intros E. step_ok E as d' Hd. step_ok E as p' Hp. injection E as <-.
  apply cloneData_ok in Hd as [_ ->], Hp as [_ ->]. done.
Qed.

Section command.
Context (K : DocumentStore → Prop) `{HK : !Known K} (command : DocumentCommand) (opened : OpenedDocument).
Context (Hopened : opened_ok command opened) (Hseen : ∀ s, K s → opened_seen opened s).

Abbreviation doctype := (dsc_doctype (opd_context opened)).
Abbreviation existing := (opd_existing opened).

Lemma runs_update_document commandPatch patch prevalidated unset eventType :
  Runs K (applyDocumentUpdate host ids clock planner event_object options env command opened commandPatch patch prevalidated
    unset eventType) (λ _ _, True).
Proof using All.
  destruct Hopened as (Hgood & Hok & Hlive). unfold applyDocumentUpdate. call runs_lift_bind. intros _u Hstatus.
  call runs_keeps. intros patch'. call runs_keeps. intros fetched. call runs_lift_bind. intros changed _.
  call runs_keeps. intros hookIssues. call runs_keeps. intros linkIssues. call runs_lift_bind. intros [normalized next] Haccept.
  call runs_keeps. intros now. call runs_then.
  apply (runs_write_change K (opened_target command opened) Hgood Hok existing Hlive Hseen).
  intros id. split; [apply opened_event_of|]. cbn. split.
  - unfold ensureDocumentUpdateStatus, ensureDocumentStatus in Hstatus. by destruct (ds_docstatus existing).
  - unfold accept_update in Haccept. step_ok Haccept as changed' Hc. destruct changed' as [n' next'].
    ensure_step Haccept as Hissues. injection Haccept as -> ->. unfold update_data in Hc. step_ok Hc as next' Hnext. injection Hc as <- <-.
    intros _ n. unfold foldDocumentStep. cbn.
    assert (∀ l : list jstr, default [] (match l with [] => None | _ => Some l end) = l) as -> by (by intros []).
    rewrite Hnext. by eexists.
Qed.

(** A transition or a domain command. *)
Lemma runs_apply_command now patch exact controlled authorized ro fp ov make_event input :
  ds_docstatus existing = Draft →
  (∀ now normalized id next, applyDocumentDataChange (ds_data existing) normalized [] = Ok next →
     event_of (opened_target command opened) (make_event now normalized id) ∧
     event_allowed (Some Draft) (e_payload (make_event now normalized id)) = true ∧
     effect (Some existing) (make_event now normalized id) next Draft) →
  Runs K (apply_command host ids clock planner event_object options env command opened now patch exact controlled authorized
    ro fp ov make_event input) (λ _ _, True).
Proof using All.
  intros Hdraft Hmake. destruct Hopened as (Hgood & Hok & Hlive). unfold apply_command.
  call runs_keeps. intros fetched. call runs_lift_bind. intros next Hnext. call runs_keeps. intros validationIssues.
  call runs_keeps. intros linkIssues. call runs_keeps. intros _u. call runs_keeps. intros now'.
  call runs_then.
  apply (runs_write_change K (opened_target command opened) Hgood Hok existing Hlive Hseen).
  intros id. rewrite Hdraft. by apply Hmake.
Qed.

(** The write of a collaboration. *)
Lemma runs_commit_plan plan :
  event_allowed (Some (ds_docstatus existing)) (cep_payload plan) = true →
  (∀ event : DomainEvent, e_payload event = cep_payload plan →
     foldDocumentStep (Some existing) event = Ok (Some (touch existing event (ds_docstatus existing) (ds_data existing)))) →
  Runs K (commit_plan ids clock options env command opened plan) (λ _ _, True).
Proof using All.
  intros Hal Heff. destruct Hopened as (Hgood & Hok & Hlive). unfold commit_plan, commitDocumentEvent.
  call runs_keeps. intros now. call runs_keeps. intros id. call runs_then.
  apply (runs_commit_event K (opened_target command opened) Hgood Hok existing Hlive Hseen); [apply opened_event_of|done|].
  intros _ n. eexists. split; [by apply Heff|done].
Qed.
End command.

Lemma keeps_update command :
  Keeps extends inv (update_document host ids clock planner event_object options env command).
Proof using All.
  intros K HK. unfold update_document. call runs_learn; [by apply runs_open|]. intros [opened []] [Hok _].
  call runs_keeps. intros access.
  eapply (runs_update_document _ (udc_command command) opened Hok). by intros s [_ ?].
Qed.

Lemma keeps_merge command :
  Keeps extends inv (merge_document host ids clock planner event_object options env command).
Proof using All.
  intros K HK. unfold merge_document. call runs_keeps. intros _u.
  call (runs_learn _ _ _ _ _ (λ o s, opened_seen o.1 s) (λ o, opened_ok (mdc_command command) o.1)); [by apply runs_open_stream|].
  intros [opened events] Hok. cbn [fst] in Hok. call runs_keeps. intros shared. call runs_keeps. intros _u2.
  call runs_keeps. intros folded. call runs_keeps. intros baseSnapshot. call runs_keeps. intros patch.
  call runs_keeps. intros preflight. call runs_keeps. intros _u3. call runs_keeps. intros draft.
  destruct (documentMergeDisposition _); [by call runs_ret..|]. call runs_then.
  apply (runs_update_document _ (mdc_command command) opened Hok). by intros s [_ ?].
Qed.

(** ** Transitions and domain commands *)

Lemma keeps_transition command workflow action :
  Keeps extends inv (transition_document host upper ids clock planner event_object options env command workflow action).
Proof using All.
  intros K HK. unfold transition_document. call runs_learn; [by apply runs_open|].
  intros [opened definition] [Hok Hdef]. cbn [fst snd] in Hok, Hdef.
  call runs_keeps. intros _u. call runs_lift_bind. intros _u2 Hstatus. call runs_lift_bind. intros plan Hplan.
  call runs_keeps. intros hookPatch.
  apply ensure_ok, bool_decide_eq_true, list_elem_of_singleton in Hstatus.
  apply (runs_apply_command _ command opened Hok); [by intros s [_ ?]|exact Hstatus|].
  intros now normalized id next Hnext. split; [apply opened_event_of|].
  destruct (planWorkflowTransitionPolicy_ok _ _ _ _ _ _ _ _ _ Hplan) as (Hw & Hf & _ & _ & _ & t & Ht & Ha & _).
  destruct (requireNamedWorkflowDefinition_ok _ _ _ Hdef) as [Hin _]. destruct Hok as (_ & [Hdok _] & _).
  destruct (dok_workflows _ Hdok _ Hin) as (Hn1 & Hn2 & Hn3). specialize (Hn3 t Ht). rewrite Ha in Hn3.
  assert (isCurrentWorkflowTransitionPayload (e_payload (workflowTransitionEventCommand (opened_input command opened now id) action
    {| wtp_workflow := wtp_workflow plan; wtp_stateField := wtp_stateField plan; wtp_action := wtp_action plan;
       wtp_from := wtp_from plan; wtp_to := wtp_to plan; wtp_patch := normalized; wtp_eventType := wtp_eventType plan |})) = true)
    as Hcurrent.
  { cbn. rewrite Hw, Hf. unfold named in *. rewrite !bool_decide_eq_false_2 by done. cbn. by eapply applied_json. }
  split; [exact Hcurrent|]. intros _ n. unfold foldDocumentStep.
  change (e_payload {| e_new := ?e; e_sequence := n |}) with (e_payload e). rewrite Hcurrent. cbn.
  rewrite cloneData_json by (by eapply applied_json). cbn. eexists. split; [done|]. cbn. split; [|done].
  symmetry. by apply applied_spread.
Qed.

Lemma keeps_execute command name input :
  Keeps extends inv (execute_command host upper ids clock planner event_object options env command name input).
Proof using All.
  intros K HK. unfold execute_command. call runs_learn; [by apply runs_open|].
  intros [opened definition] [Hok _]. cbn [fst snd] in Hok. call runs_keeps. intros now. call runs_keeps. intros plan.
  call runs_keeps. intros shared. call runs_keeps. intros _u1. call runs_keeps. intros _u2. call runs_keeps. intros _u3.
  call runs_lift_bind. intros _u4 Hstatus. call runs_keeps. intros normalizedPatch. call runs_keeps. intros transitionPlan.
  apply ensure_ok, bool_decide_eq_true, list_elem_of_singleton in Hstatus.
  apply (runs_apply_command _ command opened Hok); [by intros s [_ ?]|exact Hstatus|].
  intros now' normalized id next Hnext. split; [apply opened_event_of|]. split; [done|]. intros _ n. unfold foldDocumentStep. cbn.
  rewrite cloneData_json by (by eapply applied_json). cbn. eexists. split; [done|]. cbn. split; [|done].
  symmetry. by apply applied_spread.
Qed.

(** ** Status *)

Lemma keeps_delete command : Keeps extends inv (delete_document ids clock options env command).
Proof using All.
  intros K HK. unfold delete_document. call runs_learn; [by apply runs_open|]. intros [opened []] [Hok _]. cbn [fst] in Hok.
  call runs_keeps. intros _u. call runs_lift_bind. intros _u2 Hstatus. call runs_keeps. intros now. call runs_then.
  destruct Hok as (Hgood & Htarget & Hlive).
  apply (runs_write_delete _ (opened_target command opened) Hgood Htarget (opd_existing opened) Hlive); [by intros s [_ ?]|].
  intros id. split; [apply opened_event_of|]. apply ensure_ok, bool_decide_eq_true in Hstatus. cbn in Hstatus |- *. split.
  - by apply elem_of_cons in Hstatus as [-> | ->%list_elem_of_singleton].
  - intros _ n. by eexists.
Qed.

Lemma keeps_status cancel command :
  Keeps extends inv (change_status host ids clock planner event_object options env cancel command).
Proof using All.
  intros K HK. unfold change_status. call runs_learn; [by apply runs_open|]. intros [opened []] [Hok _]. cbn [fst] in Hok.
  call runs_keeps. intros _u. call runs_lift_bind. intros _u2 Hstatus. call runs_keeps. intros now. call runs_then.
  destruct Hok as (Hgood & Htarget & Hlive).
  apply (runs_write_status _ (opened_target command opened) Hgood Htarget (opd_existing opened) Hlive); [by intros s [_ ?]|by destruct cancel|].
  intros id. split; [apply opened_event_of|]. apply ensure_ok, bool_decide_eq_true in Hstatus.
  destruct cancel; cbn in Hstatus |- *; apply list_elem_of_singleton in Hstatus as ->; (split; [done|]); intros _ n; by eexists.
Qed.

(** ** Collaboration *)

(** The events that leave the data and the status of a document alone. *)
Definition leaves_data (p : payload) : Prop :=
  (∀ status, status ≠ Deleted → event_allowed (Some status) p = true) ∧
  ∀ e (event : DomainEvent), e_payload event = p →
    foldDocumentStep (Some e) event = Ok (Some (touch e event (ds_docstatus e) (ds_data e))).

Ltac leaves := split; [by intros []|]; let E := fresh "E" in intros ? ? E; unfold foldDocumentStep; by rewrite E.

Lemma runs_plan K `{!Known K} command opened plan :
  opened_ok command opened → (∀ s, K s → opened_seen opened s) → leaves_data (cep_payload plan) →
  Runs K (commit_plan ids clock options env command opened plan) (λ _ _, True).
Proof using All.
  intros Hok Hseen [Hal Heff]. apply (runs_commit_plan K command opened Hok Hseen); [|intros event; apply Heff].
  apply Hal, Hok.
Qed.

Lemma keeps_comment command text : Keeps extends inv (comment_document ids clock options env command text).
Proof using All.
  intros K HK. unfold comment_document. call runs_learn; [by apply runs_open|]. intros [opened []] [Hok _]. cbn [fst] in Hok.
  call runs_keeps. intros _u. call runs_lift_bind. intros plan Hplan. apply runs_plan; [apply _|done|by intros s [_ ?]|].
  unfold planDocumentCommentPolicy in Hplan. step_ok Hplan as text' Ht. injection Hplan as <-. cbn. leaves.
Qed.

Lemma keeps_activity command activity : Keeps extends inv (record_activity ids clock options env command activity).
Proof using All.
  intros K HK. unfold record_activity. call runs_learn; [by apply runs_open|]. intros [opened []] [Hok _]. cbn [fst] in Hok.
  call runs_keeps. intros _u. call runs_lift_bind. intros plan Hplan. apply runs_plan; [apply _|done|by intros s [_ ?]|].
  unfold planDocumentActivityPolicy in Hplan. step_ok Hplan as activity' Ht. injection Hplan as <-. cbn. leaves.
Qed.

Lemma keeps_collection command action plan :
  (∀ doctype events p, plan doctype events = Ok p → leaves_data (cep_payload (clp_event p))) →
  Keeps extends inv (change_collection ids clock options env command action plan).
Proof using All.
  intros Hleaves K HK. unfold change_collection, commit_unless_noop.
  call (runs_learn _ _ _ _ _ (λ o s, opened_seen o.1 s) (λ o, opened_ok command o.1)); [by apply runs_open_stream|].
  intros [opened events] Hok. cbn [fst snd] in Hok |- *. call runs_keeps. intros _u. call runs_lift_bind. intros p Hp.
  destruct (ccc_noop _); [by call runs_ret|]. apply runs_plan; [apply _|done|by intros s [_ ?]|]. by eapply Hleaves.
Qed.

Ltac planned_leaves E := let v := fresh "v" in let Hv := fresh "Hv" in
  step_ok E as v Hv; injection E as <-; cbn; match goal with |- context [if ?add then _ else _] => destruct add | _ => idtac end; leaves.

Lemma keeps_assignment command assignee add :
  Keeps extends inv (changeAssignment ids clock options env command assignee add).
Proof using All. apply keeps_collection. intros doctype events p E. unfold planDocumentAssignmentChangePolicy in E. destruct add; planned_leaves E. Qed.

Lemma keeps_tag command tag add : Keeps extends inv (changeTag ids clock options env command tag add).
Proof using All. apply keeps_collection. intros doctype events p E. unfold planDocumentTagChangePolicy in E. destruct add; planned_leaves E. Qed.

Lemma keeps_follower command follower add :
  Keeps extends inv (changeFollower ids clock options env command follower add).
Proof using All. apply keeps_collection. intros doctype events p E. unfold planDocumentFollowerChangePolicy in E. destruct add; planned_leaves E. Qed.

Lemma keeps_share command userId permissions :
  Keeps extends inv (share_document ids clock options env command userId permissions).
Proof using All.
  intros K HK. unfold share_document, commit_unless_noop.
  call (runs_learn _ _ _ _ _ (λ o s, opened_seen o.1 s) (λ o, opened_ok command o.1)); [by apply runs_open_stream|].
  intros [opened events] Hok. cbn [fst snd] in Hok |- *. call runs_keeps. intros access. call runs_lift_bind. intros p Hp.
  call runs_keeps. intros _u. destruct (sgp_noop p); [by call runs_ret|]. apply runs_plan; [apply _|done|by intros s [_ ?]|].
  destruct (share_plan_grant _ _ _ _ _ Hp) as (_ & _ & _ & ->). leaves.
Qed.

Lemma keeps_revoke command userId : Keeps extends inv (revoke_share ids clock options env command userId).
Proof using All.
  intros K HK. unfold revoke_share, commit_unless_noop.
  call (runs_learn _ _ _ _ _ (λ o s, opened_seen o.1 s) (λ o, opened_ok command o.1)); [by apply runs_open_stream|].
  intros [opened events] Hok. cbn [fst snd] in Hok |- *. call runs_keeps. intros access. call runs_lift_bind. intros p Hp.
  destruct (srp_noop p); [by call runs_ret|]. apply runs_plan; [apply _|done|by intros s [_ ?]|].
  unfold planDocumentShareRevocationPolicy in Hp. step_ok Hp as u Hu. injection Hp as <-. cbn. leaves.
Qed.

(** ** Creation *)

Section create.
Context (command : CreateDocumentCommand) (tenantId now : jstr) (context : DocumentServiceDocTypeContext).
Context (preparedData userSuppliedData : data).
Context (Hgood : good tenantId (dsc_doctype context)) (Hdok : doctype_ok (dsc_doctype context)).

Definition create_target (name stream : jstr) : Target :=
  {| tg_tenantId := tenantId; tg_doctype := dsc_doctype context; tg_name := name; tg_stream := stream |}.

(** The series of a resolution. *)
Definition series_named (resolution : DocumentNameResolution) : Prop :=
  ∀ name stream, series_of (create_target name stream) (nsw_write <$> dnr_write resolution).

#[local] Instance keeps_name doctype d : Keeps extends inv (resolveDocumentName (S := DocumentStore) ids doctype d).
Proof using Type.
  unfold resolveDocumentName. destruct (default NamingUuid (dt_naming doctype)); [apply _|destruct (vget _ _)..|]; apply _.
Qed.

Lemma runs_create_name K remaining occupied : Known K →
  Runs K (create_name ids env command tenantId now context preparedData remaining occupied) (λ r _, series_named r ∧ ∀ given, crc_name command = Some given → dnr_name r = given).
Proof using All.
  intros HK. unfold create_name. destruct (crc_name command) as [name|]; [call runs_ret; intros s _ _; split; [done|by intros given [= E]]|].
  unfold resolveName. destruct (dt_naming (dsc_doctype context)) as [[| | |strategy]|] eqn:En.
  1,2,3,5: call runs_keeps; intros name; call runs_ret; intros s _ _; by split.
  call (runs_learn _ _ _ _ _ (λ _ _, True) (λ write, ∀ name stream, series_of (create_target name stream) (Some (nsw_write write))));
    [|intros write Hw; call runs_ret; intros s _ _; by split; [exact Hw|]].
  unfold planNamingSeriesWrite.
  call runs_lift_bind. intros identity _. call runs_lift_bind. intros stream Hs. call runs_keeps. intros existing.
  call runs_keeps. intros scan. destruct (ncs_candidates scan); [call runs_throw|]. call runs_keeps. intros id.
  call runs_ret. intros s _ _. split; [done|]. intros name stream'. split; [done|]. eexists _, _. exact Hs.
Qed.

#[local] Instance keeps_issues name d :
  Keeps extends inv (create_issues host options env command tenantId now context userSuppliedData name d).
Proof using Henv. unfold create_issues. apply _. Qed.

#[local] Instance keeps_disposition e name write :
  Keeps extends inv (namingConflictDisposition env e (dsc_doctype context) tenantId name write).
Proof using Henv. unfold namingConflictDisposition. apply _. Qed.

(** The stream of a new document was empty, and starts with its creation. *)
Definition started (name stream : jstr) (s : DocumentStore) : Prop :=
  before (λ s0, stream_events (st_streams s0) stream = []) s ∧
  ∃ event d, head (log_of (st_streams s) stream) = Some event ∧ event_of (create_target name stream) event ∧
    e_payload event = PDocumentCreated d Draft.

Definition created (s : DocumentStore) : Prop :=
  ∃ name stream, documentStream tenantId (dt_name (dsc_doctype context)) name = Ok stream ∧
    (∀ given, crc_name command = Some given → name = given) ∧ started name stream s.

#[local] Instance stable_started name stream : Known (started name stream).
Proof using Type.
  intros s s' Hi Hg (He & event & d & Hhead & Hev). split; [exact (stable_once extends inv _ s s' Hi Hg He)|].
  exists event, d. split; [|done]. unfold log_of in *. destruct (Hg stream) as [more ->].
  by destruct (stream_events (st_streams s) stream).
Qed.

#[local] Instance stable_created : Known created.
Proof using Type. unfold created. apply _. Qed.

Lemma logged_started name stream event d s :
  event_of (create_target name stream) event → e_payload event = PDocumentCreated d Draft →
  logged inv (create_target name stream) None event s → started name stream s.
Proof using Type.
  intros Hev Hp (s0 & Hi & Hg & Hl & Hlog). cbn in Hl, Hlog. apply (Nat2Z.inj _ 0), nil_length_inv in Hl. split; [by exists s0|].
  exists event, d. split; [|done]. unfold log_of at 2 in Hlog. by rewrite Hlog, Hl.
Qed.

Definition outcome_started (resolution : DocumentNameResolution) (stream : jstr) (outcome : CreateOutcome) : DocumentStore → Prop :=
  match outcome with CreateDone _ _ => started (dnr_name resolution) stream | CreateAgain _ => λ _, True end.

Lemma runs_create_commit K resolution stream remaining occupied : Known K →
  documentStream tenantId (dt_name (dsc_doctype context)) (dnr_name resolution) = Ok stream → series_named resolution →
  Runs K (create_commit host ids planner event_object env command tenantId now context userSuppliedData
    resolution stream remaining occupied) (outcome_started resolution stream).
Proof using All.
  intros HK Hs Hseries. unfold create_commit. call runs_lift_bind. intros rs Hrs.
  call runs_bind; [by eapply (plan_reservations_decided K (λ _, True))|]. intros writes.
  assert (target_ok (create_target (dnr_name resolution) stream)) as Hok by done.
  call (runs_learn _ _ _ _ _ (λ _ _, True) (λ planned, runs_of (create_target (dnr_name resolution) stream) (acp_entries planned.2) ∧
    event_of (create_target (dnr_name resolution) stream) planned.1 ∧
    e_payload planned.1 = PDocumentCreated (dnr_data resolution) Draft)).
  - unfold plan_create. call runs_keeps. intros id. call runs_bind.
    + eapply (planned_runs _ (create_target (dnr_name resolution) stream)); [apply _|done|]. by split_and!.
    + intros automation. learn. intros Hruns. call runs_ret. intros s _ _. by split_and!.
  - intros [event automation] (Hruns & Hev & Hp). cbn [fst snd] in Hruns, Hev, Hp. apply runs_catching; [apply _|apply _| |].
    + eapply (runs_bind _ _ _ _ _ (λ _, started (dnr_name resolution) stream)); [apply _| |].
      2:{ intros commit. call runs_lift_bind. intros saved _. call runs_ret. by intros s _ [_ ?]. }
      eapply runs_last; [apply _| |intros commit s _ _; by eapply logged_started].
      intros c Hi ((Hc & planned & Hdec & Hwritten) & _).
      refine (runs_commit_create (λ s, Forall2 (λ r p, reservation_decided inv (λ _, True) r p s) rs planned)
        (create_target (dnr_name resolution) stream) Hgood Hok (nsw_write <$> dnr_write resolution) rs writes event automation
        (dnr_data resolution) planned (Hseries _ _) Hev Hp Hrs Hwritten Hruns _ c Hi Hdec). done.
    + intros e. call runs_keeps. intros disposition.
      destruct disposition as [[]|], (nsw_write <$> dnr_write resolution); try case_match; first [by call runs_ret|call runs_throw].
Qed.

Lemma runs_create_turn K remaining occupied : Known K →
  Runs K (create_turn host ids planner event_object options env command tenantId now context preparedData
    userSuppliedData remaining occupied) (λ out, match out.1 with CreateDone _ _ => created | CreateAgain _ => λ _, True end).
Proof using All.
  intros HK. unfold create_turn. call runs_bind; [by apply runs_create_name|]. intros resolution. learn. intros [Hseries Hgiven].
  call runs_keeps. intros issues. call runs_keeps. intros _u. call runs_lift_bind. intros stream Hs.
  call runs_keeps. intros existing. destruct (ensureDocumentCreateAvailable existing) as [_u2|e].
  - call runs_bind; [by eapply runs_create_commit|]. intros [commit saved|occupied']; call runs_ret; [|done].
    intros s _ [_ Hstarted]. by exists (dnr_name resolution), stream.
  - destruct (dnr_write resolution); [|call runs_throw]. case_match; [by call runs_ret|call runs_throw].
Qed.

Lemma runs_create_loop K fuel remaining occupied : Known K →
  Runs K (create_loop host ids planner event_object options env command tenantId now context preparedData
    userSuppliedData fuel remaining occupied) (λ _, created).
Proof using All.
  intros HK. revert remaining occupied. induction fuel as [|fuel IH]; intros remaining occupied; cbn [create_loop]; [call runs_throw|].
  destruct (0 <? remaining)%Z; [|call runs_throw]. call runs_bind; [by apply runs_create_turn|].
  intros [[commit saved|occupied'] remaining']; cbn [fst].
  - eapply runs_last; [apply _|apply keeps_finish; apply _|]. by intros snapshot s _ [_ ?].
  - eapply runs_mono; [apply IH|by intros s _ [? _]|done].
Qed.
End create.

(** A creation starts the stream of its document. *)
Lemma runs_create K command : Known K →
  Runs K (create_document host ids clock planner event_object options env command) (λ _ s,
    let tenantId := resolveTenant (crc_actor command) (crc_tenantId command) in
    ∃ context, doctypeContext options (crc_actor command) (crc_doctype command) tenantId = Ok context ∧
      created command tenantId context s).
Proof using All.
  intros HK. unfold create_document. call runs_lift_bind. intros context Hcontext.
  pose proof Hcontext as [Hgood Hok]%doctypeContext_ok.
  call runs_keeps. intros _u. call runs_keeps. intros _u2. call runs_keeps. intros _u3. call runs_keeps. intros now.
  call runs_keeps. intros validated. call runs_keeps. intros fetched. eapply runs_last; [exact HK|by apply (runs_create_loop command _ now context)|].
  intros snapshot s _ _ Hcreated. by exists context.
Qed.

Lemma keeps_create command :
  Keeps extends inv (create_document host ids clock planner event_object options env command).
Proof using All. intros K HK. by eapply runs_mono; [apply runs_create|..]. Qed.

Lemma keeps_copy amend command :
  Keeps extends inv (copy_document host ids clock planner event_object options env amend command).
Proof using All.
  intros K HK. unfold copy_document. call runs_learn; [by apply runs_open|]. intros [opened []] _.
  call runs_keeps. intros access. call runs_keeps. intros _u. call keeps_create.
Qed.

(** ** Every call *)

Lemma keeps_bulk (run : NormalizedSelection → Call DocumentSnapshot) command :
  (∀ selection, Keeps extends inv (run selection)) → Keeps extends inv (runBulkDocumentSelections run command).
Proof using Henv.
  intros Hrun. unfold runBulkDocumentSelections. call keeps_bind. intros selections.
  generalize {| bdr_succeeded := []; bdr_failed := [] |}.
  induction selections as [|selection selections IH]; intros result; cbn [run_selections]; [apply _|].
  unfold run_selection. apply _.
Qed.

End calls.

(** The calls of the service. *)
Inductive DocumentCall :=
| CallCreate (command : CreateDocumentCommand)
| CallUpdate (command : UpdateDocumentCommand)
| CallMerge (command : MergeDocumentCommand)
| CallCopy (amend : bool) (command : CopyDocumentCommand)
| CallTransition (command : DocumentCommand) (workflow action : jstr)
| CallExecute (command : DocumentCommand) (name : jstr) (input : data)
| CallDelete (command : DocumentCommand)
| CallStatus (cancel : bool) (command : DocumentCommand)
| CallComment (command : DocumentCommand) (text : jstr)
| CallActivity (command : DocumentCommand) (activity : ActivityInput)
| CallAssignment (command : DocumentCommand) (assignee : jstr) (add : bool)
| CallTag (command : DocumentCommand) (tag : jstr) (add : bool)
| CallFollower (command : DocumentCommand) (follower : option jstr) (add : bool)
| CallShare (command : DocumentCommand) (userId : jstr) (permissions : list jstr)
| CallRevoke (command : DocumentCommand) (userId : jstr)
| CallBulkDelete (command : BulkDocumentsCommand)
| CallBulkStatus (cancel : bool) (command : BulkDocumentsCommand)
| CallBulkTransition (command : BulkDocumentsCommand) (workflow action : jstr).

(** A call, for what it does to the store. *)
Definition perform (host : predicate_host) `{NamingHost} `{Collation} (upper : N → jstr) (ids clock : nat → jstr)
    (planner : AutomationRunPlanner) (event_object : NewDomainEvent → value) (options : DocumentServiceOptions)
    (env : nat → DocumentStore → DocumentStore) (call : DocumentCall) : M (Client DocumentStore) unit :=
  let ignoring {A} (m : M (Client DocumentStore) A) : M (Client DocumentStore) unit := _ ← m; mret tt in
  match call with
  | CallCreate command => ignoring (create_document host ids clock planner event_object options env command)
  | CallUpdate command => ignoring (update_document host ids clock planner event_object options env command)
  | CallMerge command => ignoring (merge_document host ids clock planner event_object options env command)
  | CallCopy amend command => ignoring (copy_document host ids clock planner event_object options env amend command)
  | CallTransition command workflow action =>
      ignoring (transition_document host upper ids clock planner event_object options env command workflow action)
  | CallExecute command name input =>
      ignoring (execute_command host upper ids clock planner event_object options env command name input)
  | CallDelete command => ignoring (delete_document ids clock options env command)
  | CallStatus cancel command => ignoring (change_status host ids clock planner event_object options env cancel command)
  | CallComment command text => ignoring (comment_document ids clock options env command text)
  | CallActivity command activity => ignoring (record_activity ids clock options env command activity)
  | CallAssignment command assignee add => ignoring (changeAssignment ids clock options env command assignee add)
  | CallTag command tag add => ignoring (changeTag ids clock options env command tag add)
  | CallFollower command follower add => ignoring (changeFollower ids clock options env command follower add)
  | CallShare command userId permissions => ignoring (share_document ids clock options env command userId permissions)
  | CallRevoke command userId => ignoring (revoke_share ids clock options env command userId)
  | CallBulkDelete command => ignoring (bulkDelete ids clock options env command)
  | CallBulkStatus cancel command =>
      ignoring (bulkChangeStatus host ids clock planner event_object options env cancel command)
  | CallBulkTransition command workflow action =>
      ignoring (bulkTransition host upper ids clock planner event_object options env command workflow action)
  end.

Section performed.
Context (host : predicate_host) `{NamingHost} `{Collation} (upper : N → jstr).
Context (ids clock : nat → jstr) (planner : AutomationRunPlanner) (event_object : NewDomainEvent → value).
Context (options : DocumentServiceOptions) (env : nat → DocumentStore → DocumentStore).
Context (inv : DocumentStore → Prop) (good : jstr → DocTypeDefinition → Prop).
Context (Hwf : ∀ s, inv s → wf_streams (st_streams s)) `{Henv : !Lawful env extends inv}.
Context (Hinv : ∀ s s', inv s → st_streams s' = st_streams s → inv s').
Context (Hstep : ∀ s s', inv s → document_step inv good s s' → inv s').
Context (Hdoctypes : ∀ actor name tenantId doctype,
  doctypeFor options actor name tenantId = Ok doctype → good tenantId doctype ∧ doctype_ok doctype).

Lemma perform_keeps call :
  Keeps extends inv (perform host upper ids clock planner event_object options env call).
Proof using All.
  destruct call; cbn [perform]; call keeps_bind.
  - by eapply keeps_create.
  - by eapply keeps_update.
  - by eapply keeps_merge.
  - by eapply keeps_copy.
  - by eapply keeps_transition.
  - by eapply keeps_execute.
  - by eapply keeps_delete.
  - by eapply keeps_status.
  - by eapply keeps_comment.
  - by eapply keeps_activity.
  - by eapply keeps_assignment.
  - by eapply keeps_tag.
  - by eapply keeps_follower.
  - by eapply keeps_share.
  - by eapply keeps_revoke.
  - eapply keeps_bulk; [done|]. intros selection. by eapply keeps_delete.
  - eapply keeps_bulk; [done|]. intros selection. by eapply keeps_status.
  - eapply keeps_bulk; [done|]. intros selection. by eapply keeps_transition.
Qed.

(** Whatever the steps keep, a call keeps, and it only appends to the streams. *)
Lemma perform_safe call c :
  inv (cl_store c) → let (r, c') := perform host upper ids clock planner event_object options env call c in
  inv (cl_store c') ∧ extends (cl_store c) (cl_store c').
Proof using All.
  intros Hi. pose proof (perform_keeps call (λ _, True) _ c Hi I) as Hc.
  destruct (perform _ _ _ _ _ _ _ _ _ c) as [r c']. by destruct Hc as (? & ? & _).
Qed.
End performed.

(** ** A sample application *)

Definition sample_service_doctype : DocTypeDefinition :=
  plain_doctype (js "Note") [plain_field (js "title") FText false false false None; plain_field (js "code") FText false true false None].

Definition sample_service : DocumentServiceOptions :=
  {| dso_registry := {| reg_doctypes := [(js "Note", sample_service_doctype)]; reg_resourceRoles := [] |};
     dso_hooksFor := λ _, []; dso_doctypeResolver := None; dso_userPermissions := None; dso_documentShares := None;
     dso_onHookError := None; dso_afterCommit := None |}.

Definition sample_administrator (id : jstr) : Actor :=
  {| actor_id := id; actor_roles := [js "System Manager"]; actor_tenantId := Some (js "acme"); actor_email := None |}.

(** Creates a note with a code. *)
Definition sample_creation (actor name code : jstr) : DocumentCall :=
  CallCreate {| crc_actor := sample_administrator actor; crc_doctype := js "Note";
    crc_data := [(js "title", VStr (js "a")); (js "code", VStr code)]; crc_tenantId := None; crc_name := Some name;
    crc_metadata := None; crc_eventType := None |}.

Definition sample_perform (ids : nat → jstr) (env : nat → DocumentStore → DocumentStore) (call : DocumentCall)
    (s : DocumentStore) : res unit * Client DocumentStore :=
  @perform sample_access_host sample_naming_host code_unit_collation (λ c, [c]) ids sample_clock sample_planner
    (λ _, VNull) sample_service env call (new_client s).

Lemma sample_service_doctypes actor name tenantId doctype :
  doctypeFor sample_service actor name tenantId = Ok doctype → doctype = sample_service_doctype.
Proof.
  unfold doctypeFor. intros E. step_ok E as base Hb. unfold registry_get in Hb.
  destruct (jm_get name _) as [d|] eqn:Ed; [|done]. injection Hb as ->. cbn in Ed. case_decide; [|done]. injection Ed as <-.
  unfold resolveTenantDocType in E. cbn in E. by injection E as <-.
Qed.

Lemma sample_service_doctype_ok : doctype_ok sample_service_doctype.
Proof.
  split.
  - by apply (bool_decide_unpack _).
  - by apply (bool_decide_unpack _).
  - by apply (bool_decide_unpack _).
  - intros field Hf. cbn in Hf. apply elem_of_cons in Hf as [-> | ->%list_elem_of_singleton]; by apply (bool_decide_unpack _).
  - by left.
  - by intros w ?%elem_of_nil.
Qed.

(** The others stay idle. *)
#[export] Instance idle_lawful inv : Lawful (λ _ s, s) extends inv.
Proof. intros k s Hi. by split. Qed.
