(* ===== verification/UpdateMarks.v ===== *)
(** * UpdateMarks: an update writes its event once

    The metadata of a command go into the one event that it writes: [update] of
    [application/document-service.ts] writes at most one event with them, one when it
    returns, and none in any other document's stream.  The callers that mark their
    commands count on it ([AutomationConsumer]). *)

From S2P Require Export DocumentCalls.

Section marks.
(** The events that carry a mark, and the document whose stream is watched. *)
Context (mark : data → bool) (watched : jstr) (watched_doctype : jstr).
Context (Hwatched : in_doctype watched_doctype watched) (Hinternal : watched_doctype ∉ INTERNAL_DOCTYPES).

Definition marks (s : DocumentStore) : nat :=
  length (filter (λ e, mark (e_metadata e) = true) (log_of (st_streams s) watched)).

Lemma marks_snoc s s' event :
  log_of (st_streams s') watched = log_of (st_streams s) watched ++ [event] →
  marks s' = marks s + (if mark (e_metadata event) then 1 else 0).
Proof using Type.
  unfold marks. intros ->. rewrite filter_app, length_app, filter_cons, filter_nil. by destruct (mark (e_metadata event)).
Qed.

Lemma marks_same s s' :
  stream_events (st_streams s') watched = stream_events (st_streams s) watched → marks s' = marks s.
Proof using Type. unfold marks, log_of. by intros ->. Qed.

(** Marks stay while the store grows. *)
Lemma marks_extends s s' : extends s s' → marks s <= marks s'.
Proof using Type.
  intros Hg. destruct (Hg watched) as [more Hm]. unfold marks, log_of. rewrite Hm, fmap_app, filter_app, length_app. lia.
Qed.

(** The stores with a number of marks. *)
Definition marked (n : nat) (s : DocumentStore) : Prop := wf_streams (st_streams s) ∧ marks s = n.

(** The marks that a command with these metadata adds when it writes in a stream. *)
Definition added (stream : jstr) (metadata : option data) : nat :=
  if decide (stream = watched) then if mark (default [] metadata) then 1 else 0 else 0.

(** ** Commits *)

Lemma commit_appended entries project s r s' :
  wf_streams (st_streams s) → (check_entries (st_streams s) entries = Ok tt → batch_ok entries) →
  commitBatch entries project s = (r, s') →
  match r with
  | Ok _ => appended entries s s'
  | Throw _ => st_streams s' = st_streams s ∨ appended entries s s'
  end.
Proof using Type.
  intros Hwf Hb Hc. destruct (check_entries (st_streams s) entries) as [[]|e] eqn:Hck.
  2:{ unfold commitBatch in Hc. rewrite m_bind_run in Hc. unfold m_get in Hc. rewrite m_bind_run in Hc.
      unfold m_lift at 1 in Hc. rewrite Hck in Hc. injection Hc as <- <-. by left. }
  specialize (Hb eq_refl). pose proof (commitBatch_written _ _ _ _ _ Hwf Hb Hc) as Hw.
  destruct r as [commit|e]; [|destruct Hw as [?|(saved & _ & Hw)]; [by left|right; split_and!; [done|done|by exists saved]]].
  pose proof (commitBatch_cases _ project _ Hwf Hb) as Hcases. rewrite Hc in Hcases.
  destruct Hcases as (p & _ & _ & _ & Hwr & _). split_and!; [done|done|by eexists].
Qed.

(** A commit of a command writes the event of its document, and no other document. *)
Lemma appended_marks `{NamingHost} inv target existing after event writes releases runs_ s s' :
  target_ok target → unique_change inv target existing after s writes releases → runs_of target runs_ →
  appended (step_entries target existing event None writes releases runs_) s s' →
  marks s' = marks s + added (tg_stream target) (Some (e_metadata event)).
Proof using Hwatched Hinternal.
  intros Hok Hu Hruns (Hb & Hck & saved & Hwr). unfold added. destruct (decide (tg_stream target = watched)) as [Ew|Hne].
  - apply marks_snoc. destruct Hwr as (_ & Hin & _). rewrite <-Ew.
    set (entry := {| ae_stream := tg_stream target; ae_expectedVersion := version_of existing; ae_events := [event] |}).
    destruct (Hin entry) as [_ Hlog]; [|exact Hlog].
    unfold step_entries, documentAtomicCommitEntries. rewrite !elem_of_app. left. right. right. right. by left.
  - rewrite Nat.add_0_r. apply marks_same. destruct Hwr as (_ & _ & Hout). apply Hout.
    eapply step_elsewhere; [exact Hok|exact Hu|done|done|exact Hwatched|done|done].
Qed.

(** ** The calls *)

Context (host : predicate_host) `{NamingHost} `{Collation}.
Context (ids clock : nat → jstr) (planner : AutomationRunPlanner) (event_object : NewDomainEvent → value).
Context (options : DocumentServiceOptions) (env : nat → DocumentStore → DocumentStore).
Context `{Henv : ∀ n, Lawful env extends (marked n)}.

Lemma marked_wf n s : marked n s → wf_streams (st_streams s).
Proof using Type. by intros [? _]. Qed.

(** What a call that adds marks leaves. *)
Abbreviation Adds n k := (leads extends (marked n) (λ s, marked n s ∨ marked (n + k) s) (marked (n + k))).

Lemma commit_adds n K target existing event after writes releases runs_ project :
  Stable extends (marked n) K → target_ok target → event_of target event → runs_of target runs_ →
  (∀ s, K s → unique_change (marked n) target existing (Some after) s writes releases) →
  Adds n (added (tg_stream target) (Some (e_metadata event))) K
    (update env (commitBatch (step_entries target existing event None writes releases runs_) project)) (λ _ _, True).
Proof using All.
  intros HK Hok Hev Hruns Hu. eapply leads_update; [apply _|apply _|exact HK|]. intros s [Hwf Hn] HKs.
  specialize (Hu s HKs). destruct (commitBatch _ project s) as [r s'] eqn:Hc.
  pose proof (commit_appended _ _ _ _ _ Hwf (λ _, step_entries_ok _ _ Hok _ _ _ _ None _ _ _ Hev Hu I Hruns) Hc) as Ha.
  assert (appended (step_entries target existing event None writes releases runs_) s s' →
    marked (n + added (tg_stream target) (Some (e_metadata event))) s' ∧ extends s s') as Happ.
  { intros Happ. pose proof (appended_marks _ _ _ _ _ _ _ _ _ _ Hok Hu Hruns Happ) as Hm.
    destruct Happ as (_ & _ & saved & Hwr). split; [split; [apply Hwr|by rewrite Hm, Hn]|].
    intros stream. by eapply batch_written_prefix. }
  destruct r as [commit|e]; [by destruct (Happ Ha)|]. destruct Ha as [E|Ha].
  - split; [left; split; [by rewrite E|by rewrite (marks_same s s') by (by rewrite E)]|]. intros stream. by rewrite E.
  - destruct (Happ Ha). split; [by right|done].
Qed.

#[local] Existing Instance keeps_read.
#[local] Existing Instance keeps_fetched.
#[local] Existing Instance keeps_links.
#[local] Existing Instance keeps_shared_access.
#[local] Existing Instance keeps_committed.
#[local] Existing Instance stable_reservation.
#[local] Existing Instance stable_release.
#[local] Existing Instance stable_forall2.

(** A rule for what comes before the write. *)
Tactic Notation "before_write" uconstr(R) := eapply R; try typeclasses eauto; [by left|..].

Lemma write_change_adds n K target e actor now next make_event metadata touched input :
  Stable extends (marked n) K → target_ok target → ds_docstatus e ≠ Deleted →
  (∀ s, K s → seen (marked n) (tg_stream target) (Some e) s) →
  (∀ id, event_of target (make_event id) ∧ e_metadata (make_event id) = default [] metadata) →
  Adds n (added (tg_stream target) metadata) K
    (write_change host ids planner event_object env (tg_doctype target) e (tg_stream target) (tg_tenantId target)
      actor now next make_event touched input) (λ _ _, True).
Proof using All.
  intros HK Hok Hlive Hseen Hmake. unfold write_change. before_write leads_lift. intros nextReservations En.
  before_write leads_lift. intros existingReservations Ee.
  before_write leads_reads; [by eapply (plan_reservations_decided _ _ _ (marked_wf n) K (seen (marked n) (tg_stream target) (Some e)))|].
  intros writes.
  before_write leads_reads; [eapply (plan_releases_decided _ _ _ (marked_wf n) _ (seen (marked n) (tg_stream target) (Some e)));
    [apply _|by intros s [? _]; apply Hseen]|]. intros releases.
  before_write leads_keeps. intros id. destruct (Hmake id) as [Hev Hmeta].
  before_write leads_reads; [by eapply planned_runs; [apply _|..]|]. intros automation.
  apply (leads_pure _ _ _ _ _ (runs_of target (acp_entries automation))). intros Hruns.
  eapply leads_last; [apply _|by right| |intros commit; apply _]. unfold added. rewrite <-Hmeta.
  apply (commit_adds n _ target (Some e) (make_event id) (document_after e (ds_docstatus e) next now)); [apply _|done..|].
  intros s [[Hs (planned & Hplanned & Hwritten)] (released & Hreleased & ->)]. left.
  eapply unique_moved; [done| | |exact Hplanned|exact Hwritten|exact Hreleased]; cbn; by rewrite bool_decide_eq_false_2.
Qed.

(** The documents of a command, as the doctypes of the application name them. *)
Context (Hdoctypes : ∀ actor name tenantId doctype,
  doctypeFor options actor name tenantId = Ok doctype → dt_name doctype = name ∧ doctype_ok doctype).

(** The marks that a command adds to the watched stream. *)
Definition command_marks (command : DocumentCommand) : nat :=
  match documentStream (resolveTenant (dcm_actor command) (dcm_tenantId command)) (dcm_doctype command) (dcm_name command) with
  | Ok stream => added stream (dcm_metadata command)
  | Throw _ => 0
  end.

Lemma apply_update_adds n K command opened commandPatch patch prevalidated unset eventType :
  Stable extends (marked n) K → opened_ok (λ _ _, True) command opened →
  (∀ s, K s → opened_seen (marked n) opened s) →
  Adds n (added (opd_stream opened) (dcm_metadata command)) K
    (applyDocumentUpdate host ids clock planner event_object options env command opened commandPatch patch prevalidated
      unset eventType) (λ _ _, True).
Proof using All.
  intros HK (_ & Hok & Hlive) Hseen. unfold applyDocumentUpdate.
  before_write leads_keeps. intros _u. before_write leads_keeps. intros patch'.
  before_write leads_keeps. intros fetched. before_write leads_keeps. intros changed. before_write leads_keeps. intros hookIssues.
  before_write leads_keeps. intros linkIssues. before_write leads_keeps. intros [normalized next].
  before_write leads_keeps. intros now. eapply leads_last; [apply _|by right| |intros committed; apply _].
  apply (write_change_adds n K (opened_target command opened) (opd_existing opened) _ _ _ _ (dcm_metadata command) _ _ HK Hok Hlive Hseen).
  intros id. split; [apply opened_event_of|done].
Qed.

Lemma open_named {A} inv K command (require : DocTypeDefinition → res A) :
  Lawful env extends inv → Stable extends inv K →
  runs extends inv K (open_document options env command require) (λ o _,
    opd_tenantId o.1 = resolveTenant (dcm_actor command) (dcm_tenantId command) ∧
    dt_name (dsc_doctype (opd_context o.1)) = dcm_doctype command).
Proof using Hdoctypes.
  intros He HK. unfold open_document. call runs_lift_bind. intros context Hc. call runs_lift_bind. intros required _.
  call runs_lift_bind. intros stream _. call runs_skip; [by apply runs_anything; apply _|]. intros existing.
  call runs_ret. intros s _ _. split; [done|]. cbn. unfold doctypeContext in Hc. step_ok Hc as root Hroot.
  destruct (resolveTenantDocTypeContext _ _ _) as [related|]; [|done]. step_ok Hc as r Hr. injection Hc as <-.
  by apply Hdoctypes in Hroot as [? _].
Qed.

(** An update adds its marks once: when it returns, or before it throws, or not at all. *)
Lemma update_adds n command :
  Adds n (command_marks (udc_command command)) (λ _, True)
    (update_document host ids clock planner event_object options env command) (λ _ _, True).
Proof using All.
  unfold update_document. before_write leads_reads; [apply runs_both; [apply (runs_open options env (marked n) (λ _ _, True) (marked_wf n)); [by intros ? ? ? ? ?%Hdoctypes; naive_solver|apply _]
    |by apply open_named; apply _]|].
  intros [opened []]. before_write leads_keeps. intros access.
  intros c Hi (_ & (Hseen & Hok & _) & Ht & Hd). cbn [fst snd] in *.
  assert (command_marks (udc_command command) = added (opd_stream opened) (dcm_metadata (udc_command command))) as ->.
  { destruct Hok as (_ & [_ Hs] & _). unfold command_marks. rewrite <-Ht, <-Hd.
    assert (documentStream (opd_tenantId opened) (dt_name (dsc_doctype (opd_context opened))) (dcm_name (udc_command command)) =
      Ok (opd_stream opened)) as -> by exact Hs. done. }
  revert c Hi Hseen. change (Adds n (added (opd_stream opened) (dcm_metadata (udc_command command))) (opened_seen (marked n) opened)
    (applyDocumentUpdate host ids clock planner event_object options env (udc_command command) opened (udc_patch command)
      (udc_patch command) false (udc_unset command) (udc_eventType command)) (λ _ _, True)).
  apply apply_update_adds; [apply _|exact Hok|done].
Qed.
End marks.
