(* ===== verification/AutomationConsumer.v ===== *)
(** * AutomationConsumer: the delivery of automation runs

    Models [application/automation-run-consumer.ts]: a drain claims the runs that are
    due and delivers each by an update of its target, which the marks of its events
    keep from being applied twice; a delivery that fails is retried later or given up.
    The run service, the document service and the projections are what the consumer is
    given ([AutomationRunConsumerOptions]); [service_consumer] gives it the services of
    [AutomationService] and [DocumentService], on one store. *)

From S2P Require Export UpdateMarks AutomationService.

Definition AUTOMATION_RUN_DRAIN_JOB_NAME : jstr := js "cf-frappe.automation-runs.drain".

Abbreviation Call := (M (Client DocumentStore)).

Record ClaimAutomationRunsCommand := {
  clm_tenantId : jstr;
  clm_claimId : option jstr;
  clm_limit : option Z;
  clm_now : option jstr;
  clm_leaseSeconds : option num
}.

Record AutomationRunConsumerRuns := {
  acr_claimPending : ClaimAutomationRunsCommand → Call (list AutomationRunRecord);
  acr_markDelivered : jstr → jstr → jstr → option data → Call AutomationRunRecord;
  acr_markFailed : jstr → jstr → jstr → jstr → option jstr → option data → Call AutomationRunRecord;
  acr_markDeadLettered : jstr → jstr → jstr → jstr → option data → Call AutomationRunRecord;
  acr_shouldDeadLetter : AutomationRunRecord → bool
}.

(** [AutomationRunConsumerOptions]: [aco_get] reads the projections, and [aco_actor]
    is the resolver, constant for an actor. *)
Record AutomationRunConsumerOptions := {
  aco_runs : AutomationRunConsumerRuns;
  aco_update : UpdateDocumentCommand → Call DocumentSnapshot;
  aco_get : jstr → jstr → jstr → DocumentStore → res (option DocumentSnapshot);
  aco_actor : option (AutomationRunRecord → res Actor)
}.

Record DrainAutomationRunsCommand := {
  drc_tenantId : jstr;
  drc_claimId : option jstr;
  drc_limit : option num;
  drc_now : option jstr;
  drc_leaseSeconds : option num
}.

Inductive DeliveryStatus := OutcomeDelivered | OutcomeFailed | OutcomeDead.
#[export] Instance DeliveryStatus_eq_dec : EqDecision DeliveryStatus.
Proof. solve_decision. Defined.

Record AutomationRunDeliveryOutcome := {
  ado_runId : jstr;
  ado_status : DeliveryStatus;
  ado_attempts : Z;
  ado_error : option jstr;
  ado_retryAt : option jstr
}.

Record AutomationRunDrainResult := {
  adr_tenantId : jstr;
  adr_claimed : nat;
  adr_delivered : nat;
  adr_failed : nat;
  adr_dead : nat;
  adr_outcomes : list AutomationRunDeliveryOutcome
}.

Definition defaultAutomationActor : Actor :=
  {| actor_id := js "__automation__"; actor_roles := [SYSTEM_MANAGER_ROLE]; actor_tenantId := None; actor_email := None |}.

(** [automationPatchChangesDocument(document, patch)]. *)
Definition automationPatchChangesDocument (document : DocumentSnapshot) (patch : data) : bool :=
  existsb (λ entry : jstr * value, negb (jsonEqual (vget entry.1 (ds_data document)) entry.2)) patch.

(** [automationRunRecordClaimId(record)]. *)
Definition automationRunRecordClaimId (record : AutomationRunRecord) : res jstr :=
  match ar_claimId record with
  | Some claimId => if decide (trim claimId = []) then Throw badRequest else Ok claimId
  | None => Throw badRequest
  end.

(** The target of a run. *)
Definition ar_target (record : AutomationRunRecord) : ResolvedAutomationAction := are_action (ar_enqueued record).

(** The metadata that the completions of a run carry. *)
Definition completion_metadata (record : AutomationRunRecord) : data :=
  let q := ar_enqueued record in
  [(js "sourceEventId", VStr (are_sourceEventId q)); (js "causationId", VStr (ar_id record));
   (js "correlationId", VStr (are_correlationId q)); (js "automationDepth", vint (are_automationDepth q));
   (js "automationPath", VArr (VStr <$> are_automationPath q)); (js "automationRuleId", VStr (are_ruleId q));
   (js "automationRuleName", VStr (are_ruleName q)); (js "automationActionDefinitionId", VStr (are_actionId q));
   (js "automationActionId", VStr (ar_id record))].

(** The metadata of the update that a run makes. *)
Definition update_metadata (record : AutomationRunRecord) : data :=
  let q := ar_enqueued record in
  [(js "automationActionId", VStr (ar_id record)); (js "automationRunId", VStr (ar_id record));
   (js "causationId", VStr (ar_id record)); (js "correlationId", VStr (are_correlationId q));
   (js "automationDepth", vint (are_automationDepth q)); (js "automationPath", VArr (VStr <$> are_automationPath q));
   (js "automationRuleId", VStr (are_ruleId q)); (js "automationRuleName", VStr (are_ruleName q));
   (js "automationActionDefinitionId", VStr (are_actionId q)); (js "sourceEventId", VStr (are_sourceEventId q));
   (js "sourceDoctype", VStr (are_sourceDoctype q)); (js "sourceDocumentName", VStr (are_sourceDocumentName q))].

(** The update that a run makes of a version of its target. *)
Definition delivery_command (actor : Actor) (record : AutomationRunRecord) (version : Z) : UpdateDocumentCommand :=
  {| udc_command := {| dcm_actor := actor; dcm_doctype := raa_doctype (ar_target record);
       dcm_name := raa_name (ar_target record); dcm_tenantId := Some (ar_tenantId record);
       dcm_expectedVersion := Some version; dcm_metadata := Some (update_metadata record) |};
     udc_patch := raa_patch (ar_target record); udc_unset := None; udc_eventType := None |}.

(** The stream of the target of a run. *)
Definition target_stream (record : AutomationRunRecord) : res jstr :=
  documentStream (ar_tenantId record) (raa_doctype (ar_target record)) (raa_name (ar_target record)).

(** [event.metadata.automationActionId === record.id]. *)
Definition applied_by (id : jstr) (metadata : data) : bool :=
  match vget (js "automationActionId") metadata with VStr s => bool_decide (s = id) | _ => false end.

(** A number of a command or a payload, as the limits of the runs read it. *)
Definition claim_limit (limit : option num) : res Z :=
  match limit with
  | None => automationRunClaimLimit None
  | Some n => match num_safe_integer n with Some l => automationRunClaimLimit (Some l) | None => Throw badRequest end
  end.

Section consumer.
Context `{DateHost} (clock : nat → jstr) (message : error → jstr).
Context (options : AutomationRunConsumerOptions) (env : nat → DocumentStore → DocumentStore).

Abbreviation runs := (aco_runs options).

(** [hasAppliedAction(record)]. *)
Definition hasAppliedAction (record : AutomationRunRecord) : Call bool :=
  stream ← m_lift (target_stream record);
  events ← read_stream env stream;
  mret (existsb (λ event : DomainEvent, applied_by (ar_id record) (e_metadata event)) events).

(** [automationActor(this.actor, record)]. *)
Definition automationActor (record : AutomationRunRecord) : res Actor :=
  default (λ _, Ok defaultAutomationActor) (aco_actor options) record.

(** The update of [deliverUpdateDocument], with its [catch]. *)
Definition apply_action (record : AutomationRunRecord) (target : DocumentSnapshot) : Call unit :=
  actor ← m_lift (automationActor record);
  catching (_ ← aco_update options (delivery_command actor record (ds_version target)); mret tt)
    (λ e, applied ← hasAppliedAction record; if applied : bool then mret tt else m_throw e).

(** [deliverUpdateDocument(record)]. *)
Definition deliverUpdateDocument (record : AutomationRunRecord) : Call unit :=
  applied ← hasAppliedAction record;
  if applied : bool then mret tt else
  target ← observe env (aco_get options (ar_tenantId record) (raa_doctype (ar_target record)) (raa_name (ar_target record)));
  match target with
  | None => m_throw plain_error
  | Some target =>
      if bool_decide (ds_docstatus target = Deleted) then m_throw plain_error
      else if negb (automationPatchChangesDocument target (raa_patch (ar_target record))) then mret tt
      else apply_action record target
  end.

(** [fail(record, claimId, now, error)]. *)
Definition fail (record : AutomationRunRecord) (claimId now error : jstr) : Call AutomationRunDeliveryOutcome :=
  if acr_shouldDeadLetter runs record then
    dead ← acr_markDeadLettered runs (ar_tenantId record) (ar_id record) claimId error (Some (completion_metadata record));
    mret {| ado_runId := ar_id dead; ado_status := OutcomeDead; ado_attempts := ar_attempts dead;
            ado_error := Some error; ado_retryAt := None |}
  else
    let retryAt := automationRunRetryAt now (ar_attempts record) (rp_baseDelaySeconds (ar_retry record))
      (rp_maxDelaySeconds (ar_retry record)) in
    failed ← acr_markFailed runs (ar_tenantId record) (ar_id record) claimId error (Some retryAt)
      (Some (completion_metadata record));
    mret {| ado_runId := ar_id failed; ado_status := OutcomeFailed; ado_attempts := ar_attempts failed;
            ado_error := Some error; ado_retryAt := Some retryAt |}.

(** [deliver(record, now)]. *)
Definition deliver (record : AutomationRunRecord) (now : jstr) : Call AutomationRunDeliveryOutcome :=
  claimId ← m_lift (automationRunRecordClaimId record);
  catching (
    _ ← deliverUpdateDocument record;
    delivered ← acr_markDelivered runs (ar_tenantId record) (ar_id record) claimId (Some (completion_metadata record));
    mret {| ado_runId := ar_id delivered; ado_status := OutcomeDelivered; ado_attempts := ar_attempts delivered;
            ado_error := None; ado_retryAt := None |})
    (λ e, fail record claimId now (message e)).

Definition outcome_count (status : DeliveryStatus) (outcomes : list AutomationRunDeliveryOutcome) : nat :=
  length (filter (λ outcome, ado_status outcome = status) outcomes).

(** [command.now ?? this.clock.now()], and what a drain asks the run service for. *)
Definition drain_now (command : DrainAutomationRunsCommand) (c : Client DocumentStore) : jstr :=
  default (clock (cl_tick c)) (drc_now command).
Definition drain_claim (command : DrainAutomationRunsCommand) (now : jstr) (limit : Z) : ClaimAutomationRunsCommand :=
  {| clm_tenantId := drc_tenantId command; clm_claimId := drc_claimId command; clm_limit := Some limit;
     clm_now := Some now; clm_leaseSeconds := drc_leaseSeconds command |}.

(** [drain(command)]. *)
Definition drain (command : DrainAutomationRunsCommand) : Call AutomationRunDrainResult :=
  c ← m_get;
  let now := drain_now command c in
  limit ← m_lift (claim_limit (drc_limit command));
  claimed ← acr_claimPending runs (drain_claim command now limit);
  outcomes ← m_map (λ record, deliver record now) claimed;
  mret {| adr_tenantId := drc_tenantId command; adr_claimed := length claimed;
          adr_delivered := outcome_count OutcomeDelivered outcomes; adr_failed := outcome_count OutcomeFailed outcomes;
          adr_dead := outcome_count OutcomeDead outcomes; adr_outcomes := outcomes |}.

End consumer.

(** ** The job *)

(** [parseAutomationRunDrainJobLimit(value)] and its neighbours. *)
Definition parseAutomationRunDrainJobLimit (v : value) : res (option num) :=
  match v with
  | VUndef => Ok None
  | VNum n => limit ← claim_limit (Some n); Ok (Some (num_of_Z limit))
  | _ => Throw badRequest
  end.
Definition parseAutomationRunDrainJobClaimId (v : value) : res (option jstr) :=
  match v with
  | VUndef => Ok None
  | VStr s => if decide (trim s = []) then Throw badRequest else Ok (Some s)
  | _ => Throw badRequest
  end.
Definition parseAutomationRunDrainJobLeaseSeconds (v : value) : res (option num) :=
  match v with
  | VUndef => Ok None
  | VNum n => Ok (Some n)
  | _ => Throw badRequest
  end.

Definition delivery_status_text (status : DeliveryStatus) : jstr :=
  match status with
  | OutcomeDelivered => js "delivered"
  | OutcomeFailed => js "failed"
  | OutcomeDead => js "dead"
  end.

(** [automationRunDrainResultJson(result)]. *)
Definition automationRunDrainResultJson (result : AutomationRunDrainResult) : data :=
  [(js "tenantId", VStr (adr_tenantId result)); (js "claimed", vint (Z.of_nat (adr_claimed result)));
   (js "delivered", vint (Z.of_nat (adr_delivered result))); (js "failed", vint (Z.of_nat (adr_failed result)));
   (js "dead", vint (Z.of_nat (adr_dead result)));
   (js "outcomes", VArr ((λ outcome, VObj (
      [(js "runId", VStr (ado_runId outcome)); (js "status", VStr (delivery_status_text (ado_status outcome)));
       (js "attempts", vint (ado_attempts outcome))] ++
      optional_entry (js "error") (VStr <$> ado_error outcome) ++
      optional_entry (js "retryAt") (VStr <$> ado_retryAt outcome))) <$> adr_outcomes result))].

(** The [handler] of [createAutomationRunDrainJob]; [consumer] is the [drain] of the
    consumer in the resources, if there is one. *)
Definition drain_handler (consumer : option (DrainAutomationRunsCommand → Call AutomationRunDrainResult))
    (tenantId : option jstr) (payload : data) : Call data :=
  match consumer with
  | None => m_throw (notFound AUTOMATION_RUN_NOT_FOUND)
  | Some drain =>
      limit ← m_lift (parseAutomationRunDrainJobLimit (vget (js "limit") payload));
      claimId ← m_lift (parseAutomationRunDrainJobClaimId (vget (js "claimId") payload));
      leaseSeconds ← m_lift (parseAutomationRunDrainJobLeaseSeconds (vget (js "leaseSeconds") payload));
      result ← drain {| drc_tenantId := default (js "default") tenantId; drc_claimId := claimId; drc_limit := limit;
                        drc_now := None; drc_leaseSeconds := leaseSeconds |};
      mret (automationRunDrainResultJson result)
  end.

(** ** The services of an application *)

Section services.
Context (host : predicate_host) `{NamingHost} `{Collation} `{DateHost}.
Context (ids clock : nat → jstr) (planner : AutomationRunPlanner) (event_object : NewDomainEvent → value).
Context (options : DocumentServiceOptions) (env : nat → DocumentStore → DocumentStore).
(** What the projections list and hold, and who acts. *)
Context (list_candidates : jstr → jstr → Z → DocumentStore → res (list AutomationRunRecord)).
Context (get : jstr → jstr → jstr → DocumentStore → res (option DocumentSnapshot)).
Context (actor : option (AutomationRunRecord → res Actor)).

(** An append of the run service takes an identifier and two awaits in each attempt. *)
Definition append_ids : nat := S MAX_AUTOMATION_RUN_APPEND_ATTEMPTS.
Definition append_awaits : nat := 2 * append_ids.

Definition on_runs {A} (m : (nat → jstr) → (nat → jstr) → (nat → DocumentStore → DocumentStore) → M DocumentStore A)
    : Call A := λ c,
  let (r, store) := m (λ n, ids (cl_ids c + n)) (λ n, clock (cl_tick c + n)) (λ n, env (cl_tick c + n)) (cl_store c) in
  (r, {| cl_tick := cl_tick c + append_awaits; cl_ids := cl_ids c + append_ids; cl_store := store |}).

Definition lease_seconds (leaseSeconds : option num) : res Z :=
  match leaseSeconds with
  | None => automationRunClaimLeaseSeconds None
  | Some n => match num_safe_integer n with Some l => automationRunClaimLeaseSeconds (Some l) | None => Throw badRequest end
  end.

(** [claimPending(command)], with the projections. *)
Definition service_claimPending (command : ClaimAutomationRunsCommand) : Call (list AutomationRunRecord) :=
  now ← match clm_now command with Some now => mret now | None => Interference.now clock end;
  limit ← m_lift (automationRunClaimLimit (clm_limit command));
  claimId ← match clm_claimId command with Some claimId => mret claimId | None => next_id ids end;
  leaseSeconds ← m_lift (lease_seconds (clm_leaseSeconds command));
  candidates ← observe env (list_candidates (clm_tenantId command) now limit);
  let selected := claimableAutomationRuns candidates now limit in
  claimed ← m_map (λ record, on_runs (λ ids _ env,
    claimOne host ids env (clm_tenantId command) (ar_id record) claimId now leaseSeconds)) selected;
  mret (selectedAutomationRunRecords (omap id claimed) (Some (ar_id <$> selected))).

(** The consumer with the run service and the document service. *)
Definition service_runs : AutomationRunConsumerRuns :=
  {| acr_claimPending := service_claimPending;
     acr_markDelivered := λ tenantId runId claimId metadata, on_runs (λ ids clock env,
       markDelivered host ids clock env tenantId runId claimId metadata);
     acr_markFailed := λ tenantId runId claimId error retryAt metadata, on_runs (λ ids clock env,
       markFailed host ids clock env tenantId runId claimId error retryAt metadata);
     acr_markDeadLettered := λ tenantId runId claimId error metadata, on_runs (λ ids clock env,
       markDeadLettered host ids clock env tenantId runId claimId error metadata);
     acr_shouldDeadLetter := automationRunShouldDeadLetter |}.

Definition service_consumer : AutomationRunConsumerOptions :=
  {| aco_runs := service_runs;
     aco_update := update_document host ids clock planner event_object options env;
     aco_get := get; aco_actor := actor |}.
End services.

(** ** What a drain returns *)

Section outcomes.
Context `{DateHost} (clock : nat → jstr) (message : error → jstr).
Context (options : AutomationRunConsumerOptions) (env : nat → DocumentStore → DocumentStore).

(** The runs that a drain claims. *)
Definition drain_claimed (command : DrainAutomationRunsCommand) (c : Client DocumentStore)
    (claimed : list AutomationRunRecord) : Prop :=
  ∃ limit, claim_limit (drc_limit command) = Ok limit ∧ ∃ c1,
  acr_claimPending (aco_runs options) (drain_claim command (drain_now clock command c) limit) c = (Ok claimed, c1).

(** The outcome of a run: delivered, to be retried while attempts are left, or dead. *)
Definition outcome_of (now : jstr) (record : AutomationRunRecord) (outcome : AutomationRunDeliveryOutcome) : Prop :=
  let retryAt := automationRunRetryAt now (ar_attempts record) (rp_baseDelaySeconds (ar_retry record))
    (rp_maxDelaySeconds (ar_retry record)) in
  match ado_status outcome with
  | OutcomeDelivered => ado_error outcome = None ∧ ado_retryAt outcome = None
  | OutcomeFailed => acr_shouldDeadLetter (aco_runs options) record = false ∧
      (∃ e, ado_error outcome = Some (message e)) ∧ ado_retryAt outcome = Some retryAt
  | OutcomeDead => acr_shouldDeadLetter (aco_runs options) record = true ∧
      (∃ e, ado_error outcome = Some (message e)) ∧ ado_retryAt outcome = None
  end.

Lemma fail_outcome record claimId now e c outcome c' :
  fail options record claimId now (message e) c = (Ok outcome, c') → outcome_of now record outcome.
Proof using Type.
  unfold fail, outcome_of. destruct (acr_shouldDeadLetter _ record) eqn:E; rewrite m_bind_run.
  - destruct (acr_markDeadLettered _ _ _ _ _ _ c) as [[r|e'] c1]; intros [= <- <-]. cbn.
    split; [done|split; [by exists e|done]].
  - destruct (acr_markFailed _ _ _ _ _ _ _ c) as [[r|e'] c1]; intros [= <- <-]. cbn.
    split; [done|split; [by exists e|done]].
Qed.

Lemma deliver_outcome record now c outcome c' :
  deliver message options env record now c = (Ok outcome, c') → outcome_of now record outcome.
Proof using Type.
  unfold deliver. rewrite m_bind_run. unfold m_lift. destruct (automationRunRecordClaimId record) as [claimId|e]; [|done].
  unfold catching. rewrite m_bind_run. destruct (deliverUpdateDocument options env record c) as [[u|e] c1]; [|apply fail_outcome].
  rewrite m_bind_run. destruct (acr_markDelivered _ _ _ _ _ c1) as [[r|e] c2]; [|apply fail_outcome]. by intros [= <- <-].
Qed.

Lemma outcome_counts outcomes :
  length outcomes = outcome_count OutcomeDelivered outcomes + outcome_count OutcomeFailed outcomes + outcome_count OutcomeDead outcomes.
Proof using Type.
  unfold outcome_count. induction outcomes as [|outcome outcomes IH]; [done|]. rewrite !filter_cons. cbn [length]. rewrite IH.
  destruct (ado_status outcome) eqn:E; repeat (first [rewrite decide_True by done|rewrite decide_False by done]); cbn [length]; lia.
Qed.

(** A drain, unfolded: it fails before it claims, or delivers what it claims. *)
Lemma drain_run command c :
  (∃ e c1, drain clock message options env command c = (Throw e, c1) ∧
     (c1 = c ∨ ∃ claim, acr_claimPending (aco_runs options) claim c = (Throw e, c1))) ∨
  ∃ claimed c1, (∃ limit, claim_limit (drc_limit command) = Ok limit ∧
      acr_claimPending (aco_runs options) (drain_claim command (drain_now clock command c) limit) c = (Ok claimed, c1)) ∧
    drain clock message options env command c =
    match m_map (λ record, deliver message options env record (drain_now clock command c)) claimed c1 with
    | (Ok outcomes, c2) =>
        (Ok {| adr_tenantId := drc_tenantId command; adr_claimed := length claimed;
               adr_delivered := outcome_count OutcomeDelivered outcomes; adr_failed := outcome_count OutcomeFailed outcomes;
               adr_dead := outcome_count OutcomeDead outcomes; adr_outcomes := outcomes |}, c2)
    | (Throw e, c2) => (Throw e, c2)
    end.
Proof using Type.
  unfold drain. rewrite m_bind_run. unfold m_get. rewrite m_bind_run. unfold m_lift.
  destruct (claim_limit (drc_limit command)) as [limit|e]; [|left; exists e, c; by split; [|left]].
  rewrite m_bind_run. destruct (acr_claimPending _ _ c) as [[claimed|e] c1] eqn:E; [right|left].
  - exists claimed, c1. split; [by exists limit|]. rewrite m_bind_run. by destruct (m_map _ _ _) as [[?|?] ?].
  - exists e, c1. split; [done|]. right. by eexists.
Qed.
End outcomes.

(** ** What the consumer relies on *)

Section tracked.
(** One action, by its identifier, and the stream of its target. *)
Context (id watched : jstr).

(** How many times the action was applied. *)
Definition applications : DocumentStore → nat := marks (applied_by id) watched.
Definition applied_times : nat → DocumentStore → Prop := marked (applied_by id) watched.

(** It was applied once, or not yet. *)
Definition at_most_once (s : DocumentStore) : Prop := wf_streams (st_streams s) ∧ applications s <= 1.

Lemma at_most_once_times s : at_most_once s ↔ applied_times 0 s ∨ applied_times 1 s.
Proof using Type.
  unfold at_most_once, applied_times, marked. fold (applications s). split.
  - intros [Hwf Hn]. destruct (decide (applications s = 0)); [left; by split|right; split; [done|lia]].
  - intros [[? ?]|[? ?]]; (split; [done|lia]).
Qed.

Definition is_watched (record : AutomationRunRecord) : Prop := target_stream record = Ok watched ∧ ar_id record = id.

Context `{DateHost} (message : error → jstr).
Context (options : AutomationRunConsumerOptions) (env : nat → DocumentStore → DocumentStore).
(** Nobody else applies the action. *)
Context `{Henv : ∀ n, Lawful env extends (applied_times n)}.

(** What the services promise: the run service leaves documents alone, and an update
    writes the marks of its command once. *)
Class Services : Prop := {
  services_claim command : Keeps extends at_most_once (acr_claimPending (aco_runs options) command);
  services_delivered t r c m : Keeps extends at_most_once (acr_markDelivered (aco_runs options) t r c m);
  services_failed t r c e at_ m : Keeps extends at_most_once (acr_markFailed (aco_runs options) t r c e at_ m);
  services_dead t r c e m : Keeps extends at_most_once (acr_markDeadLettered (aco_runs options) t r c e m);
  services_update n command :
    let k := command_marks (applied_by id) watched (udc_command command) in
    leads extends (applied_times n) (λ s, applied_times n s ∨ applied_times (n + k) s) (applied_times (n + k))
      (λ _, True) (aco_update options command) (λ _ _, True)
}.
#[local] Existing Instances services_claim services_delivered services_failed services_dead.
Context `{Hservices : !Services}.

#[local] Instance at_most_once_lawful : Lawful env extends at_most_once.
Proof using Henv.
  intros k s [Hs|Hs]%at_most_once_times; destruct (Henv _ k s Hs) as [Hs' Hg];
    (split; [apply at_most_once_times; by auto|exact Hg]).
Qed.

(** Once applied, it stays applied once. *)
#[local] Instance applied_stable : Stable extends at_most_once (λ s, applications s = 1).
Proof using Type.
  intros s s' [_ Hs'] Hg Hs. pose proof (marks_extends (applied_by id) watched _ _ Hg) as Hm.
  fold (applications s) (applications s') in Hm. lia.
Qed.

(** The action was applied, or its target was found to have its values already. *)
Definition unneeded (record : AutomationRunRecord) (s : DocumentStore) : Prop :=
  ∃ target, aco_get options (ar_tenantId record) (raa_doctype (ar_target record)) (raa_name (ar_target record)) s = Ok (Some target) ∧
    ds_docstatus target ≠ Deleted ∧ automationPatchChangesDocument target (raa_patch (ar_target record)) = false.

Definition settled (record : AutomationRunRecord) (s : DocumentStore) : Prop :=
  is_watched record → applications s = 1 ∨ once extends at_most_once (unneeded record) s.

Lemma existsb_marks events :
  existsb (λ event : DomainEvent, applied_by id (e_metadata event)) events = true ↔
  length (filter (λ e, applied_by id (e_metadata e) = true) (e_new <$> events)) ≠ 0.
Proof using Type.
  induction events as [|event events IH]; cbn -[filter]; [by split|]. rewrite filter_cons, orb_true_iff, IH. cbn -[filter].
  destruct (applied_by id (e_metadata event)) eqn:E.
  - rewrite decide_True by done. split; [done|by left].
  - rewrite decide_False by done. naive_solver.
Qed.

(** The check of the marks tells whether the action was applied. *)
Lemma runs_has_applied n K record :
  Stable extends (applied_times n) K →
  runs extends (applied_times n) K (hasAppliedAction env record)
    (λ b _, (∃ stream, target_stream record = Ok stream) ∧ (is_watched record → b = true ↔ n ≠ 0)).
Proof using Henv.
  intros HK. unfold hasAppliedAction. call runs_lift_bind. intros stream Hs. unfold read_stream.
  call runs_bind; [call runs_observe|]. intros events. call runs_ret. intros s Hi [_ Er]. split; [by exists stream|].
  intros [Hs' Hid]. rewrite Hs in Hs'. injection Hs' as ->. destruct Hi as [Hwf Hn].
  rewrite (readStream_all (λ s, wf_streams (st_streams s)) (λ _ H, H)) in Er by done. injection Er as <-.
  rewrite Hid, existsb_marks. by rewrite <-Hn.
Qed.

Lemma update_metadata_id record : applied_by id (update_metadata record) = bool_decide (ar_id record = id).
Proof using Type. reflexivity. Qed.

Lemma delivery_marks actor record version :
  (∃ stream, target_stream record = Ok stream) →
  (is_watched record ∧ command_marks (applied_by id) watched (udc_command (delivery_command actor record version)) = 1) ∨
  (¬ is_watched record ∧ command_marks (applied_by id) watched (udc_command (delivery_command actor record version)) = 0).
Proof using Type.
  intros [stream Hs]. unfold is_watched. rewrite Hs. unfold target_stream in Hs. unfold command_marks.
  cbn [udc_command delivery_command dcm_actor dcm_tenantId dcm_doctype dcm_name dcm_metadata resolveTenant default Datatypes.id].
  rewrite Hs. unfold added. destruct (decide (stream = watched)) as [->|Hne]; [|right; split; [by intros [[= ?] _]|done]].
  cbn [default Datatypes.id]. rewrite update_metadata_id. case_bool_decide as Hid; [by left|right]. split; [by intros [_ ?]|done].
Qed.

Lemma times_at_most_once n s : n <= 1 → applied_times n s → at_most_once s.
Proof using Type. intros Hn [Hwf Hm]. split; [done|]. unfold applications. lia. Qed.

(** What a failed update leaves is read again. *)
Lemma applied_after_failure n record e :
  n <= 1 →
  leads extends (applied_times n) at_most_once at_most_once (λ _, True)
    (applied ← hasAppliedAction env record; if applied : bool then mret tt else m_throw e)
    (λ _ s, is_watched record → applications s = 1).
Proof using Henv.
  intros Hn. apply leads_runs; [|by intros s; apply times_at_most_once..].
  call runs_bind; [call runs_has_applied|]. intros []; [|call runs_throw].
  call runs_ret. intros s [_ Hm] [_ [_ Hb]] Hw. unfold applications. rewrite Hm. pose proof (proj1 (Hb Hw) eq_refl). lia.
Qed.

Lemma apply_action_applies n K record target :
  n <= 1 → Stable extends (applied_times n) K → (∃ stream, target_stream record = Ok stream) → (is_watched record → n = 0) →
  leads extends (applied_times n) at_most_once at_most_once K (apply_action options env record target)
    (λ _ s, is_watched record → applications s = 1).
Proof using All.
  intros Hn HK Hstream Hzero. unfold apply_action. eapply leads_lift; [apply _|by intros s; apply times_at_most_once|exact HK|].
  intros actor _. pose proof (services_update n (delivery_command actor record (ds_version target))) as Hu. cbv zeta in Hu.
  set (k := command_marks _ _ _) in Hu.
  assert (n + k <= 1 ∧ (is_watched record → n + k = 1)) as [Hk Hw].
  { destruct (delivery_marks actor record (ds_version target) Hstream) as [[Hw Hk]|[Hw Hk]]; fold k in Hk; rewrite Hk.
    - rewrite (Hzero Hw). by split.
    - split; [lia|done]. }
  eapply leads_catching; [apply _| |].
  - eapply (leads_mono _ _ _ _ _ (applied_times (n + k))); [eapply leads_last; [apply _| |exact Hu|]|..].
    + by right.
    + intros snapshot. apply _.
    + intros s Hs _. by split.
    + by intros s Hs.
    + intros [] s Hs _. split; [by eapply times_at_most_once|]. intros Hwa. rewrite <-(Hw Hwa). apply Hs.
  - intros e c Hc _. destruct Hc as [Hc|Hc]; [apply (applied_after_failure n record e Hn c Hc I)|].
    apply (applied_after_failure (n + k) record e Hk c Hc I).
Qed.

(** A delivery settles its action, and applies none twice. *)
Lemma deliver_update_settles n record :
  n <= 1 →
  leads extends (applied_times n) at_most_once at_most_once (λ _, True) (deliverUpdateDocument options env record)
    (λ _ s, settled record s).
Proof using All.
  intros Hn. assert (∀ s, applied_times n s → at_most_once s) as Hsub by (intros s; by apply times_at_most_once).
  unfold deliverUpdateDocument. eapply leads_reads; [apply _|done|apply _|call runs_has_applied|]. intros [].
  - apply leads_runs; [|done..]. call runs_ret. intros s [_ Hm] (_ & _ & Hb) Hw. left.
    unfold applications. rewrite Hm. pose proof (proj1 (Hb Hw) eq_refl). lia.
  - eapply leads_reads; [apply _|done|apply _|call runs_observed|]. intros target.
    destruct target as [target|]; [|apply leads_runs; [call runs_throw|done..]].
    case_bool_decide as Hlive; [apply leads_runs; [call runs_throw|done..]|].
    destruct (automationPatchChangesDocument target _) eqn:Hchange; cbn [negb].
    + intros c Hi ((_ & Hstream & Hb) & _).
      assert (is_watched record → n = 0) as Hzero.
      { intros Hw. destruct n as [|n]; [done|]. destruct (Hb Hw) as [_ Hb']. by specialize (Hb' ltac:(done)). }
      pose proof (apply_action_applies n (λ _, True) record target Hn ltac:(apply _) Hstream Hzero c Hi I) as Hc.
      destruct (apply_action options env record target c) as [[a|e] c']; [|done].
      destruct Hc as (? & ? & Ha). split_and!; [done|done|]. intros Hw. left. by apply Ha.
    + apply leads_runs; [|done..]. call runs_ret. intros s Hi [_ Hs] _. right.
      destruct Hs as (s0 & Hi0 & Hg & _ & Hget). exists s0. split_and!; [by apply Hsub|done|]. by exists target.
Qed.

#[local] Instance settled_stable record : Stable extends at_most_once (settled record).
Proof using Type.
  intros s s' Hi Hg Hs Hw. destruct (Hs Hw) as [Ha|Ho]; [left|right].
  - by eapply applied_stable.
  - exact (stable_once extends at_most_once _ s s' Hi Hg Ho).
Qed.

Lemma runs_deliver_update record :
  runs extends at_most_once (λ _, True) (deliverUpdateDocument options env record) (λ _, settled record).
Proof using All.
  apply runs_leads. intros c [Hc|Hc]%at_most_once_times _.
  - by apply (deliver_update_settles 0 record ltac:(lia) c).
  - by apply (deliver_update_settles 1 record ltac:(lia) c).
Qed.

Lemma runs_deliver record now :
  runs extends at_most_once (λ _, True) (deliver message options env record now)
    (λ outcome s, ado_status outcome = OutcomeDelivered → settled record s).
Proof using All.
  unfold deliver. call runs_lift_bind. intros claimId _. apply runs_catching; [apply _|apply _| |].
  - call runs_bind; [apply runs_deliver_update|]. intros []. eapply runs_last; [apply _|call runs_anything|].
    by intros outcome s _ [_ Hs] _ _.
  - intros e. unfold fail. destruct (acr_shouldDeadLetter _ _); call runs_keeps; intros r; by call runs_ret.
Qed.

Context (clock : nat → jstr).

(** A drain settles each run that it claims, or fails to deliver it. *)
Lemma drain_settles command c :
  at_most_once (cl_store c) →
  let (r, c') := drain clock message options env command c in
  at_most_once (cl_store c') ∧ extends (cl_store c) (cl_store c') ∧
  ∀ result, r = Ok result → ∃ claimed, drain_claimed clock options command c claimed ∧
    Forall2 (λ record outcome, ado_status outcome = OutcomeDelivered → settled record (cl_store c')) claimed (adr_outcomes result).
Proof using All.
  intros Hi. destruct (drain clock message options env command c) as [r c'] eqn:Hd.
  destruct (drain_run clock message options env command c) as [(e & c1 & Hrun & Hc1)|(claimed & c1 & Hclaimed & Hrun)];
    rewrite Hd in Hrun.
  - injection Hrun as -> ->. destruct Hc1 as [-> |(claim & Hclaim)]; [split_and!; [done|reflexivity|done]|].
    pose proof (services_claim claim (λ _, True) ltac:(apply _) c Hi I) as Hc. rewrite Hclaim in Hc.
    destruct Hc as (? & ? & _). by split_and!.
  - pose proof Hclaimed as (limit & Hlimit & Hclaim).
    pose proof (services_claim (drain_claim command (drain_now clock command c) limit) (λ _, True) ltac:(apply _) c Hi I) as Hc.
    rewrite Hclaim in Hc. destruct Hc as (Hi1 & Hg1 & _).
    pose proof (runs_map extends at_most_once (λ _, True) (λ record, deliver message options env record (drain_now clock command c))
      (λ record outcome s, ado_status outcome = OutcomeDelivered → settled record s) claimed ltac:(apply _) ltac:(apply _)
      (λ record _, runs_deliver record _) c1 Hi1 I) as Hm.
    destruct (m_map _ claimed c1) as [[outcomes|e] c2]; injection Hrun as -> ->; destruct Hm as (? & ? & Hout).
    + split_and!; [done|by etrans|]. intros result [= <-]. exists claimed. split; [by exists limit; split; [|exists c1]|]. by apply Hout.
    + split_and!; [done|by etrans|done].
Qed.
End tracked.
