(* ===== verification/AutomationDelivery.v ===== *)
(** * AutomationDelivery: actions are applied at most once

    The services of an application, [AutomationService] and [DocumentService] on one
    store, are what the consumer of automation runs relies on ([Services]): so a run
    that is claimed, delivered, interrupted, claimed again and delivered again applies
    its action once, whatever other clients do in between that is not this action. *)

From S2P Require Export AutomationConsumer.

(** ** The run service leaves other streams alone *)

(** Only one stream was written. *)
Definition only_writes (stream : jstr) (s s' : DocumentStore) : Prop :=
  wf_streams (st_streams s') ∧ extends s s' ∧
  ∀ st, st ≠ stream → stream_events (st_streams s') st = stream_events (st_streams s) st.

Lemma only_writes_same stream s s' : wf_streams (st_streams s) → st_streams s' = st_streams s → only_writes stream s s'.
Proof. intros Hwf E. unfold only_writes. rewrite E. split_and!; [done| |done]. intros st. by rewrite E. Qed.

(** A commit to one stream writes that stream only, whatever stream its events name. *)
Lemma commit_only_writes stream v event project s r s' :
  wf_streams (st_streams s) →
  commitBatch [{| ae_stream := stream; ae_expectedVersion := v; ae_events := [event] |}] project s = (r, s') →
  only_writes stream s s'.
Proof.
  intros Hwf Hc. destruct (decide (e_stream event = stream)) as [Hs|Hs].
  - assert (batch_ok [{| ae_stream := stream; ae_expectedVersion := v; ae_events := [event] |}]) as Hb.
    { split; [apply NoDup_singleton|]. intros entry ->%list_elem_of_singleton ev Hev. by apply list_elem_of_singleton in Hev as ->. }
    destruct (commitBatch_step _ _ _ _ _ Hwf Hb Hc) as [E|(saved & Hw)]; [by apply only_writes_same|].
    pose proof Hw as (Hwf' & _ & Hout). split_and!; [done|intros st; by eapply batch_written_prefix|].
    intros st Hst. apply Hout. cbn. by intros ?%list_elem_of_singleton.
  - unfold commitBatch in Hc. rewrite m_bind_run in Hc. unfold m_get in Hc. rewrite m_bind_run in Hc. unfold m_lift at 1 in Hc.
    destruct (check_entries _ _) as [u|e]; [|injection Hc as _ <-; by apply only_writes_same].
    rewrite m_bind_run in Hc. unfold m_lift at 1 in Hc.
    destruct (sequence_entries _) as [saved|e] eqn:Hsq; [|injection Hc as _ <-; by apply only_writes_same].
    rewrite m_bind_run in Hc. unfold m_lift at 1 in Hc.
    destruct (project saved) as [p|e]; [|injection Hc as _ <-; by apply only_writes_same].
    rewrite m_bind_run in Hc. unfold on_streams in Hc.
    destruct (write_entries_run saved [{| ae_stream := stream; ae_expectedVersion := v; ae_events := [event] |}] (st_streams s))
      as (m' & Hrun & Hjm & _ & Hex); [by eapply sequence_entries_json|].
    rewrite Hrun in Hc. rewrite m_bind_run in Hc. fold (projected p) in Hc.
    pose proof (saves_run (projected p) (with_streams (λ _, m') s)) as Hsave.
    destruct (m_each save _ _) as [o s1]. destruct Hsave as [Hst _].
    assert (s' = s1) as -> by (destruct o as [[]|e]; by injection Hc as _ <-).
    assert (mine saved stream = []) as Hmine.
    { apply sequence_entries_groups in Hsq as (groups & -> & HF). inversion HF as [|en group ens gs Hg Hnil]; subst.
      inversion Hnil; subst. cbn. rewrite app_nil_r. apply filter_none. intros e He. destruct Hg as [Hg _]. cbn in Hg.
      apply (list_elem_of_fmap_2 e_new) in He. rewrite Hg in He. by apply list_elem_of_singleton in He as ->. }
    assert (∀ st, stream_events m' st = stream_events (st_streams s) st) as Hsame.
    { intros st. rewrite Hex by apply NoDup_singleton. destruct (decide _) as [Hin|]; [|by rewrite app_nil_r].
      cbn in Hin. apply list_elem_of_singleton in Hin as ->. by rewrite Hmine, app_nil_r. }
    unfold only_writes. rewrite Hst. cbn [st_streams with_streams]. split_and!.
    + split; [by apply Hjm, Hwf|]. intros st. rewrite Hsame. apply Hwf.
    + intros st. rewrite Hst. cbn [st_streams with_streams]. by rewrite Hsame.
    + intros st _. apply Hsame.
Qed.

Section elsewhere.
(** What holds of a store while only the stream of the run is written. *)
Context (P : DocumentStore → Prop) (Hwf : ∀ s, P s → wf_streams (st_streams s)).
Context (env : nat → DocumentStore → DocumentStore) (Henv : ∀ n s, P s → P (env n s) ∧ extends s (env n s)).

Lemma append_elsewhere host tenantId stream plan allow fuel attempt s :
  (∀ s s', P s → only_writes stream s s' → P s') → P s →
  let (_, s') := append_attempts host env tenantId stream plan allow fuel attempt s in P s' ∧ extends s s'.
Proof using Hwf Henv.
  intros Hwrites. revert attempt s. induction fuel as [|fuel IH]; intros attempt s Hs; cbn [append_attempts]; [by split|].
  destruct (Henv (2 * attempt) s Hs) as [Hs1 Hg1]. destruct (Henv (2 * attempt + 1) _ Hs1) as [Hs2 Hg2].
  assert (extends s (env (2 * attempt + 1) (env (2 * attempt) s))) as Hg by (by etrans).
  rewrite m_bind_run. unfold others at 1. rewrite m_bind_run. unfold m_get. rewrite m_bind_run. unfold m_lift at 1.
  destruct (readStream _ stream run_read_options) as [events|e]; [|by split].
  rewrite m_bind_run. unfold others at 1. rewrite m_bind_run. unfold m_lift at 1.
  destruct (plan attempt _) as [planned|e]; [|by split].
  destruct (pl_event planned) as [event|].
  2:{ destruct (pl_record planned); [by split|]. destruct allow; [by split|]. rewrite m_bind_run. unfold m_lift.
      by destruct (requireAutomationRunRecord _). }
  set (record := foldAutomationRun tenantId events). unfold m_catch.
  assert (let (_, s') := commit_run_event host tenantId stream events record event (env (2 * attempt + 1) (env (2 * attempt) s)) in
    P s' ∧ extends s s') as Hcommit.
  { unfold commit_run_event. rewrite m_bind_run. destruct (commitBatch _ _ _) as [r s'] eqn:Hc.
    apply commit_only_writes in Hc as Hw; [|by apply Hwf]. assert (P s') by (by eapply Hwrites).
    assert (extends s s') by (etrans; [exact Hg|apply Hw]). destruct r as [commit|e]; [|done].
    rewrite m_bind_run. unfold m_lift. by destruct (automationRunRecordFromSnapshot _ _). }
  destruct (commit_run_event _ _ _ _ _ _ _) as [[r|e] s']; [done|].
  destruct (isDocumentConflictError e && _); [|done]. destruct Hcommit as [Hs' Hg'].
  specialize (IH (S attempt) s' Hs'). destruct (append_attempts _ _ _ _ _ _ _ _ s') as [r s2].
  destruct IH. split; [done|by etrans].
Qed.

Lemma appendRunEvent_elsewhere host tenantId runId plan allow s :
  (∀ stream s s', automationRunStream tenantId runId = Ok stream → P s → only_writes stream s s' → P s') → P s →
  let (_, s') := appendRunEvent host env tenantId runId plan allow s in P s' ∧ extends s s'.
Proof using Hwf Henv.
  intros Hwrites Hs. unfold appendRunEvent. rewrite m_bind_run. unfold m_lift at 1.
  destruct (automationRunStream tenantId runId) as [stream|e]; [|by split].
  apply append_elsewhere; [|done]. intros s1 s2. by apply Hwrites.
Qed.
End elsewhere.

(** ** The services keep their promises *)

Section promises.
Context (host : predicate_host) `{NamingHost} `{Collation} `{DateHost}.
Context (ids clock : nat → jstr) (planner : AutomationRunPlanner) (event_object : NewDomainEvent → value).
Context (options : DocumentServiceOptions) (env : nat → DocumentStore → DocumentStore).
Context (list_candidates : jstr → jstr → Z → DocumentStore → res (list AutomationRunRecord)).
Context (get : jstr → jstr → jstr → DocumentStore → res (option DocumentSnapshot)).
Context (actor : option (AutomationRunRecord → res Actor)).
Context (Hdoctypes : ∀ actor name tenantId doctype,
  doctypeFor options actor name tenantId = Ok doctype → dt_name doctype = name ∧ doctype_ok doctype).

Context (id watched watched_doctype : jstr) (Hwatched : in_doctype watched_doctype watched).
Context (Hinternal : watched_doctype ∉ INTERNAL_DOCTYPES).
Context `{Henv : ∀ n, Lawful env extends (applied_times id watched n)}.

Abbreviation inv := (at_most_once id watched).
#[local] Existing Instance at_most_once_lawful.

(** What a call of the run service keeps while other clients act. *)
Definition harmless {A} (m : (nat → DocumentStore → DocumentStore) → M DocumentStore A) : Prop :=
  ∀ env' s, (∀ n s, inv s → inv (env' n s) ∧ extends s (env' n s)) → inv s →
  let (_, s') := m env' s in inv s' ∧ extends s s'.

Lemma keeps_on_runs {A} (m : (nat → jstr) → (nat → jstr) → (nat → DocumentStore → DocumentStore) → M DocumentStore A) :
  (∀ ids clock, harmless (m ids clock)) → Keeps extends inv (on_runs ids clock env m).
Proof using Henv.
  intros Hm K HK c Hi Hc. unfold on_runs.
  specialize (Hm (λ n, ids (cl_ids c + n)) (λ n, clock (cl_tick c + n)) (λ n, env (cl_tick c + n)) (cl_store c)
    (λ n s, at_most_once_lawful id watched env (cl_tick c + n) s) Hi).
  destruct (m _ _ _ _) as [r s']. cbn. by destruct Hm.
Qed.

Lemma append_harmless tenantId runId plan allow :
  harmless (λ env', appendRunEvent host env' tenantId runId plan allow).
Proof using Hwatched Hinternal Henv.
  intros env' s He Hi. apply (appendRunEvent_elsewhere inv); [intros ? [Hwf0 _]; exact Hwf0|exact He| |exact Hi].
  intros stream s1 s2 Hs [Hwf1 Hm] (Hwf & Hg & Hsame). split; [exact Hwf|]. unfold applications.
  rewrite (marks_same _ _ s1); [exact Hm|]. apply Hsame. intros ->. apply Hinternal.
  rewrite (in_doctype_same _ (js "__AutomationRuns") _ Hwatched); [by right; right; left|]. by eexists _, _.
Qed.

Lemma harmless_bind {A B} (m : (nat → DocumentStore → DocumentStore) → M DocumentStore A) (f : A → res B) :
  harmless m → harmless (λ env', a ← m env'; m_lift (f a)).
Proof using Type.
  intros Hm env' s He Hi. rewrite m_bind_run. specialize (Hm env' s He Hi). destruct (m env' s) as [[a|e] s']; done.
Qed.

Lemma harmless_lift {A B} (r : res A) (m : A → (nat → DocumentStore → DocumentStore) → M DocumentStore B) :
  (∀ a, harmless (m a)) → harmless (λ env', a ← m_lift r; m a env').
Proof using Type. intros Hm env' s He Hi. rewrite m_bind_run. destruct r as [a|e]; [by apply Hm|by split]. Qed.

#[export] Instance service_promises :
  Services id watched (service_consumer host ids clock planner event_object options env list_candidates get actor).
Proof using All.
  split; cbn [aco_runs aco_update service_consumer service_runs acr_claimPending acr_markDelivered acr_markFailed acr_markDeadLettered].
  - intros command. unfold service_claimPending.
    assert (∀ record claimId now lease, Keeps extends inv (on_runs ids clock env (λ ids _ env',
      claimOne host ids env' (clm_tenantId command) (ar_id record) claimId now lease))) as Hclaim.
    { intros record claimId now lease. apply keeps_on_runs. intros ids' clock'. apply append_harmless. }
    apply _.
  - intros t r c m. apply keeps_on_runs. intros ids' clock'. apply harmless_bind, append_harmless.
  - intros t r c e at_ m. apply keeps_on_runs. intros ids' clock'. unfold markFailed.
    apply harmless_lift. intros normalized. apply harmless_bind, append_harmless.
  - intros t r c e m. apply keeps_on_runs. intros ids' clock'. unfold markDeadLettered.
    apply harmless_lift. intros normalized. apply harmless_bind, append_harmless.
  - intros n command k. by apply (update_adds (applied_by id) watched watched_doctype).
Qed.
End promises.

(** ** Drains *)

Lemma m_map_forall {S A B} (f : A → M S B) (P : A → B → Prop) l s ys s' :
  (∀ x s y s', f x s = (Ok y, s') → P x y) → m_map f l s = (Ok ys, s') → Forall2 P l ys.
Proof.
  intros Hf. revert s ys s'. induction l as [|x l IH]; intros s ys s'; cbn [m_map]; [intros [= <- _]; constructor|].
  rewrite m_bind_run. destruct (f x s) as [[y|e] s1] eqn:Hx; [|done]. rewrite m_bind_run.
  destruct (m_map f l s1) as [[zs|e] s2] eqn:Hl; [|done]. intros [= <- _]. constructor; [by eapply Hf|by eapply IH].
Qed.


(** C3: Whatever other clients do during a drain, as long as they do not apply the action
    themselves, an action that was applied at most once to its target is applied at most
    once after the drain: when it returns, when it throws, when an update throws after
    its commit, and when the run was delivered before.  A run that the drain reports as
    delivered has had its action applied, or its target was found to hold the values of
    the patch already. *)
Theorem actions_applied_once (host : predicate_host) `{NamingHost} `{Collation} `{DateHost} ids clock planner event_object
    message options env list_candidates get actor id watched watched_doctype command s :
  in_doctype watched_doctype watched → watched_doctype ∉ INTERNAL_DOCTYPES →
  (∀ actor name tenantId doctype, doctypeFor options actor name tenantId = Ok doctype →
     dt_name doctype = name ∧ doctype_ok doctype) →
  (∀ k s, wf_streams (st_streams s) → wf_streams (st_streams (env k s)) ∧ extends s (env k s) ∧
     applications id watched (env k s) = applications id watched s) →
  at_most_once id watched s →
  let consumer := service_consumer host ids clock planner event_object options env list_candidates get actor in
  let (r, c) := drain clock message consumer env command (new_client s) in
  at_most_once id watched (cl_store c) ∧ extends s (cl_store c) ∧
  ∀ result, r = Ok result → ∃ claimed, drain_claimed clock consumer command (new_client s) claimed ∧
    Forall2 (λ record outcome, ado_status outcome = OutcomeDelivered → settled id watched consumer record (cl_store c))
      claimed (adr_outcomes result).
Proof.
  intros Hwatched Hinternal Hdoctypes Henv Hs consumer.
  assert (∀ n, Lawful env extends (applied_times id watched n)) as Hlawful.
  { intros n k s1 [Hwf Hn]. destruct (Henv k s1 Hwf) as (? & ? & Hm). split; [split; [done|]|done]. by rewrite <-Hn. }
  pose proof (service_promises host ids clock planner event_object options env list_candidates get actor Hdoctypes id watched
    watched_doctype Hwatched Hinternal) as Hservices.
  fold consumer in Hservices. clearbody consumer.
  pose proof (drain_settles id watched message consumer env clock command (new_client s) Hs) as Hd. exact Hd.
Qed.

(** ** Witnesses *)

(** An application whose hooks fail after every commit. *)
Definition sample_failing_service : DocumentServiceOptions :=
  {| dso_registry := dso_registry sample_service; dso_hooksFor := λ _, []; dso_doctypeResolver := None;
     dso_userPermissions := None; dso_documentShares := None; dso_onHookError := Some (λ e _, Throw e);
     dso_afterCommit := Some (λ _, Throw plain_error) |}.

(** The projections follow the streams. *)
Definition sample_projection (tenantId doctype name : jstr) (s : DocumentStore) : res (option DocumentSnapshot) :=
  stream ← documentStream tenantId doctype name; doc_at s stream.

Definition sample_candidates (tenantId now : jstr) (limit : Z) (s : DocumentStore) : res (list AutomationRunRecord) :=
  Ok (option_list (foldAutomationRun tenantId (stream_events (st_streams s) sample_run_stream))).

(** A run that titles a note, and the note. *)
Definition sample_titling : AutomationRunEnqueued :=
  {| are_runId := js "r1"; are_sourceEventId := js "e"; are_sourceEventType := js "NoteUpdated";
     are_sourcePayloadKind := js "DocumentUpdated"; are_sourceDoctype := js "Note"; are_sourceDocumentName := js "N-2";
     are_sourceActorId := js "ada"; are_workflowName := None; are_workflowAction := None; are_workflowTransitions := None;
     are_ruleId := js "rule"; are_ruleName := js "Rule"; are_actionId := js "title";
     are_action := {| raa_doctype := js "Note"; raa_name := js "N-1"; raa_patch := [(js "title", VStr (js "done"))] |};
     are_retry := {| rp_maxAttempts := 10; rp_baseDelaySeconds := 30; rp_maxDelaySeconds := 1800 |};
     are_causationId := js "e"; are_correlationId := js "e"; are_automationDepth := 1;
     are_automationPath := [js "rule:title"] |}.

Definition sample_note_stream : jstr := js "default:Note:N-1".

Definition sample_note_created : DomainEvent :=
  {| e_new := {| e_id := js "evt_0"; e_tenantId := js "default"; e_stream := sample_note_stream; e_type := js "NoteCreated";
       e_doctype := js "Note"; e_documentName := js "N-1"; e_actorId := js "ada"; e_occurredAt := sample_now;
       e_payload := PDocumentCreated [(js "title", VStr (js "a")); (js "code", VStr (js "X"))] Draft; e_metadata := [] |};
     e_sequence := 1 |}.

Definition sample_titling_store : DocumentStore :=
  {| st_streams := [(sample_note_stream, [sample_note_created]);
                    (sample_run_stream, [run_event 1 (js "2026-01-01T00:00:00.000Z") (PRunEnqueued sample_titling)])];
     st_documents := [] |}.

Definition sample_drain_command : DrainAutomationRunsCommand :=
  {| drc_tenantId := js "default"; drc_claimId := Some (js "mine"); drc_limit := None; drc_now := Some sample_now;
     drc_leaseSeconds := None |}.

Definition sample_consumer : AutomationRunConsumerOptions :=
  @service_consumer sample_access_host sample_naming_host code_unit_collation sample_date sample_ids sample_clock sample_planner
    (λ _, VNull) sample_failing_service (λ _ s, s) sample_candidates sample_projection None.

Definition sample_drain : res AutomationRunDrainResult * Client DocumentStore :=
  @drain sample_date sample_clock (λ _, js "boom") sample_consumer (λ _ s, s) sample_drain_command
    (new_client sample_titling_store).

Lemma sample_titling_wf : wf_streams (st_streams sample_titling_store).
Proof.
  split; [by apply (bool_decide_unpack _); vm_compute|]. intros stream. unfold stream_events. cbn.
  repeat case_decide; subst; cbn;
    (split; [apply contiguous_check; by vm_compute|]; intros e He;
     repeat (apply elem_of_cons in He as [-> |He]; [done|]); by apply elem_of_nil in He).
Qed.

Lemma sample_failing_doctypes (actor : Actor) name tenantId doctype :
  doctypeFor sample_failing_service actor name tenantId = Ok doctype → dt_name doctype = name ∧ doctype_ok doctype.
Proof.
  intros E. pose proof (sample_service_doctypes actor name tenantId doctype E) as ->. split; [|apply sample_service_doctype_ok].
  unfold doctypeFor in E. step_ok E as base Hb. unfold registry_get in Hb. cbn in Hb. by case_decide.
Qed.

Lemma actions_applied_once_witness :
  at_most_once (js "r1") sample_note_stream (cl_store sample_drain.2) ∧
  applications (js "r1") sample_note_stream (cl_store sample_drain.2) = 1.
Proof.
  split; [|by vm_compute].
  pose proof (@actions_applied_once sample_access_host sample_naming_host code_unit_collation sample_date sample_ids sample_clock
    sample_planner (λ _, VNull) (λ _, js "boom") sample_failing_service (λ _ s, s) sample_candidates sample_projection None
    (js "r1") sample_note_stream (js "Note") sample_drain_command sample_titling_store) as H.
  cbv zeta in H. unfold sample_drain, sample_consumer. revert H. destruct (drain _ _ _ _ _ _) as [r c]. intros H. apply H.
  - exists (js "default"), (js "N-1"). by vm_compute.
  - by apply (bool_decide_unpack _).
  - apply sample_failing_doctypes.
  - intros k s Hs. split_and!; [done|reflexivity|done].
  - split; [apply sample_titling_wf|]. vm_compute. lia.
Defined.

(** What the drain returns, evaluated. *)
Definition sample_drained : AutomationRunDrainResult :=
  Eval vm_compute in match sample_drain.1 with
    | Ok result => result
    | Throw _ => {| adr_tenantId := []; adr_claimed := 0; adr_delivered := 0; adr_failed := 0; adr_dead := 0; adr_outcomes := [] |}
    end.

