(* ===== verification/Creation.v ===== *)
(** * Creation: a new document gets a new stream, and a name in the end

    [create] of [application/document-service.ts] tries names until one is free: when
    another client takes the name of a series, or its counter moves on, the loop turns
    again with the attempts that are left.  The model runs it with as much fuel as the
    series has attempts; here the [while] of the source is a relation, without fuel, and
    the model is proved to run it to its end whatever the others do.  When it returns,
    it has started a stream: a name that was ever used, even by a document that is
    deleted since, is never used again. *)

From S2P Require Export DocumentCalls.

Section returns.
Context {S : Type}.

(** What a call returns, if it returns. *)
Definition returns {A} (P : A → Prop) (m : M S A) : Prop := ∀ c a c', m c = (Ok a, c') → P a.

Lemma returns_ret {A} (P : A → Prop) (a : A) : P a → returns P (mret a : M S A).
Proof. by intros Ha c ? ? [= <- <-]. Qed.

Lemma returns_throw {A} (P : A → Prop) e : returns P (m_throw e : M S A).
Proof. by intros c ? ?. Qed.

Lemma returns_after {A B} (P : B → Prop) (Q : A → Prop) (m : M S A) (f : A → M S B) :
  returns Q m → (∀ a, Q a → returns P (f a)) → returns P (m ≫= f).
Proof.
  intros Hm Hf c b c'. rewrite m_bind_run. destruct (m c) as [[a|e] c1] eqn:E; [|done]. by apply Hf, (Hm _ _ _ E).
Qed.

Lemma returns_bind {A B} (P : B → Prop) (m : M S A) (f : A → M S B) :
  (∀ a, returns P (f a)) → returns P (m ≫= f).
Proof. intros Hf. apply (returns_after P (λ _, True)); [done|]. intros a _. apply Hf. Qed.

Lemma returns_lift {A B} (P : B → Prop) (r : res A) (f : A → M S B) :
  (∀ a, r = Ok a → returns P (f a)) → returns P (m_lift r ≫= f).
Proof. intros Hf. apply (returns_after P (λ a, r = Ok a)); [|done]. by intros c a c' [= -> _]. Qed.
End returns.

(** ** An attempt at least *)

(** A scan that asks for a candidate tries a value at least. *)
Lemma scan_loop_left render allowed step count left candidate result out left' :
  scan_loop render allowed step count left candidate result = Ok (out, left') → left' ≤ left.
Proof.
  revert candidate result. induction left as [|left IH]; intros candidate result; cbn [scan_loop];
    destruct (Nat.leb _ _); try by intros [= <- <-].
  intros E. step_ok E as name Hname. step_ok E as next Hnext. apply IH in E. lia.
Qed.

Lemma scan_attempts `{NamingHost} doctype strategy d context current limit scan :
  scanNamingCandidates doctype strategy d context current None limit = Ok scan → (1 ≤ ncs_attempts scan)%Z.
Proof.
  unfold scanNamingCandidates. intros E. ensure_step E as Hcount. step_ok E as compiled Hc. step_ok E as exclusions He.
  ensure_step E as Hlimit. step_ok E as candidate Hcand. step_ok E as out Hout. injection E as <-. cbn [ncs_attempts].
  apply andb_prop in Hlimit as [[_ Hlimit%Z.leb_le]%andb_prop _].
  destruct out as [out left]. cbn [default] in Hout. cbn [snd]. set (n := default _ limit) in *.
  destruct (Z.to_nat n) as [|attempts] eqn:En; [lia|]. cbn in Hout.
  step_ok Hout as name Hname. step_ok Hout as next Hnext. apply scan_loop_left in Hout. lia.
Qed.

Section create.
Context (host : predicate_host) `{NamingHost}.
Context (ids : nat → jstr) (planner : AutomationRunPlanner) (event_object : NewDomainEvent → value).
Context (options : DocumentServiceOptions) (env : nat → DocumentStore → DocumentStore).
Context (command : CreateDocumentCommand) (tenantId now : jstr) (context : DocumentServiceDocTypeContext).
Context (preparedData userSuppliedData : data).

Abbreviation turn := (create_turn host ids planner event_object options env command tenantId now context preparedData userSuppliedData).
Abbreviation loop := (create_loop host ids planner event_object options env command tenantId now context preparedData userSuppliedData).

(** A name of a series takes an attempt. *)
Lemma create_name_attempts remaining occupied :
  returns (λ resolution, ∀ write, dnr_write resolution = Some write → (1 ≤ nsw_candidateAttempts write)%Z)
    (create_name ids env command tenantId now context preparedData remaining occupied).
Proof using Type.
  unfold create_name, resolveName. destruct (crc_name command); [by apply returns_ret|].
  destruct (dt_naming _) as [[| | |strategy]|].
  1,2,3,5: apply returns_bind; intros name; by apply returns_ret.
  apply (returns_after _ (λ write, (1 ≤ nsw_candidateAttempts write)%Z)); [|intros write Hw; apply returns_ret; by intros ? [= <-]].
  unfold planNamingSeriesWrite. do 2 (apply returns_lift; intros ??). apply returns_bind. intros existing.
  apply returns_lift. intros scan Hscan. destruct (ncs_candidates scan); [apply returns_throw|].
  apply returns_bind. intros id. apply returns_ret. by eapply scan_attempts.
Qed.

(** A turn leaves fewer attempts than it found. *)
Lemma create_turn_decreases remaining occupied : (0 < remaining)%Z →
  returns (λ out, (out.2 < remaining)%Z) (turn remaining occupied).
Proof using Type.
  intros Hr. unfold create_turn. eapply returns_after; [apply create_name_attempts|]. intros resolution Ha.
  assert (remaining_after resolution remaining < remaining)%Z as Hlt.
  { unfold remaining_after. destruct (dnr_write resolution) as [write|] eqn:Ew; [specialize (Ha write Ew)|]; lia. }
  apply returns_bind. intros issues. do 2 (apply returns_lift; intros ??). apply returns_bind. intros existing.
  destruct (ensureDocumentCreateAvailable existing) as [_u|e].
  - apply returns_bind. intros outcome. by apply returns_ret.
  - destruct (dnr_write resolution); [|apply returns_throw]. case_match; [by apply returns_ret|apply returns_throw].
Qed.

(** ** The loop of the source *)

(** [while (remainingAttempts > 0) ...]: no fuel; the index counts the turns. *)
Inductive create_while : nat → Z → option Z → Client DocumentStore → res DocumentSnapshot → Client DocumentStore → Prop :=
| while_exhausted remaining occupied c :
    (remaining ≤ 0)%Z → create_while 0 remaining occupied c (Throw conflict) c
| while_thrown remaining occupied c e c' :
    (0 < remaining)%Z → turn remaining occupied c = (Throw e, c') → create_while 1 remaining occupied c (Throw e) c'
| while_done remaining occupied c commit saved remaining' c1 r c' :
    (0 < remaining)%Z → turn remaining occupied c = (Ok (CreateDone commit saved, remaining'), c1) →
    finishAfterCommit options env (crc_actor command) context commit saved c1 = (r, c') →
    create_while 1 remaining occupied c r c'
| while_again n remaining occupied c occupied' remaining' c1 r c' :
    (0 < remaining)%Z → turn remaining occupied c = (Ok (CreateAgain occupied', remaining'), c1) →
    create_while n remaining' occupied' c1 r c' → create_while (S n) remaining occupied c r c'.

Lemma create_while_turns n remaining occupied c r c' :
  create_while n remaining occupied c r c' → (Z.of_nat n ≤ Z.max 0 remaining)%Z.
Proof using Type.
  induction 1 as [| | |n remaining occupied c occupied' remaining' c1 r c' Hr Hturn Hw IH]; [lia..|].
  pose proof (create_turn_decreases remaining occupied Hr _ _ _ Hturn) as Hlt. cbn in Hlt. lia.
Qed.

(** C22: Whatever other clients do, the loop that names a new document ends, after at most as
    many turns as it has attempts; and the fuel of the model is enough: any amount above
    the attempts runs the loop of the source to its end, with the result and the state
    that the loop has, and with no other. *)
Theorem create_loop_ends fuel remaining occupied c r c' :
  Z.to_nat remaining < fuel →
  loop fuel remaining occupied c = (r, c') ↔
  ∃ n, (Z.of_nat n ≤ Z.max 0 remaining)%Z ∧ create_while n remaining occupied c r c'.
Proof using Type.
  revert remaining occupied c. induction fuel as [|fuel IH]; intros remaining occupied c Hfuel; [lia|].
  cbn [create_loop]. destruct (Z.ltb_spec 0 remaining) as [Hr|Hr].
  2: { split; [intros [= <- <-]; exists 0; split; [lia|by constructor]|]. intros (n & _ & Hw). by inversion Hw; [|lia..]. }
  rewrite m_bind_run. destruct (turn remaining occupied c) as [[[[commit saved|occupied'] remaining']|e] c1] eqn:E.
  - split.
    + intros Hf. exists 1. split; [lia|]. by eapply while_done.
    + intros (n & _ & Hw). inversion Hw; subst; try lia; congruence.
  - pose proof (create_turn_decreases remaining occupied Hr _ _ _ E) as Hlt. cbn in Hlt.
    rewrite IH by lia. split.
    + intros (n & Hn & Hw). exists (S n). split; [lia|]. by eapply while_again.
    + intros (n & Hn & Hw). inversion Hw; subst; try lia; try congruence.
      match goal with Ht : turn _ _ _ = (Ok (CreateAgain _, _), _), Hw' : create_while _ _ _ _ _ _ |- _ =>
        rewrite E in Ht; injection Ht as <- <- <-; rename Hw' into Hrest end.
      eexists. split; [|done]. by apply create_while_turns in Hrest.
  - split; [intros [= <- <-]; exists 1; split; [lia|by eapply while_thrown]|].
    intros (n & _ & Hw). inversion Hw; subst; try lia; congruence.
Qed.
End create.

(** ** What a creation makes *)

Section created.
Context (host : predicate_host) `{NamingHost}.
Context (ids clock : nat → jstr) (planner : AutomationRunPlanner) (event_object : NewDomainEvent → value).
Context (options : DocumentServiceOptions) (env : nat → DocumentStore → DocumentStore).

(** A store that has grown from [s]. *)
Definition grown_from (s s' : DocumentStore) : Prop := wf_streams (st_streams s') ∧ extends s s'.

Lemma grown_streams s s1 s2 : grown_from s s1 → st_streams s2 = st_streams s1 → grown_from s s2.
Proof using Type. unfold grown_from, extends. by intros ? ->. Qed.

Lemma grown_step good s s1 s2 : grown_from s s1 → document_step (grown_from s) good s1 s2 → grown_from s s2.
Proof using Type.
  intros [Hwf Hg] Hstep. split; [|etrans; [exact Hg|eapply document_step_extends; by right]].
  destruct Hstep as [???????? _ _ _ _ _ _ _ _ _ (_ & _ & saved & Hwr)]. apply Hwr.
Qed.

(** C21: A creation that returns has started the stream of its document, whatever other
    clients do in between: under the name that was asked for, if one was, and of the
    doctype as it is resolved for the actor, the stream had no events when the call
    began, and now its first event is the creation of the document as a draft.  So a
    creation under a name that was used before never returns, even when the document
    is deleted. *)
Theorem creation_starts_stream command s shown c :
  (∀ k s, wf_streams (st_streams s) → wf_streams (st_streams (env k s)) ∧ extends s (env k s)) →
  (∀ actor name tenantId doctype, doctypeFor options actor name tenantId = Ok doctype → doctype_ok doctype) →
  wf_streams (st_streams s) →
  create_document host ids clock planner event_object options env command (new_client s) = (Ok shown, c) →
  let tenantId := resolveTenant (crc_actor command) (crc_tenantId command) in
  ∃ doctype name stream event d,
    doctypeFor options (crc_actor command) (crc_doctype command) tenantId = Ok doctype ∧
    documentStream tenantId (dt_name doctype) name = Ok stream ∧
    (∀ given, crc_name command = Some given → name = given) ∧
    stream_events (st_streams s) stream = [] ∧
    head (stream_events (st_streams (cl_store c)) stream) = Some event ∧
    e_documentName event = name ∧ e_doctype event = dt_name doctype ∧ e_payload event = PDocumentCreated d Draft.
Proof using All.
  intros Henv Hdoctypes Hs Hrun tenantId.
  assert (Lawful env extends (grown_from s)) as Hlawful.
  { intros k s1 [Hwf Hg]. destruct (Henv k s1 Hwf) as [? ?]. split; [split; [done|by etrans]|done]. }
  pose proof (runs_create (H0 := code_unit_collation) host (λ c, [c]) ids clock planner event_object options env (grown_from s) (λ _ _, True)
    (λ s1 Hs1, proj1 Hs1) (grown_streams s) (grown_step (λ _ _, True) s)
    (λ actor name tenantId doctype Hd, conj I (Hdoctypes actor name tenantId doctype Hd)) (λ _, True) command _ (new_client s)) as Hc.
  rewrite Hrun in Hc. destruct Hc as (_ & _ & Hc); [by split|done|].
  destruct (Hc shown eq_refl) as (context & Hcontext & name & stream & Hstream & Hname & (s0 & [_ Hg] & _ & Hempty) &
    event & d & Hhead & (_ & _ & Hdoctype & Hev) & Hp).
  unfold doctypeContext in Hcontext. step_ok Hcontext as doctype Hd.
  destruct (resolveTenantDocTypeContext _ _ _) as [related|]; [|done]. step_ok Hcontext as table Ht. injection Hcontext as <-.
  unfold log_of in Hhead. destruct (stream_events (st_streams (cl_store c)) stream) as [|saved more] eqn:Elog; [done|].
  injection Hhead as <-.
  exists doctype, name, stream, saved, d. split_and!; [done..| | |done|done|done].
  2: by rewrite Elog.
  specialize (Hg stream). rewrite Hempty in Hg. by apply prefix_nil_inv in Hg.
Qed.
End created.

(** ** Witness *)

(** Tickets T-1, T-2, ...: Bob takes the first while Ada is about to. *)
Definition sample_ticket : DocTypeDefinition :=
  with_naming (plain_doctype (js "Ticket") [sample_naming_field (js "number") true true])
    (Some (NamingSeries {| nss_pattern := js "T-#"; nss_targetField := Some (js "number"); nss_counter := None;
      nss_padding := None; nss_start := None; nss_step := None; nss_reset := None; nss_scopeFields := None;
      nss_exclusions := None; nss_maxAttempts := Some 5%Z |})).

Definition sample_ticket_command (actor : jstr) : CreateDocumentCommand :=
  {| crc_actor := sample_administrator actor; crc_doctype := js "Ticket"; crc_data := []; crc_tenantId := None;
     crc_name := None; crc_metadata := None; crc_eventType := None |}.

Definition sample_ticket_loop (fuel : nat) (actor : jstr) (ids : nat → jstr) (env : nat → DocumentStore → DocumentStore)
    (s : DocumentStore) : res DocumentSnapshot * Client DocumentStore :=
  @create_loop sample_access_host sample_naming_host ids sample_planner (λ _, VNull) sample_service env
    (sample_ticket_command actor) (js "acme") sample_now
    {| dsc_doctype := sample_ticket; dsc_relatedDocType := λ _, None |} [] [] fuel 5 None (new_client s).

Definition sample_ticket_rival (k : nat) (s : DocumentStore) : DocumentStore :=
  if Nat.eqb k 2 then cl_store (sample_ticket_loop 6 (js "bob") (λ n, js "bob_" ++ dec (N.of_nat n)) (λ _ s, s) s).2 else s.

Lemma create_loop_ends_witness :
  let (r, c) := sample_ticket_loop 6 (js "ada") sample_ids sample_ticket_rival empty_store in
  (∃ n, (Z.of_nat n ≤ 5)%Z ∧
    create_while sample_access_host sample_ids sample_planner (λ _, VNull) sample_service sample_ticket_rival
      (H := sample_naming_host) (sample_ticket_command (js "ada")) (js "acme") sample_now
      {| dsc_doctype := sample_ticket; dsc_relatedDocType := λ _, None |} [] [] n 5 None (new_client empty_store) r c) ∧
  (ds_name <$> r = Ok (js "T-2") ∧ is_ok (sample_ticket_loop 1 (js "ada") sample_ids sample_ticket_rival empty_store).1 = false).
Proof.
  assert ((ds_name <$> (sample_ticket_loop 6 (js "ada") sample_ids sample_ticket_rival empty_store).1) = Ok (js "T-2"))
    as Hname by (by vm_compute).
  destruct (sample_ticket_loop 6 _ _ _ _) as [r c] eqn:E. split; [|split; [done|by vm_compute]].
  refine (proj1 (@create_loop_ends sample_access_host sample_naming_host sample_ids sample_planner
    (λ _, VNull) sample_service sample_ticket_rival (sample_ticket_command (js "ada")) (js "acme") sample_now _ [] [] 6 5 None
    (new_client empty_store) r c _) E). lia.
Defined.

(** Ada creates a note; once it is deleted, its name stays taken. *)
Definition sample_note_command (name : jstr) : CreateDocumentCommand :=
  {| crc_actor := sample_administrator (js "ada"); crc_doctype := js "Note";
     crc_data := [(js "title", VStr (js "a")); (js "code", VStr (js "X"))]; crc_tenantId := None; crc_name := Some name;
     crc_metadata := None; crc_eventType := None |}.

Definition sample_note_creation (s : DocumentStore) : res DocumentSnapshot * Client DocumentStore :=
  @create_document sample_access_host sample_naming_host sample_ids sample_clock sample_planner (λ _, VNull)
    sample_service (λ _ s, s) (sample_note_command (js "N-1")) (new_client s).

Definition sample_note_deleted : DocumentStore :=
  cl_store (sample_perform (λ n, js "del_" ++ dec (N.of_nat n)) (λ _ s, s)
    (CallDelete {| dcm_actor := sample_administrator (js "ada"); dcm_doctype := js "Note"; dcm_name := js "N-1";
                   dcm_tenantId := None; dcm_expectedVersion := None; dcm_metadata := None |})
    (cl_store (sample_note_creation empty_store).2)).2.

Lemma creation_starts_stream_witness :
  let (r, c) := sample_note_creation empty_store in
  ((∃ shown, r = Ok shown) ∧ ∃ doctype name stream event d,
    doctypeFor sample_service (sample_administrator (js "ada")) (js "Note") (js "acme") = Ok doctype ∧
    documentStream (js "acme") (dt_name doctype) name = Ok stream ∧
    (∀ given, Some (js "N-1") = Some given → name = given) ∧
    stream_events (st_streams empty_store) stream = [] ∧
    head (stream_events (st_streams (cl_store c)) stream) = Some event ∧
    e_documentName event = name ∧ e_doctype event = dt_name doctype ∧ e_payload event = PDocumentCreated d Draft) ∧
  ((∃ d, doc_at sample_note_deleted (js "acme:Note:N-1") = Ok (Some d) ∧ ds_docstatus d = Deleted) ∧
   (sample_note_creation sample_note_deleted).1 = Throw conflict).
Proof.
  assert ((∃ d, doc_at sample_note_deleted (js "acme:Note:N-1") = Ok (Some d) ∧ ds_docstatus d = Deleted) ∧
    (sample_note_creation sample_note_deleted).1 = Throw conflict) as Hdeleted.
  { split; [|by vm_compute]. eexists. split; [vm_compute; reflexivity|done]. }
  assert (is_ok (sample_note_creation empty_store).1 = true) as Hok by (by vm_compute).
  destruct (sample_note_creation empty_store) as [[shown|e] c] eqn:E; [|done]. split; [split; [by exists shown|]|exact Hdeleted].
  refine (@creation_starts_stream sample_access_host sample_naming_host sample_ids sample_clock sample_planner
    (λ _, VNull) sample_service (λ _ s, s) (sample_note_command (js "N-1")) empty_store shown c _ _ _ E).
  - by intros k s Hs.
  - intros actor name tenantId doctype ->%sample_service_doctypes. apply sample_service_doctype_ok.
  - apply wf_streams_nil.
Defined.
