(* ===== verification/DocumentLife.v ===== *)
(** * DocumentLife: the stream of a document is a life

    The calls of the document service keep every stream of a document a life: it is
    created once, as a draft; a draft is changed, moved along its workflows, submitted
    or deleted, a submitted document is changed or cancelled, a cancelled one deleted;
    people comment on it while it is not deleted; and nothing follows its deletion.
    Other clients may act at every [await], as long as they keep that too. *)

From S2P Require Export DocumentCalls.

Section life.
(** The names of the doctypes whose documents are kept. *)
Context (ours : jstr → Prop) (Hours : ∀ d, ours d → d ∉ INTERNAL_DOCTYPES).

(** The stream of a document is a life, and folds to the document, at the status that
    the life ends in and with the number of events as its version. *)
Definition document_life (s : DocumentStore) (t d n stream : jstr) : Prop :=
  ∃ document, doc_at s stream = Ok document ∧
    life None (e_payload <$> log_of (st_streams s) stream) = Some (ds_docstatus <$> document) ∧
    version_of document = Z.of_nat (length (log_of (st_streams s) stream)) ∧
    match document with
    | Some doc => ds_tenantId doc = t ∧ ds_doctype doc = d ∧ ds_name doc = n
    | None => True
    end.

Definition documents_live (s : DocumentStore) : Prop :=
  wf_streams (st_streams s) ∧
  ∀ t d n stream, ours d → documentStream t d n = Ok stream → document_life s t d n stream.

Lemma documents_live_wf s : documents_live s → wf_streams (st_streams s).
Proof using Type. by intros [? _]. Qed.

Lemma documents_live_streams s s' : documents_live s → st_streams s' = st_streams s → documents_live s'.
Proof using Type.
  intros [Hwf Hl] E. unfold documents_live, document_life, doc_at in *. by rewrite E.
Qed.

Lemma documents_live_empty : documents_live empty_store.
Proof using Type.
  split; [apply wf_streams_nil|]. intros t d n stream _ _. by exists None.
Qed.

Definition our_doctype (t : jstr) (doctype : DocTypeDefinition) : Prop := ours (dt_name doctype).

Context `{NamingHost}.

(** A step keeps the lives of documents. *)
Lemma step_documents_live s s' :
  documents_live s → document_step documents_live our_doctype s s' → documents_live s'.
Proof using Hours.
  intros [Hwf Hl] [target existing event after series writes releases runs Hgood Hok Hev Hd Hal Hd' Hu Hseries Hruns
    (Hb & Hck & saved & Hwr)].
  pose proof Hwr as (Hwf' & Hin & Hout). split; [done|]. intros t d n stream Hd_ours Hs.
  destruct (decide (stream = tg_stream target)) as [-> |Hne].
  - destruct (documentStream_same _ _ _ _ _ _ _ Hs (proj2 Hok)) as (-> & -> & ->).
    destruct (Hl _ _ _ _ Hd_ours Hs) as (document & Hdoc & Hlife & Hversion & Hid).
    rewrite Hd in Hdoc. injection Hdoc as <-. exists (Some after).
    set (entry := {| ae_stream := tg_stream target; ae_expectedVersion := version_of existing; ae_events := [event] |}).
    assert (entry ∈ step_entries target existing event series writes releases runs) as Hen.
    { unfold step_entries, documentAtomicCommitEntries. rewrite !elem_of_app. left. right. right. right. by left. }
    destruct (Hin entry Hen) as [_ Hlog]. cbn in Hlog.
    assert (extends s s') as Hex by (intros st; by eapply batch_written_prefix).
    pose proof (doc_at_snoc s s' _ event Hwf Hwf' Hlog Hex) as Hsnoc. rewrite Hd, Hd' in Hsnoc. symmetry in Hsnoc.
    cbn [mbind res_bind] in Hsnoc.
    destruct (event_status existing {| e_new := event; e_sequence := _ |} _ Hal Hsnoc) as (d' & [= <-] & Hst & Hv & Hwho). split; [done|split; [|split]].
    + rewrite Hlog, fmap_app. cbn. rewrite <-Hst. by apply life_snoc.
    + cbn. rewrite Hv, Hlog, length_app, log_of_length. cbn. lia.
    + destruct Hev as (_ & He1 & He2 & He3). destruct existing as [e|]; [destruct Hid as (<- & <- & <-); done|].
      cbn in Hwho. by rewrite He1, He2, He3 in Hwho.
  - assert (stream ∉ entry_streams (step_entries target existing event series writes releases runs)) as Hnin.
    { eapply (step_elsewhere documents_live); try done; [by eexists _, _|by apply Hours]. }
    specialize (Hl t d n stream Hd_ours Hs). unfold document_life, doc_at, log_of in *. by rewrite (Hout stream Hnin).
Qed.

Context (host : predicate_host) `{Collation} (upper : N → jstr).
Context (ids clock : nat → jstr) (planner : AutomationRunPlanner) (event_object : NewDomainEvent → value).
Context (options : DocumentServiceOptions) (env : nat → DocumentStore → DocumentStore).

(** ** The service keeps lives *)

(** C2: In every history of the document service, whatever other clients that keep it do
    in between, the stream of each document is a life: created once and as a draft,
    changed while it is a draft or submitted, moved along workflows and by domain
    commands while it is a draft, submitted, cancelled and deleted in that order only,
    and with no event after its deletion; its fold is the document at that status, with
    the number of events as its version.  Every call keeps this, whether it returns or
    throws, and only appends to the streams. *)
Theorem service_documents_live call s :
  (∀ k s, documents_live s → documents_live (env k s) ∧ extends s (env k s)) →
  (∀ actor name tenantId doctype, doctypeFor options actor name tenantId = Ok doctype →
     ours (dt_name doctype) ∧ doctype_ok doctype) →
  documents_live s →
  let (_, c) := perform host upper ids clock planner event_object options env call (new_client s) in
  documents_live (cl_store c) ∧ extends s (cl_store c).
Proof using Hours.
  intros Henv Hdoctypes Hs.
  apply (perform_safe host upper ids clock planner event_object options env documents_live our_doctype
    documents_live_wf (Henv := Henv) documents_live_streams step_documents_live Hdoctypes call (new_client s) Hs).
Qed.
End life.

(** What a life says: nothing follows a deletion, a document is created once and first,
    and it is cancelled only after it was submitted. *)
Lemma life_app status events events' status' :
  life status (events ++ events') = Some status' ↔ ∃ mid, life status events = Some mid ∧ life mid events' = Some status'.
Proof.
  revert status. induction events as [|p events IH]; intros status; cbn.
  - split; [by exists status|]. by intros (mid & [= ->] & ?).
  - destruct (event_allowed status p); [apply IH|]. split; [done|]. by intros (? & [=] & _).
Qed.

Lemma life_after_deletion events events' status :
  life None (events ++ PDocumentDeleted :: events') = Some status → events' = [].
Proof.
  intros (mid & _ & E)%life_app. cbn in E. destruct mid as [[]|]; cbn in E; try done;
    destruct events' as [|p events']; [done| |done|]; cbn in E; by destruct p.
Qed.

(** ** Witness *)

(** Ada creates a note; while she does, Bob creates another. *)
Definition sample_others (k : nat) (s : DocumentStore) : DocumentStore :=
  if Nat.eqb k 1 then cl_store (sample_perform (λ n, js "bob_" ++ dec (N.of_nat n)) (λ _ s, s)
    (sample_creation (js "bob") (js "N-2") (js "Y")) s).2 else s.

Definition sample_ours (d : jstr) : Prop := d = js "Note".

Lemma service_documents_live_witness :
  let c := (sample_perform sample_ids sample_others (sample_creation (js "ada") (js "N-1") (js "X")) empty_store).2 in
  documents_live sample_ours (cl_store c) ∧
  (length (stream_events (st_streams (cl_store c)) (js "acme:Note:N-1")) = 1 ∧
   length (stream_events (st_streams (cl_store c)) (js "acme:Note:N-2")) = 1).
Proof.
  assert (∀ d, sample_ours d → d ∉ INTERNAL_DOCTYPES) as Hours by (intros d ->; by apply (bool_decide_unpack _)).
  assert (∀ actor name tenantId doctype, doctypeFor sample_service actor name tenantId = Ok doctype →
    sample_ours (dt_name doctype) ∧ doctype_ok doctype) as Hdoctypes.
  { intros actor name tenantId doctype ->%sample_service_doctypes. split; [done|apply sample_service_doctype_ok]. }
  assert (∀ ids env call s, (∀ k s, documents_live sample_ours s → documents_live sample_ours (env k s) ∧ extends s (env k s)) →
    documents_live sample_ours s → documents_live sample_ours (cl_store (sample_perform ids env call s).2) ∧
      extends s (cl_store (sample_perform ids env call s).2)) as Hcall.
  { intros ids env call s Henv Hs. unfold sample_perform.
    pose proof (@service_documents_live sample_ours Hours sample_naming_host sample_access_host code_unit_collation (λ c, [c]) ids
      sample_clock sample_planner (λ _, VNull) sample_service env call s Henv Hdoctypes Hs) as H.
    destruct (perform _ _ _ _ _ _ _ _ _ _) as [r c]. exact H. }
  split; [|split; by vm_compute].
  apply Hcall; [|apply documents_live_empty].
  intros k s Hs. unfold sample_others. destruct (Nat.eqb k 1); [|by split].
  apply Hcall; [|done]. intros k' s' Hs'. by split.
Defined.
