(* ===== verification/UniqueHistory.v ===== *)
(** * UniqueHistory: a unique value has one owner

    The point of [application/document-unique-values.ts]: whatever calls of the document
    service run, and however they interleave, two documents of a doctype never hold the
    same value in a unique field.  The invariant is that the reservation of each value is
    owned by exactly the document that holds it; that a command may take over a
    reservation whose owner no longer holds the value is then never needed, and a command
    that finds its own reservation in place may leave it there. *)

From S2P Require Export DocumentLife.

(** The names of the unique fields of a doctype. *)
Definition unique_names (doctype : DocTypeDefinition) : list jstr :=
  fd_name <$> filter (λ field, fd_unique field = true) (dt_fields doctype).

Section unique.
Context `{NamingHost}.
(** The names of the doctypes whose documents are kept, and the unique fields of each
    for a tenant, on which all the doctypes that are resolved agree. *)
Context (ours : jstr → Prop) (unique_fields : jstr → jstr → list jstr).
Context (Hours : ∀ d, ours d → d ∉ INTERNAL_DOCTYPES).
Context (Hcolon : ∀ t d f, ours d → f ∈ unique_fields t d → (58%N ∉ d) ∧ (58%N ∉ f)).

(** A live document holds a value in a unique field. *)
Definition document_holds (document : option DocumentSnapshot) (f k : jstr) : Prop :=
  ∃ doc label, document = Some doc ∧ ds_docstatus doc ≠ Deleted ∧
    canonicalUniqueValue nh_number (vget f (ds_data doc)) = Ok (Some (k, label)).

Definition holds (s : DocumentStore) (t d n f k : jstr) : Prop :=
  ∃ stream document, documentStream t d n = Ok stream ∧ doc_at s stream = Ok document ∧ document_holds document f k.

(** The reservation of a value: it is never deleted, and its owner is who holds the value.
    A document without a name owns nothing. *)
Definition reservation_ok (s : DocumentStore) (t d f k stream : jstr) : Prop :=
  ∃ e, doc_at s stream = Ok e ∧ (∀ x, e = Some x → ds_docstatus x ≠ Deleted) ∧
    ∀ n, n ≠ [] → holds s t d n f k ↔ activeUniqueValueOwner e = Some n.

Definition unique_values (s : DocumentStore) : Prop :=
  documents_live ours s ∧ ∀ t d f k, ours d → f ∈ unique_fields t d →
    (∀ n, holds s t d n f k → ∃ stream, uniqueValueStream t d f k = Ok stream) ∧
    ∀ stream, uniqueValueStream t d f k = Ok stream → reservation_ok s t d f k stream.

Definition agreed_doctype (t : jstr) (doctype : DocTypeDefinition) : Prop :=
  ours (dt_name doctype) ∧ unique_names doctype = unique_fields t (dt_name doctype).

Lemma unique_values_wf s : unique_values s → wf_streams (st_streams s).
Proof using Type. intros [[? _] _]. done. Qed.

Lemma unique_values_streams s s' : unique_values s → st_streams s' = st_streams s → unique_values s'.
Proof using Type.
  intros [Hl Hu] E. split; [by eapply documents_live_streams|].
  unfold reservation_ok, holds, doc_at in *. by rewrite E.
Qed.

Lemma unique_values_empty : unique_values empty_store.
Proof using Type.
  assert (∀ t d n f k, ¬ holds empty_store t d n f k) as Hno.
  { intros t d n f k (stream & document & _ & E & doc & label & -> & _). done. }
  split; [apply documents_live_empty|]. intros t d f k _ _. split; [intros n Hh; by apply Hno in Hh|].
  intros stream _. exists None. split_and!; [done|done|]. intros n _. split; [by intros ?%Hno|done].
Qed.

(** The value that a document holds in a field is one. *)
Lemma owner_nonempty e n : activeUniqueValueOwner e = Some n → n ≠ [].
Proof using Type.
  unfold activeUniqueValueOwner. destruct e as [x|]; [|done]. case_bool_decide; [done|].
  destruct (vget KEY_active (ds_data x)) as [| |[]| | | |]; destruct (vget KEY_documentName (ds_data x)); try done;
    case_bool_decide; try done; by intros [= <-].
Qed.

(** Two names with the same value are one. *)
Lemma unique_values_exclusive_at s t d n n' f k :
  unique_values s → ours d → f ∈ unique_fields t d → n ≠ [] → n' ≠ [] →
  holds s t d n f k → holds s t d n' f k → n = n'.
Proof using Type.
  intros [_ Hu] Hd Hf Hn Hn' Hh Hh'. destruct (Hu t d f k Hd Hf) as [Hs Hr]. destruct (Hs n Hh) as [stream E].
  destruct (Hr stream E) as (e & _ & _ & Ho). apply Ho in Hh, Hh'; [|done..]. congruence.
Qed.

(** ** The events of a reservation *)

Lemma reserved_owner (r : UniqueValueReservation) e (event : DomainEvent) :
  e_payload event = uvp_payload (planUniqueValueReservationEvent r e) → payloadIsJson (e_payload event) = true →
  json_state e → (∀ x, e = Some x → ds_docstatus x ≠ Deleted) →
  ∃ x, foldDocumentStep e event = Ok (Some x) ∧ ds_docstatus x ≠ Deleted ∧
    activeUniqueValueOwner (Some x) = if bool_decide (uvr_documentName r = []) then None else Some (uvr_documentName r).
Proof using Type.
  intros Hp Hj He Hlive. unfold foldDocumentStep. rewrite Hp in Hj |- *. destruct e as [e|];
    cbn [planUniqueValueReservationEvent uvp_payload documentUpdatedPayload documentCreatedPayload payloadIsJson default] in Hj |- *.
  - unfold applyDocumentDataChange. rewrite (cloneData_json (ds_data e)) by done. cbn [mbind res_bind].
    rewrite cloneData_json by done. cbn [mbind res_bind]. eexists. split; [done|]. split; [exact (Hlive e eq_refl)|].
    unfold activeUniqueValueOwner. cbn [ds_docstatus ds_data touch]. rewrite (bool_decide_eq_false_2 (ds_docstatus e = Deleted)) by exact (Hlive e eq_refl).
    cbn [foldl default jm_spread]. unfold vget.
    rewrite (jm_get_set_ne KEY_active KEY_documentName) by done. rewrite !jm_get_set_eq. reflexivity.
  - rewrite cloneData_json by done. cbn [mbind res_bind]. eexists. split; [reflexivity|]. split; [done|].
    unfold activeUniqueValueOwner. cbn [ds_docstatus ds_data]. rewrite bool_decide_eq_false_2 by done.
    change (vget KEY_active _) with (VBool true). change (vget KEY_documentName _) with (VStr (uvr_documentName r)).
    reflexivity.
Qed.

Lemma released_owner (r : UniqueValueReservation) e (event : DomainEvent) :
  e_payload event = uvp_payload (planUniqueValueReleaseEvent r) → json_state (Some e) → ds_docstatus e ≠ Deleted →
  ∃ x, foldDocumentStep (Some e) event = Ok (Some x) ∧ ds_docstatus x ≠ Deleted ∧ activeUniqueValueOwner (Some x) = None.
Proof using Type.
  intros Hp He Hlive. unfold foldDocumentStep. rewrite Hp. cbn. unfold applyDocumentDataChange.
  rewrite (cloneData_json (ds_data e)) by done. cbn. eexists. split; [done|]. split; [done|].
  unfold activeUniqueValueOwner. cbn [ds_docstatus ds_data touch]. rewrite (bool_decide_eq_false_2 (ds_docstatus e = Deleted)) by done.
  cbn [foldl default jm_spread]. unfold vget. by rewrite jm_get_set_eq.
Qed.

(** ** A step *)

Section step.
Context (s s' : DocumentStore) (target : Target) (existing : option DocumentSnapshot) (event : NewDomainEvent).
Context (after : DocumentSnapshot) (series : option AtomicNamingSeriesWrite) (writes : list AtomicUniqueReservationWrite).
Context (releases : list AtomicUniqueReleaseWrite) (runs_ : list AppendEntry).
Context (Hi : unique_values s) (Hgood : agreed_doctype (tg_tenantId target) (tg_doctype target)) (Hok : target_ok target).
Context (Hd : doc_at s (tg_stream target) = Ok existing) (Hd' : doc_at s' (tg_stream target) = Ok (Some after)).
Context (Hu : unique_change unique_values target existing (Some after) s writes releases).
Context (Hseries : series_of target series) (Hruns : runs_of target runs_).
Context (Happ : appended (step_entries target existing event series writes releases runs_) s s').

Abbreviation tenant := (tg_tenantId target).
Abbreviation dname := (dt_name (tg_doctype target)).
Abbreviation name := (tg_name target).
Abbreviation entries := (step_entries target existing event series writes releases runs_).

Lemma step_extends : extends s s'.
Proof using Happ. destruct Happ as (_ & _ & saved & Hwr). intros stream. by eapply batch_written_prefix. Qed.

Lemma step_wf : wf_streams (st_streams s').
Proof using Happ. by destruct Happ as (_ & _ & saved & ? & _). Qed.

Lemma step_out stream : stream ∉ entry_streams entries → doc_at s' stream = doc_at s stream.
Proof using Happ. destruct Happ as (_ & _ & saved & _ & _ & Hout). intros Hn. unfold doc_at. by rewrite Hout. Qed.

Lemma step_checked entry : entry ∈ entries →
  Z.of_nat (length (stream_events (st_streams s) (ae_stream entry))) = ae_expectedVersion entry.
Proof using Happ. destruct Happ as (_ & Hck & _). by apply (proj1 (check_entries_ok _ _ _) Hck). Qed.

(** The event of an entry, as it is saved. *)
Lemma step_folded entry ev : entry ∈ entries → ae_events entry = [ev] → payloadIsJson (e_payload ev) = true ∧
  doc_at s' (ae_stream entry) = doc_at s (ae_stream entry) ≫= λ d, foldDocumentStep d
    {| e_new := ev; e_sequence := Z.of_nat (length (stream_events (st_streams s) (ae_stream entry))) + 1 |}.
Proof using Happ Hi.
  intros Hen Hev. destruct Happ as (_ & _ & saved & Hwr). pose proof Hwr as (Hwf' & Hin & _).
  destruct (Hin entry Hen) as [_ Hlog]. rewrite Hev in Hlog. split.
  - destruct Hwf' as [_ Hs']. destruct (Hs' (ae_stream entry)) as [_ Hjson].
    assert (ev ∈ log_of (st_streams s') (ae_stream entry)) as (saved' & -> & Hsv)%list_elem_of_fmap
      by (rewrite Hlog; apply elem_of_app; right; by left).
    destruct (Hjson _ Hsv) as [_ Hj]. by apply andb_prop in Hj as [? _].
  - apply doc_at_snoc; [by apply unique_values_wf|done|done|apply step_extends].
Qed.

Lemma target_entry :
  {| ae_stream := tg_stream target; ae_expectedVersion := version_of existing; ae_events := [event] |} ∈ entries.
Proof using Type.
  unfold step_entries, documentAtomicCommitEntries. rewrite !elem_of_app. left. right. right. right. by left.
Qed.

(** Other documents are as they were. *)
Lemma other_document t d n stream : ours d → documentStream t d n = Ok stream → stream ≠ tg_stream target →
  doc_at s' stream = doc_at s stream.
Proof using Hours Hok Hu Hseries Hruns Happ.
  intros Hours_d Hs Hne. apply step_out. eapply step_elsewhere; try done; [by eexists _, _|by apply Hours].
Qed.

(** The document that the step is about, at the time of what the command read of it. *)
Lemma target_before s0 : unique_values s0 → extends s0 s → seen unique_values (tg_stream target) existing s0 →
  doc_at s0 (tg_stream target) = Ok existing.
Proof using Hd Happ.
  intros Hi0 Hg Hseen. pose proof (step_checked _ target_entry) as Hl. cbn in Hl. rewrite <-Hd. unfold doc_at.
  by rewrite (seen_between unique_values unique_values_wf s0 s (tg_stream target) existing).
Qed.

Lemma existing_name : match existing with Some e => ds_name e | None => name end = name.
Proof using Hi Hgood Hok Hd.
  destruct Hi as [[_ Hl] _]. destruct Hgood as [Hours_d _]. destruct Hok as [_ Hs].
  destruct (Hl _ _ _ _ Hours_d Hs) as (doc & Hdoc & _ & _ & Hid). rewrite Hd in Hdoc. injection Hdoc as <-.
  revert Hid. clear. case existing; [|done]. by intros e (_ & _ & ?).
Qed.

(** What a reservation of the step is about. *)
Abbreviation of_step data r := (reservation_of nh_number tenant (tg_doctype target) data name r).

Lemma reservation_unique data r : of_step data r → uvr_field r ∈ unique_fields tenant dname.
Proof using Hgood.
  intros (_ & _ & _ & _ & (field & Hf & Hfu & <-) & _). destruct Hgood as [_ <-]. unfold unique_names.
  apply list_elem_of_fmap_2, list_elem_of_filter. done.
Qed.

(** ** What was decided *)

(** A reservation that the document has already is its own now. *)
Lemma skipped_owner data r : of_step data r →
  reservation_decided unique_values (seen unique_values (tg_stream target) existing) r None s →
  ∃ e, doc_at s (uvr_stream r) = Ok e ∧ activeUniqueValueOwner e = Some name.
Proof using Hi Hgood Hok Hd Happ Hcolon.
  intros Hr (s0 & Hi0 & Hg & Hseen & e & He & Ho). pose proof (reservation_unique _ _ Hr) as Hf.
  destruct Hr as (_ & _ & Hn & Hs & _). rewrite Hn in Ho. destruct Hgood as [Hours_d _].
  pose proof (proj2 (proj2 Hi0 _ _ _ _ Hours_d Hf) _ Hs) as (e0 & He0 & _ & Ho0). rewrite He in He0. injection He0 as <-.
  pose proof (owner_nonempty _ _ Ho) as Hne. apply Ho0 in Ho as (stream & doc & Hst & Hdoc & Hh); [|done].
  destruct Hok as [_ Hts]. rewrite Hts in Hst. injection Hst as <-. rewrite (target_before s0 Hi0 Hg Hseen) in Hdoc.
  injection Hdoc as <-. pose proof (proj2 (proj2 Hi _ _ _ _ Hours_d Hf) _ Hs) as (e1 & He1 & _ & Ho1).
  exists e1. split; [done|]. apply Ho1; [done|]. by exists (tg_stream target), existing.
Qed.

(** The check of an entry on a reservation. *)
Lemma write_entry_in w : w ∈ writes → reservation_entry w ∈ entries.
Proof using Type.
  intros Hw. unfold step_entries, documentAtomicCommitEntries. rewrite !elem_of_app. left. right. left. by apply list_elem_of_fmap_2.
Qed.

Lemma release_entry_in w : w ∈ releases → release_entry w ∈ entries.
Proof using Type.
  intros Hw. unfold step_entries, documentAtomicCommitEntries. rewrite !elem_of_app. left. right. right. left. by apply list_elem_of_fmap_2.
Qed.

(** A reservation that is taken has no owner now: its owner would have held the value. *)
Lemma taken_free data r e w : of_step data r →
  reservation_decided unique_values (seen unique_values (tg_stream target) existing) r (Some (r, e)) s →
  w ∈ writes → arw_reservation w = r → arw_existing w = e →
  doc_at s (uvr_stream r) = Ok e ∧ activeUniqueValueOwner e = None.
Proof using Hi Hgood Happ Hcolon.
  intros Hr [_ (s0 & Hi0 & Hg & Hseen & Hfree)] Hw Hwr Hwe. pose proof (reservation_unique _ _ Hr) as Hf.
  pose proof (step_checked _ (write_entry_in w Hw)) as Hl. cbn in Hl. rewrite Hwr, Hwe in Hl.
  pose proof (seen_between unique_values unique_values_wf s0 s _ _ Hi0 Hg Hseen Hl) as E.
  pose proof (seen_still unique_values unique_values_wf s0 _ _ Hseen ltac:(by rewrite E)) as He0.
  assert (doc_at s (uvr_stream r) = Ok e) as He by (unfold doc_at in *; by rewrite <-E). split; [done|].
  unfold free_to_take in Hfree. destruct (activeUniqueValueOwner e) as [owner|] eqn:Eo; [|done]. exfalso.
  destruct Hfree as (Hne & stream & document & Hst & Hdoc & Hnot).
  destruct Hr as (Ht & Hdt & Hn & Hs & _ & _). destruct Hgood as [Hours_d _].
  pose proof (proj2 (proj2 Hi0 _ _ _ _ Hours_d Hf) _ Hs) as (e0 & He0' & _ & Ho0). rewrite He0 in He0'. injection He0' as <-.
  apply Ho0 in Eo as (stream' & document' & Hst' & Hdoc' & doc & label & -> & Hlive & Hcan); [|by eapply owner_nonempty].
  rewrite Ht, Hdt, Hst' in Hst. injection Hst as <-. rewrite Hdoc' in Hdoc. injection Hdoc as <-.
  unfold uniqueReservationOwnerStillOwnsValue in Hnot. rewrite bool_decide_eq_false_2, Hcan in Hnot by done. cbn in Hnot.
  by rewrite bool_decide_eq_true_2 in Hnot.
Qed.

(** ** What the step leaves *)

Lemma holds_other t d n f k : ours d → ¬ (t = tenant ∧ d = dname ∧ n = name) →
  holds s' t d n f k ↔ holds s t d n f k.
Proof using Hours Hok Hu Hseries Hruns Happ.
  intros Hours_d Hne. unfold holds. f_equiv. intros stream. f_equiv. intros document.
  split; intros (Hs & Hdoc & Hh); (split; [done|]; split; [|done]).
  all: rewrite <-Hdoc; (rewrite (other_document t d n stream) || rewrite <-(other_document t d n stream)); try done.
  all: intros ->; apply Hne; by eapply documentStream_same; [|apply Hok].
Qed.

Lemma holds_target_after f k : holds s' tenant dname name f k ↔ document_holds (Some after) f k.
Proof using Hok Hd'.
  destruct Hok as [_ Hs]. split.
  - intros (stream & document & Hs' & Hdoc & Hh). rewrite Hs in Hs'. injection Hs' as <-. rewrite Hd' in Hdoc. by injection Hdoc as <-.
  - intros Hh. by exists (tg_stream target), (Some after).
Qed.

Lemma holds_target_before f k : holds s tenant dname name f k ↔ document_holds existing f k.
Proof using Hok Hd.
  destruct Hok as [_ Hs]. split.
  - intros (stream & document & Hs' & Hdoc & Hh). rewrite Hs in Hs'. injection Hs' as <-. rewrite Hd in Hdoc. by injection Hdoc as <-.
  - intros Hh. by exists (tg_stream target), existing.
Qed.

(** Who holds a value now, among the documents of the doctype. *)
Lemma holds_after n f k : holds s' tenant dname n f k ↔
  if decide (n = name) then document_holds (Some after) f k else holds s tenant dname n f k.
Proof using Hours Hok Hu Hseries Hruns Happ Hd' Hgood.
  case_decide as E; [rewrite E; apply holds_target_after|]. apply holds_other; [apply Hgood|]. by intros (_ & _ & ?).
Qed.

(** A reservation that the step does not write. *)
Lemma unwritten t d f k stream : uniqueValueStream t d f k = Ok stream →
  (∀ r, r ∈ step_reservations writes releases → uvr_stream r ≠ stream) → doc_at s' stream = doc_at s stream.
Proof using Hok Hseries Hruns Happ.
  intros Hs Hno. apply step_out. rewrite step_entries_streams, !elem_of_app.
  assert (in_doctype (js "__UniqueValues") stream) as Hin by (eexists _, _; exact Hs).
  intros [(w & -> & Hw)%list_elem_of_fmap|[(r & -> & Hr)%list_elem_of_fmap|[->%list_elem_of_singleton|(en & -> & Hen)%list_elem_of_fmap]]].
  - destruct series as [w'|]; [|by apply elem_of_nil in Hw]. apply list_elem_of_singleton in Hw as ->.
    destruct Hseries as (_ & c & sc & Hs'). by pose proof (in_doctype_same _ (js "__NamingSeries") _ Hin ltac:(by eexists _, _)).
  - by apply (Hno r).
  - destruct Hok as [Hdok Hts]. pose proof (in_doctype_same _ dname _ Hin ltac:(by eexists _, _)) as E.
    apply (dok_name _ Hdok). rewrite <-E. by right; left.
  - destruct Hruns as [_ Hr]. destruct (Hr en Hen) as [id Hid].
    by pose proof (in_doctype_same _ (js "__AutomationRuns") _ Hin ltac:(by eexists _, _)).
Qed.

(** A reservation that is neither written nor concerned stays in order. *)
Lemma reservation_kept t d f k stream : ours d → f ∈ unique_fields t d → uniqueValueStream t d f k = Ok stream →
  doc_at s' stream = doc_at s stream → (∀ n, n ≠ [] → holds s' t d n f k ↔ holds s t d n f k) →
  reservation_ok s' t d f k stream.
Proof using Hi.
  intros Hours_d Hf Hs E Hh. destruct (proj2 (proj2 Hi _ _ _ _ Hours_d Hf) _ Hs) as (e & He & Hlive & Ho).
  exists e. rewrite E. split_and!; [done|done|]. intros n Hn. by rewrite Hh, Ho.
Qed.

(** The reservation of a value after its event. *)
Lemma reservation_changed f k stream x : doc_at s' stream = Ok (Some x) → ds_docstatus x ≠ Deleted →
  (∀ n, n ≠ [] → n ≠ name → holds s tenant dname n f k ↔ activeUniqueValueOwner (Some x) = Some n) →
  (name ≠ [] → document_holds (Some after) f k ↔ activeUniqueValueOwner (Some x) = Some name) →
  reservation_ok s' tenant dname f k stream.
Proof using Hours Hok Hu Hseries Hruns Happ Hd' Hgood.
  intros Hx Hlive Hothers Hown. exists (Some x). split_and!; [done|by intros y [= <-]|]. intros n Hn.
  rewrite holds_after. case_decide as E; [rewrite E in *; by apply Hown|by apply Hothers].
Qed.

Lemma reservation_json stream e : doc_at s stream = Ok e → json_state e.
Proof using Type. apply foldDocumentFrom_json. Qed.

(** A value is taken. *)
Lemma taken_ok data r e w f k : of_step data r → uvr_field r = f → uvr_valueKey r = k →
  document_holds (Some after) f k → w ∈ writes → reservation_written (r, e) w →
  reservation_decided unique_values (seen unique_values (tg_stream target) existing) r (Some (r, e)) s →
  reservation_ok s' tenant dname f k (uvr_stream r).
Proof using Hours Hcolon Hi Hok Hu Hseries Hruns Happ Hd' Hgood.
  intros Hr <- <- Hholds Hw (Hwr & Hwe & _ & Hp) Hdec. cbn [fst snd] in Hwr, Hwe, Hp.
  destruct (taken_free data r e w Hr Hdec Hw Hwr Hwe) as [He Ho].
  destruct (step_folded (reservation_entry w) (arw_event w) (write_entry_in w Hw) eq_refl) as [Hj Hfold].
  cbn [reservation_entry ae_stream] in Hfold. rewrite Hwr, He in Hfold. cbn [mbind res_bind] in Hfold.
  pose proof (reservation_unique _ _ Hr) as Hf. destruct Hr as (_ & _ & Hn & Hs & _). pose proof Hgood as [Hours_d _].
  destruct (proj2 (proj2 Hi _ _ _ _ Hours_d Hf) _ Hs) as (e' & He' & Hlive & Ho'). rewrite He in He'. injection He' as <-.
  destruct (reserved_owner r e {| e_new := arw_event w; e_sequence := Z.of_nat (length (stream_events (st_streams s) (uvr_stream r))) + 1 |}
    Hp Hj (reservation_json _ _ He) Hlive) as (x & Hx & Hxlive & Hxo).
  rewrite Hx in Hfold. rewrite Hn in Hxo. eapply reservation_changed; [exact Hfold|done| |].
  - intros n Hne Hnn. rewrite Ho', Ho, Hxo by done. split; [done|]. case_bool_decide; congruence.
  - intros Hne. rewrite Hxo, bool_decide_eq_false_2 by done. done.
Qed.

(** A value is released. *)
Lemma released_ok data r w f k : of_step data r → uvr_field r = f → uvr_valueKey r = k →
  ¬ document_holds (Some after) f k → w ∈ releases →
  release_decided unique_values (seen unique_values (tg_stream target) existing) r (Some w) s →
  reservation_ok s' tenant dname f k (uvr_stream r).
Proof using Hours Hcolon Hi Hok Hu Hseries Hruns Happ Hd' Hgood.
  intros Hr <- <- Hholds Hw (Hwr & Hseen & Hown & _ & Hp).
  pose proof (step_checked _ (release_entry_in w Hw)) as Hl. cbn [release_entry ae_stream ae_expectedVersion] in Hl. rewrite Hwr in Hl.
  pose proof (seen_still unique_values unique_values_wf s _ _ Hseen Hl) as He.
  destruct (step_folded (release_entry w) (alw_event w) (release_entry_in w Hw) eq_refl) as [_ Hfold].
  cbn [release_entry ae_stream] in Hfold. rewrite Hwr, He in Hfold. cbn [mbind res_bind] in Hfold.
  pose proof (reservation_unique _ _ Hr) as Hf. destruct Hr as (_ & _ & Hn & Hs & _). pose proof Hgood as [Hours_d _].
  destruct (proj2 (proj2 Hi _ _ _ _ Hours_d Hf) _ Hs) as (e' & He' & Hlive & Ho'). rewrite He in He'. injection He' as <-.
  destruct (released_owner r (alw_existing w)
    {| e_new := alw_event w; e_sequence := Z.of_nat (length (stream_events (st_streams s) (uvr_stream r))) + 1 |}
    Hp (reservation_json _ _ He) (Hlive _ eq_refl)) as (x & Hx & Hxlive & Hxo).
  rewrite Hx in Hfold. rewrite Hn in Hown. eapply reservation_changed; [exact Hfold|done| |].
  - intros n Hne Hnn. rewrite Ho', Hown, Hxo by done. split; [|done]. congruence.
  - intros Hne. rewrite Hxo. split; [|done]. by intros ?%Hholds.
Qed.

(** ** The reservations of a document *)

Lemma reservation_same data r data' r' : of_step data r → of_step data' r' → uvr_stream r = uvr_stream r' →
  uniqueValueReservationKey r = uniqueValueReservationKey r' ∧ uvr_field r = uvr_field r' ∧ uvr_valueKey r = uvr_valueKey r'.
Proof using Hok.
  intros H1 H2 E. destruct (reservation_stream_same target Hok _ _ _ _ _ _ H1 H2 E) as [Ef Ek].
  destruct H1 as (_ & _ & Hn1 & _). destruct H2 as (_ & _ & Hn2 & _).
  unfold uniqueValueReservationKey. by rewrite E, Hn1, Hn2.
Qed.

Lemma reservation_value data r f k stream : of_step data r → f ∈ unique_fields tenant dname →
  uniqueValueStream tenant dname f k = Ok stream → uvr_stream r = stream → uvr_field r = f ∧ uvr_valueKey r = k.
Proof using Hgood Hcolon.
  intros Hr Hf Hs E. pose proof (reservation_unique _ _ Hr) as Hf'. destruct Hr as (_ & _ & _ & Hs' & _). rewrite E in Hs'.
  destruct Hgood as [Hours_d _]. destruct (Hcolon _ _ _ Hours_d Hf) as [Hcd Hcf]. destruct (Hcolon _ _ _ Hours_d Hf') as [_ Hcf'].
  by destruct (uniqueValueStream_same _ _ _ _ _ _ _ _ _ Hcd Hcf' Hcd Hcf Hs' Hs) as (_ & _ & ? & ?).
Qed.

(** What a document holds is what it reserves. *)
Lemma held_reserved document rs f k stream : live_reservations target name document rs → f ∈ unique_fields tenant dname →
  uniqueValueStream tenant dname f k = Ok stream → document_holds document f k ↔ stream ∈ uvr_stream <$> rs.
Proof using Hgood Hcolon.
  intros Hl Hf Hs. split.
  - intros (doc & label & -> & Hlive & Hc). cbn in Hl. rewrite bool_decide_eq_false_2 in Hl by done.
    assert (∃ field, field ∈ dt_fields (tg_doctype target) ∧ fd_unique field = true ∧ fd_name field = f) as (field & Hin & Hun & <-).
    { destruct Hgood as [_ E]. rewrite <-E in Hf. unfold unique_names in Hf. apply list_elem_of_fmap in Hf as (field & -> & Hf).
      apply list_elem_of_filter in Hf as [? ?]. by exists field. }
    destruct (reservations_complete _ _ _ _ _ _ _ _ _ Hl Hin Hun Hc) as (r & Hr & Ef & Ek).
    apply list_elem_of_fmap. exists r. split; [|done].
    destruct (reservations_elem _ _ _ _ _ _ _ Hl Hr) as (_ & _ & _ & Hs' & _). rewrite Ef, Ek, Hs in Hs'. by injection Hs'.
  - intros (r & -> & Hr)%list_elem_of_fmap. destruct (live_reservations_elem target _ _ _ _ Hl Hr) as (doc & -> & Hlive & Hof).
    destruct (reservation_value _ _ _ _ _ Hof Hf Hs eq_refl) as [<- <-]. destruct Hof as (_ & _ & _ & _ & _ & Hc).
    by exists doc, (uvr_valueLabel r).
Qed.

(** The reservation that is written on a stream is the one decided on. *)
Lemma written_once {B} (g : B → UniqueValueReservation) (P : UniqueValueReservation → option B → Prop)
    (l : list UniqueValueReservation) (ps : list (option B)) i r x :
  NoDup (uvr_stream <$> l) → Forall2 P l ps → (∀ r b, P r (Some b) → g b = r) →
  l !! i = Some r → ps !! i = Some None → x ∈ omap id ps → uvr_stream (g x) ≠ uvr_stream r.
Proof using Type.
  intros Hnd HF Hg Hi_ Hp Hx E. apply list_elem_of_omap in Hx as (o & Ho & Hox). cbn in Hox. subst o.
  apply list_elem_of_lookup in Ho as [j Hj]. destruct (Forall2_lookup_r _ _ _ _ _ HF Hj) as (r' & Hr' & HP).
  rewrite (Hg _ _ HP) in E.
  assert (i = j) as ->; [|congruence]. eapply NoDup_lookup; [exact Hnd| |]; rewrite list_lookup_fmap.
  - by rewrite Hi_.
  - rewrite Hr'. cbn. by rewrite E.
Qed.

Section moved.
Context (old next : list UniqueValueReservation).
Context (planned : list (option (UniqueValueReservation * option DocumentSnapshot))) (released : list (option AtomicUniqueReleaseWrite)).
Context (Hold : live_reservations target name existing old) (Hnext : live_reservations target name (Some after) next).
Context (Hplanned : Forall2 (λ r p, reservation_decided unique_values (seen unique_values (tg_stream target) existing) r p s)
  next planned).
Context (Hwritten : Forall2 reservation_written (omap id planned) writes).
Context (Hreleased : Forall2 (λ r p, release_decided unique_values (seen unique_values (tg_stream target) existing) r p s)
  (releasedUniqueValueReservations old next) released) (Hreleases : releases = omap id released).

Lemma next_of r : r ∈ next → of_step (ds_data after) r.
Proof using Hnext. intros Hr. by destruct (live_reservations_elem target _ _ _ _ Hnext Hr) as (doc & [= <-] & _ & ?). Qed.

Lemma old_of r : r ∈ old → ∃ doc, existing = Some doc ∧ ds_docstatus doc ≠ Deleted ∧ of_step (ds_data doc) r.
Proof using Hold. intros Hr. by apply (live_reservations_elem target _ _ _ _ Hold). Qed.

(** A released reservation is none of the new ones. *)
Lemma released_not_next r r' : r ∈ releasedUniqueValueReservations old next → r' ∈ next → uvr_stream r ≠ uvr_stream r'.
Proof using Hok Hold Hnext.
  intros [Hk Hr]%list_elem_of_filter Hr' E. destruct (old_of r Hr) as (doc & _ & _ & Hof).
  destruct (reservation_same _ _ _ _ Hof (next_of r' Hr') E) as [Ek _]. apply Hk. rewrite Ek. by apply list_elem_of_fmap_2.
Qed.

(** What the step writes. *)
Lemma written_next r : r ∈ arw_reservation <$> writes → ∃ e, (r, e) ∈ omap id planned ∧ r ∈ next.
Proof using Hplanned Hwritten.
  intros Hr. rewrite (written_reservations _ _ Hwritten) in Hr. apply list_elem_of_fmap in Hr as ([r' e] & -> & Hp). exists e.
  split; [done|]. apply list_elem_of_omap in Hp as (o & Ho & E). cbn in E. subst o. apply list_elem_of_lookup in Ho as [j Hj].
  destruct (Forall2_lookup_r _ _ _ _ _ Hplanned Hj) as (r & Hr & -> & _). by eapply list_elem_of_lookup_2.
Qed.

Lemma written_released r : r ∈ alw_reservation <$> releases → r ∈ releasedUniqueValueReservations old next.
Proof using Hreleased Hreleases.
  intros Hr. rewrite Hreleases in Hr. eapply elem_of_sublist; [exact Hr|]. eapply omap_sublist; [exact Hreleased|]. by intros x w (-> & _).
Qed.

(** The reservations of the document's new values. *)
Lemma next_ok f k r : f ∈ unique_fields tenant dname → uniqueValueStream tenant dname f k = Ok (uvr_stream r) →
  r ∈ next → reservation_ok s' tenant dname f k (uvr_stream r).
Proof using Hours Hcolon Hi Hok Hd Hu Hseries Hruns Happ Hd' Hgood Hold Hnext Hplanned Hwritten Hreleased Hreleases.
  intros Hf Hs Hr. pose proof (next_of r Hr) as Hof. destruct (reservation_value _ _ _ _ _ Hof Hf Hs eq_refl) as [Ef Ek].
  assert (document_holds (Some after) f k) as Hh.
  { apply (held_reserved _ _ _ _ _ Hnext Hf Hs). by apply list_elem_of_fmap_2. }
  apply list_elem_of_lookup in Hr as Hri. destruct Hri as [i Hri].
  destruct (Forall2_lookup_l _ _ _ _ _ Hplanned Hri) as ([[r0 e]|] & Hp & Hdec).
  - pose proof Hdec as [-> _].
    assert ((r, e) ∈ omap id planned) as [j Hj]%list_elem_of_lookup.
    { apply list_elem_of_omap. exists (Some (r, e)). split; [by eapply list_elem_of_lookup_2|done]. }
    destruct (Forall2_lookup_l _ _ _ _ _ Hwritten Hj) as (w & Hw & Hrw). apply list_elem_of_lookup_2 in Hw.
    by eapply taken_ok.
  - destruct (skipped_owner _ _ Hof Hdec) as (e & He & Ho).
    apply reservation_kept; [apply Hgood|done|done| |].
    + eapply unwritten; [exact Hs|]. unfold step_reservations. intros x [Hx|Hx]%elem_of_app.
      * apply written_next in Hx as (e' & Hx & _).
        eapply (written_once fst _ _ _ i r (x, e')); [by eapply live_reservations_streams|exact Hplanned| |done|done|done].
        by intros r1 [r2 e2] [-> _].
      * apply written_released in Hx. by apply released_not_next.
    + intros n Hn. rewrite holds_after. case_decide as E; [|done]. rewrite E in *. split; [intros _|done].
      destruct (proj2 (proj2 Hi _ _ _ _ (proj1 Hgood) Hf) _ Hs) as (e' & He' & _ & Ho'). rewrite He in He'. injection He' as <-.
      by apply Ho'.
Qed.

(** Those of its old values. *)
Lemma old_ok f k r : f ∈ unique_fields tenant dname → uniqueValueStream tenant dname f k = Ok (uvr_stream r) →
  r ∈ releasedUniqueValueReservations old next → reservation_ok s' tenant dname f k (uvr_stream r).
Proof using Hours Hcolon Hi Hok Hd Hu Hseries Hruns Happ Hd' Hgood Hold Hnext Hplanned Hwritten Hreleased Hreleases.
  intros Hf Hs Hr. pose proof Hr as [_ Hro]%list_elem_of_filter. destruct (old_of r Hro) as (doc & Hdoc & Hlive & Hof).
  destruct (reservation_value _ _ _ _ _ Hof Hf Hs eq_refl) as [Ef Ek].
  assert (¬ document_holds (Some after) f k) as Hh.
  { rewrite (held_reserved _ _ _ _ _ Hnext Hf Hs). intros (r' & E & Hr')%list_elem_of_fmap. by eapply released_not_next. }
  apply list_elem_of_lookup in Hr as Hri. destruct Hri as [i Hri].
  destruct (Forall2_lookup_l _ _ _ _ _ Hreleased Hri) as ([w|] & Hp & Hdec).
  - eapply released_ok; [done..| |exact Hdec]. rewrite Hreleases. apply list_elem_of_omap. exists (Some w).
    split; [by eapply list_elem_of_lookup_2|done].
  - destruct Hdec as (s0 & Hi0 & Hg & Hseen & e & He & Ho).
    destruct (proj2 (proj2 Hi0 _ _ _ _ (proj1 Hgood) Hf) _ Hs) as (e' & He' & _ & Ho'). rewrite He in He'. injection He' as <-.
    assert (name = []) as Hname.
    { destruct (decide (name = [])) as [|Hne]; [done|]. exfalso. apply Ho. destruct Hof as (_ & _ & -> & _). apply Ho'; [done|].
      destruct Hok as [_ Hts]. exists (tg_stream target), existing. split_and!; [done|by apply target_before|].
      apply (held_reserved _ _ _ _ _ Hold Hf Hs). by apply list_elem_of_fmap_2. }
    apply reservation_kept; [apply Hgood|done|done| |].
    + eapply unwritten; [exact Hs|]. unfold step_reservations. intros x [Hx|Hx]%elem_of_app E.
      * apply written_next in Hx as (_ & _ & Hx). by eapply released_not_next.
      * rewrite Hreleases in Hx. apply list_elem_of_fmap in Hx as (w & -> & Hw).
        eapply (written_once alw_reservation _ _ _ i r w); [|exact Hreleased| |done|done|done|done].
        -- unfold releasedUniqueValueReservations. eapply sublist_NoDup; [|apply fmap_sublist, sublist_filter].
           by eapply live_reservations_streams.
        -- by intros r1 w1 (-> & _).
    + intros n Hn. rewrite holds_after. case_decide as E; [|done]. congruence.
Qed.

Lemma moved_ok f k stream : f ∈ unique_fields tenant dname → uniqueValueStream tenant dname f k = Ok stream →
  reservation_ok s' tenant dname f k stream.
Proof using Hours Hcolon Hi Hok Hd Hu Hseries Hruns Happ Hd' Hgood Hold Hnext Hplanned Hwritten Hreleased Hreleases.
  intros Hf Hs. destruct (decide (stream ∈ uvr_stream <$> next)) as [(r & -> & Hr)%list_elem_of_fmap|Hn].
  { by apply next_ok. }
  destruct (decide (stream ∈ uvr_stream <$> releasedUniqueValueReservations old next)) as [(r & -> & Hr)%list_elem_of_fmap|Ho].
  { by apply old_ok. }
  assert (stream ∉ uvr_stream <$> old) as Hno.
  { intros (r & E & Hr)%list_elem_of_fmap. apply Ho, list_elem_of_fmap. exists r. split; [done|]. apply list_elem_of_filter.
    split; [|done]. intros (r' & Ek & Hr')%list_elem_of_fmap. apply Hn, list_elem_of_fmap. exists r'. split; [|done].
    destruct (old_of r Hr) as (doc & _ & _ & Hof). pose proof (next_of r' Hr') as Hof'. unfold uniqueValueReservationKey in Ek.
    destruct Hof as (_ & _ & Hn1 & _). destruct Hof' as (_ & _ & Hn2 & _). rewrite Hn1, Hn2 in Ek.
    rewrite !app_assoc in Ek. apply app_inv_tail in Ek. apply app_inj_tail in Ek as [Ek _]. congruence. }
  apply reservation_kept; [apply Hgood|done|done| |].
  - eapply unwritten; [exact Hs|]. unfold step_reservations. intros x [Hx|Hx]%elem_of_app E.
    + apply written_next in Hx as (_ & _ & Hx). apply Hn. rewrite <-E. by apply list_elem_of_fmap_2.
    + apply written_released in Hx. apply Ho. rewrite <-E. by apply list_elem_of_fmap_2.
  - intros n _. rewrite holds_after. case_decide as E; [rewrite E|done]. rewrite holds_target_before.
    rewrite (held_reserved _ _ _ _ _ Hnext Hf Hs), (held_reserved _ _ _ _ _ Hold Hf Hs). by split.
Qed.
End moved.

(** The reservations of the step's own doctype. *)
Lemma own_doctype_ok f k : f ∈ unique_fields tenant dname →
  (∀ n, holds s' tenant dname n f k → ∃ stream, uniqueValueStream tenant dname f k = Ok stream) ∧
  ∀ stream, uniqueValueStream tenant dname f k = Ok stream → reservation_ok s' tenant dname f k stream.
Proof using Hours Hcolon Hi Hok Hd Hu Hseries Hruns Happ Hd' Hgood.
  intros Hf. destruct (proj2 Hi _ _ f k (proj1 Hgood) Hf) as [Hs Hr]. pose proof existing_name as Hname.
  destruct Hu as [Hm|(Hw & Hrel & e & a & Hex & [= <-] & Hdata & He & Ha)].
  - apply moves_inv in Hm as (old & next & planned & released & Hold & Hnext & Hplanned & Hwritten & Hreleased & Hreleases).
    rewrite Hname in Hold, Hnext. split.
    + intros n Hh. rewrite holds_after in Hh. case_decide; [|by eapply Hs].
      destruct Hh as (doc & label & [= <-] & Hlive & Hc). cbn in Hnext. rewrite bool_decide_eq_false_2 in Hnext by done.
      destruct Hgood as [_ Eu]. rewrite <-Eu in Hf. unfold unique_names in Hf. apply list_elem_of_fmap in Hf as (field & -> & Hfield).
      apply list_elem_of_filter in Hfield as [Hun Hin].
      destruct (reservations_complete _ _ _ _ _ _ _ _ _ Hnext Hin Hun Hc) as (r & Hrn & Ef & Ek).
      destruct (reservations_elem _ _ _ _ _ _ _ Hnext Hrn) as (_ & _ & _ & Hst & _). rewrite Ef, Ek in Hst. by eexists.
    + intros stream Hst. by apply (moved_ok old next planned released).
  - assert (∀ n, holds s' tenant dname n f k ↔ holds s tenant dname n f k) as Hsame.
    { intros n. rewrite holds_after. case_decide as E; [rewrite E, holds_target_before|done].
      unfold document_holds. rewrite Hex. split; intros (doc & label & [= <-] & _ & Hc).
      - exists e, label. by rewrite <-Hdata.
      - exists after, label. by rewrite Hdata. }
    split; [intros n Hh; by eapply Hs, Hsame|]. intros stream Hst. apply reservation_kept; [apply Hgood|done|done| |done].
    eapply unwritten; [exact Hst|]. rewrite Hw, Hrel. by intros r ?%elem_of_nil.
Qed.

Lemma step_unique_values : documents_live ours s' → unique_values s'.
Proof using Hours Hcolon Hi Hok Hd Hu Hseries Hruns Happ Hd' Hgood.
  intros Hlive. split; [done|]. intros t d f k Hours_d Hf.
  destruct (decide (t = tenant ∧ d = dname)) as [[-> ->]|Hne]; [by apply own_doctype_ok|].
  destruct (proj2 Hi _ _ f k Hours_d Hf) as [Hs Hr].
  assert (∀ n, holds s' t d n f k ↔ holds s t d n f k) as Hsame.
  { intros n. apply holds_other; [done|]. intros (? & ? & _). by apply Hne. }
  split; [intros n Hh; by eapply Hs, Hsame|]. intros stream Hst. apply reservation_kept; [done|done|done| |done].
  eapply unwritten; [exact Hst|]. intros r Hin E.
  destruct Hu as [Hm|(Hw & Hrel & _)]; [|rewrite Hw, Hrel in Hin; by apply elem_of_nil in Hin].
  destruct (proj2 (moves_streams unique_values target Hok _ _ _ _ _ Hm) r Hin) as (data & n & Hof).
  destruct (reservation_colon target Hok _ _ _ Hof) as [Hcd Hcf]. destruct Hof as (_ & _ & _ & Hst' & _). rewrite E in Hst'.
  destruct (Hcolon _ _ _ Hours_d Hf) as [Hcd' Hcf'].
  destruct (uniqueValueStream_same _ _ _ _ _ _ _ _ _ Hcd Hcf Hcd' Hcf' Hst' Hst) as (E1 & E2 & _). by apply Hne.
Qed.
End step.

(** The steps of a stronger invariant. *)
Lemma document_step_weaken (inv inv' : DocumentStore → Prop) good good' s s' :
  (∀ s, inv s → inv' s) → (∀ t d, good t d → good' t d) → document_step inv good s s' → document_step inv' good' s s'.
Proof using Type.
  intros Hinv Hgood [target existing event after series writes releases runs Hg Hok Hev Hd Hal Hd' Hu Hseries Hruns Happ].
  assert (∀ K s0, once extends inv K s0 → once extends inv' K s0) as Honce.
  { intros K s0 (s1 & ? & ? & ?). exists s1. split_and!; [by apply Hinv|done|done]. }
  econstructor; try done; [by apply Hgood|].
  destruct Hu as [[name old next planned writes' released Hname Hold Hnext Hplanned Hwritten Hreleased]|Hkept]; [left|by right].
  eapply unique_moved; try done.
  - eapply Forall2_impl; [exact Hplanned|]. intros r [[r' e]|]; cbn.
    + intros [? Hx]. split; [done|]. apply Honce. eapply once_mono; [exact Hx|]. intros s0 [Hy ?]. split; [by apply Honce|done].
    + intros Hx. apply Honce. eapply once_mono; [exact Hx|]. intros s0 [Hy ?]. split; [by apply Honce|done].
  - eapply Forall2_impl; [exact Hreleased|]. intros r [w|]; cbn.
    + intros (? & Hx & ? & ? & ?). split_and!; [done|exact (Honce _ _ Hx)|done..].
    + intros Hx. apply Honce. eapply once_mono; [exact Hx|]. intros s0 [Hy ?]. split; [by apply Honce|done].
Qed.

(** A step keeps the unique values. *)
Lemma document_step_unique_values s s' :
  unique_values s → document_step unique_values agreed_doctype s s' → unique_values s'.
Proof using Hours Hcolon.
  intros Hi Hstep. assert (documents_live ours s') as Hlive.
  { eapply step_documents_live; [exact Hours|apply Hi|]. eapply (document_step_weaken unique_values (documents_live ours) agreed_doctype (our_doctype ours)); [by intros ? [? _]|by intros ?? [? _]|exact Hstep]. }
  destruct Hstep as [target existing event after series writes releases runs Hg Hok Hev Hd Hal Hd' Hu Hseries Hruns Happ].
  by eapply step_unique_values.
Qed.

Context (host : predicate_host) `{Collation} (upper : N → jstr).
Context (ids clock : nat → jstr) (planner : AutomationRunPlanner) (event_object : NewDomainEvent → value).
Context (options : DocumentServiceOptions) (env : nat → DocumentStore → DocumentStore).

(** ** The service keeps values unique *)

Lemma perform_unique_values call s :
  (∀ k s, unique_values s → unique_values (env k s) ∧ extends s (env k s)) →
  (∀ actor name tenantId doctype, doctypeFor options actor name tenantId = Ok doctype →
     ours (dt_name doctype) ∧ unique_names doctype = unique_fields tenantId (dt_name doctype) ∧ doctype_ok doctype) →
  unique_values s →
  let (_, c) := perform host upper ids clock planner event_object options env call (new_client s) in
  unique_values (cl_store c) ∧ extends s (cl_store c) ∧
  ∀ t d n n' f k, ours d → f ∈ unique_fields t d → n ≠ [] → n' ≠ [] →
    holds (cl_store c) t d n f k → holds (cl_store c) t d n' f k → n = n'.
Proof using Hours Hcolon.
  intros Henv Hdoctypes Hs.
  assert (∀ actor name tenantId doctype, doctypeFor options actor name tenantId = Ok doctype →
    agreed_doctype tenantId doctype ∧ doctype_ok doctype) as Hagreed.
  { intros actor name tenantId doctype E. destruct (Hdoctypes _ _ _ _ E) as (? & ? & ?). by split. }
  pose proof (perform_safe host upper ids clock planner event_object options env unique_values agreed_doctype
    unique_values_wf (Henv := Henv) unique_values_streams document_step_unique_values Hagreed call (new_client s) Hs) as Hc.
  destruct (perform _ _ _ _ _ _ _ _ _ _) as [r c]. destruct Hc as [Hc Hext]. split; [done|split; [done|]].
  intros t d n n' f k Hd Hf Hn Hn'. by apply unique_values_exclusive_at.
Qed.

(** In every history of the document service, whatever other clients that keep it do in
    between, two documents of a doctype never hold the same value in a unique field, and
    the reservation of each value is owned by exactly the document that holds it.  Every
    call keeps this, whether it returns or throws: creations, changes, transitions and
    domain commands that meet a value that is taken fail, and a deletion gives its values
    back. *)
Theorem service_unique_values call s :
  (∀ k s, unique_values s → unique_values (env k s) ∧ extends s (env k s)) →
  (∀ actor name tenantId doctype, doctypeFor options actor name tenantId = Ok doctype →
     ours (dt_name doctype) ∧ unique_names doctype = unique_fields tenantId (dt_name doctype) ∧ doctype_ok doctype) →
  unique_values s →
  let (_, c) := perform host upper ids clock planner event_object options env call (new_client s) in
  unique_values (cl_store c) ∧ extends s (cl_store c) ∧
  ∀ t d n n' f k, ours d → f ∈ unique_fields t d → n ≠ [] → n' ≠ [] →
    holds (cl_store c) t d n f k → holds (cl_store c) t d n' f k → n = n'.
Proof using Hours Hcolon. apply perform_unique_values. Qed.
End unique.

(** ** Witness *)

(** Bob takes the code that Ada is about to take. *)
Definition sample_rival (k : nat) (s : DocumentStore) : DocumentStore :=
  if Nat.eqb k 2 then cl_store (sample_perform (λ n, js "bob_" ++ dec (N.of_nat n)) (λ _ s, s)
    (sample_creation (js "bob") (js "N-2") (js "X")) s).2 else s.

Definition sample_unique_fields (_ _ : jstr) : list jstr := [js "code"].

Lemma service_unique_values_witness :
  let (r, c) := sample_perform sample_ids sample_rival (sample_creation (js "ada") (js "N-1") (js "X")) empty_store in
  @unique_values sample_naming_host sample_ours sample_unique_fields (cl_store c) ∧
  (r = Throw conflict ∧ stream_events (st_streams (cl_store c)) (js "acme:Note:N-1") = [] ∧
   length (stream_events (st_streams (cl_store c)) (js "acme:Note:N-2")) = 1).
Proof.
  assert (∀ d, sample_ours d → d ∉ INTERNAL_DOCTYPES) as Hours by (intros d ->; by apply (bool_decide_unpack _)).
  assert (∀ t d f, sample_ours d → f ∈ sample_unique_fields t d → (58%N ∉ d) ∧ (58%N ∉ f)) as Hcolon.
  { intros t d f -> ->%list_elem_of_singleton. split; by apply (bool_decide_unpack _). }
  assert (∀ actor name tenantId doctype, doctypeFor sample_service actor name tenantId = Ok doctype →
    sample_ours (dt_name doctype) ∧ unique_names doctype = sample_unique_fields tenantId (dt_name doctype) ∧ doctype_ok doctype)
    as Hdoctypes.
  { intros actor name tenantId doctype ->%sample_service_doctypes. split_and!; [done|done|apply sample_service_doctype_ok]. }
  set (inv := @unique_values sample_naming_host sample_ours sample_unique_fields).
  assert (∀ ids env call s, (∀ k s, inv s → inv (env k s) ∧ extends s (env k s)) → inv s →
    inv (cl_store (sample_perform ids env call s).2) ∧ extends s (cl_store (sample_perform ids env call s).2)) as Hcall.
  { intros ids env call s Henv Hs. unfold sample_perform.
    pose proof (@service_unique_values sample_naming_host sample_ours sample_unique_fields Hours Hcolon sample_access_host
      code_unit_collation (λ c, [c]) ids sample_clock sample_planner (λ _, VNull) sample_service env call s Henv Hdoctypes Hs) as H.
    destruct (perform _ _ _ _ _ _ _ _ _ _) as [r c]. exact (conj (proj1 H) (proj1 (proj2 H))). }
  pose proof (Hcall sample_ids sample_rival (sample_creation (js "ada") (js "N-1") (js "X")) empty_store) as H.
  assert (let (r, c) := sample_perform sample_ids sample_rival (sample_creation (js "ada") (js "N-1") (js "X")) empty_store in
    r = Throw conflict ∧ stream_events (st_streams (cl_store c)) (js "acme:Note:N-1") = [] ∧
    length (stream_events (st_streams (cl_store c)) (js "acme:Note:N-2")) = 1) as Hrun by (vm_compute; done).
  revert H Hrun. destruct (sample_perform sample_ids sample_rival _ _) as [r c]. intros H Hrun. split; [|exact Hrun].
  apply H; [|apply unique_values_empty]. intros k s Hs. unfold sample_rival.
  destruct (Nat.eqb k 2); [apply Hcall; [by split|done]|by split].
Defined.
