(* ===== verification/Doctypes.v ===== *)
(** * Doctypes: the definition of a doctype

    Models [core/identifiers.ts] and [defineDocType] of [core/schema.ts]: the checks on
    the name and the fields of a doctype, and the normal form of its naming, its
    automation rules, its workflows and its conditions.  Views, assignment rules and
    projection indexes are not part of the modelled doctype, so their checks have no
    counterpart.  A doctype that is defined is one that the theorems on the document
    service suppose, and defining it again changes nothing. *)

From S2P Require Export DocumentSteps NamingSeries.

(** ** Identifiers *)

Definition is_letter (c : N) : bool := ((65 <=? c) && (c <=? 90) || (97 <=? c) && (c <=? 122))%N.

(** [METADATA_NAME] and [PLAIN_IDENTIFIER]. *)
Definition isMetadataName (v : jstr) : bool :=
  match v with
  | c :: rest => is_letter c && forallb (λ c, is_letter c || is_digit c || (c =? 95)%N || (c =? 32)%N) rest
  | [] => false
  end.

Definition isPlainIdentifier (v : jstr) : bool :=
  match v with
  | c :: rest => (is_letter c || (c =? 95)%N) && forallb (λ c, is_letter c || is_digit c || (c =? 95)%N) rest
  | [] => false
  end.

(** ** Fields *)

(** [DocTypeNormalizationOptions]. *)
Record DocTypeNormalizationOptions := {
  dno_automationLimits : AutomationNormalizationLimits;
  dno_workflowLimits : WorkflowNormalizationLimits
}.

Definition field_invalid : error := FrameworkError DOCTYPE_FIELD_INVALID 400.

(** [assertIdentifier(value, label)] throws an [Error]. *)
Definition assertIdentifier (v : jstr) : res unit := ensure (isMetadataName v) (FrameworkError PLAIN_ERROR 500).

(** [!text] of an optional text. *)
Definition falsy_text (v : option jstr) : bool := match v with Some v => bool_decide (v = []) | None => true end.

(** [assertLinkFieldDefinition(doctype, field)]. *)
Definition assertLinkFieldDefinition (field : FieldDefinition) : res unit :=
  if bool_decide (fd_type field = FLink)
  then
    _ ← ensure (negb (falsy_text (fd_linkTo field))) (FrameworkError DOCTYPE_LINK_INVALID 400);
    assertIdentifier (default [] (fd_linkTo field))
  else ensure (bool_decide (fd_linkTo field = None)) (FrameworkError DOCTYPE_LINK_INVALID 400).

(** [assertTableFieldDefinition(doctype, field)]. *)
Definition assertTableFieldDefinition (field : FieldDefinition) : res unit :=
  if bool_decide (fd_type field = FTable)
  then
    _ ← ensure (negb (falsy_text (fd_tableOf field))) (FrameworkError DOCTYPE_TABLE_INVALID 400);
    assertIdentifier (default [] (fd_tableOf field))
  else ensure (bool_decide (fd_tableOf field = None)) (FrameworkError DOCTYPE_TABLE_INVALID 400).

(** [assertUniqueFieldDefinition(doctype, field)]. *)
Definition assertUniqueFieldDefinition (field : FieldDefinition) : res unit :=
  ensure (negb (fd_unique field && bool_decide (fd_type field ∈ [FJson; FTable]))) field_invalid.

(** [assertFetchFieldDefinition(doctype, field)]. *)
Definition assertFetchFieldDefinition (doctype : DocTypeDefinition) (field : FieldDefinition) : res unit :=
  match fd_fetchFrom field with
  | None => ensure (negb (fd_fetchIfEmpty field)) field_invalid
  | Some fetchFrom =>
      let parts := References.split_char 46 fetchFrom in
      let linkFieldName := default [] (parts !! 0) in
      let sourceFieldName := default [] (parts !! 1) in
      _ ← ensure (negb (bool_decide (linkFieldName = []) || bool_decide (sourceFieldName = []) ||
            match parts !! 2 with Some _ => true | None => false end)) field_invalid;
      _ ← assertIdentifier sourceFieldName;
      _ ← ensure (match find_field doctype linkFieldName with
                  | Some linkField => bool_decide (fd_type linkField = FLink)
                  | None => false
                  end) field_invalid;
      ensure (negb (bool_decide (fd_type field = FTable))) field_invalid
  end.

(** The options that the conditions of a field give [normalizePredicateExpression]. *)
Definition depends_on_options : NormalizeOptions :=
  {| no_availableScopes := Some [ScAfter]; no_errorCode := Some DOCTYPE_FIELD_INVALID; no_maxDepth := None;
     no_maxNodes := None |}.

(** [assertMandatoryDependsOnDefinition], [assertReadOnlyDependsOnDefinition] and
    [assertHiddenDependsOnDefinition], and the normal form that [freezeFieldDefinition]
    keeps. *)
Definition normalize_dependsOn (doctype : DocTypeDefinition) (condition : option PredicateExpression)
    : res (option PredicateExpression) :=
  optional_res (λ e, normalizePredicateExpression doctype e depends_on_options) condition.

(** [assertFieldPermissionRulesDefinition(doctype, field)]; the actions of a rule are
    known by their type. *)
Definition assertFieldPermissionRulesDefinition (field : FieldDefinition) : res unit :=
  ensure (forallb (λ rule, negb (bool_decide (fpr_roles rule = [])) && negb (bool_decide (length (fpr_actions rule) = 0)))
    (default [] (fd_permissions field))) field_invalid.

(** The checks on a field in the loop of [defineDocType]. *)
Definition assert_field (doctype : DocTypeDefinition) (seen : list jstr) (field : FieldDefinition) : res (list jstr) :=
  _ ← assertIdentifier (fd_name field);
  _ ← ensure (negb (bool_decide (fd_name field ∈ seen))) (FrameworkError PLAIN_ERROR 500);
  _ ← assertLinkFieldDefinition field;
  _ ← assertTableFieldDefinition field;
  _ ← assertUniqueFieldDefinition field;
  _ ← assertFetchFieldDefinition doctype field;
  _ ← normalize_dependsOn doctype (fd_mandatoryDependsOn field);
  _ ← normalize_dependsOn doctype (fd_readOnlyDependsOn field);
  _ ← normalize_dependsOn doctype (fd_hiddenDependsOn field);
  _ ← assertFieldPermissionRulesDefinition field;
  Ok (js_add (fd_name field) seen).

(** The default of [freezeFieldDefinition]: a value is cloned, a function kept. *)
Definition freeze_default (defaultValue : FieldDefault) : FieldDefault :=
  match defaultValue with
  | DefaultLiteral v => DefaultLiteral (cloneJsonValue v)
  | DefaultFunction f => DefaultFunction f
  end.

(** [freezeFieldDefinition(doctype, field)]. *)
Definition freezeFieldDefinition (doctype : DocTypeDefinition) (field : FieldDefinition) : res FieldDefinition :=
  mandatoryDependsOn ← normalize_dependsOn doctype (fd_mandatoryDependsOn field);
  readOnlyDependsOn ← normalize_dependsOn doctype (fd_readOnlyDependsOn field);
  hiddenDependsOn ← normalize_dependsOn doctype (fd_hiddenDependsOn field);
  _ ← assertFieldPermissionRulesDefinition field;
  Ok {| fd_name := fd_name field; fd_type := fd_type field; fd_required := fd_required field;
        fd_mandatoryDependsOn := mandatoryDependsOn; fd_readOnly := fd_readOnly field;
        fd_readOnlyDependsOn := readOnlyDependsOn; fd_hidden := fd_hidden field; fd_hiddenDependsOn := hiddenDependsOn;
        fd_unique := fd_unique field; fd_noCopy := fd_noCopy field; fd_allowOnSubmit := fd_allowOnSubmit field;
        fd_fetchFrom := fd_fetchFrom field; fd_fetchIfEmpty := fd_fetchIfEmpty field; fd_options := fd_options field;
        fd_linkTo := fd_linkTo field; fd_tableOf := fd_tableOf field; fd_min := fd_min field; fd_max := fd_max field;
        fd_defaultValue := freeze_default <$> fd_defaultValue field; fd_permissions := fd_permissions field |}.

(** The check of [freezeCommandDefinitions(commands)], which copies them. *)
Definition assert_commands (commands : list DomainCommandDefinition) : res unit :=
  ensure (forallb (λ command,
    match dcd_buildPatch command, dcd_buildPlan command with Some _, Some _ => false | _, _ => true end) commands)
    (FrameworkError PLAIN_ERROR 500).

(** [defineDocType(definition, options)]. *)
Definition defineDocType (definition : DocTypeDefinition) (options : DocTypeNormalizationOptions) : res DocTypeDefinition :=
  _ ← assertIdentifier (dt_name definition);
  _ ← foldl_res (assert_field definition) [] (dt_fields definition);
  naming ← optional_res (normalizeNamingStrategy definition) (dt_naming definition);
  automationRules ← normalizeAutomationRules definition (dt_automationRules definition) (dno_automationLimits options);
  workflows ← normalizeNamedWorkflows definition (dt_workflows definition) (dno_workflowLimits options);
  _ ← assert_commands (default [] (dt_commands definition));
  fields ← map_res (freezeFieldDefinition definition) (dt_fields definition);
  Ok {| dt_name := dt_name definition; dt_fields := fields; dt_permissions := dt_permissions definition;
        dt_workflows := workflows; dt_automationRules := automationRules; dt_commands := dt_commands definition;
        dt_naming := naming; dt_allowUnknownFields := dt_allowUnknownFields definition;
        dt_events := dt_events definition |}.

(** ** What a defined doctype is *)

Lemma metadata_name_safe v : isMetadataName v = true → v ∉ INTERNAL_DOCTYPES ∧ (58%N ∉ v).
Proof.
  destruct v as [|c rest]; [done|]. cbn [isMetadataName]. intros [Hc Hrest]%andb_prop. rewrite forallb_In in Hrest. split.
  - intros Hin. assert (c = 95%N) as ->; [|done]. unfold INTERNAL_DOCTYPES in Hin.
    repeat (apply elem_of_cons in Hin as [Hin|Hin]; [by injection Hin|]). by apply elem_of_nil in Hin.
  - intros [<-|Hin]%elem_of_cons; [done|]. by specialize (Hrest _ Hin).
Qed.

Lemma assertIdentifier_ok v u : assertIdentifier v = Ok u → isMetadataName v = true.
Proof. apply ensure_ok. Qed.

(** The conditions of a field are kept as they are. *)
Lemma normalize_dependsOn_same doctype condition condition' :
  normalize_dependsOn doctype condition = Ok condition' → condition' = condition.
Proof.
  destruct condition as [e|]; cbn; [|by intros [= <-]]. intros E. step_ok E as e' He. injection E as <-.
  by apply normalizePredicateExpression_run in He as [-> _].
Qed.

Lemma freeze_field_same doctype field field' : freezeFieldDefinition doctype field = Ok field' → field' = field.
Proof.
  unfold freezeFieldDefinition. intros E. step_ok E as m Hm. step_ok E as r Hr. step_ok E as h Hh. step_ok E as u Hu.
  injection E as <-. apply normalize_dependsOn_same in Hm as ->, Hr as ->, Hh as ->.
  destruct field as [?????????????????? defaultValue ?]; cbn. f_equal.
  destruct defaultValue as [[v|f]|]; cbn; [by rewrite cloneJsonValue_id|done|done].
Qed.

Lemma freeze_fields_same doctype fields fields' :
  map_res (freezeFieldDefinition doctype) fields = Ok fields' → fields' = fields.
Proof.
  intros Hf%map_res_ok. induction Hf as [|field field' fields fields' Hfield _ IH]; [done|].
  by apply freeze_field_same in Hfield as ->; rewrite IH.
Qed.

(** ** What is accepted *)

(** A target is named exactly when the field is of the type that has one. *)
Definition target_defined (type : FieldType) (field : FieldDefinition) (target : option jstr) : Prop :=
  match target with
  | Some t => fd_type field = type ∧ isMetadataName t = true
  | None => fd_type field ≠ type
  end.

(** A fetched field follows a link of the doctype to a field. *)
Definition fetch_defined (doctype : DocTypeDefinition) (field : FieldDefinition) : Prop :=
  match fd_fetchFrom field with
  | None => fd_fetchIfEmpty field = false
  | Some fetchFrom => ∃ path linkField, parseFetchFrom fetchFrom = Some path ∧ isMetadataName (ffp_sourceField path) = true ∧
      find_field doctype (ffp_linkField path) = Some linkField ∧ fd_type linkField = FLink ∧ fd_type field ≠ FTable
  end.

Definition condition_defined (doctype : DocTypeDefinition) (condition : option PredicateExpression) : Prop :=
  ∀ e, condition = Some e → normalizePredicateExpression doctype e depends_on_options = Ok e.

Record field_defined (doctype : DocTypeDefinition) (field : FieldDefinition) : Prop := {
  fdf_name : isMetadataName (fd_name field) = true;
  fdf_link : target_defined FLink field (fd_linkTo field);
  fdf_table : target_defined FTable field (fd_tableOf field);
  fdf_unique : fd_unique field = true → fd_type field ≠ FJson ∧ fd_type field ≠ FTable;
  fdf_fetch : fetch_defined doctype field;
  fdf_mandatory : condition_defined doctype (fd_mandatoryDependsOn field);
  fdf_readOnly : condition_defined doctype (fd_readOnlyDependsOn field);
  fdf_hidden : condition_defined doctype (fd_hiddenDependsOn field);
  fdf_permissions : ∀ rule, rule ∈ default [] (fd_permissions field) → fpr_roles rule ≠ [] ∧ fpr_actions rule ≠ []
}.

Lemma assert_target_ok type field target e :
  (if bool_decide (fd_type field = type)
   then _ ← ensure (negb (falsy_text target)) e; assertIdentifier (default [] target)
   else ensure (bool_decide (target = None)) e) = Ok tt ↔ target_defined type field target.
Proof.
  unfold target_defined, assertIdentifier. case_bool_decide as Ht.
  - destruct target as [t|]; cbn; [|by split]. case_bool_decide as E; [rewrite E; by split; [|intros [_ ?]]|]. cbn.
    destruct (isMetadataName t); cbn; split; try done; by intros [_ ?].
  - destruct target as [t|]; cbn; [|by split]. split; [done|by intros [? _]].
Qed.

Lemma assert_unique_ok field :
  assertUniqueFieldDefinition field = Ok tt ↔ (fd_unique field = true → fd_type field ≠ FJson ∧ fd_type field ≠ FTable).
Proof.
  unfold assertUniqueFieldDefinition. destruct (fd_unique field); [|by split]. case_bool_decide as Ht; cbn.
  - split; [done|]. intros Hn. destruct (Hn eq_refl) as [H1 H2].
    apply elem_of_cons in Ht as [?|[?|[]%elem_of_nil]%elem_of_cons]; done.
  - split; [|done]. intros _ _. split; intros E; apply Ht; rewrite E; [by left|by right; left].
Qed.

Lemma assert_fetch_ok doctype field : assertFetchFieldDefinition doctype field = Ok tt ↔ fetch_defined doctype field.
Proof.
  unfold assertFetchFieldDefinition, fetch_defined. destruct (fd_fetchFrom field) as [fetchFrom|].
  2:{ destruct (fd_fetchIfEmpty field); by split. }
  unfold parseFetchFrom. destruct (References.split_char 46 fetchFrom) as [|link [|source [|extra rest]]]; cbn [lookup list_lookup default].
  - cbn. split; [done|]. by intros (? & ? & ? & _).
  - rewrite orb_true_r. cbn. split; [done|]. by intros (? & ? & ? & _).
  - rewrite orb_false_r. unfold id.
    destruct (bool_decide (link = []) || bool_decide (source = [])) eqn:E; rewrite ?E; cbn [negb ensure mbind res_bind].
    { split; [done|]. by intros (? & ? & ? & _). }
    split.
    + intros Hf. step_ok Hf as u Hs. step_ok Hf as u' Hl. apply ensure_ok in Hs, Hl, Hf.
      destruct (find_field doctype link) as [linkField|] eqn:Ef; [|done]. apply bool_decide_eq_true in Hl.
      apply negb_true_iff, bool_decide_eq_false in Hf. by eexists _, linkField.
    + intros (path & linkField & [= <-] & Hs & Hl & Ht & Hf). cbn in Hs, Hl. unfold assertIdentifier.
      rewrite Hs, Hl, Ht. cbn. by rewrite bool_decide_eq_false_2.
  - rewrite !orb_true_r. cbn. split; [done|]. by intros (? & ? & ? & _).
Qed.

Lemma normalize_dependsOn_ok doctype condition :
  is_ok (normalize_dependsOn doctype condition) = true ↔ condition_defined doctype condition.
Proof.
  unfold normalize_dependsOn, condition_defined. destruct condition as [e|]; cbn; [|split; [by intros _ e|done]].
  destruct (normalizePredicateExpression doctype e depends_on_options) as [e'|err] eqn:E; cbn; split; try done.
  - intros _ ? [= <-]. pose proof E as [-> _]%normalizePredicateExpression_run. done.
  - intros He. by specialize (He e eq_refl); rewrite E in He.
Qed.

Lemma assert_permissions_ok field :
  assertFieldPermissionRulesDefinition field = Ok tt ↔
  ∀ rule, rule ∈ default [] (fd_permissions field) → fpr_roles rule ≠ [] ∧ fpr_actions rule ≠ [].
Proof.
  unfold assertFieldPermissionRulesDefinition. split.
  - intros Hall%ensure_ok rule Hr. rewrite forallb_In in Hall. specialize (Hall rule Hr).
    apply andb_prop in Hall as [H1%negb_true_iff%bool_decide_eq_false H2%negb_true_iff%bool_decide_eq_false].
    split; [done|]. intros E. by rewrite E in H2.
  - intros Hall. assert (forallb (λ rule, negb (bool_decide (fpr_roles rule = [])) &&
      negb (bool_decide (length (fpr_actions rule) = 0))) (default [] (fd_permissions field)) = true) as ->; [|done].
    apply forallb_In. intros rule Hr. destruct (Hall rule Hr) as [H1 H2]. rewrite !bool_decide_eq_false_2; [done| |done].
    by intros ?%nil_length_inv.
Qed.

Lemma assert_field_ok doctype seen field seen' :
  assert_field doctype seen field = Ok seen' ↔
  field_defined doctype field ∧ (fd_name field ∉ seen) ∧ seen' = js_add (fd_name field) seen.
Proof.
  unfold assert_field. split.
  - intros E. step_ok E as u0 Hname. apply assertIdentifier_ok in Hname. ensure_step E as Hseen.
    apply negb_true_iff, bool_decide_eq_false in Hseen.
    step_ok E as v1 Hlink. destruct v1. apply assert_target_ok in Hlink. step_ok E as v2 Htable. destruct v2. apply assert_target_ok in Htable.
    step_ok E as v3 Hunique. destruct v3. pose proof (proj1 (assert_unique_ok _) Hunique) as Hscalar. step_ok E as v4 Hfetch. destruct v4. apply assert_fetch_ok in Hfetch.
    step_ok E as m Hm. step_ok E as r Hr. step_ok E as h Hh. step_ok E as v5 Hp. destruct v5. pose proof (proj1 (assert_permissions_ok _) Hp) as Hrules.
    injection E as <-. split; [|done]. split; try done; apply normalize_dependsOn_ok; by rewrite ?Hm, ?Hr, ?Hh.
  - intros ([Hname Hlink Htable Hunique Hfetch Hm%normalize_dependsOn_ok Hr%normalize_dependsOn_ok Hh%normalize_dependsOn_ok Hp] &
      Hseen & ->).
    apply (proj2 (assert_target_ok _ _ _ (FrameworkError DOCTYPE_LINK_INVALID 400))) in Hlink.
    apply (proj2 (assert_target_ok _ _ _ (FrameworkError DOCTYPE_TABLE_INVALID 400))) in Htable. pose proof (proj2 (assert_unique_ok _) Hunique) as Hscalar. apply assert_fetch_ok in Hfetch.
    pose proof (proj2 (assert_permissions_ok _) Hp) as Hrules. unfold assertIdentifier. rewrite Hname. cbn [ensure mbind res_bind].
    rewrite bool_decide_eq_false_2 by done. cbn [negb ensure mbind res_bind].
    unfold assertLinkFieldDefinition, assertTableFieldDefinition.
    erewrite Hlink, Htable, Hscalar, Hfetch. cbn [mbind res_bind].
    destruct (normalize_dependsOn _ (fd_mandatoryDependsOn field)); [|done]. cbn [mbind res_bind].
    destruct (normalize_dependsOn _ (fd_readOnlyDependsOn field)); [|done]. cbn [mbind res_bind].
    destruct (normalize_dependsOn _ (fd_hiddenDependsOn field)); [|done]. cbn [mbind res_bind]. by rewrite Hrules.
Qed.

Lemma assert_fields_ok doctype seen fields :
  is_ok (foldl_res (assert_field doctype) seen fields) = true ↔
  Forall (field_defined doctype) fields ∧ NoDup (fd_name <$> fields) ∧ ∀ field, field ∈ fields → fd_name field ∉ seen.
Proof.
  revert seen. induction fields as [|field fields IH]; intros seen; cbn [foldl_res].
  { split; [|done]. intros _. split_and!; [done|constructor|by intros ? ?%elem_of_nil]. }
  rewrite Forall_cons, fmap_cons, NoDup_cons. setoid_rewrite elem_of_cons.
  destruct (assert_field doctype seen field) as [seen'|e] eqn:E; cbn [mbind res_bind].
  - apply assert_field_ok in E as (Hf & Hseen & ->). rewrite IH. setoid_rewrite js_add_elem. split.
    + intros (Hall & Hnd & Hs). split_and!; [done..| |done|].
      * intros (other & Hn & Ho)%list_elem_of_fmap. apply (Hs other Ho). by left.
      * intros other [->|Ho]; [done|]. intros Hin. apply (Hs other Ho). by right.
    + intros ((_ & Hall) & (Hn & Hnd) & Hs). split_and!; [done..|]. intros other Ho [E|Hin]; [|by apply (Hs other); auto].
      apply Hn. rewrite <-E. by apply list_elem_of_fmap_2.
  - split; [done|]. intros ((Hf & _) & _ & Hs). exfalso.
    rewrite (proj2 (assert_field_ok doctype seen field (js_add (fd_name field) seen))) in E; [done|]. split_and!; [done|apply Hs; by left|done].
Qed.

(** ** Defining again *)

(** The normalizers read nothing of a doctype but its name and its fields. *)
Definition with_normalized (definition : DocTypeDefinition) (rules : option (list AutomationRuleDefinition))
    (workflows : option (list NamedWorkflowDefinition)) : DocTypeDefinition :=
  {| dt_name := dt_name definition; dt_fields := dt_fields definition; dt_permissions := dt_permissions definition;
     dt_workflows := workflows; dt_automationRules := rules; dt_commands := dt_commands definition;
     dt_naming := dt_naming definition; dt_allowUnknownFields := dt_allowUnknownFields definition;
     dt_events := dt_events definition |}.

Section normalized.
Context (definition : DocTypeDefinition) (rules : option (list AutomationRuleDefinition)).
Context (workflows : option (list NamedWorkflowDefinition)).
Abbreviation doctype := (with_normalized definition rules workflows).

Lemma normalized_predicate : normalizePredicateExpression doctype = normalizePredicateExpression definition.
Proof. reflexivity. Qed.

Lemma normalized_rules : normalizeAutomationRules doctype = normalizeAutomationRules definition.
Proof. reflexivity. Qed.

Lemma normalized_workflows : normalizeNamedWorkflows doctype = normalizeNamedWorkflows definition.
Proof. reflexivity. Qed.

Lemma normalized_naming : normalizeNamingStrategy doctype = normalizeNamingStrategy definition.
Proof. reflexivity. Qed.

Lemma normalized_field : assert_field doctype = assert_field definition.
Proof. reflexivity. Qed.

Lemma normalized_freeze : freezeFieldDefinition doctype = freezeFieldDefinition definition.
Proof. reflexivity. Qed.
End normalized.

(** What [defineDocType] accepts, and what it makes of it. *)
Record definition_accepted (definition : DocTypeDefinition) : Prop := {
  dfa_name : isMetadataName (dt_name definition) = true;
  dfa_fields : Forall (field_defined definition) (dt_fields definition);
  dfa_distinct : NoDup (fd_name <$> dt_fields definition);
  dfa_naming : ∀ strategy, dt_naming definition = Some strategy → normalizeNamingStrategy definition strategy = Ok strategy;
  dfa_commands : ∀ command, command ∈ default [] (dt_commands definition) →
    dcd_buildPatch command = None ∨ dcd_buildPlan command = None
}.

Lemma assert_commands_ok commands :
  assert_commands commands = Ok tt ↔
  ∀ command, command ∈ commands → dcd_buildPatch command = None ∨ dcd_buildPlan command = None.
Proof.
  unfold assert_commands. rewrite ensure_ok, forallb_In. split; intros Hall command Hc; specialize (Hall command Hc);
    destruct (dcd_buildPatch command), (dcd_buildPlan command); try done; auto; try (by destruct Hall).
Qed.

Lemma naming_same doctype strategy strategy' :
  normalizeNamingStrategy doctype strategy = Ok strategy' → strategy' = strategy.
Proof.
  destruct strategy as [| | |series]; cbn [normalizeNamingStrategy]; try by intros [= <-].
  intros E. step_ok E as series' Hs. step_ok E as u Hu. injection E as <-. by apply normalize_series_ok in Hs as [-> _].
Qed.

Lemma freeze_accepted definition :
  Forall (field_defined definition) (dt_fields definition) →
  map_res (freezeFieldDefinition definition) (dt_fields definition) = Ok (dt_fields definition).
Proof.
  intros Hall. apply map_res_ok. induction Hall as [|field fields Hf _ IH]; constructor; [|done].
  destruct Hf as [_ _ _ _ _ Hm%normalize_dependsOn_ok Hr%normalize_dependsOn_ok Hh%normalize_dependsOn_ok Hp].
  assert (is_ok (freezeFieldDefinition definition field) = true) as Hok.
  { unfold freezeFieldDefinition. destruct (normalize_dependsOn _ (fd_mandatoryDependsOn field)); [|done]. cbn [mbind res_bind].
    destruct (normalize_dependsOn _ (fd_readOnlyDependsOn field)); [|done]. cbn [mbind res_bind].
    destruct (normalize_dependsOn _ (fd_hiddenDependsOn field)); [|done]. cbn [mbind res_bind].
    by rewrite (proj2 (assert_permissions_ok _) Hp). }
  destruct (freezeFieldDefinition definition field) as [field'|] eqn:E; [|done]. by apply freeze_field_same in E as ->.
Qed.

Lemma defineDocType_run definition options doctype :
  defineDocType definition options = Ok doctype ↔
  definition_accepted definition ∧ ∃ rules workflows,
    normalizeAutomationRules definition (dt_automationRules definition) (dno_automationLimits options) = Ok rules ∧
    normalizeNamedWorkflows definition (dt_workflows definition) (dno_workflowLimits options) = Ok workflows ∧
    doctype = with_normalized definition rules workflows.
Proof.
  unfold defineDocType. pose proof (assert_fields_ok definition [] (dt_fields definition)) as Hfields. split.
  - intros E. step_ok E as u1 Hname. apply assertIdentifier_ok in Hname. step_ok E as seen Hseen.
    rewrite Hseen in Hfields. destruct (proj1 Hfields eq_refl) as (Hall & Hnd & _).
    step_ok E as naming Hnaming. step_ok E as rules Hrules. step_ok E as workflows Hworkflows. step_ok E as u2 Hcommands.
    destruct u2. pose proof (proj1 (assert_commands_ok _) Hcommands) as Hbuild. step_ok E as fields Hfreeze.
    apply freeze_fields_same in Hfreeze as ->. injection E as <-.
    assert (naming = dt_naming definition ∧
      ∀ strategy, dt_naming definition = Some strategy → normalizeNamingStrategy definition strategy = Ok strategy) as [-> Hn].
    { destruct (dt_naming definition) as [strategy|]; [|by injection Hnaming as <-]. cbn in Hnaming.
      step_ok Hnaming as strategy' Hs. injection Hnaming as <-. pose proof (naming_same _ _ _ Hs) as ->.
      split; [done|]. by intros ? [= <-]. }
    split; [by split|]. by exists rules, workflows.
  - intros ([Hname Hall Hnd Hn Hcommands] & rules & workflows & Hrules & Hworkflows & ->). unfold assertIdentifier.
    rewrite Hname. cbn [ensure mbind res_bind].
    assert (is_ok (foldl_res (assert_field definition) [] (dt_fields definition)) = true) as Hok
      by (apply Hfields; split_and!; [done..|by intros ? _ ?%elem_of_nil]).
    destruct (foldl_res _ _ _) as [seen|]; [|done]. cbn [mbind res_bind].
    assert (optional_res (normalizeNamingStrategy definition) (dt_naming definition) = Ok (dt_naming definition)) as ->.
    { destruct (dt_naming definition) as [strategy|]; [|done]. cbn. by rewrite Hn. }
    cbn [mbind res_bind]. rewrite Hrules. cbn [mbind res_bind]. rewrite Hworkflows. cbn [mbind res_bind].
    rewrite (proj2 (assert_commands_ok _) Hcommands). cbn [mbind res_bind]. by rewrite freeze_accepted.
Qed.

Lemma accepted_again definition rules workflows :
  definition_accepted definition → definition_accepted (with_normalized definition rules workflows).
Proof.
  intros [Hname Hall Hnd Hn Hcommands]. split; try done. eapply Forall_impl; [exact Hall|]. intros field []. by split.
Qed.

(** ** Normal doctypes *)

Lemma required_named invalid v v' : required_text invalid v = Ok v' → DocumentSteps.named v'.
Proof.
  intros (E & Hne & _)%required_text_ok. unfold DocumentSteps.named. subst v'. by rewrite trimmed_trim by apply trim_trimmed.
Qed.

Lemma stable_named invalid v v' : stable_text invalid v = Ok v' → DocumentSteps.named v'.
Proof. unfold stable_text. intros E. step_ok E as w Hw. step_ok E as u Hu. injection E as <-. by eapply required_named. Qed.

Lemma workflow_named doctype limits w w' :
  normalizeNamedWorkflowDefinition doctype w limits = Ok w' →
  DocumentSteps.named (nwd_name w') ∧ DocumentSteps.named (nwd_stateField w') ∧
  ∀ t, t ∈ nwd_transitions w' → DocumentSteps.named (nwt_action t).
Proof.
  unfold normalizeNamedWorkflowDefinition. intros E. step_ok E as name Hname. step_ok E as label Hlabel.
  step_ok E as stateField Hfield. destruct (field_named doctype stateField); [|done].
  step_ok E as states Hs. step_ok E as u1 H1. step_ok E as i Hi. step_ok E as u2 H2. step_ok E as m Hm.
  step_ok E as u3 H3. step_ok E as ts Hts. step_ok E as u4 H4. step_ok E as u5 H5. injection E as <-.
  split_and!; [by eapply stable_named|by eapply required_named|]. cbn. intros t Ht.
  apply map_res_ok in Hts. apply list_elem_of_lookup in Ht as [k Hk].
  destruct (Forall2_lookup_r _ _ _ _ _ Hts Hk) as (t0 & _ & Ht0). unfold normalizeNamedWorkflowTransition in Ht0.
  step_ok Ht0 as action Ha. repeat (let w1 := fresh in let Hw1 := fresh in step_ok Ht0 as w1 Hw1).
  injection Ht0 as <-. by eapply stable_named.
Qed.

Lemma workflows_named doctype limits workflows workflows' w :
  normalizeNamedWorkflows doctype workflows limits = Ok workflows' → w ∈ default [] workflows' →
  DocumentSteps.named (nwd_name w) ∧ DocumentSteps.named (nwd_stateField w) ∧
  ∀ t, t ∈ nwd_transitions w → DocumentSteps.named (nwt_action t).
Proof.
  destruct workflows as [ws|]; [|by intros [= <-] ?%elem_of_nil]. intros E Hw.
  destruct (normalizeNamedWorkflows_some _ _ _ _ E) as [ws' ->]. apply normalizeNamedWorkflows_ok in E as (_ & Hm & _).
  apply map_res_ok in Hm. apply list_elem_of_lookup in Hw as [k Hk].
  destruct (Forall2_lookup_r _ _ _ _ _ Hm Hk) as (w0 & _ & Hw0). by eapply workflow_named.
Qed.

(** [defineDocType] accepts a doctype exactly when its name and those of its fields are
    metadata names, its fields are distinct and each one well defined (link and table
    targets where the type has one, scalar unique fields, fetched fields that follow a
    link, conditions within their budget, permission rules with roles and actions), its
    naming is in normal form, no command has both a patch and a plan, and its automation
    rules and workflows normalize; and it changes nothing but these two. *)
Theorem defineDocType_exact definition options doctype :
  defineDocType definition options = Ok doctype ↔
  definition_accepted definition ∧ ∃ rules workflows,
    normalizeAutomationRules definition (dt_automationRules definition) (dno_automationLimits options) = Ok rules ∧
    normalizeNamedWorkflows definition (dt_workflows definition) (dno_workflowLimits options) = Ok workflows ∧
    doctype = with_normalized definition rules workflows.
Proof. apply defineDocType_run. Qed.

Lemma rules_again doctype limits rules rules' :
  normalizeAutomationRules doctype rules limits = Ok rules' → normalizeAutomationRules doctype rules' limits = Ok rules'.
Proof.
  destruct rules as [rules|]; [|by intros [= <-]]. intros E. pose proof E as E'. cbn [normalizeAutomationRules] in E'.
  step_ok E' as n Hn. step_ok E' as u Hu. step_ok E' as r Hr. injection E' as <-. by eapply normalizeAutomationRules_settles.
Qed.

Lemma defined_ok definition options doctype : defineDocType definition options = Ok doctype → doctype_ok doctype.
Proof.
  intros ([Hname Hall Hnd Hn Hcommands] & rules & workflows & Hrules & Hworkflows & ->)%defineDocType_run.
  destruct (metadata_name_safe _ Hname) as [Hint Hcolon]. split; cbn; [done|done|done| | |].
  - intros field Hf. rewrite Forall_forall in Hall. apply metadata_name_safe. by destruct (Hall field Hf).
  - destruct (dt_automationRules definition) as [given|]; [right|left; by injection Hrules].
    by exists definition, (dno_automationLimits options), given.
  - intros w Hw. by eapply workflows_named.
Qed.

Lemma define_again definition options doctype :
  defineDocType definition options = Ok doctype → defineDocType doctype options = Ok doctype.
Proof.
  intros (Hacc & rules & workflows & Hrules & Hworkflows & ->)%defineDocType_run. apply defineDocType_run.
  split; [by apply accepted_again|]. exists rules, workflows. rewrite normalized_rules, normalized_workflows. cbn.
  split_and!; [by eapply rules_again| |done].
  by apply (normalizeNamedWorkflows_settles definition (dno_workflowLimits options) (dt_workflows definition)).
Qed.

(** A doctype that is defined is one that the document service can keep: its name is not
    one of the internal doctypes and has no colon, nor have its fields, which are
    distinct; its rules are normalized and its workflows named.  And it is in normal
    form: it can be defined again, by which nothing changes. *)
Theorem defined_doctype_normal definition options doctype :
  defineDocType definition options = Ok doctype → doctype_ok doctype ∧ defineDocType doctype options = Ok doctype.
Proof. intros Hd. split; [by eapply defined_ok|by eapply define_again]. Qed.

(** ** Witness *)

Definition sample_definition_options : DocTypeNormalizationOptions :=
  {| dno_automationLimits := {| anl_maxRules := None; anl_maxActionsPerRule := None |};
     dno_workflowLimits := {| wnl_maxWorkflows := None; wnl_maxTransitionsPerWorkflow := None |} |}.

(** Orders that fetch the city of their customer. *)
Definition sample_order_definition : DocTypeDefinition :=
  plain_doctype (js "Sales Order")
    [ {| fd_name := js "customer"; fd_type := FLink; fd_required := true; fd_mandatoryDependsOn := None; fd_readOnly := false;
         fd_readOnlyDependsOn := None; fd_hidden := false; fd_hiddenDependsOn := None; fd_unique := false; fd_noCopy := false;
         fd_allowOnSubmit := false; fd_fetchFrom := None; fd_fetchIfEmpty := false; fd_options := None;
         fd_linkTo := Some (js "Customer"); fd_tableOf := None; fd_min := None; fd_max := None; fd_defaultValue := None;
         fd_permissions := None |};
      {| fd_name := js "city"; fd_type := FText; fd_required := false; fd_mandatoryDependsOn := None; fd_readOnly := true;
         fd_readOnlyDependsOn := None; fd_hidden := false; fd_hiddenDependsOn := None; fd_unique := false; fd_noCopy := false;
         fd_allowOnSubmit := false; fd_fetchFrom := Some (js "customer.city"); fd_fetchIfEmpty := true; fd_options := None;
         fd_linkTo := None; fd_tableOf := None; fd_min := None; fd_max := None;
         fd_defaultValue := Some (DefaultLiteral (VStr (js "Oslo"))); fd_permissions := None |} ].

Lemma defined_doctype_normal_witness :
  doctype_ok sample_order_definition ∧
  defineDocType sample_order_definition sample_definition_options = Ok sample_order_definition.
Proof. apply (defined_doctype_normal sample_order_definition sample_definition_options). by vm_compute. Defined.
