(* ===== verification/Registration.v ===== *)
(** * Registration: the doctypes of an application

    The part of [core/registry.ts] that registers doctypes: each is defined, no name is
    registered twice, and once all are there their links, tables and automation rules
    lead to registered doctypes, whose fields the rules may write.  A registration that
    fails leaves the registry as it was. *)

From S2P Require Export Doctypes Types UniqueHistory.

Section registration.
Context (host : predicate_host) (options : DocTypeNormalizationOptions).

(** [this.doctypes], a [Map]. *)
Abbreviation Doctypes := (list (jstr * DocTypeDefinition)).

(** [putDocType(doctype)]. *)
Definition putDocType (doctypes : Doctypes) (doctype : DocTypeDefinition) : res Doctypes :=
  definition ← defineDocType doctype options;
  _ ← ensure (negb (jm_has (dt_name definition) doctypes)) (FrameworkError DOCTYPE_DUPLICATE 409);
  Ok (jm_set (dt_name definition) definition doctypes).

(** [for (const x of l) { check(x) }]. *)
Definition each_res {A} (check : A → res unit) (l : list A) : res unit := foldl_res (λ _ x, check x) tt l.

(** [!target || !this.doctypes.has(target)]. *)
Definition unregistered (doctypes : Doctypes) (target : option jstr) : bool :=
  falsy_text target || negb (jm_has (default [] target) doctypes).

(** The checks on a field in [assertDocTypeReferencesResolve]. *)
Definition assert_field_references (doctypes : Doctypes) (field : FieldDefinition) : res unit :=
  _ ← ensure (negb (bool_decide (fd_type field = FLink) && unregistered doctypes (fd_linkTo field)))
        (FrameworkError DOCTYPE_LINK_INVALID 400);
  ensure (negb (bool_decide (fd_type field = FTable) && unregistered doctypes (fd_tableOf field)))
    (FrameworkError DOCTYPE_TABLE_INVALID 400).

(** The issues of a literal that are about the field or its rows. *)
Definition literal_issue (fieldName : jstr) (candidate : ValidationIssue) : bool :=
  match vi_field candidate with
  | Some field => bool_decide (field = fieldName) || starts_with field (fieldName ++ js "[")
  | None => false
  end.

(** [assertAutomationLiteralMatchesField(source, ruleId, actionId, target, fieldName, expression)]. *)
Definition assertAutomationLiteralMatchesField (doctypes : Doctypes) (target : DocTypeDefinition) (fieldName : jstr)
    (expression : AutomationValueExpression) : res unit :=
  match expression with
  | XLiteral v =>
      let issues := validateDocumentData host target [(fieldName, v)]
        {| vo_partial := true; vo_existing := None; vo_relatedDocType := λ name, jm_get name doctypes |} in
      ensure (negb (existsb (literal_issue fieldName) issues)) invalid_rule
  | _ => Ok tt
  end.

(** The checks on one entry of the patch of an action. *)
Definition assert_patch_entry (doctypes : Doctypes) (target : DocTypeDefinition)
    (entry : jstr * AutomationValueExpression) : res unit :=
  let '(fieldName, expression) := entry in
  match find_field target fieldName with
  | None => Throw invalid_rule
  | Some field =>
      _ ← ensure (negb (fd_readOnly field)) invalid_rule;
      _ ← ensure (negb (bool_decide (fieldName ∈ workflowStateFieldNames target))) invalid_rule;
      assertAutomationLiteralMatchesField doctypes target fieldName expression
  end.

(** The checks on one action. *)
Definition assert_action (doctypes : Doctypes) (action : AutomationActionDefinition) : res unit :=
  match jm_get (aa_doctype action) doctypes with
  | None => Throw invalid_rule
  | Some target => each_res (assert_patch_entry doctypes target) (aa_patch action)
  end.

(** [assertAutomationRuleReferencesResolve(source)]. *)
Definition assertAutomationRuleReferencesResolve (doctypes : Doctypes) (source : DocTypeDefinition) : res unit :=
  each_res (λ rule, each_res (assert_action doctypes) (aru_actions rule)) (default [] (dt_automationRules source)).

(** [assertDocTypeReferencesResolve()]. *)
Definition assertDocTypeReferencesResolve (doctypes : Doctypes) : res unit :=
  each_res (λ entry : jstr * DocTypeDefinition,
    _ ← each_res (assert_field_references doctypes) (dt_fields entry.2);
    assertAutomationRuleReferencesResolve doctypes entry.2) doctypes.

(** The doctypes of [new ModelRegistry(options)]. *)
Definition new_registry (given : list DocTypeDefinition) : res Doctypes :=
  doctypes ← foldl_res putDocType [] given;
  _ ← assertDocTypeReferencesResolve doctypes;
  Ok doctypes.

(** [registerDocType(doctype)]. *)
Definition registerDocType (doctype : DocTypeDefinition) : M Doctypes unit := λ doctypes,
  match putDocType doctypes doctype with
  | Throw e => (Throw e, doctypes)
  | Ok put =>
      match assertDocTypeReferencesResolve put with
      | Ok _ => (Ok tt, put)
      | Throw e => (Throw e, jm_delete (dt_name doctype) put)
      end
  end.

(** ** A sound registry *)

(** A reference of a field leads to a registered doctype. *)
Definition leads (doctypes : Doctypes) (type : FieldType) (field : FieldDefinition) (target : option jstr) : Prop :=
  fd_type field = type → ∃ name doctype, target = Some name ∧ name ≠ [] ∧ jm_get name doctypes = Some doctype.

(** What a rule may write. *)
Definition entry_allowed (doctypes : Doctypes) (target : DocTypeDefinition) (entry : jstr * AutomationValueExpression) : Prop :=
  ∃ field, find_field target entry.1 = Some field ∧ fd_readOnly field = false ∧
    (entry.1 ∉ workflowStateFieldNames target) ∧
    ∀ v, entry.2 = XLiteral v → ∀ candidate, candidate ∈ validateDocumentData host target [(entry.1, v)]
      {| vo_partial := true; vo_existing := None; vo_relatedDocType := λ name, jm_get name doctypes |} →
      literal_issue entry.1 candidate = false.

Record references_resolve (doctypes : Doctypes) (doctype : DocTypeDefinition) : Prop := {
  rsl_links : ∀ field, field ∈ dt_fields doctype → leads doctypes FLink field (fd_linkTo field);
  rsl_tables : ∀ field, field ∈ dt_fields doctype → leads doctypes FTable field (fd_tableOf field);
  rsl_actions : ∀ rule action, rule ∈ default [] (dt_automationRules doctype) → action ∈ aru_actions rule →
    ∃ target, jm_get (aa_doctype action) doctypes = Some target ∧
      ∀ entry, entry ∈ aa_patch action → entry_allowed doctypes target entry
}.

(** Every doctype is registered under its name and in normal form. *)
Definition registry_defined (doctypes : Doctypes) : Prop :=
  jm_wf doctypes ∧ ∀ name doctype, jm_get name doctypes = Some doctype →
    dt_name doctype = name ∧ doctype_ok doctype ∧ defineDocType doctype options = Ok doctype.

Definition registry_sound (doctypes : Doctypes) : Prop :=
  registry_defined doctypes ∧ ∀ name doctype, jm_get name doctypes = Some doctype → references_resolve doctypes doctype.

Lemma each_res_ok {A} (check : A → res unit) l : each_res check l = Ok tt ↔ ∀ x, x ∈ l → check x = Ok tt.
Proof using Type.
  unfold each_res. induction l as [|x l IH]; cbn [foldl_res].
  - split; [by intros _ x ?%elem_of_nil|done].
  - setoid_rewrite elem_of_cons. destruct (check x) as [[]|e] eqn:E; cbn [mbind res_bind].
    + rewrite IH. split; [by intros Hl y [->|?]; [|apply Hl]|by intros Hl y ?; apply Hl; right].
    + split; [done|]. intros Hl. specialize (Hl x (or_introl eq_refl)). congruence.
Qed.

Lemma reference_ok doctypes type (field : FieldDefinition) target e :
  ensure (negb (bool_decide (fd_type field = type) && unregistered doctypes target)) e = Ok tt ↔
  leads doctypes type field target.
Proof using Type.
  unfold leads, unregistered. rewrite ensure_ok. case_bool_decide as Ht; cbn [andb negb]; [|by split; [intros _ ?|]].
  rewrite negb_true_iff, orb_false_iff, negb_false_iff. unfold jm_has. split.
  - intros [Hf Hh] _. destruct target as [name|]; [|done]. cbn in Hf, Hh. apply bool_decide_eq_false in Hf.
    destruct (jm_get name doctypes) as [doctype|] eqn:E; [|done]. by exists name, doctype.
  - intros Hl. destruct (Hl Ht) as (name & doctype & -> & Hn & Hg). cbn. rewrite Hg. by rewrite bool_decide_eq_false_2.
Qed.

Lemma field_references_ok doctypes field :
  assert_field_references doctypes field = Ok tt ↔
  leads doctypes FLink field (fd_linkTo field) ∧ leads doctypes FTable field (fd_tableOf field).
Proof using Type.
  unfold assert_field_references. rewrite <-!reference_ok. split.
  - intros E. step_ok E as u Hu. by destruct u.
  - intros [H1 H2]. erewrite H1. cbn [mbind res_bind]. exact H2.
Qed.

Lemma literal_ok doctypes target fieldName expression :
  assertAutomationLiteralMatchesField doctypes target fieldName expression = Ok tt ↔
  ∀ v, expression = XLiteral v → ∀ candidate, candidate ∈ validateDocumentData host target [(fieldName, v)]
    {| vo_partial := true; vo_existing := None; vo_relatedDocType := λ name, jm_get name doctypes |} →
    literal_issue fieldName candidate = false.
Proof using Type.
  destruct expression as [v| | |]; cbn [assertAutomationLiteralMatchesField]; try by split.
  rewrite ensure_ok, negb_true_iff. split.
  - intros Hn ? [= <-] candidate Hc. apply not_true_is_false. intros Hl.
    apply not_true_iff_false in Hn. apply Hn, existsb_In. by exists candidate.
  - intros Hl. apply not_true_is_false. intros (candidate & Hc & Hi)%existsb_In. pose proof (Hl v eq_refl candidate Hc). congruence.
Qed.

Lemma entry_ok doctypes target entry :
  assert_patch_entry doctypes target entry = Ok tt ↔ entry_allowed doctypes target entry.
Proof using Type.
  destruct entry as [fieldName expression]. unfold assert_patch_entry, entry_allowed. cbn [fst snd].
  destruct (find_field target fieldName) as [field|]; [|by split; [|intros (? & ? & _)]]. split.
  - intros E. ensure_step E as Hr. ensure_step E as Hw. apply negb_true_iff in Hr.
    apply negb_true_iff, bool_decide_eq_false in Hw.
    pose proof (proj1 (literal_ok _ _ _ _) E) as Hl. by exists field.
  - intros (? & [= <-] & Hr & Hw & Hl). rewrite Hr. rewrite bool_decide_eq_false_2 by done.
    by apply literal_ok.
Qed.

Lemma action_ok doctypes action :
  assert_action doctypes action = Ok tt ↔ ∃ target, jm_get (aa_doctype action) doctypes = Some target ∧
    ∀ entry, entry ∈ aa_patch action → entry_allowed doctypes target entry.
Proof using Type.
  unfold assert_action. destruct (jm_get (aa_doctype action) doctypes) as [target|]; [|by split; [|intros (? & ? & _)]].
  rewrite each_res_ok. setoid_rewrite entry_ok. split; [by exists target|by intros (? & [= <-] & ?)].
Qed.

Lemma references_ok doctypes doctype :
  (_ ← each_res (assert_field_references doctypes) (dt_fields doctype);
   assertAutomationRuleReferencesResolve doctypes doctype) = Ok tt ↔ references_resolve doctypes doctype.
Proof using Type.
  unfold assertAutomationRuleReferencesResolve. split.
  - intros E. step_ok E as u Hf. destruct u. rewrite each_res_ok in Hf. rewrite each_res_ok in E.
    setoid_rewrite field_references_ok in Hf.
    split; [by intros field [? _]%Hf|by intros field [_ ?]%Hf|]. intros rule action Hr Ha. apply action_ok.
    specialize (E rule Hr). rewrite each_res_ok in E. by apply E.
  - intros [Hl Ht Ha]. assert (each_res (assert_field_references doctypes) (dt_fields doctype) = Ok tt) as ->.
    { apply each_res_ok. intros field Hf. apply field_references_ok. split; [by apply Hl|by apply Ht]. }
    cbn [mbind res_bind]. apply each_res_ok. intros rule Hr. apply each_res_ok. intros action Hin. apply action_ok.
    by apply (Ha rule).
Qed.

Lemma resolve_ok doctypes :
  jm_wf doctypes →
  assertDocTypeReferencesResolve doctypes = Ok tt ↔
  ∀ name doctype, jm_get name doctypes = Some doctype → references_resolve doctypes doctype.
Proof using Type.
  intros Hwf. unfold assertDocTypeReferencesResolve. rewrite each_res_ok. split.
  - intros Hall name doctype Hg%jm_get_elem_1. apply references_ok. exact (Hall (name, doctype) Hg).
  - intros Hall [name doctype] Hin. apply references_ok. apply (Hall name). by apply jm_get_elem.
Qed.

(** ** The registrations of an application *)

Lemma put_cases doctypes doctype put :
  putDocType doctypes doctype = Ok put → ∃ definition, defineDocType doctype options = Ok definition ∧
    dt_name definition = dt_name doctype ∧ jm_get (dt_name doctype) doctypes = None ∧
    put = jm_set (dt_name doctype) definition doctypes.
Proof using Type.
  unfold putDocType. intros E. step_ok E as definition Hd. ensure_step E as Hn. injection E as <-. exists definition.
  assert (dt_name definition = dt_name doctype) as Hname by (by apply defineDocType_run in Hd as (_ & ? & ? & _ & _ & ->)).
  rewrite Hname in Hn |- *. apply negb_true_iff in Hn. unfold jm_has in Hn.
  by destruct (jm_get (dt_name doctype) doctypes).
Qed.

Lemma put_defined doctypes doctype put :
  registry_defined doctypes → putDocType doctypes doctype = Ok put → registry_defined put.
Proof using Type.
  intros [Hwf Hd] (definition & Hdef & Hname & Hnone & ->)%put_cases. split; [by apply jm_wf_set|].
  intros name other. rewrite jm_get_set. case_decide as E; [|apply Hd]. subst name. intros [= <-]. split; [done|].
  split; [by eapply defined_ok|by eapply define_again].
Qed.

Lemma set_deleted (k : jstr) (v : DocTypeDefinition) doctypes :
  jm_get k doctypes = None → jm_delete k (jm_set k v doctypes) = doctypes.
Proof using Type.
  induction doctypes as [|[k' v'] doctypes IH]; cbn; [by rewrite decide_True|]. intros Hn.
  destruct (decide (k = k')) as [|Hne]; [done|]. cbn. rewrite decide_False by done. by rewrite IH.
Qed.

(** A registry of an application: made of doctypes, and then extended by registrations,
    of which some fail. *)
Inductive registered : Doctypes → Prop :=
| registered_new given doctypes : new_registry given = Ok doctypes → registered doctypes
| registered_more doctypes doctype r doctypes' :
    registered doctypes → registerDocType doctype doctypes = (r, doctypes') → registered doctypes'.

Lemma register_cases doctypes doctype r doctypes' :
  registry_defined doctypes → registerDocType doctype doctypes = (r, doctypes') →
  match r with
  | Ok _ => registry_sound doctypes' ∧ ∃ definition, defineDocType doctype options = Ok definition ∧
      jm_get (dt_name doctype) doctypes = None ∧ doctypes' = doctypes ++ [(dt_name doctype, definition)]
  | Throw _ => doctypes' = doctypes
  end.
Proof using Type.
  unfold registerDocType. intros Hd. destruct (putDocType doctypes doctype) as [put|e] eqn:Hp; [|by intros [= <- <-]].
  pose proof (put_cases _ _ _ Hp) as (definition & Hdef & Hname & Hnone & Hput). pose proof (put_defined _ _ _ Hd Hp) as Hd'.
  destruct (assertDocTypeReferencesResolve put) as [[]|e] eqn:Hr; intros [= <- <-].
  - split; [split; [done|by apply resolve_ok; [apply Hd'|]]|]. exists definition. split_and!; [done..|].
    rewrite Hput. apply jm_set_new. by apply jm_get_None.
  - rewrite Hput. by apply set_deleted.
Qed.

Lemma registered_registry_sound doctypes : registered doctypes → registry_sound doctypes.
Proof using Type.
  induction 1 as [given doctypes Hn|doctypes doctype r doctypes' _ IH Hr].
  - unfold new_registry in Hn. step_ok Hn as put Hput. step_ok Hn as u Hu. injection Hn as ->. destruct u.
    assert (registry_defined doctypes) as Hd.
    { refine (foldl_res_inv registry_defined putDocType [] given doctypes _ _ Hput).
      - split; [apply jm_wf_nil|]. done.
      - intros acc x acc' _ Ha Hx. by eapply put_defined. }
    split; [done|]. by apply resolve_ok; [apply Hd|].
  - pose proof (register_cases _ _ _ _ (proj1 IH) Hr) as Hc. destruct r; [apply Hc|]. by subst doctypes'.
Qed.

(** C32: Whatever is registered, in one go or later, the registry of an application is sound:
    every doctype is in normal form under its own name, its links and tables lead to
    registered doctypes, and its automation rules act on registered doctypes, whose
    fields they name exist, are writable, belong to no workflow and accept the literals
    of the rule.  A registration adds one doctype at the end, or fails and leaves the
    registry exactly as it was. *)
Theorem registration_sound doctypes doctype r doctypes' :
  registered doctypes → registerDocType doctype doctypes = (r, doctypes') →
  registry_sound doctypes' ∧
  match r with
  | Ok _ => ∃ definition, defineDocType doctype options = Ok definition ∧
      jm_get (dt_name doctype) doctypes = None ∧ doctypes' = doctypes ++ [(dt_name doctype, definition)]
  | Throw _ => doctypes' = doctypes
  end.
Proof using Type.
  intros Hs%registered_registry_sound Hr. pose proof (register_cases _ _ _ _ (proj1 Hs) Hr) as Hc.
  destruct r; [exact Hc|]. by subst doctypes'.
Qed.
End registration.

(** ** An application *)

(** The names of the registered doctypes, and their unique fields. *)
Definition is_registered (doctypes : list (jstr * DocTypeDefinition)) (d : jstr) : Prop := is_Some (jm_get d doctypes).
Definition unique_fields_of (doctypes : list (jstr * DocTypeDefinition)) (_ d : jstr) : list jstr :=
  match jm_get d doctypes with Some doctype => unique_names doctype | None => [] end.

Section application.
Context (host : predicate_host) `{NamingHost} `{Collation} (upper : N → jstr) (ids clock : nat → jstr).
Context (planner : AutomationRunPlanner) (event_object : NewDomainEvent → value).
Context (options : DocumentServiceOptions) (env : nat → DocumentStore → DocumentStore).
Context (normalization : DocTypeNormalizationOptions).
Abbreviation doctypes := (reg_doctypes (dso_registry options)).

Lemma registered_ours d : registry_sound host normalization doctypes → is_registered doctypes d → d ∉ INTERNAL_DOCTYPES.
Proof using Type. intros [[_ Hd] _] [doctype Hg]. destruct (Hd _ _ Hg) as (<- & Hok & _). apply Hok. Qed.

Lemma registered_colon t d f : registry_sound host normalization doctypes →
  is_registered doctypes d → f ∈ unique_fields_of doctypes t d → (58%N ∉ d) ∧ (58%N ∉ f).
Proof using Type.
  intros [[_ Hd] _] [doctype Hg]. unfold unique_fields_of, unique_names. rewrite Hg. destruct (Hd _ _ Hg) as (<- & Hok & _).
  intros (field & -> & [_ Hf]%list_elem_of_filter)%list_elem_of_fmap. split; [apply Hok|by apply (dok_field_colon _ Hok)].
Qed.

End application.

(** ** Witnesses *)

Definition sample_customer_definition : DocTypeDefinition :=
  plain_doctype (js "Customer") [plain_field (js "city") FText false false false None].

(** Orders link to customers, so a customer must be there first. *)
Definition sample_registry : list (jstr * DocTypeDefinition) :=
  [(js "Customer", sample_customer_definition)].

Lemma sample_registered : registered sample_access_host sample_definition_options sample_registry.
Proof. apply (registered_new _ _ [sample_customer_definition]). by vm_compute. Qed.

Lemma registration_sound_witness :
  (∃ r doctypes', registerDocType sample_access_host sample_definition_options sample_order_definition sample_registry = (r, doctypes') ∧
    registry_sound sample_access_host sample_definition_options doctypes' ∧ length doctypes' = 2) ∧
  (registerDocType sample_access_host sample_definition_options sample_order_definition []).1 =
    Throw (FrameworkError DOCTYPE_LINK_INVALID 400).
Proof.
  split; [|by vm_compute].
  destruct (registerDocType sample_access_host sample_definition_options sample_order_definition sample_registry)
    as [r doctypes'] eqn:E.
  exists r, doctypes'. split; [done|].
  destruct (registration_sound _ _ _ _ _ _ sample_registered E) as [Hs _]. split; [exact Hs|].
  by vm_compute in E; injection E as <- <-.
Defined.

Lemma sample_service_registered :
  registered sample_access_host sample_definition_options (reg_doctypes (dso_registry sample_service)).
Proof. apply (registered_new _ _ [sample_service_doctype]). by vm_compute. Qed.

