(* ===== verification/CustomFields.v ===== *)
(** * CustomFields: the fields that a tenant adds to doctypes

    Models [core/custom-fields.ts], [application/custom-field-events.ts],
    [application/custom-field-policy.ts] and [application/custom-field-service.ts] on the
    in-memory document store, which is also its event store: the fold of the fields that
    administrators save and disable, the doctype that they extend, and the service, at
    whose [await]s other clients may act ([Interference]).  The properties of a field
    that only forms, lists and prints read are not part of [FieldDefinition].  The first part is the search for
    tables that recurse. *)

From S2P Require Export Types Doctypes NamingService Interference.
From stdpp Require Import relations.

(** ** The tables of doctypes do not recurse

    Models the check of [application/custom-field-policy.ts] that the table fields of
    doctypes, their own and the custom ones, form no cycle
    ([assertCustomTableGraphAcyclicFrom]): a depth-first search that keeps the path to
    the doctype it is at and the doctypes it has seen.  [table_search_exact] shows that
    it finds a cycle exactly when one can be reached. *)

(** [CustomFieldTableGraphEdge]. *)
Record CustomFieldTableGraphEdge := {
  tge_source : jstr;
  tge_target : jstr;
  tge_fieldName : jstr;
  tge_custom : bool
}.

Definition custom_field_invalid : error := FrameworkError CUSTOM_FIELD_INVALID 400.

(** [graph.get(doctype) ?? []]. *)
Definition edges_from (graph : list CustomFieldTableGraphEdge) (doctype : jstr) : list CustomFieldTableGraphEdge :=
  filter (λ edge, tge_source edge = doctype) graph.

(** The loop of [visit] over the edges of a doctype; [visit] visits a target with the
    path to it, and returns the doctypes seen. *)
Fixpoint visit_edges (visit : jstr → list jstr → list jstr → option (res (list jstr)))
    (path : list jstr) (edges : list CustomFieldTableGraphEdge) (visited : list jstr) : option (res (list jstr)) :=
  match edges with
  | [] => Some (Ok visited)
  | edge :: edges =>
      if bool_decide (tge_target edge ∈ path) then Some (Throw custom_field_invalid)
      else if bool_decide (tge_target edge ∈ visited) then visit_edges visit path edges visited
      else match visit (tge_target edge) (path ++ [tge_target edge]) visited with
           | Some (Ok visited) => visit_edges visit path edges visited
           | r => r
           end
  end.

(** [visit(doctype, path)] with the doctypes visited before. *)
Fixpoint visit (graph : list CustomFieldTableGraphEdge) (fuel : nat) (doctype : jstr) (path visited : list jstr)
    : option (res (list jstr)) :=
  match fuel with
  | 0 => None
  | S fuel => visit_edges (visit graph fuel) path (edges_from graph doctype) (visited ++ [doctype])
  end.

(** The search from a root: each level of it is at another target of the graph. *)
Definition assertTableGraphAcyclicFrom (root : jstr) (graph : list CustomFieldTableGraphEdge) : option (res unit) :=
  match visit graph (S (S (length graph))) root [root] [] with
  | Some r => Some (_ ← r; Ok tt)
  | None => None
  end.

(** ** The search is exact *)

Section search.
Context (graph : list CustomFieldTableGraphEdge).

(** One doctype has a table of another. *)
Definition has_table (source target : jstr) : Prop :=
  ∃ edge, edge ∈ graph ∧ tge_source edge = source ∧ tge_target edge = target.

Lemma has_table_edges source target :
  has_table source target ↔ ∃ edge, edge ∈ edges_from graph source ∧ tge_target edge = target.
Proof.
  unfold has_table, edges_from. setoid_rewrite list_elem_of_filter. naive_solver.
Qed.

(** A cycle that can be reached from a doctype. *)
Definition reaches_cycle (doctype : jstr) : Prop := ∃ d, rtc has_table doctype d ∧ tc has_table d d.

(** The paths from a doctype all end. *)
Abbreviation ends := (sn has_table).

Lemma ends_next d : (∀ d', has_table d d' → ends d') → ends d.
Proof. intros H. constructor. exact H. Qed.

Lemma ends_no_cycle d : ends d → ¬ reaches_cycle d.
Proof.
  induction 1 as [d _ IH]. intros (e & Hr & Hc). inversion Hr as [|? d' ? Hd' Hr']; subst.
  - apply tc_rtc in Hc as Hr'. inversion Hc as [? ? Hd|? d' ? Hd Hc']; subst.
    + apply (IH e Hd). by exists e.
    + apply (IH d' Hd). exists e. split; [by apply tc_rtc|done].
  - apply (IH d' Hd'). by exists e.
Qed.

(** A path of the search from a root to the doctype that it is at. *)
Record search_path (root d : jstr) (before : list jstr) : Prop := {
  path_distinct : NoDup (before ++ [d]);
  path_known : ∀ p, p ∈ before ++ [d] → p ∈ root :: (tge_target <$> graph);
  path_from : ∀ p, p ∈ before ++ [d] → rtc has_table root p;
  path_to : ∀ p, p ∈ before ++ [d] → rtc has_table p d
}.

Lemma search_path_root root : search_path root root [].
Proof.
  split; cbn.
  - apply NoDup_singleton.
  - intros p ->%list_elem_of_singleton. by left.
  - intros p ->%list_elem_of_singleton. reflexivity.
  - intros p ->%list_elem_of_singleton. reflexivity.
Qed.

Lemma search_path_length root d before : search_path root d before → length (before ++ [d]) <= S (length graph).
Proof.
  intros [Hnd Hin _ _]. rewrite <-(length_fmap tge_target graph). change (S (length ?l)) with (length (root :: l)).
  by apply submseteq_length, NoDup_submseteq.
Qed.

Lemma search_path_next root d before target :
  search_path root d before → has_table d target → target ∉ before ++ [d] → search_path root target (before ++ [d]).
Proof.
  intros [Hnd Hin Hfrom Hto] Ht Hnew. split.
  - apply NoDup_app. split_and!; [done| |apply NoDup_singleton]. by intros p Hp ->%list_elem_of_singleton.
  - intros p [Hp| ->%list_elem_of_singleton]%elem_of_app; [by apply Hin|]. right.
    destruct Ht as (edge & He & _ & <-). by apply list_elem_of_fmap_2.
  - intros p [Hp| ->%list_elem_of_singleton]%elem_of_app; [by apply Hfrom|].
    eapply rtc_r; [|exact Ht]. apply Hfrom, elem_of_app. right. by left.
  - intros p [Hp| ->%list_elem_of_singleton]%elem_of_app; [|reflexivity]. eapply rtc_r; [by apply Hto|done].
Qed.

(** What is known of the doctypes seen: they are on the path, or all their paths end. *)
Definition seen_ends (path visited : list jstr) : Prop := ∀ v, v ∈ visited → v ∈ path ∨ ends v.

(** What a visit promises. *)
Definition visit_result (root d : jstr) (before : list jstr) (r : option (res (list jstr))) : Prop :=
  match r with
  | None => False
  | Some (Ok visited) => ends d ∧ seen_ends before visited
  | Some (Throw e) => e = custom_field_invalid ∧ reaches_cycle root
  end.

Lemma visit_edges_result root d before visit_ edges visited :
  search_path root d before → (∀ edge, edge ∈ edges → has_table d (tge_target edge)) →
  (∀ target visited, search_path root target (before ++ [d]) → seen_ends (before ++ [d]) visited →
     visit_result root target (before ++ [d]) (visit_ target ((before ++ [d]) ++ [target]) visited)) →
  seen_ends (before ++ [d]) visited →
  match visit_edges visit_ (before ++ [d]) edges visited with
  | None => False
  | Some (Ok visited') => (∀ edge, edge ∈ edges → ends (tge_target edge)) ∧ seen_ends (before ++ [d]) visited'
  | Some (Throw e) => e = custom_field_invalid ∧ reaches_cycle root
  end.
Proof.
  intros Hpath Hedges Hvisit. revert visited. induction edges as [|edge edges IH]; intros visited Hseen; cbn [visit_edges].
  { split; [by intros ? ?%elem_of_nil|done]. }
  assert (has_table d (tge_target edge)) as Hd by (apply Hedges; by left).
  assert (∀ visited, ends (tge_target edge) → seen_ends (before ++ [d]) visited →
    match visit_edges visit_ (before ++ [d]) edges visited with
    | None => False
    | Some (Ok visited') => (∀ e, e ∈ edge :: edges → ends (tge_target e)) ∧ seen_ends (before ++ [d]) visited'
    | Some (Throw e) => e = custom_field_invalid ∧ reaches_cycle root
    end) as Hrest.
  { intros visited' He Hs. specialize (IH (λ e He, Hedges e (proj2 (elem_of_cons _ _ _) (or_intror He))) visited' Hs).
    destruct (visit_edges _ _ edges visited') as [[v|e]|]; [|done..]. destruct IH as [IH ?]. split; [|done].
    intros x [-> |Hx]%elem_of_cons; [done|by apply IH]. }
  case_bool_decide as Hin.
  { split; [done|]. exists (tge_target edge). split; [by apply (path_from _ _ _ Hpath)|].
    eapply tc_rtc_l; [by apply (path_to _ _ _ Hpath)|by apply tc_once]. }
  case_bool_decide as Hold; [apply Hrest; [|done]; by destruct (Hseen _ Hold)|].
  pose proof (Hvisit (tge_target edge) visited (search_path_next _ _ _ _ Hpath Hd Hin) Hseen) as Hv.
  destruct (visit_ _ _ visited) as [[visited'|e]|]; [|done..]. destruct Hv as [He Hs]. by apply Hrest.
Qed.

Lemma visit_fuel {A} (l : list A) (x : A) n fuel : n <= length l + S fuel → n <= length (l ++ [x]) + fuel.
Proof. rewrite length_app. cbn. lia. Qed.

Lemma visit_exact fuel root d before visited :
  S (S (length graph)) <= length (before ++ [d]) + fuel → search_path root d before → seen_ends before visited →
  visit_result root d before (visit graph fuel d (before ++ [d]) visited).
Proof.
  revert d before visited. induction fuel as [|fuel IH]; intros d before visited Hfuel Hpath Hseen.
  { pose proof (search_path_length _ _ _ Hpath). lia. }
  cbn [visit]. pose proof (visit_edges_result root d before (visit graph fuel) (edges_from graph d) (visited ++ [d]) Hpath) as Hloop.
  assert (∀ edge, edge ∈ edges_from graph d → has_table d (tge_target edge)) as Hedges.
  { intros edge He. apply has_table_edges. by exists edge. }
  assert (seen_ends (before ++ [d]) (visited ++ [d])) as Hvisited.
  { intros v [Hv| ->%list_elem_of_singleton]%elem_of_app; [|left; apply elem_of_app; right; by left].
    destruct (Hseen v Hv); [left; apply elem_of_app; by left|by right]. }
  specialize (Hloop Hedges (λ target visited' Hp Hs, IH target (before ++ [d]) visited' (visit_fuel _ _ _ _ Hfuel) Hp Hs) Hvisited).
  destruct (visit_edges _ _ _ _) as [[visited'|e]|]; [|done..]. destruct Hloop as [Hends Hs].
  assert (ends d) as Hd.
  { apply ends_next. intros d' (edge & He & <-)%has_table_edges. by apply Hends. }
  split; [done|]. intros v Hv. destruct (Hs v Hv) as [[?| ->%list_elem_of_singleton]%elem_of_app|?]; auto.
Qed.

Lemma search_result root :
  match assertTableGraphAcyclicFrom root graph with
  | None => False
  | Some (Ok _) => ends root
  | Some (Throw e) => e = custom_field_invalid ∧ reaches_cycle root
  end.
Proof.
  unfold assertTableGraphAcyclicFrom.
  pose proof (visit_exact (S (S (length graph))) root root [] [] ltac:(cbn; lia) (search_path_root root)
    ltac:(by intros ? ?%elem_of_nil)) as H. cbn [app] in H.
  destruct (visit _ _ _ _ _) as [[visited|e]|]; [|done..]. by destruct H.
Qed.
End search.

(** C24: The search of the table fields always ends, and it refuses a doctype exactly when
    the tables of doctypes lead from it into a cycle. *)
Theorem table_search_exact graph root :
  (assertTableGraphAcyclicFrom root graph = Some (Ok tt) ↔ ¬ reaches_cycle graph root) ∧
  (assertTableGraphAcyclicFrom root graph = Some (Throw custom_field_invalid) ↔ reaches_cycle graph root).
Proof.
  pose proof (search_result graph root) as H. destruct (assertTableGraphAcyclicFrom root graph) as [[[]|e]|]; [| |done].
  - apply ends_no_cycle in H. split; split; [done|done|done|by intros ?%H].
  - destruct H as [-> H]. split; split; [done|by intros Hn; apply Hn in H|done|done].
Qed.

(** ** The fold *)

Definition CUSTOM_FIELD_STATE_PAYLOAD_KINDS : list jstr := [js "CustomFieldSaved"; js "CustomFieldDisabled"].

Record CustomFieldEntry := {
  cfe_tenantId : jstr;
  cfe_doctype : jstr;
  cfe_field : FieldDefinition;
  cfe_enabled : bool;
  cfe_createdAt : jstr;
  cfe_updatedAt : jstr
}.

Record CustomFieldState := {
  cfs_tenantId : jstr;
  cfs_doctype : jstr;
  cfs_version : Z;
  cfs_fields : list CustomFieldEntry
}.

(** [isCustomFieldStatePayloadKind(kind)] and [isCustomFieldStateEvent(event)]. *)
Definition isCustomFieldStatePayloadKind (kind : jstr) : bool := bool_decide (kind ∈ CUSTOM_FIELD_STATE_PAYLOAD_KINDS).
Definition isCustomFieldStateEvent (event : DomainEvent) : bool :=
  isCustomFieldStatePayloadKind (domainEventPayloadKind event).

(** [customFieldSavedPayload], [customFieldDisabledPayload] and [customFieldEventType]. *)
Definition customFieldSavedPayload (doctypeName : jstr) (field : FieldDefinition) : payload := PCustomFieldSaved doctypeName field.
Definition customFieldDisabledPayload (doctypeName fieldName : jstr) : payload := PCustomFieldDisabled doctypeName fieldName.
Definition customFieldEventType (p : payload) : jstr := payload_kind p.

(** The doctype that an event of the family speaks of. *)
Definition custom_field_doctype (p : payload) : option jstr :=
  match p with PCustomFieldSaved d _ | PCustomFieldDisabled d _ => Some d | _ => None end.

Definition entry_name (entry : CustomFieldEntry) : jstr := fd_name (cfe_field entry).

(** An entry that is saved, and one that is disabled. *)
Definition saved_entry (tenantId doctype at_ : jstr) (field : FieldDefinition) (existing : option CustomFieldEntry)
    : CustomFieldEntry :=
  {| cfe_tenantId := tenantId; cfe_doctype := doctype; cfe_field := field; cfe_enabled := true;
     cfe_createdAt := default at_ (cfe_createdAt <$> existing); cfe_updatedAt := at_ |}.
Definition disabled_entry (at_ : jstr) (entry : CustomFieldEntry) : CustomFieldEntry :=
  {| cfe_tenantId := cfe_tenantId entry; cfe_doctype := cfe_doctype entry; cfe_field := cfe_field entry;
     cfe_enabled := false; cfe_createdAt := cfe_createdAt entry; cfe_updatedAt := at_ |}.

(** The change of the fields of a doctype by an event. *)
Definition fold_entries (tenantId doctype : jstr) (fields : list (jstr * CustomFieldEntry)) (event : DomainEvent)
    : list (jstr * CustomFieldEntry) :=
  match e_payload event with
  | PCustomFieldSaved d field =>
      if bool_decide (d = doctype)
      then jm_set (fd_name field)
             (saved_entry tenantId doctype (e_occurredAt event) field (jm_get (fd_name field) fields)) fields
      else fields
  | PCustomFieldDisabled d fieldName =>
      if bool_decide (d = doctype)
      then match jm_get fieldName fields with
           | Some existing => jm_set fieldName (disabled_entry (e_occurredAt event) existing) fields
           | None => fields
           end
      else fields
  | _ => fields
  end.

(** The body of the loop of [foldCustomFieldsFrom]. *)
Definition fold_custom_fields_step (tenantId doctype : jstr) (acc : list (jstr * CustomFieldEntry) * Z) (event : DomainEvent)
    : list (jstr * CustomFieldEntry) * Z :=
  if isCustomFieldStateEvent event
  then (fold_entries tenantId doctype acc.1 event, Z.max acc.2 (e_sequence event)) else acc.

Section collation.
Context `{Collation}.

(** [localeCompare] of the names of entries. *)
Definition field_entry_leb (left right : CustomFieldEntry) : bool := collation_leb (entry_name left) (entry_name right).

(** [foldCustomFieldsFrom(initial, tenantId, doctype, events)]. *)
Definition foldCustomFieldsFrom (initial : option CustomFieldState) (tenantId doctype : jstr) (events : list DomainEvent)
    : CustomFieldState :=
  let start := match initial with
    | Some state => foldl (λ fields entry, jm_set (entry_name entry) entry fields) [] (cfs_fields state)
    | None => []
    end in
  let '(fields, version) := foldl (fold_custom_fields_step tenantId doctype)
    (start, default 0%Z (cfs_version <$> initial)) (sort_events events) in
  {| cfs_tenantId := tenantId; cfs_doctype := doctype; cfs_version := version; cfs_fields := isort field_entry_leb fields.*2 |}.

(** [foldCustomFields(tenantId, doctype, events)]. *)
Definition foldCustomFields (tenantId doctype : jstr) (events : list DomainEvent) : CustomFieldState :=
  foldCustomFieldsFrom None tenantId doctype events.
End collation.

(** ** Extending a doctype *)

(** [defineDocType(definition)]: the limits of rules and workflows are the default ones. *)
Definition default_normalization : DocTypeNormalizationOptions :=
  {| dno_automationLimits := {| anl_maxRules := None; anl_maxActionsPerRule := None |};
     dno_workflowLimits := {| wnl_maxWorkflows := None; wnl_maxTransitionsPerWorkflow := None |} |}.

(** [{ ...base, fields: [...base.fields, ...fields] }]. *)
Definition extended_doctype (base : DocTypeDefinition) (fields : list FieldDefinition) : DocTypeDefinition :=
  with_fields base (dt_fields base ++ fields).

(** The fields in force. *)
Definition enabled_fields (state : CustomFieldState) : list FieldDefinition :=
  cfe_field <$> filter (λ entry, cfe_enabled entry = true) (cfs_fields state).

(** [assertNoBaseFieldCollisions(base, fields)]. *)
Definition assertNoBaseFieldCollisions (base : DocTypeDefinition) (fields : list FieldDefinition) : res unit :=
  ensure (forallb (λ field, negb (bool_decide (fd_name field ∈ fd_name <$> dt_fields base))) fields) custom_field_invalid.

(** [applyCustomFieldsToDocType(base, state)]. *)
Definition applyCustomFieldsToDocType (base : DocTypeDefinition) (state : CustomFieldState) : res DocTypeDefinition :=
  _ ← ensure (bool_decide (cfs_doctype state = dt_name base)) custom_field_invalid;
  let customFields := enabled_fields state in
  _ ← assertNoBaseFieldCollisions base customFields;
  defineDocType (extended_doctype base customFields) default_normalization.

(** [assertCustomFieldName(name)]. *)
Definition assertCustomFieldName (name : jstr) : res unit := ensure (negb (bool_decide (trim name = []))) custom_field_invalid.

(** [assertCustomFieldCanExtend(base, field)]. *)
Definition assertCustomFieldCanExtend (base : DocTypeDefinition) (field : FieldDefinition) : res unit :=
  _ ← assertCustomFieldName (fd_name field);
  _ ← ensure (negb (bool_decide (fd_name field ∈ fd_name <$> dt_fields base))) custom_field_invalid;
  match defineDocType (extended_doctype base [field]) default_normalization with
  | Ok _ => Ok tt
  | Throw _ => Throw custom_field_invalid
  end.

(** ** The policy *)

(** [resolveCustomFieldTenant(command)] and [authorizeCustomFieldAdministration(command)]. *)
Definition resolveCustomFieldTenant (actor : Actor) (tenantId : option jstr) : res jstr :=
  let actorTenantId := default DEFAULT_TENANT_ID (actor_tenantId actor) in
  let tenantId := default actorTenantId tenantId in
  _ ← ensure (bool_decide (tenantId = actorTenantId)) permissionDenied;
  Ok tenantId.
Definition authorizeCustomFieldAdministration (actor : Actor) (adminRoles : list jstr) (tenantId : option jstr) : res jstr :=
  _ ← ensure (existsb (λ role, bool_decide (role ∈ actor_roles actor)) adminRoles) permissionDenied;
  resolveCustomFieldTenant actor tenantId.

(** [normalizeRequiredCustomFieldText(value, label)] and [normalizeCustomFieldOption(value)]. *)
Definition normalizeRequiredCustomFieldText (v : jstr) : res jstr :=
  if bool_decide (trim v = []) then Throw custom_field_invalid else Ok (trim v).

(** [trimmedOptional(value)]. *)
Definition trimmedOptional (v : option jstr) : option jstr :=
  match v with Some v => if bool_decide (trim v = []) then None else Some (trim v) | None => None end.

(** [customFieldOptions(field)]. *)
Definition customFieldOptions (field : FieldDefinition) : res (option (list jstr)) :=
  match fd_options field with
  | None => Ok None
  | Some options =>
      _ ← ensure (bool_decide (fd_type field = FSelect)) custom_field_invalid;
      _ ← ensure (negb (bool_decide (options = []))) custom_field_invalid;
      normalized ← foldl_res (λ normalized option,
        item ← normalizeRequiredCustomFieldText option;
        _ ← ensure (negb (bool_decide (item ∈ normalized))) custom_field_invalid;
        Ok (normalized ++ [item])) [] options;
      Ok (Some normalized)
  end.

(** [customFieldBound(value, field)] and [customFieldBounds(name, field)]. *)
Definition customFieldBound (v : option num) : res unit :=
  match v with Some n => ensure (num_is_finite n) custom_field_invalid | None => Ok tt end.
Definition customFieldBounds (field : FieldDefinition) : res unit :=
  _ ← customFieldBound (fd_min field);
  _ ← customFieldBound (fd_max field);
  match fd_min field, fd_max field with
  | Some min, Some max => ensure (negb (num_ltb max min)) custom_field_invalid
  | _, _ => Ok tt
  end.

(** The default value of a field that is kept: a JSON value. *)
Definition persisted_default (field : FieldDefinition) : res (option FieldDefault) :=
  match fd_defaultValue field with
  | None => Ok None
  | Some (DefaultLiteral v) => if isJsonValue v then Ok (Some (DefaultLiteral v)) else Throw custom_field_invalid
  | Some (DefaultFunction _) => Throw custom_field_invalid
  end.

(** [normalizeCustomField(field)]; permissions are not kept. *)
Definition normalizeCustomField (field : FieldDefinition) : res FieldDefinition :=
  name ← normalizeRequiredCustomFieldText (fd_name field);
  defaultValue ← persisted_default field;
  options ← customFieldOptions field;
  _ ← customFieldBounds field;
  Ok {| fd_name := name; fd_type := fd_type field; fd_required := fd_required field;
        fd_mandatoryDependsOn := fd_mandatoryDependsOn field; fd_readOnly := fd_readOnly field;
        fd_readOnlyDependsOn := fd_readOnlyDependsOn field; fd_hidden := fd_hidden field;
        fd_hiddenDependsOn := fd_hiddenDependsOn field; fd_unique := fd_unique field; fd_noCopy := fd_noCopy field;
        fd_allowOnSubmit := fd_allowOnSubmit field; fd_fetchFrom := trimmedOptional (fd_fetchFrom field);
        fd_fetchIfEmpty := fd_fetchIfEmpty field; fd_options := options; fd_linkTo := trimmedOptional (fd_linkTo field);
        fd_tableOf := trimmedOptional (fd_tableOf field); fd_min := fd_min field; fd_max := fd_max field;
        fd_defaultValue := defaultValue; fd_permissions := None |}.

(** [{ ...field, mandatoryDependsOn?, readOnlyDependsOn?, hiddenDependsOn? }]. *)
Definition with_conditions (field normalized : FieldDefinition) : FieldDefinition :=
  {| fd_name := fd_name field; fd_type := fd_type field; fd_required := fd_required field;
     fd_mandatoryDependsOn := or_else (fd_mandatoryDependsOn normalized) (fd_mandatoryDependsOn field);
     fd_readOnly := fd_readOnly field;
     fd_readOnlyDependsOn := or_else (fd_readOnlyDependsOn normalized) (fd_readOnlyDependsOn field);
     fd_hidden := fd_hidden field;
     fd_hiddenDependsOn := or_else (fd_hiddenDependsOn normalized) (fd_hiddenDependsOn field);
     fd_unique := fd_unique field; fd_noCopy := fd_noCopy field; fd_allowOnSubmit := fd_allowOnSubmit field;
     fd_fetchFrom := fd_fetchFrom field; fd_fetchIfEmpty := fd_fetchIfEmpty field; fd_options := fd_options field;
     fd_linkTo := fd_linkTo field; fd_tableOf := fd_tableOf field; fd_min := fd_min field; fd_max := fd_max field;
     fd_defaultValue := fd_defaultValue field; fd_permissions := fd_permissions field |}.

(** [normalizeCustomFieldExpressions(base, field)]. *)
Definition normalizeCustomFieldExpressions (base : DocTypeDefinition) (field : FieldDefinition) : res FieldDefinition :=
  composed ← defineDocType (extended_doctype base [field]) default_normalization;
  match List.find (λ item, bool_decide (fd_name item = fd_name field)) (dt_fields composed) with
  | None => Throw custom_field_invalid
  | Some normalized => Ok (with_conditions field normalized)
  end.

(** [assertCustomFieldDefaultValueValid(base, field)]. *)
Definition assertCustomFieldDefaultValueValid (host : predicate_host) (base : DocTypeDefinition) (field : FieldDefinition)
    : res unit :=
  match fd_defaultValue field with
  | Some (DefaultLiteral v) =>
      ensure (bool_decide (validateDocumentData host (extended_doctype base [field]) [(fd_name field, v)]
        {| vo_partial := true; vo_existing := None; vo_relatedDocType := λ _, None |} = [])) custom_field_invalid
  | _ => Ok tt
  end.

(** [findCustomFieldEntry(state, fieldName)]. *)
Definition findCustomFieldEntry (state : CustomFieldState) (fieldName : jstr) : option CustomFieldEntry :=
  List.find (λ entry, bool_decide (entry_name entry = fieldName)) (cfs_fields state).

(** [customFieldsEqual(left, right)]: [JSON.stringify] is the host's. *)
Definition customFieldsEqual (stringify : FieldDefinition → jstr) (left right : FieldDefinition) : bool :=
  bool_decide (stringify left = stringify right).

Inductive CustomFieldChangeDecision := FieldAppend | FieldMissing | FieldNoop.

(** [planCustomFieldSave(existing, field)] and [planCustomFieldDisable(existing, fieldName)]. *)
Definition planCustomFieldSave (stringify : FieldDefinition → jstr) (existing : option CustomFieldEntry)
    (field : FieldDefinition) : CustomFieldChangeDecision :=
  match existing with
  | Some entry => if cfe_enabled entry && customFieldsEqual stringify (cfe_field entry) field then FieldNoop else FieldAppend
  | None => FieldAppend
  end.
Definition planCustomFieldDisable (existing : option CustomFieldEntry) : CustomFieldChangeDecision :=
  match existing with
  | None => FieldMissing
  | Some entry => if cfe_enabled entry then FieldAppend else FieldNoop
  end.

(** What [projectPendingCustomFieldState] makes of the state of the doctype. *)
Definition pending_state (tenantId doctype now : jstr) (field : FieldDefinition) (state : CustomFieldState)
    : CustomFieldState :=
  {| cfs_tenantId := cfs_tenantId state; cfs_doctype := cfs_doctype state; cfs_version := cfs_version state;
     cfs_fields := filter (λ entry, entry_name entry ≠ fd_name field) (cfs_fields state) ++
       [saved_entry tenantId doctype now field (findCustomFieldEntry state (fd_name field))] |}.

(** [projectPendingCustomFieldState(tenantId, states, doctype, field, now)]. *)
Definition projectPendingCustomFieldState (tenantId : jstr) (states : list CustomFieldState) (doctype : jstr)
    (field : FieldDefinition) (now : jstr) : list CustomFieldState :=
  (λ state, if bool_decide (cfs_doctype state = doctype) then pending_state tenantId doctype now field state else state) <$> states.

(** [CustomFieldEventSet], [withSavedCustomFieldCatalogEvents] and
    [resequenceCustomFieldEventsForFold]. *)
Record CustomFieldEventSet := {
  ces_catalog : list DomainEvent;
  ces_legacy : list DomainEvent;
  ces_catalogVersion : Z
}.
Definition withSavedCustomFieldCatalogEvents (events : CustomFieldEventSet) (saved : list DomainEvent) : CustomFieldEventSet :=
  {| ces_catalog := ces_catalog events ++ saved; ces_legacy := ces_legacy events;
     ces_catalogVersion := max_sequence (ces_catalogVersion events) saved |}.
Definition resequenceCustomFieldEventsForFold (events : list DomainEvent) : list DomainEvent :=
  imap (λ index (event : DomainEvent), {| e_new := e_new event; e_sequence := Z.of_nat (S index) |}) events.

(** [assertCustomFieldReferencesResolve(field, hasDocType)]. *)
Definition assertCustomFieldReferencesResolve (field : FieldDefinition) (hasDocType : jstr → bool) : res unit :=
  _ ← ensure (match fd_linkTo field with
        | Some target => negb (bool_decide (fd_type field = FLink)) || hasDocType target
        | None => true
        end) badRequest;
  ensure (match fd_tableOf field with
    | Some target => negb (bool_decide (fd_type field = FTable)) || hasDocType target
    | None => true
    end) badRequest.

(** [assertCustomTableFieldDoesNotSelfTarget(doctype, field)]. *)
Definition assertCustomTableFieldDoesNotSelfTarget (doctype : DocTypeDefinition) (field : FieldDefinition) : res unit :=
  ensure (negb (bool_decide (fd_type field = FTable ∧ fd_tableOf field = Some (dt_name doctype)))) custom_field_invalid.

(** The doctype whose rows a field holds. *)
Definition row_doctype (field : FieldDefinition) : option jstr :=
  if bool_decide (fd_type field = FTable)
  then match fd_tableOf field with Some target => if bool_decide (target = []) then None else Some target | None => None end
  else None.

Definition table_edge (source : jstr) (custom : bool) (field : FieldDefinition) : option CustomFieldTableGraphEdge :=
  (λ target, {| tge_source := source; tge_target := target; tge_fieldName := fd_name field; tge_custom := custom |}) <$>
  row_doctype field.

(** [customFieldTableGraph(doctypes, states)]: the edges, in the order they are added. *)
Definition customFieldTableGraph (doctypes : list DocTypeDefinition) (states : list CustomFieldState)
    : list CustomFieldTableGraphEdge :=
  flat_map (λ doctype, omap (table_edge (dt_name doctype) false) (dt_fields doctype)) doctypes ++
  flat_map (λ state, omap (table_edge (cfs_doctype state) true) (enabled_fields state)) states.

(** [assertCustomTableGraphAcyclicFrom(root, doctypes, states, blame)]. *)
Definition assertCustomTableGraphAcyclicFrom (root : jstr) (doctypes : list DocTypeDefinition)
    (states : list CustomFieldState) : res unit :=
  default (Throw (FrameworkError PLAIN_ERROR 500)) (assertTableGraphAcyclicFrom root (customFieldTableGraph doctypes states)).

(** ** The service *)

(** [CustomFieldServiceOptions]; the text of a field is the host's. *)
Record CustomFieldServiceOptions := {
  cfo_registry : Registry;
  cfo_adminRoles : option (list jstr);
  cfo_stringify : FieldDefinition → jstr
}.

Record SaveCustomFieldCommand := {
  scf_actor : Actor;
  scf_doctype : jstr;
  scf_field : FieldDefinition;
  scf_tenantId : option jstr;
  scf_expectedVersion : option Z;
  scf_metadata : option data
}.

Record DisableCustomFieldCommand := {
  dcf_actor : Actor;
  dcf_doctype : jstr;
  dcf_fieldName : jstr;
  dcf_tenantId : option jstr;
  dcf_expectedVersion : option Z;
  dcf_metadata : option data
}.

Section service.
Context (host : predicate_host) `{NamingHost} `{Collation} (options : CustomFieldServiceOptions) (ids clock : nat → jstr).
(** What other clients do at each await. *)
Context (env : nat → DocumentStore → DocumentStore).

Abbreviation Call := (M (Client DocumentStore)).

(** [registry.list()] and [registry.has(name)]. *)
Definition doctype_leb (left right : DocTypeDefinition) : bool := collation_leb (dt_name left) (dt_name right).
Definition registry_list (registry : Registry) : list DocTypeDefinition := isort doctype_leb (reg_doctypes registry).*2.
Definition registry_has (registry : Registry) (name : jstr) : bool := jm_has name (reg_doctypes registry).

Abbreviation doctypes := (registry_list (cfo_registry options)).

(** [authorizeAdministration(actor, tenantId)], with the tenant that is resolved next. *)
Definition authorizeCustomFields (actor : Actor) (tenantId : option jstr) : res jstr :=
  authorizeCustomFieldAdministration actor (default [SYSTEM_MANAGER_ROLE] (cfo_adminRoles options)) tenantId.

Definition custom_field_read_options : ReadStreamOptions :=
  {| rso_minSequence := None; rso_maxSequence := None; rso_limit := None;
     rso_payloadKinds := Some CUSTOM_FIELD_STATE_PAYLOAD_KINDS |}.

(** [this.events.readStream(stream, readOptions)]. *)
Definition read_custom_fields (stream : jstr) : Call (list DomainEvent) :=
  observe env (λ s, readStream (st_streams s) stream custom_field_read_options).

(** [tenantCustomFieldEvents(tenantId)]. *)
Definition tenantCustomFieldEvents (tenantId : jstr) : Call CustomFieldEventSet :=
  stream ← m_lift (customFieldsCatalogStream tenantId);
  catalog ← read_custom_fields stream;
  legacy ← m_map (λ doctype,
    stream ← m_lift (customFieldsStream tenantId (dt_name doctype)); read_custom_fields stream) doctypes;
  mret {| ces_catalog := catalog; ces_legacy := concat legacy; ces_catalogVersion := max_sequence 0 catalog |}.

(** [stateFromEvents(tenantId, doctype, events)]. *)
Definition stateFromEvents (tenantId doctype : jstr) (events : CustomFieldEventSet) : CustomFieldState :=
  let legacyForDoctype := filter (λ event : DomainEvent, custom_field_doctype (e_payload event) = Some doctype) (ces_legacy events) in
  let folded := foldCustomFields tenantId doctype
    (resequenceCustomFieldEventsForFold (legacyForDoctype ++ ces_catalog events)) in
  {| cfs_tenantId := cfs_tenantId folded; cfs_doctype := cfs_doctype folded; cfs_version := ces_catalogVersion events;
     cfs_fields := cfs_fields folded |}.

(** [statesFromEvents(tenantId, events)]. *)
Definition statesFromEvents (tenantId : jstr) (events : CustomFieldEventSet) : list CustomFieldState :=
  (λ doctype, stateFromEvents tenantId (dt_name doctype) events) <$> doctypes.

(** [list(actor, doctypeName, tenantId)], with [stateFor]. *)
Definition listCustomFields (actor : Actor) (doctypeName : jstr) (tenantId : option jstr) : Call CustomFieldState :=
  tenantId ← m_lift (authorizeCustomFields actor tenantId);
  doctype ← m_lift (registry_get (cfo_registry options) doctypeName);
  events ← tenantCustomFieldEvents tenantId;
  mret (stateFromEvents tenantId (dt_name doctype) events).

(** [effectiveDocType(doctypeName, tenantId)]. *)
Definition effectiveCustomDocType (doctypeName tenantId : jstr) : Call DocTypeDefinition :=
  doctype ← m_lift (registry_get (cfo_registry options) doctypeName);
  events ← tenantCustomFieldEvents tenantId;
  let state := stateFromEvents tenantId (dt_name doctype) events in
  let states := statesFromEvents tenantId events in
  _ ← m_lift (foldl_res (λ _ field,
        _ ← assertCustomFieldReferencesResolve field (registry_has (cfo_registry options));
        assertCustomTableFieldDoesNotSelfTarget doctype field) tt (enabled_fields state));
  _ ← m_lift (assertCustomTableGraphAcyclicFrom (dt_name doctype) doctypes states);
  m_lift (applyCustomFieldsToDocType doctype state).

(** [assertNamingConfigurationRemainsValid(tenantId, base, customFieldState)]. *)
Definition assertNamingConfigurationRemainsValid (tenantId : jstr) (base : DocTypeDefinition) (state : CustomFieldState)
    : Call unit :=
  withCustomFields ← m_lift (applyCustomFieldsToDocType base state);
  stream ← m_lift (namingConfigurationStream tenantId (dt_name base));
  events ← read_stream env stream;
  _ ← m_lift (applyNamingConfigurationToDocType withCustomFields
        (foldNamingConfiguration tenantId withCustomFields events));
  mret tt.

(** [event(options)]. *)
Definition customFieldEvent (tenantId stream documentName : jstr) (actor : Actor) (metadata : option data) (p : payload)
    : Call NewDomainEvent :=
  id ← next_id ids;
  occurredAt ← now clock;
  mret {| e_id := id; e_tenantId := tenantId; e_stream := stream; e_type := customFieldEventType p;
          e_doctype := js "__CustomFields"; e_documentName := documentName; e_actorId := actor_id actor;
          e_occurredAt := occurredAt; e_payload := p; e_metadata := default [] metadata |}.

(** The write that [saveField] and [disableField] share, and the state that follows. *)
Definition change_custom_fields (tenantId : jstr) (doctype : DocTypeDefinition) (events : CustomFieldEventSet) (version : Z)
    (metadataRevision : Z) (documentName : jstr) (actor : Actor) (metadata : option data) (p : payload)
    : Call CustomFieldState :=
  stream ← m_lift (customFieldsCatalogStream tenantId);
  event ← customFieldEvent tenantId stream documentName actor metadata p;
  saved ← update env (on_streams (appendMetadataMutation tenantId (dt_name doctype) stream version event metadataRevision));
  mret (stateFromEvents tenantId (dt_name doctype) (withSavedCustomFieldCatalogEvents events [saved])).

(** [saveField(command)]. *)
Definition saveField (command : SaveCustomFieldCommand) : Call CustomFieldState :=
  tenantId ← m_lift (authorizeCustomFields (scf_actor command) (scf_tenantId command));
  doctype ← m_lift (registry_get (cfo_registry options) (scf_doctype command));
  metadataRevision ← observe env (λ s, metadataRevisionVersion tenantId (scf_doctype command) (st_streams s));
  field ← m_lift (normalizeCustomField (scf_field command));
  events ← tenantCustomFieldEvents tenantId;
  let states := statesFromEvents tenantId events in
  let state := stateFromEvents tenantId (dt_name doctype) events in
  _ ← m_lift (assertCustomFieldCanExtend doctype field);
  field ← m_lift (normalizeCustomFieldExpressions doctype field);
  _ ← m_lift (assertCustomFieldDefaultValueValid host doctype field);
  _ ← m_lift (assertCustomFieldReferencesResolve field (registry_has (cfo_registry options)));
  _ ← m_lift (assertCustomTableFieldDoesNotSelfTarget doctype field);
  at_ ← now clock;
  let projectedStates := projectPendingCustomFieldState tenantId states (dt_name doctype) field at_ in
  _ ← m_lift (assertCustomTableGraphAcyclicFrom (dt_name doctype) doctypes projectedStates);
  _ ← m_lift (ensure_expected_version (cfs_version state) (scf_expectedVersion command));
  match planCustomFieldSave (cfo_stringify options) (findCustomFieldEntry state (fd_name field)) field with
  | FieldNoop => mret state
  | _ =>
      at2 ← now clock;
      _ ← assertNamingConfigurationRemainsValid tenantId doctype (pending_state tenantId (dt_name doctype) at2 field state);
      change_custom_fields tenantId doctype events (cfs_version state) metadataRevision (fd_name field) (scf_actor command)
        (scf_metadata command) (customFieldSavedPayload (dt_name doctype) field)
  end.

(** The state that [disableField] checks. *)
Definition without_field (now fieldName : jstr) (state : CustomFieldState) : CustomFieldState :=
  {| cfs_tenantId := cfs_tenantId state; cfs_doctype := cfs_doctype state; cfs_version := cfs_version state;
     cfs_fields := (λ entry, if bool_decide (entry_name entry = fieldName) then disabled_entry now entry else entry) <$>
       cfs_fields state |}.

(** [disableField(command)]. *)
Definition disableField (command : DisableCustomFieldCommand) : Call CustomFieldState :=
  tenantId ← m_lift (authorizeCustomFields (dcf_actor command) (dcf_tenantId command));
  doctype ← m_lift (registry_get (cfo_registry options) (dcf_doctype command));
  metadataRevision ← observe env (λ s, metadataRevisionVersion tenantId (dcf_doctype command) (st_streams s));
  fieldName ← m_lift (normalizeRequiredCustomFieldText (dcf_fieldName command));
  events ← tenantCustomFieldEvents tenantId;
  let state := stateFromEvents tenantId (dt_name doctype) events in
  _ ← m_lift (ensure_expected_version (cfs_version state) (dcf_expectedVersion command));
  match planCustomFieldDisable (findCustomFieldEntry state fieldName) with
  | FieldMissing => m_throw (notFound DOCUMENT_NOT_FOUND)
  | FieldNoop => mret state
  | FieldAppend =>
      at_ ← now clock;
      _ ← assertNamingConfigurationRemainsValid tenantId doctype (without_field at_ fieldName state);
      change_custom_fields tenantId doctype events (cfs_version state) metadataRevision fieldName (dcf_actor command)
        (dcf_metadata command) (customFieldDisabledPayload (dt_name doctype) fieldName)
  end.
End service.
