(* ===== verification/CustomTables.v ===== *)
(** * CustomTables: custom fields never make tables recurse

    The service of custom fields checks a field against the fields that it read, and
    writes it only when nobody has changed the catalog of the tenant since: so, in every
    history of the service, no doctype can be reached from itself through table fields,
    and the doctypes that tenants extend always resolve. *)

From S2P Require Export CustomFields Registration WorkflowOwnership.

(** ** Folds, one event at a time *)

Lemma fold_step_fields tenantId doctype acc events :
  (foldl (fold_custom_fields_step tenantId doctype) acc events).1 = foldl (fold_entries tenantId doctype) acc.1 events.
Proof.
  revert acc. induction events as [|event events IH]; intros acc; [done|]. cbn [foldl]. rewrite IH. f_equal.
  unfold fold_custom_fields_step, isCustomFieldStateEvent, isCustomFieldStatePayloadKind. case_bool_decide as Hk; [done|].
  unfold fold_entries. destruct (e_payload event) eqn:E; try done; exfalso; apply Hk; unfold domainEventPayloadKind; rewrite E;
    by apply (bool_decide_unpack _).
Qed.

(** Only what events say counts, not their numbers. *)
Lemma fold_entries_renumbered tenantId doctype fields events events' :
  e_new <$> events = e_new <$> events' →
  foldl (fold_entries tenantId doctype) fields events = foldl (fold_entries tenantId doctype) fields events'.
Proof.
  revert fields events'. induction events as [|event events IH]; intros fields [|event' events']; try done.
  cbn. intros [= He Hs]. rewrite (IH _ events') by done. f_equal. unfold fold_entries. by rewrite He.
Qed.

Lemma resequence_new events : e_new <$> resequenceCustomFieldEventsForFold events = e_new <$> events.
Proof.
  unfold resequenceCustomFieldEventsForFold. rewrite fmap_imap. apply list_eq. intros i. rewrite list_lookup_imap, list_lookup_fmap.
  by destruct (events !! i).
Qed.

Lemma resequence_contiguous events : contiguous (resequenceCustomFieldEventsForFold events).
Proof.
  intros i e. unfold resequenceCustomFieldEventsForFold. rewrite list_lookup_imap.
  destruct (events !! i); cbn; [|done]. by intros [= <-].
Qed.

(** The entries of a doctype, by the names of their fields. *)
Definition entries_of (tenantId doctype : jstr) (events : CustomFieldEventSet) : list (jstr * CustomFieldEntry) :=
  foldl (fold_entries tenantId doctype) []
    (filter (λ event : DomainEvent, custom_field_doctype (e_payload event) = Some doctype) (ces_legacy events) ++ ces_catalog events).

Section tables.
Context `{Collation} (options : CustomFieldServiceOptions) (tenantId : jstr).

Lemma state_fields doctype events :
  cfs_fields (stateFromEvents tenantId doctype events) = isort field_entry_leb (entries_of tenantId doctype events).*2.
Proof.
  unfold stateFromEvents, foldCustomFields, foldCustomFieldsFrom. cbn [cfs_fields option_fmap fmap option_map default].
  rewrite contiguous_sorted by apply resequence_contiguous.
  set (l := _ ++ ces_catalog events).
  pose proof (fold_step_fields tenantId doctype ([], 0%Z) (resequenceCustomFieldEventsForFold l)) as Hf.
  destruct (foldl _ _ _) as [fields version]. cbn in Hf |- *. subst fields. f_equal. f_equal.
  apply fold_entries_renumbered, resequence_new.
Qed.

Lemma state_doctype doctype events : cfs_doctype (stateFromEvents tenantId doctype events) = doctype.
Proof.
  unfold stateFromEvents, foldCustomFields, foldCustomFieldsFrom. cbv zeta. cbn [cfs_doctype].
  by destruct (foldl _ _ _).
Qed.

(** ** What an event changes *)

(** The fields are under their names. *)
Definition named_entries (fields : list (jstr * CustomFieldEntry)) : Prop :=
  jm_wf fields ∧ ∀ k entry, (k, entry) ∈ fields → entry_name entry = k.

Lemma fold_entries_named doctype fields event :
  named_entries fields → named_entries (fold_entries tenantId doctype fields event).
Proof.
  intros [Hwf Hn]. unfold fold_entries. destruct (e_payload event); try done; case_bool_decide; [|done| |done].
  - split; [by apply jm_wf_set|]. intros k entry [Heq|Hin]%jm_set_elem; [by injection Heq as -> ->|by apply Hn].
  - destruct (jm_get _ fields) as [existing|] eqn:E; [|done]. split; [by apply jm_wf_set|].
    intros k entry [Heq|Hin]%jm_set_elem; [|by apply Hn]. injection Heq as -> ->. by apply (Hn _ existing), jm_get_elem_1.
Qed.

Lemma fold_named doctype fields events :
  named_entries fields → named_entries (foldl (fold_entries tenantId doctype) fields events).
Proof. revert fields. induction events as [|event events IH]; intros fields Hf; [done|]. by apply IH, fold_entries_named. Qed.

Lemma entries_named doctype events : named_entries (entries_of tenantId doctype events).
Proof. apply fold_named. split; [apply jm_wf_nil|]. by intros ? ? ?%elem_of_nil. Qed.

(** The fields in force of a doctype. *)
Lemma enabled_elem doctype events field :
  field ∈ enabled_fields (stateFromEvents tenantId doctype events) ↔
  ∃ entry, jm_get (fd_name field) (entries_of tenantId doctype events) = Some entry ∧ cfe_enabled entry = true ∧
    cfe_field entry = field.
Proof.
  unfold enabled_fields. rewrite state_fields, list_elem_of_fmap. setoid_rewrite list_elem_of_filter. setoid_rewrite elem_of_isort.
  setoid_rewrite list_elem_of_fmap. pose proof (entries_named doctype events) as [Hwf Hn]. split.
  - intros (entry & -> & He & (k & entry') & -> & Hin). exists entry'. split_and!; [|done|done]. cbn.
    apply jm_get_elem; [done|]. by rewrite (Hn _ _ Hin : fd_name _ = _).
  - intros (entry & Hg & He & <-). exists entry. split_and!; [done..|]. exists (fd_name (cfe_field entry), entry). split; [done|].
    by apply jm_get_elem_1.
Qed.

(** The catalog with one more event. *)
Definition with_event (events : CustomFieldEventSet) (event : DomainEvent) : CustomFieldEventSet :=
  withSavedCustomFieldCatalogEvents events [event].

Lemma entries_with_event doctype events event :
  entries_of tenantId doctype (with_event events event) = fold_entries tenantId doctype (entries_of tenantId doctype events) event.
Proof. unfold entries_of, with_event. cbn. by rewrite app_assoc, foldl_app. Qed.

(** A save adds a field to those of its doctype, in place of the one of its name. *)
Lemma saved_fields doctype events (event : DomainEvent) d field g :
  e_payload event = PCustomFieldSaved d field →
  g ∈ enabled_fields (stateFromEvents tenantId doctype (with_event events event)) →
  (doctype = d ∧ g = field) ∨
  g ∈ enabled_fields (stateFromEvents tenantId doctype events) ∧ (doctype = d → fd_name g ≠ fd_name field).
Proof.
  intros Hp. rewrite !enabled_elem, entries_with_event. intros (entry & Hg & He & Hf). unfold fold_entries in Hg. rewrite Hp in Hg.
  case_bool_decide as Hd; [|right; split; [by exists entry|by intros ->]].
  rewrite jm_get_set in Hg. destruct (decide (fd_name g = fd_name field)) as [Hn|Hn].
  - left. injection Hg as <-. split; [done|]. by subst g.
  - right. split; [by exists entry|done].
Qed.

(** A field that is disabled is in force no more, and nothing else changes. *)
Lemma disabled_fields doctype events (event : DomainEvent) d name g :
  e_payload event = PCustomFieldDisabled d name →
  g ∈ enabled_fields (stateFromEvents tenantId doctype (with_event events event)) →
  g ∈ enabled_fields (stateFromEvents tenantId doctype events).
Proof.
  intros Hp. rewrite !enabled_elem, entries_with_event. intros (entry & Hg & He & Hf). unfold fold_entries in Hg. rewrite Hp in Hg.
  case_bool_decide as Hd; [|by exists entry]. destruct (jm_get name _) as [existing|] eqn:Ee; [|by exists entry].
  rewrite jm_get_set in Hg. destruct (decide (fd_name g = name)); [|by exists entry]. injection Hg as <-. done.
Qed.

(** What [projectPendingCustomFieldState] foresees. *)
Lemma pending_fields doctype at_ field state g :
  g ∈ enabled_fields (pending_state tenantId doctype at_ field state) ↔
  g = field ∨ g ∈ enabled_fields state ∧ fd_name g ≠ fd_name field.
Proof.
  unfold enabled_fields, pending_state. cbn [cfs_fields]. rewrite filter_app, fmap_app, elem_of_app.
  rewrite !list_elem_of_fmap. setoid_rewrite list_elem_of_filter. setoid_rewrite list_elem_of_filter.
  setoid_rewrite list_elem_of_singleton. unfold entry_name. split.
  - intros [(entry & -> & He & Hn & Hin)|(entry & -> & He & ->)]; [right|by left]. split; [|done]. by exists entry.
  - intros [-> |((entry & -> & He & Hin) & Hn)].
    + right. exists (saved_entry tenantId doctype at_ field (findCustomFieldEntry state (fd_name field))). by cbn.
    + left. by exists entry.
Qed.

(** ** Graphs *)

Abbreviation doctypes := (registry_list (cfo_registry options)).

Definition tables (events : CustomFieldEventSet) : list CustomFieldTableGraphEdge :=
  customFieldTableGraph doctypes (statesFromEvents options tenantId events).

Definition acyclic (graph : list CustomFieldTableGraphEdge) : Prop := ∀ d, ¬ tc (has_table graph) d d.

(** The tables of a doctype: its own, and its custom ones. *)
Lemma graph_tables states source target :
  has_table (customFieldTableGraph doctypes states) source target ↔
  (∃ doctype (field : FieldDefinition), doctype ∈ doctypes ∧ dt_name doctype = source ∧ field ∈ dt_fields doctype ∧ row_doctype field = Some target) ∨
  ∃ state (field : FieldDefinition), state ∈ states ∧ cfs_doctype state = source ∧ field ∈ enabled_fields state ∧ row_doctype field = Some target.
Proof.
  assert (∀ name custom (fields : list FieldDefinition) (edge : CustomFieldTableGraphEdge),
    edge ∈ omap (table_edge name custom) fields ↔ ∃ field, field ∈ fields ∧ table_edge name custom field = Some edge) as Homap.
  { intros name custom fields edge. rewrite list_elem_of_omap. naive_solver. }
  unfold has_table, customFieldTableGraph. setoid_rewrite elem_of_app. setoid_rewrite list_elem_of_In at 1 2.
  setoid_rewrite in_flat_map. setoid_rewrite <-list_elem_of_In. setoid_rewrite Homap. unfold table_edge. split.
  - intros (edge & [(x & Hx & field & Hf & He)|(x & Hx & field & Hf & He)] & Hs & Ht); [left|right];
      destruct (row_doctype field) eqn:E; cbn in He; try done; injection He as <-; cbn in Hs, Ht; subst; by exists x, field.
  - intros [(x & field & Hx & Hs & Hf & Ht)|(x & field & Hx & Hs & Hf & Ht)]; eexists; (split; [|split; [|]]).
    1:{ left. exists x. split; [done|]. exists field. split; [done|]. by rewrite Ht. }
    3:{ right. exists x. split; [done|]. exists field. split; [done|]. by rewrite Ht. }
    all: by cbn.
Qed.

(** A cycle that an edge from a doctype makes goes through that doctype. *)
Lemma through_doctype {A} (O N : relation A) d x y :
  (∀ x y, N x y → O x y ∨ x = d) → tc N x y → tc O x y ∨ rtc N x d ∧ tc N d y.
Proof using Type.
  intros HN. induction 1 as [x y Hxy|x x' y Hx Hx' IH].
  - destruct (HN _ _ Hxy) as [| ->]; [left; by apply tc_once|right]. split; [reflexivity|by apply tc_once].
  - destruct (HN _ _ Hx) as [Ho| ->]; [|right; split; [reflexivity|by eapply tc_l]].
    destruct IH as [Hc|[Hr Hc]]; [left; by eapply tc_l|right]. split; [by eapply rtc_l|done].
Qed.

Lemma acyclic_save old new d :
  (∀ x y, has_table new x y → has_table old x y ∨ x = d) → ¬ reaches_cycle new d → acyclic old → acyclic new.
Proof using Type.
  intros Hnew Hd Hold x Hx. destruct (through_doctype _ _ d _ _ Hnew Hx) as [Hc|[Hr Hc]]; [by apply (Hold x)|].
  apply Hd. exists d. split; [reflexivity|]. by eapply tc_rtc_r.
Qed.

Lemma tc_subrel {A} (R R' : relation A) x y : tc R x y → (∀ x y, R x y → R' x y) → tc R' x y.
Proof using Type. intros Hc Hsub. exact (tc_congruence id R' x y Hsub Hc). Qed.

Lemma acyclic_sub old new : (∀ x y, has_table new x y → has_table old x y) → acyclic old → acyclic new.
Proof using Type. intros Hsub Hold x Hx. apply (Hold x). by eapply tc_subrel. Qed.

(** A field that passed the check of the pending graph leaves no cycle. *)
Lemma save_acyclic events (event : DomainEvent) d field at_ :
  e_payload event = PCustomFieldSaved d field →
  assertCustomTableGraphAcyclicFrom d doctypes
    (projectPendingCustomFieldState tenantId (statesFromEvents options tenantId events) d field at_) = Ok tt →
  acyclic (tables events) → acyclic (tables (with_event events event)).
Proof using Type.
  set (pending := projectPendingCustomFieldState _ _ _ _ _). intros Hp Hcheck.
  assert (¬ reaches_cycle (customFieldTableGraph doctypes pending) d) as Hd.
  { unfold assertCustomTableGraphAcyclicFrom in Hcheck. pose proof (search_result (customFieldTableGraph doctypes pending) d) as Hs.
    destruct (assertTableGraphAcyclicFrom d _) as [[u|e]|]; [by apply ends_no_cycle|done|done]. }
  assert (∀ x y, has_table (tables (with_event events event)) x y → has_table (customFieldTableGraph doctypes pending) x y) as Hsub.
  { intros x y. unfold tables. rewrite !graph_tables. intros [?|(state & g & Hst & Hx & Hg & Ht)]; [by left|right].
    unfold statesFromEvents in Hst. apply list_elem_of_fmap in Hst as (doctype & -> & Hdt). rewrite state_doctype in Hx. subst x.
    exists (let state := stateFromEvents tenantId (dt_name doctype) events in
      if bool_decide (cfs_doctype state = d) then pending_state tenantId d at_ field state else state), g.
    unfold pending, projectPendingCustomFieldState, statesFromEvents. cbv zeta. rewrite state_doctype.
    split_and!; [| | |done].
    - rewrite <-list_fmap_compose. apply list_elem_of_fmap. exists doctype. unfold compose. by rewrite state_doctype.
    - case_bool_decide; cbn [cfs_doctype pending_state]; by rewrite state_doctype.
    - case_bool_decide as He; destruct (saved_fields _ _ _ _ _ _ Hp Hg) as [[? ->]|[? ?]]; try done.
      + apply pending_fields. by left.
      + apply pending_fields. right. split; [done|]. auto. }
  apply acyclic_save with d.
  - intros x y Hxy. destruct (decide (x = d)) as [|Hne]; [by right|left]. apply Hsub in Hxy. unfold tables.
    rewrite graph_tables in Hxy |- *. destruct Hxy as [?|(state & g & Hst & Hx & Hg & Ht)]; [by left|right].
    unfold pending, projectPendingCustomFieldState in Hst. apply list_elem_of_fmap in Hst as (state' & -> & Hst).
    case_bool_decide as He; [|by exists state', g]. cbn in Hx. by subst.
  - intros (e & Hr & Hc). apply Hd. exists e. split; [|by eapply tc_subrel].
    eapply rtc_subrel; [|exact Hr]. exact Hsub.
Qed.

Lemma disable_acyclic events (event : DomainEvent) d name :
  e_payload event = PCustomFieldDisabled d name → acyclic (tables events) → acyclic (tables (with_event events event)).
Proof using Type.
  intros Hp. apply acyclic_sub. intros x y. unfold tables. rewrite !graph_tables.
  intros [?|(state & g & Hst & Hx & Hg & Ht)]; [by left|right].
  unfold statesFromEvents in Hst. apply list_elem_of_fmap in Hst as (doctype & -> & Hdt). rewrite state_doctype in Hx. subst x.
  exists (stateFromEvents tenantId (dt_name doctype) events), g. split_and!; [|apply state_doctype| |done].
  - apply list_elem_of_fmap. by exists doctype.
  - by eapply disabled_fields.
Qed.

(** The check of the doctypes that are extended. *)
Lemma acyclic_checked events root :
  acyclic (tables events) → assertCustomTableGraphAcyclicFrom root doctypes (statesFromEvents options tenantId events) = Ok tt.
Proof using Type.
  intros Ha. unfold assertCustomTableGraphAcyclicFrom. fold (tables events). pose proof (search_result (tables events) root) as Hs.
  destruct (assertTableGraphAcyclicFrom root _) as [[[]|e]|]; [done| |done]. destruct Hs as (_ & d & _ & Hc). by apply Ha in Hc.
Qed.
End tables.

(** ** The write *)

(** A mutation of metadata extends its stream by its event, and the stream of the
    revision; no other. *)
Definition mutated (source : jstr) (revision : res jstr) (version : Z) (event : NewDomainEvent) (m m' : streams_map) : Prop :=
  wf_streams m' ∧ (∀ stream, stream_events m stream `prefix_of` stream_events m' stream) ∧
  currentVersion m source = version ∧
  (∃ saved : DomainEvent, e_new saved = event ∧ stream_events m' source = stream_events m source ++ [saved]) ∧
  ∀ stream, stream ≠ source → revision ≠ Ok stream → stream_events m' stream = stream_events m stream.

Lemma mutation_cases t d source version event revision m :
  wf_streams m → e_stream event = source → metadataRevisionStream t d ≠ Ok source →
  match appendMetadataMutation t d source version event revision m with
  | (Ok saved, m') => mutated source (metadataRevisionStream t d) version event m m'
  | (Throw _, m') => m' = m ∨ mutated source (metadataRevisionStream t d) version event m m'
  end.
Proof.
  intros Hwf He Hne. unfold appendMetadataMutation. destruct (metadataRevisionStream t d) as [rstream|e] eqn:Hr; [|by left].
  rewrite m_bind_run. cbn [m_lift]. rewrite m_bind_run.
  set (entries := [_; _]).
  assert (batch_ok entries) as Hb.
  { split; cbn.
    - apply NoDup_cons. split; [|apply NoDup_singleton]. intros ->%list_elem_of_singleton. by apply Hne.
    - intros entry [-> |[-> |[]%elem_of_nil]%elem_of_cons]%elem_of_cons ev ->%list_elem_of_singleton; done. }
  pose proof (appendBatch_cases entries m Hwf Hb) as Hc.
  destruct (appendBatch entries m) as [[saved|e] m'] eqn:Hrun; [|by left].
  assert (mutated source (Ok rstream) version event m m') as Hm.
  { destruct Hc as (Hwf' & Hin & Hout). apply appendBatch_checked in Hrun.
    destruct (Hin _ (proj2 (elem_of_cons _ _ _) (or_introl eq_refl))) as [Hs Hlog]. cbn [ae_stream ae_events] in Hs, Hlog.
    split_and!.
    - done.
    - intros stream. by eapply (batch_written_prefix entries saved).
    - pose proof (proj1 (check_entries_ok m entries tt) Hrun) as Hv. apply (Hv _ (proj2 (elem_of_cons _ _ _) (or_introl eq_refl))).
    - unfold log_of in Hlog. rewrite Hs, fmap_app in Hlog. apply app_inv_head in Hlog.
      destruct (mine saved source) as [|e [|]]; try done. injection Hlog as Hlog. by exists e.
    - intros stream Hst Hrev. apply Hout. cbn. intros [?|[-> |[]%elem_of_nil]%elem_of_cons]%elem_of_cons; by auto. }
  destruct (List.find _ saved); [done|by right].
Qed.

(** ** The invariant *)

Section invariant.
Context (host : predicate_host) `{NamingHost} `{Collation} (options : CustomFieldServiceOptions) (ids clock : nat → jstr).
Context (normalization : DocTypeNormalizationOptions).
Context (Hregistry : registry_defined normalization (reg_doctypes (cfo_registry options))).
Context (Hcatalog : jm_get (js "__catalog") (reg_doctypes (cfo_registry options)) = None).

Abbreviation doctypes := (registry_list (cfo_registry options)).

(** The events of custom fields in a stream of a store. *)
Definition custom_field_events (stream : res jstr) (s : DocumentStore) : list DomainEvent :=
  match stream with
  | Ok stream => selected custom_field_read_options (stream_events (st_streams s) stream)
  | Throw _ => []
  end.

Definition catalog_of (t : jstr) : DocumentStore → list DomainEvent := custom_field_events (customFieldsCatalogStream t).
Definition legacy_of (t doctype : jstr) : DocumentStore → list DomainEvent := custom_field_events (customFieldsStream t doctype).

(** What a store says of the fields of a tenant. *)
Definition stored_events (t : jstr) (s : DocumentStore) : CustomFieldEventSet :=
  {| ces_catalog := catalog_of t s; ces_legacy := concat ((λ doctype, legacy_of t (dt_name doctype) s) <$> doctypes);
     ces_catalogVersion := max_sequence 0 (catalog_of t s) |}.

(** No tenant has a doctype that table fields lead back to. *)
Definition tables_acyclic (s : DocumentStore) : Prop :=
  wf_streams (st_streams s) ∧ ∀ t, acyclic (tables options t (stored_events t s)).

(** Others only add to the streams, and nothing to those of earlier versions of the
    program, with the fields of one doctype each. *)
Definition fields_grow (s s' : DocumentStore) : Prop :=
  extends s s' ∧ ∀ t doctype, doctype ∈ doctypes → legacy_of t (dt_name doctype) s' = legacy_of t (dt_name doctype) s.

#[export] Instance fields_grow_order : PreOrder fields_grow.
Proof using Type.
  split; [by intros s|]. intros s1 s2 s3 [H1 L1] [H2 L2]. split; [by etrans|]. intros t d Hd. by rewrite L2, L1.
Qed.

Lemma tables_entries t events events' :
  ces_catalog events = ces_catalog events' → ces_legacy events = ces_legacy events' →
  acyclic (tables options t events) → acyclic (tables options t events').
Proof using Type.
  intros Hc Hl. apply acyclic_sub. intros x y. unfold tables. rewrite !graph_tables.
  intros [?|(state & g & Hst & Hx & Hg & Ht)]; [by left|right].
  unfold statesFromEvents in Hst. apply list_elem_of_fmap in Hst as (doctype & -> & Hdt). rewrite state_doctype in Hx. subst x.
  exists (stateFromEvents t (dt_name doctype) events), g. split_and!; [|apply state_doctype| |done].
  - apply list_elem_of_fmap. by exists doctype.
  - rewrite enabled_elem in Hg |- *. unfold entries_of in Hg |- *. by rewrite Hc, Hl.
Qed.

Lemma doctype_registered doctype : doctype ∈ doctypes → jm_get (dt_name doctype) (reg_doctypes (cfo_registry options)) = Some doctype.
Proof using Hregistry.
  unfold registry_list. rewrite elem_of_isort, list_elem_of_fmap. intros ([k d] & -> & Hin). destruct Hregistry as [Hwf Hd].
  apply jm_get_elem in Hin; [|done]. cbn. by destruct (Hd _ _ Hin) as [-> _].
Qed.

Lemma catalog_not_legacy t t' doctype stream :
  doctype ∈ doctypes → customFieldsCatalogStream t = Ok stream → customFieldsStream t' (dt_name doctype) ≠ Ok stream.
Proof using Hregistry Hcatalog.
  intros Hd%doctype_registered Hc Hl. destruct (documentStream_same _ _ _ _ _ _ _ Hc Hl) as (_ & _ & Hn).
  rewrite <-Hn, Hcatalog in Hd. done.
Qed.

Lemma revision_not_fields t d t' n stream : metadataRevisionStream t d = Ok stream → documentStream t' (js "__CustomFields") n ≠ Ok stream.
Proof using Type. intros Hr Hl. by destruct (documentStream_same _ _ _ _ _ _ _ Hr Hl) as (_ & ? & _). Qed.

(** A version of the catalog that was read is that of the whole stream, or the write fails. *)
Lemma catalog_unchanged s0 s stream v :
  wf_streams (st_streams s0) → extends s0 s →
  max_sequence 0 (selected custom_field_read_options (stream_events (st_streams s0) stream)) = v →
  currentVersion (st_streams s) stream = v → stream_events (st_streams s) stream = stream_events (st_streams s0) stream.
Proof using Type.
  intros [_ Hwf] Hx Hm Hv. symmetry. apply prefix_length_eq; [apply Hx|]. unfold currentVersion in Hv.
  destruct (Hwf stream) as [Hc _].
  assert (v <= Z.of_nat (length (stream_events (st_streams s0) stream)))%Z; [|lia]. rewrite <-Hm. apply max_sequence_bound; [lia|].
  intros e [_ He]%list_elem_of_filter. by apply contiguous_bound.
Qed.

(** What a reader of the fields of a tenant knows: the catalog at some time before, and
    the streams of earlier versions. *)
Definition read_events (t : jstr) (events : CustomFieldEventSet) (s : DocumentStore) : Prop :=
  ces_catalogVersion events = max_sequence 0 (ces_catalog events) ∧
  ces_legacy events = ces_legacy (stored_events t s) ∧
  once fields_grow tables_acyclic (λ s0, ces_catalog events = catalog_of t s0) s.

Lemma legacy_same t s s' : fields_grow s s' → ces_legacy (stored_events t s') = ces_legacy (stored_events t s).
Proof using Type.
  intros [_ Hl]. cbn. f_equal. apply list_fmap_ext. intros i doctype Hd%list_elem_of_lookup_2. by apply Hl.
Qed.

#[export] Instance read_events_stable t events : Stable fields_grow tables_acyclic (read_events t events).
Proof using Type.
  intros s s' Hi Hg (Hv & Hl & Ho). split_and!; [done|by rewrite (legacy_same t s s')|].
  by eapply (stable_once fields_grow tables_acyclic).
Qed.

(** The write of an event that leaves no cycle in what its writer read. *)
Lemma write_keeps t d stream (event : NewDomainEvent) events s m' :
  tables_acyclic s → read_events t events s → customFieldsCatalogStream t = Ok stream →
  mutated stream (metadataRevisionStream t d) (ces_catalogVersion events) event (st_streams s) m' →
  payload_kind (e_payload event) ∈ CUSTOM_FIELD_STATE_PAYLOAD_KINDS →
  (∀ saved : DomainEvent, e_new saved = event → acyclic (tables options t events) →
     acyclic (tables options t (with_event events saved))) →
  tables_acyclic (with_streams (λ _, m') s) ∧ fields_grow s (with_streams (λ _, m') s).
Proof using Hregistry Hcatalog.
  intros [Hwf Ha] (Hv & Hl & s0 & [Hwf0 _] & [Hx _] & Hc) Hstream (Hwf' & Hpre & Hver & (saved & Hnew & Hs) & Hout) Hkind Hok.
  set (s' := with_streams (λ _, m') s).
  assert (∀ t' n stream', documentStream t' (js "__CustomFields") n = Ok stream' → stream' ≠ stream →
    stream_events (st_streams s') stream' = stream_events (st_streams s) stream') as Hother.
  { intros t' n stream' Hs' Hne. apply Hout; [done|]. intros Hr. by apply (revision_not_fields _ _ t' n _ Hr). }
  assert (fields_grow s s') as Hg.
  { split; [exact Hpre|]. intros t' doctype Hd. unfold legacy_of, custom_field_events.
    destruct (customFieldsStream t' (dt_name doctype)) as [stream'|e] eqn:E; [|done]. rewrite (Hother _ _ _ E); [done|].
    intros ->. by apply (catalog_not_legacy t t' doctype stream Hd). }
  split; [|done]. split; [done|]. intros t'.
  destruct (decide (t' = t)) as [-> |Hne].
  - assert (stream_events (st_streams s) stream = stream_events (st_streams s0) stream) as Hsame.
    { apply (catalog_unchanged s0 s stream (ces_catalogVersion events)); [done..| |done]. rewrite Hv, Hc. unfold catalog_of.
      by rewrite Hstream. }
    assert (catalog_of t s' = ces_catalog events ++ [saved]) as Hcat.
    { rewrite Hc. unfold catalog_of. rewrite Hstream. cbn [custom_field_events s' with_streams st_streams]. rewrite Hs, Hsame.
      unfold selected. rewrite filter_app. f_equal. apply filter_all. intros e ->%list_elem_of_singleton.
      unfold read_matches. cbn. apply bool_decide_eq_true_2. unfold domainEventPayloadKind. by rewrite Hnew. }
    apply (tables_entries t (with_event events saved)); [by symmetry| |].
    + cbn [with_event withSavedCustomFieldCatalogEvents ces_legacy]. by rewrite Hl, (legacy_same t s s').
    + apply (Hok _ Hnew). apply (tables_entries t (stored_events t s)); [|done|done]. cbn. rewrite Hc. unfold catalog_of.
      rewrite Hstream. cbn. by rewrite Hsame.
  - apply (tables_entries t' (stored_events t' s)); [|by rewrite (legacy_same t' s s')|done]. cbn. unfold catalog_of, custom_field_events.
    destruct (customFieldsCatalogStream t') as [stream'|e] eqn:E; [|done]. rewrite (Hother _ _ _ E); [done|]. intros ->.
    by destruct (documentStream_same _ _ _ _ _ _ _ Hstream E).
Qed.
End invariant.

(** ** The calls *)

Section calls.
Context (host : predicate_host) `{NamingHost} `{Collation} (options : CustomFieldServiceOptions) (ids clock : nat → jstr).
Context (normalization : DocTypeNormalizationOptions).
Context (Hregistry : registry_defined normalization (reg_doctypes (cfo_registry options))).
Context (Hcatalog : jm_get (js "__catalog") (reg_doctypes (cfo_registry options)) = None).
Context (env : nat → DocumentStore → DocumentStore).

Abbreviation doctypes := (registry_list (cfo_registry options)).
Abbreviation grow := (fields_grow options).
Abbreviation sound := (tables_acyclic options).

Context `{Henv : !Lawful env grow sound}.

Abbreviation Known K := (Stable grow sound K).
Abbreviation Runs K m Q := (runs grow sound K m Q).

Lemma runs_read_fields (K : DocumentStore → Prop) stream : Known K →
  Runs K (read_custom_fields env stream)
    (λ evs, once grow sound (λ s, evs = selected custom_field_read_options (stream_events (st_streams s) stream))).
Proof using Henv.
  intros HK. eapply (runs_mono _ _ K K); [call runs_observed|done|]. intros evs s Hi (s0 & Hi0 & Hg & _ & E).
  exists s0. split_and!; [done..|]. rewrite (readStream_selected _ _ custom_field_read_options (proj1 Hi0) eq_refl) in E. congruence.
Qed.

#[local] Instance legacy_stable t doctype evs :
  Known (λ s, doctype ∈ doctypes → evs = legacy_of t (dt_name doctype) s).
Proof using Type. intros s s' _ [_ Hl] He Hd. rewrite Hl by done. by apply He. Qed.

Lemma runs_read_legacy (K : DocumentStore → Prop) t doctype : Known K →
  Runs K (stream ← m_lift (customFieldsStream t (dt_name doctype)); read_custom_fields env stream)
    (λ evs s, doctype ∈ doctypes → evs = legacy_of t (dt_name doctype) s).
Proof using Henv.
  intros HK. call runs_lift_bind. intros stream Hs. eapply runs_mono; [by apply runs_read_fields|done|].
  intros evs s _ (s0 & _ & [_ Hg] & ->) Hd. rewrite Hg by done. unfold legacy_of. by rewrite Hs.
Qed.

Lemma map_read {A B} (f : A → B) l L l' : Forall2 (λ x y, x ∈ L → y = f x) l l' → l ⊆ L → l' = f <$> l.
Proof using Type.
  induction 1 as [|x y l l' Hxy _ IH]; intros Hl; [done|]. cbn. f_equal; [apply Hxy, Hl; by left|].
  apply IH. intros z Hz. apply Hl. by right.
Qed.

Lemma runs_events (K : DocumentStore → Prop) t : Known K →
  Runs K (tenantCustomFieldEvents options env t) (read_events options t).
Proof using Henv.
  intros HK. unfold tenantCustomFieldEvents. call runs_lift_bind. intros stream Hs.
  call runs_bind; [by apply runs_read_fields|]. intros catalog. call runs_bind.
  { eapply (runs_map grow sound _ _ (λ doctype evs s, doctype ∈ doctypes → evs = legacy_of t (dt_name doctype) s));
      [apply _..|]. intros doctype _. apply runs_read_legacy. apply _. }
  intros legacy. apply runs_ret; [apply _|]. intros s _ [[_ Hcat] Hleg]. split_and!; [done| |].
  - cbn. f_equal. by apply (map_read _ _ doctypes).
  - eapply once_mono; [exact Hcat|]. intros s0 ->. unfold catalog_of. by rewrite Hs.
Qed.

Lemma runs_event (K : DocumentStore → Prop) t stream name actor metadata p : Known K →
  Runs K (customFieldEvent ids clock t stream name actor metadata p) (λ event _, e_stream event = stream ∧ e_payload event = p).
Proof using Type.
  intros HK. unfold customFieldEvent. call runs_keeps. intros id. call runs_keeps. intros at_. by apply runs_ret; [apply _|].
Qed.

(** The write, after a read of the fields and a check of the event against them. *)
Lemma runs_change (K : DocumentStore → Prop) t doctype events revision name actor metadata p :
  Known K → (∀ s, K s → read_events options t events s) → payload_kind p ∈ CUSTOM_FIELD_STATE_PAYLOAD_KINDS →
  (∀ saved : DomainEvent, e_payload saved = p → acyclic (tables options t events) →
     acyclic (tables options t (with_event events saved))) →
  Runs K (change_custom_fields ids clock env t doctype events (ces_catalogVersion events) revision name actor metadata p)
    (λ _ _, True).
Proof using Henv Hregistry Hcatalog.
  intros HK Hread Hkind Hok. unfold change_custom_fields. call runs_lift_bind. intros stream Hs.
  eapply runs_bind; [apply _|done|by apply runs_event|]. intros event.
  call runs_skip; [|intros saved; by apply runs_ret; [apply _|]].
  call runs_update. intros s Hi (HKs & He & Hp).
  assert (metadataRevisionStream t (dt_name doctype) ≠ Ok stream) as Hne.
  { intros Hr. by apply (revision_not_fields _ _ t (js "__catalog") _ Hr). }
  pose proof (mutation_cases t (dt_name doctype) stream (ces_catalogVersion events) event revision (st_streams s)
    (proj1 Hi) He Hne) as Hm.
  assert (∀ m', mutated stream (metadataRevisionStream t (dt_name doctype)) (ces_catalogVersion events) event (st_streams s) m' →
    tables_acyclic options (with_streams (λ _, m') s) ∧ fields_grow options s (with_streams (λ _, m') s)) as Hkeep.
  { intros m' Hm'. eapply (write_keeps options normalization Hregistry Hcatalog t); [done|by apply Hread|done|done|by rewrite Hp|].
    intros saved <-. by apply Hok. }
  assert (with_streams (λ _, st_streams s) s = s) as Hsame by by destruct s.
  unfold on_streams. destruct (appendMetadataMutation _ _ _ _ _ _ _) as [[saved|e] m'].
  - destruct (Hkeep _ Hm). by split_and!.
  - destruct Hm as [-> |Hm]; [rewrite Hsame; by split_and!|]. destruct (Hkeep _ Hm). by split_and!.
Qed.

#[local] Instance naming_keeps t base state :
  Keeps grow sound (assertNamingConfigurationRemainsValid env t base state).
Proof using Henv. unfold assertNamingConfigurationRemainsValid, read_stream. apply _. Qed.

Lemma save_runs command : Runs (λ _, True) (saveField host options ids clock env command) (λ _ _, True).
Proof using Henv Hregistry Hcatalog.
  unfold saveField. do 2 (call runs_lift_bind; intros ? _). call runs_keeps. intros revision.
  call runs_lift_bind. intros field0 _. call runs_bind; [apply runs_events; apply _|]. intros events. cbv zeta.
  do 5 (call runs_lift_bind; intros ? _). call runs_keeps. intros at_. call runs_lift_bind. intros [] Hcheck.
  call runs_lift_bind. intros ? _. destruct (planCustomFieldSave _ _ _).
  3: by apply runs_ret; [apply _|].
  all: call runs_keeps; intros at2; call runs_keeps; intros [].
  all: eapply (runs_change _ _ _ events); [apply _|by intros s [_ ?]|apply (bool_decide_unpack _); vm_compute; exact I|].
  all: intros saved Hp; eapply save_acyclic; [exact Hp|exact Hcheck].
Qed.

Lemma disable_runs command : Runs (λ _, True) (disableField options ids clock env command) (λ _ _, True).
Proof using Henv Hregistry Hcatalog.
  unfold disableField. do 2 (call runs_lift_bind; intros ? _). call runs_keeps. intros revision.
  call runs_lift_bind. intros name _. call runs_bind; [apply runs_events; apply _|]. intros events. cbv zeta.
  call runs_lift_bind. intros ? _. destruct (planCustomFieldDisable _).
  2: apply runs_throw; apply _.
  2: by apply runs_ret; [apply _|].
  call runs_keeps. intros at_. call runs_keeps. intros [].
  eapply (runs_change _ _ _ events); [apply _|by intros s [_ ?]|apply (bool_decide_unpack _); vm_compute; exact I|].
  intros saved Hp. by eapply disable_acyclic.
Qed.
End calls.

(** C23: Whatever the other clients of the service do meanwhile, a call that saves or
    disables a custom field leaves tables that do not recurse, whether it returns or
    throws: for every tenant, the check that [effectiveDocType] makes of the fields in
    the store passes at every doctype. *)
Theorem custom_tables_acyclic `{Collation} host options ids clock normalization env :
  registry_defined normalization (reg_doctypes (cfo_registry options)) →
  jm_get (js "__catalog") (reg_doctypes (cfo_registry options)) = None →
  Lawful env (fields_grow options) (tables_acyclic options) →
  ∀ c, tables_acyclic options (cl_store c) →
  (∀ command, tables_acyclic options (cl_store (saveField host options ids clock env command c).2)) ∧
  (∀ command, tables_acyclic options (cl_store (disableField options ids clock env command c).2)) ∧
  ∀ t root, assertCustomTableGraphAcyclicFrom root (registry_list (cfo_registry options))
    (statesFromEvents options t (stored_events options t (cl_store c))) = Ok tt.
Proof.
  intros Hr Hc Henv c Hi. split_and!.
  - intros command. pose proof (save_runs host options ids clock normalization Hr Hc env command c Hi I) as Hs.
    by destruct (saveField _ _ _ _ _ _ _) as [r c'], Hs.
  - intros command. pose proof (disable_runs options ids clock normalization Hr Hc env command c Hi I) as Hs.
    by destruct (disableField _ _ _ _ _ _) as [r c'], Hs.
  - intros t root. apply acyclic_checked, Hi.
Qed.

(** ** Witness: suppliers may have rows of customers, and then customers none of suppliers *)

Definition sample_supplier_definition : DocTypeDefinition :=
  plain_doctype (js "Supplier") [plain_field (js "city") FText false false false None].

Definition sample_table_registry : list (jstr * DocTypeDefinition) :=
  [(js "Customer", sample_customer_definition); (js "Supplier", sample_supplier_definition)].

Definition sample_table_options : CustomFieldServiceOptions :=
  {| cfo_registry := {| reg_doctypes := sample_table_registry; reg_resourceRoles := [] |}; cfo_adminRoles := None;
     cfo_stringify := fd_name |}.

Definition sample_table_field (name target : jstr) : FieldDefinition :=
  {| fd_name := name; fd_type := FTable; fd_required := false; fd_mandatoryDependsOn := None; fd_readOnly := false;
     fd_readOnlyDependsOn := None; fd_hidden := false; fd_hiddenDependsOn := None; fd_unique := false; fd_noCopy := false;
     fd_allowOnSubmit := false; fd_fetchFrom := None; fd_fetchIfEmpty := false; fd_options := None;
     fd_linkTo := None; fd_tableOf := Some target; fd_min := None; fd_max := None; fd_defaultValue := None;
     fd_permissions := None |}.

Definition sample_table_save (doctype name target : jstr) : SaveCustomFieldCommand :=
  {| scf_actor := sample_administrator (js "root"); scf_doctype := doctype; scf_field := sample_table_field name target;
     scf_tenantId := None; scf_expectedVersion := None; scf_metadata := None |}.

Definition sample_table_call (doctype name target : jstr) : M (Client DocumentStore) CustomFieldState :=
  @saveField sample_access_host code_unit_collation sample_table_options sample_ids sample_clock
    (λ _ s, s) (sample_table_save doctype name target).

Definition sample_rows : Client DocumentStore :=
  (sample_table_call (js "Supplier") (js "customers") (js "Customer") (new_client empty_store)).2.

Lemma sample_table_registry_defined : registry_defined sample_definition_options sample_table_registry.
Proof.
  assert (new_registry sample_access_host sample_definition_options [sample_customer_definition; sample_supplier_definition] =
    Ok sample_table_registry) as E by by vm_compute.
  by apply registered_new, registered_registry_sound in E as [? _].
Qed.

Lemma sample_tables_acyclic : @tables_acyclic code_unit_collation sample_table_options empty_store.
Proof.
  split; [apply wf_streams_nil|]. intros t.
  apply (@tables_entries code_unit_collation sample_table_options t {| ces_catalog := []; ces_legacy := []; ces_catalogVersion := 0 |}).
  - cbn. unfold catalog_of, custom_field_events. by destruct (customFieldsCatalogStream t).
  - assert (∀ l : list DocTypeDefinition, concat ((λ doctype, legacy_of t (dt_name doctype) empty_store) <$> l) = []) as Hnone;
      [|symmetry; exact (Hnone _)]. intros l. induction l as [|d l IH]; [done|]. cbn. rewrite IH, app_nil_r. unfold legacy_of, custom_field_events.
    by destruct (customFieldsStream t (dt_name d)).
  - assert (@tables code_unit_collation sample_table_options t {| ces_catalog := []; ces_legacy := []; ces_catalogVersion := 0 |} = [])
      as -> by reflexivity. intros d Hc. apply tc_nsteps in Hc as (n & Hn & Hs). destruct Hs as [|? ? ? ? (edge & []%elem_of_nil & _)]. lia.
Qed.

Lemma custom_tables_acyclic_witness :
  @tables_acyclic code_unit_collation sample_table_options (cl_store sample_rows) ∧
  length (st_streams (cl_store sample_rows)) = 2 ∧
  (sample_table_call (js "Customer") (js "suppliers") (js "Supplier") sample_rows).1 = Throw custom_field_invalid ∧
  @assertCustomTableGraphAcyclicFrom (js "Supplier") (@registry_list code_unit_collation (cfo_registry sample_table_options))
    (@statesFromEvents code_unit_collation sample_table_options (js "acme")
      (@stored_events code_unit_collation sample_table_options (js "acme") (cl_store sample_rows))) = Ok tt.
Proof.
  assert (Lawful (λ (_ : nat) (s : DocumentStore), s) (@fields_grow code_unit_collation sample_table_options)
    (@tables_acyclic code_unit_collation sample_table_options)) as Henv by (intros k s Hs; by split).
  pose proof (@custom_tables_acyclic code_unit_collation sample_access_host sample_table_options sample_ids sample_clock
    sample_definition_options (λ _ s, s) sample_table_registry_defined eq_refl Henv) as H.
  destruct (H (new_client empty_store) sample_tables_acyclic) as (Hsave & _ & _).
  assert (@tables_acyclic code_unit_collation sample_table_options (cl_store sample_rows)) as Hrows by exact (Hsave _).
  destruct (H sample_rows Hrows) as (_ & _ & Hcheck).
  split_and!; [exact Hrows|by vm_compute|by vm_compute|apply Hcheck].
Defined.
