(* ===== verification/DeliveryOutbox.v ===== *)
(** * DeliveryOutbox: the deliveries that are due for the events of a tenant

    Models [application/document-delivery-outbox-events.ts] and
    [application/document-delivery-outbox-service-policy.ts]: the records of the outbox,
    which share one stream per tenant, the fold of those in flight and the fold of one
    record, and the decisions of the service. *)

From S2P Require Export EventStore AutomationRun Streams.

(** [DocumentDeliveryOutboxStatus] and [DocumentDeliveryOutboxRecord]. *)
Inductive DocumentDeliveryOutboxStatus := OutboxPending | OutboxClaimed | OutboxDelivered | OutboxFailed.
#[export] Instance OutboxStatus_eq_dec : EqDecision DocumentDeliveryOutboxStatus.
Proof. solve_decision. Defined.

Record DocumentDeliveryOutboxRecord := {
  dor_id : jstr;
  dor_tenantId : jstr;
  dor_target : DocumentDeliveryOutboxTarget;
  dor_sourceEventId : jstr;
  dor_sourceEventType : jstr;
  dor_payloadKind : jstr;
  dor_doctype : jstr;
  dor_documentName : jstr;
  dor_actorId : jstr;
  dor_payload : data;
  dor_status : DocumentDeliveryOutboxStatus;
  dor_attempts : Z;
  dor_enqueuedAt : jstr;
  dor_claimedAt : option jstr;
  dor_claimId : option jstr;
  dor_deliveredAt : option jstr;
  dor_failedAt : option jstr;
  dor_error : option jstr;
  dor_retryAt : option jstr
}.

(** [DocumentDeliveryOutboxState]. *)
Record DocumentDeliveryOutboxState := {
  dos_tenantId : jstr;
  dos_version : Z;
  dos_records : list (jstr * DocumentDeliveryOutboxRecord)
}.

Definition DOCUMENT_DELIVERY_OUTBOX_CHECKPOINT_KIND : jstr := js "DocumentDeliveryOutboxCheckpointed".
Definition DOCUMENT_DELIVERY_OUTBOX_CHECKPOINT_DOCUMENT_NAME : jstr := js "__checkpoint".
Definition DOCUMENT_DELIVERY_OUTBOX_PAYLOAD_KINDS : list jstr :=
  [js "DocumentDeliveryOutboxEnqueued"; js "DocumentDeliveryOutboxClaimed"; js "DocumentDeliveryOutboxDelivered";
   js "DocumentDeliveryOutboxFailed"; js "DocumentDeliveryOutboxCheckpointed"].

Definition outbox_target_text (target : DocumentDeliveryOutboxTarget) : jstr :=
  match target with TNotification => js "notification" | TRealtime => js "realtime" | TEmail => js "email" end.

(** [documentDeliveryOutboxRecordId(eventId, target)]. *)
Definition documentDeliveryOutboxRecordId (eventId : jstr) (target : DocumentDeliveryOutboxTarget) : jstr :=
  eventId ++ js ":" ++ outbox_target_text target.

Definition documentDeliveryOutboxEventType (p : payload) : jstr := payload_kind p.
Definition isDocumentDeliveryOutboxPayloadKind (kind : jstr) : bool := bool_decide (kind ∈ DOCUMENT_DELIVERY_OUTBOX_PAYLOAD_KINDS).
Definition isDocumentDeliveryOutboxEvent (event : DomainEvent) : bool :=
  isDocumentDeliveryOutboxPayloadKind (domainEventPayloadKind event).

(** The record that a payload is about. *)
Definition outbox_of (p : payload) : option jstr :=
  match p with
  | POutboxEnqueued q => Some (oe_outboxId q)
  | POutboxClaimed id _ | POutboxDelivered id _ | POutboxFailed id _ _ _ => Some id
  | _ => None
  end.

(** [isDocumentDeliveryOutboxRecordPayload(payload)], of a payload of the outbox. *)
Definition isDocumentDeliveryOutboxRecordPayload (p : payload) : bool :=
  negb (bool_decide (payload_kind p = DOCUMENT_DELIVERY_OUTBOX_CHECKPOINT_KIND)).

(** [DocumentDeliveryOutboxCheckpointPayload]. *)
Record OutboxCheckpoint := { ocp_upToSequence : Z; ocp_carryOver : list jstr }.

(** [documentDeliveryOutboxCheckpoint(event)]. *)
Definition documentDeliveryOutboxCheckpoint (event : DomainEvent) : option OutboxCheckpoint :=
  match e_payload event with
  | POutboxCheckpointed upToSequence carryOver => Some {| ocp_upToSequence := upToSequence; ocp_carryOver := carryOver |}
  | _ => None
  end.

(** ** The changes of a record *)

Definition enqueued_record (tenantId at_ : jstr) (q : OutboxEnqueued) : DocumentDeliveryOutboxRecord :=
  {| dor_id := oe_outboxId q; dor_tenantId := tenantId; dor_target := oe_target q;
     dor_sourceEventId := oe_sourceEventId q; dor_sourceEventType := oe_sourceEventType q;
     dor_payloadKind := oe_payloadKind q; dor_doctype := oe_doctype q; dor_documentName := oe_documentName q;
     dor_actorId := oe_actorId q; dor_payload := default [] (oe_payload q); dor_status := OutboxPending;
     dor_attempts := 0; dor_enqueuedAt := at_; dor_claimedAt := None; dor_claimId := None; dor_deliveredAt := None;
     dor_failedAt := None; dor_error := None; dor_retryAt := None |}.

(** What the changes of a record leave of it. *)
Definition outbox_progress (r : DocumentDeliveryOutboxRecord) (status : DocumentDeliveryOutboxStatus) (attempts : Z)
    (claimId claimedAt deliveredAt failedAt err retryAt : option jstr) : DocumentDeliveryOutboxRecord :=
  {| dor_id := dor_id r; dor_tenantId := dor_tenantId r; dor_target := dor_target r;
     dor_sourceEventId := dor_sourceEventId r; dor_sourceEventType := dor_sourceEventType r;
     dor_payloadKind := dor_payloadKind r; dor_doctype := dor_doctype r; dor_documentName := dor_documentName r;
     dor_actorId := dor_actorId r; dor_payload := dor_payload r; dor_status := status; dor_attempts := attempts;
     dor_enqueuedAt := dor_enqueuedAt r; dor_claimedAt := claimedAt; dor_claimId := claimId;
     dor_deliveredAt := deliveredAt; dor_failedAt := failedAt; dor_error := err; dor_retryAt := retryAt |}.

Definition claimed_record (at_ claimId : jstr) (r : DocumentDeliveryOutboxRecord) : DocumentDeliveryOutboxRecord :=
  outbox_progress r OutboxClaimed (dor_attempts r + 1) (Some claimId) (Some at_) (dor_deliveredAt r) (dor_failedAt r) None None.
Definition delivered_record (at_ claimId : jstr) (r : DocumentDeliveryOutboxRecord) : DocumentDeliveryOutboxRecord :=
  outbox_progress r OutboxDelivered (dor_attempts r) (Some claimId) (dor_claimedAt r) (Some at_) (dor_failedAt r) None None.
Definition failed_record (at_ claimId err : jstr) (retryAt : option jstr) (r : DocumentDeliveryOutboxRecord)
    : DocumentDeliveryOutboxRecord :=
  outbox_progress r OutboxFailed (dor_attempts r) (Some claimId) (dor_claimedAt r) (dor_deliveredAt r) (Some at_) (Some err)
    (match retryAt with Some _ => retryAt | None => dor_retryAt r end).

(** ** The folds *)

(** A change of a record in flight, under the name that the record has. *)
Definition change_record (id : jstr) (change : DocumentDeliveryOutboxRecord → DocumentDeliveryOutboxRecord)
    (records : list (jstr * DocumentDeliveryOutboxRecord)) : list (jstr * DocumentDeliveryOutboxRecord) :=
  match jm_get id records with Some current => jm_set (dor_id current) (change current) records | None => records end.

(** The [switch] of [foldDocumentDeliveryOutboxFrom]. *)
Definition fold_outbox_records (tenantId : jstr) (records : list (jstr * DocumentDeliveryOutboxRecord)) (event : DomainEvent)
    : list (jstr * DocumentDeliveryOutboxRecord) :=
  match e_payload event with
  | POutboxEnqueued q => jm_set (oe_outboxId q) (enqueued_record tenantId (e_occurredAt event) q) records
  | POutboxClaimed id claimId => change_record id (claimed_record (e_occurredAt event) claimId) records
  | POutboxDelivered id _ => jm_delete id records
  | POutboxFailed id claimId err retryAt => change_record id (failed_record (e_occurredAt event) claimId err retryAt) records
  | _ => records
  end.

(** [foldDocumentDeliveryOutboxFrom(initial, tenantId, events)] and [foldDocumentDeliveryOutbox]. *)
Definition foldDocumentDeliveryOutboxFrom (initial : option DocumentDeliveryOutboxState) (tenantId : jstr)
    (events : list DomainEvent) : DocumentDeliveryOutboxState :=
  {| dos_tenantId := tenantId;
     dos_version := foldl (λ version (event : DomainEvent), Z.max version (e_sequence event))
       (default 0%Z (dos_version <$> initial)) events;
     dos_records := foldl (fold_outbox_records tenantId) (default [] (dos_records <$> initial)) events |}.
Definition foldDocumentDeliveryOutbox (tenantId : jstr) (events : list DomainEvent) : DocumentDeliveryOutboxState :=
  foldDocumentDeliveryOutboxFrom None tenantId events.

(** The body of the loop of [foldDocumentDeliveryOutboxRecordFrom]. *)
Definition fold_outbox_record_step (tenantId outboxId : jstr) (record : option DocumentDeliveryOutboxRecord) (event : DomainEvent)
    : option DocumentDeliveryOutboxRecord :=
  if bool_decide (outbox_of (e_payload event) = Some outboxId)
  then match e_payload event with
    | POutboxEnqueued q => Some (enqueued_record tenantId (e_occurredAt event) q)
    | POutboxClaimed _ claimId => claimed_record (e_occurredAt event) claimId <$> record
    | POutboxDelivered _ claimId => delivered_record (e_occurredAt event) claimId <$> record
    | POutboxFailed _ claimId err retryAt => failed_record (e_occurredAt event) claimId err retryAt <$> record
    | _ => record
    end
  else record.

(** [foldDocumentDeliveryOutboxRecordFrom(initial, tenantId, outboxId, events)] and
    [foldDocumentDeliveryOutboxRecord]. *)
Definition foldDocumentDeliveryOutboxRecordFrom (initial : option DocumentDeliveryOutboxRecord) (tenantId outboxId : jstr)
    (events : list DomainEvent) : option DocumentDeliveryOutboxRecord :=
  foldl (fold_outbox_record_step tenantId outboxId) initial events.
Definition foldDocumentDeliveryOutboxRecord (tenantId outboxId : jstr) (events : list DomainEvent)
    : option DocumentDeliveryOutboxRecord :=
  foldDocumentDeliveryOutboxRecordFrom None tenantId outboxId events.

(** ** Selections *)

(** [documentDeliveryRetryDue(record, now)]. *)
Definition documentDeliveryRetryDue (r : DocumentDeliveryOutboxRecord) (now : jstr) : bool :=
  match dor_retryAt r with None => true | Some retryAt => jstr_leb retryAt now end.

(** By [enqueuedAt], then by [id], in the host's collation. *)
Definition outbox_leb `{Collation} (left right : DocumentDeliveryOutboxRecord) : bool :=
  if collation_leb (dor_enqueuedAt left) (dor_enqueuedAt right) then
    if collation_leb (dor_enqueuedAt right) (dor_enqueuedAt left) then collation_leb (dor_id left) (dor_id right)
    else true
  else false.

(** [sortedDocumentDeliveryOutboxRecords(state)]. *)
Definition sortedDocumentDeliveryOutboxRecords `{Collation} (state : DocumentDeliveryOutboxState)
    : list DocumentDeliveryOutboxRecord := isort outbox_leb (dos_records state).*2.

(** [selectedDocumentDeliveryOutboxRecords(state, recordIds)]. *)
Definition selectedDocumentDeliveryOutboxRecords `{Collation} (state : DocumentDeliveryOutboxState)
    (recordIds : option (list jstr)) : list DocumentDeliveryOutboxRecord :=
  match recordIds with
  | None => sortedDocumentDeliveryOutboxRecords state
  | Some ids => omap (λ id, jm_get id (dos_records state)) ids
  end.

(** ** The policy of the service *)

Definition DOCUMENT_DELIVERY_OUTBOX_DEFAULT_CLAIM_LIMIT : Z := 25.
Definition DOCUMENT_DELIVERY_OUTBOX_MAX_CLAIM_LIMIT : Z := 100.

(** [documentDeliveryOutboxPayload(event, snapshot)]: the objects of the two are the
    host's. *)
Definition documentDeliveryOutboxPayload (event : value) (snapshot : option value) : data :=
  (js "event", event) :: match snapshot with Some v => [(js "snapshot", v)] | None => [] end.

(** [documentDeliveryOutboxClaimLimit(limit)]. *)
Definition documentDeliveryOutboxClaimLimit (limit : option Z) : res Z :=
  match limit with
  | None => Ok DOCUMENT_DELIVERY_OUTBOX_DEFAULT_CLAIM_LIMIT
  | Some limit =>
      _ ← ensure ((0 <? limit)%Z && (limit <=? DOCUMENT_DELIVERY_OUTBOX_MAX_CLAIM_LIMIT)%Z) badRequest;
      Ok limit
  end.

(** [documentDeliveryOutboxRecordLookup(state, outboxId)], and [requireRecord] of the service. *)
Definition documentDeliveryOutboxRecordLookup (state : DocumentDeliveryOutboxState) (outboxId : jstr)
    : option DocumentDeliveryOutboxRecord := jm_get outboxId (dos_records state).
Definition requireOutboxRecord (state : DocumentDeliveryOutboxState) (outboxId : jstr) : res DocumentDeliveryOutboxRecord :=
  match documentDeliveryOutboxRecordLookup state outboxId with
  | Some r => Ok r
  | None => Throw (notFound DOCUMENT_NOT_FOUND)
  end.

(** The filter of [claimableDocumentDeliveryOutboxRecords]. *)
Definition outbox_claimable (now : jstr) (r : DocumentDeliveryOutboxRecord) : bool :=
  bool_decide (dor_status r = OutboxPending) ||
  bool_decide (dor_status r = OutboxFailed) && documentDeliveryRetryDue r now.

(** [claimableDocumentDeliveryOutboxRecords(state, now, limit)]; the limit is positive. *)
Definition claimableDocumentDeliveryOutboxRecords `{Collation} (state : DocumentDeliveryOutboxState) (now : jstr) (limit : Z)
    : list DocumentDeliveryOutboxRecord :=
  take (Z.to_nat limit) (isort outbox_leb (filter (λ r, outbox_claimable now r = true) (dos_records state).*2)).

(** [ensureDocumentDeliveryOutboxClaimed(record, claimId)]. *)
Definition ensureDocumentDeliveryOutboxClaimed (r : DocumentDeliveryOutboxRecord) (claimId : jstr) : res unit :=
  ensure (bool_decide (dor_status r = OutboxClaimed ∧ dor_claimId r = Some claimId)) conflict.

(** [documentDeliveryOutboxFailureError(error)]. *)
Definition documentDeliveryOutboxFailureError (err : jstr) : res jstr :=
  _ ← ensure (negb (bool_decide (trim err = []))) badRequest;
  Ok (trim err).
