(* ===== verification/AuditEvents.v ===== *)
(** * AuditEvents: the reads of a document's history and of the whole log

    Models [adapters/in-memory/audit-events.ts], and [searchEvents] and
    [readDocumentEvents] of the in-memory document store. *)

From S2P Require Export EventStore Streams.

(** [AuditEventQuery]. *)
Record AuditEventQuery := {
  aeq_tenantId : jstr;
  aeq_doctype : option jstr;
  aeq_documentName : option jstr;
  aeq_actorId : option jstr;
  aeq_payloadKinds : option (list jstr);
  aeq_since : option jstr;
  aeq_until : option jstr;
  aeq_limit : option Z
}.

(** [AuditDocumentEventQuery]; [adq_newestFirst] is an [order] of [desc]. *)
Record AuditDocumentEventQuery := {
  adq_tenantId : jstr;
  adq_doctype : jstr;
  adq_documentName : jstr;
  adq_limit : option Z;
  adq_stream : option jstr;
  adq_newestFirst : bool
}.

(** [query.limit === undefined ? events : events.slice(0, query.limit)]. *)
Definition audit_page (limit : option Z) (events : list DomainEvent) : list DomainEvent :=
  match limit with Some limit => slice_to limit events | None => events end.

(** [a === undefined || test(a)]. *)
Definition given {A} (test : A → bool) (a : option A) : bool :=
  match a with Some a => test a | None => true end.

(** The filters of [searchInMemoryAuditEvents]. *)
Definition audit_matches (query : AuditEventQuery) (event : DomainEvent) : bool :=
  bool_decide (e_tenantId event = aeq_tenantId query) &&
  given (λ doctype, bool_decide (e_doctype event = doctype)) (aeq_doctype query) &&
  given (λ name, bool_decide (e_documentName event = name)) (aeq_documentName query) &&
  given (λ actor, bool_decide (e_actorId event = actor)) (aeq_actorId query) &&
  given (λ since, jstr_leb since (e_occurredAt event)) (aeq_since query) &&
  given (λ until, jstr_leb (e_occurredAt event) until) (aeq_until query) &&
  given (λ kinds, bool_decide (domainEventPayloadKind event ∈ kinds)) (aeq_payloadKinds query).

(** [byAuditOrder]: the newest first, then by stream, then the last of a stream first. *)
Definition byAuditOrder `{Collation} (left right : DomainEvent) : bool :=
  if collation_leb (e_occurredAt right) (e_occurredAt left) then
    if collation_leb (e_occurredAt left) (e_occurredAt right) then
      if collation_leb (e_stream left) (e_stream right) then
        if collation_leb (e_stream right) (e_stream left) then (e_sequence right <=? e_sequence left)%Z else true
      else false
    else true
  else false.

(** [searchInMemoryAuditEvents(streams, query)], and [searchEvents] of the store. *)
Definition searchInMemoryAuditEvents `{Collation} (streams : streams_map) (query : AuditEventQuery) : list DomainEvent :=
  audit_page (aeq_limit query)
    (isort byAuditOrder (filter (λ event, audit_matches query event = true) (concat streams.*2))).
Definition searchEvents `{Collation} (query : AuditEventQuery) (streams : streams_map) : res (list DomainEvent) :=
  map_res cloneDomainEvent (searchInMemoryAuditEvents streams query).

(** The filter of [readInMemoryAuditDocumentEvents] inside a stream that is named. *)
Definition document_matches (query : AuditDocumentEventQuery) (event : DomainEvent) : Prop :=
  e_tenantId event = adq_tenantId query ∧ e_doctype event = adq_doctype query ∧
  e_documentName event = adq_documentName query.

#[export] Instance document_matches_dec query event : Decision (document_matches query event).
Proof. unfold document_matches. apply _. Defined.

Definition sequence_desc (left right : DomainEvent) : bool := (e_sequence right <=? e_sequence left)%Z.

(** [readInMemoryAuditDocumentEvents(streams, query)], and [readDocumentEvents] of the
    store. *)
Definition readInMemoryAuditDocumentEvents (streams : streams_map) (query : AuditDocumentEventQuery) : res (list DomainEvent) :=
  stream ← match adq_stream query with
    | Some stream => Ok stream
    | None => documentStream (adq_tenantId query) (adq_doctype query) (adq_documentName query)
    end;
  let candidates := stream_events streams stream in
  let events := match adq_stream query with
    | None => candidates
    | Some _ => filter (document_matches query) candidates
    end in
  Ok (audit_page (adq_limit query)
    (if adq_newestFirst query then isort sequence_desc events else sort_events events)).
Definition readDocumentEvents (streams : streams_map) (query : AuditDocumentEventQuery) : res (list DomainEvent) :=
  events ← readInMemoryAuditDocumentEvents streams query;
  map_res cloneDomainEvent events.

(** ** What is read of a stream that is named *)

(** A query in a stream, oldest first and without a limit. *)
Definition in_stream (tenantId doctype documentName stream : jstr) (limit : option Z) (newestFirst : bool)
    : AuditDocumentEventQuery :=
  {| adq_tenantId := tenantId; adq_doctype := doctype; adq_documentName := documentName; adq_limit := limit;
     adq_stream := Some stream; adq_newestFirst := newestFirst |}.

(** Sorting what is in the opposite order reverses it. *)
Lemma sort_insert_last {A} (leb : A → A → bool) x l : (∀ y, y ∈ l → leb x y = false) → sort_insert leb x l = l ++ [x].
Proof.
  induction l as [|y l IH]; intros Hl; [done|]. cbn. rewrite Hl by by left. f_equal. apply IH. intros z Hz. apply Hl. by right.
Qed.

Lemma isort_reverse {A} (leb : A → A → bool) l : StronglySorted (λ x y, leb x y = false) l → isort leb l = reverse l.
Proof.
  induction 1 as [|x l Hl IH Hx]; [done|]. change (isort leb (x :: l)) with (sort_insert leb x (isort leb l)).
  rewrite IH, reverse_cons. apply sort_insert_last.
  intros y Hy. rewrite elem_of_reverse in Hy. rewrite Forall_forall in Hx. by apply Hx.
Qed.

Lemma contiguous_ascending events : contiguous events → StronglySorted (λ x y : DomainEvent, sequence_desc x y = false) events.
Proof.
  intros Hc. induction events as [|e events IH] using rev_ind; [constructor|].
  apply StronglySorted_app. split_and!; [|by eapply IH, contiguous_app_inv|repeat constructor].
  intros x y [i Hi]%list_elem_of_lookup ->%list_elem_of_singleton. apply Z.leb_gt.
  rewrite (Hc i x) by by apply lookup_app_l_Some.
  rewrite (Hc (length events) e) by by rewrite lookup_app_r, Nat.sub_diag. apply lookup_lt_Some in Hi. lia.
Qed.

(** The history of a name in a stream. *)
Definition named_events (tenantId doctype documentName : jstr) (events : list DomainEvent) : list DomainEvent :=
  filter (document_matches (in_stream tenantId doctype documentName [] None false)) events.

Section reads.
Context (m : streams_map) (Hwf : wf_streams m) (tenantId doctype documentName stream : jstr).

Abbreviation named := (named_events tenantId doctype documentName (stream_events m stream)).

Lemma named_json events : (∀ e : DomainEvent, e ∈ events → e ∈ named) → map_res cloneDomainEvent events = Ok events.
Proof using Hwf.
  intros He. apply map_res_clone. intros e [_ Hin]%He%list_elem_of_filter. by apply (proj2 Hwf stream).
Qed.

(** Its first events, and its last one. *)
Lemma read_first limit :
  readDocumentEvents m (in_stream tenantId doctype documentName stream limit false) = Ok (audit_page limit named).
Proof using Hwf.
  unfold readDocumentEvents, readInMemoryAuditDocumentEvents. cbn [adq_stream in_stream mbind res_bind adq_newestFirst adq_limit].
  rewrite contiguous_sorted_filter by apply (proj2 Hwf stream). apply named_json. intros e. unfold audit_page, slice_to.
  destruct limit as [limit|]; [|done]. by destruct (_ <? _)%Z; apply elem_of_take_1.
Qed.

Lemma read_newest : readDocumentEvents m (in_stream tenantId doctype documentName stream (Some 1%Z) true) = Ok (option_list (last named)).
Proof using Hwf.
  unfold readDocumentEvents, readInMemoryAuditDocumentEvents. cbn [adq_stream in_stream mbind res_bind adq_newestFirst adq_limit].
  assert (audit_page (Some 1%Z) (isort sequence_desc named) = option_list (last named)) as E.
  { rewrite isort_reverse by by apply StronglySorted_filter, contiguous_ascending, (proj2 Hwf stream). unfold audit_page, slice_to. cbn.
    rewrite <-head_reverse. by destruct (reverse named). }
  etrans; [|apply named_json]; [by rewrite <-E|]. intros e. destruct (last named) as [x|] eqn:El; [|by intros ?%elem_of_nil].
  intros ->%list_elem_of_singleton. by apply last_Some_elem_of.
Qed.
End reads.
