(* ===== verification/OutboxService.v ===== *)
(** * OutboxService: enqueuing, claiming and completing deliveries

    Models [DocumentDeliveryOutboxService] of
    [application/document-delivery-outbox-service.ts] on the in-memory document store:
    the working set, which is read from the last checkpoint of the stream on, the
    optimistic append that is retried, and the five calls.  Other clients may act at
    each [await] ([Interference]). *)

From S2P Require Export DeliveryOutbox AuditEvents AutomationService Interference.

Definition MAX_OUTBOX_APPEND_ATTEMPTS : nat := 5.
Definition OUTBOX_DOCTYPE : jstr := js "__DocumentDeliveryOutbox".
Definition DOCUMENT_DELIVERY_OUTBOX_CHECKPOINT_CARRY_OVER_LIMIT : nat := 25.

(** The commands; the event and the snapshot of an enqueuing come with their objects. *)
Record EnqueueDocumentDeliveryOutboxCommand := {
  eoc_event : DomainEvent;
  eoc_eventObject : value;
  eoc_snapshotObject : option value;
  eoc_targets : list DocumentDeliveryOutboxTarget;
  eoc_metadata : option data
}.

Record ClaimDocumentDeliveryOutboxCommand := {
  coc_tenantId : jstr;
  coc_claimId : option jstr;
  coc_limit : option Z;
  coc_now : option jstr
}.

Record CompleteDocumentDeliveryOutboxCommand := {
  cmo_tenantId : jstr;
  cmo_outboxId : jstr;
  cmo_claimId : jstr;
  cmo_metadata : option data
}.

Record FailDocumentDeliveryOutboxCommand := {
  foc_complete : CompleteDocumentDeliveryOutboxCommand;
  foc_error : jstr;
  foc_retryAt : option jstr
}.

(** What a plan decides. *)
Record OutboxPlan := {
  opl_events : list NewDomainEvent;
  opl_recordIds : option (list jstr);
  opl_state : option DocumentDeliveryOutboxState
}.

Definition plan_events (events : list NewDomainEvent) (recordIds : list jstr) : OutboxPlan :=
  {| opl_events := events; opl_recordIds := Some recordIds; opl_state := None |}.

(** An event of the outbox. *)
Definition outbox_event (id tenantId stream documentName actorId at_ : jstr) (p : payload) (metadata : data) : NewDomainEvent :=
  {| e_id := id; e_tenantId := tenantId; e_stream := stream; e_type := documentDeliveryOutboxEventType p;
     e_doctype := OUTBOX_DOCTYPE; e_documentName := documentName; e_actorId := actorId; e_occurredAt := at_;
     e_payload := p; e_metadata := metadata |}.

Definition outbox_read_options (from : option Z) : ReadStreamOptions :=
  {| rso_minSequence := from; rso_maxSequence := None; rso_limit := None;
     rso_payloadKinds := Some DOCUMENT_DELIVERY_OUTBOX_PAYLOAD_KINDS |}.

(** The loop of [carriedOverRecords] over the histories that it read: [None] when a
    record that is carried has no event up to the checkpoint. *)
Fixpoint carried_records (tenantId : jstr) (upTo : Z) (histories : list (jstr * list DomainEvent))
    (records : list (jstr * DocumentDeliveryOutboxRecord)) : option (list (jstr * DocumentDeliveryOutboxRecord)) :=
  match histories with
  | [] => Some records
  | (outboxId, events) :: histories =>
      match foldDocumentDeliveryOutboxRecord tenantId outboxId (filter (λ event : DomainEvent, (e_sequence event <= upTo)%Z) events) with
      | None => None
      | Some atCheckpoint =>
          match foldDocumentDeliveryOutboxRecordFrom (Some atCheckpoint) tenantId outboxId
                  (filter (λ event : DomainEvent, (upTo < e_sequence event)%Z) events) with
          | Some current =>
              carried_records tenantId upTo histories
                (if bool_decide (dor_status current = OutboxDelivered) then records
                 else jm_set (dor_id atCheckpoint) atCheckpoint records)
          | None => carried_records tenantId upTo histories records
          end
      end
  end.

Section service.
Context `{Collation} (ids clock : nat → jstr) (env : nat → DocumentStore → DocumentStore).

Abbreviation Call := (M (Client DocumentStore)).

(** [this.events.readDocumentEvents({ tenantId, doctype, documentName, stream, ... })]. *)
Definition read_named (tenantId documentName stream : jstr) (limit : option Z) (newestFirst : bool) : Call (list DomainEvent) :=
  observe env (λ s, readDocumentEvents (st_streams s) (in_stream tenantId OUTBOX_DOCTYPE documentName stream limit newestFirst)).

Definition read_outbox (stream : jstr) (from : option Z) : Call (list DomainEvent) :=
  observe env (λ s, readStream (st_streams s) stream (outbox_read_options from)).

(** [lastCheckpoint(tenantId, stream)]. *)
Definition lastCheckpoint (tenantId stream : jstr) : Call (option OutboxCheckpoint) :=
  newest ← read_named tenantId DOCUMENT_DELIVERY_OUTBOX_CHECKPOINT_DOCUMENT_NAME stream (Some 1%Z) true;
  mret (match newest with [] => None | event :: _ => documentDeliveryOutboxCheckpoint event end).

(** [carriedOverRecords(tenantId, checkpoint)]. *)
Definition carriedOverRecords (tenantId : jstr) (checkpoint : OutboxCheckpoint)
    : Call (option (list (jstr * DocumentDeliveryOutboxRecord))) :=
  histories ← m_map (λ outboxId,
    stream ← m_lift (documentDeliveryOutboxStream tenantId);
    events ← read_named tenantId outboxId stream None false;
    mret (outboxId, events)) (ocp_carryOver checkpoint);
  mret (carried_records tenantId (ocp_upToSequence checkpoint) histories []).

(** [state(tenantId)]. *)
Definition outbox_state (tenantId : jstr) : Call DocumentDeliveryOutboxState :=
  stream ← m_lift (documentDeliveryOutboxStream tenantId);
  checkpoint ← lastCheckpoint tenantId stream;
  carried ← match checkpoint with
    | Some checkpoint => carriedOverRecords tenantId checkpoint
    | None => mret None
    end;
  match checkpoint, carried with
  | Some checkpoint, Some records =>
      events ← read_outbox stream (Some (ocp_upToSequence checkpoint + 1)%Z);
      mret (foldDocumentDeliveryOutboxFrom
        (Some {| dos_tenantId := tenantId; dos_version := ocp_upToSequence checkpoint; dos_records := records |}) tenantId events)
  | _, _ =>
      events ← read_outbox stream None;
      mret (foldDocumentDeliveryOutbox tenantId events)
  end.

(** The loop of [appendWithRetry]; [fuel] attempts are left. *)
Fixpoint outbox_attempts (tenantId stream : jstr) (plan : DocumentDeliveryOutboxState → nat → Call OutboxPlan)
    (fuel attempt : nat) : Call (list DocumentDeliveryOutboxRecord) :=
  match fuel with
  | 0 => m_throw plain_error
  | S fuel =>
      state ← outbox_state tenantId;
      planned ← plan state attempt;
      match opl_events planned with
      | [] => mret (selectedDocumentDeliveryOutboxRecords (default state (opl_state planned)) (opl_recordIds planned))
      | events =>
          catching (
            saved ← update env (on_streams (EventStore.append stream (dos_version state) events));
            mret (selectedDocumentDeliveryOutboxRecords (foldDocumentDeliveryOutboxFrom (Some state) tenantId saved)
              (opl_recordIds planned)))
            (λ e, if isDocumentConflictError e && (attempt <? MAX_OUTBOX_APPEND_ATTEMPTS)
                  then outbox_attempts tenantId stream plan fuel (S attempt)
                  else m_throw e)
      end
  end.

(** [appendWithRetry(tenantId, plan)]. *)
Definition appendWithRetry (tenantId : jstr) (plan : DocumentDeliveryOutboxState → nat → Call OutboxPlan)
    : Call (list DocumentDeliveryOutboxRecord) :=
  stream ← m_lift (documentDeliveryOutboxStream tenantId);
  outbox_attempts tenantId stream plan MAX_OUTBOX_APPEND_ATTEMPTS 1.

(** [record(tenantId, outboxId)]. *)
Definition outbox_record (tenantId outboxId : jstr) : Call (option DocumentDeliveryOutboxRecord) :=
  stream ← m_lift (documentDeliveryOutboxStream tenantId);
  events ← read_named tenantId outboxId stream None false;
  mret (foldDocumentDeliveryOutboxRecord tenantId outboxId events).

(** [list(tenantId)]. *)
Definition list_outbox (tenantId : jstr) : Call (list DocumentDeliveryOutboxRecord) :=
  state ← outbox_state tenantId;
  mret (sortedDocumentDeliveryOutboxRecords state).

(** ** Enqueuing *)

(** The event that enqueues a target, unless its record was enqueued before. *)
Definition enqueue_event (command : EnqueueDocumentDeliveryOutboxCommand) (enqueued : list jstr)
    (target : DocumentDeliveryOutboxTarget) : Call (option NewDomainEvent) :=
  let event := eoc_event command in
  let outboxId := documentDeliveryOutboxRecordId (e_id event) target in
  if bool_decide (outboxId ∈ enqueued) then mret None
  else
    let p := POutboxEnqueued
      {| oe_outboxId := outboxId; oe_target := target; oe_sourceEventId := e_id event; oe_sourceEventType := e_type event;
         oe_payloadKind := domainEventPayloadKind event; oe_doctype := e_doctype event;
         oe_documentName := e_documentName event; oe_actorId := e_actorId event;
         oe_payload := Some (documentDeliveryOutboxPayload (eoc_eventObject command) (eoc_snapshotObject command)) |} in
    id ← next_id ids;
    stream ← m_lift (documentDeliveryOutboxStream (e_tenantId event));
    mret (Some (outbox_event id (e_tenantId event) stream outboxId (e_actorId event) (e_occurredAt event) p
      (default [] (eoc_metadata command)))).

(** The plan of [enqueueFromDomainEvent]. *)
Definition enqueue_plan (command : EnqueueDocumentDeliveryOutboxCommand) (uniqueTargets : list DocumentDeliveryOutboxTarget)
    (state : DocumentDeliveryOutboxState) (attempt : nat) : Call OutboxPlan :=
  let tenantId := e_tenantId (eoc_event command) in
  let recordIds := documentDeliveryOutboxRecordId (e_id (eoc_event command)) <$> uniqueTargets in
  found ← m_map (λ outboxId,
    stream ← m_lift (documentDeliveryOutboxStream tenantId);
    existing ← read_named tenantId outboxId stream (Some 1%Z) false;
    mret (if bool_decide (existing = []) then None else Some outboxId)) recordIds;
  planned ← m_map (enqueue_event command (omap id found)) uniqueTargets;
  let events := omap id planned in
  mret (match events with
    | [] => {| opl_events := []; opl_recordIds := Some recordIds; opl_state := Some state |}
    | _ => plan_events events recordIds
    end).

(** [enqueueFromDomainEvent(command)]. *)
Definition enqueueFromDomainEvent (command : EnqueueDocumentDeliveryOutboxCommand) : Call (list DocumentDeliveryOutboxRecord) :=
  match eoc_targets command with
  | [] => mret []
  | targets => appendWithRetry (e_tenantId (eoc_event command)) (enqueue_plan command (js_unique targets))
  end.

(** ** Claiming *)

Definition claim_event (tenantId claimId now : jstr) (r : DocumentDeliveryOutboxRecord) : Call NewDomainEvent :=
  id ← next_id ids;
  stream ← m_lift (documentDeliveryOutboxStream tenantId);
  mret (outbox_event id tenantId stream (dor_id r) (js "system") now (POutboxClaimed (dor_id r) claimId) []).

Definition outbox_claim_plan (tenantId claimId now : jstr) (limit : Z) (state : DocumentDeliveryOutboxState) (attempt : nat)
    : Call OutboxPlan :=
  let records := claimableDocumentDeliveryOutboxRecords state now limit in
  events ← m_map (claim_event tenantId claimId now) records;
  mret (plan_events events (dor_id <$> records)).

(** [claimPending(command)]. *)
Definition outbox_claimPending (command : ClaimDocumentDeliveryOutboxCommand) : Call (list DocumentDeliveryOutboxRecord) :=
  now ← match coc_now command with Some at_ => mret at_ | None => now clock end;
  claimId ← match coc_claimId command with Some claimId => mret claimId | None => next_id ids end;
  limit ← m_lift (documentDeliveryOutboxClaimLimit (coc_limit command));
  appendWithRetry (coc_tenantId command) (outbox_claim_plan (coc_tenantId command) claimId now limit).

(** ** Completing *)

(** [plannedCheckpoint(tenantId, state, attempt)]. *)
Definition plannedCheckpoint (tenantId : jstr) (state : DocumentDeliveryOutboxState) (attempt : nat)
    : Call (list NewDomainEvent) :=
  if MAX_OUTBOX_APPEND_ATTEMPTS <=? attempt then mret []
  else if DOCUMENT_DELIVERY_OUTBOX_CHECKPOINT_CARRY_OVER_LIMIT <? length (dos_records state) then mret []
  else
    stream ← m_lift (documentDeliveryOutboxStream tenantId);
    at_ ← now clock;
    mret [outbox_event (js "evt_outbox_checkpoint_" ++ tenantId ++ js "_" ++ dec_Z (dos_version state)) tenantId stream
      DOCUMENT_DELIVERY_OUTBOX_CHECKPOINT_DOCUMENT_NAME (js "system") at_
      (POutboxCheckpointed (dos_version state) (jm_keys (dos_records state))) []].

(** The event that completes a record. *)
Definition completion_event (command : CompleteDocumentDeliveryOutboxCommand) (p : payload) : Call NewDomainEvent :=
  id ← next_id ids;
  stream ← m_lift (documentDeliveryOutboxStream (cmo_tenantId command));
  at_ ← now clock;
  mret (outbox_event id (cmo_tenantId command) stream (cmo_outboxId command) (js "system") at_ p
    (default [] (cmo_metadata command))).

(** The plan of [appendTerminalEvent]. *)
Definition outbox_delivered_plan (command : CompleteDocumentDeliveryOutboxCommand) (state : DocumentDeliveryOutboxState) (attempt : nat)
    : Call OutboxPlan :=
  match documentDeliveryOutboxRecordLookup state (cmo_outboxId command) with
  | None =>
      record ← outbox_record (cmo_tenantId command) (cmo_outboxId command);
      match record with
      | Some r =>
          if bool_decide (dor_status r = OutboxDelivered)
          then mret {| opl_events := []; opl_recordIds := Some []; opl_state := Some state |}
          else m_throw (notFound DOCUMENT_NOT_FOUND)
      | None => m_throw (notFound DOCUMENT_NOT_FOUND)
      end
  | Some existing =>
      _ ← m_lift (ensureDocumentDeliveryOutboxClaimed existing (cmo_claimId command));
      checkpoint ← plannedCheckpoint (cmo_tenantId command) state attempt;
      event ← completion_event command (POutboxDelivered (cmo_outboxId command) (cmo_claimId command));
      mret (plan_events (checkpoint ++ [event]) [cmo_outboxId command])
  end.

(** [deliveredRecord(tenantId, outboxId)]. *)
Definition deliveredRecord (tenantId outboxId : jstr) : Call (option DocumentDeliveryOutboxRecord) :=
  record ← outbox_record tenantId outboxId;
  mret (match record with
    | Some r => if bool_decide (dor_status r = OutboxDelivered) then Some r else None
    | None => None
    end).

(** [markDelivered(command)]. *)
Definition outbox_markDelivered (command : CompleteDocumentDeliveryOutboxCommand) : Call DocumentDeliveryOutboxRecord :=
  records ← appendWithRetry (cmo_tenantId command) (outbox_delivered_plan command);
  match records with
  | r :: _ => mret r
  | [] =>
      delivered ← deliveredRecord (cmo_tenantId command) (cmo_outboxId command);
      match delivered with
      | Some r => mret r
      | None =>
          state ← outbox_state (cmo_tenantId command);
          m_lift (requireOutboxRecord state (cmo_outboxId command))
      end
  end.

(** The plan of [markFailed]. *)
Definition outbox_failed_plan (command : FailDocumentDeliveryOutboxCommand) (normalizedError : jstr)
    (state : DocumentDeliveryOutboxState) (attempt : nat) : Call OutboxPlan :=
  let complete := foc_complete command in
  existing ← m_lift (requireOutboxRecord state (cmo_outboxId complete));
  _ ← m_lift (ensureDocumentDeliveryOutboxClaimed existing (cmo_claimId complete));
  event ← completion_event complete
    (POutboxFailed (cmo_outboxId complete) (cmo_claimId complete) normalizedError (foc_retryAt command));
  mret (plan_events [event] [cmo_outboxId complete]).

(** [markFailed(command)]. *)
Definition outbox_markFailed (command : FailDocumentDeliveryOutboxCommand) : Call DocumentDeliveryOutboxRecord :=
  let complete := foc_complete command in
  normalizedError ← m_lift (documentDeliveryOutboxFailureError (foc_error command));
  records ← appendWithRetry (cmo_tenantId complete) (outbox_failed_plan command normalizedError);
  match records with
  | r :: _ => mret r
  | [] =>
      state ← outbox_state (cmo_tenantId complete);
      m_lift (requireOutboxRecord state (cmo_outboxId complete))
  end.
End service.
