(* ===== verification/OutboxLife.v ===== *)
(** * OutboxLife: the life of the records of an outbox

    Specification of the stream that the records of a tenant's outbox share: when an
    event may follow those before it.  In a stream that obeys it, the working set is
    that of the records that were not delivered, as their own folds have them, and the
    working set that is read from a checkpoint on is that of the whole stream. *)

From S2P Require Export OutboxService.

Abbreviation records_map := (list (jstr * DocumentDeliveryOutboxRecord)).

Section life.
Context (t : jstr).

(** The working set and one record of a stream. *)
Definition working (events : list DomainEvent) : records_map := dos_records (foldDocumentDeliveryOutbox t events).
Abbreviation record_of := (foldDocumentDeliveryOutboxRecord t).

(** The payloads that change a record, and the others. *)
Inductive outbox_payload : payload → Prop :=
| view_enqueued q : outbox_payload (POutboxEnqueued q)
| view_claimed id claimId : outbox_payload (POutboxClaimed id claimId)
| view_delivered id claimId : outbox_payload (POutboxDelivered id claimId)
| view_failed id claimId err retryAt : outbox_payload (POutboxFailed id claimId err retryAt)
| view_other p : outbox_of p = None → outbox_payload p.

Lemma outbox_payloads p : outbox_payload p.
Proof using Type. destruct p; (by constructor) || (by apply view_other). Qed.

(** A record in flight, in a status. *)
Definition in_flight (events : list DomainEvent) (id : jstr) (P : DocumentDeliveryOutboxRecord → Prop) : Prop :=
  ∃ r, jm_get id (working events) = Some r ∧ P r.

Definition held_by (claimId : jstr) (r : DocumentDeliveryOutboxRecord) : Prop :=
  dor_status r = OutboxClaimed ∧ dor_claimId r = Some claimId.
Definition waits (r : DocumentDeliveryOutboxRecord) : Prop := dor_status r = OutboxPending ∨ dor_status r = OutboxFailed.

(** When a payload may follow, under the name of its event. *)
Definition outbox_payload_ok (prior : list DomainEvent) (name : jstr) (p : payload) : Prop :=
  match p with
  | POutboxEnqueued q => name = oe_outboxId q ∧ ∀ e : DomainEvent, e ∈ prior → outbox_of (e_payload e) ≠ Some name
  | POutboxClaimed id _ => name = id ∧ in_flight prior id waits
  | POutboxDelivered id claimId | POutboxFailed id claimId _ _ => name = id ∧ in_flight prior id (held_by claimId)
  | POutboxCheckpointed upTo carryOver => name = DOCUMENT_DELIVERY_OUTBOX_CHECKPOINT_DOCUMENT_NAME ∧
      upTo = Z.of_nat (length prior) ∧ carryOver = jm_keys (working prior)
  | _ => False
  end.

Definition outbox_step (prior : list DomainEvent) (e : NewDomainEvent) : Prop :=
  e_tenantId e = t ∧ e_doctype e = OUTBOX_DOCTYPE ∧ outbox_payload_ok prior (e_documentName e) (e_payload e).

(** The stream of an outbox. *)
Inductive outbox_life : list DomainEvent → Prop :=
| outbox_nil : outbox_life []
| outbox_snoc events (e : DomainEvent) :
    outbox_life events → outbox_step events e → e_sequence e = Z.of_nat (S (length events)) → outbox_life (events ++ [e]).

Lemma outbox_life_snoc_inv events (e : DomainEvent) :
  outbox_life (events ++ [e]) → outbox_life events ∧ outbox_step events e ∧ e_sequence e = Z.of_nat (S (length events)).
Proof using Type.
  inversion 1 as [E|events' e' Hl Hs He E].
  - by destruct events.
  - by apply app_inj_tail in E as [-> ->].
Qed.

Lemma outbox_life_prefix l1 l2 : outbox_life (l1 ++ l2) → outbox_life l1.
Proof using Type.
  induction l2 as [|e l2 IH] using rev_ind; [by rewrite app_nil_r|]. rewrite app_assoc.
  intros [Hl _]%outbox_life_snoc_inv. by apply IH.
Qed.

(** A property of the streams by induction over their events. *)
Lemma outbox_life_contiguous events : outbox_life events → contiguous events.
Proof using Type. induction 1 as [|events e Hl IH Hs He]; [done|]. by apply contiguous_snoc. Qed.

Lemma working_snoc events (e : DomainEvent) : working (events ++ [e]) = fold_outbox_records t (working events) e.
Proof using Type. unfold working, foldDocumentDeliveryOutbox, foldDocumentDeliveryOutboxFrom. cbn. by rewrite foldl_app. Qed.

Lemma record_of_snoc id events (e : DomainEvent) :
  record_of id (events ++ [e]) = fold_outbox_record_step t id (record_of id events) e.
Proof using Type. unfold foldDocumentDeliveryOutboxRecord, foldDocumentDeliveryOutboxRecordFrom. by rewrite foldl_app. Qed.

(** ** Names *)

(** The records are under their own names. *)
Definition named_records (records : records_map) : Prop := jm_wf records ∧ ∀ id r, jm_get id records = Some r → dor_id r = id.

Lemma change_named records id change :
  named_records records → (∀ r, dor_id (change r) = dor_id r) →
  change_record id change records = match jm_get id records with Some r => jm_set id (change r) records | None => records end.
Proof using Type. intros [_ Hn] Hc. unfold change_record. destruct (jm_get id records) as [r|] eqn:E; [|done]. by rewrite (Hn _ _ E). Qed.

Lemma set_named records id r : named_records records → dor_id r = id → named_records (jm_set id r records).
Proof using Type.
  intros [Hwf Hn] Hr. split; [by apply jm_wf_set|]. intros id' r'. rewrite jm_get_set.
  destruct (decide (id' = id)) as [-> |]; [by intros [= <-]|apply Hn].
Qed.

Lemma outbox_fold_named records (e : DomainEvent) : named_records records → named_records (fold_outbox_records t records e).
Proof using Type.
  intros Hn. unfold fold_outbox_records. destruct (e_payload e); try done.
  - by apply set_named.
  - rewrite change_named by done. destruct (jm_get _ _) as [r|] eqn:E; [|done]. apply set_named; [done|]. exact (proj2 Hn _ _ E).
  - destruct Hn as [Hwf Hn]. split; [by apply jm_wf_delete|]. intros id r. rewrite jm_get_delete by done.
    destruct (decide _); [done|apply Hn].
  - rewrite change_named by done. destruct (jm_get _ _) as [r|] eqn:E; [|done]. apply set_named; [done|]. exact (proj2 Hn _ _ E).
Qed.

Lemma working_named events : named_records (working events).
Proof using Type.
  induction events as [|e events IH] using rev_ind; [split; [apply jm_wf_nil|by intros ? ? [=]]|]. rewrite working_snoc. by apply outbox_fold_named.
Qed.

(** ** The two folds *)

(** A record that is not delivered. *)
Definition still_in_flight (r : DocumentDeliveryOutboxRecord) : option DocumentDeliveryOutboxRecord :=
  if bool_decide (dor_status r = OutboxDelivered) then None else Some r.

Lemma record_unseen id events :
  (∀ e : DomainEvent, e ∈ events → outbox_of (e_payload e) ≠ Some id) → record_of id events = None.
Proof using Type.
  induction events as [|e events IH] using rev_ind; intros Hn; [done|]. rewrite record_of_snoc, IH.
  - unfold fold_outbox_record_step. rewrite bool_decide_eq_false_2; [done|]. apply Hn, elem_of_app. right. by left.
  - intros e' He'. apply Hn, elem_of_app. by left.
Qed.

(** The change of the working set by an event, at a name. *)
Lemma working_get records (e : DomainEvent) id :
  named_records records →
  jm_get id (fold_outbox_records t records e) =
    if bool_decide (outbox_of (e_payload e) = Some id) then
      match e_payload e with
      | POutboxEnqueued q => Some (enqueued_record t (e_occurredAt e) q)
      | POutboxClaimed _ claimId => claimed_record (e_occurredAt e) claimId <$> jm_get id records
      | POutboxDelivered _ _ => None
      | POutboxFailed _ claimId err retryAt => failed_record (e_occurredAt e) claimId err retryAt <$> jm_get id records
      | _ => jm_get id records
      end
    else jm_get id records.
Proof using Type.
  intros Hn. unfold fold_outbox_records.
  destruct (outbox_payloads (e_payload e)) as [q|id' claimId|id' claimId|id' claimId err retryAt|p Hp]; cbn [outbox_of].
  5:{ rewrite Hp, bool_decide_eq_false_2 by done. by destruct p. }
  - rewrite jm_get_set. destruct (decide (id = _)) as [-> |Hne]; [by rewrite bool_decide_eq_true_2|].
    rewrite bool_decide_eq_false_2; [done|]. intros [= Heq]. by subst id.
  - rewrite change_named by done. destruct (decide (id = id')) as [<-|Hne].
    + rewrite bool_decide_eq_true_2 by done. destruct (jm_get id records) as [r|] eqn:E; [by rewrite jm_get_set, decide_True|done].
    + rewrite bool_decide_eq_false_2 by by intros [= ->]. destruct (jm_get id' records); [by rewrite jm_get_set, decide_False|done].
  - rewrite jm_get_delete by apply Hn. destruct (decide (id = id')) as [<-|Hne]; [by rewrite bool_decide_eq_true_2|].
    rewrite bool_decide_eq_false_2; [done|]. by intros [= ->].
  - rewrite change_named by done. destruct (decide (id = id')) as [<-|Hne].
    + rewrite bool_decide_eq_true_2 by done. destruct (jm_get id records) as [r|] eqn:E; [by rewrite jm_get_set, decide_True|done].
    + rewrite bool_decide_eq_false_2 by by intros [= ->]. destruct (jm_get id' records); [by rewrite jm_get_set, decide_False|done].
Qed.

(** The working set is that of the records that were not delivered. *)
Lemma working_records events id : outbox_life events → jm_get id (working events) = record_of id events ≫= still_in_flight.
Proof using Type.
  induction 1 as [|events e Hl IH (_ & _ & Hs) He]; [done|]. rewrite working_snoc, record_of_snoc, working_get by apply working_named.
  unfold fold_outbox_record_step. case_bool_decide as Hid; [|done].
  destruct (outbox_payloads (e_payload e)) as [q|id' claimId|id' claimId|id' claimId err retryAt|p Hp];
    cbn [outbox_of] in Hid; try done; try congruence; injection Hid as Hid; subst id'.
  - destruct Hs as (_ & r & Hr & _). rewrite Hr in IH |- *. destruct (record_of id events) as [r'|]; [|done]. cbn in IH |- *.
    unfold still_in_flight in IH |- *. case_bool_decide; [done|]. injection IH as <-. done.
  - destruct Hs as (_ & r & Hr & _). rewrite Hr in IH. by destruct (record_of id events) as [r'|].
  - destruct Hs as (_ & r & Hr & _). rewrite Hr in IH |- *. destruct (record_of id events) as [r'|]; [|done]. cbn in IH |- *.
    unfold still_in_flight in IH |- *. case_bool_decide; [done|]. injection IH as <-. done.
Qed.

(** What was delivered stays delivered. *)
Lemma delivered_stays l1 l2 id r :
  outbox_life (l1 ++ l2) → record_of id l1 = Some r → dor_status r = OutboxDelivered → record_of id (l1 ++ l2) = Some r.
Proof using Type.
  intros Hl Hr Hd. induction l2 as [|e l2 IH] using rev_ind; [by rewrite app_nil_r|].
  rewrite app_assoc in Hl |- *. apply outbox_life_snoc_inv in Hl as (Hl & (_ & _ & Hs) & _). specialize (IH Hl).
  rewrite record_of_snoc, IH. unfold fold_outbox_record_step. case_bool_decide as Hid; [|done].
  assert (jm_get id (working (l1 ++ l2)) = None) as Hnone.
  { rewrite working_records, IH by done. cbn. unfold still_in_flight. by rewrite bool_decide_eq_true_2. }
  destruct (outbox_payloads (e_payload e)) as [q|id' claimId|id' claimId|id' claimId err retryAt|p Hp];
    cbn [outbox_of] in Hid; try congruence; injection Hid as Hid; try subst id'.
  - destruct Hs as (Hname & Hs). rewrite record_unseen in IH; [done|]. by rewrite <-Hid, <-Hname.
  - destruct Hs as (_ & r' & Hr' & _). congruence.
  - destruct Hs as (_ & r' & Hr' & _). congruence.
  - destruct Hs as (_ & r' & Hr' & _). congruence.
Qed.
(** ** What is read by name *)

Lemma record_filter (P : DomainEvent → Prop) `{∀ e, Decision (P e)} id initial events :
  (∀ e : DomainEvent, e ∈ events → outbox_of (e_payload e) = Some id → P e) →
  foldDocumentDeliveryOutboxRecordFrom initial t id (filter P events) = foldDocumentDeliveryOutboxRecordFrom initial t id events.
Proof using Type.
  unfold foldDocumentDeliveryOutboxRecordFrom. revert initial. induction events as [|e events IH]; intros initial HP; [done|].
  assert (∀ e' : DomainEvent, e' ∈ events → outbox_of (e_payload e') = Some id → P e') as HP' by (intros e' He'; apply HP; by right).
  rewrite filter_cons. destruct (decide (P e)) as [|Hn]; cbn [foldl]; rewrite IH by done; [done|].
  unfold fold_outbox_record_step at 3. rewrite bool_decide_eq_false_2; [done|]. intros He. apply Hn, HP; [by left|done].
Qed.

Lemma outbox_event_named events (e : DomainEvent) id :
  outbox_life events → e ∈ events → outbox_of (e_payload e) = Some id →
  document_matches (in_stream t OUTBOX_DOCTYPE id [] None false) e.
Proof using Type.
  induction 1 as [|events e' Hl IH (Ht & Hd & Hs) He]; [by intros ?%elem_of_nil|].
  intros [Hin| ->%list_elem_of_singleton]%elem_of_app Hof; [by apply IH|]. split_and!; [done..|]. cbn [adq_documentName in_stream].
  destruct (outbox_payloads (e_payload e')) as [q|id' claimId|id' claimId|id' claimId err retryAt|p Hp]; cbn [outbox_of] in Hof;
    try congruence; injection Hof as <-; by destruct Hs.
Qed.

Lemma record_named id l1 l2 initial :
  outbox_life (l1 ++ l2) →
  foldDocumentDeliveryOutboxRecordFrom initial t id (named_events t OUTBOX_DOCTYPE id l2) =
  foldDocumentDeliveryOutboxRecordFrom initial t id l2.
Proof using Type.
  intros Hl. apply record_filter. intros e He. apply (outbox_event_named (l1 ++ l2)); [done|]. apply elem_of_app. by right.
Qed.

(** The events of a contiguous stream up to a length, and after it. *)
Lemma filter_upto (P : DomainEvent → Prop) `{∀ e, Decision (P e)} l1 l2 :
  contiguous (l1 ++ l2) →
  filter (λ event : DomainEvent, (e_sequence event <= Z.of_nat (length l1))%Z) (filter P (l1 ++ l2)) = filter P l1 ∧
  filter (λ event : DomainEvent, (Z.of_nat (length l1) < e_sequence event)%Z) (filter P (l1 ++ l2)) = filter P l2.
Proof using Type.
  intros Hc. assert (∀ e : DomainEvent, e ∈ filter P l1 → (e_sequence e <= Z.of_nat (length l1))%Z) as H1.
  { intros e [_ He]%list_elem_of_filter. apply contiguous_bound; [by eapply contiguous_app_inv|done]. }
  assert (∀ e : DomainEvent, e ∈ filter P l2 → (Z.of_nat (length l1) < e_sequence e)%Z) as H2.
  { intros e [_ [i Hi]%list_elem_of_lookup]%list_elem_of_filter.
    rewrite (Hc (length l1 + i) e); [lia|]. rewrite lookup_app_r by lia. by rewrite Nat.add_comm, Nat.add_sub. }
  rewrite !filter_app. split.
  - rewrite (filter_all _ (filter P l1)), (filter_none _ (filter P l2)), app_nil_r; [done|intros e He; specialize (H2 e He); lia|done].
  - rewrite (filter_none _ (filter P l1)), (filter_all _ (filter P l2)); [done|done|intros e He; specialize (H1 e He); lia].
Qed.

(** ** Checkpoints *)

(** A checkpoint speaks of the events before it. *)
Lemma checkpoint_at events (e : DomainEvent) checkpoint :
  outbox_life events → e ∈ events → documentDeliveryOutboxCheckpoint e = Some checkpoint →
  ∃ l1 l2, events = l1 ++ l2 ∧ ocp_upToSequence checkpoint = Z.of_nat (length l1) ∧
    ocp_carryOver checkpoint = jm_keys (working l1).
Proof using Type.
  induction 1 as [|events e' Hl IH (_ & _ & Hs) He]; [by intros ?%elem_of_nil|].
  intros [Hin| ->%list_elem_of_singleton]%elem_of_app Hc.
  - destruct (IH Hin Hc) as (l1 & l2 & -> & Hu & Hk). exists l1, (l2 ++ [e']). by rewrite app_assoc.
  - unfold documentDeliveryOutboxCheckpoint in Hc. destruct (e_payload e') eqn:Ep; try done. injection Hc as <-.
    destruct Hs as (_ & -> & ->). by exists events, [e'].
Qed.

(** The records that [D] does not drop. *)
Definition without (D : list jstr) (records : records_map) : records_map := filter (λ kv, kv.1 ∉ D) records.

Lemma without_get D records id : jm_get id (without D records) = if decide (id ∈ D) then None else jm_get id records.
Proof using Type.
  unfold without. induction records as [|[k r] records IH]; [by destruct (decide _)|]. rewrite filter_cons. cbn [fst].
  destruct (decide (k ∉ D)) as [Hk|Hk]; cbn [jm_get]; [destruct (decide (id = k)) as [-> |]|].
  - by rewrite decide_False.
  - exact IH.
  - rewrite IH. apply dec_stable in Hk. destruct (decide (id ∈ D)) as [|Hid]; [done|]. rewrite decide_False; [done|]. by intros ->.
Qed.

Lemma without_set D records id r :
  without D (jm_set id r records) = if decide (id ∈ D) then without D records else jm_set id r (without D records).
Proof using Type.
  unfold without. induction records as [|[k r'] records IH]; cbn [jm_set].
  - rewrite filter_cons, filter_nil. cbn [fst]. by destruct (decide (id ∉ D)), (decide (id ∈ D)).
  - destruct (decide (id = k)) as [<-|Hne]; rewrite !filter_cons; cbn [fst].
    + destruct (decide (id ∉ D)), (decide (id ∈ D)); try done. cbn. by rewrite decide_True.
    + rewrite IH. destruct (decide (id ∈ D)), (decide (k ∉ D)); try done. cbn. by rewrite decide_False.
Qed.

Lemma without_delete D records id :
  jm_wf records → without D (jm_delete id records) = jm_delete id (without D records).
Proof using Type.
  intros Hwf. unfold without. induction records as [|[k r] records IH]; [done|]. cbn [jm_delete].
  apply NoDup_cons in Hwf as [Hk Hwf]. rewrite filter_cons. cbn [fst]. destruct (decide (id = k)) as [<-|Hne].
  - destruct (decide (id ∉ D)); cbn [jm_delete]; [by rewrite decide_True|]. symmetry. apply jm_delete_notin.
    intros ([k r'] & -> & [_ Hin]%list_elem_of_filter)%list_elem_of_fmap. apply Hk. by apply (list_elem_of_fmap_2 fst) in Hin.
  - rewrite filter_cons. cbn [fst]. destruct (decide (k ∉ D)); [|by apply IH]. cbn [jm_delete]. rewrite decide_False by done.
    f_equal. by apply IH.
Qed.

Lemma without_fold D records (e : DomainEvent) :
  named_records records → (∀ q, e_payload e = POutboxEnqueued q → oe_outboxId q ∉ D) →
  fold_outbox_records t (without D records) e = without D (fold_outbox_records t records e).
Proof using Type.
  intros Hn Hq. unfold fold_outbox_records, change_record.
  destruct (outbox_payloads (e_payload e)) as [q|id claimId|id claimId|id claimId err retryAt|p Hp]; [| | | |by destruct p].
  - rewrite without_set, decide_False; [done|]. by apply Hq.
  - rewrite without_get. destruct (jm_get id records) as [r|] eqn:E; [|by destruct (decide _)].
    pose proof (proj2 Hn _ _ E) as <-. rewrite without_set. by destruct (decide _).
  - by rewrite without_delete by apply Hn.
  - rewrite without_get. destruct (jm_get id records) as [r|] eqn:E; [|by destruct (decide _)].
    pose proof (proj2 Hn _ _ E) as <-. rewrite without_set. by destruct (decide _).
Qed.

(** The records that are dropped before a tail of the stream are those that it drops. *)
Lemma resume_working D l1 l2 :
  outbox_life (l1 ++ l2) → (∀ id, id ∈ D → record_of id l1 ≠ None ∧ jm_get id (working (l1 ++ l2)) = None) →
  foldl (fold_outbox_records t) (without D (working l1)) l2 = working (l1 ++ l2).
Proof using Type.
  intros Hl HD. assert (foldl (fold_outbox_records t) (without D (working l1)) l2 = without D (working (l1 ++ l2))) as ->.
  { assert (∀ id, id ∈ D → record_of id l1 ≠ None) as HD1 by (intros id Hid; by apply HD). clear HD.
    induction l2 as [|e l2 IH] using rev_ind; [by rewrite app_nil_r|].
    rewrite app_assoc in Hl |- *. apply outbox_life_snoc_inv in Hl as (Hl & (_ & _ & Hs) & _).
    rewrite foldl_app, working_snoc. cbn [foldl]. rewrite (IH Hl). apply without_fold; [apply working_named|].
    intros q Hq Hin. rewrite Hq in Hs. destruct Hs as [Hname Hs]. apply (HD1 _ Hin), record_unseen.
    intros e' He'. rewrite <-Hname. apply Hs, elem_of_app. by left. }
  unfold without. apply filter_all. intros [id r] Hin Hd. cbn in Hd. destruct (HD _ Hd) as [_ Hnone].
  apply jm_get_elem in Hin; [congruence|apply working_named].
Qed.
End life.

(** ** A checkpoint never changes the working set

    The service of the outbox reads a working set from the last checkpoint of the stream,
    the histories of the records that it carries over and the events after it, each at
    another time, while others write.  What it makes of them is the fold of the whole
    stream as it was at the last of these reads. *)

(** ** The state that is resumed *)

Section resume.
Context (t : jstr).

Abbreviation record_of := (foldDocumentDeliveryOutboxRecord t).

(** What is known of a checkpoint of a stream that has grown since. *)
Definition checkpoint_known (checkpoint : OutboxCheckpoint) (events : list DomainEvent) : Prop :=
  ∃ l1, l1 `prefix_of` events ∧ ocp_upToSequence checkpoint = Z.of_nat (length l1) ∧
    ocp_carryOver checkpoint = jm_keys (working t l1).

(** What is known of a history that was read after it. *)
Definition history_known (upTo : Z) (events : list DomainEvent) (id : jstr) (history : jstr * list DomainEvent) : Prop :=
  history.1 = id ∧ ∃ l, l `prefix_of` events ∧ (upTo <= Z.of_nat (length l))%Z ∧ history.2 = named_events t OUTBOX_DOCTYPE id l.

Lemma record_stays id r events : foldDocumentDeliveryOutboxRecordFrom (Some r) t id events ≠ None.
Proof using Type.
  unfold foldDocumentDeliveryOutboxRecordFrom. revert r. induction events as [|e events IH]; intros r; [done|]. cbn [foldl].
  assert (∃ r', fold_outbox_record_step t id (Some r) e = Some r') as [r' ->]; [|apply IH].
  unfold fold_outbox_record_step. case_bool_decide; [|by exists r].
  destruct (outbox_payloads (e_payload e)) as [| | | |p Hp]; try by eexists. by destruct p; eexists.
Qed.

Lemma prefix_shorter {A} (l1 l2 l : list A) : l1 `prefix_of` l → l2 `prefix_of` l → length l1 <= length l2 → l1 `prefix_of` l2.
Proof using Type.
  intros Hp1 Hp2 Hlen. destruct (prefix_weak_total l1 l2 l Hp1 Hp2) as [|Hp]; [done|].
  by rewrite (prefix_length_eq l2 l1).
Qed.

(** One history, folded up to the checkpoint and to its end. *)
Lemma history_folds l1 events id h r :
  outbox_life t events → l1 `prefix_of` events → jm_get id (working t l1) = Some r →
  history_known (Z.of_nat (length l1)) events id (id, h) →
  foldDocumentDeliveryOutboxRecord t id (filter (λ event : DomainEvent, (e_sequence event <= Z.of_nat (length l1))%Z) h) = Some r ∧
  ∃ l current, l `prefix_of` events ∧ record_of id l = Some current ∧
    foldDocumentDeliveryOutboxRecordFrom (Some r) t id (filter (λ event : DomainEvent, (Z.of_nat (length l1) < e_sequence event)%Z) h)
    = Some current.
Proof using Type.
  intros Hl Hp1 Hr (_ & l & Hp & Hlen & Hh). cbn [snd] in Hh. subst h.
  destruct (prefix_shorter l1 l events Hp1 Hp ltac:(lia)) as [l2 ->].
  assert (outbox_life t (l1 ++ l2)) as Hl2 by (destruct Hp as [k ->]; by eapply outbox_life_prefix).
  assert (record_of id l1 = Some r) as Hrec.
  { rewrite working_records in Hr by by eapply outbox_life_prefix. destruct (record_of id l1) as [r'|]; [|done].
    cbn in Hr. unfold still_in_flight in Hr. case_bool_decide; [done|]. congruence. }
  destruct (filter_upto (document_matches (in_stream t OUTBOX_DOCTYPE id [] None false)) l1 l2
    (outbox_life_contiguous t _ Hl2)) as [E1 E2]. unfold named_events. rewrite E1, E2. split.
  - etrans; [|exact Hrec]. apply (record_named t id [] l1 None). by eapply outbox_life_prefix.
  - pose proof (record_stays id r l2) as Hsome.
    destruct (foldDocumentDeliveryOutboxRecordFrom (Some r) t id l2) as [current|] eqn:Ec; [|done].
    exists (l1 ++ l2), current. split_and!; [done| |].
    + unfold foldDocumentDeliveryOutboxRecord, foldDocumentDeliveryOutboxRecordFrom in *. by rewrite foldl_app, Hrec.
    + rewrite <-Ec. by apply (record_named t id l1 l2 (Some r)).
Qed.

Lemma without_cons_in D id r records : id ∉ jm_keys records → without (id :: D) ((id, r) :: records) = without D records.
Proof using Type.
  intros Hid. unfold without. rewrite filter_cons. cbn [fst]. destruct (decide (id ∉ id :: D)) as [Hn|_].
  - exfalso. apply Hn. by left.
  - apply filter_iff_in. intros [k r'] Hin. cbn. rewrite not_elem_of_cons. split; [naive_solver|]. intros Hk. split; [|done].
    intros ->. apply Hid. by apply (list_elem_of_fmap_2 fst) in Hin.
Qed.

Lemma carried_exact l1 events (records acc : records_map) histories :
  outbox_life t events → l1 `prefix_of` events → (∀ id r, (id, r) ∈ records → jm_get id (working t l1) = Some r) →
  NoDup (jm_keys records) → (∀ id, id ∈ jm_keys records → id ∉ jm_keys acc) →
  Forall2 (history_known (Z.of_nat (length l1)) events) (jm_keys records) histories →
  ∃ D, carried_records t (Z.of_nat (length l1)) histories acc = Some (acc ++ without D records) ∧
    ∀ id, id ∈ D → id ∈ jm_keys records ∧
      ∃ l r, l `prefix_of` events ∧ record_of id l = Some r ∧ dor_status r = OutboxDelivered.
Proof using Type.
  intros Hl Hp1. revert acc histories. induction records as [|[id r] records IH]; intros acc histories Hrec Hnd Hacc HF.
  { inversion HF; subst. exists []. split; [by rewrite app_nil_r|]. by intros ? ?%elem_of_nil. }
  inversion HF as [|? [id' h] ? histories' Hh HF' Ek]; subst. pose proof Hh as [Hid _]. cbn in Hid. subst id'.
  assert (jm_get id (working t l1) = Some r) as Hr by (apply Hrec; by left).
  assert (∀ id r, (id, r) ∈ records → jm_get id (working t l1) = Some r) as Hrec' by (intros ? ? Hin; apply Hrec; by right).
  apply NoDup_cons in Hnd as [Hnew Hnd].
  destruct (history_folds l1 events id h r Hl Hp1 Hr Hh) as (E1 & l & current & Hp & Hcur & E2). cbn [carried_records]. rewrite E1, E2.
  case_bool_decide as Hd.
  - destruct (IH acc histories' Hrec' Hnd) as (D & -> & HD); [by intros k Hk; apply Hacc; right|done|].
    exists (id :: D). rewrite without_cons_in by done. split; [done|].
    intros k [-> |Hk]%elem_of_cons; [split; [by left|by exists l, current]|]. destruct (HD k Hk). split; [by right|done].
  - rewrite (proj2 (working_named t l1) _ _ Hr).
    rewrite jm_set_new by (apply Hacc; by left).
    destruct (IH (acc ++ [(id, r)]) histories' Hrec' Hnd) as (D & -> & HD); [|done|].
    { intros k Hk. unfold jm_keys. rewrite fmap_app, not_elem_of_app. split; [apply Hacc; by right|]. intros ->%list_elem_of_singleton. done. }
    exists D. rewrite <-app_assoc. split.
    + do 2 f_equal. unfold without. rewrite filter_cons. cbn [fst]. rewrite decide_True; [done|]. intros Hin. by destruct (HD _ Hin).
    + intros k Hk. destruct (HD k Hk). split; [by right|done].
Qed.

(** The number that a fold gives a stream is its length. *)
Lemma fold_version l1 l2 :
  contiguous (l1 ++ l2) → foldl (λ version (event : DomainEvent), Z.max version (e_sequence event)) (Z.of_nat (length l1)) l2 =
  Z.of_nat (length (l1 ++ l2)).
Proof using Type.
  induction l2 as [|e l2 IH] using rev_ind; intros Hc; [by rewrite app_nil_r|]. rewrite app_assoc in Hc.
  rewrite foldl_app. cbn [foldl]. rewrite IH by by eapply contiguous_app_inv.
  rewrite (Hc (length (l1 ++ l2)) e) by by rewrite lookup_app_r, Nat.sub_diag. rewrite !length_app. cbn. lia.
Qed.

Lemma outbox_kind events (e : DomainEvent) :
  outbox_life t events → e ∈ events → domainEventPayloadKind e ∈ DOCUMENT_DELIVERY_OUTBOX_PAYLOAD_KINDS.
Proof using Type.
  induction 1 as [|events e' Hl IH (_ & _ & Hs) He]; [by intros ?%elem_of_nil|].
  intros [Hin| ->%list_elem_of_singleton]%elem_of_app; [by apply IH|]. unfold domainEventPayloadKind.
  destruct (e_payload e'); try done; by apply (bool_decide_unpack _).
Qed.

(** The reads of the whole stream, and of its tail. *)
Lemma read_all events : outbox_life t events → selected (outbox_read_options None) events = events.
Proof using Type.
  intros Hl. apply filter_all. intros e He. unfold read_matches. cbn. apply bool_decide_eq_true_2. by apply (outbox_kind events).
Qed.

Lemma read_tail l1 l2 :
  outbox_life t (l1 ++ l2) → selected (outbox_read_options (Some (Z.of_nat (length l1) + 1)%Z)) (l1 ++ l2) = l2.
Proof using Type.
  intros Hl. destruct (filter_upto (λ _, True) l1 l2 (outbox_life_contiguous t _ Hl)) as [_ E].
  rewrite !(filter_all (λ _ : DomainEvent, True)) in E by done. etrans; [|exact E]. apply filter_iff_in. intros e He.
  unfold read_matches. cbn [rso_minSequence rso_maxSequence rso_payloadKinds outbox_read_options].
  rewrite (bool_decide_eq_true_2 _ (outbox_kind _ _ Hl He)), andb_true_r, andb_true_r, Z.leb_le. lia.
Qed.

(** The state that is read from a checkpoint on is that of the whole stream. *)
Lemma resumed_state checkpoint histories events :
  outbox_life t events → checkpoint_known checkpoint events →
  Forall2 (history_known (ocp_upToSequence checkpoint) events) (ocp_carryOver checkpoint) histories →
  ∃ records, carried_records t (ocp_upToSequence checkpoint) histories [] = Some records ∧
    foldDocumentDeliveryOutboxFrom
      (Some {| dos_tenantId := t; dos_version := ocp_upToSequence checkpoint; dos_records := records |}) t
      (selected (outbox_read_options (Some (ocp_upToSequence checkpoint + 1)%Z)) events) =
    foldDocumentDeliveryOutbox t events.
Proof using Type.
  intros Hl (l1 & Hp1 & Hu & Hk) HF. rewrite Hu, Hk in *.
  destruct (carried_exact l1 events (working t l1) [] histories Hl Hp1) as (D & E & HD); [|apply working_named|by intros ? _ ?%elem_of_nil|done|].
  { intros id r Hin. apply jm_get_elem; [apply working_named|done]. }
  exists (without D (working t l1)). split; [done|]. destruct Hp1 as [l2 ->]. rewrite read_tail by done.
  pose proof (outbox_life_contiguous t _ Hl) as Hc. unfold foldDocumentDeliveryOutbox, foldDocumentDeliveryOutboxFrom.
  f_equal; [etrans; [by apply fold_version|symmetry; by apply (fold_version [] (l1 ++ l2))]|]. apply resume_working; [done|].
  intros id Hid. destruct (HD id Hid) as (Hin & l & r & Hp & Hr & Hd). split.
  - intros Hnone. apply list_elem_of_fmap in Hin as ([k r'] & -> & Hin). apply jm_get_elem in Hin; [|apply working_named].
    rewrite working_records in Hin by by eapply outbox_life_prefix. cbn in Hnone. by rewrite Hnone in Hin.
  - destruct Hp as [l3 E3]. rewrite working_records by done. rewrite E3 in Hl |- *. rewrite (delivered_stays t l l3 id r) by done.
    cbn. unfold still_in_flight. by rewrite bool_decide_eq_true_2.
Qed.
End resume.
