(* ===== verification/OutboxCalls.v ===== *)
(** * OutboxCalls: what the calls of the outbox service keep

    Every call of the service keeps the stream of each tenant a life of its records, for
    it appends to the stream that it read, and the working set that it read is the whole
    stream's ([OutboxLife]).  So a record is enqueued once, held by one claim at a
    time and delivered once, whatever other clients do at each [await]. *)

From S2P Require Export OutboxLife.

Section learnt.
Context {S : Type} (grows : S → S → Prop) (inv : S → Prop).

Lemma once_learn (K L : S → Prop) s : once grows inv K s → (∀ s0, inv s0 → K s0 → L s0) → once grows inv L s.
Proof. intros (s0 & Hi & Hg & HK) HL. exists s0. split_and!; [done..|by apply HL]. Qed.

#[export] Instance stable_Forall2 {A B} (P : A → B → S → Prop) xs ys :
  (∀ x y, Stable grows inv (P x y)) → Stable grows inv (λ s, Forall2 (λ x y, P x y s) xs ys).
Proof. intros HP s s' Hi Hg HF. eapply Forall2_impl; [exact HF|]. intros x y Hxy. by eapply HP. Qed.

(** What is known of some value is known of one. *)
Lemma runs_exists {A B} (K : B → S → Prop) (m : M (Client S) A) Q :
  (∀ b, runs grows inv (K b) m Q) → runs grows inv (λ s, ∃ b, K b s) m Q.
Proof. intros Hm c Hi [b Hb]. by apply (Hm b c). Qed.
End learnt.

Section calls.
Context `{Collation} (ids clock : nat → jstr) (env : nat → DocumentStore → DocumentStore).

(** ** The invariant *)

Definition outbox_lives (s : DocumentStore) : Prop :=
  wf_streams (st_streams s) ∧
  ∀ t stream, documentDeliveryOutboxStream t = Ok stream → outbox_life t (stream_events (st_streams s) stream).

Context `{Henv : !Lawful env extends outbox_lives}.

Abbreviation Known K := (Stable extends outbox_lives K).
Abbreviation Runs K m Q := (runs extends outbox_lives K m Q).
Abbreviation Once K := (once extends outbox_lives K).

Section tenant.
Context (t stream : jstr) (Hstream : documentDeliveryOutboxStream t = Ok stream).

Abbreviation events s := (stream_events (st_streams s) stream).

Lemma lives_at s : outbox_lives s → outbox_life t (events s).
Proof using Hstream. intros [_ Hl]. by apply Hl. Qed.

#[local] Instance prefix_stable l : Known (λ s, l `prefix_of` events s).
Proof using Type. intros s s' _ Hx Hl. etrans; [done|apply Hx]. Qed.

#[local] Instance checkpoint_stable checkpoint : Known (λ s, checkpoint_known t checkpoint (events s)).
Proof using Type. intros s s' _ Hx (l1 & Hp & Hc). exists l1. split; [etrans; [done|apply Hx]|done]. Qed.

#[local] Instance history_stable upTo id history : Known (λ s, history_known t upTo (events s) id history).
Proof using Type. intros s s' _ Hx (Hid & l & Hp & Hl). split; [done|]. exists l. split; [etrans; [done|apply Hx]|done]. Qed.

#[local] Instance histories_stable checkpoint carried : Known (λ s, ∃ histories,
  Forall2 (history_known t (ocp_upToSequence checkpoint) (events s)) (ocp_carryOver checkpoint) histories ∧
  carried = carried_records t (ocp_upToSequence checkpoint) histories []).
Proof using Type.
  apply _.
Qed.

(** ** Reads *)

Lemma runs_read_named (K : DocumentStore → Prop) name : Known K →
  Runs K (read_named env t name stream None false) (λ evs, Once (λ s, K s ∧ evs = named_events t OUTBOX_DOCTYPE name (events s))).
Proof using Henv.
  intros HK. eapply runs_mono; [call runs_observed|done|]. intros evs s _ Ho. eapply once_learn; [exact Ho|].
  intros s0 [Hwf _] [HKs E]. split; [done|]. rewrite (read_first _ Hwf) in E. cbn [audit_page] in E. congruence.
Qed.

Lemma runs_checkpoint (K : DocumentStore → Prop) : Known K →
  Runs K (lastCheckpoint env t stream) (λ checkpoint s, ∀ c, checkpoint = Some c → checkpoint_known t c (events s)).
Proof using Henv Hstream.
  intros HK. unfold lastCheckpoint. call runs_bind; [call runs_observed|]. intros newest. apply runs_ret; [apply _|].
  intros s _ (_ & s0 & Hi0 & Hx & _ & E) c. rewrite (read_newest _ (proj1 Hi0)) in E. injection E as <-.
  destruct (last _) as [e|] eqn:El; [|done]. cbn [option_list]. intros Hc.
  apply last_Some_elem_of in El. apply list_elem_of_filter in El as [_ He].
  destruct (checkpoint_at t _ e c (lives_at s0 Hi0) He Hc) as (l1 & l2 & E & Hu & Hk). exists l1. split_and!; [|done..].
  etrans; [|apply Hx]. rewrite E. by exists l2.
Qed.

Lemma runs_carried (K : DocumentStore → Prop) checkpoint : Known K →
  Runs (λ s, K s ∧ checkpoint_known t checkpoint (events s)) (carriedOverRecords env t checkpoint)
    (λ carried s, ∃ histories,
      Forall2 (history_known t (ocp_upToSequence checkpoint) (events s)) (ocp_carryOver checkpoint) histories ∧
      carried = carried_records t (ocp_upToSequence checkpoint) histories []).
Proof using Henv Hstream.
  intros HK. unfold carriedOverRecords. call runs_bind.
  - eapply (runs_map _ _ _ _ (λ id history s, history_known t (ocp_upToSequence checkpoint) (events s) id history)); [apply _..|].
    intros id _. call runs_lift_bind. intros stream' E. rewrite Hstream in E. injection E as <-.
    call runs_bind; [apply runs_read_named; apply _|]. intros evs. apply runs_ret; [apply _|].
    intros s _ (_ & s0 & Hi0 & Hx & (_ & l1 & Hp & Hu & _) & ->). split; [done|]. exists (events s0). split_and!; [apply Hx| |done].
    rewrite Hu. apply prefix_length in Hp. lia.
  - intros histories. apply runs_ret; [apply _|]. intros s _ [_ Hh]. by exists histories.
Qed.

(** ** The working set *)

Lemma runs_state (K : DocumentStore → Prop) : Known K →
  Runs K (outbox_state env t) (λ state s, Once (λ s0, K s0 ∧ state = foldDocumentDeliveryOutbox t (events s0)) s).
Proof using Henv Hstream.
  intros HK. unfold outbox_state. call runs_lift_bind. intros stream' E. rewrite Hstream in E. injection E as <-.
  assert (∀ K' : DocumentStore → Prop, Known K' → (∀ s, K' s → K s) →
    Runs K' (evs ← read_outbox env stream None; mret (foldDocumentDeliveryOutbox t evs))
      (λ state s, Once (λ s0, K s0 ∧ state = foldDocumentDeliveryOutbox t (events s0)) s)) as Hall.
  { intros K' HK' HKK. call runs_bind; [call runs_observed|]. intros evs. apply runs_ret; [apply _|]. intros s _ [_ Ho].
    eapply once_learn; [exact Ho|]. intros s0 Hi0 [HKs E]. rewrite (readStream_selected _ _ (outbox_read_options None) (proj1 Hi0) eq_refl) in E.
    injection E as <-. split; [by apply HKK|]. by rewrite (read_all t _ (lives_at s0 Hi0)). }
  call runs_bind; [by apply runs_checkpoint|]. intros [checkpoint|].
  2: { call runs_keeps. intros carried. apply Hall; [apply _|by intros s [? _]]. }
  call runs_bind.
  { eapply runs_mono; [by apply (runs_carried K checkpoint)| |by intros carried s _ Hc; exact Hc].
    intros s _ [HKs Hc]. split; [done|by apply Hc]. }
  intros [records|]; [|apply Hall; [apply _|by intros s [[? _] _]]].
  call runs_bind; [call runs_observed|]. intros evs. apply runs_ret; [apply _|]. intros s _ [_ Ho].
  eapply once_learn; [exact Ho|]. intros s0 Hi0 [[[HKs Hc] (histories & HF & Hr)] E]. split; [done|].
  rewrite (readStream_selected _ _ (outbox_read_options (Some _)) (proj1 Hi0) eq_refl) in E. injection E as <-.
  destruct (resumed_state t checkpoint histories (events s0) (lives_at s0 Hi0) (Hc _ eq_refl) HF) as (records' & Hr' & <-).
  rewrite Hr' in Hr. by injection Hr as ->.
Qed.
(** ** The append *)

Lemma fold_resumed l saved :
  foldDocumentDeliveryOutboxFrom (Some (foldDocumentDeliveryOutbox t l)) t saved = foldDocumentDeliveryOutbox t (l ++ saved).
Proof using Type. unfold foldDocumentDeliveryOutbox, foldDocumentDeliveryOutboxFrom. cbn. by rewrite !foldl_app. Qed.

(** The events that a plan may append to a stream. *)
Definition may_append (l : list DomainEvent) (news : list NewDomainEvent) : Prop :=
  (∀ event, event ∈ news → e_stream event = stream) ∧
  ∀ saved, e_new <$> saved = news → contiguous (l ++ saved) → outbox_life t (l ++ saved).

(** An append to the stream that was read. *)
Lemma append_lives l news s r m' :
  outbox_lives s → l `prefix_of` events s → may_append l news →
  EventStore.append stream (Z.of_nat (length l)) news (st_streams s) = (r, m') →
  let s' := with_streams (λ _, m') s in
  outbox_lives s' ∧ extends s s' ∧
  ∀ saved, r = Ok saved → e_new <$> saved = news ∧ events s' = l ++ saved ∧ contiguous (l ++ saved).
Proof using Hstream.
  intros [Hwf Hl] Hp [Hnews Hlife] Happ. destruct (append_step _ _ _ _ _ _ Hwf Hnews Happ) as [Hwf' Hx].
  rewrite append_eq in Happ. cbv zeta.
  assert (with_streams (λ _, st_streams s) s = s) as Hsame by by destruct s.
  destruct (Z.eqb_spec (Z.of_nat (length (events s))) (Z.of_nat (length l))) as [Hlen|];
    [|injection Happ as <- <-; rewrite Hsame; by split_and!].
  destruct (sequenceEvents (Z.of_nat (length l)) news) as [saved|e] eqn:Hsq; injection Happ as <- <-; [|rewrite Hsame; by split_and!].
  assert (events s = l) as El by (symmetry; apply prefix_length_eq; [done|lia]). rewrite El in *.
  apply sequenceEvents_sequenced in Hsq. pose proof (proj1 Hsq) as Hnew.
  assert (stream_events (st_streams (with_streams (λ _, jm_set stream (l ++ saved) (st_streams s)) s)) stream = l ++ saved) as Hev.
  { unfold with_streams. cbn [st_streams]. by rewrite stream_events_set, decide_True. }
  assert (contiguous (l ++ saved)) as Hc by (rewrite <-Hev; apply Hwf').
  split_and!; [split; [done|]|done|by intros ? [= <-]].
  intros t' stream' E. destruct (decide (stream' = stream)) as [-> |Hne].
  - destruct (documentStream_same _ _ _ _ _ _ _ E Hstream) as [-> _]. rewrite Hev. by apply Hlife.
  - unfold with_streams. cbn [st_streams]. rewrite stream_events_set, decide_False by done. by apply Hl.
Qed.

(** What a plan promises of the records that the append returns. *)
Definition plan_promises (l : list DomainEvent) (Q : list DocumentDeliveryOutboxRecord → DocumentStore → Prop)
    (planned : OutboxPlan) (s : DocumentStore) : Prop :=
  may_append l (opl_events planned) ∧
  (opl_events planned = [] →
    Q (selectedDocumentDeliveryOutboxRecords (default (foldDocumentDeliveryOutbox t l) (opl_state planned)) (opl_recordIds planned)) s) ∧
  (∀ saved s', e_new <$> saved = opl_events planned → outbox_lives s' → extends s s' → events s' = l ++ saved →
    Q (selectedDocumentDeliveryOutboxRecords (foldDocumentDeliveryOutbox t (l ++ saved)) (opl_recordIds planned)) s').

Lemma promises_stable l Q planned : (∀ rs, Known (Q rs)) → Known (λ s, plan_promises l Q planned s).
Proof using Type.
  intros HQ s s' Hi Hx (Hm & Hn & Ha). split_and!; [done|intros Hnil; eapply HQ; [done..|by apply Hn]|].
  intros saved s'' E Hi' Hx'. apply Ha; [done..|]. by etrans.
Qed.

Lemma runs_attempts (K : DocumentStore → Prop) Q plan fuel attempt : Known K → (∀ rs, Known (Q rs)) →
  (∀ l n, outbox_life t l →
    Runs (λ s, K s ∧ l `prefix_of` events s) (plan (foldDocumentDeliveryOutbox t l) n) (plan_promises l Q)) →
  Runs K (outbox_attempts env t stream plan fuel attempt) Q.
Proof using Henv Hstream.
  intros HK HQ Hplan. revert attempt.
  induction fuel as [|fuel IH]; intros attempt; [by apply runs_throw; apply _|].
  cbn [outbox_attempts]. call runs_bind; [by apply runs_state|]. intros state.
  apply (runs_mono _ _ _ (λ s, ∃ l, (K s ∧ l `prefix_of` events s) ∧ (outbox_life t l ∧ state = foldDocumentDeliveryOutbox t l)) _ Q Q);
    [|intros s _ [HKs (s0 & Hi0 & Hx & _ & E)]; exists (events s0); split_and!; [done|apply Hx|by apply lives_at|done]|done].
  apply runs_exists. intros l. apply runs_pure. intros [Hl ->].
  eapply runs_bind; [apply _|apply _|by apply Hplan|]. intros planned.
  assert (Known (plan_promises l Q planned)) as Hs by by apply promises_stable.
  destruct (opl_events planned) as [|event news] eqn:Ev.
  { apply runs_ret; [apply _|]. intros s _ [_ (_ & Hq & _)]. by apply Hq. }
  apply runs_catching; [apply _|apply _| |].
  2:{ intros e. destruct (_ && _); [|by apply runs_throw; apply _]. eapply runs_mono; [apply IH|by intros s _ [[? _] _]|done]. }
  eapply (runs_bind _ _ _ _ _ (λ saved s, Q (selectedDocumentDeliveryOutboxRecords
    (foldDocumentDeliveryOutboxFrom (Some (foldDocumentDeliveryOutbox t l)) t saved) (opl_recordIds planned)) s)).
  - apply _.
  - call runs_update. intros s Hi [[_ Hp] (Hmay & _ & Hafter)].
    unfold on_streams. replace (dos_version (foldDocumentDeliveryOutbox t l)) with (Z.of_nat (length l))
      by (symmetry; apply (fold_version [] l), outbox_life_contiguous with t; done).
    destruct (EventStore.append _ _ _ _) as [r m'] eqn:Happ. rewrite <-Ev in Happ.
    destruct (append_lives _ _ _ _ _ Hi Hp Hmay Happ) as (Hi' & Hx & Hr). split_and!; [done..|].
    intros saved E. destruct (Hr saved E) as (Hnew & Hev & Hc). rewrite fold_resumed. by apply Hafter.
  - intros saved. apply runs_ret; [apply _|]. by intros s _ [_ Hq].
Qed.

Lemma runs_append (K : DocumentStore → Prop) Q plan : Known K → (∀ rs, Known (Q rs)) →
  (∀ l n, outbox_life t l →
    Runs (λ s, K s ∧ l `prefix_of` events s) (plan (foldDocumentDeliveryOutbox t l) n) (plan_promises l Q)) →
  Runs K (appendWithRetry env t plan) Q.
Proof using Henv Hstream.
  intros HK HQ Hplan. unfold appendWithRetry. call runs_lift_bind. intros stream' E. rewrite Hstream in E. injection E as <-.
  by apply runs_attempts.
Qed.
End tenant.
End calls.

(** ** What the plans of the outbox service append

    The events of each plan follow the life of the records ([OutboxLife]): an enqueuing
    is of a record that has no history, a claim of a record that waits, a completion of a
    record that the claim holds, and a checkpoint tells the working set before it. *)

Section rules.
Context (t stream : jstr).

Abbreviation record_of := (foldDocumentDeliveryOutboxRecord t).

(** ** Events that follow one another *)

Lemma may_append_nil l : outbox_life t l → may_append t stream l [].
Proof using Type.
  intros Hl. split; [by intros ? ?%elem_of_nil|]. intros saved E%fmap_nil_inv _. by rewrite E, app_nil_r.
Qed.

Lemma may_append_snoc l news event :
  may_append t stream l news → e_stream event = stream →
  (∀ saved, e_new <$> saved = news → outbox_life t (l ++ saved) → outbox_step t (l ++ saved) event) →
  may_append t stream l (news ++ [event]).
Proof using Type.
  intros [Hs Hlife] He Hstep. split; [intros e [?| ->%list_elem_of_singleton]%elem_of_app; [by apply Hs|done]|].
  intros saved E Hc. apply fmap_app_inv in E as (saved1 & last1 & Hnews & Hlast & ->). destruct last1 as [|e [|]]; try done.
  injection Hlast as Hlast. rewrite app_assoc in Hc |- *.
  assert (outbox_life t (l ++ saved1)) as Hl1 by (apply Hlife; [done|by eapply contiguous_app_inv]).
  apply outbox_snoc; [done|rewrite <-Hlast; by apply Hstep|]. apply (Hc (length (l ++ saved1))). by rewrite lookup_app_r, Nat.sub_diag.
Qed.

Lemma may_append_one l event :
  outbox_life t l → e_stream event = stream → outbox_step t l event → may_append t stream l [event].
Proof using Type.
  intros Hl He Hstep. apply (may_append_snoc l []); [by apply may_append_nil|done|]. intros saved E%fmap_nil_inv _. by rewrite E, app_nil_r.
Qed.

(** An event changes no other record. *)
Lemma working_other l saved id :
  (∀ e : DomainEvent, e ∈ saved → outbox_of (e_payload e) ≠ Some id) →
  jm_get id (working t (l ++ saved)) = jm_get id (working t l).
Proof using Type.
  induction saved as [|e saved IH] using rev_ind; intros Hn; [by rewrite app_nil_r|].
  rewrite app_assoc, working_snoc, working_get by apply working_named.
  rewrite bool_decide_eq_false_2 by (apply Hn, elem_of_app; right; by left). apply IH. intros e' He'. apply Hn, elem_of_app. by left.
Qed.

(** The events that were saved are those of the plan. *)
Lemma saved_planned (saved : list DomainEvent) news e : e_new <$> saved = news → e ∈ saved → e_new e ∈ news.
Proof using Type. intros <- He. by apply list_elem_of_fmap_2. Qed.

(** One event each for records that are all different. *)
Lemma may_append_each {A} (key : A → jstr) (event : A → NewDomainEvent → Prop) l xs news :
  outbox_life t l → NoDup (key <$> xs) → Forall2 event xs news →
  (∀ x e, event x e → outbox_of (e_payload e) = Some (key x) ∧ e_stream e = stream) →
  (∀ x e saved, x ∈ xs → event x e → (∀ e' : DomainEvent, e' ∈ saved → outbox_of (e_payload e') ≠ Some (key x)) →
    outbox_step t (l ++ saved) e) →
  may_append t stream l news.
Proof using Type.
  intros Hl Hnd HF Hev. revert news HF. induction xs as [|x xs IH] using rev_ind; intros news HF Hstep.
  { inversion HF; subst. by apply may_append_nil. }
  apply Forall2_app_inv_l in HF as (news1 & last1 & HF & Hlast & ->). inversion Hlast as [|? e ? ? He Hnil]; subst.
  inversion Hnil; subst. rewrite fmap_app in Hnd. apply NoDup_app in Hnd as (Hnd & Hdis & _).
  apply may_append_snoc; [apply IH; [done|done|]|by apply (Hev x)|].
  { intros y e' saved Hy. apply Hstep, elem_of_app. by left. }
  intros saved Hs _. apply (Hstep x); [apply elem_of_app; right; by left|done|]. intros e' He' Hof.
  apply (saved_planned _ _ _ Hs) in He'. destruct (list_elem_of_lookup_1 _ _ He') as [i Hi].
  destruct (Forall2_lookup_r _ _ _ _ _ HF Hi) as (y & Hy & Hye). destruct (Hev y _ Hye) as [Hof' _].
  apply (Hdis (key y)); [apply list_elem_of_fmap_2; by eapply list_elem_of_lookup_2|].
  assert (key y = key x) as -> by congruence. by left.
Qed.

(** ** The histories of records *)

Lemma record_seen l (e : DomainEvent) id :
  outbox_life t l → e ∈ l → outbox_of (e_payload e) = Some id → record_of id l ≠ None.
Proof using Type.
  induction 1 as [|l e' Hl IH (_ & _ & Hs) _]; [by intros ?%elem_of_nil|]. intros Hin Hof.
  rewrite record_of_snoc. unfold fold_outbox_record_step. apply elem_of_app in Hin as [Hin| ->%list_elem_of_singleton].
  - specialize (IH Hin Hof). destruct (record_of id l) as [r|]; [|done]. case_bool_decide; [|done].
    by destruct (e_payload e').
  - rewrite bool_decide_eq_true_2 by done.
    destruct (outbox_payloads (e_payload e')) as [q|id' c|id' c|id' c err ra|p Hp]; cbn [outbox_of] in Hof; try congruence;
      injection Hof as <-; destruct Hs as (_ & r & Hr & _); rewrite working_records in Hr by done; by destruct (record_of id' l).
Qed.

Lemma record_kept id l1 l2 : record_of id l1 ≠ None → record_of id (l1 ++ l2) ≠ None.
Proof using Type.
  intros Hr. unfold foldDocumentDeliveryOutboxRecord, foldDocumentDeliveryOutboxRecordFrom in *. rewrite foldl_app.
  destruct (foldl _ None l1) as [r|]; [|done]. apply (record_stays t id r l2).
Qed.

(** An enqueuing makes its record. *)
Lemma record_enqueued l (e : DomainEvent) q : outbox_life t l → e ∈ l → e_payload e = POutboxEnqueued q → record_of (oe_outboxId q) l ≠ None.
Proof using Type. intros Hl He Hp. apply (record_seen l e); [done|done|]. by rewrite Hp. Qed.

(** The working set knows the record. *)
Lemma in_working id l r :
  outbox_life t l → jm_get id (working t l) = Some r → record_of id l = Some r ∧ dor_status r ≠ OutboxDelivered ∧ dor_id r = id.
Proof using Type.
  intros Hl Hr. pose proof (proj2 (working_named t l) _ _ Hr) as Hid. rewrite working_records in Hr by done.
  destruct (record_of id l) as [r'|]; [|done]. cbn in Hr. unfold still_in_flight in Hr. case_bool_decide; [done|]. by injection Hr as <-.
Qed.

Lemma in_working_set l r :
  outbox_life t l → r ∈ (working t l).*2 ↔ dor_status r ≠ OutboxDelivered ∧ record_of (dor_id r) l = Some r.
Proof using Type.
  intros Hl. rewrite list_elem_of_fmap. split.
  - intros ([id r'] & -> & Hin). apply jm_get_elem in Hin; [|apply working_named]. cbn. by apply in_working in Hin as (Hr & ? & ->).
  - intros [Hd Hr]. exists (dor_id r, r). split; [done|]. apply jm_get_elem; [apply working_named|].
    rewrite working_records, Hr by done. cbn. unfold still_in_flight. by rewrite bool_decide_eq_false_2.
Qed.
End rules.
