(* ===== verification/OutboxPlans.v ===== *)
(** * OutboxPlans: the plans of the outbox service, and what their calls promise

    Each plan of [OutboxService] may append what it plans ([OutboxCalls]), and the call
    that retries it keeps the outboxes of all tenants: an enqueuing leaves a record for
    each of its targets, a claim holds what it returns, and a completion that returns
    has delivered. *)

From S2P Require Export OutboxCalls.

Section plans.
Context `{Collation} (ids clock : nat → jstr) (env : nat → DocumentStore → DocumentStore).
Context `{Henv : !Lawful env extends outbox_lives}.

Abbreviation Known K := (Stable extends outbox_lives K).
Abbreviation Runs K m Q := (runs extends outbox_lives K m Q).
Abbreviation Once K := (once extends outbox_lives K).

Section tenant.
Context (t stream : jstr) (Hstream : documentDeliveryOutboxStream t = Ok stream).

Abbreviation events s := (stream_events (st_streams s) stream).
Abbreviation record_of := (foldDocumentDeliveryOutboxRecord t).
Abbreviation state_of l := (foldDocumentDeliveryOutbox t l).

#[local] Existing Instance prefix_stable.

(** An event of the outbox in its stream, with a payload. *)
Definition outbox_event_of (name : jstr) (p : payload) (e : NewDomainEvent) : Prop :=
  e_tenantId e = t ∧ e_doctype e = OUTBOX_DOCTYPE ∧ e_documentName e = name ∧ e_payload e = p ∧ e_stream e = stream.

Lemma event_step name p l e : outbox_event_of name p e → outbox_payload_ok t l name p → outbox_step t l e.
Proof using Type. intros (Ht & Hd & <- & <- & _) Hp. by split_and!. Qed.

(** ** Claims *)

Lemma working_ids l : dor_id <$> (dos_records (state_of l)).*2 = jm_keys (working t l).
Proof using Type.
  change (dos_records (state_of l)) with (working t l). destruct (working_named t l) as [Hwf Hn]. rewrite <-list_fmap_compose.
  apply list_fmap_ext. intros i [id r] Hi. cbn. apply Hn, jm_get_elem; [done|]. by eapply list_elem_of_lookup_2.
Qed.

Lemma claimable_waits l now limit r :
  r ∈ claimableDocumentDeliveryOutboxRecords (state_of l) now limit → jm_get (dor_id r) (working t l) = Some r ∧ waits r.
Proof using Type.
  unfold claimableDocumentDeliveryOutboxRecords.
  intros [Hc Hr]%elem_of_take_1%elem_of_isort%list_elem_of_filter.
  apply list_elem_of_fmap in Hr as ([id r'] & Heq & Hr). cbn in Heq. subst r'. destruct (working_named t l) as [Hwf Hn].
  apply jm_get_elem in Hr; [|done]. rewrite (Hn _ _ Hr). split; [done|]. unfold outbox_claimable in Hc. unfold waits.
  destruct (dor_status r); naive_solver.
Qed.

Lemma claimable_distinct l now limit : NoDup (dor_id <$> claimableDocumentDeliveryOutboxRecords (state_of l) now limit).
Proof using Type.
  unfold claimableDocumentDeliveryOutboxRecords. eapply sublist_NoDup; [|apply fmap_sublist, sublist_take]. rewrite isort_perm.
  eapply sublist_NoDup; [|apply fmap_sublist, sublist_filter]. rewrite working_ids. apply working_named.
Qed.

(** The event of a claim. *)
Definition claim_of (claimId : jstr) (r : DocumentDeliveryOutboxRecord) (e : NewDomainEvent) : Prop :=
  outbox_event_of (dor_id r) (POutboxClaimed (dor_id r) claimId) e.

Lemma runs_claim_event (K : DocumentStore → Prop) claimId at_ r : Known K →
  Runs K (claim_event ids t claimId at_ r) (λ e _, claim_of claimId r e).
Proof using Henv Hstream.
  intros HK. unfold claim_event. call runs_keeps. intros id. call runs_lift_bind. intros stream' E. rewrite Hstream in E.
  injection E as <-. apply runs_ret; [apply _|]. done.
Qed.

(** What the events of a claim leave. *)
Lemma held_after l (saved : list DomainEvent) claimId id r :
  (∀ e : DomainEvent, e ∈ saved → ∃ id, e_payload e = POutboxClaimed id claimId) →
  (∃ e : DomainEvent, e ∈ saved ∧ outbox_of (e_payload e) = Some id) →
  jm_get id (working t (l ++ saved)) = Some r → held_by claimId r.
Proof using Type.
  intros Hall (e & He & Hof). induction saved as [|e' saved IH] using rev_ind; [by apply elem_of_nil in He|].
  rewrite app_assoc, working_snoc, working_get by apply working_named.
  assert (∀ e : DomainEvent, e ∈ saved → ∃ id, e_payload e = POutboxClaimed id claimId) as Hall' by (intros x Hx; apply Hall, elem_of_app; by left).
  destruct (Hall e') as [id' Hp]; [apply elem_of_app; right; by left|]. rewrite Hp. case_bool_decide as Hid.
  - destruct (jm_get id _) as [r'|]; [|done]. intros [= <-]. done.
  - apply IH; [done|]. apply elem_of_app in He as [|He%list_elem_of_singleton]; [done|]. subst e'. by rewrite Hp in Hof.
Qed.

Definition claimed_now (claimId : jstr) (rs : list DocumentDeliveryOutboxRecord) (s : DocumentStore) : Prop :=
  ∀ r, r ∈ rs → jm_get (dor_id r) (working t (events s)) = Some r ∧ held_by claimId r.

Lemma runs_claim_plan (K : DocumentStore → Prop) claimId at_ limit l n : Known K → outbox_life t l →
  Runs (λ s, K s ∧ l `prefix_of` events s) (outbox_claim_plan ids t claimId at_ limit (state_of l) n)
    (plan_promises t stream l (λ rs, Once (λ s, K s ∧ claimed_now claimId rs s))).
Proof using Henv Hstream.
  intros HK Hl. unfold outbox_claim_plan. set (records := claimableDocumentDeliveryOutboxRecords _ _ _).
  call runs_bind.
  { eapply (runs_map _ _ _ _ (λ r e _, claim_of claimId r e)); [apply _..|]. intros r _. apply runs_claim_event. apply _. }
  intros news. apply runs_ret; [apply _|]. intros s Hs [[HKs _] HF].
  assert (∀ e, e ∈ news → ∃ r, r ∈ records ∧ claim_of claimId r e) as Hnews.
  { intros e [i Hi]%list_elem_of_lookup. destruct (Forall2_lookup_r _ _ _ _ _ HF Hi) as (r & Hr & He). exists r.
    split; [by eapply list_elem_of_lookup_2|done]. }
  split_and!.
  - eapply (may_append_each t stream dor_id (claim_of claimId)); [done|apply claimable_distinct|exact HF| |].
    + intros r e (_ & _ & _ & Hp & He). by rewrite Hp.
    + intros r e saved Hr He Hn. eapply event_step; [exact He|]. split; [done|].
      destruct (claimable_waits _ _ _ _ Hr) as [Hg Hw]. exists r. by rewrite working_other.
  - cbn [opl_events opl_state opl_recordIds plan_events]. intros ->. apply Forall2_nil_inv_r in HF. rewrite HF.
    apply once_now; [apply _|done|]. split; [done|]. by intros r ?%elem_of_nil.
  - cbn [opl_events opl_state opl_recordIds plan_events]. intros saved s' Hsaved Hi' Hx Hev.
    apply once_now; [apply _|done|]. split; [by eapply HK|]. intros r (id & Hid & Hr)%list_elem_of_omap. unfold claimed_now.
    change (dos_records (state_of (l ++ saved))) with (working t (l ++ saved)) in Hr.
    rewrite Hev. rewrite (proj2 (working_named t _) _ _ Hr). split; [done|].
    eapply (held_after l saved); [| |exact Hr].
    + intros e He. destruct (Hnews _ (saved_planned _ _ _ Hsaved He)) as (r' & _ & _ & _ & _ & Hp & _). by eexists.
    + apply list_elem_of_fmap in Hid as (r' & -> & [i Hi2]%list_elem_of_lookup).
      destruct (Forall2_lookup_l _ _ _ _ _ HF Hi2) as (e & He & (_ & _ & _ & Hp & _)).
      rewrite <-Hsaved, list_lookup_fmap in He. destruct (saved !! i) as [e'|] eqn:E; [|done]. injection He as <-.
      exists e'. split; [by eapply list_elem_of_lookup_2|]. by rewrite Hp.
Qed.

(** ** Completions *)

Lemma runs_outbox_record (K : DocumentStore → Prop) id : Known K →
  Runs K (outbox_record env t id) (λ r, Once (λ s, K s ∧ r = record_of id (events s))).
Proof using Henv Hstream.
  intros HK. unfold outbox_record. call runs_lift_bind. intros stream' E. rewrite Hstream in E. injection E as <-.
  call runs_bind; [apply runs_read_named; apply _|]. intros evs. apply runs_ret; [apply _|]. intros s _ [_ Ho].
  eapply once_learn; [exact Ho|]. intros s0 Hi0 [HKs ->]. split; [done|].
  apply (record_named t id [] (events s0) None). by apply (lives_at t stream Hstream).
Qed.

(** A record that was delivered. *)
Definition delivered_in (id : jstr) (l : list DomainEvent) : Prop := ∃ r, record_of id l = Some r ∧ dor_status r = OutboxDelivered.

#[local] Instance delivered_stable id : Known (λ s, delivered_in id (events s)).
Proof using Hstream.
  intros s s' Hi Hx (r & Hr & Hd). exists r. split; [|done]. destruct (Hx stream) as [l E].
  pose proof (lives_at t stream Hstream s' Hi) as Hl. rewrite E in Hl |- *. by apply delivered_stays.
Qed.

Lemma runs_completion_event (K : DocumentStore → Prop) command p : Known K → cmo_tenantId command = t →
  Runs K (completion_event ids clock command p) (λ e _, outbox_event_of (cmo_outboxId command) p e).
Proof using Henv Hstream.
  intros HK Ht. unfold completion_event. call runs_keeps. intros id. rewrite Ht. call runs_lift_bind. intros stream' E.
  rewrite Hstream in E. injection E as <-. call runs_keeps. intros at_. apply runs_ret; [apply _|]. done.
Qed.

(** A checkpoint of the whole stream, if there is one. *)
Lemma runs_checkpoint_events (K : DocumentStore → Prop) l n : Known K → outbox_life t l →
  Runs K (plannedCheckpoint clock t (state_of l) n) (λ news _, may_append t stream l news ∧
    ∀ saved, e_new <$> saved = news → ∀ e : DomainEvent, e ∈ saved → outbox_of (e_payload e) = None).
Proof using Henv Hstream.
  intros HK Hl. assert (∀ Q : list NewDomainEvent → DocumentStore → Prop, (∀ s, Q [] s) → Runs K (mret []) Q) as Hnone.
  { intros Q HQ. apply runs_ret; [apply _|]. intros s _ _. apply HQ. }
  assert (may_append t stream l [] ∧ ∀ saved : list DomainEvent, e_new <$> saved = [] →
    ∀ e : DomainEvent, e ∈ saved → outbox_of (e_payload e) = None) as Hnil.
  { split; [by apply may_append_nil|]. intros saved E%fmap_nil_inv e. rewrite E. by intros ?%elem_of_nil. }
  unfold plannedCheckpoint. destruct (_ <=? _); [by apply Hnone|]. destruct (_ <? _); [by apply Hnone|].
  call runs_lift_bind. intros stream' E. rewrite Hstream in E. injection E as <-. call runs_keeps. intros at_.
  apply runs_ret; [apply _|]. intros s _ _. split.
  - apply may_append_one; [done|done|]. split_and!; [done..|]. split_and!; [done| |done].
    apply (fold_version [] l). by apply outbox_life_contiguous with t.
  - intros saved Hs e He. by apply (saved_planned _ _ _ Hs), list_elem_of_singleton in He as ->.
Qed.

(** The working set no longer knows what was delivered. *)
Lemma delivered_unselected id l : outbox_life t l → delivered_in id l →
  selectedDocumentDeliveryOutboxRecords (state_of l) (Some [id]) = [].
Proof using Type.
  intros Hl (r & Hr & Hd). unfold selectedDocumentDeliveryOutboxRecords. cbn [omap list_omap].
  change (dos_records (state_of l)) with (working t l). rewrite working_records, Hr by done. cbn. unfold still_in_flight.
  by rewrite bool_decide_eq_true_2.
Qed.

Lemma delivered_last l (e : DomainEvent) id claimId :
  outbox_life t (l ++ [e]) → e_payload e = POutboxDelivered id claimId → delivered_in id (l ++ [e]).
Proof using Type.
  intros (Hl & (_ & _ & Hs) & _)%outbox_life_snoc_inv Hp. rewrite Hp in Hs. destruct Hs as (_ & r & Hr & _).
  apply in_working in Hr as (Hr & _); [|done]. unfold delivered_in. rewrite record_of_snoc, Hr. unfold fold_outbox_record_step.
  rewrite Hp, bool_decide_eq_true_2 by done. by eexists.
Qed.

Definition delivery_done (id : jstr) (rs : list DocumentDeliveryOutboxRecord) (s : DocumentStore) : Prop :=
  rs = [] ∧ delivered_in id (events s).

Lemma runs_delivered_plan command l n : cmo_tenantId command = t → outbox_life t l →
  Runs (λ s, l `prefix_of` events s) (outbox_delivered_plan ids clock env command (state_of l) n)
    (plan_promises t stream l (delivery_done (cmo_outboxId command))).
Proof using Henv Hstream.
  intros Ht Hl. unfold outbox_delivered_plan. rewrite Ht. set (id := cmo_outboxId command).
  destruct (documentDeliveryOutboxRecordLookup _ _) as [existing|] eqn:Hlook.
  - call runs_lift_bind. intros [] [Hst Hcl]%ensure_ok%bool_decide_eq_true.
    call runs_bind; [apply runs_checkpoint_events; [apply _|done]|]. intros checkpoint. call runs_bind; [apply runs_completion_event; [apply _|done]|].
    intros event. apply runs_ret; [apply _|]. intros s Hs [[_ [Hmay Hof]] Hev].
    assert (may_append t stream l (checkpoint ++ [event])) as Hmay'.
    { apply may_append_snoc; [done|by apply Hev|]. intros saved Hsaved Hlife. eapply event_step; [exact Hev|]. split; [done|].
      exists existing. rewrite working_other by (intros e He; by rewrite (Hof _ Hsaved e He)). done. }
    split_and!; [exact Hmay'|by destruct checkpoint|]. cbn [opl_events opl_recordIds plan_events].
    intros saved s' Hsaved Hi' _ Hev'. pose proof (lives_at t stream Hstream s' Hi') as Hl'. rewrite Hev' in Hl'.
    apply fmap_app_inv in Hsaved as (saved1 & last1 & _ & Hlast & E). destruct last1 as [|e [|]]; try done.
    injection Hlast as Hlast. rewrite E, app_assoc in Hl', Hev' |- *.
    assert (delivered_in id ((l ++ saved1) ++ [e])) as Hd.
    { eapply delivered_last; [done|]. rewrite <-Hlast. apply Hev. }
    split; [by apply delivered_unselected|by rewrite Hev'].
  - call runs_bind; [by apply runs_outbox_record; apply _|]. intros [r|]; [|apply runs_throw; apply _].
    case_bool_decide as Hd; [|apply runs_throw; apply _]. apply runs_ret; [apply _|].
    intros s Hs [_ (s0 & Hi0 & Hx & _ & Hr)]. split_and!; [by apply may_append_nil| |].
    + intros _. cbn. split; [done|]. eapply delivered_stable; [done|exact Hx|]. by exists r.
    + cbn. intros saved s' _ Hi' Hx' _. split; [done|]. eapply delivered_stable; [done| |by exists r]. by etrans.
Qed.

(** A record that failed. *)
Definition failure_kept (id err : jstr) (rs : list DocumentDeliveryOutboxRecord) (s : DocumentStore) : Prop :=
  ∃ r, rs = [r] ∧ jm_get id (working t (events s)) = Some r ∧ dor_status r = OutboxFailed ∧ dor_error r = Some err.

Lemma runs_failed_plan command err l n : cmo_tenantId (foc_complete command) = t → outbox_life t l →
  Runs (λ s, l `prefix_of` events s) (outbox_failed_plan ids clock command err (state_of l) n)
    (plan_promises t stream l (λ rs, Once (failure_kept (cmo_outboxId (foc_complete command)) err rs))).
Proof using Henv Hstream.
  intros Ht Hl. unfold outbox_failed_plan. set (id := cmo_outboxId _).
  call runs_lift_bind. intros existing Hreq.
  assert (jm_get id (working t l) = Some existing) as Hg.
  { unfold requireOutboxRecord, documentDeliveryOutboxRecordLookup in Hreq. unfold working. by destruct (jm_get id _); simplify_eq. }
  call runs_lift_bind. intros [] [Hst Hcl]%ensure_ok%bool_decide_eq_true.
  call runs_bind; [apply runs_completion_event; [apply _|done]|].
  intros event. apply runs_ret; [apply _|]. intros s Hs [_ Hev]. fold id in Hev.
  split_and!; [|done|].
  - apply may_append_one; [done|by apply Hev|]. eapply event_step; [exact Hev|]. split; [done|]. by exists existing.
  - cbn [opl_events opl_recordIds plan_events]. intros saved s' Hsaved Hi' _ Hev'. apply once_now; [apply _|done|].
    destruct saved as [|e [|]]; try done. injection Hsaved as He. unfold failure_kept. rewrite Hev'.
    assert (e_payload e = POutboxFailed id (cmo_claimId (foc_complete command)) err (foc_retryAt command)) as Hp.
    { rewrite He. apply Hev. }
    unfold selectedDocumentDeliveryOutboxRecords. cbn [omap list_omap].
    change (dos_records (state_of (l ++ [e]))) with (working t (l ++ [e])).
    rewrite working_snoc, working_get, Hp, bool_decide_eq_true_2 by (done || apply working_named). rewrite Hg. cbn. by eexists.
Qed.

(** ** Enqueuings *)

(** An event under the name of a record is about the record. *)
Lemma named_about l (e : DomainEvent) id :
  outbox_life t l → e ∈ named_events t OUTBOX_DOCTYPE id l → id ≠ DOCUMENT_DELIVERY_OUTBOX_CHECKPOINT_DOCUMENT_NAME →
  outbox_of (e_payload e) = Some id.
Proof using Type.
  intros Hl [(_ & _ & Hname) He]%list_elem_of_filter Hid. cbn [adq_documentName in_stream] in Hname.
  induction Hl as [|l e' Hl IH (_ & _ & Hs) _]; [by apply elem_of_nil in He|].
  apply elem_of_app in He as [He| ->%list_elem_of_singleton]; [by apply IH|]. rewrite Hname in Hs.
  destruct (e_payload e'); try done; cbn in Hs |- *; destruct Hs as [-> _]; done.
Qed.

Lemma record_id_not_checkpoint eventId target :
  documentDeliveryOutboxRecordId eventId target ≠ DOCUMENT_DELIVERY_OUTBOX_CHECKPOINT_DOCUMENT_NAME.
Proof using Type.
  intros E. assert (58%N ∈ documentDeliveryOutboxRecordId eventId target) as Hin.
  { unfold documentDeliveryOutboxRecordId. rewrite !elem_of_app. right. left. by left. }
  rewrite E in Hin. revert Hin. apply (bool_decide_unpack (58%N ∉ _)). by vm_compute.
Qed.

Lemma record_id_inj eventId : Inj (=) (=) (documentDeliveryOutboxRecordId eventId).
Proof using Type. intros x y E%app_inv_head. by destruct x, y. Qed.

(** What the plan finds for a target. *)
Definition enqueue_of (eventId : jstr) (target : DocumentDeliveryOutboxTarget) (e : NewDomainEvent) : Prop :=
  ∃ q, oe_outboxId q = documentDeliveryOutboxRecordId eventId target ∧
    outbox_event_of (documentDeliveryOutboxRecordId eventId target) (POutboxEnqueued q) e.

Lemma enqueue_of_kept eventId target e :
  enqueue_of eventId target e → outbox_of (e_payload e) = Some (documentDeliveryOutboxRecordId eventId target) ∧ e_stream e = stream.
Proof using Type. intros (q & <- & _ & _ & _ & Hp & He). by rewrite Hp. Qed.

Definition planned_for (eventId : jstr) (enqueued : list jstr) (target : DocumentDeliveryOutboxTarget) (planned : option NewDomainEvent)
    : Prop :=
  match planned with
  | None => documentDeliveryOutboxRecordId eventId target ∈ enqueued
  | Some e => (documentDeliveryOutboxRecordId eventId target ∉ enqueued) ∧ enqueue_of eventId target e
  end.

Lemma runs_enqueue_event (K : DocumentStore → Prop) command enqueued target : Known K → e_tenantId (eoc_event command) = t →
  Runs K (enqueue_event ids command enqueued target) (λ planned _, planned_for (e_id (eoc_event command)) enqueued target planned).
Proof using Henv Hstream.
  intros HK Ht. unfold enqueue_event. case_bool_decide as Hin; [apply runs_ret; [apply _|by intros]|].
  call runs_keeps. intros id. rewrite Ht. call runs_lift_bind. intros stream' E. rewrite Hstream in E. injection E as <-.
  apply runs_ret; [apply _|]. intros s _ _. split; [done|]. eexists. split; cycle 1; [by repeat split|done].
Qed.

(** The targets that are enqueued, with their events. *)
Lemma planned_targets eventId enqueued targets planned :
  Forall2 (planned_for eventId enqueued) targets planned →
  ∃ xs, sublist xs targets ∧ Forall2 (enqueue_of eventId) xs (omap id planned) ∧
    (∀ x, x ∈ xs → documentDeliveryOutboxRecordId eventId x ∉ enqueued) ∧
    ∀ x, x ∈ targets → x ∈ xs ∨ documentDeliveryOutboxRecordId eventId x ∈ enqueued.
Proof using Type.
  induction 1 as [|x [e|] targets planned Hx _ (xs & Hsub & HF & Hnot & Hall)].
  - exists []. split_and!; [done|constructor|by intros ? ?%elem_of_nil..].
  - destruct Hx as [Hn He]. exists (x :: xs). split_and!; [by constructor|by constructor| |].
    + intros y [-> |Hy]%elem_of_cons; [done|by apply Hnot].
    + intros y [-> |Hy]%elem_of_cons; [left; by left|]. destruct (Hall y Hy); [left; by right|by right].
  - exists xs. split_and!; [by constructor|done|done|]. intros y [-> |Hy]%elem_of_cons; [by right|by apply Hall].
Qed.

(** What was found of a record. *)
Definition found_for (l : list DomainEvent) (id : jstr) (found : option jstr) (s : DocumentStore) : Prop :=
  match found with
  | None => ∀ e : DomainEvent, e ∈ l → outbox_of (e_payload e) ≠ Some id
  | Some id' => id' = id ∧ record_of id (events s) ≠ None
  end.

#[local] Instance found_stable l id found : Known (found_for l id found).
Proof using Type.
  intros s s' _ Hx. unfold found_for. destruct found as [id'|]; [|done]. intros [-> Hr]. split; [done|].
  destruct (Hx stream) as [l' ->]. by apply record_kept.
Qed.

Lemma runs_found (K : DocumentStore → Prop) l id : Known K → id ≠ DOCUMENT_DELIVERY_OUTBOX_CHECKPOINT_DOCUMENT_NAME →
  Runs (λ s, K s ∧ l `prefix_of` events s)
    (stream ← m_lift (documentDeliveryOutboxStream t); existing ← read_named env t id stream (Some 1%Z) false;
     mret (if bool_decide (existing = []) then None else Some id)) (found_for l id).
Proof using Henv Hstream.
  intros HK Hid. call runs_lift_bind. intros stream' E. rewrite Hstream in E. injection E as <-.
  call runs_bind; [call runs_observed|]. intros existing. apply runs_ret; [apply _|].
  intros s Hs (_ & s0 & Hi0 & Hx & (_ & Hp) & E). rewrite (read_first _ (proj1 Hi0)) in E. injection E as E.
  apply (found_stable l id _ s0 s Hs Hx). pose proof (lives_at t stream Hstream s0 Hi0) as Hl0.
  destruct (named_events t OUTBOX_DOCTYPE id (events s0)) as [|e rest] eqn:En; cbn in E; subst existing.
  - rewrite bool_decide_eq_true_2 by done. intros e He Hof. apply (not_elem_of_nil e). rewrite <-En.
    apply list_elem_of_filter. destruct Hp as [l' Hp]. assert (e ∈ events s0) as He0 by (rewrite Hp; apply elem_of_app; by left).
    split; [|done]. by apply (outbox_event_named t (events s0)).
  - rewrite bool_decide_eq_false_2 by done. split; [done|]. assert (e ∈ named_events t OUTBOX_DOCTYPE id (events s0)) as He by (rewrite En; by left).
    eapply record_seen; [done|by apply list_elem_of_filter in He as [_ He]|]. by eapply named_about.
Qed.

(** Every target has its record. *)
Definition all_enqueued (eventId : jstr) (targets : list DocumentDeliveryOutboxTarget) (s : DocumentStore) : Prop :=
  ∀ target, target ∈ targets → record_of (documentDeliveryOutboxRecordId eventId target) (events s) ≠ None.

#[local] Instance all_enqueued_stable eventId targets : Known (all_enqueued eventId targets).
Proof using Type. intros s s' _ Hx Ha target Ht. destruct (Hx stream) as [l ->]. by apply record_kept, Ha. Qed.

(** What was found says what is enqueued: no event of the stream is of another record. *)
Lemma found_unseen l ids' found s id : Forall2 (λ id found, found_for l id found s) ids' found → id ∈ ids' → id ∉ omap (λ x, x) found →
  ∀ e : DomainEvent, e ∈ l → outbox_of (e_payload e) ≠ Some id.
Proof using Type.
  intros HF [i Hi]%list_elem_of_lookup Hn. destruct (Forall2_lookup_l _ _ _ _ _ HF Hi) as (fo & Hfo & Hf).
  destruct fo as [id'|]; [|exact Hf]. destruct Hf as [-> _]. exfalso. apply Hn, list_elem_of_omap.
  exists (Some id). split; [by eapply list_elem_of_lookup_2|done].
Qed.

Lemma found_seen l ids' found s id : Forall2 (λ id found, found_for l id found s) ids' found → id ∈ omap (λ x, x) found →
  record_of id (events s) ≠ None.
Proof using Type.
  intros HF (fo & [i Hi]%list_elem_of_lookup & ->)%list_elem_of_omap. by destruct (Forall2_lookup_r _ _ _ _ _ HF Hi) as (id' & _ & -> & Hr).
Qed.

Lemma runs_enqueue_plan command targets l n : e_tenantId (eoc_event command) = t → NoDup targets → outbox_life t l →
  Runs (λ s, l `prefix_of` events s) (enqueue_plan ids env command targets (state_of l) n)
    (plan_promises t stream l (λ _, all_enqueued (e_id (eoc_event command)) targets)).
Proof using Henv Hstream.
  intros Ht Hnd Hl. unfold enqueue_plan. rewrite Ht. set (record_id := documentDeliveryOutboxRecordId (e_id (eoc_event command))).
  call runs_bind.
  { eapply (runs_map _ _ _ _ (found_for l)); [apply _..|]. intros id (target & -> & _)%list_elem_of_fmap.
    eapply runs_mono; [apply (runs_found (λ _, True)); [apply _|apply record_id_not_checkpoint]|done|done]. }
  intros found. call runs_bind.
  { set (enqueued := omap _ found). eapply (runs_map _ _ _ _ (λ target o _, planned_for (e_id (eoc_event command)) enqueued target o)); [apply _..|].
    intros target _. apply runs_enqueue_event; [apply _|done]. }
  intros planned. apply runs_ret; [apply _|]. intros s Hs [[_ Hfound] Hplanned].
  apply planned_targets in Hplanned as (xs & Hsub & HF & Hnot & Hall). set (news := omap id planned) in *.
  assert (may_append t stream l news) as Hmay.
  { eapply (may_append_each t stream record_id (enqueue_of (e_id (eoc_event command)))); [done| |exact HF|apply enqueue_of_kept|].
    - apply NoDup_fmap_2; [apply record_id_inj|]. by eapply sublist_NoDup.
    - intros x e saved Hx (q & Hq & He) Hn. eapply event_step; [exact He|]. split; [done|].
      intros e' [He'|He']%elem_of_app; [|by apply Hn]. eapply found_unseen; [exact Hfound| |by apply Hnot|done].
      apply list_elem_of_fmap_2. eapply elem_of_submseteq; [exact Hx|by apply sublist_submseteq]. }
  assert (∀ s', outbox_lives s' → extends s s' → (∃ saved, e_new <$> saved = news ∧ events s' = l ++ saved) ∨ news = [] →
    all_enqueued (e_id (eoc_event command)) targets s') as Hdone.
  { intros s' Hi' [l' Hx']%(λ Hx : extends s s', Hx stream) Hnews target Htarget. destruct (Hall target Htarget) as [Hin|Hin].
    2:{ rewrite Hx'. apply record_kept. by eapply found_seen. }
    apply list_elem_of_lookup in Hin as [i Hi]. destruct (Forall2_lookup_l _ _ _ _ _ HF Hi) as (e & He & q & Hq & _ & _ & _ & Hp & _).
    destruct Hnews as [(saved & Hsaved & Hev)|Hnil]; [|by rewrite Hnil in He].
    rewrite <-Hsaved, list_lookup_fmap in He. destruct (saved !! i) as [e'|] eqn:E; [|done]. injection He as <-.
    rewrite <-Hq. eapply record_enqueued; [by apply (lives_at t stream Hstream)| |exact Hp].
    rewrite Hev. apply elem_of_app. right. by eapply list_elem_of_lookup_2. }
  assert (∀ planned, opl_events planned = news →
    plan_promises t stream l (λ _, all_enqueued (e_id (eoc_event command)) targets) planned s) as Hpromise.
  { intros p Hp. split_and!; [by rewrite Hp| |].
    - rewrite Hp. intros Hnil. apply Hdone; [done|done|by right].
    - rewrite Hp. intros saved s' Hsaved Hi' Hx' Hev'. apply Hdone; [done|done|]. left. by exists saved. }
  by destruct news; apply Hpromise.
Qed.
End tenant.
End plans.
