(* ===== verification/OutboxCorrect.v ===== *)
(** * OutboxCorrect: the outbox service is correct under interference

    Whatever the calls of the service do and other clients do between their steps, the
    outbox of every tenant stays a life of its records; a record is delivered once; what
    is listed is the working set as it was at one moment of the call, although it is read
    from a checkpoint on; and a completion that returns has delivered. *)

From S2P Require Export OutboxPlans.

Section correct.
Context `{Collation} (ids clock : nat → jstr) (env : nat → DocumentStore → DocumentStore).

(** The calls of the service. *)
Inductive outbox_call :=
| call_enqueue (command : EnqueueDocumentDeliveryOutboxCommand)
| call_claim (command : ClaimDocumentDeliveryOutboxCommand)
| call_delivered (command : CompleteDocumentDeliveryOutboxCommand)
| call_failed (command : FailDocumentDeliveryOutboxCommand)
| call_list (tenantId : jstr)
| call_record (tenantId outboxId : jstr).

Definition run_outbox_call (call : outbox_call) : M (Client DocumentStore) unit :=
  match call with
  | call_enqueue command => _ ← enqueueFromDomainEvent ids env command; mret tt
  | call_claim command => _ ← outbox_claimPending ids clock env command; mret tt
  | call_delivered command => _ ← outbox_markDelivered ids clock env command; mret tt
  | call_failed command => _ ← outbox_markFailed ids clock env command; mret tt
  | call_list tenantId => _ ← list_outbox env tenantId; mret tt
  | call_record tenantId outboxId => _ ← outbox_record env tenantId outboxId; mret tt
  end.

Context `{Henv : !Lawful env extends outbox_lives}.

Abbreviation Known K := (Stable extends outbox_lives K).
Abbreviation Runs K m Q := (runs extends outbox_lives K m Q).
Abbreviation Once K := (once extends outbox_lives K).
Abbreviation events s stream := (stream_events (st_streams s) stream).

Lemma runs_append_any (K : DocumentStore → Prop) t plan Q : Known K → (∀ rs, Known (Q rs)) →
  (∀ stream l n, documentDeliveryOutboxStream t = Ok stream → outbox_life t l →
    Runs (λ s, K s ∧ l `prefix_of` events s stream) (plan (foldDocumentDeliveryOutbox t l) n) (plan_promises t stream l Q)) →
  Runs K (appendWithRetry env t plan) Q.
Proof using Henv.
  intros HK HQ Hplan. destruct (documentDeliveryOutboxStream t) as [stream|e] eqn:Hstream.
  - apply (runs_append env t stream Hstream K Q plan HK HQ). intros l n Hl.
    by apply Hplan.
  - unfold appendWithRetry. rewrite Hstream. call runs_lift_bind. by intros ? [=].
Qed.

Lemma promises_mono t stream l (Q Q' : list DocumentDeliveryOutboxRecord → DocumentStore → Prop) planned s :
  plan_promises t stream l Q planned s → (∀ rs s, Q rs s → Q' rs s) → plan_promises t stream l Q' planned s.
Proof using Type. intros (Hm & Hn & Ha) HQ. split_and!; [done|intros Hnil; by apply HQ, Hn|intros; by apply HQ, Ha]. Qed.

(** A fact about the stream of a tenant, which has one. *)
Definition at_outbox (t : jstr) (P : jstr → DocumentStore → Prop) (s : DocumentStore) : Prop :=
  ∃ stream, documentDeliveryOutboxStream t = Ok stream ∧ P stream s.

Lemma runs_appended (K : DocumentStore → Prop) t plan (Q : jstr → list DocumentDeliveryOutboxRecord → DocumentStore → Prop) : Known K →
  (∀ stream rs, documentDeliveryOutboxStream t = Ok stream → Known (Q stream rs)) →
  (∀ stream l n, documentDeliveryOutboxStream t = Ok stream → outbox_life t l →
    Runs (λ s, K s ∧ l `prefix_of` events s stream) (plan (foldDocumentDeliveryOutbox t l) n) (plan_promises t stream l (Q stream))) →
  Runs K (appendWithRetry env t plan) (λ rs, at_outbox t (λ stream, Q stream rs)).
Proof using Henv.
  intros HK HQ Hplan. apply runs_append_any; [done| |].
  - intros rs s s' Hi Hx (stream & Hs & Ha). exists stream. split; [done|]. by eapply HQ.
  - intros stream l n Hs Hl. eapply runs_mono; [by apply Hplan|done|]. intros planned s _ Hp.
    eapply promises_mono; [exact Hp|]. intros rs s' Hq. by exists stream.
Qed.

(** ** What the calls promise *)

Lemma runs_enqueued (K : DocumentStore → Prop) command : Known K →
  let t := e_tenantId (eoc_event command) in
  Runs K (enqueueFromDomainEvent ids env command) (λ _ s, eoc_targets command ≠ [] →
    at_outbox t (λ stream, all_enqueued t stream (e_id (eoc_event command)) (eoc_targets command)) s).
Proof using Henv.
  intros HK t. unfold enqueueFromDomainEvent. destruct (eoc_targets command) as [|target targets] eqn:E; [by apply runs_ret; [apply _|]|].
  rewrite <-E. eapply runs_mono; [apply (runs_appended K t _ (λ stream _, all_enqueued t stream (e_id (eoc_event command)) (eoc_targets command)));
    [done|by intros; apply all_enqueued_stable|]|done|by intros rs s _ Ha _].
  intros stream l n Hs Hl. eapply runs_mono; [eapply runs_enqueue_plan; try done; apply js_unique_nodup|by intros s _ [_ ?]|].
  intros planned s _ Hp. eapply promises_mono; [exact Hp|]. intros rs s' Ha x Hx. apply Ha. by apply js_unique_elem.
Qed.

Lemma runs_claimed (K : DocumentStore → Prop) command : Known K →
  Runs K (outbox_claimPending ids clock env command) (λ rs, at_outbox (coc_tenantId command) (λ stream s, ∃ claimId,
    (∀ given, coc_claimId command = Some given → claimId = given) ∧ Once (λ s, K s ∧ claimed_now (coc_tenantId command) stream claimId rs s) s)).
Proof using Henv.
  intros HK. unfold outbox_claimPending. call runs_skip. { destruct (coc_now command); [apply runs_ret; [apply _|done]|apply runs_now; apply _]. }
  intros at_. eapply (runs_bind _ _ _ _ _ (λ claimId _, ∀ given, coc_claimId command = Some given → claimId = given)); [done| |].
  { destruct (coc_claimId command); [apply runs_ret; [apply _|congruence]|].
    eapply runs_mono; [apply runs_id; apply _|done|done]. }
  intros claimId. apply runs_pure. intros Hgiven. call runs_lift_bind. intros limit _.
  apply (runs_appended K (coc_tenantId command) _ (λ stream rs s, ∃ claimId, (∀ given, coc_claimId command = Some given → claimId = given) ∧
    Once (λ s, K s ∧ claimed_now (coc_tenantId command) stream claimId rs s) s)); [done|intros; apply _|].
  intros stream l n Hs Hl. eapply runs_mono; [by eapply runs_claim_plan|done|].
  intros planned s _ Hp. eapply promises_mono; [exact Hp|]. intros rs s' Hq. by exists claimId.
Qed.

Lemma delivery_stable t stream id rs : documentDeliveryOutboxStream t = Ok stream → Known (delivery_done t stream id rs).
Proof using Type. intros Hs. apply stable_and; [apply _|by apply delivered_stable]. Qed.

(** The record that is read when the working set no longer knows it. *)
Lemma runs_delivered_record (K : DocumentStore → Prop) t stream id : documentDeliveryOutboxStream t = Ok stream → Known K →
  Runs (λ s, K s ∧ delivered_in t id (events s stream)) (deliveredRecord env t id) (λ found s, ∃ r, found = Some r ∧
    dor_status r = OutboxDelivered ∧ foldDocumentDeliveryOutboxRecord t id (events s stream) = Some r).
Proof using Henv.
  intros Hs HK. pose proof (delivered_stable t stream Hs id) as Hstable. unfold deliveredRecord.
  call runs_bind; [by apply (runs_outbox_record env t stream Hs); apply _|]. intros record. apply runs_ret; [apply _|].
  intros s Hi (_ & s0 & Hi0 & Hx & (_ & r & Hr & Hd) & ->). rewrite Hr. exists r. rewrite bool_decide_eq_true_2 by done.
  split_and!; [done..|]. destruct (Hx stream) as [l E]. pose proof (lives_at t stream Hs s Hi) as Hl. rewrite E in Hl |- *.
  by apply delivered_stays.
Qed.

(** A record that was delivered, as it is in the store. *)
Definition delivered_result (t id : jstr) (r : DocumentDeliveryOutboxRecord) : DocumentStore → Prop :=
  at_outbox t (λ stream s, dor_status r = OutboxDelivered ∧
    foldDocumentDeliveryOutboxRecord t id (events s stream) = Some r).

Lemma runs_delivered (K : DocumentStore → Prop) command : Known K →
  Runs K (outbox_markDelivered ids clock env command) (delivered_result (cmo_tenantId command) (cmo_outboxId command)).
Proof using Henv.
  intros HK. unfold outbox_markDelivered. set (t := cmo_tenantId command). eapply (runs_bind _ _ _ _ _
    (λ rs, at_outbox t (λ stream, delivery_done t stream (cmo_outboxId command) rs))); [done| |].
  { apply runs_appended; [done|intros; by apply delivery_stable|]. intros stream l n Hs Hl. eapply runs_mono; [by eapply runs_delivered_plan|by intros s _ [_ ?]|done]. }
  intros rs. apply (runs_mono _ _ _ (λ s, ∃ stream, (K s ∧ delivery_done t stream (cmo_outboxId command) rs s) ∧
    documentDeliveryOutboxStream t = Ok stream) _
    (delivered_result t (cmo_outboxId command)) (delivered_result t (cmo_outboxId command)));
    [|by intros s _ (HKs & stream & Hs & Hd); exists stream|done].
  apply runs_exists. intros stream. apply runs_pure. intros Hs. pose proof (λ rs, delivery_stable t stream (cmo_outboxId command) rs Hs) as Hstable.
  destruct rs as [|r rs]. 2:{ apply runs_ret; [apply _|]. by intros s _ [_ [? _]]. }
  call runs_bind.
  { eapply runs_mono; [by apply (runs_delivered_record K t stream (cmo_outboxId command))|by intros s _ [? [_ ?]]|by intros r s _ Hq; exact Hq]. }
  intros found. apply (runs_mono _ _ _ (λ s, ∃ r, (K s ∧ foldDocumentDeliveryOutboxRecord t (cmo_outboxId command) (events s stream) = Some r) ∧
    (found = Some r ∧ dor_status r = OutboxDelivered)) _
    (delivered_result t (cmo_outboxId command)) (delivered_result t (cmo_outboxId command)));
    [|intros s _ ((HKs & _) & r & -> & Hd & Hr); by exists r|done].
  apply runs_exists. intros r. apply runs_pure. intros [-> Hd]. apply runs_ret; [apply _|]. intros s _ [_ Hr].
  by exists stream.
Qed.

Lemma runs_failed (K : DocumentStore → Prop) command : Known K →
  let t := cmo_tenantId (foc_complete command) in
  Runs K (outbox_markFailed ids clock env command) (λ r, at_outbox t (λ stream, Once (λ s, dor_status r = OutboxFailed ∧
    jm_get (cmo_outboxId (foc_complete command)) (working t (events s stream)) = Some r))).
Proof using Henv.
  intros HK t. unfold outbox_markFailed. call runs_lift_bind. intros err _. eapply (runs_bind _ _ _ _ _
    (λ rs, at_outbox t (λ stream, Once (failure_kept t stream (cmo_outboxId (foc_complete command)) err rs)))); [done| |].
  { apply (runs_appended K t _ (λ stream rs, Once (failure_kept t stream (cmo_outboxId (foc_complete command)) err rs))); [done|intros; apply _|].
    intros stream l n Hs Hl. eapply runs_mono; [by eapply runs_failed_plan|by intros s _ [_ ?]|done]. }
  intros [|r rs].
  - intros c Hi (_ & stream & _ & s0 & _ & _ & r & [=] & _).
  - apply runs_ret; [apply _|]. intros s _ (_ & stream & Hs & Ho). exists stream. split; [done|]. eapply once_mono; [exact Ho|].
    intros s0 (r' & [= -> _] & Hg & Hst & _). done.
Qed.

(** What is listed is the working set of the whole stream, at one moment. *)
Lemma runs_list (K : DocumentStore → Prop) t : Known K →
  Runs K (list_outbox env t) (λ rs, at_outbox t (λ stream, Once (λ s, K s ∧
    rs = sortedDocumentDeliveryOutboxRecords (foldDocumentDeliveryOutbox t (events s stream))))).
Proof using Henv.
  intros HK. destruct (documentDeliveryOutboxStream t) as [stream|e] eqn:Hstream.
  - unfold list_outbox. call runs_bind; [by apply (runs_state env t stream Hstream K HK)|]. intros state.
    apply runs_ret; [apply _|]. intros s _ [_ Ho]. exists stream. split; [done|].
    eapply once_mono; [exact Ho|]. by intros s0 [? ->].
  - unfold list_outbox, outbox_state. rewrite Hstream. intros c Hi Hc. split_and!; [done|done|]. done.
Qed.

(** The calls keep the outboxes. *)
Lemma runs_outbox_call call : Runs (λ _, True) (run_outbox_call call) (λ _ _, True).
Proof using Henv.
  destruct call; cbn [run_outbox_call]; (call runs_skip; [|intros; by apply runs_ret; [apply _|]]).
  - eapply runs_mono; [apply (runs_enqueued (λ _, True)); apply _|done|done].
  - eapply runs_mono; [apply (runs_claimed (λ _, True)); apply _|done|done].
  - eapply runs_mono; [apply (runs_delivered (λ _, True)); apply _|done|done].
  - eapply runs_mono; [apply (runs_failed (λ _, True)); apply _|done|done].
  - eapply runs_mono; [apply (runs_list (λ _, True)); apply _|done|done].
  - unfold outbox_record. call runs_lift_bind. intros stream _. call runs_skip; [|intros; by apply runs_ret; [apply _|]].
    eapply runs_mono; [apply runs_observe; apply _|done|done].
Qed.
End correct.

(** ** What a life says *)

(** The events that do the same to a record. *)
Definition enqueues (id : jstr) (e : DomainEvent) : Prop := ∃ q, e_payload e = POutboxEnqueued q ∧ oe_outboxId q = id.
Definition delivers (id : jstr) (e : DomainEvent) : Prop := ∃ claimId, e_payload e = POutboxDelivered id claimId.
Definition at_most_once (P : DomainEvent → Prop) (events : list DomainEvent) : Prop :=
  ∀ i j e1 e2, events !! i = Some e1 → events !! j = Some e2 → P e1 → P e2 → i = j.

Lemma at_most_once_lt (P : DomainEvent → Prop) events :
  (∀ l1 e1 l2 e2 l3, events = l1 ++ e1 :: l2 ++ e2 :: l3 → P e1 → P e2 → False) → at_most_once P events.
Proof.
  intros HP. assert (∀ i j e1 e2, events !! i = Some e1 → events !! j = Some e2 → P e1 → P e2 → ¬ i < j) as Hlt.
  { intros i j e1 e2 Hi Hj H1 H2 Hij. apply list_elem_of_split_length in Hi as (l1 & l2 & -> & ->).
    rewrite lookup_app_r in Hj by lia. destruct (j - length l1) as [|k] eqn:Ek; [lia|]. cbn in Hj.
    apply list_elem_of_split_length in Hj as (l3 & l4 & -> & _). by eapply (HP l1 e1 l3 e2 l4). }
  intros i j e1 e2 Hi Hj H1 H2. pose proof (Hlt i j e1 e2 Hi Hj H1 H2). pose proof (Hlt j i e2 e1 Hj Hi H2 H1). lia.
Qed.

Lemma enqueued_once t events id : outbox_life t events → at_most_once (enqueues id) events.
Proof.
  intros Hl. apply at_most_once_lt. intros l1 e1 l2 e2 l3 -> (q1 & Hp1 & Hid1) (q2 & Hp2 & Hid2).
  change (e2 :: l3) with ([e2] ++ l3) in Hl. rewrite app_comm_cons, !app_assoc in Hl.
  apply outbox_life_prefix, outbox_life_snoc_inv in Hl as (_ & (_ & _ & Hs) & _). rewrite Hp2 in Hs. destruct Hs as [Hname Hn].
  apply (Hn e1); [apply elem_of_app; right; by left|]. rewrite Hp1. cbn. congruence.
Qed.

Lemma delivered_once t events id : outbox_life t events → at_most_once (delivers id) events.
Proof.
  intros Hl. apply at_most_once_lt. intros l1 e1 l2 e2 l3 -> (claim1 & Hp1) (claim2 & Hp2).
  change (l1 ++ e1 :: l2 ++ e2 :: l3) with (l1 ++ [e1] ++ l2 ++ [e2] ++ l3) in Hl. rewrite !app_assoc in Hl.
  apply outbox_life_prefix, outbox_life_snoc_inv in Hl as (Hl & (_ & _ & Hs) & _). rewrite Hp2 in Hs. destruct Hs as (_ & r & Hg & _).
  destruct (delivered_last t l1 e1 id claim1) as (r1 & Hr1 & Hd1); [by eapply outbox_life_prefix|done|].
  apply in_working in Hg as (Hr & Hnot & _); [|done]. rewrite (delivered_stays t (l1 ++ [e1]) l2 id r1 Hl Hr1 Hd1) in Hr. congruence.
Qed.

(** ** The theorems *)

(** C5: Whatever other clients that keep the outboxes do at each await, every call of the
    outbox service, whether it returns or throws, keeps the outbox of every tenant a life
    of its records ([outbox_life]): a record is enqueued before all else and once, it is
    claimed only while it waits, it is completed only by the claim that holds it, it is
    delivered at most once, and each checkpoint tells the working set before it; and the
    call only appends. *)
Theorem outbox_lives_kept `{Collation} ids clock env call : Lawful env extends outbox_lives → ∀ c, outbox_lives (cl_store c) →
  let s' := cl_store (run_outbox_call ids clock env call c).2 in
  outbox_lives s' ∧ extends (cl_store c) s' ∧
  ∀ t stream id, documentDeliveryOutboxStream t = Ok stream →
    at_most_once (enqueues id) (stream_events (st_streams s') stream) ∧
    at_most_once (delivers id) (stream_events (st_streams s') stream).
Proof.
  intros Henv c Hi. cbv zeta. pose proof (runs_outbox_call ids clock env call c Hi I) as Hcall.
  destruct (run_outbox_call _ _ _ _ _) as [r c']. destruct Hcall as (Hi' & Hx & _). split_and!; [done..|].
  intros t stream id Hs. pose proof (lives_at t stream Hs _ Hi') as Hl. split; [by eapply enqueued_once|by eapply delivered_once].
Qed.

(** C6: The listing of an outbox is read in several steps, from the last checkpoint on,
    while other clients write; yet what it returns is the sorted working set of the whole
    stream at one moment of the call: exactly the records that were enqueued and not yet
    delivered then, each as its own history has it. *)
Theorem outbox_list_exact `{Collation} env t c : Lawful env extends outbox_lives → outbox_lives (cl_store c) →
  let (r, c') := list_outbox env t c in
  ∀ rs, r = Ok rs → ∃ stream s, documentDeliveryOutboxStream t = Ok stream ∧
    outbox_lives s ∧ extends (cl_store c) s ∧ extends s (cl_store c') ∧
    rs = sortedDocumentDeliveryOutboxRecords (foldDocumentDeliveryOutbox t (stream_events (st_streams s) stream)) ∧
    ∀ r, r ∈ rs ↔ dor_status r ≠ OutboxDelivered ∧
      foldDocumentDeliveryOutboxRecord t (dor_id r) (stream_events (st_streams s) stream) = Some r.
Proof.
  intros Henv Hi. assert (Stable extends outbox_lives (extends (cl_store c))) as HK by (intros s s' _ Hx Hs; by etrans).
  pose proof (runs_list env (extends (cl_store c)) t HK c Hi (reflexivity _)) as Hl. destruct (list_outbox _ _ _) as [r c'].
  intros rs Hr. destruct Hl as (_ & _ & Hl). destruct (Hl rs Hr) as (stream & Hs & s & Hi0 & Hx & Hx0 & E).
  exists stream, s. split_and!; [done..|]. intros r'. subst rs. unfold sortedDocumentDeliveryOutboxRecords. rewrite elem_of_isort.
  change (dos_records _) with (working t (stream_events (st_streams s) stream)). pose proof (lives_at t stream Hs s Hi0) as Hlife.
  apply in_working_set. done.
Qed.

(** A completion that returns has delivered: the record that it returns is
    delivered, and it is the record as the stream has it at the end of the call, whether
    this call delivered it or another one did, before or meanwhile. *)
Theorem outbox_markDelivered_delivers `{Collation} ids clock env command c : Lawful env extends outbox_lives → outbox_lives (cl_store c) →
  let (r, c') := outbox_markDelivered ids clock env command c in
  ∀ record, r = Ok record → ∃ stream, documentDeliveryOutboxStream (cmo_tenantId command) = Ok stream ∧
    dor_status record = OutboxDelivered ∧
    foldDocumentDeliveryOutboxRecord (cmo_tenantId command) (cmo_outboxId command) (stream_events (st_streams (cl_store c')) stream) =
      Some record.
Proof.
  intros Henv Hi. pose proof (runs_delivered ids clock env (λ _, True) command _ c Hi I) as Hd.
  destruct (outbox_markDelivered _ _ _ _ _) as [r c']. intros record Hr. by apply Hd.
Qed.

(** An enqueuing that returns leaves a record for each of its targets, which it
    enqueued or found enqueued; and a claim that returns held every record it returns, at
    the moment of its append, under the one claim. *)
Theorem outbox_calls_promise `{Collation} ids clock env c : Lawful env extends outbox_lives → outbox_lives (cl_store c) →
  (∀ command, let (r, c') := enqueueFromDomainEvent ids env command c in
    ∀ rs, r = Ok rs → eoc_targets command ≠ [] → ∃ stream, documentDeliveryOutboxStream (e_tenantId (eoc_event command)) = Ok stream ∧
      ∀ target, target ∈ eoc_targets command →
        foldDocumentDeliveryOutboxRecord (e_tenantId (eoc_event command))
          (documentDeliveryOutboxRecordId (e_id (eoc_event command)) target) (stream_events (st_streams (cl_store c')) stream) ≠ None) ∧
  (∀ command, let (r, c') := outbox_claimPending ids clock env command c in
    ∀ rs, r = Ok rs → ∃ stream claimId s, documentDeliveryOutboxStream (coc_tenantId command) = Ok stream ∧
      (∀ given, coc_claimId command = Some given → claimId = given) ∧
      outbox_lives s ∧ extends (cl_store c) s ∧ extends s (cl_store c') ∧
      ∀ r, r ∈ rs → dor_status r = OutboxClaimed ∧ dor_claimId r = Some claimId ∧
        jm_get (dor_id r) (working (coc_tenantId command) (stream_events (st_streams s) stream)) = Some r).
Proof.
  intros Henv Hi. split; intros command.
  - pose proof (runs_enqueued ids env (λ _, True) command _ c Hi I) as Hd.
    destruct (enqueueFromDomainEvent _ _ _ _) as [r c']. intros rs Hr. by apply (proj2 (proj2 Hd) rs).
  - assert (Stable extends outbox_lives (extends (cl_store c))) as HK by (intros s s' _ Hx Hs; by etrans).
    pose proof (runs_claimed ids clock env (extends (cl_store c)) command HK c Hi (reflexivity _)) as Hd.
    destruct (outbox_claimPending _ _ _ _ _) as [r c']. intros rs Hr.
    destruct (proj2 (proj2 Hd) rs Hr) as (stream & Hs & claimId & Hgiven & s & Hi0 & Hx & Hx0 & Hc). exists stream, claimId, s.
    split_and!; [done..|]. intros r' Hr'. by destruct (Hc r' Hr') as (? & ? & ?).
Qed.

(** ** Witnesses: two deliveries are enqueued and claimed, and one is completed *)

Definition sample_enqueue : EnqueueDocumentDeliveryOutboxCommand :=
  {| eoc_event := sample_created; eoc_eventObject := VNull; eoc_snapshotObject := None;
     eoc_targets := [TNotification; TEmail; TNotification]; eoc_metadata := None |}.
Definition sample_outbox_tenant : jstr := e_tenantId sample_created.
Definition sample_outbox_claim (claimId : jstr) : ClaimDocumentDeliveryOutboxCommand :=
  {| coc_tenantId := sample_outbox_tenant; coc_claimId := Some claimId; coc_limit := Some 2%Z;
     coc_now := Some (js "2026-01-02T00:00:00.000Z") |}.
Definition sample_completion (claimId : jstr) : CompleteDocumentDeliveryOutboxCommand :=
  {| cmo_tenantId := sample_outbox_tenant; cmo_outboxId := documentDeliveryOutboxRecordId (e_id sample_created) TNotification;
     cmo_claimId := claimId; cmo_metadata := None |}.

(** Another worker, which claims what it can at its third await. *)
Definition rival (k : nat) (s : DocumentStore) : DocumentStore :=
  if k =? 2 then cl_store (run_outbox_call (H := code_unit_collation) sample_ids sample_clock (λ _ s, s)
    (call_claim (sample_outbox_claim (js "rival"))) (new_client s)).2
  else s.

Lemma rival_lawful : Lawful rival extends outbox_lives.
Proof.
  assert (Lawful (λ (_ : nat) (s : DocumentStore), s) extends outbox_lives) as Hid by (intros k s Hs; by split).
  intros k s Hs. unfold rival. destruct (k =? 2); [|by split].
  pose proof (@runs_outbox_call code_unit_collation sample_ids sample_clock (λ _ s, s) Hid
    (call_claim (sample_outbox_claim (js "rival"))) (new_client s) Hs I) as Hc.
  destruct (run_outbox_call _ _ _ _ _) as [r c']. by destruct Hc as (? & ? & _).
Qed.

Lemma empty_lives : outbox_lives empty_store.
Proof. split; [apply wf_streams_nil|]. intros t stream _. constructor. Qed.

Definition sample_outbox (calls : list outbox_call) (env : nat → DocumentStore → DocumentStore) (c : Client DocumentStore)
    : Client DocumentStore :=
  foldl (λ c call, (run_outbox_call (H := code_unit_collation) sample_ids sample_clock env call c).2) c calls.

Definition sample_outbox_enqueued : Client DocumentStore := sample_outbox [call_enqueue sample_enqueue] (λ _ s, s) (new_client empty_store).

Lemma sample_outbox_lives calls env c : Lawful env extends outbox_lives → outbox_lives (cl_store c) →
  outbox_lives (cl_store (sample_outbox calls env c)).
Proof.
  intros Henv. revert c. unfold sample_outbox. induction calls as [|call calls IH]; intros c Hc; [done|]. cbn [foldl]. apply IH.
  pose proof (@runs_outbox_call code_unit_collation sample_ids sample_clock env Henv call c Hc I) as Hr.
  by destruct (run_outbox_call _ _ _ _ _) as [r c'], Hr.
Qed.

Lemma quiet_lawful : Lawful (λ (_ : nat) (s : DocumentStore), s) extends outbox_lives.
Proof. intros k s Hs. by split. Qed.

Lemma sample_enqueued_lives : outbox_lives (cl_store sample_outbox_enqueued).
Proof. apply sample_outbox_lives; [apply quiet_lawful|apply empty_lives]. Qed.

Definition sample_outbox_delivered : Client DocumentStore :=
  sample_outbox [call_claim (sample_outbox_claim (js "us")); call_delivered (sample_completion (js "us"))] (λ _ s, s)
    sample_outbox_enqueued.

Lemma sample_delivered_lives : outbox_lives (cl_store sample_outbox_delivered).
Proof. apply sample_outbox_lives; [apply quiet_lawful|apply sample_enqueued_lives]. Qed.

Lemma outbox_lives_kept_witness :
  let s' := cl_store (run_outbox_call (H := code_unit_collation) sample_ids sample_clock rival
    (call_claim (sample_outbox_claim (js "us"))) (new_client (cl_store sample_outbox_enqueued))).2 in
  outbox_lives s' ∧ extends (cl_store sample_outbox_enqueued) s' ∧
  payload_kind ∘ e_payload ∘ e_new <$> concat (st_streams s').*2 =
    [js "DocumentDeliveryOutboxEnqueued"; js "DocumentDeliveryOutboxEnqueued"; js "DocumentDeliveryOutboxClaimed";
     js "DocumentDeliveryOutboxClaimed"].
Proof.
  destruct (@outbox_lives_kept code_unit_collation sample_ids sample_clock rival (call_claim (sample_outbox_claim (js "us")))
    rival_lawful (new_client (cl_store sample_outbox_enqueued)) sample_enqueued_lives) as (H1 & H2 & _).
  split_and!; [exact H1|exact H2|by vm_compute].
Defined.

Lemma outbox_list_exact_witness :
  ∃ rs, (list_outbox (H := code_unit_collation) rival sample_outbox_tenant sample_outbox_delivered).1 = Ok rs ∧
    dor_target <$> rs = [TEmail] ∧
    ∃ stream s, extends s (cl_store (list_outbox (H := code_unit_collation) rival sample_outbox_tenant sample_outbox_delivered).2) ∧
      ∀ r, r ∈ rs ↔ dor_status r ≠ OutboxDelivered ∧
        foldDocumentDeliveryOutboxRecord sample_outbox_tenant (dor_id r) (stream_events (st_streams s) stream) = Some r.
Proof.
  pose proof (@outbox_list_exact code_unit_collation rival sample_outbox_tenant sample_outbox_delivered rival_lawful
    sample_delivered_lives) as H.
  assert (∃ rs, (list_outbox (H := code_unit_collation) rival sample_outbox_tenant sample_outbox_delivered).1 = Ok rs ∧
    dor_target <$> rs = [TEmail]) as (rs & Hr & Ht) by (eexists; split; vm_compute; reflexivity).
  destruct (list_outbox _ _ _) as [r c']. destruct (H rs Hr) as (stream & s & _ & _ & _ & Hx & _ & Hin).
  exists rs. split_and!; [exact Hr|exact Ht|]. by exists stream, s.
Defined.

Lemma outbox_markDelivered_delivers_witness :
  ∃ record, (outbox_markDelivered (H := code_unit_collation) sample_ids sample_clock rival (sample_completion (js "late"))
      sample_outbox_delivered).1 = Ok record ∧ dor_status record = OutboxDelivered ∧ dor_claimId record = Some (js "us").
Proof.
  pose proof (@outbox_markDelivered_delivers code_unit_collation sample_ids sample_clock rival (sample_completion (js "late"))
    sample_outbox_delivered rival_lawful sample_delivered_lives) as H.
  assert (∃ record, (outbox_markDelivered (H := code_unit_collation) sample_ids sample_clock rival (sample_completion (js "late"))
    sample_outbox_delivered).1 = Ok record ∧ dor_claimId record = Some (js "us")) as (record & Hr & Hc)
    by (eexists; split; vm_compute; reflexivity).
  destruct (outbox_markDelivered _ _ _ _ _) as [r c']. destruct (H record Hr) as (stream & _ & Hd & _).
  exists record. split_and!; [exact Hr|exact Hd|exact Hc].
Defined.

Lemma outbox_calls_promise_witness :
  ∃ rs, (outbox_claimPending (H := code_unit_collation) sample_ids sample_clock rival (sample_outbox_claim (js "us"))
      sample_outbox_enqueued).1 = Ok rs ∧ length rs = 2 ∧ ∀ r, r ∈ rs → dor_status r = OutboxClaimed ∧ dor_claimId r = Some (js "us").
Proof.
  destruct (@outbox_calls_promise code_unit_collation sample_ids sample_clock rival sample_outbox_enqueued rival_lawful
    sample_enqueued_lives) as [_ H]. specialize (H (sample_outbox_claim (js "us"))).
  assert (∃ rs, (outbox_claimPending (H := code_unit_collation) sample_ids sample_clock rival (sample_outbox_claim (js "us"))
    sample_outbox_enqueued).1 = Ok rs ∧ length rs = 2) as (rs & Hr & Hn) by (eexists; split; vm_compute; reflexivity).
  destruct (outbox_claimPending _ _ _ _ _) as [r c'].
  destruct (H rs Hr) as (stream & claimId & s & _ & Hg & _ & _ & _ & Hc). rewrite (Hg (js "us") eq_refl) in Hc.
  exists rs. split_and!; [exact Hr|exact Hn|]. intros r' Hr'. by destruct (Hc r' Hr') as (? & ? & _).
Defined.
