(* ===== verification/OutboxConsumer.v ===== *)
(** * OutboxConsumer: the drain of an outbox

    Models [application/document-delivery-outbox-consumer.ts] and
    [application/document-delivery-outbox-consumer-policy.ts]: a drain claims records,
    hands each to the handler of its target and completes it, or keeps its failure with
    the time of its retry.  The handlers of notifications and of emails are built from
    services that are arguments; that of realtime events, whose events are not modelled,
    is a handler like any other. *)

From S2P Require Export OutboxService.

(** ** The policy *)

Definition DOCUMENT_DELIVERY_OUTBOX_DEFAULT_DRAIN_LIMIT : Z := 25.
Definition DOCUMENT_DELIVERY_OUTBOX_MAX_DRAIN_LIMIT : Z := 100.
Definition DEFAULT_RETRY_BASE_DELAY_SECONDS : Z := 30.
Definition DEFAULT_RETRY_MAX_DELAY_SECONDS : Z := 1800.
Definition DOCUMENT_DELIVERY_OUTBOX_DRAIN_JOB_NAME : jstr := js "cf-frappe.document-delivery-outbox.drain".

(** [DocumentDeliveryOutboxDeliveryOutcome] and [DocumentDeliveryOutboxDrainResult]. *)
Inductive OutboxDeliveryStatus := OutboxOutcomeDelivered | OutboxOutcomeFailed.
#[export] Instance OutboxDeliveryStatus_eq_dec : EqDecision OutboxDeliveryStatus.
Proof. solve_decision. Defined.

Record DocumentDeliveryOutboxDeliveryOutcome := {
  odo_outboxId : jstr;
  odo_target : DocumentDeliveryOutboxTarget;
  odo_status : OutboxDeliveryStatus;
  odo_attempts : Z;
  odo_error : option jstr;
  odo_retryAt : option jstr
}.

Record DocumentDeliveryOutboxDrainResult := {
  odr_tenantId : jstr;
  odr_claimed : nat;
  odr_delivered : nat;
  odr_failed : nat;
  odr_outcomes : list DocumentDeliveryOutboxDeliveryOutcome
}.

Definition outbox_outcome_text (status : OutboxDeliveryStatus) : jstr :=
  match status with OutboxOutcomeDelivered => js "delivered" | OutboxOutcomeFailed => js "failed" end.

(** [documentDeliveryOutboxDrainLimit(limit)]. *)
Definition documentDeliveryOutboxDrainLimit (limit : option num) : res Z :=
  match limit with
  | None => Ok DOCUMENT_DELIVERY_OUTBOX_DEFAULT_DRAIN_LIMIT
  | Some limit =>
      match num_safe_integer limit with
      | Some l => _ ← ensure ((0 <? l)%Z && (l <=? DOCUMENT_DELIVERY_OUTBOX_MAX_DRAIN_LIMIT)%Z) badRequest; Ok l
      | None => Throw badRequest
      end
  end.

(** [parseDocumentDeliveryOutboxDrainJobLimit(value)] and
    [parseDocumentDeliveryOutboxDrainJobClaimId(value)]. *)
Definition parseDocumentDeliveryOutboxDrainJobLimit (v : value) : res (option num) :=
  match v with
  | VUndef => Ok None
  | VNum n => limit ← documentDeliveryOutboxDrainLimit (Some n); Ok (Some (num_of_Z limit))
  | _ => Throw badRequest
  end.
Definition parseDocumentDeliveryOutboxDrainJobClaimId (v : value) : res (option jstr) :=
  match v with
  | VUndef => Ok None
  | VStr s => if decide (trim s = []) then Throw badRequest else Ok (Some s)
  | _ => Throw badRequest
  end.

(** [documentDeliveryOutboxDrainResultJson(result)]. *)
Definition documentDeliveryOutboxDrainResultJson (result : DocumentDeliveryOutboxDrainResult) : data :=
  [(js "tenantId", VStr (odr_tenantId result)); (js "claimed", vint (Z.of_nat (odr_claimed result)));
   (js "delivered", vint (Z.of_nat (odr_delivered result))); (js "failed", vint (Z.of_nat (odr_failed result)));
   (js "outcomes", VArr ((λ outcome, VObj (
      [(js "outboxId", VStr (odo_outboxId outcome)); (js "target", VStr (outbox_target_text (odo_target outcome)));
       (js "status", VStr (outbox_outcome_text (odo_status outcome))); (js "attempts", vint (odo_attempts outcome))] ++
      optional_entry (js "error") (VStr <$> odo_error outcome) ++
      optional_entry (js "retryAt") (VStr <$> odo_retryAt outcome))) <$> odr_outcomes result))].

(** [documentDeliveryOutboxRecordClaimId(record)]. *)
Definition documentDeliveryOutboxRecordClaimId (record : DocumentDeliveryOutboxRecord) : res jstr :=
  match dor_claimId record with
  | Some claimId => if decide (trim claimId = []) then Throw badRequest else Ok claimId
  | None => Throw badRequest
  end.

(** [documentDeliveryOutboxRetryDelaySeconds(value, label)]. *)
Definition documentDeliveryOutboxRetryDelaySeconds (delay : num) : res Z :=
  match num_safe_integer delay with
  | Some seconds => _ ← ensure (0 <? seconds)%Z badRequest; Ok seconds
  | None => Throw badRequest
  end.

(** [documentDeliveryOutboxRetryAt(command)]; as in [retry_delay], the power is exact
    until it is far above the most that is waited. *)
Definition documentDeliveryOutboxRetryAt `{DateHost} (now : jstr) (attempts baseDelaySeconds maxDelaySeconds : Z) : jstr :=
  iso_after now (Z.min maxDelaySeconds (baseDelaySeconds * 2 ^ Z.max 0 (attempts - 1))).

(** ** The source of a record *)

Definition is_number (v : value) : bool := match v with VNum _ => true | _ => false end.
Definition is_object (v : value) : bool := match v with VObj _ => true | _ => false end.

(** The property of an object. *)
Definition property (key : jstr) (v : value) : value := match v with VObj fields => vget key fields | _ => VUndef end.
Definition string_properties (keys : list jstr) (v : value) : bool := forallb (λ key, is_string (property key v)) keys.

(** [isDomainEvent(value)] and [isDocumentSnapshot(value)], with [hasDomainEventPayloadKind]. *)
Definition hasDomainEventPayloadKind (v : value) : bool :=
  is_object v && is_object (property (js "payload") v) && is_string (property (js "kind") (property (js "payload") v)).
Definition isDomainEvent (v : value) : bool :=
  is_object v && string_properties [js "id"; js "tenantId"; js "stream"] v && is_number (property (js "sequence") v) &&
  string_properties [js "type"; js "doctype"; js "documentName"; js "actorId"; js "occurredAt"] v &&
  hasDomainEventPayloadKind v && is_object (property (js "metadata") v).
Definition isDocumentSnapshot (v : value) : bool :=
  is_object v && string_properties [js "tenantId"; js "doctype"; js "name"] v && is_number (property (js "version") v) &&
  is_string (property (js "docstatus") v) && is_object (property (js "data") v) &&
  string_properties [js "createdAt"; js "updatedAt"] v.

(** [documentDeliveryOutboxSourceFromRecord(record)]: the event and the snapshot, as the
    objects that the record holds. *)
Definition documentDeliveryOutboxSourceFromRecord (record : DocumentDeliveryOutboxRecord) : res (value * option value) :=
  let event := vget (js "event") (dor_payload record) in
  if negb (isDomainEvent event) then Throw badRequest else
  let snapshot := vget (js "snapshot") (dor_payload record) in
  if is_nullish snapshot then Ok (event, None)
  else if negb (isDocumentSnapshot snapshot) then Throw badRequest
  else Ok (event, Some snapshot).

(** ** The consumer *)

Abbreviation OutboxCall := (M (Client DocumentStore)).

(** [DocumentDeliveryOutboxConsumerOutbox]. *)
Record DocumentDeliveryOutboxConsumerOutbox := {
  oco_claimPending : ClaimDocumentDeliveryOutboxCommand → OutboxCall (list DocumentDeliveryOutboxRecord);
  oco_markDelivered : CompleteDocumentDeliveryOutboxCommand → OutboxCall DocumentDeliveryOutboxRecord;
  oco_markFailed : FailDocumentDeliveryOutboxCommand → OutboxCall DocumentDeliveryOutboxRecord
}.

(** [DocumentDeliveryOutboxDeliveryHandlers]: what a handler returns is metadata, or nothing. *)
Abbreviation DeliveryHandler := (DocumentDeliveryOutboxRecord → OutboxCall (option data)).
Abbreviation DeliveryHandlers := (DocumentDeliveryOutboxTarget → option DeliveryHandler).

(** [DocumentDeliveryOutboxConsumerOptions], and the consumer that is constructed of them. *)
Record DocumentDeliveryOutboxConsumerOptions := {
  ocs_outbox : DocumentDeliveryOutboxConsumerOutbox;
  ocs_deliveries : DeliveryHandlers;
  ocs_baseDelaySeconds : option num;
  ocs_maxDelaySeconds : option num
}.
Record DocumentDeliveryOutboxConsumer := {
  ocn_outbox : DocumentDeliveryOutboxConsumerOutbox;
  ocn_deliveries : DeliveryHandlers;
  ocn_retryBaseDelaySeconds : Z;
  ocn_retryMaxDelaySeconds : Z
}.

(** [constructor(options)]. *)
Definition new_outbox_consumer (options : DocumentDeliveryOutboxConsumerOptions) : res DocumentDeliveryOutboxConsumer :=
  base ← documentDeliveryOutboxRetryDelaySeconds (default (num_of_Z DEFAULT_RETRY_BASE_DELAY_SECONDS) (ocs_baseDelaySeconds options));
  max ← documentDeliveryOutboxRetryDelaySeconds (default (num_of_Z DEFAULT_RETRY_MAX_DELAY_SECONDS) (ocs_maxDelaySeconds options));
  if (max <? base)%Z then Throw badRequest else
  Ok {| ocn_outbox := ocs_outbox options; ocn_deliveries := ocs_deliveries options;
        ocn_retryBaseDelaySeconds := base; ocn_retryMaxDelaySeconds := max |}.

(** [DrainDocumentDeliveryOutboxCommand]. *)
Record DrainDocumentDeliveryOutboxCommand := {
  doc_tenantId : jstr;
  doc_claimId : option jstr;
  doc_limit : option num;
  doc_now : option jstr
}.

Definition outbox_metadata (record : DocumentDeliveryOutboxRecord) : data :=
  [(js "target", VStr (outbox_target_text (dor_target record))); (js "sourceEventId", VStr (dor_sourceEventId record))].

Definition no_handler_error (target : DocumentDeliveryOutboxTarget) : jstr :=
  js "No document delivery handler is configured for target '" ++ outbox_target_text target ++ js "'".

Section consumer.
Context `{DateHost} (clock : nat → jstr) (message : error → jstr) (consumer : DocumentDeliveryOutboxConsumer).

(** The completion of a record. *)
Definition outbox_completion (record : DocumentDeliveryOutboxRecord) (claimId : jstr) (metadata : data)
    : CompleteDocumentDeliveryOutboxCommand :=
  {| cmo_tenantId := dor_tenantId record; cmo_outboxId := dor_id record; cmo_claimId := claimId; cmo_metadata := Some metadata |}.

(** [fail(record, claimId, now, error)]. *)
Definition outbox_fail (record : DocumentDeliveryOutboxRecord) (claimId now err : jstr)
    : OutboxCall DocumentDeliveryOutboxDeliveryOutcome :=
  let retryAt := documentDeliveryOutboxRetryAt now (dor_attempts record) (ocn_retryBaseDelaySeconds consumer)
    (ocn_retryMaxDelaySeconds consumer) in
  failed ← oco_markFailed (ocn_outbox consumer)
    {| foc_complete := outbox_completion record claimId (outbox_metadata record); foc_error := err; foc_retryAt := Some retryAt |};
  mret {| odo_outboxId := dor_id failed; odo_target := dor_target failed; odo_status := OutboxOutcomeFailed;
          odo_attempts := dor_attempts failed; odo_error := Some err; odo_retryAt := Some retryAt |}.

(** [deliver(record, now)]. *)
Definition outbox_deliver (now : jstr) (record : DocumentDeliveryOutboxRecord) : OutboxCall DocumentDeliveryOutboxDeliveryOutcome :=
  claimId ← m_lift (documentDeliveryOutboxRecordClaimId record);
  match ocn_deliveries consumer (dor_target record) with
  | None => outbox_fail record claimId now (no_handler_error (dor_target record))
  | Some handler =>
      catching (
        metadata ← handler record;
        delivered ← oco_markDelivered (ocn_outbox consumer)
          (outbox_completion record claimId (jm_spread (outbox_metadata record) (default [] metadata)));
        mret {| odo_outboxId := dor_id delivered; odo_target := dor_target delivered; odo_status := OutboxOutcomeDelivered;
                odo_attempts := dor_attempts delivered; odo_error := None; odo_retryAt := None |})
        (λ e, outbox_fail record claimId now (message e))
  end.

Definition outbox_outcome_count (status : OutboxDeliveryStatus) (outcomes : list DocumentDeliveryOutboxDeliveryOutcome) : nat :=
  length (filter (λ outcome, odo_status outcome = status) outcomes).

(** [drain(command)]. *)
Definition outbox_drain (command : DrainDocumentDeliveryOutboxCommand) : OutboxCall DocumentDeliveryOutboxDrainResult :=
  now ← match doc_now command with Some at_ => mret at_ | None => now clock end;
  limit ← m_lift (documentDeliveryOutboxDrainLimit (doc_limit command));
  claimed ← oco_claimPending (ocn_outbox consumer)
    {| coc_tenantId := doc_tenantId command; coc_claimId := doc_claimId command; coc_limit := Some limit; coc_now := Some now |};
  outcomes ← m_map (outbox_deliver now) claimed;
  mret {| odr_tenantId := doc_tenantId command; odr_claimed := length claimed;
          odr_delivered := outbox_outcome_count OutboxOutcomeDelivered outcomes;
          odr_failed := outbox_outcome_count OutboxOutcomeFailed outcomes; odr_outcomes := outcomes |}.
End consumer.

(** ** The job *)

(** The [handler] of [createDocumentDeliveryOutboxDrainJob]; [drain] is that of the
    consumer in the resources, if there is one. *)
Definition outbox_drain_handler (drain : option (DrainDocumentDeliveryOutboxCommand → OutboxCall DocumentDeliveryOutboxDrainResult))
    (tenantId : option jstr) (payload : data) : OutboxCall data :=
  match drain with
  | None => m_throw (notFound DOCUMENT_NOT_FOUND)
  | Some drain =>
      limit ← m_lift (parseDocumentDeliveryOutboxDrainJobLimit (vget (js "limit") payload));
      claimId ← m_lift (parseDocumentDeliveryOutboxDrainJobClaimId (vget (js "claimId") payload));
      result ← drain {| doc_tenantId := default (js "default") tenantId; doc_claimId := claimId; doc_limit := limit; doc_now := None |};
      mret (documentDeliveryOutboxDrainResultJson result)
  end.

(** ** Handlers *)

(** The services that the handlers are built of; [ods_queue] is [queueFromDomainEvent],
    whose deliveries have a status and may have a message, a rule and a recipient. *)
Record QueuedEmailDelivery := {
  qed_status : jstr;
  qed_messageId : option jstr;
  qed_ruleName : option jstr;
  qed_recipientId : option jstr
}.
Record EmailNotifications := {
  emn_send : value → option value → OutboxCall unit;
  emn_queue : option (value → option value → OutboxCall (list QueuedEmailDelivery))
}.

(** [hasQueuedDocumentDeliveryEmailMessageId(delivery)], with the message. *)
Definition queued_message (delivery : QueuedEmailDelivery) : option jstr :=
  if bool_decide (qed_status delivery = js "queued") then qed_messageId delivery else None.

Section handlers.
Context (recordFromDomainEvent : option (value → option value → OutboxCall unit)).
Context (emailNotifications : option EmailNotifications).
Context (enqueue_email : option (jstr → jstr → data → OutboxCall unit)).

(** The handler of [notification]. *)
Definition notification_handler (recordFromDomainEvent : value → option value → OutboxCall unit) : DeliveryHandler := λ record,
  source ← m_lift (documentDeliveryOutboxSourceFromRecord record);
  _ ← recordFromDomainEvent source.1 source.2;
  mret (Some [(js "deliveredBy", vstr "notifications")]).

(** A string property of the event of a source. *)
Definition event_text (key : jstr) (event : value) : jstr := match property key event with VStr s => s | _ => [] end.

(** The metadata of an email that is queued. *)
Definition queued_metadata (event : value) (delivery : QueuedEmailDelivery) : data :=
  [(js "sourceEventId", VStr (event_text (js "id") event)); (js "sourceEventType", VStr (event_text (js "type") event));
   (js "sourcePayloadKind", VStr (event_text (js "kind") (property (js "payload") event)))] ++
  optional_entry (js "ruleName") (VStr <$> qed_ruleName delivery) ++
  optional_entry (js "recipientId") (VStr <$> qed_recipientId delivery).

(** The handler of [email]. *)
Definition email_handler (emails : EmailNotifications) : DeliveryHandler := λ record,
  source ← m_lift (documentDeliveryOutboxSourceFromRecord record);
  match enqueue_email, emn_queue emails with
  | Some enqueue, Some queueFromDomainEvent =>
      deliveries ← queueFromDomainEvent source.1 source.2;
      _ ← m_map (λ delivery, match queued_message delivery with
        | Some messageId => enqueue (event_text (js "tenantId") source.1) messageId (queued_metadata source.1 delivery)
        | None => mret tt
        end) deliveries;
      mret (Some [(js "deliveredBy", vstr "email-queue"); (js "queued", vint (Z.of_nat (length deliveries)))])
  | _, _ =>
      _ ← emn_send emails source.1 source.2;
      mret (Some [(js "deliveredBy", vstr "email")])
  end.

(** [createDocumentDeliveryOutboxDeliveryHandlers(services)], given the handler of
    [realtime]. *)
Definition createDocumentDeliveryOutboxDeliveryHandlers (realtime : option DeliveryHandler) : DeliveryHandlers := λ target,
  match target with
  | TNotification => notification_handler <$> recordFromDomainEvent
  | TRealtime => realtime
  | TEmail => email_handler <$> emailNotifications
  end.
End handlers.

(** The consumer of the service of [OutboxService]. *)
Definition service_outbox `{Collation} (ids clock : nat → jstr) (env : nat → DocumentStore → DocumentStore)
    : DocumentDeliveryOutboxConsumerOutbox :=
  {| oco_claimPending := outbox_claimPending ids clock env;
     oco_markDelivered := outbox_markDelivered ids clock env;
     oco_markFailed := outbox_markFailed ids clock env |}.
