(* ===== verification/OutboxDrain.v ===== *)
(** * OutboxDrain: a drain delivers what it reports

    The drain of [OutboxConsumer] over the service of [OutboxService]: it keeps the
    outboxes, whatever its handlers do to the rest of the store, and each record that it
    reports as delivered was handled by this drain and is delivered in the store. *)

From S2P Require Export OutboxConsumer OutboxCorrect.

Lemma record_id t id l r : foldDocumentDeliveryOutboxRecord t id l = Some r → dor_id r = id.
Proof.
  revert r. induction l as [|e l IH] using rev_ind; intros r; [done|]. rewrite record_of_snoc. unfold fold_outbox_record_step.
  case_bool_decide as Hid; [|apply IH]. destruct (foldDocumentDeliveryOutboxRecord t id l) as [r0|] eqn:E.
  - specialize (IH r0 eq_refl). destruct (e_payload e); cbn in Hid |- *; try done; intros [= <-]; try done. by injection Hid.
  - destruct (e_payload e); cbn in Hid |- *; try done. intros [= <-]. by injection Hid.
Qed.

Section drain.
Context `{Collation} `{DateHost} (ids clock : nat → jstr) (env : nat → DocumentStore → DocumentStore) (message : error → jstr).
Context `{Henv : !Lawful env extends outbox_lives}.
Context (deliveries : DeliveryHandlers) (base max : Z).

Definition outbox_consumer : DocumentDeliveryOutboxConsumer :=
  {| ocn_outbox := service_outbox ids clock env; ocn_deliveries := deliveries;
     ocn_retryBaseDelaySeconds := base; ocn_retryMaxDelaySeconds := max |}.

(** The handlers keep the outboxes. *)
Definition handlers_keep : Prop :=
  ∀ target handler record, deliveries target = Some handler → Keeps extends outbox_lives (handler record).

Context (Hhandlers : handlers_keep).

Abbreviation Known K := (Stable extends outbox_lives K).
Abbreviation Runs K m Q := (runs extends outbox_lives K m Q).
Abbreviation events s stream := (stream_events (st_streams s) stream).

(** A handler ran for the record and returned. *)
Definition handled (record : DocumentDeliveryOutboxRecord) : Prop :=
  ∃ handler metadata c c', deliveries (dor_target record) = Some handler ∧ handler record c = (Ok metadata, c').

(** The record is delivered in the store. *)
Definition stored_delivered (record : DocumentDeliveryOutboxRecord) : DocumentStore → Prop :=
  at_outbox (dor_tenantId record) (λ stream s, delivered_in (dor_tenantId record) (dor_id record) (events s stream)).

#[local] Instance stored_stable record : Known (stored_delivered record).
Proof using Type.
  intros s s' Hi Hx (stream & Hs & Hd). exists stream. split; [done|]. by eapply (delivered_stable (dor_tenantId record) stream Hs).
Qed.

(** The outcome of a record that was claimed. *)
Definition drained (now : jstr) (record : DocumentDeliveryOutboxRecord) (outcome : DocumentDeliveryOutboxDeliveryOutcome)
    (s : DocumentStore) : Prop :=
  odo_outboxId outcome = dor_id record ∧
  match odo_status outcome with
  | OutboxOutcomeDelivered => handled record ∧ stored_delivered record s
  | OutboxOutcomeFailed => odo_error outcome ≠ None ∧
      odo_retryAt outcome = Some (documentDeliveryOutboxRetryAt now (dor_attempts record) base max)
  end.

#[local] Instance drained_stable now record outcome : Known (drained now record outcome).
Proof using Type. unfold drained. destruct (odo_status outcome); apply _. Qed.

Lemma runs_self {A} (K : DocumentStore → Prop) (m : M (Client DocumentStore) A) :
  Known K → Keeps extends outbox_lives m → Runs K m (λ a _, ∃ c c', m c = (Ok a, c')).
Proof using Type.
  intros HK Hm c Hi Hc. specialize (Hm K HK c Hi Hc). destruct (m c) as [r c'] eqn:E. destruct Hm as (? & ? & _).
  split_and!; [done..|]. intros a ->. by exists c, c'.
Qed.

Lemma runs_fail (K : DocumentStore → Prop) now record claimId err : Known K →
  Runs K (outbox_fail outbox_consumer record claimId now err) (drained now record).
Proof using Henv.
  intros HK. unfold outbox_fail. cbn [outbox_consumer ocn_outbox service_outbox oco_markFailed].
  call runs_bind; [by apply runs_failed|]. intros failed. apply runs_ret; [apply _|].
  intros s _ (_ & stream & _ & s0 & Hi0 & _ & _ & Hg). split; [|done]. cbn. apply (proj2 (working_named _ _) _ _ Hg).
Qed.

Lemma runs_outbox_deliver (K : DocumentStore → Prop) now record : Known K →
  Runs K (outbox_deliver message outbox_consumer now record) (drained now record).
Proof using Henv Hhandlers.
  intros HK. unfold outbox_deliver. call runs_lift_bind. intros claimId _. cbn [outbox_consumer ocn_deliveries].
  destruct (deliveries (dor_target record)) as [handler|] eqn:Eh; [|by apply runs_fail].
  apply runs_catching; [apply _|done| |intros e; by apply runs_fail].
  call runs_bind; [apply runs_self; [done|by eapply Hhandlers]|]. intros metadata.
  cbn [outbox_consumer ocn_outbox service_outbox oco_markDelivered].
  call runs_bind; [apply runs_delivered; apply _|]. intros delivered. apply runs_ret; [apply _|].
  intros s _ [[_ (c & c' & Hrun)] (stream & Hs & Hd & Hr)]. cbn in Hs, Hr. split; [by apply record_id in Hr|]. cbn.
  split; [by exists handler, metadata, c, c'|]. exists stream. split; [done|]. by exists delivered.
Qed.

Lemma outbox_outcome_counts outcomes : length outcomes =
  outbox_outcome_count OutboxOutcomeDelivered outcomes + outbox_outcome_count OutboxOutcomeFailed outcomes.
Proof using Type.
  unfold outbox_outcome_count. induction outcomes as [|outcome outcomes IH]; [done|]. rewrite !filter_cons. cbn [length]. rewrite IH.
  destruct (odo_status outcome); repeat (first [rewrite decide_True by done|rewrite decide_False by done]); cbn [length]; lia.
Qed.

(** The result of a drain, with what it claimed and when. *)
Definition drain_result (command : DrainDocumentDeliveryOutboxCommand) (result : DocumentDeliveryOutboxDrainResult)
    (s : DocumentStore) : Prop :=
  ∃ now claimed, (∀ at_, doc_now command = Some at_ → now = at_) ∧
    Forall2 (λ record outcome, drained now record outcome s) claimed (odr_outcomes result) ∧
    odr_claimed result = length claimed ∧ odr_claimed result = odr_delivered result + odr_failed result.

Lemma runs_drain command :
  Runs (λ _, True) (outbox_drain clock message outbox_consumer command) (drain_result command).
Proof using Henv Hhandlers.
  unfold outbox_drain. eapply (runs_bind _ _ _ _ _ (λ now _, ∀ at_, doc_now command = Some at_ → now = at_)); [apply _| |].
  { destruct (doc_now command); [apply runs_ret; [apply _|congruence]|]. eapply runs_mono; [apply runs_now; apply _|done|done]. }
  intros now. apply runs_pure. intros Hnow. call runs_lift_bind. intros limit _.
  cbn [outbox_consumer ocn_outbox service_outbox oco_claimPending]. call runs_skip.
  { eapply runs_mono; [apply (runs_claimed ids clock env (λ _, True)); apply _|done|done]. }
  intros claimed. call runs_bind.
  { eapply (runs_map _ _ _ _ (drained now)); [apply _..|]. intros record _. by apply runs_outbox_deliver; apply _. }
  intros outcomes. apply runs_ret; [apply _|]. intros s _ [_ HF]. exists now, claimed. cbn. split_and!; [done..|].
  rewrite (Forall2_length _ _ _ HF). apply outbox_outcome_counts.
Qed.
End drain.


(** ** Witness: of two records one is handled, and the other has no handler *)

Definition sample_deliveries : DeliveryHandlers := λ target,
  match target with TNotification => Some (λ _, mret None) | _ => None end.

Lemma sample_deliveries_keep : handlers_keep sample_deliveries.
Proof. intros target handler record Hh. destruct target; [|done..]. injection Hh as <-. by apply keeps_ret; apply _. Qed.

Definition sample_outbox_drain_command : DrainDocumentDeliveryOutboxCommand :=
  {| doc_tenantId := sample_outbox_tenant; doc_claimId := Some (js "us"); doc_limit := None;
     doc_now := Some (js "2026-01-02T00:00:00.000Z") |}.

Abbreviation sample_outbox_drain :=
  (@outbox_drain sample_date sample_clock (λ _, js "boom")
    (@outbox_consumer code_unit_collation sample_ids sample_clock (λ _ s, s) sample_deliveries 30 1800)
    sample_outbox_drain_command sample_outbox_enqueued).

(** What the drain returns, evaluated. *)
Definition sample_outbox_drained : DocumentDeliveryOutboxDrainResult :=
  Eval vm_compute in match sample_outbox_drain.1 with
    | Ok result => result
    | Throw _ => {| odr_tenantId := []; odr_claimed := 0; odr_delivered := 0; odr_failed := 0; odr_outcomes := [] |}
    end.

