(* ===== verification/DataPatches.v ===== *)
(** * DataPatches: the journal of data patches

    Models [ports/data-patch-log.ts], [application/data-patch-journal-policy.ts] and the
    in-memory journal ([adapters/in-memory/data-patch-log.ts]): a patch is claimed before
    it runs, and the journal keeps how its run, or the run of its rollback, ended. *)

From S2P Require Export Types Interference.

Definition patch_error (code : FrameworkErrorCode) : error := {| err_code := code; err_status := 409 |}.

(** ** What the journal holds *)

(** [AppliedDataPatch] and its neighbours. *)
Record AppliedDataPatch := {
  apd_id : jstr;
  apd_checksum : jstr;
  apd_appliedAt : jstr;
  apd_result : option value
}.
Record PendingDataPatch := { pdp_id : jstr; pdp_checksum : jstr; pdp_claimedAt : jstr }.
Record FailedDataPatch := { fdp_id : jstr; fdp_checksum : jstr; fdp_failedAt : jstr; fdp_error : jstr }.
Record RollbackPendingDataPatch := { rpd_applied : AppliedDataPatch; rpd_rollbackClaimedAt : jstr }.
Record RolledBackDataPatch := {
  rbd_applied : AppliedDataPatch;
  rbd_rolledBackAt : jstr;
  rbd_rollbackResult : option value
}.
Record RollbackFailedDataPatch := {
  rfd_applied : AppliedDataPatch;
  rfd_rollbackFailedAt : jstr;
  rfd_rollbackError : jstr
}.

(** [ClaimDataPatch], which a rollback is claimed with too, and the claim that is made. *)
Record ClaimDataPatch := {
  cdp_id : jstr;
  cdp_checksum : jstr;
  cdp_claimId : jstr;
  cdp_claimedAt : jstr
}.

(** [RecordedDataPatch]. *)
Inductive RecordedDataPatch :=
| RecordedPending (p : PendingDataPatch)
| RecordedApplied (p : AppliedDataPatch)
| RecordedFailed (p : FailedDataPatch)
| RecordedRollbackPending (p : RollbackPendingDataPatch)
| RecordedRolledBack (p : RolledBackDataPatch)
| RecordedRollbackFailed (p : RollbackFailedDataPatch).

(** [InMemoryDataPatchEntry]: the entries of claims keep the claim. *)
Inductive InMemoryDataPatchEntry :=
| EntryPending (p : PendingDataPatch) (claimId : jstr)
| EntryApplied (p : AppliedDataPatch)
| EntryFailed (p : FailedDataPatch) (claimId : jstr)
| EntryRollbackPending (p : RollbackPendingDataPatch) (claimId : jstr)
| EntryRolledBack (p : RolledBackDataPatch)
| EntryRollbackFailed (p : RollbackFailedDataPatch) (claimId : jstr).

(** What is recorded without a claim, and the fields that all statuses share. *)
Definition record_of_entry (entry : InMemoryDataPatchEntry) : RecordedDataPatch :=
  match entry with
  | EntryPending p _ => RecordedPending p
  | EntryApplied p => RecordedApplied p
  | EntryFailed p _ => RecordedFailed p
  | EntryRollbackPending p _ => RecordedRollbackPending p
  | EntryRolledBack p => RecordedRolledBack p
  | EntryRollbackFailed p _ => RecordedRollbackFailed p
  end.
Definition recorded_id (recorded : RecordedDataPatch) : jstr :=
  match recorded with
  | RecordedPending p => pdp_id p
  | RecordedApplied p => apd_id p
  | RecordedFailed p => fdp_id p
  | RecordedRollbackPending p => apd_id (rpd_applied p)
  | RecordedRolledBack p => apd_id (rbd_applied p)
  | RecordedRollbackFailed p => apd_id (rfd_applied p)
  end.
Definition recorded_checksum (recorded : RecordedDataPatch) : jstr :=
  match recorded with
  | RecordedPending p => pdp_checksum p
  | RecordedApplied p => apd_checksum p
  | RecordedFailed p => fdp_checksum p
  | RecordedRollbackPending p => apd_checksum (rpd_applied p)
  | RecordedRolledBack p => apd_checksum (rbd_applied p)
  | RecordedRollbackFailed p => apd_checksum (rfd_applied p)
  end.
Definition entry_checksum (entry : InMemoryDataPatchEntry) : jstr := recorded_checksum (record_of_entry entry).

Inductive DataPatchClaimResult :=
| ClaimClaimed (claim : ClaimDataPatch)
| ClaimApplied (p : AppliedDataPatch)
| ClaimPending (p : PendingDataPatch)
| ClaimFailed (p : FailedDataPatch).

Inductive DataPatchRollbackClaimResult :=
| RollbackClaimed (claim : ClaimDataPatch)
| RollbackClaimPending (p : PendingDataPatch)
| RollbackClaimFailed (p : FailedDataPatch)
| RollbackClaimRollbackPending (p : RollbackPendingDataPatch)
| RollbackClaimRolledBack (p : RolledBackDataPatch)
| RollbackClaimRollbackFailed (p : RollbackFailedDataPatch).

(** [CompleteDataPatch] and [FailDataPatch], of a run and of a rollback. *)
Record CompleteDataPatch := {
  cpd_id : jstr;
  cpd_checksum : jstr;
  cpd_claimId : jstr;
  cpd_at : jstr;
  cpd_result : option value
}.
Record FailDataPatch := {
  fld_id : jstr;
  fld_checksum : jstr;
  fld_claimId : jstr;
  fld_failedAt : jstr;
  fld_error : jstr
}.

(** ** The policy of the journal *)

Definition assertDataPatchChecksumMatches (planned recorded : jstr) : res unit :=
  ensure (bool_decide (planned = recorded)) (patch_error DATA_PATCH_CHECKSUM_MISMATCH).
Definition dataPatchRetryUnavailable : error := patch_error DATA_PATCH_RETRY_UNAVAILABLE.
Definition dataPatchApplyUnavailable : error := patch_error DATA_PATCH_APPLY_UNAVAILABLE.
Definition dataPatchRollbackRetryUnavailable : error := patch_error DATA_PATCH_ROLLBACK_RETRY_UNAVAILABLE.
Definition dataPatchRollbackUnavailable : error := patch_error DATA_PATCH_ROLLBACK_UNAVAILABLE.

(** [assertRetryableFailedJournal(journal, id, checksum)]. *)
Definition assertRetryableFailedJournal (journal : option InMemoryDataPatchEntry) (checksum : jstr) : res FailedDataPatch :=
  match journal with
  | None => Throw dataPatchRetryUnavailable
  | Some entry =>
      _ ← assertDataPatchChecksumMatches checksum (entry_checksum entry);
      match entry with
      | EntryFailed p _ => Ok p
      | EntryPending _ _ => Throw (patch_error DATA_PATCH_PENDING)
      | _ => Throw dataPatchRetryUnavailable
      end
  end.

(** [assertRetryableRollbackFailedJournal(journal, id, checksum)]. *)
Definition assertRetryableRollbackFailedJournal (journal : option InMemoryDataPatchEntry) (checksum : jstr)
    : res RollbackFailedDataPatch :=
  match journal with
  | None => Throw dataPatchRollbackRetryUnavailable
  | Some entry =>
      _ ← assertDataPatchChecksumMatches checksum (entry_checksum entry);
      match entry with
      | EntryRollbackFailed p _ => Ok p
      | EntryPending _ _ => Throw (patch_error DATA_PATCH_PENDING)
      | EntryFailed _ _ => Throw (patch_error DATA_PATCH_FAILED)
      | EntryRollbackPending _ _ => Throw (patch_error DATA_PATCH_ROLLBACK_PENDING)
      | _ => Throw dataPatchRollbackRetryUnavailable
      end
  end.

(** [assertRollbackClaimableJournal(journal, id, checksum)]. *)
Definition assertRollbackClaimableJournal (journal : option InMemoryDataPatchEntry) (checksum : jstr)
    : res InMemoryDataPatchEntry :=
  match journal with
  | None => Throw dataPatchRollbackUnavailable
  | Some entry => _ ← assertDataPatchChecksumMatches checksum (entry_checksum entry); Ok entry
  end.

(** ** The in-memory journal *)

Abbreviation patch_log := (list (jstr * InMemoryDataPatchEntry)).

(** [clonePatchResult(id, field, value)], of a result that may be absent. *)
Definition clonePatchResult (v : value) : res value :=
  if isJsonValue v then Ok (cloneJsonValue v) else Throw (patch_error DATA_PATCH_INVALID).
Definition clone_result (result : option value) : res (option value) :=
  match result with Some v => copy ← clonePatchResult v; Ok (Some copy) | None => Ok None end.

(** [cloneAppliedPatch(patch)] and its neighbours. *)
Definition cloneAppliedPatch (p : AppliedDataPatch) : res AppliedDataPatch :=
  result ← clone_result (apd_result p);
  Ok {| apd_id := apd_id p; apd_checksum := apd_checksum p; apd_appliedAt := apd_appliedAt p; apd_result := result |}.
Definition cloneRollbackPendingPatch (p : RollbackPendingDataPatch) : res RollbackPendingDataPatch :=
  applied ← cloneAppliedPatch (rpd_applied p);
  Ok {| rpd_applied := applied; rpd_rollbackClaimedAt := rpd_rollbackClaimedAt p |}.
Definition cloneRolledBackPatch (p : RolledBackDataPatch) : res RolledBackDataPatch :=
  applied ← cloneAppliedPatch (rbd_applied p);
  result ← clone_result (rbd_rollbackResult p);
  Ok {| rbd_applied := applied; rbd_rolledBackAt := rbd_rolledBackAt p; rbd_rollbackResult := result |}.
Definition cloneRollbackFailedPatch (p : RollbackFailedDataPatch) : res RollbackFailedDataPatch :=
  applied ← cloneAppliedPatch (rfd_applied p);
  Ok {| rfd_applied := applied; rfd_rollbackFailedAt := rfd_rollbackFailedAt p; rfd_rollbackError := rfd_rollbackError p |}.

(** [recordFromEntry(entry)]. *)
Definition recordFromEntry (entry : InMemoryDataPatchEntry) : res RecordedDataPatch :=
  match entry with
  | EntryPending p _ => Ok (RecordedPending p)
  | EntryApplied p => copy ← cloneAppliedPatch p; Ok (RecordedApplied copy)
  | EntryFailed p _ => Ok (RecordedFailed p)
  | EntryRollbackPending p _ => copy ← cloneRollbackPendingPatch p; Ok (RecordedRollbackPending copy)
  | EntryRolledBack p => copy ← cloneRolledBackPatch p; Ok (RecordedRolledBack copy)
  | EntryRollbackFailed p _ => copy ← cloneRollbackFailedPatch p; Ok (RecordedRollbackFailed copy)
  end.

(** [claimResult(entry)] and [rollbackClaimResult(entry)]. *)
Definition claimResult (entry : InMemoryDataPatchEntry) : res DataPatchClaimResult :=
  match entry with
  | EntryApplied p => copy ← cloneAppliedPatch p; Ok (ClaimApplied copy)
  | EntryFailed p _ => Ok (ClaimFailed p)
  | EntryPending p _ => Ok (ClaimPending p)
  | _ => Throw dataPatchApplyUnavailable
  end.
Definition rollbackClaimResult (entry : InMemoryDataPatchEntry) : res DataPatchRollbackClaimResult :=
  match entry with
  | EntryPending p _ => Ok (RollbackClaimPending p)
  | EntryFailed p _ => Ok (RollbackClaimFailed p)
  | EntryRollbackPending p _ => copy ← cloneRollbackPendingPatch p; Ok (RollbackClaimRollbackPending copy)
  | EntryRollbackFailed p _ => copy ← cloneRollbackFailedPatch p; Ok (RollbackClaimRollbackFailed copy)
  | EntryRolledBack p => copy ← cloneRolledBackPatch p; Ok (RollbackClaimRolledBack copy)
  | EntryApplied _ => Throw dataPatchRollbackUnavailable
  end.

(** [assertPendingClaim(entry, id, checksum, claimId)] and [assertRollbackPendingClaim]. *)
Definition assertPendingClaim (entry : option InMemoryDataPatchEntry) (checksum claimId : jstr) : res unit :=
  match entry with
  | Some (EntryPending p held) =>
      ensure (bool_decide (pdp_checksum p = checksum) && bool_decide (held = claimId)) (patch_error DATA_PATCH_PENDING)
  | _ => Throw (patch_error DATA_PATCH_PENDING)
  end.
Definition assertRollbackPendingClaim (entry : option InMemoryDataPatchEntry) (checksum claimId : jstr)
    : res RollbackPendingDataPatch :=
  match entry with
  | Some (EntryRollbackPending p held) =>
      _ ← ensure (bool_decide (apd_checksum (rpd_applied p) = checksum) && bool_decide (held = claimId))
        (patch_error DATA_PATCH_ROLLBACK_PENDING);
      Ok p
  | _ => Throw (patch_error DATA_PATCH_ROLLBACK_PENDING)
  end.

(** [recordedDataPatches()] and [appliedDataPatches()]. *)
Definition recorded_leb `{Collation} (left right : RecordedDataPatch) : bool := collation_leb (recorded_id left) (recorded_id right).
Definition recordedDataPatches `{Collation} (log : patch_log) : res (list RecordedDataPatch) :=
  records ← map_res recordFromEntry log.*2; Ok (isort recorded_leb records).
Definition appliedDataPatches `{Collation} (log : patch_log) : res (list AppliedDataPatch) :=
  records ← recordedDataPatches log;
  map_res cloneAppliedPatch (omap (λ recorded, match recorded with RecordedApplied p => Some p | _ => None end) records).

Definition set_entry (id : jstr) (entry : InMemoryDataPatchEntry) : M patch_log unit :=
  log ← m_get; m_put (jm_set id entry log).

(** [claimDataPatch(patch)]. *)
Definition claimDataPatch (patch : ClaimDataPatch) : M patch_log DataPatchClaimResult :=
  log ← m_get;
  match jm_get (cdp_id patch) log with
  | Some existing =>
      _ ← m_lift (assertDataPatchChecksumMatches (cdp_checksum patch) (entry_checksum existing));
      m_lift (claimResult existing)
  | None =>
      _ ← set_entry (cdp_id patch) (EntryPending
        {| pdp_id := cdp_id patch; pdp_checksum := cdp_checksum patch; pdp_claimedAt := cdp_claimedAt patch |} (cdp_claimId patch));
      mret (ClaimClaimed patch)
  end.

(** [completeDataPatch(patch)] and [failDataPatch(patch)]. *)
Definition completeDataPatch (patch : CompleteDataPatch) : M patch_log unit :=
  log ← m_get;
  _ ← m_lift (assertPendingClaim (jm_get (cpd_id patch) log) (cpd_checksum patch) (cpd_claimId patch));
  result ← m_lift (clone_result (cpd_result patch));
  set_entry (cpd_id patch) (EntryApplied
    {| apd_id := cpd_id patch; apd_checksum := cpd_checksum patch; apd_appliedAt := cpd_at patch; apd_result := result |}).
Definition failDataPatch (patch : FailDataPatch) : M patch_log unit :=
  log ← m_get;
  _ ← m_lift (assertPendingClaim (jm_get (fld_id patch) log) (fld_checksum patch) (fld_claimId patch));
  set_entry (fld_id patch) (EntryFailed
    {| fdp_id := fld_id patch; fdp_checksum := fld_checksum patch; fdp_failedAt := fld_failedAt patch;
       fdp_error := fld_error patch |} (fld_claimId patch)).

(** [retryFailedDataPatch(patch)]. *)
Definition retryFailedDataPatch (id checksum : jstr) : M patch_log unit :=
  log ← m_get;
  _ ← m_lift (assertRetryableFailedJournal (jm_get id log) checksum);
  m_put (jm_delete id log).

(** [retryFailedDataPatchRollback(patch)]. *)
Definition retryFailedDataPatchRollback (patch : ClaimDataPatch) : M patch_log ClaimDataPatch :=
  log ← m_get;
  existing ← m_lift (assertRetryableRollbackFailedJournal (jm_get (cdp_id patch) log) (cdp_checksum patch));
  result ← m_lift (clone_result (apd_result (rfd_applied existing)));
  _ ← set_entry (cdp_id patch) (EntryRollbackPending
    {| rpd_applied := {| apd_id := cdp_id patch; apd_checksum := cdp_checksum patch;
         apd_appliedAt := apd_appliedAt (rfd_applied existing); apd_result := result |};
       rpd_rollbackClaimedAt := cdp_claimedAt patch |} (cdp_claimId patch));
  mret patch.

(** [claimDataPatchRollback(patch)]. *)
Definition claimDataPatchRollback (patch : ClaimDataPatch) : M patch_log DataPatchRollbackClaimResult :=
  log ← m_get;
  existing ← m_lift (assertRollbackClaimableJournal (jm_get (cdp_id patch) log) (cdp_checksum patch));
  match existing with
  | EntryApplied applied =>
      _ ← set_entry (cdp_id patch) (EntryRollbackPending
        {| rpd_applied := applied; rpd_rollbackClaimedAt := cdp_claimedAt patch |} (cdp_claimId patch));
      mret (RollbackClaimed patch)
  | _ => m_lift (rollbackClaimResult existing)
  end.

(** What the end of a rollback keeps of its application. *)
Definition still_applied (id checksum : jstr) (existing : RollbackPendingDataPatch) : res AppliedDataPatch :=
  result ← clone_result (apd_result (rpd_applied existing));
  Ok {| apd_id := id; apd_checksum := checksum; apd_appliedAt := apd_appliedAt (rpd_applied existing); apd_result := result |}.

(** [completeDataPatchRollback(patch)] and [failDataPatchRollback(patch)]. *)
Definition completeDataPatchRollback (patch : CompleteDataPatch) : M patch_log unit :=
  log ← m_get;
  existing ← m_lift (assertRollbackPendingClaim (jm_get (cpd_id patch) log) (cpd_checksum patch) (cpd_claimId patch));
  applied ← m_lift (still_applied (cpd_id patch) (cpd_checksum patch) existing);
  result ← m_lift (clone_result (cpd_result patch));
  set_entry (cpd_id patch) (EntryRolledBack
    {| rbd_applied := applied; rbd_rolledBackAt := cpd_at patch; rbd_rollbackResult := result |}).
Definition failDataPatchRollback (patch : FailDataPatch) : M patch_log unit :=
  log ← m_get;
  existing ← m_lift (assertRollbackPendingClaim (jm_get (fld_id patch) log) (fld_checksum patch) (fld_claimId patch));
  applied ← m_lift (still_applied (fld_id patch) (fld_checksum patch) existing);
  set_entry (fld_id patch) (EntryRollbackFailed
    {| rfd_applied := applied; rfd_rollbackFailedAt := fld_failedAt patch; rfd_rollbackError := fld_error patch |} (fld_claimId patch)).
