(* ===== verification/DataPatchRunner.v ===== *)
(** * DataPatchRunner: planning and running data patches

    Models [core/data-patch.ts], [application/data-patch-definition-policy.ts],
    [data-patch-claim-policy.ts], [data-patch-run-policy.ts],
    [data-patch-apply-policy.ts], [data-patch-rollback-policy.ts],
    [data-patch-runner.ts] and [data-patch-service.ts] over the in-memory journal: which
    patches may run or be rolled back, and the loops that claim, run and complete them.
    Other runners may act at each [await], also while a patch runs. *)

From S2P Require Export EventStore DataPatches Interference.

(** The store of a runner: the journal, and the resources that patches work on. *)
Record PatchStore (R : Type) := { ps_log : patch_log; ps_resources : R }.
Arguments ps_log {R} _.
Arguments ps_resources {R} _.

Abbreviation PatchCall R := (M (Client (PatchStore R))).

(** [DataPatchDefinition]: what a patch runs returns [VUndef] for nothing. *)
Record DataPatchRollbackDefinition (R : Type) := { drd_label : option jstr; drd_run : PatchCall R value }.
Arguments drd_label {R} _.
Arguments drd_run {R} _.
Record DataPatchDefinition (R : Type) := {
  dpd_id : jstr;
  dpd_label : option jstr;
  dpd_checksum : jstr;
  dpd_run : PatchCall R value;
  dpd_rollback : option (DataPatchRollbackDefinition R)
}.
Arguments dpd_id {R} _.
Arguments dpd_label {R} _.
Arguments dpd_checksum {R} _.
Arguments dpd_run {R} _.
Arguments dpd_rollback {R} _.

(** [assertDataPatchId(id)]: [/^[a-z0-9][a-z0-9_.-]*$/u]. *)
Definition patch_id_start (c : N) : bool := (97 <=? c)%N && (c <=? 122)%N || (48 <=? c)%N && (c <=? 57)%N.
Definition patch_id_part (c : N) : bool := patch_id_start c || bool_decide (c ∈ js "_.-").
Definition assertDataPatchId (id : jstr) : res unit :=
  ensure (match id with c :: rest => patch_id_start c && forallb patch_id_part rest | [] => false end)
    {| err_code := DATA_PATCH_INVALID; err_status := 400 |}.

(** [assertDataPatchChecksum(checksum, id)]. *)
Definition assertDataPatchChecksum (checksum : jstr) : res unit :=
  ensure (negb (bool_decide (trim checksum = []))) {| err_code := DATA_PATCH_INVALID; err_status := 400 |}.

(** ** The policies *)

Section policies.
Context {R : Type}.
Abbreviation Patch := (DataPatchDefinition R).
Abbreviation records_by_id := (list (jstr * RecordedDataPatch)).

(** [defineDataPatch(definition)]: a frozen copy. *)
Definition defineDataPatch (patch : Patch) : res Patch :=
  _ ← assertDataPatchId (dpd_id patch);
  _ ← assertDataPatchChecksum (dpd_checksum patch);
  Ok patch.

(** [snapshotDataPatchDefinitions(patches)]. *)
Definition snapshotDataPatchDefinitions (patches : list Patch) : res (list Patch) := map_res defineDataPatch patches.

(** [normalizeDataPatchDefinitions(patches)]; [seen] holds the names before. *)
Fixpoint normalize_patches (seen : list jstr) (patches : list Patch) : res (list Patch) :=
  match patches with
  | [] => Ok []
  | patch :: patches =>
      definition ← defineDataPatch patch;
      if bool_decide (dpd_id definition ∈ seen) then Throw (patch_error DATA_PATCH_DUPLICATE)
      else rest ← normalize_patches (dpd_id definition :: seen) patches; Ok (definition :: rest)
  end.
Definition normalizeDataPatchDefinitions (patches : list Patch) : res (list Patch) := normalize_patches [] patches.

(** [snapshotUniqueDataPatchDefinitions(patches)], and the constructor of the service: its
    patches and the roles of its administrators. *)
Definition snapshotUniqueDataPatchDefinitions (patches : list Patch) : res (list Patch) := normalizeDataPatchDefinitions patches.
Definition new_patch_service (patches : list Patch) (adminRoles : option (list jstr)) : res (list Patch * list jstr) :=
  patches ← snapshotUniqueDataPatchDefinitions patches; Ok (patches, default [SYSTEM_MANAGER_ROLE] adminRoles).

(** [planDataPatchAdministrationAccess({ actor, adminRoles })]. *)
Definition planDataPatchAdministrationAccess (actor : Actor) (adminRoles : list jstr) : bool :=
  existsb (λ role, bool_decide (role ∈ actor_roles actor)) adminRoles.

Definition data_patch_not_found : error := notFound DATA_PATCH_NOT_FOUND.

(** [selectDataPatches(patches, patchIds)]. *)
Definition selectDataPatches (patches : list Patch) (patchIds : option (list jstr)) : res (list Patch) :=
  match patchIds with
  | None => Ok patches
  | Some [] => Throw badRequest
  | Some patchIds =>
      _ ← map_res assertDataPatchId patchIds;
      let selected := filter (λ patch, dpd_id patch ∈ patchIds) patches in
      let missing := filter (λ id, id ∉ dpd_id <$> selected) (js_unique patchIds) in
      _ ← ensure (bool_decide (missing = [])) data_patch_not_found;
      Ok selected
  end.

(** [selectDataPatch(patches, patchId)]. *)
Definition selectDataPatch (patches : list Patch) (patchId : jstr) : res Patch :=
  selected ← selectDataPatches patches (Some [patchId]);
  match selected with patch :: _ => Ok patch | [] => Throw data_patch_not_found end.

(** [assertDataPatchApplyLimit(limit)]. *)
Definition assertDataPatchApplyLimit (limit : option Z) : res unit :=
  match limit with Some limit => ensure (1 <=? limit)%Z badRequest | None => Ok tt end.

(** [dataPatchApplyClaimDecision(patch, result)]: the claim, or the patch that is skipped. *)
Definition dataPatchApplyClaimDecision (patch : Patch) (result : DataPatchClaimResult) : res (ClaimDataPatch + AppliedDataPatch) :=
  match result with
  | ClaimClaimed claim => Ok (inl claim)
  | ClaimApplied p => _ ← assertDataPatchChecksumMatches (dpd_checksum patch) (apd_checksum p); Ok (inr p)
  | ClaimPending p =>
      _ ← assertDataPatchChecksumMatches (dpd_checksum patch) (pdp_checksum p); Throw (patch_error DATA_PATCH_PENDING)
  | ClaimFailed p =>
      _ ← assertDataPatchChecksumMatches (dpd_checksum patch) (fdp_checksum p); Throw (patch_error DATA_PATCH_FAILED)
  end.

(** [dataPatchRollbackClaimDecision(patchId, result)]. *)
Definition dataPatchRollbackClaimDecision (result : DataPatchRollbackClaimResult) : res (ClaimDataPatch + RolledBackDataPatch) :=
  match result with
  | RollbackClaimed claim => Ok (inl claim)
  | RollbackClaimRolledBack p => Ok (inr p)
  | RollbackClaimPending _ => Throw (patch_error DATA_PATCH_PENDING)
  | RollbackClaimFailed _ => Throw (patch_error DATA_PATCH_FAILED)
  | RollbackClaimRollbackPending _ => Throw (patch_error DATA_PATCH_ROLLBACK_PENDING)
  | RollbackClaimRollbackFailed _ => Throw (patch_error DATA_PATCH_ROLLBACK_FAILED)
  end.

(** [assertRecordedDataPatchAllowsApplySkip(patch, recorded)]. *)
Definition assertRecordedDataPatchAllowsApplySkip (patch : Patch) (recorded : RecordedDataPatch) : res AppliedDataPatch :=
  _ ← assertDataPatchChecksumMatches (dpd_checksum patch) (recorded_checksum recorded);
  match recorded with
  | RecordedApplied p => Ok p
  | RecordedPending _ => Throw (patch_error DATA_PATCH_PENDING)
  | RecordedRollbackPending _ => Throw (patch_error DATA_PATCH_ROLLBACK_PENDING)
  | RecordedRollbackFailed _ => Throw (patch_error DATA_PATCH_ROLLBACK_FAILED)
  | RecordedRolledBack _ => Throw (patch_error DATA_PATCH_ROLLBACK_UNAVAILABLE)
  | RecordedFailed _ => Throw (patch_error DATA_PATCH_FAILED)
  end.

(** [dataPatchApplyRunSelection] and [dataPatchApplyPlanSelection]. *)
Definition limited (limit : option Z) (patches : list Patch) : list Patch :=
  match limit with Some limit => slice_to limit patches | None => patches end.
Definition dataPatchApplyRunSelection (selected pending : list Patch) (limit : option Z) : list Patch :=
  match limit with None => selected | Some limit => slice_to limit pending end.
Definition dataPatchApplyPlanSelection (pending : list Patch) (limit : option Z) : list Patch := limited limit pending.

(** [assertSelectedDataPatchPredecessorsApplied(patches, selected, recordedById)]; [blocked]
    tells that a patch before was not applied. *)
Fixpoint predecessors_applied (selectedIds : list jstr) (recordedById : records_by_id) (blocked : bool) (patches : list Patch) : res unit :=
  match patches with
  | [] => Ok tt
  | patch :: patches =>
      if bool_decide (dpd_id patch ∈ selectedIds)
      then
        if blocked then Throw (patch_error DATA_PATCH_ORDER_VIOLATION)
        else predecessors_applied selectedIds recordedById blocked patches
      else match jm_get (dpd_id patch) recordedById with
        | None => predecessors_applied selectedIds recordedById true patches
        | Some recorded =>
            _ ← assertDataPatchChecksumMatches (dpd_checksum patch) (recorded_checksum recorded);
            predecessors_applied selectedIds recordedById
              (match recorded with RecordedApplied _ => blocked | _ => true end) patches
        end
  end.
Definition assertSelectedDataPatchPredecessorsApplied (patches selected : list Patch) (recordedById : records_by_id) : res unit :=
  predecessors_applied (dpd_id <$> selected) recordedById false patches.

(** [assertDataPatchRollbackStatusReady(id, recorded)] and [assertDataPatchRollbackSuccessorSafe]. *)
Definition assertDataPatchRollbackStatusReady (recorded : RecordedDataPatch) : res unit :=
  match recorded with
  | RecordedPending _ => Throw (patch_error DATA_PATCH_PENDING)
  | RecordedFailed _ => Throw (patch_error DATA_PATCH_FAILED)
  | RecordedRollbackPending _ => Throw (patch_error DATA_PATCH_ROLLBACK_PENDING)
  | RecordedRollbackFailed _ => Throw (patch_error DATA_PATCH_ROLLBACK_FAILED)
  | RecordedApplied _ | RecordedRolledBack _ => Ok tt
  end.
Definition assertDataPatchRollbackSuccessorSafe (recorded : RecordedDataPatch) : res unit :=
  assertDataPatchRollbackStatusReady recorded.

(** [dataPatchRollbackPlanDecision(patch, recorded)]. *)
Inductive DataPatchRollbackPlanDecision := PlanInclude | PlanSkip | PlanStop.
Definition dataPatchRollbackPlanDecision (patch : Patch) (recorded : option RecordedDataPatch) : res DataPatchRollbackPlanDecision :=
  match recorded with
  | None => Ok PlanSkip
  | Some recorded =>
      _ ← assertDataPatchChecksumMatches (dpd_checksum patch) (recorded_checksum recorded);
      _ ← assertDataPatchRollbackStatusReady recorded;
      Ok (match recorded with
        | RecordedRolledBack _ => PlanSkip
        | _ => match dpd_rollback patch with None => PlanStop | Some _ => PlanInclude end
        end)
  end.

(** [assertSelectedDataPatchRollbackable(patch, recorded)]. *)
Definition assertSelectedDataPatchRollbackable (patch : Patch) (recorded : option RecordedDataPatch) : res unit :=
  match recorded with
  | None => Throw dataPatchRollbackUnavailable
  | Some recorded =>
      _ ← assertDataPatchChecksumMatches (dpd_checksum patch) (recorded_checksum recorded);
      _ ← assertDataPatchRollbackStatusReady recorded;
      match recorded with
      | RecordedRolledBack _ => Throw (patch_error DATA_PATCH_ROLLBACK_UNAVAILABLE)
      | _ => match dpd_rollback patch with None => Throw (patch_error DATA_PATCH_ROLLBACK_UNAVAILABLE) | Some _ => Ok tt end
      end
  end.

(** [assertDataPatchRollbackRetryable(patch, recorded)]. *)
Definition assertDataPatchRollbackRetryable (patch : Patch) (recorded : option RecordedDataPatch) : res unit :=
  match recorded with
  | None => Throw dataPatchRollbackRetryUnavailable
  | Some recorded =>
      _ ← assertDataPatchChecksumMatches (dpd_checksum patch) (recorded_checksum recorded);
      match recorded with
      | RecordedRollbackFailed _ =>
          match dpd_rollback patch with Some _ => Ok tt | None => Throw (patch_error DATA_PATCH_ROLLBACK_UNAVAILABLE) end
      | RecordedPending _ => Throw (patch_error DATA_PATCH_PENDING)
      | RecordedFailed _ => Throw (patch_error DATA_PATCH_FAILED)
      | RecordedRollbackPending _ => Throw (patch_error DATA_PATCH_ROLLBACK_PENDING)
      | RecordedApplied _ | RecordedRolledBack _ => Throw dataPatchRollbackRetryUnavailable
      end
  end.

(** The patches after the earliest of a selection, which is of patches of the list: all
    after the first that is selected. *)
Fixpoint after_selected (selectedIds : list jstr) (patches : list Patch) : list Patch :=
  match patches with
  | [] => []
  | patch :: patches => if bool_decide (dpd_id patch ∈ selectedIds) then patches else after_selected selectedIds patches
  end.

(** The loop of [assertDataPatchRollbackSuccessorsRolledBack]. *)
Definition successor_rolled_back (selectedIds : list jstr) (recordedById : records_by_id) (patch : Patch) : res unit :=
  if bool_decide (dpd_id patch ∈ selectedIds) then Ok tt
  else match jm_get (dpd_id patch) recordedById with
    | None => Ok tt
    | Some recorded =>
        _ ← assertDataPatchChecksumMatches (dpd_checksum patch) (recorded_checksum recorded);
        _ ← assertDataPatchRollbackSuccessorSafe recorded;
        match recorded with RecordedRolledBack _ => Ok tt | _ => Throw (patch_error DATA_PATCH_ORDER_VIOLATION) end
    end.
Definition assertDataPatchRollbackSuccessorsRolledBack (patches selected : list Patch) (recordedById : records_by_id) : res unit :=
  let selectedIds := dpd_id <$> selected in
  _ ← map_res (successor_rolled_back selectedIds recordedById) (after_selected selectedIds patches);
  Ok tt.

(** [planSelectedDataPatchRollback(patches, selected, limit, recordedById)]. *)
Definition planSelectedDataPatchRollback (patches selected : list Patch) (limit : option Z) (recordedById : records_by_id)
    : res (list Patch) :=
  _ ← map_res (λ patch, assertSelectedDataPatchRollbackable patch (jm_get (dpd_id patch) recordedById)) selected;
  _ ← assertDataPatchRollbackSuccessorsRolledBack patches selected recordedById;
  Ok (limited limit (reverse selected)).

(** The loop of [planAutomaticDataPatchRollback] over the patches, the last first;
    [rollback] holds those included. *)
Fixpoint automatic_rollback (limit : option Z) (recordedById : records_by_id) (rollback : list Patch) (patches : list Patch)
    : res (list Patch) :=
  match patches with
  | [] => Ok rollback
  | patch :: patches =>
      decision ← dataPatchRollbackPlanDecision patch (jm_get (dpd_id patch) recordedById);
      match decision with
      | PlanSkip => automatic_rollback limit recordedById rollback patches
      | PlanStop => Ok rollback
      | PlanInclude =>
          let rollback := rollback ++ [patch] in
          match limit with
          | Some limit' =>
              if (limit' <=? Z.of_nat (length rollback))%Z then Ok rollback
              else automatic_rollback limit recordedById rollback patches
          | None => automatic_rollback limit recordedById rollback patches
          end
      end
  end.
Definition planAutomaticDataPatchRollback (patches : list Patch) (limit : option Z) (recordedById : records_by_id) : res (list Patch) :=
  automatic_rollback limit recordedById [] (reverse patches).

(** [assertDataPatchRollbackRetryableWithSuccessors(patches, patch, recordedById)]. *)
Definition assertDataPatchRollbackRetryableWithSuccessors (patches : list Patch) (patch : Patch) (recordedById : records_by_id)
    : res unit :=
  _ ← assertDataPatchRollbackRetryable patch (jm_get (dpd_id patch) recordedById);
  assertDataPatchRollbackSuccessorsRolledBack patches [patch] recordedById.

End policies.

(** ** The runner *)

(** [DataPatchRunRecord], and [DataPatchRollbackRecord], whose time is of the rollback. *)
Record DataPatchRunRecord := { prr_id : jstr; prr_checksum : jstr; prr_at : jstr; prr_result : option value }.
Record DataPatchRunResult := { dpr_applied : list DataPatchRunRecord; dpr_skipped : list AppliedDataPatch }.
Record DataPatchRollbackRunResult := { drr_rolledBack : list DataPatchRunRecord; drr_skipped : list RolledBackDataPatch }.

(** [normalizeDataPatchRunResult(result, label)]. *)
Definition normalizeDataPatchRunResult (result : value) : res (option value) :=
  match result with
  | VUndef => Ok None
  | _ => if isJsonValue result then Ok (Some (cloneJsonValue result)) else Throw badRequest
  end.

(** [dataPatchRunRecord] and the commands that complete or fail a claim. *)
Definition dataPatchRunRecord (id checksum at_ : jstr) (result : option value) : DataPatchRunRecord :=
  {| prr_id := id; prr_checksum := checksum; prr_at := at_; prr_result := result |}.
Definition dataPatchRunCompleteCommand (record : DataPatchRunRecord) (claimId : jstr) : CompleteDataPatch :=
  {| cpd_id := prr_id record; cpd_checksum := prr_checksum record; cpd_claimId := claimId; cpd_at := prr_at record;
     cpd_result := prr_result record |}.
Definition dataPatchRunFailureCommand (id checksum claimId failedAt err : jstr) : FailDataPatch :=
  {| fld_id := id; fld_checksum := checksum; fld_claimId := claimId; fld_failedAt := failedAt; fld_error := err |}.

(** [{ ...record, status: applied }]. *)
Definition appliedPatchFromRecord (record : DataPatchRunRecord) : AppliedDataPatch :=
  {| apd_id := prr_id record; apd_checksum := prr_checksum record; apd_appliedAt := prr_at record; apd_result := prr_result record |}.

Definition on_log {R A} (m : M patch_log A) : M (PatchStore R) A := λ s,
  let (r, log) := m (ps_log s) in (r, {| ps_log := log; ps_resources := ps_resources s |}).

Section runner.
Context {R : Type} `{Collation} (ids clock : nat → jstr) (message : error → jstr).
Context (env : nat → PatchStore R → PatchStore R).

Abbreviation Patch := (DataPatchDefinition R).
Abbreviation Call := (PatchCall R).

Definition log_call {A} (m : M patch_log A) : Call A := update env (on_log m).

(** [new Map((await this.log.recordedDataPatches()).map((patch) => [patch.id, patch]))]. *)
Definition recorded_by_id : Call (list (jstr * RecordedDataPatch)) :=
  records ← observe env (λ s, recordedDataPatches (ps_log s));
  mret (jm_of_list ((λ recorded, (recorded_id recorded, recorded)) <$> records)).

(** The claim of a patch, by a new identifier. *)
Definition new_claim (patch : Patch) : Call ClaimDataPatch :=
  claimId ← next_id ids;
  at_ ← now clock;
  mret {| cdp_id := dpd_id patch; cdp_checksum := dpd_checksum patch; cdp_claimId := claimId; cdp_claimedAt := at_ |}.

(** The [try] around a run, whose [catch] records the failure and throws on. *)
Definition run_claimed (run : Call value) (fail : FailDataPatch → M patch_log unit) (patch : Patch) (claimId : jstr)
    : Call (option value) :=
  catching (result ← run; m_lift (normalizeDataPatchRunResult result))
    (λ e, at_ ← now clock;
      _ ← log_call (fail (dataPatchRunFailureCommand (dpd_id patch) (dpd_checksum patch) claimId at_ (message e)));
      m_throw e).

(** The run of a claimed patch, and of the rollback of one, up to the completion. *)
Definition complete_claimed (run : Call value) (fail : FailDataPatch → M patch_log unit)
    (complete : CompleteDataPatch → M patch_log unit) (patch : Patch) (claimId : jstr) : Call DataPatchRunRecord :=
  result ← run_claimed run fail patch claimId;
  at_ ← now clock;
  let record := dataPatchRunRecord (dpd_id patch) (dpd_checksum patch) at_ result in
  _ ← log_call (complete (dataPatchRunCompleteCommand record claimId));
  mret record.

(** [pendingPatches(patches)]. *)
Fixpoint pending_loop (recordedById : list (jstr * RecordedDataPatch)) (patches : list Patch) : res (list Patch) :=
  match patches with
  | [] => Ok []
  | patch :: patches =>
      match jm_get (dpd_id patch) recordedById with
      | None => rest ← pending_loop recordedById patches; Ok (patch :: rest)
      | Some recorded => _ ← assertRecordedDataPatchAllowsApplySkip patch recorded; pending_loop recordedById patches
      end
  end.
Definition pendingPatches (patches : list Patch) : Call (list Patch) :=
  planned ← m_lift (normalizeDataPatchDefinitions patches);
  recordedById ← recorded_by_id;
  m_lift (pending_loop recordedById planned).

(** One turn of the loop of [apply]: the record of the run, or the patch that is skipped. *)
Definition apply_turn (recordedById : list (jstr * RecordedDataPatch)) (patch : Patch) : Call (DataPatchRunRecord + AppliedDataPatch) :=
  match jm_get (dpd_id patch) recordedById with
  | Some existing => skipped ← m_lift (assertRecordedDataPatchAllowsApplySkip patch existing); mret (inr skipped)
  | None =>
      claim ← new_claim patch;
      claimed ← log_call (claimDataPatch claim);
      decision ← m_lift (dataPatchApplyClaimDecision patch claimed);
      match decision with
      | inr skipped => mret (inr skipped)
      | inl held =>
          record ← complete_claimed (dpd_run patch) failDataPatch completeDataPatch patch (cdp_claimId held);
          mret (inl record)
      end
  end.

(** What the loop of [apply] records of a patch that it claimed or found applied. *)
Definition learn_applied (recordedById : list (jstr * RecordedDataPatch)) (patch : Patch) (outcome : DataPatchRunRecord + AppliedDataPatch)
    : list (jstr * RecordedDataPatch) :=
  let recorded := match outcome with inl record => appliedPatchFromRecord record | inr skipped => skipped end in
  match jm_get (dpd_id patch) recordedById with
  | Some _ => recordedById
  | None => jm_set (apd_id recorded) (RecordedApplied recorded) recordedById
  end.

(** The loop of [apply]. *)
Fixpoint apply_loop (recordedById : list (jstr * RecordedDataPatch)) (patches : list Patch)
    : Call (list (DataPatchRunRecord + AppliedDataPatch)) :=
  match patches with
  | [] => mret []
  | patch :: patches =>
      outcome ← apply_turn recordedById patch;
      rest ← apply_loop (learn_applied recordedById patch outcome) patches;
      mret (outcome :: rest)
  end.

Definition run_records {A} (outcomes : list (DataPatchRunRecord + A)) : list DataPatchRunRecord :=
  omap (λ outcome, match outcome with inl record => Some record | inr _ => None end) outcomes.
Definition skipped_records {A} (outcomes : list (DataPatchRunRecord + A)) : list A :=
  omap (λ outcome, match outcome with inl _ => None | inr skipped => Some skipped end) outcomes.

(** [apply(patches)]. *)
Definition apply_patches (patches : list Patch) : Call DataPatchRunResult :=
  planned ← m_lift (normalizeDataPatchDefinitions patches);
  recordedById ← recorded_by_id;
  outcomes ← apply_loop recordedById planned;
  mret {| dpr_applied := run_records outcomes; dpr_skipped := skipped_records outcomes |}.

(** [rollbackClaimedPatch(patch, claim)]. *)
Definition rollbackClaimedPatch (patch : Patch) (claim : ClaimDataPatch) : Call DataPatchRunRecord :=
  match dpd_rollback patch with
  | None => m_throw (patch_error DATA_PATCH_ROLLBACK_UNAVAILABLE)
  | Some rollback => complete_claimed (drd_run rollback) failDataPatchRollback completeDataPatchRollback patch (cdp_claimId claim)
  end.

(** One turn of the loop of [rollback]. *)
Definition rollback_turn (patch : Patch) : Call (DataPatchRunRecord + RolledBackDataPatch) :=
  match dpd_rollback patch with
  | None => m_throw (patch_error DATA_PATCH_ROLLBACK_UNAVAILABLE)
  | Some _ =>
      claim ← new_claim patch;
      claimed ← log_call (claimDataPatchRollback claim);
      decision ← m_lift (dataPatchRollbackClaimDecision claimed);
      match decision with
      | inr skipped => mret (inr skipped)
      | inl held => record ← rollbackClaimedPatch patch held; mret (inl record)
      end
  end.

(** [rollback(patches)]. *)
Definition rollback_patches (patches : list Patch) : Call DataPatchRollbackRunResult :=
  planned ← m_lift (normalizeDataPatchDefinitions patches);
  outcomes ← m_map rollback_turn planned;
  mret {| drr_rolledBack := run_records outcomes; drr_skipped := skipped_records outcomes |}.

(** [retryRollbackFailed(patch)] of the runner. *)
Definition retry_rollback (patch : Patch) : Call DataPatchRollbackRunResult :=
  planned ← m_lift (defineDataPatch patch);
  match dpd_rollback planned with
  | None => m_throw (patch_error DATA_PATCH_ROLLBACK_UNAVAILABLE)
  | Some _ =>
      asked ← new_claim planned;
      claim ← log_call (retryFailedDataPatchRollback asked);
      record ← rollbackClaimedPatch planned claim;
      mret {| drr_rolledBack := [record]; drr_skipped := [] |}
  end.

(** ** The service *)

(** What the constructor keeps of [DataPatchServiceOptions]. *)
Context (patches : list Patch) (adminRoles : list jstr).

(** [DataPatchApplyOptions] and [DataPatchRollbackOptions]. *)
Record DataPatchApplyOptions := { dao_patchIds : option (list jstr); dao_limit : option Z }.

Definition authorize_patches (actor : Actor) : Call unit :=
  m_ensure (planDataPatchAdministrationAccess actor adminRoles) permissionDenied.

(** [this.runner()]. *)
Definition patch_runner : Call unit := _ ← m_lift (snapshotDataPatchDefinitions patches); mret tt.

Definition assertPredecessorsApplied (selected : list Patch) : Call unit :=
  recordedById ← recorded_by_id;
  m_lift (assertSelectedDataPatchPredecessorsApplied patches selected recordedById).

(** The beginning of [patchesForApply] and [patchesForPlan]. *)
Definition selected_for_apply (options : DataPatchApplyOptions) : Call (list Patch) :=
  _ ← m_lift (assertDataPatchApplyLimit (dao_limit options));
  _ ← patch_runner;
  selected ← m_lift (selectDataPatches patches (dao_patchIds options));
  _ ← match dao_patchIds options with Some _ => assertPredecessorsApplied selected | None => mret tt end;
  mret selected.
Definition patchesForApply (options : DataPatchApplyOptions) : Call (list Patch) :=
  selected ← selected_for_apply options;
  pending ← match dao_limit options with None => mret [] | Some _ => pendingPatches selected end;
  mret (dataPatchApplyRunSelection selected pending (dao_limit options)).
Definition patchesForPlan (options : DataPatchApplyOptions) : Call (list Patch) :=
  selected ← selected_for_apply options;
  pending ← pendingPatches selected;
  mret (dataPatchApplyPlanSelection pending (dao_limit options)).

(** [patchesForRollbackPlan(options)] and [patchForRollbackRetry(patchId)]. *)
Definition patchesForRollbackPlan (options : DataPatchApplyOptions) : Call (list Patch) :=
  _ ← m_lift (assertDataPatchApplyLimit (dao_limit options));
  recordedById ← recorded_by_id;
  match dao_patchIds options with
  | Some patchIds =>
      selected ← m_lift (selectDataPatches patches (Some patchIds));
      m_lift (planSelectedDataPatchRollback patches selected (dao_limit options) recordedById)
  | None => m_lift (planAutomaticDataPatchRollback patches (dao_limit options) recordedById)
  end.
Definition patchForRollbackRetry (patchId : jstr) : Call Patch :=
  patch ← m_lift (selectDataPatch patches patchId);
  recordedById ← recorded_by_id;
  _ ← m_lift (assertDataPatchRollbackRetryableWithSuccessors patches patch recordedById);
  mret patch.

(** [apply(actor, options)], [rollback(actor, options)], [retryFailed(actor, patchId)],
    [retryRollbackFailed(actor, patchId)] and the plans. *)
Definition service_apply (actor : Actor) (options : DataPatchApplyOptions) : Call DataPatchRunResult :=
  _ ← authorize_patches actor;
  _ ← patch_runner;
  planned ← patchesForApply options;
  apply_patches planned.
Definition service_rollback (actor : Actor) (options : DataPatchApplyOptions) : Call DataPatchRollbackRunResult :=
  _ ← authorize_patches actor;
  _ ← patch_runner;
  planned ← patchesForRollbackPlan options;
  rollback_patches planned.
Definition service_retryFailed (actor : Actor) (patchId : jstr) : Call DataPatchRunResult :=
  _ ← authorize_patches actor;
  patch ← m_lift (selectDataPatch patches patchId);
  _ ← assertPredecessorsApplied [patch];
  _ ← log_call (retryFailedDataPatch (dpd_id patch) (dpd_checksum patch));
  _ ← patch_runner;
  apply_patches [patch].
Definition service_retryRollbackFailed (actor : Actor) (patchId : jstr) : Call DataPatchRollbackRunResult :=
  _ ← authorize_patches actor;
  _ ← patch_runner;
  patch ← patchForRollbackRetry patchId;
  retry_rollback patch.
Definition service_planApply (actor : Actor) (options : DataPatchApplyOptions) : Call (list jstr) :=
  _ ← authorize_patches actor; planned ← patchesForPlan options; mret (dpd_id <$> planned).
Definition service_planRollback (actor : Actor) (options : DataPatchApplyOptions) : Call (list jstr) :=
  _ ← authorize_patches actor; planned ← patchesForRollbackPlan options; mret (dpd_id <$> planned).
Definition service_planRollbackRetry (actor : Actor) (patchId : jstr) : Call jstr :=
  _ ← authorize_patches actor; patch ← patchForRollbackRetry patchId; mret (dpd_id patch).
End runner.
