(* ===== verification/DataPatchPlans.v ===== *)
(** * DataPatchPlans: which patches the service plans

    What the policies of [DataPatchRunner] select, and the order of rollbacks: a patch is
    rolled back only after every later one. *)

From S2P Require Export DataPatchRunner.

Section plans.
Context {R : Type}.
Abbreviation Patch := (DataPatchDefinition R).

(** ** Selections *)

Lemma defined_patch (patch planned : Patch) : defineDataPatch patch = Ok planned → planned = patch.
Proof using Type. unfold defineDataPatch. intros Hd. by inv_res. Qed.

Lemma normalized_patches (patches planned : list Patch) :
  normalizeDataPatchDefinitions patches = Ok planned → planned = patches ∧ NoDup (dpd_id <$> patches).
Proof using Type.
  unfold normalizeDataPatchDefinitions. assert (∀ seen, normalize_patches seen patches = Ok planned →
    planned = patches ∧ NoDup (dpd_id <$> patches) ∧ ∀ id, id ∈ dpd_id <$> patches → id ∉ seen) as Hgen.
  { revert planned. induction patches as [|patch patches IH]; intros planned seen Hn; cbn in Hn.
    { injection Hn as <-. split_and!; [done|by constructor|]. intros id Hid. by apply elem_of_nil in Hid. }
    apply bind_ok in Hn as (definition & ->%defined_patch & Hn). case_bool_decide as Hs; [done|].
    apply bind_ok in Hn as (rest & (-> & Hnd & Hseen)%IH & [= <-]).
    split_and!; [done| |].
    - rewrite fmap_cons. constructor; [|done]. intros Hin. by apply (Hseen _ Hin); left.
    - intros id [->|Hin]%elem_of_cons; [done|]. intros Hid. by apply (Hseen _ Hin); right. }
  intros Hn. apply Hgen in Hn. naive_solver.
Qed.

Lemma selected_patches (patches selected : list Patch) patchIds : selectDataPatches patches patchIds = Ok selected →
  selected = match patchIds with None => patches | Some patchIds => filter (λ patch, dpd_id patch ∈ patchIds) patches end.
Proof using Type. destruct patchIds as [[|patchId patchIds]|]; cbn -[filter]; intros Hs; by inv_res. Qed.

Lemma selected_patches_from (patches selected : list Patch) patchIds : selectDataPatches patches patchIds = Ok selected → selected ⊆ patches.
Proof using Type. intros ->%selected_patches patch. destruct patchIds; [|done]. by intros [_ ?]%list_elem_of_filter. Qed.

Lemma selected_one (patches : list Patch) patchId patch : selectDataPatch patches patchId = Ok patch → patch ∈ patches.
Proof using Type.
  unfold selectDataPatch. intros Hs. apply bind_ok in Hs as (selected & Hs & Hp). apply selected_patches_from in Hs.
  destruct selected as [|p ps]; [done|]. injection Hp as ->. apply Hs. by left.
Qed.

Lemma slice_from {A} limit (l : list A) : slice_to limit l ⊆ l.
Proof using Type. unfold slice_to. intros x. destruct (limit <? 0)%Z; intros Hx; (eapply subseteq_take; exact Hx). Qed.

Lemma pending_from recordedById (patches pending : list Patch) : pending_loop recordedById patches = Ok pending → pending ⊆ patches.
Proof using Type.
  revert pending. induction patches as [|patch patches IH]; intros pending Hp; cbn in Hp; [by inv_res|].
  destruct (jm_get _ _); inv_res; intros p Hin; [by right; eapply IH|]. apply elem_of_cons in Hin as [->|Hin]; [by left|right; by eapply IH].
Qed.

(** ** Rollback plans *)

(** What is not there to be rolled back. *)
Definition gone (recordedById : list (jstr * RecordedDataPatch)) (patch : Patch) : Prop :=
  jm_get (dpd_id patch) recordedById = None ∨
  ∃ p, jm_get (dpd_id patch) recordedById = Some (RecordedRolledBack p) ∧ apd_checksum (rbd_applied p) = dpd_checksum patch.

(** A patch that a plan may hold: applied as it is defined, with a rollback. *)
Definition rollbackable (recordedById : list (jstr * RecordedDataPatch)) (patch : Patch) : Prop :=
  (∃ p, jm_get (dpd_id patch) recordedById = Some (RecordedApplied p) ∧ apd_checksum p = dpd_checksum patch) ∧ dpd_rollback patch ≠ None.

(** The plan goes backwards from the last patch, and passes over none that is there. *)
Definition backwards (recordedById : list (jstr * RecordedDataPatch)) (patches plan : list Patch) : Prop :=
  ∃ passed rest, reverse patches = passed ++ rest ∧ plan `sublist_of` passed ∧
    Forall (rollbackable recordedById) plan ∧ Forall (λ patch, gone recordedById patch ∨ patch ∈ plan) passed.

Lemma checksum_matches planned recorded u : assertDataPatchChecksumMatches planned recorded = Ok u → planned = recorded.
Proof using Type. unfold assertDataPatchChecksumMatches. intros Hc. inv_res. by eapply bool_decide_eq_true. Qed.

(** *** Automatic *)

Lemma plan_decision patch recordedById decision :
  dataPatchRollbackPlanDecision patch (jm_get (dpd_id patch) recordedById) = Ok decision →
  match decision with PlanInclude => rollbackable recordedById patch | PlanSkip => gone recordedById patch | PlanStop => dpd_rollback patch = None end.
Proof using Type.
  unfold dataPatchRollbackPlanDecision, rollbackable, gone. destruct (jm_get (dpd_id patch) recordedById) as [recorded|];
    [|intros [= <-]; by left].
  intros Hd. apply bind_ok in Hd as (u & Hs%checksum_matches & Hd). apply bind_ok in Hd as (u' & Hr & [= <-]).
  destruct recorded; try done; [|right; by eexists]. cbn in Hs. destruct (dpd_rollback patch); [|done].
  split; [|done]. by eexists.
Qed.

Lemma automatic_backwards limit recordedById rollback patches plan :
  automatic_rollback limit recordedById rollback patches = Ok plan →
  ∃ news passed rest, plan = rollback ++ news ∧ patches = passed ++ rest ∧ news `sublist_of` passed ∧
    Forall (rollbackable recordedById) news ∧ Forall (λ patch, gone recordedById patch ∨ patch ∈ news) passed ∧
    (∀ most, limit = Some most → (Z.of_nat (length rollback) < most)%Z → (Z.of_nat (length plan) ≤ most)%Z).
Proof using Type.
  revert rollback. induction patches as [|patch patches IH]; intros rollback Hp; cbn in Hp.
  { injection Hp as <-. exists [], [], []. rewrite app_nil_r. split_and!; try done. lia. }
  apply bind_ok in Hp as (decision & Hd%plan_decision & Hp).
  assert (∀ rest, ∃ news passed rest', rollback ++ [patch] = rollback ++ news ∧ patch :: rest = passed ++ rest' ∧ news `sublist_of` passed ∧
    (rollbackable recordedById patch → Forall (rollbackable recordedById) news) ∧ Forall (λ p, gone recordedById p ∨ p ∈ news) passed) as Hone.
  { intros rest. exists [patch], [patch], rest. split_and!; try done.
    - intros Hr. by constructor.
    - constructor; [right; by left|done]. }
  destruct decision.
  - assert (automatic_rollback limit recordedById (rollback ++ [patch]) patches = Ok plan ∧
        (∀ most, limit = Some most → (Z.of_nat (length (rollback ++ [patch])) < most)%Z) ∨
      plan = rollback ++ [patch] ∧ ∃ most, limit = Some most ∧ (most ≤ Z.of_nat (length (rollback ++ [patch])))%Z) as [[Hr Hl]|[-> (most & -> & Hl)]].
    { destruct limit as [most|]; [|by left]. destruct (Z.leb_spec most (Z.of_nat (length (rollback ++ [patch])))).
      - right. injection Hp as <-. split; [done|]. by exists most.
      - left. split; [done|]. by intros ? [= <-]. }
    + destruct (IH _ Hr) as (news & passed & rest & -> & -> & Hsub & Hall & Hpass & Hmost). exists (patch :: news), (patch :: passed), rest.
      rewrite <-app_assoc. split_and!; [done|done|by constructor|by constructor| |].
      * constructor; [right; by left|]. eapply Forall_impl; [done|]. intros p [?|?]; [by left|right; by right].
      * intros most Hm _. rewrite (app_assoc rollback [patch] news). by apply Hmost, Hl.
    + destruct (Hone patches) as (news & passed & rest & E & Ep & Hsub & Hall & Hpass). exists news, passed, rest.
      split_and!; [done|done|done|by apply Hall|done|]. intros most' [= <-]. rewrite length_app. cbn. lia.
  - destruct (IH _ Hp) as (news & passed & rest & -> & -> & Hsub & Hall & Hpass & Hmost). exists news, (patch :: passed), rest.
    split_and!; [done|done|by constructor|done| |done]. constructor; [by left|done].
  - injection Hp as <-. exists [], [], (patch :: patches). rewrite app_nil_r. split_and!; try done. lia.
Qed.

(** *** Selected *)

Lemma filter_prefix (P : Patch → Prop) `{∀ p, Decision (P p)} n patches : ∃ passed rest,
  patches = passed ++ rest ∧ take n (filter P patches) = filter P passed ∧ (passed = [] ∨ ∃ l p, passed = l ++ [p] ∧ P p).
Proof using Type.
  revert n. induction patches as [|p patches IH]; intros n; [exists [], []; split_and!; [done|by destruct n|by left]|].
  rewrite filter_cons. case_decide as Hp.
  - destruct n as [|n]; [exists [], (p :: patches); split_and!; auto|]. destruct (IH n) as (passed & rest & -> & E & Hl).
    exists (p :: passed), rest. rewrite filter_cons, decide_True by done. cbn [take]. rewrite E. split_and!; [done|done|].
    right. destruct Hl as [->|(l & q & -> & Hq)]; [by exists [], p|by exists (p :: l), q].
  - destruct (IH n) as (passed & rest & -> & E & [->|(l & q & -> & Hq)]).
    + exists [], (p :: rest). rewrite E. split_and!; auto.
    + exists (p :: l ++ [q]), rest. rewrite (filter_cons _ p), decide_False by done. rewrite E. split_and!; [done|done|]. right. by exists (p :: l), q.
Qed.

Lemma after_selected_all selectedIds pre (patch : Patch) post later :
  dpd_id patch ∈ selectedIds → later ∈ post → later ∈ after_selected selectedIds (pre ++ patch :: post).
Proof using Type.
  intros Hp Hin. induction pre as [|p pre IH]; cbn; [by rewrite bool_decide_eq_true_2|].
  case_bool_decide; [|done]. apply elem_of_app. right. by right.
Qed.

Lemma successors_gone selectedIds recordedById patches results later :
  map_res (successor_rolled_back selectedIds recordedById) patches = Ok results → later ∈ patches → dpd_id later ∉ selectedIds →
  gone recordedById later.
Proof using Type.
  intros HF%map_res_ok [i Hi]%list_elem_of_lookup Hn. destruct (Forall2_lookup_l _ _ _ _ _ HF Hi) as (u & _ & Hr).
  unfold successor_rolled_back in Hr. rewrite bool_decide_eq_false_2 in Hr by done. unfold gone.
  destruct (jm_get (dpd_id later) recordedById) as [recorded|]; [|by left]. apply bind_ok in Hr as (u1 & Hs%checksum_matches & Hr).
  apply bind_ok in Hr as (u2 & _ & Hr). destruct recorded; try done. right. by eexists.
Qed.

Lemma selected_rollbackable recordedById (selected : list Patch) results :
  map_res (λ patch, assertSelectedDataPatchRollbackable patch (jm_get (dpd_id patch) recordedById)) selected = Ok results →
  Forall (rollbackable recordedById) selected.
Proof using Type.
  intros HF%map_res_ok. apply Forall_forall. intros patch [i Hi]%list_elem_of_lookup. destruct (Forall2_lookup_l _ _ _ _ _ HF Hi) as (u & _ & Hr).
  unfold assertSelectedDataPatchRollbackable in Hr. unfold rollbackable. destruct (jm_get (dpd_id patch) recordedById) as [recorded|]; [|done].
  apply bind_ok in Hr as (u1 & Hs%checksum_matches & Hr). apply bind_ok in Hr as (u2 & Hst & Hr). destruct recorded; try done.
  destruct (dpd_rollback patch); [|done]. split; [|done]. by eexists.
Qed.

Lemma selected_backwards patches patchIds limit recordedById plan :
  (selected ← selectDataPatches patches (Some patchIds); planSelectedDataPatchRollback patches selected limit recordedById) = Ok plan →
  backwards recordedById patches plan.
Proof using Type.
  intros Hp. apply bind_ok in Hp as (selected & Hs%selected_patches & Hp). apply bind_ok in Hp as (u & Hr%selected_rollbackable & Hp).
  apply bind_ok in Hp as ([] & Hg & [= <-]). apply bind_ok in Hg as (results & Hg & _).
  assert (∃ n, limited limit (reverse selected) = take n (reverse selected)) as [n ->].
  { destruct limit as [most|]; cbn; [|exists (length (reverse selected)); by rewrite take_ge].
    unfold slice_to. destruct (most <? 0)%Z; by eexists. }
  subst selected. rewrite <-filter_reverse.
  destruct (filter_prefix (λ patch, dpd_id patch ∈ patchIds) n (reverse patches)) as (passed & rest & E & Et & Hl).
  rewrite Et. exists passed, rest. split_and!; [done|apply sublist_filter| |].
  - rewrite <-Et. apply Forall_take. rewrite filter_reverse. apply Forall_reverse, Hr.
  - apply Forall_forall. intros later Hin. destruct (decide (dpd_id later ∈ patchIds)) as [Hsel|Hsel]; [right; by apply list_elem_of_filter|left].
    destruct Hl as [->|(l & p & -> & Hp)]; [by apply elem_of_nil in Hin|].
    assert (patches = reverse rest ++ p :: reverse l) as Ep.
    { rewrite <-(reverse_involutive patches), E, !reverse_app. done. }
    apply elem_of_app in Hin as [Hin|[->|Hin]%elem_of_cons]; [|done|by apply elem_of_nil in Hin].
    eapply successors_gone; [exact Hg| |].
    + rewrite Ep at 2. apply after_selected_all; [|by apply elem_of_reverse]. apply list_elem_of_fmap. exists p. split; [done|].
      apply list_elem_of_filter. split; [done|]. rewrite Ep. apply elem_of_app. right. by left.
    + intros (q & Eq & [Hq _]%list_elem_of_filter)%list_elem_of_fmap. by rewrite <-Eq in Hq.
Qed.
End plans.

(** ** Planning a plan again *)

Section replan.
Context {R : Type}.
Abbreviation Patch := (DataPatchDefinition R).

Lemma filter_sublist_ids (plan patches : list Patch) : plan `sublist_of` patches → NoDup (dpd_id <$> patches) →
  filter (λ patch, dpd_id patch ∈ dpd_id <$> plan) patches = plan.
Proof using Type.
  intros Hsub. induction Hsub as [|patch plan patches Hsub IH|patch plan patches Hsub IH]; intros Hnd; [done|..].
  - rewrite fmap_cons in Hnd. apply NoDup_cons in Hnd as [Hn Hnd]. rewrite filter_cons, decide_True by by left. f_equal.
    etrans; [|exact (IH Hnd)]. apply filter_iff_in. intros other Hi. rewrite fmap_cons, elem_of_cons. split; [|by right].
    intros [Hid|Hid]; [|done]. exfalso. apply Hn. rewrite <-Hid. by apply list_elem_of_fmap_2.
  - rewrite fmap_cons in Hnd. apply NoDup_cons in Hnd as [Hn Hnd]. rewrite filter_cons, decide_False; [by apply IH|].
    intros (other & Hid & Hin)%list_elem_of_fmap. apply Hn. rewrite Hid. apply list_elem_of_fmap_2. by eapply sublist_subseteq.
Qed.

Lemma after_selected_skip selectedIds (before patches : list Patch) : Forall (λ patch, dpd_id patch ∉ selectedIds) before →
  after_selected selectedIds (before ++ patches) = after_selected selectedIds patches.
Proof using Type. induction 1 as [|patch before Hp _ IH]; [done|]. cbn. by rewrite bool_decide_eq_false_2. Qed.

Lemma after_selected_from selectedIds (patches : list Patch) : after_selected selectedIds patches ⊆ patches.
Proof using Type.
  induction patches as [|patch patches IH]; [done|]. cbn. case_bool_decide; intros p Hin; right; [done|by apply IH].
Qed.

Lemma checksum_same (a b : jstr) : a = b → assertDataPatchChecksumMatches a b = Ok tt.
Proof using Type. intros ->. unfold assertDataPatchChecksumMatches. by rewrite bool_decide_eq_true_2. Qed.

Lemma map_res_all {A B} (f : A → res B) l : (∀ x, x ∈ l → ∃ y, f x = Ok y) → ∃ ys, map_res f l = Ok ys.
Proof using Type.
  induction l as [|x l IH]; intros Hf; [by exists []|]. cbn. destruct (Hf x) as [y ->]; [by left|].
  destruct IH as [ys ->]; [intros z Hz; apply Hf; by right|]. by eexists.
Qed.

Lemma selected_again (patches plan selected : list Patch) : reverse selected = plan →
  selected = filter (λ patch, dpd_id patch ∈ dpd_id <$> plan) patches → plan ≠ [] →
  Forall (λ patch, assertDataPatchId (dpd_id patch) = Ok tt) plan → selectDataPatches patches (Some (dpd_id <$> plan)) = Ok selected.
Proof using Type.
  intros Hsel Hdef Hne Hids. unfold selectDataPatches. destruct (dpd_id <$> plan) as [|id others] eqn:Eids; [by destruct plan|]. rewrite <-Eids in *.
  destruct (map_res_all assertDataPatchId (dpd_id <$> plan)) as [us ->].
  { intros id' (patch & -> & Hp)%list_elem_of_fmap. rewrite Forall_forall in Hids. exists tt. by apply Hids. }
  cbn [mbind res_bind]. rewrite <-Hdef. rewrite bool_decide_eq_true_2; [done|].
  apply elem_of_nil_inv. intros id' [Hn Hid']%list_elem_of_filter. apply Hn. rewrite js_unique_elem in Hid'.
  apply list_elem_of_fmap in Hid' as (patch & -> & Hp). apply list_elem_of_fmap_2. rewrite <-Hsel in Hp. by apply elem_of_reverse.
Qed.

Lemma replanned recordedById (patches plan : list Patch) : NoDup (dpd_id <$> patches) → backwards recordedById patches plan → plan ≠ [] →
  Forall (λ patch, assertDataPatchId (dpd_id patch) = Ok tt) plan →
  (selected ← selectDataPatches patches (Some (dpd_id <$> plan)); planSelectedDataPatchRollback patches selected None recordedById) = Ok plan.
Proof using Type.
  intros Hnd (passed & rest & E & Hsub & Hall & Hpass) Hne Hids.
  assert (plan `sublist_of` reverse patches) as Hsubp by (rewrite E; by apply sublist_inserts_r).
  assert (NoDup (dpd_id <$> reverse patches)) as Hndr by (rewrite fmap_reverse; by rewrite reverse_Permutation).
  pose proof (filter_sublist_ids _ _ Hsubp Hndr) as Hf.
  destruct (exist _ (filter (λ patch, dpd_id patch ∈ dpd_id <$> plan) patches) eq_refl : {selected | selected = filter (λ patch, dpd_id patch ∈ dpd_id <$> plan) patches}) as [selected Hdef].
  assert (reverse selected = plan) as Hsel by (rewrite Hdef; by rewrite <-filter_reverse).
  rewrite (selected_again patches plan selected) by done.
  assert (∀ patch, patch ∈ selected ↔ patch ∈ plan) as Hin by (intros patch; by rewrite <-Hsel, elem_of_reverse).
  cbn [mbind res_bind]. unfold planSelectedDataPatchRollback.
  destruct (map_res_all (λ patch, assertSelectedDataPatchRollbackable patch (jm_get (dpd_id patch) recordedById)) selected) as [us ->].
  { intros patch Hp%Hin. rewrite Forall_forall in Hall. destruct (Hall _ Hp) as [(p & Hg & Hc) Hr]. exists tt. rewrite Hg.
    unfold assertSelectedDataPatchRollbackable. cbn [recorded_checksum]. rewrite checksum_same by done. cbn. by destruct (dpd_rollback patch). }
  cbn [mbind res_bind]. unfold assertDataPatchRollbackSuccessorsRolledBack.
  assert (∀ id, id ∈ dpd_id <$> selected ↔ id ∈ dpd_id <$> plan) as Hids'.
  { intros id. rewrite !list_elem_of_fmap. by setoid_rewrite Hin. }
  destruct (map_res_all (successor_rolled_back (dpd_id <$> selected) recordedById) (after_selected (dpd_id <$> selected) patches)) as [vs ->].
  2: { cbn. by rewrite Hsel. }
  assert (patches = reverse rest ++ reverse passed) as Ep by (rewrite <-(reverse_involutive patches), E, reverse_app; done).
  intros later Hl. rewrite Ep in Hl. rewrite after_selected_skip in Hl.
  2: { apply Forall_forall. intros patch Hp. rewrite Hids'. intros (other & Eid & Ho)%list_elem_of_fmap.
    rewrite elem_of_reverse in Hp. rewrite E, fmap_app in Hndr. apply NoDup_app in Hndr as (_ & Hdis & _).
    apply (Hdis (dpd_id other)); [apply list_elem_of_fmap_2; exact (sublist_subseteq _ _ Hsub _ Ho)|]. rewrite <-Eid. by apply list_elem_of_fmap_2. }
  apply after_selected_from in Hl. rewrite elem_of_reverse in Hl. unfold successor_rolled_back.
  case_bool_decide as Hs; [by eexists|]. rewrite Forall_forall in Hpass. destruct (Hpass _ Hl) as [[Hg|(p & Hg & Hc)]|Hp].
  - rewrite Hg. by eexists.
  - rewrite Hg. cbn [recorded_checksum]. rewrite checksum_same by done. by eexists.
  - destruct Hs. apply Hids'. by apply list_elem_of_fmap_2.
Qed.
End replan.

(** Reading the journal. *)
Lemma recorded_by_id_run {R} `{Collation} env (c : Client (PatchStore R)) : ∃ c', recorded_by_id env c =
  (records ← recordedDataPatches (ps_log (env (cl_tick c) (cl_store c)));
   Ok (jm_of_list ((λ recorded, (recorded_id recorded, recorded)) <$> records)), c').
Proof.
  unfold recorded_by_id. rewrite m_bind_run. unfold observe, awaited. rewrite m_bind_run. unfold m_lift. cbn -[recordedDataPatches].
  rewrite m_bind_run. unfold m_get. cbn -[recordedDataPatches]. destruct (recordedDataPatches _); by eexists.
Qed.

Lemma planned_backwards {R} `{Collation} env (patches : list (DataPatchDefinition R)) options c plan c' :
  patchesForRollbackPlan env patches options c = (Ok plan, c') →
  (∃ records, recordedDataPatches (ps_log (env (cl_tick c) (cl_store c))) = Ok records ∧
    backwards (jm_of_list ((λ recorded, (recorded_id recorded, recorded)) <$> records)) patches plan) ∧
  ∀ limit, dao_limit options = Some limit → (Z.of_nat (length plan) ≤ limit)%Z.
Proof.
  unfold patchesForRollbackPlan. rewrite m_bind_run. unfold m_lift at 1. destruct (assertDataPatchApplyLimit _) as [u|] eqn:El; [|by intros].
  rewrite m_bind_run. destruct (recorded_by_id_run env c) as [c1 ->].
  destruct (recordedDataPatches _) as [records|]; [|by intros]. cbn [mbind res_bind].
  set (recordedById := jm_of_list _). intros Hp.
  assert (match dao_patchIds options with
    | Some patchIds => selected ← selectDataPatches patches (Some patchIds);
        planSelectedDataPatchRollback patches selected (dao_limit options) recordedById
    | None => planAutomaticDataPatchRollback patches (dao_limit options) recordedById end = Ok plan) as Hplan.
  { destruct (dao_patchIds options); [|by injection Hp]. revert Hp. rewrite m_bind_run. unfold m_lift.
    destruct (selectDataPatches _ _); [|done]. by intros [= Hp _]. }
  clear Hp. assert (∀ limit, dao_limit options = Some limit → (1 ≤ limit)%Z) as Hl.
  { intros limit Hl. rewrite Hl in El. cbn in El. apply ensure_ok in El. lia. }
  split.
  - exists records. split; [done|]. destruct (dao_patchIds options); [by eapply selected_backwards|].
    apply automatic_backwards in Hplan as (news & passed & rest & -> & E & Hsub & Hall & Hpass & _). by exists passed, rest.
  - intros limit Hlim. specialize (Hl _ Hlim). destruct (dao_patchIds options).
    + apply bind_ok in Hplan as (selected & _ & Hp). apply bind_ok in Hp as (ready & _ & Hp). apply bind_ok in Hp as (safe & _ & [= <-]).
      rewrite Hlim. cbn. unfold slice_to. destruct (Z.ltb_spec limit 0); [lia|]. rewrite length_take. lia.
    + apply automatic_backwards in Hplan as (news & passed & rest & -> & E & _ & _ & _ & Hm). apply Hm; [done|cbn; lia].
Qed.

(** C18: A rollback plan of the service goes backwards: the patches it holds are applied as
    they are registered and declare a rollback, they are planned from the last registered
    patch to earlier ones, and each patch registered after a planned one is either planned
    before it or has nothing to roll back, for it was not recorded or was rolled back; this
    holds of the plan of named patches and of the automatic plan, with a limit or not, and a
    plan is never longer than its limit.  The journal is the one found at the plan's read. *)
Theorem rollback_plan_backwards {R} `{Collation} env (patches : list (DataPatchDefinition R)) options c plan c' :
  patchesForRollbackPlan env patches options c = (Ok plan, c') →
  (∃ records, recordedDataPatches (ps_log (env (cl_tick c) (cl_store c))) = Ok records ∧
    backwards (jm_of_list ((λ recorded, (recorded_id recorded, recorded)) <$> records)) patches plan) ∧
  ∀ limit, dao_limit options = Some limit → (Z.of_nat (length plan) ≤ limit)%Z.
Proof. apply planned_backwards. Qed.

Lemma normalized_ids {R} (patches planned : list (DataPatchDefinition R)) :
  normalizeDataPatchDefinitions patches = Ok planned → Forall (λ patch, assertDataPatchId (dpd_id patch) = Ok tt) patches.
Proof.
  unfold normalizeDataPatchDefinitions. generalize ([] : list jstr). revert planned.
  induction patches as [|patch patches IH]; intros planned seen Hn; [done|]. cbn in Hn.
  apply bind_ok in Hn as (definition & Hd & Hn). case_bool_decide; [done|]. apply bind_ok in Hn as (rest & Hn & _).
  constructor; [|by eapply IH]. unfold defineDataPatch in Hd. by apply bind_ok in Hd as ([] & Hd & _).
Qed.

(** C19: A rollback plan is a plan again: when the service plans the patches of its own plan
    by their names, as the job of an enqueued rollback does, and finds the journal as the
    plan did, it plans the same patches in the same order, and nothing refuses them. *)
Theorem rollback_replanned {R} `{Collation} definitions roles (patches : list (DataPatchDefinition R)) adminRoles env options c plan c' :
  new_patch_service definitions roles = Ok (patches, adminRoles) →
  patchesForRollbackPlan env patches options c = (Ok plan, c') → plan ≠ [] →
  ∀ env2 c2, ps_log (env2 (cl_tick c2) (cl_store c2)) = ps_log (env (cl_tick c) (cl_store c)) →
  ∃ c3, patchesForRollbackPlan env2 patches {| dao_patchIds := Some (dpd_id <$> plan); dao_limit := None |} c2 = (Ok plan, c3).
Proof.
  intros Hs Hp Hne env2 c2 Hlog. destruct (planned_backwards _ _ _ _ _ _ Hp) as [(records & Hr & Hb) _].
  unfold new_patch_service in Hs. apply bind_ok in Hs as (planned & Hn & [= -> _]). pose proof (normalized_ids _ _ Hn) as Hids.
  apply normalized_patches in Hn as [-> Hnd]. unfold patchesForRollbackPlan. rewrite m_bind_run. unfold m_lift at 1. cbn [dao_limit assertDataPatchApplyLimit].
  rewrite m_bind_run. destruct (recorded_by_id_run env2 c2) as [c3 ->]. rewrite Hlog, Hr. cbn [mbind res_bind dao_patchIds].
  assert (Forall (λ patch, assertDataPatchId (dpd_id patch) = Ok tt) plan) as Hplan.
  { destruct Hb as (passed & rest & E & Hsub & _). apply Forall_forall. intros patch Hin. rewrite Forall_forall in Hids. apply Hids.
    rewrite <-elem_of_reverse, E. apply elem_of_app. left. exact (sublist_subseteq _ _ Hsub _ Hin). }
  pose proof (replanned _ _ _ Hnd Hb Hne Hplan) as Hre. apply bind_ok in Hre as (selected & Hsel & Hre).
  rewrite m_bind_run. unfold m_lift. rewrite Hsel. rewrite Hre. by exists c3.
Qed.

(** ** Witness: of three patches, the one between was rolled back before *)

Definition sample_plan_patch (id : jstr) : DataPatchDefinition unit :=
  {| dpd_id := id; dpd_label := None; dpd_checksum := js "v1"; dpd_run := mret VUndef;
     dpd_rollback := Some {| drd_label := None; drd_run := mret VUndef |} |}.
Definition sample_plan_patches : list (DataPatchDefinition unit) := sample_plan_patch <$> [js "a"; js "b"; js "c"].
Definition sample_plan_applied (id : jstr) : AppliedDataPatch :=
  {| apd_id := id; apd_checksum := js "v1"; apd_appliedAt := js "t"; apd_result := None |}.
Definition sample_plan_client : Client (PatchStore unit) := new_client
  {| ps_log := [
       (js "a", EntryApplied (sample_plan_applied (js "a")));
       (js "b", EntryRolledBack {| rbd_applied := sample_plan_applied (js "b"); rbd_rolledBackAt := js "t"; rbd_rollbackResult := None |});
       (js "c", EntryApplied (sample_plan_applied (js "c")))];
     ps_resources := tt |}.
Definition sample_plan_options : DataPatchApplyOptions := {| dao_patchIds := None; dao_limit := Some 2%Z |}.
Definition sample_rollback_plan : list (DataPatchDefinition unit) := [sample_plan_patch (js "c"); sample_plan_patch (js "a")].

Lemma rollback_plan_backwards_witness :
  ∃ c', @patchesForRollbackPlan unit code_unit_collation (λ _ s, s) sample_plan_patches sample_plan_options sample_plan_client =
      (Ok sample_rollback_plan, c') ∧
    (∃ records, @recordedDataPatches code_unit_collation (ps_log (cl_store sample_plan_client)) = Ok records ∧
      backwards (jm_of_list ((λ recorded, (recorded_id recorded, recorded)) <$> records)) sample_plan_patches sample_rollback_plan).
Proof.
  eexists. split; [vm_compute; reflexivity|].
  eapply (@rollback_plan_backwards unit code_unit_collation (λ _ s, s) sample_plan_patches sample_plan_options sample_plan_client).
  vm_compute. reflexivity.
Defined.

Lemma rollback_replanned_witness :
  ∃ c3, @patchesForRollbackPlan unit code_unit_collation (λ _ s, s) sample_plan_patches
    {| dao_patchIds := Some [js "c"; js "a"]; dao_limit := None |} sample_plan_client = (Ok sample_rollback_plan, c3).
Proof.
  eapply (@rollback_replanned unit code_unit_collation sample_plan_patches None sample_plan_patches [SYSTEM_MANAGER_ROLE] (λ _ s, s)
    sample_plan_options sample_plan_client sample_rollback_plan _).
  - vm_compute. reflexivity.
  - vm_compute. reflexivity.
  - discriminate.
  - reflexivity.
Defined.
