(* ===== verification/DataPatchRuns.v ===== *)
(** * DataPatchRuns: runners and the journal of data patches

    Rely and guarantee of the runners of [DataPatchRunner].  The others leave alone the
    entries that are open for a claim of ours, and what their patches have done; then a
    call of a runner keeps the journal truthful, closes every claim that it makes, also
    when it throws, and leaves alone what is open for the others.  The second part is
    about the operations of the journal and the runs of single patches. *)

From S2P Require Export DataPatchRunner.

(** ** Entries *)

(** The claim that an entry is open for. *)
Definition open_claim (entry : InMemoryDataPatchEntry) : option jstr :=
  match entry with EntryPending _ claimId | EntryRollbackPending _ claimId => Some claimId | _ => None end.

(** A result that the journal can keep. *)
Definition result_json (result : option value) : Prop := ∀ v, result = Some v → isJsonValue v = true.

(** The results of an entry, and its name. *)
Definition entry_ok (id : jstr) (entry : InMemoryDataPatchEntry) : Prop :=
  recorded_id (record_of_entry entry) = id ∧
  match entry with
  | EntryApplied p => result_json (apd_result p)
  | EntryRollbackPending p _ => result_json (apd_result (rpd_applied p))
  | EntryRolledBack p => result_json (apd_result (rbd_applied p)) ∧ result_json (rbd_rollbackResult p)
  | EntryRollbackFailed p _ => result_json (apd_result (rfd_applied p))
  | _ => True
  end.

Section runs.
Context {R : Type}.
(** What the patch of a name has done to the resources is there. *)
Context (effect : jstr → R → Prop).

(** What an entry says of the effect of its patch. *)
Definition entry_true (id : jstr) (entry : InMemoryDataPatchEntry) (resources : R) : Prop :=
  match entry with
  | EntryApplied _ => effect id resources
  | EntryRolledBack _ => ¬ effect id resources
  | _ => True
  end.

(** The journal is well formed, and what it says is true. *)
Definition journal_truthful (s : PatchStore R) : Prop :=
  jm_wf (ps_log s) ∧ ∀ id entry, jm_get id (ps_log s) = Some entry → entry_ok id entry ∧ entry_true id entry (ps_resources s).

(** The entry of a patch is open for one of some claims. *)
Definition open_for (claims : jstr → Prop) (s : PatchStore R) (id : jstr) : Prop :=
  ∃ entry claimId, jm_get id (ps_log s) = Some entry ∧ open_claim entry = Some claimId ∧ claims claimId.

(** The journal records a patch as applied. *)
Definition applied_in (s : PatchStore R) (id : jstr) : Prop := ∃ p, jm_get id (ps_log s) = Some (EntryApplied p).

(** A step leaves alone what is open for some claims, and opens nothing for them. *)
Definition lets_be_at (s s' : PatchStore R) (id : jstr) : Prop :=
  jm_get id (ps_log s') = jm_get id (ps_log s) ∧ (effect id (ps_resources s') ↔ effect id (ps_resources s)).
Definition lets_be (claims : jstr → Prop) (s s' : PatchStore R) : Prop :=
  ∀ id, open_for claims s id ∨ open_for claims s' id → lets_be_at s s' id.

#[export] Instance lets_be_preorder claims : PreOrder (lets_be claims).
Proof using Type.
  split; [by intros s id _|]. intros s1 s2 s3 H12 H23 id Hopen.
  assert (lets_be_at s1 s2 id → lets_be_at s2 s3 id → lets_be_at s1 s3 id) as Htrans.
  { intros [E1 F1] [E2 F2]. split; [congruence|by rewrite F2]. }
  assert (open_for claims s2 id) as Ho2.
  { destruct Hopen as [Ho|Ho].
    - destruct (H12 id (or_introl Ho)) as [E _]. destruct Ho as (e & k & Hg & ?). exists e, k. by rewrite E.
    - destruct (H23 id (or_intror Ho)) as [E _]. destruct Ho as (e & k & Hg & ?). exists e, k. by rewrite <-E. }
  apply Htrans; [by apply H12; right|by apply H23; left].
Qed.

(** What nobody has open is let be. *)
Lemma lets_be_closed claims s s' id : lets_be claims s s' → ¬ open_for claims s id → ¬ open_for claims s' id.
Proof using Type.
  intros Hl Hn Ho. destruct (Hl id (or_intror Ho)) as [E _]. apply Hn. destruct Ho as (e & k & Hg & ?). exists e, k. by rewrite <-E.
Qed.

(** ** Specifications of calls *)

(** The claims of this runner, and those of the others. *)
Context (ours theirs : jstr → Prop) (Hdisjoint : ∀ claimId, ours claimId → ¬ theirs claimId).
(** Nobody rolls back. *)
Context (forward : bool).

(** What everyone does: the claims of [theirs] are let be, and when nobody rolls back,
    what is applied stays applied. *)
Definition moves (s s' : PatchStore R) : Prop :=
  lets_be theirs s s' ∧ (forward = true → ∀ id, applied_in s id → applied_in s' id).

#[export] Instance moves_preorder : PreOrder moves.
Proof using Type.
  split; [by intros s; split|]. intros s1 s2 s3 [L12 A12] [L23 A23]. split; [by etrans|]. intros Hf id Ha. by apply A23, A12.
Qed.

Context (env : nat → PatchStore R → PatchStore R).
(** The rely: the others keep the journal truthful, and let our claims be too. *)
Context (Henv : ∀ k s, journal_truthful s → journal_truthful (env k s) ∧ lets_be ours s (env k s) ∧ moves s (env k s)).

Abbreviation Call := (PatchCall R).

(** A call, from what is known, with what it leaves when it returns or throws. *)
Definition serves {A} (K : PatchStore R → Prop) (m : Call A) (Q : res A → PatchStore R → Prop) : Prop :=
  ∀ c, journal_truthful (cl_store c) → K (cl_store c) → let (r, c') := m c in
  journal_truthful (cl_store c') ∧ moves (cl_store c) (cl_store c') ∧ Q r (cl_store c').

(** What the others do not change. *)
Definition ours_only (K : PatchStore R → Prop) : Prop := ∀ s s', lets_be ours s s' → moves s s' → K s → K s'.

Lemma serves_mono {A} (K K' : PatchStore R → Prop) (m : Call A) (Q Q' : res A → PatchStore R → Prop) :
  serves K' m Q' → (∀ s, K s → K' s) → (∀ r s, Q' r s → Q r s) → serves K m Q.
Proof using Type.
  intros Hm HK HQ c Hi Hc. specialize (Hm c Hi (HK _ Hc)). destruct (m c) as [r c']. destruct Hm as (? & ? & ?).
  split_and!; [done..|by apply HQ].
Qed.

Lemma serves_bind {A B} (K : PatchStore R → Prop) (m : Call A) (f : A → Call B) Q P :
  serves K m Q → (∀ a, serves (Q (Ok a)) (f a) P) → (∀ e s, Q (Throw e) s → P (Throw e) s) → serves K (m ≫= f) P.
Proof using Type.
  intros Hm Hf He c Hi Hc. rewrite m_bind_run. specialize (Hm c Hi Hc). destruct (m c) as [[a|e] c1]; destruct Hm as (Hi1 & Hl1 & HQ).
  - specialize (Hf a c1 Hi1 HQ). destruct (f a c1) as [r c2]. destruct Hf as (? & ? & ?). split_and!; [done|by etrans|done].
  - split_and!; [done|done|by apply He].
Qed.

Lemma serves_ret {A} (K : PatchStore R → Prop) (a : A) Q : (∀ s, K s → Q (Ok a) s) → serves K (mret a) Q.
Proof using Type. intros HQ c Hi Hc. split_and!; [done|reflexivity|by apply HQ]. Qed.

Lemma serves_throw {A} (K : PatchStore R → Prop) e Q : (∀ s, K s → Q (Throw e) s) → serves (A := A) K (m_throw e) Q.
Proof using Type. intros HQ c Hi Hc. split_and!; [done|reflexivity|by apply HQ]. Qed.

Lemma serves_lift {A} (K : PatchStore R → Prop) (r : res A) Q : (∀ s, K s → Q r s) → serves K (m_lift r) Q.
Proof using Type. intros HQ c Hi Hc. split_and!; [done|reflexivity|by apply HQ]. Qed.

Lemma serves_pure {A} (K : PatchStore R → Prop) (φ : Prop) (m : Call A) Q :
  (∀ s, K s → φ) → (φ → serves K m Q) → serves K m Q.
Proof using Type. intros Hφ Hm c Hi Hc. exact (Hm (Hφ _ Hc) c Hi Hc). Qed.

Lemma serves_lift_bind {A B} (K : PatchStore R → Prop) (r : res A) (f : A → Call B) P :
  (∀ a, r = Ok a → serves K (f a) P) → (∀ e s, r = Throw e → K s → P (Throw e) s) → serves K (m_lift r ≫= f) P.
Proof using Type.
  intros Hf He. destruct r as [a|e]; [exact (Hf a eq_refl)|]. intros c Hi Hc. split_and!; [done|reflexivity|by apply He].
Qed.

(** What everyone keeps stays. *)
Lemma serves_frame {A} (K F : PatchStore R → Prop) (m : Call A) Q :
  (∀ s s', moves s s' → F s → F s') → serves K m Q → serves (λ s, K s ∧ F s) m (λ r s, Q r s ∧ F s).
Proof using Type.
  intros HF Hm c Hi [Hc Hf]. specialize (Hm c Hi Hc). destruct (m c) as [r c']. destruct Hm as (? & ? & ?).
  split_and!; [done..|by eapply HF].
Qed.

(** Steps that change nothing. *)
Lemma serves_id {A} (K : PatchStore R → Prop) ids (f : jstr → Call A) P :
  (∀ n, ours (ids n)) → (∀ claimId, ours claimId → serves K (f claimId) P) → serves K (next_id ids ≫= f) P.
Proof using Type. intros Hids Hf c Hi Hc. exact (Hf _ (Hids (cl_ids c)) {| cl_tick := _; cl_ids := _; cl_store := cl_store c |} Hi Hc). Qed.
Lemma serves_now {A} (K : PatchStore R → Prop) clock (f : jstr → Call A) P :
  (∀ at_, serves K (f at_) P) → serves K (now clock ≫= f) P.
Proof using Type. intros Hf c Hi Hc. exact (Hf _ c Hi Hc). Qed.

Lemma serves_observe {A} (K : PatchStore R → Prop) (f : PatchStore R → res A) :
  ours_only K → serves K (observe env f) (λ r s, journal_truthful s ∧ K s ∧ r = f s).
Proof using Henv.
  intros HK c Hi Hc. cbn. destruct (Henv (cl_tick c) _ Hi) as (Hi' & Ho & Ht). split_and!; [done|done|done|by eapply HK|done].
Qed.

(** A call on the journal, which finds it as the others left it. *)
Lemma serves_log {A} (K : PatchStore R → Prop) (m : M patch_log A) Q :
  ours_only K →
  (∀ s, journal_truthful s → K s → let (r, log') := m (ps_log s) in
    let s' := {| ps_log := log'; ps_resources := ps_resources s |} in
    journal_truthful s' ∧ moves s s' ∧ Q r s') →
  serves K (log_call env m) Q.
Proof using Henv.
  intros HK Hm c Hi Hc. destruct (Henv (cl_tick c) _ Hi) as (Hi' & Ho & Ht). unfold log_call, update, on_store, awaited, on_log.
  rewrite m_bind_run. cbn. specialize (Hm _ Hi' (HK _ _ Ho Ht Hc)). destruct (m (ps_log (env (cl_tick c) (cl_store c)))) as [r log'].
  destruct Hm as (? & ? & ?). cbn. split_and!; [done|by etrans|done].
Qed.

Lemma serves_catching {A} (K : PatchStore R → Prop) (m : Call A) (h : error → Call A) Q P :
  serves K m Q → (∀ e, serves (Q (Throw e)) (h e) P) → (∀ a s, Q (Ok a) s → P (Ok a) s) → serves K (catching m h) P.
Proof using Type.
  intros Hm Hh Ha c Hi Hc. unfold catching. specialize (Hm c Hi Hc). destruct (m c) as [[a|e] c1]; destruct Hm as (Hi1 & Hl1 & HQ).
  - split_and!; [done|done|by apply Ha].
  - specialize (Hh e c1 Hi1 HQ). destruct (h e c1) as [r c2]. destruct Hh as (? & ? & ?). split_and!; [done|by etrans|done].
Qed.

(** ** What a runner knows *)

(** No entry is open for a claim of ours. *)
Definition closed (s : PatchStore R) : Prop := ∀ id, ¬ open_for ours s id.

(** The entry of a patch is open for a claim of ours, and no other one. *)
Definition claimed (id checksum : jstr) (rollback : bool) (claimId : jstr) (s : PatchStore R) : Prop :=
  ours claimId ∧
  (∃ entry, jm_get id (ps_log s) = Some entry ∧ open_claim entry = Some claimId ∧ entry_checksum entry = checksum ∧
    match entry with EntryRollbackPending _ _ => rollback = true | _ => rollback = false end) ∧
  ∀ id', id' ≠ id → ¬ open_for ours s id'.

Lemma ours_only_closed : ours_only closed.
Proof using Type. intros s s' Hl _ Hc id. by eapply lets_be_closed. Qed.

Lemma claimed_open id checksum rollback claimId s : claimed id checksum rollback claimId s → open_for ours s id.
Proof using Type. intros (Ho & (e & Hg & Hk & _) & _). by exists e, claimId. Qed.

Lemma ours_only_claimed id checksum rollback claimId : ours_only (claimed id checksum rollback claimId).
Proof using Type.
  intros s s' Hl _ Hc. destruct (Hl id (or_introl (claimed_open _ _ _ _ _ Hc))) as [E _].
  destruct Hc as (Ho & (e & Hg & Hk) & Hn). split_and!; [done| |].
  - exists e. by rewrite E.
  - intros id' Hne. eapply lets_be_closed; [done|by apply Hn].
Qed.

(** What a claimed patch did stays done. *)
Lemma ours_only_done id checksum rollback claimId (P : Prop → Prop) : (∀ φ ψ : Prop, (φ ↔ ψ) → P φ → P ψ) →
  ours_only (λ s, claimed id checksum rollback claimId s ∧ P (effect id (ps_resources s))).
Proof using Type.
  intros HP s s' Hl Hm [Hc He]. split; [by eapply ours_only_claimed|]. eapply HP; [|exact He]. symmetry.
  by apply (Hl id (or_introl (claimed_open _ _ _ _ _ Hc))).
Qed.

(** ** Steps of the journal *)

(** Setting an entry that was open for nobody else. *)
Lemma set_truthful s id entry :
  journal_truthful s → entry_ok id entry → entry_true id entry (ps_resources s) →
  journal_truthful {| ps_log := jm_set id entry (ps_log s); ps_resources := ps_resources s |}.
Proof using Type.
  intros [Hwf Ht] Hok Htrue. split; [by apply jm_wf_set|]. cbn. intros id' entry' Hg. rewrite jm_get_set in Hg.
  case_decide as Hid; [|by apply Ht]. subst. by injection Hg as <-.
Qed.

Lemma set_moves s id entry :
  (∀ old claimId, jm_get id (ps_log s) = Some old → open_claim old = Some claimId → ¬ theirs claimId) →
  (∀ claimId, open_claim entry = Some claimId → ¬ theirs claimId) →
  (forward = true → applied_in s id → ∃ p, entry = EntryApplied p) →
  moves s {| ps_log := jm_set id entry (ps_log s); ps_resources := ps_resources s |}.
Proof using Type.
  intros Hold Hnew Happ. split.
  - intros id' Ho. destruct (decide (id' = id)) as [->|Hne].
    + destruct Ho as [(e & k & Hg & Hk & Ht)|(e & k & Hg & Hk & Ht)]; [by destruct (Hold _ _ Hg Hk)|].
      cbn in Hg. rewrite jm_get_set_eq in Hg. injection Hg as <-. by destruct (Hnew _ Hk).
    + split; [|done]. cbn. by rewrite jm_get_set_ne.
  - intros Hf id' Ha. destruct (decide (id' = id)) as [->|Hne].
    + destruct (Happ Hf Ha) as [p ->]. exists p. cbn. by rewrite jm_get_set_eq.
    + destruct Ha as [p Hg]. exists p. cbn. by rewrite jm_get_set_ne.
Qed.

Lemma closed_set s id entry : (∀ id', id' ≠ id → ¬ open_for ours s id') → open_claim entry = None →
  closed {| ps_log := jm_set id entry (ps_log s); ps_resources := ps_resources s |}.
Proof using Type.
  intros Hn He id' (e & k & Hg & Hk & Ho). cbn in Hg. rewrite jm_get_set in Hg. case_decide as Hid; [congruence|].
  eapply (Hn id'); [done|]. by exists e, k.
Qed.
End runs.

(** ** The journal under a runner, and the runs of patches

    What each operation of the journal does to the claims of a runner and of the others,
    and that the run of a claimed patch closes its claim, however it ends. *)

Section calls.
Context {R : Type} (clock : nat → jstr) (message : error → jstr).
Context (effect : jstr → R → Prop) (ours theirs : jstr → Prop) (Hdisjoint : ∀ claimId, ours claimId → ¬ theirs claimId).
Context (forward : bool) (env : nat → PatchStore R → PatchStore R).
Context (Henv : ∀ k s, journal_truthful effect s →
  journal_truthful effect (env k s) ∧ lets_be effect ours s (env k s) ∧ moves effect theirs forward s (env k s)).

Abbreviation Serves K m Q := (serves effect theirs forward K m Q).
Abbreviation Closed := (closed ours).
Abbreviation Claimed := (claimed ours).

(** ** The operations *)

Lemma clone_result_ok result : result_json result → clone_result result = Ok result.
Proof using Type.
  intros Hr. destruct result as [v|]; [|done]. cbn. unfold clonePatchResult. rewrite (Hr v eq_refl). cbn. by rewrite cloneJsonValue_id.
Qed.

Lemma cloneAppliedPatch_id p copy : cloneAppliedPatch p = Ok copy → copy = p.
Proof using Type.
  destruct p as [id checksum at_ [v|]]; cbn; unfold clonePatchResult; [destruct (isJsonValue v)|]; cbn; rewrite ?cloneJsonValue_id;
    intros; by inv_res.
Qed.

Lemma serves_claim claim : ours (cdp_claimId claim) →
  Serves Closed (log_call env (claimDataPatch claim)) (λ r s, match r with
    | Ok (ClaimClaimed held) => held = claim ∧ Claimed (cdp_id claim) (cdp_checksum claim) false (cdp_claimId claim) s
    | Ok (ClaimApplied p) => Closed s ∧ apd_id p = cdp_id claim ∧ applied_in s (cdp_id claim)
    | _ => Closed s
    end).
Proof using Henv Hdisjoint.
  intros Ho. eapply serves_log; [exact Henv|apply ours_only_closed|]. intros [log resources] Ht Hc. unfold claimDataPatch.
  rewrite m_bind_run. cbn [m_get ps_log ps_resources]. destruct (jm_get (cdp_id claim) log) as [existing|] eqn:E.
  - rewrite m_bind_run. unfold m_lift. destruct (assertDataPatchChecksumMatches _ _); [|by split_and!].
    split_and!; [done..|]. destruct existing; cbn [claimResult]; try done.
    destruct (cloneAppliedPatch p) as [copy|] eqn:Ep; [|done]. cbn. apply cloneAppliedPatch_id in Ep as ->.
    split_and!; [done|apply (proj2 Ht _ _ E)|by exists p].
  - rewrite m_bind_run. unfold set_entry. rewrite m_bind_run. cbn. split_and!.
    + by apply (set_truthful effect {| ps_log := log; ps_resources := resources |}).
    + apply (set_moves effect theirs forward {| ps_log := log; ps_resources := resources |}); cbn.
      * by rewrite E.
      * intros k [= <-]. by apply Hdisjoint.
      * intros _ [p Hp]. cbn in Hp. congruence.
    + done.
    + split_and!; [done|eexists; split_and!; [apply jm_get_set_eq|done..]|]. intros id' Hne (e & k & Hg & Hk & Hok). cbn in Hg. rewrite jm_get_set_ne in Hg by done. apply (Hc id'). by exists e, k.
Qed.

(** Ending a claim. *)
Lemma ended (s : PatchStore R) id checksum rollback claimId entry :
  journal_truthful effect s → Claimed id checksum rollback claimId s → entry_ok id entry → entry_true effect id entry (ps_resources s) →
  open_claim entry = None →
  let s' := {| ps_log := jm_set id entry (ps_log s); ps_resources := ps_resources s |} in
  journal_truthful effect s' ∧ moves effect theirs forward s s' ∧ Closed s'.
Proof using Hdisjoint.
  intros Ht (Ho & (e & Hg & Hk & _) & Hn) Hok Htrue Hnone. split_and!; [by apply set_truthful| |by apply closed_set].
  apply set_moves.
  - intros e' k Hg' Hk'. assert (k = claimId) as -> by congruence. by apply Hdisjoint.
  - congruence.
  - intros _ [p Hp]. rewrite Hg in Hp. injection Hp as ->. done.
Qed.

Lemma pending_claim id checksum claimId (s : PatchStore R) : Claimed id checksum false claimId s →
  assertPendingClaim (jm_get id (ps_log s)) checksum claimId = Ok tt.
Proof using Type.
  intros (_ & (e & Hg & Hk & Hs & Hr) & _). rewrite Hg. destruct e; try done. cbn in *. injection Hk as ->. rewrite Hs. by rewrite !bool_decide_eq_true_2.
Qed.

Lemma rollback_claim id checksum claimId (s : PatchStore R) : Claimed id checksum true claimId s →
  ∃ p, jm_get id (ps_log s) = Some (EntryRollbackPending p claimId) ∧ assertRollbackPendingClaim (jm_get id (ps_log s)) checksum claimId = Ok p.
Proof using Type.
  intros (_ & (e & Hg & Hk & Hs & Hr) & _). rewrite Hg. destruct e; try done. cbn in *. injection Hk as ->. exists p.
  split; [done|]. rewrite Hs. by rewrite !bool_decide_eq_true_2.
Qed.

(** What the run of a patch, or of its rollback, must have done when it returned. *)
Definition outcome_holds (rollback : bool) (φ : Prop) : Prop := if rollback then ¬ φ else φ.

Lemma outcome_holds_iff rollback (φ ψ : Prop) : (φ ↔ ψ) → outcome_holds rollback φ → outcome_holds rollback ψ.
Proof using Type. intros E. destruct rollback; cbn; by rewrite E. Qed.

Lemma serves_complete patch : result_json (cpd_result patch) →
  Serves (λ s, Claimed (cpd_id patch) (cpd_checksum patch) false (cpd_claimId patch) s ∧ effect (cpd_id patch) (ps_resources s))
    (log_call env (completeDataPatch patch)) (λ _ s, Closed s ∧ applied_in s (cpd_id patch)).
Proof using Henv Hdisjoint.
  intros Hj. eapply serves_log; [exact Henv|apply (ours_only_done _ _ _ _ _ _ _ _ (outcome_holds false)); apply (outcome_holds_iff false)|].
  intros s Ht [Hc He]. unfold completeDataPatch. rewrite m_bind_run. cbn [m_get]. rewrite m_bind_run. unfold m_lift at 1.
  rewrite (pending_claim _ _ _ _ Hc). rewrite m_bind_run. unfold m_lift. rewrite (clone_result_ok _ Hj). unfold set_entry. rewrite m_bind_run.
  cbn [m_get]. unfold m_put. match goal with |- context [jm_set _ ?e _] => pose proof (ended _ _ _ _ _ e Ht Hc) as Hend end.
  destruct Hend as (? & ? & ?); [by split|done|done|]. split_and!; [done..|]. eexists. apply jm_get_set_eq.
Qed.

Lemma serves_failed patch :
  Serves (Claimed (fld_id patch) (fld_checksum patch) false (fld_claimId patch)) (log_call env (failDataPatch patch)) (λ _, Closed).
Proof using Henv Hdisjoint.
  eapply serves_log; [exact Henv|apply ours_only_claimed|]. intros s Ht Hc. unfold failDataPatch. rewrite m_bind_run. cbn [m_get].
  rewrite m_bind_run. unfold m_lift. rewrite (pending_claim _ _ _ _ Hc). unfold set_entry. rewrite m_bind_run. cbn [m_get]. unfold m_put.
  by apply (ended _ _ _ _ _ _ Ht Hc).
Qed.

(** ** The operations on rollbacks *)

Lemma retryable journal checksum p :
  assertRetryableFailedJournal journal checksum = Ok p → ∃ claimId, journal = Some (EntryFailed p claimId).
Proof using Type. destruct journal as [e|]; [|done]. cbn. intros Hr. inv_res. destruct e; try done. inv_res. by eexists. Qed.

Lemma serves_retry_failed id checksum : Serves Closed (log_call env (retryFailedDataPatch id checksum)) (λ _, Closed).
Proof using Henv.
  eapply serves_log; [exact Henv|apply ours_only_closed|]. intros [log resources] Ht Hc. unfold retryFailedDataPatch.
  rewrite m_bind_run. cbn [m_get ps_log ps_resources]. rewrite m_bind_run. unfold m_lift.
  destruct (assertRetryableFailedJournal _ _) as [p|] eqn:E; [|by split_and!]. apply retryable in E as [k Eg]. unfold m_put.
  assert (∀ id', jm_get id' (jm_delete id log) = if decide (id' = id) then None else jm_get id' log) as Hdel by (intros; apply jm_get_delete, Ht).
  assert (∀ claims id', open_for claims {| ps_log := jm_delete id log; ps_resources := resources |} id' →
    id' ≠ id ∧ open_for claims {| ps_log := log; ps_resources := resources |} id') as Hopen.
  { intros claims id' (e & k' & Hg & Hk & Ho). cbn in Hg. rewrite Hdel in Hg. case_decide; [done|]. split; [done|]. by exists e, k'. }
  assert (∀ claims, ¬ open_for claims {| ps_log := log; ps_resources := resources |} id) as Hid.
  { intros claims (e & k' & Hg & Hk & _). cbn in Hg. rewrite Eg in Hg. by injection Hg as <-. }
  split; [split|split; [split|]].
  - apply jm_wf_delete, Ht.
  - intros id' e Hg. cbn in Hg. rewrite Hdel in Hg. case_decide; [done|]. by apply (proj2 Ht).
  - intros id' Ho. assert (id' ≠ id) as Hne by (destruct Ho as [Ho|Ho]; [by intros ->; apply (Hid theirs)|by apply Hopen in Ho as [? _]]).
    split; [|done]. cbn. by rewrite Hdel, decide_False.
  - intros _ id' [q Hg]. exists q. cbn in *. rewrite Hdel. case_decide; [congruence|done].
  - intros id' Ho. apply Hopen in Ho as [_ Ho]. by apply (Hc id').
Qed.

Lemma not_claimed entry claim : rollbackClaimResult entry ≠ Ok (RollbackClaimed claim).
Proof using Type. destruct entry; cbn; try done; intros Hr; by inv_res. Qed.

Lemma claimable journal checksum existing :
  assertRollbackClaimableJournal journal checksum = Ok existing → journal = Some existing ∧ checksum = entry_checksum existing.
Proof using Type.
  destruct journal as [e|]; [|done]. cbn. unfold assertDataPatchChecksumMatches. intros Hr. inv_res.
  split; [done|]. by eapply bool_decide_eq_true.
Qed.

Lemma rollback_retryable journal checksum p :
  assertRetryableRollbackFailedJournal journal checksum = Ok p → ∃ claimId, journal = Some (EntryRollbackFailed p claimId).
Proof using Type. destruct journal as [e|]; [|done]. cbn. intros Hr. inv_res. destruct e; try done. inv_res. by eexists. Qed.

Context (Hback : forward = false).

(** Opening a claim of ours. *)
Lemma opened (s : PatchStore R) id claimId entry :
  journal_truthful effect s → Closed s → ours claimId →
  (∀ old k, jm_get id (ps_log s) = Some old → open_claim old ≠ Some k) → entry_ok id entry → open_claim entry = Some claimId →
  (∃ p, entry = EntryRollbackPending p claimId) →
  let s' := {| ps_log := jm_set id entry (ps_log s); ps_resources := ps_resources s |} in
  journal_truthful effect s' ∧ moves effect theirs forward s s' ∧ Claimed id (entry_checksum entry) true claimId s'.
Proof using Hdisjoint Hback.
  intros Ht Hc Ho Hold Hok Hk [p ->]. split_and!; [by apply set_truthful| |].
  - apply set_moves; [by intros old k Hg ?%Hold| |by rewrite Hback]. intros k [= <-]. by apply Hdisjoint.
  - split_and!; [done|eexists; split_and!; [apply jm_get_set_eq|done..]|]. intros id' Hne (e & k & Hg & Hk' & Hok').
    cbn in Hg. rewrite jm_get_set_ne in Hg by done. apply (Hc id'). by exists e, k.
Qed.

Lemma serves_rollback_claim claim : ours (cdp_claimId claim) →
  Serves Closed (log_call env (claimDataPatchRollback claim)) (λ r s, match r with
    | Ok (RollbackClaimed held) => held = claim ∧ Claimed (cdp_id claim) (cdp_checksum claim) true (cdp_claimId claim) s
    | _ => Closed s
    end).
Proof using Henv Hdisjoint Hback.
  intros Ho. eapply serves_log; [exact Henv|apply ours_only_closed|]. intros [log resources] Ht Hc. unfold claimDataPatchRollback.
  rewrite m_bind_run. cbn [m_get ps_log ps_resources]. rewrite m_bind_run. unfold m_lift at 1.
  destruct (assertRollbackClaimableJournal _ _) as [existing|] eqn:E; [|by split_and!].
  apply claimable in E as [Eg Es]. destruct existing;
    try (unfold m_lift; destruct (rollbackClaimResult _) as [[]|] eqn:Er; [by apply not_claimed in Er|split_and!; done..]).
  rewrite Es.
  unfold set_entry. rewrite m_bind_run, m_bind_run. unfold m_get, m_put, mret, M_ret.
  match goal with |- context [jm_set _ ?e _] => pose proof (opened _ (cdp_id claim) (cdp_claimId claim) e Ht Hc Ho) as Hend end.
  cbn [ps_log ps_resources] in Hend. destruct Hend as (? & ? & ?); [|apply (proj2 Ht _ _ Eg)|done|by eexists|by split_and!].
  rewrite Eg. by intros old k [= <-].
Qed.

Lemma serves_rollback_retry claim : ours (cdp_claimId claim) →
  Serves Closed (log_call env (retryFailedDataPatchRollback claim)) (λ r s, match r with
    | Ok held => held = claim ∧ Claimed (cdp_id claim) (cdp_checksum claim) true (cdp_claimId claim) s
    | _ => Closed s
    end).
Proof using Henv Hdisjoint Hback.
  intros Ho. eapply serves_log; [exact Henv|apply ours_only_closed|]. intros [log resources] Ht Hc. unfold retryFailedDataPatchRollback.
  rewrite m_bind_run. cbn [m_get ps_log ps_resources]. rewrite m_bind_run. unfold m_lift at 1.
  destruct (assertRetryableRollbackFailedJournal _ _) as [p|] eqn:E; [|by split_and!].
  apply rollback_retryable in E as [k Eg].
  rewrite m_bind_run. unfold m_lift. rewrite clone_result_ok by apply (proj2 Ht _ _ Eg).
  unfold set_entry. rewrite m_bind_run, m_bind_run. unfold m_get, m_put, mret, M_ret.
  match goal with |- context [jm_set _ ?e _] => pose proof (opened _ (cdp_id claim) (cdp_claimId claim) e Ht Hc Ho) as Hend end.
  cbn [ps_log ps_resources] in Hend. destruct Hend as (? & ? & ?); [|split; [done|apply (proj2 Ht _ _ Eg)]|done|by eexists|by split_and!].
  rewrite Eg. by intros old k' [= <-].
Qed.

Lemma still_applied_ok id checksum p : result_json (apd_result (rpd_applied p)) →
  ∃ applied, still_applied id checksum p = Ok applied ∧ apd_id applied = id ∧ result_json (apd_result applied).
Proof using Type. intros Hj. unfold still_applied. rewrite clone_result_ok by done. by eexists. Qed.

Lemma serves_rollback_complete patch : result_json (cpd_result patch) →
  Serves (λ s, Claimed (cpd_id patch) (cpd_checksum patch) true (cpd_claimId patch) s ∧ ¬ effect (cpd_id patch) (ps_resources s))
    (log_call env (completeDataPatchRollback patch)) (λ _, Closed).
Proof using Henv Hdisjoint.
  intros Hj. eapply serves_log; [exact Henv|apply (ours_only_done _ _ _ _ _ _ _ _ (outcome_holds true)); apply (outcome_holds_iff true)|].
  intros s Ht [Hc He]. destruct (rollback_claim _ _ _ _ Hc) as (p & Hg & Hp). destruct (proj2 Ht _ _ Hg) as [[_ Hr] _].
  destruct (still_applied_ok (cpd_id patch) (cpd_checksum patch) p Hr) as (applied & Ha & Hid & Hja).
  unfold completeDataPatchRollback. rewrite m_bind_run. cbn [m_get]. rewrite m_bind_run. unfold m_lift at 1. rewrite Hp.
  rewrite m_bind_run. unfold m_lift at 1. rewrite Ha. rewrite m_bind_run. unfold m_lift at 1. rewrite (clone_result_ok _ Hj).
  unfold set_entry. rewrite m_bind_run. cbn [m_get]. unfold m_put. by apply (ended _ _ _ _ _ _ Ht Hc).
Qed.

Lemma serves_rollback_failed patch :
  Serves (Claimed (fld_id patch) (fld_checksum patch) true (fld_claimId patch)) (log_call env (failDataPatchRollback patch)) (λ _, Closed).
Proof using Henv Hdisjoint.
  eapply serves_log; [exact Henv|apply ours_only_claimed|].
  intros s Ht Hc. destruct (rollback_claim _ _ _ _ Hc) as (p & Hg & Hp). destruct (proj2 Ht _ _ Hg) as [[_ Hr] _].
  destruct (still_applied_ok (fld_id patch) (fld_checksum patch) p Hr) as (applied & Ha & Hid & Hja).
  unfold failDataPatchRollback. rewrite m_bind_run. cbn [m_get]. rewrite m_bind_run. unfold m_lift at 1. rewrite Hp.
  rewrite m_bind_run. unfold m_lift at 1. rewrite Ha.
  unfold set_entry. rewrite m_bind_run. cbn [m_get]. unfold m_put. by apply (ended _ _ _ _ _ _ Ht Hc).
Qed.
End calls.
