(* ===== verification/DataPatchKept.v ===== *)
(** * DataPatchKept: the runner and the service of data patches

    Every call of the service keeps the journal truthful and closes the claims that it
    makes, and a call of [apply] that returns has applied what it planned. *)

From S2P Require Export DataPatchRuns DataPatchPlans.

Section kept.
Context {R : Type} `{Collation} (ids clock : nat → jstr) (message : error → jstr).
Context (effect : jstr → R → Prop) (ours theirs : jstr → Prop) (Hdisjoint : ∀ claimId, ours claimId → ¬ theirs claimId).
Context (Hids : ∀ n, ours (ids n)).
Context (forward : bool) (env : nat → PatchStore R → PatchStore R).
Context (Henv : ∀ k s, journal_truthful effect s →
  journal_truthful effect (env k s) ∧ lets_be effect ours s (env k s) ∧ moves effect theirs forward s (env k s)).

Abbreviation Serves K m Q := (serves effect theirs forward K m Q).
Abbreviation Closed := (closed ours).
Abbreviation Claimed := (claimed ours).
Abbreviation Patch := (DataPatchDefinition R).

(** ** The runs of patches *)

(** A run keeps the claim that it runs under, like all else that runners rely on, and
    when it returns, it did what it is for. *)
Definition run_good (rollback : bool) (id checksum : jstr) (run : PatchCall R value) : Prop :=
  ∀ claimId, Serves (Claimed id checksum rollback claimId) run (λ r s,
    Claimed id checksum rollback claimId s ∧ ∀ v, r = Ok v → outcome_holds rollback (effect id (ps_resources s))).

Definition patch_good (patch : Patch) : Prop :=
  run_good false (dpd_id patch) (dpd_checksum patch) (dpd_run patch) ∧
  ∀ rollback, dpd_rollback patch = Some rollback → run_good true (dpd_id patch) (dpd_checksum patch) (drd_run rollback).

Lemma normalized_json v result : normalizeDataPatchRunResult v = Ok result → result_json result.
Proof using Type.
  intros Hn v' ->. unfold normalizeDataPatchRunResult in Hn. rewrite cloneJsonValue_id in Hn.
  destruct v; try done; (destruct (isJsonValue _) eqn:E; [by injection Hn as <-|done]).
Qed.

Section claim.
Context (rollback : bool) (patch : Patch) (run : PatchCall R value).
Context (fail : FailDataPatch → M patch_log unit) (complete : CompleteDataPatch → M patch_log unit) (done_ : jstr → PatchStore R → Prop).
Context (Hrun : run_good rollback (dpd_id patch) (dpd_checksum patch) run).
Context (Hfail : ∀ failure, Serves (Claimed (fld_id failure) (fld_checksum failure) rollback (fld_claimId failure))
  (log_call env (fail failure)) (λ _, Closed)).
Context (Hcomplete : ∀ completion, result_json (cpd_result completion) →
  Serves (λ s, Claimed (cpd_id completion) (cpd_checksum completion) rollback (cpd_claimId completion) s ∧
      outcome_holds rollback (effect (cpd_id completion) (ps_resources s)))
    (log_call env (complete completion)) (λ _ s, Closed s ∧ done_ (cpd_id completion) s)).

Lemma serves_run_claimed claimId :
  Serves (Claimed (dpd_id patch) (dpd_checksum patch) rollback claimId) (run_claimed clock message env run fail patch claimId)
    (λ r s, match r with
      | Ok result => result_json result ∧ Claimed (dpd_id patch) (dpd_checksum patch) rollback claimId s ∧
          outcome_holds rollback (effect (dpd_id patch) (ps_resources s))
      | Throw _ => Closed s
      end).
Proof using Hrun Hfail.
  unfold run_claimed. eapply (serves_catching _ _ _ _ _ _ (λ r s, Claimed (dpd_id patch) (dpd_checksum patch) rollback claimId s ∧
    ∀ result, r = Ok result → result_json result ∧ outcome_holds rollback (effect (dpd_id patch) (ps_resources s)))).
  - eapply serves_bind; [apply Hrun| |].
    + intros v. apply serves_lift. intros s [Hc Ho]. split; [done|]. intros result Hr. split; [by eapply normalized_json|by eapply Ho].
    + intros e s [Hc _]. by split.
  - intros e. eapply serves_mono; [|intros s [Hc _]; exact Hc|by intros r s Hq; exact Hq].
    apply serves_now. intros at_. eapply serves_bind; [apply (Hfail (dataPatchRunFailureCommand _ _ claimId at_ (message e)))| |by intros].
    intros []. by apply serves_throw.
  - intros result s [Hc Hr]. destruct (Hr _ eq_refl). by split_and!.
Qed.

Lemma serves_complete_claimed claimId :
  Serves (Claimed (dpd_id patch) (dpd_checksum patch) rollback claimId)
    (complete_claimed clock message env run fail complete patch claimId)
    (λ r s, Closed s ∧ ∀ record, r = Ok record → prr_id record = dpd_id patch ∧ done_ (dpd_id patch) s).
Proof using Hrun Hfail Hcomplete.
  unfold complete_claimed. eapply serves_bind; [apply serves_run_claimed| |by intros].
  intros result. apply serves_now. intros at_. cbn beta.
  eapply (serves_pure _ _ _ _ (result_json result)); [by intros s [? _]|]. intros Hj. eapply serves_bind.
  - eapply serves_mono; [apply (Hcomplete (dataPatchRunCompleteCommand
      (dataPatchRunRecord (dpd_id patch) (dpd_checksum patch) at_ result) claimId)); exact Hj|by intros s [_ ?]|].
    intros r s Hq. exact Hq.
  - intros []. apply serves_ret. intros s [Hc Hd]. split; [done|]. by intros record [= <-].
  - intros e s [Hc _]. by split.
Qed.
End claim.

(** ** What is recorded *)

(** What a runner has read, or done, of the patches that are applied. *)
Definition known (recordedById : list (jstr * RecordedDataPatch)) (s : PatchStore R) : Prop :=
  forward = true → ∀ id p, jm_get id recordedById = Some (RecordedApplied p) → applied_in s id.

Lemma of_list_origin {V} (k : jstr) (v : V) entries : jm_get k (jm_of_list entries) = Some v → (k, v) ∈ entries.
Proof using Type.
  unfold jm_of_list, jm_spread. assert (∀ m, jm_get k (foldl (λ m kv, jm_set kv.1 kv.2 m) m entries) = Some v →
    (k, v) ∈ entries ∨ jm_get k m = Some v) as Hgen.
  { induction entries as [|[k' v'] entries IH]; intros m; [by right|]. cbn. intros [Hin|Hg]%IH; [by left; right|].
    rewrite jm_get_set in Hg. case_decide as Hk; [|by right]. subst. injection Hg as ->. left. by left. }
  intros [Hin|Hg]%Hgen; [done|by destruct k].
Qed.

Lemma recorded_applied (log : patch_log) records id p :
  recordedDataPatches log = Ok records → (id, RecordedApplied p) ∈ ((λ recorded, (recorded_id recorded, recorded)) <$> records) →
  ∃ k entry, (k, entry) ∈ log ∧ entry = EntryApplied p ∧ id = apd_id p.
Proof using Type.
  intros Hr (recorded & E & Hin)%list_elem_of_fmap. injection E as -> <-. unfold recordedDataPatches in Hr. inv_res.
  rewrite elem_of_isort in Hin. apply map_res_ok in H0. apply list_elem_of_lookup in Hin as [i Hi].
  destruct (Forall2_lookup_r _ _ _ _ _ H0 Hi) as (entry & He%list_elem_of_lookup_2 & Hrec).
  apply list_elem_of_fmap in He as ([k e] & -> & He). exists k, e. split_and!; [done| |done].
  destruct e; cbn in Hrec; inv_res; try done. by apply cloneAppliedPatch_id in H1 as ->.
Qed.

Lemma serves_recorded :
  Serves Closed (recorded_by_id env) (λ r s, Closed s ∧ ∀ recordedById, r = Ok recordedById → known recordedById s).
Proof using Henv.
  unfold recorded_by_id. eapply serves_bind; [eapply serves_observe; [exact Henv|apply ours_only_closed]| |].
  - intros records. apply serves_ret. intros s ((Hwf & Ht) & Hc & E). split; [done|]. intros m [= <-] _ id p Hg.
    apply of_list_origin in Hg. symmetry in E. destruct (recorded_applied _ _ _ _ E Hg) as (k & e & Hin & -> & ->).
    apply (jm_get_elem _ _ _ Hwf) in Hin. destruct (Ht _ _ Hin) as [[Hid _] _]. cbn in Hid. exists p. by rewrite Hid.
  - intros e s (_ & Hc & _). by split.
Qed.

(** ** Applying *)

Lemma known_moves recordedById (s s' : PatchStore R) : moves effect theirs forward s s' → known recordedById s → known recordedById s'.
Proof using Type. intros [_ Ha] Hk Hf id p Hg. apply Ha; [done|by eapply Hk]. Qed.

Lemma applied_moves id (s s' : PatchStore R) :
  moves effect theirs forward s s' → (forward = true → applied_in s id) → forward = true → applied_in s' id.
Proof using Type. intros [_ Ha] Hk Hf. by apply Ha, Hk. Qed.

Lemma skip_applied (patch : Patch) recorded p : assertRecordedDataPatchAllowsApplySkip patch recorded = Ok p → recorded = RecordedApplied p.
Proof using Type. unfold assertRecordedDataPatchAllowsApplySkip. intros Hr. apply bind_ok in Hr as (_ & _ & Hr). destruct recorded; by inv_res. Qed.

(** What is recorded of a patch that is applied is known. *)
Lemma known_learn recordedById (patch : Patch) outcome (s : PatchStore R) :
  known recordedById s → (forward = true → applied_in s (dpd_id patch)) →
  match outcome with inl record => prr_id record | inr skipped => apd_id skipped end = dpd_id patch ∨
    is_Some (jm_get (dpd_id patch) recordedById) →
  known (learn_applied recordedById patch outcome) s.
Proof using Type.
  intros Hk Ha Hid Hf id p. unfold learn_applied. destruct (jm_get (dpd_id patch) recordedById) as [old|] eqn:E; [by apply Hk|].
  rewrite jm_get_set. destruct Hid as [Hid|[? [=]]]. case_decide as Hi; [|by apply Hk]. intros _. subst id.
  destruct outcome; cbn in Hid |- *; rewrite Hid; by apply Ha.
Qed.

Lemma serves_new_claim {A} (K : PatchStore R → Prop) (patch : Patch) (f : ClaimDataPatch → PatchCall R A) P :
  (∀ claim, ours (cdp_claimId claim) → cdp_id claim = dpd_id patch → cdp_checksum claim = dpd_checksum patch → Serves K (f claim) P) →
  Serves K (new_claim ids clock patch ≫= f) P.
Proof using Hids.
  intros Hf c Hi Hc.
  exact (Hf (Build_ClaimDataPatch _ _ _ _) (Hids (cl_ids c)) eq_refl eq_refl {| cl_tick := _; cl_ids := _; cl_store := cl_store c |} Hi Hc).
Qed.

Lemma serves_apply_turn recordedById patch : patch_good patch →
  Serves (λ s, Closed s ∧ known recordedById s) (apply_turn ids clock message env recordedById patch)
    (λ r s, Closed s ∧ ∀ outcome, r = Ok outcome →
      known (learn_applied recordedById patch outcome) s ∧ (forward = true → applied_in s (dpd_id patch))).
Proof using Henv Hdisjoint Hids.
  intros Hgood. unfold apply_turn. destruct (jm_get (dpd_id patch) recordedById) as [existing|] eqn:E.
  - apply serves_lift_bind; [|by intros e s _ [? _]]. intros skipped ->%skip_applied. apply serves_ret. intros s [Hc Hk].
    split; [done|]. intros outcome [= <-]. assert (forward = true → applied_in s (dpd_id patch)) as Ha by (intros Hf; by eapply Hk).
    split; [|done]. apply known_learn; [done|done|]. right. by rewrite E.
  - apply serves_new_claim. intros claim Ho Eid Es. eapply serves_bind; [|intros result|].
    { eapply (serves_frame _ _ _ _ (known recordedById)); [apply known_moves|by apply (serves_claim _ _ _ Hdisjoint _ _ Henv _ Ho)]. }
    2: { intros e s [? _]. by split. }
    apply serves_lift_bind; [|intros e s He [Hq _]; split; [destruct result; [done|apply Hq|exact Hq..]|done]].
    intros [held|skipped] Hd.
    + destruct result; cbn in Hd; inv_res; try done. apply (serves_pure _ _ _ _ (held = claim)); [by intros s [[? _] _]|]. intros ->.
      eapply serves_bind; [eapply serves_mono; [eapply (serves_frame _ _ _ _ (known recordedById)); [apply known_moves|]| |]| |].
      * eapply (serves_complete_claimed false patch _ _ _ (λ id s, applied_in s id)); [apply Hgood| |].
        { intros failure. by apply (serves_failed _ _ _ Hdisjoint). }
        { intros completion Hj. by apply (serves_complete _ _ _ Hdisjoint). }
      * cbn beta iota. rewrite <-Eid, <-Es. intros s [[_ Hc] Hk]. split; [exact Hc|exact Hk].
      * intros r s Hq. exact Hq.
      * intros record. apply serves_ret. intros s [[Hc Hr] Hk]. destruct (Hr _ eq_refl) as [Eid' Ha]. split; [done|].
        intros outcome [= <-]. split; [|done]. apply known_learn; [done|done|by left].
      * intros e s [[Hc _] _]. by split.
    + apply serves_ret. intros s Hq. destruct result; cbn in Hd; inv_res; try done. destruct Hq as [(Hc & Eid' & Ha) Hk]. rewrite Eid in *.
      split; [done|]. intros outcome [= <-]. split; [|done]. apply known_learn; [done|done|by left].
Qed.

Lemma serves_apply_loop recordedById patches : Forall patch_good patches →
  Serves (λ s, Closed s ∧ known recordedById s) (apply_loop ids clock message env recordedById patches)
    (λ r s, Closed s ∧ (is_ok r = true → forward = true → Forall (λ patch, applied_in s (dpd_id patch)) patches)).
Proof using Henv Hdisjoint Hids.
  intros Hgood. revert recordedById. induction Hgood as [|patch patches Hp Hps IH]; intros recordedById.
  { apply serves_ret. intros s [Hc _]. by split. }
  cbn [apply_loop]. eapply serves_bind; [by apply serves_apply_turn| |by intros e s [? _]].
  intros outcome. eapply serves_bind.
  - eapply serves_mono; [eapply (serves_frame _ _ _ _ (λ s, forward = true → applied_in s (dpd_id patch))); [apply applied_moves|apply IH]| |].
    + intros s [Hc Hk]. destruct (Hk _ eq_refl) as [Hk' Ha]. split; [|exact Ha]. split; [done|exact Hk'].
    + intros r s Hq. exact Hq.
  - intros rest. apply serves_ret. intros s [[Hc Ha] Hp']. split; [done|]. intros _ Hf. constructor; [by apply Hp'|by apply Ha].
  - intros e s [[Hc _] _]. by split.
Qed.

Lemma good_from (patches selected : list Patch) : selected ⊆ patches → Forall patch_good patches → Forall patch_good selected.
Proof using Type. rewrite !Forall_forall. intros Hs Hp patch Hin. by apply Hp, Hs. Qed.

(** ** The calls of the runner *)

Lemma serves_apply_patches patches : Forall patch_good patches →
  Serves Closed (apply_patches ids clock message env patches)
    (λ r s, Closed s ∧ (is_ok r = true → forward = true → Forall (λ patch, applied_in s (dpd_id patch)) patches)).
Proof using Henv Hdisjoint Hids.
  intros Hgood. unfold apply_patches. apply serves_lift_bind; [|by intros]. intros planned [-> _]%normalized_patches.
  eapply serves_bind; [apply serves_recorded| |by intros e s [? _]]. intros recordedById. eapply serves_bind.
  - eapply serves_mono; [by apply (serves_apply_loop recordedById)| |by intros r s Hq; exact Hq]. intros s [Hc Hk]. split; [done|by apply Hk].
  - intros outcomes. apply serves_ret. intros s [Hc Ha]. split; [done|]. by intros _; apply Ha.
  - intros e s [Hc _]. by split.
Qed.

(** A call that keeps all claims of ours closed, with what its results are. *)
Definition yields {A} (m : PatchCall R A) (φ : A → Prop) : Prop := Serves Closed m (λ r s, Closed s ∧ ∀ a, r = Ok a → φ a).

Lemma yields_bind {A B} (m : PatchCall R A) φ (f : A → PatchCall R B) P :
  yields m φ → (∀ a, φ a → Serves Closed (f a) P) → (∀ e s, Closed s → P (Throw e) s) → Serves Closed (m ≫= f) P.
Proof using Type.
  intros Hm Hf He. eapply serves_bind; [exact Hm| |by intros e s [? _]; apply He]. intros a.
  apply (serves_pure _ _ _ _ (φ a)); [intros s [_ Ha]; by apply Ha|]. intros Ha. eapply serves_mono; [by apply Hf|by intros s [? _]|done].
Qed.

Lemma yields_lift {A} (r : res A) (φ : A → Prop) : (∀ a, r = Ok a → φ a) → yields (m_lift r) φ.
Proof using Type. intros Hr. apply serves_lift. by split. Qed.

Lemma yields_ret {A} (a : A) (φ : A → Prop) : φ a → yields (mret a) φ.
Proof using Type. intros Ha. apply serves_ret. intros s Hc. split; [done|]. by intros a' [= <-]. Qed.

Lemma yields_closed {A} (m : PatchCall R A) : Serves Closed m (λ _, Closed) → yields m (λ _, True).
Proof using Type. intros Hm. eapply serves_mono; [exact Hm|done|by split]. Qed.

Lemma closed_yields {A} (m : PatchCall R A) φ : yields m φ → Serves Closed m (λ _, Closed).
Proof using Type. intros Hm. eapply serves_mono; [exact Hm|done|by intros r s [? _]]. Qed.

Lemma yields_recorded : yields (recorded_by_id env) (λ _, True).
Proof using Henv. eapply serves_mono; [apply serves_recorded|done|by intros r s [? _]; split]. Qed.

(** *** Rollbacks *)

Section back.
Context (Hback : forward = false).

Lemma closes_rollback_claimed patch claim : patch_good patch →
  Serves (Claimed (dpd_id patch) (dpd_checksum patch) true (cdp_claimId claim))
    (rollbackClaimedPatch clock message env patch claim)
    (λ r s, dpd_rollback patch ≠ None → Closed s).
Proof using Henv Hdisjoint Hback.
  intros [_ Hgood]. unfold rollbackClaimedPatch. destruct (dpd_rollback patch) as [rollback|]; [|by apply serves_throw].
  eapply serves_mono; [eapply (serves_complete_claimed true patch _ _ _ (λ _ _, True)); [by apply Hgood| |]|done|by intros r s [? _]].
  - intros failure. by apply (serves_rollback_failed _ _ _ Hdisjoint).
  - intros completion Hj. eapply serves_mono; [by apply (serves_rollback_complete _ _ _ Hdisjoint _ _ Henv)|done|by split].
Qed.

Lemma closes_rollback_turn patch : patch_good patch → Serves Closed (rollback_turn ids clock message env patch) (λ _, Closed).
Proof using Henv Hdisjoint Hids Hback.
  intros Hgood. unfold rollback_turn. destruct (dpd_rollback patch) as [rollback|] eqn:Er; [|by apply serves_throw].
  apply serves_new_claim. intros claim Ho Eid Es.
  eapply serves_bind; [by apply (serves_rollback_claim _ _ _ Hdisjoint _ _ Henv Hback _ Ho)|intros result|by intros].
  apply serves_lift_bind; [|intros e s He Hq; destruct result; [done|exact Hq..]]. intros [held|skipped] Hd.
  - destruct result; cbn in Hd; inv_res; try done. apply (serves_pure _ _ _ _ (held = claim)); [by intros s [? _]|]. intros ->.
    eapply serves_bind; [eapply serves_mono; [by apply (closes_rollback_claimed patch)| |intros r s Hq; exact Hq]| |].
    + cbn beta iota. rewrite <-Eid, <-Es. by intros s [_ Hc].
    + intros record. apply serves_ret. intros s Hc. apply Hc. by rewrite Er.
    + intros e s Hc. apply Hc. by rewrite Er.
  - apply serves_ret. intros s Hq. by destruct result; cbn in Hd; inv_res.
Qed.

Lemma closes_rollback_patches patches : Forall patch_good patches →
  Serves Closed (rollback_patches ids clock message env patches) (λ _, Closed).
Proof using Henv Hdisjoint Hids Hback.
  intros Hgood. unfold rollback_patches. apply serves_lift_bind; [|by intros]. intros planned [-> _]%normalized_patches.
  assert (Serves Closed (m_map (rollback_turn ids clock message env) patches) (λ _, Closed)) as Hmap.
  { induction Hgood as [|patch patches Hp Hps IH]; [by apply serves_ret|]. cbn [m_map].
    eapply serves_bind; [by apply closes_rollback_turn| |by intros]. intros outcome. eapply serves_bind; [exact IH| |by intros].
    intros outcomes. by apply serves_ret. }
  eapply serves_bind; [exact Hmap| |by intros]. intros outcomes. by apply serves_ret.
Qed.

Lemma closes_retry_rollback patch : patch_good patch → Serves Closed (retry_rollback ids clock message env patch) (λ _, Closed).
Proof using Henv Hdisjoint Hids Hback.
  intros Hgood. unfold retry_rollback. apply serves_lift_bind; [|by intros]. intros planned ->%defined_patch.
  destruct (dpd_rollback patch) as [rollback|] eqn:Er; [|by apply serves_throw].
  apply serves_new_claim. intros claim Ho Eid Es.
  eapply serves_bind; [by apply (serves_rollback_retry _ _ _ Hdisjoint _ _ Henv Hback _ Ho)|intros held|by intros].
  apply (serves_pure _ _ _ _ (held = claim)); [by intros s [? _]|]. intros ->.
  eapply serves_bind; [eapply serves_mono; [by apply (closes_rollback_claimed patch)| |intros r s Hq; exact Hq]| |].
  - cbn beta iota. rewrite <-Eid, <-Es. by intros s [_ Hc].
  - intros record. apply serves_ret. intros s Hc. apply Hc. by rewrite Er.
  - intros e s Hc. apply Hc. by rewrite Er.
Qed.
End back.

(** ** The calls of the service *)

Context (patches : list Patch) (adminRoles : list jstr) (Hgood : Forall patch_good patches).

Lemma yields_authorize actor : yields (authorize_patches adminRoles actor) (λ _, True).
Proof using Type. by apply yields_lift. Qed.

Lemma yields_runner : yields (patch_runner patches) (λ _, True).
Proof using Type. eapply yields_bind; [by apply (yields_lift _ (λ _, True))|intros; by apply yields_ret|by split]. Qed.

Lemma yields_predecessors selected : yields (assertPredecessorsApplied env patches selected) (λ _, True).
Proof using Henv. eapply yields_bind; [apply yields_recorded|intros; by apply yields_lift|by split]. Qed.

Lemma yields_pending selected : yields (pendingPatches env selected) (λ pending, pending ⊆ selected).
Proof using Henv.
  eapply yields_bind; [apply (yields_lift _ (λ planned, planned = selected)); by intros planned [-> _]%normalized_patches| |by split].
  intros planned ->. eapply yields_bind; [apply yields_recorded| |by split]. intros recordedById _. apply yields_lift. apply pending_from.
Qed.

(** What [apply] runs: without a limit, all that is selected. *)
Definition chosen (options : DataPatchApplyOptions) : list Patch :=
  match dao_patchIds options with None => patches | Some patchIds => filter (λ patch, dpd_id patch ∈ patchIds) patches end.

Lemma chosen_from options : chosen options ⊆ patches.
Proof using Type. unfold chosen. intros patch. destruct (dao_patchIds options); [|done]. by intros [_ ?]%list_elem_of_filter. Qed.

Lemma yields_selected options : yields (selected_for_apply env patches options) (λ selected, selected = chosen options).
Proof using Henv.
  unfold selected_for_apply. eapply yields_bind; [by apply (yields_lift _ (λ _, True))| |by split]. intros _ _.
  eapply yields_bind; [apply yields_runner| |by split]. intros _ _.
  eapply yields_bind; [apply (yields_lift _ (λ selected, selected = chosen options)); by intros selected Hs%selected_patches| |by split]. intros selected ->.
  eapply (yields_bind _ (λ _, True)); [|intros; by apply yields_ret|by split].
  destruct (dao_patchIds options); [apply yields_predecessors|by apply yields_ret].
Qed.

Lemma yields_for_apply options : yields (patchesForApply env patches options)
  (λ planned, planned ⊆ chosen options ∧ (dao_limit options = None → planned = chosen options)).
Proof using Henv.
  unfold patchesForApply. eapply yields_bind; [apply yields_selected| |by split]. intros selected ->.
  destruct (dao_limit options) as [limit|].
  - eapply yields_bind; [apply yields_pending| |by split]. intros pending Hp. apply yields_ret. split; [|done]. cbn.
    etrans; [apply slice_from|exact Hp].
  - eapply (yields_bind _ (λ _, True)); [by apply yields_ret| |by split]. intros. by apply yields_ret.
Qed.

Lemma serves_service_apply actor options :
  Serves Closed (service_apply ids clock message env patches adminRoles actor options) (λ r s, Closed s ∧
    (is_ok r = true → forward = true → dao_limit options = None → Forall (λ patch, applied_in s (dpd_id patch)) (chosen options))).
Proof using Henv Hdisjoint Hids Hgood.
  unfold service_apply. eapply yields_bind; [apply yields_authorize| |by split]. intros _ _.
  eapply yields_bind; [apply yields_runner| |by split]. intros _ _.
  eapply yields_bind; [apply yields_for_apply| |by split]. intros planned [Hsub Hall].
  eapply serves_mono; [apply serves_apply_patches|done|].
  - eapply good_from; [|exact Hgood]. etrans; [exact Hsub|apply chosen_from].
  - intros r s [Hc Ha]. split; [done|]. intros Hok Hf Hl. rewrite <-Hall by done. by apply Ha.
Qed.

Lemma closes_retry_failed actor patchId :
  Serves Closed (service_retryFailed ids clock message env patches adminRoles actor patchId) (λ _, Closed).
Proof using Henv Hdisjoint Hids Hgood.
  unfold service_retryFailed. eapply yields_bind; [apply yields_authorize| |by intros]. intros _ _.
  eapply yields_bind; [apply (yields_lift _ (λ patch, patch ∈ patches)); apply selected_one| |by intros]. intros patch Hin.
  eapply yields_bind; [apply yields_predecessors| |by intros]. intros _ _.
  eapply yields_bind; [apply yields_closed, (serves_retry_failed _ _ _ _ _ Henv)| |by intros]. intros _ _.
  eapply yields_bind; [apply yields_runner| |by intros]. intros _ _.
  eapply serves_mono; [apply serves_apply_patches|done|by intros r s [? _]].
  constructor; [|constructor]. by eapply Forall_forall.
Qed.
End kept.
