(* ===== verification/DataPatchPromises.v ===== *)
(** * DataPatchPromises: what the service of data patches promises

    The calls of the service under the rely of [DataPatchRuns]: whatever the others do,
    the journal stays truthful, no claim of a call outlives it, and nothing that is open
    for others is touched; and if nobody rolls back, an [apply] that returns has applied
    what it was asked to. *)

From S2P Require Export DataPatchKept.

Section promises.
Context {R : Type} `{Collation} (ids clock : nat → jstr) (message : error → jstr).
Context (effect : jstr → R → Prop) (ours theirs : jstr → Prop).
Context (forward : bool) (env : nat → PatchStore R → PatchStore R).
Context (patches : list (DataPatchDefinition R)) (adminRoles : list jstr).

Abbreviation Closed := (closed ours).

(** What a runner relies on. *)
Record patch_world : Prop := {
  pw_disjoint : ∀ claimId, ours claimId → ¬ theirs claimId;
  pw_ids : ∀ n, ours (ids n);
  pw_env : ∀ k s, journal_truthful effect s →
    journal_truthful effect (env k s) ∧ lets_be effect ours s (env k s) ∧ moves effect theirs forward s (env k s);
  pw_patches : Forall (patch_good effect ours theirs forward) patches
}.

(** The calls of the service that change the journal. *)
Inductive DataPatchServiceCall :=
| CallApply (options : DataPatchApplyOptions)
| CallRollback (options : DataPatchApplyOptions)
| CallRetryFailed (patchId : jstr)
| CallRetryRollbackFailed (patchId : jstr).

Definition service_call (actor : Actor) (call : DataPatchServiceCall) : PatchCall R (DataPatchRunResult + DataPatchRollbackRunResult) :=
  match call with
  | CallApply options => result ← service_apply ids clock message env patches adminRoles actor options; mret (inl result)
  | CallRollback options => result ← service_rollback ids clock message env patches adminRoles actor options; mret (inr result)
  | CallRetryFailed patchId => result ← service_retryFailed ids clock message env patches adminRoles actor patchId; mret (inl result)
  | CallRetryRollbackFailed patchId =>
      result ← service_retryRollbackFailed ids clock message env patches adminRoles actor patchId; mret (inr result)
  end.

Context (Hworld : patch_world).

Abbreviation Serves K m Q := (serves effect theirs forward K m Q).
Abbreviation Yields m φ := (yields effect ours theirs forward m φ).

Lemma yields_rollback_plan options : Yields (patchesForRollbackPlan env patches options) (λ plan, plan ⊆ patches).
Proof using Hworld.
  destruct Hworld as [Hd Hi Henv Hg]. unfold patchesForRollbackPlan.
  eapply yields_bind; [by apply (yields_lift _ _ _ _ _ (λ _, True))| |by split]. intros _ _.
  eapply yields_bind; [by apply yields_recorded| |by split]. intros recordedById _. destruct (dao_patchIds options) as [patchIds|].
  - eapply yields_bind; [by apply (yields_lift _ _ _ _ _ (λ selected, selected ⊆ patches)); intros selected; apply selected_patches_from| |by split].
    intros selected Hs. apply yields_lift. intros plan Hp. apply bind_ok in Hp as (u & _ & Hp). apply bind_ok in Hp as (u' & _ & [= <-]).
    intros patch Hin. apply Hs. apply elem_of_reverse. destruct (dao_limit options); [by apply slice_from in Hin|done].
  - apply yields_lift. intros plan Hp. apply automatic_backwards in Hp as (news & passed & rest & -> & E & Hsub & _). intros patch Hin.
    apply elem_of_reverse. rewrite E. apply elem_of_app. left. by eapply sublist_subseteq.
Qed.

Lemma yields_rollback_retry patchId : Yields (patchForRollbackRetry env patches patchId) (λ patch, patch ∈ patches).
Proof using Hworld.
  destruct Hworld as [Hd Hi Henv Hg]. unfold patchForRollbackRetry.
  eapply yields_bind; [apply (yields_lift _ _ _ _ _ (λ patch, patch ∈ patches)); apply selected_one| |by split]. intros patch Hin.
  eapply yields_bind; [by apply yields_recorded| |by split]. intros recordedById _.
  eapply yields_bind; [by apply (yields_lift _ _ _ _ _ (λ _, True))| |by split]. intros _ _. by apply yields_ret.
Qed.

Lemma closes_service_call actor call : forward = false → Serves Closed (service_call actor call) (λ _, Closed).
Proof using Hworld.
  intros Hback. pose proof Hworld as [Hd Hi Henv Hg].
  assert (∀ {A B} (m : PatchCall R A) (f : A → B), Serves Closed m (λ _, Closed) → Serves Closed (a ← m; mret (f a)) (λ _, Closed)) as Hret.
  { intros A B m f Hm. eapply serves_bind; [exact Hm|intros; by apply serves_ret|by intros]. }
  destruct call as [options|options|patchId|patchId]; cbn [service_call]; apply Hret.
  - eapply serves_mono; [by apply serves_service_apply|done|by intros r s [? _]].
  - unfold service_rollback. eapply yields_bind; [apply yields_authorize| |by intros]. intros _ _.
    eapply yields_bind; [apply yields_runner| |by intros]. intros _ _.
    eapply yields_bind; [apply yields_rollback_plan| |by intros]. intros plan Hsub. apply closes_rollback_patches; [done..|].
    eapply good_from; [exact Hsub|exact Hg].
  - by apply closes_retry_failed.
  - unfold service_retryRollbackFailed. eapply yields_bind; [apply yields_authorize| |by intros]. intros _ _.
    eapply yields_bind; [apply yields_runner| |by intros]. intros _ _.
    eapply yields_bind; [apply yields_rollback_retry| |by intros]. intros patch Hin. apply closes_retry_rollback; [done..|].
    by eapply Forall_forall.
Qed.
End promises.

(** C16: Whatever other runners do at each [await] and while patches run, if they keep the
    journal truthful and let the claims of this runner be, then each call of the service,
    an application, a rollback or a retry of either, keeps the journal truthful: what it
    records as applied is done, and what it records as rolled back is undone.  However the
    call ends, also when a patch throws or returns what is no JSON, no entry stays open for
    a claim of its own; and it lets be what is open for any other claims. *)
Theorem patch_claims_closed {R} `{Collation} ids clock message effect ours theirs env (patches : list (DataPatchDefinition R)) adminRoles :
  patch_world ids effect ours theirs false env patches →
  ∀ actor call c, journal_truthful effect (cl_store c) → closed ours (cl_store c) →
  let c' := (service_call ids clock message env patches adminRoles actor call c).2 in
  journal_truthful effect (cl_store c') ∧ closed ours (cl_store c') ∧ lets_be effect theirs (cl_store c) (cl_store c').
Proof.
  intros Hworld actor call c Ht Hc.
  pose proof (closes_service_call ids clock message effect ours theirs false env patches adminRoles Hworld actor call eq_refl c Ht Hc) as Hs.
  destruct (service_call _ _ _ _ _ _ _ _ c) as [r c']. destruct Hs as (? & [? _] & ?). by split_and!.
Qed.

(** C17: If nobody rolls back meanwhile, an [apply] without a limit that returns has left
    every patch that it was asked for applied: the journal says so, and what the patch
    does is done, whether this call ran it, another runner did, or it was applied before. *)
Theorem apply_applies {R} `{Collation} ids clock message effect ours theirs env (patches : list (DataPatchDefinition R)) adminRoles :
  patch_world ids effect ours theirs true env patches →
  ∀ actor options c result c', journal_truthful effect (cl_store c) → closed ours (cl_store c) → dao_limit options = None →
  service_apply ids clock message env patches adminRoles actor options c = (Ok result, c') →
  ∀ patch, patch ∈ chosen patches options → applied_in (cl_store c') (dpd_id patch) ∧ effect (dpd_id patch) (ps_resources (cl_store c')).
Proof.
  intros [Hd Hi Henv Hg] actor options c result c' Ht Hc Hl Hr patch Hin.
  pose proof (serves_service_apply ids clock message effect ours theirs Hd Hi true env Henv patches adminRoles Hg actor options c Ht Hc) as Hs.
  rewrite Hr in Hs. destruct Hs as ([_ Ht'] & _ & _ & Ha). specialize (Ha eq_refl eq_refl Hl). rewrite Forall_forall in Ha.
  specialize (Ha _ Hin). split; [done|]. destruct Ha as [p Hp]. by apply (Ht' _ _ Hp).
Qed.

(** ** Witnesses: patches that note their names, beside a runner that applies another *)

Abbreviation NotedStore := (PatchStore (list jstr)).
Definition noted (id : jstr) (names : list jstr) : Prop := id ∈ names.
Definition our_claim (claimId : jstr) : Prop := claimId = js "ours".
Definition held_claim (claimId : jstr) : Prop := claimId = js "held".

(** What a sample patch and its rollback do. *)
Definition note_name (id : jstr) : PatchCall (list jstr) value := λ c,
  (Ok VUndef, {| cl_tick := cl_tick c; cl_ids := cl_ids c;
    cl_store := {| ps_log := ps_log (cl_store c); ps_resources := id :: ps_resources (cl_store c) |} |}).
Definition forget_name (id : jstr) : PatchCall (list jstr) value := λ c,
  (Ok (VBool true), {| cl_tick := cl_tick c; cl_ids := cl_ids c;
    cl_store := {| ps_log := ps_log (cl_store c); ps_resources := filter (λ name, name ≠ id) (ps_resources (cl_store c)) |} |}).
Definition noting_patch (id : jstr) : DataPatchDefinition (list jstr) :=
  {| dpd_id := id; dpd_label := None; dpd_checksum := js "v1"; dpd_run := note_name id;
     dpd_rollback := Some {| drd_label := None; drd_run := forget_name id |} |}.

(** The other runner claims its patch, and then notes its name and completes it. *)
Definition other_id : jstr := js "other".
Definition other_claim : jstr := js "another".
Definition other_entry : InMemoryDataPatchEntry :=
  EntryPending {| pdp_id := other_id; pdp_checksum := js "v1"; pdp_claimedAt := js "t" |} other_claim.
Definition other_done : InMemoryDataPatchEntry :=
  EntryApplied {| apd_id := other_id; apd_checksum := js "v1"; apd_appliedAt := js "t"; apd_result := None |}.
Definition other_runner (k : nat) (s : NotedStore) : NotedStore :=
  match jm_get other_id (ps_log s) with
  | None => {| ps_log := jm_set other_id other_entry (ps_log s); ps_resources := ps_resources s |}
  | Some (EntryPending _ claimId) =>
      if bool_decide (claimId = other_claim)
      then {| ps_log := jm_set other_id other_done (ps_log s); ps_resources := other_id :: ps_resources s |}
      else s
  | Some _ => s
  end.

(** Noting or forgetting a name, while its entry is open, lets the rest be. *)
Lemma resources_step forward claims (s : NotedStore) id entry claimId names :
  journal_truthful noted s → jm_get id (ps_log s) = Some entry → open_claim entry = Some claimId → ¬ claims claimId →
  (∀ id', id' ≠ id → id' ∈ names ↔ id' ∈ ps_resources s) →
  let s' := {| ps_log := ps_log s; ps_resources := names |} in
  journal_truthful noted s' ∧ moves noted claims forward s s'.
Proof.
  intros [Hwf Ht] Hg Hk Hn Hnames. split; [split; [done|]|split; [|done]].
  - intros id' e He. destruct (Ht _ _ He) as [Hok Htrue]. split; [done|]. destruct (decide (id' = id)) as [->|Hne].
    + cbn in He. rewrite Hg in He. injection He as ->. by destruct e.
    + destruct e; try done; cbn; unfold noted; by rewrite (Hnames _ Hne).
  - intros id' Ho. destruct (decide (id' = id)) as [->|Hne]; [|split; [done|by apply Hnames]].
    destruct Ho as [(e & k & He & Hk' & Hc)|(e & k & He & Hk' & Hc)]; cbn in He; rewrite Hg in He; injection He as ->;
      rewrite Hk in Hk'; by injection Hk' as ->.
Qed.

Lemma other_runner_lawful forward claims k s : ¬ claims other_claim → journal_truthful noted s →
  journal_truthful noted (other_runner k s) ∧ moves noted claims forward s (other_runner k s).
Proof.
  intros Hn Ht. unfold other_runner. destruct (jm_get other_id (ps_log s)) as [e|] eqn:Eg.
  - destruct e as [p claimId| | | | |]; try (split; [done|reflexivity]). case_bool_decide as Hk; [|split; [done|reflexivity]]. subst claimId.
    destruct (resources_step forward claims s other_id _ _ (other_id :: ps_resources s) Ht Eg eq_refl Hn) as [Ht' Hm].
    { intros id' Hne. rewrite elem_of_cons. naive_solver. }
    split; [apply (set_truthful noted {| ps_log := ps_log s; ps_resources := other_id :: ps_resources s |}); [done|by split|by left]|].
    etrans; [exact Hm|]. apply (set_moves noted claims forward {| ps_log := ps_log s; ps_resources := other_id :: ps_resources s |});
      [|done|by eexists]. intros old k' Ho Hk'. change (jm_get other_id (ps_log s) = Some old) in Ho. rewrite Eg in Ho. injection Ho as <-. by injection Hk' as <-.
  - split; [by apply set_truthful|]. apply set_moves; [by rewrite Eg|by intros k' [= <-]|]. intros _ [p Hp]. congruence.
Qed.

Lemma noting_good forward id : patch_good noted our_claim held_claim forward (noting_patch id).
Proof.
  assert (∀ rollback checksum claimId (run : PatchCall (list jstr) value) v f,
    (∀ c, run c = (Ok v, {| cl_tick := cl_tick c; cl_ids := cl_ids c;
      cl_store := {| ps_log := ps_log (cl_store c); ps_resources := f (ps_resources (cl_store c)) |} |})) →
    (∀ names id', id' ≠ id → id' ∈ f names ↔ id' ∈ names) → (∀ names, outcome_holds rollback (id ∈ f names)) →
    serves noted held_claim forward (claimed our_claim id checksum rollback claimId) run (λ r s,
      claimed our_claim id checksum rollback claimId s ∧ ∀ v', r = Ok v' → outcome_holds rollback (noted id (ps_resources s)))) as Hall.
  { intros rollback checksum claimId run v f Hrun Hf Ho c Ht Hc. rewrite Hrun. cbn. destruct Hc as (Hours & (e & Hg & Hk & He) & Hn).
    destruct (resources_step forward held_claim (cl_store c) id e claimId (f (ps_resources (cl_store c))) Ht Hg Hk) as [Ht' Hm];
      [by rewrite Hours|by apply Hf|]. split_and!; [done|done| |].
    - split_and!; [done|by exists e|]. exact Hn.
    - intros v' _. apply Ho. }
  split.
  - intros claimId. eapply (Hall false _ _ _ _ (cons id)); [done| |by left]. intros names id' Hne. rewrite elem_of_cons. naive_solver.
  - intros rollback [= <-] claimId. eapply (Hall true _ _ _ _ (filter (λ name, name ≠ id))); [done| |].
    + intros names id' Hne. rewrite list_elem_of_filter. naive_solver.
    + intros names [? _]%list_elem_of_filter. done.
Qed.

Definition sample_patch_ids (n : nat) : jstr := js "ours".
Definition sample_patch_clock (n : nat) : jstr := js "2026-01-01T00:00:00.000Z".
Definition sample_patches : list (DataPatchDefinition (list jstr)) := [noting_patch (js "a"); noting_patch (js "b")].
Definition sample_patch_options : DataPatchApplyOptions := {| dao_patchIds := None; dao_limit := None |}.
Definition sample_patch_admin : Actor :=
  {| actor_id := js "root"; actor_roles := [js "System Manager"]; actor_tenantId := None; actor_email := None |}.

(** The first patch is applied, and another is open for the claim of someone else. *)
Definition sample_patch_client : Client NotedStore := new_client
  {| ps_log := [
       (js "kept", EntryPending {| pdp_id := js "kept"; pdp_checksum := js "v1"; pdp_claimedAt := js "t" |} (js "held"));
       (js "a", EntryApplied {| apd_id := js "a"; apd_checksum := js "v1"; apd_appliedAt := js "t"; apd_result := None |})];
     ps_resources := [js "a"] |}.

Lemma sample_patch_world forward :
  patch_world sample_patch_ids noted our_claim held_claim forward other_runner sample_patches.
Proof.
  split.
  - intros claimId -> Hk. discriminate Hk.
  - done.
  - intros k s Ht. destruct (other_runner_lawful forward our_claim k s) as [? [? _]]; [intros Hk; discriminate Hk|done|].
    destruct (other_runner_lawful forward held_claim k s) as [? ?]; [intros Hk; discriminate Hk|done|]. by split_and!.
  - apply Forall_cons; split; [|apply Forall_singleton]; apply noting_good.
Qed.

Lemma sample_patch_truthful : journal_truthful noted (cl_store sample_patch_client).
Proof.
  split; [apply (bool_decide_unpack _); by vm_compute|]. intros id entry [Hg|[Hg|Hg%elem_of_nil]%elem_of_cons]%jm_get_elem_1%elem_of_cons.
  - injection Hg as -> ->. done.
  - injection Hg as -> ->. split; [done|by left].
  - done.
Qed.

Lemma sample_patch_closed : closed our_claim (cl_store sample_patch_client).
Proof.
  intros id (entry & claimId & Hg & Hk & Ho). apply jm_get_elem_1 in Hg. unfold our_claim in Ho. subst.
  apply elem_of_cons in Hg as [Hg|[Hg|Hg%elem_of_nil]%elem_of_cons]; [..|done]; injection Hg as -> ->; discriminate Hk.
Qed.

Abbreviation sample_rollback_call :=
  (@service_call (list jstr) code_unit_collation sample_patch_ids sample_patch_clock (λ _, js "boom") other_runner sample_patches
    [js "System Manager"] sample_patch_admin (CallRollback sample_patch_options) sample_patch_client).

Lemma patch_claims_closed_witness :
  journal_truthful noted (cl_store sample_rollback_call.2) ∧ closed our_claim (cl_store sample_rollback_call.2) ∧
  lets_be noted held_claim (cl_store sample_patch_client) (cl_store sample_rollback_call.2) ∧
  is_ok sample_rollback_call.1 = true ∧ ps_resources (cl_store sample_rollback_call.2) = [js "other"] ∧
  open_claim <$> jm_get (js "kept") (ps_log (cl_store sample_rollback_call.2)) = Some (Some (js "held")).
Proof.
  destruct (@patch_claims_closed (list jstr) code_unit_collation sample_patch_ids sample_patch_clock (λ _, js "boom") noted our_claim
    held_claim other_runner sample_patches [js "System Manager"] (sample_patch_world false) sample_patch_admin
    (CallRollback sample_patch_options) sample_patch_client sample_patch_truthful sample_patch_closed) as (H1 & H2 & H3).
  split_and!; [exact H1|exact H2|exact H3|vm_compute; reflexivity..].
Defined.

Abbreviation sample_apply_call :=
  (@service_apply (list jstr) code_unit_collation sample_patch_ids sample_patch_clock (λ _, js "boom") other_runner sample_patches
    [js "System Manager"] sample_patch_admin sample_patch_options sample_patch_client).

(** What the call returns, evaluated. *)
Definition sample_apply_result : DataPatchRunResult := Eval vm_compute in
  match sample_apply_call.1 with Ok result => result | Throw _ => {| dpr_applied := []; dpr_skipped := [] |} end.

Lemma apply_applies_witness :
  prr_id <$> dpr_applied sample_apply_result = [js "b"] ∧ apd_id <$> dpr_skipped sample_apply_result = [js "a"] ∧
  applied_in (cl_store sample_apply_call.2) (js "b") ∧ noted (js "b") (ps_resources (cl_store sample_apply_call.2)).
Proof.
  assert (sample_apply_call.1 = Ok sample_apply_result) as Hr by (vm_compute; reflexivity).
  assert (sample_apply_call = (Ok sample_apply_result, sample_apply_call.2)) as Hc by (rewrite <-Hr; apply surjective_pairing).
  split_and!; [vm_compute; reflexivity..| |];
    apply (@apply_applies (list jstr) code_unit_collation sample_patch_ids sample_patch_clock (λ _, js "boom") noted our_claim
      held_claim other_runner sample_patches [js "System Manager"] (sample_patch_world true) sample_patch_admin
      sample_patch_options sample_patch_client sample_apply_result sample_apply_call.2 sample_patch_truthful sample_patch_closed eq_refl Hc
      (noting_patch (js "b"))); right; left.
Defined.
