(* ===== verification/Jobs.v ===== *)
(** * Jobs: definitions of jobs, their pools and their failures

    Models [core/jobs.ts], [application/job-errors.ts], [application/job-payload-policy.ts]
    and the messages of [ports/job-queue.ts].  Numbers are integers; a call of a handler
    returns, or throws what [classifyJobError] tells apart. *)

From S2P Require Export EventStore Interference.

(** ** Policies of retries *)

Definition DEFAULT_JOB_WORKER_POOL : jstr := js "default".
Definition MAX_JOB_RETRY_DELAY_SECONDS : Z := 86400.
Definition MAX_JOB_QUEUE_DELAY_SECONDS : Z := 86400.
Definition MAX_JOB_QUEUE_IDEMPOTENCY_KEY_LENGTH : nat := 256.

Definition job_error (code : FrameworkErrorCode) (status : Z) : error := {| err_code := code; err_status := status |}.

Record JobRetryPolicy := {
  jrp_maxAttempts : option Z;
  jrp_baseDelaySeconds : option Z;
  jrp_maxDelaySeconds : option Z
}.
Definition no_retry_policy : JobRetryPolicy :=
  {| jrp_maxAttempts := None; jrp_baseDelaySeconds := None; jrp_maxDelaySeconds := None |}.

(** An optional property that is checked when it is there. *)
Definition optional {A B} (f : A → res B) (v : option A) : res (option B) :=
  match v with Some v => r ← f v; Ok (Some r) | None => Ok None end.

(** [normalizePositiveInteger(value, label)] and [normalizeJobRetryDelaySeconds(value, label)]. *)
Definition normalizePositiveInteger (v : Z) : res Z := _ ← ensure (1 <=? v)%Z (job_error JOB_RETRY_INVALID 400); Ok v.
Definition normalizeJobRetryDelaySeconds (v : Z) : res Z :=
  _ ← ensure ((1 <=? v) && (v <=? MAX_JOB_RETRY_DELAY_SECONDS))%Z (job_error JOB_RETRY_INVALID 400); Ok v.

(** [normalizeJobRetryPolicy(policy, label)]. *)
Definition normalizeJobRetryPolicy (policy : option JobRetryPolicy) : res (option JobRetryPolicy) :=
  optional (λ policy,
    maxAttempts ← optional normalizePositiveInteger (jrp_maxAttempts policy);
    baseDelaySeconds ← optional normalizeJobRetryDelaySeconds (jrp_baseDelaySeconds policy);
    maxDelaySeconds ← optional normalizeJobRetryDelaySeconds (jrp_maxDelaySeconds policy);
    Ok {| jrp_maxAttempts := maxAttempts; jrp_baseDelaySeconds := baseDelaySeconds; jrp_maxDelaySeconds := maxDelaySeconds |}) policy.

(** ** Failures *)

(** What a handler may throw: a [FrameworkError], a [JobExecutionError] of its kind with
    its delay, a [Response] with its status, or anything else. *)
Inductive JobFailureKind := JobRetryable | JobPermanent.
Inductive JobThrown :=
| ThrownFramework (e : error)
| ThrownJob (kind : JobFailureKind) (delaySeconds : option Z)
| ThrownResponse (status : Z)
| ThrownOther.

(** [new JobExecutionError(message, options)]: its delay is checked first. *)
Definition new_job_error (kind : JobFailureKind) (delaySeconds : option Z) : res JobThrown :=
  delay ← optional normalizeJobRetryDelaySeconds delaySeconds; Ok (ThrownJob kind delay).
Definition retryableJobError (delaySeconds : option Z) : res JobThrown := new_job_error JobRetryable delaySeconds.
Definition permanentJobError : res JobThrown := new_job_error JobPermanent None.

Inductive JobRetryDecision := RetryAfter (delaySeconds : Z) | RetryFail.

(** [isRetryableJobError(error)]. *)
Definition isRetryableJobError (thrown : JobThrown) : bool :=
  match thrown with
  | ThrownJob JobRetryable _ => true
  | ThrownJob JobPermanent _ => false
  | ThrownFramework e => (500 <=? err_status e)%Z
  | ThrownResponse status => (status =? 429)%Z || (500 <=? status)%Z
  | ThrownOther => false
  end.

(** [classifyJobError(error, policy, attempt)]. *)
Definition classifyJobError (thrown : JobThrown) (policy : JobRetryPolicy) (attempt : Z) : res JobRetryDecision :=
  if negb (isRetryableJobError thrown) then Ok RetryFail
  else
    normalized ← normalizeJobRetryPolicy (Some policy);
    let normalizedPolicy := default no_retry_policy normalized in
    let normalizedAttempt := Z.max 1 attempt in
    if (default 3 (jrp_maxAttempts normalizedPolicy) <=? normalizedAttempt)%Z then Ok RetryFail
    else
      let baseDelaySeconds := default 30%Z (jrp_baseDelaySeconds normalizedPolicy) in
      let maxDelaySeconds := default 43200%Z (jrp_maxDelaySeconds normalizedPolicy) in
      let explicitDelay := match thrown with ThrownJob _ delay => delay | _ => None end in
      Ok (RetryAfter (default (Z.min (baseDelaySeconds * 2 ^ (normalizedAttempt - 1)) maxDelaySeconds)%Z explicitDelay)).

(** ** Messages *)

(** [JobMessage] and [DispatchJobCommand]. *)
Record JobMessage := {
  jmsg_tenantId : option jstr;
  jmsg_jobName : jstr;
  jmsg_payload : data;
  jmsg_runId : jstr;
  jmsg_idempotencyKey : jstr;
  jmsg_enqueuedAt : jstr;
  jmsg_metadata : data
}.
Record DispatchJobCommand := {
  djc_tenantId : option jstr;
  djc_jobName : jstr;
  djc_payload : data;
  djc_idempotencyKey : option jstr;
  djc_metadata : option data;
  djc_delaySeconds : option Z
}.

(** [normalizeJobDocumentData(value, label)] of an object, [normalizeJobHandlerResult(value)]. *)
Definition normalizeJobDocumentData (v : data) : res data :=
  if isJsonData v then Ok (prod_map id cloneJsonValue <$> v) else Throw badRequest.
Definition normalizeJobHandlerResult (v : value) : res (option value) :=
  match v with
  | VUndef => Ok None
  | _ => if isJsonValue v then Ok (Some (cloneJsonValue v)) else Throw badRequest
  end.

(** [jobQueueSendOptions(command)] and [ensureJobQueueIdempotencyKey(idempotencyKey)]. *)
Definition jobQueueSendOptions (delaySeconds : option Z) : res (option Z) :=
  optional (λ delay, _ ← ensure ((0 <=? delay) && (delay <=? MAX_JOB_QUEUE_DELAY_SECONDS))%Z badRequest; Ok delay) delaySeconds.
Definition ensureJobQueueIdempotencyKey (idempotencyKey : option jstr) : res unit :=
  match idempotencyKey with
  | None => Ok tt
  | Some key => ensure (length key <=? MAX_JOB_QUEUE_IDEMPOTENCY_KEY_LENGTH)%nat badRequest
  end.

(** ** The registry *)

Record JobWorkerPoolDefinition := {
  jwp_name : jstr;
  jwp_description : option jstr;
  jwp_concurrency : option Z;
  jwp_retry : option JobRetryPolicy
}.
Record ResolvedJobWorkerPool := {
  rjp_name : jstr;
  rjp_description : option jstr;
  rjp_concurrency : Z;
  rjp_retry : option JobRetryPolicy
}.

(** [JobHandlerContext], less its resources, which are the state of the handler's call. *)
Record JobHandlerContext := {
  jhc_tenantId : jstr;
  jhc_jobName : jstr;
  jhc_payload : data;
  jhc_runId : jstr;
  jhc_idempotencyKey : jstr;
  jhc_enqueuedAt : jstr;
  jhc_attempt : Z;
  jhc_metadata : data
}.

(** [JobDefinition], with the type of its handlers. *)
Record JobDefinition (H : Type) := {
  jd_name : jstr;
  jd_description : option jstr;
  jd_pool : option jstr;
  jd_retry : option JobRetryPolicy;
  jd_handler : H
}.
Arguments jd_name {H} _.
Arguments jd_description {H} _.
Arguments jd_pool {H} _.
Arguments jd_retry {H} _.
Arguments jd_handler {H} _.

Record JobRegistry (H : Type) := {
  jr_jobs : list (jstr * JobDefinition H);
  jr_pools : list (jstr * ResolvedJobWorkerPool)
}.
Arguments jr_jobs {H} _.
Arguments jr_pools {H} _.

(** [normalizeJobPool(pool)] and [normalizeWorkerPool(definition)]. *)
Definition normalizeJobPool (pool : option jstr) : res jstr :=
  let normalized := trim (default DEFAULT_JOB_WORKER_POOL pool) in
  _ ← ensure (negb (bool_decide (normalized = []))) (job_error JOB_POOL_INVALID 400); Ok normalized.
Definition normalizeWorkerPool (definition : JobWorkerPoolDefinition) : res ResolvedJobWorkerPool :=
  name ← normalizeJobPool (Some (jwp_name definition));
  let concurrency := default 1%Z (jwp_concurrency definition) in
  _ ← ensure (1 <=? concurrency)%Z (job_error JOB_POOL_INVALID 400);
  retry ← normalizeJobRetryPolicy (jwp_retry definition);
  Ok {| rjp_name := name; rjp_description := jwp_description definition; rjp_concurrency := concurrency; rjp_retry := retry |}.

(** What [workerPools] holds at first, and what [workerPoolFor] falls back to. *)
Definition default_worker_pool : ResolvedJobWorkerPool :=
  {| rjp_name := DEFAULT_JOB_WORKER_POOL; rjp_description := None; rjp_concurrency := 1; rjp_retry := None |}.

Section registry.
Context {H : Type}.

(** [register(definition)]. *)
Definition register_job (registry : JobRegistry H) (definition : JobDefinition H) : res (JobRegistry H) :=
  _ ← ensure (negb (jm_has (jd_name definition) (jr_jobs registry))) (job_error JOB_DUPLICATE 409);
  poolName ← normalizeJobPool (jd_pool definition);
  _ ← ensure (jm_has poolName (jr_pools registry)) (job_error JOB_POOL_NOT_FOUND 404);
  retry ← normalizeJobRetryPolicy (jd_retry definition);
  let stored := {| jd_name := jd_name definition; jd_description := jd_description definition;
    jd_pool := if bool_decide (poolName = DEFAULT_JOB_WORKER_POOL) then jd_pool definition else Some poolName;
    jd_retry := match retry with Some retry => Some retry | None => jd_retry definition end;
    jd_handler := jd_handler definition |} in
  Ok {| jr_jobs := jm_set (jd_name definition) stored (jr_jobs registry); jr_pools := jr_pools registry |}.

(** The loop of the constructor over the pools; [poolNames] holds those before. *)
Fixpoint register_pools (poolNames : list jstr) (pools : list (jstr * ResolvedJobWorkerPool)) (workerPools : list JobWorkerPoolDefinition)
    : res (list (jstr * ResolvedJobWorkerPool)) :=
  match workerPools with
  | [] => Ok pools
  | pool :: workerPools =>
      normalized ← normalizeWorkerPool pool;
      _ ← ensure (negb (bool_decide (rjp_name normalized ∈ poolNames))) (job_error JOB_POOL_DUPLICATE 409);
      register_pools (rjp_name normalized :: poolNames) (jm_set (rjp_name normalized) normalized pools) workerPools
  end.

(** [createJobRegistry(options)], the constructor. *)
Definition createJobRegistry (jobs : list (JobDefinition H)) (workerPools : list JobWorkerPoolDefinition) : res (JobRegistry H) :=
  pools ← register_pools [] [(DEFAULT_JOB_WORKER_POOL, default_worker_pool)] workerPools;
  foldl_res register_job {| jr_jobs := []; jr_pools := pools |} jobs.

(** [get(name)], [has(name)], [list()], [workerPoolFor(jobName)], [listWorkerPools()]. *)
Definition get_job (registry : JobRegistry H) (name : jstr) : res (JobDefinition H) :=
  match jm_get name (jr_jobs registry) with Some definition => Ok definition | None => Throw (notFound JOB_NOT_FOUND) end.
Definition has_job (registry : JobRegistry H) (name : jstr) : bool := jm_has name (jr_jobs registry).
Definition list_jobs `{Collation} (registry : JobRegistry H) : list (JobDefinition H) :=
  isort (λ left right, collation_leb (jd_name left) (jd_name right)) (jm_values (jr_jobs registry)).
Definition workerPoolFor (registry : JobRegistry H) (jobName : jstr) : res ResolvedJobWorkerPool :=
  definition ← get_job registry jobName;
  Ok (default default_worker_pool (jm_get (default DEFAULT_JOB_WORKER_POOL (jd_pool definition)) (jr_pools registry))).
Definition listWorkerPools `{Collation} (registry : JobRegistry H) : list ResolvedJobWorkerPool :=
  isort (λ left right, collation_leb (rjp_name left) (rjp_name right)) (jm_values (jr_pools registry)).
End registry.

(** ** What is true of policies *)

(** A delay that the queue can keep. *)
Definition delay_ok (delay : Z) : Prop := (1 ≤ delay ≤ MAX_JOB_RETRY_DELAY_SECONDS)%Z.

(** A policy whose numbers are within their bounds. *)
Definition policy_ok (policy : JobRetryPolicy) : Prop :=
  (∀ n, jrp_maxAttempts policy = Some n → (1 ≤ n)%Z) ∧
  (∀ n, jrp_baseDelaySeconds policy = Some n → delay_ok n) ∧ (∀ n, jrp_maxDelaySeconds policy = Some n → delay_ok n).

(** A throw whose own delay was checked when it was made. *)
Definition thrown_ok (thrown : JobThrown) : Prop := match thrown with ThrownJob _ (Some delay) => delay_ok delay | _ => True end.

Lemma normalized_delay v n : normalizeJobRetryDelaySeconds v = Ok n ↔ n = v ∧ delay_ok v.
Proof.
  unfold normalizeJobRetryDelaySeconds, delay_ok. split.
  - intros Hn. inv_res. apply andb_true_iff in H as [H1 H2]. lia.
  - intros [-> Hd]. destruct (Z.leb_spec 1 v); [|lia]. by destruct (Z.leb_spec v MAX_JOB_RETRY_DELAY_SECONDS); [|lia].
Qed.

Lemma normalized_count v n : normalizePositiveInteger v = Ok n ↔ n = v ∧ (1 ≤ v)%Z.
Proof.
  unfold normalizePositiveInteger. split; [intros Hn; inv_res; lia|]. intros [-> Hd]. by destruct (Z.leb_spec 1 v); [|lia].
Qed.

Lemma optional_ok {A B} (f : A → res B) v w :
  optional f v = Ok w ↔ match v, w with Some a, Some b => f a = Ok b | None, None => True | _, _ => False end.
Proof.
  destruct v as [a|]; cbn; [|destruct w; naive_solver]. destruct (f a) eqn:E; cbn; destruct w; naive_solver.
Qed.

Lemma optional_same {A} (f : A → res A) (P : A → Prop) (Hf : ∀ v w, f v = Ok w ↔ w = v ∧ P v) v w :
  optional f v = Ok w ↔ w = v ∧ ∀ a, v = Some a → P a.
Proof. rewrite optional_ok. destruct v, w; rewrite ?Hf; naive_solver. Qed.

(** Checking a policy changes nothing. *)
Lemma normalized_policy policy normalized :
  normalizeJobRetryPolicy (Some policy) = Ok normalized ↔ normalized = Some policy ∧ policy_ok policy.
Proof.
  unfold normalizeJobRetryPolicy, policy_ok. rewrite optional_ok. destruct normalized as [n|]; [|naive_solver]. rewrite bind_ok.
  setoid_rewrite (optional_same _ _ normalized_count). setoid_rewrite bind_ok. setoid_rewrite bind_ok.
  setoid_rewrite (optional_same _ _ normalized_delay). destruct policy, n; cbn. naive_solver.
Qed.

Lemma new_job_error_ok kind delay thrown : new_job_error kind delay = Ok thrown → thrown_ok thrown.
Proof.
  unfold new_job_error. intros Hn. apply bind_ok in Hn as (d & Hd & [= <-]).
  rewrite (optional_same _ _ normalized_delay) in Hd. destruct Hd as [-> Hd]. destruct delay; cbn; auto.
Qed.

(** What a registry holds is checked. *)
Definition policies_ok {H} (registry : JobRegistry H) : Prop :=
  (∀ name definition policy, jm_get name (jr_jobs registry) = Some definition → jd_retry definition = Some policy → policy_ok policy) ∧
  (∀ name pool policy, jm_get name (jr_pools registry) = Some pool → rjp_retry pool = Some policy → policy_ok policy).

Lemma checked_policy policy checked own : normalizeJobRetryPolicy policy = Ok checked → checked = Some own → policy_ok own.
Proof. intros Hn ->. destruct policy as [p|]; [|done]. apply normalized_policy in Hn as [[= ->] Hp]. done. Qed.

Lemma unchecked_policy policy : normalizeJobRetryPolicy policy = Ok None → policy = None.
Proof. destruct policy; [|done]. by intros [? _]%normalized_policy. Qed.

Lemma pools_ok poolNames pools workerPools pools' : register_pools poolNames pools workerPools = Ok pools' →
  (∀ name pool policy, jm_get name pools = Some pool → rjp_retry pool = Some policy → policy_ok policy) →
  ∀ name pool policy, jm_get name pools' = Some pool → rjp_retry pool = Some policy → policy_ok policy.
Proof.
  revert poolNames pools. induction workerPools as [|pool workerPools IH]; intros poolNames pools Hr Hp; cbn in Hr; [by injection Hr as <-|].
  apply bind_ok in Hr as (normalized & Hn & Hr). apply bind_ok in Hr as ([] & _ & Hr). eapply IH; [exact Hr|].
  intros name pool' policy. rewrite jm_get_set. case_decide; [|by apply Hp]. intros [= <-] Hpol.
  unfold normalizeWorkerPool in Hn. apply bind_ok in Hn as (poolName & _ & Hn). apply bind_ok in Hn as ([] & _ & Hn).
  apply bind_ok in Hn as (retry & Hn & [= <-]). by eapply checked_policy.
Qed.

Lemma registered_ok {H} (registry registry' : JobRegistry H) definition :
  register_job registry definition = Ok registry' → policies_ok registry → policies_ok registry'.
Proof.
  unfold register_job. intros Hr [Hj Hp]. apply bind_ok in Hr as ([] & _ & Hr). apply bind_ok in Hr as (poolName & _ & Hr).
  apply bind_ok in Hr as ([] & _ & Hr). apply bind_ok in Hr as (retry & Hn & [= <-]). split; [|done].
  intros name stored policy. cbn. rewrite jm_get_set. case_decide; [|by apply Hj]. intros [= <-]. cbn.
  destruct retry as [own|]; [intros [= <-]; by eapply checked_policy|]. by rewrite (unchecked_policy _ Hn).
Qed.

Lemma createJobRegistry_ok {H} (jobs : list (JobDefinition H)) workerPools registry :
  createJobRegistry jobs workerPools = Ok registry → policies_ok registry.
Proof.
  unfold createJobRegistry. intros Hr. apply bind_ok in Hr as (pools & Hp & Hr).
  assert (policies_ok {| jr_jobs := [] : list (jstr * JobDefinition H); jr_pools := pools |}) as Hok.
  { split; [done|]. apply (pools_ok _ _ _ _ Hp). intros name pool policy Hg%jm_get_elem_1%list_elem_of_singleton.
    injection Hg as -> ->. done. }
  revert Hr Hok. generalize {| jr_jobs := [] : list (jstr * JobDefinition H); jr_pools := pools |}.
  induction jobs as [|job jobs IH]; intros registry0 Hr Hok; cbn in Hr; [by injection Hr as <-|].
  apply bind_ok in Hr as (registry1 & H1 & Hr). eapply IH; [exact Hr|by eapply registered_ok].
Qed.

Lemma retry_decided thrown policy attempt : policy_ok policy → thrown_ok thrown →
  ∃ decision, classifyJobError thrown policy attempt = Ok decision ∧
  match decision with
  | RetryAfter delay => isRetryableJobError thrown = true ∧ (Z.max 1 attempt < default 3 (jrp_maxAttempts policy))%Z ∧ delay_ok delay ∧
      delay = default (Z.min (default 30 (jrp_baseDelaySeconds policy) * 2 ^ (Z.max 1 attempt - 1)) (default 43200 (jrp_maxDelaySeconds policy)))%Z
        (match thrown with ThrownJob _ own => own | _ => None end)
  | RetryFail => isRetryableJobError thrown = false ∨ (default 3 (jrp_maxAttempts policy) ≤ Z.max 1 attempt)%Z
  end.
Proof.
  intros Hp Ht. unfold classifyJobError. destruct (isRetryableJobError thrown) eqn:Er; cbn [negb]; [|exists RetryFail; auto].
  assert (normalizeJobRetryPolicy (Some policy) = Ok (Some policy)) as -> by by apply normalized_policy.
  cbn [mbind res_bind]. change (default no_retry_policy (Some policy)) with policy. destruct (Z.leb_spec (default 3%Z (jrp_maxAttempts policy)) (Z.max 1 attempt)) as [Hm|Hm]; [exists RetryFail; auto|].
  eexists. split; [done|]. cbn beta iota. split_and!; [done|done| |done].
  assert (∀ v d, (∀ n, v = Some n → delay_ok n) → delay_ok d → delay_ok (default d v)) as Hdef by (intros [n|] d Hv Hd; cbn; auto).
  destruct Hp as (_ & Hb & Hx). apply Hdef.
  - destruct thrown as [|kind [own|]| |]; naive_solver.
  - pose proof (Hdef (jrp_baseDelaySeconds policy) 30%Z Hb ltac:(done)) as Hb'. pose proof (Hdef (jrp_maxDelaySeconds policy) 43200%Z Hx ltac:(done)) as Hx'.
    pose proof (Z.pow_pos_nonneg 2 (Z.max 1 attempt - 1)). unfold delay_ok in *. nia.
Qed.


Lemma classify_decides thrown policy attempt : policy_ok policy → thrown_ok thrown →
  ∃ decision, classifyJobError thrown policy attempt = Ok decision ∧ match decision with RetryAfter delay => delay_ok delay | RetryFail => True end.
Proof.
  intros Hp Ht. destruct (retry_decided thrown policy attempt Hp Ht) as (decision & Hd & Hr). exists decision. split; [done|].
  destruct decision; [apply Hr|done].
Qed.

(** C38: With a checked policy the decision on a failure never throws: a job is retried
    exactly when its failure may be and its attempt is before the last one that the policy
    allows, and a retry is delayed by the delay that the failure asks for, or by the base
    delay, doubled with each attempt after the first and cut at the maximum; the delay is
    always one that the queue can keep. *)
Theorem job_retry_exact thrown policy attempt : policy_ok policy → thrown_ok thrown →
  ∃ decision, classifyJobError thrown policy attempt = Ok decision ∧
  match decision with
  | RetryAfter delay => isRetryableJobError thrown = true ∧ (Z.max 1 attempt < default 3 (jrp_maxAttempts policy))%Z ∧ delay_ok delay ∧
      delay = default (Z.min (default 30 (jrp_baseDelaySeconds policy) * 2 ^ (Z.max 1 attempt - 1)) (default 43200 (jrp_maxDelaySeconds policy)))%Z
        (match thrown with ThrownJob _ own => own | _ => None end)
  | RetryFail => isRetryableJobError thrown = false ∨ (default 3 (jrp_maxAttempts policy) ≤ Z.max 1 attempt)%Z
  end.
Proof. apply retry_decided. Qed.

Lemma job_retry_exact_witness :
  classifyJobError (ThrownResponse 503) no_retry_policy 2 = Ok (RetryAfter 60) ∧
  ∃ decision, classifyJobError (ThrownResponse 503) no_retry_policy 2 = Ok decision ∧
    match decision with RetryAfter delay => delay_ok delay | RetryFail => False end.
Proof.
  split; [reflexivity|].
  destruct (job_retry_exact (ThrownResponse 503) no_retry_policy 2 ltac:(by split_and!) I) as (decision & Hd & Hr).
  exists decision. split; [exact Hd|]. vm_compute in Hd. injection Hd as <-. exact (proj1 (proj2 (proj2 Hr))).
Defined.
