(* ===== verification/JobServices.v ===== *)
(** * JobServices: dispatching, executing, inspecting and retrying jobs

    Models [application/job-dispatcher.ts], [job-executor.ts], [job-history-policy.ts],
    [job-history-service.ts], [job-retry-policy.ts], [job-retry-service.ts] over
    [adapters/in-memory/job-execution-log.ts] and [adapters/in-memory/job-queue.ts], with
    [ports/job-execution-log.ts].  Others act at each [await], also while a handler runs. *)

From S2P Require Export Jobs Interference.

(** ** The log of executions *)

Inductive JobExecutionStatus := ExecutionRunning | ExecutionSucceeded | ExecutionFailed.
#[export] Instance JobExecutionStatus_eq_dec : EqDecision JobExecutionStatus.
Proof. solve_decision. Defined.

Record JobExecutionRecord := {
  jer_tenantId : jstr;
  jer_idempotencyKey : jstr;
  jer_jobName : jstr;
  jer_runId : jstr;
  jer_payload : option data;
  jer_metadata : option data;
  jer_enqueuedAt : option jstr;
  jer_status : JobExecutionStatus;
  jer_startedAt : jstr;
  jer_finishedAt : option jstr;
  jer_result : option value;
  jer_error : option jstr
}.

Inductive JobExecutionBeginResult := BeginStarted (record : JobExecutionRecord) | BeginDuplicate (record : JobExecutionRecord).

Record ListJobExecutionsOptions := {
  ljo_tenantId : option jstr;
  ljo_jobName : option jstr;
  ljo_runId : option jstr;
  ljo_status : option JobExecutionStatus;
  ljo_limit : option Z
}.

Abbreviation job_log := (list (jstr * JobExecutionRecord)).

(** [cloneJson(value)] of a payload and of a result, [cloneRecord(record)]. *)
Definition clone_job_json (v : value) : res value :=
  if isJsonValue v then Ok (cloneJsonValue v) else Throw (job_error JOB_EXECUTION_INVALID 409).
Definition clone_job_data (v : data) : res data :=
  if isJsonData v then Ok (prod_map id cloneJsonValue <$> v) else Throw (job_error JOB_EXECUTION_INVALID 409).
Definition cloneRecord (record : JobExecutionRecord) : res JobExecutionRecord :=
  payload ← optional clone_job_data (jer_payload record);
  metadata ← optional clone_job_data (jer_metadata record);
  result ← optional clone_job_json (jer_result record);
  Ok {| jer_tenantId := jer_tenantId record; jer_idempotencyKey := jer_idempotencyKey record; jer_jobName := jer_jobName record;
        jer_runId := jer_runId record; jer_payload := payload; jer_metadata := metadata; jer_enqueuedAt := jer_enqueuedAt record;
        jer_status := jer_status record; jer_startedAt := jer_startedAt record; jer_finishedAt := jer_finishedAt record;
        jer_result := result; jer_error := jer_error record |}.

(** [recordKey(tenantId, idempotencyKey)], and that of a message. *)
Definition recordKey (tenantId idempotencyKey : jstr) : jstr := tenantId ++ [0%N] ++ idempotencyKey.
Definition message_tenant (message : JobMessage) : jstr := default DEFAULT_TENANT_ID (jmsg_tenantId message).
Definition message_key (message : JobMessage) : jstr := recordKey (message_tenant message) (jmsg_idempotencyKey message).

(** [begin(message, startedAt)], and its part that records the start. *)
Definition log_start (message : JobMessage) (startedAt : jstr) : M job_log JobExecutionBeginResult :=
  payload ← m_lift (clone_job_data (jmsg_payload message));
  metadata ← m_lift (clone_job_data (jmsg_metadata message));
  let record := {| jer_tenantId := message_tenant message; jer_idempotencyKey := jmsg_idempotencyKey message;
    jer_jobName := jmsg_jobName message; jer_runId := jmsg_runId message; jer_payload := Some payload; jer_metadata := Some metadata;
    jer_enqueuedAt := Some (jmsg_enqueuedAt message); jer_status := ExecutionRunning; jer_startedAt := startedAt;
    jer_finishedAt := None; jer_result := None; jer_error := None |} in
  records ← m_get;
  _ ← m_put (jm_set (message_key message) record records);
  copy ← m_lift (cloneRecord record);
  mret (BeginStarted copy).
Definition log_begin (message : JobMessage) (startedAt : jstr) : M job_log JobExecutionBeginResult :=
  records ← m_get;
  match jm_get (message_key message) records with
  | Some existing =>
      match jer_status existing with
      | ExecutionRunning | ExecutionSucceeded => copy ← m_lift (cloneRecord existing); mret (BeginDuplicate copy)
      | ExecutionFailed => log_start message startedAt
      end
  | None => log_start message startedAt
  end.

(** [complete(message, finishedAt, result)] and [fail(message, finishedAt, error)], whose
    record carries over what the one before holds. *)
Definition log_finish (message : JobMessage) (finishedAt : jstr) (status : JobExecutionStatus) (result : option value) (err : option jstr)
    : M job_log unit :=
  records ← m_get;
  let previous := jm_get (message_key message) records in
  let tenantId := default (message_tenant message) (jer_tenantId <$> previous) in
  payload ← m_lift (clone_job_data (default (jmsg_payload message) (previous ≫= jer_payload)));
  metadata ← m_lift (clone_job_data (default (jmsg_metadata message) (previous ≫= jer_metadata)));
  result ← m_lift (optional clone_job_json result);
  let record := {| jer_tenantId := tenantId; jer_idempotencyKey := jmsg_idempotencyKey message;
    jer_jobName := jmsg_jobName message; jer_runId := jmsg_runId message; jer_payload := Some payload; jer_metadata := Some metadata;
    jer_enqueuedAt := Some (default (jmsg_enqueuedAt message) (previous ≫= jer_enqueuedAt)); jer_status := status;
    jer_startedAt := default finishedAt (jer_startedAt <$> previous);
    jer_finishedAt := Some finishedAt; jer_result := result; jer_error := err |} in
  m_put (jm_set (recordKey tenantId (jmsg_idempotencyKey message)) record records).
Definition log_complete (message : JobMessage) (finishedAt : jstr) (result : option value) : M job_log unit :=
  log_finish message finishedAt ExecutionSucceeded result None.
Definition log_fail (message : JobMessage) (finishedAt err : jstr) : M job_log unit :=
  log_finish message finishedAt ExecutionFailed None (Some err).

(** [get(idempotencyKey, options)]. *)
Definition get_execution (idempotencyKey : jstr) (tenantId : option jstr) (records : job_log) : res (option JobExecutionRecord) :=
  optional cloneRecord (match tenantId with
    | Some tenantId => jm_get (recordKey tenantId idempotencyKey) records
    | None => list_find (λ record, jer_idempotencyKey record = idempotencyKey) (jm_values records) ≫= λ found, Some found.2
    end).

(** [list(options)]: the newest first, then by key. *)
Definition asked {A} `{EqDecision A} (asked_ : option A) (v : A) : bool :=
  match asked_ with Some a => bool_decide (v = a) | None => true end.
Definition execution_leb `{Collation} (left right : JobExecutionRecord) : bool :=
  if collation_leb (jer_startedAt right) (jer_startedAt left) && collation_leb (jer_startedAt left) (jer_startedAt right)
  then collation_leb (jer_idempotencyKey left) (jer_idempotencyKey right)
  else collation_leb (jer_startedAt right) (jer_startedAt left).
Definition list_executions `{Collation} (options : ListJobExecutionsOptions) (records : job_log) : res (list JobExecutionRecord) :=
  map_res cloneRecord (slice_to (default 50%Z (ljo_limit options)) (isort execution_leb (filter (λ record,
    asked (ljo_tenantId options) (jer_tenantId record) && asked (ljo_jobName options) (jer_jobName record) &&
    asked (ljo_runId options) (jer_runId record) && asked (ljo_status options) (jer_status record) = true) (jm_values records)))).

(** ** The queue *)

Record InMemoryQueuedJob := { qjb_message : JobMessage; qjb_delaySeconds : option Z }.

(** [cloneJobMessage(message)], whose [cloneDocumentData] is [normalizeJobDocumentData],
    and [send(message, options)]. *)
Definition cloneJobMessage (message : JobMessage) : res JobMessage :=
  payload ← normalizeJobDocumentData (jmsg_payload message);
  metadata ← normalizeJobDocumentData (jmsg_metadata message);
  Ok {| jmsg_tenantId := jmsg_tenantId message; jmsg_jobName := jmsg_jobName message; jmsg_payload := payload;
        jmsg_runId := jmsg_runId message; jmsg_idempotencyKey := jmsg_idempotencyKey message;
        jmsg_enqueuedAt := jmsg_enqueuedAt message; jmsg_metadata := metadata |}.
Definition send (message : JobMessage) (delaySeconds : option Z) : M (list InMemoryQueuedJob) unit :=
  copy ← m_lift (cloneJobMessage message);
  jobs ← m_get;
  m_put (jobs ++ [{| qjb_message := copy; qjb_delaySeconds := delaySeconds |}]).
Definition queued (jobs : list InMemoryQueuedJob) : res (list InMemoryQueuedJob) :=
  map_res (λ job, message ← cloneJobMessage (qjb_message job);
    Ok {| qjb_message := message; qjb_delaySeconds := qjb_delaySeconds job |}) jobs.

(** ** The services *)

(** What the services share: the log of executions, the queue, and the resources that
    handlers work on. *)
Record JobStore (R : Type) := { jst_records : job_log; jst_queue : list InMemoryQueuedJob; jst_resources : R }.
Arguments jst_records {R} _.
Arguments jst_queue {R} _.
Arguments jst_resources {R} _.

Abbreviation JobCall R := (M (Client (JobStore R))).

(** A handler throws an [error], or returns another throw or its result. *)
Abbreviation JobHandler R := (JobHandlerContext → JobCall R (JobThrown + value)).

Definition on_records {R A} (m : M job_log A) : M (JobStore R) A := λ s,
  let (r, records) := m (jst_records s) in
  (r, {| jst_records := records; jst_queue := jst_queue s; jst_resources := jst_resources s |}).
Definition on_queue {R A} (m : M (list InMemoryQueuedJob) A) : M (JobStore R) A := λ s,
  let (r, jobs) := m (jst_queue s) in
  (r, {| jst_records := jst_records s; jst_queue := jobs; jst_resources := jst_resources s |}).

(** [try { ... } catch (error) { ...; throw error }], of any throw. *)
Definition attempting {R A} (m : JobCall R (JobThrown + A)) (handler : JobThrown → JobCall R (JobThrown + A)) : JobCall R (JobThrown + A) := λ c,
  match m c with
  | (Throw e, c') => handler (ThrownFramework e) c'
  | (Ok (inl thrown), c') => handler thrown c'
  | r => r
  end.
Definition rethrow {R A} (thrown : JobThrown) : JobCall R (JobThrown + A) :=
  match thrown with ThrownFramework e => m_throw e | thrown => mret (inl thrown) end.

Inductive JobExecutionOutcome := OutcomeSucceeded (result : option value) | OutcomeSkipped.

Section services.
Context {R : Type} (ids clock : nat → jstr) (text : JobThrown → jstr).
Context (env : nat → JobStore R → JobStore R).
Context (registry : JobRegistry (JobHandler R)).

Definition records_call {A} (m : M job_log A) : JobCall R A := update env (on_records m).
Definition queue_call {A} (m : M (list InMemoryQueuedJob) A) : JobCall R A := update env (on_queue m).

(** [dispatch(command)]. *)
Definition dispatch (command : DispatchJobCommand) : JobCall R JobMessage :=
  _ ← m_lift (get_job registry (djc_jobName command));
  options ← m_lift (jobQueueSendOptions (djc_delaySeconds command));
  _ ← m_lift (ensureJobQueueIdempotencyKey (djc_idempotencyKey command));
  payload ← m_lift (normalizeJobDocumentData (djc_payload command));
  metadata ← m_lift (match djc_metadata command with None => Ok [] | Some metadata => normalizeJobDocumentData metadata end);
  runId ← next_id ids;
  enqueuedAt ← now clock;
  let message := {| jmsg_tenantId := Some (default DEFAULT_TENANT_ID (djc_tenantId command)); jmsg_jobName := djc_jobName command;
    jmsg_payload := payload; jmsg_runId := runId;
    jmsg_idempotencyKey := default (djc_jobName command ++ js ":" ++ runId) (djc_idempotencyKey command);
    jmsg_enqueuedAt := enqueuedAt; jmsg_metadata := metadata |} in
  _ ← queue_call (send message options);
  mret message.

(** The context that the handler of a message runs in. *)
Definition handler_context (message : JobMessage) (attempt : option Z) : JobHandlerContext :=
  {| jhc_tenantId := message_tenant message; jhc_jobName := jmsg_jobName message; jhc_payload := jmsg_payload message;
     jhc_runId := jmsg_runId message; jhc_idempotencyKey := jmsg_idempotencyKey message; jhc_enqueuedAt := jmsg_enqueuedAt message;
     jhc_attempt := default 1%Z attempt; jhc_metadata := jmsg_metadata message |}.

(** What an executor does when it has an execution log ([executionLog?.]). *)
Context (logged : bool).
Definition when_logged (m : JobCall R unit) : JobCall R unit := if logged then m else mret tt.

(** The [try] and the [catch] of [execute]. *)
Definition run_job (definition : JobDefinition (JobHandler R)) (message : JobMessage) (attempt : option Z)
    : JobCall R (JobThrown + JobExecutionOutcome) :=
  attempting
    (result ← jd_handler definition (handler_context message attempt);
     match result with
     | inl thrown => mret (inl thrown)
     | inr result =>
         normalizedResult ← m_lift (normalizeJobHandlerResult result);
         finishedAt ← now clock;
         _ ← when_logged (records_call (log_complete message finishedAt normalizedResult));
         mret (inr (OutcomeSucceeded normalizedResult))
     end)
    (λ thrown,
      finishedAt ← now clock;
      _ ← when_logged (records_call (log_fail message finishedAt (text thrown)));
      rethrow thrown).

(** [execute(message, options)]. *)
Definition execute (message : JobMessage) (attempt : option Z) : JobCall R (JobThrown + JobExecutionOutcome) :=
  definition ← m_lift (get_job registry (jmsg_jobName message));
  startedAt ← now clock;
  begun ← (if logged then begun ← records_call (log_begin message startedAt); mret (Some begun) else mret None);
  match begun with
  | Some (BeginDuplicate _) => mret (inr OutcomeSkipped)
  | _ => run_job definition message attempt
  end.

(** [retryPolicyFor(jobName)]. *)
Definition retryPolicyFor (jobName : jstr) : res (option JobRetryPolicy) :=
  definition ← get_job registry jobName; Ok (jd_retry definition).

(** ** Retries *)

(** [planJobRetryAccess] and [planJobHistoryAccess]: the tenant, or a denial. *)
Definition plan_job_access (actor : Actor) (adminRoles : list jstr) : res jstr :=
  if existsb (λ role, bool_decide (role ∈ actor_roles actor)) adminRoles
  then Ok (default DEFAULT_TENANT_ID (actor_tenantId actor)) else Throw permissionDenied.

(** [retryMetadata(metadata, actor, runId, retriedAt)]. *)
Definition retryMetadata (metadata : data) (actor : Actor) (runId retriedAt : jstr) : data :=
  jm_spread metadata [(js "retriedAt", VStr retriedAt); (js "retriedBy", VStr (actor_id actor)); (js "retriedFromRunId", VStr runId)].

(** [planJobExecutionRetry(options)]. *)
Definition planJobExecutionRetry (actor : Actor) (original : JobExecutionRecord) (retriedAt : jstr) : res DispatchJobCommand :=
  _ ← ensure (bool_decide (jer_status original = ExecutionFailed)) badRequest;
  match jer_payload original, jer_metadata original with
  | Some payload, Some metadata =>
      Ok {| djc_tenantId := Some (jer_tenantId original); djc_jobName := jer_jobName original; djc_payload := payload;
            djc_idempotencyKey := Some (jer_idempotencyKey original);
            djc_metadata := Some (retryMetadata metadata actor (jer_runId original) retriedAt); djc_delaySeconds := None |}
  | _, _ => Throw badRequest
  end.

(** [planJobRetryExecutionLookup] and [planJobHistoryRecordLookup], whose missing record throws. *)
Definition found_execution (record : option JobExecutionRecord) : res JobExecutionRecord :=
  match record with Some record => Ok record | None => Throw (notFound JOB_EXECUTION_NOT_FOUND) end.

(** [retry(actor, idempotencyKey)] of [JobRetryService]. *)
Context (adminRoles : list jstr).
Definition retry_job (actor : Actor) (idempotencyKey : jstr) : JobCall R (JobExecutionRecord * JobMessage) :=
  tenantId ← m_lift (plan_job_access actor adminRoles);
  record ← observe env (λ s, get_execution idempotencyKey (Some tenantId) (jst_records s));
  original ← m_lift (found_execution record);
  retriedAt ← now clock;
  command ← m_lift (planJobExecutionRetry actor original retriedAt);
  message ← dispatch command;
  mret (original, message).

(** ** History *)

Definition DEFAULT_JOB_HISTORY_LIMIT : Z := 50.
Definition MAX_JOB_HISTORY_LIMIT : Z := 200.

Record JobExecutionHistoryQuery := {
  jhq_jobName : option jstr;
  jhq_runId : option jstr;
  jhq_status : option jstr;
  jhq_limit : option Z
}.
Record NormalizedJobExecutionHistoryQuery := {
  njq_jobName : option jstr;
  njq_runId : option jstr;
  njq_status : option JobExecutionStatus;
  njq_limit : Z
}.
Record JobDefinitionSummary := {
  jds_name : jstr;
  jds_description : option jstr;
  jds_pool : jstr;
  jds_retry : option JobRetryPolicy
}.
Record JobExecutionDashboard := {
  jed_jobs : list JobDefinitionSummary;
  jed_executions : list JobExecutionRecord;
  jed_query : NormalizedJobExecutionHistoryQuery
}.

(** [normalizeJobHistoryStatus(status)], [normalizeJobHistoryLimit(limit)], and a filter
    that the empty string does not set. *)
Definition normalizeJobHistoryStatus (status : option jstr) : res (option JobExecutionStatus) :=
  match status with
  | None | Some [] => Ok None
  | Some status =>
      if bool_decide (status = js "running") then Ok (Some ExecutionRunning)
      else if bool_decide (status = js "succeeded") then Ok (Some ExecutionSucceeded)
      else if bool_decide (status = js "failed") then Ok (Some ExecutionFailed)
      else Throw badRequest
  end.
Definition normalizeJobHistoryLimit (limit : option Z) : res Z :=
  match limit with
  | None => Ok DEFAULT_JOB_HISTORY_LIMIT
  | Some limit => _ ← ensure (1 <=? limit)%Z badRequest; Ok (Z.min limit MAX_JOB_HISTORY_LIMIT)
  end.
Definition history_filter (v : option jstr) : option jstr := match v with Some [] => None | v => v end.

(** [normalizeJobHistoryQuery(query)] and [planJobHistoryListOptions(tenantId, query)]. *)
Definition normalizeJobHistoryQuery (query : JobExecutionHistoryQuery) : res NormalizedJobExecutionHistoryQuery :=
  status ← normalizeJobHistoryStatus (jhq_status query);
  limit ← normalizeJobHistoryLimit (jhq_limit query);
  Ok {| njq_jobName := history_filter (jhq_jobName query); njq_runId := history_filter (jhq_runId query);
        njq_status := status; njq_limit := limit |}.
Definition planJobHistoryListOptions (tenantId : jstr) (query : NormalizedJobExecutionHistoryQuery) : ListJobExecutionsOptions :=
  {| ljo_tenantId := Some tenantId; ljo_jobName := njq_jobName query; ljo_runId := njq_runId query;
     ljo_status := njq_status query; ljo_limit := Some (njq_limit query) |}.

(** [jobHistoryDefinitionSummary(job)]. *)
Definition jobHistoryDefinitionSummary {H} (job : JobDefinition H) : JobDefinitionSummary :=
  {| jds_name := jd_name job; jds_description := jd_description job; jds_pool := default DEFAULT_JOB_WORKER_POOL (jd_pool job);
     jds_retry := jd_retry job |}.

(** [planJobHistoryRecordAccess(options)]. *)
Definition planJobHistoryRecordAccess (tenantId : jstr) (record : JobExecutionRecord) : bool := bool_decide (jer_tenantId record = tenantId).

(** [dashboard(actor, query)] and [get(actor, idempotencyKey)] of [JobHistoryService]. *)
Definition job_dashboard `{Collation} (actor : Actor) (query : JobExecutionHistoryQuery) : JobCall R JobExecutionDashboard :=
  tenantId ← m_lift (plan_job_access actor adminRoles);
  normalized ← m_lift (normalizeJobHistoryQuery query);
  executions ← observe env (λ s, list_executions (planJobHistoryListOptions tenantId normalized) (jst_records s));
  mret {| jed_jobs := jobHistoryDefinitionSummary <$> list_jobs registry; jed_executions := executions; jed_query := normalized |}.
Definition job_history_get (actor : Actor) (idempotencyKey : jstr) : JobCall R JobExecutionRecord :=
  tenantId ← m_lift (plan_job_access actor adminRoles);
  found ← observe env (λ s, get_execution idempotencyKey (Some tenantId) (jst_records s));
  record ← m_lift (found_execution found);
  _ ← m_ensure (planJobHistoryRecordAccess tenantId record) permissionDenied;
  mret record.
End services.
