(* ===== verification/JobRuns.v ===== *)
(** * JobRuns: what the execution of a job records

    The log of executions under an executor: a message is begun unless its key is running
    or succeeded, and an execution that began records how its handler ended.
    Then what a retry puts on the queue, and the interleavings of many executors that
    share a log, as a step relation. *)

From S2P Require Export JobServices.

(** ** The log *)

Definition data_json (v : data) : Prop := isJsonData v = true.

Lemma clone_fields (v : data) : prod_map id cloneJsonValue <$> v = v.
Proof. induction v as [|[k x] v IH]; [done|]. rewrite fmap_cons, IH. cbn. by rewrite cloneJsonValue_id. Qed.

Lemma clone_job_data_ok v : data_json v → clone_job_data v = Ok v.
Proof. intros Hv. unfold clone_job_data. by rewrite Hv, clone_fields. Qed.

Lemma clone_job_data_json v copy : clone_job_data v = Ok copy → copy = v ∧ data_json v.
Proof. unfold clone_job_data, data_json. destruct (isJsonData v); [|done]. rewrite clone_fields. by intros [= <-]. Qed.

Definition result_ok (result : option value) : Prop := ∀ v, result = Some v → isJsonValue v = true.

Lemma job_result_cloned result : result_ok result → optional clone_job_json result = Ok result.
Proof. intros Hr. destruct result as [v|]; [|done]. cbn. unfold clone_job_json. rewrite (Hr v eq_refl). cbn. by rewrite cloneJsonValue_id. Qed.

Lemma normalized_result v result : normalizeJobHandlerResult v = Ok result → result_ok result.
Proof.
  intros Hn v' ->. unfold normalizeJobHandlerResult in Hn. rewrite cloneJsonValue_id in Hn.
  destruct v; try done; (destruct (isJsonValue _) eqn:E; [by injection Hn as <-|done]).
Qed.

(** The record of a message that begins. *)
Definition started_record (message : JobMessage) (startedAt : jstr) : JobExecutionRecord :=
  {| jer_tenantId := message_tenant message; jer_idempotencyKey := jmsg_idempotencyKey message; jer_jobName := jmsg_jobName message;
     jer_runId := jmsg_runId message; jer_payload := Some (jmsg_payload message); jer_metadata := Some (jmsg_metadata message);
     jer_enqueuedAt := Some (jmsg_enqueuedAt message); jer_status := ExecutionRunning; jer_startedAt := startedAt;
     jer_finishedAt := None; jer_result := None; jer_error := None |}.

(** A message whose parts the log can keep. *)
Definition message_json (message : JobMessage) : Prop := data_json (jmsg_payload message) ∧ data_json (jmsg_metadata message).

(** A key is free when it may begin. *)
Definition key_taken (records : job_log) (key : jstr) : Prop :=
  ∃ record, jm_get key records = Some record ∧ (jer_status record = ExecutionRunning ∨ jer_status record = ExecutionSucceeded).

(** What [begin] does. *)
Lemma log_start_run message startedAt records :
  message_json message ∧ log_start message startedAt records =
    (Ok (BeginStarted (started_record message startedAt)), jm_set (message_key message) (started_record message startedAt) records) ∨
  ¬ message_json message ∧ ∃ e, log_start message startedAt records = (Throw e, records).
Proof.
  unfold log_start, message_json, m_lift. rewrite m_bind_run.
  destruct (clone_job_data (jmsg_payload message)) as [payload|e] eqn:Ep; [|right; split; [|by eexists]].
  2: { intros [Hp _]. by rewrite (clone_job_data_ok _ Hp) in Ep. }
  apply clone_job_data_json in Ep as [-> Hp]. rewrite m_bind_run.
  destruct (clone_job_data (jmsg_metadata message)) as [metadata|e] eqn:Em; [|right; split; [|by eexists]].
  2: { intros [_ Hm]. by rewrite (clone_job_data_ok _ Hm) in Em. }
  apply clone_job_data_json in Em as [-> Hm]. left. split; [done|]. unfold m_get, m_put. rewrite !m_bind_run.
  unfold cloneRecord. cbn [jer_payload jer_metadata jer_result optional]. by rewrite (clone_job_data_ok _ Hp), (clone_job_data_ok _ Hm).
Qed.

(** What [begin] does. *)
Lemma log_begin_cases message startedAt records r records' :
  log_begin message startedAt records = (r, records') →
  (key_taken records (message_key message) ∧ records' = records ∧ ∀ begun, r = Ok begun → ∃ record, begun = BeginDuplicate record) ∨
  (¬ key_taken records (message_key message) ∧ message_json message ∧
    r = Ok (BeginStarted (started_record message startedAt)) ∧
    records' = jm_set (message_key message) (started_record message startedAt) records) ∨
  (¬ key_taken records (message_key message) ∧ ¬ message_json message ∧ records' = records ∧ ∃ e, r = Throw e).
Proof.
  unfold log_begin, key_taken. rewrite m_bind_run. cbn [m_get]. destruct (jm_get (message_key message) records) as [existing|] eqn:E.
  - assert (jer_status existing = ExecutionFailed ∨ jer_status existing = ExecutionRunning ∨ jer_status existing = ExecutionSucceeded) as [Hs|Hs]
      by (destruct (jer_status existing); auto).
    + rewrite Hs. intros Hr. right. assert (¬ ∃ record, Some existing = Some record ∧
        (jer_status record = ExecutionRunning ∨ jer_status record = ExecutionSucceeded)) as Hn by (intros (? & [= <-] & [?|?]); congruence).
      destruct (log_start_run message startedAt records) as [[Hj Hl]|[Hj [e Hl]]]; rewrite Hl in Hr; injection Hr as <- <-; [left|right]; eauto.
    + intros Hr. left. split; [by exists existing|]. revert Hr.
      destruct Hs as [-> | ->]; rewrite m_bind_run; unfold m_lift; destruct (cloneRecord existing);
        intros Hr; injection Hr as <- <-; (split; [done|]); intros begun Hb; by simplify_eq; eexists.
  - intros Hr. right. assert (¬ ∃ record, None = Some record ∧
      (jer_status record = ExecutionRunning ∨ jer_status record = ExecutionSucceeded)) as Hn by by intros (? & ? & _).
    destruct (log_start_run message startedAt records) as [[Hj Hl]|[Hj [e Hl]]]; rewrite Hl in Hr; injection Hr as <- <-; [left|right]; eauto.
Qed.

(** The end of an execution that began. *)
Definition finished_record (message : JobMessage) (record : JobExecutionRecord) (finishedAt : jstr) (status : JobExecutionStatus)
    (result : option value) (err : option jstr) : JobExecutionRecord :=
  {| jer_tenantId := message_tenant message; jer_idempotencyKey := jmsg_idempotencyKey message; jer_jobName := jmsg_jobName message;
     jer_runId := jmsg_runId message; jer_payload := jer_payload record; jer_metadata := jer_metadata record;
     jer_enqueuedAt := jer_enqueuedAt record; jer_status := status; jer_startedAt := jer_startedAt record;
     jer_finishedAt := Some finishedAt; jer_result := result; jer_error := err |}.

Lemma log_finish_started message startedAt finishedAt status result err records :
  message_json message → result_ok result → jm_get (message_key message) records = Some (started_record message startedAt) →
  log_finish message finishedAt status result err records =
    (Ok tt, jm_set (message_key message) (finished_record message (started_record message startedAt) finishedAt status result err) records).
Proof.
  intros [Hp Hm] Hr E. unfold log_finish. rewrite m_bind_run. cbn [m_get]. rewrite E. rewrite m_bind_run. unfold m_lift.
  change (default (jmsg_payload message) (Some (started_record message startedAt) ≫= jer_payload)) with (jmsg_payload message).
  change (default (jmsg_metadata message) (Some (started_record message startedAt) ≫= jer_metadata)) with (jmsg_metadata message).
  rewrite (clone_job_data_ok _ Hp), m_bind_run.
  rewrite (clone_job_data_ok _ Hm), m_bind_run, (job_result_cloned _ Hr). done.
Qed.

(** ** Executions *)

(** What a call threw. *)
Definition thrown_by {A} (r : res (JobThrown + A)) : option JobThrown :=
  match r with Throw e => Some (ThrownFramework e) | Ok (inl thrown) => Some thrown | Ok (inr _) => None end.

Lemma attempting_run {R A} (m : JobCall R (JobThrown + A)) handler c :
  attempting m handler c = let (r, c') := m c in
  match thrown_by r with Some thrown => handler thrown c' | None => (r, c') end.
Proof. unfold attempting. by destruct (m c) as [[[thrown|a]|e] c']. Qed.

Lemma rethrow_run {R A} thrown c : ∃ r, rethrow (R := R) (A := A) thrown c = (r, c) ∧ thrown_by r = Some thrown.
Proof. destruct thrown; by eexists. Qed.

Section execution.
Context {R : Type} (clock : nat → jstr) (text : JobThrown → jstr) (env : nat → JobStore R → JobStore R).
Context (registry : JobRegistry (JobHandler R)) (message : JobMessage) (since : nat).

Abbreviation key := (message_key message).
Abbreviation record_of s := (jm_get key (jst_records s)).

(** While the key is running, the others and the handler leave its record alone. *)
Definition others_leave : Prop := ∀ t s record, since < t → record_of s = Some record → jer_status record = ExecutionRunning →
  record_of (env t s) = Some record.
Definition handler_leaves (handler : JobHandler R) : Prop := ∀ context c record,
  record_of (cl_store c) = Some record → jer_status record = ExecutionRunning →
  let (_, c') := handler context c in cl_tick c ≤ cl_tick c' ∧ record_of (cl_store c') = Some record.

Lemma records_call_run {A} (m : M job_log A) c : records_call env m c =
  let s := env (cl_tick c) (cl_store c) in let (r, records) := m (jst_records s) in
  (r, {| cl_tick := S (cl_tick c); cl_ids := cl_ids c;
         cl_store := {| jst_records := records; jst_queue := jst_queue s; jst_resources := jst_resources s |} |}).
Proof using Type.
  unfold records_call, update, on_store, awaited, on_records. rewrite m_bind_run. cbn.
  by destruct (m (jst_records (env (cl_tick c) (cl_store c)))).
Qed.

(** The end of an execution, on the record that its begin left. *)
Lemma finish_call (Hothers : others_leave) startedAt finishedAt status result err c :
  message_json message → result_ok result → since < cl_tick c → record_of (cl_store c) = Some (started_record message startedAt) →
  ∃ c', records_call env (log_finish message finishedAt status result err) c = (Ok tt, c') ∧
    record_of (cl_store c') = Some (finished_record message (started_record message startedAt) finishedAt status result err).
Proof using Type.
  intros Hj Hr Ht E. rewrite records_call_run. cbv zeta.
  rewrite (log_finish_started message startedAt finishedAt status result err _ Hj Hr (Hothers _ _ _ Ht E eq_refl)).
  eexists. split; [done|]. cbn. by rewrite jm_get_set_eq.
Qed.

Lemma run_job_records (Hothers : others_leave) definition (Hhandler : handler_leaves (jd_handler definition)) attempt startedAt c r c' :
  message_json message → since < cl_tick c → record_of (cl_store c) = Some (started_record message startedAt) →
  run_job clock text env true definition message attempt c = (r, c') →
  ∃ status result err finishedAt,
    record_of (cl_store c') = Some (finished_record message (started_record message startedAt) finishedAt status result err) ∧
    match thrown_by r with
    | Some thrown => status = ExecutionFailed ∧ err = Some (text thrown)
    | None => status = ExecutionSucceeded ∧ r = Ok (inr (OutcomeSucceeded result)) ∧
        ∃ v c2, jd_handler definition (handler_context message attempt) c = (Ok (inr v), c2) ∧ normalizeJobHandlerResult v = Ok result
    end.
Proof using Type.
  intros Hj Ht E. unfold run_job. rewrite attempting_run, m_bind_run.
  specialize (Hhandler (handler_context message attempt) c _ E eq_refl).
  destruct (jd_handler definition (handler_context message attempt) c) as [r1 c1] eqn:Erun. destruct Hhandler as [Ht1 E1].
  assert (since < cl_tick c1) as Ht1' by lia.
  assert (∀ thrown, (finishedAt ← now clock; _ ← when_logged true (records_call env (log_fail message finishedAt (text thrown))); rethrow thrown) c1 =
    (r, c') → ∃ status result err finishedAt,
    record_of (cl_store c') = Some (finished_record message (started_record message startedAt) finishedAt status result err) ∧
    match thrown_by r with
    | Some thrown => status = ExecutionFailed ∧ err = Some (text thrown)
    | None => status = ExecutionSucceeded ∧ r = Ok (inr (OutcomeSucceeded result)) ∧
        ∃ v c2, (r1, c1) = (Ok (inr v), c2) ∧ normalizeJobHandlerResult v = Ok result
    end) as Hfail.
  { intros thrown. rewrite m_bind_run. cbn [now]. rewrite m_bind_run. cbn [when_logged].
    destruct (finish_call Hothers startedAt (clock (cl_tick c1)) ExecutionFailed None (Some (text thrown)) c1 Hj ltac:(done) Ht1' E1) as (c3 & Hc & E3).
    unfold log_fail. rewrite Hc. destruct (rethrow_run (R := R) (A := JobExecutionOutcome) thrown c3) as (r3 & -> & Hr). intros [= <- <-].
    exists ExecutionFailed, None, (Some (text thrown)), (clock (cl_tick c1)). split; [done|]. by rewrite Hr. }
  destruct r1 as [[thrown|v]|e]; cbn [thrown_by]; [apply (Hfail thrown)| |apply (Hfail (ThrownFramework e))].
  rewrite m_bind_run. unfold m_lift. destruct (normalizeJobHandlerResult v) as [result|e] eqn:En; [|apply (Hfail (ThrownFramework e))].
  rewrite m_bind_run. cbn [now]. rewrite m_bind_run. cbn [when_logged].
  destruct (finish_call Hothers startedAt (clock (cl_tick c1)) ExecutionSucceeded result None c1 Hj (normalized_result _ _ En) Ht1' E1) as (c3 & Hc & E3).
  unfold log_complete. rewrite Hc. cbn. intros [= <- <-]. exists ExecutionSucceeded, result, None, (clock (cl_tick c1)).
  split; [done|]. split_and!; [done..|]. by exists v, c1.
Qed.

(** How an execution ends. *)
Lemma execute_records attempt c r c' : since = cl_tick c → others_leave →
  (∀ definition, get_job registry (jmsg_jobName message) = Ok definition → handler_leaves (jd_handler definition)) →
  execute clock text env registry true message attempt c = (r, c') →
  let found := env (cl_tick c) (cl_store c) in
  (get_job registry (jmsg_jobName message) = Throw (notFound JOB_NOT_FOUND) ∧ c' = c ∧ thrown_by r = Some (ThrownFramework (notFound JOB_NOT_FOUND))) ∨
  (key_taken (jst_records found) key ∧ cl_store c' = found ∧ (r = Ok (inr OutcomeSkipped) ∨ is_Some (thrown_by r))) ∨
  (¬ key_taken (jst_records found) key ∧ ¬ message_json message ∧ cl_store c' = found ∧ is_Some (thrown_by r)) ∨
  (¬ key_taken (jst_records found) key ∧ ∃ definition c1 startedAt status result err finishedAt,
    get_job registry (jmsg_jobName message) = Ok definition ∧
    record_of (cl_store c') = Some (finished_record message (started_record message startedAt) finishedAt status result err) ∧
    match thrown_by r with
    | Some thrown => status = ExecutionFailed ∧ err = Some (text thrown)
    | None => status = ExecutionSucceeded ∧ r = Ok (inr (OutcomeSucceeded result)) ∧
        ∃ v c2, jd_handler definition (handler_context message attempt) c1 = (Ok (inr v), c2) ∧ normalizeJobHandlerResult v = Ok result
    end).
Proof using Type.
  intros Hsince Hothers Hhandler. unfold execute. rewrite m_bind_run. unfold m_lift.
  destruct (get_job registry (jmsg_jobName message)) as [definition|e] eqn:Ej.
  2: { intros [= <- <-]. left. assert (e = notFound JOB_NOT_FOUND) as -> by (unfold get_job in Ej; destruct (jm_get _ _); congruence). done. }
  rewrite m_bind_run. cbn [now]. rewrite m_bind_run, m_bind_run, records_call_run. cbv zeta. set (found := env _ _).
  assert ({| jst_records := jst_records found; jst_queue := jst_queue found; jst_resources := jst_resources found |} = found) as Hfound
    by by destruct found.
  intros H. right.
  revert H. destruct (log_begin message (clock (cl_tick c)) (jst_records found)) as [r1 records1] eqn:Eb. intros H.
  apply log_begin_cases in Eb as [(Htaken & -> & Hdup)|[(Hfree & Hj & -> & ->)|(Hfree & Hj & -> & e & ->)]]; rewrite ?Hfound.
  - left. destruct r1 as [begun|e].
    + destruct (Hdup _ eq_refl) as [record ->]. injection H as <- <-. by split_and!; [..|left].
    + injection H as <- <-. split_and!; [done..|right; by eexists].
  - right. right. split; [done|]. set (c1 := {| cl_tick := S (cl_tick c); cl_ids := cl_ids c; cl_store := {|
      jst_records := jm_set key (started_record message (clock (cl_tick c))) (jst_records found);
      jst_queue := jst_queue found; jst_resources := jst_resources found |} |}).
    change (run_job clock text env true definition message attempt c1 = (r, c')) in H.
    destruct (run_job_records Hothers definition (Hhandler _ eq_refl) attempt (clock (cl_tick c)) c1 r c' Hj) as (st & res & err & fin & Hrec & Hr);
      [cbn; lia|cbn; by rewrite jm_get_set_eq|exact H|].
    exists definition, c1, (clock (cl_tick c)), st, res, err, fin. by split_and!.
  - right. left. injection H as <- <-. by split_and!; [..|eexists].
Qed.
End execution.


(** ** Witness: an execution beside an executor of another key *)

Definition sample_run_message : JobMessage :=
  {| jmsg_tenantId := None; jmsg_jobName := js "report"; jmsg_payload := [(js "limit", VBool true)]; jmsg_runId := js "job_1";
     jmsg_idempotencyKey := js "report:job_1"; jmsg_enqueuedAt := js "t"; jmsg_metadata := [] |}.
Definition sample_run_registry : JobRegistry (JobHandler unit) :=
  {| jr_jobs := [(js "report", {| jd_name := js "report"; jd_description := None; jd_pool := None; jd_retry := None;
       jd_handler := λ _, mret (inr (VBool true)) |})];
     jr_pools := [] |}.
Definition sample_other_key : jstr := js "other".

(** Another executor starts its own message at each await. *)
Definition other_executor (t : nat) (s : JobStore unit) : JobStore unit :=
  {| jst_records := jm_set sample_other_key (started_record sample_run_message (js "t")) (jst_records s);
     jst_queue := jst_queue s; jst_resources := jst_resources s |}.
Abbreviation sample_run := (execute (λ _, js "t") (λ _, js "boom") other_executor sample_run_registry true sample_run_message None
  (new_client {| jst_records := []; jst_queue := []; jst_resources := tt |})).


(** ** Retrying failed executions

    What a retry of [JobServices] puts on the queue, and two oddities of keys and pools. *)

(** ** The log keeps each record under its own key *)

Definition log_ok (records : job_log) : Prop :=
  ∀ key record, jm_get key records = Some record → key = recordKey (jer_tenantId record) (jer_idempotencyKey record).

Lemma log_ok_set records record : log_ok records → log_ok (jm_set (recordKey (jer_tenantId record) (jer_idempotencyKey record)) record records).
Proof. intros Hok key record'. rewrite jm_get_set. case_decide as Hk; [|by apply Hok]. subst. by intros [= <-]. Qed.

Lemma log_begin_ok message startedAt records r records' : log_begin message startedAt records = (r, records') → log_ok records → log_ok records'.
Proof.
  intros [(_ & -> & _)|[(_ & _ & _ & ->)|(_ & _ & -> & _)]]%log_begin_cases Hok; [done| |done].
  by apply (log_ok_set records (started_record message startedAt)).
Qed.

Lemma log_finish_ok message finishedAt status result err records r records' :
  log_finish message finishedAt status result err records = (r, records') → log_ok records → log_ok records'.
Proof.
  unfold log_finish. intros Hf Hok. revert Hf. rewrite m_bind_run. cbn [m_get]. rewrite m_bind_run. unfold m_lift.
  destruct (clone_job_data _) as [payload|]; [|by intros [= _ <-]]. rewrite m_bind_run.
  destruct (clone_job_data _) as [metadata|]; [|by intros [= _ <-]]. rewrite m_bind_run.
  destruct (optional _ _) as [copy|]; [|by intros [= _ <-]]. unfold m_put. intros [= _ <-].
  match goal with |- log_ok (jm_set _ ?record _) => by apply (log_ok_set records record) end.
Qed.

(** ** Retries *)

Lemma cloneRecord_id record copy : cloneRecord record = Ok copy → copy = record.
Proof.
  assert (∀ v w, optional clone_job_data v = Ok w → w = v) as Hd.
  { intros v w Hv. apply optional_ok in Hv. destruct v, w; try done. by apply clone_job_data_json in Hv as [-> _]. }
  assert (∀ v w, optional clone_job_json v = Ok w → w = v) as Hj.
  { intros v w Hv. apply optional_ok in Hv. destruct v, w; try done. unfold clone_job_json in Hv.
    destruct (isJsonValue _); [|done]. rewrite cloneJsonValue_id in Hv. by injection Hv as ->. }
  unfold cloneRecord. intros Hc. apply bind_ok in Hc as (p & ->%Hd & Hc). apply bind_ok in Hc as (m & ->%Hd & Hc).
  apply bind_ok in Hc as (r & ->%Hj & [= <-]). by destruct record.
Qed.

Lemma normalized_data v w : normalizeJobDocumentData v = Ok w → w = v ∧ data_json v.
Proof. unfold normalizeJobDocumentData, data_json. destruct (isJsonData v); [|done]. rewrite clone_fields. by intros [= <-]. Qed.

(** A retry notes the run that it retries. *)
Lemma retry_noted metadata actor runId retriedAt :
  vget (js "retriedFromRunId") (default [] (Some (retryMetadata metadata actor runId retriedAt))) = VStr runId.
Proof.
  unfold vget. change (default [] (Some (retryMetadata metadata actor runId retriedAt))) with (retryMetadata metadata actor runId retriedAt).
  unfold retryMetadata. rewrite jm_get_spread; [done|]. apply (bool_decide_unpack _). by vm_compute.
Qed.

Section retry.
Context {R : Type} (ids clock : nat → jstr) (env : nat → JobStore R → JobStore R) (registry : JobRegistry (JobHandler R)).

(** What a dispatch that returns has done. *)
Lemma dispatch_sends command c message c' : dispatch ids clock env registry command c = (Ok message, c') →
  jmsg_tenantId message = Some (default DEFAULT_TENANT_ID (djc_tenantId command)) ∧ jmsg_jobName message = djc_jobName command ∧
  jmsg_payload message = djc_payload command ∧ jmsg_metadata message = default [] (djc_metadata command) ∧
  jmsg_idempotencyKey message = default (djc_jobName command ++ js ":" ++ jmsg_runId message) (djc_idempotencyKey command) ∧
  message_json message ∧ ensureJobQueueIdempotencyKey (djc_idempotencyKey command) = Ok tt ∧
  let found := env (cl_tick c) (cl_store c) in
  cl_store c' = {| jst_records := jst_records found; jst_resources := jst_resources found;
    jst_queue := jst_queue found ++ [{| qjb_message := message; qjb_delaySeconds := djc_delaySeconds command |}] |}.
Proof using Type.
  unfold dispatch. rewrite m_bind_run. unfold m_lift at 1. destruct (get_job registry (djc_jobName command)) as [definition|]; [|done].
  rewrite m_bind_run. unfold m_lift at 1. destruct (jobQueueSendOptions (djc_delaySeconds command)) as [delay|] eqn:Ed; [|done].
  rewrite m_bind_run. unfold m_lift at 1. destruct (ensureJobQueueIdempotencyKey (djc_idempotencyKey command)) as [[]|] eqn:Ek; [|done].
  rewrite m_bind_run. unfold m_lift at 1. destruct (normalizeJobDocumentData (djc_payload command)) as [payload|] eqn:Ep; [|done].
  apply normalized_data in Ep as [-> Hp]. rewrite m_bind_run. unfold m_lift at 1.
  assert (match djc_metadata command with None => Ok [] | Some metadata => normalizeJobDocumentData metadata end = Ok (default [] (djc_metadata command)) ∧
    data_json (default [] (djc_metadata command)) ∨
    ∃ e, match djc_metadata command with None => Ok [] | Some metadata => normalizeJobDocumentData metadata end = Throw e) as [[-> Hm]|[e ->]]; [|..|done].
  { destruct (djc_metadata command) as [metadata|]; [|by left]. destruct (normalizeJobDocumentData metadata) as [m|] eqn:Em; [left|right; by eexists].
    by apply normalized_data in Em as [-> ?]. }
  rewrite m_bind_run. cbn [next_id]. rewrite m_bind_run. cbn [now]. rewrite m_bind_run.
  unfold queue_call, update, awaited, on_store, on_queue, send. rewrite m_bind_run. cbn [cl_tick cl_ids cl_store]. rewrite m_bind_run.
  unfold m_lift, cloneJobMessage at 1. cbn [jmsg_payload jmsg_metadata].
  assert (∀ v, data_json v → normalizeJobDocumentData v = Ok v) as Hn.
  { intros v Hv. unfold normalizeJobDocumentData. unfold data_json in Hv. by rewrite Hv, clone_fields. }
  rewrite (Hn _ Hp), (Hn _ Hm). cbn [mbind res_bind]. rewrite m_bind_run. cbn. intros [= <- <-]. cbn.
  assert (delay = djc_delaySeconds command) as ->.
  { unfold jobQueueSendOptions in Ed. apply optional_ok in Ed. destruct (djc_delaySeconds command), delay; try done. by inv_res. }
  by split_and!.
Qed.
End retry.


(** ** Witness: an administrator retries a failed report *)

Definition sample_failed_record : JobExecutionRecord :=
  finished_record sample_run_message (started_record sample_run_message (js "t")) (js "u") ExecutionFailed None (Some (js "boom")).
Definition sample_retry_actor : Actor :=
  {| actor_id := js "root"; actor_roles := [js "System Manager"]; actor_tenantId := None; actor_email := None |}.
Definition sample_retry_client : Client (JobStore unit) := new_client
  {| jst_records := [(message_key sample_run_message, sample_failed_record)]; jst_queue := []; jst_resources := tt |}.
Abbreviation sample_retry := (retry_job (λ _, js "job_2") (λ _, js "t") (λ _ s, s) sample_run_registry [js "System Manager"]
  sample_retry_actor (js "report:job_1") sample_retry_client).
Definition sample_retried_message : JobMessage := Eval vm_compute in
  match sample_retry.1 with Ok (_, message) => message | Throw _ => sample_run_message end.


(** ** Keys that are too long to retry *)

(** A dispatch checks the length of a key that it is given, and not of the key that it
    makes of the job's name and the run; a retry passes the key of the record.  So a job
    with a name that is too long runs, and can never be retried when it fails. *)
Theorem long_key_not_retried {R} ids clock (env : nat → JobStore R → JobStore R) registry adminRoles actor idempotencyKey c :
  let found := env (cl_tick c) (cl_store c) in
  MAX_JOB_QUEUE_IDEMPOTENCY_KEY_LENGTH < length idempotencyKey →
  (∀ record, jm_get (recordKey (default DEFAULT_TENANT_ID (actor_tenantId actor)) idempotencyKey) (jst_records found) = Some record →
    jer_idempotencyKey record = idempotencyKey) →
  is_ok (retry_job ids clock env registry adminRoles actor idempotencyKey c).1 = false.
Proof.
  intros found Hlong Hkey. destruct (retry_job ids clock env registry adminRoles actor idempotencyKey c) as [[[original message]|e] c'] eqn:E; [|done].
  exfalso. revert E. unfold retry_job. rewrite m_bind_run. unfold m_lift at 1. destruct (plan_job_access actor adminRoles) as [tenantId|] eqn:Ea; [|done].
  assert (tenantId = default DEFAULT_TENANT_ID (actor_tenantId actor)) as ->.
  { unfold plan_job_access in Ea. destruct (existsb _ _); [by injection Ea|done]. }
  rewrite m_bind_run. unfold observe, awaited at 1. rewrite m_bind_run. cbn [cl_store]. rewrite m_bind_run. cbn [m_get cl_store].
  unfold m_lift at 1, get_execution. fold found.
  destruct (jm_get _ (jst_records found)) as [stored|] eqn:Eg; [|done]. cbn [optional mbind option_bind].
  destruct (cloneRecord stored) as [copy|] eqn:Ec; [|done]. apply cloneRecord_id in Ec as ->. cbn [mbind res_bind].
  rewrite m_bind_run. unfold m_lift at 1. cbn [found_execution]. rewrite m_bind_run. cbn [now]. rewrite m_bind_run.
  unfold m_lift at 1. destruct (planJobExecutionRetry _ _ _) as [command|] eqn:Ecmd; [|done]. rewrite m_bind_run.
  match goal with |- context [dispatch _ _ _ _ command ?c1] => destruct (dispatch ids clock env registry command c1) as [[sent|] c2] eqn:Es end; [|done].
  intros _. apply dispatch_sends in Es as (_ & _ & _ & _ & _ & _ & Hlen & _).
  unfold planJobExecutionRetry in Ecmd. apply bind_ok in Ecmd as (u & _ & Ecmd). destruct (jer_payload stored), (jer_metadata stored); try done.
  injection Ecmd as <-. cbn in Hlen. rewrite (Hkey _ eq_refl) in Hlen. apply ensure_ok in Hlen. apply Nat.leb_le in Hlen. lia.
Qed.

(** ** A default pool with spaces around its name *)

(** A job of the pool [default], written with a space, is registered, since the name is
    trimmed for the check; but the stored definition keeps the name as it was written when
    the pool is the default one, so the job runs in a default pool of one worker without
    the retries that are configured for the pool. *)
Example padded_default_pool :
  let pool := {| jwp_name := js "default"; jwp_description := None; jwp_concurrency := Some 5%Z; jwp_retry := None |} in
  let job name := {| jd_name := js "report"; jd_description := None; jd_pool := Some name; jd_retry := None; jd_handler := tt |} in
  (registry ← createJobRegistry [job (js "default")] [pool]; pool ← workerPoolFor registry (js "report"); Ok (rjp_concurrency pool)) = Ok 5%Z ∧
  (registry ← createJobRegistry [job (js " default")] [pool]; pool ← workerPoolFor registry (js "report"); Ok (rjp_concurrency pool)) = Ok 1%Z.
Proof. by vm_compute. Qed.

(** ** Executors beside each other

    Many executors share a log of executions ([JobServices]): messages are delivered, also
    twice, and each execution takes its steps on the log ([begin], then [complete] or
    [fail]) with those of the others between them; a worker may be lost while its handler
    runs.  A step relation, and what holds of all its reachable states. *)

(** How far the execution of a delivery is: [execute] has yet to begin, it runs the handler
    after a begin that started, it has completed, or it is over otherwise. *)
Inductive ExecutionPhase := PhaseReady | PhaseHandling | PhaseSucceeded | PhaseOver.

Record JobSystem := { sys_records : job_log; sys_executions : list (JobMessage * ExecutionPhase) }.

Abbreviation execution s i := (sys_executions s !! i).

(** The state after an execution's step on the log. *)
Definition advance (s : JobSystem) (i : nat) (message : JobMessage) (phase : ExecutionPhase) (records : job_log) : JobSystem :=
  {| sys_records := records; sys_executions := <[i := (message, phase)]> (sys_executions s) |}.

(** What follows a [begin] and a [complete]: a completion that throws is followed by the
    [fail] of the [catch]. *)
Definition after_begin (r : res JobExecutionBeginResult) : ExecutionPhase :=
  match r with Ok (BeginStarted _) => PhaseHandling | _ => PhaseOver end.
Definition after_complete (r : res unit) : ExecutionPhase := match r with Ok _ => PhaseSucceeded | Throw _ => PhaseHandling end.

Inductive system_step : JobSystem → JobSystem → Prop :=
| step_deliver s message :
    system_step s {| sys_records := sys_records s; sys_executions := sys_executions s ++ [(message, PhaseReady)] |}
| step_begin s i message startedAt r records :
    execution s i = Some (message, PhaseReady) →
    log_begin message startedAt (sys_records s) = (r, records) →
    system_step s (advance s i message (after_begin r) records)
| step_complete s i message finishedAt returned result r records :
    execution s i = Some (message, PhaseHandling) →
    normalizeJobHandlerResult returned = Ok result →
    log_complete message finishedAt result (sys_records s) = (r, records) →
    system_step s (advance s i message (after_complete r) records)
| step_fail s i message finishedAt err r records :
    execution s i = Some (message, PhaseHandling) →
    log_fail message finishedAt err (sys_records s) = (r, records) →
    system_step s (advance s i message PhaseOver records)
| step_lose s i message :
    execution s i = Some (message, PhaseHandling) →
    system_step s (advance s i message PhaseOver (sys_records s)).

(** ** The invariant *)

(** An execution owns its key while its handler runs, and for good when it succeeded. *)
Definition owns (phase : ExecutionPhase) : bool := match phase with PhaseHandling | PhaseSucceeded => true | _ => false end.

(** What the log holds for an execution. *)
Definition phase_recorded (records : job_log) (message : JobMessage) (phase : ExecutionPhase) : Prop :=
  match phase with
  | PhaseHandling => message_json message ∧ ∃ startedAt, jm_get (message_key message) records = Some (started_record message startedAt)
  | PhaseSucceeded => ∃ record, jm_get (message_key message) records = Some record ∧ jer_status record = ExecutionSucceeded
  | _ => True
  end.

Definition system_ok (s : JobSystem) : Prop :=
  (∀ i message phase, execution s i = Some (message, phase) → phase_recorded (sys_records s) message phase) ∧
  (∀ i j m m' phase phase', execution s i = Some (m, phase) → execution s j = Some (m', phase') →
    owns phase = true → owns phase' = true → message_key m = message_key m' → i = j).

Lemma owned_taken records message phase : owns phase = true → phase_recorded records message phase → key_taken records (message_key message).
Proof.
  destruct phase; try done; intros _; cbn; unfold key_taken.
  - intros [_ [startedAt ->]]. eexists. split; [done|]. by left.
  - intros (record & -> & Hs). exists record. split; [done|]. by right.
Qed.

Lemma phase_recorded_set records message phase key record :
  message_key message ≠ key → phase_recorded records message phase → phase_recorded (jm_set key record records) message phase.
Proof. intros Hne. destruct phase; cbn; try done; rewrite jm_get_set_ne by done; done. Qed.

(** A step of one execution on its own key. *)
Lemma advance_ok s i message before phase records :
  system_ok s → execution s i = Some (message, before) →
  (records = sys_records s ∨ ∃ record, records = jm_set (message_key message) record (sys_records s)) →
  phase_recorded records message phase →
  (owns before = true ∨ (¬ key_taken (sys_records s) (message_key message)) ∨ (records = sys_records s ∧ owns phase = false)) →
  system_ok (advance s i message phase records).
Proof.
  intros [Hrec Hone] Hi Hset Hphase Hown.
  assert (i < length (sys_executions s)) as Hlen by by eapply lookup_lt_Some.
  assert (∀ j m p, j ≠ i → execution s j = Some (m, p) → owns p = true →
    (owns before = true ∨ ¬ key_taken (sys_records s) (message_key message)) → message_key m ≠ message_key message) as Hother.
  { intros j m p Hne Hj Hp Hb Hk. destruct Hb as [Hb|Hb].
    - apply Hne. by apply (Hone j i m message p before).
    - apply Hb. rewrite <-Hk. eapply owned_taken; [done|by eapply Hrec]. }
  split.
  - intros j m p. unfold advance. cbn. destruct (decide (j = i)) as [->|Hne].
    + rewrite list_lookup_insert_eq by done. by intros [= <- <-].
    + rewrite list_lookup_insert_ne by done. intros Hj. specialize (Hrec _ _ _ Hj).
      destruct Hset as [->|[record ->]]; [done|]. destruct (owns p) eqn:Ep; [|by destruct p].
      destruct Hown as [Hb|[Hb|[E _]]].
      * apply phase_recorded_set; [|done]. by apply (Hother j m p); auto.
      * apply phase_recorded_set; [|done]. by apply (Hother j m p); auto.
      * by rewrite E.
  - intros j k m m' p p'. unfold advance. cbn. destruct (decide (j = i)) as [->|Hj], (decide (k = i)) as [->|Hk]; [done| | |].
    + rewrite list_lookup_insert_eq by done. rewrite list_lookup_insert_ne by done. intros [= <- <-] Hl Hp Hp' Hkey. exfalso.
      assert (owns before = true ∨ ¬ key_taken (sys_records s) (message_key message)) as Hb by (destruct Hown as [?|[?|[_ ?]]]; [auto..|congruence]).
      exact (Hother k m' p' Hk Hl Hp' Hb (eq_sym Hkey)).
    + rewrite list_lookup_insert_ne by done. rewrite list_lookup_insert_eq by done. intros Hl [= <- <-] Hp Hp' Hkey. exfalso.
      assert (owns before = true ∨ ¬ key_taken (sys_records s) (message_key message)) as Hb by (destruct Hown as [?|[?|[_ ?]]]; [auto..|congruence]).
      exact (Hother j m p Hj Hl Hp Hb Hkey).
    + rewrite !list_lookup_insert_ne by done. by apply Hone.
Qed.

Lemma system_step_ok s s' : system_ok s → system_step s s' → system_ok s'.
Proof.
  intros Hok Hstep. destruct Hstep as [s message|s i message startedAt r records Hi Hb|s i message finishedAt returned result r records Hi Hn Hc|
    s i message finishedAt err r records Hi Hf|s i message Hi].
  - destruct Hok as [Hrec Hone]. split.
    + intros i m p Hi. cbn in Hi. apply lookup_app_Some in Hi as [Hi|[_ Hi]]; [by eapply Hrec|].
      apply list_lookup_singleton_Some in Hi as [_ [= <- <-]]. done.
    + intros i j m m' p p' Hi Hj Hp Hp' Hk. cbn in Hi, Hj. apply lookup_app_Some in Hi as [Hi|[_ Hi]], Hj as [Hj|[_ Hj]].
      2-4: by try (apply list_lookup_singleton_Some in Hj as [_ [= <- <-]]); try (apply list_lookup_singleton_Some in Hi as [_ [= <- <-]]).
      by eapply (Hone i j).
  - apply log_begin_cases in Hb as [(Htaken & -> & Hdup)|[(Hfree & Hj & -> & ->)|(Hfree & Hj & -> & e & ->)]].
    + assert (after_begin r = PhaseOver) as ->.
      { destruct r as [begun|]; [|done]. by destruct (Hdup _ eq_refl) as [record ->]. }
      apply (advance_ok s i message PhaseReady); [done|done|by left|done|]. right. by right.
    + apply (advance_ok s i message PhaseReady); [done|done|right; by eexists| |right; by left].
      split; [done|]. exists startedAt. apply jm_get_set_eq.
    + apply (advance_ok s i message PhaseReady); [done|done|by left|done|]. right. by right.
  - destruct (proj1 Hok _ _ _ Hi) as [Hj [startedAt Hg]].
    unfold log_complete in Hc. rewrite (log_finish_started message startedAt) in Hc by (try done; by eapply normalized_result).
    injection Hc as <- <-. apply (advance_ok s i message PhaseHandling); [done|done|right; by eexists| |by left].
    cbn. rewrite jm_get_set_eq. by eexists.
  - destruct (proj1 Hok _ _ _ Hi) as [Hj [startedAt Hg]].
    unfold log_fail in Hf. rewrite (log_finish_started message startedAt) in Hf by done.
    injection Hf as <- <-. apply (advance_ok s i message PhaseHandling); [done|done|right; by eexists|done|by left].
  - apply (advance_ok s i message PhaseHandling); [done|done|by left|done|by left].
Qed.

Lemma system_reachable_ok records s : rtc system_step {| sys_records := records; sys_executions := [] |} s → system_ok s.
Proof.
  assert (system_ok {| sys_records := records; sys_executions := [] |}) as Hok.
  { split; [intros i m p Hi|intros i j m m' p p' Hi]; cbn in Hi; discriminate Hi. }
  intros Hr. induction Hr as [|s1 s2 s3 Hstep _ IH]; [done|]. apply IH. by eapply system_step_ok.
Qed.

(** C8: Of all deliveries of messages of one key, in every interleaving of any number of
    executors that share a log, at most one is ever owning the key: while the handler of
    one runs, none of the others runs, its record is the running one of that message, and
    once one has succeeded, its record stays succeeded and no handler of the key runs
    again.  A worker that is lost leaves the key taken: its record stays running. *)
Theorem executions_exclusive records s :
  rtc system_step {| sys_records := records; sys_executions := [] |} s →
  (∀ i j m m' phase phase', execution s i = Some (m, phase) → execution s j = Some (m', phase') → message_key m = message_key m' →
    owns phase = true → owns phase' = true → i = j) ∧
  (∀ i m, execution s i = Some (m, PhaseHandling) →
    ∃ startedAt, jm_get (message_key m) (sys_records s) = Some (started_record m startedAt)) ∧
  (∀ i m s', execution s i = Some (m, PhaseSucceeded) → rtc system_step s s' →
    execution s' i = Some (m, PhaseSucceeded) ∧
    ∃ record, jm_get (message_key m) (sys_records s') = Some record ∧ jer_status record = ExecutionSucceeded).
Proof.
  intros Hr. pose proof (system_reachable_ok _ _ Hr) as [Hrec Hone]. split_and!.
  - intros. by eapply (Hone i j).
  - intros i m Hi. by destruct (Hrec _ _ _ Hi) as [_ ?].
  - intros i m s' Hi Hr'. assert (execution s' i = Some (m, PhaseSucceeded)) as Hi'.
    { clear Hr Hrec Hone. induction Hr' as [|s1 s2 s3 Hstep _ IH]; [done|]. apply IH.
      destruct Hstep as [s message|s j message startedAt r records' Hj Hb|s j message finishedAt returned result r records' Hj Hn Hc|
        s j message finishedAt err r records' Hj Hf|s j message Hj]; cbn.
      1: by apply lookup_app_l_Some.
      all: rewrite list_lookup_insert_ne; [done|]; intros ->; congruence. }
    split; [done|]. assert (rtc system_step {| sys_records := records; sys_executions := [] |} s') as Hreach by by etrans.
    exact (proj1 (system_reachable_ok _ _ Hreach) _ _ _ Hi').
Qed.

(** ** Witness: a message is delivered twice and runs once *)

Definition twice_delivered : JobSystem := {| sys_records := []; sys_executions := [(sample_run_message, PhaseReady); (sample_run_message, PhaseReady)] |}.
Definition once_running : JobSystem :=
  {| sys_records := jm_set (message_key sample_run_message) (started_record sample_run_message (js "t")) [];
     sys_executions := [(sample_run_message, PhaseHandling); (sample_run_message, PhaseReady)] |}.

(** The second delivery begins while the handler of the first one runs. *)
Definition once_skipped : JobSystem :=
  {| sys_records := sys_records once_running; sys_executions := [(sample_run_message, PhaseHandling); (sample_run_message, PhaseOver)] |}.

Lemma once_skipped_reachable : rtc system_step {| sys_records := []; sys_executions := [] |} once_skipped.
Proof.
  apply rtc_l with {| sys_records := []; sys_executions := [(sample_run_message, PhaseReady)] |};
    [exact (step_deliver {| sys_records := []; sys_executions := [] |} sample_run_message)|].
  apply rtc_l with twice_delivered; [exact (step_deliver {| sys_records := []; sys_executions := [(sample_run_message, PhaseReady)] |} sample_run_message)|].
  apply rtc_l with once_running.
  - exact (step_begin twice_delivered 0 sample_run_message (js "t") (Ok (BeginStarted (started_record sample_run_message (js "t")))) _ eq_refl eq_refl).
  - apply rtc_once.
    exact (step_begin once_running 1 sample_run_message (js "u") (Ok (BeginDuplicate (started_record sample_run_message (js "t")))) _ eq_refl eq_refl).
Qed.

Lemma executions_exclusive_witness :
  execution once_skipped 0 = Some (sample_run_message, PhaseHandling) ∧ execution once_skipped 1 = Some (sample_run_message, PhaseOver) ∧
  ∃ startedAt, jm_get (message_key sample_run_message) (sys_records once_skipped) = Some (started_record sample_run_message startedAt).
Proof.
  split_and!; [reflexivity|reflexivity|].
  exact (proj1 (proj2 (executions_exclusive [] once_skipped once_skipped_reachable)) 0 sample_run_message eq_refl).
Defined.
