(* ===== verification/JobConsumer.v ===== *)
(** * JobConsumer: consuming batches of job messages

    Models [cloudflare/job-consumer.ts] over the executor of [JobServices]: what a queue
    delivers is parsed, put into the lane of its worker pool, executed, and acknowledged
    or retried.  The lanes of a batch, and the workers of a lane, run beside each other
    in the source; the model runs them one after the other, with others at each [await]. *)

From S2P Require Export JobRuns.

(** ** Messages *)

Definition is_record (v : value) : bool := match v with VObj _ => true | _ => false end.
Definition record_field (name : jstr) (v : value) : value := match v with VObj fields => vget name fields | _ => VUndef end.

(** [isDocumentData(value)], with the data. *)
Definition document_data (v : value) : option data :=
  match v with VObj fields => if isJsonValue v then Some fields else None | _ => None end.
Definition string_value (v : value) : option jstr := match v with VStr s => Some s | _ => None end.

(** [parseJobMessage(value)]. *)
Definition parseJobMessage (v : value) : option JobMessage :=
  if negb (is_record v) then None
  else
    tenantId ← match record_field (js "tenantId") v with VUndef => Some None | VStr s => Some (Some s) | _ => None end;
    jobName ← string_value (record_field (js "jobName") v);
    runId ← string_value (record_field (js "runId") v);
    idempotencyKey ← string_value (record_field (js "idempotencyKey") v);
    enqueuedAt ← string_value (record_field (js "enqueuedAt") v);
    payload ← document_data (record_field (js "payload") v);
    metadata ← document_data (record_field (js "metadata") v);
    Some {| jmsg_tenantId := tenantId; jmsg_jobName := jobName; jmsg_payload := payload; jmsg_runId := runId;
            jmsg_idempotencyKey := idempotencyKey; jmsg_enqueuedAt := enqueuedAt; jmsg_metadata := metadata |}.

(** A message as the object that is sent. *)
Definition message_value (message : JobMessage) : value :=
  VObj (match jmsg_tenantId message with Some tenantId => [(js "tenantId", VStr tenantId)] | None => [] end ++
    [(js "jobName", VStr (jmsg_jobName message)); (js "payload", VObj (jmsg_payload message)); (js "runId", VStr (jmsg_runId message));
     (js "idempotencyKey", VStr (jmsg_idempotencyKey message)); (js "enqueuedAt", VStr (jmsg_enqueuedAt message));
     (js "metadata", VObj (jmsg_metadata message))]).

(** A message of the queue, and what becomes of it. *)
Record QueueMessage := { qmg_id : jstr; qmg_attempts : Z; qmg_body : value }.
Inductive Disposition := Acknowledged | RetriedAfter (delaySeconds : Z).

(** [CloudflareJobErrorContext]. *)
Record JobErrorContext := {
  jec_error : JobThrown;
  jec_message : JobMessage;
  jec_queueMessageId : jstr;
  jec_attempt : Z;
  jec_decision : JobRetryDecision
}.

(** [mergeRetryPolicy(base, override)]. *)
Definition overridden {A} (base override : option A) : option A := match override with Some v => Some v | None => base end.
Definition mergeRetryPolicy (base override : option JobRetryPolicy) : JobRetryPolicy :=
  let base := default no_retry_policy base in
  let override := default no_retry_policy override in
  {| jrp_maxAttempts := overridden (jrp_maxAttempts base) (jrp_maxAttempts override);
     jrp_baseDelaySeconds := overridden (jrp_baseDelaySeconds base) (jrp_baseDelaySeconds override);
     jrp_maxDelaySeconds := overridden (jrp_maxDelaySeconds base) (jrp_maxDelaySeconds override) |}.

Record JobLaneEntry := { jle_queueMessage : QueueMessage; jle_jobMessage : JobMessage }.
Abbreviation lanes_map := (list (jstr * (ResolvedJobWorkerPool * list JobLaneEntry))).

Section consumer.
Context {R : Type} (clock : nat → jstr) (text : JobThrown → jstr) (env : nat → JobStore R → JobStore R).
Context (registry : JobRegistry (JobHandler R)) (logged : bool).
(** [options.retry] and [options.onError]. *)
Context (onError : option (JobErrorContext → JobCall R unit)).

(** [workerPoolFor(options, jobName)] and [retryPolicyFor(options, jobName)]. *)
Definition pool_of_job (jobName : jstr) : ResolvedJobWorkerPool :=
  match workerPoolFor registry jobName with Ok pool => pool | Throw _ => default_worker_pool end.
Definition policy_of_job (retry : option JobRetryPolicy) (jobName : jstr) : JobRetryPolicy :=
  let base := mergeRetryPolicy retry (rjp_retry (pool_of_job jobName)) in
  match retryPolicyFor registry jobName with Ok own => mergeRetryPolicy (Some base) own | Throw _ => base end.

(** [reportError(options, context)]. *)
Definition reportError (context : JobErrorContext) : JobCall R unit :=
  match onError with Some hook => catching (hook context) (λ _, mret tt) | None => mret tt end.

(** [processJobMessage(entry, options)]. *)
Definition processJobMessage (retry : option JobRetryPolicy) (entry : JobLaneEntry) : JobCall R Disposition :=
  let message := jle_jobMessage entry in
  let attempts := qmg_attempts (jle_queueMessage entry) in
  outcome ← attempting
    (executed ← execute clock text env registry logged message (Some attempts);
     mret (match executed with inl thrown => inl thrown | inr _ => inr None end))
    (λ thrown, mret (inr (Some thrown)));
  match outcome with
  | inr None | inl _ => mret Acknowledged
  | inr (Some thrown) =>
      decision ← m_lift (classifyJobError thrown (policy_of_job retry (jmsg_jobName message)) attempts);
      _ ← reportError {| jec_error := thrown; jec_message := message; jec_queueMessageId := qmg_id (jle_queueMessage entry);
                         jec_attempt := attempts; jec_decision := decision |};
      mret (match decision with RetryAfter delaySeconds => RetriedAfter delaySeconds | RetryFail => Acknowledged end)
  end.

(** The lanes of a batch: the entries of each pool by its name, in the order of the batch;
    and what cannot be parsed, which is acknowledged at once. *)
Fixpoint job_lanes (lanes : lanes_map) (dropped : list QueueMessage) (messages : list QueueMessage) : lanes_map * list QueueMessage :=
  match messages with
  | [] => (lanes, dropped)
  | message :: messages =>
      match parseJobMessage (qmg_body message) with
      | None => job_lanes lanes (dropped ++ [message]) messages
      | Some jobMessage =>
          let pool := pool_of_job (jmsg_jobName jobMessage) in
          let entry := {| jle_queueMessage := message; jle_jobMessage := jobMessage |} in
          let lane := match jm_get (rjp_name pool) lanes with Some (pool, entries) => (pool, entries ++ [entry]) | None => (pool, [entry]) end in
          job_lanes (jm_set (rjp_name pool) lane lanes) dropped messages
      end
  end.

(** [processJobLane(entries, concurrency, options)] and [processCloudflareJobBatch(batch, options)],
    with what becomes of each message. *)
Definition process_entry (retry : option JobRetryPolicy) (entry : JobLaneEntry) : JobCall R (QueueMessage * Disposition) :=
  disposition ← processJobMessage retry entry; mret (jle_queueMessage entry, disposition).
Definition processJobLane (retry : option JobRetryPolicy) (lane : ResolvedJobWorkerPool * list JobLaneEntry)
    : JobCall R (list (QueueMessage * Disposition)) := m_map (process_entry retry) lane.2.
Definition processCloudflareJobBatch (retry : option JobRetryPolicy) (messages : list QueueMessage) : JobCall R (list (QueueMessage * Disposition)) :=
  retry ← m_lift (normalizeJobRetryPolicy retry);
  let (lanes, dropped) := job_lanes [] [] messages in
  processed ← m_map (processJobLane retry) (jm_values lanes);
  mret (((λ message, (message, Acknowledged)) <$> dropped) ++ concat processed).
End consumer.

(** ** Messages arrive as they were sent *)

(** What a dispatch puts on the queue is what the consumer of the queue reads: the
    object of a message whose payload and metadata are JSON is parsed to that message. *)
Theorem message_roundtrip message :
  isJsonData (jmsg_payload message) = true → isJsonData (jmsg_metadata message) = true →
  parseJobMessage (message_value message) = Some message.
Proof.
  intros Hp Hm. assert (∀ fields, isJsonData fields = true → document_data (VObj fields) = Some fields) as Hd.
  { intros fields Hf. unfold document_data. unfold isJsonData in Hf. by rewrite Hf. }
  destruct message as [tenantId jobName payload runId key enqueuedAt metadata]. cbn [jmsg_payload jmsg_metadata] in Hp, Hm.
  apply Hd in Hp, Hm. set (v := message_value _). unfold parseJobMessage. change (negb (is_record v)) with false. cbv iota.
  assert (record_field (js "jobName") v = VStr jobName ∧ record_field (js "runId") v = VStr runId ∧
    record_field (js "idempotencyKey") v = VStr key ∧ record_field (js "enqueuedAt") v = VStr enqueuedAt ∧
    record_field (js "payload") v = VObj payload ∧ record_field (js "metadata") v = VObj metadata ∧
    record_field (js "tenantId") v = match tenantId with Some tenantId => VStr tenantId | None => VUndef end)
    as (-> & -> & -> & -> & -> & -> & ->) by (destruct tenantId; vm_compute; done).
  rewrite Hp, Hm. by destruct tenantId.
Qed.

Lemma message_roundtrip_witness :
  let message := {| jmsg_tenantId := None; jmsg_jobName := js "report"; jmsg_payload := [(js "limit", VBool true)]; jmsg_runId := js "job_1";
    jmsg_idempotencyKey := js "report:job_1"; jmsg_enqueuedAt := js "t"; jmsg_metadata := [] |} in
  parseJobMessage (message_value message) = Some message.
Proof. intros message. apply message_roundtrip; reflexivity. Defined.

(** ** Batches *)

Section batch.
Context {R : Type} (clock : nat → jstr) (text : JobThrown → jstr) (env : nat → JobStore R → JobStore R).
Context (registry : JobRegistry (JobHandler R)) (logged : bool) (onError : option (JobErrorContext → JobCall R unit)).

(** The errors that handlers throw had their delays checked when they were made. *)
Definition handlers_throw_checked : Prop := ∀ name definition context c c' thrown,
  get_job registry name = Ok definition → jd_handler definition context c = (Ok (inl thrown), c') → thrown_ok thrown.

Context (Hthrown : handlers_throw_checked) (Hpolicies : policies_ok registry).
Context (retry : option JobRetryPolicy) (Hretry : ∀ policy, retry = Some policy → policy_ok policy).

Lemma merged_ok base override : (∀ policy, base = Some policy → policy_ok policy) → (∀ policy, override = Some policy → policy_ok policy) →
  policy_ok (mergeRetryPolicy base override).
Proof using Type.
  intros Hb Ho. assert (policy_ok no_retry_policy) as Hn by by split_and!.
  assert (∀ p : option JobRetryPolicy, (∀ policy, p = Some policy → policy_ok policy) → policy_ok (default no_retry_policy p)) as Hd
    by (intros [p|] Hp; cbn; auto).
  apply Hd in Hb as (B1 & B2 & B3), Ho as (O1 & O2 & O3). unfold mergeRetryPolicy, policy_ok. cbn.
  split_and!; intros n; unfold overridden; (match goal with |- context [match ?o with _ => _ end] => destruct o eqn:E end); naive_solver.
Qed.

Lemma policy_of_job_ok name : policy_ok (policy_of_job registry retry name).
Proof using Hpolicies Hretry.
  unfold policy_of_job. assert (policy_ok (mergeRetryPolicy retry (rjp_retry (pool_of_job registry name)))) as Hb.
  { apply merged_ok; [done|]. intros policy Hp. unfold pool_of_job, workerPoolFor in Hp.
    destruct (get_job registry name) as [definition|]; [|done]. cbn in Hp.
    destruct (jm_get _ (jr_pools registry)) as [pool|] eqn:E; [|done]. by eapply (proj2 Hpolicies). }
  unfold retryPolicyFor. destruct (get_job registry name) as [definition|] eqn:E; [|done]. cbn.
  apply merged_ok; [by intros policy [= <-]|]. intros policy Hp. unfold get_job in E.
  destruct (jm_get name (jr_jobs registry)) as [stored|] eqn:Es; [|done]. injection E as ->. by eapply (proj1 Hpolicies).
Qed.

(** What an execution throws was checked. *)
Lemma execute_thrown message attempt c r c' thrown :
  execute clock text env registry logged message attempt c = (r, c') → thrown_by r = Some thrown → thrown_ok thrown.
Proof using Hthrown.
  unfold execute. rewrite m_bind_run. unfold m_lift at 1. destruct (get_job registry (jmsg_jobName message)) as [definition|e] eqn:Ej;
    [|by intros [= <- <-] [= <-]].
  rewrite m_bind_run. cbn [now]. rewrite m_bind_run.
  match goal with |- context [(if logged then ?a else ?b) c] => destruct ((if logged then a else b) c) as [[begun|e] c1] end;
    [|by intros [= <- <-] [= <-]].
  assert (∀ c1, run_job clock text env logged definition message attempt c1 = (r, c') → thrown_by r = Some thrown → thrown_ok thrown) as Hrun.
  2: { destruct begun as [[]|]; [apply Hrun| |apply Hrun]. by intros [= <- <-]. }
  clear c1. intros c1. unfold run_job. rewrite attempting_run.
  match goal with |- context [?m c1] => destruct (m c1) as [r2 c2] eqn:E2 end.
  assert (∀ t, thrown_by r2 = Some t → thrown_ok t) as Hok.
  { revert E2. rewrite m_bind_run. destruct (jd_handler definition _ c1) as [[[t0|v]|e] c3] eqn:Eh.
    - intros [= <- <-] t [= <-]. by eapply Hthrown.
    - rewrite m_bind_run. unfold m_lift. destruct (normalizeJobHandlerResult v) as [result|e]; [|by intros [= <- <-] t [= <-]].
      rewrite m_bind_run. cbn [now]. rewrite m_bind_run. match goal with |- context [when_logged logged ?m c3] => destruct (when_logged logged m c3) as [[u|e] c4] end; intros [= <- <-] t Ht; [done|].
      by injection Ht as <-.
    - by intros [= <- <-] t [= <-]. }
  destruct (thrown_by r2) as [t|] eqn:Et; [|intros [= -> ->] Hr; by apply Hok; rewrite <-Et].
  rewrite m_bind_run. cbn [now]. rewrite m_bind_run. match goal with |- context [when_logged logged ?m c2] => destruct (when_logged logged m c2) as [[u|e] c3] end;
    [|by intros [= <- <-] [= <-]].
  destruct (rethrow_run (R := R) (A := JobExecutionOutcome) t c3) as (r3 & -> & Hr3). intros [= <- <-] Hr. rewrite Hr3 in Hr.
  injection Hr as <-. by apply Hok.
Qed.

(** What becomes of a message, by what its execution threw. *)
Definition disposed (entry : JobLaneEntry) (disposition : Disposition) : Prop :=
  let message := jle_jobMessage entry in
  let attempts := qmg_attempts (jle_queueMessage entry) in
  ∃ c r c', execute clock text env registry logged message (Some attempts) c = (r, c') ∧
  match thrown_by r with
  | None => disposition = Acknowledged
  | Some thrown => ∃ decision, classifyJobError thrown (policy_of_job registry retry (jmsg_jobName message)) attempts = Ok decision ∧
      disposition = match decision with RetryAfter delay => RetriedAfter delay | RetryFail => Acknowledged end
  end ∧ match disposition with RetriedAfter delay => delay_ok delay | Acknowledged => True end.

Lemma reportError_run context c : ∃ c', reportError onError context c = (Ok tt, c').
Proof using Type.
  unfold reportError. destruct onError as [hook|]; [|by eexists]. unfold catching.
  destruct (hook context c) as [[[]|e] c']; by eexists.
Qed.

Lemma process_message entry c : ∃ disposition c',
  processJobMessage clock text env registry logged onError retry entry c = (Ok disposition, c') ∧ disposed entry disposition.
Proof using Hthrown Hpolicies Hretry.
  unfold processJobMessage, disposed. set (message := jle_jobMessage entry). set (attempts := qmg_attempts (jle_queueMessage entry)).
  rewrite m_bind_run, attempting_run, m_bind_run.
  destruct (execute clock text env registry logged message (Some attempts) c) as [r c1] eqn:Ex.
  pose proof (λ thrown, execute_thrown _ _ _ _ _ thrown Ex) as Hok.
  assert (∀ thrown, thrown_by r = Some thrown → ∃ disposition c',
    (decision ← m_lift (classifyJobError thrown (policy_of_job registry retry (jmsg_jobName message)) attempts);
     _ ← reportError onError {| jec_error := thrown; jec_message := message; jec_queueMessageId := qmg_id (jle_queueMessage entry);
         jec_attempt := attempts; jec_decision := decision |};
     mret (match decision with RetryAfter delaySeconds => RetriedAfter delaySeconds | RetryFail => Acknowledged end)) c1 = (Ok disposition, c') ∧
    ∃ c r c', execute clock text env registry logged message (Some attempts) c = (r, c') ∧
    match thrown_by r with
    | None => disposition = Acknowledged
    | Some thrown => ∃ decision, classifyJobError thrown (policy_of_job registry retry (jmsg_jobName message)) attempts = Ok decision ∧
        disposition = match decision with RetryAfter delay => RetriedAfter delay | RetryFail => Acknowledged end
    end ∧ match disposition with RetriedAfter delay => delay_ok delay | Acknowledged => True end) as Hthrow.
  { intros thrown Ht. destruct (classify_decides thrown _ attempts (policy_of_job_ok (jmsg_jobName message)) (Hok _ Ht)) as (decision & Hd & Hdelay).
    rewrite m_bind_run. unfold m_lift. rewrite Hd. rewrite m_bind_run.
    match goal with |- context [reportError onError ?context c1] => destruct (reportError_run context c1) as [c2 ->] end.
    eexists _, c2. split; [reflexivity|]. exists c, r, c1. split; [done|]. rewrite Ht. split; [by exists decision|]. by destruct decision. }
  destruct r as [[thrown|outcome]|e]; cbn.
  - apply (Hthrow thrown eq_refl).
  - exists Acknowledged, c1. split; [done|]. exists c, (Ok (inr outcome)), c1. by split_and!.
  - apply (Hthrow (ThrownFramework e) eq_refl).
Qed.

(** ** Lanes *)

(** The messages of the lanes, the first lane first. *)
Definition lane_messages (lanes : lanes_map) : list QueueMessage := 
  concat ((λ lane : jstr * (ResolvedJobWorkerPool * list JobLaneEntry), jle_queueMessage <$> lane.2.2) <$> lanes).

Lemma lane_set_messages (lanes : lanes_map) name pool old pool' entry :
  jm_get name lanes = Some (pool, old) → lane_messages (jm_set name (pool', old ++ [entry]) lanes) ≡ₚ jle_queueMessage entry :: lane_messages lanes.
Proof using Type.
  induction lanes as [|[name' lane] lanes IH]; [done|]. cbn. destruct (decide (name = name')) as [->|Hne].
  - intros [= ->]. unfold lane_messages. cbn. rewrite fmap_app. cbn. rewrite <-app_assoc. cbn. by rewrite Permutation_middle.
  - intros Hg. unfold lane_messages in *. cbn. rewrite (IH Hg). by rewrite Permutation_middle.
Qed.

Lemma lane_new_messages (lanes : lanes_map) name pool entry :
  jm_get name lanes = None → lane_messages (jm_set name (pool, [entry]) lanes) ≡ₚ jle_queueMessage entry :: lane_messages lanes.
Proof using Type.
  intros Hn%jm_get_None. rewrite jm_set_new by done. unfold lane_messages. rewrite fmap_app, concat_app. cbn.
  by rewrite Permutation_app_comm.
Qed.

Lemma lanes_messages lanes dropped messages lanes' dropped' :
  job_lanes registry lanes dropped messages = (lanes', dropped') → dropped' ++ lane_messages lanes' ≡ₚ messages ++ dropped ++ lane_messages lanes.
Proof using Type.
  revert lanes dropped. induction messages as [|message messages IH]; intros lanes dropped Hl; cbn in Hl; [by injection Hl as <- <-|].
  destruct (parseJobMessage (qmg_body message)) as [jobMessage|]; [|apply IH in Hl as ->; cbn; rewrite <-app_assoc; cbn; solve_Permutation].
  apply IH in Hl as ->. set (entry := {| jle_queueMessage := message; jle_jobMessage := jobMessage |}). cbn.
  set (pool := pool_of_job registry (jmsg_jobName jobMessage)).
  destruct (jm_get (rjp_name pool) lanes) as [[pool' old]|] eqn:E.
  - rewrite (lane_set_messages _ _ _ _ pool' entry E). cbn. solve_Permutation.
  - rewrite (lane_new_messages _ _ pool entry E). cbn. solve_Permutation.
Qed.

Lemma map_always {A B} (f : A → JobCall R B) (Q : A → B → Prop) xs : (∀ x c, ∃ y c', f x c = (Ok y, c') ∧ Q x y) →
  ∀ c, ∃ ys c', m_map f xs c = (Ok ys, c') ∧ Forall2 Q xs ys.
Proof using Type.
  intros Hf. induction xs as [|x xs IH]; intros c; [by exists [], c; split|]. cbn [m_map]. rewrite m_bind_run.
  destruct (Hf x c) as (y & c1 & -> & Hy). rewrite m_bind_run. destruct (IH c1) as (ys & c2 & -> & Hys).
  exists (y :: ys), c2. split; [done|by constructor].
Qed.

(** The parsed message of a queue message. *)
Definition parsed_disposition (processed : QueueMessage * Disposition) : Prop :=
  match parseJobMessage (qmg_body processed.1) with
  | None => processed.2 = Acknowledged
  | Some message => disposed {| jle_queueMessage := processed.1; jle_jobMessage := message |} processed.2
  end.

(** Entries are of messages that were parsed. *)
Definition entries_parsed (lanes : lanes_map) : Prop := ∀ name pool entries entry,
  (name, (pool, entries)) ∈ lanes → entry ∈ entries → parseJobMessage (qmg_body (jle_queueMessage entry)) = Some (jle_jobMessage entry).

Lemma lanes_parsed lanes dropped messages lanes' dropped' :
  job_lanes registry lanes dropped messages = (lanes', dropped') → entries_parsed lanes → Forall (λ message, parseJobMessage (qmg_body message) = None) dropped →
  entries_parsed lanes' ∧ Forall (λ message, parseJobMessage (qmg_body message) = None) dropped'.
Proof using Type.
  revert lanes dropped. induction messages as [|message messages IH]; intros lanes dropped Hl He Hd; cbn in Hl; [by injection Hl as <- <-|].
  destruct (parseJobMessage (qmg_body message)) as [jobMessage|] eqn:Ep; (eapply IH; [exact Hl| |]); try done.
  2: { apply Forall_app; split; [done|]. by apply Forall_singleton. }
  intros name pool entries entry Hin Hentry. apply jm_set_elem in Hin as [Hin|Hin]; [|by eapply He].
  destruct (jm_get _ lanes) as [[pool' old]|] eqn:E; injection Hin as -> -> ->.
  - apply elem_of_app in Hentry as [Hentry|Hentry%list_elem_of_singleton]; [|by subst]. eapply He; [by eapply jm_get_elem_1|done].
  - apply list_elem_of_singleton in Hentry as ->. done.
Qed.
End batch.

(** C10: A batch is always disposed of: whatever handlers and hooks do, and whatever others
    do meanwhile, the call of a registry that was created returns, and each message of the
    batch is acknowledged or retried exactly once.  What is no job message is acknowledged;
    of the others one whose execution returned is acknowledged, and one whose execution
    threw is retried as [classifyJobError] decides by the policies of the batch, the pool and
    the job, the latter overriding the former, with a delay that the queue can keep. *)
Theorem batch_disposed {R} clock text env jobs workerPools (registry : JobRegistry (JobHandler R)) logged onError retry checked messages :
  createJobRegistry jobs workerPools = Ok registry → handlers_throw_checked registry → normalizeJobRetryPolicy retry = Ok checked →
  ∀ c, ∃ processed c', processCloudflareJobBatch clock text env registry logged onError retry messages c = (Ok processed, c') ∧
    processed.*1 ≡ₚ messages ∧ Forall (parsed_disposition clock text env registry logged checked) processed.
Proof.
  intros Hr%createJobRegistry_ok Ht Hn c. unfold processCloudflareJobBatch. rewrite m_bind_run. unfold m_lift. rewrite Hn.
  destruct (job_lanes registry [] [] messages) as [lanes dropped] eqn:El.
  assert (∀ policy, checked = Some policy → policy_ok policy) as Hc by (intros policy; by eapply checked_policy).
  assert (∀ lane c0, ∃ processed c', processJobLane clock text env registry logged onError checked lane c0 = (Ok processed, c') ∧
    Forall2 (λ entry p, p.1 = jle_queueMessage entry ∧ disposed clock text env registry logged checked entry p.2) lane.2 processed) as Hlane.
  { intros lane. apply map_always. intros entry c0. unfold process_entry. rewrite m_bind_run.
    destruct (process_message clock text env registry logged onError Ht Hr checked Hc entry c0) as (d & c1 & -> & Hd).
    by eexists (_, d), c1. }
  destruct (map_always _ _ (jm_values lanes) Hlane c) as (processed & c1 & Hm & HF). rewrite m_bind_run, Hm.
  eexists _, c1. split; [done|]. destruct (lanes_parsed registry _ _ _ _ _ El) as [Hparsed Hdropped]; [|by constructor|].
  { intros name pool entries entry Hin. by apply elem_of_nil in Hin. }
  apply (lanes_messages registry) in El. cbn in El. rewrite app_nil_r in El. split.
  - rewrite fmap_app, <-list_fmap_compose, <-El. cbn. rewrite list_fmap_id. f_equiv. unfold lane_messages, jm_values in *.
    clear -HF. revert processed HF. induction lanes as [|[name lane] lanes IH]; intros processed HF; inversion HF as [|? ps ? rest Hps Hrest]; subst; [done|].
    cbn. rewrite fmap_app, (IH _ Hrest). f_equiv. clear -Hps. induction Hps as [|entry p es ps [Hp _] _ IH]; [done|]. cbn. by rewrite Hp, IH.
  - apply Forall_app. split.
    + apply Forall_fmap. eapply Forall_impl; [exact Hdropped|]. intros message Hnone. unfold parsed_disposition. cbn. by rewrite Hnone.
    + apply Forall_concat. unfold jm_values in HF. apply Forall_forall. intros ps [i Hi]%list_elem_of_lookup.
      destruct (Forall2_lookup_r _ _ _ _ _ HF Hi) as (lane & Hlk & Hps). apply list_lookup_fmap_Some in Hlk as ([name [pool entries]] & -> & Hin%list_elem_of_lookup_2).
      apply Forall_forall. intros p [j Hj]%list_elem_of_lookup. destruct (Forall2_lookup_r _ _ _ _ _ Hps Hj) as (entry & He%list_elem_of_lookup_2 & Hp & Hd).
      unfold parsed_disposition. rewrite Hp, (Hparsed _ _ _ _ Hin He). by destruct entry.
Qed.

(** ** Witness: a message that is none, one that succeeds and one whose service is away *)

Definition sample_jobs : list (JobDefinition (JobHandler unit)) :=
  [{| jd_name := js "report"; jd_description := None; jd_pool := None; jd_retry := None; jd_handler := λ _, mret (inr (VBool true)) |};
   {| jd_name := js "sync"; jd_description := None; jd_pool := None;
      jd_retry := Some {| jrp_maxAttempts := Some 5%Z; jrp_baseDelaySeconds := Some 10%Z; jrp_maxDelaySeconds := None |};
      jd_handler := λ _, mret (inl (ThrownResponse 503)) |}].
Definition sample_job_registry : JobRegistry (JobHandler unit) :=
  match createJobRegistry sample_jobs [] with Ok registry => registry | Throw _ => {| jr_jobs := []; jr_pools := [] |} end.
Definition sample_job_message (name : jstr) : JobMessage :=
  {| jmsg_tenantId := None; jmsg_jobName := name; jmsg_payload := []; jmsg_runId := js "job_1"; jmsg_idempotencyKey := name;
     jmsg_enqueuedAt := js "t"; jmsg_metadata := [] |}.
Definition sample_batch : list QueueMessage :=
  [{| qmg_id := js "1"; qmg_attempts := 1; qmg_body := VBool true |};
   {| qmg_id := js "2"; qmg_attempts := 1; qmg_body := message_value (sample_job_message (js "report")) |};
   {| qmg_id := js "3"; qmg_attempts := 3; qmg_body := message_value (sample_job_message (js "sync")) |}].
Definition sample_job_clock (n : nat) : jstr := js "2026-01-01T00:00:00.000Z".
Definition sample_job_text (thrown : JobThrown) : jstr := js "away".
Abbreviation sample_job_client := (new_client {| jst_records := []; jst_queue := []; jst_resources := tt |}).

Lemma sample_handlers_checked : handlers_throw_checked sample_job_registry.
Proof.
  intros name definition context c c' thrown Hg Hr. unfold get_job in Hg.
  destruct (jm_get name (jr_jobs sample_job_registry)) as [stored|] eqn:E; [|done]. injection Hg as ->. apply jm_get_elem_1 in E.
  apply elem_of_cons in E as [E|[E|E%elem_of_nil]%elem_of_cons]; [..|done]; injection E as -> ->; cbn in Hr; [done|].
  by injection Hr as <- _.
Qed.

Lemma batch_disposed_witness :
  ∃ processed c', processCloudflareJobBatch sample_job_clock sample_job_text (λ _ s, s) sample_job_registry true None None sample_batch
      sample_job_client = (Ok processed, c') ∧
    processed.*1 ≡ₚ sample_batch ∧ processed.*2 = [Acknowledged; Acknowledged; RetriedAfter 40].
Proof.
  destruct (batch_disposed sample_job_clock sample_job_text (λ _ s, s) sample_jobs [] sample_job_registry true None None None sample_batch
    eq_refl sample_handlers_checked eq_refl sample_job_client) as (processed & c' & Hr & Hp & _).
  exists processed, c'. split_and!; [exact Hr|exact Hp|]. vm_compute in Hr. injection Hr as <- _. reflexivity.
Defined.
