(* ===== verification/DataPatchJobs.v ===== *)
(** * DataPatchJobs: data patches as jobs

    Models [application/data-patch-dashboard-policy.ts], [data-patch-job-policy.ts] and
    [data-patch-jobs.ts]: the dashboard of the service, the payloads of the jobs that run
    plans, the service that enqueues plans with the dispatcher of [JobServices], and the
    handlers of the jobs. *)

From S2P Require Export DataPatchPromises JobRuns JobConsumer.

(** ** The dashboard *)

Inductive DataPatchDashboardStatus :=
| DashNotApplied | DashPending | DashApplied | DashFailed | DashRollbackPending | DashRolledBack | DashRollbackFailed.
#[export] Instance DataPatchDashboardStatus_eq_dec : EqDecision DataPatchDashboardStatus.
Proof. solve_decision. Defined.

Record DataPatchDashboardEntry := {
  dde_id : jstr;
  dde_label : option jstr;
  dde_checksum : jstr;
  dde_status : DataPatchDashboardStatus;
  dde_rollbackable : bool;
  dde_rollbackLabel : option jstr;
  dde_claimedAt : option jstr;
  dde_appliedAt : option jstr;
  dde_failedAt : option jstr;
  dde_error : option jstr;
  dde_result : option value;
  dde_rollbackClaimedAt : option jstr;
  dde_rolledBackAt : option jstr;
  dde_rollbackFailedAt : option jstr;
  dde_rollbackError : option jstr;
  dde_rollbackResult : option value
}.
Record DataPatchDashboardTotals := {
  ddt_total : nat;
  ddt_notApplied : nat;
  ddt_pending : nat;
  ddt_applied : nat;
  ddt_failed : nat;
  ddt_rollbackPending : nat;
  ddt_rolledBack : nat;
  ddt_rollbackFailed : nat
}.

(** The status that a record shows. *)
Definition recorded_status (recorded : RecordedDataPatch) : DataPatchDashboardStatus :=
  match recorded with
  | RecordedPending _ => DashPending
  | RecordedApplied _ => DashApplied
  | RecordedFailed _ => DashFailed
  | RecordedRollbackPending _ => DashRollbackPending
  | RecordedRolledBack _ => DashRolledBack
  | RecordedRollbackFailed _ => DashRollbackFailed
  end.

(** What a record keeps of the application of its patch. *)
Definition recorded_application (recorded : RecordedDataPatch) : option AppliedDataPatch :=
  match recorded with
  | RecordedApplied p => Some p
  | RecordedRollbackPending p => Some (rpd_applied p)
  | RecordedRolledBack p => Some (rbd_applied p)
  | RecordedRollbackFailed p => Some (rfd_applied p)
  | _ => None
  end.

Section dashboard.
Context {R : Type}.
Abbreviation Patch := (DataPatchDefinition R).

(** [dataPatchDashboardEntry(patch, recorded)]. *)
Definition dataPatchDashboardEntry (patch : Patch) (recorded : option RecordedDataPatch) : res DataPatchDashboardEntry :=
  match recorded with
  | None => Ok {| dde_id := dpd_id patch; dde_label := dpd_label patch; dde_checksum := dpd_checksum patch; dde_status := DashNotApplied;
      dde_rollbackable := false; dde_rollbackLabel := None; dde_claimedAt := None; dde_appliedAt := None; dde_failedAt := None;
      dde_error := None; dde_result := None; dde_rollbackClaimedAt := None; dde_rolledBackAt := None; dde_rollbackFailedAt := None;
      dde_rollbackError := None; dde_rollbackResult := None |}
  | Some recorded =>
      _ ← assertDataPatchChecksumMatches (dpd_checksum patch) (recorded_checksum recorded);
      let when_applied {A} (v : option A) := match recorded with RecordedApplied _ => v | _ => None end in
      Ok {| dde_id := dpd_id patch; dde_label := dpd_label patch; dde_checksum := dpd_checksum patch; dde_status := recorded_status recorded;
        dde_rollbackable := match when_applied (dpd_rollback patch) with Some _ => true | None => false end;
        dde_rollbackLabel := when_applied (dpd_rollback patch ≫= drd_label);
        dde_claimedAt := match recorded with RecordedPending p => Some (pdp_claimedAt p) | _ => None end;
        dde_appliedAt := apd_appliedAt <$> recorded_application recorded;
        dde_failedAt := match recorded with RecordedFailed p => Some (fdp_failedAt p) | _ => None end;
        dde_error := match recorded with RecordedFailed p => Some (fdp_error p) | _ => None end;
        dde_result := recorded_application recorded ≫= apd_result;
        dde_rollbackClaimedAt := match recorded with RecordedRollbackPending p => Some (rpd_rollbackClaimedAt p) | _ => None end;
        dde_rolledBackAt := match recorded with RecordedRolledBack p => Some (rbd_rolledBackAt p) | _ => None end;
        dde_rollbackFailedAt := match recorded with RecordedRollbackFailed p => Some (rfd_rollbackFailedAt p) | _ => None end;
        dde_rollbackError := match recorded with RecordedRollbackFailed p => Some (rfd_rollbackError p) | _ => None end;
        dde_rollbackResult := match recorded with RecordedRolledBack p => rbd_rollbackResult p | _ => None end |}
  end.

(** [dataPatchDashboardTotals(patches)]. *)
Definition status_count (status : DataPatchDashboardStatus) (patches : list DataPatchDashboardEntry) : nat :=
  length (filter (λ patch, dde_status patch = status) patches).
Definition dataPatchDashboardTotals (patches : list DataPatchDashboardEntry) : DataPatchDashboardTotals :=
  {| ddt_total := length patches; ddt_notApplied := status_count DashNotApplied patches; ddt_pending := status_count DashPending patches;
     ddt_applied := status_count DashApplied patches; ddt_failed := status_count DashFailed patches;
     ddt_rollbackPending := status_count DashRollbackPending patches; ddt_rolledBack := status_count DashRolledBack patches;
     ddt_rollbackFailed := status_count DashRollbackFailed patches |}.

(** [dashboard(actor)] of the service. *)
Definition patch_dashboard `{Collation} (env : nat → PatchStore R → PatchStore R) (patches : list Patch) (adminRoles : list jstr) (actor : Actor)
    : PatchCall R (list DataPatchDashboardEntry * DataPatchDashboardTotals) :=
  _ ← authorize_patches adminRoles actor;
  recordedById ← recorded_by_id env;
  entries ← m_lift (map_res (λ patch, dataPatchDashboardEntry patch (jm_get (dpd_id patch) recordedById)) patches);
  mret (entries, dataPatchDashboardTotals entries).
End dashboard.

(** ** Payloads *)

Definition present (name : jstr) (v : option jstr) : data := match v with Some s => [(name, VStr s)] | None => [] end.

(** [dataPatchJobActor(actor)] and the payloads. *)
Definition dataPatchJobActor (actor : Actor) : data :=
  [(js "id", VStr (actor_id actor)); (js "roles", VArr (VStr <$> actor_roles actor))] ++
  present (js "tenantId") (actor_tenantId actor) ++ present (js "email") (actor_email actor).
Definition patch_plan_payload (actor : Actor) (patchIds : list jstr) : data :=
  [(js "actor", VObj (dataPatchJobActor actor)); (js "patchIds", VArr (VStr <$> patchIds))].
Definition patch_retry_payload (actor : Actor) (patchId : jstr) : data :=
  [(js "actor", VObj (dataPatchJobActor actor)); (js "patchId", VStr patchId)].

(** The strings of an array, and an optional string. *)
Fixpoint strings_of (l : list value) : option (list jstr) :=
  match l with
  | [] => Some []
  | VStr s :: l => rest ← strings_of l; Some (s :: rest)
  | _ => None
  end.
Definition optional_string (v : value) : option (option jstr) := match v with VUndef => Some None | VStr s => Some (Some s) | _ => None end.
Definition or_bad {A} (v : option A) : res A := match v with Some a => Ok a | None => Throw badRequest end.

(** [parseDataPatchJobActor(value)], [parseDataPatchJobPatchIds(value)] and
    [parseDataPatchRollbackRetryJobPatchId(value)]. *)
Definition parseDataPatchJobActor (v : value) : res Actor :=
  match v with
  | VObj fields =>
      actorId ← or_bad (string_value (vget (js "id") fields));
      roles ← match vget (js "roles") fields with VArr roles => or_bad (strings_of roles) | _ => Throw badRequest end;
      tenantId ← or_bad (optional_string (vget (js "tenantId") fields));
      email ← or_bad (optional_string (vget (js "email") fields));
      Ok {| actor_id := actorId; actor_roles := roles; actor_tenantId := tenantId; actor_email := email |}
  | _ => Throw badRequest
  end.
Definition parseDataPatchJobPatchIds (v : value) : res (list jstr) :=
  match v with
  | VArr l =>
      ids ← or_bad (strings_of l);
      _ ← ensure (forallb (λ id, negb (bool_decide (id = []))) ids) badRequest;
      Ok ids
  | _ => Throw badRequest
  end.
Definition parseDataPatchRollbackRetryJobPatchId (v : value) : res jstr :=
  match v with VStr [] => Throw badRequest | VStr s => Ok s | _ => Throw badRequest end.

(** [dataPatchRunResultJson(result)] and [dataPatchRollbackResultJson(result)]. *)
Definition patch_record_json (at_name id checksum at_ : jstr) (result : option value) : value :=
  VObj ([(js "id", VStr id); (js "checksum", VStr checksum); (at_name, VStr at_)] ++
    match result with Some v => [(js "result", v)] | None => [] end).
Definition run_record_json (at_name : jstr) (record : DataPatchRunRecord) : value :=
  patch_record_json at_name (prr_id record) (prr_checksum record) (prr_at record) (prr_result record).
Definition dataPatchRunResultJson (result : DataPatchRunResult) : data :=
  [(js "applied", VArr (run_record_json (js "appliedAt") <$> dpr_applied result));
   (js "skipped", VArr ((λ p, patch_record_json (js "appliedAt") (apd_id p) (apd_checksum p) (apd_appliedAt p) (apd_result p)) <$> dpr_skipped result))].
Definition dataPatchRollbackResultJson (result : DataPatchRollbackRunResult) : data :=
  [(js "rolledBack", VArr (run_record_json (js "rolledBackAt") <$> drr_rolledBack result));
   (js "skipped", VArr ((λ p, patch_record_json (js "rolledBackAt") (apd_id (rbd_applied p)) (apd_checksum (rbd_applied p)) (rbd_rolledBackAt p)
      (apd_result (rbd_applied p))) <$> drr_skipped result))].

(** [DataPatchQueueDeliveryOptions], and [dataPatchDispatchCommand(jobName, actor, options, payload)]. *)
Record DataPatchQueueDeliveryOptions := {
  dqo_delaySeconds : option Z;
  dqo_idempotencyKey : option jstr;
  dqo_metadata : option data
}.
Definition dataPatchDispatchCommand (jobName : jstr) (actor : Actor) (options : DataPatchQueueDeliveryOptions) (payload : data) : DispatchJobCommand :=
  {| djc_tenantId := actor_tenantId actor; djc_jobName := jobName; djc_payload := payload; djc_idempotencyKey := dqo_idempotencyKey options;
     djc_metadata := Some (jm_spread (default [] (dqo_metadata options))
       [(js "dispatchSource", VStr (js "data-patches")); (js "requestedBy", VStr (actor_id actor))]);
     djc_delaySeconds := dqo_delaySeconds options |}.
Definition dataPatchApplyDispatchCommand (jobName : jstr) (actor : Actor) (patchIds : list jstr) (options : DataPatchQueueDeliveryOptions)
    : DispatchJobCommand := dataPatchDispatchCommand jobName actor options (patch_plan_payload actor patchIds).
Definition dataPatchRollbackDispatchCommand (jobName : jstr) (actor : Actor) (patchIds : list jstr) (options : DataPatchQueueDeliveryOptions)
    : DispatchJobCommand := dataPatchDispatchCommand jobName actor options (patch_plan_payload actor patchIds).
Definition dataPatchRollbackRetryDispatchCommand (jobName : jstr) (actor : Actor) (patchId : jstr) (options : DataPatchQueueDeliveryOptions)
    : DispatchJobCommand := dataPatchDispatchCommand jobName actor options (patch_retry_payload actor patchId).

(** ** The service that enqueues, and the jobs *)

Definition DATA_PATCH_APPLY_JOB_NAME : jstr := js "cf-frappe.data-patches.apply".
Definition DATA_PATCH_ROLLBACK_JOB_NAME : jstr := js "cf-frappe.data-patches.rollback".
Definition DATA_PATCH_ROLLBACK_RETRY_JOB_NAME : jstr := js "cf-frappe.data-patches.rollback-retry".

(** [DataPatchApplyPlan] and [DataPatchRollbackPlan]. *)
Record DataPatchApplyPlan := { dap_patchIds : list jstr; dap_requestedPatchIds : option (list jstr); dap_limit : option Z }.

(** [DataPatchAdminPort], of what the jobs and their service call. *)
Record DataPatchAdminPort (R : Type) := {
  dpp_planApply : Actor → DataPatchApplyOptions → JobCall R DataPatchApplyPlan;
  dpp_planRollback : Actor → DataPatchApplyOptions → JobCall R DataPatchApplyPlan;
  dpp_planRollbackRetry : Actor → jstr → JobCall R jstr;
  dpp_apply : Actor → DataPatchApplyOptions → JobCall R DataPatchRunResult;
  dpp_rollback : Actor → DataPatchApplyOptions → JobCall R DataPatchRollbackRunResult;
  dpp_retryRollbackFailed : Actor → jstr → JobCall R DataPatchRollbackRunResult
}.
Arguments dpp_planApply {R} _ _ _.
Arguments dpp_planRollback {R} _ _ _.
Arguments dpp_planRollbackRetry {R} _ _ _.
Arguments dpp_apply {R} _ _ _.
Arguments dpp_rollback {R} _ _ _.
Arguments dpp_retryRollbackFailed {R} _ _ _.

(** What [planApply] and [planRollback] return beside the names that they plan. *)
Definition plan_of (options : DataPatchApplyOptions) (patchIds : list jstr) : DataPatchApplyPlan :=
  {| dap_patchIds := patchIds; dap_requestedPatchIds := dao_patchIds options; dap_limit := dao_limit options |}.

(** [DataPatchQueueServiceOptions] and the names that the constructor takes of them. *)
Record PatchJobNames := { pjn_apply : jstr; pjn_rollback : jstr; pjn_rollbackRetry : jstr }.
Definition new_patch_queue (applyJobName jobName rollbackJobName rollbackRetryJobName : option jstr) : PatchJobNames :=
  {| pjn_apply := match applyJobName, jobName with Some name, _ => name | None, Some name => name | None, None => DATA_PATCH_APPLY_JOB_NAME end;
     pjn_rollback := default DATA_PATCH_ROLLBACK_JOB_NAME rollbackJobName;
     pjn_rollbackRetry := default DATA_PATCH_ROLLBACK_RETRY_JOB_NAME rollbackRetryJobName |}.

Section queue.
Context {R : Type} (dataPatches : DataPatchAdminPort R) (dispatcher : DispatchJobCommand → JobCall R JobMessage) (names : PatchJobNames).

(** [enqueue(actor, options)], [enqueueRollback(actor, options)] and
    [enqueueRollbackRetry(actor, patchId, options)]. *)
Definition enqueue_apply (actor : Actor) (options : DataPatchApplyOptions) (delivery : DataPatchQueueDeliveryOptions)
    : JobCall R (DataPatchApplyPlan * JobMessage) :=
  plan ← dpp_planApply dataPatches actor options;
  _ ← m_ensure (negb (bool_decide (dap_patchIds plan = []))) badRequest;
  message ← dispatcher (dataPatchApplyDispatchCommand (pjn_apply names) actor (dap_patchIds plan) delivery);
  mret (plan, message).
Definition enqueueRollback (actor : Actor) (options : DataPatchApplyOptions) (delivery : DataPatchQueueDeliveryOptions)
    : JobCall R (DataPatchApplyPlan * JobMessage) :=
  plan ← dpp_planRollback dataPatches actor options;
  _ ← m_ensure (negb (bool_decide (dap_patchIds plan = []))) badRequest;
  message ← dispatcher (dataPatchRollbackDispatchCommand (pjn_rollback names) actor (dap_patchIds plan) delivery);
  mret (plan, message).
Definition enqueueRollbackRetry (actor : Actor) (patchId : jstr) (delivery : DataPatchQueueDeliveryOptions) : JobCall R (jstr * JobMessage) :=
  planned ← dpp_planRollbackRetry dataPatches actor patchId;
  message ← dispatcher (dataPatchRollbackRetryDispatchCommand (pjn_rollbackRetry names) actor planned delivery);
  mret (planned, message).
End queue.

Section handlers.
Context {R : Type} (dataPatches : option (DataPatchAdminPort R)).

(** [ensureDataPatchJobServiceAvailable(dataPatches)]. *)
Definition ensureDataPatchJobServiceAvailable : JobCall R (DataPatchAdminPort R) :=
  match dataPatches with Some port => mret port | None => m_throw (notFound DATA_PATCH_NOT_FOUND) end.

(** The handlers of [createDataPatchApplyJob], [createDataPatchRollbackJob] and
    [createDataPatchRollbackRetryJob]. *)
Definition patch_apply_handler (payload : data) : JobCall R data :=
  port ← ensureDataPatchJobServiceAvailable;
  patchIds ← m_lift (parseDataPatchJobPatchIds (vget (js "patchIds") payload));
  _ ← m_ensure (negb (bool_decide (patchIds = []))) badRequest;
  actor ← m_lift (parseDataPatchJobActor (vget (js "actor") payload));
  result ← dpp_apply port actor {| dao_patchIds := Some patchIds; dao_limit := None |};
  mret (dataPatchRunResultJson result).
Definition patch_rollback_handler (payload : data) : JobCall R data :=
  port ← ensureDataPatchJobServiceAvailable;
  patchIds ← m_lift (parseDataPatchJobPatchIds (vget (js "patchIds") payload));
  _ ← m_ensure (negb (bool_decide (patchIds = []))) badRequest;
  actor ← m_lift (parseDataPatchJobActor (vget (js "actor") payload));
  result ← dpp_rollback port actor {| dao_patchIds := Some patchIds; dao_limit := None |};
  mret (dataPatchRollbackResultJson result).
Definition patch_rollback_retry_handler (payload : data) : JobCall R data :=
  port ← ensureDataPatchJobServiceAvailable;
  patchId ← m_lift (parseDataPatchRollbackRetryJobPatchId (vget (js "patchId") payload));
  actor ← m_lift (parseDataPatchJobActor (vget (js "actor") payload));
  result ← dpp_retryRollbackFailed port actor patchId;
  mret (dataPatchRollbackResultJson result).
End handlers.

(** [createDataPatchApplyJob(options)], [createDataPatchRollbackJob(options)] and
    [createDataPatchRollbackRetryJob(options)]: a handler reads the payload of its context. *)
Definition patch_job {R} (fallback : jstr) (description : string) (handler : data → JobCall R data) (name : option jstr)
    : JobDefinition (JobHandler R) :=
  {| jd_name := default fallback name; jd_description := Some (js description); jd_pool := None; jd_retry := None;
     jd_handler := λ context, result ← handler (jhc_payload context); mret (inr (VObj result)) |}.
Definition createDataPatchApplyJob {R} (dataPatches : option (DataPatchAdminPort R)) : option jstr → JobDefinition (JobHandler R) :=
  patch_job DATA_PATCH_APPLY_JOB_NAME "Apply a validated cf-frappe data patch plan" (patch_apply_handler dataPatches).
Definition createDataPatchRollbackJob {R} (dataPatches : option (DataPatchAdminPort R)) : option jstr → JobDefinition (JobHandler R) :=
  patch_job DATA_PATCH_ROLLBACK_JOB_NAME "Roll back a validated cf-frappe data patch plan" (patch_rollback_handler dataPatches).
Definition createDataPatchRollbackRetryJob {R} (dataPatches : option (DataPatchAdminPort R)) : option jstr → JobDefinition (JobHandler R) :=
  patch_job DATA_PATCH_ROLLBACK_RETRY_JOB_NAME "Retry a failed cf-frappe data patch rollback" (patch_rollback_retry_handler dataPatches).

(** ** Payloads are read back *)

Lemma strings_of_strings l : strings_of (VStr <$> l) = Some l.
Proof. induction l as [|s l IH]; [done|]. cbn. change (list_fmap _ _ VStr l) with (VStr <$> l). by rewrite IH. Qed.

Lemma job_actor_fields actor : let fields := dataPatchJobActor actor in
  vget (js "id") fields = VStr (actor_id actor) ∧ vget (js "roles") fields = VArr (VStr <$> actor_roles actor) ∧
  vget (js "tenantId") fields = default VUndef (VStr <$> actor_tenantId actor) ∧
  vget (js "email") fields = default VUndef (VStr <$> actor_email actor).
Proof. destruct actor as [i r [t|] [m|]]; split_and!; reflexivity. Qed.

Lemma job_actor_parsed actor : parseDataPatchJobActor (VObj (dataPatchJobActor actor)) = Ok actor.
Proof.
  destruct (job_actor_fields actor) as (Hi & Hr & Ht & He). unfold parseDataPatchJobActor. rewrite Hi, Hr, Ht, He. cbn [or_bad string_value mbind res_bind].
  rewrite strings_of_strings. by destruct actor as [i r [t|] [m|]].
Qed.

Lemma patch_ids_parsed patchIds : Forall (λ id, id ≠ []) patchIds → parseDataPatchJobPatchIds (VArr (VStr <$> patchIds)) = Ok patchIds.
Proof.
  intros Hids. unfold parseDataPatchJobPatchIds. rewrite strings_of_strings. cbn [or_bad mbind res_bind].
  rewrite (proj2 (forallb_forall _ patchIds)); [done|]. intros id Hid%list_elem_of_In. rewrite Forall_forall in Hids.
  by rewrite bool_decide_eq_false_2 by auto.
Qed.

(** What the handlers do with the payloads that the service sends. *)
Lemma plan_payload_read actor patchIds : Forall (λ id, id ≠ []) patchIds →
  parseDataPatchJobPatchIds (vget (js "patchIds") (patch_plan_payload actor patchIds)) = Ok patchIds ∧
  parseDataPatchJobActor (vget (js "actor") (patch_plan_payload actor patchIds)) = Ok actor.
Proof.
  intros Hids. change (vget (js "patchIds") _) with (VArr (VStr <$> patchIds)).
  change (vget (js "actor") _) with (VObj (dataPatchJobActor actor)). split; [by apply patch_ids_parsed|apply job_actor_parsed].
Qed.

(** A message of the service says who asked for it, whatever other metadata is given. *)
Lemma requested_noted metadata actorId :
  vget (js "requestedBy") (jm_spread metadata [(js "dispatchSource", VStr (js "data-patches")); (js "requestedBy", VStr actorId)]) = VStr actorId.
Proof. unfold vget. rewrite jm_get_spread; [done|]. apply (bool_decide_unpack _). by vm_compute. Qed.

(** The handler of a plan that the service has sent. *)
Lemma patch_apply_run {R} (port : DataPatchAdminPort R) actor patchIds later : Forall (λ id, id ≠ []) patchIds → patchIds ≠ [] →
  patch_apply_handler (Some port) (patch_plan_payload actor patchIds) later =
  (result ← dpp_apply port actor {| dao_patchIds := Some patchIds; dao_limit := None |}; mret (dataPatchRunResultJson result)) later.
Proof.
  intros Hids Hne. destruct (plan_payload_read actor patchIds Hids) as [Hi Ha].
  unfold patch_apply_handler. rewrite m_bind_run. cbn [ensureDataPatchJobServiceAvailable]. cbv [mret M_ret] in |- *.
  rewrite m_bind_run, Hi. cbn [m_lift]. rewrite m_bind_run. unfold m_ensure. rewrite bool_decide_eq_false_2 by done. cbn [negb ensure m_lift].
  rewrite m_bind_run, Ha. done.
Qed.

Section enqueued.
Context {R : Type} (ids clock : nat → jstr) (env : nat → JobStore R → JobStore R) (registry : JobRegistry (JobHandler R)).

(** A command of the service that is dispatched: what its message says, and where it is. *)
Lemma patch_command_sends jobName actor delivery payload c message c' :
  dispatch ids clock env registry (dataPatchDispatchCommand jobName actor delivery payload) c = (Ok message, c') →
  jmsg_jobName message = jobName ∧ message_tenant message = default DEFAULT_TENANT_ID (actor_tenantId actor) ∧
  jmsg_payload message = payload ∧ vget (js "requestedBy") (jmsg_metadata message) = VStr (actor_id actor) ∧
  ∃ before, jst_queue (cl_store c') = before ++ [{| qjb_message := message; qjb_delaySeconds := dqo_delaySeconds delivery |}].
Proof using Type.
  intros (Ht & Hn & Hp & Hm & _ & _ & _ & Hs)%dispatch_sends. cbn in Ht, Hn, Hp, Hm. unfold message_tenant. split_and!; [done|by rewrite Ht|done| |].
  - rewrite Hm. apply requested_noted.
  - eexists. by rewrite Hs.
Qed.
End enqueued.

(** C20: A plan that the queue service enqueues is what the job applies.  When [enqueue]
    returns, the plan is the service's own for the actor and is not empty, and one message of
    the tenant of the actor is last on the queue, under the name of the apply job; and
    whichever executor runs the job on that message, at whichever attempt, it asks the
    service to apply exactly the patches of the plan as the actor who enqueued it, and
    returns what was applied.  The payload loses nothing of the actor or the plan. *)
Theorem enqueued_plan_applied {R} ids clock (env : nat → JobStore R → JobStore R) registry port names actor options delivery c plan message c' :
  enqueue_apply port (dispatch ids clock env registry) names actor options delivery c = (Ok (plan, message), c') →
  Forall (λ id, id ≠ []) (dap_patchIds plan) →
  (∃ c1, dpp_planApply port actor options c = (Ok plan, c1)) ∧ dap_patchIds plan ≠ [] ∧
  jmsg_jobName message = pjn_apply names ∧ message_tenant message = default DEFAULT_TENANT_ID (actor_tenantId actor) ∧
  vget (js "requestedBy") (jmsg_metadata message) = VStr (actor_id actor) ∧
  (∃ before, jst_queue (cl_store c') = before ++ [{| qjb_message := message; qjb_delaySeconds := dqo_delaySeconds delivery |}]) ∧
  ∀ name attempt later,
    jd_handler (createDataPatchApplyJob (Some port) name) (handler_context message attempt) later =
    (result ← dpp_apply port actor {| dao_patchIds := Some (dap_patchIds plan); dao_limit := None |};
     mret (inr (VObj (dataPatchRunResultJson result)))) later.
Proof.
  unfold enqueue_apply. rewrite m_bind_run. destruct (dpp_planApply port actor options c) as [[planned|] c1] eqn:Ep; [|done].
  rewrite m_bind_run. unfold m_ensure. destruct (bool_decide_reflect (dap_patchIds planned = [])) as [|Hne]; [done|]. cbn [negb].
  cbn [m_lift ensure]. rewrite m_bind_run.
  destruct (dispatch _ _ _ _ _ c1) as [[sent|] c2] eqn:Ed; [|done]. intros [= <- <- <-] Hids.
  apply patch_command_sends in Ed as (Hn & Ht & Hp & Hr & Hq). split_and!; [by eexists|done|done|done|done|done|].
  intros name attempt later. unfold createDataPatchApplyJob, patch_job, handler_context. cbn [jd_handler jhc_payload].
  rewrite Hp, m_bind_run, patch_apply_run by done. rewrite !m_bind_run.
  by destruct (dpp_apply port actor _ later) as [[?|?] ?].
Qed.

(** ** Witness: an administrator enqueues the only patch that is left *)

Definition sample_patch_port : DataPatchAdminPort unit := {|
  dpp_planApply := λ _ options, mret (plan_of options [js "fill"]);
  dpp_planRollback := λ _ options, mret (plan_of options []);
  dpp_planRollbackRetry := λ _ patchId, mret patchId;
  dpp_apply := λ _ options, mret {| dpr_applied := (λ patchId, {| prr_id := patchId; prr_checksum := js "1"; prr_at := js "t"; prr_result := None |}) <$>
    default [] (dao_patchIds options); dpr_skipped := [] |};
  dpp_rollback := λ _ _, mret {| drr_rolledBack := []; drr_skipped := [] |};
  dpp_retryRollbackFailed := λ _ _, mret {| drr_rolledBack := []; drr_skipped := [] |}
|}.
Definition sample_patch_registry : JobRegistry (JobHandler unit) := Eval vm_compute in
  match createJobRegistry [createDataPatchApplyJob (Some sample_patch_port) None] [] with Ok registry => registry | Throw _ => sample_run_registry end.
Definition sample_patch_options : DataPatchApplyOptions := {| dao_patchIds := None; dao_limit := None |}.
Definition sample_patch_delivery : DataPatchQueueDeliveryOptions := {| dqo_delaySeconds := None; dqo_idempotencyKey := None; dqo_metadata := None |}.
Abbreviation sample_enqueue := (enqueue_apply sample_patch_port (dispatch (λ _, js "job_1") (λ _, js "t") (λ _ s, s) sample_patch_registry)
  (new_patch_queue None None None None) sample_retry_actor sample_patch_options sample_patch_delivery sample_retry_client).
Definition sample_patch_message : JobMessage := Eval vm_compute in
  match sample_enqueue.1 with Ok (_, message) => message | Throw _ => sample_run_message end.

Lemma enqueued_plan_applied_witness :
  sample_enqueue.1 = Ok (plan_of sample_patch_options [js "fill"], sample_patch_message) ∧
  jmsg_jobName sample_patch_message = DATA_PATCH_APPLY_JOB_NAME ∧
  (jd_handler (createDataPatchApplyJob (Some sample_patch_port) None) (handler_context sample_patch_message None) sample_retry_client).1 =
    Ok (inr (VObj [(js "applied", VArr [VObj [(js "id", VStr (js "fill")); (js "checksum", VStr (js "1")); (js "appliedAt", VStr (js "t"))]]);
      (js "skipped", VArr [])])).
Proof.
  assert (sample_enqueue.1 = Ok (plan_of sample_patch_options [js "fill"], sample_patch_message)) as Hr by (vm_compute; reflexivity).
  destruct (enqueued_plan_applied (λ _, js "job_1") (λ _, js "t") (λ _ s, s) sample_patch_registry sample_patch_port
    (new_patch_queue None None None None) sample_retry_actor sample_patch_options sample_patch_delivery sample_retry_client
    (plan_of sample_patch_options [js "fill"]) sample_patch_message sample_enqueue.2) as (_ & _ & Hn & _ & _ & _ & Hrun).
  - rewrite <-Hr. apply surjective_pairing.
  - repeat constructor. discriminate.
  - split; [exact Hr|]. split; [exact Hn|]. rewrite (Hrun None None sample_retry_client). vm_compute. reflexivity.
Defined.
