(* ===== verification/JobSchedules.v ===== *)
(** * JobSchedules: the schedules of jobs

    Models [application/job-schedule-events.ts] and [job-schedule-policy.ts]: the events of
    the schedules that administrators save, delete, override and pause, the states that are
    folded from them, and the decisions of the service.  A property of a schedule that may
    be a function is a [ScheduleValue]; what such functions are is a parameter. *)

From S2P Require Export JobRuns Streams.

(** ** Keys: [JSON.stringify] of two strings *)

Definition json_hex (d : N) : N := (if d <? 10 then 48 + d else 87 + d)%N.
Definition unicode_escape (u : N) : jstr :=
  [92; 117; json_hex (u / 4096); json_hex ((u / 256) mod 16); json_hex ((u / 16) mod 16); json_hex (u mod 16)]%N.

(** A code unit of a string that is no part of a surrogate pair. *)
Definition json_unit (u : N) : jstr :=
  (if u =? 8 then [92; 98] else if u =? 9 then [92; 116] else if u =? 10 then [92; 110]
   else if u =? 12 then [92; 102] else if u =? 13 then [92; 114] else if u =? 34 then [92; 34]
   else if u =? 92 then [92; 92]
   else if (u <? 32) || is_high u || is_low u then unicode_escape u else [u])%N.
Fixpoint json_text (s : jstr) : jstr :=
  match s with
  | [] => []
  | u :: rest =>
      match rest with
      | l :: rest' => if is_high u && is_low l then u :: l :: json_text rest' else json_unit u ++ json_text rest
      | [] => json_unit u
      end
  end.
Definition json_string (s : jstr) : jstr := 34%N :: json_text s ++ [34%N].

(** [jobScheduleDefinitionKey(tenantId, scheduleId)]. *)
Definition jobScheduleDefinitionKey (tenantId scheduleId : jstr) : jstr :=
  91%N :: json_string tenantId ++ 44%N :: json_string scheduleId ++ [93%N].

(** ** Events *)

Definition JOB_SCHEDULE_OVERRIDE_PAYLOAD_KINDS : list jstr :=
  [js "JobScheduleOverrideSet"; js "JobSchedulePaused"; js "JobScheduleOverrideCleared"].
Definition JOB_SCHEDULE_DEFINITION_PAYLOAD_KINDS : list jstr := [js "JobScheduleSaved"; js "JobScheduleDeleted"].

(** [JobScheduleOverrideRecord], [JobScheduleOverrideState], [RuntimeJobScheduleRecord] and
    [JobScheduleDefinitionState]. *)
Record JobScheduleOverrideRecord := {
  jso_scheduleId : jstr;
  jso_enabled : option bool;
  jso_pausedUntil : option jstr;
  jso_updatedAt : jstr;
  jso_updatedBy : jstr
}.
Record JobScheduleOverrideState := {
  jos_tenantId : jstr;
  jos_version : Z;
  jos_overrides : list (jstr * JobScheduleOverrideRecord)
}.
Record RuntimeJobScheduleRecord := {
  rjs_id : jstr;
  rjs_cron : jstr;
  rjs_jobName : jstr;
  rjs_tenantId : jstr;
  rjs_enabled : bool;
  rjs_payload : option data;
  rjs_metadata : option data;
  rjs_idempotencyKey : option jstr;
  rjs_delaySeconds : option Z;
  rjs_updatedAt : jstr;
  rjs_updatedBy : jstr
}.
Record JobScheduleDefinitionState := {
  jdf_version : Z;
  jdf_schedules : list (jstr * RuntimeJobScheduleRecord)
}.

(** [jobScheduleEventEnvelope(options, stream, type, documentName)] with a payload. *)
Definition jobScheduleEvent (stream documentName id tenantId actorId occurredAt : jstr) (metadata : data) (p : payload) : NewDomainEvent :=
  {| e_id := id; e_tenantId := tenantId; e_stream := stream; e_type := payload_kind p; e_doctype := js "__JobSchedules";
     e_documentName := documentName; e_actorId := actorId; e_occurredAt := occurredAt; e_payload := p; e_metadata := metadata |}.

(** The payload of [createJobScheduleSavedEvent]. *)
Definition jobScheduleSavedPayload (tenantId : jstr) (schedule : RuntimeJobScheduleRecord) : payload :=
  PJobScheduleSaved {| jss_scheduleId := rjs_id schedule; jss_cron := rjs_cron schedule; jss_jobName := rjs_jobName schedule;
    jss_tenantId := tenantId; jss_enabled := rjs_enabled schedule; jss_payload := rjs_payload schedule;
    jss_metadata := rjs_metadata schedule; jss_idempotencyKey := rjs_idempotencyKey schedule; jss_delaySeconds := rjs_delaySeconds schedule |}.

(** ** Folds *)

(** [events.at(-1)?.sequence ?? initial?.version ?? 0]. *)
Definition last_sequence (initial : Z) (events : list DomainEvent) : Z := default initial (e_sequence <$> last events).

(** The loop of [foldJobScheduleOverridesFrom]. *)
Definition fold_override (overrides : list (jstr * JobScheduleOverrideRecord)) (event : DomainEvent) : list (jstr * JobScheduleOverrideRecord) :=
  match e_payload event with
  | PJobScheduleOverrideSet scheduleId enabled =>
      let current := jm_get scheduleId overrides in
      jm_set scheduleId {| jso_scheduleId := scheduleId; jso_enabled := Some enabled; jso_pausedUntil := current ≫= jso_pausedUntil;
        jso_updatedAt := e_occurredAt event; jso_updatedBy := e_actorId event |} overrides
  | PJobSchedulePaused scheduleId pausedUntil =>
      let current := jm_get scheduleId overrides in
      jm_set scheduleId {| jso_scheduleId := scheduleId; jso_enabled := current ≫= jso_enabled; jso_pausedUntil := Some pausedUntil;
        jso_updatedAt := e_occurredAt event; jso_updatedBy := e_actorId event |} overrides
  | PJobScheduleOverrideCleared scheduleId => jm_delete scheduleId overrides
  | _ => overrides
  end.
Definition foldJobScheduleOverridesFrom (initial : option JobScheduleOverrideState) (tenantId : jstr) (events : list DomainEvent)
    : JobScheduleOverrideState :=
  {| jos_tenantId := tenantId; jos_version := last_sequence (default 0%Z (jos_version <$> initial)) events;
     jos_overrides := foldl fold_override (default [] (jos_overrides <$> initial)) events |}.
Definition foldJobScheduleOverrides (tenantId : jstr) (events : list DomainEvent) : JobScheduleOverrideState :=
  foldJobScheduleOverridesFrom None tenantId events.

(** The loop of [foldJobScheduleDefinitionsFrom]. *)
Definition saved_schedule (event : DomainEvent) (r : JobScheduleSaved) : RuntimeJobScheduleRecord :=
  {| rjs_id := jss_scheduleId r; rjs_cron := jss_cron r; rjs_jobName := jss_jobName r; rjs_tenantId := jss_tenantId r;
     rjs_enabled := jss_enabled r; rjs_payload := jss_payload r; rjs_metadata := jss_metadata r;
     rjs_idempotencyKey := jss_idempotencyKey r; rjs_delaySeconds := jss_delaySeconds r;
     rjs_updatedAt := e_occurredAt event; rjs_updatedBy := e_actorId event |}.
Definition fold_definition (schedules : list (jstr * RuntimeJobScheduleRecord)) (event : DomainEvent) : list (jstr * RuntimeJobScheduleRecord) :=
  match e_payload event with
  | PJobScheduleSaved r => jm_set (jobScheduleDefinitionKey (jss_tenantId r) (jss_scheduleId r)) (saved_schedule event r) schedules
  | PJobScheduleDeleted scheduleId tenantId => jm_delete (jobScheduleDefinitionKey tenantId scheduleId) schedules
  | _ => schedules
  end.
Definition foldJobScheduleDefinitionsFrom (initial : option JobScheduleDefinitionState) (events : list DomainEvent) : JobScheduleDefinitionState :=
  {| jdf_version := last_sequence (default 0%Z (jdf_version <$> initial)) events;
     jdf_schedules := foldl fold_definition (default [] (jdf_schedules <$> initial)) events |}.
Definition foldJobScheduleDefinitions (events : list DomainEvent) : JobScheduleDefinitionState := foldJobScheduleDefinitionsFrom None events.

(** [runtimeJobSchedules(state)], [runtimeJobScheduleForTenant], [requireSavedRuntimeJobSchedule]
    and [runtimeJobScheduleIndex]. *)
Definition runtime_leb `{Collation} (left right : RuntimeJobScheduleRecord) : bool :=
  if collation_leb (rjs_tenantId left) (rjs_tenantId right) && collation_leb (rjs_tenantId right) (rjs_tenantId left)
  then collation_leb (rjs_id left) (rjs_id right)
  else collation_leb (rjs_tenantId left) (rjs_tenantId right).
Definition runtimeJobSchedules `{Collation} (state : JobScheduleDefinitionState) : list RuntimeJobScheduleRecord :=
  isort runtime_leb (jm_values (jdf_schedules state)).
Definition runtimeJobScheduleForTenant (state : JobScheduleDefinitionState) (tenantId scheduleId : jstr) : option RuntimeJobScheduleRecord :=
  jm_get (jobScheduleDefinitionKey tenantId scheduleId) (jdf_schedules state).
Definition requireSavedRuntimeJobSchedule (state : JobScheduleDefinitionState) (tenantId scheduleId : jstr) : res RuntimeJobScheduleRecord :=
  match runtimeJobScheduleForTenant state tenantId scheduleId with Some schedule => Ok schedule | None => Throw (FrameworkError PLAIN_ERROR 500) end.
Definition runtimeJobScheduleIndex `{Collation} (state : JobScheduleDefinitionState) (tenantId scheduleId : jstr) : nat :=
  default 0 (fst <$> list_find (λ schedule, rjs_tenantId schedule = tenantId ∧ rjs_id schedule = scheduleId) (runtimeJobSchedules state)).

(** ** Schedules *)

(** A property that is a value, or a function of the context of a run. *)
Inductive ScheduleValue (F : Type → Type) (A : Type) := StaticValue (v : A) | DynamicValue (f : F A).
Arguments StaticValue {F A} v.
Arguments DynamicValue {F A} f.

(** [ScheduledJobDefinition], which is a [JobScheduleSummaryCandidate]. *)
Record JobSchedule (F : Type → Type) := {
  jsd_id : option jstr;
  jsd_cron : jstr;
  jsd_jobName : jstr;
  jsd_enabled : option (ScheduleValue F bool);
  jsd_tenantId : option (ScheduleValue F jstr);
  jsd_payload : option (ScheduleValue F data);
  jsd_metadata : option (ScheduleValue F data);
  jsd_idempotencyKey : option (ScheduleValue F jstr);
  jsd_delaySeconds : option Z
}.
Arguments jsd_id {F} _.
Arguments jsd_cron {F} _.
Arguments jsd_jobName {F} _.
Arguments jsd_enabled {F} _.
Arguments jsd_tenantId {F} _.
Arguments jsd_payload {F} _.
Arguments jsd_metadata {F} _.
Arguments jsd_idempotencyKey {F} _.
Arguments jsd_delaySeconds {F} _.

(** [JobScheduleSummary], with its [dynamic]. *)
Inductive ScheduleSource := Configured | Runtime.
#[export] Instance ScheduleSource_eq_dec : EqDecision ScheduleSource.
Proof. solve_decision. Defined.
Record DynamicFields := { dyn_enabled : bool; dyn_tenantId : bool; dyn_payload : bool; dyn_metadata : bool; dyn_idempotencyKey : bool }.
Record JobScheduleSummary := {
  sum_id : jstr;
  sum_cron : jstr;
  sum_jobName : jstr;
  sum_source : ScheduleSource;
  sum_editable : bool;
  sum_deleted : bool;
  sum_enabled : bool;
  sum_configuredEnabled : bool;
  sum_overridden : bool;
  sum_overrideEnabled : option bool;
  sum_pausedUntil : option jstr;
  sum_overrideUpdatedAt : option jstr;
  sum_overrideUpdatedBy : option jstr;
  sum_overrideable : bool;
  sum_registered : bool;
  sum_dispatchable : bool;
  sum_description : option jstr;
  sum_retry : option JobRetryPolicy;
  sum_delaySeconds : option Z;
  sum_tenantId : option jstr;
  sum_dynamic : DynamicFields
}.

(** What the host decides: [Date.parse], and [new Date(time).toISOString()]. *)
Class TimeHost := { parse_time : jstr → option Z; iso_time : Z → jstr }.

(** [Date.parse(left) > Date.parse(right)], which does not hold of what is no date. *)
Definition time_after `{TimeHost} (left right : jstr) : bool :=
  match parse_time left, parse_time right with Some l, Some r => (r <? l)%Z | _, _ => false end.

Section policy.
Context {F : Type → Type}.
Abbreviation Schedule := (JobSchedule F).

(** A record that is used as a schedule. *)
Definition runtime_schedule (r : RuntimeJobScheduleRecord) : Schedule :=
  {| jsd_id := Some (rjs_id r); jsd_cron := rjs_cron r; jsd_jobName := rjs_jobName r; jsd_enabled := Some (StaticValue (rjs_enabled r));
     jsd_tenantId := Some (StaticValue (rjs_tenantId r)); jsd_payload := StaticValue <$> rjs_payload r; jsd_metadata := StaticValue <$> rjs_metadata r;
     jsd_idempotencyKey := StaticValue <$> rjs_idempotencyKey r; jsd_delaySeconds := rjs_delaySeconds r |}.

(** [isDynamicJobScheduleValue(value)], [staticJobScheduleTenantId(schedule)],
    [jobScheduleIdentity(schedule, index)] and [dynamicJobScheduleFields(schedule)]. *)
Definition isDynamicJobScheduleValue {A} (v : option (ScheduleValue F A)) : bool := match v with Some (DynamicValue _) => true | _ => false end.
Definition staticJobScheduleTenantId (schedule : Schedule) : option jstr :=
  match jsd_tenantId schedule with
  | Some (DynamicValue _) => None
  | Some (StaticValue tenantId) => Some tenantId
  | None => Some DEFAULT_TENANT_ID
  end.
Definition jobScheduleIdentity (schedule : Schedule) (index : nat) : jstr := default (dec (N.of_nat (S index))) (jsd_id schedule).
Definition dynamicJobScheduleFields (schedule : Schedule) : DynamicFields :=
  {| dyn_enabled := isDynamicJobScheduleValue (jsd_enabled schedule); dyn_tenantId := isDynamicJobScheduleValue (jsd_tenantId schedule);
     dyn_payload := isDynamicJobScheduleValue (jsd_payload schedule); dyn_metadata := isDynamicJobScheduleValue (jsd_metadata schedule);
     dyn_idempotencyKey := isDynamicJobScheduleValue (jsd_idempotencyKey schedule) |}.

(** [ensureUniqueJobScheduleIds(schedules)] and [configuredJobScheduleIds(schedules)]. *)
Definition configuredJobScheduleIds (schedules : list Schedule) : list jstr := imap (λ index schedule, jobScheduleIdentity schedule index) schedules.
Definition ensureUniqueJobScheduleIds (schedules : list Schedule) : res unit :=
  seen ← foldl_res (λ seen id,
    _ ← ensure (negb (bool_decide (trim id = []))) badRequest;
    _ ← ensure (negb (bool_decide (id ∈ seen))) badRequest;
    Ok (id :: seen)) [] (configuredJobScheduleIds schedules);
  Ok tt.

(** [planJobScheduleSummary(options)]. *)
Definition planJobScheduleSummary `{TimeHost} (id cron jobName : jstr) (source : ScheduleSource) (hasScheduleId configuredEnabled canOverride canDispatch
    registered : bool) (now : jstr) (dynamic : DynamicFields) (job : option (option jstr * option JobRetryPolicy))
    (override : option JobScheduleOverrideRecord) (delaySeconds : option Z) (tenantId : option jstr) : JobScheduleSummary :=
  let overrideable := bool_decide (source = Configured) && canOverride && hasScheduleId && negb (dyn_tenantId dynamic) && negb (dyn_enabled dynamic) in
  let override := if overrideable then override else None in
  let pausedUntil := override ≫= jso_pausedUntil in
  let paused := match pausedUntil with Some until => time_after until now | None => false end in
  let overrideEnabled := override ≫= jso_enabled in
  let baseEnabled := default configuredEnabled overrideEnabled in
  let enabled := baseEnabled && negb paused in
  let overridden := bool_decide (is_Some overrideEnabled) || paused in
  {| sum_id := id; sum_cron := cron; sum_jobName := jobName; sum_source := source; sum_editable := bool_decide (source = Runtime);
     sum_deleted := false; sum_enabled := enabled; sum_configuredEnabled := configuredEnabled; sum_overridden := overridden;
     sum_overrideEnabled := overrideEnabled; sum_pausedUntil := if paused then pausedUntil else None;
     sum_overrideUpdatedAt := if overridden then jso_updatedAt <$> override else None;
     sum_overrideUpdatedBy := if overridden then jso_updatedBy <$> override else None;
     sum_overrideable := overrideable; sum_registered := registered;
     sum_dispatchable := registered && enabled && canDispatch && negb (dyn_tenantId dynamic) && negb (dyn_enabled dynamic);
     sum_description := job ≫= fst; sum_retry := job ≫= snd; sum_delaySeconds := delaySeconds; sum_tenantId := tenantId; sum_dynamic := dynamic |}.

(** [jobScheduleSummaryFor(options)]. *)
Definition jobScheduleSummaryFor `{TimeHost} {H} (schedule : Schedule) (index : nat) (overrides : JobScheduleOverrideState) (registry : JobRegistry H)
    (canOverride canDispatch : bool) (now : jstr) (source : ScheduleSource) : JobScheduleSummary :=
  let job := match get_job registry (jsd_jobName schedule) with Ok definition => Some (jd_description definition, jd_retry definition) | Throw _ => None end in
  let tenantId := staticJobScheduleTenantId schedule in
  let id := jobScheduleIdentity schedule index in
  let override := if bool_decide (tenantId = Some (jos_tenantId overrides)) then jm_get id (jos_overrides overrides) else None in
  planJobScheduleSummary id (jsd_cron schedule) (jsd_jobName schedule) source (bool_decide (is_Some (jsd_id schedule)))
    (match jsd_enabled schedule with Some (StaticValue false) => false | _ => true end) canOverride canDispatch
    (has_job registry (jsd_jobName schedule)) now (dynamicJobScheduleFields schedule) job override (jsd_delaySeconds schedule) tenantId.

(** [jobScheduleSummaries(options)]. *)
Definition jobScheduleSummaries `{TimeHost} `{Collation} {H} (configured : list Schedule) (definitions : JobScheduleDefinitionState)
    (overrides : JobScheduleOverrideState) (registry : JobRegistry H) (canOverride canDispatch : bool) (now : jstr) : list JobScheduleSummary :=
  imap (λ index schedule, jobScheduleSummaryFor schedule index overrides registry canOverride canDispatch now Configured) configured ++
  imap (λ index schedule, jobScheduleSummaryFor (runtime_schedule schedule) (length configured + index) overrides registry canOverride canDispatch now
    Runtime) (runtimeJobSchedules definitions).

(** [effectiveJobSchedule(schedule, summary)]. *)
Definition effectiveJobSchedule (schedule : Schedule) (summary : JobScheduleSummary) : Schedule :=
  if negb (sum_overridden summary) then schedule
  else {| jsd_id := jsd_id schedule; jsd_cron := jsd_cron schedule; jsd_jobName := jsd_jobName schedule;
          jsd_enabled := Some (StaticValue (sum_enabled summary)); jsd_tenantId := jsd_tenantId schedule; jsd_payload := jsd_payload schedule;
          jsd_metadata := jsd_metadata schedule; jsd_idempotencyKey := jsd_idempotencyKey schedule; jsd_delaySeconds := jsd_delaySeconds schedule |}.
End policy.

(** ** Decisions *)

Definition schedule_not_found : error := notFound JOB_SCHEDULE_NOT_FOUND.

(** [planJobScheduleAccess(options)]: the tenant, or a denial. *)
Definition planJobScheduleAccess (actor : Actor) (adminRoles : list jstr) (explicitTenantId : option jstr) : res jstr :=
  _ ← ensure (existsb (λ role, bool_decide (role ∈ actor_roles actor)) adminRoles) permissionDenied;
  let actorTenantId := default DEFAULT_TENANT_ID (actor_tenantId actor) in
  let tenantId := default actorTenantId explicitTenantId in
  _ ← ensure (bool_decide (tenantId = actorTenantId)) permissionDenied;
  Ok tenantId.

(** [canInspectJobSchedule(schedule, tenantId)]. *)
Definition canInspectJobSchedule (summary : JobScheduleSummary) (tenantId : jstr) : bool :=
  if dyn_tenantId (sum_dynamic summary) then bool_decide (tenantId = DEFAULT_TENANT_ID) else bool_decide (sum_tenantId summary = Some tenantId).

(** [planJobScheduleDispatch(options)] and [planJobScheduleOverride(options)], whose
    decisions throw. *)
Definition planJobScheduleDispatch (tenantId : jstr) (summary : JobScheduleSummary) : res unit :=
  _ ← ensure (canInspectJobSchedule summary tenantId) schedule_not_found;
  _ ← ensure (negb (dyn_tenantId (sum_dynamic summary))) badRequest;
  _ ← ensure (negb (dyn_enabled (sum_dynamic summary))) badRequest;
  _ ← ensure (sum_enabled summary) badRequest;
  ensure (sum_registered summary) badRequest.
Definition planJobScheduleOverride (tenantId : jstr) (summary : JobScheduleSummary) (hasScheduleId : bool) : res unit :=
  _ ← ensure (canInspectJobSchedule summary tenantId) schedule_not_found;
  _ ← ensure (negb (bool_decide (sum_source summary = Runtime))) badRequest;
  _ ← ensure (negb (dyn_tenantId (sum_dynamic summary))) badRequest;
  _ ← ensure (negb (dyn_enabled (sum_dynamic summary))) badRequest;
  ensure hasScheduleId badRequest.

(** [planJobScheduleDefinitionSave(options)] and [planJobScheduleDefinitionDelete(options)]. *)
Definition planJobScheduleDefinitionSave (configured registered : bool) : res unit :=
  _ ← ensure (negb configured) badRequest; ensure registered badRequest.
Definition planJobScheduleDefinitionDelete (configured exists_ : bool) : res unit :=
  _ ← ensure (negb configured) badRequest; ensure exists_ schedule_not_found.

(** [planJobScheduleEnabledOverride(options)] and [planJobSchedulePauseOverride(options)]:
    whether to write. *)
Definition planJobScheduleEnabledOverride (currentEnabled : option bool) (configuredEnabled targetEnabled : bool) : bool :=
  negb (Bool.eqb (default configuredEnabled currentEnabled) targetEnabled).
Definition planJobSchedulePauseOverride `{TimeHost} (currentPausedUntil : option jstr) (pausedUntil now : jstr) : bool :=
  negb (bool_decide (currentPausedUntil = Some pausedUntil) && time_after pausedUntil now).

(** ** What commands give *)

(** [normalizeJobScheduleText(value, field)], [normalizeJobScheduleId(value)],
    [normalizeJobScheduleIdempotencyKey(value)] and [normalizeJobScheduleDelaySeconds(value)]. *)
Definition normalizeJobScheduleText (v : jstr) : res jstr := if bool_decide (trim v = []) then Throw badRequest else Ok (trim v).
Definition normalizeJobScheduleId (v : jstr) : res jstr := if bool_decide (trim v = []) then Throw badRequest else Ok (trim v).
Definition normalizeJobScheduleIdempotencyKey (v : jstr) : res jstr :=
  normalized ← normalizeJobScheduleText v;
  _ ← ensure (length normalized <=? MAX_JOB_QUEUE_IDEMPOTENCY_KEY_LENGTH) badRequest;
  Ok normalized.
Definition normalizeJobScheduleDelaySeconds (v : Z) : res Z :=
  _ ← ensure ((0 <=? v) && (v <=? MAX_JOB_QUEUE_DELAY_SECONDS))%Z badRequest; Ok v.

(** [normalizeJobSchedulePauseUntil(value, now)]. *)
Definition normalizeJobSchedulePauseUntil `{TimeHost} (v now : jstr) : res jstr :=
  normalized ← normalizeJobScheduleText v;
  match parse_time normalized with
  | None => Throw badRequest
  | Some timestamp =>
      _ ← ensure (match parse_time now with Some now => negb (timestamp <=? now)%Z | None => true end) badRequest;
      Ok (iso_time timestamp)
  end.

(** [SaveJobScheduleDefinitionCommand], of which the input of a definition is a part. *)
Record SaveJobScheduleCommand := {
  sjs_id : option jstr;
  sjs_cron : jstr;
  sjs_jobName : jstr;
  sjs_enabled : option bool;
  sjs_tenantId : option jstr;
  sjs_payload : option data;
  sjs_metadata : option data;
  sjs_idempotencyKey : option jstr;
  sjs_delaySeconds : option Z;
  sjs_eventMetadata : option data;
  sjs_preserveExistingFields : bool
}.

(** [normalizeJobScheduleRuntimeDefinition(options)]. *)
Definition normalizeJobScheduleRuntimeDefinition (command : SaveJobScheduleCommand) (tenantId generatedId : jstr) : res RuntimeJobScheduleRecord :=
  id ← normalizeJobScheduleId generatedId;
  cron ← normalizeJobScheduleText (sjs_cron command);
  jobName ← normalizeJobScheduleText (sjs_jobName command);
  payload ← optional normalizeJobDocumentData (sjs_payload command);
  metadata ← optional normalizeJobDocumentData (sjs_metadata command);
  idempotencyKey ← optional normalizeJobScheduleIdempotencyKey (sjs_idempotencyKey command);
  delaySeconds ← optional normalizeJobScheduleDelaySeconds (sjs_delaySeconds command);
  Ok {| rjs_id := id; rjs_cron := cron; rjs_jobName := jobName; rjs_tenantId := tenantId; rjs_enabled := default true (sjs_enabled command);
        rjs_payload := payload; rjs_metadata := metadata; rjs_idempotencyKey := idempotencyKey; rjs_delaySeconds := delaySeconds;
        rjs_updatedAt := []; rjs_updatedBy := [] |}.

(** [mergePreservedJobScheduleRuntimeFields(options)]: a field that the command does not
    give is kept. *)
Definition preserved {A} (given kept normalized : option A) : option A :=
  match given, kept with None, Some v => Some v | _, _ => normalized end.
Definition mergePreservedJobScheduleRuntimeFields (command : SaveJobScheduleCommand) (schedule : RuntimeJobScheduleRecord)
    (existing : option RuntimeJobScheduleRecord) : RuntimeJobScheduleRecord :=
  match existing with
  | Some existing =>
      if negb (sjs_preserveExistingFields command) then schedule
      else {| rjs_id := rjs_id schedule; rjs_cron := rjs_cron schedule; rjs_jobName := rjs_jobName schedule; rjs_tenantId := rjs_tenantId schedule;
              rjs_enabled := rjs_enabled schedule; rjs_payload := preserved (sjs_payload command) (rjs_payload existing) (rjs_payload schedule);
              rjs_metadata := preserved (sjs_metadata command) (rjs_metadata existing) (rjs_metadata schedule);
              rjs_idempotencyKey := preserved (sjs_idempotencyKey command) (rjs_idempotencyKey existing) (rjs_idempotencyKey schedule);
              rjs_delaySeconds := rjs_delaySeconds schedule; rjs_updatedAt := rjs_updatedAt schedule; rjs_updatedBy := rjs_updatedBy schedule |}
  | None => schedule
  end.

(** [ensureJobScheduleRuntimeCronTriggerConfigured(cron, runtimeCronTriggers)]. *)
Definition ensureJobScheduleRuntimeCronTriggerConfigured (cron : jstr) (runtimeCronTriggers : option (list jstr)) : res unit :=
  match runtimeCronTriggers with Some triggers => ensure (bool_decide (cron ∈ triggers)) badRequest | None => Ok tt end.

(** ** Keys tell tenants and schedules apart *)

(** Reading a string up to its closing quote, as a proof device. *)
Definition json_unhex (c : N) : N := (if c <? 58 then c - 48 else c - 87)%N.
Definition json_unescape (c : N) : N :=
  (if c =? 98 then 8 else if c =? 116 then 9 else if c =? 110 then 10 else if c =? 102 then 12 else if c =? 114 then 13 else c)%N.
Definition read_unit (u : N) (read : jstr * jstr) : jstr * jstr := (u :: read.1, read.2).
Fixpoint json_read (t : jstr) : jstr * jstr :=
  match t with
  | [] => ([], [])
  | c :: k =>
      if (c =? 34)%N then ([], k)
      else if (c =? 92)%N then
        match k with
        | e :: k' =>
            if (e =? 117)%N then
              match k' with
              | a :: b :: d :: f :: k'' =>
                  read_unit (4096 * json_unhex a + 256 * json_unhex b + 16 * json_unhex d + json_unhex f)%N (json_read k'')
              | _ => ([], [])
              end
            else read_unit (json_unescape e) (json_read k')
        | [] => ([], [])
        end
      else read_unit c (json_read k)
  end.

Lemma json_unhex_hex d : (d < 16)%N → json_unhex (json_hex d) = d.
Proof. unfold json_unhex, json_hex. intros Hd. destruct (N.ltb_spec d 10); case_match eqn:E; rewrite ?N.ltb_lt, ?N.ltb_ge in E; lia. Qed.

Lemma read_escape u k : (u < 65536)%N → json_read (unicode_escape u ++ k) = read_unit u (json_read k).
Proof.
  intros Hu. unfold unicode_escape. cbn [app json_read]. change (92 =? 34)%N with false. change (92 =? 92)%N with true.
  change (117 =? 117)%N with true. cbv iota. rewrite !json_unhex_hex; [f_equal|..]; try (apply N.mod_lt; lia).
  - pose proof (N.div_mod u 16 ltac:(lia)). pose proof (N.div_mod (u / 16) 16 ltac:(lia)). pose proof (N.div_mod (u / 256) 16 ltac:(lia)).
    rewrite N.Div0.div_div in * by lia. change (16 * 16)%N with 256%N in *. change (256 * 16)%N with 4096%N in *. lia.
  - apply N.Div0.div_lt_upper_bound. lia.
Qed.

Lemma read_json_unit u k : json_read (json_unit u ++ k) = read_unit u (json_read k).
Proof.
  unfold json_unit.
  repeat match goal with
  | |- context [(u =? ?n)%N] => destruct (N.eqb_spec u n) as [->|?]; [reflexivity|]
  end.
  destruct ((u <? 32)%N || is_high u || is_low u) eqn:E.
  - apply read_escape. apply orb_true_iff in E as [[E|E]%orb_true_iff|E];
      [apply N.ltb_lt in E; lia|..]; unfold is_high, is_low in E; apply andb_true_iff in E as [_ E]; apply N.leb_le in E; lia.
  - cbn [app json_read]. rewrite (proj2 (N.eqb_neq u 34)), (proj2 (N.eqb_neq u 92)) by done. done.
Qed.

Lemma read_json_text s k : json_read (json_text s ++ 34%N :: k) = (s, k).
Proof.
  remember (length s) as n eqn:Hn. revert s Hn. induction n as [n IH] using lt_wf_ind. intros [|u s] ->; [done|].
  destruct s as [|l s].
  - cbn [json_text]. rewrite read_json_unit. done.
  - change (json_text (u :: l :: s)) with (if is_high u && is_low l then u :: l :: json_text s else json_unit u ++ json_text (l :: s)).
    destruct (is_high u && is_low l) eqn:E.
    + change ((u :: l :: json_text s) ++ 34%N :: k) with ([u] ++ [l] ++ (json_text s ++ 34%N :: k)).
      assert (∀ c t, (55296 ≤ c)%N → json_read ([c] ++ t) = read_unit c (json_read t)) as Hraw.
      { intros c t Hc. cbn [app json_read]. by rewrite (proj2 (N.eqb_neq c 34)), (proj2 (N.eqb_neq c 92)) by lia. }
      apply andb_true_iff in E as [Eu El]. unfold is_high in Eu. unfold is_low in El. apply andb_true_iff in Eu as [Eu%N.leb_le _], El as [El%N.leb_le _].
      rewrite !Hraw by lia. rewrite (IH (length s)) by (cbn; lia || done). done.
    + rewrite <-app_assoc, read_json_unit. rewrite (IH (length (l :: s))) by (cbn; lia || done). done.
Qed.

Lemma json_string_inj s t k l : json_string s ++ k = json_string t ++ l → s = t ∧ k = l.
Proof.
  unfold json_string. cbn [app]. intros [= H]. rewrite <-!app_assoc in H. cbn [app] in H.
  apply (f_equal json_read) in H. rewrite !read_json_text in H. by injection H as -> ->.
Qed.

Lemma jobScheduleDefinitionKey_inj t s t' s' : jobScheduleDefinitionKey t s = jobScheduleDefinitionKey t' s' → t = t' ∧ s = s'.
Proof.
  intros H. assert (∀ k l : jstr, 91%N :: k = 91%N :: l → k = l) as Hc by (by intros k l [= ->]).
  apply Hc, json_string_inj in H as [-> H]. split; [done|].
  assert (∀ k l : jstr, 44%N :: k = 44%N :: l → k = l) as Hd by (by intros k l [= ->]).
  by apply Hd, json_string_inj in H as [-> _].
Qed.

(** ** The folds are registers, one for each schedule *)

(** What an event says of the schedule of a tenant, after what was said before. *)
Definition definition_said (tenantId scheduleId : jstr) (said : option RuntimeJobScheduleRecord) (event : DomainEvent) : option RuntimeJobScheduleRecord :=
  match e_payload event with
  | PJobScheduleSaved r => if bool_decide (jss_tenantId r = tenantId ∧ jss_scheduleId r = scheduleId) then Some (saved_schedule event r) else said
  | PJobScheduleDeleted id tenant => if bool_decide (tenant = tenantId ∧ id = scheduleId) then None else said
  | _ => said
  end.
Definition enabled_said (scheduleId : jstr) (said : option bool) (event : DomainEvent) : option bool :=
  match e_payload event with
  | PJobScheduleOverrideSet id enabled => if bool_decide (id = scheduleId) then Some enabled else said
  | PJobScheduleOverrideCleared id => if bool_decide (id = scheduleId) then None else said
  | _ => said
  end.
Definition pause_said (scheduleId : jstr) (said : option jstr) (event : DomainEvent) : option jstr :=
  match e_payload event with
  | PJobSchedulePaused id until => if bool_decide (id = scheduleId) then Some until else said
  | PJobScheduleOverrideCleared id => if bool_decide (id = scheduleId) then None else said
  | _ => said
  end.

(** The map of the schedules holds each under its own key. *)
Definition schedules_keyed (schedules : list (jstr * RuntimeJobScheduleRecord)) : Prop :=
  jm_wf schedules ∧ Forall (λ kv, kv.1 = jobScheduleDefinitionKey (rjs_tenantId kv.2) (rjs_id kv.2)) schedules.

Lemma fold_definition_keyed schedules event : schedules_keyed schedules → schedules_keyed (fold_definition schedules event).
Proof.
  intros [Hwf Hk]. unfold fold_definition. destruct (e_payload event); try done.
  - split; [by apply jm_wf_set|]. apply Forall_forall. intros kv [->|Hin]%jm_set_elem; [done|]. by eapply Forall_forall in Hk.
  - split; [by apply jm_wf_delete|]. apply Forall_forall. intros kv Hin%jm_delete_elem. by eapply Forall_forall in Hk.
Qed.

Lemma fold_definition_said schedules event tenantId scheduleId : schedules_keyed schedules →
  jm_get (jobScheduleDefinitionKey tenantId scheduleId) (fold_definition schedules event) =
  definition_said tenantId scheduleId (jm_get (jobScheduleDefinitionKey tenantId scheduleId) schedules) event.
Proof.
  intros [Hwf _]. unfold fold_definition, definition_said.
  assert (∀ t s, jobScheduleDefinitionKey tenantId scheduleId = jobScheduleDefinitionKey t s ↔ t = tenantId ∧ s = scheduleId) as Hkey.
  { intros t s. split; [intros [-> ->]%jobScheduleDefinitionKey_inj; done|by intros [-> ->]]. }
  destruct (e_payload event) eqn:E; try done.
  - rewrite jm_get_set. case_bool_decide as Hb; [by rewrite decide_True by (by apply Hkey)|by rewrite decide_False by (by rewrite Hkey)].
  - rewrite jm_get_delete by done. case_bool_decide as Hb; [by rewrite decide_True by (by apply Hkey)|by rewrite decide_False by (by rewrite Hkey)].
Qed.

Lemma definitions_said events schedules tenantId scheduleId : schedules_keyed schedules →
  let folded := foldl fold_definition schedules events in
  schedules_keyed folded ∧ jm_get (jobScheduleDefinitionKey tenantId scheduleId) folded =
    foldl (definition_said tenantId scheduleId) (jm_get (jobScheduleDefinitionKey tenantId scheduleId) schedules) events.
Proof.
  revert schedules. induction events as [|event events IH]; intros schedules Hk; [done|]. cbn [foldl].
  rewrite <-fold_definition_said by done. apply IH. by apply fold_definition_keyed.
Qed.

Lemma last_sequence_app initial before after : last_sequence (last_sequence initial before) after = last_sequence initial (before ++ after).
Proof. unfold last_sequence. rewrite last_app. by destruct (last after). Qed.

(** The schedules that are folded from the one stream that all tenants share are a
    register for each tenant and name: what a tenant finds under a name is what it saved
    there last, unless it deleted it since, and no schedule of another tenant, whatever
    characters the names have.  The list holds exactly these schedules, each once, and a
    fold can be resumed from an earlier one. *)
Theorem schedule_definitions_exact `{Collation} events :
  let state := foldJobScheduleDefinitions events in
  (∀ tenantId scheduleId, runtimeJobScheduleForTenant state tenantId scheduleId = foldl (definition_said tenantId scheduleId) None events) ∧
  (∀ schedule, schedule ∈ runtimeJobSchedules state ↔
    foldl (definition_said (rjs_tenantId schedule) (rjs_id schedule)) None events = Some schedule) ∧
  NoDup ((λ schedule, (rjs_tenantId schedule, rjs_id schedule)) <$> runtimeJobSchedules state) ∧
  ∀ later, foldJobScheduleDefinitionsFrom (Some state) later = foldJobScheduleDefinitions (events ++ later).
Proof.
  intros state. assert (schedules_keyed []) as Hnil by (split; [apply jm_wf_nil|constructor]).
  assert (∀ t s, runtimeJobScheduleForTenant state t s = foldl (definition_said t s) None events) as Hsaid
    by (intros t s; apply (definitions_said events [] t s Hnil)).
  destruct (definitions_said events [] [] [] Hnil) as [[Hwf Hkeys] _]. change (foldl fold_definition [] events) with (jdf_schedules state) in Hwf, Hkeys.
  assert (runtimeJobSchedules state ≡ₚ jm_values (jdf_schedules state)) as Hp by apply isort_perm.
  rewrite Forall_forall in Hkeys. split_and!; [done| | |].
  - intros schedule. rewrite Hp, <-Hsaid. unfold runtimeJobScheduleForTenant. rewrite jm_get_elem by done. unfold jm_values. split.
    + intros ([key r] & -> & Hin)%list_elem_of_fmap. pose proof (Hkeys _ Hin) as Hk. cbn in Hk |- *. by rewrite <-Hk.
    + intros Hin. apply list_elem_of_fmap. by eexists (_, _).
  - rewrite Hp. unfold jm_values. rewrite <-list_fmap_compose. apply NoDup_fmap_2_strong with (f := _); [|by eapply NoDup_fmap_1].
    intros [k r] [k' r'] Hin Hin' [= Ht Hi]. f_equal; [apply Hkeys in Hin, Hin'; cbn in *; congruence|].
    apply Hkeys in Hin as Hk, Hin' as Hk'. cbn in Hk, Hk'. rewrite Ht, Hi, <-Hk' in Hk. subst k.
    apply jm_get_elem in Hin, Hin'; [congruence|done..].
  - intros later. unfold foldJobScheduleDefinitionsFrom, foldJobScheduleDefinitions, foldJobScheduleDefinitionsFrom. cbn [fmap option_fmap option_map default].
    f_equal; [apply last_sequence_app|by rewrite foldl_app].
Qed.

Lemma fold_override_wf overrides event : jm_wf overrides → jm_wf (fold_override overrides event).
Proof. intros Hwf. unfold fold_override. destruct (e_payload event); try done; by (apply jm_wf_set || apply jm_wf_delete). Qed.

Lemma overrides_said events overrides scheduleId : jm_wf overrides →
  (jm_get scheduleId (foldl fold_override overrides events) ≫= jso_enabled) = foldl (enabled_said scheduleId) (jm_get scheduleId overrides ≫= jso_enabled) events ∧
  (jm_get scheduleId (foldl fold_override overrides events) ≫= jso_pausedUntil) = foldl (pause_said scheduleId) (jm_get scheduleId overrides ≫= jso_pausedUntil) events.
Proof.
  revert overrides. induction events as [|event events IH]; intros overrides Hwf; [done|]. cbn [foldl].
  destruct (IH (fold_override overrides event) (fold_override_wf _ _ Hwf)) as [-> ->].
  unfold fold_override, enabled_said, pause_said. destruct (e_payload event) eqn:E; try done.
  all: rewrite ?jm_get_set, ?jm_get_delete by done; case_bool_decide as Hb; [subst; by rewrite decide_True|by rewrite decide_False by congruence].
Qed.

(** Whether a schedule of the configuration is enabled. *)
Lemma enabled_in_force `{TimeHost} {F J} (schedule : JobSchedule F) index tenantId scheduleId events (registry : JobRegistry J) canDispatch now :
  jsd_id schedule = Some scheduleId → staticJobScheduleTenantId schedule = Some tenantId → isDynamicJobScheduleValue (jsd_enabled schedule) = false →
  let summary := jobScheduleSummaryFor schedule index (foldJobScheduleOverrides tenantId events) registry true canDispatch now Configured in
  let paused := match foldl (pause_said scheduleId) None events with Some until => time_after until now | None => false end in
  sum_enabled summary = default (sum_configuredEnabled summary) (foldl (enabled_said scheduleId) None events) && negb paused ∧
  (jsd_enabled (effectiveJobSchedule schedule summary) = Some (StaticValue (sum_enabled summary)) ∨
   jsd_enabled schedule = None ∧ sum_enabled summary = true ∧ effectiveJobSchedule schedule summary = schedule).
Proof.
  intros Hid Ht Hd summary paused.
  assert (isDynamicJobScheduleValue (jsd_tenantId schedule) = false) as Hdt.
  { unfold staticJobScheduleTenantId in Ht. by destruct (jsd_tenantId schedule) as [[]|]. }
  destruct (overrides_said events [] scheduleId jm_wf_nil) as [He Hp]. cbn [mbind option_bind jm_get list_find fmap option_fmap option_map] in He, Hp.
  assert (summary = planJobScheduleSummary scheduleId (jsd_cron schedule) (jsd_jobName schedule) Configured true
    (sum_configuredEnabled summary) true canDispatch (has_job registry (jsd_jobName schedule)) now (dynamicJobScheduleFields schedule)
    (match get_job registry (jsd_jobName schedule) with Ok definition => Some (jd_description definition, jd_retry definition) | Throw _ => None end)
    (jm_get scheduleId (foldl fold_override [] events)) (jsd_delaySeconds schedule) (Some tenantId)) as Hsum.
  { unfold summary, jobScheduleSummaryFor, jobScheduleIdentity. rewrite Ht, Hid. 
    change (jos_tenantId (foldJobScheduleOverrides tenantId events)) with tenantId.
    rewrite (bool_decide_eq_true_2 (Some tenantId = Some tenantId)) by done. by rewrite (bool_decide_eq_true_2 (is_Some (Some scheduleId))). }
  assert (sum_enabled summary = default (sum_configuredEnabled summary) (foldl (enabled_said scheduleId) None events) && negb paused ∧
    sum_overridden summary = bool_decide (is_Some (foldl (enabled_said scheduleId) None events)) || paused) as [Hen Hov].
  { rewrite Hsum. unfold planJobScheduleSummary. cbn [dyn_tenantId dyn_enabled dynamicJobScheduleFields sum_enabled sum_overridden sum_configuredEnabled].
    rewrite Hdt, Hd. rewrite (bool_decide_eq_true_2 (Configured = Configured)) by done. cbn [andb negb]. rewrite He, Hp. done. }
  split; [done|]. unfold effectiveJobSchedule. destruct (sum_overridden summary) eqn:Eo; [by left|]. cbn [negb].
  symmetry in Hov. apply orb_false_iff in Hov as [Hnone Hpaused]. rewrite Hpaused in Hen. apply bool_decide_eq_false in Hnone.
  destruct (foldl (enabled_said scheduleId) None events) as [|]; [by destruct Hnone|]. cbn [default from_option negb] in Hen. rewrite andb_true_r in Hen.
  assert (sum_configuredEnabled summary = match jsd_enabled schedule with Some (StaticValue false) => false | _ => true end) as Hc by done.
  rewrite Hc in Hen. destruct (jsd_enabled schedule) as [[[]|]|]; [left; by rewrite Hen..|done|by right].
Qed.

(** C14: Whether a schedule of the configuration runs, as its summary says: it is enabled
    when the last override of it since the last clearing enables it - or, without one, its
    configuration does - unless its last pause since the last clearing is still in the
    future; so a pause ends by itself and leaves the override that was set before it. *)
Theorem schedule_enabled_exact `{TimeHost} {F J} (schedule : JobSchedule F) index tenantId scheduleId events (registry : JobRegistry J) canDispatch now :
  jsd_id schedule = Some scheduleId → staticJobScheduleTenantId schedule = Some tenantId → isDynamicJobScheduleValue (jsd_enabled schedule) = false →
  let summary := jobScheduleSummaryFor schedule index (foldJobScheduleOverrides tenantId events) registry true canDispatch now Configured in
  let paused := match foldl (pause_said scheduleId) None events with Some until => time_after until now | None => false end in
  sum_enabled summary = default (sum_configuredEnabled summary) (foldl (enabled_said scheduleId) None events) && negb paused ∧
  (jsd_enabled (effectiveJobSchedule schedule summary) = Some (StaticValue (sum_enabled summary)) ∨
   jsd_enabled schedule = None ∧ sum_enabled summary = true ∧ effectiveJobSchedule schedule summary = schedule).
Proof. apply enabled_in_force. Qed.

(** ** Witness: a schedule that is enabled and paused for a while *)

Definition sample_time : TimeHost := {| parse_time := λ s, Some (Z.of_nat (length s)); iso_time := λ t, replicate (Z.to_nat t) 49%N |}.
Definition sample_schedule : JobSchedule (λ A, A) :=
  {| jsd_id := Some (js "nightly"); jsd_cron := js "0 0 * * *"; jsd_jobName := js "report"; jsd_enabled := Some (StaticValue false);
     jsd_tenantId := None; jsd_payload := None; jsd_metadata := None; jsd_idempotencyKey := None; jsd_delaySeconds := None |}.
Definition sample_schedule_event (sequence : Z) (p : payload) : DomainEvent :=
  {| e_new := jobScheduleEvent (js "s") (js "overrides") (js "evt") DEFAULT_TENANT_ID (js "root") (js "t") [] p; e_sequence := sequence |}.
Definition sample_override_events : list DomainEvent :=
  [sample_schedule_event 1 (PJobScheduleOverrideSet (js "nightly") true); sample_schedule_event 2 (PJobSchedulePaused (js "nightly") (js "tttt"))].
Definition sample_schedule_summary (now : jstr) : JobScheduleSummary :=
  @jobScheduleSummaryFor (λ A, A) sample_time unit sample_schedule 0 (foldJobScheduleOverrides DEFAULT_TENANT_ID sample_override_events)
    {| jr_jobs := []; jr_pools := [] |} true true now Configured.

Lemma schedule_enabled_exact_witness :
  sum_enabled (sample_schedule_summary (js "tt")) = false ∧ sum_enabled (sample_schedule_summary (js "tttttt")) = true ∧
  jsd_enabled (effectiveJobSchedule sample_schedule (sample_schedule_summary (js "tttttt"))) = Some (StaticValue true).
Proof.
  assert (∀ now, let paused := match foldl (pause_said (js "nightly")) None sample_override_events with
      Some until => @time_after sample_time until now | None => false end in
    sum_enabled (sample_schedule_summary now) = default (sum_configuredEnabled (sample_schedule_summary now))
      (foldl (enabled_said (js "nightly")) None sample_override_events) && negb paused ∧
    (jsd_enabled (effectiveJobSchedule sample_schedule (sample_schedule_summary now)) = Some (StaticValue (sum_enabled (sample_schedule_summary now))) ∨
     jsd_enabled sample_schedule = None ∧ sum_enabled (sample_schedule_summary now) = true ∧
     effectiveJobSchedule sample_schedule (sample_schedule_summary now) = sample_schedule)) as Hw.
  { intros now. exact (@schedule_enabled_exact sample_time (λ A, A) unit sample_schedule 0 DEFAULT_TENANT_ID (js "nightly") sample_override_events
      {| jr_jobs := []; jr_pools := [] |} true now eq_refl eq_refl eq_refl). }
  split; [rewrite (proj1 (Hw (js "tt"))); reflexivity|]. split; [rewrite (proj1 (Hw (js "tttttt"))); reflexivity|].
  destruct (proj2 (Hw (js "tttttt"))) as [Hd|[Hd _]]; [|discriminate Hd]. rewrite Hd, (proj1 (Hw (js "tttttt"))). reflexivity.
Defined.
