(* ===== verification/JobScheduleService.v ===== *)
(** * JobScheduleService: the service of job schedules and the dispatch of scheduled jobs

    Models [application/job-schedule-service.ts] over the streams of the document store,
    which are the resources of the jobs here, and [cloudflare/scheduled-jobs.ts] with the
    parts of [cloudflare/app.ts] that connect them: the runner of a manual dispatch and the
    handler of a cron trigger.  Other clients may act at each [await]. *)

From S2P Require Export JobSchedules.

(** ** Scheduled jobs *)

(** [ScheduledJobContext] without its [env], which is part of the functions. *)
Record ScheduledJobContext := { sjc_cron : jstr; sjc_scheduledTime : Z; sjc_scheduledAt : jstr }.

(** The functions that a schedule may have for values. *)
Definition ScheduleFunction (A : Type) : Type := ScheduledJobContext → JobCall DocumentStore A.
Abbreviation Schedule := (JobSchedule ScheduleFunction).

(** [JobScheduleServiceOptions]: whether there are a runner and an event store, the roles,
    and the cron triggers that the constructor normalizes. *)
Record JobScheduleServiceOptions := {
  jsv_schedules : list Schedule;
  jsv_runner : bool;
  jsv_events : bool;
  jsv_adminRoles : list jstr;
  jsv_runtimeCronTriggers : option (list jstr)
}.
Definition new_schedule_service (schedules : list Schedule) (runner events : bool) (adminRoles : option (list jstr))
    (runtimeCronTriggers : option (list jstr)) : res JobScheduleServiceOptions :=
  triggers ← optional (map_res normalizeJobScheduleText) runtimeCronTriggers;
  _ ← ensureUniqueJobScheduleIds schedules;
  Ok {| jsv_schedules := schedules; jsv_runner := runner; jsv_events := events; jsv_adminRoles := default [SYSTEM_MANAGER_ROLE] adminRoles;
        jsv_runtimeCronTriggers := triggers |}.

(** The streams as the resources of jobs. *)
Definition on_resources {R A} (m : M R A) : M (JobStore R) A := λ s,
  let (r, resources) := m (jst_resources s) in
  (r, {| jst_records := jst_records s; jst_queue := jst_queue s; jst_resources := resources |}).

Definition plain_failure : error := FrameworkError PLAIN_ERROR 500.

(** What the handler of a cron trigger answers: what it sent, or that the trigger is not
    tried again. *)
Inductive ScheduledOutcome := ScheduledSent (messages : list JobMessage) | ScheduledNoRetry.

Section schedules.
Context `{TimeHost} `{Collation} (ids clock : nat → jstr).
Context (env : nat → JobStore DocumentStore → JobStore DocumentStore).
Context (registry : JobRegistry (JobHandler DocumentStore)).
Abbreviation Call := (JobCall DocumentStore).

(** [resolveValue(value, context, fallback)] and [isScheduleEnabled(schedule, context)]. *)
Definition resolveValue {A} (v : option (ScheduleValue ScheduleFunction A)) (context : ScheduledJobContext) (fallback : A) : Call A :=
  match v with
  | None => mret fallback
  | Some (StaticValue v) => mret v
  | Some (DynamicValue f) => f context
  end.
Definition isScheduleEnabled (schedule : Schedule) (context : ScheduledJobContext) : Call bool := resolveValue (jsd_enabled schedule) context true.

(** A value with no fallback ([undefined]). *)
Definition resolve_optional {A} (v : option (ScheduleValue ScheduleFunction A)) (context : ScheduledJobContext) : Call (option A) :=
  match v with
  | None => mret None
  | Some (StaticValue v) => mret (Some v)
  | Some (DynamicValue f) => v ← f context; mret (Some v)
  end.

(** The key of a run that has none of its own, and the metadata of a run. *)
Definition scheduled_key (idempotencyPrefix : jstr) (context : ScheduledJobContext) (jobName : jstr) : jstr :=
  idempotencyPrefix ++ js ":" ++ sjc_cron context ++ js ":" ++ dec_Z (sjc_scheduledTime context) ++ js ":" ++ jobName.
Definition scheduled_metadata (metadata extra : data) (context : ScheduledJobContext) (idempotencyPrefix : jstr) : data :=
  jm_spread (jm_spread metadata extra)
    [(js "cron", VStr (sjc_cron context)); (js "scheduledTime", vint (sjc_scheduledTime context));
     (js "scheduledAt", VStr (sjc_scheduledAt context)); (js "dispatchSource", VStr idempotencyPrefix)].

(** [dispatchCommand(schedule, context, options)]. *)
Definition dispatchCommand (schedule : Schedule) (context : ScheduledJobContext) (idempotencyPrefix : option jstr) (extra : option data)
    : Call DispatchJobCommand :=
  payload ← resolveValue (jsd_payload schedule) context [];
  tenantId ← resolve_optional (jsd_tenantId schedule) context;
  metadata ← resolveValue (jsd_metadata schedule) context [];
  let idempotencyPrefix := default (js "scheduled") idempotencyPrefix in
  idempotencyKey ← match jsd_idempotencyKey schedule with
    | None => mret (scheduled_key idempotencyPrefix context (jsd_jobName schedule))
    | key => resolveValue key context []
    end;
  mret {| djc_tenantId := tenantId; djc_jobName := jsd_jobName schedule; djc_payload := payload; djc_idempotencyKey := Some idempotencyKey;
          djc_metadata := Some (scheduled_metadata metadata (default [] extra) context idempotencyPrefix);
          djc_delaySeconds := jsd_delaySeconds schedule |}.

(** [dispatchEnabledScheduledJob(options)]. *)
Definition dispatchEnabledScheduledJob (schedule : Schedule) (context : ScheduledJobContext) (idempotencyPrefix : option jstr) (extra : option data)
    : Call JobMessage :=
  command ← dispatchCommand schedule context idempotencyPrefix extra;
  dispatch ids clock env registry command.

(** [dispatchScheduledJobs(options)]: the loop, and the call. *)
Fixpoint dispatch_schedules (context : ScheduledJobContext) (schedules : list Schedule) : Call (list JobMessage) :=
  match schedules with
  | [] => mret []
  | schedule :: schedules =>
      enabled ← isScheduleEnabled schedule context;
      if negb enabled then dispatch_schedules context schedules
      else
        message ← dispatchEnabledScheduledJob schedule context None None;
        messages ← dispatch_schedules context schedules;
        mret (message :: messages)
  end.
Definition scheduled_context (cron : jstr) (scheduledTime : Z) : ScheduledJobContext :=
  {| sjc_cron := cron; sjc_scheduledTime := scheduledTime; sjc_scheduledAt := iso_time scheduledTime |}.
Definition dispatchScheduledJobs (cron : jstr) (scheduledTime : Z) (schedules : list Schedule) : Call (list JobMessage) :=
  dispatch_schedules (scheduled_context cron scheduledTime) (filter (λ schedule, jsd_cron schedule = cron) schedules).

(** [dispatchScheduledJob(options)], and the runner of a manual dispatch that calls it. *)
Definition dispatchScheduledJob (cron : jstr) (scheduledTime : Z) (schedule : Schedule) (idempotencyPrefix : option jstr) (extra : option data)
    : Call JobMessage :=
  let context := scheduled_context cron scheduledTime in
  enabled ← isScheduleEnabled schedule context;
  _ ← m_ensure enabled badRequest;
  dispatchEnabledScheduledJob schedule context idempotencyPrefix extra.
Definition run_manually (schedule : Schedule) (actor : Actor) : Call JobMessage :=
  dispatchedAt ← now clock;
  match parse_time dispatchedAt with
  | None => m_throw plain_failure
  | Some scheduledTime =>
      dispatchScheduledJob (jsd_cron schedule) scheduledTime schedule (Some (js "manual"))
        (Some [(js "dispatchSource", VStr (js "manual")); (js "dispatchedBy", VStr (actor_id actor)); (js "dispatchedAt", VStr dispatchedAt)])
  end.

(** ** The service *)

Context (options : JobScheduleServiceOptions).

Definition schedule_read_options (kinds : list jstr) : ReadStreamOptions :=
  {| rso_minSequence := None; rso_maxSequence := None; rso_limit := None; rso_payloadKinds := Some kinds |}.
Definition read_schedules (stream : jstr) (kinds : list jstr) : Call (list DomainEvent) :=
  observe env (λ s, readStream (st_streams (jst_resources s)) stream (schedule_read_options kinds)).

(** [overrideState(tenantId)] and [definitionState()]. *)
Definition overrideState (tenantId : jstr) : Call JobScheduleOverrideState :=
  if negb (jsv_events options) then mret {| jos_tenantId := tenantId; jos_version := 0; jos_overrides := [] |}
  else
    stream ← m_lift (jobScheduleOverridesStream tenantId);
    events ← read_schedules stream JOB_SCHEDULE_OVERRIDE_PAYLOAD_KINDS;
    mret (foldJobScheduleOverrides tenantId events).
Definition definitionState : Call JobScheduleDefinitionState :=
  if negb (jsv_events options) then mret {| jdf_version := 0; jdf_schedules := [] |}
  else
    stream ← m_lift jobScheduleDefinitionsStream;
    events ← read_schedules stream JOB_SCHEDULE_DEFINITION_PAYLOAD_KINDS;
    mret (foldJobScheduleDefinitions events).

(** [summaryFor(schedule, index, overrides, source)]. *)
Definition summaryFor (schedule : Schedule) (index : nat) (overrides : JobScheduleOverrideState) (source : ScheduleSource) : Call JobScheduleSummary :=
  at_ ← now clock;
  mret (jobScheduleSummaryFor schedule index overrides registry (jsv_events options) (jsv_runner options) at_ source).

(** [authorize(actor, explicitTenantId)], [requireOverrides()] and [requireDefinitions()]. *)
Definition authorize_schedules (actor : Actor) (explicitTenantId : option jstr) : Call jstr :=
  m_lift (planJobScheduleAccess actor (jsv_adminRoles options) explicitTenantId).
Definition require_events : Call unit := m_ensure (jsv_events options) schedule_not_found.

(** [requireSchedule(scheduleId, tenantId)]. *)
Definition configured_schedule (scheduleId : jstr) : option (nat * Schedule) :=
  list_find (λ entry, jobScheduleIdentity entry.2 entry.1 = scheduleId) (imap pair (jsv_schedules options)) ≫= λ found, Some found.2.
Definition requireSchedule (scheduleId tenantId : jstr) : Call (Schedule * nat * JobScheduleSummary) :=
  match configured_schedule scheduleId with
  | None =>
      definitions ← definitionState;
      match runtimeJobScheduleForTenant definitions tenantId scheduleId with
      | None => m_throw schedule_not_found
      | Some runtime =>
          let runtimeIndex := runtimeJobScheduleIndex definitions tenantId (rjs_id runtime) in
          overrides ← overrideState tenantId;
          summary ← summaryFor (runtime_schedule runtime) runtimeIndex overrides Runtime;
          mret (runtime_schedule runtime, runtimeIndex, summary)
      end
  | Some (index, schedule) =>
      overrides ← overrideState tenantId;
      summary ← summaryFor schedule index overrides Configured;
      mret (schedule, index, summary)
  end.

(** [requireOverrideableSchedule(actor, scheduleId, explicitTenantId)]. *)
Definition requireOverrideableSchedule (actor : Actor) (scheduleId : jstr) (explicitTenantId : option jstr)
    : Call (jstr * Schedule * nat * JobScheduleSummary * JobScheduleOverrideState) :=
  tenantId ← authorize_schedules actor explicitTenantId;
  _ ← require_events;
  found ← requireSchedule scheduleId tenantId;
  let '(schedule, index, summary) := found in
  _ ← m_lift (planJobScheduleOverride tenantId summary (bool_decide (is_Some (jsd_id schedule))));
  state ← overrideState tenantId;
  mret (tenantId, schedule, index, summary, state).

(** The event that a command makes, and its append. *)
Definition append_schedule_event (stream documentName tenantId : jstr) (actor : Actor) (metadata : option data) (version : Z) (p : payload) : Call unit :=
  id ← next_id ids;
  occurredAt ← now clock;
  _ ← update env (on_resources (on_streams (EventStore.append stream version
    [jobScheduleEvent stream documentName id tenantId (actor_id actor) occurredAt (default [] metadata) p])));
  mret tt.

(** The override that [setEnabled], [pause] and [clearOverride] write, and the summary that
    follows. *)
Definition write_override (tenantId : jstr) (actor : Actor) (metadata : option data) (version : Z) (p : payload) (schedule : Schedule) (index : nat)
    : Call JobScheduleSummary :=
  stream ← m_lift (jobScheduleOverridesStream tenantId);
  _ ← append_schedule_event stream (js "overrides") tenantId actor metadata version p;
  state ← overrideState tenantId;
  summaryFor schedule index state Configured.

(** [setEnabled(command)], of [enable] and [disable]. *)
Definition setEnabled (actor : Actor) (scheduleId : jstr) (enabled : bool) (tenantId : option jstr) (metadata : option data) : Call JobScheduleSummary :=
  found ← requireOverrideableSchedule actor scheduleId tenantId;
  let '(tenantId, schedule, index, summary, state) := found in
  let current := jm_get (sum_id summary) (jos_overrides state) in
  if negb (planJobScheduleEnabledOverride (current ≫= jso_enabled) (sum_configuredEnabled summary) enabled)
  then summaryFor schedule index state Configured
  else write_override tenantId actor metadata (jos_version state) (PJobScheduleOverrideSet (sum_id summary) enabled) schedule index.

(** [pause(actor, scheduleId, command)]. *)
Definition pause (actor : Actor) (scheduleId pausedUntil : jstr) (tenantId : option jstr) (metadata : option data) : Call JobScheduleSummary :=
  found ← requireOverrideableSchedule actor scheduleId tenantId;
  let '(tenantId, schedule, index, summary, state) := found in
  at_ ← now clock;
  pausedUntil ← m_lift (normalizeJobSchedulePauseUntil pausedUntil at_);
  let current := jm_get (sum_id summary) (jos_overrides state) in
  if negb (planJobSchedulePauseOverride (current ≫= jso_pausedUntil) pausedUntil at_)
  then summaryFor schedule index state Configured
  else write_override tenantId actor metadata (jos_version state) (PJobSchedulePaused (sum_id summary) pausedUntil) schedule index.

(** [clearOverride(actor, scheduleId, command)]. *)
Definition clearOverride (actor : Actor) (scheduleId : jstr) (tenantId : option jstr) (metadata : option data) : Call JobScheduleSummary :=
  found ← requireOverrideableSchedule actor scheduleId tenantId;
  let '(tenantId, schedule, index, summary, state) := found in
  if negb (jm_has (sum_id summary) (jos_overrides state)) then summaryFor schedule index state Configured
  else write_override tenantId actor metadata (jos_version state) (PJobScheduleOverrideCleared (sum_id summary)) schedule index.

(** [save(actor, command)]. *)
Definition save_schedule (actor : Actor) (command : SaveJobScheduleCommand) : Call JobScheduleSummary :=
  tenantId ← authorize_schedules actor (sjs_tenantId command);
  _ ← require_events;
  state ← definitionState;
  existing ← m_lift (match sjs_id command with
    | None => Ok None
    | Some id => id ← normalizeJobScheduleId id; Ok (runtimeJobScheduleForTenant state tenantId id)
    end);
  generatedId ← match sjs_id command with Some id => mret id | None => next_id ids end;
  normalized ← m_lift (normalizeJobScheduleRuntimeDefinition command tenantId generatedId);
  let schedule := mergePreservedJobScheduleRuntimeFields command normalized existing in
  _ ← m_lift (ensureJobScheduleRuntimeCronTriggerConfigured (rjs_cron schedule) (jsv_runtimeCronTriggers options));
  _ ← m_lift (planJobScheduleDefinitionSave (bool_decide (rjs_id schedule ∈ configuredJobScheduleIds (jsv_schedules options)))
        (has_job registry (rjs_jobName schedule)));
  stream ← m_lift jobScheduleDefinitionsStream;
  _ ← append_schedule_event stream (js "definitions") tenantId actor (sjs_eventMetadata command) (jdf_version state)
        (jobScheduleSavedPayload tenantId schedule);
  updated ← definitionState;
  saved ← m_lift (requireSavedRuntimeJobSchedule updated tenantId (rjs_id schedule));
  overrides ← overrideState tenantId;
  summaryFor (runtime_schedule saved) (runtimeJobScheduleIndex updated tenantId (rjs_id saved)) overrides Runtime.

(** [{ ...schedule, deleted: true, enabled: false, configuredEnabled: false, dispatchable: false }]. *)
Definition deleted_summary (s : JobScheduleSummary) : JobScheduleSummary :=
  {| sum_id := sum_id s; sum_cron := sum_cron s; sum_jobName := sum_jobName s; sum_source := sum_source s; sum_editable := sum_editable s;
     sum_deleted := true; sum_enabled := false; sum_configuredEnabled := false; sum_overridden := sum_overridden s;
     sum_overrideEnabled := sum_overrideEnabled s; sum_pausedUntil := sum_pausedUntil s; sum_overrideUpdatedAt := sum_overrideUpdatedAt s;
     sum_overrideUpdatedBy := sum_overrideUpdatedBy s; sum_overrideable := sum_overrideable s; sum_registered := sum_registered s;
     sum_dispatchable := false; sum_description := sum_description s; sum_retry := sum_retry s; sum_delaySeconds := sum_delaySeconds s;
     sum_tenantId := sum_tenantId s; sum_dynamic := sum_dynamic s |}.

(** [delete(actor, scheduleId, command)]. *)
Definition delete_schedule (actor : Actor) (scheduleId : jstr) (tenantId : option jstr) (metadata : option data) : Call JobScheduleSummary :=
  tenantId ← authorize_schedules actor tenantId;
  _ ← require_events;
  state ← definitionState;
  let current := runtimeJobScheduleForTenant state tenantId scheduleId in
  _ ← m_lift (planJobScheduleDefinitionDelete (bool_decide (scheduleId ∈ configuredJobScheduleIds (jsv_schedules options)))
        (bool_decide (is_Some current)));
  match current with
  | None => m_throw plain_failure
  | Some current =>
      stream ← m_lift jobScheduleDefinitionsStream;
      _ ← append_schedule_event stream (js "definitions") tenantId actor metadata (jdf_version state) (PJobScheduleDeleted scheduleId tenantId);
      overrides ← overrideState tenantId;
      summary ← summaryFor (runtime_schedule current) (runtimeJobScheduleIndex state tenantId (rjs_id current)) overrides Runtime;
      mret (deleted_summary summary)
  end.

(** [dashboard(actor, query)], where the empty string asks for nothing. *)
Definition schedule_dashboard (actor : Actor) (cron jobName : option jstr) : Call (list JobScheduleSummary) :=
  tenantId ← authorize_schedules actor None;
  overrides ← overrideState tenantId;
  definitions ← definitionState;
  at_ ← now clock;
  mret (filter (λ summary, canInspectJobSchedule summary tenantId && asked (history_filter cron) (sum_cron summary) &&
      asked (history_filter jobName) (sum_jobName summary) = true)
    (jobScheduleSummaries (jsv_schedules options) definitions overrides registry (jsv_events options) (jsv_runner options) at_)).

(** [dispatch(actor, scheduleId)]. *)
Definition dispatch_schedule (actor : Actor) (scheduleId : jstr) : Call (JobScheduleSummary * JobMessage) :=
  tenantId ← authorize_schedules actor None;
  _ ← m_ensure (jsv_runner options) schedule_not_found;
  found ← requireSchedule scheduleId tenantId;
  let '(schedule, _, summary) := found in
  _ ← m_lift (planJobScheduleDispatch tenantId summary);
  message ← run_manually (effectiveJobSchedule schedule summary) actor;
  mret (summary, message).

(** The override state of a tenant that [schedulesForCron] keeps for the schedules after. *)
Definition remembered_state (states : list (jstr * JobScheduleOverrideState)) (tenantId : jstr)
    : Call (JobScheduleOverrideState * list (jstr * JobScheduleOverrideState)) :=
  match jm_get tenantId states with
  | Some state => mret (state, jm_set tenantId state states)
  | None => state ← overrideState tenantId; mret (state, jm_set tenantId state states)
  end.

(** [schedulesForCron(cron)]: the loop over the configured schedules, that over those of
    the runtime, and the call. *)
Fixpoint configured_for_cron (cron : jstr) (schedules : list (nat * Schedule)) (states : list (jstr * JobScheduleOverrideState))
    : Call (list Schedule * list (jstr * JobScheduleOverrideState)) :=
  match schedules with
  | [] => mret ([], states)
  | (index, schedule) :: schedules =>
      if negb (bool_decide (jsd_cron schedule = cron)) then configured_for_cron cron schedules states
      else match staticJobScheduleTenantId schedule with
      | None => rest ← configured_for_cron cron schedules states; mret (schedule :: rest.1, rest.2)
      | Some tenantId =>
          remembered ← remembered_state states tenantId;
          summary ← summaryFor schedule index remembered.1 Configured;
          rest ← configured_for_cron cron schedules remembered.2;
          mret (effectiveJobSchedule schedule summary :: rest.1, rest.2)
      end
  end.
Fixpoint runtime_for_cron (cron : jstr) (schedules : list (nat * RuntimeJobScheduleRecord)) (states : list (jstr * JobScheduleOverrideState))
    : Call (list Schedule) :=
  match schedules with
  | [] => mret []
  | (index, schedule) :: schedules =>
      if negb (bool_decide (rjs_cron schedule = cron)) then runtime_for_cron cron schedules states
      else
        remembered ← remembered_state states (rjs_tenantId schedule);
        summary ← summaryFor (runtime_schedule schedule) (length (jsv_schedules options) + index) remembered.1 Runtime;
        rest ← runtime_for_cron cron schedules remembered.2;
        mret (effectiveJobSchedule (runtime_schedule schedule) summary :: rest)
  end.
Definition schedulesForCron (cron : jstr) : Call (list Schedule) :=
  configured ← configured_for_cron cron (imap pair (jsv_schedules options)) [];
  definitions ← definitionState;
  runtime ← runtime_for_cron cron (imap pair (runtimeJobSchedules definitions)) configured.2;
  mret (configured.1 ++ runtime).

(** The handler of a cron trigger. *)
Definition handle_scheduled (cron : jstr) (scheduledTime : Z) : Call ScheduledOutcome :=
  catching
    (schedules ← schedulesForCron cron;
     messages ← dispatchScheduledJobs cron scheduledTime schedules;
     mret (match messages with [] => ScheduledNoRetry | _ => ScheduledSent messages end))
    (λ e, if (err_status e <? 500)%Z then mret ScheduledNoRetry else m_throw e).
End schedules.
