(* ===== verification/JobScheduleRuns.v ===== *)
(** * JobScheduleRuns: what administrators set is what a cron trigger does

    Theorems on the service of job schedules: what a command on a schedule of the
    configuration leaves in the stream of overrides, what a trigger resolves from it and
    sends, and which runs share a key. *)

From S2P Require Export JobScheduleService.

Lemma Forall2_impl_elem {A B} (P Q : A → B → Prop) l k : Forall2 P l k → (∀ x y, x ∈ l → P x y → Q x y) → Forall2 Q l k.
Proof.
  induction 1 as [|x y l k Hxy _ IH]; intros HPQ; constructor; [apply HPQ; [by left|done]|]. apply IH. intros x' y' Hin. apply HPQ. by right.
Qed.

(** ** Reading the schedules *)

Definition schedule_streams (s : JobStore DocumentStore) : streams_map := st_streams (jst_resources s).

(** The stream of a store that is well formed. *)
Definition holds (stream : jstr) (events : list DomainEvent) (c : Client (JobStore DocumentStore)) : Prop :=
  wf_streams (schedule_streams (cl_store c)) ∧ stream_events (schedule_streams (cl_store c)) stream = events.

(** Other clients keep the streams well formed and let one stream be. *)
Definition others_let (env : nat → JobStore DocumentStore → JobStore DocumentStore) (stream : jstr) : Prop := ∀ k s,
  wf_streams (schedule_streams s) →
  wf_streams (schedule_streams (env k s)) ∧ stream_events (schedule_streams (env k s)) stream = stream_events (schedule_streams s) stream.

(** The overrides that the events of the stream say, whatever else is in it. *)
Lemma fold_override_selected events overrides :
  foldl fold_override overrides (selected (schedule_read_options JOB_SCHEDULE_OVERRIDE_PAYLOAD_KINDS) events) = foldl fold_override overrides events.
Proof.
  revert overrides. induction events as [|event events IH]; intros overrides; [done|]. unfold selected. rewrite filter_cons.
  destruct (decide _) as [Hm|Hm]; cbn [foldl]; [apply IH|]. fold (selected (schedule_read_options JOB_SCHEDULE_OVERRIDE_PAYLOAD_KINDS) events).
  rewrite IH. f_equal. unfold fold_override. destruct (e_payload event) eqn:E; try done; exfalso; apply Hm;
    unfold read_matches, domainEventPayloadKind; rewrite E; by vm_compute.
Qed.

Section reading.
Context `{TimeHost} `{Collation} (ids clock : nat → jstr).
Context (env : nat → JobStore DocumentStore → JobStore DocumentStore).
Context (registry : JobRegistry (JobHandler DocumentStore)) (options : JobScheduleServiceOptions).
Context (tenantId stream : jstr) (Hstream : jobScheduleOverridesStream tenantId = Ok stream).
Context (Hothers : others_let env stream) (Hevents : jsv_events options = true).

Lemma holds_await events c : holds stream events c → holds stream events (awaited env c).2.
Proof using Hothers. intros [Hwf He]. unfold holds. cbn. destruct (Hothers (cl_tick c) (cl_store c) Hwf) as [? ->]. done. Qed.

Lemma override_state_run events c : holds stream events c → ∃ state c1, overrideState env options tenantId c = (Ok state, c1) ∧ holds stream events c1 ∧
  jos_tenantId state = tenantId ∧ jos_overrides state = foldl fold_override [] events.
Proof using Hstream Hothers Hevents.
  intros Hc. apply holds_await in Hc as Hc1. unfold overrideState. rewrite Hevents. cbn [negb]. rewrite m_bind_run. unfold m_lift. rewrite Hstream.
  rewrite m_bind_run. unfold read_schedules, observe. rewrite m_bind_run. destruct Hc1 as [Hwf He].
  set (c1 := (awaited env c).2) in *. change (awaited env c) with (Ok tt, c1). cbv iota beta. rewrite m_bind_run. cbn [m_get].
  unfold m_lift. fold (schedule_streams (cl_store c1)). rewrite readStream_selected by done. rewrite He.
  eexists _, c1. split; [done|]. split; [by split|]. split; [done|]. unfold foldJobScheduleOverrides, foldJobScheduleOverridesFrom. cbn. apply fold_override_selected.
Qed.

(** ** Commands *)

(** An event that a command appends is the last one of the stream. *)
Lemma append_event_run documentName actor metadata version p events c c' :
  holds stream events c → append_schedule_event ids clock env stream documentName tenantId actor metadata version p c = (Ok tt, c') →
  ∃ saved : DomainEvent, e_payload saved = p ∧ holds stream (events ++ [saved]) c'.
Proof using Hothers.
  intros Hc Ha. unfold append_schedule_event in Ha. rewrite m_bind_run in Ha. cbn [next_id] in Ha. rewrite m_bind_run in Ha. cbn [now] in Ha.
  rewrite m_bind_run in Ha. unfold update in Ha. rewrite m_bind_run in Ha.
  set (c0 := {| cl_tick := cl_tick c; cl_ids := S (cl_ids c); cl_store := cl_store c |}) in Ha.
  assert (holds stream events c0) as Hc0 by exact Hc. apply holds_await in Hc0 as [Hwf He].
  set (c1 := (awaited env c0).2) in *. change (awaited env c0) with (Ok tt, c1) in Ha. cbv iota beta in Ha.
  unfold on_store, on_resources, on_streams in Ha. fold (schedule_streams (cl_store c1)) in Ha.
  set (event := jobScheduleEvent _ _ _ _ _ _ _ _) in Ha.
  destruct (EventStore.append stream version [event] (schedule_streams (cl_store c1))) as [r streams'] eqn:Es.
  assert (∀ ev, ev ∈ [event] → e_stream ev = stream) as Hs by (by intros ev ->%list_elem_of_singleton).
  pose proof (append_step _ _ _ _ _ _ Hwf Hs Es) as [Hwf' _].
  rewrite append_eq in Es. destruct (_ =? version)%Z; [|injection Es as <- <-; discriminate Ha].
  destruct (sequenceEvents version [event]) as [saved|e] eqn:Eq; injection Es as <- <-; [|discriminate Ha].
  injection Ha as <-. apply sequenceEvents_sequenced in Eq as [Hnew _]. destruct saved as [|saved [|]]; try done. injection Hnew as Hnew.
  exists saved. split; [by rewrite Hnew|]. split; [exact Hwf'|]. 
  change (stream_events (jm_set stream (stream_events (schedule_streams (cl_store c1)) stream ++ [saved]) (schedule_streams (cl_store c1))) stream = events ++ [saved]).
  by rewrite stream_events_set, decide_True, He.
Qed.

(** What the schedule of a command is. *)
Definition overrideable (scheduleId : jstr) (schedule : Schedule) : Prop :=
  jsd_id schedule = Some scheduleId ∧ staticJobScheduleTenantId schedule = Some tenantId ∧ isDynamicJobScheduleValue (jsd_enabled schedule) = false.
Definition configured_enabled (schedule : Schedule) : bool := match jsd_enabled schedule with Some (StaticValue false) => false | _ => true end.

Lemma configured_found scheduleId index (schedule : Schedule) : configured_schedule options scheduleId = Some (index, schedule) →
  jobScheduleIdentity schedule index = scheduleId ∧ jsv_schedules options !! index = Some schedule.
Proof using Type.
  unfold configured_schedule. intros ([i [j s]] & Hf & [= -> ->])%bind_Some. apply list_find_Some in Hf as (Hi & Hid & _). split; [done|].
  rewrite list_lookup_imap in Hi. apply fmap_Some in Hi as (s & Hs & [= -> ->]). done.
Qed.

Lemma require_schedule_run scheduleId schedule index summary events c c' : holds stream events c →
  requireSchedule clock env registry options scheduleId tenantId c = (Ok (schedule, index, summary), c') →
  sum_source summary = Runtime ∨
  configured_schedule options scheduleId = Some (index, schedule) ∧ holds stream events c' ∧
  ∃ state at_, jos_tenantId state = tenantId ∧
    summary = jobScheduleSummaryFor schedule index state registry (jsv_events options) (jsv_runner options) at_ Configured.
Proof using Hstream Hothers Hevents.
  intros Hc Hr. unfold requireSchedule in Hr. destruct (configured_schedule options scheduleId) as [[i s]|].
  - right. rewrite m_bind_run in Hr. destruct (override_state_run events c Hc) as (state & c1 & Hs & Hc1 & Ht & _). rewrite Hs in Hr.
    rewrite m_bind_run in Hr. unfold summaryFor in Hr. rewrite m_bind_run in Hr. cbn [now] in Hr. injection Hr as <- <- <- <-.
    split; [done|]. split; [done|]. by eexists _, _.
  - left. rewrite m_bind_run in Hr. destruct (definitionState env options c) as [[definitions|] c1]; [|done].
    destruct (runtimeJobScheduleForTenant definitions tenantId scheduleId) as [runtime|]; [|done]. cbv zeta in Hr. rewrite m_bind_run in Hr.
    destruct (overrideState env options tenantId c1) as [[state|] c2]; [|done]. rewrite m_bind_run in Hr. unfold summaryFor in Hr.
    rewrite m_bind_run in Hr. cbn [now] in Hr. injection Hr as <- <- <- <-. done.
Qed.

Lemma overrideable_run actor scheduleId explicit found events c c' :
  planJobScheduleAccess actor (jsv_adminRoles options) explicit = Ok tenantId → holds stream events c →
  requireOverrideableSchedule clock env registry options actor scheduleId explicit c = (Ok found, c') →
  ∃ schedule index summary state, found = (tenantId, schedule, index, summary, state) ∧ configured_schedule options scheduleId = Some (index, schedule) ∧
    overrideable scheduleId schedule ∧ sum_id summary = scheduleId ∧ sum_configuredEnabled summary = configured_enabled schedule ∧
    jos_overrides state = foldl fold_override [] events ∧ holds stream events c'.
Proof using Hstream Hothers Hevents.
  intros Ha Hc Hr. unfold requireOverrideableSchedule, authorize_schedules in Hr. rewrite Ha in Hr. rewrite m_bind_run in Hr. unfold m_lift at 1 in Hr.
  unfold require_events in Hr. rewrite Hevents in Hr. rewrite m_bind_run in Hr. cbn [m_ensure ensure m_lift] in Hr.
  rewrite m_bind_run in Hr. destruct (requireSchedule _ _ _ _ _ _ c) as [[[[schedule index] summary]|] c1] eqn:Eq; [|done].
  rewrite m_bind_run in Hr. unfold m_lift at 1 in Hr. destruct (planJobScheduleOverride tenantId summary _) as [[]|] eqn:Ep; [|done].
  unfold planJobScheduleOverride in Ep. apply bind_ok in Ep as (u1 & Hin%ensure_ok & Ep). apply bind_ok in Ep as (u2 & Hsource%ensure_ok & Ep).
  apply bind_ok in Ep as (u3 & Hdt%ensure_ok & Ep). apply bind_ok in Ep as (u4 & Hde%ensure_ok & Hid%ensure_ok).
  apply negb_true_iff in Hsource, Hdt, Hde. apply bool_decide_eq_false in Hsource. apply bool_decide_eq_true in Hid.
  apply (require_schedule_run _ _ _ _ events) in Eq as [?|(Hf & Hc1 & state1 & at_ & Ht & Hsum)]; [done| |done].
  rewrite m_bind_run in Hr. destruct (override_state_run events c1 Hc1) as (state & c2 & Hs & Hc2 & _ & Ho). rewrite Hs in Hr. injection Hr as <- <-.
  destruct (configured_found _ _ _ Hf) as [Hident _]. subst summary. unfold canInspectJobSchedule in Hin. rewrite Hdt in Hin. apply bool_decide_eq_true in Hin.
  exists schedule, index. eexists _, state. split; [done|]. split; [done|]. split_and!; [|exact Hident|done|done|done].
  split; [|split; [exact Hin|exact Hde]]. destruct Hid as [x Hx]. unfold jobScheduleIdentity in Hident. rewrite Hx in Hident |- *. cbn in Hident. by rewrite Hident.
Qed.

(** An event that is written, and the summary that follows, leave the stream with it. *)
Lemma write_override_run actor metadata version p schedule index summary events c c' : holds stream events c →
  write_override ids clock env registry options tenantId actor metadata version p schedule index c = (Ok summary, c') →
  ∃ saved : DomainEvent, e_payload saved = p ∧ holds stream (events ++ [saved]) c'.
Proof using Hstream Hothers Hevents.
  intros Hc Hw. unfold write_override in Hw. rewrite Hstream in Hw. rewrite m_bind_run in Hw. cbn [m_lift] in Hw. rewrite m_bind_run in Hw.
  destruct (append_schedule_event _ _ _ _ _ _ _ _ _ _ c) as [[[]|] c1] eqn:Ea; [|done].
  apply (append_event_run _ _ _ _ _ events) in Ea as (saved & Hp & Hc1); [|done]. exists saved. split; [done|].
  rewrite m_bind_run in Hw. destruct (override_state_run _ c1 Hc1) as (state & c2 & Hs & Hc2 & _). rewrite Hs in Hw.
  unfold summaryFor in Hw. rewrite m_bind_run in Hw. cbn [now] in Hw. by injection Hw as _ <-.
Qed.

Lemma set_enabled_run actor scheduleId target explicit metadata summary events c c' :
  planJobScheduleAccess actor (jsv_adminRoles options) explicit = Ok tenantId → holds stream events c →
  setEnabled ids clock env registry options actor scheduleId target explicit metadata c = (Ok summary, c') →
  ∃ schedule index events', configured_schedule options scheduleId = Some (index, schedule) ∧ overrideable scheduleId schedule ∧
    holds stream events' c' ∧ default (configured_enabled schedule) (foldl (enabled_said scheduleId) None events') = target ∧
    foldl (pause_said scheduleId) None events' = foldl (pause_said scheduleId) None events.
Proof using Hstream Hothers Hevents.
  intros Ha Hc Hr. unfold setEnabled in Hr. rewrite m_bind_run in Hr.
  destruct (requireOverrideableSchedule _ _ _ _ _ _ _ c) as [[found|] c1] eqn:Eq; [|done].
  apply (overrideable_run _ _ _ _ events) in Eq as (schedule & index & sum & state & -> & Hf & Ho & Hid & Hce & Hs & Hc1); [|done..].
  cbv zeta iota beta in Hr. rewrite Hid, Hce, Hs in Hr. destruct (overrides_said events [] scheduleId jm_wf_nil) as [He _].
  cbn [jm_get mbind option_bind] in He. rewrite He in Hr. unfold planJobScheduleEnabledOverride in Hr. rewrite negb_involutive in Hr.
  exists schedule, index. destruct (Bool.eqb _ _) eqn:Et.
  - apply Bool.eqb_prop in Et. exists events. split_and!; [done|done| |exact Et|done].
    unfold summaryFor in Hr. rewrite m_bind_run in Hr. cbn [now] in Hr. by injection Hr as _ <-.
  - apply (write_override_run _ _ _ _ _ _ _ events) in Hr as (saved & Hp & Hc'); [|done]. exists (events ++ [saved]). split_and!; [done|done|done| |].
    + rewrite foldl_app. cbn [foldl]. unfold enabled_said at 1. rewrite Hp. by rewrite bool_decide_eq_true_2.
    + rewrite foldl_app. cbn [foldl]. unfold pause_said at 1. by rewrite Hp.
Qed.

(** ** What a trigger resolves *)

Lemma override_state_holds t events c r c1 : overrideState env options t c = (r, c1) → holds stream events c → holds stream events c1.
Proof using Hothers.
  intros Ho Hc. unfold overrideState in Ho. destruct (negb _); [by injection Ho as _ <-|]. rewrite m_bind_run in Ho.
  unfold m_lift at 1 in Ho. destruct (jobScheduleOverridesStream t) as [s|]; [|by injection Ho as _ <-].
  rewrite m_bind_run in Ho. unfold read_schedules, observe in Ho. rewrite m_bind_run in Ho. apply holds_await in Hc.
  set (c0 := (awaited env c).2) in *. change (awaited env c) with (Ok tt, c0) in Ho. cbv iota beta in Ho. rewrite m_bind_run in Ho. cbn [m_get] in Ho.
  unfold m_lift in Ho. destruct (readStream _ _ _); by injection Ho as _ <-.
Qed.

(** The states that the loop remembers. *)
Definition states_ok (events : list DomainEvent) (states : list (jstr * JobScheduleOverrideState)) : Prop := ∀ state,
  jm_get tenantId states = Some state → jos_tenantId state = tenantId ∧ jos_overrides state = foldl fold_override [] events.

Lemma remembered_run events states t c state states' c' : holds stream events c → states_ok events states →
  remembered_state env options states t c = (Ok (state, states'), c') →
  holds stream events c' ∧ states_ok events states' ∧
  (t = tenantId → jos_tenantId state = tenantId ∧ jos_overrides state = foldl fold_override [] events).
Proof using Hstream Hothers Hevents.
  intros Hc Hok Hr. unfold remembered_state in Hr.
  assert (∀ state, (t = tenantId → jos_tenantId state = tenantId ∧ jos_overrides state = foldl fold_override [] events) →
    states_ok events (jm_set t state states)) as Hset.
  { intros state' Hs state'' Hg. rewrite jm_get_set in Hg. destruct (decide (tenantId = t)) as [E|]; [|by apply Hok]. injection Hg as <-. by apply Hs. }
  destruct (jm_get t states) as [found|] eqn:Eg.
  - injection Hr as <- <- <-. assert (t = tenantId → jos_tenantId found = tenantId ∧ jos_overrides found = foldl fold_override [] events) as Hf
      by (intros ->; by apply Hok). split_and!; [done| |done]. by apply Hset.
  - rewrite m_bind_run in Hr. destruct (overrideState env options t c) as [[read|] c1] eqn:Eo; [|done]. injection Hr as <- <- <-.
    assert (t = tenantId → jos_tenantId read = tenantId ∧ jos_overrides read = foldl fold_override [] events) as Hf.
    { intros ->. destruct (override_state_run events c Hc) as (state & c2 & Hs & _ & ? & ?). rewrite Hs in Eo. by injection Eo as <- _. }
    split_and!; [by eapply override_state_holds| |done]. by apply Hset.
Qed.

(** What a schedule is resolved to, if its override is in the stream. *)
Definition resolved (events : list DomainEvent) (entry : nat * Schedule) (run : Schedule) : Prop :=
  jsd_cron run = jsd_cron entry.2 ∧ jsd_id run = jsd_id entry.2 ∧ jsd_jobName run = jsd_jobName entry.2 ∧
  jsd_tenantId run = jsd_tenantId entry.2 ∧ jsd_payload run = jsd_payload entry.2 ∧ jsd_idempotencyKey run = jsd_idempotencyKey entry.2 ∧
  ∀ scheduleId, overrideable scheduleId entry.2 → ∃ at_,
    let paused := match foldl (pause_said scheduleId) None events with Some until => time_after until at_ | None => false end in
    let enabled := default (configured_enabled entry.2) (foldl (enabled_said scheduleId) None events) && negb paused in
    jsd_enabled run = Some (StaticValue enabled) ∨ jsd_enabled run = None ∧ enabled = true.

Lemma effective_resolved events index (schedule : Schedule) state at_ :
  (staticJobScheduleTenantId schedule = Some tenantId → jos_tenantId state = tenantId ∧ jos_overrides state = foldl fold_override [] events) →
  resolved events (index, schedule) (effectiveJobSchedule schedule
    (jobScheduleSummaryFor schedule index state registry (jsv_events options) (jsv_runner options) at_ Configured)).
Proof using Hevents.
  intros Hstate. unfold resolved. cbn [fst snd].
  assert (∀ summary, let run := effectiveJobSchedule schedule summary in jsd_cron run = jsd_cron schedule ∧ jsd_id run = jsd_id schedule ∧
    jsd_jobName run = jsd_jobName schedule ∧ jsd_tenantId run = jsd_tenantId schedule ∧ jsd_payload run = jsd_payload schedule ∧
    jsd_idempotencyKey run = jsd_idempotencyKey schedule) as Hsame by (intros summary; unfold effectiveJobSchedule; by destruct (negb _)).
  split_and!; [apply Hsame..|]. intros scheduleId (Hid & Ht & Hd). exists at_. destruct (Hstate Ht) as [Hs Ho].
  destruct (enabled_in_force schedule index tenantId scheduleId events registry (jsv_runner options) at_ Hid Ht Hd) as [He Hrun].
  assert (jobScheduleSummaryFor schedule index state registry (jsv_events options) (jsv_runner options) at_ Configured =
    jobScheduleSummaryFor schedule index (foldJobScheduleOverrides tenantId events) registry true (jsv_runner options) at_ Configured) as ->.
  { unfold jobScheduleSummaryFor. rewrite Hs, Ho, Hevents. done. }
  cbv zeta in He. rewrite He in Hrun. destruct Hrun as [Hrun|(Hn & He' & Hrun)]; [by left|]. right. by rewrite Hrun.
Qed.

Lemma configured_run events cron schedules states c l states' c' : holds stream events c → states_ok events states →
  configured_for_cron clock env registry options cron schedules states c = (Ok (l, states'), c') →
  Forall2 (resolved events) (filter (λ entry : nat * Schedule, jsd_cron entry.2 = cron) schedules) l.
Proof using Hstream Hothers Hevents.
  revert states c l states' c'. induction schedules as [|[index schedule] schedules IH]; intros states c l states' c' Hc Hok Hr; [by injection Hr as <- _ _|].
  cbn [configured_for_cron] in Hr. rewrite filter_cons. cbn [snd]. case_bool_decide as Hcron; cbn [negb] in Hr.
  2: { rewrite decide_False by done. by eapply IH. }
  rewrite decide_True by done. destruct (staticJobScheduleTenantId schedule) as [t|] eqn:Et.
  - rewrite m_bind_run in Hr. destruct (remembered_state env options states t c) as [[[state states1]|] c1] eqn:Em; [|done].
    apply (remembered_run events) in Em as (Hc1 & Hok1 & Hstate); [|done..]. cbn [fst snd] in Hr. rewrite m_bind_run in Hr.
    unfold summaryFor in Hr. rewrite m_bind_run in Hr. cbn [now] in Hr.
    change (mret (M := M (Client (JobStore DocumentStore))) ?x c1) with (Ok x, c1) in Hr. cbv iota beta in Hr. rewrite m_bind_run in Hr.
    destruct (configured_for_cron _ _ _ _ cron schedules states1 c1) as [[[rest states2]|] c2] eqn:Er; [|done]. injection Hr as <- <- <-. constructor.
    + apply effective_resolved. intros Ht. apply Hstate. congruence.
    + by eapply IH.
  - rewrite m_bind_run in Hr. destruct (configured_for_cron _ _ _ _ cron schedules states c) as [[[rest states2]|] c2] eqn:Er; [|done].
    injection Hr as <- <- <-. constructor; [|by eapply IH]. split_and!; [done..|]. intros scheduleId (_ & Ht & _). cbn in Ht. congruence.
Qed.

Lemma schedules_for_cron_run events cron c l c' : holds stream events c →
  schedulesForCron clock env registry options cron c = (Ok l, c') →
  ∃ configured runtime, l = configured ++ runtime ∧
    Forall2 (resolved events) (filter (λ entry : nat * Schedule, jsd_cron entry.2 = cron) (imap pair (jsv_schedules options))) configured.
Proof using Hstream Hothers Hevents.
  intros Hc Hr. unfold schedulesForCron in Hr. rewrite m_bind_run in Hr.
  destruct (configured_for_cron _ _ _ _ _ _ _ c) as [[[configured states]|] c1] eqn:Eq; [|done].
  apply (configured_run events) in Eq; [|done|by intros state]. rewrite m_bind_run in Hr.
  destruct (definitionState env options c1) as [[definitions|] c2]; [|done]. rewrite m_bind_run in Hr.
  destruct (runtime_for_cron _ _ _ _ _ _ _ c2) as [[runtime|] c3]; [|done]. injection Hr as <- <-. by exists configured, runtime.
Qed.
End reading.

(** ** What a trigger sends *)

Section sending.
Context `{TimeHost} (ids clock : nat → jstr) (env : nat → JobStore DocumentStore → JobStore DocumentStore).
Context (registry : JobRegistry (JobHandler DocumentStore)).

(** What is sent for a schedule in a context. *)
Definition sent_for (context : ScheduledJobContext) (prefix : jstr) (schedule : Schedule) (message : JobMessage) : Prop :=
  jmsg_jobName message = jsd_jobName schedule ∧ message_json message ∧
  (∀ tenantId, staticJobScheduleTenantId schedule = Some tenantId → message_tenant message = tenantId) ∧
  (∀ payload, jsd_payload schedule = Some (StaticValue payload) → jmsg_payload message = payload) ∧
  (jsd_idempotencyKey schedule = None → jmsg_idempotencyKey message = scheduled_key prefix context (jsd_jobName schedule)).

Lemma dispatch_enabled_run schedule context prefix extra c message c' :
  dispatchEnabledScheduledJob ids clock env registry schedule context prefix extra c = (Ok message, c') →
  sent_for context (default (js "scheduled") prefix) schedule message.
Proof using Type.
  unfold dispatchEnabledScheduledJob. rewrite m_bind_run. destruct (dispatchCommand schedule context prefix extra c) as [[command|] c1] eqn:Eq; [|done].
  intros (Ht & Hn & Hp & _ & Hk & Hj & _)%dispatch_sends.
  unfold dispatchCommand in Eq. rewrite m_bind_run in Eq. destruct (resolveValue (jsd_payload schedule) context [] c) as [[payload|] c2] eqn:Ep; [|done].
  rewrite m_bind_run in Eq. destruct (resolve_optional (jsd_tenantId schedule) context c2) as [[tenant|] c3] eqn:Et; [|done].
  rewrite m_bind_run in Eq. destruct (resolveValue (jsd_metadata schedule) context [] c3) as [[metadata|] c4]; [|done]. cbv zeta in Eq. rewrite m_bind_run in Eq.
  match type of Eq with context [match ?m c4 with _ => _ end] => destruct (m c4) as [[key|] c5] eqn:Ek; [|done] end. injection Eq as <- <-. cbn in Ht, Hn, Hp, Hk.
  split_and!; [done|done| | |].
  - intros t Hs. unfold message_tenant. rewrite Ht. cbn. unfold staticJobScheduleTenantId in Hs. unfold resolve_optional in Et.
    destruct (jsd_tenantId schedule) as [[v|f]|]; [|done|]; injection Hs as <-; by injection Et as <- <-.
  - intros p Hs. rewrite Hp. unfold resolveValue in Ep. rewrite Hs in Ep. by injection Ep as <- <-.
  - intros Hs. rewrite Hk. rewrite Hs in Ek. by injection Ek as <- <-.
Qed.

Lemma dispatch_schedules_run context schedules c messages c' :
  dispatch_schedules ids clock env registry context schedules c = (Ok messages, c') →
  ∃ sent, sent `sublist_of` schedules ∧ Forall (λ schedule, jsd_enabled schedule ≠ Some (StaticValue false)) sent ∧
    Forall2 (sent_for context (js "scheduled")) sent messages.
Proof using Type.
  revert c messages c'. induction schedules as [|schedule schedules IH]; intros c messages c' Hr; cbn [dispatch_schedules] in Hr.
  - injection Hr as <- <-. exists []. by split_and!.
  - rewrite m_bind_run in Hr. destruct (isScheduleEnabled schedule context c) as [[[]|] c1] eqn:Ee; cbn [negb] in Hr; [|..|done].
    + rewrite m_bind_run in Hr. destruct (dispatchEnabledScheduledJob _ _ _ _ schedule context None None c1) as [[message|] c2] eqn:Ed; [|done].
      rewrite m_bind_run in Hr. destruct (dispatch_schedules _ _ _ _ context schedules c2) as [[rest|] c3] eqn:Er; [|done]. injection Hr as <- <-.
      destruct (IH _ _ _ Er) as (sent & Hs & Hf & H2). exists (schedule :: sent). apply dispatch_enabled_run in Ed.
      split_and!; [by constructor| |by constructor]. constructor; [|done]. intros Hfalse. unfold isScheduleEnabled, resolveValue in Ee. by rewrite Hfalse in Ee.
    + destruct (IH _ _ _ Hr) as (sent & Hs & Hf & H2). exists sent. split_and!; [by constructor|done..].
Qed.
End sending.

(** C12: What an administrator disables stays silent.  When a disabling of a schedule of
    the configuration returns, then - as long as nobody writes to the overrides of the
    tenant - every trigger at any later time resolves this schedule as disabled, and what
    a trigger that returns has sent, in order, are runs of other schedules that it
    resolved.  Other clients may do anything else at each [await]. *)
Theorem disabled_schedule_silent `{TimeHost} `{Collation} ids clock env registry options tenantId stream actor scheduleId explicit metadata summary c c1 :
  jobScheduleOverridesStream tenantId = Ok stream → others_let env stream → jsv_events options = true →
  planJobScheduleAccess actor (jsv_adminRoles options) explicit = Ok tenantId → wf_streams (schedule_streams (cl_store c)) →
  setEnabled ids clock env registry options actor scheduleId false explicit metadata c = (Ok summary, c1) →
  ∃ index schedule, configured_schedule options scheduleId = Some (index, schedule) ∧ jsd_id schedule = Some scheduleId ∧
  ∀ cron c2 schedules c3, wf_streams (schedule_streams (cl_store c2)) →
    stream_events (schedule_streams (cl_store c2)) stream = stream_events (schedule_streams (cl_store c1)) stream →
    schedulesForCron clock env registry options cron c2 = (Ok schedules, c3) →
    (∃ configured runtime, schedules = configured ++ runtime ∧
      Forall2 (λ entry run, jsd_jobName run = jsd_jobName entry.2 ∧ (entry.1 = index → jsd_enabled run = Some (StaticValue false)))
        (filter (λ entry : nat * Schedule, jsd_cron entry.2 = cron) (imap pair (jsv_schedules options))) configured) ∧
    ∀ scheduledTime messages c4, dispatchScheduledJobs ids clock env registry cron scheduledTime schedules c3 = (Ok messages, c4) →
    ∃ sent, sent `sublist_of` schedules ∧ Forall (λ run, jsd_enabled run ≠ Some (StaticValue false)) sent ∧
      Forall2 (sent_for (scheduled_context cron scheduledTime) (js "scheduled")) sent messages.
Proof.
  intros Hstream Hothers Hevents Ha Hwf Hr.
  destruct (set_enabled_run ids clock env registry options tenantId stream Hstream Hothers Hevents actor scheduleId false explicit metadata summary
    (stream_events (schedule_streams (cl_store c)) stream) c c1 Ha ltac:(by split) Hr) as (schedule & index & events & Hf & Ho & Hc1 & He & _).
  exists index, schedule. split; [done|]. split; [apply Ho|]. intros cron c2 schedules c3 Hwf2 Hsame Hs. destruct Hc1 as [_ Hev]. rewrite Hev in Hsame. split.
  - destruct (schedules_for_cron_run clock env registry options tenantId stream Hstream Hothers Hevents events cron c2 schedules c3 ltac:(by split) Hs)
      as (configured & runtime & -> & Hres). exists configured, runtime. split; [done|].
    apply configured_found in Hf as [_ Hlookup]. eapply Forall2_impl_elem; [exact Hres|].
    intros [i s] run Hin (_ & _ & Hn & _ & _ & _ & Hen). split; [done|]. cbn. intros ->.
    apply list_elem_of_filter in Hin as [_ [j Hj]%list_elem_of_lookup]. rewrite list_lookup_imap in Hj.
    apply fmap_Some in Hj as (s' & Hs' & [= -> ->]). rewrite Hlookup in Hs'. injection Hs' as <-. destruct (Hen _ Ho) as [at_ Hrun]. cbn in Hrun.
    rewrite He in Hrun. by destruct Hrun as [?|[_ ?]].
  - intros scheduledTime messages c4 Hd. unfold dispatchScheduledJobs in Hd. apply dispatch_schedules_run in Hd as (sent & Hsub & Hsent).
    exists sent. split; [|done]. etrans; [exact Hsub|apply sublist_filter].
Qed.

(** C15: Two schedules of one job under one cron expression share the runs of a trigger.
    Without keys of their own, and in one tenant, what the trigger sends for both has the
    same key, whatever their payloads: once an executor has begun one of the messages, the
    other one is not begun while that runs or after it succeeded. *)
Theorem same_key_skipped ids clock env registry context first second tenantId c1 m1 c1' c2 m2 c2' :
  staticJobScheduleTenantId first = Some tenantId → staticJobScheduleTenantId second = Some tenantId → jsd_jobName first = jsd_jobName second →
  jsd_idempotencyKey first = None → jsd_idempotencyKey second = None →
  dispatchEnabledScheduledJob ids clock env registry first context None None c1 = (Ok m1, c1') →
  dispatchEnabledScheduledJob ids clock env registry second context None None c2 = (Ok m2, c2') →
  message_key m1 = message_key m2 ∧
  ∀ records, key_taken records (message_key m1) → ∀ startedAt r records', log_begin m2 startedAt records = (r, records') →
    records' = records ∧ ∀ record, r ≠ Ok (BeginStarted record).
Proof.
  intros Ht1 Ht2 Hn Hk1 Hk2 (Hj1 & _ & T1 & _ & K1)%dispatch_enabled_run (Hj2 & _ & T2 & _ & K2)%dispatch_enabled_run.
  assert (message_key m1 = message_key m2) as Hkey.
  { unfold message_key. rewrite (T1 _ Ht1), (T2 _ Ht2), (K1 Hk1), (K2 Hk2), Hn. done. }
  split; [done|]. intros records Htaken startedAt r records' Hb. rewrite Hkey in Htaken.
  apply log_begin_cases in Hb as [(_ & -> & Hdup)|[(Hfree & _)|(Hfree & _)]]; [|done..]. split; [done|].
  intros record ->. by destruct (Hdup _ eq_refl).
Qed.

(** An enabled schedule of the configuration whose job is not registered, which nothing
    refuses before, ends the trigger: the schedules after it are not sent, and as the error
    is a permanent one the trigger is not tried again. *)
Theorem unregistered_stops_trigger ids clock env registry context schedule rest payload c :
  get_job registry (jsd_jobName schedule) = Throw (notFound JOB_NOT_FOUND) → jsd_enabled schedule = None → jsd_tenantId schedule = None →
  jsd_payload schedule = StaticValue <$> payload → jsd_metadata schedule = None → jsd_idempotencyKey schedule = None →
  dispatch_schedules ids clock env registry context (schedule :: rest) c = (Throw (notFound JOB_NOT_FOUND), c) ∧
  (err_status (notFound JOB_NOT_FOUND) <? 500)%Z = true.
Proof.
  intros Hj He Ht Hp Hm Hk. split; [|done]. cbn [dispatch_schedules]. rewrite m_bind_run. unfold isScheduleEnabled, resolveValue at 1. rewrite He.
  change (mret (M := M (Client (JobStore DocumentStore))) true c) with (Ok true, c). cbv iota beta. cbn [negb]. rewrite m_bind_run.
  assert (∃ command, dispatchCommand schedule context None None c = (Ok command, c) ∧ djc_jobName command = jsd_jobName schedule) as (command & Hc & Hn).
  { unfold dispatchCommand, resolve_optional, resolveValue. rewrite Hp, Ht, Hm, Hk. destruct payload as [payload|]; by eexists. }
  unfold dispatchEnabledScheduledJob. rewrite m_bind_run, Hc. unfold dispatch. rewrite m_bind_run. unfold m_lift at 1. by rewrite Hn, Hj.
Qed.

(** ** Saving schedules *)

Lemma fold_definition_selected events schedules :
  foldl fold_definition schedules (selected (schedule_read_options JOB_SCHEDULE_DEFINITION_PAYLOAD_KINDS) events) = foldl fold_definition schedules events.
Proof.
  revert schedules. induction events as [|event events IH]; intros schedules; [done|]. unfold selected. rewrite filter_cons.
  destruct (decide _) as [Hm|Hm]; cbn [foldl]; [apply IH|]. fold (selected (schedule_read_options JOB_SCHEDULE_DEFINITION_PAYLOAD_KINDS) events).
  rewrite IH. f_equal. unfold fold_definition. destruct (e_payload event) eqn:E; try done; exfalso; apply Hm;
    unfold read_matches, domainEventPayloadKind; rewrite E; by vm_compute.
Qed.

(** What the stream of definitions says of a tenant's schedule. *)
Definition schedule_in_force (tenantId scheduleId : jstr) (events : list DomainEvent) : option RuntimeJobScheduleRecord :=
  foldl (definition_said tenantId scheduleId) None events.

Section saving.
Context `{TimeHost} `{Collation} (ids clock : nat → jstr).
Context (env : nat → JobStore DocumentStore → JobStore DocumentStore).
Context (registry : JobRegistry (JobHandler DocumentStore)) (options : JobScheduleServiceOptions).
Context (stream : jstr) (Hstream : jobScheduleDefinitionsStream = Ok stream) (Hothers : others_let env stream).

Lemma definition_state_run events c : jsv_events options = true → holds stream events c →
  ∃ state c1, definitionState env options c = (Ok state, c1) ∧ holds stream events c1 ∧
  ∀ tenantId scheduleId, runtimeJobScheduleForTenant state tenantId scheduleId = schedule_in_force tenantId scheduleId events.
Proof using Hstream Hothers.
  intros Hevents Hc. apply (holds_await env stream Hothers) in Hc as Hc1. unfold definitionState. rewrite Hevents. cbn [negb]. rewrite m_bind_run. unfold m_lift. rewrite Hstream.
  rewrite m_bind_run. unfold read_schedules, observe. rewrite m_bind_run. destruct Hc1 as [Hwf He].
  set (c1 := (awaited env c).2) in *. change (awaited env c) with (Ok tt, c1). cbv iota beta. rewrite m_bind_run. cbn [m_get].
  unfold m_lift. fold (schedule_streams (cl_store c1)). rewrite readStream_selected by done. rewrite He.
  eexists _, c1. split; [done|]. split; [by split|]. intros t s. unfold runtimeJobScheduleForTenant, foldJobScheduleDefinitions, foldJobScheduleDefinitionsFrom. cbn [jdf_schedules].
  rewrite fold_definition_selected. apply (definitions_said events [] t s). split; [apply jm_wf_nil|constructor].
Qed.

(** What a save that returns has written. *)
Lemma save_run actor command tenantId summary events c c' : jsv_events options = true →
  planJobScheduleAccess actor (jsv_adminRoles options) (sjs_tenantId command) = Ok tenantId → holds stream events c →
  save_schedule ids clock env registry options actor command c = (Ok summary, c') →
  ∃ generatedId normalized existing schedule (event : DomainEvent),
    normalizeJobScheduleRuntimeDefinition command tenantId generatedId = Ok normalized ∧
    (match sjs_id command with
    | Some id => generatedId = id ∧ existing = schedule_in_force tenantId (trim id) events
    | None => existing = None
    end) ∧
    schedule = mergePreservedJobScheduleRuntimeFields command normalized existing ∧
    ensureJobScheduleRuntimeCronTriggerConfigured (rjs_cron schedule) (jsv_runtimeCronTriggers options) = Ok tt ∧
    (rjs_id schedule ∉ configuredJobScheduleIds (jsv_schedules options)) ∧ has_job registry (rjs_jobName schedule) = true ∧
    e_payload event = jobScheduleSavedPayload tenantId schedule ∧ holds stream (events ++ [event]) c' ∧
    sum_id summary = rjs_id schedule ∧ sum_enabled summary = rjs_enabled schedule.
Proof using Hstream Hothers.
  intros Hevents Ha Hc Hr. unfold save_schedule, authorize_schedules in Hr. rewrite Ha in Hr. rewrite m_bind_run in Hr. unfold m_lift at 1 in Hr.
  unfold require_events in Hr. rewrite Hevents in Hr. rewrite m_bind_run in Hr. cbn [m_ensure ensure m_lift] in Hr. rewrite m_bind_run in Hr.
  destruct (definition_state_run events c Hevents Hc) as (state & c1 & Hs & Hc1 & Hstate). rewrite Hs in Hr. rewrite m_bind_run in Hr.
  match type of Hr with context [m_lift ?m c1] => destruct m as [existing|] eqn:Ee end; [|done]. cbn [m_lift] in Hr. rewrite m_bind_run in Hr.
  match type of Hr with context [match ?m c1 with _ => _ end] => destruct (m c1) as [[generatedId|] c2] eqn:Eg end; [|done].
  assert (holds stream events c2 ∧ match sjs_id command with
    | Some id => generatedId = id ∧ existing = schedule_in_force tenantId (trim id) events
    | None => existing = None
    end) as [Hc2 Hgiven].
  { destruct (sjs_id command) as [id|]; [|by injection Eg as <- <-; injection Ee as <-]. injection Eg as <- <-. split; [done|]. split; [done|].
    unfold normalizeJobScheduleId in Ee. case_bool_decide; [done|]. cbn in Ee. injection Ee as <-. apply Hstate. }
  rewrite m_bind_run in Hr. unfold m_lift at 1 in Hr. destruct (normalizeJobScheduleRuntimeDefinition _ _ _) as [normalized|] eqn:En; [|done].
  cbv zeta in Hr. set (schedule := mergePreservedJobScheduleRuntimeFields command normalized existing) in *.
  rewrite m_bind_run in Hr. unfold m_lift at 1 in Hr. destruct (ensureJobScheduleRuntimeCronTriggerConfigured _ _) as [[]|] eqn:Et; [|done].
  rewrite m_bind_run in Hr. unfold m_lift at 1 in Hr. destruct (planJobScheduleDefinitionSave _ _) as [[]|] eqn:Ep; [|done].
  rewrite Hstream in Hr. rewrite m_bind_run in Hr. cbn [m_lift] in Hr. rewrite m_bind_run in Hr.
  destruct (append_schedule_event _ _ _ _ _ _ _ _ _ _ c2) as [[[]|] c3] eqn:Ea; [|done].
  apply (append_event_run ids clock env tenantId stream Hothers _ _ _ _ _ events) in Ea as (event & Hp & Hc3); [|done].
  rewrite m_bind_run in Hr. destruct (definition_state_run _ c3 Hevents Hc3) as (updated & c4 & Hu & Hc4 & Hupdated). rewrite Hu in Hr.
  rewrite m_bind_run in Hr. unfold m_lift at 1 in Hr. unfold requireSavedRuntimeJobSchedule in Hr. rewrite Hupdated in Hr.
  unfold schedule_in_force in Hr. rewrite foldl_app in Hr. cbn [foldl] in Hr. unfold definition_said at 1 in Hr. rewrite Hp in Hr.
  cbn [jobScheduleSavedPayload jss_tenantId jss_scheduleId] in Hr. rewrite bool_decide_eq_true_2 in Hr by done. rewrite m_bind_run in Hr.
  destruct (overrideState env options tenantId c4) as [[overrides|] c5] eqn:Eo; [|done].
  eapply (override_state_holds env options stream Hothers) in Eo as Hc5; [|exact Hc4].
  unfold summaryFor in Hr. rewrite m_bind_run in Hr. cbn [now] in Hr. injection Hr as <- <-.
  unfold planJobScheduleDefinitionSave in Ep. apply bind_ok in Ep as (u & Hnc%ensure_ok & Hreg%ensure_ok).
  apply negb_true_iff, bool_decide_eq_false in Hnc.
  exists generatedId, normalized, existing, schedule, event. split; [done|]. split; [done|]. split; [done|].
  split_and!; [done..|]. cbn. rewrite andb_true_r. by destruct (rjs_enabled schedule).
Qed.
End saving.

(** C13: A schedule that is saved is in force.  When a save returns - beside clients who let
    the stream of definitions be - the tenant has under the name what the command said, normalized, with the
    fields that the command asks to keep from the schedule that was there; its job is
    registered, its cron expression is one that triggers, and its name is none of the
    configuration; the summary answers its state; and no other schedule of any tenant has
    changed. *)
Theorem saved_schedule_in_force `{TimeHost} `{Collation} ids clock env registry options stream actor command tenantId summary c c' :
  jobScheduleDefinitionsStream = Ok stream → others_let env stream → jsv_events options = true →
  planJobScheduleAccess actor (jsv_adminRoles options) (sjs_tenantId command) = Ok tenantId → wf_streams (schedule_streams (cl_store c)) →
  save_schedule ids clock env registry options actor command c = (Ok summary, c') →
  let before := stream_events (schedule_streams (cl_store c)) stream in
  let after := stream_events (schedule_streams (cl_store c')) stream in
  ∃ schedule saved, schedule_in_force tenantId (rjs_id schedule) after = Some saved ∧
    (∃ updatedAt updatedBy, saved = {| rjs_id := rjs_id schedule; rjs_cron := rjs_cron schedule; rjs_jobName := rjs_jobName schedule;
      rjs_tenantId := tenantId; rjs_enabled := rjs_enabled schedule; rjs_payload := rjs_payload schedule; rjs_metadata := rjs_metadata schedule;
      rjs_idempotencyKey := rjs_idempotencyKey schedule; rjs_delaySeconds := rjs_delaySeconds schedule;
      rjs_updatedAt := updatedAt; rjs_updatedBy := updatedBy |}) ∧
    (∃ generatedId normalized, (∀ id, sjs_id command = Some id → generatedId = id) ∧
      normalizeJobScheduleRuntimeDefinition command tenantId generatedId = Ok normalized ∧
      schedule = mergePreservedJobScheduleRuntimeFields command normalized (sjs_id command ≫= λ id, schedule_in_force tenantId (trim id) before)) ∧
    has_job registry (rjs_jobName schedule) = true ∧ (rjs_id schedule ∉ configuredJobScheduleIds (jsv_schedules options)) ∧
    ensureJobScheduleRuntimeCronTriggerConfigured (rjs_cron schedule) (jsv_runtimeCronTriggers options) = Ok tt ∧
    sum_id summary = rjs_id schedule ∧ sum_enabled summary = rjs_enabled schedule ∧
    ∀ otherTenant otherId, (otherTenant, otherId) ≠ (tenantId, rjs_id schedule) →
      schedule_in_force otherTenant otherId after = schedule_in_force otherTenant otherId before.
Proof.
  intros Hstream Hothers Hevents Ha Hwf Hr before after.
  destruct (save_run ids clock env registry options stream Hstream Hothers actor command tenantId summary before c c' Hevents Ha ltac:(by split) Hr)
    as (generatedId & normalized & existing & schedule & event & Hn & Hgiven & Hm & Ht & Hnc & Hreg & Hp & [_ Hafter] & Hid & Hen).
  assert (∀ t s, schedule_in_force t s after = definition_said t s (schedule_in_force t s before) event) as Hsaid
    by (intros t s; unfold after, schedule_in_force; by rewrite Hafter, foldl_app).
  exists schedule, (saved_schedule event {| jss_scheduleId := rjs_id schedule; jss_cron := rjs_cron schedule; jss_jobName := rjs_jobName schedule;
    jss_tenantId := tenantId; jss_enabled := rjs_enabled schedule; jss_payload := rjs_payload schedule;
    jss_metadata := rjs_metadata schedule; jss_idempotencyKey := rjs_idempotencyKey schedule; jss_delaySeconds := rjs_delaySeconds schedule |}).
  split; [rewrite Hsaid; unfold definition_said; rewrite Hp; cbn; by rewrite bool_decide_eq_true_2|].
  split; [by eexists _, _|]. split.
  { exists generatedId, normalized. split; [|split; [done|]].
    - intros id Hgivenid. rewrite Hgivenid in Hgiven. apply Hgiven.
    - rewrite Hm. f_equal. destruct (sjs_id command); [apply Hgiven|exact Hgiven]. }
  split_and!; [done..|]. intros t s Hne. rewrite Hsaid. unfold definition_said. rewrite Hp. cbn.
  rewrite bool_decide_eq_false_2; [done|]. intros [<- <-]. by apply Hne.
Qed.

(** ** Witnesses: a nightly report *)

Definition sample_schedule_registry : JobRegistry (JobHandler DocumentStore) :=
  {| jr_jobs := [(js "report", {| jd_name := js "report"; jd_description := None; jd_pool := None; jd_retry := None;
       jd_handler := λ _, mret (inr (VBool true)) |})];
     jr_pools := [] |}.
Definition sample_nightly (payload : option data) : Schedule :=
  {| jsd_id := Some (js "nightly"); jsd_cron := js "0 0 * * *"; jsd_jobName := js "report"; jsd_enabled := None; jsd_tenantId := None;
     jsd_payload := StaticValue <$> payload; jsd_metadata := None; jsd_idempotencyKey := None; jsd_delaySeconds := None |}.
Definition sample_schedule_options : JobScheduleServiceOptions :=
  {| jsv_schedules := [sample_nightly None]; jsv_runner := true; jsv_events := true; jsv_adminRoles := [js "System Manager"];
     jsv_runtimeCronTriggers := None |}.
Definition sample_schedule_client : Client (JobStore DocumentStore) :=
  new_client {| jst_records := []; jst_queue := []; jst_resources := empty_store |}.
Definition sample_overrides_stream : jstr := Eval vm_compute in
  match jobScheduleOverridesStream DEFAULT_TENANT_ID with Ok stream => stream | Throw _ => [] end.
Definition sample_definitions_stream : jstr := Eval vm_compute in
  match jobScheduleDefinitionsStream with Ok stream => stream | Throw _ => [] end.
Abbreviation sample_disabling := (@setEnabled sample_time code_unit_collation (λ _, js "evt") (λ _, js "t") (λ _ s, s) sample_schedule_registry
  sample_schedule_options sample_retry_actor (js "nightly") false None None sample_schedule_client).

Lemma others_idle stream : others_let (λ _ s, s) stream.
Proof. by intros k s Hwf. Qed.

Abbreviation sample_resolving := (@schedulesForCron sample_time code_unit_collation (λ _, js "t") (λ _ s, s) sample_schedule_registry
  sample_schedule_options (js "0 0 * * *") sample_disabling.2).

Lemma disabled_schedule_silent_witness :
  is_ok sample_disabling.1 = true ∧ ∃ run runs, sample_resolving.1 = Ok (run :: runs) ∧ jsd_enabled run = Some (StaticValue false).
Proof.
  assert (is_ok sample_disabling.1 = true) as Hok by (vm_compute; reflexivity). split; [exact Hok|].
  assert (is_ok sample_resolving.1 = true) as Hok2 by (vm_compute; reflexivity).
  revert Hok Hok2. destruct sample_disabling as [[summary|e] c1] eqn:Ec; [|discriminate 1]. intros _. cbn [snd].
  destruct (@schedulesForCron sample_time code_unit_collation _ _ _ _ _ c1) as [[schedules|e] c3] eqn:Es; [|discriminate 1]. intros _.
  destruct (@set_enabled_run sample_time code_unit_collation (λ _, js "evt") (λ _, js "t") (λ _ s, s) sample_schedule_registry sample_schedule_options
    DEFAULT_TENANT_ID sample_overrides_stream eq_refl (others_idle _) eq_refl sample_retry_actor (js "nightly") false None None summary [] sample_schedule_client c1
    eq_refl (conj wf_streams_nil eq_refl) Ec) as (_ & _ & _ & _ & _ & [Hwf _] & _).
  destruct (@disabled_schedule_silent sample_time code_unit_collation (λ _, js "evt") (λ _, js "t") (λ _ s, s) sample_schedule_registry sample_schedule_options
    DEFAULT_TENANT_ID sample_overrides_stream sample_retry_actor (js "nightly") None None summary sample_schedule_client c1)
    as (index & schedule & Hf & _ & Htrigger); [vm_compute; reflexivity|apply others_idle|reflexivity|reflexivity|apply wf_streams_nil|exact Ec|].
  destruct (Htrigger _ c1 _ c3 Hwf eq_refl Es) as [(configured & runtime & -> & Hres) _].
  replace (filter _ _) with [(0, sample_nightly None)] in Hres by (vm_compute; reflexivity).
  apply Forall2_cons_inv_l in Hres as (run & runs & [_ Hrun] & _ & ->). exists run, (runs ++ runtime). split; [reflexivity|].
  apply Hrun. vm_compute in Hf. injection Hf as <- _. reflexivity.
Defined.

(** Two schedules of one job for different reports, without keys of their own, and the log
    after the run of the first one has begun. *)
Definition sample_context : ScheduledJobContext := @scheduled_context sample_time (js "0 0 * * *") 3.
Abbreviation sample_sending report := (dispatchEnabledScheduledJob (λ _, js "run") (λ _, js "t") (λ _ s, s) sample_schedule_registry
  (sample_nightly (Some [(js "report", VStr (js report))])) sample_context None None sample_schedule_client).
Definition sample_sales : JobMessage := ltac:(let r := eval vm_compute in (sample_sending "sales").1 in match r with Ok ?m => exact m end).
Definition sample_stock : JobMessage := ltac:(let r := eval vm_compute in (sample_sending "stock").1 in match r with Ok ?m => exact m end).
Definition sample_begun : job_log := (log_begin sample_sales (js "t") []).2.

Lemma same_key_skipped_witness :
  jmsg_payload sample_sales ≠ jmsg_payload sample_stock ∧ message_key sample_sales = message_key sample_stock ∧
  sample_begun ≠ [] ∧ (log_begin sample_stock (js "t") sample_begun).2 = sample_begun.
Proof.
  split; [discriminate|].
  destruct (same_key_skipped (λ _, js "run") (λ _, js "t") (λ _ s, s) sample_schedule_registry sample_context
    (sample_nightly (Some [(js "report", VStr (js "sales"))])) (sample_nightly (Some [(js "report", VStr (js "stock"))])) DEFAULT_TENANT_ID
    sample_schedule_client sample_sales (sample_sending "sales").2 sample_schedule_client sample_stock (sample_sending "stock").2
    eq_refl eq_refl eq_refl eq_refl eq_refl ltac:(vm_compute; reflexivity) ltac:(vm_compute; reflexivity)) as [Hkey Hbegin].
  split; [exact Hkey|]. split; [discriminate|]. eapply (Hbegin sample_begun); [|apply surjective_pairing].
  eexists. split; [vm_compute; reflexivity|left; reflexivity].
Defined.

(** A weekly report that is saved while the schedule of the configuration is there. *)
Definition sample_saving : SaveJobScheduleCommand :=
  {| sjs_id := Some (js " weekly "); sjs_cron := js "0 0 * * 0"; sjs_jobName := js "report"; sjs_enabled := None; sjs_tenantId := None;
     sjs_payload := None; sjs_metadata := None; sjs_idempotencyKey := None; sjs_delaySeconds := None; sjs_eventMetadata := None;
     sjs_preserveExistingFields := true |}.
Abbreviation sample_save := (@save_schedule sample_time code_unit_collation (λ _, js "evt") (λ _, js "t") (λ _ s, s) sample_schedule_registry
  sample_schedule_options sample_retry_actor sample_saving sample_schedule_client).

Lemma saved_schedule_in_force_witness :
  is_ok sample_save.1 = true ∧
  ∃ saved, schedule_in_force DEFAULT_TENANT_ID (js "weekly") (stream_events (schedule_streams (cl_store sample_save.2)) sample_definitions_stream) = Some saved ∧
    rjs_cron saved = js "0 0 * * 0" ∧ rjs_enabled saved = true.
Proof.
  assert (is_ok sample_save.1 = true) as Hok by (vm_compute; reflexivity). split; [exact Hok|].
  destruct sample_save as [[summary|e] c'] eqn:Ec; [|discriminate Hok].
  edestruct (@saved_schedule_in_force sample_time code_unit_collation (λ _, js "evt") (λ _, js "t") (λ _ s, s) sample_schedule_registry
    sample_schedule_options sample_definitions_stream sample_retry_actor sample_saving DEFAULT_TENANT_ID summary sample_schedule_client c')
    as (schedule & saved & Hs & (updatedAt & updatedBy & Hsaved) & (generatedId & normalized & Hgiven & Hn & Hm) & _); [vm_compute; reflexivity|apply others_idle|reflexivity|
    reflexivity|apply wf_streams_nil|exact Ec|].
  rewrite (Hgiven _ eq_refl) in Hn. vm_compute in Hn. injection Hn as <-. vm_compute in Hm. subst schedule saved.
  eexists. split; [exact Hs|]. split; reflexivity.
Defined.
